(* ===== verification/_CoqProject ===== *)
-Q . S2P
Prelude.v
BitOps.v
Axmap.v
Fifo.v
IoUQueue.v
Crc.v
Xxhash.v
Digest.v
Md5.v
Sha1.v
Sha2.v
Sha256.v
Sha512.v
Sha3.v
Hash.v
Bloom.v
Pattern.v
PatternParse.v
Rand.v
Verify.v
VerifyInv.v
VerifyRun.v
VerifyDetect.v
CFloat.v
Dist.v
Lfsr.v
FlistSort.v
RandomMap.v
IoU.v
Stat.v
Flags.v
Time.v
Files.v
Buckets.v
LatTarget.v
IoULife.v
IoULifeInv.v
IoULifeRun.v
Pace.v
JobLoop.v
JobLoopInv.v
JobLoopRun.v
Flow.v
FlowRace.v
Smalloc.v
Server.v
EditDist.v
ParseNum.v
OptParse.v
Ieee754.v
Cconv.v
CconvTrip.v
Split.v
SplitInv.v
SplitBs.v
CconvSplit.v
Fixup.v
FixupInv.v
SteadyState.v
SteadyInv.v
SteadyRun.v
RbTree.v
RbInv.v
History.v
HistoryInv.v
HistoryRun.v
StatWire.v
StatTrip.v
Vstate.v
VstateRun.v
