(* ===== verification/Prelude.v ===== *)
(** * A verification library for fio 3.5

    fio issues a described I/O workload against files and devices and reports
    latencies.  A job's options become [struct thread_options]; a worker asks
    [io_u.c] for the next unit (offset, length), hands it to an engine, records
    its latency in [stat.c], and, when verification is on, checks what it wrote
    with the checksums of [crc/] and the patterns of [lib/pattern.c].  The
    offsets come from the generators of [lib/rand.c], [lib/lfsr.c],
    [lib/zipf.c] and [lib/gauss.c] over the block map of [lib/axmap.c]; the
    memory that processes share comes from [smalloc.c].  The library models
    this core; all paths below are under src/fio/fio-fio-3.5/.

    ** Files and what they model

    - [Prelude]: fixed-width integers ([wrap], [u32], [u64], [uint]), checked
      array and memory accesses ([arr_get], [mem_write]), little-endian words,
      tactics and the hint databases the other files use; [Flags]: flag words.

    Offsets and lengths of units:
    - [BitOps] ([lib/ffz.h]) and [Axmap] ([lib/axmap.c]): the level structure is
      [axmap], one definition per function; [axmap_wf] is the invariant that
      ties each level to the one below.
    - [RandomMap]: the interface between the map and its clients, the classes
      [RandomMap] and [RandomMapLaws], implemented by the axmap.
    - [Rand] ([lib/rand.c], [lib/rand.h]), [CFloat] (C doubles, on the Standard
      Library's executable IEEE specification), [Dist] ([lib/zipf.c],
      [lib/gauss.c]), [Lfsr] ([lib/lfsr.c]), [FlistSort] ([lib/flist_sort.c]).
    - [IoU] ([io_u.c] from the choice of the offset down, with [fio_file_reset],
      [get_start_offset] and [init_random_map] of [filesetup.c]): a state monad
      over the thread, the file and the unit, one definition per C function.

    The life of a job:
    - [Files] ([filesetup.c], [ioengines.c], [io_u.c]: references to files and
      the choice of the next one), [Buckets] (completion and latency buckets),
      [LatTarget] (the search for a queue depth), [Time] ([gettime.c],
      [time.c]), [Pace] (directions, syncs and rates), [Flow] ([flow.c])
      and [FlowRace] (its unlocked check, one access of the counter at a time).
    - [IoULife], [IoULifeInv], [IoULifeRun] ([io_u.c], [ioengines.c],
      [backend.c], [td_error.c]): units from the free list to the engine and
      back, as operations on one record, its invariant and its runs.
    - [JobLoop], [JobLoopInv], [JobLoopRun]: [do_io] of [backend.c] over the
      operations of [IoULife], [Pace] and [Time].
    - [SteadyState], [SteadyInv], [SteadyRun] ([steadystate.c]); [Stat]
      ([stat.c], [stat.h]): histogram, percentiles, running statistics and their
      merge, over an interface of float operations that [CFloat] implements.
    - [RbTree], [RbInv] ([lib/rbtree.c]) and [History], [HistoryInv],
      [HistoryRun] ([iolog.c], [trim.c], [get_next_verify] of [verify.c]): the
      writes a job has to read back.

    Contents of units:
    - [Crc], [Xxhash], [Hash], [Bloom], [Digest], [Md5], [Sha1], [Sha2],
      [Sha256], [Sha512], [Sha3] ([crc/], [hash.h], [lib/bloom.c]); [Pattern],
      [PatternParse] ([lib/pattern.c], [lib/strntol.c]).
    - [Verify], [VerifyInv], [VerifyRun], [VerifyDetect] ([verify.c]): headers
      and checksums of written units and their check.
    - [Vstate], [VstateRun] ([verify.c], [verify-state.h]): the completions of an
      interrupted job, saved and loaded to know where verification stops.

    Options and the wire:
    - [ParseNum], [OptParse], [EditDist] ([parse.c]); [Split], [SplitInv],
      [SplitBs] (block size and zone splits of [options.c]); [Fixup],
      [FixupInv] ([fixup_options] of [init.c]).
    - [Ieee754] ([lib/ieee754.c]), [Cconv], [CconvTrip], [CconvSplit]
      ([cconv.c]: the fields, their round trip, and the whole conversions with
      the arrays of splits), [Server] (framing of commands, [server.c]), [StatWire],
      [StatTrip] (statistics as [server.c] sends and [client.c] reads them).

    Containers: [Fifo] ([fifo.c]), [IoUQueue] ([io_u_queue.c], [io_u_queue.h])
    and [Smalloc] ([smalloc.c], the pool allocator over a flat memory).

    ** What the theorems show

    - Offsets: a random job, from the set-up of its map on, issues every block
      once and stops; a sequential job walks its range without gaps; a filled
      unit ends inside its file for every option; drawn sizes are in range,
      aligned and fit.  The rounding of the double arithmetic is accounted for.
      The map agrees with the set of marked blocks; the generators stay in range
      and the LFSR visits each block once.
    - Units: in any legal order of operations no assertion fails, no unit is
      lost, files stay open while used, and I/O issued is completed or in
      flight; [do_io] ends on an engine that answers plainly, having issued
      exactly the bytes asked for.  Files are served fairly and the loops over
      them end; the rate of a started job and the sync cadence of a synchronous
      one hold; flows stay in proportion while additions to their counter are
      not interrupted; the latency target converges; the steady state is declared exactly
      when the window of samples says so.
    - Verification: what is read back is what was written last and not
      overlapped, in order; a sealed unit passes its check, and one changed byte
      fails it.  An interrupted job is verified up to the writes that had
      completed.  Red-black trees stay balanced and ordered.
    - Digests equal their published definitions for any chunking, and the tables
      of the checksums the division by their polynomials.
    - Options: sizes and lists are read as they are written, splits give the
      shares they ask for, a fixed-up job satisfies what the I/O path assumes,
      options and statistics survive conversion between hosts of either byte
      order, commands survive any cutting of the stream, and the parser of
      patterns stays inside its buffers.
    - Statistics: the histogram is within 1/128, the percentiles, computed in
      doubles, are the first buckets that reach them, merging completion
      latencies equals recording them in one place.
    - Allocation: live allocations are disjoint, intact and recorded exactly;
      rings refine lists, sorting is stable.
    - Examples show behaviour that looks unintended: loops that do not end, a
      zone that does not wrap, a hash that skips bytes, entries of the history
      that are released twice, a verify state that is not found again, a flow
      counter that drifts, a string of a packet that is read past its field.
      Each theorem's comment gives the conditions that keep such cases out.

    ** Conventions and bounds

    Integers are [Z] with the wrap-around of their C type written out; [int],
    [long] and pointers are those of a 64-bit machine, little-endian unless the
    byte order is an argument ([Cconv], [StatWire], [Vstate]).  [None]
    in the result of an operation is an access out of bounds, a failed assert,
    undefined behaviour or exhausted fuel, so that a theorem which gives [Some]
    excludes all of them; a C return code is an ordinary value.  Loops whose
    length the source bounds take that bound as fuel (the word search of the
    allocator gets 32 steps per word, the buffer fills one step per byte, the
    levels of a map 6, as 64^6 exceeds 32-bit unit counts, the normalising loops
    of [pack754] 1100, more than the exponents of a double, the loop of
    [log_io_piece] one turn more than there are nodes).  Loops that need not end
    ([lfsr_next], [gauss_next], [__get_next_buflen], [do_io]) take fuel as an
    argument, and the theorems say which fuel is enough: one draw when the
    largest size fits, 32 halvings of an [int], [2^i] steps of an [i]-bit
    register, one round per unit.  Parameters stand for code outside the
    repository or generated by its build: [malloc] and the files read by the
    pattern parser, libm's [pow] and [log], the clock, the answers of the engine
    and of system calls, the evaluator of parenthesised expressions.

    ** Not modelled

    Threads beside the worker: asynchronous verification, offloaded submission,
    the helper and idle threads, estimates.  The start and the end of a job
    ([thread_main], [do_verify]), job files ([init.c]), the option table with the
    callbacks other than the splits, lists of floating-point options; the
    handlers of the client and server beyond framing and conversion; I/O log
    files and traces; process-shared locks, cgroups and disk
    statistics; the priority tree and graphs of the front end.  These are
    threads, text input and output and system calls around the core.  The
    engines, the operating system layers, the GTK front end, the C++ drivers and
    the vendored PMDK/SPDK code are system calls and glue. *)
From Stdlib Require Export ZArith Lia.
From stdpp Require Export base tactics numbers list option decidable.

#[global] Open Scope Z_scope.

(** ** Fixed-width unsigned integers

    A C unsigned integer of [w] bits is a [Z] in [0, 2^w); every operation of
    the source that can leave the range is followed by [wrap w]. *)
Definition wrap (w x : Z) : Z := x mod 2 ^ w.

Declare Scope cint_scope.
Delimit Scope cint_scope with cint.
Abbreviation u8 := (wrap 8).
Abbreviation u16 := (wrap 16).
Abbreviation u32 := (wrap 32).
Abbreviation u64 := (wrap 64).

(** The unsigned value [-1] of the given width. *)
Definition all_ones (w : Z) : Z := Z.ones w.
Notation "'-1U'" := (all_ones 32) : cint_scope.
Notation "'-1ULL'" := (all_ones 64) : cint_scope.
#[global] Open Scope cint_scope.

(** [~x] at width [w], and [x << n] at width [w]. *)
Definition bnot (w x : Z) : Z := Z.lxor x (Z.ones w).
Definition shl (w x n : Z) : Z := wrap w (Z.shiftl x n).

(** The value of a [w]-bit pattern read as a two's complement integer. *)
Definition sgn (w x : Z) : Z :=
  let y := wrap w x in if y <? 2 ^ (w - 1) then y else y - 2 ^ w.

Lemma sgn_small w x : 0 < w -> - 2 ^ (w - 1) <= x < 2 ^ (w - 1) -> sgn w x = x.
Proof.
  intros Hw Hx. assert (E : 2 ^ w = 2 * 2 ^ (w - 1)) by (rewrite <- Z.pow_succ_r by lia; f_equal; lia).
  unfold sgn, wrap. destruct (Z.lt_ge_cases x 0).
  - rewrite <- (Z.mod_add x 1), Z.mod_small by lia. destruct (Z.ltb_spec (x + 1 * 2 ^ w) (2 ^ (w - 1))); lia.
  - rewrite Z.mod_small by lia. destruct (Z.ltb_spec x (2 ^ (w - 1))); lia.
Qed.

(** A [w]-bit value. *)
Definition uint (w x : Z) : Prop := 0 <= x < 2 ^ w.

#[export] Instance uint_dec w x : Decision (uint w x).
Proof. unfold uint. apply _. Defined.

(** ** Tactics *)
Ltac zbool :=
  repeat match goal with
  | H : (_ =? _) = true |- _ => apply Z.eqb_eq in H
  | H : (_ =? _) = false |- _ => apply Z.eqb_neq in H
  | H : (_ <? _) = true |- _ => apply Z.ltb_lt in H
  | H : (_ <? _) = false |- _ => apply Z.ltb_ge in H
  | H : (_ <=? _) = true |- _ => apply Z.leb_le in H
  | H : (_ <=? _) = false |- _ => apply Z.leb_gt in H
  | H : negb _ = true |- _ => apply negb_true_iff in H
  | H : negb _ = false |- _ => apply negb_false_iff in H
  | H : _ && _ = true |- _ => apply andb_true_iff in H; destruct H
  | H : _ || _ = false |- _ => apply orb_false_iff in H; destruct H
  end.

(** Case analysis on the first comparison the goal branches on. *)
Ltac zcase :=
  match goal with
  | |- context [if ?a =? ?b then _ else _] => destruct (Z.eqb_spec a b)
  | |- context [if ?a <? ?b then _ else _] => destruct (Z.ltb_spec a b)
  | |- context [if ?a <=? ?b then _ else _] => destruct (Z.leb_spec a b)
  end.

(** Linear arithmetic with division and modulo by constants. *)
Ltac zdm := Z.div_mod_to_equations; lia.

Create HintDb cint.
Create HintDb bits.

(** ** Lemmas on wrap-around *)
Lemma wrap_uint w x : 0 <= w -> uint w (wrap w x).
Proof. intros. unfold uint, wrap. apply Z.mod_pos_bound. lia. Qed.

Lemma wrap_small w x : uint w x -> wrap w x = x.
Proof. apply Z.mod_small. Qed.

Lemma wrap_bounds w x : 0 <= w -> 0 <= wrap w x < 2 ^ w.
Proof. apply wrap_uint. Qed.


Lemma wrap_add_l w x y : 0 <= w -> wrap w (wrap w x + y) = wrap w (x + y).
Proof. intros. unfold wrap. apply Zplus_mod_idemp_l. Qed.

Lemma wrap_add_r w x y : 0 <= w -> wrap w (x + wrap w y) = wrap w (x + y).
Proof. intros. unfold wrap. apply Zplus_mod_idemp_r. Qed.

Lemma wrap_land w x : 0 <= w -> wrap w x = Z.land x (Z.ones w).
Proof. intros. unfold wrap. by rewrite Z.land_ones. Qed.

Lemma wrap_testbit w x i :
  0 <= w -> Z.testbit (wrap w x) i = (i <? w) && Z.testbit x i.
Proof.
  intros. destruct (Z.ltb_spec i w) as [Hi|Hi]; simpl.
  - unfold wrap. destruct (decide (0 <= i)).
    + by apply Z.mod_pow2_bits_low.
    + by rewrite !Z.testbit_neg_r by lia.
  - unfold wrap. by rewrite Z.mod_pow2_bits_high by lia.
Qed.

Lemma uint_testbit_high w x i : uint w x -> w <= i -> Z.testbit x i = false.
Proof.
  intros Hx Hi. destruct (decide (0 <= w)) as [Hw|Hw].
  - rewrite <- (wrap_small w x Hx), wrap_testbit by done.
    by destruct (Z.ltb_spec i w); [lia|].
  - unfold uint in Hx. rewrite Z.pow_neg_r in Hx by lia. lia.
Qed.

Lemma uint_of_testbit w x :
  0 <= w -> 0 <= x -> (forall i, w <= i -> Z.testbit x i = false) -> uint w x.
Proof.
  intros Hw Hx Hb. cut (wrap w x = x); [intros <-; by apply wrap_uint|].
  apply Z.bits_inj'. intros i Hi. rewrite wrap_testbit by done.
  destruct (Z.ltb_spec i w); simpl; [done|]. symmetry. by apply Hb.
Qed.

Lemma all_ones_uint w : 0 <= w -> uint w (all_ones w).
Proof. intros. unfold uint, all_ones. rewrite Z.ones_equiv.
  assert (0 < 2 ^ w) by (apply Z.pow_pos_nonneg; lia). lia. Qed.

Lemma all_ones_testbit w i :
  0 <= w -> Z.testbit (all_ones w) i = (0 <=? i) && (i <? w).
Proof.
  intros. unfold all_ones. destruct (Z.leb_spec 0 i); simpl.
  - by rewrite Z.testbit_ones_nonneg.
  - by rewrite Z.testbit_neg_r.
Qed.

Lemma bnot_testbit w x i :
  0 <= w -> uint w x ->
  Z.testbit (bnot w x) i = (0 <=? i) && (i <? w) && negb (Z.testbit x i).
Proof.
  intros Hw Hx. unfold bnot. rewrite Z.lxor_spec.
  fold (all_ones w). rewrite all_ones_testbit by done.
  destruct (Z.leb_spec 0 i); simpl; [|by rewrite Z.testbit_neg_r].
  destruct (Z.ltb_spec i w); simpl; [by destruct (Z.testbit x i)|].
  by rewrite (uint_testbit_high w) by done.
Qed.

(** Bitwise operations keep a value in its width. *)
Lemma land_uint w x y : 0 <= w -> uint w x -> 0 <= y -> uint w (Z.land x y).
Proof.
  intros Hw Hx Hy. apply uint_of_testbit; [done| |].
  - apply Z.land_nonneg. unfold uint in Hx. lia.
  - intros i Hi. by rewrite Z.land_spec, (uint_testbit_high w x).
Qed.

Lemma lor_uint w x y : 0 <= w -> uint w x -> uint w y -> uint w (Z.lor x y).
Proof.
  intros Hw Hx Hy. apply uint_of_testbit; [done| |].
  - apply Z.lor_nonneg. unfold uint in *. lia.
  - intros i Hi. by rewrite Z.lor_spec, (uint_testbit_high w x), (uint_testbit_high w y).
Qed.

Lemma lxor_uint w x y : 0 <= w -> uint w x -> uint w y -> uint w (Z.lxor x y).
Proof.
  intros Hw Hx Hy. apply uint_of_testbit; [done| |].
  - apply Z.lxor_nonneg. unfold uint in *. lia.
  - intros i Hi. by rewrite Z.lxor_spec, (uint_testbit_high w x), (uint_testbit_high w y).
Qed.

Lemma bnot_uint w x : 0 <= w -> uint w x -> uint w (bnot w x).
Proof. intros. apply lxor_uint; [done..|]. by apply all_ones_uint. Qed.

Lemma shl_uint w x n : 0 <= w -> uint w (shl w x n).
Proof. apply wrap_uint. Qed.

Lemma shiftr_uint w x n : 0 <= n -> uint w x -> uint w (Z.shiftr x n).
Proof.
  intros Hn [? ?]. split; [by apply Z.shiftr_nonneg|].
  rewrite Z.shiftr_div_pow2 by done.
  apply Z.le_lt_trans with x; [|done].
  assert (1 <= 2 ^ n) by (apply (Z.pow_le_mono_r 2 0 n); lia).
  apply Z.div_le_upper_bound; nia.
Qed.

Lemma shl_testbit w x n i :
  0 <= w -> 0 <= i ->
  Z.testbit (shl w x n) i = (i <? w) && Z.testbit x (i - n).
Proof. intros. unfold shl. by rewrite wrap_testbit, Z.shiftl_spec by done. Qed.

(** Two bit formulas over [w]-bit values agree: the truth table of each bit. *)
Ltac bits_table w :=
  apply Z.bits_inj'; intros ?j ?Hj;
  repeat first [rewrite Z.lxor_spec | rewrite Z.land_spec | rewrite Z.lor_spec
               | rewrite (bnot_testbit w) by (lia || assumption)];
  match goal with j : Z, Hj : 0 <= ?j |- _ =>
    rewrite ?(proj2 (Z.leb_le 0 j) Hj); destruct (Z.ltb_spec j w);
    repeat match goal with
    | Hx : uint w ?x |- context [Z.testbit ?x j] =>
        first [rewrite (uint_testbit_high w x j Hx) by lia | destruct (Z.testbit x j)]
    end; reflexivity
  end.

#[export] Hint Resolve wrap_uint all_ones_uint land_uint lor_uint lxor_uint
  bnot_uint shl_uint shiftr_uint : cint.
#[export] Hint Extern 2 (_ <= _) => lia : cint.

(** Equality of two nonnegative integers bit by bit. *)
Lemma uint_ext w x y :
  uint w x -> uint w y ->
  (forall i, 0 <= i < w -> Z.testbit x i = Z.testbit y i) -> x = y.
Proof.
  intros Hx Hy H. apply Z.bits_inj'. intros i Hi.
  destruct (decide (i < w)); [by apply H|].
  by rewrite (uint_testbit_high w x), (uint_testbit_high w y) by (done || lia).
Qed.

(** A [w]-bit value other than [-1] has a zero bit below [w]. *)
Lemma not_all_ones_zero w x :
  0 <= w -> uint w x -> x <> all_ones w ->
  exists i, 0 <= i < w /\ Z.testbit x i = false.
Proof.
  intros Hw Hx Hne.
  destruct (decide (Exists (fun n => Z.testbit x (Z.of_nat n) = false)
    (seq 0 (Z.to_nat w)))) as [(n & Hn%in_seq & Hb)%Exists_exists|Hno].
  - exists (Z.of_nat n). split; [lia|done].
  - exfalso. apply Hne, (uint_ext w); [done|by apply all_ones_uint|].
    intros i Hi. rewrite all_ones_testbit by lia.
    destruct (Z.testbit x i) eqn:E.
    + symmetry. apply andb_true_iff. split; [apply Z.leb_le|apply Z.ltb_lt]; lia.
    + destruct Hno. apply Exists_exists. exists (Z.to_nat i).
      rewrite in_seq, Z2Nat.id by lia. split; [lia|done].
Qed.

Lemma testbit_all_ones w x :
  0 <= w -> uint w x ->
  x = all_ones w <-> (forall i, 0 <= i < w -> Z.testbit x i = true).
Proof.
  intros Hw Hx. split.
  - intros -> i Hi. rewrite all_ones_testbit by lia.
    apply andb_true_iff. split; [apply Z.leb_le|apply Z.ltb_lt]; lia.
  - intros H. destruct (decide (x = all_ones w)) as [|Hne]; [done|].
    apply not_all_ones_zero in Hne as (i & Hi & Hb); [|done..].
    by rewrite H in Hb.
Qed.

(** ** Arrays

    A C array is a list; an access outside it is undefined behaviour, which
    the models represent by [None], as they do a failed [assert]. *)
Definition arr_get {A} (l : list A) (i : Z) : option A :=
  if 0 <=? i then l !! Z.to_nat i else None.

Definition arr_set {A} (l : list A) (i : Z) (x : A) : option (list A) :=
  if (0 <=? i) && (i <? Z.of_nat (length l)) then Some (<[Z.to_nat i := x]> l)
  else None.

(** [assert(b)] of the source. *)
Definition assert (b : bool) : option unit := if b then Some tt else None.

Lemma arr_get_Some {A} (l : list A) i x :
  arr_get l i = Some x <-> 0 <= i /\ l !! Z.to_nat i = Some x.
Proof.
  unfold arr_get. destruct (Z.leb_spec 0 i); [tauto|].
  split; [done|]. intros [? _]. lia.
Qed.

Lemma arr_get_is_Some {A} (l : list A) i :
  0 <= i < Z.of_nat (length l) -> is_Some (arr_get l i).
Proof.
  intros Hi. unfold arr_get. destruct (Z.leb_spec 0 i); [|lia].
  apply lookup_lt_is_Some. lia.
Qed.

Lemma arr_get_bounds {A} (l : list A) i x :
  arr_get l i = Some x -> 0 <= i < Z.of_nat (length l).
Proof. intros [? H%lookup_lt_Some]%arr_get_Some. lia. Qed.

Lemma arr_set_Some {A} (l : list A) i x :
  0 <= i < Z.of_nat (length l) -> arr_set l i x = Some (<[Z.to_nat i := x]> l).
Proof.
  intros. unfold arr_set. destruct (Z.leb_spec 0 i), (Z.ltb_spec i (Z.of_nat (length l)));
    simpl; done || lia.
Qed.

Lemma arr_set_inv {A} (l : list A) i x l' :
  arr_set l i x = Some l' -> 0 <= i < Z.of_nat (length l) /\ l' = <[Z.to_nat i := x]> l.
Proof.
  unfold arr_set. destruct (Z.leb_spec 0 i), (Z.ltb_spec i (Z.of_nat (length l))); cbn; intros E; try done.
  by injection E as <-.
Qed.

Lemma arr_get_insert {A} (l : list A) i j x :
  0 <= i < Z.of_nat (length l) -> 0 <= j ->
  arr_get (<[Z.to_nat i := x]> l) j = if j =? i then Some x else arr_get l j.
Proof.
  intros Hi Hj. unfold arr_get. destruct (Z.leb_spec 0 j); [|lia].
  destruct (Z.eqb_spec j i) as [->|Hne].
  - apply list_lookup_insert_eq. lia.
  - apply list_lookup_insert_ne. lia.
Qed.

Lemma bind_Some_inv {A B} (f : A -> option B) (o : option A) y :
  o ≫= f = Some y -> exists x, o = Some x /\ f x = Some y.
Proof. destruct o; naive_solver. Qed.

(** Inversion of a computation in the option monad. *)
Ltac inv_opt :=
  repeat match goal with
  | H : _ ≫= _ = Some _ |- _ =>
      let x := fresh "x" in let E := fresh "E" in
      apply bind_Some_inv in H as (x & E & H)
  | H : Some _ = Some _ |- _ => injection H as H; subst
  | H : None = Some _ |- _ => discriminate H
  end.

(** ** Memory blocks

    [mem_write dst off src] is [memcpy(dst + off, src, |src|)] and
    [mem_read src off n] the [n] elements from [off] on; both are undefined
    ([None]) outside the block. *)
Definition mem_write {A} (dst : list A) (off : Z) (src : list A) : option (list A) :=
  if (0 <=? off) && (off + Z.of_nat (length src) <=? Z.of_nat (length dst))
  then Some (list_inserts (Z.to_nat off) src dst) else None.

Definition mem_read {A} (src : list A) (off n : Z) : option (list A) :=
  if (0 <=? off) && (0 <=? n) && (off + n <=? Z.of_nat (length src))
  then Some (take (Z.to_nat n) (drop (Z.to_nat off) src)) else None.

Lemma mem_write_Some {A} (dst : list A) off src :
  0 <= off -> off + Z.of_nat (length src) <= Z.of_nat (length dst) ->
  mem_write dst off src = Some (list_inserts (Z.to_nat off) src dst).
Proof.
  intros H1 H2. unfold mem_write.
  destruct (Z.leb_spec 0 off), (Z.leb_spec (off + Z.of_nat (length src)) (Z.of_nat (length dst)));
    done || lia.
Qed.

Lemma mem_read_Some {A} (src : list A) off n :
  0 <= off -> 0 <= n -> off + n <= Z.of_nat (length src) ->
  mem_read src off n = Some (take (Z.to_nat n) (drop (Z.to_nat off) src)).
Proof.
  intros H1 H2 H3. unfold mem_read.
  destruct (Z.leb_spec 0 off), (Z.leb_spec 0 n),
    (Z.leb_spec (off + n) (Z.of_nat (length src))); done || lia.
Qed.

Lemma mem_write_length {A} (dst : list A) off src dst' :
  mem_write dst off src = Some dst' -> length dst' = length dst.
Proof.
  unfold mem_write. destruct (_ && _); [|done]. intros [= <-]. apply length_inserts.
Qed.

(** What a block holds after a write: the written elements inside the window,
    the old ones outside it. *)
Lemma mem_write_lookup {A} (dst : list A) off src dst' (i : nat) :
  mem_write dst off src = Some dst' ->
  dst' !! i = if decide (off <= Z.of_nat i < off + Z.of_nat (length src))
              then src !! (i - Z.to_nat off)%nat else dst !! i.
Proof.
  unfold mem_write. destruct (Z.leb_spec 0 off); [|done].
  destruct (Z.leb_spec (off + Z.of_nat (length src)) (Z.of_nat (length dst))); [|done].
  intros [= <-]. destruct (decide _).
  - rewrite list_lookup_inserts by lia. done.
  - destruct (decide (Z.of_nat i < off)).
    + apply list_lookup_inserts_lt. lia.
    + apply list_lookup_inserts_ge. lia.
Qed.

Lemma take_mem_write {A} (mem p mem' : list A) k :
  mem_write mem k p = Some mem' -> 0 <= k ->
  take (Z.to_nat (k + Z.of_nat (length p))) mem' = take (Z.to_nat k) mem ++ p.
Proof.
  intros Hw Hk. apply list_eq. intros i.
  assert (k + Z.of_nat (length p) <= Z.of_nat (length mem)) as Hfit.
  { unfold mem_write in Hw. destruct (Z.leb_spec 0 k); [|lia].
    by destruct (Z.leb_spec (k + Z.of_nat (length p)) (Z.of_nat (length mem))). }
  pose proof (mem_write_length _ _ _ _ Hw).
  destruct (decide (Z.of_nat i < k + Z.of_nat (length p))).
  - rewrite lookup_take_lt by lia. rewrite (mem_write_lookup _ _ _ _ i Hw).
    destruct (decide (k <= Z.of_nat i < k + Z.of_nat (length p))).
    + rewrite lookup_app_r, length_take by (rewrite length_take; lia). f_equal. lia.
    + rewrite lookup_app_l by (rewrite length_take; lia). by rewrite lookup_take_lt by lia.
  - rewrite !lookup_ge_None_2; [done|rewrite length_app, length_take; lia|rewrite length_take; lia].
Qed.

(** A write that fits, as the three parts of the result. *)
Lemma mem_write_eq {A} (dst src : list A) (k : nat) : (k + length src <= length dst)%nat ->
  mem_write dst (Z.of_nat k) src = Some (take k dst ++ src ++ drop (k + length src) dst).
Proof.
  intros Hf. destruct (mem_write dst (Z.of_nat k) src) as [dst'|] eqn:E;
    [|by rewrite mem_write_Some in E by lia].
  pose proof (take_mem_write _ _ _ _ E ltac:(lia)) as Ht.
  pose proof (mem_write_length _ _ _ _ E) as Hl. f_equal.
  rewrite <- (take_drop (k + length src) dst'), app_assoc. f_equal.
  - rewrite Nat2Z.id in Ht. rewrite <- Ht. f_equal. lia.
  - apply list_eq. intros i. rewrite !lookup_drop, (mem_write_lookup _ _ _ _ _ E).
    destruct (decide _); [lia|done].
Qed.

(** Access to the middle part of a block. *)
Lemma mem_read_mid {A} (x y z : list A) off n :
  off = Z.of_nat (length x) -> n = Z.of_nat (length y) -> mem_read (x ++ y ++ z) off n = Some y.
Proof.
  intros -> ->. rewrite mem_read_Some by (rewrite ?length_app; lia). rewrite !Nat2Z.id.
  by rewrite drop_app_length, take_app_length.
Qed.

Lemma mem_write_mid {A} (x y y' z : list A) off :
  off = Z.of_nat (length x) -> length y' = length y ->
  mem_write (x ++ y ++ z) off y' = Some (x ++ y' ++ z).
Proof.
  intros -> Hl. rewrite mem_write_eq by (rewrite !length_app; lia).
  rewrite take_app_length, Hl, (app_assoc x y z), <- length_app, drop_app_length. done.
Qed.

Lemma mem_write_inside {A} (x y z src : list A) off b :
  Z.of_nat (length x) <= off -> off + Z.of_nat (length src) <= Z.of_nat (length x + length y) ->
  mem_write (x ++ y ++ z) off src = Some b ->
  exists y', mem_write y (off - Z.of_nat (length x)) src = Some y' /\ b = x ++ y' ++ z /\ length y' = length y.
Proof.
  intros H1 H2 Hw. replace off with (Z.of_nat (length x + Z.to_nat (off - Z.of_nat (length x)))) in Hw by lia.
  set (j := Z.to_nat (off - Z.of_nat (length x))) in *.
  replace (off - Z.of_nat (length x)) with (Z.of_nat j) by lia.
  rewrite mem_write_eq in Hw by (rewrite !length_app; lia). rewrite mem_write_eq by lia.
  eexists. split; [done|]. injection Hw as <-. split.
  - rewrite take_app_ge, drop_app_ge by lia. rewrite <- !app_assoc. f_equal.
    rewrite take_app_le, drop_app_le by lia. replace (length x + j - length x)%nat with j by lia.
    replace (length x + j + length src - length x)%nat with (j + length src)%nat by lia. done.
  - rewrite !length_app, length_take, length_drop. lia.
Qed.

(** The buffers agree outside the window [a, b). *)
Definition touch {A} (out out' : list A) (a b : Z) : Prop :=
  length out' = length out /\
  forall i, Z.of_nat i < a \/ b <= Z.of_nat i -> out' !! i = out !! i.

Lemma touch_refl {A} (out : list A) a b : touch out out a b.
Proof. done. Qed.

Lemma touch_trans {A} (o1 o2 o3 : list A) a b c :
  a <= b <= c -> touch o1 o2 a b -> touch o2 o3 b c -> touch o1 o3 a c.
Proof.
  intros Hab [L1 H1] [L2 H2]. split; [congruence|]. intros i Hi.
  rewrite H2, H1 by lia. done.
Qed.

Lemma touch_weaken {A} (o o' : list A) a b c : b <= c -> touch o o' a b -> touch o o' a c.
Proof. intros ? [L H]. split; [done|]. intros i Hi. apply H. lia. Qed.

Lemma touch_write {A} (out : list A) pos src out' :
  mem_write out pos src = Some out' -> touch out out' pos (pos + Z.of_nat (length src)).
Proof.
  intros H. split; [by eapply mem_write_length|]. intros i Hi.
  rewrite (mem_write_lookup _ _ _ _ i H), decide_False by lia. done.
Qed.

Lemma touch_set {A} (out : list A) pos v : 0 <= pos < Z.of_nat (length out) ->
  exists out', arr_set out pos v = Some out' /\ touch out out' pos (pos + 1).
Proof.
  intros H. exists (<[Z.to_nat pos := v]> out). split; [by apply arr_set_Some|].
  split; [apply length_insert|]. intros i Hi. apply list_lookup_insert_ne. lia.
Qed.

Lemma mem_write_app {A} (o : list A) p a b o1 o2 :
  mem_write o p a = Some o1 -> mem_write o1 (p + Z.of_nat (length a)) b = Some o2 ->
  mem_write o p (a ++ b) = Some o2.
Proof.
  intros H1 H2. pose proof (mem_write_length _ _ _ _ H1) as L1.
  pose proof (mem_write_length _ _ _ _ H2) as L2.
  destruct (mem_write o p (a ++ b)) as [o3|] eqn:H3.
  - f_equal. apply list_eq. intros i. rewrite (mem_write_lookup _ _ _ _ i H3).
    rewrite (mem_write_lookup _ _ _ _ i H2), (mem_write_lookup _ _ _ _ i H1), length_app.
    unfold mem_write in H1. destruct (Z.leb_spec 0 p); [|done].
    destruct (decide (p + Z.of_nat (length a) <= Z.of_nat i < _)).
    + rewrite decide_True by lia. rewrite lookup_app_r by lia. f_equal. lia.
    + destruct (decide (p <= Z.of_nat i < p + Z.of_nat (length a))).
      * rewrite decide_True by lia. by rewrite lookup_app_l by lia.
      * by rewrite decide_False by lia.
  - exfalso. unfold mem_write in *. rewrite length_app in H3.
    destruct (Z.leb_spec 0 p); [|done].
    destruct (Z.leb_spec (p + Z.of_nat (length a)) (Z.of_nat (length o))); [|done].
    destruct (Z.leb_spec 0 (p + Z.of_nat (length a))); [|done].
    destruct (Z.leb_spec (p + Z.of_nat (length a) + Z.of_nat (length b)) (Z.of_nat (length o1))); [|done].
    destruct (Z.leb_spec (p + Z.of_nat (length a + length b)) (Z.of_nat (length o))); [done|lia].
Qed.

Lemma mem_write_one {A} (o : list A) p x :
  arr_set o p x = mem_write o p [x].
Proof.
  unfold arr_set, mem_write. change (Z.of_nat (length [x])) with 1.
  destruct (Z.leb_spec 0 p); [|done]. cbn [andb].
  destruct (Z.ltb_spec p (Z.of_nat (length o))), (Z.leb_spec (p + 1) (Z.of_nat (length o)));
    done || lia.
Qed.

Lemma land_pow2_mod x k : 0 <= k -> Z.land x (2 ^ k - 1) = x mod 2 ^ k.
Proof. intros. replace (2 ^ k - 1) with (Z.ones k) by (rewrite Z.ones_equiv; lia). by apply Z.land_ones. Qed.

(** Bit [h] of a map of 32-bit words. *)
Definition bbit (m : list Z) (h : Z) : bool :=
  Z.testbit (default 0 (arr_get m (h / 32))) (h mod 32).

(** The [n] low bytes of [v], least significant first. *)
Fixpoint le_bytes (n : nat) (v : Z) : list Z :=
  match n with
  | O => []
  | S n => Z.land v 0xff :: le_bytes n (Z.shiftr v 8)
  end.

(** The value of bytes, least significant first. *)
Fixpoint le_val (l : list Z) : Z :=
  match l with
  | [] => 0
  | b :: l => b + 256 * le_val l
  end.

Lemma length_le_bytes n v : length (le_bytes n v) = n.
Proof. revert v. induction n; intros; simpl; [done|]. by rewrite IHn. Qed.

Lemma le_val_bytes n v : 0 <= v -> le_val (le_bytes n v) = v mod 2 ^ (8 * Z.of_nat n).
Proof.
  revert v. induction n as [|n IH]; intros v Hv; [simpl; by rewrite Z.mod_1_r|].
  cbn [le_bytes le_val]. rewrite IH by (by apply Z.shiftr_nonneg).
  change 0xff with (2 ^ 8 - 1). rewrite land_pow2_mod, Z.shiftr_div_pow2 by lia.
  replace (8 * Z.of_nat (S n)) with (8 + 8 * Z.of_nat n) by lia.
  rewrite Z.pow_add_r by lia. change (2 ^ 8) with 256.
  by rewrite Z.rem_mul_r by (try apply Z.pow_pos_nonneg; lia).
Qed.

Lemma le_bytes_split n m v :
  le_bytes (n + m) v = le_bytes n v ++ le_bytes m (Z.shiftr v (8 * Z.of_nat n)).
Proof.
  revert v. induction n as [|n IH]; intros v; [by rewrite Z.shiftr_0_r|].
  cbn [Nat.add le_bytes app]. rewrite IH, Z.shiftr_shiftr by lia. do 4 f_equal. lia.
Qed.

Lemma le_bytes_wrap n w v : 8 * Z.of_nat n <= w -> le_bytes n (wrap w v) = le_bytes n v.
Proof.
  revert w v. induction n as [|n IH]; intros w v Hw; [done|]. cbn [le_bytes]. f_equal.
  - apply Z.bits_inj'. intros i Hi. rewrite !Z.land_spec, wrap_testbit by lia.
    change 0xff with (Z.ones 8). rewrite Z.testbit_ones_nonneg by lia.
    destruct (Z.ltb_spec i 8); rewrite ?andb_false_r; [|done].
    by rewrite (proj2 (Z.ltb_lt _ _)) by lia.
  - rewrite <- (IH (w - 8) (Z.shiftr v 8)) by lia. f_equal.
    apply Z.bits_inj'. intros i Hi. rewrite wrap_testbit, !Z.shiftr_spec, wrap_testbit by lia.
    destruct (Z.ltb_spec i (w - 8)), (Z.ltb_spec (i + 8) w); done || lia.
Qed.

Lemma le_bytes_uint n v : Forall (uint 8) (le_bytes n v).
Proof.
  revert v. induction n as [|n IH]; intros v; constructor; [|done].
  change 0xff with (2 ^ 8 - 1). rewrite land_pow2_mod by lia.
  unfold uint. pose proof (Z.mod_pos_bound v (2 ^ 8) ltac:(lia)). lia.
Qed.

Lemma le_val_uint n w v : w = 8 * Z.of_nat n -> uint w v -> le_val (le_bytes n v) = v.
Proof. intros -> [H1 H2]. by rewrite le_val_bytes, Z.mod_small. Qed.

(** ** Folds *)
Lemma fold_left_agree {A B} (I : A -> Prop) (P : B -> Prop) (f g : A -> B -> A) l :
  (forall a b, I a -> P b -> f a b = g a b /\ I (f a b)) -> Forall P l ->
  forall a, I a -> fold_left f l a = fold_left g l a /\ I (fold_left f l a).
Proof.
  intros Hfg. induction 1 as [|b l Hb Hl IH]; intros a Ha; [done|]. cbn [fold_left].
  destruct (Hfg a b Ha Hb) as [<- Hi]. by apply IH.
Qed.

(** ** Counting in arrays *)
Lemma length_filter_insert {A} (P : A -> Prop) `{!forall x, Decision (P x)} l i x y :
  l !! i = Some x ->
  (length (filter P (<[i := y]> l)) + (if decide (P x) then 1 else 0) =
   length (filter P l) + (if decide (P y) then 1 else 0))%nat.
Proof.
  revert i. induction l as [|a l IH]; intros [|i] Hi; simplify_eq/=.
  - rewrite !filter_cons. repeat case_decide; simpl; lia.
  - rewrite !filter_cons. specialize (IH i Hi). repeat case_decide; simpl; lia.
Qed.
