(* ===== verification/BitOps.v ===== *)
(** * Bit searches: [lib/ffz.h]

    [ffs64] is the portable binary search for the lowest set bit and [ffz] the
    search for the lowest clear bit built on it.  Axmap and Smalloc use both
    through the two lemmas [ffs64_lowest] and [ffz_lowest]. *)
From S2P Require Import Prelude.

(** One halving step of the search: when the low [k] bits are all clear they
    are shifted out and counted. *)
Definition ffs_step (k : Z) (p : Z * Z) : Z * Z :=
  let '(r, word) := p in
  if Z.land word (Z.ones k) =? 0 then (r + k, Z.shiftr word k) else (r, word).

Definition ffs64 (word : Z) : Z :=
  let p := ffs_step 32 (0, word) in
  let p := ffs_step 16 p in
  let p := ffs_step 8 p in
  let p := ffs_step 4 p in
  let p := ffs_step 2 p in
  let '(r, word) := p in
  if Z.land word 1 =? 0 then r + 1 else r.

Definition ffz (bitmask : Z) : Z := ffs64 (bnot 64 bitmask).

(** [n] is the position of the lowest set bit of [w]. *)
Definition lowest_set (w n : Z) : Prop :=
  0 <= n /\ Z.testbit w n = true /\ forall i, 0 <= i < n -> Z.testbit w i = false.

(** What the search knows after the steps above [k]: the first [r] bits of [w0]
    are clear, [w] is what is left, and its lowest set bit is among the low [k]. *)
Record ffs_inv (w0 k : Z) (p : Z * Z) : Prop := {
  fi_r : 0 <= fst p;
  fi_shift : snd p = Z.shiftr w0 (fst p);
  fi_low : forall i, 0 <= i < fst p -> Z.testbit w0 i = false;
  fi_set : exists i, 0 <= i < k /\ Z.testbit (snd p) i = true
}.

Lemma land_ones_zero w k :
  0 <= k -> Z.land w (Z.ones k) = 0 <-> (forall i, 0 <= i < k -> Z.testbit w i = false).
Proof.
  intros Hk. split.
  - intros H i Hi. rewrite <- (andb_true_r (Z.testbit w i)).
    replace true with (Z.testbit (Z.ones k) i);
      [by rewrite <- Z.land_spec, H, Z.bits_0|].
    rewrite Z.testbit_ones_nonneg by lia. apply Z.ltb_lt. lia.
  - intros H. apply Z.bits_inj'. intros i Hi. rewrite Z.land_spec, Z.bits_0.
    rewrite Z.testbit_ones_nonneg by lia.
    destruct (Z.ltb_spec i k); [by rewrite H by lia|apply andb_false_r].
Qed.

Lemma ffs_step_inv w0 k p :
  0 < k -> ffs_inv w0 (2 * k) p -> ffs_inv w0 k (ffs_step k p).
Proof.
  intros Hk [Hr Hs Hl (j & Hj & Hb)]. destruct p as [r w]; simpl in *.
  destruct (Z.eqb_spec (Z.land w (Z.ones k)) 0) as [E|E].
  - rewrite land_ones_zero in E by lia. split; simpl; [lia| | |].
    + by rewrite Hs, Z.shiftr_shiftr by lia.
    + intros i Hi. destruct (decide (i < r)); [apply Hl; lia|].
      specialize (E (i - r)). rewrite Hs, Z.shiftr_spec in E by lia.
      replace (i - r + r) with i in E by lia. apply E. lia.
    + exists (j - k). destruct (decide (j < k)) as [Hlt|].
      { rewrite E in Hb by lia. done. }
      rewrite Z.shiftr_spec by lia. replace (j - k + k) with j by lia. split; [lia|done].
  - split; simpl; [done..|].
    destruct (decide (Exists (fun n => Z.testbit w (Z.of_nat n) = true)
      (seq 0 (Z.to_nat k)))) as [(n & Hn%in_seq & Hn')%Exists_exists|Hno].
    + exists (Z.of_nat n). split; [lia|done].
    + destruct E. apply land_ones_zero; [lia|]. intros i Hi.
      destruct (Z.testbit w i) eqn:Ei; [|done].
      destruct Hno. apply Exists_exists. exists (Z.to_nat i).
      rewrite in_seq, Z2Nat.id by lia. split; [lia|done].
Qed.

Lemma ffs64_lowest w : uint 64 w -> w <> 0 -> lowest_set w (ffs64 w).
Proof.
  intros Hw Hne. unfold ffs64.
  assert (ffs_inv w 64 (0, w)) as H0.
  { split; simpl; [lia|by rewrite Z.shiftr_0_r|lia|].
    destruct (not_all_ones_zero 64 (bnot 64 w)) as (i & Hi & Hb); [lia|auto with cint| |].
    - intros E. apply Hne, Z.bits_inj'. intros i Hi. rewrite Z.bits_0.
      apply (f_equal (fun x => Z.testbit x i)) in E.
      rewrite bnot_testbit, all_ones_testbit in E by (done || lia).
      destruct (decide (i < 64)); [|by rewrite (uint_testbit_high 64) by (done || lia)].
      destruct (Z.leb_spec 0 i), (Z.ltb_spec i 64); try lia. by destruct (Z.testbit w i).
    - exists i. split; [done|]. rewrite bnot_testbit in Hb by (done || lia).
      destruct (Z.leb_spec 0 i), (Z.ltb_spec i 64); try lia. by destruct (Z.testbit w i). }
  apply (ffs_step_inv w 32), (ffs_step_inv w 16), (ffs_step_inv w 8),
    (ffs_step_inv w 4), (ffs_step_inv w 2) in H0; [|lia..].
  apply (ffs_step_inv w 1) in H0; [|lia].
  destruct (ffs_step 2 _) as [r v]. simpl in H0.
  change (Z.ones 1) with 1 in H0.
  destruct (Z.land v 1 =? 0); destruct H0 as [Hr Hs Hl (j & Hj & Hb)]; simpl in *;
    (split; [lia|]); (split; [|done]);
    replace j with 0 in Hb by lia; rewrite Hs, Z.shiftr_spec in Hb by lia; done.
Qed.

Lemma ffs64_bound w : uint 64 w -> w <> 0 -> 0 <= ffs64 w < 64.
Proof.
  intros Hw Hne. destruct (ffs64_lowest w Hw Hne) as (H0 & Hb & _). split; [done|].
  destruct (decide (ffs64 w < 64)); [done|].
  by rewrite (uint_testbit_high 64) in Hb by (done || lia).
Qed.

(** [ffz] finds the lowest clear bit of a word that is not full. *)
Lemma ffz_lowest w :
  uint 64 w -> w <> all_ones 64 ->
  0 <= ffz w < 64 /\ Z.testbit w (ffz w) = false /\
  forall i, 0 <= i < ffz w -> Z.testbit w i = true.
Proof.
  intros Hw Hne. unfold ffz.
  assert (bnot 64 w <> 0) as Hz.
  { destruct (not_all_ones_zero 64 w) as (i & Hi & Hb); [lia|done..|].
    intros E. apply (f_equal (fun x => Z.testbit x i)) in E.
    rewrite bnot_testbit, Z.bits_0, Hb in E by (done || lia).
    destruct (Z.leb_spec 0 i), (Z.ltb_spec i 64); simpl in E; done || lia. }
  assert (uint 64 (bnot 64 w)) as Hu by auto with cint.
  pose proof (ffs64_bound _ Hu Hz) as Hbd.
  destruct (ffs64_lowest _ Hu Hz) as (_ & Hb & Hl). split; [done|].
  rewrite bnot_testbit in Hb by (done || lia). split.
  - apply andb_true_iff in Hb as [_ Hb]. by apply negb_true_iff in Hb.
  - intros i Hi. specialize (Hl i Hi). rewrite bnot_testbit in Hl by (done || lia).
    destruct (Z.leb_spec 0 i), (Z.ltb_spec i 64); try lia. by destruct (Z.testbit w i).
Qed.
