(* ===== verification/Axmap.v ===== *)
(** * The axmap: [lib/axmap.c]

    The bitmap of bitmaps fio uses to remember which blocks of a file a random
    job has touched.  Level 0 holds one bit per block; bit [j] of level [i+1]
    is set exactly when word [j] of level [i] is full.  The model is for
    [BITS_PER_LONG == 64].  [None] is an access outside an array, a failed
    [assert], or an exhausted loop bound; the theorems show that none of them
    happens for requests inside the map. *)
From S2P Require Import Prelude BitOps.

(** ** Data *)
Definition UNIT_SHIFT : Z := 6.
Definition BLOCKS_PER_UNIT : Z := 64.
Definition BLOCKS_PER_UNIT_MASK : Z := 63.

Record axmap_level := Level {
  al_level : Z;
  map_size : Z;
  al_map : list Z
}.

(** [nr_levels] is the length of [levels]: [axmap_new] allocates exactly that
    many. *)
Record axmap := Axmap {
  levels : list axmap_level;
  first_free : Z;
  nr_bits : Z
}.

Definition firstfree_valid (b : axmap) : bool := negb (first_free b =? -1ULL).

(** [ulog64]: [while (log-- && val) val >>= UNIT_SHIFT]. *)
Fixpoint ulog64 (val : Z) (log : nat) : Z :=
  match log with
  | O => val
  | S log => if val =? 0 then val else ulog64 (Z.shiftr val UNIT_SHIFT) log
  end.

(** [(n + BLOCKS_PER_UNIT - 1) >> UNIT_SHIFT], the words needed for [n] bits. *)
Definition units_for (n : Z) : Z :=
  Z.shiftr (u64 (n + BLOCKS_PER_UNIT - 1)) UNIT_SHIFT.

Definition level_reset (al : axmap_level) : axmap_level :=
  Level (al_level al) (map_size al) (replicate (Z.to_nat (map_size al)) 0).

Definition axmap_reset (m : axmap) : axmap :=
  Axmap (level_reset <$> levels m) 0 (nr_bits m).

(** ** Allocation

    [malloc n] is what the allocator hands out for a map of [n] words: [None]
    for [NULL], otherwise words with arbitrary contents. *)
Section alloc.
Context (malloc : Z -> option (list Z)).

(** [while (i > 1)]; [i] is an [unsigned int]. *)
Fixpoint count_levels (fuel : nat) (i : Z) : nat :=
  match fuel with
  | O => 1
  | S fuel =>
      if 1 <? i then S (count_levels fuel (u32 (Z.shiftr (u32 (i + 63)) UNIT_SHIFT)))
      else 1
  end.

Fixpoint new_levels (n : nat) (i nr_bits : Z) : option (list axmap_level) :=
  match n with
  | O => Some []
  | S n =>
      let sz := units_for nr_bits in
      map ← malloc sz;
      rest ← new_levels n (i + 1) sz;
      Some (Level i sz map :: rest)
  end.

Definition axmap_new (nr_bits : Z) : option axmap :=
  let n := count_levels 6 (u32 (units_for nr_bits)) in
  ls ← new_levels n 0 nr_bits;
  Some (axmap_reset (Axmap ls 0 nr_bits)).
End alloc.

(** ** The two walks over the levels *)
Section handler.
Context {D : Type}.
Context (func : axmap_level -> Z -> Z -> D -> option (axmap_level * D * bool)).

(** [axmap_handler]: from level 0 upwards, until [func] returns true. *)
Fixpoint handler_loop (bit_nr : Z) (i : nat) (ls : list axmap_level) (data : D)
    : option (list axmap_level * D * bool) :=
  match ls with
  | [] => Some ([], data, false)
  | al :: rest =>
      let index := ulog64 bit_nr i in
      let offset := Z.shiftr index UNIT_SHIFT in
      let bit := Z.land index BLOCKS_PER_UNIT_MASK in
      '(al, data, stop) ← func al offset bit data;
      if (stop : bool) then Some (al :: rest, data, true)
      else
        '(rest, data, r) ← handler_loop bit_nr (S i) rest data;
        Some (al :: rest, data, r)
  end.

(** [axmap_handler_topdown]: from the highest level down to 0. *)
Fixpoint handler_topdown_loop (bit_nr : Z) (i : nat) (ls : list axmap_level) (data : D)
    : option (list axmap_level * D * bool) :=
  match ls with
  | [] => Some ([], data, false)
  | al :: rest =>
      '(rest, data, stop) ← handler_topdown_loop bit_nr (S i) rest data;
      if (stop : bool) then Some (al :: rest, data, true)
      else
        let index := ulog64 bit_nr i in
        let offset := Z.shiftr index UNIT_SHIFT in
        let bit := Z.land index BLOCKS_PER_UNIT_MASK in
        '(al, data, r) ← func al offset bit data;
        Some (al :: rest, data, r)
  end.

Definition axmap_handler (m : axmap) (bit_nr : Z) (data : D)
    : option (axmap * D * bool) :=
  '(ls, data, r) ← handler_loop bit_nr 0 (levels m) data;
  Some (Axmap ls (first_free m) (nr_bits m), data, r).

Definition axmap_handler_topdown (m : axmap) (bit_nr : Z) (data : D)
    : option (axmap * D * bool) :=
  '(ls, data, r) ← handler_topdown_loop bit_nr 0 (levels m) data;
  Some (Axmap ls (first_free m) (nr_bits m), data, r).
End handler.

(** ** Clearing a bit *)
Definition axmap_clear_fn (al : axmap_level) (offset bit : Z) (data : unit)
    : option (axmap_level * unit * bool) :=
  word ← arr_get (al_map al) offset;
  if Z.land word (Z.shiftl 1 bit) =? 0 then Some (al, data, true)
  else
    map ← arr_set (al_map al) offset (Z.land word (bnot 64 (Z.shiftl 1 bit)));
    Some (Level (al_level al) (map_size al) map, data, false).

Definition axmap_clear (m : axmap) (bit_nr : Z) : option axmap :=
  '(m, _, _) ← axmap_handler axmap_clear_fn m bit_nr tt;
  Some (if bit_nr <? first_free m then Axmap (levels m) bit_nr (nr_bits m) else m).

(** ** Setting bits *)
Record axmap_set_data := SetData { sd_nr_bits : Z; sd_set_bits : Z }.

Definition bit_masks : list Z :=
  [0x0; 0x1; 0x3; 0x7; 0xf; 0x1f; 0x3f; 0x7f; 0xff; 0x1ff; 0x3ff; 0x7ff; 0xfff; 0x1fff;
   0x3fff; 0x7fff; 0xffff; 0x1ffff; 0x3ffff; 0x7ffff; 0xfffff; 0x1fffff; 0x3fffff;
   0x7fffff; 0xffffff; 0x1ffffff; 0x3ffffff; 0x7ffffff; 0xfffffff; 0x1fffffff;
   0x3fffffff; 0x7fffffff; 0xffffffff; 0x1ffffffff; 0x3ffffffff; 0x7ffffffff;
   0xfffffffff; 0x1fffffffff; 0x3fffffffff; 0x7fffffffff; 0xffffffffff; 0x1ffffffffff;
   0x3ffffffffff; 0x7ffffffffff; 0xfffffffffff; 0x1fffffffffff; 0x3fffffffffff;
   0x7fffffffffff; 0xffffffffffff; 0x1ffffffffffff; 0x3ffffffffffff; 0x7ffffffffffff;
   0xfffffffffffff; 0x1fffffffffffff; 0x3fffffffffffff; 0x7fffffffffffff;
   0xffffffffffffff; 0x1ffffffffffffff; 0x3ffffffffffffff; 0x7ffffffffffffff;
   0xfffffffffffffff; 0x1fffffffffffffff; 0x3fffffffffffffff; 0x7fffffffffffffff;
   0xffffffffffffffff].

(** [while (overlap)]: each round drops the lowest overlapping bit. *)
Fixpoint clear_overlap (fuel : nat) (mask overlap nr_bits : Z) : option (Z * Z) :=
  if overlap =? 0 then Some (mask, nr_bits)
  else match fuel with
  | O => None
  | S fuel =>
      let clear_mask := bnot 64 (Z.shiftl 1 (ffz (bnot 64 overlap))) in
      clear_overlap fuel (Z.land mask clear_mask) (Z.land overlap clear_mask)
        (u32 (nr_bits - 1))
  end.

Definition axmap_set_fn (al : axmap_level) (offset bit : Z) (data : axmap_set_data)
    : option (axmap_level * axmap_set_data * bool) :=
  let nr_bits := Z.min (sd_nr_bits data) (BLOCKS_PER_UNIT - bit) in
  mask0 ← arr_get bit_masks nr_bits;
  let mask := shl 64 mask0 bit in
  word ← arr_get (al_map al) offset;
  let overlap := Z.land word mask in
  if overlap =? mask then Some (al, data, true)
  else
    '(mask, nr_bits) ← clear_overlap 64 mask overlap nr_bits;
    _ ← assert (negb (mask =? 0));
    _ ← assert (Z.land word mask =? 0);
    let word := Z.lor word mask in
    map ← arr_set (al_map al) offset word;
    let set_bits := if al_level al =? 0 then nr_bits else sd_set_bits data in
    Some (Level (al_level al) (map_size al) map, SetData 1 set_bits,
          negb (word =? -1ULL)).

(** [while (nr_bits)] of [__axmap_set]; returns the map and [set_bits]. *)
Fixpoint set_loop (fuel : nat) (m : axmap) (bit_nr nr_bits set_bits : Z)
    (data : axmap_set_data) : option (axmap * Z) :=
  if nr_bits =? 0 then Some (m, set_bits)
  else match fuel with
  | O => None
  | S fuel =>
      '(m, data, _) ← axmap_handler axmap_set_fn m bit_nr data;
      let set_bits := u32 (set_bits + sd_set_bits data) in
      if (sd_set_bits data =? 0)
         || negb (sd_set_bits data =? u32 (BLOCKS_PER_UNIT - nr_bits))
      then Some (m, set_bits)
      else
        let nr_bits := u32 (nr_bits - sd_set_bits data) in
        let bit_nr := u64 (bit_nr + sd_set_bits data) in
        set_loop fuel m bit_nr nr_bits set_bits (SetData nr_bits (sd_set_bits data))
  end.

(** [__axmap_set]: the map and the final [data->set_bits]. *)
Definition __axmap_set (m : axmap) (bit_nr : Z) (data : axmap_set_data)
    : option (axmap * Z) :=
  let nr := sd_nr_bits data in
  let m :=
    if (bit_nr <=? first_free m) && (first_free m <? u64 (bit_nr + nr))
    then Axmap (levels m) (-1ULL) (nr_bits m) else m in
  if nr_bits m <? bit_nr then Some (m, sd_set_bits data)
  else
    let nr := if nr_bits m <? u64 (bit_nr + nr) then u32 (nr_bits m - bit_nr) else nr in
    set_loop (Z.to_nat nr) m bit_nr nr 0 data.

Definition axmap_set (m : axmap) (bit_nr : Z) : option axmap :=
  fst <$> __axmap_set m bit_nr (SetData 1 0).

(** [do ... while (nr_bits)] of [axmap_set_nr]. *)
Fixpoint set_nr_loop (fuel : nat) (m : axmap) (bit_nr nr_bits set_bits : Z)
    : option (axmap * Z) :=
  match fuel with
  | O => None
  | S fuel =>
      let max_bits := BLOCKS_PER_UNIT - Z.land bit_nr BLOCKS_PER_UNIT_MASK in
      let this_set := if max_bits <? nr_bits then max_bits else nr_bits in
      '(m, dset) ← __axmap_set m bit_nr (SetData this_set 0);
      let set_bits := u32 (set_bits + dset) in
      if negb (dset =? this_set) then Some (m, set_bits)
      else
        let nr_bits := u32 (nr_bits - dset) in
        if nr_bits =? 0 then Some (m, set_bits)
        else set_nr_loop fuel m (u64 (bit_nr + dset)) nr_bits set_bits
  end.

Definition axmap_set_nr (m : axmap) (bit_nr nr_bits : Z) : option (axmap * Z) :=
  set_nr_loop (S (Z.to_nat nr_bits)) m bit_nr nr_bits 0.

(** ** Querying a bit *)
Definition axmap_isset_fn (al : axmap_level) (offset bit : Z) (data : unit)
    : option (axmap_level * unit * bool) :=
  word ← arr_get (al_map al) offset;
  Some (al, data, negb (Z.land word (Z.shiftl 1 bit) =? 0)).

Definition axmap_isset (m : axmap) (bit_nr : Z) : option bool :=
  if bit_nr <=? nr_bits m
  then '(_, _, r) ← axmap_handler_topdown axmap_isset_fn m bit_nr tt; Some r
  else Some false.

(** ** Finding a free bit *)

(** [for (j = index; j < al->map_size; j++)]: the first word that is not full,
    as the bit number [(j << UNIT_SHIFT) + ffz(al->map[j])]. *)
Fixpoint scan_words (j : Z) (words : list Z) : option Z :=
  match words with
  | [] => None
  | w :: words =>
      if w =? -1ULL then scan_words (j + 1) words
      else Some (u64 (u64 (Z.shiftl j UNIT_SHIFT) + ffz w))
  end.

(** [for (i = level; i >= 0; i--)]. *)
Fixpoint find_first_free_loop (ls : list axmap_level) (i : nat) (index ret : Z) : option Z :=
  al ← ls !! i;
  if map_size al <=? index then Some (-1ULL)
  else
    let '(index, ret) :=
      match scan_words index (drop (Z.to_nat index) (al_map al)) with
      | Some v => (v, v)
      | None => (index, ret)
      end in
    match i with
    | O => Some ret
    | S i => find_first_free_loop ls i index ret
    end.

Definition axmap_find_first_free (m : axmap) (level : nat) (index : Z) : option Z :=
  ret ← find_first_free_loop (levels m) level index (-1ULL);
  Some (if ret <? nr_bits m then ret else -1ULL).

Definition axmap_first_free (m : axmap) : option (axmap * Z) :=
  if firstfree_valid m then Some (m, first_free m)
  else
    ff ← axmap_find_first_free m (length (levels m) - 1) 0;
    Some (Axmap (levels m) ff (nr_bits m), ff).

Record axmap_next_free_data := NextFree {
  nf_level : Z; nf_offset : Z; nf_bit : Z
}.

Definition axmap_next_free_fn (al : axmap_level) (offset bit : Z)
    (data : axmap_next_free_data) : option (axmap_level * axmap_next_free_data * bool) :=
  mask0 ← arr_get bit_masks (Z.land (u64 (nf_bit data + 1)) BLOCKS_PER_UNIT_MASK);
  let mask := bnot 64 mask0 in
  word ← arr_get (al_map al) offset;
  if Z.land mask (bnot 64 word) =? 0 then Some (al, data, false)
  else if negb (word =? -1ULL)
  then Some (al, NextFree (al_level al) offset (nf_bit data), true)
  else
    Some (al, NextFree (nf_level data) (nf_offset data)
           (u64 (nf_bit data + BLOCKS_PER_UNIT - 1) / BLOCKS_PER_UNIT), false).

Definition axmap_next_free (m : axmap) (bit_nr : Z) : option (axmap * Z) :=
  if firstfree_valid m && (bit_nr <? first_free m) then Some (m, first_free m)
  else
    '(m, data, found) ← axmap_handler axmap_next_free_fn m bit_nr
                          (NextFree (-1U) 0 bit_nr);
    if negb found then axmap_first_free m
    else
      _ ← assert (negb (nf_level data =? -1U));
      ret ← axmap_find_first_free m (Z.to_nat (nf_level data)) (nf_offset data);
      if negb (ret =? -1ULL) then Some (m, ret) else axmap_first_free m.

(** ** The view of a level as a set of bits *)
Definition word_at (al : axmap_level) (j : Z) : Z := default 0 (arr_get (al_map al) j).

Definition bit_at (al : axmap_level) (b : Z) : bool :=
  Z.testbit (word_at al (b / 64)) (b mod 64).

(** [bits m b]: block [b] is marked; the abstract state of the map. *)
Definition lbits (ls : list axmap_level) (b : Z) : bool :=
  match ls with [] => false | al :: _ => bit_at al b end.
Definition bits (m : axmap) (b : Z) : bool := lbits (levels m) b.

(** A level that covers [n] bits: [map_size] words of 64 bits. *)
Record level_wf (i n : Z) (al : axmap_level) : Prop := {
  lw_level : al_level al = i;
  lw_size : map_size al = (n + 63) / 64;
  lw_length : Z.of_nat (length (al_map al)) = map_size al;
  lw_words : Forall (uint 64) (al_map al)
}.

(** Bit [j] of the level above says whether word [j] is full. *)
Definition linked (al : axmap_level) (above : list axmap_level) : Prop :=
  match above with
  | [] => True
  | up :: _ => forall j, 0 <= j < map_size al -> bit_at up j = (word_at al j =? -1ULL)
  end.

Fixpoint levels_wf (i n : Z) (ls : list axmap_level) : Prop :=
  match ls with
  | [] => True
  | al :: rest => level_wf i n al /\ linked al rest /\ levels_wf (i + 1) (map_size al) rest
  end.

(** The cached free bit is free, when there is one. *)
Definition first_free_ok (m : axmap) : Prop :=
  first_free m = -1ULL \/ (0 <= first_free m < nr_bits m /\ bits m (first_free m) = false).

Record axmap_wf (m : axmap) : Prop := {
  aw_nr : 0 < nr_bits m < 2 ^ 63;
  aw_nonempty : levels m <> [];
  aw_depth : (length (levels m) <= 7)%nat;
  aw_levels : levels_wf 0 (nr_bits m) (levels m);
  aw_first : first_free_ok m
}.

(** ** Indices *)
Lemma ulog64_div v i : 0 <= v -> ulog64 v i = v / 64 ^ Z.of_nat i.
Proof.
  revert v. induction i as [|i IH]; intros v Hv; simpl ulog64.
  { by rewrite Z.div_1_r. }
  assert (0 < 64 ^ Z.of_nat i) by (apply Z.pow_pos_nonneg; lia).
  destruct (Z.eqb_spec v 0) as [->|Hne].
  - by rewrite Z.div_0_l by (apply Z.pow_nonzero; lia).
  - rewrite IH by (by apply Z.shiftr_nonneg).
    unfold UNIT_SHIFT. rewrite Z.shiftr_div_pow2 by lia. change (2 ^ 6) with 64.
    rewrite Z.div_div by lia. f_equal. rewrite Nat2Z.inj_succ, Z.pow_succ_r by lia. done.
Qed.

Lemma ulog64_S v i : 0 <= v -> ulog64 v (S i) = ulog64 v i / 64.
Proof.
  intros. rewrite !ulog64_div by done.
  assert (0 < 64 ^ Z.of_nat i) by (apply Z.pow_pos_nonneg; lia).
  rewrite Z.div_div by lia. f_equal. rewrite Nat2Z.inj_succ, Z.pow_succ_r by lia. lia.
Qed.

Lemma ulog64_nonneg v i : 0 <= v -> 0 <= ulog64 v i.
Proof. intros. rewrite ulog64_div by done. apply Z.div_pos; [done|]. apply Z.pow_pos_nonneg; lia. Qed.

Lemma offset_div index : Z.shiftr index UNIT_SHIFT = index / 64.
Proof. unfold UNIT_SHIFT. by rewrite Z.shiftr_div_pow2. Qed.

Lemma bit_mod index : Z.land index BLOCKS_PER_UNIT_MASK = index mod 64.
Proof. unfold BLOCKS_PER_UNIT_MASK. change 63 with (Z.ones 6). by rewrite Z.land_ones. Qed.

(** ** Words of a well-formed level *)
Lemma word_at_uint i n al j : level_wf i n al -> uint 64 (word_at al j).
Proof.
  intros [_ _ _ Hw]. unfold word_at. destruct (arr_get (al_map al) j) eqn:E; simpl.
  - apply arr_get_Some in E as [_ E]. by eapply Forall_lookup_1.
  - unfold uint. lia.
Qed.

Lemma get_word_at i n al j :
  level_wf i n al -> 0 <= j < map_size al -> arr_get (al_map al) j = Some (word_at al j).
Proof.
  intros [_ _ Hl _] Hj. unfold word_at.
  destruct (arr_get_is_Some (al_map al) j) as [w ->]; [lia|done].
Qed.

Definition set_word (al : axmap_level) (j w : Z) : axmap_level :=
  Level (al_level al) (map_size al) (<[Z.to_nat j := w]> (al_map al)).

Lemma word_at_set_word i n al j w k :
  level_wf i n al -> 0 <= j < map_size al -> 0 <= k ->
  word_at (set_word al j w) k = if k =? j then w else word_at al k.
Proof.
  intros [_ _ Hl _] Hj Hk. unfold word_at, set_word; simpl.
  rewrite arr_get_insert by lia. by destruct (Z.eqb_spec k j).
Qed.

Lemma set_word_wf i n al j w :
  level_wf i n al -> uint 64 w -> level_wf i n (set_word al j w).
Proof.
  intros [Hi Hs Hl Hw] Hu. split; simpl; [done|done| |].
  - by rewrite length_insert.
  - by apply Forall_insert.
Qed.

Lemma bit_at_set_word i n al j w b :
  level_wf i n al -> 0 <= j < map_size al -> 0 <= b ->
  bit_at (set_word al j w) b =
    if b / 64 =? j then Z.testbit w (b mod 64) else bit_at al b.
Proof.
  intros Hwf Hj Hb. unfold bit_at.
  rewrite (word_at_set_word i n) by (done || (apply Z.div_pos; lia)).
  by destruct (Z.eqb_spec (b / 64) j).
Qed.

(** The link to the level above survives a change of word [j] provided the
    level above records whether the new word is full. *)
Lemma linked_set_word i n al j w above above' :
  level_wf i n al -> 0 <= j < map_size al -> linked al above ->
  (forall k, 0 <= k < map_size al ->
     lbits above' k = if k =? j then w =? -1ULL else lbits above k) ->
  (above = [] -> above' = []) ->
  linked (set_word al j w) above'.
Proof.
  intros Hwf Hj Hl Hab Hnil. destruct above' as [|up' r']; [done|].
  destruct above as [|up r]; [by specialize (Hnil eq_refl)|]. simpl in *.
  intros k Hk. rewrite (word_at_set_word i n) by (done || lia).
  rewrite Hab by done. destruct (Z.eqb_spec k j); [done|]. by apply Hl.
Qed.

Lemma index_in_level i n al idx :
  level_wf i n al -> 0 <= idx < n -> 0 <= idx / 64 < map_size al.
Proof. intros [_ Hs _ _] Hi. rewrite Hs. zdm. Qed.

(** ** Counting bits *)
Fixpoint hwn (n : nat) (x : Z) : Z :=
  match n with
  | O => 0
  | S n => hwn n x + (if Z.testbit x (Z.of_nat n) then 1 else 0)
  end.
Definition hw (x : Z) : Z := hwn 64 x.

Lemma hwn_nonneg n x : 0 <= hwn n x <= Z.of_nat n.
Proof. induction n; simpl hwn; [lia|]. destruct (Z.testbit x (Z.of_nat n)); lia. Qed.

Lemma hwn_mono n x y :
  (forall i, 0 <= i < Z.of_nat n -> Z.testbit x i = true -> Z.testbit y i = true) ->
  hwn n x <= hwn n y.
Proof.
  induction n as [|n IH]; intros H; simpl hwn; [lia|].
  assert (hwn n x <= hwn n y) by (apply IH; intros; apply H; [lia|done]).
  destruct (Z.testbit x (Z.of_nat n)) eqn:E;
    [rewrite H by (done || lia); lia|destruct (Z.testbit y (Z.of_nat n)); lia].
Qed.

(** Dropping bit [p] lowers the count by one. *)
Lemma hwn_drop n x y p :
  0 <= p -> Z.testbit x p = true -> Z.testbit y p = false ->
  (forall i, 0 <= i -> i <> p -> Z.testbit y i = Z.testbit x i) ->
  hwn n y = hwn n x - (if p <? Z.of_nat n then 1 else 0).
Proof.
  intros Hp Hx Hy Ho. induction n as [|n IH]; simpl hwn.
  { destruct (Z.ltb_spec p (Z.of_nat 0)); lia. }
  destruct (decide (p = Z.of_nat n)) as [->|Hne].
  - rewrite Hx, Hy, IH. destruct (Z.ltb_spec (Z.of_nat n) (Z.of_nat n));
      destruct (Z.ltb_spec (Z.of_nat n) (Z.of_nat (S n))); lia.
  - rewrite Ho by lia. rewrite IH. destruct (Z.ltb_spec p (Z.of_nat n));
      destruct (Z.ltb_spec p (Z.of_nat (S n))); lia.
Qed.

Lemma hwn_zero n x : (forall i, 0 <= i -> Z.testbit x i = false) -> hwn n x = 0.
Proof. intros H. induction n; simpl hwn; [done|]. rewrite H, IHn by lia. done. Qed.

Lemma hwn_pos n x i :
  0 <= i < Z.of_nat n -> Z.testbit x i = true -> 1 <= hwn n x.
Proof.
  induction n as [|n IH]; intros Hi Hb; simpl hwn; [lia|].
  destruct (decide (i = Z.of_nat n)) as [->|].
  - rewrite Hb. pose proof (hwn_nonneg n x). lia.
  - pose proof (IH ltac:(lia) Hb). destruct (Z.testbit x (Z.of_nat n)); lia.
Qed.

Lemma hw_drop x y p :
  0 <= p < 64 -> Z.testbit x p = true -> Z.testbit y p = false ->
  (forall i, 0 <= i -> i <> p -> Z.testbit y i = Z.testbit x i) -> hw y = hw x - 1.
Proof.
  intros Hp Hx Hy Ho. unfold hw. rewrite (hwn_drop 64 x y p) by (done || lia).
  destruct (Z.ltb_spec p (Z.of_nat 64)); lia.
Qed.

Lemma hw_pos x p : 0 <= p < 64 -> Z.testbit x p = true -> 1 <= hw x.
Proof. intros. unfold hw. by apply (hwn_pos 64 x p). Qed.

(** The mask of [k] bits from bit [b] on. *)
Definition range_mask (b k : Z) : Z := shl 64 (Z.ones k) b.

Lemma range_mask_testbit b k i :
  0 <= b -> 0 <= k -> b + k <= 64 -> 0 <= i ->
  Z.testbit (range_mask b k) i = (b <=? i) && (i <? b + k).
Proof.
  intros Hb Hk Hbk Hi. unfold range_mask. rewrite shl_testbit by lia.
  destruct (Z.leb_spec b i).
  - rewrite Z.testbit_ones_nonneg by lia.
    destruct (Z.ltb_spec i 64), (Z.ltb_spec (i - b) k), (Z.ltb_spec i (b + k)); simpl; done || lia.
  - rewrite (Z.testbit_neg_r _ (i - b)) by lia. apply andb_false_r.
Qed.

Lemma hwn_range n b k :
  0 <= b -> 0 <= k -> b + k <= 64 ->
  hwn n (range_mask b k) = Z.max 0 (Z.min (Z.of_nat n) (b + k) - b).
Proof.
  intros Hb Hk Hbk. induction n as [|n IH]; simpl hwn; [lia|].
  rewrite range_mask_testbit, IH by lia.
  destruct (Z.leb_spec b (Z.of_nat n)), (Z.ltb_spec (Z.of_nat n) (b + k)); simpl; lia.
Qed.

Lemma hw_range b k : 0 <= b -> 0 <= k -> b + k <= 64 -> hw (range_mask b k) = k.
Proof. intros. unfold hw. rewrite hwn_range by done. lia. Qed.

(** A proper submask has fewer bits. *)
Lemma hw_lt_range b k x :
  0 <= b -> 0 <= k -> b + k <= 64 ->
  (forall i, 0 <= i -> Z.testbit x i = true -> Z.testbit (range_mask b k) i = true) ->
  uint 64 x -> x <> range_mask b k -> hw x < k.
Proof.
  intros Hb Hk Hbk Hsub Hu Hne.
  destruct (decide (Exists (fun n => Z.testbit x (Z.of_nat n) = false /\
      Z.testbit (range_mask b k) (Z.of_nat n) = true) (seq 0 64)))
    as [(n & Hn%in_seq & Hx & Hm)%Exists_exists|Hno].
  - assert (hw x <= hw (Z.clearbit (range_mask b k) (Z.of_nat n))) as Hle.
    { apply hwn_mono. intros i Hi Hxi. rewrite Z.clearbit_eqb by lia.
      rewrite Hsub by (done || lia). simpl. destruct (Z.eqb_spec (Z.of_nat n) i); [|done].
      subst i. congruence. }
    rewrite (hw_drop (range_mask b k) (Z.clearbit (range_mask b k) (Z.of_nat n)) (Z.of_nat n)),
      hw_range in Hle; try done; try lia; [apply Z.clearbit_eq|].
    intros i Hi Hin. apply Z.clearbit_neq. lia.
  - destruct Hne. apply (uint_ext 64); [done|apply shl_uint; lia|]. intros i Hi.
    destruct (Z.testbit x i) eqn:Ex; [symmetry; apply Hsub; [lia|done]|].
    destruct (Z.testbit (range_mask b k) i) eqn:Em; [|done].
    destruct Hno. apply Exists_exists. exists (Z.to_nat i).
    rewrite in_seq, Z2Nat.id by lia. split; [lia|done].
Qed.

Lemma bit_masks_get k : 0 <= k <= 64 -> arr_get bit_masks k = Some (Z.ones k).
Proof.
  intros Hk.
  assert (Forall (fun n => arr_get bit_masks (Z.of_nat n) = Some (Z.ones (Z.of_nat n)))
    (seq 0 65)) as H by (apply (bool_decide_unpack _); vm_compute; exact I).
  rewrite Forall_forall in H. specialize (H (Z.to_nat k)).
  rewrite Z2Nat.id in H by lia. apply H. apply in_seq. lia.
Qed.

Lemma one_shl_testbit p i : 0 <= p -> Z.testbit (Z.shiftl 1 p) i = (i =? p).
Proof.
  intros Hp. rewrite Z.shiftl_1_l, Z.pow2_bits_eqb by done. by rewrite Z.eqb_sym.
Qed.

Lemma one_shl_uint p : 0 <= p < 64 -> uint 64 (Z.shiftl 1 p).
Proof.
  intros Hp. rewrite Z.shiftl_1_l. split; [apply Z.pow_nonneg; lia|].
  apply Z.pow_lt_mono_r; lia.
Qed.
#[local] Hint Resolve one_shl_uint : cint.

Lemma land_clear_testbit x p i :
  uint 64 x -> 0 <= p < 64 -> 0 <= i ->
  Z.testbit (Z.land x (bnot 64 (Z.shiftl 1 p))) i = Z.testbit x i && negb (i =? p).
Proof.
  intros Hx Hp Hi. rewrite Z.land_spec, bnot_testbit, one_shl_testbit by auto with cint.
  destruct (Z.leb_spec 0 i); [|lia]. destruct (Z.ltb_spec i 64); [done|].
  by rewrite (uint_testbit_high 64 x) by (done || lia).
Qed.

Lemma land_clear_uint x p :
  uint 64 x -> 0 <= p < 64 -> uint 64 (Z.land x (bnot 64 (Z.shiftl 1 p))).
Proof.
  intros Hx Hp. apply land_uint; [lia|done|].
  apply bnot_uint; [lia|]. by apply one_shl_uint.
Qed.

Lemma ffz_bnot x : ffz (bnot 64 x) = ffs64 x.
Proof. unfold ffz, bnot. by rewrite Z.lxor_assoc, Z.lxor_nilpotent, Z.lxor_0_r. Qed.

Lemma clear_overlap_spec fuel mask overlap nr :
  uint 64 mask -> uint 64 overlap -> hw overlap <= Z.of_nat fuel ->
  hw overlap <= nr < 2 ^ 32 ->
  exists mask', clear_overlap fuel mask overlap nr = Some (mask', nr - hw overlap) /\
    uint 64 mask' /\
    forall i, 0 <= i ->
      Z.testbit mask' i = Z.testbit mask i && negb (Z.testbit overlap i).
Proof.
  revert mask overlap nr. induction fuel as [|fuel IH]; intros mask overlap nr Hm Ho Hf Hn;
    simpl clear_overlap; (destruct (Z.eqb_spec overlap 0) as [->|Hne];
    [exists mask; replace (hw 0) with 0 by (by vm_compute); rewrite Z.sub_0_r;
     split_and!; [done..|]; intros i Hi; by rewrite Z.bits_0, andb_true_r|]);
    destruct (ffs64_lowest overlap Ho Hne) as (_ & Hb & _);
    pose proof (ffs64_bound overlap Ho Hne) as Hp.
  { pose proof (hw_pos overlap _ Hp Hb). lia. }
  rewrite ffz_bnot. set (p := ffs64 overlap) in *.
  assert (hw (Z.land overlap (bnot 64 (Z.shiftl 1 p))) = hw overlap - 1) as Hhw.
  { apply (hw_drop _ _ p); [done..| |].
    - rewrite land_clear_testbit, Z.eqb_refl by (done || lia). apply andb_false_r.
    - intros i Hi Hip. rewrite land_clear_testbit by (done || lia).
      destruct (Z.eqb_spec i p); [done|]. by rewrite andb_true_r. }
  pose proof (hw_pos overlap p Hp Hb) as Hpos.
  rewrite wrap_small by (unfold uint; lia).
  destruct (IH (Z.land mask (bnot 64 (Z.shiftl 1 p)))
    (Z.land overlap (bnot 64 (Z.shiftl 1 p))) (nr - 1)) as (mask' & -> & Hu & Hbits);
    [by apply land_clear_uint..|lia|lia|].
  exists mask'. split; [do 2 f_equal; lia|]. split; [done|]. intros i Hi.
  rewrite Hbits, !land_clear_testbit by done.
  destruct (Z.eqb_spec i p) as [->|]; [|by rewrite !andb_true_r].
  rewrite Hb. by rewrite !andb_false_r.
Qed.

#[global] Arguments clear_overlap : simpl never.
#[global] Arguments hw : simpl never.
#[global] Arguments bit_masks : simpl never.

(** [lo <= b < lo + k], as the code's ranges of blocks. *)
Definition in_range (lo k b : Z) : bool := (lo <=? b) && (b <? lo + k).

Lemma in_range_spec lo k b : reflect (lo <= b < lo + k) (in_range lo k b).
Proof.
  unfold in_range. apply iff_reflect. rewrite andb_true_iff, Z.leb_le, Z.ltb_lt. lia.
Qed.

(** The range of a request that stays inside the word of its first block. *)
Lemma range_in_word idx k b :
  0 <= idx -> 0 <= k -> idx mod 64 + k <= 64 -> 0 <= b ->
  in_range idx k b = (b / 64 =? idx / 64) && Z.testbit (range_mask (idx mod 64) k) (b mod 64).
Proof.
  intros Hi Hk Hw Hb.
  rewrite range_mask_testbit by (try done; Z.div_mod_to_equations; lia).
  destruct (in_range_spec idx k b), (Z.eqb_spec (b / 64) (idx / 64)),
    (Z.leb_spec (idx mod 64) (b mod 64)), (Z.ltb_spec (b mod 64) (idx mod 64 + k));
    simpl; done || (exfalso; zdm).
Qed.

(** ** [axmap_set_fn] on one word *)
Section set_fn.
Context (i n : Z) (al : axmap_level) (idx k sb : Z).
Hypothesis Hwf : level_wf i n al.
Hypothesis Hidx : 0 <= idx < n.
Hypothesis Hk : 1 <= k < 2 ^ 32.

Let k' := Z.min k (64 - idx mod 64).
Let w := word_at al (idx / 64).
Let mask := range_mask (idx mod 64) k'.

Lemma set_fn_range : 1 <= k' /\ idx mod 64 + k' <= 64 /\ k' <= 64.
Proof. unfold k'. zdm. Qed.

Lemma set_fn_mask_uint : uint 64 mask.
Proof. apply shl_uint. lia. Qed.

Lemma set_fn_offset : 0 <= idx / 64 < map_size al.
Proof. exact (index_in_level i n al idx Hwf Hidx). Qed.

Lemma set_fn_get : arr_get (al_map al) (idx / 64) = Some w.
Proof. exact (get_word_at i n al _ Hwf set_fn_offset). Qed.

Lemma set_fn_bit b :
  0 <= b -> in_range idx k' b = true ->
  bit_at al b = Z.testbit w (b mod 64) /\ Z.testbit mask (b mod 64) = true.
Proof.
  intros Hb Hr. destruct set_fn_range as (? & ? & ?).
  rewrite range_in_word in Hr by lia. apply andb_true_iff in Hr as [Hd Hm].
  apply Z.eqb_eq in Hd. split; [|done]. unfold bit_at. by rewrite Hd.
Qed.

Lemma set_fn_overlap_all :
  (forall b, 0 <= b -> in_range idx k' b = true -> bit_at al b = true) ->
  axmap_set_fn al (idx / 64) (idx mod 64) (SetData k sb) = Some (al, SetData k sb, true).
Proof.
  intros Hall. destruct set_fn_range as (? & ? & ?). unfold axmap_set_fn; simpl.
  unfold BLOCKS_PER_UNIT. fold k'.
  rewrite bit_masks_get by lia. simpl. fold (range_mask (idx mod 64) k'). fold mask.
  rewrite set_fn_get. simpl.
  replace (Z.land w mask) with mask; [by rewrite Z.eqb_refl|].
  apply (uint_ext 64); [apply set_fn_mask_uint| |].
  { apply land_uint; [lia|exact (word_at_uint i n al _ Hwf)|]. apply set_fn_mask_uint. }
  intros j Hj. rewrite Z.land_spec. destruct (Z.testbit mask j) eqn:E;
    [|by rewrite andb_false_r].
  rewrite andb_true_r. symmetry. unfold mask in E.
  rewrite range_mask_testbit in E by zdm.
  apply andb_true_iff in E as [E1%Z.leb_le E2%Z.ltb_lt].
  set (b := idx / 64 * 64 + j).
  assert (b mod 64 = j) as Hbm by (unfold b; zdm).
  assert (0 <= b) as Hb by (unfold b; zdm).
  assert (in_range idx k' b = true) as Hr.
  { apply reflect_iff with (1 := in_range_spec idx k' b). unfold b. zdm. }
  pose proof (Hall b Hb Hr) as Hbit. destruct (set_fn_bit b Hb Hr) as [Hw _].
  by rewrite <- Hbm, <- Hw.
Qed.

Lemma set_fn_set :
  (exists b, 0 <= b /\ in_range idx k' b = true /\ bit_at al b = false) ->
  exists w', uint 64 w' /\
    (forall j, 0 <= j -> Z.testbit w' j = Z.testbit w j || Z.testbit mask j) /\
    axmap_set_fn al (idx / 64) (idx mod 64) (SetData k sb) =
      Some (set_word al (idx / 64) w',
            SetData 1 (if i =? 0 then k' - hw (Z.land w mask) else sb),
            negb (w' =? -1ULL)) /\
    0 <= hw (Z.land w mask) < k'.
Proof.
  intros (b & Hb & Hr & Hbit). destruct set_fn_range as (? & ? & ?).
  destruct (set_fn_bit b Hb Hr) as [Hw Hm]. rewrite Hbit in Hw.
  pose proof set_fn_mask_uint as Hmu.
  assert (uint 64 w) as Hwu by exact (word_at_uint i n al _ Hwf).
  assert (uint 64 (Z.land w mask)) as Hou by (apply land_uint; [lia|done|apply Hmu]).
  assert (Z.land w mask <> mask) as Hne.
  { intros E. apply (f_equal (fun x => Z.testbit x (b mod 64))) in E.
    rewrite Z.land_spec, <- Hw, Hm in E. done. }
  assert (0 <= hw (Z.land w mask) < k') as Hhw.
  { split; [apply (hwn_nonneg 64)|]. apply (hw_lt_range (idx mod 64)); try done; try zdm.
    intros j Hj. rewrite Z.land_spec. by intros [_ ?]%andb_true_iff. }
  destruct (clear_overlap_spec 64 mask (Z.land w mask) k') as (mask' & Hco & Hmu' & Hmb);
    [done|done| |lia|].
  { pose proof (hwn_nonneg 64 (Z.land w mask)). unfold hw. lia. }
  assert (Z.land w mask' = 0) as Hdis.
  { apply (uint_ext 64); [apply land_uint; [lia|done|apply Hmu']|unfold uint; lia|].
    intros j Hj. rewrite Z.land_spec, Hmb, Z.land_spec, Z.bits_0 by lia.
    by destruct (Z.testbit w j), (Z.testbit mask j). }
  assert (mask' <> 0) as Hnz.
  { intros ->. specialize (Hmb (b mod 64) ltac:(zdm)).
    rewrite Z.bits_0, Z.land_spec, <- Hw, Hm in Hmb. done. }
  exists (Z.lor w mask'). split; [by apply lor_uint; [lia|..]|]. split.
  { intros j Hj. rewrite Z.lor_spec, Hmb, Z.land_spec by done.
    by destruct (Z.testbit w j), (Z.testbit mask j). }
  split; [|done]. unfold axmap_set_fn; simpl. unfold BLOCKS_PER_UNIT. fold k'.
  rewrite bit_masks_get by lia. simpl. fold (range_mask (idx mod 64) k'). fold mask.
  rewrite set_fn_get. simpl.
  destruct (Z.eqb_spec (Z.land w mask) mask); [done|].
  rewrite Hco. simpl. rewrite Hdis. destruct (Z.eqb_spec mask' 0); [done|]. simpl.
  rewrite arr_set_Some.
  - simpl. unfold set_word. by rewrite (lw_level i n al Hwf).
  - rewrite (lw_length i n al Hwf). apply set_fn_offset.
Qed.
End set_fn.

Lemma set_fn_hw_free i n al idx k :
  level_wf i n al -> 0 <= idx -> 0 <= k -> idx mod 64 + k <= 64 ->
  (forall b, 0 <= b -> in_range idx k b = true -> bit_at al b = false) ->
  hw (Z.land (word_at al (idx / 64)) (range_mask (idx mod 64) k)) = 0.
Proof.
  intros Hwf Hi Hk Hw Hfree. apply hwn_zero. intros j Hj. rewrite Z.land_spec.
  destruct (Z.testbit (range_mask (idx mod 64) k) j) eqn:Em; [|apply andb_false_r].
  rewrite andb_true_r.
  assert (0 <= j < 64) as Hj64.
  { rewrite range_mask_testbit in Em by zdm.
    apply andb_true_iff in Em as [E1%Z.leb_le E2%Z.ltb_lt]. zdm. }
  specialize (Hfree (idx / 64 * 64 + j) ltac:(zdm)).
  assert ((idx / 64 * 64 + j) / 64 = idx / 64) as Hd by zdm.
  assert ((idx / 64 * 64 + j) mod 64 = j) as Hm by zdm.
  rewrite range_in_word in Hfree by zdm. unfold bit_at in Hfree.
  rewrite Hd, Hm, Z.eqb_refl, Em in Hfree. by apply Hfree.
Qed.

(** A free block means that its word is not full. *)
Lemma bit_at_false_word i n al b :
  level_wf i n al -> 0 <= b -> bit_at al b = false -> word_at al (b / 64) <> -1ULL.
Proof.
  intros Hwf Hb Hf E. unfold bit_at in Hf. rewrite E, all_ones_testbit in Hf by lia.
  destruct (Z.leb_spec 0 (b mod 64)), (Z.ltb_spec (b mod 64) 64); simpl in Hf; done || zdm.
Qed.

Lemma levels_wf_cons i n al rest :
  levels_wf i n (al :: rest) <->
  level_wf i n al /\ linked al rest /\ levels_wf (i + 1) (map_size al) rest.
Proof. done. Qed.

(** The upward walk of [axmap_set_fn]: the bits of the request are added at
    this level and every level above is brought up to date. *)
Lemma set_handler_spec ls : forall (i : nat) n idx bit_nr k sb,
  levels_wf (Z.of_nat i) n ls -> ls <> [] -> 0 <= bit_nr -> idx = ulog64 bit_nr i ->
  0 <= idx < n -> 1 <= k < 2 ^ 32 ->
  (exists b, 0 <= b /\ in_range idx (Z.min k (64 - idx mod 64)) b = true /\ lbits ls b = false) ->
  exists ls' sb' r,
    handler_loop axmap_set_fn bit_nr i ls (SetData k sb) = Some (ls', SetData 1 sb', r) /\
    levels_wf (Z.of_nat i) n ls' /\ length ls' = length ls /\
    (forall b, 0 <= b ->
       lbits ls' b = lbits ls b || in_range idx (Z.min k (64 - idx mod 64)) b) /\
    (i <> 0%nat -> sb' = sb) /\
    (i = 0%nat -> 1 <= sb' <= Z.min k (64 - idx mod 64) /\
       ((forall b, 0 <= b -> in_range idx (Z.min k (64 - idx mod 64)) b = true ->
           lbits ls b = false) -> sb' = Z.min k (64 - idx mod 64))).
Proof.
  induction ls as [|al rest IH]; [done|].
  intros i n idx bit_nr k sb (Hwf & Hlink & Hrest)%levels_wf_cons _ Hbn Hidx Hin Hk Hex.
  destruct (set_fn_set _ n al idx k sb Hwf Hin Hk Hex) as (w' & Hwu & Hwb & Hfn & Hhw).
  assert (1 <= Z.min k (64 - idx mod 64) /\ idx mod 64 + Z.min k (64 - idx mod 64) <= 64)
    as [Hk1 Hk2] by zdm.
  set (k' := Z.min k (64 - idx mod 64)) in *.
  set (sb1 := if Z.of_nat i =? 0 then _ else _) in Hfn.
  pose proof (index_in_level _ n al idx Hwf Hin) as Hoff.
  assert (forall b, 0 <= b -> bit_at (set_word al (idx / 64) w') b =
    bit_at al b || in_range idx k' b) as Hbits.
  { intros b Hb. rewrite (bit_at_set_word (Z.of_nat i) n) by done.
    rewrite range_in_word by lia. destruct (Z.eqb_spec (b / 64) (idx / 64)) as [E|].
    - unfold bit_at. rewrite E. apply Hwb. zdm.
    - simpl. by rewrite orb_false_r. }
  assert ((i <> 0%nat -> sb1 = sb) /\ (i = 0%nat -> 1 <= sb1 <= k' /\
    ((forall b, 0 <= b -> in_range idx k' b = true -> bit_at al b = false) -> sb1 = k'))) as Hsb.
  { unfold sb1. split; [intros; by destruct (Z.eqb_spec (Z.of_nat i) 0); [lia|]|].
    intros ->. simpl. split; [lia|]. intros Hfree.
    rewrite (set_fn_hw_free _ n) by (done || lia). lia. }
  simpl handler_loop. rewrite <- Hidx, offset_div, bit_mod, Hfn. simpl.
  destruct (Z.eqb_spec w' (-1ULL)) as [Efull|Efull]; simpl.
  - destruct Hex as (b0 & Hb0 & Hr0 & Hf0).
    assert (word_at al (idx / 64) <> -1ULL) as Hnf.
    { replace (idx / 64) with (b0 / 64); [by eapply bit_at_false_word|].
      rewrite range_in_word in Hr0 by lia. by apply andb_true_iff in Hr0 as [?%Z.eqb_eq _]. }
    destruct rest as [|up rest'] eqn:Erest.
    { simpl. eexists _, _, _. split; [done|]. split_and!; try done; try apply Hsb.
      apply levels_wf_cons. split_and!; [by apply set_word_wf|done..]. }
    rewrite <- Erest in *. replace (Z.of_nat i + 1) with (Z.of_nat (S i)) in Hrest by lia.
    assert (lbits rest (idx / 64) = false) as Hup.
    { rewrite Erest in Hlink |- *. simpl in Hlink |- *.
      rewrite Hlink by done. by apply Z.eqb_neq. }
    destruct (IH (S i) (map_size al) (idx / 64) bit_nr 1 sb1)
      as (ls' & sb' & r & -> & Hwf' & Hlen & Hb' & Hs' & _); try done.
    { by rewrite Erest. }
    { rewrite ulog64_S by done. by rewrite Hidx. }
    { exists (idx / 64). split_and!; [lia| |done]. apply reflect_iff with (1 := in_range_spec _ _ _).
      zdm. }
    simpl. rewrite Hs' by done. eexists _, _, _. split; [done|]. split_and!; try done.
    + apply levels_wf_cons. split_and!; [by apply set_word_wf| |].
      * eapply linked_set_word; try done.
        -- intros j Hj. rewrite Hb' by lia. rewrite Efull, Z.eqb_refl.
           replace (Z.min 1 (64 - (idx / 64) mod 64)) with 1 by zdm.
           destruct (Z.eqb_spec j (idx / 64)) as [->|].
           { apply orb_true_iff. right. apply reflect_iff with (1 := in_range_spec _ _ _). lia. }
           destruct (in_range_spec (idx / 64) 1 j); [lia|]. by rewrite orb_false_r.
        -- by rewrite Erest.
      * by replace (Z.of_nat i + 1) with (Z.of_nat (S i)) by lia.
    + simpl. by rewrite Hlen.
    + apply Hsb.
    + apply Hsb.
  - eexists _, _, _. split; [done|]. split_and!; try done; try apply Hsb.
    apply levels_wf_cons. split_and!; [by apply set_word_wf| |done].
    eapply linked_set_word; try done. intros j Hj.
    destruct rest as [|up rest']; simpl.
    + destruct (Z.eqb_spec j (idx / 64)); [|done]. symmetry. by apply Z.eqb_neq.
    + destruct (Z.eqb_spec j (idx / 64)) as [->|]; [|done]. simpl in Hlink.
      rewrite Hlink by done. destruct Hex as (b0 & Hb0 & Hr0 & Hf0).
      rewrite range_in_word in Hr0 by lia. apply andb_true_iff in Hr0 as [E%Z.eqb_eq _].
      pose proof (bit_at_false_word _ n al b0 Hwf Hb0 Hf0) as Hnf. rewrite E in Hnf.
      destruct (Z.eqb_spec (word_at al (idx / 64)) (-1ULL)); [done|].
      symmetry. by apply Z.eqb_neq.
Qed.

(** When every bit of the request is already set the walk stops at once. *)
Lemma set_handler_noop ls (i : nat) n bit_nr k sb :
  levels_wf (Z.of_nat i) n ls -> ls <> [] -> 0 <= bit_nr ->
  0 <= ulog64 bit_nr i < n -> 1 <= k < 2 ^ 32 ->
  (forall b, 0 <= b -> in_range (ulog64 bit_nr i)
     (Z.min k (64 - ulog64 bit_nr i mod 64)) b = true -> lbits ls b = true) ->
  handler_loop axmap_set_fn bit_nr i ls (SetData k sb) = Some (ls, SetData k sb, true).
Proof.
  destruct ls as [|al rest]; [done|]. intros (Hwf & _ & _) _ Hb Hi Hk Hall.
  simpl. rewrite offset_div, bit_mod.
  by rewrite (set_fn_overlap_all _ n al _ k sb Hwf Hi Hk Hall).
Qed.

(** Whether a range holds a free block is decidable: it is finite. *)
Lemma range_all_or_free (P : Z -> bool) lo k :
  0 <= lo -> 0 <= k ->
  (forall b, 0 <= b -> in_range lo k b = true -> P b = true) \/
  (exists b, 0 <= b /\ in_range lo k b = true /\ P b = false).
Proof.
  intros Hlo Hk.
  destruct (decide (Exists (fun n => P (lo + Z.of_nat n) = false) (seq 0 (Z.to_nat k))))
    as [(n & Hn%in_seq & Hf)%Exists_exists|Hno].
  - right. exists (lo + Z.of_nat n). split_and!; [lia| |done].
    apply reflect_iff with (1 := in_range_spec _ _ _). lia.
  - left. intros b Hb Hr. destruct (P b) eqn:E; [done|]. destruct Hno.
    destruct (in_range_spec lo k b); [|done].
    apply Exists_exists. exists (Z.to_nat (b - lo)). rewrite in_seq. split; [lia|].
    by replace (lo + Z.of_nat (Z.to_nat (b - lo))) with b by lia.
Qed.

(** ** Clearing *)
Lemma clear_fn_spec i n al idx :
  level_wf i n al -> 0 <= idx < n ->
  axmap_clear_fn al (idx / 64) (idx mod 64) tt =
    if bit_at al idx
    then Some (set_word al (idx / 64)
           (Z.land (word_at al (idx / 64)) (bnot 64 (Z.shiftl 1 (idx mod 64)))), tt, false)
    else Some (al, tt, true).
Proof.
  intros Hwf Hin. pose proof (index_in_level _ n al idx Hwf Hin) as Hoff.
  unfold axmap_clear_fn. rewrite (get_word_at i n al _ Hwf Hoff). simpl.
  destruct (Z.eqb_spec (Z.land (word_at al (idx / 64)) (Z.shiftl 1 (idx mod 64))) 0) as [E|E].
  - apply (f_equal (fun x => Z.testbit x (idx mod 64))) in E.
    rewrite Z.land_spec, one_shl_testbit, Z.eqb_refl, andb_true_r, Z.bits_0 in E by zdm.
    unfold bit_at. by rewrite E.
  - destruct (bit_at al idx) eqn:Eb.
    + rewrite arr_set_Some; [done|]. by rewrite (lw_length i n al Hwf).
    + destruct E. apply Z.bits_inj'. intros j Hj.
      rewrite Z.land_spec, one_shl_testbit, Z.bits_0 by zdm.
      destruct (Z.eqb_spec j (idx mod 64)) as [->|]; [|apply andb_false_r].
      unfold bit_at in Eb. by rewrite Eb.
Qed.

(** The word from which a bit was just cleared is not full. *)
Lemma cleared_not_full x p :
  uint 64 x -> 0 <= p < 64 -> Z.land x (bnot 64 (Z.shiftl 1 p)) <> -1ULL.
Proof.
  intros Hx Hp E. apply (f_equal (fun y => Z.testbit y p)) in E.
  rewrite land_clear_testbit, Z.eqb_refl, andb_false_r, all_ones_testbit in E by (done || lia).
  destruct (Z.leb_spec 0 p), (Z.ltb_spec p 64); simpl in E; done || lia.
Qed.

Lemma clear_handler_spec ls : forall (i : nat) n idx bit_nr,
  levels_wf (Z.of_nat i) n ls -> 0 <= bit_nr -> idx = ulog64 bit_nr i -> 0 <= idx < n ->
  exists ls' r,
    handler_loop axmap_clear_fn bit_nr i ls tt = Some (ls', tt, r) /\
    levels_wf (Z.of_nat i) n ls' /\ length ls' = length ls /\
    (forall b, 0 <= b -> lbits ls' b = lbits ls b && negb (b =? idx)).
Proof.
  induction ls as [|al rest IH].
  { intros. by eexists [], false. }
  intros i n idx bit_nr (Hwf & Hlink & Hrest)%levels_wf_cons Hbn Hidx Hin.
  pose proof (index_in_level _ n al idx Hwf Hin) as Hoff.
  pose proof (word_at_uint _ n al (idx / 64) Hwf) as Hwu.
  simpl handler_loop. rewrite <- Hidx, offset_div, bit_mod, (clear_fn_spec _ n) by done.
  destruct (bit_at al idx) eqn:Ebit; simpl.
  2:{ eexists _, _. split; [done|]. split_and!; [done..|]. intros b Hb.
      destruct (Z.eqb_spec b idx) as [->|]; [by rewrite Ebit|by rewrite andb_true_r]. }
  set (w' := Z.land _ _).
  assert (uint 64 w') as Hwu' by (apply land_clear_uint; [done|zdm]).
  assert (w' <> -1ULL) as Hnf by (apply cleared_not_full; [done|zdm]).
  replace (Z.of_nat i + 1) with (Z.of_nat (S i)) in Hrest by lia.
  destruct (IH (S i) (map_size al) (idx / 64) bit_nr) as (ls' & r & -> & Hwf' & Hlen & Hb');
    [done|done|rewrite ulog64_S by done; by rewrite Hidx|done|].
  simpl. eexists _, _. split; [done|]. split_and!.
  - apply levels_wf_cons. split_and!; [by apply set_word_wf| |].
    + eapply linked_set_word; try done.
      * intros j Hj. rewrite Hb' by lia. destruct (Z.eqb_spec j (idx / 64)) as [->|].
        -- rewrite andb_false_r. symmetry. by apply Z.eqb_neq.
        -- by rewrite andb_true_r.
      * intros ->. by destruct ls'.
    + by replace (Z.of_nat i + 1) with (Z.of_nat (S i)) by lia.
  - simpl. by rewrite Hlen.
  - intros b Hb. simpl. rewrite (bit_at_set_word (Z.of_nat i) n) by done.
    destruct (Z.eqb_spec (b / 64) (idx / 64)) as [E|E].
    + unfold w'. rewrite land_clear_testbit by (try done; zdm).
      unfold bit_at. rewrite E. f_equal. f_equal.
      destruct (Z.eqb_spec (b mod 64) (idx mod 64)), (Z.eqb_spec b idx); try done; zdm.
    + destruct (Z.eqb_spec b idx) as [->|]; [done|]. by rewrite andb_true_r.
Qed.

(** ** Querying *)
Lemma isset_fn_spec i n al idx :
  level_wf i n al -> 0 <= idx < n ->
  axmap_isset_fn al (idx / 64) (idx mod 64) tt = Some (al, tt, bit_at al idx).
Proof.
  intros Hwf Hin. pose proof (clear_fn_spec _ n al idx Hwf Hin) as Hc.
  pose proof (index_in_level _ n al idx Hwf Hin) as Hoff.
  unfold axmap_clear_fn in Hc. unfold axmap_isset_fn.
  rewrite (get_word_at i n al _ Hwf Hoff) in *. simpl in *.
  destruct (Z.land (word_at al (idx / 64)) (Z.shiftl 1 (idx mod 64)) =? 0),
    (bit_at al idx); try done;
    rewrite arr_set_Some in Hc by (by rewrite (lw_length i n al Hwf)); done.
Qed.

Lemma isset_handler_spec ls : forall (i : nat) n idx bit_nr,
  levels_wf (Z.of_nat i) n ls -> 0 <= bit_nr -> idx = ulog64 bit_nr i -> 0 <= idx < n ->
  handler_topdown_loop axmap_isset_fn bit_nr i ls tt = Some (ls, tt, lbits ls idx).
Proof.
  induction ls as [|al rest IH]; [done|].
  intros i n idx bit_nr (Hwf & Hlink & Hrest)%levels_wf_cons Hbn Hidx Hin.
  pose proof (index_in_level _ n al idx Hwf Hin) as Hoff. simpl.
  replace (Z.of_nat i + 1) with (Z.of_nat (S i)) in Hrest by lia.
  rewrite (IH (S i) (map_size al) (idx / 64))
    by (done || (rewrite ulog64_S by done; by rewrite Hidx)). simpl.
  destruct (lbits rest (idx / 64)) eqn:Eup.
  - destruct rest as [|up rest']; [done|]. simpl in Hlink, Eup.
    rewrite Hlink in Eup by done. apply Z.eqb_eq in Eup.
    unfold bit_at. rewrite Eup, all_ones_testbit by lia.
    by destruct (Z.leb_spec 0 (idx mod 64)), (Z.ltb_spec (idx mod 64) 64); try zdm.
  - rewrite <- Hidx, offset_div, bit_mod, (isset_fn_spec _ n) by done. done.
Qed.

(** ** The loops of [__axmap_set] and [axmap_set_nr] *)

(** What one call adds: requests are given by their first block and length. *)
Record set_post (m m' : axmap) (lo k : Z) : Prop := {
  sp_wf : axmap_wf m';
  sp_nr : nr_bits m' = nr_bits m;
  sp_old : forall b, 0 <= b -> bits m b = true -> bits m' b = true;
  sp_new : forall b, 0 <= b -> bits m' b = true -> bits m b = true \/ lo <= b < lo + k
}.

Lemma with_levels_first ls ff nr : first_free (Axmap ls ff nr) = ff.
Proof. done. Qed.

(** A map whose levels are updated by a request keeps its invariant when the
    request does not touch the cached free block. *)
Lemma axmap_wf_update m ls' lo k :
  axmap_wf m -> levels_wf 0 (nr_bits m) ls' -> length ls' = length (levels m) ->
  (forall b, 0 <= b -> lbits ls' b = bits m b || in_range lo k b) ->
  (first_free m = -1ULL \/ in_range lo k (first_free m) = false) ->
  axmap_wf (Axmap ls' (first_free m) (nr_bits m)).
Proof.
  intros [Hnr Hne Hd Hl Hf] Hl' Hlen Hb Hff. split; simpl; try done.
  - intros ->. by destruct (levels m).
  - lia.
  - destruct Hf as [Hf|[Hf1 Hf2]]; [by left|]. destruct Hff as [Hff|Hff]; [by left|].
    right. split; [done|]. unfold bits; simpl. rewrite Hb by (simpl; lia).
    simpl. by rewrite Hf2, Hff.
Qed.

(** One run of the upward walk for a request inside one word. *)
Lemma set_step m bit_nr k sb :
  axmap_wf m -> 0 <= bit_nr -> 1 <= k -> bit_nr + k <= nr_bits m -> bit_nr mod 64 + k <= 64 ->
  (first_free m = -1ULL \/ in_range bit_nr k (first_free m) = false) ->
  exists m' d r, axmap_handler axmap_set_fn m bit_nr (SetData k sb) = Some (m', d, r) /\
    axmap_wf m' /\ nr_bits m' = nr_bits m /\ first_free m' = first_free m /\
    (forall b, 0 <= b -> bits m' b = bits m b || in_range bit_nr k b) /\
    ((forall b, 0 <= b -> in_range bit_nr k b = true -> bits m b = true) -> sd_set_bits d = sb) /\
    (sd_set_bits d = sb \/ 1 <= sd_set_bits d <= k) /\
    ((forall b, 0 <= b -> in_range bit_nr k b = true -> bits m b = false) -> sd_set_bits d = k).
Proof.
  intros Hwf Hb Hk Hn Hw Hff. pose proof Hwf as [Hnr Hne Hd Hl _].
  unfold axmap_handler. assert (Z.min k (64 - bit_nr mod 64) = k) as Hmin by lia.
  destruct (range_all_or_free (bits m) bit_nr k) as [Hall|Hex]; [lia..| |].
  - rewrite (set_handler_noop (levels m) 0 (nr_bits m)); simpl; rewrite ?Hmin; try done; try zdm.
    eexists _, _, _. split; [done|]. split_and!; try done.
    + by destruct m.
    + intros b Hbb. unfold bits; simpl. destruct (in_range bit_nr k b) eqn:Er.
      * rewrite orb_true_r. by apply Hall.
      * by rewrite orb_false_r.
    + by left.
    + intros Hfree. assert (in_range bit_nr k bit_nr = true) as Hr
        by (apply reflect_iff with (1 := in_range_spec _ _ _); lia).
      specialize (Hfree bit_nr Hb Hr). by rewrite Hall in Hfree.
  - destruct (set_handler_spec (levels m) 0 (nr_bits m) bit_nr bit_nr k sb)
      as (ls' & sb' & r & -> & Hwf' & Hlen & Hbits & _ & Hs); simpl; rewrite ?Hmin in *;
      try done; try zdm.
    eexists _, _, _. split; [done|]. specialize (Hs eq_refl) as [Hs1 Hs2].
    split_and!; try done.
    + by apply (axmap_wf_update m ls' bit_nr k).
    + intros Hall. destruct Hex as (b & Hbb & Hr & Hf). by rewrite Hall in Hf.
    + by right.
Qed.

Lemma in_range_sub lo k lo' k' b :
  lo <= lo' -> lo' + k' <= lo + k -> in_range lo' k' b = true -> in_range lo k b = true.
Proof.
  intros H1 H2. destruct (in_range_spec lo' k' b), (in_range_spec lo k b); done || lia.
Qed.

(** [__axmap_set] for a request inside one word.  Note the second round of the
    [while] loop, which is entered when exactly [64 - k] blocks were free: it
    finds nothing left to set and counts the first round twice. *)
Lemma set_loop_spec m bit_nr k :
  axmap_wf m -> 0 <= bit_nr -> 1 <= k -> bit_nr + k <= nr_bits m -> bit_nr mod 64 + k <= 64 ->
  (first_free m = -1ULL \/ in_range bit_nr k (first_free m) = false) ->
  exists m' s, set_loop (Z.to_nat k) m bit_nr k 0 (SetData k 0) = Some (m', s) /\
    axmap_wf m' /\ nr_bits m' = nr_bits m /\ first_free m' = first_free m /\ 0 <= s <= 2 * k /\
    (forall b, 0 <= b -> bits m' b = bits m b || in_range bit_nr k b) /\
    ((forall b, 0 <= b -> in_range bit_nr k b = true -> bits m b = false) -> s = k).
Proof.
  intros Hwf Hb Hk Hn Hw Hff. pose proof (aw_nr m Hwf) as Hnr.
  destruct (set_step m bit_nr k 0 Hwf Hb Hk Hn Hw Hff)
    as (m1 & d1 & r1 & Hh1 & Hwf1 & Hnr1 & Hff1 & Hb1 & _ & Hs1 & Hfree1).
  assert (0 <= sd_set_bits d1 <= k) as Hs1' by lia.
  destruct (Z.to_nat k) as [|fuel] eqn:Efuel; [lia|]. simpl set_loop.
  destruct (Z.eqb_spec k 0); [lia|]. rewrite Hh1. simpl.
  rewrite ?Z.add_0_l. rewrite !(wrap_small 32 (sd_set_bits d1)) by (unfold uint; zdm).
  rewrite (wrap_small 32 (BLOCKS_PER_UNIT - k)) by (unfold uint, BLOCKS_PER_UNIT; zdm).
  unfold BLOCKS_PER_UNIT. destruct (Z.eqb_spec (sd_set_bits d1) 0) as [Ez|Ez]; simpl.
  { eexists _, _. split; [done|]. split_and!; done || lia. }
  destruct (Z.eqb_spec (sd_set_bits d1) (64 - k)) as [Ek|Ek]; simpl.
  2:{ eexists _, _. split; [done|]. split_and!; done || lia. }
  rewrite !(wrap_small 32 (k - sd_set_bits d1)) by (unfold uint; zdm).
  rewrite (wrap_small 64 (bit_nr + sd_set_bits d1)) by (unfold uint; zdm).
  destruct (Z.eqb_spec (k - sd_set_bits d1) 0) as [E0|E0].
  { destruct fuel; simpl; rewrite (proj2 (Z.eqb_eq _ _) E0);
      eexists _, _; (split; [done|]); split_and!; done || lia. }
  destruct fuel as [|fuel]; [lia|]. simpl set_loop.
  destruct (Z.eqb_spec (k - sd_set_bits d1) 0); [lia|].
  destruct (set_step m1 (bit_nr + sd_set_bits d1) (k - sd_set_bits d1) (sd_set_bits d1))
    as (m2 & d2 & r2 & Hh2 & Hwf2 & Hnr2 & Hff2 & Hb2 & Hall2 & _); try done; try zdm.
  { rewrite Hff1. destruct Hff as [|Hff]; [by left|right].
    destruct (in_range (bit_nr + _) _ (first_free m)) eqn:E; [|done].
    apply (in_range_sub bit_nr k) in E; [congruence|lia..]. }
  assert (sd_set_bits d2 = sd_set_bits d1) as Hd2.
  { apply Hall2. intros b Hbb Hr. rewrite Hb1 by done.
    apply (in_range_sub bit_nr k) in Hr; [|lia..]. rewrite Hr. apply orb_true_r. }
  rewrite Hh2. simpl. rewrite Hd2. unfold BLOCKS_PER_UNIT.
  rewrite (wrap_small 32 (64 - (k - sd_set_bits d1))) by (unfold uint; zdm).
  destruct (Z.eqb_spec (sd_set_bits d1) 0); [lia|].
  destruct (Z.eqb_spec (sd_set_bits d1) (64 - (k - sd_set_bits d1))); [lia|]. simpl.
  eexists _, _. split; [done|].
  rewrite (wrap_small 32 (sd_set_bits d1 + sd_set_bits d1)) by (unfold uint; zdm).
  split_and!; try done; try lia; try congruence.
  - intros b Hbb. rewrite Hb2, Hb1 by done.
    destruct (in_range (bit_nr + sd_set_bits d1) _ b) eqn:E; [|by rewrite orb_false_r].
    apply (in_range_sub bit_nr k) in E; [|lia..]. rewrite E. by rewrite !orb_true_r.
  - intros Hf. specialize (Hfree1 Hf). lia.
Qed.

Lemma axmap_set_word m bit_nr k :
  axmap_wf m -> 0 <= bit_nr -> 1 <= k -> bit_nr + k <= nr_bits m -> bit_nr mod 64 + k <= 64 ->
  exists m' s, __axmap_set m bit_nr (SetData k 0) = Some (m', s) /\
    axmap_wf m' /\ nr_bits m' = nr_bits m /\ 0 <= s <= 2 * k /\
    (forall b, 0 <= b -> bits m' b = bits m b || in_range bit_nr k b) /\
    ((forall b, 0 <= b -> in_range bit_nr k b = true -> bits m b = false) -> s = k).
Proof.
  intros Hwf Hb Hk Hn Hw. pose proof Hwf as [Hnr Hne Hd Hl Hf].
  unfold __axmap_set; simpl sd_nr_bits.
  rewrite (wrap_small 64 (bit_nr + k)) by (unfold uint; zdm).
  fold (in_range bit_nr k (first_free m)).
  set (m0 := if in_range bit_nr k (first_free m) then _ else _).
  assert (axmap_wf m0 /\ nr_bits m0 = nr_bits m /\ levels m0 = levels m /\
    (first_free m0 = -1ULL \/ in_range bit_nr k (first_free m0) = false)) as (Hwf0 & Hnr0 & Hl0 & Hff0).
  { unfold m0. destruct (in_range bit_nr k (first_free m)) eqn:E; [|by auto].
    split_and!; try done; [|by left]. split; simpl; try done. by left. }
  rewrite Hnr0. destruct (Z.ltb_spec (nr_bits m) bit_nr); [lia|].
  destruct (Z.ltb_spec (nr_bits m) (bit_nr + k)); [lia|].
  destruct (set_loop_spec m0 bit_nr k) as (m' & s & Hm' & Hwf' & Hnr' & _ & Hs & Hb' & Hfree);
    try done; try lia.
  rewrite Hm'. eexists _, _. split; [done|].
  unfold bits in *. rewrite Hl0 in *. split_and!; try done; try lia.
Qed.

Lemma set_nr_loop_spec fuel : forall m bit_nr k acc,
  axmap_wf m -> 0 <= bit_nr -> 1 <= k < 2 ^ 32 -> bit_nr + k <= nr_bits m ->
  (Z.to_nat k <= fuel)%nat ->
  exists m' s, set_nr_loop fuel m bit_nr k acc = Some (m', s) /\ set_post m m' bit_nr k /\
    ((forall b, 0 <= b -> in_range bit_nr k b = true -> bits m b = false) ->
     s = u32 (acc + k) /\ forall b, 0 <= b -> bits m' b = bits m b || in_range bit_nr k b).
Proof.
  induction fuel as [|fuel IH]; [lia|]. intros m bit_nr k acc Hwf Hb Hk Hn Hfuel.
  pose proof (aw_nr m Hwf) as Hnr.
  simpl set_nr_loop. rewrite bit_mod. unfold BLOCKS_PER_UNIT.
  set (t := if 64 - bit_nr mod 64 <? k then 64 - bit_nr mod 64 else k).
  assert (1 <= t <= k /\ bit_nr mod 64 + t <= 64) as [Ht1 Ht2].
  { unfold t. destruct (Z.ltb_spec (64 - bit_nr mod 64) k); zdm. }
  destruct (axmap_set_word m bit_nr t) as (m1 & s1 & -> & Hwf1 & Hnr1 & Hs1 & Hb1 & Hf1);
    try done; try lia. simpl.
  assert (set_post m m1 bit_nr k) as Hpost1.
  { split; try done.
    - intros b Hbb Hm. by rewrite Hb1, Hm.
    - intros b Hbb. rewrite Hb1 by done. intros [?|Hr]%orb_true_iff; [by left|right].
      destruct (in_range_spec bit_nr t b); [lia|done]. }
  destruct (Z.eqb_spec s1 t) as [Et|Et]; simpl.
  2:{ eexists _, _. split; [done|]. split; [done|]. intros Hfree. destruct Et. apply Hf1.
      intros b Hbb Hr. apply Hfree; [done|]. apply (in_range_sub bit_nr k) in Hr; [done|lia..]. }
  rewrite (wrap_small 32 (k - s1)) by (unfold uint; lia).
  rewrite (wrap_small 64 (bit_nr + s1)) by (unfold uint; lia).
  destruct (Z.eqb_spec (k - s1) 0) as [E0|E0].
  { eexists _, _. split; [done|]. split; [done|]. intros Hfree.
    replace s1 with k by lia. split; [done|]. by replace k with t by lia. }
  destruct (IH m1 (bit_nr + s1) (k - s1) (u32 (acc + s1)))
    as (m' & s & -> & [Hwf' Hnr' Hold Hnew] & Hfr); try done; try lia.
  eexists _, _. split; [done|]. split.
  { split; [done|congruence| |].
    - intros b Hbb Hm. apply Hold; [done|]. by apply Hpost1.
    - intros b Hbb Hm. destruct (Hnew b Hbb Hm) as [H1|H1]; [|right; lia].
      by apply Hpost1. }
  intros Hfree. destruct Hfr as [-> Hb'].
  { intros b Hbb Hr. rewrite Hb1 by done.
    rewrite Hfree; [|done|by apply (in_range_sub bit_nr k) in Hr; [|lia..]].
    destruct (in_range_spec bit_nr t b), (in_range_spec (bit_nr + s1) (k - s1) b); done || lia. }
  split; [rewrite wrap_add_l by lia; f_equal; lia|].
  intros b Hbb. rewrite Hb', Hb1, <- orb_assoc by done. f_equal.
  destruct (in_range_spec bit_nr t b), (in_range_spec (bit_nr + s1) (k - s1) b),
    (in_range_spec bit_nr k b); simpl; done || lia.
Qed.

(** ** Free-block searches *)
Lemma levels_wf_lookup ls : forall i n (l : nat) al,
  levels_wf i n ls -> 1 <= n -> ls !! l = Some al ->
  exists n', level_wf (i + Z.of_nat l) n' al /\ 1 <= n' <= n /\
    match l with
    | O => n' = n
    | S p => exists below, ls !! p = Some below /\ n' = map_size below /\
        forall j, 0 <= j < map_size below -> bit_at al j = (word_at below j =? -1ULL)
    end.
Proof.
  induction ls as [|a rest IH]; [done|].
  intros i n [|l] al (Hwf & Hlink & Hrest) Hn Hal; simpl in Hal.
  { simplify_eq. exists n. rewrite Z.add_0_r. split_and!; done || lia. }
  assert (1 <= map_size a <= n) as Hsz by (rewrite (lw_size i n a Hwf); zdm).
  destruct (IH (i + 1) (map_size a) l al Hrest ltac:(lia) Hal) as (n' & Hwf' & Hn' & Hm).
  exists n'. replace (i + Z.of_nat (S l)) with (i + 1 + Z.of_nat l) by lia.
  split; [done|]. split; [lia|].
  destruct l as [|p].
  - exists a. subst n'. destruct rest; simplify_eq/=. done.
  - destruct Hm as (below & Hbl & ?). by exists below.
Qed.

(** The scan for a word that is not full. *)
Lemma scan_words_spec ws : forall j,
  0 <= j -> Forall (uint 64) ws -> j + Z.of_nat (length ws) <= 2 ^ 57 ->
  match scan_words j ws with
  | None => Forall (fun w => w = -1ULL) ws
  | Some v => exists q w, ws !! q = Some w /\ w <> -1ULL /\
      (forall p w', (p < q)%nat -> ws !! p = Some w' -> w' = -1ULL) /\
      v = (j + Z.of_nat q) * 64 + ffz w
  end.
Proof.
  induction ws as [|w ws IH]; intros j Hj Hu Hlen; simpl; [done|].
  apply Forall_cons_iff in Hu as [Hw Hu]. simpl in Hlen.
  destruct (Z.eqb_spec w (-1ULL)) as [E|E].
  - specialize (IH (j + 1) ltac:(lia) Hu ltac:(lia)).
    destruct (scan_words (j + 1) ws) as [v|]; [|by constructor].
    destruct IH as (q & w' & Hq & Hne & Hlt & ->). exists (S q), w'. split_and!; try done.
    + intros [|p] w'' Hp; simpl; [by intros [= <-]|]. intros. apply (Hlt p); [lia|done].
    + lia.
  - destruct (ffz_lowest w Hw E) as [Hz _]. unfold UNIT_SHIFT.
    rewrite (wrap_small 64 (Z.shiftl j 6)) by (unfold uint; rewrite Z.shiftl_mul_pow2 by lia; lia).
    rewrite Z.shiftl_mul_pow2 by lia. change (2 ^ 6) with 64.
    rewrite wrap_small by (unfold uint; lia).
    exists 0%nat, w. split_and!; try done; [lia|]. f_equal. lia.
Qed.

Lemma scan_level i n al index :
  level_wf i n al -> n < 2 ^ 63 -> 0 <= index < map_size al ->
  match scan_words index (drop (Z.to_nat index) (al_map al)) with
  | None => forall j, index <= j < map_size al -> word_at al j = -1ULL
  | Some v => index <= v / 64 < map_size al /\ 0 <= v /\ bit_at al v = false /\
      (forall b, index * 64 <= b < v -> bit_at al b = true) /\
      (word_at al index <> -1ULL -> v / 64 = index)
  end.
Proof.
  intros Hwf Hn Hi. pose proof Hwf as [_ Hs Hl Hw].
  pose proof (scan_words_spec (drop (Z.to_nat index) (al_map al)) index) as Hsc.
  rewrite length_drop in Hsc.
  specialize (Hsc ltac:(lia) ltac:(by apply Forall_drop) ltac:(zdm)).
  destruct (scan_words index _) as [v|].
  - destruct Hsc as (q & w & Hq & Hne & Hlt & Hv). rewrite lookup_drop in Hq.
    assert (uint 64 w) as Hu by (by eapply Forall_lookup_1).
    destruct (ffz_lowest w Hu Hne) as (Hz & Hbz & Hbl).
    pose proof (lookup_lt_Some _ _ _ Hq) as Hql.
    assert (v / 64 = index + Z.of_nat q /\ v mod 64 = ffz w) as [Hd Hm] by zdm.
    assert (word_at al (index + Z.of_nat q) = w) as Hwq.
    { unfold word_at, arr_get. destruct (Z.leb_spec 0 (index + Z.of_nat q)); [|lia].
      replace (Z.to_nat (index + Z.of_nat q)) with (Z.to_nat index + q)%nat by lia.
      by rewrite Hq. }
    assert (forall p, (p < q)%nat -> word_at al (index + Z.of_nat p) = -1ULL) as Hfull.
    { intros p Hp. destruct (lookup_lt_is_Some_2 (al_map al) (Z.to_nat index + p)) as [w' Hw'];
        [lia|].
      rewrite <- (Hlt p w' Hp) by (by rewrite lookup_drop).
      unfold word_at, arr_get. destruct (Z.leb_spec 0 (index + Z.of_nat p)); [|lia].
      replace (Z.to_nat (index + Z.of_nat p)) with (Z.to_nat index + p)%nat by lia.
      by rewrite Hw'. }
    split_and!; [lia|lia|lia| | |].
    + unfold bit_at. by rewrite Hd, Hm, Hwq.
    + intros b Hb. unfold bit_at. destruct (decide (b / 64 = v / 64)) as [E|E].
      * rewrite E, Hd, Hwq. apply Hbl. zdm.
      * replace (b / 64) with (index + Z.of_nat (Z.to_nat (b / 64 - index))) by zdm.
        rewrite Hfull by zdm. rewrite all_ones_testbit by lia.
        by destruct (Z.leb_spec 0 (b mod 64)), (Z.ltb_spec (b mod 64) 64); try zdm.
    + intros Hni. destruct q as [|q]; [lia|]. destruct Hni. rewrite <- (Hfull 0%nat) by lia.
      f_equal. lia.
  - intros j Hj. destruct (arr_get_is_Some (al_map al) j) as [w Hw']; [lia|].
    unfold word_at. rewrite Hw'. simpl. apply arr_get_Some in Hw' as [_ Hw'].
    rewrite Forall_lookup in Hsc. apply (Hsc (Z.to_nat (j - index))).
    rewrite lookup_drop. by replace (Z.to_nat index + Z.to_nat (j - index))%nat with (Z.to_nat j) by lia.
Qed.

Lemma full_word_bits al b :
  0 <= b -> word_at al (b / 64) = -1ULL -> bit_at al b = true.
Proof.
  intros Hb E. unfold bit_at. rewrite E, all_ones_testbit by lia.
  by destruct (Z.leb_spec 0 (b mod 64)), (Z.ltb_spec (b mod 64) 64); try zdm.
Qed.

Section find_first_free.
Context (ls : list axmap_level) (n : Z).
Hypothesis Hwf : levels_wf 0 n ls.
Hypothesis Hn : 1 <= n < 2 ^ 63.

(** The starting word of level [l] is not full, or there is no such word. *)
Definition start_ok (l : nat) (index : Z) : Prop :=
  forall al, ls !! l = Some al -> index < map_size al -> word_at al index <> -1ULL.

Definition all_full (l : nat) : Prop :=
  forall al, ls !! l = Some al -> forall j, 0 <= j < map_size al -> word_at al j = -1ULL.

Definition full_below (l : nat) (index : Z) : Prop :=
  forall al, ls !! l = Some al ->
    forall j, 0 <= j < index -> j < map_size al -> word_at al j = -1ULL.

(** A bit found at level [l+1] is a word of level [l] that is not full. *)
Lemma start_ok_below l al v :
  ls !! S l = Some al -> 0 <= v -> bit_at al v = false -> start_ok l v.
Proof.
  intros Hal Hv Hb below Hbl Hlt.
  destruct (levels_wf_lookup ls 0 n (S l) al Hwf ltac:(lia) Hal) as (n' & _ & _ & b' & Hb' & _ & Hlk).
  simplify_eq. rewrite Hlk in Hb by lia. by apply Z.eqb_neq.
Qed.

Lemma full_below_below l al v :
  ls !! S l = Some al -> (forall b, 0 <= b < v -> bit_at al b = true) -> full_below l v.
Proof.
  intros Hal Hb below Hbl j Hj Hlt.
  destruct (levels_wf_lookup ls 0 n (S l) al Hwf ltac:(lia) Hal) as (n' & _ & _ & b' & Hb' & _ & Hlk).
  simplify_eq. apply Z.eqb_eq. rewrite <- Hlk by lia. by apply Hb.
Qed.

Lemma all_full_down l : is_Some (ls !! l) -> all_full l -> all_full 0.
Proof.
  induction l as [|l IH]; [done|]. intros [al Hal] Hf.
  destruct (levels_wf_lookup ls 0 n (S l) al Hwf ltac:(lia) Hal)
    as (n' & Hw & _ & below & Hb & -> & Hlk).
  apply IH; [by eexists|]. intros al' Hal' j Hj. simplify_eq.
  apply Z.eqb_eq. rewrite <- Hlk by lia. apply full_word_bits; [lia|].
  apply (Hf _ Hal). rewrite (lw_size _ _ _ Hw). zdm.
Qed.

Lemma lower_level l al : ls !! S l = Some al -> is_Some (ls !! l).
Proof. intros H%lookup_lt_Some. apply lookup_lt_is_Some. lia. Qed.

Lemma lbits_level0 al b : ls !! 0%nat = Some al -> lbits ls b = bit_at al b.
Proof. by destruct ls; intros [= ->]. Qed.

(** Started at a word that is not full, the search ends at a free bit or
    falls off the end of a level. *)
Lemma ff_loop_sound l : forall index ret,
  is_Some (ls !! l) -> 0 <= index -> start_ok l index ->
  exists r, find_first_free_loop ls l index ret = Some r /\
    (r = -1ULL \/ (0 <= r /\ lbits ls r = false)).
Proof.
  induction l as [|l IH]; intros index ret [al Hal] Hi Hst; simpl; rewrite Hal; simpl;
    (destruct (Z.leb_spec (map_size al) index); [by eexists; split; [done|left]|]);
    destruct (levels_wf_lookup ls 0 n _ al Hwf ltac:(lia) Hal) as (n' & Hw & Hn' & _);
    pose proof (scan_level _ n' al index Hw ltac:(lia) ltac:(lia)) as Hsc;
    destruct (scan_words index _) as [v|];
    try (exfalso; apply (Hst al Hal); [lia|apply Hsc; lia]);
    destruct Hsc as (Hv & Hv0 & Hb & _).
  - exists v. split; [done|]. right. by rewrite (lbits_level0 al).
  - apply IH; [by eapply lower_level|done|]. by eapply start_ok_below.
Qed.

(** Started at the first word of the top level, the search ends at the
    lowest free bit, or with [-1] when every word is full. *)
Lemma ff_loop_min l : forall index ret,
  is_Some (ls !! l) -> 0 <= index -> full_below l index ->
  ((index = 0 /\ ret = -1ULL) \/ start_ok l index) ->
  exists r, find_first_free_loop ls l index ret = Some r /\
    ((r = -1ULL /\ all_full 0) \/
     (0 <= r /\ lbits ls r = false /\ forall b, 0 <= b < r -> lbits ls b = true)).
Proof.
  induction l as [|l IH]; intros index ret [al Hal] Hi Hfb Hst; simpl; rewrite Hal; simpl;
    (destruct (Z.leb_spec (map_size al) index);
     [eexists; split; [done|left]; split; [done|];
      eapply all_full_down; [by eexists|]; intros al' Hal' j Hj; simplify_eq;
      by apply (Hfb al); [|lia..]|]);
    destruct (levels_wf_lookup ls 0 n _ al Hwf ltac:(lia) Hal) as (n' & Hw & Hn' & _);
    pose proof (scan_level _ n' al index Hw ltac:(lia) ltac:(lia)) as Hsc;
    destruct (scan_words index _) as [v|].
  2,4: destruct Hst as [[-> ->]|Hst]; [|exfalso; apply (Hst al Hal); [lia|apply Hsc; lia]].
  - destruct Hsc as (Hv & Hv0 & Hb & Hlt & _). exists v. split; [done|]. right.
    rewrite (lbits_level0 al) by done. split_and!; [done..|]. intros b Hbb.
    rewrite (lbits_level0 al) by done. destruct (decide (index * 64 <= b)); [apply Hlt; lia|].
    apply full_word_bits; [lia|]. apply (Hfb al Hal); zdm.
  - eexists. split; [done|]. left. split; [done|]. intros al' Hal' j Hj. simplify_eq.
    by apply Hsc.
  - apply IH; [by eapply lower_level|done|intros ? ? ? ?; lia|by left].
  - destruct Hsc as (Hv & Hv0 & Hb & Hlt & _).
    apply IH; [by eapply lower_level|done| |right; by eapply start_ok_below].
    eapply full_below_below; [done|]. intros b Hbb.
    destruct (decide (index * 64 <= b)); [apply Hlt; lia|].
    apply full_word_bits; [lia|]. apply (Hfb al Hal); zdm.
Qed.
End find_first_free.

Lemma top_level m : axmap_wf m -> is_Some (levels m !! (length (levels m) - 1)%nat).
Proof.
  intros [_ Hne _ _ _]. apply lookup_lt_is_Some. destruct (levels m); [done|simpl; lia].
Qed.

(** Every block of the map is marked. *)
Definition map_full (m : axmap) : Prop := forall b, 0 <= b < nr_bits m -> bits m b = true.

Lemma minus_one_not_in m r : axmap_wf m -> r = -1ULL -> (r <? nr_bits m) = false.
Proof. intros [Hn _ _ _ _] ->. apply Z.ltb_ge. change (-1ULL) with (2 ^ 64 - 1). lia. Qed.

Lemma find_first_free_top m :
  axmap_wf m ->
  exists r, axmap_find_first_free m (length (levels m) - 1) 0 = Some r /\
    ((r = -1ULL /\ map_full m) \/
     (0 <= r < nr_bits m /\ bits m r = false /\ forall b, 0 <= b < r -> bits m b = true)).
Proof.
  intros Hwf. pose proof Hwf as [Hn _ _ Hl _].
  destruct (ff_loop_min (levels m) (nr_bits m) Hl ltac:(lia) (length (levels m) - 1) 0 (-1ULL))
    as (r & Hr & Hc); [by apply top_level|lia|intros ? ? ? ?; lia|by left|].
  unfold axmap_find_first_free. rewrite Hr. simpl. eexists. split; [done|].
  destruct Hc as [[-> Hfull]|(Hr0 & Hb & Hmin)].
  - rewrite minus_one_not_in by done. left. split; [done|]. intros b Hb.
    unfold bits, lbits. destruct (levels m) as [|al rest] eqn:E; [by destruct (aw_nonempty m Hwf)|].
    destruct Hl as (Hw & _). apply full_word_bits; [lia|]. apply (Hfull al eq_refl).
    by eapply index_in_level.
  - destruct (Z.ltb_spec r (nr_bits m)); [by right|]. left. split; [done|].
    intros b Hbb. apply Hmin. lia.
Qed.

Lemma axmap_first_free_spec m :
  axmap_wf m ->
  exists m' r, axmap_first_free m = Some (m', r) /\ axmap_wf m' /\ levels m' = levels m /\
    nr_bits m' = nr_bits m /\
    ((r = -1ULL /\ map_full m) \/ (0 <= r < nr_bits m /\ bits m r = false)).
Proof.
  intros Hwf. pose proof Hwf as [Hn Hne Hd Hl Hf]. unfold axmap_first_free, firstfree_valid.
  destruct (Z.eqb_spec (first_free m) (-1ULL)) as [E|E]; simpl.
  - destruct (find_first_free_top m Hwf) as (r & -> & Hr). simpl.
    eexists _, _. split; [done|]. split_and!; try done;
      [|destruct Hr as [?|(? & ? & _)]; [by left|by right]].
    split; try done. destruct Hr as [[-> _]|(Hr0 & Hb & _)]; [by left|by right].
  - eexists _, _. split; [done|]. split_and!; try done. destruct Hf as [|Hf]; [done|by right].
Qed.

Lemma next_free_fn_eq al offset bit d w :
  arr_get (al_map al) offset = Some w ->
  axmap_next_free_fn al offset bit d =
    if Z.land (bnot 64 (Z.ones (u64 (nf_bit d + 1) mod 64))) (bnot 64 w) =? 0
    then Some (al, d, false)
    else if negb (w =? -1ULL) then Some (al, NextFree (al_level al) offset (nf_bit d), true)
    else Some (al, NextFree (nf_level d) (nf_offset d)
                (u64 (nf_bit d + BLOCKS_PER_UNIT - 1) / BLOCKS_PER_UNIT), false).
Proof.
  intros Hw. unfold axmap_next_free_fn. rewrite bit_mod, bit_masks_get by zdm.
  simpl. by rewrite Hw.
Qed.

Lemma next_free_handler ls : forall (i : nat) n bit_nr d,
  levels_wf (Z.of_nat i) n ls -> 0 <= bit_nr -> 0 <= ulog64 bit_nr i < n ->
  exists d' r, handler_loop axmap_next_free_fn bit_nr i ls d = Some (ls, d', r) /\
    (r = true -> exists q al, nf_level d' = Z.of_nat (i + q) /\ ls !! q = Some al /\
       0 <= nf_offset d' < map_size al /\ word_at al (nf_offset d') <> -1ULL).
Proof.
  induction ls as [|al rest IH].
  { intros. by eexists _, false. }
  intros i n bit_nr d (Hwf & Hlink & Hrest)%levels_wf_cons Hb Hin.
  pose proof (index_in_level _ n al _ Hwf Hin) as Hoff.
  replace (Z.of_nat i + 1) with (Z.of_nat (S i)) in Hrest by lia.
  assert (forall d, exists d' r,
    handler_loop axmap_next_free_fn bit_nr (S i) rest d = Some (rest, d', r) /\
    (r = true -> exists q al', nf_level d' = Z.of_nat (i + q) /\ (al :: rest) !! q = Some al' /\
       0 <= nf_offset d' < map_size al' /\ word_at al' (nf_offset d') <> -1ULL)) as Hgo.
  { intros d0. destruct (IH (S i) (map_size al) bit_nr d0 Hrest Hb) as (d' & r & -> & Hr);
      [by rewrite ulog64_S|]. eexists _, _. split; [done|]. intros Hr'.
    destruct (Hr Hr') as (q & al' & ? & ? & [? ?] & ?). exists (S q), al'. split_and!; try done. lia. }
  simpl handler_loop. rewrite offset_div.
  rewrite (next_free_fn_eq _ _ _ _ _ (get_word_at _ n al _ Hwf Hoff)).
  destruct (_ =? 0); simpl; [destruct (Hgo d) as (d' & r & -> & Hr); by eexists _, _|].
  destruct (Z.eqb_spec (word_at al (ulog64 bit_nr i / 64)) (-1ULL)); simpl.
  - destruct (Hgo (NextFree (nf_level d) (nf_offset d)
      (u64 (nf_bit d + BLOCKS_PER_UNIT - 1) / BLOCKS_PER_UNIT))) as (d' & r & -> & Hr).
    by eexists _, _.
  - eexists _, _. split; [done|]. intros _. exists 0%nat, al. simpl.
    rewrite (lw_level _ _ _ Hwf). split_and!; try done; try lia.
Qed.

(** ** Creation and reset *)

(** The sizes of the levels, which [axmap_reset] relies on and keeps. *)
Fixpoint levels_shape (i n : Z) (ls : list axmap_level) : Prop :=
  match ls with
  | [] => True
  | al :: rest => al_level al = i /\ map_size al = (n + 63) / 64 /\
      levels_shape (i + 1) (map_size al) rest
  end.

Lemma levels_wf_shape ls : forall i n, levels_wf i n ls -> levels_shape i n ls.
Proof.
  induction ls as [|al rest IH]; [done|]. intros i n ([? ? _ _] & _ & Hr). split_and!; [done..|].
  by apply IH.
Qed.

Lemma word_at_reset al j : word_at (level_reset al) j = 0.
Proof.
  unfold word_at, arr_get, level_reset; simpl. destruct (0 <=? j); [|done].
  destruct (replicate _ _ !! _) eqn:E; [|done]. by apply lookup_replicate in E as [-> _].
Qed.

Lemma bit_at_reset al b : bit_at (level_reset al) b = false.
Proof. unfold bit_at. rewrite word_at_reset. apply Z.bits_0. Qed.

Lemma reset_levels_wf ls : forall i n,
  0 <= n -> levels_shape i n ls -> levels_wf i n (level_reset <$> ls).
Proof.
  induction ls as [|al rest IH]; [done|]. intros i n Hn (Hi & Hs & Hr). simpl.
  split_and!.
  - split; simpl; [done|done|rewrite length_replicate, Z2Nat.id; [done|rewrite Hs; zdm]|].
    apply Forall_replicate. unfold uint. lia.
  - destruct rest as [|up rest']; simpl; [done|]. intros j Hj.
    rewrite bit_at_reset, word_at_reset. done.
  - apply IH; [rewrite Hs; zdm|done].
Qed.

Lemma reset_wf m :
  0 < nr_bits m < 2 ^ 63 -> levels m <> [] -> (length (levels m) <= 7)%nat ->
  levels_shape 0 (nr_bits m) (levels m) ->
  axmap_wf (axmap_reset m) /\ forall b, bits (axmap_reset m) b = false.
Proof.
  intros Hn Hne Hlen Hs.
  assert (forall b, bits (axmap_reset m) b = false) as Hb.
  { intros b. unfold bits, axmap_reset; simpl. destruct (levels m); [done|].
    apply bit_at_reset. }
  split; [|done]. split; simpl; try done.
  - by destruct (levels m).
  - by rewrite length_fmap.
  - apply reset_levels_wf; [lia|done].
  - right; simpl. split; [lia|]. apply Hb.
Qed.

Lemma units_for_div n : 0 <= n < 2 ^ 63 -> units_for n = (n + 63) / 64.
Proof.
  intros Hn. unfold units_for, UNIT_SHIFT, BLOCKS_PER_UNIT.
  rewrite wrap_small by (unfold uint; lia). rewrite Z.shiftr_div_pow2 by lia. f_equal. lia.
Qed.

Lemma count_levels_bounds fuel : forall i,
  (1 <= count_levels fuel i <= S fuel)%nat.
Proof.
  induction fuel as [|fuel IH]; intros i; simpl; [lia|].
  destruct (1 <? i); [|lia]. specialize (IH (u32 (Z.shiftr (u32 (i + 63)) UNIT_SHIFT))). lia.
Qed.

Lemma new_levels_shape malloc n : forall i nr ls,
  0 <= nr < 2 ^ 63 -> new_levels malloc n i nr = Some ls ->
  length ls = n /\ levels_shape i nr ls.
Proof.
  induction n as [|n IH]; intros i nr ls Hnr H; simpl in H; [by simplify_eq|].
  inv_opt. rewrite units_for_div in * by done.
  destruct (IH (i + 1) ((nr + 63) / 64) x0) as [Hl Hs]; [zdm|done|].
  simpl. split; [by rewrite Hl|]. by split_and!.
Qed.

Lemma new_levels_total malloc n : forall i nr,
  (forall k, is_Some (malloc k)) -> is_Some (new_levels malloc n i nr).
Proof.
  induction n as [|n IH]; intros i nr Hm; simpl; [done|].
  destruct (Hm (units_for nr)) as [ws ->]. simpl.
  by destruct (IH (i + 1) (units_for nr) Hm) as [ls ->].
Qed.

Lemma axmap_new_wf malloc n m :
  0 < n < 2 ^ 63 -> axmap_new malloc n = Some m ->
  axmap_wf m /\ nr_bits m = n /\ forall b, bits m b = false.
Proof.
  intros Hn H. unfold axmap_new in H. inv_opt.
  apply new_levels_shape in E as [Hl Hs]; [|lia].
  pose proof (count_levels_bounds 6 (u32 (units_for n))) as Hc.
  set (c := count_levels 6 _) in *. clearbody c.
  destruct (reset_wf (Axmap x 0 n)) as [Hwf Hb]; cbn [levels nr_bits]; try done.
  - intros ->. cbn in Hl. lia.
  - rewrite Hl. lia.
Qed.

Lemma axmap_new_some malloc n : (forall k, is_Some (malloc k)) -> is_Some (axmap_new malloc n).
Proof.
  intros Hm. unfold axmap_new. set (c := count_levels 6 _). clearbody c.
  by destruct (new_levels_total malloc c 0 n Hm) as [ls ->].
Qed.

(** ** Operations on well-formed maps *)
Lemma set_nr_free_spec m bit_nr k :
  axmap_wf m -> 0 <= bit_nr -> 1 <= k < 2 ^ 32 -> bit_nr + k <= nr_bits m ->
  (forall b, bit_nr <= b < bit_nr + k -> bits m b = false) ->
  exists m', axmap_set_nr m bit_nr k = Some (m', k) /\ axmap_wf m' /\ nr_bits m' = nr_bits m /\
    forall b, 0 <= b -> bits m' b = bits m b || in_range bit_nr k b.
Proof.
  intros Hwf Hb Hk Hn Hfree.
  destruct (set_nr_loop_spec (S (Z.to_nat k)) m bit_nr k 0)
    as (m' & s & Hs & [Hwf' Hnr _ _] & Hf); try done; [lia|].
  destruct Hf as [-> Hbits].
  { intros b Hbb Hr. destruct (in_range_spec bit_nr k b); [by apply Hfree|done]. }
  exists m'. unfold axmap_set_nr. rewrite Hs, Z.add_0_l, wrap_small by (unfold uint; lia). done.
Qed.

Lemma set_nr_safe_spec m bit_nr k :
  axmap_wf m -> 0 <= bit_nr -> 1 <= k < 2 ^ 32 -> bit_nr + k <= nr_bits m ->
  exists m' s, axmap_set_nr m bit_nr k = Some (m', s) /\ axmap_wf m' /\ nr_bits m' = nr_bits m /\
    (forall b, 0 <= b -> bits m b = true -> bits m' b = true) /\
    (forall b, 0 <= b -> bits m' b = true -> bits m b = true \/ bit_nr <= b < bit_nr + k).
Proof.
  intros Hwf Hb Hk Hn.
  destruct (set_nr_loop_spec (S (Z.to_nat k)) m bit_nr k 0)
    as (m' & s & Hs & [? ? ? ?] & _); try done; [lia|].
  by exists m', s.
Qed.

Lemma isset_spec m bit_nr :
  axmap_wf m -> 0 <= bit_nr < nr_bits m -> axmap_isset m bit_nr = Some (bits m bit_nr).
Proof.
  intros [_ _ _ Hl _] Hb. unfold axmap_isset, axmap_handler_topdown.
  destruct (Z.leb_spec bit_nr (nr_bits m)); [|lia].
  by rewrite (isset_handler_spec _ 0 (nr_bits m) bit_nr) by (done || lia).
Qed.

Lemma next_free_spec m bit_nr :
  axmap_wf m -> 0 <= bit_nr < nr_bits m ->
  exists m' r, axmap_next_free m bit_nr = Some (m', r) /\ axmap_wf m' /\ levels m' = levels m /\
    nr_bits m' = nr_bits m /\ ((r = -1ULL /\ map_full m) \/ (0 <= r < nr_bits m /\ bits m r = false)).
Proof.
  intros Hwf Hb. pose proof Hwf as [Hn Hne Hd Hl Hf]. unfold axmap_next_free.
  destruct (firstfree_valid m && (bit_nr <? first_free m)) eqn:Ev.
  { unfold firstfree_valid in Ev. zbool. eexists _, _. split; [done|].
    split_and!; try done. destruct Hf; [done|by right]. }
  unfold axmap_handler.
  destruct (next_free_handler (levels m) 0 (nr_bits m) bit_nr (NextFree (-1U) 0 bit_nr))
    as (d & r & -> & Hr); [done|lia|done|]. simpl.
  replace (Axmap (levels m) (first_free m) (nr_bits m)) with m by (by destruct m).
  destruct (axmap_first_free_spec m Hwf) as (m' & r' & Hff & Hwf' & Hl' & Hn' & Hr').
  destruct r; simpl; [|by eexists _, _].
  destruct (Hr eq_refl) as (q & al & Hlev & Hal & Hoff & Hw). rewrite Hlev. simpl.
  pose proof (lookup_lt_Some _ _ _ Hal) as Hq.
  destruct (Z.eqb_spec (Z.of_nat q) (-1U)) as [E|_]; simpl.
  { change (-1U) with 4294967295 in E. lia. }
  rewrite Nat2Z.id. unfold axmap_find_first_free.
  destruct (ff_loop_sound (levels m) (nr_bits m) Hl ltac:(lia) q (nf_offset d) (-1ULL))
    as (v & -> & Hv); [by eexists|lia|by intros ? ? ?; simplify_eq|]. simpl.
  destruct (Z.ltb_spec v (nr_bits m)); simpl; [|by eexists _, _].
  destruct (Z.eqb_spec v (-1ULL)); simpl; [by eexists _, _|].
  eexists _, _. split; [done|]. split_and!; try done. destruct Hv as [|[? ?]]; [done|by right].
Qed.

(** ** Properties *)

(** C8. Setting a run of blocks that is entirely free: [axmap_set_nr] returns
    the full count, marks exactly the run, and keeps the map well formed. *)
Theorem axmap_set_nr_free m bit_nr k :
  axmap_wf m -> 0 <= bit_nr -> 1 <= k < 2 ^ 32 -> bit_nr + k <= nr_bits m ->
  (forall b, bit_nr <= b < bit_nr + k -> bits m b = false) ->
  exists m', axmap_set_nr m bit_nr k = Some (m', k) /\ axmap_wf m' /\ nr_bits m' = nr_bits m /\
    forall b, 0 <= b -> bits m' b = bits m b || in_range bit_nr k b.
Proof. apply set_nr_free_spec. Qed.

(** Any run inside the map, free or not: [axmap_set_nr] finishes without
    leaving an array or failing an assertion, keeps the map well formed, never
    unmarks a block, and never marks a block outside the run. *)
Theorem axmap_set_nr_safe m bit_nr k :
  axmap_wf m -> 0 <= bit_nr -> 1 <= k < 2 ^ 32 -> bit_nr + k <= nr_bits m ->
  exists m' s, axmap_set_nr m bit_nr k = Some (m', s) /\ axmap_wf m' /\ nr_bits m' = nr_bits m /\
    (forall b, 0 <= b -> bits m b = true -> bits m' b = true) /\
    (forall b, 0 <= b -> bits m' b = true -> bits m b = true \/ bit_nr <= b < bit_nr + k).
Proof. apply set_nr_safe_spec. Qed.

(** A block inside the map is reported set exactly when it is marked: the
    top-down walk agrees with level 0. *)
Theorem axmap_isset_correct m bit_nr :
  axmap_wf m -> 0 <= bit_nr < nr_bits m -> axmap_isset m bit_nr = Some (bits m bit_nr).
Proof. apply isset_spec. Qed.

(** Clearing a block unmarks that block and no other, and keeps the map
    well formed, cached free block included. *)
Theorem axmap_clear_correct m bit_nr :
  axmap_wf m -> 0 <= bit_nr < nr_bits m ->
  exists m', axmap_clear m bit_nr = Some m' /\ axmap_wf m' /\ nr_bits m' = nr_bits m /\
    forall b, 0 <= b -> bits m' b = bits m b && negb (b =? bit_nr).
Proof.
  intros [Hn Hne Hd Hl Hf] Hb. unfold axmap_clear, axmap_handler.
  destruct (clear_handler_spec (levels m) 0 (nr_bits m) bit_nr bit_nr)
    as (ls' & r & -> & Hwf' & Hlen & Hbits); try done; try lia. simpl.
  eexists. split; [done|].
  destruct (Z.ltb_spec bit_nr (first_free m)); simpl; (split; [|split; [done|by apply Hbits]]);
    (split; simpl; [done|by intros ->; destruct (levels m)|lia|done|]).
  - right; simpl. split; [done|]. unfold bits; simpl. rewrite Hbits, Z.eqb_refl by lia.
    apply andb_false_r.
  - destruct Hf as [|[Hf1 Hf2]]; [by left|right]. simpl. split; [done|].
    unfold bits; simpl. rewrite Hbits by lia. unfold bits in Hf2. by rewrite Hf2.
Qed.

(** C9. [axmap_next_free] returns a free block of the map when there is one,
    and [-1] only when every block is marked; it never leaves an array. *)
Theorem axmap_next_free_correct m bit_nr :
  axmap_wf m -> 0 <= bit_nr < nr_bits m ->
  exists m' r, axmap_next_free m bit_nr = Some (m', r) /\ axmap_wf m' /\ levels m' = levels m /\
    ((r = -1ULL /\ map_full m) \/ (0 <= r < nr_bits m /\ bits m r = false)).
Proof.
  intros Hwf Hb. destruct (next_free_spec m bit_nr Hwf Hb) as (m' & r & E & H1 & H2 & _ & H3).
  by exists m', r.
Qed.

(** A new map of [n] blocks is well formed with no block marked; the
    allocation succeeds whenever every [malloc] does. *)
Theorem axmap_new_correct malloc n :
  0 < n < 2 ^ 63 ->
  ((forall k, is_Some (malloc k)) -> is_Some (axmap_new malloc n)) /\
  forall m, axmap_new malloc n = Some m ->
    axmap_wf m /\ nr_bits m = n /\ forall b, bits m b = false.
Proof.
  intros Hn. split; [apply axmap_new_some|]. intros m. by apply axmap_new_wf.
Qed.

(** An allocator that never fails, for the concrete maps below. *)
Definition sample_malloc (k : Z) : option (list Z) := Some (replicate (Z.to_nat k) 0).

Definition sample_map : axmap := Axmap [Level 0 2 [0; 0]; Level 1 1 [0]] 0 100.

Lemma sample_map_new : axmap_new sample_malloc 100 = Some sample_map.
Proof. vm_compute. reflexivity. Qed.

Lemma sample_map_wf : axmap_wf sample_map.
Proof. apply (axmap_new_wf sample_malloc 100); [lia|apply sample_map_new]. Qed.

Lemma sample_map_empty b : bits sample_map b = false.
Proof. apply (axmap_new_wf sample_malloc 100); [lia|apply sample_map_new]. Qed.

Lemma axmap_set_nr_free_witness :
  exists m', axmap_set_nr sample_map 60 8 = Some (m', 8) /\ axmap_wf m' /\ nr_bits m' = 100 /\
    forall b, 0 <= b -> bits m' b = bits sample_map b || in_range 60 8 b.
Proof.
  apply (axmap_set_nr_free sample_map 60 8); [apply sample_map_wf|lia|lia|simpl; lia|].
  intros b _. apply sample_map_empty.
Defined.

Lemma axmap_set_nr_safe_witness :
  exists m' s, axmap_set_nr sample_map 10 90 = Some (m', s) /\ axmap_wf m' /\ nr_bits m' = 100 /\
    (forall b, 0 <= b -> bits sample_map b = true -> bits m' b = true) /\
    (forall b, 0 <= b -> bits m' b = true -> bits sample_map b = true \/ 10 <= b < 10 + 90).
Proof.
  apply (axmap_set_nr_safe sample_map 10 90); [apply sample_map_wf|lia|lia|simpl; lia].
Defined.

Lemma axmap_isset_correct_witness : axmap_isset sample_map 99 = Some (bits sample_map 99).
Proof. apply (axmap_isset_correct sample_map 99); [apply sample_map_wf|simpl; lia]. Defined.

Lemma axmap_clear_correct_witness :
  exists m', axmap_clear sample_map 70 = Some m' /\ axmap_wf m' /\ nr_bits m' = 100 /\
    forall b, 0 <= b -> bits m' b = bits sample_map b && negb (b =? 70).
Proof. apply (axmap_clear_correct sample_map 70); [apply sample_map_wf|simpl; lia]. Defined.

Lemma axmap_next_free_correct_witness :
  exists m' r, axmap_next_free sample_map 5 = Some (m', r) /\ axmap_wf m' /\
    levels m' = levels sample_map /\
    ((r = -1ULL /\ map_full sample_map) \/ (0 <= r < 100 /\ bits sample_map r = false)).
Proof. apply (axmap_next_free_correct sample_map 5); [apply sample_map_wf|simpl; lia]. Defined.

Lemma axmap_new_correct_witness :
  ((forall k, is_Some (sample_malloc k)) -> is_Some (axmap_new sample_malloc 5000)) /\
  forall m, axmap_new sample_malloc 5000 = Some m ->
    axmap_wf m /\ nr_bits m = 5000 /\ forall b, bits m b = false.
Proof. apply (axmap_new_correct sample_malloc 5000). lia. Defined.

(** The count [axmap_set_nr] returns can exceed both the blocks it marked
    and the blocks it was asked for: with the first 16 blocks of a word taken, a
    request for 40 blocks marks 24 more and reports 48. *)
Theorem axmap_set_nr_overcount :
  exists m m', axmap_set_nr sample_map 0 16 = Some (m, 16) /\
    axmap_set_nr m 0 40 = Some (m', 48) /\
    Forall (fun b => bits m' b = (b <? 40)) (seqZ 0 100).
Proof.
  exists (Axmap [Level 0 2 [Z.ones 16; 0]; Level 1 1 [0]] (-1ULL) 100),
    (Axmap [Level 0 2 [Z.ones 40; 0]; Level 1 1 [0]] (-1ULL) 100).
  split; [vm_compute; reflexivity|]. split; [vm_compute; reflexivity|].
  apply (bool_decide_unpack _). vm_compute. exact I.
Qed.

(** [axmap_isset] lets the block number one past the end through its guard:
    on a map whose size is a multiple of 64 the walk reads outside the level. *)
Theorem axmap_isset_past_end :
  exists m, axmap_new sample_malloc 128 = Some m /\ nr_bits m = 128 /\ axmap_isset m 128 = None.
Proof.
  exists (Axmap [Level 0 2 [0; 0]; Level 1 1 [0]] 0 128).
  split; [vm_compute; reflexivity|]. split; vm_compute; reflexivity.
Qed.

(** The block [axmap_next_free] returns need not come after the given one,
    as its comment says, even when a later block is free. *)
Theorem axmap_next_free_before :
  exists m m', axmap_set_nr sample_map 10 1 = Some (m, 1) /\
    axmap_next_free m 10 = Some (m', 0) /\ bits m 11 = false.
Proof.
  exists (Axmap [Level 0 2 [1024; 0]; Level 1 1 [0]] 0 100),
    (Axmap [Level 0 2 [1024; 0]; Level 1 1 [0]] 0 100).
  split; [vm_compute; reflexivity|]. split; vm_compute; reflexivity.
Qed.
