(* ===== verification/Fifo.v ===== *)
(** * The byte FIFO: [fifo.c], [fifo.h]

    A ring of a power-of-two size whose [in] and [out] counters are
    free-running [unsigned int]s; its contract is a list of bytes. *)
From S2P Require Import Prelude.

(** ** The FIFO *)
Record fifo := Fifo {
  buffer : list Z;
  size : Z;
  fin : Z;
  fout : Z
}.

(** [malloc n] is a block of [n] bytes of arbitrary contents, or [NULL]. *)
Definition fifo_alloc (malloc : Z -> option (list Z)) (sz : Z) : option fifo :=
  buf ← malloc sz; Some (Fifo buf sz 0 0).

Definition fifo_len (f : fifo) : Z := u32 (fin f - fout f).
Definition fifo_room (f : fifo) : Z := u32 (size f - fin f + fout f).

Definition fifo_put (f : fifo) (buf : list Z) (len : Z) : option (fifo * Z) :=
  let len := Z.min len (fifo_room f) in
  let pos := Z.land (fin f) (u32 (size f - 1)) in
  let l := Z.min len (u32 (size f - pos)) in
  part1 ← mem_read buf 0 l;
  b ← mem_write (buffer f) pos part1;
  part2 ← mem_read buf l (u32 (len - l));
  b ← mem_write b 0 part2;
  Some (Fifo b (size f) (u32 (fin f + len)) (fout f), len).

(** [want] says whether the caller passed a buffer; the bytes copied into it
    are the second component. *)
Definition fifo_get (f : fifo) (want : bool) (len : Z) : option (fifo * list Z * Z) :=
  let len := Z.min len (u32 (fin f - fout f)) in
  data ←
    (if want then
       let pos := Z.land (fout f) (u32 (size f - 1)) in
       let l := Z.min len (u32 (size f - pos)) in
       part1 ← mem_read (buffer f) pos l;
       part2 ← mem_read (buffer f) 0 (u32 (len - l));
       Some (part1 ++ part2)
     else Some []);
  let out := u32 (fout f + len) in
  let '(i, o) := if fin f =? out then (0, 0) else (fin f, out) in
  Some (Fifo (buffer f) (size f) i o, data, len).

(** ** Contract of the FIFO *)
Record fifo_wf (k : Z) (f : fifo) : Prop := {
  fw_k : 0 <= k <= 31;
  fw_size : size f = 2 ^ k;
  fw_buf : Z.of_nat (length (buffer f)) = size f;
  fw_in : uint 32 (fin f);
  fw_out : uint 32 (fout f);
  fw_len : fifo_len f <= size f
}.

(** The byte at ring position [i]. *)
Definition ring_at (f : fifo) (i : Z) : Z :=
  default 0 (buffer f !! Z.to_nat (i mod size f)).

(** The queued bytes, oldest first. *)
Definition contents (f : fifo) : list Z :=
  (fun j => ring_at f (fout f + j)) <$> seqZ 0 (fifo_len f).

Lemma size_bounds k f : fifo_wf k f -> 1 <= size f <= 2 ^ 31.
Proof.
  intros [Hk -> _ _ _ _]. split.
  - apply (Z.pow_le_mono_r 2 0 k); lia.
  - apply Z.pow_le_mono_r; lia.
Qed.

Lemma size_divides k f : fifo_wf k f -> (size f | 2 ^ 32).
Proof.
  intros [Hk -> _ _ _ _]. exists (2 ^ (32 - k)). rewrite <- Z.pow_add_r by lia. f_equal. lia.
Qed.

(** A counter that wraps at [2^32] keeps its ring position. *)
Lemma ring_wrap k f x : fifo_wf k f -> u32 x mod size f = x mod size f.
Proof.
  intros Hwf. pose proof (size_bounds k f Hwf). destruct (size_divides k f Hwf) as [q Hq].
  unfold wrap. rewrite Hq, Z.mul_comm. rewrite Z.rem_mul_r by nia.
  rewrite Z.add_mod, (Z.mul_comm (size f)), Z.mod_mul, Z.add_0_r, !Z.mod_mod by lia. done.
Qed.

Lemma pos_mod k f x : fifo_wf k f -> Z.land x (u32 (size f - 1)) = x mod size f.
Proof.
  intros Hwf. pose proof (size_bounds k f Hwf).
  rewrite wrap_small by (unfold uint; lia).
  destruct Hwf as [Hk -> _ _ _ _]. apply land_pow2_mod. lia.
Qed.

Lemma fifo_len_bounds f : 0 <= fifo_len f < 2 ^ 32.
Proof. apply wrap_bounds. lia. Qed.

Lemma fifo_room_len k f : fifo_wf k f -> fifo_room f = size f - fifo_len f.
Proof.
  intros Hwf. pose proof (size_bounds k f Hwf). pose proof (fifo_len_bounds f).
  pose proof (fw_len k f Hwf).
  unfold fifo_room. replace (size f - fin f + fout f) with (size f - (fin f - fout f)) by lia.
  transitivity (u32 (size f - fifo_len f)).
  - unfold fifo_len, wrap. by rewrite Zminus_mod_idemp_r.
  - apply wrap_small. unfold uint. lia.
Qed.

Lemma contents_length f : Z.of_nat (length (contents f)) = fifo_len f.
Proof.
  unfold contents. rewrite length_fmap, length_seqZ. pose proof (fifo_len_bounds f). lia.
Qed.

Lemma contents_lookup f (j : nat) :
  Z.of_nat j < fifo_len f -> contents f !! j = Some (ring_at f (fout f + Z.of_nat j)).
Proof.
  intros Hj. unfold contents. rewrite list_lookup_fmap, lookup_seqZ_lt by lia. simpl.
  by rewrite Z.add_0_l.
Qed.

(** The newest byte sits just before ring position [in]. *)
Lemma fin_mod k f : fifo_wf k f -> fin f mod size f = (fout f + fifo_len f) mod size f.
Proof.
  intros Hwf. pose proof (size_bounds k f Hwf).
  rewrite <- (ring_wrap k f (fout f + fifo_len f)) by done.
  unfold fifo_len. rewrite wrap_add_r by lia.
  replace (fout f + (fin f - fout f)) with (fin f) by lia.
  by rewrite (wrap_small 32 (fin f)) by apply Hwf.
Qed.

(** The ring index at distance [d] from position [p]. *)
Lemma ring_dist s p i :
  0 < s -> 0 <= i < s -> i = (p + (i - p) mod s) mod s.
Proof.
  intros Hs Hi. rewrite Zplus_mod_idemp_r.
  replace (p + (i - p)) with i by lia. symmetry. by apply Z.mod_small.
Qed.

Lemma mem_read_lookup {A} (src : list A) off n out (i : nat) :
  mem_read src off n = Some out -> Z.of_nat i < n -> out !! i = src !! (Z.to_nat off + i)%nat.
Proof.
  unfold mem_read. destruct (_ && _); [|done]. intros [= <-] Hi.
  rewrite lookup_take_lt by lia. apply lookup_drop.
Qed.

Lemma mem_read_length {A} (src : list A) off n out :
  mem_read src off n = Some out -> Z.of_nat (length out) = n.
Proof.
  unfold mem_read. destruct (Z.leb_spec 0 off); [|done]. destruct (Z.leb_spec 0 n); [|done].
  destruct (Z.leb_spec (off + n) (Z.of_nat (length src))); [|done]. intros [= <-].
  rewrite length_take, length_drop. lia.
Qed.

(** The two copies of [fifo_put] lay [len] bytes out along the ring. *)
Lemma ring_write (b data : list Z) s p len :
  Z.of_nat (length b) = s -> 0 < s -> 0 <= p < s -> 0 <= len <= s ->
  len <= Z.of_nat (length data) ->
  let l := Z.min len (s - p) in
  exists p1 b1 p2 b2, mem_read data 0 l = Some p1 /\ mem_write b p p1 = Some b1 /\
    mem_read data l (len - l) = Some p2 /\ mem_write b1 0 p2 = Some b2 /\
    length b2 = length b /\
    forall i : nat, Z.of_nat i < s ->
      b2 !! i = if (Z.of_nat i - p) mod s <? len
                then data !! Z.to_nat ((Z.of_nat i - p) mod s) else b !! i.
Proof.
  intros Hb Hs Hp Hlen Hdata l.
  assert (0 <= l <= len) as Hl by lia.
  destruct (mem_read data 0 l) as [p1|] eqn:E1; [|by rewrite mem_read_Some in E1 by lia].
  pose proof (mem_read_length _ _ _ _ E1) as Hp1.
  destruct (mem_write b p p1) as [b1|] eqn:E2; [|by rewrite mem_write_Some in E2 by lia].
  destruct (mem_read data l (len - l)) as [p2|] eqn:E3; [|by rewrite mem_read_Some in E3 by lia].
  pose proof (mem_read_length _ _ _ _ E3) as Hp2.
  pose proof (mem_write_length _ _ _ _ E2) as Hb1.
  destruct (mem_write b1 0 p2) as [b2|] eqn:E4; [|by rewrite mem_write_Some in E4 by lia].
  pose proof (mem_write_length _ _ _ _ E4) as Hb2.
  exists p1, b1, p2, b2. split_and!; [done..|lia|]. intros i Hi.
  rewrite (mem_write_lookup _ _ _ _ i E4).
  destruct (decide (0 <= Z.of_nat i < 0 + Z.of_nat (length p2))) as [H2|H2].
  - assert ((Z.of_nat i - p) mod s = Z.of_nat i + (s - p)) as ->.
    { symmetry. apply (Z.mod_unique_pos _ _ (-1)); lia. }
    destruct (Z.ltb_spec (Z.of_nat i + (s - p)) len); [|lia].
    rewrite (mem_read_lookup _ _ _ _ _ E3) by lia. f_equal. lia.
  - rewrite (mem_write_lookup _ _ _ _ i E2).
    destruct (decide (p <= Z.of_nat i < p + Z.of_nat (length p1))) as [H1|H1].
    + rewrite (Z.mod_small (Z.of_nat i - p)) by lia.
      destruct (Z.ltb_spec (Z.of_nat i - p) len); [|lia].
      rewrite (mem_read_lookup _ _ _ _ _ E1) by lia. f_equal. lia.
    + destruct (Z.ltb_spec ((Z.of_nat i - p) mod s) len); [|done]. exfalso.
      destruct (decide (p <= Z.of_nat i)).
      * rewrite Z.mod_small in * by lia. lia.
      * assert ((Z.of_nat i - p) mod s = Z.of_nat i + (s - p)).
        { symmetry. apply (Z.mod_unique_pos _ _ (-1)); lia. }
        lia.
Qed.

(** [fifo_put] on a well-formed FIFO. *)
Lemma fifo_put_spec k f data len :
  fifo_wf k f -> 0 <= len <= Z.of_nat (length data) ->
  let n := Z.min len (size f - fifo_len f) in
  exists f', fifo_put f data len = Some (f', n) /\ fifo_wf k f' /\
    contents f' = contents f ++ take (Z.to_nat n) data.
Proof.
  intros Hwf Hlen n. pose proof (size_bounds k f Hwf) as Hs. pose proof (fifo_len_bounds f) as HL.
  pose proof (fw_len k f Hwf) as HLs. pose proof (fw_buf k f Hwf) as Hbuf.
  assert (0 <= fin f mod size f < size f) as Hpos by (apply Z.mod_pos_bound; lia).
  unfold fifo_put. rewrite (fifo_room_len k f), (pos_mod k f) by done. fold n.
  rewrite (wrap_small 32 (size f - fin f mod size f)) by (unfold uint; lia).
  destruct (ring_write (buffer f) data (size f) (fin f mod size f) n)
    as (p1 & b1 & p2 & b2 & -> & Hb1 & Hp2 & Hb2 & Hlb & Hring); try lia.
  simpl. rewrite Hb1. simpl. rewrite (wrap_small 32 (n - _)) by (unfold uint; lia).
  rewrite Hp2. simpl. rewrite Hb2. simpl. eexists. split; [done|].
  set (f' := Fifo b2 (size f) (u32 (fin f + n)) (fout f)).
  assert (fifo_len f' = fifo_len f + n) as HL'.
  { unfold fifo_len, f'; simpl. unfold wrap. rewrite Zminus_mod_idemp_l.
    replace (fin f + n - fout f) with (fin f - fout f + n) by lia.
    rewrite <- Zplus_mod_idemp_l. fold (u32 (fin f - fout f)). fold (fifo_len f).
    apply Z.mod_small. lia. }
  assert (fifo_wf k f') as Hwf'.
  { destruct Hwf. split; unfold f'; simpl; try done; [by rewrite Hlb|by apply wrap_uint|].
    fold f'. lia. }
  split; [done|].
  assert (forall j, 0 <= j < fifo_len f + n -> ring_at f' (fout f + j) =
    if j <? fifo_len f then ring_at f (fout f + j)
    else default 0 (data !! Z.to_nat (j - fifo_len f))) as Hat.
  { intros j Hj. unfold ring_at, f'; simpl.
    assert (0 <= (fout f + j) mod size f < size f) by (apply Z.mod_pos_bound; lia).
    rewrite Hring by lia. rewrite Z2Nat.id by lia.
    assert (((fout f + j) mod size f - fin f mod size f) mod size f = (j - fifo_len f) mod size f) as ->.
    { rewrite (fin_mod k f) by done. rewrite <- Zminus_mod. f_equal. lia. }
    destruct (Z.ltb_spec j (fifo_len f)).
    - replace ((j - fifo_len f) mod size f) with (size f + j - fifo_len f).
      + destruct (Z.ltb_spec (size f + j - fifo_len f) n); [lia|done].
      + apply (Z.mod_unique_pos _ _ (-1)); lia.
    - rewrite (Z.mod_small (j - fifo_len f)) by lia.
      destruct (Z.ltb_spec (j - fifo_len f) n); [done|lia]. }
  apply list_eq. intros i.
  destruct (decide (Z.of_nat i < fifo_len f + n)) as [Hi|Hi].
  - rewrite contents_lookup by lia. unfold f' at 1; simpl. rewrite Hat by lia.
    destruct (Z.ltb_spec (Z.of_nat i) (fifo_len f)).
    + rewrite lookup_app_l by (pose proof (contents_length f); lia). by rewrite contents_lookup.
    + pose proof (contents_length f). rewrite lookup_app_r by lia.
      rewrite lookup_take_lt by lia.
      replace (Z.to_nat (Z.of_nat i - fifo_len f)) with (i - length (contents f))%nat by lia.
      destruct (lookup_lt_is_Some_2 data (i - length (contents f))) as [x ->]; [lia|done].
  - pose proof (contents_length f). pose proof (contents_length f').
    rewrite !lookup_ge_None_2; [done| |lia].
    rewrite length_app, length_take. lia.
Qed.

(** The two copies of [fifo_get] read [len] bytes along the ring. *)
Lemma ring_read (b : list Z) s p len :
  Z.of_nat (length b) = s -> 0 < s -> 0 <= p < s -> 0 <= len <= s ->
  let l := Z.min len (s - p) in
  exists p1 p2, mem_read b p l = Some p1 /\ mem_read b 0 (len - l) = Some p2 /\
    Z.of_nat (length (p1 ++ p2)) = len /\
    forall j : nat, Z.of_nat j < len ->
      (p1 ++ p2) !! j = b !! Z.to_nat ((p + Z.of_nat j) mod s).
Proof.
  intros Hb Hs Hp Hlen l. assert (0 <= l <= len) as Hl by lia.
  destruct (mem_read b p l) as [p1|] eqn:E1; [|by rewrite mem_read_Some in E1 by lia].
  destruct (mem_read b 0 (len - l)) as [p2|] eqn:E2; [|by rewrite mem_read_Some in E2 by lia].
  pose proof (mem_read_length _ _ _ _ E1). pose proof (mem_read_length _ _ _ _ E2).
  exists p1, p2. split_and!; [done..|rewrite length_app; lia|]. intros j Hj.
  destruct (decide (Z.of_nat j < l)).
  - rewrite lookup_app_l by lia. rewrite (mem_read_lookup _ _ _ _ _ E1) by lia.
    rewrite Z.mod_small by lia. f_equal. lia.
  - rewrite lookup_app_r by lia. rewrite (mem_read_lookup _ _ _ _ _ E2) by lia.
    replace ((p + Z.of_nat j) mod s) with (p + Z.of_nat j - s)
      by (apply (Z.mod_unique_pos _ _ 1); lia).
    f_equal. lia.
Qed.

Lemma fifo_get_spec k f len :
  fifo_wf k f -> 0 <= len ->
  let n := Z.min len (fifo_len f) in
  exists f', fifo_get f true len = Some (f', take (Z.to_nat n) (contents f), n) /\
    fifo_wf k f' /\ contents f' = drop (Z.to_nat n) (contents f).
Proof.
  intros Hwf Hlen n. pose proof (size_bounds k f Hwf) as Hs. pose proof (fifo_len_bounds f) as HL.
  pose proof (fw_len k f Hwf) as HLs. pose proof (fw_buf k f Hwf) as Hbuf.
  assert (0 <= fout f mod size f < size f) as Hpos by (apply Z.mod_pos_bound; lia).
  unfold fifo_get. fold (fifo_len f). fold n. rewrite (pos_mod k f) by done.
  rewrite (wrap_small 32 (size f - fout f mod size f)) by (unfold uint; lia).
  destruct (ring_read (buffer f) (size f) (fout f mod size f) n)
    as (p1 & p2 & -> & Hp2 & Hlp & Hat); try lia.
  simpl. rewrite (wrap_small 32 (n - _)) by (unfold uint; lia). rewrite Hp2. simpl.
  assert (p1 ++ p2 = take (Z.to_nat n) (contents f)) as ->.
  { apply list_eq. intros i. pose proof (contents_length f).
    destruct (decide (Z.of_nat i < n)) as [Hi|Hi].
    - rewrite Hat, lookup_take_lt, contents_lookup by lia. unfold ring_at.
      rewrite Zplus_mod_idemp_l. destruct (lookup_lt_is_Some_2 (buffer f)
        (Z.to_nat ((fout f + Z.of_nat i) mod size f))) as [x ->]; [|done].
      pose proof (Z.mod_pos_bound (fout f + Z.of_nat i) (size f)). lia.
    - rewrite !lookup_ge_None_2; [done|rewrite length_take; lia|lia]. }
  destruct (Z.eqb_spec (fin f) (u32 (fout f + n))) as [E|E].
  - eexists. split; [done|].
    assert (fifo_len f = n) as HLn.
    { pose proof (fw_in k f Hwf). unfold fifo_len in *. rewrite E. unfold wrap.
      rewrite Zminus_mod_idemp_l. replace (fout f + n - fout f) with n by lia.
      apply Z.mod_small. lia. }
    split; [destruct Hwf; split; simpl; try done; cbv [fifo_len fin fout wrap];
      rewrite Z.sub_diag, Z.mod_0_l by done; lia|].
    rewrite drop_ge; [done|]. pose proof (contents_length f). lia.
  - eexists. split; [done|]. set (f' := Fifo _ _ _ _).
    assert (fifo_len f' = fifo_len f - n) as HL'.
    { unfold fifo_len, f'; simpl. unfold wrap. rewrite Zminus_mod_idemp_r.
      replace (fin f - (fout f + n)) with (fin f - fout f - n) by lia.
      rewrite <- Zminus_mod_idemp_l. fold (u32 (fin f - fout f)). fold (fifo_len f).
      apply Z.mod_small. lia. }
    split; [destruct Hwf; split; unfold f'; simpl; try done; [by apply wrap_uint|fold f'; lia]|].
    apply list_eq. intros i. rewrite lookup_drop. pose proof (contents_length f).
    pose proof (contents_length f'). destruct (decide (Z.of_nat i < fifo_len f - n)).
    + rewrite !contents_lookup by lia. f_equal. unfold ring_at, f'; simpl. do 3 f_equal.
      rewrite <- (Zplus_mod_idemp_l (u32 _)), (ring_wrap k f), Zplus_mod_idemp_l by done.
      f_equal. lia.
    + by rewrite !lookup_ge_None_2 by lia.
Qed.

(** Queueing bytes: [fifo_put] accepts [min len room] bytes, appends exactly
    those to the queue, never writes outside its buffer, and keeps the FIFO well
    formed, also when the [unsigned int] counters wrap around. *)
Theorem fifo_put_refines k f data len :
  fifo_wf k f -> 0 <= len <= Z.of_nat (length data) ->
  exists f' n, fifo_put f data len = Some (f', n) /\
    n = Z.min len (size f - Z.of_nat (length (contents f))) /\ fifo_wf k f' /\
    contents f' = contents f ++ take (Z.to_nat n) data.
Proof.
  intros Hwf Hlen. destruct (fifo_put_spec k f data len Hwf Hlen) as (f' & Hp & Hwf' & Hc).
  eexists f', _. rewrite contents_length. by split_and!.
Qed.

(** Dequeueing bytes: [fifo_get] hands out the oldest [min len queued]
    bytes in order, removes exactly those and keeps the FIFO well formed. *)
Theorem fifo_get_refines k f len :
  fifo_wf k f -> 0 <= len ->
  exists f' n, fifo_get f true len = Some (f', take (Z.to_nat n) (contents f), n) /\
    n = Z.min len (Z.of_nat (length (contents f))) /\ fifo_wf k f' /\
    contents f' = drop (Z.to_nat n) (contents f).
Proof.
  intros Hwf Hlen. destruct (fifo_get_spec k f len Hwf Hlen) as (f' & Hg & Hwf' & Hc).
  eexists f', _. rewrite contents_length. by split_and!.
Qed.

(** A FIFO of eight bytes whose counters are about to wrap. *)
Definition sample_fifo : fifo := Fifo [1; 2; 3; 4; 5; 6; 7; 8] 8 (2 ^ 32 - 1) (2 ^ 32 - 3).

Lemma sample_fifo_wf : fifo_wf 3 sample_fifo.
Proof. split; unfold uint; simpl; try done; vm_compute; intuition congruence. Qed.

Lemma fifo_put_refines_witness :
  exists f' n, fifo_put sample_fifo [10; 11; 12; 13] 4 = Some (f', n) /\
    n = Z.min 4 (8 - Z.of_nat (length (contents sample_fifo))) /\ fifo_wf 3 f' /\
    contents f' = contents sample_fifo ++ take (Z.to_nat n) [10; 11; 12; 13].
Proof. apply (fifo_put_refines 3 sample_fifo); [apply sample_fifo_wf|simpl; lia]. Defined.

Lemma fifo_get_refines_witness :
  exists f' n, fifo_get sample_fifo true 1 = Some (f', take (Z.to_nat n) (contents sample_fifo), n) /\
    n = Z.min 1 (Z.of_nat (length (contents sample_fifo))) /\ fifo_wf 3 f' /\
    contents f' = drop (Z.to_nat n) (contents sample_fifo).
Proof. apply (fifo_get_refines 3 sample_fifo); [apply sample_fifo_wf|lia]. Defined.
