(* ===== verification/IoUQueue.v ===== *)
(** * Containers of [io_u] pointers: [io_u_queue.c], [io_u_queue.h]

    [io_u_queue] is a bounded stack and [io_u_ring] a bounded queue whose size
    is rounded up to a power of two.  A slot is [None] for [NULL]. *)
From S2P Require Import Prelude.

Section io_u.
Context {A : Type}.

(** ** The stack *)
Record io_u_queue := Queue {
  io_us : list (option A);
  qnr : Z;
  qmax : Z
}.

(** [calloc] either fails or hands out cleared slots. *)
Definition io_u_qinit (calloc_ok : bool) (nr : Z) : option io_u_queue :=
  if calloc_ok then Some (Queue (replicate (Z.to_nat nr) None) 0 nr) else None.

Definition io_u_qpop (q : io_u_queue) : option (io_u_queue * option A) :=
  if negb (qnr q =? 0) then
    let next := u32 (qnr q - 1) in
    u ← arr_get (io_us q) next;
    slots ← arr_set (io_us q) next None;
    Some (Queue slots next (qmax q), u)
  else Some (q, None).

Definition io_u_qpush (q : io_u_queue) (u : option A) : option io_u_queue :=
  if qnr q <? qmax q then
    slots ← arr_set (io_us q) (qnr q) u;
    Some (Queue slots (u32 (qnr q + 1)) (qmax q))
  else _ ← assert false; Some q.

Definition io_u_qempty (q : io_u_queue) : bool := qnr q =? 0.

Record queue_wf (q : io_u_queue) : Prop := {
  qw_max : 0 <= qmax q < 2 ^ 32;
  qw_len : Z.of_nat (length (io_us q)) = qmax q;
  qw_nr : 0 <= qnr q <= qmax q
}.

(** The stacked pointers, oldest first. *)
Definition stacked (q : io_u_queue) : list (option A) := take (Z.to_nat (qnr q)) (io_us q).

Lemma stacked_length q : queue_wf q -> Z.of_nat (length (stacked q)) = qnr q.
Proof. intros [? ? ?]. unfold stacked. rewrite length_take. lia. Qed.

Lemma qpush_spec q u :
  queue_wf q -> qnr q < qmax q ->
  exists q', io_u_qpush q u = Some q' /\ queue_wf q' /\ stacked q' = stacked q ++ [u].
Proof.
  intros [Hm Hl Hn] Hlt. unfold io_u_qpush.
  destruct (Z.ltb_spec (qnr q) (qmax q)); [|lia].
  rewrite arr_set_Some by lia. simpl. eexists. split; [done|].
  rewrite wrap_small by (unfold uint; lia). split.
  - split; simpl; [done|by rewrite length_insert|lia].
  - unfold stacked; simpl.
    replace (Z.to_nat (qnr q + 1)) with (S (Z.to_nat (qnr q))) by lia.
    rewrite (take_S_r _ _ u) by (apply list_lookup_insert_eq; lia).
    by rewrite take_insert_ge.
Qed.

Lemma qpop_spec q s u :
  queue_wf q -> stacked q = s ++ [u] ->
  exists q', io_u_qpop q = Some (q', u) /\ queue_wf q' /\ stacked q' = s.
Proof.
  intros Hwf Hs. pose proof (stacked_length q Hwf) as Hlen. destruct Hwf as [Hm Hl Hn].
  rewrite Hs, length_app in Hlen. simpl in Hlen.
  unfold io_u_qpop. destruct (Z.eqb_spec (qnr q) 0); [lia|]. simpl.
  rewrite (wrap_small 32) by (unfold uint; lia).
  assert (io_us q !! Z.to_nat (qnr q - 1) = Some u) as Hu.
  { rewrite <- (lookup_take_lt _ (Z.to_nat (qnr q))) by lia.
    fold (stacked q). rewrite Hs, lookup_app_r by lia.
    replace (Z.to_nat (qnr q - 1) - length s)%nat with 0%nat by lia. done. }
  assert (arr_get (io_us q) (qnr q - 1) = Some u) as ->
    by (apply arr_get_Some; split; [lia|done]). simpl.
  rewrite arr_set_Some by lia. simpl. eexists. split; [done|]. split.
  - split; simpl; [done|by rewrite length_insert|lia].
  - unfold stacked; simpl. rewrite take_insert_ge by lia.
    apply (f_equal (take (length s))) in Hs. rewrite take_app_length in Hs.
    rewrite <- Hs. unfold stacked. rewrite take_take. f_equal. lia.
Qed.

(** ** The ring *)
Record io_u_ring := Ring {
  head : Z;
  tail : Z;
  rmax : Z;
  ring : list (option A)
}.

(** The rounding of [io_u_rinit]. *)
Definition or_shift (x n : Z) : Z := Z.lor x (Z.shiftr x n).

Definition round_up (m : Z) : Z :=
  if Z.land m (u32 (m - 1)) =? 0 then m
  else
    let m := u32 (m - 1) in
    let m := or_shift m 1 in
    let m := or_shift m 2 in
    let m := or_shift m 4 in
    let m := or_shift m 8 in
    let m := or_shift m 16 in
    u32 (m + 1).

Definition io_u_rinit (calloc_ok : bool) (nr : Z) : option io_u_ring :=
  let m := round_up (u32 (nr + 1)) in
  if calloc_ok then Some (Ring 0 0 m (replicate (Z.to_nat m) None)) else None.

Definition io_u_rpush (r : io_u_ring) (u : option A) : option io_u_ring :=
  if negb (u32 (head r + 1) =? tail r) then
    slots ← arr_set (ring r) (head r) u;
    Some (Ring (Z.land (u32 (head r + 1)) (u32 (rmax r - 1))) (tail r) (rmax r) slots)
  else _ ← assert false; Some r.

Definition io_u_rpop (r : io_u_ring) : option (io_u_ring * option A) :=
  if negb (head r =? tail r) then
    u ← arr_get (ring r) (tail r);
    Some (Ring (head r) (Z.land (u32 (tail r + 1)) (u32 (rmax r - 1))) (rmax r) (ring r), u)
  else Some (r, None).

Definition io_u_rempty (r : io_u_ring) : bool := head r =? tail r.

Record ring_wf (k : Z) (r : io_u_ring) : Prop := {
  rw_k : 0 <= k <= 31;
  rw_max : rmax r = 2 ^ k;
  rw_len : Z.of_nat (length (ring r)) = rmax r;
  rw_head : 0 <= head r < rmax r;
  rw_tail : 0 <= tail r < rmax r
}.

Definition ring_count (r : io_u_ring) : Z := (head r - tail r) mod rmax r.

(** The queued pointers, oldest first. *)
Definition queued (r : io_u_ring) : list (option A) :=
  (fun j => default None (ring r !! Z.to_nat ((tail r + j) mod rmax r))) <$> seqZ 0 (ring_count r).

Lemma rmax_bounds k r : ring_wf k r -> 1 <= rmax r <= 2 ^ 31.
Proof.
  intros [Hk -> _ _ _]. split; [apply (Z.pow_le_mono_r 2 0 k); lia|apply Z.pow_le_mono_r; lia].
Qed.

Lemma advance k r x :
  ring_wf k r -> 0 <= x < rmax r -> Z.land (u32 (x + 1)) (u32 (rmax r - 1)) = (x + 1) mod rmax r.
Proof.
  intros Hwf Hx. pose proof (rmax_bounds k r Hwf).
  rewrite !wrap_small by (unfold uint; lia).
  rewrite (rw_max k r Hwf). apply land_pow2_mod. destruct Hwf. lia.
Qed.

Lemma ring_count_bounds k r : ring_wf k r -> 0 <= ring_count r < rmax r.
Proof. intros Hwf. pose proof (rmax_bounds k r Hwf). apply Z.mod_pos_bound. lia. Qed.

Lemma queued_length k r : ring_wf k r -> Z.of_nat (length (queued r)) = ring_count r.
Proof.
  intros Hwf. pose proof (ring_count_bounds k r Hwf). unfold queued.
  rewrite length_fmap, length_seqZ. lia.
Qed.

Lemma queued_lookup r (j : nat) :
  Z.of_nat j < ring_count r ->
  queued r !! j = Some (default None (ring r !! Z.to_nat ((tail r + Z.of_nat j) mod rmax r))).
Proof.
  intros Hj. unfold queued. rewrite list_lookup_fmap, lookup_seqZ_lt by lia. simpl.
  by rewrite Z.add_0_l.
Qed.

(** Arithmetic of the positions of a ring of size [m]. *)
Lemma head_pos m h t : 0 < m -> 0 <= h < m -> (t + (h - t) mod m) mod m = h.
Proof. intros Hm Hh. rewrite Zplus_mod_idemp_r. replace (t + (h - t)) with h by lia. by apply Z.mod_small. Qed.

Lemma count_push m h t :
  1 < m -> (h - t) mod m + 1 < m -> ((h + 1) mod m - t) mod m = (h - t) mod m + 1.
Proof.
  intros Hm Hc. rewrite Zminus_mod_idemp_l. replace (h + 1 - t) with (h - t + 1) by lia.
  rewrite <- Zplus_mod_idemp_l. apply Z.mod_small. pose proof (Z.mod_pos_bound (h - t) m). lia.
Qed.

Lemma count_pop m h t :
  0 < m -> 0 < (h - t) mod m -> (h - (t + 1) mod m) mod m = (h - t) mod m - 1.
Proof.
  intros Hm Hc. rewrite Zminus_mod_idemp_r. replace (h - (t + 1)) with (h - t - 1) by lia.
  rewrite <- Zminus_mod_idemp_l. apply Z.mod_small. pose proof (Z.mod_pos_bound (h - t) m). lia.
Qed.

Lemma rpush_spec k r u :
  ring_wf k r -> ring_count r + 1 < rmax r ->
  exists r', io_u_rpush r u = Some r' /\ ring_wf k r' /\ queued r' = queued r ++ [u].
Proof.
  intros Hwf Hc. pose proof (rmax_bounds k r Hwf) as Hm. pose proof (ring_count_bounds k r Hwf).
  pose proof Hwf as [Hk Hmax Hlen Hh Ht]. unfold io_u_rpush.
  destruct (Z.eqb_spec (u32 (head r + 1)) (tail r)) as [E|_]; simpl.
  { rewrite wrap_small in E by (unfold uint; lia). unfold ring_count in Hc. rewrite <- E in Hc.
    replace ((head r - (head r + 1)) mod rmax r) with (rmax r - 1) in Hc; [lia|].
    apply (Z.mod_unique_pos _ _ (-1)); lia. }
  rewrite arr_set_Some by lia. simpl. rewrite (advance k) by done. eexists. split; [done|].
  set (r' := Ring _ _ _ _).
  assert (ring_count r' = ring_count r + 1) as Hc'
    by (unfold ring_count, r'; simpl; apply count_push; unfold ring_count in *; lia).
  assert (0 <= (head r + 1) mod rmax r < rmax r) by (apply Z.mod_pos_bound; lia).
  assert (ring_wf k r') as Hwf' by (split; unfold r'; simpl; rewrite ?length_insert; done || lia).
  split; [done|]. apply list_eq. intros i.
  pose proof (queued_length k r Hwf) as Hql. pose proof (queued_length k r' Hwf') as Hql'.
  destruct (decide (Z.of_nat i < ring_count r)) as [Hi|Hi].
  - rewrite lookup_app_l by lia. rewrite !queued_lookup by lia. unfold r' at 1 2 3; simpl.
    rewrite list_lookup_insert_ne; [done|]. intros E.
    assert (head r = (tail r + Z.of_nat i) mod rmax r) as E'.
    { pose proof (Z.mod_pos_bound (tail r + Z.of_nat i) (rmax r)). lia. }
    assert (Z.of_nat i < rmax r) by lia.
    unfold ring_count in Hi. rewrite E', Zminus_mod_idemp_l in Hi.
    replace (tail r + Z.of_nat i - tail r) with (Z.of_nat i) in Hi by lia.
    rewrite Z.mod_small in Hi; lia.
  - destruct (decide (Z.of_nat i = ring_count r)) as [Ei|Ei].
    + rewrite lookup_app_r by lia. rewrite queued_lookup by lia. unfold r'; simpl.
      rewrite Ei. unfold ring_count. rewrite head_pos by lia.
      rewrite list_lookup_insert_eq by lia.
      by replace (i - length (queued r))%nat with 0%nat by lia.
    + rewrite !lookup_ge_None_2; [done|rewrite length_app; simpl; lia|lia].
Qed.

Lemma rpop_spec k r u s :
  ring_wf k r -> queued r = u :: s ->
  exists r', io_u_rpop r = Some (r', u) /\ ring_wf k r' /\ queued r' = s.
Proof.
  intros Hwf Hq. pose proof (rmax_bounds k r Hwf) as Hm. pose proof (ring_count_bounds k r Hwf).
  pose proof Hwf as [Hk Hmax Hlen Hh Ht]. pose proof (queued_length k r Hwf) as Hql.
  rewrite Hq in Hql. simpl in Hql. unfold io_u_rpop.
  destruct (Z.eqb_spec (head r) (tail r)) as [E|_]; simpl.
  { unfold ring_count in Hql. rewrite E, Z.sub_diag, Z.mod_0_l in Hql by lia. lia. }
  assert (arr_get (ring r) (tail r) = Some u) as ->.
  { pose proof (queued_lookup r 0 ltac:(lia)) as H0. rewrite Hq in H0. simpl in H0.
    rewrite Z.add_0_r, Z.mod_small in H0 by lia.
    destruct (arr_get_is_Some (ring r) (tail r)) as [x Hx]; [lia|]. rewrite Hx. f_equal.
    apply arr_get_Some in Hx as [_ Hx]. rewrite Hx in H0. by simplify_eq/=. }
  simpl. rewrite (advance k) by done. eexists. split; [done|]. set (r' := Ring _ _ _ _).
  assert (ring_count r' = ring_count r - 1) as Hc'
    by (unfold ring_count, r'; simpl; apply count_pop; unfold ring_count in *; lia).
  assert (0 <= (tail r + 1) mod rmax r < rmax r) by (apply Z.mod_pos_bound; lia).
  assert (ring_wf k r') as Hwf' by (split; unfold r'; simpl; done || lia).
  split; [done|]. apply list_eq. intros i. pose proof (queued_length k r' Hwf') as Hql'.
  change (s !! i) with ((u :: s) !! S i). rewrite <- Hq.
  destruct (decide (Z.of_nat i < ring_count r - 1)).
  - rewrite !queued_lookup by lia. do 3 f_equal. unfold r'; simpl. f_equal.
    rewrite Zplus_mod_idemp_l. f_equal. lia.
  - rewrite !lookup_ge_None_2; [done| |lia]. rewrite Hq. simpl. lia.
Qed.
End io_u.
Arguments io_u_queue : clear implicits.
Arguments io_u_ring : clear implicits.

(** ** Rounding the ring size *)

(** Bits [lo..h] of [x] are set and none above [h] is. *)
Definition smeared (x h lo : Z) : Prop :=
  0 <= x /\ (forall i, 0 <= i -> lo <= i <= h -> Z.testbit x i = true) /\
  (forall i, h < i -> Z.testbit x i = false).

Lemma or_shift_smeared x h n :
  0 <= n -> smeared x h (h - n + 1) -> smeared (or_shift x n) h (h - 2 * n + 1).
Proof.
  intros Hn (Hx & Hs & Hh). unfold or_shift. split_and!.
  - apply Z.lor_nonneg. split; [done|]. by apply Z.shiftr_nonneg.
  - intros i Hi Hr. rewrite Z.lor_spec, Z.shiftr_spec by done. apply orb_true_iff.
    destruct (decide (h - n + 1 <= i)); [left; by apply Hs; lia|right; apply Hs; lia].
  - intros i Hi. destruct (decide (0 <= i)); [|by rewrite Z.testbit_neg_r by lia].
    rewrite Z.lor_spec, Z.shiftr_spec, !Hh by lia. done.
Qed.

Lemma smeared_ones x h : 0 <= h -> smeared x h 0 -> x = Z.ones (h + 1).
Proof.
  intros Hh (Hx & Hs & Hh'). apply Z.bits_inj'. intros i Hi.
  rewrite Z.testbit_ones_nonneg by lia. destruct (Z.ltb_spec i (h + 1)).
  - apply Hs; lia.
  - apply Hh'. lia.
Qed.

Lemma smear_all x :
  0 < x < 2 ^ 32 ->
  or_shift (or_shift (or_shift (or_shift (or_shift x 1) 2) 4) 8) 16 = Z.ones (Z.log2 x + 1).
Proof.
  intros Hx. set (h := Z.log2 x).
  assert (0 <= h < 32) as Hh by (split; [apply Z.log2_nonneg|apply Z.log2_lt_pow2; lia]).
  assert (smeared x h (h - 1 + 1)) as H0.
  { split_and!; [lia| |].
    - intros i Hi Hr. replace i with h by lia. apply Z.bit_log2. lia.
    - intros i Hi. apply Z.bits_above_log2; lia. }
  do 5 (apply or_shift_smeared in H0; [|lia]). simpl in H0.
  apply smeared_ones; [lia|]. destruct H0 as (Hn & Hs & Ha).
  split_and!; [done| |done]. intros i Hi Hr. apply Hs; lia.
Qed.

Lemma land_pred_pow2 m : 0 < m -> Z.land m (m - 1) = 0 -> m = 2 ^ Z.log2 m.
Proof.
  intros Hm Hz. destruct (Z.log2_spec m Hm) as [Hlo Hhi].
  destruct (decide (m = 2 ^ Z.log2 m)) as [|Hne]; [done|exfalso].
  assert (Z.log2 (m - 1) = Z.log2 m) as Hl.
  { apply Z.log2_unique; [apply Z.log2_nonneg|]. lia. }
  apply (f_equal (fun z => Z.testbit z (Z.log2 m))) in Hz.
  rewrite Z.land_spec, Z.bits_0, Z.bit_log2 in Hz by done.
  rewrite <- Hl, Z.bit_log2 in Hz; [done|].
  assert (0 < 2 ^ Z.log2 m) by (apply Z.pow_pos_nonneg; [lia|apply Z.log2_nonneg]). lia.
Qed.

Lemma round_up_spec m :
  1 <= m <= 2 ^ 31 ->
  exists k, 0 <= k <= 31 /\ round_up m = 2 ^ k /\ m <= 2 ^ k < 2 * m.
Proof.
  intros Hm. unfold round_up. rewrite (wrap_small 32 (m - 1)) by (unfold uint; lia).
  destruct (Z.eqb_spec (Z.land m (m - 1)) 0) as [E|E].
  - exists (Z.log2 m). apply land_pred_pow2 in E; [|lia].
    assert (0 <= Z.log2 m <= 31).
    { split; [apply Z.log2_nonneg|]. replace 31 with (Z.log2 (2 ^ 31)) by done.
      apply Z.log2_le_mono. lia. }
    split_and!; lia.
  - assert (m - 1 <> 0) as Hne.
    { intros E0. replace m with 1 in E by lia. done. }
    cbv zeta. rewrite smear_all, Z.ones_equiv by lia.
    destruct (Z.log2_spec (m - 1) ltac:(lia)) as [Hlo Hhi].
    assert (0 <= Z.log2 (m - 1) < 31).
    { split; [apply Z.log2_nonneg|]. apply Z.log2_lt_pow2; lia. }
    exists (Z.log2 (m - 1) + 1). rewrite <- Z.add_1_r in Hhi.
    replace (Z.pred (2 ^ (Z.log2 (m - 1) + 1)) + 1) with (2 ^ (Z.log2 (m - 1) + 1)) by lia.
    rewrite wrap_small.
    + rewrite Z.pow_add_r in * by lia. split_and!; lia.
    + split; [lia|]. apply Z.pow_lt_mono_r; lia.
Qed.

(** ** Properties *)

(** The stack is last-in first-out: a push below capacity succeeds and the
    next pop returns the pushed pointer and restores the previous stack. *)
Theorem io_u_queue_lifo {A} (q : io_u_queue A) u :
  queue_wf q -> qnr q < qmax q ->
  exists q' q'', io_u_qpush q u = Some q' /\ queue_wf q' /\ stacked q' = stacked q ++ [u] /\
    io_u_qpop q' = Some (q'', u) /\ queue_wf q'' /\ stacked q'' = stacked q.
Proof.
  intros Hwf Hlt. destruct (qpush_spec q u Hwf Hlt) as (q' & Hp & Hwf' & Hs).
  destruct (qpop_spec q' (stacked q) u Hwf' Hs) as (q'' & ? & ? & ?).
  by exists q', q''.
Qed.

(** A ring created for [nr] pointers gets a power-of-two size above [nr] and
    below twice that; it accepts [nr] pointers and behaves as a first-in
    first-out queue for as long as no more than that are queued. *)
Theorem io_u_ring_fifo {A} nr (u : option A) :
  0 <= nr < 2 ^ 31 ->
  exists k (r0 : io_u_ring A), io_u_rinit true nr = Some r0 /\ ring_wf k r0 /\ queued r0 = [] /\
    nr < rmax r0 < 2 * (nr + 1) /\
    (forall (r : io_u_ring A), ring_wf k r -> rmax r = rmax r0 -> Z.of_nat (length (queued r)) < nr ->
       exists r', io_u_rpush r u = Some r' /\ ring_wf k r' /\ queued r' = queued r ++ [u]) /\
    (forall (r : io_u_ring A) v s, ring_wf k r -> queued r = v :: s ->
       exists r', io_u_rpop r = Some (r', v) /\ ring_wf k r' /\ queued r' = s).
Proof.
  intros Hnr. unfold io_u_rinit. rewrite (wrap_small 32 (nr + 1)) by (unfold uint; lia).
  destruct (round_up_spec (nr + 1)) as (k & Hk & -> & Hb); [lia|].
  eexists k, _. split; [done|]. split_and!.
  - split; simpl; try done; try lia. rewrite length_replicate. lia.
  - unfold queued, ring_count; cbn [head tail rmax]. by rewrite Z.sub_diag, Z.mod_0_l by lia.
  - simpl. lia.
  - simpl. lia.
  - simpl. intros r Hwf Hm Hc. apply rpush_spec; [done|]. rewrite (queued_length k) in Hc by done. lia.
  - intros r v s Hwf Hq. by apply rpop_spec.
Qed.

(** The fullness test of [io_u_rpush] does not wrap: with the head in the
    last slot and the tail in slot 0 a full ring takes another pointer and
    thereby loses everything it held. *)
Theorem io_u_rpush_full_wraps :
  let r := Ring 3 0 4 [Some 1; Some 2; Some 3; None] in
  ring_wf 2 r /\ queued r = [Some 1; Some 2; Some 3] /\
  exists r', io_u_rpush r (Some 4) = Some r' /\ queued r' = [].
Proof.
  split; [by split|]. split; [vm_compute; reflexivity|].
  eexists. split; vm_compute; reflexivity.
Qed.

Lemma io_u_queue_lifo_witness :
  exists q' q'', io_u_qpush (Queue [Some 7; None] 1 2) (Some 9) = Some q' /\ queue_wf q' /\
    stacked q' = [Some 7] ++ [Some 9] /\ io_u_qpop q' = Some (q'', Some 9) /\ queue_wf q'' /\
    stacked q'' = [Some 7].
Proof. apply (io_u_queue_lifo (Queue [Some 7; None] 1 2)); [by split|simpl; lia]. Defined.

Lemma io_u_ring_fifo_witness :
  exists k (r0 : io_u_ring Z), io_u_rinit true 5 = Some r0 /\ ring_wf k r0 /\ queued r0 = [] /\
    5 < rmax r0 < 2 * (5 + 1) /\
    (forall (r : io_u_ring Z), ring_wf k r -> rmax r = rmax r0 -> Z.of_nat (length (queued r)) < 5 ->
       exists r', io_u_rpush r (Some 1) = Some r' /\ ring_wf k r' /\ queued r' = queued r ++ [Some 1]) /\
    (forall (r : io_u_ring Z) v s, ring_wf k r -> queued r = v :: s ->
       exists r', io_u_rpop r = Some (r', v) /\ ring_wf k r' /\ queued r' = s).
Proof. apply (io_u_ring_fifo (A := Z) 5 (Some 1)). lia. Defined.
