(* ===== verification/Crc.v ===== *)
(** * Cyclic redundancy checks: [crc/crc7.c], [crc/crc16.c], [crc/crc32.c],
    [crc/crc32c.c], [crc/crc64.c]

    The table-driven checksums that verify headers and data blocks carry.  Each
    is proved equal to the bit-serial shift register of its polynomial, and the
    wide ones to detect any corruption confined to one byte.  Buffers are lists
    of bytes; [crc32c] is the software path [crc32c_sw]. *)
From S2P Require Import Prelude.

(** ** The tables of the source *)
Definition crc7_syndrome_table : list Z :=
  [0x0; 0x9; 0x12; 0x1b; 0x24; 0x2d; 0x36; 0x3f; 0x48; 0x41; 0x5a; 0x53; 0x6c; 0x65; 0x7e;
   0x77; 0x19; 0x10; 0xb; 0x2; 0x3d; 0x34; 0x2f; 0x26; 0x51; 0x58; 0x43; 0x4a; 0x75; 0x7c;
   0x67; 0x6e; 0x32; 0x3b; 0x20; 0x29; 0x16; 0x1f; 0x4; 0xd; 0x7a; 0x73; 0x68; 0x61; 0x5e;
   0x57; 0x4c; 0x45; 0x2b; 0x22; 0x39; 0x30; 0xf; 0x6; 0x1d; 0x14; 0x63; 0x6a; 0x71; 0x78;
   0x47; 0x4e; 0x55; 0x5c; 0x64; 0x6d; 0x76; 0x7f; 0x40; 0x49; 0x52; 0x5b; 0x2c; 0x25; 0x3e;
   0x37; 0x8; 0x1; 0x1a; 0x13; 0x7d; 0x74; 0x6f; 0x66; 0x59; 0x50; 0x4b; 0x42; 0x35; 0x3c;
   0x27; 0x2e; 0x11; 0x18; 0x3; 0xa; 0x56; 0x5f; 0x44; 0x4d; 0x72; 0x7b; 0x60; 0x69; 0x1e;
   0x17; 0xc; 0x5; 0x3a; 0x33; 0x28; 0x21; 0x4f; 0x46; 0x5d; 0x54; 0x6b; 0x62; 0x79; 0x70;
   0x7; 0xe; 0x15; 0x1c; 0x23; 0x2a; 0x31; 0x38; 0x41; 0x48; 0x53; 0x5a; 0x65; 0x6c; 0x77;
   0x7e; 0x9; 0x0; 0x1b; 0x12; 0x2d; 0x24; 0x3f; 0x36; 0x58; 0x51; 0x4a; 0x43; 0x7c; 0x75;
   0x6e; 0x67; 0x10; 0x19; 0x2; 0xb; 0x34; 0x3d; 0x26; 0x2f; 0x73; 0x7a; 0x61; 0x68; 0x57;
   0x5e; 0x45; 0x4c; 0x3b; 0x32; 0x29; 0x20; 0x1f; 0x16; 0xd; 0x4; 0x6a; 0x63; 0x78; 0x71;
   0x4e; 0x47; 0x5c; 0x55; 0x22; 0x2b; 0x30; 0x39; 0x6; 0xf; 0x14; 0x1d; 0x25; 0x2c; 0x37;
   0x3e; 0x1; 0x8; 0x13; 0x1a; 0x6d; 0x64; 0x7f; 0x76; 0x49; 0x40; 0x5b; 0x52; 0x3c; 0x35;
   0x2e; 0x27; 0x18; 0x11; 0xa; 0x3; 0x74; 0x7d; 0x66; 0x6f; 0x50; 0x59; 0x42; 0x4b; 0x17;
   0x1e; 0x5; 0xc; 0x33; 0x3a; 0x21; 0x28; 0x5f; 0x56; 0x4d; 0x44; 0x7b; 0x72; 0x69; 0x60;
   0xe; 0x7; 0x1c; 0x15; 0x2a; 0x23; 0x38; 0x31; 0x46; 0x4f; 0x54; 0x5d; 0x62; 0x6b; 0x70;
   0x79].

Definition crc16_table : list Z :=
  [0x0; 0xc0c1; 0xc181; 0x140; 0xc301; 0x3c0; 0x280; 0xc241; 0xc601; 0x6c0; 0x780; 0xc741;
   0x500; 0xc5c1; 0xc481; 0x440; 0xcc01; 0xcc0; 0xd80; 0xcd41; 0xf00; 0xcfc1; 0xce81; 0xe40;
   0xa00; 0xcac1; 0xcb81; 0xb40; 0xc901; 0x9c0; 0x880; 0xc841; 0xd801; 0x18c0; 0x1980;
   0xd941; 0x1b00; 0xdbc1; 0xda81; 0x1a40; 0x1e00; 0xdec1; 0xdf81; 0x1f40; 0xdd01; 0x1dc0;
   0x1c80; 0xdc41; 0x1400; 0xd4c1; 0xd581; 0x1540; 0xd701; 0x17c0; 0x1680; 0xd641; 0xd201;
   0x12c0; 0x1380; 0xd341; 0x1100; 0xd1c1; 0xd081; 0x1040; 0xf001; 0x30c0; 0x3180; 0xf141;
   0x3300; 0xf3c1; 0xf281; 0x3240; 0x3600; 0xf6c1; 0xf781; 0x3740; 0xf501; 0x35c0; 0x3480;
   0xf441; 0x3c00; 0xfcc1; 0xfd81; 0x3d40; 0xff01; 0x3fc0; 0x3e80; 0xfe41; 0xfa01; 0x3ac0;
   0x3b80; 0xfb41; 0x3900; 0xf9c1; 0xf881; 0x3840; 0x2800; 0xe8c1; 0xe981; 0x2940; 0xeb01;
   0x2bc0; 0x2a80; 0xea41; 0xee01; 0x2ec0; 0x2f80; 0xef41; 0x2d00; 0xedc1; 0xec81; 0x2c40;
   0xe401; 0x24c0; 0x2580; 0xe541; 0x2700; 0xe7c1; 0xe681; 0x2640; 0x2200; 0xe2c1; 0xe381;
   0x2340; 0xe101; 0x21c0; 0x2080; 0xe041; 0xa001; 0x60c0; 0x6180; 0xa141; 0x6300; 0xa3c1;
   0xa281; 0x6240; 0x6600; 0xa6c1; 0xa781; 0x6740; 0xa501; 0x65c0; 0x6480; 0xa441; 0x6c00;
   0xacc1; 0xad81; 0x6d40; 0xaf01; 0x6fc0; 0x6e80; 0xae41; 0xaa01; 0x6ac0; 0x6b80; 0xab41;
   0x6900; 0xa9c1; 0xa881; 0x6840; 0x7800; 0xb8c1; 0xb981; 0x7940; 0xbb01; 0x7bc0; 0x7a80;
   0xba41; 0xbe01; 0x7ec0; 0x7f80; 0xbf41; 0x7d00; 0xbdc1; 0xbc81; 0x7c40; 0xb401; 0x74c0;
   0x7580; 0xb541; 0x7700; 0xb7c1; 0xb681; 0x7640; 0x7200; 0xb2c1; 0xb381; 0x7340; 0xb101;
   0x71c0; 0x7080; 0xb041; 0x5000; 0x90c1; 0x9181; 0x5140; 0x9301; 0x53c0; 0x5280; 0x9241;
   0x9601; 0x56c0; 0x5780; 0x9741; 0x5500; 0x95c1; 0x9481; 0x5440; 0x9c01; 0x5cc0; 0x5d80;
   0x9d41; 0x5f00; 0x9fc1; 0x9e81; 0x5e40; 0x5a00; 0x9ac1; 0x9b81; 0x5b40; 0x9901; 0x59c0;
   0x5880; 0x9841; 0x8801; 0x48c0; 0x4980; 0x8941; 0x4b00; 0x8bc1; 0x8a81; 0x4a40; 0x4e00;
   0x8ec1; 0x8f81; 0x4f40; 0x8d01; 0x4dc0; 0x4c80; 0x8c41; 0x4400; 0x84c1; 0x8581; 0x4540;
   0x8701; 0x47c0; 0x4680; 0x8641; 0x8201; 0x42c0; 0x4380; 0x8341; 0x4100; 0x81c1; 0x8081;
   0x4040].

Definition crctab : list Z :=
  [0x0; 0x4c11db7; 0x9823b6e; 0xd4326d9; 0x130476dc; 0x17c56b6b; 0x1a864db2; 0x1e475005;
   0x2608edb8; 0x22c9f00f; 0x2f8ad6d6; 0x2b4bcb61; 0x350c9b64; 0x31cd86d3; 0x3c8ea00a;
   0x384fbdbd; 0x4c11db70; 0x48d0c6c7; 0x4593e01e; 0x4152fda9; 0x5f15adac; 0x5bd4b01b;
   0x569796c2; 0x52568b75; 0x6a1936c8; 0x6ed82b7f; 0x639b0da6; 0x675a1011; 0x791d4014;
   0x7ddc5da3; 0x709f7b7a; 0x745e66cd; 0x9823b6e0; 0x9ce2ab57; 0x91a18d8e; 0x95609039;
   0x8b27c03c; 0x8fe6dd8b; 0x82a5fb52; 0x8664e6e5; 0xbe2b5b58; 0xbaea46ef; 0xb7a96036;
   0xb3687d81; 0xad2f2d84; 0xa9ee3033; 0xa4ad16ea; 0xa06c0b5d; 0xd4326d90; 0xd0f37027;
   0xddb056fe; 0xd9714b49; 0xc7361b4c; 0xc3f706fb; 0xceb42022; 0xca753d95; 0xf23a8028;
   0xf6fb9d9f; 0xfbb8bb46; 0xff79a6f1; 0xe13ef6f4; 0xe5ffeb43; 0xe8bccd9a; 0xec7dd02d;
   0x34867077; 0x30476dc0; 0x3d044b19; 0x39c556ae; 0x278206ab; 0x23431b1c; 0x2e003dc5;
   0x2ac12072; 0x128e9dcf; 0x164f8078; 0x1b0ca6a1; 0x1fcdbb16; 0x18aeb13; 0x54bf6a4;
   0x808d07d; 0xcc9cdca; 0x7897ab07; 0x7c56b6b0; 0x71159069; 0x75d48dde; 0x6b93dddb;
   0x6f52c06c; 0x6211e6b5; 0x66d0fb02; 0x5e9f46bf; 0x5a5e5b08; 0x571d7dd1; 0x53dc6066;
   0x4d9b3063; 0x495a2dd4; 0x44190b0d; 0x40d816ba; 0xaca5c697; 0xa864db20; 0xa527fdf9;
   0xa1e6e04e; 0xbfa1b04b; 0xbb60adfc; 0xb6238b25; 0xb2e29692; 0x8aad2b2f; 0x8e6c3698;
   0x832f1041; 0x87ee0df6; 0x99a95df3; 0x9d684044; 0x902b669d; 0x94ea7b2a; 0xe0b41de7;
   0xe4750050; 0xe9362689; 0xedf73b3e; 0xf3b06b3b; 0xf771768c; 0xfa325055; 0xfef34de2;
   0xc6bcf05f; 0xc27dede8; 0xcf3ecb31; 0xcbffd686; 0xd5b88683; 0xd1799b34; 0xdc3abded;
   0xd8fba05a; 0x690ce0ee; 0x6dcdfd59; 0x608edb80; 0x644fc637; 0x7a089632; 0x7ec98b85;
   0x738aad5c; 0x774bb0eb; 0x4f040d56; 0x4bc510e1; 0x46863638; 0x42472b8f; 0x5c007b8a;
   0x58c1663d; 0x558240e4; 0x51435d53; 0x251d3b9e; 0x21dc2629; 0x2c9f00f0; 0x285e1d47;
   0x36194d42; 0x32d850f5; 0x3f9b762c; 0x3b5a6b9b; 0x315d626; 0x7d4cb91; 0xa97ed48;
   0xe56f0ff; 0x1011a0fa; 0x14d0bd4d; 0x19939b94; 0x1d528623; 0xf12f560e; 0xf5ee4bb9;
   0xf8ad6d60; 0xfc6c70d7; 0xe22b20d2; 0xe6ea3d65; 0xeba91bbc; 0xef68060b; 0xd727bbb6;
   0xd3e6a601; 0xdea580d8; 0xda649d6f; 0xc423cd6a; 0xc0e2d0dd; 0xcda1f604; 0xc960ebb3;
   0xbd3e8d7e; 0xb9ff90c9; 0xb4bcb610; 0xb07daba7; 0xae3afba2; 0xaafbe615; 0xa7b8c0cc;
   0xa379dd7b; 0x9b3660c6; 0x9ff77d71; 0x92b45ba8; 0x9675461f; 0x8832161a; 0x8cf30bad;
   0x81b02d74; 0x857130c3; 0x5d8a9099; 0x594b8d2e; 0x5408abf7; 0x50c9b640; 0x4e8ee645;
   0x4a4ffbf2; 0x470cdd2b; 0x43cdc09c; 0x7b827d21; 0x7f436096; 0x7200464f; 0x76c15bf8;
   0x68860bfd; 0x6c47164a; 0x61043093; 0x65c52d24; 0x119b4be9; 0x155a565e; 0x18197087;
   0x1cd86d30; 0x29f3d35; 0x65e2082; 0xb1d065b; 0xfdc1bec; 0x3793a651; 0x3352bbe6;
   0x3e119d3f; 0x3ad08088; 0x2497d08d; 0x2056cd3a; 0x2d15ebe3; 0x29d4f654; 0xc5a92679;
   0xc1683bce; 0xcc2b1d17; 0xc8ea00a0; 0xd6ad50a5; 0xd26c4d12; 0xdf2f6bcb; 0xdbee767c;
   0xe3a1cbc1; 0xe760d676; 0xea23f0af; 0xeee2ed18; 0xf0a5bd1d; 0xf464a0aa; 0xf9278673;
   0xfde69bc4; 0x89b8fd09; 0x8d79e0be; 0x803ac667; 0x84fbdbd0; 0x9abc8bd5; 0x9e7d9662;
   0x933eb0bb; 0x97ffad0c; 0xafb010b1; 0xab710d06; 0xa6322bdf; 0xa2f33668; 0xbcb4666d;
   0xb8757bda; 0xb5365d03; 0xb1f740b4].

Definition crc32c_table : list Z :=
  [0x0; 0xf26b8303; 0xe13b70f7; 0x1350f3f4; 0xc79a971f; 0x35f1141c; 0x26a1e7e8; 0xd4ca64eb;
   0x8ad958cf; 0x78b2dbcc; 0x6be22838; 0x9989ab3b; 0x4d43cfd0; 0xbf284cd3; 0xac78bf27;
   0x5e133c24; 0x105ec76f; 0xe235446c; 0xf165b798; 0x30e349b; 0xd7c45070; 0x25afd373;
   0x36ff2087; 0xc494a384; 0x9a879fa0; 0x68ec1ca3; 0x7bbcef57; 0x89d76c54; 0x5d1d08bf;
   0xaf768bbc; 0xbc267848; 0x4e4dfb4b; 0x20bd8ede; 0xd2d60ddd; 0xc186fe29; 0x33ed7d2a;
   0xe72719c1; 0x154c9ac2; 0x61c6936; 0xf477ea35; 0xaa64d611; 0x580f5512; 0x4b5fa6e6;
   0xb93425e5; 0x6dfe410e; 0x9f95c20d; 0x8cc531f9; 0x7eaeb2fa; 0x30e349b1; 0xc288cab2;
   0xd1d83946; 0x23b3ba45; 0xf779deae; 0x5125dad; 0x1642ae59; 0xe4292d5a; 0xba3a117e;
   0x4851927d; 0x5b016189; 0xa96ae28a; 0x7da08661; 0x8fcb0562; 0x9c9bf696; 0x6ef07595;
   0x417b1dbc; 0xb3109ebf; 0xa0406d4b; 0x522bee48; 0x86e18aa3; 0x748a09a0; 0x67dafa54;
   0x95b17957; 0xcba24573; 0x39c9c670; 0x2a993584; 0xd8f2b687; 0xc38d26c; 0xfe53516f;
   0xed03a29b; 0x1f682198; 0x5125dad3; 0xa34e59d0; 0xb01eaa24; 0x42752927; 0x96bf4dcc;
   0x64d4cecf; 0x77843d3b; 0x85efbe38; 0xdbfc821c; 0x2997011f; 0x3ac7f2eb; 0xc8ac71e8;
   0x1c661503; 0xee0d9600; 0xfd5d65f4; 0xf36e6f7; 0x61c69362; 0x93ad1061; 0x80fde395;
   0x72966096; 0xa65c047d; 0x5437877e; 0x4767748a; 0xb50cf789; 0xeb1fcbad; 0x197448ae;
   0xa24bb5a; 0xf84f3859; 0x2c855cb2; 0xdeeedfb1; 0xcdbe2c45; 0x3fd5af46; 0x7198540d;
   0x83f3d70e; 0x90a324fa; 0x62c8a7f9; 0xb602c312; 0x44694011; 0x5739b3e5; 0xa55230e6;
   0xfb410cc2; 0x92a8fc1; 0x1a7a7c35; 0xe811ff36; 0x3cdb9bdd; 0xceb018de; 0xdde0eb2a;
   0x2f8b6829; 0x82f63b78; 0x709db87b; 0x63cd4b8f; 0x91a6c88c; 0x456cac67; 0xb7072f64;
   0xa457dc90; 0x563c5f93; 0x82f63b7; 0xfa44e0b4; 0xe9141340; 0x1b7f9043; 0xcfb5f4a8;
   0x3dde77ab; 0x2e8e845f; 0xdce5075c; 0x92a8fc17; 0x60c37f14; 0x73938ce0; 0x81f80fe3;
   0x55326b08; 0xa759e80b; 0xb4091bff; 0x466298fc; 0x1871a4d8; 0xea1a27db; 0xf94ad42f;
   0xb21572c; 0xdfeb33c7; 0x2d80b0c4; 0x3ed04330; 0xccbbc033; 0xa24bb5a6; 0x502036a5;
   0x4370c551; 0xb11b4652; 0x65d122b9; 0x97baa1ba; 0x84ea524e; 0x7681d14d; 0x2892ed69;
   0xdaf96e6a; 0xc9a99d9e; 0x3bc21e9d; 0xef087a76; 0x1d63f975; 0xe330a81; 0xfc588982;
   0xb21572c9; 0x407ef1ca; 0x532e023e; 0xa145813d; 0x758fe5d6; 0x87e466d5; 0x94b49521;
   0x66df1622; 0x38cc2a06; 0xcaa7a905; 0xd9f75af1; 0x2b9cd9f2; 0xff56bd19; 0xd3d3e1a;
   0x1e6dcdee; 0xec064eed; 0xc38d26c4; 0x31e6a5c7; 0x22b65633; 0xd0ddd530; 0x417b1db;
   0xf67c32d8; 0xe52cc12c; 0x1747422f; 0x49547e0b; 0xbb3ffd08; 0xa86f0efc; 0x5a048dff;
   0x8ecee914; 0x7ca56a17; 0x6ff599e3; 0x9d9e1ae0; 0xd3d3e1ab; 0x21b862a8; 0x32e8915c;
   0xc083125f; 0x144976b4; 0xe622f5b7; 0xf5720643; 0x7198540; 0x590ab964; 0xab613a67;
   0xb831c993; 0x4a5a4a90; 0x9e902e7b; 0x6cfbad78; 0x7fab5e8c; 0x8dc0dd8f; 0xe330a81a;
   0x115b2b19; 0x20bd8ed; 0xf0605bee; 0x24aa3f05; 0xd6c1bc06; 0xc5914ff2; 0x37faccf1;
   0x69e9f0d5; 0x9b8273d6; 0x88d28022; 0x7ab90321; 0xae7367ca; 0x5c18e4c9; 0x4f48173d;
   0xbd23943e; 0xf36e6f75; 0x105ec76; 0x12551f82; 0xe03e9c81; 0x34f4f86a; 0xc69f7b69;
   0xd5cf889d; 0x27a40b9e; 0x79b737ba; 0x8bdcb4b9; 0x988c474d; 0x6ae7c44e; 0xbe2da0a5;
   0x4c4623a6; 0x5f16d052; 0xad7d5351].

Definition crctab64 : list Z :=
  [0x0; 0x7ad870c830358979; 0xf5b0e190606b12f2; 0x8f689158505e9b8b; 0xc038e5739841b68f;
   0xbae095bba8743ff6; 0x358804e3f82aa47d; 0x4f50742bc81f2d04; 0xab28ecb46814fe75;
   0xd1f09c7c5821770c; 0x5e980d24087fec87; 0x24407dec384a65fe; 0x6b1009c7f05548fa;
   0x11c8790fc060c183; 0x9ea0e857903e5a08; 0xe478989fa00bd371; 0x7d08ff3b88be6f81;
   0x7d08ff3b88be6f8; 0x88b81eabe8d57d73; 0xf2606e63d8e0f40a; 0xbd301a4810ffd90e;
   0xc7e86a8020ca5077; 0x4880fbd87094cbfc; 0x32588b1040a14285; 0xd620138fe0aa91f4;
   0xacf86347d09f188d; 0x2390f21f80c18306; 0x594882d7b0f40a7f; 0x1618f6fc78eb277b;
   0x6cc0863448deae02; 0xe3a8176c18803589; 0x997067a428b5bcf0; 0xfa11fe77117cdf02;
   0x80c98ebf2149567b; 0xfa11fe77117cdf0; 0x75796f2f41224489; 0x3a291b04893d698d;
   0x40f16bccb908e0f4; 0xcf99fa94e9567b7f; 0xb5418a5cd963f206; 0x513912c379682177;
   0x2be1620b495da80e; 0xa489f35319033385; 0xde51839b2936bafc; 0x9101f7b0e12997f8;
   0xebd98778d11c1e81; 0x64b116208142850a; 0x1e6966e8b1770c73; 0x8719014c99c2b083;
   0xfdc17184a9f739fa; 0x72a9e0dcf9a9a271; 0x8719014c99c2b08; 0x4721e43f0183060c;
   0x3df994f731b68f75; 0xb29105af61e814fe; 0xc849756751dd9d87; 0x2c31edf8f1d64ef6;
   0x56e99d30c1e3c78f; 0xd9810c6891bd5c04; 0xa3597ca0a188d57d; 0xec09088b6997f879;
   0x96d1784359a27100; 0x19b9e91b09fcea8b; 0x636199d339c963f2; 0xdf7adabd7a6e2d6f;
   0xa5a2aa754a5ba416; 0x2aca3b2d1a053f9d; 0x50124be52a30b6e4; 0x1f423fcee22f9be0;
   0x659a4f06d21a1299; 0xeaf2de5e82448912; 0x902aae96b271006b; 0x74523609127ad31a;
   0xe8a46c1224f5a63; 0x81e2d7997211c1e8; 0xfb3aa75142244891; 0xb46ad37a8a3b6595;
   0xceb2a3b2ba0eecec; 0x41da32eaea507767; 0x3b024222da65fe1e; 0xa2722586f2d042ee;
   0xd8aa554ec2e5cb97; 0x57c2c41692bb501c; 0x2d1ab4dea28ed965; 0x624ac0f56a91f461;
   0x1892b03d5aa47d18; 0x97fa21650afae693; 0xed2251ad3acf6fea; 0x95ac9329ac4bc9b;
   0x7382b9faaaf135e2; 0xfcea28a2faafae69; 0x8632586aca9a2710; 0xc9622c4102850a14;
   0xb3ba5c8932b0836d; 0x3cd2cdd162ee18e6; 0x460abd1952db919f; 0x256b24ca6b12f26d;
   0x5fb354025b277b14; 0xd0dbc55a0b79e09f; 0xaa03b5923b4c69e6; 0xe553c1b9f35344e2;
   0x9f8bb171c366cd9b; 0x10e3202993385610; 0x6a3b50e1a30ddf69; 0x8e43c87e03060c18;
   0xf49bb8b633338561; 0x7bf329ee636d1eea; 0x12b592653589793; 0x4e7b2d0d9b47ba97;
   0x34a35dc5ab7233ee; 0xbbcbcc9dfb2ca865; 0xc113bc55cb19211c; 0x5863dbf1e3ac9dec;
   0x22bbab39d3991495; 0xadd33a6183c78f1e; 0xd70b4aa9b3f20667; 0x985b3e827bed2b63;
   0xe2834e4a4bd8a21a; 0x6debdf121b863991; 0x1733afda2bb3b0e8; 0xf34b37458bb86399;
   0x8993478dbb8deae0; 0x6fbd6d5ebd3716b; 0x7c23a61ddbe6f812; 0x3373d23613f9d516;
   0x49aba2fe23cc5c6f; 0xc6c333a67392c7e4; 0xbc1b436e43a74e9d; 0x95ac9329ac4bc9b5;
   0xef74e3e19c7e40cc; 0x601c72b9cc20db47; 0x1ac40271fc15523e; 0x5594765a340a7f3a;
   0x2f4c0692043ff643; 0xa02497ca54616dc8; 0xdafce7026454e4b1; 0x3e847f9dc45f37c0;
   0x445c0f55f46abeb9; 0xcb349e0da4342532; 0xb1eceec59401ac4b; 0xfebc9aee5c1e814f;
   0x8464ea266c2b0836; 0xb0c7b7e3c7593bd; 0x71d40bb60c401ac4; 0xe8a46c1224f5a634;
   0x927c1cda14c02f4d; 0x1d148d82449eb4c6; 0x67ccfd4a74ab3dbf; 0x289c8961bcb410bb;
   0x5244f9a98c8199c2; 0xdd2c68f1dcdf0249; 0xa7f41839ecea8b30; 0x438c80a64ce15841;
   0x3954f06e7cd4d138; 0xb63c61362c8a4ab3; 0xcce411fe1cbfc3ca; 0x83b465d5d4a0eece;
   0xf96c151de49567b7; 0x76048445b4cbfc3c; 0xcdcf48d84fe7545; 0x6fbd6d5ebd3716b7;
   0x15651d968d029fce; 0x9a0d8ccedd5c0445; 0xe0d5fc06ed698d3c; 0xaf85882d2576a038;
   0xd55df8e515432941; 0x5a3569bd451db2ca; 0x20ed197575283bb3; 0xc49581ead523e8c2;
   0xbe4df122e51661bb; 0x3125607ab548fa30; 0x4bfd10b2857d7349; 0x4ad64994d625e4d;
   0x7e7514517d57d734; 0xf11d85092d094cbf; 0x8bc5f5c11d3cc5c6; 0x12b5926535897936;
   0x686de2ad05bcf04f; 0xe70573f555e26bc4; 0x9ddd033d65d7e2bd; 0xd28d7716adc8cfb9;
   0xa85507de9dfd46c0; 0x273d9686cda3dd4b; 0x5de5e64efd965432; 0xb99d7ed15d9d8743;
   0xc3450e196da80e3a; 0x4c2d9f413df695b1; 0x36f5ef890dc31cc8; 0x79a59ba2c5dc31cc;
   0x37deb6af5e9b8b5; 0x8c157a32a5b7233e; 0xf6cd0afa9582aa47; 0x4ad64994d625e4da;
   0x300e395ce6106da3; 0xbf66a804b64ef628; 0xc5bed8cc867b7f51; 0x8aeeace74e645255;
   0xf036dc2f7e51db2c; 0x7f5e4d772e0f40a7; 0x5863dbf1e3ac9de; 0xe1fea520be311aaf;
   0x9b26d5e88e0493d6; 0x144e44b0de5a085d; 0x6e963478ee6f8124; 0x21c640532670ac20;
   0x5b1e309b16452559; 0xd476a1c3461bbed2; 0xaeaed10b762e37ab; 0x37deb6af5e9b8b5b;
   0x4d06c6676eae0222; 0xc26e573f3ef099a9; 0xb8b627f70ec510d0; 0xf7e653dcc6da3dd4;
   0x8d3e2314f6efb4ad; 0x256b24ca6b12f26; 0x788ec2849684a65f; 0x9cf65a1b368f752e;
   0xe62e2ad306bafc57; 0x6946bb8b56e467dc; 0x139ecb4366d1eea5; 0x5ccebf68aecec3a1;
   0x2616cfa09efb4ad8; 0xa97e5ef8cea5d153; 0xd3a62e30fe90582a; 0xb0c7b7e3c7593bd8;
   0xca1fc72bf76cb2a1; 0x45775673a732292a; 0x3faf26bb9707a053; 0x70ff52905f188d57;
   0xa2722586f2d042e; 0x854fb3003f739fa5; 0xff97c3c80f4616dc; 0x1bef5b57af4dc5ad;
   0x61372b9f9f784cd4; 0xee5fbac7cf26d75f; 0x9487ca0fff135e26; 0xdbd7be24370c7322;
   0xa10fceec0739fa5b; 0x2e675fb4576761d0; 0x54bf2f7c6752e8a9; 0xcdcf48d84fe75459;
   0xb71738107fd2dd20; 0x387fa9482f8c46ab; 0x42a7d9801fb9cfd2; 0xdf7adabd7a6e2d6;
   0x772fdd63e7936baf; 0xf8474c3bb7cdf024; 0x829f3cf387f8795d; 0x66e7a46c27f3aa2c;
   0x1c3fd4a417c62355; 0x935745fc4798b8de; 0xe98f353477ad31a7; 0xa6df411fbfb21ca3;
   0xdc0731d78f8795da; 0x536fa08fdfd90e51; 0x29b7d047efec8728].

(** [t[i]]; every index the routines use is masked to a byte (crc7: below 256
    because its state is 7 bits wide). *)
Definition tab (t : list Z) (i : Z) : Z := default 0 (arr_get t i).

(** ** The routines of the source *)
Definition crc7_byte (crc data : Z) : Z :=
  tab crc7_syndrome_table (Z.lxor (Z.shiftl crc 1) data).
Definition fio_crc7 (buffer : list Z) : Z := fold_left crc7_byte buffer 0.

Definition crc16_byte (crc data : Z) : Z :=
  Z.lxor (Z.shiftr crc 8) (tab crc16_table (Z.land (Z.lxor crc data) 0xff)).
Definition fio_crc16 (buffer : list Z) : Z := fold_left crc16_byte buffer 0.

Definition crc32_byte (crc data : Z) : Z :=
  Z.lxor (shl 32 crc 8) (tab crctab (Z.land (Z.lxor (Z.shiftr crc 24) data) 0xff)).
Definition fio_crc32 (buffer : list Z) : Z := fold_left crc32_byte buffer 0.

Definition crc32c_byte (crc data : Z) : Z :=
  Z.lxor (tab crc32c_table (Z.land (Z.lxor crc data) 0xff)) (Z.shiftr crc 8).
Definition crc32c_sw (buffer : list Z) : Z := fold_left crc32c_byte buffer (-1U).

Definition crc64_byte (crc data : Z) : Z :=
  Z.lxor (tab crctab64 (Z.land (Z.lxor crc data) 0xff)) (Z.shiftr crc 8).
Definition fio_crc64 (buffer : list Z) : Z := fold_left crc64_byte buffer 0.

(** ** Bit-serial reference

    [refl_step] is one clock of the register that shifts right (reflected
    polynomials), [msb_step] of the one that shifts left. *)
Definition refl_step (poly x : Z) : Z :=
  Z.lxor (Z.shiftr x 1) (if Z.odd x then poly else 0).
Definition msb_step (w poly x : Z) : Z :=
  Z.lxor (shl w x 1) (if Z.testbit x (w - 1) then poly else 0).

Definition refl_byte (poly x : Z) : Z := Nat.iter 8 (refl_step poly) x.
Definition msb_byte (w poly x : Z) : Z := Nat.iter 8 (msb_step w poly) x.

Definition refl_crc (poly init : Z) (buffer : list Z) : Z :=
  fold_left (fun crc data => refl_byte poly (Z.lxor crc data)) buffer init.
Definition msb_crc (w poly init : Z) (buffer : list Z) : Z :=
  fold_left (fun crc data => msb_byte w poly (Z.lxor crc (Z.shiftl data (w - 8)))) buffer init.

(** The 7-bit register, kept left-aligned in a byte. *)
Definition crc7_ref (buffer : list Z) : Z :=
  fold_left (fun crc data =>
    Z.shiftr (msb_byte 8 0x12 (Z.lxor (Z.shiftl crc 1) data)) 1) buffer 0.

(** ** Linearity of the registers *)
Lemma lxor_swap a b c d : Z.lxor (Z.lxor a b) (Z.lxor c d) = Z.lxor (Z.lxor a c) (Z.lxor b d).
Proof. rewrite !Z.lxor_assoc. f_equal. rewrite <- !Z.lxor_assoc. f_equal. apply Z.lxor_comm. Qed.

Lemma if_lxor (a b : bool) p :
  (if xorb a b then p else 0) = Z.lxor (if a then p else 0) (if b then p else 0).
Proof. destruct a, b; simpl; by rewrite ?Z.lxor_nilpotent, ?Z.lxor_0_r, ?Z.lxor_0_l. Qed.

Lemma refl_step_lxor poly x y :
  refl_step poly (Z.lxor x y) = Z.lxor (refl_step poly x) (refl_step poly y).
Proof.
  unfold refl_step. rewrite Z.shiftr_lxor, <- !Z.bit0_odd, Z.lxor_spec, if_lxor. apply lxor_swap.
Qed.

Lemma shl_lxor w x y n : 0 <= w -> 0 <= n ->
  shl w (Z.lxor x y) n = Z.lxor (shl w x n) (shl w y n).
Proof.
  intros Hw Hn. unfold shl. rewrite !wrap_land by done. rewrite Z.shiftl_lxor.
  apply Z.bits_inj'. intros i Hi. rewrite !Z.land_spec, !Z.lxor_spec, !Z.land_spec.
  by destruct (Z.testbit (Z.shiftl x n) i), (Z.testbit (Z.shiftl y n) i),
    (Z.testbit (Z.ones w) i).
Qed.

Lemma msb_step_lxor w poly x y :
  0 <= w -> msb_step w poly (Z.lxor x y) = Z.lxor (msb_step w poly x) (msb_step w poly y).
Proof.
  intros Hw. unfold msb_step. rewrite shl_lxor, Z.lxor_spec, if_lxor by lia. apply lxor_swap.
Qed.

Lemma iter_lxor (f : Z -> Z) n :
  (forall x y, f (Z.lxor x y) = Z.lxor (f x) (f y)) ->
  forall x y, Nat.iter n f (Z.lxor x y) = Z.lxor (Nat.iter n f x) (Nat.iter n f y).
Proof. intros Hf. induction n as [|n IH]; intros x y; simpl; [done|]. by rewrite IH, Hf. Qed.

(** A value whose low [n] bits are clear is shifted right [n] places. *)
Lemma refl_iter_shiftl poly n y :
  Nat.iter n (refl_step poly) (Z.shiftl y (Z.of_nat n)) = y.
Proof.
  revert y. induction n as [|n IH]; intros y; [simpl; apply Z.shiftl_0_r|].
  assert (Z.shiftl y (Z.of_nat (S n)) = Z.shiftl (Z.shiftl y 1) (Z.of_nat n)) as ->
    by (rewrite Z.shiftl_shiftl by lia; f_equal; lia).
  change (Nat.iter (S n) (refl_step poly) ?x)
    with (refl_step poly (Nat.iter n (refl_step poly) x)).
  rewrite IH. unfold refl_step. rewrite Z.shiftl_mul_pow2 by lia.
  rewrite Z.shiftr_div_pow2 by lia. change (2 ^ 1) with 2. rewrite Z.div_mul by lia.
  rewrite Z.odd_mul. simpl. by rewrite andb_false_r, Z.lxor_0_r.
Qed.

Lemma split_low x n :
  0 <= n -> x = Z.lxor (Z.land x (Z.ones n)) (Z.shiftl (Z.shiftr x n) n).
Proof.
  intros Hn. apply Z.bits_inj'. intros i Hi. rewrite Z.lxor_spec, Z.land_spec, Z.shiftl_spec by done.
  destruct (decide (i < n)) as [Hlt|Hge].
  - rewrite (Z.testbit_neg_r _ (i - n)) by lia. rewrite Z.testbit_ones_nonneg by lia.
    destruct (Z.ltb_spec i n); [|lia]. by rewrite andb_true_r, xorb_false_r.
  - rewrite Z.testbit_ones_nonneg by lia. destruct (Z.ltb_spec i n); [lia|].
    rewrite andb_false_r, xorb_false_l, Z.shiftr_spec by lia. f_equal. lia.
Qed.

Lemma refl_byte_split poly x :
  refl_byte poly x = Z.lxor (refl_byte poly (Z.land x 0xff)) (Z.shiftr x 8).
Proof.
  rewrite (split_low x 8) at 1 by lia. unfold refl_byte.
  rewrite (iter_lxor _ 8 (refl_step_lxor poly)). f_equal.
  apply (refl_iter_shiftl poly 8).
Qed.

(** ** Tables against registers *)

(** A table holds the register's response to every byte. *)
Definition table_ok (f : Z -> Z) (t : list Z) : Prop :=
  Forall (fun i => tab t i = f i) (seqZ 0 256).

#[export] Instance table_ok_dec f t : Decision (table_ok f t).
Proof. unfold table_ok. apply _. Defined.

Lemma table_ok_get f t i : table_ok f t -> 0 <= i < 256 -> tab t i = f i.
Proof.
  intros H Hi. unfold table_ok in H. rewrite Forall_forall in H. apply H.
  apply list_elem_of_In, elem_of_seqZ. lia.
Qed.

Lemma crc16_table_ok : table_ok (refl_byte 0xA001) crc16_table.
Proof. apply (bool_decide_unpack _). vm_compute. exact I. Qed.
Lemma crc32c_table_ok : table_ok (refl_byte 0x82F63B78) crc32c_table.
Proof. apply (bool_decide_unpack _). vm_compute. exact I. Qed.
Lemma crctab64_ok : table_ok (refl_byte 0x95AC9329AC4BC9B5) crctab64.
Proof. apply (bool_decide_unpack _). vm_compute. exact I. Qed.
Lemma crctab_ok : table_ok (fun i => msb_byte 32 0x04C11DB7 (Z.shiftl i 24)) crctab.
Proof. apply (bool_decide_unpack _). vm_compute. exact I. Qed.
Lemma crc7_table_ok :
  table_ok (fun i => Z.shiftr (msb_byte 8 0x12 i) 1) crc7_syndrome_table.
Proof. apply (bool_decide_unpack _). vm_compute. exact I. Qed.

Lemma land_ff_bounds x : 0 <= Z.land x 0xff < 256.
Proof. change 0xff with (Z.ones 8). rewrite Z.land_ones by lia. apply Z.mod_pos_bound. lia. Qed.

Lemma byte_shiftr b : uint 8 b -> Z.shiftr b 8 = 0.
Proof. intros Hb. rewrite Z.shiftr_div_pow2 by lia. apply Z.div_small. apply Hb. Qed.

Lemma refl_table_byte poly t crc b :
  table_ok (refl_byte poly) t -> uint 8 b ->
  Z.lxor (tab t (Z.land (Z.lxor crc b) 0xff)) (Z.shiftr crc 8) = refl_byte poly (Z.lxor crc b).
Proof.
  intros Ht Hb. rewrite (refl_byte_split poly (Z.lxor crc b)).
  rewrite (table_ok_get _ t) by (done || apply land_ff_bounds). f_equal.
  by rewrite Z.shiftr_lxor, (byte_shiftr b Hb), Z.lxor_0_r.
Qed.

(** Two byte-wise folds agree when their steps do on the states reached. *)
Lemma fold_left_ext_inv {A} (I : A -> Prop) (f g : A -> Z -> A) l : forall a,
  Forall (uint 8) l -> I a ->
  (forall a b, I a -> uint 8 b -> f a b = g a b /\ I (f a b)) ->
  fold_left f l a = fold_left g l a.
Proof.
  induction l as [|b l IH]; intros a Hl Ha H; simpl; [done|].
  apply Forall_cons_iff in Hl as [Hb Hl]. destruct (H a b Ha Hb) as [E HI].
  rewrite <- E. by apply IH.
Qed.

Lemma crc16_byte_ref crc b : uint 8 b -> crc16_byte crc b = refl_byte 0xA001 (Z.lxor crc b).
Proof.
  intros Hb. unfold crc16_byte. rewrite Z.lxor_comm.
  apply refl_table_byte; [apply crc16_table_ok|done].
Qed.

(** The left-shifting register moves a value without high bits up unchanged. *)
Lemma msb_iter_low w poly n y :
  0 <= w -> uint (w - Z.of_nat n) y -> Nat.iter n (msb_step w poly) y = Z.shiftl y (Z.of_nat n).
Proof.
  revert y. induction n as [|n IH]; intros y Hw Hy; [by rewrite Z.shiftl_0_r|].
  change (Nat.iter (S n) (msb_step w poly) ?x)
    with (msb_step w poly (Nat.iter n (msb_step w poly) x)).
  assert (0 <= w - Z.of_nat (S n)) as Hw'.
  { destruct (decide (0 <= w - Z.of_nat (S n))); [done|]. unfold uint in Hy.
    rewrite Z.pow_neg_r in Hy by lia. lia. }
  assert (2 ^ (w - Z.of_nat n) = 2 * 2 ^ (w - Z.of_nat (S n))) as Hpow.
  { rewrite <- Z.pow_succ_r by lia. f_equal. lia. }
  rewrite IH; [|done|unfold uint in *; lia].
  unfold msb_step, shl. rewrite Z.shiftl_shiftl by lia.
  assert (uint w (Z.shiftl y (Z.of_nat n + 1))) as Hu.
  { rewrite Z.shiftl_mul_pow2 by lia. unfold uint in *.
    replace (2 ^ w) with (2 ^ (w - Z.of_nat (S n)) * 2 ^ (Z.of_nat n + 1))
      by (rewrite <- Z.pow_add_r by lia; f_equal; lia).
    assert (0 < 2 ^ (Z.of_nat n + 1)) by (apply Z.pow_pos_nonneg; lia). nia. }
  rewrite wrap_small by done. rewrite Z.shiftl_spec by lia.
  rewrite (uint_testbit_high (w - Z.of_nat (S n)) y) by (done || lia).
  rewrite Z.lxor_0_r. f_equal. lia.
Qed.

Lemma crc32_byte_ref crc b :
  uint 32 crc -> uint 8 b ->
  crc32_byte crc b = msb_byte 32 0x04C11DB7 (Z.lxor crc (Z.shiftl b 24)).
Proof.
  intros Hc Hb. unfold crc32_byte, msb_byte.
  set (x := Z.lxor crc (Z.shiftl b 24)).
  assert (Z.shiftr x 24 = Z.lxor (Z.shiftr crc 24) b) as Hhi.
  { unfold x. rewrite Z.shiftr_lxor. f_equal. rewrite Z.shiftr_shiftl_l by lia. apply Z.shiftl_0_r. }
  assert (Z.land x (Z.ones 24) = Z.land crc (Z.ones 24)) as Hlo.
  { unfold x. apply Z.bits_inj'. intros i Hi. rewrite !Z.land_spec, Z.lxor_spec, Z.shiftl_spec by done.
    rewrite Z.testbit_ones_nonneg by lia. destruct (Z.ltb_spec i 24); [|by rewrite !andb_false_r].
    rewrite (Z.testbit_neg_r b) by lia. by rewrite xorb_false_r. }
  rewrite (split_low x 24) by lia.
  rewrite (iter_lxor _ 8 (fun a c => msb_step_lxor 32 _ a c ltac:(lia))), Hhi, Hlo. f_equal.
  - rewrite (msb_iter_low 32 _ 8); [|lia|].
    + apply Z.bits_inj'. intros i Hi. rewrite shl_testbit, Z.shiftl_spec, Z.land_spec by lia.
      destruct (decide (i < 8)); [rewrite !(Z.testbit_neg_r _ (i - _)) by lia; by rewrite andb_false_r|].
      rewrite Z.testbit_ones_nonneg by lia.
      destruct (Z.ltb_spec i 32), (Z.ltb_spec (i - Z.of_nat 8) 24); try lia; simpl;
        by rewrite ?andb_true_r, ?andb_false_r.
    + change (32 - Z.of_nat 8) with 24. unfold uint. rewrite Z.land_ones by lia.
      apply Z.mod_pos_bound. lia.
  - assert (uint 8 (Z.lxor (Z.shiftr crc 24) b)) as Hi.
    { apply lxor_uint; [lia| |done]. unfold uint in *. rewrite Z.shiftr_div_pow2 by lia. zdm. }
    replace (Z.land _ 0xff) with (Z.lxor (Z.shiftr crc 24) b).
    + by rewrite (table_ok_get _ _ _ crctab_ok).
    + change 0xff with (Z.ones 8). rewrite Z.land_ones by lia. symmetry. by apply Z.mod_small.
Qed.

Lemma crc32_byte_uint crc b : uint 32 crc -> uint 8 b -> uint 32 (crc32_byte crc b).
Proof.
  intros Hc Hb. unfold crc32_byte. apply lxor_uint; [lia|apply shl_uint; lia|].
  assert (Forall (fun i => uint 32 (tab crctab i)) (seqZ 0 256)) as H
    by (apply (bool_decide_unpack _); vm_compute; exact I).
  rewrite Forall_forall in H. apply H. apply list_elem_of_In, elem_of_seqZ.
  pose proof (land_ff_bounds (Z.lxor (Z.shiftr crc 24) b)). lia.
Qed.

Lemma crc7_byte_bounds crc b : uint 7 crc -> uint 8 b ->
  crc7_byte crc b = Z.shiftr (msb_byte 8 0x12 (Z.lxor (Z.shiftl crc 1) b)) 1 /\
  uint 7 (crc7_byte crc b).
Proof.
  intros Hc Hb. unfold crc7_byte.
  assert (uint 8 (Z.lxor (Z.shiftl crc 1) b)) as Hu.
  { apply lxor_uint; [lia| |done]. rewrite Z.shiftl_mul_pow2 by lia. unfold uint in *. lia. }
  split; [apply (table_ok_get _ _ _ crc7_table_ok), Hu|].
  assert (Forall (fun i => uint 7 (tab crc7_syndrome_table i)) (seqZ 0 256)) as H
    by (apply (bool_decide_unpack _); vm_compute; exact I).
  rewrite Forall_forall in H. apply H. apply list_elem_of_In, elem_of_seqZ. apply Hu.
Qed.

Lemma refl_routine_ref poly (f : Z -> Z -> Z) init buffer :
  (forall crc b, uint 8 b -> f crc b = refl_byte poly (Z.lxor crc b)) ->
  Forall (uint 8) buffer -> fold_left f buffer init = refl_crc poly init buffer.
Proof. intros Hf Hl. apply (fold_left_ext_inv (fun _ => True)); auto. Qed.

(** ** Detection of one corrupted byte *)
Lemma refl_step_uint w poly x : 1 <= w -> uint w poly -> uint w x -> uint w (refl_step poly x).
Proof.
  intros Hw Hp Hx. unfold refl_step. apply lxor_uint; [lia|apply shiftr_uint; [lia|done]|].
  destruct (Z.odd x); [done|]. unfold uint in *. lia.
Qed.

(** With the top coefficient present, a clock of the register loses nothing:
    the top bit of the new state is the bit shifted out. *)
Lemma refl_step_inj w poly x y :
  1 <= w -> uint w poly -> Z.testbit poly (w - 1) = true -> uint w x -> uint w y ->
  refl_step poly x = refl_step poly y -> x = y.
Proof.
  intros Hw Hp Ht Hx Hy E.
  assert (forall z, uint w z -> Z.testbit (refl_step poly z) (w - 1) = Z.odd z) as Htop.
  { intros z Hz. unfold refl_step. rewrite Z.lxor_spec, Z.shiftr_spec by lia.
    rewrite (uint_testbit_high w z) by (done || lia).
    destruct (Z.odd z); simpl; [done|apply Z.bits_0]. }
  assert (Z.odd x = Z.odd y) as Ho by (rewrite <- !Htop by done; by rewrite E).
  unfold refl_step in E. rewrite Ho in E. apply (f_equal (fun z => Z.lxor z (if Z.odd y then poly else 0))) in E.
  rewrite !Z.lxor_assoc, Z.lxor_nilpotent, !Z.lxor_0_r in E.
  rewrite (Z.div2_odd x), (Z.div2_odd y), Ho, !Z.div2_spec. by rewrite E.
Qed.

Lemma refl_byte_uint w poly x : 1 <= w -> uint w poly -> uint w x -> uint w (refl_byte poly x).
Proof. intros Hw Hp Hx. unfold refl_byte. do 8 (apply refl_step_uint; [done..|]). done. Qed.

Lemma refl_byte_inj w poly x y :
  1 <= w -> uint w poly -> Z.testbit poly (w - 1) = true -> uint w x -> uint w y ->
  refl_byte poly x = refl_byte poly y -> x = y.
Proof.
  intros Hw Hp Ht Hx Hy. unfold refl_byte. generalize 8%nat as n. intros n.
  assert (forall m z, uint w z -> uint w (Nat.iter m (refl_step poly) z)) as Hu.
  { intros m z Hz. induction m as [|m IH]; [done|]. by apply refl_step_uint. }
  induction n as [|n IH]; [done|]. intros E. apply IH.
  eapply (refl_step_inj w poly); [done..| | |exact E]; by apply Hu.
Qed.

Lemma lxor_inj_r a x y : Z.lxor a x = Z.lxor a y -> x = y.
Proof.
  intros E. apply (f_equal (Z.lxor a)) in E. rewrite <- !Z.lxor_assoc, Z.lxor_nilpotent in E.
  by rewrite !Z.lxor_0_l in E.
Qed.

(** A fold whose step loses neither the state nor the byte tells apart two
    buffers that differ in one byte. *)
Lemma fold_one_byte (F : Z -> Z -> Z) (I : Z -> Prop) init pre x y post :
  (forall c b, I c -> uint 8 b -> I (F c b)) ->
  (forall c d b, I c -> I d -> uint 8 b -> F c b = F d b -> c = d) ->
  (forall c a b, I c -> uint 8 a -> uint 8 b -> F c a = F c b -> a = b) ->
  I init -> Forall (uint 8) pre -> Forall (uint 8) post -> uint 8 x -> uint 8 y -> x <> y ->
  fold_left F (pre ++ x :: post) init <> fold_left F (pre ++ y :: post) init.
Proof.
  intros Hcl Hst Hby Hi Hpre Hpost Hx Hy Hne. rewrite !fold_left_app. simpl.
  assert (I (fold_left F pre init)) as Hs.
  { revert init Hi. induction Hpre as [|b l Hb Hl IH]; intros init Hi; simpl; [done|].
    apply IH. by apply Hcl. }
  generalize dependent (fold_left F pre init). intros s Hs.
  assert (F s x <> F s y) as Hne' by (intros E; apply Hne; by apply (Hby s)).
  assert (I (F s x) /\ I (F s y)) as [H1 H2] by (split; by apply Hcl).
  revert Hne' H1 H2. generalize (F s x) (F s y).
  induction Hpost as [|b l Hb Hl IH]; intros c d Hcd Hc Hd; simpl; [done|].
  apply IH; [|by apply Hcl..]. intros E. apply Hcd. by apply (Hst c d b).
Qed.

(** In particular a reflected CRC of width at least 8. *)
Lemma refl_crc_one_byte w poly init pre x y post :
  8 <= w -> uint w poly -> Z.testbit poly (w - 1) = true -> uint w init ->
  Forall (uint 8) pre -> Forall (uint 8) post -> uint 8 x -> uint 8 y -> x <> y ->
  refl_crc poly init (pre ++ x :: post) <> refl_crc poly init (pre ++ y :: post).
Proof.
  intros Hw Hp Ht Hi Hpre Hpost Hx Hy Hne. unfold refl_crc.
  assert (forall c b, uint w c -> uint 8 b -> uint w (Z.lxor c b)) as Hxor.
  { intros c b Hc Hb. apply lxor_uint; [lia|done|]. unfold uint in *.
    assert (2 ^ 8 <= 2 ^ w) by (apply Z.pow_le_mono_r; lia). lia. }
  apply (fold_one_byte _ (uint w)); try done.
  - intros c b Hc Hb. apply refl_byte_uint; [lia|done|by apply Hxor].
  - intros c d b Hc Hd Hb E. apply (refl_byte_inj w) in E; [|done || lia || by apply Hxor..].
    rewrite (Z.lxor_comm c), (Z.lxor_comm d) in E. by apply lxor_inj_r in E.
  - intros c a b Hc Ha Hb E. apply (refl_byte_inj w) in E; [|done || lia || by apply Hxor..].
    by apply lxor_inj_r in E.
Qed.

(** ** Properties *)

(** C40. The table-driven [crc7], [crc16] and [crc32c] compute, on every buffer, the
    bit-serial CRC of their polynomial from their initial value: the tables are
    right in all 256 entries and the byte-wise updates are the eight clocks of the
    register. *)
Theorem crc_tables_correct buffer :
  Forall (uint 8) buffer ->
  fio_crc7 buffer = crc7_ref buffer /\
  fio_crc16 buffer = refl_crc 0xA001 0 buffer /\
  crc32c_sw buffer = refl_crc 0x82F63B78 0xffffffff buffer.
Proof.
  intros Hl. split_and!.
  - apply (fold_left_ext_inv (uint 7)); [done|unfold uint; lia|].
    intros a b Ha Hb. by apply crc7_byte_bounds.
  - apply refl_routine_ref; [apply crc16_byte_ref|done].
  - apply refl_routine_ref; [|done]. intros crc b Hb. apply refl_table_byte; [apply crc32c_table_ok|done].
Qed.

(** [crc32] clocks its register from 0 and ends there: it is the POSIX.2 checksum of
    the comment in [crc32.c] without the length and the complement. *)
Lemma crc32_bare buffer : Forall (uint 8) buffer -> fio_crc32 buffer = msb_crc 32 0x04C11DB7 0 buffer.
Proof.
  intros Hl. apply (fold_left_ext_inv (uint 32)); [done|unfold uint; lia|].
  intros a b Ha Hb. split; [by apply crc32_byte_ref|by apply crc32_byte_uint].
Qed.

(** [crc64] clocks the register of its polynomial from 0; the comment in [crc64.c]
    names all ones. *)
Lemma crc64_from_zero buffer : Forall (uint 8) buffer -> fio_crc64 buffer = refl_crc 0x95AC9329AC4BC9B5 0 buffer.
Proof. intros Hl. apply refl_routine_ref; [|done]. intros crc b Hb. apply refl_table_byte; [apply crctab64_ok|done]. Qed.

Lemma crc_one_byte pre x y post :
  Forall (uint 8) pre -> Forall (uint 8) post -> uint 8 x -> uint 8 y -> x <> y ->
  fio_crc16 (pre ++ x :: post) <> fio_crc16 (pre ++ y :: post) /\
  crc32c_sw (pre ++ x :: post) <> crc32c_sw (pre ++ y :: post) /\
  fio_crc64 (pre ++ x :: post) <> fio_crc64 (pre ++ y :: post).
Proof.
  intros Hpre Hpost Hx Hy Hne.
  assert (forall z, uint 8 z -> Forall (uint 8) (pre ++ z :: post)) as Hall.
  { intros z Hz. apply Forall_app. split; [done|]. by constructor. }
  unfold fio_crc16, crc32c_sw, fio_crc64. split_and!.
  - rewrite !(refl_routine_ref 0xA001) by (apply crc16_byte_ref || by apply Hall).
    by apply (refl_crc_one_byte 16).
  - rewrite !(refl_routine_ref 0x82F63B78) by
      ((intros; by apply refl_table_byte; [apply crc32c_table_ok|]) || by apply Hall).
    by apply (refl_crc_one_byte 32).
  - rewrite !(refl_routine_ref 0x95AC9329AC4BC9B5) by
      ((intros; by apply refl_table_byte; [apply crctab64_ok|]) || by apply Hall).
    by apply (refl_crc_one_byte 64).
Qed.

(** A corruption confined to one byte never goes unnoticed by [crc16],
    [crc32c] or [crc64], wherever in the buffer it happens. *)
Theorem crc_detects_one_byte pre x y post :
  Forall (uint 8) pre -> Forall (uint 8) post -> uint 8 x -> uint 8 y -> x <> y ->
  fio_crc16 (pre ++ x :: post) <> fio_crc16 (pre ++ y :: post) /\
  crc32c_sw (pre ++ x :: post) <> crc32c_sw (pre ++ y :: post) /\
  fio_crc64 (pre ++ x :: post) <> fio_crc64 (pre ++ y :: post).
Proof. exact (crc_one_byte pre x y post). Qed.

(** The check string of the CRC catalogues, "123456789". *)
Definition check_string : list Z := [0x31; 0x32; 0x33; 0x34; 0x35; 0x36; 0x37; 0x38; 0x39].

Lemma check_string_bytes : Forall (uint 8) check_string.
Proof. apply (bool_decide_unpack _). vm_compute. exact I. Qed.

Lemma crc_tables_correct_witness :
  fio_crc7 check_string = crc7_ref check_string /\
  fio_crc16 check_string = refl_crc 0xA001 0 check_string /\
  crc32c_sw check_string = refl_crc 0x82F63B78 0xffffffff check_string.
Proof. apply (crc_tables_correct check_string). apply check_string_bytes. Defined.

Lemma crc_detects_one_byte_witness :
  fio_crc16 ([1; 2] ++ 3 :: [4]) <> fio_crc16 ([1; 2] ++ 7 :: [4]) /\
  crc32c_sw ([1; 2] ++ 3 :: [4]) <> crc32c_sw ([1; 2] ++ 7 :: [4]) /\
  fio_crc64 ([1; 2] ++ 3 :: [4]) <> fio_crc64 ([1; 2] ++ 7 :: [4]).
Proof.
  apply (crc_detects_one_byte [1; 2] 3 7 [4]);
    [apply (bool_decide_unpack _); vm_compute; exact I..|lia].
Defined.

(** ** One changed byte *)

(** [l'] is [l] with another byte at one place. *)
Definition one_byte (l l' : list Z) : Prop :=
  exists pre x y post, l = pre ++ x :: post /\ l' = pre ++ y :: post /\ x <> y /\
    Forall (uint 8) pre /\ Forall (uint 8) post /\ uint 8 x /\ uint 8 y.

Lemma one_byte_crc l l' : one_byte l l' ->
  fio_crc16 l <> fio_crc16 l' /\ crc32c_sw l <> crc32c_sw l' /\ fio_crc64 l <> fio_crc64 l'.
Proof. intros (pre&x&y&post&->&->&Hne&H1&H2&H3&H4). by apply crc_one_byte. Qed.

Lemma le_val_inj l : forall l', length l = length l' -> Forall (uint 8) l -> Forall (uint 8) l' ->
  le_val l = le_val l' -> l = l'.
Proof.
  induction l as [|x l IH]; intros [|y l'] Hl Hb Hb' E; try done.
  apply Forall_cons_iff in Hb as [Hx Hb]. apply Forall_cons_iff in Hb' as [Hy Hb'].
  cbn [le_val] in E. unfold uint in Hx, Hy. simpl in Hl.
  assert (x = y /\ le_val l = le_val l') as [-> E'] by (split; lia). f_equal. apply IH; done || lia.
Qed.

Lemma one_byte_val l l' : one_byte l l' -> le_val l <> le_val l'.
Proof.
  intros (pre&x&y&post&->&->&Hne&H1&H2&H3&H4) E. apply le_val_inj in E.
  - apply app_inv_head in E. by injection E.
  - by rewrite !length_app.
  - apply Forall_app; split; [done|]. by constructor.
  - apply Forall_app; split; [done|]. by constructor.
Qed.

Lemma one_byte_insert l i x y : Forall (uint 8) l -> l !! i = Some x -> x <> y -> uint 8 y ->
  one_byte l (<[i := y]> l).
Proof.
  intros Hl Hx Hne Hy. exists (take i l), x, y, (drop (S i) l).
  assert (i < length l)%nat by (apply lookup_lt_is_Some; eauto).
  split; [by rewrite take_drop_middle|]. split; [by apply insert_take_drop|].
  split; [done|]. split; [by apply Forall_take|]. split; [by apply Forall_drop|].
  split; [|done]. exact (list.Forall_lookup_1 _ _ _ _ Hl Hx).
Qed.

Lemma one_byte_length l l' : one_byte l l' -> length l' = length l.
Proof. intros (pre&x&y&post&->&->&_). by rewrite !length_app. Qed.

(** A change in a block of two parts is a change in one of them. *)
Lemma one_byte_app a b l' : one_byte (a ++ b) l' ->
  (exists a', l' = a' ++ b /\ one_byte a a') \/ (exists b', l' = a ++ b' /\ one_byte b b').
Proof.
  intros (pre&x&y&post&E&->&Hne&H1&H2&H3&H4).
  destruct (decide (length pre < length a)%nat) as [Hlt|Hge].
  - left. assert (a = pre ++ x :: drop (S (length pre)) a) as Ha.
    { rewrite <- (take_drop_middle a (length pre) x) at 1.
      - f_equal. apply (f_equal (take (length pre))) in E.
        by rewrite take_app_le, take_app_length in E by lia.
      - apply (f_equal (lookup (length pre))) in E. rewrite lookup_app_l in E by lia.
        by rewrite E, list_lookup_middle. }
    assert (post = drop (S (length pre)) a ++ b) as Hp.
    { rewrite Ha, <- app_assoc in E. apply app_inv_head in E. by injection E. }
    exists (pre ++ y :: drop (S (length pre)) a). split; [by rewrite Hp, <- app_assoc|].
    exists pre, x, y, (drop (S (length pre)) a). rewrite Hp in H2. apply Forall_app in H2 as [H2 _].
    split_and!; done.
  - right. assert (pre = a ++ drop (length a) pre) as Hp.
    { rewrite <- (take_drop (length a) pre) at 1. f_equal. apply (f_equal (take (length a))) in E.
      rewrite take_app_length, take_app_le in E by lia. done. }
    assert (b = drop (length a) pre ++ x :: post) as Hb.
    { rewrite Hp, <- app_assoc in E. by apply app_inv_head in E. }
    exists (drop (length a) pre ++ y :: post). split; [rewrite Hp at 1; by rewrite <- app_assoc|].
    exists (drop (length a) pre), x, y, post. rewrite Hp in H1. apply Forall_app in H1 as [_ H1].
    split_and!; done.
Qed.

(** ** Ranges of the checksums *)
Lemma tab_uint w t i : 0 <= w -> Forall (uint w) t -> uint w (tab t i).
Proof.
  intros Hw Ht. unfold tab. destruct (arr_get t i) as [x|] eqn:E; simpl.
  - apply arr_get_Some in E as [_ E]. eapply list.Forall_lookup_1; done.
  - unfold uint. pose proof (Z.pow_pos_nonneg 2 w). lia.
Qed.

Lemma table_uint w t : forallb (fun x => (0 <=? x) && (x <? 2 ^ w)) t = true -> Forall (uint w) t.
Proof.
  intros H. apply list.Forall_forall. intros x Hx. rewrite forallb_forall in H.
  apply list_elem_of_In in Hx. specialize (H x Hx). zbool. split; lia.
Qed.

Lemma fold_uint w (f : Z -> Z -> Z) data : (forall c x, uint w c -> uint w (f c x)) ->
  forall c, uint w c -> uint w (fold_left f data c).
Proof. intros Hf. induction data as [|x data IH]; intros c Hc; simpl; auto. Qed.

Lemma uint_0 w : 0 <= w -> uint w 0.
Proof. intros. unfold uint. pose proof (Z.pow_pos_nonneg 2 w). lia. Qed.

Lemma crc7_uint data : uint 8 (fio_crc7 data).
Proof.
  apply fold_uint; [|by apply uint_0]. intros c x _. apply tab_uint; [lia|].
  apply table_uint. vm_compute. reflexivity.
Qed.

Lemma crc16_uint data : uint 16 (fio_crc16 data).
Proof.
  apply fold_uint; [|by apply uint_0]. intros c x Hc. unfold crc16_byte.
  apply lxor_uint; [lia|by apply shiftr_uint|]. apply tab_uint; [lia|].
  apply table_uint. vm_compute. reflexivity.
Qed.

Lemma crc32_uint data : uint 32 (fio_crc32 data).
Proof.
  apply fold_uint; [|by apply uint_0]. intros c x Hc. unfold crc32_byte.
  apply lxor_uint; [lia|by apply shl_uint|]. apply tab_uint; [lia|].
  apply table_uint. vm_compute. reflexivity.
Qed.

Lemma crc32c_uint data : uint 32 (crc32c_sw data).
Proof.
  apply fold_uint; [|by apply all_ones_uint]. intros c x Hc. unfold crc32c_byte.
  apply lxor_uint; [lia| |by apply shiftr_uint]. apply tab_uint; [lia|].
  apply table_uint. vm_compute. reflexivity.
Qed.

Lemma crc64_uint data : uint 64 (fio_crc64 data).
Proof.
  apply fold_uint; [|by apply uint_0]. intros c x Hc. unfold crc64_byte.
  apply lxor_uint; [lia| |by apply shiftr_uint]. apply tab_uint; [lia|].
  apply table_uint. vm_compute. reflexivity.
Qed.
