(* ===== verification/Xxhash.v ===== *)
(** * XXH32: [crc/xxhash.c]

    The hash fio's [verify=xxhash] uses, in its one-shot form and in the
    streaming form ([XXH32_init], [XXH32_update], [XXH32_digest]) the verify
    code calls.  The model is for input pointers that are not [NULL]; reads are
    little-endian on every CPU, as [XXH_readLE32] makes them. *)
From S2P Require Import Prelude.

Definition PRIME32_1 : Z := 2654435761.
Definition PRIME32_2 : Z := 2246822519.
Definition PRIME32_3 : Z := 3266489917.
Definition PRIME32_4 : Z := 668265263.
Definition PRIME32_5 : Z := 374761393.

Definition XXH_rotl32 (x r : Z) : Z := Z.lor (shl 32 x r) (Z.shiftr x (32 - r)).

(** The four bytes at [p] as a little-endian word. *)
Definition XXH_readLE32 (p : list Z) : Z :=
  match p with
  | b0 :: b1 :: b2 :: b3 :: _ =>
      Z.lor b0 (Z.lor (Z.shiftl b1 8) (Z.lor (Z.shiftl b2 16) (Z.shiftl b3 24)))
  | _ => 0
  end.

Record lanes := Lanes { v1 : Z; v2 : Z; v3 : Z; v4 : Z }.

Definition init_lanes (seed : Z) : lanes :=
  Lanes (u32 (seed + PRIME32_1 + PRIME32_2)) (u32 (seed + PRIME32_2)) (u32 (seed + 0))
    (u32 (seed - PRIME32_1)).

(** [v += read * PRIME32_2; v = rotl(v, 13); v *= PRIME32_1]. *)
Definition lane_round (v x : Z) : Z :=
  let v := u32 (v + u32 (x * PRIME32_2)) in
  let v := XXH_rotl32 v 13 in
  u32 (v * PRIME32_1).

(** One 16-byte stripe at [p]. *)
Definition stripe (s : lanes) (p : list Z) : lanes :=
  Lanes (lane_round (v1 s) (XXH_readLE32 p)) (lane_round (v2 s) (XXH_readLE32 (drop 4 p)))
    (lane_round (v3 s) (XXH_readLE32 (drop 8 p))) (lane_round (v4 s) (XXH_readLE32 (drop 12 p))).

(** The [do ... while (p <= limit)] loop, entered when 16 bytes are left: the
    lanes and the bytes that remain. *)
Fixpoint stripes (fuel : nat) (s : lanes) (p : list Z) : lanes * list Z :=
  match fuel with
  | O => (s, p)
  | S fuel =>
      if (16 <=? length p)%nat then stripes fuel (stripe s p) (drop 16 p) else (s, p)
  end.

Definition merge_lanes (s : lanes) : Z :=
  u32 (XXH_rotl32 (v1 s) 1 + XXH_rotl32 (v2 s) 7 + XXH_rotl32 (v3 s) 12 + XXH_rotl32 (v4 s) 18).

(** [while (p <= bEnd-4)]. *)
Fixpoint tail_words (fuel : nat) (h32 : Z) (p : list Z) : Z * list Z :=
  match fuel with
  | O => (h32, p)
  | S fuel =>
      if (4 <=? length p)%nat then
        let h32 := u32 (h32 + u32 (XXH_readLE32 p * PRIME32_3)) in
        let h32 := u32 (XXH_rotl32 h32 17 * PRIME32_4) in
        tail_words fuel h32 (drop 4 p)
      else (h32, p)
  end.

(** [while (p < bEnd)]. *)
Definition tail_bytes (h32 : Z) (p : list Z) : Z :=
  fold_left (fun h32 b =>
    let h32 := u32 (h32 + u32 (b * PRIME32_5)) in
    u32 (XXH_rotl32 h32 11 * PRIME32_1)) p h32.

Definition avalanche (h32 : Z) : Z :=
  let h32 := Z.lxor h32 (Z.shiftr h32 15) in
  let h32 := u32 (h32 * PRIME32_2) in
  let h32 := Z.lxor h32 (Z.shiftr h32 13) in
  let h32 := u32 (h32 * PRIME32_3) in
  Z.lxor h32 (Z.shiftr h32 16).

Definition finish (h32 : Z) (p : list Z) : Z :=
  let '(h32, p) := tail_words (length p) h32 p in avalanche (tail_bytes h32 p).

(** ** One shot *)

(** [len] is an [int]: the length is converted before the test. *)
Definition XXH32 (input : list Z) (seed : Z) : Z :=
  let len := sgn 32 (Z.of_nat (length input)) in
  let '(h32, p) :=
    if 16 <=? len then
      let '(s, p) := stripes (length input) (init_lanes seed) input in (merge_lanes s, p)
    else (u32 (seed + PRIME32_5), input) in
  finish (u32 (h32 + u32 len)) p.

(** ** Streaming *)
Record XXH_state32 := State {
  total_len : Z;
  seed : Z;
  st_lanes : lanes;
  memsize : Z;
  memory : list Z
}.

(** The buffer comes from [malloc]: its contents are arbitrary. *)
Definition XXH32_init (mem : list Z) (seed : Z) : XXH_state32 :=
  State 0 seed (init_lanes seed) 0 mem.

(** [None] is a copy outside the 16-byte buffer. *)
Definition XXH32_update (st : XXH_state32) (input : list Z) : option XXH_state32 :=
  let len := Z.of_nat (length input) in
  let total := u64 (total_len st + len) in
  if memsize st + len <? 16 then
    mem ← mem_write (memory st) (memsize st) input;
    Some (State total (seed st) (st_lanes st) (memsize st + len) mem)
  else
    '(s, p, mem) ←
      (if negb (memsize st =? 0) then
         let n := Z.to_nat (16 - memsize st) in
         mem ← mem_write (memory st) (memsize st) (take n input);
         Some (stripe (st_lanes st) mem, drop n input, mem)
       else Some (st_lanes st, input, memory st));
    let '(s, p) := stripes (length p) s p in
    if (0 <? length p)%nat then
      mem ← mem_write mem 0 p;
      Some (State total (seed st) s (Z.of_nat (length p)) mem)
    else Some (State total (seed st) s 0 mem).

Definition XXH32_digest (st : XXH_state32) : Z :=
  let h32 := if 16 <=? total_len st then merge_lanes (st_lanes st)
             else u32 (seed st + PRIME32_5) in
  finish (u32 (h32 + u32 (total_len st))) (take (Z.to_nat (memsize st)) (memory st)).

(** ** Absorption of whole stripes *)
Definition absorb (s : lanes) (p : list Z) : lanes * list Z := stripes (length p) s p.

Lemma stripes_fuel f1 : forall f2 s p,
  (length p <= f1)%nat -> (length p <= f2)%nat -> stripes f1 s p = stripes f2 s p.
Proof.
  induction f1 as [|f1 IH]; intros [|f2] s p H1 H2; cbn [stripes]; try done.
  - by destruct p; [|simpl in H1; lia].
  - by destruct p; [|simpl in H2; lia].
  - destruct (Nat.leb_spec 16 (length p)); [|done].
    apply IH; rewrite length_drop; lia.
Qed.

Lemma absorb_unfold s p :
  absorb s p = if (16 <=? length p)%nat then absorb (stripe s p) (drop 16 p) else (s, p).
Proof.
  unfold absorb. destruct p as [|x p]; [done|].
  change (stripes (length (x :: p)) s (x :: p))
    with (if (16 <=? length (x :: p))%nat
          then stripes (length p) (stripe s (x :: p)) (drop 16 (x :: p)) else (s, x :: p)).
  destruct (Nat.leb_spec 16 (length (x :: p))); [|done].
  apply stripes_fuel; rewrite length_drop; simpl; lia.
Qed.

Lemma xxh_absorb_short s p : (length p < 16)%nat -> absorb s p = (s, p).
Proof. intros. rewrite absorb_unfold. by destruct (Nat.leb_spec 16 (length p)); [lia|]. Qed.

Lemma xxh_absorb_long s p :
  (16 <= length p)%nat -> absorb s p = absorb (stripe s p) (drop 16 p).
Proof. intros. rewrite absorb_unfold. by destruct (Nat.leb_spec 16 (length p)); [|lia]. Qed.

Lemma XXH_readLE32_app p q : (4 <= length p)%nat -> XXH_readLE32 (p ++ q) = XXH_readLE32 p.
Proof. destruct p as [|a [|b [|c [|d p]]]]; simpl; intros; lia || done. Qed.

Lemma stripe_app s p q : (16 <= length p)%nat -> stripe s (p ++ q) = stripe s p.
Proof.
  intros Hp. unfold stripe. rewrite !drop_app_le by lia.
  rewrite !XXH_readLE32_app by (rewrite ?length_drop; lia). done.
Qed.

(** What is left over is shorter than a stripe. *)
Lemma xxh_absorb_rest s p : (length (snd (absorb s p)) < 16)%nat.
Proof.
  remember (length p) as n eqn:Hn. revert s p Hn.
  induction n as [n IH] using lt_wf_ind. intros s p ->. rewrite absorb_unfold.
  destruct (Nat.leb_spec 16 (length p)); [|done].
  eapply IH; [|done]. rewrite length_drop. lia.
Qed.

(** Absorbing data in two parts. *)
Lemma xxh_absorb_app s p q :
  absorb s (p ++ q) = absorb (fst (absorb s p)) (snd (absorb s p) ++ q).
Proof.
  remember (length p) as n eqn:Hn. revert s p Hn.
  induction n as [n IH] using lt_wf_ind. intros s p ->.
  destruct (decide (16 <= length p)%nat) as [Hp|Hp].
  - rewrite (xxh_absorb_long s p), (xxh_absorb_long s (p ++ q)) by (rewrite ?length_app; lia).
    rewrite stripe_app, drop_app_le by lia. eapply IH; [|done]. rewrite length_drop. lia.
  - by rewrite (xxh_absorb_short s p) by lia.
Qed.

(** ** The streaming state *)

(** [st] has absorbed exactly the bytes [data]. *)
Record absorbed (sd : Z) (data : list Z) (st : XXH_state32) : Prop := {
  ab_total : total_len st = Z.of_nat (length data);
  ab_seed : seed st = sd;
  ab_mem : length (memory st) = 16%nat;
  ab_size : 0 <= memsize st < 16;
  ab_state : absorb (init_lanes sd) data =
             (st_lanes st, take (Z.to_nat (memsize st)) (memory st))
}.

Lemma init_absorbed mem sd : length mem = 16%nat -> absorbed sd [] (XXH32_init mem sd).
Proof. intros Hm. split; simpl; done || lia. Qed.

(** The whole stripes of the input and the bytes kept for the next call. *)
Lemma update_rest sd data total s p (mem : list Z) :
  length mem = 16%nat -> total = Z.of_nat (length data) ->
  absorb (init_lanes sd) data = absorb s p ->
  exists st',
    (let '(s, p) := stripes (length p) s p in
     if (0 <? length p)%nat
     then mem ← mem_write mem 0 p; Some (State total sd s (Z.of_nat (length p)) mem)
     else Some (State total sd s 0 mem)) = Some st' /\ absorbed sd data st'.
Proof.
  intros Hm Ht Ha. fold (absorb s p). pose proof (xxh_absorb_rest s p) as Hr.
  destruct (absorb s p) as [s' p']. simpl in Hr.
  destruct (Nat.ltb_spec 0 (length p')) as [Hp|Hp].
  - destruct (mem_write mem 0 p') as [mem'|] eqn:E; [|by rewrite mem_write_Some in E by lia].
    simpl. eexists. split; [done|]. pose proof (mem_write_length _ _ _ _ E).
    split; simpl; try done; try lia. rewrite Ha. f_equal. symmetry.
    apply (take_mem_write mem p' mem' 0); [done|lia].
  - eexists. split; [done|]. destruct p'; [|simpl in Hp; lia].
    split; simpl; try done.
Qed.

Lemma update_absorbed sd data st input :
  absorbed sd data st -> Z.of_nat (length data + length input) < 2 ^ 64 ->
  exists st', XXH32_update st input = Some st' /\ absorbed sd (data ++ input) st'.
Proof.
  intros [Ht Hs Hm Hz Ha] Hlen. unfold XXH32_update. rewrite Hs.
  assert (absorb (init_lanes sd) (data ++ input) =
    absorb (st_lanes st) (take (Z.to_nat (memsize st)) (memory st) ++ input)) as Happ
    by (rewrite xxh_absorb_app, Ha; done).
  rewrite (wrap_small 64) by (unfold uint; lia).
  destruct (Z.ltb_spec (memsize st + Z.of_nat (length input)) 16).
  - destruct (mem_write (memory st) (memsize st) input) as [mem|] eqn:E;
      [|by rewrite mem_write_Some in E by lia].
    simpl. eexists. split; [done|]. pose proof (mem_write_length _ _ _ _ E).
    pose proof (take_mem_write _ _ _ _ E ltac:(lia)) as Htk.
    split; simpl; try done; try lia; [rewrite length_app; lia|]. rewrite Happ, Htk.
    apply xxh_absorb_short. rewrite length_app, length_take. lia.
  - destruct (Z.eqb_spec (memsize st) 0) as [E0|E0]; simpl.
    + apply update_rest; [done|rewrite length_app; lia|]. rewrite Happ, E0. done.
    + set (n := Z.to_nat (16 - memsize st)).
      destruct (mem_write (memory st) (memsize st) (take n input)) as [mem|] eqn:E;
        [|by rewrite mem_write_Some in E by (rewrite ?length_take; lia)].
      simpl. pose proof (mem_write_length _ _ _ _ E).
      pose proof (take_mem_write _ _ _ _ E ltac:(lia)) as Htk.
      rewrite take_ge in Htk by (rewrite length_take; lia).
      apply update_rest; [lia|rewrite length_app; lia|].
      rewrite Happ, <- (take_drop n input) at 1. rewrite (app_assoc _ (take n input)), <- Htk.
      rewrite xxh_absorb_long by (rewrite length_app; lia). rewrite stripe_app by lia.
      by rewrite drop_app_le, drop_ge by lia.
Qed.

Lemma updates_absorbed sd chunks : forall data st,
  absorbed sd data st -> Z.of_nat (length data + length (concat chunks)) < 2 ^ 64 ->
  exists st', foldl (fun o c => o ≫= fun st => XXH32_update st c) (Some st) chunks = Some st' /\
    absorbed sd (data ++ concat chunks) st'.
Proof.
  induction chunks as [|c chunks IH]; intros data st Hst Hlen; simpl.
  { exists st. by rewrite app_nil_r. }
  simpl in Hlen. rewrite length_app in Hlen.
  destruct (update_absorbed sd data st c Hst) as (st1 & -> & Hst1); [lia|].
  destruct (IH (data ++ c) st1 Hst1) as (st' & Hf & Hst'); [rewrite length_app; lia|].
  exists st'. by rewrite app_assoc.
Qed.

Lemma xxhash_streaming_eq mem sd chunks :
  length mem = 16%nat -> Z.of_nat (length (concat chunks)) < 2 ^ 31 ->
  exists st, foldl (fun o c => o ≫= fun st => XXH32_update st c)
               (Some (XXH32_init mem sd)) chunks = Some st /\
    XXH32_digest st = XXH32 (concat chunks) sd.
Proof.
  intros Hm Hlen.
  destruct (updates_absorbed sd chunks [] _ (init_absorbed mem sd Hm)) as (st & Hst & Hab);
    [simpl; lia|].
  exists st. split; [done|]. destruct Hab as [Ht Hs _ Hz Ha]. simpl in *.
  unfold XXH32_digest, XXH32. rewrite Ht, Hs.
  assert (sgn 32 (Z.of_nat (length (concat chunks))) = Z.of_nat (length (concat chunks))) as ->.
  { unfold sgn. rewrite wrap_small by (unfold uint; lia).
    destruct (Z.ltb_spec (Z.of_nat (length (concat chunks))) (2 ^ (32 - 1))); [done|].
    simpl in *. lia. }
  destruct (Z.leb_spec 16 (Z.of_nat (length (concat chunks)))).
  - fold (absorb (init_lanes sd) (concat chunks)). by rewrite Ha.
  - rewrite xxh_absorb_short in Ha by lia. by injection Ha as _ <-.
Qed.

(** Hashing a buffer in pieces gives the one-shot hash of the whole: for
    every split of the data into [XXH32_update] calls the streaming calls
    succeed and [XXH32_digest] returns [XXH32] of the concatenation. *)
Theorem xxhash_streaming mem sd chunks :
  length mem = 16%nat -> Z.of_nat (length (concat chunks)) < 2 ^ 31 ->
  exists st, foldl (fun o c => o ≫= fun st => XXH32_update st c)
               (Some (XXH32_init mem sd)) chunks = Some st /\
    XXH32_digest st = XXH32 (concat chunks) sd.
Proof. exact (xxhash_streaming_eq mem sd chunks). Qed.

Lemma xxhash_streaming_witness :
  exists st, foldl (fun o c => o ≫= fun st => XXH32_update st c)
               (Some (XXH32_init (replicate 16 7) 1)) [[1; 2; 3]; seqZ 0 20; [9]] = Some st /\
    XXH32_digest st = XXH32 (concat [[1; 2; 3]; seqZ 0 20; [9]]) 1.
Proof. apply (xxhash_streaming (replicate 16 7) 1 [[1; 2; 3]; seqZ 0 20; [9]]); [done|vm_compute; done]. Defined.
