(* ===== verification/Digest.v ===== *)
(** * Digest: what the block digests of crc/ share

    [crc/md5.c], [crc/sha1.c], [crc/sha256.c], [crc/sha512.c] and [crc/sha3.c]
    all keep a partial block in a buffer and feed whole blocks to a compression
    function.  [absorb_blocks] is the reference for that: every whole block of
    the message, in order, and the bytes that are left.  The lemmas say how it
    behaves on a message that arrives in pieces and on a buffer that is topped
    up; the digest files prove their update loops against it.

    The unrolled rounds of the C files are rows of a table executed on a
    register file, [rounds]; [rounds_groups] relates them to a reference round
    that rotates its registers instead. *)
From S2P Require Import Prelude.

(** ** Words of a block *)

(** [((uint32_t * ) p)[i]] and [((uint64_t * ) p)[i]] on a little-endian machine, and the same
    words after [__be32_to_cpu], [htonl] or [__be64_to_cpu]. *)
Definition le_word (bytes : nat) (p : list Z) (i : nat) : Z :=
  le_val (take bytes (drop (bytes * i) p)).
Definition be_word (bytes : nat) (p : list Z) (i : nat) : Z :=
  le_val (rev (take bytes (drop (bytes * i) p))).

(** [x] rotated by [n] at width [w]. *)
Definition rotl (w x n : Z) : Z := Z.lor (shl w x n) (Z.shiftr x (w - n)).
Definition rotr (w x n : Z) : Z := Z.lor (Z.shiftr x n) (shl w x (w - n)).

Lemma rotl_uint w x n : 0 <= n <= w -> uint w x -> uint w (rotl w x n).
Proof.
  intros Hn Hx. unfold rotl. apply lor_uint; [lia|by apply shl_uint; lia|by apply shiftr_uint; [lia|]].
Qed.

(** A count of bytes, wrapped at [w] bits and masked to the block. *)
Lemma land_mask_wrap w j n : 0 <= j <= w ->
  Z.land (wrap w (Z.of_nat n)) (2 ^ j - 1) = Z.of_nat (n mod Z.to_nat (2 ^ j)).
Proof.
  intros Hj. rewrite land_pow2_mod, Nat2Z.inj_mod, Z2Nat.id by lia. unfold wrap.
  rewrite <- Znumtheory.Zmod_div_mod; [done|lia..|]. exists (2 ^ (w - j)).
  rewrite <- Z.pow_add_r by lia. f_equal. lia.
Qed.

(** The number of bits of [n] bytes, as the two words the digests store. *)
Lemma bit_count_bytes n :
  le_bytes 8 (8 * Z.of_nat n) =
  le_bytes 4 (u32 (shl 64 (u64 (Z.of_nat n)) 3)) ++ le_bytes 4 (u32 (Z.shiftr (u64 (Z.of_nat n)) 29)).
Proof.
  rewrite (le_bytes_split 4 4), !le_bytes_wrap by lia. unfold shl.
  rewrite le_bytes_wrap by lia. f_equal.
  - rewrite <- (le_bytes_wrap 4 64) by lia. rewrite <- (le_bytes_wrap 4 64 (Z.shiftl _ _)) by lia.
    f_equal. rewrite Z.shiftl_mul_pow2 by lia. unfold wrap. rewrite Zmult_mod_idemp_l. f_equal. lia.
  - rewrite <- (le_bytes_wrap 4 32) by lia. rewrite <- (le_bytes_wrap 4 32 (Z.shiftr (u64 _) _)) by lia.
    f_equal. apply Z.bits_inj'. intros i Hi.
    rewrite !wrap_testbit, !Z.shiftr_spec, wrap_testbit by lia.
    replace (8 * Z.of_nat n) with (Z.shiftl (Z.of_nat n) 3) by (rewrite Z.shiftl_mul_pow2; lia).
    rewrite Z.shiftl_spec by lia. destruct (Z.ltb_spec i 32); [|done].
    rewrite (proj2 (Z.ltb_lt _ _)) by lia. simpl. f_equal. lia.
Qed.

(** ** Whole blocks *)
Section absorb.
  Context {S : Type} (n : nat) (f : S -> list Z -> S).

Fixpoint absorb_loop (fuel : nat) (s : S) (p : list Z) : S * list Z :=
  match fuel with
  | O => (s, p)
  | Datatypes.S fuel =>
      if (n <=? length p)%nat then absorb_loop fuel (f s (take n p)) (drop n p) else (s, p)
  end.

Definition absorb_blocks (s : S) (p : list Z) : S * list Z := absorb_loop (length p) s p.

Hypothesis Hn : (0 < n)%nat.

Lemma absorb_loop_fuel f1 : forall f2 s p,
  (length p <= f1)%nat -> (length p <= f2)%nat -> absorb_loop f1 s p = absorb_loop f2 s p.
Proof.
  induction f1 as [|f1 IH]; intros [|f2] s p H1 H2; cbn [absorb_loop]; try done.
  - destruct (Nat.leb_spec n (length p)); [lia|done].
  - destruct (Nat.leb_spec n (length p)); [lia|done].
  - destruct (Nat.leb_spec n (length p)); [|done]. apply IH; rewrite length_drop; lia.
Qed.

Lemma absorb_short s p : (length p < n)%nat -> absorb_blocks s p = (s, p).
Proof.
  intros Hp. unfold absorb_blocks. destruct (length p) eqn:E; cbn [absorb_loop]; [done|].
  by rewrite E, (proj2 (Nat.leb_gt _ _)) by lia.
Qed.

Lemma absorb_long s p : (n <= length p)%nat ->
  absorb_blocks s p = absorb_blocks (f s (take n p)) (drop n p).
Proof.
  intros Hp. unfold absorb_blocks at 1. destruct (length p) eqn:E; [lia|].
  cbn [absorb_loop]. rewrite E, (proj2 (Nat.leb_le _ _)) by lia.
  apply absorb_loop_fuel; rewrite length_drop; lia.
Qed.

(** Induction on the whole blocks of a message. *)
Lemma blocks_ind (P : list Z -> Prop) :
  (forall p, (length p < n)%nat -> P p) ->
  (forall p, (n <= length p)%nat -> P (drop n p) -> P p) -> forall p, P p.
Proof.
  intros Hs Hl p. remember (length p) as k eqn:Hk. revert p Hk.
  induction k as [k IH] using lt_wf_ind; intros p ->.
  destruct (decide (n <= length p)%nat); [|apply Hs; lia].
  apply Hl; [done|]. eapply IH; [|done]. rewrite length_drop. lia.
Qed.

Lemma absorb_app p : forall s q,
  absorb_blocks s (p ++ q) =
  let '(s', r) := absorb_blocks s p in absorb_blocks s' (r ++ q).
Proof.
  induction p as [p Hp|p Hp IH] using blocks_ind; intros s q.
  - by rewrite (absorb_short s p) by done.
  - rewrite (absorb_long s p), (absorb_long s (p ++ q)) by (rewrite ?length_app; lia).
    by rewrite take_app_le, drop_app_le, IH by done.
Qed.

Lemma absorb_rest p : forall s, length (absorb_blocks s p).2 = (length p mod n)%nat.
Proof.
  induction p as [p Hp|p Hp IH] using blocks_ind; intros s.
  - by rewrite absorb_short, Nat.mod_small by done.
  - rewrite absorb_long, IH, length_drop by done.
    rewrite <- (Nat.Div0.mod_add (length p - n) 1 n). f_equal. lia.
Qed.

Lemma absorb_rest_suffix p : forall s,
  (absorb_blocks s p).2 = drop (length p - length p mod n) p.
Proof.
  induction p as [p Hp|p Hp IH] using blocks_ind; intros s.
  - by rewrite absorb_short, Nat.mod_small, Nat.sub_diag by done.
  - rewrite absorb_long, IH, length_drop, drop_drop by done. f_equal.
    pose proof (Nat.Div0.mod_add (length p - n) 1 n) as Hm.
    replace (length p - n + 1 * n)%nat with (length p) in Hm by lia. rewrite Hm.
    pose proof (Nat.Div0.mod_le (length p - n) n). lia.
Qed.

(** A digest context holds message [msg]: its chaining value is that of the
    whole blocks and its buffer starts with the rest. *)
Record absorbed (s0 : S) (msg : list Z) (s : S) (buf : list Z) : Prop := {
  ab_len : length buf = n;
  ab_eq : absorb_blocks s0 msg = (s, take (length msg mod n) buf);
}.

Lemma absorbed_nil s0 buf : length buf = n -> absorbed s0 [] s0 buf.
Proof. intros Hb. split; [done|]. by rewrite Nat.Div0.mod_0_l, take_0, absorb_short. Qed.

(** The two ways an update ends: the data fit in the buffer, or the buffer is
    completed and compressed and the rest is absorbed from the data. *)
Lemma absorbed_app s0 msg s buf data : absorbed s0 msg s buf ->
  absorb_blocks s0 (msg ++ data) =
  let k := (length msg mod n)%nat in
  if (length data <? n - k)%nat then (s, take k buf ++ data)
  else absorb_blocks (f s (take k buf ++ take (n - k) data)) (drop (n - k) data).
Proof.
  intros [Hlen Habs]. rewrite absorb_app, Habs. cbn zeta.
  pose proof (Nat.mod_upper_bound (length msg) n ltac:(lia)) as Hk.
  set (k := (length msg mod n)%nat) in *.
  assert (Ht : length (take k buf) = k) by (rewrite length_take; lia).
  destruct (Nat.ltb_spec (length data) (n - k)).
  - apply absorb_short. rewrite length_app. lia.
  - rewrite absorb_long by (rewrite length_app; lia).
    by rewrite take_app_ge, drop_app_ge, Ht by lia.
Qed.

(** Restoring the record from the two parts of an update's result. *)
Lemma absorbed_intro s0 msg s buf r :
  absorb_blocks s0 msg = (s, r) -> length buf = n -> take (length r) buf = r ->
  absorbed s0 msg s buf.
Proof.
  intros He Hl Ht. split; [done|]. pose proof (absorb_rest msg s0) as Hr.
  rewrite He in Hr. simpl in Hr. by rewrite He, <- Hr, Ht.
Qed.
End absorb.

Lemma absorb_blocks_ext {S} n (f g : S -> list Z -> S) (I : S -> Prop) p :
  (0 < n)%nat -> (forall s b, I s -> f s b = g s b /\ I (f s b)) ->
  forall s, I s -> absorb_blocks n f s p = absorb_blocks n g s p.
Proof.
  intros Hn Hfg. induction p as [p Hp|p Hp IH] using (blocks_ind n Hn); intros s Hs.
  - by rewrite !absorb_short by done.
  - destruct (Hfg s (take n p) Hs) as [E HI].
    rewrite !(absorb_long n _ Hn s p), <- E by done. by apply IH.
Qed.

Lemma absorb_blocks_inv {S} n (f : S -> list Z -> S) (I : S -> Prop) p :
  (0 < n)%nat -> (forall s b, I s -> I (f s b)) -> forall s, I s -> I (absorb_blocks n f s p).1.
Proof.
  intros Hn Hf. induction p as [p Hp|p Hp IH] using (blocks_ind n Hn); intros s Hs.
  - by rewrite absorb_short.
  - rewrite absorb_long by done. by apply IH, Hf.
Qed.

(** ** A message in pieces *)
Definition updates {C} (upd : C -> list Z -> option C) (c : C) (chunks : list (list Z)) : option C :=
  foldl (fun oc data => c ← oc; upd c data) (Some c) chunks.

Lemma updates_hold {C} (upd : C -> list Z -> option C) (holds : list Z -> C -> Prop) :
  (forall msg c data, holds msg c -> exists c', upd c data = Some c' /\ holds (msg ++ data) c') ->
  forall chunks msg c, holds msg c ->
  exists c', updates upd c chunks = Some c' /\ holds (msg ++ concat chunks) c'.
Proof.
  intros Hupd. unfold updates. induction chunks as [|data chunks IH]; intros msg c Hc.
  - exists c. by rewrite app_nil_r.
  - cbn [foldl concat]. destruct (Hupd msg c data Hc) as (c1&E&Hc1). cbn [mbind option_bind].
    rewrite E. destruct (IH _ _ Hc1) as (c'&->&Hc'). exists c'. by rewrite app_assoc.
Qed.

(** ** Filling a block from its start *)

(** The block starts with [pre]. *)
Definition fills (b pre : list Z) : Prop := take (length pre) b = pre.

Lemma fills_all b pre : fills b pre -> length b = length pre -> b = pre.
Proof. unfold fills. intros H E. by rewrite <- H, take_ge by lia. Qed.

Lemma fills_write b pre src k : fills b pre -> k = Z.of_nat (length pre) ->
  (length pre + length src <= length b)%nat ->
  exists b', mem_write b k src = Some b' /\ length b' = length b /\ fills b' (pre ++ src).
Proof.
  intros Hf -> Hl. rewrite mem_write_eq by lia. eexists. split; [done|]. split.
  - rewrite !length_app, length_take, length_drop. lia.
  - unfold fills in *. rewrite Hf, app_assoc, take_app_le, take_ge; [done|..]; rewrite ?length_app; lia.
Qed.

(** The next write of a block that is filled in order: [H] says how far it is. *)
Ltac len_solve :=
  rewrite ?length_app, ?length_replicate, ?length_take, ?length_drop, ?length_le_bytes;
  cbn [length]; lia.

Ltac fill_next H :=
  match goal with
  | |- context [mem_write ?b ?k ?src] =>
      let b' := fresh "b" in let E := fresh "E" in let Hl := fresh "Hl" in let Hf := fresh "Hf" in
      destruct (fills_write b _ src k H) as (b'&E&Hl&Hf); [len_solve|len_solve|];
      rewrite E; cbn [mbind option_bind]; clear H E; rename Hf into H
  end.

Lemma fills_write0 b src : (length src <= length b)%nat ->
  exists b', mem_write b 0 src = Some b' /\ length b' = length b /\ fills b' src.
Proof. intros Hl. by apply (fills_write b [] src 0). Qed.

Lemma absorbed_fills {S} n (f : S -> list Z -> S) s0 msg s buf :
  (0 < n)%nat -> absorbed n f s0 msg s buf ->
  fills buf (take (length msg mod n) buf) /\
  length (take (length msg mod n) buf) = (length msg mod n)%nat.
Proof.
  intros Hn [Hl _]. pose proof (Nat.mod_upper_bound (length msg) n ltac:(lia)).
  assert (Ht : length (take (length msg mod n) buf) = (length msg mod n)%nat)
    by (rewrite length_take; lia).
  unfold fills. by rewrite Ht.
Qed.

(** ** The update of sha256.c and sha3.c

    The two functions have the same text but for the block size [n] and where
    they keep the number [partial] of buffered bytes.  All counters are 32 bits
    wide; [done] starts at [-partial]. *)
Section block_update.
  Context {S : Type} (n : nat) (f : S -> list Z -> S).
  Local Notation N := (Z.of_nat n).

(** [do { f(src); done += n; src = data + done; } while (done + (n - 1) < len)]. *)
Fixpoint do_blocks (fuel : nat) (st : S) (src data : list Z) (done : Z) : option (S * list Z * Z) :=
  match fuel with
  | O => None
  | Datatypes.S fuel =>
      blk ← mem_read src 0 N;
      let st := f st blk in
      let done := u32 (done + N) in
      let src := drop (Z.to_nat done) data in
      if u32 (done + (N - 1)) <? Z.of_nat (length data) then do_blocks fuel st src data done
      else Some (st, src, done)
  end.

Definition block_update (st : S) (buf : list Z) (partial : Z) (data : list Z) :
    option (S * list Z * Z) :=
  let len := Z.of_nat (length data) in
  '(st, b, src, done, partial) ←
    (if N - 1 <? u32 (partial + len) then
       '(b, src, done) ←
         (if negb (partial =? 0) then
            let done := u32 (- partial) in
            head ← mem_read data 0 (u32 (done + N));
            b ← mem_write buf partial head;
            Some (b, b, done)
          else Some (buf, data, 0));
       '(st, src, done) ← do_blocks (Datatypes.S (length data)) st src data done;
       Some (st, b, src, done, 0)
     else Some (st, buf, data, 0, partial));
  tail ← mem_read src 0 (u32 (len - done));
  b ← mem_write b partial tail;
  Some (st, b, u32 (partial + u32 (len - done))).

Hypothesis Hn : (0 < n)%nat.

(** Where the [do] loop goes after a block. *)
Definition next_blocks fuel st data done : option (S * list Z * Z) :=
  if u32 (done + (N - 1)) <? Z.of_nat (length data)
  then do_blocks fuel st (drop (Z.to_nat done) data) data done
  else Some (st, drop (Z.to_nat done) data, done).

Lemma do_blocks_S fuel st src data done : (n <= length src)%nat ->
  do_blocks (Datatypes.S fuel) st src data done =
  next_blocks fuel (f st (take n src)) data (u32 (done + N)).
Proof. intros Hs. cbn [do_blocks]. by rewrite mem_read_Some, Nat2Z.id by lia. Qed.

Lemma next_blocks_absorb fuel : forall st data done,
  Z.of_nat (length data) + N <= 2 ^ 32 -> 0 <= done <= Z.of_nat (length data) ->
  Z.of_nat (length data) - done <= Z.of_nat fuel ->
  let a := absorb_blocks n f st (drop (Z.to_nat done) data) in
  next_blocks fuel st data done =
    Some (a.1, a.2, Z.of_nat (length data) - Z.of_nat (length a.2)) /\
  Z.of_nat (length a.2) <= Z.of_nat (length data).
Proof.
  induction fuel as [|fuel IH]; intros st data done Hlen Hd Hf a; unfold next_blocks;
    rewrite (wrap_small 32 (done + (N - 1))) by (unfold uint; lia).
  all: destruct (Z.ltb_spec (done + (N - 1)) (Z.of_nat (length data))); try lia.
  2: { rewrite do_blocks_S by (rewrite length_drop; lia).
       rewrite (wrap_small 32 (done + N)) by (unfold uint; lia).
       pose proof (IH (f st (take n (drop (Z.to_nat done) data))) data (done + N)
         Hlen ltac:(lia) ltac:(lia)) as Hnx.
       unfold a. rewrite absorb_long by (rewrite ?length_drop; lia). rewrite drop_drop.
       replace (Z.to_nat done + n)%nat with (Z.to_nat (done + N)) by lia. exact Hnx. }
  all: unfold a; rewrite absorb_short by (rewrite ?length_drop; lia); cbn [fst snd].
  all: rewrite length_drop; split; [do 2 f_equal|]; lia.
Qed.

(** The block that is completed first, and where the loop goes from there. *)
Lemma first_block (b0 data : list Z) k :
  (n <= length b0)%nat -> (k < n)%nat -> (n - k <= length data)%nat -> N <= 2 ^ 31 ->
  exists b src done0,
    (if negb (Z.of_nat k =? 0)
     then (head ← mem_read data 0 (u32 (u32 (- Z.of_nat k) + N));
           b ← mem_write b0 (Z.of_nat k) head; Some (b, b, u32 (- Z.of_nat k)))
     else Some (b0, data, 0)) = Some (b, src, done0) /\ length b = length b0 /\
    (n <= length src)%nat /\ take n src = take k b0 ++ take (n - k) data /\
    (k <> 0%nat -> src = b) /\
    u32 (done0 + N) = N - Z.of_nat k.
Proof.
  intros Hb Hkn Hlen HN. destruct (Z.eqb_spec (Z.of_nat k) 0) as [Hk|Hk]; cbn [negb].
  - assert (k = 0%nat) as -> by lia. exists b0, data, 0.
    rewrite take_0, Nat.sub_0_r, Z.add_0_l, wrap_small by (unfold uint; lia).
    repeat split; done || lia.
  - assert (Hd : u32 (u32 (- Z.of_nat k) + N) = N - Z.of_nat k)
      by (rewrite wrap_add_l, wrap_small; unfold uint; lia).
    rewrite Hd, mem_read_Some, drop_0 by lia.
    replace (Z.to_nat (N - Z.of_nat k)) with (n - k)%nat by lia. cbn [mbind option_bind].
    assert (Hf : fills b0 (take k b0)) by (unfold fills; by rewrite length_take, Nat.min_l by lia).
    fill_next Hf. unfold fills in Hf.
    replace (length (take k b0 ++ take (n - k) data)) with n in Hf by len_solve.
    exists b, b, (u32 (- Z.of_nat k)). repeat split; done || lia.
Qed.

Lemma block_update_absorb s0 msg st buf data (k := (length msg mod n)%nat) :
  absorbed n f s0 msg st (take n buf) -> (n <= length buf)%nat ->
  Z.of_nat (length data) + N <= 2 ^ 32 -> N <= 2 ^ 31 ->
  exists st' buf', block_update st buf (Z.of_nat k) data =
      Some (st', buf', Z.of_nat (length (msg ++ data) mod n)) /\
    absorbed n f s0 (msg ++ data) st' (take n buf') /\ length buf' = length buf /\
    (k <> 0%nat -> (k + length data = n)%nat -> take n buf' = take k buf ++ data).
Proof.
  intros Ha Hbl Hlen HN.
  pose proof (absorbed_app n _ Hn _ _ _ _ data Ha) as Happ. cbn zeta in Happ.
  pose proof (Nat.mod_upper_bound (length msg) n ltac:(lia)) as Hkn. fold k in Happ, Hkn.
  rewrite take_take, Nat.min_l in Happ by lia.
  pose proof (absorb_rest n f Hn (msg ++ data) s0) as Hmod.
  unfold block_update. rewrite (wrap_small 32 (Z.of_nat k + _)) by (unfold uint; lia).
  destruct (Nat.ltb_spec (length data) (n - k)).
  - rewrite (proj2 (Z.ltb_ge _ _)) by lia. cbn [mbind option_bind].
    rewrite Z.sub_0_r, (wrap_small 32 (Z.of_nat (length data))), mem_read_Some, Nat2Z.id, drop_0, take_ge
      by (unfold uint; lia).
    cbn [mbind option_bind].
    assert (Hf : fills buf (take k buf)) by (unfold fills; by rewrite length_take, Nat.min_l by lia).
    fill_next Hf. rewrite Happ in Hmod. cbn [snd] in Hmod. rewrite length_app, length_take in Hmod.
    rewrite wrap_small by (unfold uint; lia). rewrite <- Nat2Z.inj_add.
    replace (k + length data)%nat with (length (msg ++ data) mod n)%nat by lia.
    do 2 eexists. split; [done|]. split; [|split; [done|lia]].
    eapply absorbed_intro; [done|exact Happ|len_solve|].
    unfold fills in Hf. rewrite take_take, Nat.min_l by len_solve. done.
  - rewrite (proj2 (Z.ltb_lt _ _)) by lia.
    destruct (first_block buf data k) as (b&src&done0&->&Hb&Hsrc&Hblk&Hsb&Hdone); [lia..|].
    cbn [mbind option_bind]. rewrite do_blocks_S, Hblk, Hdone by done.
    destruct (next_blocks_absorb (length data) (f st (take k buf ++ take (n - k) data)) data
      (N - Z.of_nat k)) as [-> Hr]; [lia..|].
    replace (Z.to_nat (N - Z.of_nat k)) with (n - k)%nat in * by lia. rewrite Happ in Hmod.
    pose proof (Nat.mod_upper_bound (length (msg ++ data)) n ltac:(lia)).
    destruct (absorb_blocks n f _ (drop (n - k) data)) as [st' r'] eqn:Er. cbn [fst snd] in *.
    cbn [mbind option_bind].
    replace (Z.of_nat (length data) - (Z.of_nat (length data) - Z.of_nat (length r')))
      with (Z.of_nat (length r')) by lia.
    rewrite (wrap_small 32 (Z.of_nat (length r'))), mem_read_Some, drop_0, Nat2Z.id, take_ge
      by (unfold uint; lia).
    cbn [mbind option_bind]. rewrite Z.add_0_l, wrap_small, Hmod by (unfold uint; lia).
    destruct (fills_write0 b r') as (b'&Ew&Hl&Hfill); [lia|]. rewrite Ew. cbn [mbind option_bind].
    do 2 eexists. split; [done|]. split; [|split; [lia|]].
    + eapply absorbed_intro; [done|exact Happ|len_solve|].
      unfold fills in Hfill. rewrite take_take, Nat.min_l by len_solve. done.
    + intros Hk0 Hkl. rewrite drop_ge, absorb_short in Er by (simpl; lia). injection Er as _ <-.
      change (mem_write b 0) with (mem_write b (Z.of_nat 0)) in Ew.
      rewrite mem_write_eq in Ew by (simpl; lia). injection Ew as <-. cbn [length Nat.add app].
      rewrite Hsb in Hblk by done. rewrite (take_ge data) in Hblk by lia. exact Hblk.
Qed.
End block_update.

(** ** Message schedules: an array filled in order, each entry from the earlier ones *)
Fixpoint extend (F : list Z -> Z) (n : nat) (l : list Z) : list Z :=
  match n with
  | O => l
  | S n => extend F n (l ++ [F l])
  end.

Lemma extend_length F n : forall l, length (extend F n l) = (length l + n)%nat.
Proof. induction n as [|n IH]; intros l; simpl; [lia|]. rewrite IH, length_app. simpl. lia. Qed.

Lemma extend_take F n : forall l, take (length l) (extend F n l) = l.
Proof.
  induction n as [|n IH]; intros l; simpl; [by rewrite take_ge|].
  specialize (IH (l ++ [F l])). rewrite length_app in IH. simpl in IH.
  transitivity (take (length l) (take (length l + 1) (extend F n (l ++ [F l])))).
  - rewrite take_take. f_equal. lia.
  - rewrite IH, take_app_le, take_ge; done || lia.
Qed.

Lemma extend_old F n l i : (i < length l)%nat -> extend F n l !!! i = l !!! i.
Proof.
  intros Hi. rewrite <- (extend_take F n l) at 2. by rewrite lookup_total_take_lt.
Qed.

Lemma extend_new F n : forall l j, (length l <= j < length l + n)%nat ->
  extend F n l !!! j = F (take j (extend F n l)).
Proof.
  induction n as [|n IH]; intros l j Hj; [lia|]. cbn [extend].
  destruct (decide (j = length l)) as [->|].
  - rewrite extend_old by (rewrite length_app; simpl; lia).
    rewrite lookup_total_app_r, Nat.sub_diag by lia. simpl. f_equal.
    pose proof (extend_take F n (l ++ [F l])) as Ht. rewrite length_app in Ht. simpl in Ht.
    transitivity (take (length l) (take (length l + 1) (extend F n (l ++ [F l])))).
    + by rewrite Ht, take_app_le, take_ge by lia.
    + rewrite take_take. f_equal. lia.
  - apply IH. rewrite length_app. simpl. lia.
Qed.

(** ** Rows of rounds on a register file *)
Definition rounds {R} (exec : list Z -> R -> list Z) (rows : list R) (r : list Z) : list Z :=
  fold_left exec rows r.

(** If each group of rows does to the registers what [g] does, the whole table
    does what the iterated [g] does. *)
Lemma rounds_groups {R} (exec : list Z -> R -> list Z) (grp : nat -> list R)
    (g : nat -> list Z -> list Z) (ok : list Z -> Prop) idx :
  (forall i r, ok r -> rounds exec (grp i) r = g i r /\ ok (g i r)) ->
  forall r, ok r ->
  rounds exec (concat (map grp idx)) r = fold_left (fun r i => g i r) idx r /\
  ok (fold_left (fun r i => g i r) idx r).
Proof.
  intros Hg. unfold rounds. induction idx as [|i idx IH]; intros r Hr; [done|].
  cbn [map concat fold_left]. rewrite fold_left_app. destruct (Hg i r Hr) as [E Hok].
  unfold rounds in E. rewrite E. by apply IH.
Qed.

Lemma fold_left_groups {A} (F : A -> nat -> A) (k n : nat) : forall r s,
  fold_left (fun r g => fold_left F (seq (k * g) k) r) (seq s n) r = fold_left F (seq (k * s) (k * n)) r.
Proof.
  induction n as [|n IH]; intros r s; [by rewrite Nat.mul_0_r|].
  cbn [seq fold_left]. rewrite IH, <- fold_left_app. f_equal.
  replace (k * S n)%nat with (k + k * n)%nat by lia. rewrite seq_app. do 2 f_equal. lia.
Qed.

(** A register file of [k] words of [w] bits, and the feed-forward at the end
    of a compression. *)
Definition reg_ok (w : Z) (k : nat) (r : list Z) : Prop := length r = k /\ Forall (uint w) r.

Definition add_regs (w : Z) (h r : list Z) : list Z := zip_with (fun h r => wrap w (h + r)) h r.

Lemma add_regs_ok w k h r : 0 <= w -> reg_ok w k h -> reg_ok w k r -> reg_ok w k (add_regs w h r).
Proof.
  intros Hw [Hh _] [Hr _]. unfold add_regs. split; [rewrite length_zip_with; lia|].
  apply list.Forall_forall. intros x Hx. apply elem_of_lookup_zip_with in Hx as (i&a&b&->&_&_).
  by apply wrap_uint.
Qed.

(** Compression by a table of rounds is compression by the reference rounds it
    is grouped into. *)
Lemma rounds_ref {R} (exec : list Z -> R -> list Z) rows grp (F : list Z -> nat -> list Z)
    w k (m : nat) h :
  rows = concat (map grp (seq 0 m)) ->
  (forall g r, reg_ok w k r -> rounds exec (grp g) r = fold_left F (seq (k * g) k) r /\
     reg_ok w k (fold_left F (seq (k * g) k) r)) ->
  reg_ok w k h ->
  rounds exec rows h = fold_left F (seq 0 (k * m)) h /\ reg_ok w k (rounds exec rows h).
Proof.
  intros -> Hg Hh.
  destruct (rounds_groups exec grp (fun g r => fold_left F (seq (k * g) k) r) (reg_ok w k)
    (seq 0 m) Hg h Hh) as [-> Hok].
  by rewrite fold_left_groups, Nat.mul_0_r in *.
Qed.
