(* ===== verification/Md5.v ===== *)
(** * Md5: the MD5 digest of crc/md5.c

    The context, [md5_transform] as the table of its 64 [MD5STEP] lines, and
    [fio_md5_init], [fio_md5_update] and [fio_md5_final].  The block is the 64
    bytes of [mctx->block]; [in[k]] is its [k]-th little-endian word.  The
    reference is the algorithm of RFC 1321: rotating registers, the index
    formulas of the four rounds, and the padded message. *)
From S2P Require Import Prelude Digest.

(** ** The code *)
Inductive md5_fn := F1 | F2 | F3 | F4.

Definition md5_f (f : md5_fn) (x y z : Z) : Z :=
  let f1 x y z := Z.lxor z (Z.land x (Z.lxor y z)) in
  match f with
  | F1 => f1 x y z
  | F2 => f1 z x y
  | F3 => Z.lxor (Z.lxor x y) z
  | F4 => Z.lxor y (Z.lor x (bnot 32 z))
  end.

(** A line of the transform: the registers [w x y z] by number, the input word,
    the constant and the shift. *)
Record md5_row := MD5STEP {
  row_f : md5_fn; row_w : nat; row_x : nat; row_y : nat; row_z : nat;
  row_in : nat; row_k : Z; row_s : Z
}.

(** [w += f(x, y, z) + in, w = (w << s | w >> (32 - s)) + x]. *)
Definition md5_step (inb : list Z) (r : list Z) (row : md5_row) : list Z :=
  let x := r !!! row_x row in
  let w := u32 (r !!! row_w row + (md5_f (row_f row) x (r !!! row_y row) (r !!! row_z row) +
             u32 (le_word 4 inb (row_in row) + row_k row))) in
  <[row_w row := u32 (rotl 32 w (row_s row) + x)]> r.

Definition md5_rows : list md5_row :=
  let a := 0%nat in let b := 1%nat in let c := 2%nat in let d := 3%nat in
  [MD5STEP F1 a b c d 0 0xd76aa478 7;
   MD5STEP F1 d a b c 1 0xe8c7b756 12;
   MD5STEP F1 c d a b 2 0x242070db 17;
   MD5STEP F1 b c d a 3 0xc1bdceee 22;
   MD5STEP F1 a b c d 4 0xf57c0faf 7;
   MD5STEP F1 d a b c 5 0x4787c62a 12;
   MD5STEP F1 c d a b 6 0xa8304613 17;
   MD5STEP F1 b c d a 7 0xfd469501 22;
   MD5STEP F1 a b c d 8 0x698098d8 7;
   MD5STEP F1 d a b c 9 0x8b44f7af 12;
   MD5STEP F1 c d a b 10 0xffff5bb1 17;
   MD5STEP F1 b c d a 11 0x895cd7be 22;
   MD5STEP F1 a b c d 12 0x6b901122 7;
   MD5STEP F1 d a b c 13 0xfd987193 12;
   MD5STEP F1 c d a b 14 0xa679438e 17;
   MD5STEP F1 b c d a 15 0x49b40821 22;
   MD5STEP F2 a b c d 1 0xf61e2562 5;
   MD5STEP F2 d a b c 6 0xc040b340 9;
   MD5STEP F2 c d a b 11 0x265e5a51 14;
   MD5STEP F2 b c d a 0 0xe9b6c7aa 20;
   MD5STEP F2 a b c d 5 0xd62f105d 5;
   MD5STEP F2 d a b c 10 0x02441453 9;
   MD5STEP F2 c d a b 15 0xd8a1e681 14;
   MD5STEP F2 b c d a 4 0xe7d3fbc8 20;
   MD5STEP F2 a b c d 9 0x21e1cde6 5;
   MD5STEP F2 d a b c 14 0xc33707d6 9;
   MD5STEP F2 c d a b 3 0xf4d50d87 14;
   MD5STEP F2 b c d a 8 0x455a14ed 20;
   MD5STEP F2 a b c d 13 0xa9e3e905 5;
   MD5STEP F2 d a b c 2 0xfcefa3f8 9;
   MD5STEP F2 c d a b 7 0x676f02d9 14;
   MD5STEP F2 b c d a 12 0x8d2a4c8a 20;
   MD5STEP F3 a b c d 5 0xfffa3942 4;
   MD5STEP F3 d a b c 8 0x8771f681 11;
   MD5STEP F3 c d a b 11 0x6d9d6122 16;
   MD5STEP F3 b c d a 14 0xfde5380c 23;
   MD5STEP F3 a b c d 1 0xa4beea44 4;
   MD5STEP F3 d a b c 4 0x4bdecfa9 11;
   MD5STEP F3 c d a b 7 0xf6bb4b60 16;
   MD5STEP F3 b c d a 10 0xbebfbc70 23;
   MD5STEP F3 a b c d 13 0x289b7ec6 4;
   MD5STEP F3 d a b c 0 0xeaa127fa 11;
   MD5STEP F3 c d a b 3 0xd4ef3085 16;
   MD5STEP F3 b c d a 6 0x04881d05 23;
   MD5STEP F3 a b c d 9 0xd9d4d039 4;
   MD5STEP F3 d a b c 12 0xe6db99e5 11;
   MD5STEP F3 c d a b 15 0x1fa27cf8 16;
   MD5STEP F3 b c d a 2 0xc4ac5665 23;
   MD5STEP F4 a b c d 0 0xf4292244 6;
   MD5STEP F4 d a b c 7 0x432aff97 10;
   MD5STEP F4 c d a b 14 0xab9423a7 15;
   MD5STEP F4 b c d a 5 0xfc93a039 21;
   MD5STEP F4 a b c d 12 0x655b59c3 6;
   MD5STEP F4 d a b c 3 0x8f0ccc92 10;
   MD5STEP F4 c d a b 10 0xffeff47d 15;
   MD5STEP F4 b c d a 1 0x85845dd1 21;
   MD5STEP F4 a b c d 8 0x6fa87e4f 6;
   MD5STEP F4 d a b c 15 0xfe2ce6e0 10;
   MD5STEP F4 c d a b 6 0xa3014314 15;
   MD5STEP F4 b c d a 13 0x4e0811a1 21;
   MD5STEP F4 a b c d 4 0xf7537e82 6;
   MD5STEP F4 d a b c 11 0xbd3af235 10;
   MD5STEP F4 c d a b 2 0x2ad7d2bb 15;
   MD5STEP F4 b c d a 9 0xeb86d391 21].

Definition md5_transform (hash inb : list Z) : list Z :=
  add_regs 32 hash (rounds (md5_step inb) md5_rows hash).

Record fio_md5_ctx := Ctx { hash : list Z; block : list Z; byte_count : Z }.

(** [fio_md5_init] sets the hash; the callers' initialiser has cleared the rest
    of the context. *)
Definition fio_md5_init (mctx : fio_md5_ctx) : fio_md5_ctx :=
  Ctx [0x67452301; 0xefcdab89; 0x98badcfe; 0x10325476] (block mctx) (byte_count mctx).

Definition md5_zero : fio_md5_ctx := Ctx (replicate 4 0) (replicate 64 0) 0.

(** [while (len >= sizeof(mctx->block))], then the final [memcpy]. *)
Fixpoint md5_blocks (fuel : nat) (h b data : list Z) : option (list Z * list Z) :=
  if (64 <=? length data)%nat then
    match fuel with
    | O => None
    | S fuel =>
        b ← mem_write b 0 (take 64 data);
        md5_blocks fuel (md5_transform h b) b (drop 64 data)
    end
  else b ← mem_write b 0 data; Some (h, b).

Definition fio_md5_update (mctx : fio_md5_ctx) (data : list Z) : option fio_md5_ctx :=
  let len := Z.of_nat (length data) in
  let avail := 64 - Z.land (byte_count mctx) 0x3f in
  let bc := u64 (byte_count mctx + len) in
  if len <? avail then
    b ← mem_write (block mctx) (64 - avail) data; Some (Ctx (hash mctx) b bc)
  else
    b ← mem_write (block mctx) (64 - avail) (take (Z.to_nat avail) data);
    '(h, b) ← md5_blocks (length data) (md5_transform (hash mctx) b) b (drop (Z.to_nat avail) data);
    Some (Ctx h b bc).

Definition fio_md5_final (mctx : fio_md5_ctx) : option fio_md5_ctx :=
  let bc := byte_count mctx in
  let offset := Z.land bc 0x3f in
  let padding := 56 - (offset + 1) in
  b ← mem_write (block mctx) offset [0x80];
  '(h, b, p, padding) ←
    (if padding <? 0 then
       b ← mem_write b (offset + 1) (replicate (Z.to_nat (padding + 8)) 0);
       Some (md5_transform (hash mctx) b, b, 0, 56)
     else Some (hash mctx, b, offset + 1, padding));
  b ← mem_write b p (replicate (Z.to_nat padding) 0);
  b ← mem_write b (4 * 14) (le_bytes 4 (u32 (shl 64 bc 3)));
  b ← mem_write b (4 * 15) (le_bytes 4 (u32 (Z.shiftr bc 29)));
  Some (Ctx (md5_transform h b) b bc).

(** The digest of a message that arrives in pieces, as [verify.c] computes it. *)
Definition fio_md5 (chunks : list (list Z)) : option (list Z) :=
  c ← updates fio_md5_update (fio_md5_init md5_zero) chunks;
  c ← fio_md5_final c; Some (hash c).

(** ** The reference: RFC 1321 *)
Definition md5_K : list Z :=
  [0xd76aa478; 0xe8c7b756; 0x242070db; 0xc1bdceee;
   0xf57c0faf; 0x4787c62a; 0xa8304613; 0xfd469501;
   0x698098d8; 0x8b44f7af; 0xffff5bb1; 0x895cd7be;
   0x6b901122; 0xfd987193; 0xa679438e; 0x49b40821;
   0xf61e2562; 0xc040b340; 0x265e5a51; 0xe9b6c7aa;
   0xd62f105d; 0x02441453; 0xd8a1e681; 0xe7d3fbc8;
   0x21e1cde6; 0xc33707d6; 0xf4d50d87; 0x455a14ed;
   0xa9e3e905; 0xfcefa3f8; 0x676f02d9; 0x8d2a4c8a;
   0xfffa3942; 0x8771f681; 0x6d9d6122; 0xfde5380c;
   0xa4beea44; 0x4bdecfa9; 0xf6bb4b60; 0xbebfbc70;
   0x289b7ec6; 0xeaa127fa; 0xd4ef3085; 0x04881d05;
   0xd9d4d039; 0xe6db99e5; 0x1fa27cf8; 0xc4ac5665;
   0xf4292244; 0x432aff97; 0xab9423a7; 0xfc93a039;
   0x655b59c3; 0x8f0ccc92; 0xffeff47d; 0x85845dd1;
   0x6fa87e4f; 0xfe2ce6e0; 0xa3014314; 0x4e0811a1;
   0xf7537e82; 0xbd3af235; 0x2ad7d2bb; 0xeb86d391].

Definition md5_shift (i : nat) : Z :=
  ([[7; 12; 17; 22]; [5; 9; 14; 20]; [4; 11; 16; 23]; [6; 10; 15; 21]] !!! (i / 16)%nat) !!! (i mod 4)%nat.

Definition md5_index (i : nat) : nat :=
  match (i / 16)%nat with
  | 0%nat => i | 1%nat => 5 * i + 1 | 2%nat => 3 * i + 5 | _ => 7 * i
  end%nat mod 16.

Definition md5_mix (i : nat) (x y z : Z) : Z :=
  match (i / 16)%nat with
  | 0%nat => Z.lor (Z.land x y) (Z.land (bnot 32 x) z)
  | 1%nat => Z.lor (Z.land x z) (Z.land y (bnot 32 z))
  | 2%nat => Z.lxor (Z.lxor x y) z
  | _ => Z.lxor y (Z.lor x (bnot 32 z))
  end.

Definition md5_ref_step (inb r : list Z) (i : nat) : list Z :=
  match r with
  | [a; b; c; d] =>
      [d; u32 (b + rotl 32 (u32 (a + md5_mix i b c d + le_word 4 inb (md5_index i) + md5_K !!! i))
                     (md5_shift i)); b; c]
  | _ => r
  end.

Definition md5_ref_block (h inb : list Z) : list Z :=
  add_regs 32 h (fold_left (md5_ref_step inb) (seq 0 64) h).

(** The bit [1], zeroes up to 56 modulo 64, the number of bits. *)
Definition md5_pad (len : nat) : list Z :=
  [0x80] ++ replicate (Z.to_nat ((55 - Z.of_nat len) mod 64)) 0 ++ le_bytes 8 (8 * Z.of_nat len).

(** The words A, B, C and D of the RFC, low-order bytes first. *)
Definition md5_iv : list Z := [le_val [0x01; 0x23; 0x45; 0x67]; le_val [0x89; 0xab; 0xcd; 0xef]; le_val [0xfe; 0xdc; 0xba; 0x98]; le_val [0x76; 0x54; 0x32; 0x10]].

Definition md5_ref (msg : list Z) : list Z :=
  (absorb_blocks 64 md5_ref_block md5_iv (msg ++ md5_pad (length msg))).1.

(** ** The rounds *)
Definition md5_fn_of (i : nat) : md5_fn :=
  match (i / 16)%nat with 0%nat => F1 | 1%nat => F2 | 2%nat => F3 | _ => F4 end.

Lemma md5_f_mix i x y z : uint 32 x -> uint 32 y -> uint 32 z ->
  md5_f (md5_fn_of i) x y z = md5_mix i x y z.
Proof.
  intros Hx Hy Hz. unfold md5_mix, md5_fn_of.
  destruct (i / 16)%nat as [|[|[|n]]]; simpl; try done; bits_table 32.
Qed.

(** The rows of the table, four by four. *)
Definition md5_group (g : nat) : list md5_row :=
  let f i w x y z := MD5STEP (md5_fn_of i) w x y z (md5_index i) (md5_K !!! i) (md5_shift i) in
  let i := (4 * g)%nat in
  [f i 0 1 2 3; f (S i) 3 0 1 2; f (S (S i)) 2 3 0 1; f (S (S (S i))) 1 2 3 0]%nat.

Lemma md5_rows_groups : md5_rows = concat (map md5_group (seq 0 16)).
Proof. vm_compute. reflexivity. Qed.

Lemma md5_step_ref a b c d i w : uint 32 b -> uint 32 c -> uint 32 d ->
  u32 (rotl 32 (u32 (a + (md5_f (md5_fn_of i) b c d + u32 (w + md5_K !!! i)))) (md5_shift i) + b) =
  u32 (b + rotl 32 (u32 (a + md5_mix i b c d + w + md5_K !!! i)) (md5_shift i)).
Proof.
  intros Hb Hc Hd. rewrite md5_f_mix, Z.add_comm by done. do 3 f_equal.
  rewrite Z.add_assoc, wrap_add_r by lia. f_equal. lia.
Qed.

Lemma md5_group_ref inb g r : reg_ok 32 4 r ->
  rounds (md5_step inb) (md5_group g) r = fold_left (md5_ref_step inb) (seq (4 * g) 4) r /\
  reg_ok 32 4 (fold_left (md5_ref_step inb) (seq (4 * g) 4) r).
Proof.
  intros [Hl Hr]. destruct r as [|a [|b [|c [|d [|? ?]]]]]; try done.
  rewrite !Forall_cons_iff in Hr. destruct Hr as (?&?&?&?&_).
  cbn [seq fold_left md5_ref_step]. split.
  - unfold rounds, md5_group. cbn zeta. cbn [fold_left]. unfold md5_step.
    cbn [row_f row_w row_x row_y row_z row_in row_k row_s lookup_total list_lookup_total insert
      list_insert].
    rewrite !md5_step_ref; auto with cint.
  - split; [done|]. rewrite !Forall_cons_iff. auto 10 with cint.
Qed.

Lemma md5_transform_ref h inb : reg_ok 32 4 h ->
  md5_transform h inb = md5_ref_block h inb /\ reg_ok 32 4 (md5_transform h inb).
Proof.
  intros Hh. unfold md5_transform, md5_ref_block.
  destruct (rounds_ref (md5_step inb) md5_rows md5_group (md5_ref_step inb) 32 4 16 h
    md5_rows_groups (md5_group_ref inb) Hh) as [E Hok].
  split; [by rewrite E|]. by apply add_regs_ok.
Qed.

(** ** Streaming *)

(** The context holds [msg]. *)
Definition md5_holds (msg : list Z) (c : fio_md5_ctx) : Prop :=
  absorbed 64 md5_transform (hash (fio_md5_init md5_zero)) msg (hash c) (block c) /\
  byte_count c = u64 (Z.of_nat (length msg)).

Lemma md5_blocks_absorb fuel : forall h b data, (length data <= fuel)%nat -> length b = 64%nat ->
  exists b', md5_blocks fuel h b data = Some ((absorb_blocks 64 md5_transform h data).1, b') /\
    length b' = 64%nat /\ fills b' (absorb_blocks 64 md5_transform h data).2.
Proof.
  induction fuel as [|fuel IH]; intros h b data Hf Hb; cbn [md5_blocks];
    destruct (Nat.leb_spec 64 (length data)); try lia.
  2: { destruct (fills_write0 b (take 64 data)) as (b'&->&Hl&Hfill); [rewrite length_take; lia|].
       apply fills_all in Hfill; [|rewrite length_take; lia]. subst b'.
       rewrite (absorb_long 64) by lia. apply IH; rewrite ?length_drop; lia. }
  all: rewrite (absorb_short 64) by lia; simpl.
  all: destruct (fills_write0 b data) as (b'&->&Hl&Hfill); [lia|].
  all: eexists; split; [done|]; split; [lia|done].
Qed.

Lemma md5_update_holds msg c data : md5_holds msg c ->
  exists c', fio_md5_update c data = Some c' /\ md5_holds (msg ++ data) c'.
Proof.
  intros [Ha Hc]. unfold fio_md5_update. rewrite Hc, (land_mask_wrap 64 6) by lia. cbn zeta.
  change (Z.to_nat (2 ^ 6)) with 64%nat.
  pose proof (absorbed_app 64 _ ltac:(lia) _ _ _ _ data Ha) as Happ. cbn zeta in Happ.
  destruct (absorbed_fills 64 _ _ _ _ _ ltac:(lia) Ha) as [Hf Hfl].
  pose proof (ab_len _ _ _ _ _ _ Ha) as Hbl.
  pose proof (Nat.mod_upper_bound (length msg) 64 ltac:(lia)).
  set (k := (length msg mod 64)%nat) in *.
  assert (Hbc : u64 (u64 (Z.of_nat (length msg)) + Z.of_nat (length data)) =
                u64 (Z.of_nat (length (msg ++ data))))
    by (rewrite length_app, Nat2Z.inj_add, wrap_add_l; lia).
  rewrite Hbc. replace (64 - (64 - Z.of_nat k)) with (Z.of_nat k) by lia.
  replace (Z.to_nat (64 - Z.of_nat k)) with (64 - k)%nat by lia.
  destruct (Nat.ltb_spec (length data) (64 - k)).
  - rewrite (proj2 (Z.ltb_lt _ _)) by lia.
    destruct (fills_write (block c) _ data (Z.of_nat k) Hf) as (b'&->&Hl&Hfill); try lia.
    eexists. split; [done|]. split; [|done]. simpl.
    eapply absorbed_intro; [lia|exact Happ|lia|done].
  - rewrite (proj2 (Z.ltb_ge _ _)) by lia.
    destruct (fills_write (block c) _ (take (64 - k) data) (Z.of_nat k) Hf) as (b'&->&Hl&Hfill);
      rewrite ?length_take in *; try lia.
    apply fills_all in Hfill; [|rewrite length_app, !length_take; lia]. subst b'. simpl.
    edestruct (md5_blocks_absorb (length data)) as (b2&->&Hl2&Hf2);
      [|rewrite Hl; exact Hbl|]; [rewrite length_drop; lia|].
    eexists. split; [done|]. split; [|done]. simpl. rewrite surjective_pairing in Happ.
    eapply absorbed_intro; [lia|exact Happ|lia|done].
Qed.

(** ** The final block or blocks *)
Lemma md5_pad_absorb msg s buf lenb :
  absorbed 64 md5_transform (hash (fio_md5_init md5_zero)) msg s buf -> length lenb = 8%nat ->
  let k := (length msg mod 64)%nat in
  let z := Z.to_nat ((55 - Z.of_nat (length msg)) mod 64) in
  (absorb_blocks 64 md5_transform (hash (fio_md5_init md5_zero))
     (msg ++ [0x80] ++ replicate z 0 ++ lenb)).1 =
  if (k <=? 55)%nat then md5_transform s (take k buf ++ [0x80] ++ replicate (55 - k) 0 ++ lenb)
  else md5_transform (md5_transform s (take k buf ++ [0x80] ++ replicate (63 - k) 0))
         (replicate 56 0 ++ lenb).
Proof.
  intros Ha Hlb k z. rewrite (absorbed_app 64 _ ltac:(lia) _ _ _ _ _ Ha). cbn zeta. fold k.
  pose proof (Nat.mod_upper_bound (length msg) 64 ltac:(lia)) as Hk. fold k in Hk.
  assert (Hz : z = if (k <=? 55)%nat then (55 - k)%nat else (119 - k)%nat).
  { pose proof (Nat.div_mod_eq (length msg) 64) as Hd. fold k in Hd. unfold z.
    destruct (Nat.leb_spec k 55); zdm. }
  rewrite Hz. destruct (Nat.leb_spec k 55).
  - rewrite (proj2 (Nat.ltb_ge _ _)) by len_solve.
    rewrite (take_ge ([0x80] ++ _)), (drop_ge ([0x80] ++ _)) by len_solve.
    by rewrite absorb_short by (simpl; lia).
  - replace (119 - k)%nat with ((63 - k) + 56)%nat by lia. rewrite replicate_add, <- !app_assoc.
    rewrite (proj2 (Nat.ltb_ge _ _)) by len_solve.
    rewrite (app_assoc [0x80]).
    rewrite take_app_le, drop_app_le, (take_ge ([0x80] ++ _)), (drop_ge ([0x80] ++ _)) by len_solve.
    rewrite app_nil_l, absorb_long by len_solve.
    rewrite drop_ge, (take_ge (replicate _ _ ++ _)) by len_solve.
    by rewrite absorb_short by (simpl; lia).
Qed.

Lemma md5_final_holds msg c : md5_holds msg c ->
  exists c', fio_md5_final c = Some c' /\
    hash c' = (absorb_blocks 64 md5_transform (hash (fio_md5_init md5_zero))
                 (msg ++ md5_pad (length msg))).1.
Proof.
  intros [Ha Hc]. unfold fio_md5_final. rewrite Hc, (land_mask_wrap 64 6) by lia. cbn zeta.
  change (Z.to_nat (2 ^ 6)) with 64%nat. unfold md5_pad.
  rewrite (md5_pad_absorb _ _ _ _ Ha) by (by rewrite length_le_bytes). cbn zeta.
  destruct (absorbed_fills 64 _ _ _ _ _ ltac:(lia) Ha) as [Hf Hfl].
  pose proof (ab_len _ _ _ _ _ _ Ha) as Hbl. rewrite bit_count_bytes.
  pose proof (Nat.mod_upper_bound (length msg) 64 ltac:(lia)).
  set (k := (length msg mod 64)%nat) in *.
  set (lo := u32 (shl _ _ _)). set (hi := u32 (Z.shiftr _ _)).
  fill_next Hf. destruct (Nat.leb_spec k 55).
  - rewrite (proj2 (Z.ltb_ge _ _)) by lia. cbn [mbind option_bind]. do 3 fill_next Hf.
    eexists. split; [done|]. apply fills_all in Hf; [|len_solve]. cbn [hash].
    rewrite Hf, <- !app_assoc.
    by replace (Z.to_nat (56 - (Z.of_nat k + 1))) with (55 - k)%nat by lia.
  - rewrite (proj2 (Z.ltb_lt _ _)) by lia. cbn [mbind option_bind]. fill_next Hf.
    apply fills_all in Hf; [|len_solve]. assert (Hf0 : fills b0 []) by done.
    do 3 fill_next Hf0.
    eexists. split; [done|]. apply fills_all in Hf0; [|len_solve]. cbn [hash].
    rewrite Hf0, Hf, <- !app_assoc.
    by replace (Z.to_nat (56 - (Z.of_nat k + 1) + 8)) with (63 - k)%nat by lia.
Qed.

Lemma md5_init_holds : md5_holds [] (fio_md5_init md5_zero).
Proof. split; [by apply absorbed_nil; [lia|]|done]. Qed.

Lemma md5_correct_eq chunks : fio_md5 chunks = Some (md5_ref (concat chunks)).
Proof.
  unfold fio_md5. destruct (updates_hold _ _ md5_update_holds chunks [] _ md5_init_holds) as (c&->&Hc).
  cbn [mbind option_bind]. destruct (md5_final_holds _ _ Hc) as (c'&->&Hh).
  cbn [mbind option_bind]. rewrite Hh. unfold md5_ref. change md5_iv with (hash (fio_md5_init md5_zero)). do 2 f_equal.
  apply (absorb_blocks_ext 64 _ _ (reg_ok 32 4)); [lia| |].
  - intros s b Hs. by apply md5_transform_ref.
  - split; [done|]. simpl. repeat constructor; unfold uint; lia.
Qed.

(** C28. However a message is cut into pieces, [fio_md5_init], [fio_md5_update]
    on each piece and [fio_md5_final] never leave the block buffer and give the
    MD5 digest of RFC 1321 of the whole message. *)
Theorem md5_correct chunks : fio_md5 chunks = Some (md5_ref (concat chunks)).
Proof. exact (md5_correct_eq chunks). Qed.

(** The digest of "abc" from the RFC's test suite. *)
Example md5_abc : fio_md5 [[0x61]; [0x62; 0x63]] =
  Some [0x98500190; 0xb04fd23c; 0x7d3f96d6; 0x727fe128].
Proof. vm_compute. reflexivity. Qed.
