(* ===== verification/Sha1.v ===== *)
(** * Sha1: the SHA-1 digest of crc/sha1.c

    The context, [blk_SHA1Block] as the table of its 80 round lines over the
    rolling 16-word array, and [fio_sha1_init], [fio_sha1_update] and
    [fio_sha1_final].  [ctx->W] is kept as its 64 bytes.  The reference is FIPS
    180: the 80-word schedule, the functions Ch, Parity and Maj, rotating
    registers, and the padded message. *)
From S2P Require Import Prelude Digest.

(** ** The code *)
Inductive sha1_kind := T_0_15 | T_16_19 | T_20_39 | T_40_59 | T_60_79.

(** [fn] and [constant] of the five round macros. *)
Definition sha1_fn (k : sha1_kind) (B C D : Z) : Z :=
  match k with
  | T_0_15 | T_16_19 => Z.lxor (Z.land (Z.lxor C D) B) D
  | T_20_39 | T_60_79 => Z.lxor (Z.lxor B C) D
  | T_40_59 => Z.land B C + Z.land D (Z.lxor B C)
  end.

Definition sha1_const (k : sha1_kind) : Z :=
  match k with
  | T_0_15 | T_16_19 => 0x5a827999
  | T_20_39 => 0x6ed9eba1
  | T_40_59 => 0x8f1bbcdc
  | T_60_79 => 0xca62c1d6
  end.

(** [SHA_SRC] and [SHA_MIX]; [W(x)] is [array[x & 15]]. *)
Definition sha1_input (k : sha1_kind) (data array : list Z) (t : nat) : Z :=
  match k with
  | T_0_15 => be_word 4 data t
  | _ =>
      let W x := array !!! (x mod 16)%nat in
      rotl 32 (Z.lxor (Z.lxor (Z.lxor (W (t + 13)%nat) (W (t + 8)%nat)) (W (t + 2)%nat)) (W t)) 1
  end.

(** A line of the transform: the macro, [t] and the registers by number. *)
Record sha1_row := T_row {
  row_kind : sha1_kind; row_t : nat;
  row_A : nat; row_B : nat; row_C : nat; row_D : nat; row_E : nat
}.
Definition T := T_row.

(** [E += TEMP + SHA_ROL(A,5) + (fn) + (constant); B = SHA_ROR(B, 2);]. *)
Definition sha1_regs (TEMP : Z) (r : list Z) (row : sha1_row) : list Z :=
  let B := r !!! row_B row in
  let E := u32 (r !!! row_E row +
             (TEMP + rotl 32 (r !!! row_A row) 5 +
              sha1_fn (row_kind row) B (r !!! row_C row) (r !!! row_D row) +
              sha1_const (row_kind row))) in
  <[row_B row := rotr 32 B 2]> (<[row_E row := E]> r).

(** [SHA_ROUND]: the array and the registers. *)
Definition SHA_ROUND (data : list Z) (st : list Z * list Z) (row : sha1_row) : list Z * list Z :=
  let '(array, r) := st in
  let TEMP := sha1_input (row_kind row) data array (row_t row) in
  (<[(row_t row mod 16)%nat := TEMP]> array, sha1_regs TEMP r row).

Definition sha1_rows : list sha1_row :=
  let A := 0%nat in let B := 1%nat in let C := 2%nat in let D := 3%nat in let E := 4%nat in
  [T T_0_15 0 A B C D E; T T_0_15 1 E A B C D;
   T T_0_15 2 D E A B C; T T_0_15 3 C D E A B;
   T T_0_15 4 B C D E A; T T_0_15 5 A B C D E;
   T T_0_15 6 E A B C D; T T_0_15 7 D E A B C;
   T T_0_15 8 C D E A B; T T_0_15 9 B C D E A;
   T T_0_15 10 A B C D E; T T_0_15 11 E A B C D;
   T T_0_15 12 D E A B C; T T_0_15 13 C D E A B;
   T T_0_15 14 B C D E A; T T_0_15 15 A B C D E;
   T T_16_19 16 E A B C D; T T_16_19 17 D E A B C;
   T T_16_19 18 C D E A B; T T_16_19 19 B C D E A;
   T T_20_39 20 A B C D E; T T_20_39 21 E A B C D;
   T T_20_39 22 D E A B C; T T_20_39 23 C D E A B;
   T T_20_39 24 B C D E A; T T_20_39 25 A B C D E;
   T T_20_39 26 E A B C D; T T_20_39 27 D E A B C;
   T T_20_39 28 C D E A B; T T_20_39 29 B C D E A;
   T T_20_39 30 A B C D E; T T_20_39 31 E A B C D;
   T T_20_39 32 D E A B C; T T_20_39 33 C D E A B;
   T T_20_39 34 B C D E A; T T_20_39 35 A B C D E;
   T T_20_39 36 E A B C D; T T_20_39 37 D E A B C;
   T T_20_39 38 C D E A B; T T_20_39 39 B C D E A;
   T T_40_59 40 A B C D E; T T_40_59 41 E A B C D;
   T T_40_59 42 D E A B C; T T_40_59 43 C D E A B;
   T T_40_59 44 B C D E A; T T_40_59 45 A B C D E;
   T T_40_59 46 E A B C D; T T_40_59 47 D E A B C;
   T T_40_59 48 C D E A B; T T_40_59 49 B C D E A;
   T T_40_59 50 A B C D E; T T_40_59 51 E A B C D;
   T T_40_59 52 D E A B C; T T_40_59 53 C D E A B;
   T T_40_59 54 B C D E A; T T_40_59 55 A B C D E;
   T T_40_59 56 E A B C D; T T_40_59 57 D E A B C;
   T T_40_59 58 C D E A B; T T_40_59 59 B C D E A;
   T T_60_79 60 A B C D E; T T_60_79 61 E A B C D;
   T T_60_79 62 D E A B C; T T_60_79 63 C D E A B;
   T T_60_79 64 B C D E A; T T_60_79 65 A B C D E;
   T T_60_79 66 E A B C D; T T_60_79 67 D E A B C;
   T T_60_79 68 C D E A B; T T_60_79 69 B C D E A;
   T T_60_79 70 A B C D E; T T_60_79 71 E A B C D;
   T T_60_79 72 D E A B C; T T_60_79 73 C D E A B;
   T T_60_79 74 B C D E A; T T_60_79 75 A B C D E;
   T T_60_79 76 E A B C D; T T_60_79 77 D E A B C;
   T T_60_79 78 C D E A B; T T_60_79 79 B C D E A].

(** The local [array] is written before it is read. *)
Definition blk_SHA1Block (H data : list Z) : list Z :=
  add_regs 32 H (fold_left (SHA_ROUND data) sha1_rows (replicate 16 0, H)).2.

Record fio_sha1_ctx := Ctx { H : list Z; W : list Z; size : Z }.

Definition fio_sha1_init (ctx : fio_sha1_ctx) : fio_sha1_ctx :=
  Ctx [0x67452301; 0xefcdab89; 0x98badcfe; 0x10325476; 0xc3d2e1f0] (W ctx) 0.

Definition sha1_zero : fio_sha1_ctx := Ctx (replicate 5 0) (replicate 64 0) 0.

(** [while (len >= 64)] and the copy of what is left. *)
Fixpoint sha1_blocks (fuel : nat) (h w data : list Z) : option (list Z * list Z) :=
  if (64 <=? length data)%nat then
    match fuel with
    | O => None
    | S fuel => sha1_blocks fuel (blk_SHA1Block h (take 64 data)) w (drop 64 data)
    end
  else if (0 <? length data)%nat then w ← mem_write w 0 data; Some (h, w)
  else Some (h, w).

Definition fio_sha1_update (ctx : fio_sha1_ctx) (data : list Z) : option fio_sha1_ctx :=
  let len := Z.of_nat (length data) in
  let lenW := Z.land (size ctx) 63 in
  let sz := u64 (size ctx + len) in
  if negb (lenW =? 0) then
    let left := 64 - lenW in
    let left := if len <? left then len else left in
    w ← mem_write (W ctx) lenW (take (Z.to_nat left) data);
    let lenW := Z.land (lenW + left) 63 in
    let data := drop (Z.to_nat left) data in
    if negb (lenW =? 0) then Some (Ctx (H ctx) w sz)
    else
      '(h, w) ← sha1_blocks (length data) (blk_SHA1Block (H ctx) w) w data;
      Some (Ctx h w sz)
  else
    '(h, w) ← sha1_blocks (length data) (H ctx) (W ctx) data;
    Some (Ctx h w sz).

(** [static const unsigned char pad[64] = { 0x80 }]. *)
Definition sha1_padding : list Z := 0x80 :: replicate 63 0.

(** [htonl(x)] as the bytes it has in memory. *)
Definition htonl_bytes (x : Z) : list Z := rev (le_bytes 4 (u32 x)).

Definition fio_sha1_final (ctx : fio_sha1_ctx) : option fio_sha1_ctx :=
  let padlen := htonl_bytes (Z.shiftr (size ctx) 29) ++ htonl_bytes (shl 64 (size ctx) 3) in
  let i := Z.land (size ctx) 63 in
  ctx ← fio_sha1_update ctx (take (Z.to_nat (1 + Z.land 63 (55 - i))) sha1_padding);
  fio_sha1_update ctx padlen.

(** The digest of a message that arrives in pieces. *)
Definition fio_sha1 (chunks : list (list Z)) : option (list Z) :=
  c ← updates fio_sha1_update (fio_sha1_init sha1_zero) chunks;
  c ← fio_sha1_final c; Some (H c).

(** ** The reference: FIPS 180 *)
Definition sha1_f (t : nat) (x y z : Z) : Z :=
  if (t <? 20)%nat then Z.lxor (Z.land x y) (Z.land (bnot 32 x) z)
  else if (t <? 40)%nat then Z.lxor (Z.lxor x y) z
  else if (t <? 60)%nat then Z.lxor (Z.lxor (Z.land x y) (Z.land x z)) (Z.land y z)
  else Z.lxor (Z.lxor x y) z.

Definition sha1_K (t : nat) : Z :=
  if (t <? 20)%nat then 0x5a827999 else if (t <? 40)%nat then 0x6ed9eba1
  else if (t <? 60)%nat then 0x8f1bbcdc else 0xca62c1d6.

Definition sha1_mix (ws : list Z) : Z :=
  let t := length ws in
  rotl 32 (Z.lxor (Z.lxor (Z.lxor (ws !!! (t - 3)%nat) (ws !!! (t - 8)%nat)) (ws !!! (t - 14)%nat))
    (ws !!! (t - 16)%nat)) 1.

Definition sha1_sched (data : list Z) : list Z :=
  extend sha1_mix 64 (map (be_word 4 data) (seq 0 16)).

Definition sha1_ref_step (data r : list Z) (t : nat) : list Z :=
  match r with
  | [a; b; c; d; e] =>
      [u32 (rotl 32 a 5 + sha1_f t b c d + e + sha1_K t + sha1_sched data !!! t); a; rotl 32 b 30; c; d]
  | _ => r
  end.

Definition sha1_ref_block (h data : list Z) : list Z :=
  add_regs 32 h (fold_left (sha1_ref_step data) (seq 0 80) h).

(** The bit [1], zeroes up to 56 modulo 64, the number of bits, most significant
    byte first. *)
Definition sha1_pad (len : nat) : list Z :=
  [0x80] ++ replicate (Z.to_nat ((55 - Z.of_nat len) mod 64)) 0 ++ rev (le_bytes 8 (8 * Z.of_nat len)).

(** The initial hash value of FIPS 180. *)
Definition sha1_iv : list Z := [0x67452301; 0xefcdab89; 0x98badcfe; 0x10325476; 0xc3d2e1f0].

Definition sha1_ref (msg : list Z) : list Z :=
  (absorb_blocks 64 sha1_ref_block sha1_iv (msg ++ sha1_pad (length msg))).1.

(** ** The rounds *)
Lemma sha1_sched_length data : length (sha1_sched data) = 80%nat.
Proof. unfold sha1_sched. by rewrite extend_length, length_map, length_seq. Qed.

Lemma sha1_sched_load data t : (t < 16)%nat -> sha1_sched data !!! t = be_word 4 data t.
Proof.
  intros Ht. unfold sha1_sched. rewrite extend_old by (rewrite length_map, length_seq; lia).
  apply list_lookup_total_correct. by rewrite list_lookup_fmap, lookup_seq_lt.
Qed.

Lemma sha1_sched_mix data t : (16 <= t < 80)%nat ->
  let w := sha1_sched data in
  w !!! t = rotl 32 (Z.lxor (Z.lxor (Z.lxor (w !!! (t - 3)%nat) (w !!! (t - 8)%nat))
              (w !!! (t - 14)%nat)) (w !!! (t - 16)%nat)) 1.
Proof.
  intros Ht w. pose proof (sha1_sched_length data) as Hl. fold w in Hl.
  assert (w !!! t = sha1_mix (take t w)) as ->.
  { apply (extend_new sha1_mix 64 (map (be_word 4 data) (seq 0 16)) t).
    rewrite length_map, length_seq. lia. }
  unfold sha1_mix. rewrite length_take, Nat.min_l by lia.
  by rewrite !lookup_total_take_lt by lia.
Qed.

(** The rolling array holds the last 16 words of the schedule. *)
Definition rolling (data array : list Z) (t : nat) : Prop :=
  length array = 16%nat /\
  forall j, (t - 16 <= j < t)%nat -> array !!! (j mod 16)%nat = sha1_sched data !!! j.

Definition kind_of (t : nat) : sha1_kind :=
  if (t <? 16)%nat then T_0_15 else if (t <? 20)%nat then T_16_19
  else if (t <? 40)%nat then T_20_39 else if (t <? 60)%nat then T_40_59 else T_60_79.

Lemma rolling_input data array t : (t < 80)%nat -> rolling data array t ->
  sha1_input (kind_of t) data array t = sha1_sched data !!! t.
Proof.
  intros Ht [Hl Hr]. unfold kind_of. destruct (Nat.ltb_spec t 16).
  - simpl. by rewrite sha1_sched_load.
  - rewrite sha1_sched_mix by lia.
    assert (Hmix : forall d e, (2 <= d <= 16)%nat -> (e + d = 16)%nat ->
      array !!! ((t + e) mod 16)%nat = sha1_sched data !!! (t - d)%nat).
    { intros d e Hd He. rewrite <- Hr by lia. f_equal.
      rewrite <- (Nat.Div0.mod_add (t - d) 1 16). f_equal. lia. }
    pose proof (Hmix 16%nat 0%nat ltac:(lia) ltac:(lia)) as H16. rewrite Nat.add_0_r in H16.
    destruct (t <? 20)%nat, (t <? 40)%nat, (t <? 60)%nat; cbn [sha1_input]; cbn zeta;
      by rewrite (Hmix 3%nat), (Hmix 8%nat), (Hmix 14%nat), H16 by lia.
Qed.

Lemma rolling_set data array t : (t < 80)%nat -> rolling data array t ->
  rolling data (<[(t mod 16)%nat := sha1_sched data !!! t]> array) (S t).
Proof.
  intros Ht [Hl Hr]. pose proof (Nat.mod_upper_bound t 16 ltac:(lia)).
  split; [by rewrite length_insert|]. intros j Hj. destruct (decide (j = t)) as [->|].
  - by rewrite list_lookup_total_insert_eq by lia.
  - rewrite list_lookup_total_insert_ne; [apply Hr; lia|]. intros E.
    pose proof (Nat.div_mod_eq t 16). pose proof (Nat.div_mod_eq j 16). lia.
Qed.

(** With the array out of the way: the rounds read the schedule. *)
Definition sha1_exec (data : list Z) (r : list Z) (row : sha1_row) : list Z :=
  sha1_regs (sha1_sched data !!! row_t row) r row.

Lemma sha1_rounds_sched data rows : forall t array r,
  Forall2 (fun row t => row_t row = t /\ row_kind row = kind_of t) rows (seq t (length rows)) ->
  (t + length rows <= 80)%nat -> rolling data array t ->
  (fold_left (SHA_ROUND data) rows (array, r)).2 = rounds (sha1_exec data) rows r.
Proof.
  induction rows as [|row rows IH]; intros t array r Hrows Ht Hr; [done|].
  cbn [length seq] in Hrows. apply Forall2_cons_iff in Hrows as [[Et Ek] Hrows]. simpl in Ht.
  unfold rounds. cbn [fold_left]. unfold SHA_ROUND at 2. rewrite Ek, Et, rolling_input by (done || lia).
  rewrite (IH (S t)); [|done|lia|by apply rolling_set; [lia|]].
  unfold rounds. do 2 f_equal. unfold sha1_exec. by rewrite Et.
Qed.

Definition sha1_group (g : nat) : list sha1_row :=
  let f t := T (kind_of t) t in let t := (5 * g)%nat in
  [f t 0 1 2 3 4; f (S t) 4 0 1 2 3; f (S (S t)) 3 4 0 1 2; f (S (S (S t))) 2 3 4 0 1;
   f (S (S (S (S t)))) 1 2 3 4 0]%nat.

Lemma sha1_rows_groups : sha1_rows = concat (map sha1_group (seq 0 16)).
Proof. vm_compute. reflexivity. Qed.

Lemma sha1_rows_seq :
  Forall2 (fun row t => row_t row = t /\ row_kind row = kind_of t) sha1_rows
    (seq 0 (length sha1_rows)).
Proof. vm_compute. repeat constructor. Qed.

(** The sum in [T_40_59] has no carries: it is the majority. *)
Lemma sha1_maj_sum B C D :
  Z.land B C + Z.land D (Z.lxor B C) = Z.lxor (Z.land B C) (Z.land D (Z.lxor B C)).
Proof.
  apply Z.add_nocarry_lxor. apply Z.bits_inj'. intros j Hj.
  rewrite !Z.land_spec, Z.lxor_spec, Z.bits_0.
  by destruct (Z.testbit B j), (Z.testbit C j), (Z.testbit D j).
Qed.

Lemma sha1_fn_f t B C D : uint 32 B -> uint 32 C -> uint 32 D ->
  sha1_fn (kind_of t) B C D = sha1_f t B C D /\ sha1_const (kind_of t) = sha1_K t.
Proof.
  intros HB HC HD. unfold kind_of, sha1_f, sha1_K.
  destruct (Nat.ltb_spec t 16), (Nat.ltb_spec t 20), (Nat.ltb_spec t 40), (Nat.ltb_spec t 60);
    try lia; (split; [|done]); cbn [sha1_fn]; rewrite ?sha1_maj_sum; try done; bits_table 32.
Qed.

Lemma sha1_rotr_rotl B : rotr 32 B 2 = rotl 32 B 30.
Proof. unfold rotr, rotl. by rewrite Z.lor_comm. Qed.

Lemma sha1_regs_E t w A B C D E : uint 32 B -> uint 32 C -> uint 32 D ->
  u32 (E + (w + rotl 32 A 5 + sha1_fn (kind_of t) B C D + sha1_const (kind_of t))) =
  u32 (rotl 32 A 5 + sha1_f t B C D + E + sha1_K t + w).
Proof. intros HB HC HD. destruct (sha1_fn_f t B C D) as [-> ->]; [done..|]. f_equal. lia. Qed.

Lemma sha1_group_ref data g r : reg_ok 32 5 r ->
  rounds (sha1_exec data) (sha1_group g) r = fold_left (sha1_ref_step data) (seq (5 * g) 5) r /\
  reg_ok 32 5 (fold_left (sha1_ref_step data) (seq (5 * g) 5) r).
Proof.
  intros [Hl Hr]. destruct r as [|a [|b [|c [|d [|e [|? ?]]]]]]; try done.
  rewrite !Forall_cons_iff in Hr. destruct Hr as (?&?&?&?&?&_).
  cbn [seq fold_left sha1_ref_step]. split.
  - unfold rounds, sha1_group. cbn zeta. cbn [fold_left]. unfold sha1_exec, sha1_regs, T.
    cbn [row_kind row_t row_A row_B row_C row_D row_E lookup_total list_lookup_total insert
      list_insert].
    rewrite !sha1_rotr_rotl, !sha1_regs_E; auto using rotl_uint with cint.
  - split; [done|]. rewrite !Forall_cons_iff. auto 10 using rotl_uint with cint.
Qed.

Lemma sha1_block_ref h data : reg_ok 32 5 h ->
  blk_SHA1Block h data = sha1_ref_block h data /\ reg_ok 32 5 (blk_SHA1Block h data).
Proof.
  intros Hh. unfold blk_SHA1Block, sha1_ref_block.
  rewrite (sha1_rounds_sched data sha1_rows 0);
    [|exact sha1_rows_seq|done|split; [done|intros; lia]].
  destruct (rounds_ref (sha1_exec data) sha1_rows sha1_group (sha1_ref_step data) 32 5 16 h
    sha1_rows_groups (sha1_group_ref data) Hh) as [E Hok].
  split; [by rewrite E|]. by apply add_regs_ok.
Qed.

(** ** Streaming *)
Definition sha1_holds (msg : list Z) (c : fio_sha1_ctx) : Prop :=
  absorbed 64 blk_SHA1Block (H (fio_sha1_init sha1_zero)) msg (H c) (W c) /\
  size c = u64 (Z.of_nat (length msg)).

Lemma sha1_blocks_absorb fuel : forall h w data, (length data <= fuel)%nat -> length w = 64%nat ->
  exists w', sha1_blocks fuel h w data = Some ((absorb_blocks 64 blk_SHA1Block h data).1, w') /\
    length w' = 64%nat /\ fills w' (absorb_blocks 64 blk_SHA1Block h data).2.
Proof.
  induction fuel as [|fuel IH]; intros h w data Hf Hw; cbn [sha1_blocks];
    destruct (Nat.leb_spec 64 (length data)); try lia.
  2: { rewrite (absorb_long 64) by lia. apply IH; rewrite ?length_drop; lia. }
  all: rewrite (absorb_short 64) by lia; cbn [fst snd].
  all: destruct (Nat.ltb_spec 0 (length data)).
  all: try (by destruct data; [exists w|simpl in *; lia]).
  all: destruct (fills_write0 w data) as (w'&->&Hl&Hfill); [lia|].
  all: eexists; split; [done|]; split; [lia|done].
Qed.

Lemma sha1_update_holds msg c data : sha1_holds msg c ->
  exists c', fio_sha1_update c data = Some c' /\ sha1_holds (msg ++ data) c'.
Proof.
  intros [Ha Hc]. unfold fio_sha1_update. rewrite Hc, (land_mask_wrap 64 6) by lia. cbn zeta.
  change (Z.to_nat (2 ^ 6)) with 64%nat.
  pose proof (absorbed_app 64 _ ltac:(lia) _ _ _ _ data Ha) as Happ. cbn zeta in Happ.
  destruct (absorbed_fills 64 _ _ _ _ _ ltac:(lia) Ha) as [Hf Hfl].
  pose proof (ab_len _ _ _ _ _ _ Ha) as Hwl.
  pose proof (Nat.mod_upper_bound (length msg) 64 ltac:(lia)).
  set (k := (length msg mod 64)%nat) in *.
  assert (Hbc : u64 (u64 (Z.of_nat (length msg)) + Z.of_nat (length data)) =
                u64 (Z.of_nat (length (msg ++ data))))
    by (rewrite length_app, Nat2Z.inj_add, wrap_add_l; lia).
  rewrite Hbc. destruct (Z.eqb_spec (Z.of_nat k) 0) as [Hk|Hk]; cbn [negb].
  - assert (k = 0%nat) as E by lia. rewrite E in *. rewrite take_0, app_nil_l in Happ.
    destruct (sha1_blocks_absorb (length data) (H c) (W c) data) as (w'&->&Hl&Hfl'); [lia|lia|].
    eexists. split; [done|]. split; [|done]. cbn [H W].
    eapply absorbed_intro; [lia| |lia|exact Hfl'].
    rewrite Happ, <- surjective_pairing. destruct (Nat.ltb_spec (length data) (64 - 0)).
    + by rewrite absorb_short by lia.
    + by rewrite (absorb_long 64 _ ltac:(lia) (H c) data) by lia.
  - destruct (Nat.ltb_spec (length data) (64 - k)).
    + rewrite (proj2 (Z.ltb_lt _ _)) by lia. rewrite Nat2Z.id, take_ge by lia.
      destruct (fills_write (W c) _ data (Z.of_nat k) Hf) as (w'&->&Hl&Hfill); try lia.
      cbn [mbind option_bind]. change 63 with (2 ^ 6 - 1). rewrite land_pow2_mod, Z.mod_small by lia.
      rewrite (proj2 (Z.eqb_neq _ _)) by lia. cbn [negb].
      eexists. split; [done|]. split; [|done]. cbn [H W].
      eapply absorbed_intro; [lia|exact Happ|lia|done].
    + rewrite (proj2 (Z.ltb_ge _ _)) by lia.
      replace (Z.to_nat (64 - Z.of_nat k)) with (64 - k)%nat by lia.
      destruct (fills_write (W c) _ (take (64 - k) data) (Z.of_nat k) Hf) as (w'&->&Hl&Hfill);
        rewrite ?length_take in *; try lia.
      apply fills_all in Hfill; [|rewrite length_app, !length_take; lia]. subst w'.
      cbn [mbind option_bind]. replace (Z.of_nat k + (64 - Z.of_nat k)) with 64 by lia.
      change (Z.land 64 63 =? 0) with true. cbn [negb].
      edestruct (sha1_blocks_absorb (length (drop (64 - k) data))) as (w2&->&Hl2&Hf2);
        [done|rewrite Hl; exact Hwl|].
      eexists. split; [done|]. split; [|done]. cbn [H W]. rewrite surjective_pairing in Happ.
      eapply absorbed_intro; [lia|exact Happ|lia|done].
Qed.


Lemma sha1_init_holds : sha1_holds [] (fio_sha1_init sha1_zero).
Proof. split; [by apply absorbed_nil; [lia|]|done]. Qed.

Lemma sha1_len_bytes n :
  rev (le_bytes 8 (8 * Z.of_nat n)) =
  htonl_bytes (Z.shiftr (u64 (Z.of_nat n)) 29) ++ htonl_bytes (shl 64 (u64 (Z.of_nat n)) 3).
Proof. unfold htonl_bytes. by rewrite bit_count_bytes, rev_app_distr. Qed.

Lemma sha1_pad_bytes (n : nat) (i : Z) : i = Z.of_nat (n mod 64) ->
  take (Z.to_nat (1 + Z.land 63 (55 - i))) sha1_padding =
  [0x80] ++ replicate (Z.to_nat ((55 - Z.of_nat n) mod 64)) 0.
Proof.
  intros ->. rewrite Z.land_comm. change 63 with (2 ^ 6 - 1). rewrite land_pow2_mod by lia.
  rewrite Nat2Z.inj_mod, Zminus_mod_idemp_r. change (2 ^ 6) with 64. change (Z.of_nat 64) with 64.
  pose proof (Z.mod_pos_bound (55 - Z.of_nat n) 64 ltac:(lia)).
  replace (Z.to_nat (1 + _)) with (S (Z.to_nat ((55 - Z.of_nat n) mod 64))) by lia.
  unfold sha1_padding. rewrite firstn_cons, take_replicate. cbn [app]. do 2 f_equal. lia.
Qed.

Lemma sha1_final_holds msg c : sha1_holds msg c ->
  exists c', fio_sha1_final c = Some c' /\
    H c' = (absorb_blocks 64 blk_SHA1Block (H (fio_sha1_init sha1_zero))
              (msg ++ sha1_pad (length msg))).1.
Proof.
  intros Hh. pose proof Hh as [_ Hs]. unfold fio_sha1_final.
  rewrite (sha1_pad_bytes (length msg)) by (by rewrite Hs, (land_mask_wrap 64 6) by lia).
  destruct (sha1_update_holds _ _ ([0x80] ++ replicate (Z.to_nat ((55 - Z.of_nat (length msg)) mod 64)) 0)
    Hh) as (c1&->&Hh1). cbn [mbind option_bind]. rewrite Hs, <- sha1_len_bytes.
  destruct (sha1_update_holds _ _ (rev (le_bytes 8 (8 * Z.of_nat (length msg)))) Hh1)
    as (c2&->&[Ha2 _]).
  eexists. split; [done|]. unfold sha1_pad. rewrite <- !app_assoc in Ha2.
  by rewrite (ab_eq _ _ _ _ _ _ Ha2).
Qed.

Lemma sha1_correct_eq chunks : fio_sha1 chunks = Some (sha1_ref (concat chunks)).
Proof.
  unfold fio_sha1. destruct (updates_hold _ _ sha1_update_holds chunks [] _ sha1_init_holds) as (c&->&Hc).
  cbn [mbind option_bind]. destruct (sha1_final_holds _ _ Hc) as (c'&->&Hh).
  cbn [mbind option_bind]. rewrite Hh. unfold sha1_ref. change sha1_iv with (H (fio_sha1_init sha1_zero)). do 2 f_equal.
  apply (absorb_blocks_ext 64 _ _ (reg_ok 32 5)); [lia| |].
  - intros s b Hs. by apply sha1_block_ref.
  - split; [done|]. simpl. repeat constructor; unfold uint; lia.
Qed.

(** However a message is cut into pieces, [fio_sha1_init], [fio_sha1_update]
    on each piece and [fio_sha1_final] stay inside their buffers and give the
    SHA-1 digest of FIPS 180 of the whole message. *)
Theorem sha1_correct chunks : fio_sha1 chunks = Some (sha1_ref (concat chunks)).
Proof. exact (sha1_correct_eq chunks). Qed.

(** The digest of "abc" from FIPS 180. *)
Example sha1_abc : fio_sha1 [[0x61]; [0x62; 0x63]] =
  Some [0xa9993e36; 0x4706816a; 0xba3e2571; 0x7850c26c; 0x9cd0d89d].
Proof. vm_compute. reflexivity. Qed.
