(* ===== verification/Sha2.v ===== *)
(** * Sha2: the rounds that crc/sha256.c and crc/sha512.c share

    Both files unroll the same round by eight, renaming the registers instead of
    moving them.  A line pair is a [ROUND] row; [sha2_step] executes it on the
    register file, over the functions each file defines for its word width.
    The reference round of FIPS 180 moves the registers, and
    [sha2_rounds_ref] shows the table computes the same. *)
From S2P Require Import Prelude Digest.

Record sha2_row := ROUND {
  row_a : nat; row_b : nat; row_c : nat; row_d : nat;
  row_e : nat; row_f : nat; row_g : nat; row_h : nat;
  row_k : Z; row_i : nat
}.

(** The round constants of FIPS 180: the first [w] bits of the fractional parts
    of the cube roots of the first primes. *)
Definition is_prime (n : Z) : bool :=
  forallb (fun d => negb (n mod d =? 0)) (map Z.of_nat (seq 2 (Z.to_nat n - 2))).
Definition first_primes (count bound : nat) : list Z :=
  take count (List.filter is_prime (map Z.of_nat (seq 2 bound))).

(** The largest [r] of [bits] bits with [r ^ 3 <= n], one bit at a time. *)
Definition icbrt (bits : nat) (n : Z) : Z :=
  fold_left (fun r i => let r' := r + 2 ^ Z.of_nat i in if r' * r' * r' <=? n then r' else r)
    (rev (seq 0 bits)) 0.
Definition cbrt_frac (w p : Z) : Z := icbrt (Z.to_nat w + 3) (p * 2 ^ (3 * w)) mod 2 ^ w.

(** The functions of FIPS 180. *)
Definition fips_Ch (w x y z : Z) : Z := Z.lxor (Z.land x y) (Z.land (bnot w x) z).
Definition fips_Maj (x y z : Z) : Z := Z.lxor (Z.lxor (Z.land x y) (Z.land x z)) (Z.land y z).

Section rounds.
  Context (w : Z) (e0 e1 : Z -> Z) (Ch Maj : Z -> Z -> Z -> Z) (W K : list Z).

(** [t1 = h + e1(e) + Ch(e,f,g) + K + W[i]; t2 = e0(a) + Maj(a,b,c); d += t1;
    h = t1 + t2]. *)
Definition sha2_step (r : list Z) (row : sha2_row) : list Z :=
  let t1 := wrap w (r !!! row_h row + e1 (r !!! row_e row) +
              Ch (r !!! row_e row) (r !!! row_f row) (r !!! row_g row) + row_k row + W !!! row_i row) in
  let t2 := wrap w (e0 (r !!! row_a row) + Maj (r !!! row_a row) (r !!! row_b row) (r !!! row_c row)) in
  <[row_h row := wrap w (t1 + t2)]> (<[row_d row := wrap w (r !!! row_d row + t1)]> r).

Definition sha2_ref_step (r : list Z) (i : nat) : list Z :=
  match r with
  | [a; b; c; d; e; f; g; h] =>
      let T1 := h + e1 e + fips_Ch w e f g + K !!! i + W !!! i in
      let T2 := e0 a + fips_Maj a b c in
      [wrap w (T1 + T2); a; b; c; wrap w (d + T1); e; f; g]
  | _ => r
  end.

(** The row of round [i]: round [i] finds register [x] at place [x - i mod 8]. *)
Definition sha2_row_of (i : nat) : sha2_row :=
  let f a b c d e f g h := ROUND a b c d e f g h (K !!! i) i in
  match (i mod 8)%nat with
  | 0 => f 0 1 2 3 4 5 6 7 | 1 => f 7 0 1 2 3 4 5 6
  | 2 => f 6 7 0 1 2 3 4 5 | 3 => f 5 6 7 0 1 2 3 4
  | 4 => f 4 5 6 7 0 1 2 3 | 5 => f 3 4 5 6 7 0 1 2
  | 6 => f 2 3 4 5 6 7 0 1 | _ => f 1 2 3 4 5 6 7 0
  end%nat.

(** The registers as round [i] names them. *)
Definition sha2_view (i : nat) (r : list Z) : list Z := take 8 (drop (8 - i mod 8) (r ++ r)).

Hypothesis Hw : 0 <= w.
Hypothesis HCh : forall x y z, uint w x -> uint w y -> uint w z -> Ch x y z = fips_Ch w x y z.
Hypothesis HMaj : forall x y z, uint w x -> uint w y -> uint w z -> Maj x y z = fips_Maj x y z.

Lemma mod8_S i : (S i mod 8 = if i mod 8 =? 7 then 0 else S (i mod 8))%nat.
Proof.
  pose proof (Nat.mod_upper_bound i 8 ltac:(lia)). rewrite <- Nat.add_1_r, <- Nat.Div0.add_mod_idemp_l.
  destruct (Nat.eqb_spec (i mod 8) 7) as [->|]; [done|]. rewrite Nat.mod_small; lia.
Qed.

Lemma sha2_step_view i r : reg_ok w 8 r ->
  sha2_view (S i) (sha2_step r (sha2_row_of i)) = sha2_ref_step (sha2_view i r) i /\
  reg_ok w 8 (sha2_step r (sha2_row_of i)).
Proof.
  intros [Hl Hr]. destruct r as [|a [|b [|c [|d [|e [|f [|g [|h [|? ?]]]]]]]]]; try done.
  rewrite !Forall_cons_iff in Hr. destruct Hr as (?&?&?&?&?&?&?&?&_).
  unfold sha2_view, sha2_row_of. rewrite mod8_S. pose proof (Nat.mod_upper_bound i 8 ltac:(lia)).
  destruct (i mod 8)%nat as [|[|[|[|[|[|[|[|]]]]]]]]; try lia; unfold sha2_step;
    cbn [Nat.eqb row_a row_b row_c row_d row_e row_f row_g row_h row_k row_i lookup_total
      list_lookup_total insert list_insert app Nat.sub drop take sha2_ref_step];
    rewrite !wrap_add_r, wrap_add_l, HCh, HMaj by done;
    (split; [done|split; [done|]]); rewrite !Forall_cons_iff; auto 12 with cint.
Qed.

Lemma sha2_rounds_view n : forall s r, reg_ok w 8 r ->
  sha2_view (s + n) (rounds sha2_step (map sha2_row_of (seq s n)) r) =
    fold_left sha2_ref_step (seq s n) (sha2_view s r) /\
  reg_ok w 8 (rounds sha2_step (map sha2_row_of (seq s n)) r).
Proof.
  induction n as [|n IH]; intros s r Hr; [by rewrite Nat.add_0_r|].
  cbn [seq map]. unfold rounds in *. cbn [fold_left].
  destruct (sha2_step_view s r Hr) as [<- Hok]. rewrite <- Nat.add_succ_comm. by apply IH.
Qed.

Lemma sha2_view_0 i r : reg_ok w 8 r -> (i mod 8 = 0)%nat -> sha2_view i r = r.
Proof.
  intros [Hl _] Hi. unfold sha2_view. rewrite Hi, drop_app_ge, Hl by lia.
  change (8 - 0 - 8)%nat with 0%nat. by rewrite drop_0, take_ge by lia.
Qed.

Lemma sha2_rounds_ref rows m h : rows = map sha2_row_of (seq 0 (8 * m)) -> reg_ok w 8 h ->
  rounds sha2_step rows h = fold_left sha2_ref_step (seq 0 (8 * m)) h /\
  reg_ok w 8 (rounds sha2_step rows h).
Proof.
  intros -> Hh. destruct (sha2_rounds_view (8 * m) 0 h Hh) as [E Hok].
  rewrite (sha2_view_0 0 h), (sha2_view_0 (0 + 8 * m)) in E; try done.
  by rewrite Nat.add_0_l, Nat.mul_comm, Nat.Div0.mod_mul.
Qed.
End rounds.
