(* ===== verification/Sha256.v ===== *)
(** * Sha256: crc/sha256.c

    The 64 unrolled rounds as rows of [Sha2], the message schedule, and
    [fio_sha256_init], [fio_sha256_update] and [fio_sha256_final] with their
    32-bit counters.  [sctx->buf] is the 64-byte block buffer, and after
    [fio_sha256_final] it is also what [verify.c] stores and compares.

    The compression function is that of FIPS 180.  The field is not the digest:
    the length is appended in the byte order of the machine, and the final loop
    stores one byte of each of the eight 32-bit state words, over the first
    eight bytes of the last block. *)
From S2P Require Import Prelude Digest Sha2.

(** ** The code *)
Definition Ch (x y z : Z) : Z := Z.lxor z (Z.land x (Z.lxor y z)).
Definition Maj (x y z : Z) : Z := Z.lor (Z.land x y) (Z.land z (Z.lor x y)).
Definition ror32 (word shift : Z) : Z := rotr 32 word shift.
Definition e0 (x : Z) : Z := Z.lxor (Z.lxor (ror32 x 2) (ror32 x 13)) (ror32 x 22).
Definition e1 (x : Z) : Z := Z.lxor (Z.lxor (ror32 x 6) (ror32 x 11)) (ror32 x 25).
Definition s0 (x : Z) : Z := Z.lxor (Z.lxor (ror32 x 7) (ror32 x 18)) (Z.shiftr x 3).
Definition s1 (x : Z) : Z := Z.lxor (Z.lxor (ror32 x 17) (ror32 x 19)) (Z.shiftr x 10).

Definition LOAD_OP (input : list Z) (I : nat) : Z := be_word 4 input I.

(** The next word of the schedule, [I] being the number of words so far. *)
Definition BLEND_OP (W : list Z) : Z :=
  let I := length W in
  u32 (s1 (W !!! (I - 2)%nat) + W !!! (I - 7)%nat + s0 (W !!! (I - 15)%nat) + W !!! (I - 16)%nat).

Definition sha256_W (input : list Z) : list Z :=
  extend BLEND_OP 48 (map (LOAD_OP input) (seq 0 16)).

Definition sha256_rows : list sha2_row :=
  let a := 0%nat in let b := 1%nat in let c := 2%nat in let d := 3%nat in
  let e := 4%nat in let f := 5%nat in let g := 6%nat in let h := 7%nat in
  [ROUND a b c d e f g h 0x428a2f98 0;
   ROUND h a b c d e f g 0x71374491 1;
   ROUND g h a b c d e f 0xb5c0fbcf 2;
   ROUND f g h a b c d e 0xe9b5dba5 3;
   ROUND e f g h a b c d 0x3956c25b 4;
   ROUND d e f g h a b c 0x59f111f1 5;
   ROUND c d e f g h a b 0x923f82a4 6;
   ROUND b c d e f g h a 0xab1c5ed5 7;
   ROUND a b c d e f g h 0xd807aa98 8;
   ROUND h a b c d e f g 0x12835b01 9;
   ROUND g h a b c d e f 0x243185be 10;
   ROUND f g h a b c d e 0x550c7dc3 11;
   ROUND e f g h a b c d 0x72be5d74 12;
   ROUND d e f g h a b c 0x80deb1fe 13;
   ROUND c d e f g h a b 0x9bdc06a7 14;
   ROUND b c d e f g h a 0xc19bf174 15;
   ROUND a b c d e f g h 0xe49b69c1 16;
   ROUND h a b c d e f g 0xefbe4786 17;
   ROUND g h a b c d e f 0x0fc19dc6 18;
   ROUND f g h a b c d e 0x240ca1cc 19;
   ROUND e f g h a b c d 0x2de92c6f 20;
   ROUND d e f g h a b c 0x4a7484aa 21;
   ROUND c d e f g h a b 0x5cb0a9dc 22;
   ROUND b c d e f g h a 0x76f988da 23;
   ROUND a b c d e f g h 0x983e5152 24;
   ROUND h a b c d e f g 0xa831c66d 25;
   ROUND g h a b c d e f 0xb00327c8 26;
   ROUND f g h a b c d e 0xbf597fc7 27;
   ROUND e f g h a b c d 0xc6e00bf3 28;
   ROUND d e f g h a b c 0xd5a79147 29;
   ROUND c d e f g h a b 0x06ca6351 30;
   ROUND b c d e f g h a 0x14292967 31;
   ROUND a b c d e f g h 0x27b70a85 32;
   ROUND h a b c d e f g 0x2e1b2138 33;
   ROUND g h a b c d e f 0x4d2c6dfc 34;
   ROUND f g h a b c d e 0x53380d13 35;
   ROUND e f g h a b c d 0x650a7354 36;
   ROUND d e f g h a b c 0x766a0abb 37;
   ROUND c d e f g h a b 0x81c2c92e 38;
   ROUND b c d e f g h a 0x92722c85 39;
   ROUND a b c d e f g h 0xa2bfe8a1 40;
   ROUND h a b c d e f g 0xa81a664b 41;
   ROUND g h a b c d e f 0xc24b8b70 42;
   ROUND f g h a b c d e 0xc76c51a3 43;
   ROUND e f g h a b c d 0xd192e819 44;
   ROUND d e f g h a b c 0xd6990624 45;
   ROUND c d e f g h a b 0xf40e3585 46;
   ROUND b c d e f g h a 0x106aa070 47;
   ROUND a b c d e f g h 0x19a4c116 48;
   ROUND h a b c d e f g 0x1e376c08 49;
   ROUND g h a b c d e f 0x2748774c 50;
   ROUND f g h a b c d e 0x34b0bcb5 51;
   ROUND e f g h a b c d 0x391c0cb3 52;
   ROUND d e f g h a b c 0x4ed8aa4a 53;
   ROUND c d e f g h a b 0x5b9cca4f 54;
   ROUND b c d e f g h a 0x682e6ff3 55;
   ROUND a b c d e f g h 0x748f82ee 56;
   ROUND h a b c d e f g 0x78a5636f 57;
   ROUND g h a b c d e f 0x84c87814 58;
   ROUND f g h a b c d e 0x8cc70208 59;
   ROUND e f g h a b c d 0x90befffa 60;
   ROUND d e f g h a b c 0xa4506ceb 61;
   ROUND c d e f g h a b 0xbef9a3f7 62;
   ROUND b c d e f g h a 0xc67178f2 63].

Definition sha256_transform (state input : list Z) : list Z :=
  add_regs 32 state (rounds (sha2_step 32 e0 e1 Ch Maj (sha256_W input)) sha256_rows state).

Record fio_sha256_ctx := Ctx { count : Z; state : list Z; buf : list Z }.

Definition fio_sha256_init (sctx : fio_sha256_ctx) : fio_sha256_ctx :=
  Ctx 0 [0x6a09e667; 0xbb67ae85; 0x3c6ef372; 0xa54ff53a; 0x510e527f; 0x9b05688c; 0x1f83d9ab; 0x5be0cd19]
    (buf sctx).

(** [block_update] with 64-byte blocks and [sctx->count & 0x3f] buffered bytes. *)
Definition fio_sha256_update (sctx : fio_sha256_ctx) (data : list Z) : option fio_sha256_ctx :=
  let partial := Z.land (count sctx) 0x3f in
  let cnt := u32 (count sctx + Z.of_nat (length data)) in
  '(st, b, _) ← block_update 64 sha256_transform (state sctx) (buf sctx) partial data;
  Some (Ctx cnt st b).

(** [static const uint8_t padding[64] = { 0x80, }]. *)
Definition sha256_padding : list Z := 0x80 :: replicate 63 0.

Definition fio_sha256_final (sctx : fio_sha256_ctx) : option fio_sha256_ctx :=
  let bits := shl 64 (count sctx) 3 in
  let index := Z.land (count sctx) 0x3f in
  let pad_len := if index <? 56 then 56 - index else (64 + 56) - index in
  sctx ← fio_sha256_update sctx (take (Z.to_nat pad_len) sha256_padding);
  sctx ← fio_sha256_update sctx (le_bytes 8 bits);
  b ← mem_write (buf sctx) 0 (map u8 (state sctx));
  Some (Ctx (count sctx) (state sctx) b).

(** What [verify.c] stores: the buffer after the final call. *)
Definition fio_sha256 (b : list Z) (chunks : list (list Z)) : option (list Z) :=
  c ← updates fio_sha256_update (fio_sha256_init (Ctx 0 [] b)) chunks;
  c ← fio_sha256_final c; Some (buf c).

(** ** The reference *)
Definition sha256_K : list Z := Eval vm_compute in map (cbrt_frac 32) (first_primes 64 320).

(** The compression function of FIPS 180. *)
Definition sha256_block (h input : list Z) : list Z :=
  add_regs 32 h (fold_left (sha2_ref_step 32 e0 e1 (sha256_W input) sha256_K) (seq 0 64) h).

(** The padding of the code, its length field least significant byte first. *)
Definition sha256_pad (len : nat) : list Z :=
  [0x80] ++ replicate (Z.to_nat ((55 - Z.of_nat len) mod 64)) 0 ++ le_bytes 8 (8 * Z.of_nat len).

(** The chaining value after the padded message, and its last block. *)
Definition sha256_chain (msg : list Z) : list Z :=
  (absorb_blocks 64 sha256_block (state (fio_sha256_init (Ctx 0 [] [])))
     (msg ++ sha256_pad (length msg))).1.
Definition last_block (p : list Z) : list Z := drop (length p - 64) p.

(** ** The rounds *)
Lemma sha256_rows_of : sha256_rows = map (sha2_row_of sha256_K) (seq 0 64).
Proof. vm_compute. reflexivity. Qed.

Lemma Ch_fips x y z : uint 32 x -> uint 32 y -> uint 32 z -> Ch x y z = fips_Ch 32 x y z.
Proof. intros Hx Hy Hz. unfold Ch, fips_Ch. bits_table 32. Qed.

Lemma Maj_fips x y z : uint 32 x -> uint 32 y -> uint 32 z -> Maj x y z = fips_Maj x y z.
Proof. intros Hx Hy Hz. unfold Maj, fips_Maj. bits_table 32. Qed.

Lemma sha256_transform_ref h input : reg_ok 32 8 h ->
  sha256_transform h input = sha256_block h input /\ reg_ok 32 8 (sha256_transform h input).
Proof.
  intros Hh. unfold sha256_transform, sha256_block.
  destruct (sha2_rounds_ref 32 e0 e1 Ch Maj (sha256_W input) sha256_K ltac:(lia) Ch_fips Maj_fips
    sha256_rows 8 h sha256_rows_of Hh) as [E Hok].
  split; [by rewrite E|]. by apply add_regs_ok; [lia|..].
Qed.

(** ** Streaming *)
Definition sha256_H : list Z := state (fio_sha256_init (Ctx 0 [] [])).

Definition sha256_holds (msg : list Z) (c : fio_sha256_ctx) : Prop :=
  absorbed 64 sha256_transform sha256_H msg (state c) (buf c) /\
  count c = u32 (Z.of_nat (length msg)).

Lemma sha256_update_full msg c data (k := (length msg mod 64)%nat) :
  sha256_holds msg c -> Z.of_nat (length data) + 64 <= 2 ^ 32 ->
  exists c', fio_sha256_update c data = Some c' /\ sha256_holds (msg ++ data) c' /\
    ((k <> 0)%nat -> (k + length data = 64)%nat -> buf c' = take k (buf c) ++ data).
Proof.
  intros [Ha Hc] Hlen. pose proof (ab_len _ _ _ _ _ _ Ha) as Hbl.
  unfold fio_sha256_update. rewrite Hc, (land_mask_wrap 32 6) by lia.
  change (Z.to_nat (2 ^ 6)) with 64%nat.
  destruct (block_update_absorb 64 sha256_transform ltac:(lia) sha256_H msg (state c) (buf c) data)
    as (st'&b'&->&Ha'&Hl&Hfull); [by rewrite take_ge by lia|lia|simpl; lia|simpl; lia|].
  cbn [mbind option_bind]. rewrite (take_ge b') in * by lia.
  eexists. split; [done|]. split; [split; [done|]|done]. cbn [count].
  rewrite length_app, Nat2Z.inj_add, wrap_add_l; lia.
Qed.

Lemma sha256_update_holds msg c data :
  sha256_holds msg c -> Z.of_nat (length data) + 64 <= 2 ^ 32 ->
  exists c', fio_sha256_update c data = Some c' /\ sha256_holds (msg ++ data) c'.
Proof. intros Hh Hl. destruct (sha256_update_full msg c data Hh Hl) as (c'&?&?&_). by exists c'. Qed.

(** An update that just completes a block leaves that block in the buffer. *)
Lemma sha256_update_completes msg c data (k := (length msg mod 64)%nat) :
  sha256_holds msg c -> (k <> 0)%nat -> (k + length data = 64)%nat ->
  exists c', fio_sha256_update c data = Some c' /\ sha256_holds (msg ++ data) c' /\
    buf c' = take k (buf c) ++ data.
Proof.
  intros Hh Hk Hl. destruct (sha256_update_full msg c data Hh) as (c'&E&Hh'&Hf); [lia|].
  exists c'. auto.
Qed.

Lemma sha256_pad_bytes (n : nat) (i : Z) : i = Z.of_nat (n mod 64) ->
  take (Z.to_nat (if i <? 56 then 56 - i else 64 + 56 - i)) sha256_padding =
  [0x80] ++ replicate (Z.to_nat ((55 - Z.of_nat n) mod 64)) 0.
Proof.
  intros ->. rewrite Nat2Z.inj_mod. change (Z.of_nat 64) with 64.
  pose proof (Z.mod_pos_bound (55 - Z.of_nat n) 64 ltac:(lia)).
  assert ((if Z.of_nat n mod 64 <? 56 then 56 - Z.of_nat n mod 64 else 64 + 56 - Z.of_nat n mod 64) =
          Z.of_nat (S (Z.to_nat ((55 - Z.of_nat n) mod 64)))) as -> by (zcase; zdm).
  rewrite Nat2Z.id.
  unfold sha256_padding. rewrite firstn_cons, take_replicate. cbn [app]. do 2 f_equal. lia.
Qed.

Lemma sha256_H_ok : reg_ok 32 8 sha256_H.
Proof. split; [done|]. repeat constructor; unfold uint; lia. Qed.

Lemma sha256_state_ok msg st b : absorbed 64 sha256_transform sha256_H msg st b -> reg_ok 32 8 st.
Proof.
  intros Ha. assert (Hst : st = (absorb_blocks 64 sha256_transform sha256_H msg).1)
    by (by rewrite (ab_eq _ _ _ _ _ _ Ha)).
  rewrite Hst. apply absorb_blocks_inv; [lia| |exact sha256_H_ok].
  intros s blk Hs. by apply sha256_transform_ref.
Qed.

Lemma sha256_updates_hold chunks : forall msg c, sha256_holds msg c ->
  Z.of_nat (length (concat chunks)) + 64 <= 2 ^ 32 ->
  exists c', updates fio_sha256_update c chunks = Some c' /\ sha256_holds (msg ++ concat chunks) c'.
Proof.
  unfold updates. induction chunks as [|data chunks IH]; intros msg c Hc Hlen; cbn [foldl concat] in *.
  - exists c. by rewrite app_nil_r.
  - rewrite length_app in Hlen. destruct (sha256_update_holds msg c data Hc) as (c1&E&Hc1); [lia|].
    cbn [mbind option_bind]. rewrite E. destruct (IH _ _ Hc1) as (c'&->&Hc'); [lia|].
    exists c'. by rewrite app_assoc.
Qed.

Lemma sha256_final_holds msg c : sha256_holds msg c -> Z.of_nat (length msg) < 2 ^ 32 ->
  exists c', fio_sha256_final c = Some c' /\
    let p := msg ++ sha256_pad (length msg) in
    buf c' = map u8 (absorb_blocks 64 sha256_transform sha256_H p).1 ++ drop 8 (last_block p).
Proof.
  intros Hh Hlen. pose proof Hh as [_ Hc]. rewrite wrap_small in Hc by (unfold uint; lia).
  unfold fio_sha256_final. rewrite Hc.
  rewrite (sha256_pad_bytes (length msg))
    by (rewrite <- (wrap_small 32 (Z.of_nat (length msg))), (land_mask_wrap 32 6); unfold uint; done || lia).
  set (z := Z.to_nat _). assert (Hz : ((length msg + (1 + z)) mod 64 = 56)%nat).
  { apply Nat2Z.inj. rewrite Nat2Z.inj_mod, !Nat2Z.inj_add. unfold z. zdm. }
  destruct (sha256_update_holds _ _ ([0x80] ++ replicate z 0) Hh) as (c1&->&Hh1);
    [rewrite length_app, length_replicate; unfold z; simpl; zdm|]. cbn [mbind option_bind].
  assert (Hbits : shl 64 (Z.of_nat (length msg)) 3 = 8 * Z.of_nat (length msg))
    by (unfold shl; rewrite Z.shiftl_mul_pow2, wrap_small; unfold uint; lia).
  rewrite Hbits. set (m1 := msg ++ [0x80] ++ replicate z 0) in *.
  assert (Hm1 : (length m1 mod 64 = 56)%nat) by (unfold m1; by rewrite !length_app, length_replicate).
  destruct (sha256_update_completes m1 c1 (le_bytes 8 (8 * Z.of_nat (length msg))) Hh1)
    as (c2&->&[Ha2 _]&Hb2); [lia|rewrite length_le_bytes; lia|]. cbn [mbind option_bind].
  rewrite Hm1 in Hb2. pose proof (ab_len _ _ _ _ _ _ Ha2) as Hbl.
  destruct (sha256_state_ok _ _ _ Ha2) as [Hsl _].
  destruct Hh1 as [Ha1 _]. pose proof (absorb_rest_suffix 64 sha256_transform ltac:(lia) m1 sha256_H) as Hsuf.
  rewrite (ab_eq _ _ _ _ _ _ Ha1), Hm1 in Hsuf. cbn [snd] in Hsuf.
  change (mem_write (buf c2) 0) with (mem_write (buf c2) (Z.of_nat 0)).
  rewrite mem_write_eq by (rewrite length_map; lia). eexists. split; [done|].
  assert (Hp : msg ++ sha256_pad (length msg) = m1 ++ le_bytes 8 (8 * Z.of_nat (length msg)))
    by (unfold m1, sha256_pad; by rewrite <- !app_assoc).
  cbn zeta. rewrite Hp, (ab_eq _ _ _ _ _ _ Ha2). cbn [buf fst]. rewrite take_0, length_map, Hsl. cbn [app].
  f_equal. cbn [Nat.add]. f_equal. unfold last_block.
  pose proof (Nat.div_mod_eq (length m1) 64).
  rewrite length_app, length_le_bytes, drop_app_le, Hb2, Hsuf by lia. do 2 f_equal. lia.
Qed.

Lemma sha256_field_eq b chunks :
  length b = 64%nat -> Z.of_nat (length (concat chunks)) + 64 <= 2 ^ 32 ->
  let msg := concat chunks in
  fio_sha256 b chunks =
    Some (map u8 (sha256_chain msg) ++ drop 8 (last_block (msg ++ sha256_pad (length msg)))).
Proof.
  intros Hb Hlen. cbn zeta. unfold fio_sha256.
  destruct (sha256_updates_hold chunks [] (fio_sha256_init (Ctx 0 [] b))) as (c&->&Hc);
    [split; [by apply absorbed_nil; [lia|]|done]|done|].
  cbn [mbind option_bind]. destruct (sha256_final_holds _ _ Hc) as (c'&->&Hf); [simpl; lia|].
  cbn [mbind option_bind]. cbn zeta in Hf. rewrite Hf. cbn [app]. do 3 f_equal. unfold sha256_chain.
  f_equal. apply (absorb_blocks_ext 64 _ _ (reg_ok 32 8)); [lia| |exact sha256_H_ok].
  intros s blk Hs. by apply sha256_transform_ref.
Qed.

(** After [fio_sha256_init], updates with any pieces of a message below 4 GiB
    and [fio_sha256_final], no access having left a buffer, the 64 bytes that
    [verify.c] stores and compares are: the low byte of each of the eight words
    of the FIPS 180 compression of the message padded with a little-endian
    length, followed by bytes 8 to 63 of the last padded block. *)
Theorem sha256_field b chunks :
  length b = 64%nat -> Z.of_nat (length (concat chunks)) + 64 <= 2 ^ 32 ->
  let msg := concat chunks in
  fio_sha256 b chunks =
    Some (map u8 (sha256_chain msg) ++ drop 8 (last_block (msg ++ sha256_pad (length msg)))).
Proof. exact (sha256_field_eq b chunks). Qed.

Lemma sha256_field_witness :
  fio_sha256 (replicate 64 7) [[0x61]; [0x62; 0x63]] =
    Some (map u8 (sha256_chain [0x61; 0x62; 0x63]) ++
          drop 8 (last_block ([0x61; 0x62; 0x63] ++ sha256_pad 3))).
Proof. apply (sha256_field (replicate 64 7) [[0x61]; [0x62; 0x63]]); [reflexivity|simpl; lia]. Defined.

(** The compression function on the standard padding of "abc" gives the SHA-256
    digest of FIPS 180; what the code stores for "abc" are eight other bytes and
    the padding. *)
Example sha256_abc :
  sha256_block sha256_H ([0x61; 0x62; 0x63; 0x80] ++ replicate 52 0 ++ rev (le_bytes 8 24)) =
    [0xba7816bf; 0x8f01cfea; 0x414140de; 0x5dae2223; 0xb00361a3; 0x96177a9c; 0xb410ff61; 0xf20015ad] /\
  fio_sha256 (replicate 64 0) [[0x61; 0x62; 0x63]] =
    Some ([0xec; 0xd7; 0x46; 0xf4; 0x0a; 0x9b; 0xf5; 0x68] ++ replicate 48 0 ++ [24; 0; 0; 0; 0; 0; 0; 0]).
Proof. split; vm_compute; reflexivity. Qed.
