(* ===== verification/Sha512.v ===== *)
(** * Sha512: crc/sha512.c

    The rounds, eight lines in a loop of ten, as rows of [Sha2], and
    [fio_sha512_init] and [fio_sha512_update] with the bit counter of four
    words.  The schedule array of the context is scratch space, cleared after
    each update, and is not kept.  There is no final call in the source:
    [sctx->buf], the 128-byte block buffer, is what [verify.c] stores and
    compares.  [sha512_buffer] says what is in it. *)
From S2P Require Import Prelude Digest Sha2.

(** ** The code *)
Definition Ch (x y z : Z) : Z := Z.lxor z (Z.land x (Z.lxor y z)).
Definition Maj (x y z : Z) : Z := Z.lor (Z.land x y) (Z.land z (Z.lor x y)).
Definition RORuint64_t (x y : Z) : Z := rotr 64 x y.

Definition sha512_K : list Z :=
  [0x428a2f98d728ae22; 0x7137449123ef65cd; 0xb5c0fbcfec4d3b2f;
   0xe9b5dba58189dbbc; 0x3956c25bf348b538; 0x59f111f1b605d019;
   0x923f82a4af194f9b; 0xab1c5ed5da6d8118; 0xd807aa98a3030242;
   0x12835b0145706fbe; 0x243185be4ee4b28c; 0x550c7dc3d5ffb4e2;
   0x72be5d74f27b896f; 0x80deb1fe3b1696b1; 0x9bdc06a725c71235;
   0xc19bf174cf692694; 0xe49b69c19ef14ad2; 0xefbe4786384f25e3;
   0x0fc19dc68b8cd5b5; 0x240ca1cc77ac9c65; 0x2de92c6f592b0275;
   0x4a7484aa6ea6e483; 0x5cb0a9dcbd41fbd4; 0x76f988da831153b5;
   0x983e5152ee66dfab; 0xa831c66d2db43210; 0xb00327c898fb213f;
   0xbf597fc7beef0ee4; 0xc6e00bf33da88fc2; 0xd5a79147930aa725;
   0x06ca6351e003826f; 0x142929670a0e6e70; 0x27b70a8546d22ffc;
   0x2e1b21385c26c926; 0x4d2c6dfc5ac42aed; 0x53380d139d95b3df;
   0x650a73548baf63de; 0x766a0abb3c77b2a8; 0x81c2c92e47edaee6;
   0x92722c851482353b; 0xa2bfe8a14cf10364; 0xa81a664bbc423001;
   0xc24b8b70d0f89791; 0xc76c51a30654be30; 0xd192e819d6ef5218;
   0xd69906245565a910; 0xf40e35855771202a; 0x106aa07032bbd1b8;
   0x19a4c116b8d2d0c8; 0x1e376c085141ab53; 0x2748774cdf8eeb99;
   0x34b0bcb5e19b48a8; 0x391c0cb3c5c95a63; 0x4ed8aa4ae3418acb;
   0x5b9cca4f7763e373; 0x682e6ff3d6b2b8a3; 0x748f82ee5defb2fc;
   0x78a5636f43172f60; 0x84c87814a1f0ab72; 0x8cc702081a6439ec;
   0x90befffa23631e28; 0xa4506cebde82bde9; 0xbef9a3f7b2c67915;
   0xc67178f2e372532b; 0xca273eceea26619c; 0xd186b8c721c0c207;
   0xeada7dd6cde0eb1e; 0xf57d4f7fee6ed178; 0x06f067aa72176fba;
   0x0a637dc5a2c898a6; 0x113f9804bef90dae; 0x1b710b35131c471b;
   0x28db77f523047d84; 0x32caab7b40c72493; 0x3c9ebe0a15c9bebc;
   0x431d67c49c100d4c; 0x4cc5d4becb3e42b6; 0x597f299cfc657e2a;
   0x5fcb6fab3ad6faec; 0x6c44198c4a475817].

Definition e0 (x : Z) : Z := Z.lxor (Z.lxor (RORuint64_t x 28) (RORuint64_t x 34)) (RORuint64_t x 39).
Definition e1 (x : Z) : Z := Z.lxor (Z.lxor (RORuint64_t x 14) (RORuint64_t x 18)) (RORuint64_t x 41).
Definition s0 (x : Z) : Z := Z.lxor (Z.lxor (RORuint64_t x 1) (RORuint64_t x 8)) (Z.shiftr x 7).
Definition s1 (x : Z) : Z := Z.lxor (Z.lxor (RORuint64_t x 19) (RORuint64_t x 61)) (Z.shiftr x 6).

Definition LOAD_OP (input : list Z) (I : nat) : Z := be_word 8 input I.

Definition BLEND_OP (W : list Z) : Z :=
  let I := length W in
  u64 (s1 (W !!! (I - 2)%nat) + W !!! (I - 7)%nat + s0 (W !!! (I - 15)%nat) + W !!! (I - 16)%nat).

Definition sha512_W (input : list Z) : list Z :=
  extend BLEND_OP 64 (map (LOAD_OP input) (seq 0 16)).

(** The body of the loop over [i]. *)
Definition sha512_body (i : nat) : list sha2_row :=
  let R a b c d e f g h j := ROUND a b c d e f g h (sha512_K !!! j) j in
  let a := 0%nat in let b := 1%nat in let c := 2%nat in let d := 3%nat in
  let e := 4%nat in let f := 5%nat in let g := 6%nat in let h := 7%nat in
  [R a b c d e f g h i;
   R h a b c d e f g (i + 1);
   R g h a b c d e f (i + 2);
   R f g h a b c d e (i + 3);
   R e f g h a b c d (i + 4);
   R d e f g h a b c (i + 5);
   R c d e f g h a b (i + 6);
   R b c d e f g h a (i + 7)]%nat.

(** [for (i = 0; i < 80; i += 8)]. *)
Definition sha512_rows : list sha2_row := concat (map (fun g => sha512_body (8 * g)) (seq 0 10)).

Definition sha512_transform (state input : list Z) : list Z :=
  add_regs 64 state (rounds (sha2_step 64 e0 e1 Ch Maj (sha512_W input)) sha512_rows state).

Record fio_sha512_ctx := Ctx { state : list Z; count : list Z; buf : list Z }.

Definition fio_sha512_init (sctx : fio_sha512_ctx) : fio_sha512_ctx :=
  Ctx [0x6a09e667f3bcc908; 0xbb67ae8584caa73b; 0x3c6ef372fe94f82b; 0xa54ff53a5f1d36f1;
       0x510e527fade682d1; 0x9b05688c2b3e6c1f; 0x1f83d9abfb41bd6b; 0x5be0cd19137e2179]
    [0; 0; 0; 0] (buf sctx).

(** The number of bits: [count[1] += len >> 29] only when [count[0]] carries. *)
Definition sha512_count (count : list Z) (len : Z) : list Z :=
  let bits := shl 32 len 3 in
  let c0 := u32 (count !!! 0%nat + bits) in
  let count := <[0%nat := c0]> count in
  if c0 <? bits then
    let c1 := u32 (count !!! 1%nat + 1) in
    let count := <[1%nat := c1]> count in
    let count :=
      if c1 <? 1 then
        let c2 := u32 (count !!! 2%nat + 1) in
        let count := <[2%nat := c2]> count in
        if c2 <? 1 then <[3%nat := u32 (count !!! 3%nat + 1)]> count else count
      else count in
    <[1%nat := u32 (count !!! 1%nat + Z.shiftr len 29)]> count
  else count.

(** [for (i = part_len; i + 127 < len; i += 128)]: the state and the final [i]. *)
Fixpoint sha512_for (fuel : nat) (st data : list Z) (i : Z) : option (list Z * Z) :=
  if u32 (i + 127) <? Z.of_nat (length data) then
    match fuel with
    | O => None
    | S fuel =>
        blk ← mem_read data i 128;
        sha512_for fuel (sha512_transform st blk) data (u32 (i + 128))
    end
  else Some (st, i).

Definition fio_sha512_update (sctx : fio_sha512_ctx) (data : list Z) : option fio_sha512_ctx :=
  let len := Z.of_nat (length data) in
  let idx := Z.land (Z.shiftr (count sctx !!! 0%nat) 3) 0x7f in
  let cnt := sha512_count (count sctx) len in
  let part_len := 128 - idx in
  '(st, b, idx, i) ←
    (if part_len <=? len then
       head ← mem_read data 0 part_len;
       b ← mem_write (buf sctx) idx head;
       let st := sha512_transform (state sctx) b in
       '(st, i) ← sha512_for (length data) st data part_len;
       Some (st, b, 0, i)
     else Some (state sctx, buf sctx, idx, 0));
  tail ← mem_read data i (len - i);
  b ← mem_write b idx tail;
  Some (Ctx st cnt b).

(** What [verify.c] stores: the block buffer after one update. *)
Definition fio_sha512 (b data : list Z) : option (list Z) :=
  c ← fio_sha512_update (fio_sha512_init (Ctx [] [] b)) data; Some (buf c).

(** ** The rounds *)
Definition sha512_block (h input : list Z) : list Z :=
  add_regs 64 h (fold_left (sha2_ref_step 64 e0 e1 (sha512_W input)
    (map (cbrt_frac 64) (first_primes 80 410))) (seq 0 80) h).

(** The table of the code is that of the standard. *)
Lemma sha512_K_fips : map (cbrt_frac 64) (first_primes 80 410) = sha512_K.
Proof. vm_compute. reflexivity. Qed.

Lemma sha512_rows_of : sha512_rows = map (sha2_row_of sha512_K) (seq 0 80).
Proof. vm_compute. reflexivity. Qed.

Lemma Ch_fips64 x y z : uint 64 x -> uint 64 y -> uint 64 z -> Ch x y z = fips_Ch 64 x y z.
Proof. intros Hx Hy Hz. unfold Ch, fips_Ch. bits_table 64. Qed.

Lemma Maj_fips64 x y z : uint 64 x -> uint 64 y -> uint 64 z -> Maj x y z = fips_Maj x y z.
Proof. intros Hx Hy Hz. unfold Maj, fips_Maj. bits_table 64. Qed.

(** The unrolled loop is the compression function of FIPS 180. *)
Lemma sha512_transform_ref h input : reg_ok 64 8 h ->
  sha512_transform h input = sha512_block h input /\ reg_ok 64 8 (sha512_transform h input).
Proof.
  intros Hh. unfold sha512_transform, sha512_block. rewrite sha512_K_fips.
  destruct (sha2_rounds_ref 64 e0 e1 Ch Maj (sha512_W input) sha512_K ltac:(lia) Ch_fips64 Maj_fips64
    sha512_rows 10 h sha512_rows_of Hh) as [E Hok].
  split; [by rewrite E|]. by apply add_regs_ok; [lia|..].
Qed.

Example sha512_abc :
  sha512_transform (state (fio_sha512_init (Ctx [] [] [])))
    ([0x61; 0x62; 0x63; 0x80] ++ replicate 123 0 ++ [24]) =
  [0xddaf35a193617aba; 0xcc417349ae204131; 0x12e6fa4e89a97ea2; 0x0a9eeee64b55d39a;
   0x2192992a274fc1a8; 0x36ba3c23a3feebbd; 0x454d4423643ce80e; 0x2a9ac94fa54ca49f].
Proof. vm_compute. reflexivity. Qed.

(** ** The buffer after an update *)
Lemma sha512_for_ends fuel : forall st data i,
  Z.of_nat (length data) + 128 <= 2 ^ 32 -> 0 <= i <= Z.of_nat (length data) ->
  Z.of_nat (length data) - i <= Z.of_nat fuel ->
  exists st' i', sha512_for fuel st data i = Some (st', i') /\
    i <= i' <= Z.of_nat (length data) /\ Z.of_nat (length data) - i' < 128 /\ (i' - i) mod 128 = 0.
Proof.
  induction fuel as [|fuel IH]; intros st data i Hlen Hi Hf; cbn [sha512_for];
    rewrite (wrap_small 32 (i + 127)) by (unfold uint; lia).
  all: destruct (Z.ltb_spec (i + 127) (Z.of_nat (length data))); try lia.
  2: { rewrite mem_read_Some, (wrap_small 32 (i + 128)) by (unfold uint; lia). cbn [mbind option_bind].
       edestruct (IH (sha512_transform st (take (Z.to_nat 128) (drop (Z.to_nat i) data))) data (i + 128))
         as (st'&i'&->&Hi'&Hr&Hm); [lia..|]. exists st', i'. repeat split; try lia.
       rewrite <- Hm. replace (i' - i) with (i' - (i + 128) + 1 * 128) by lia. by rewrite Z_mod_plus_full. }
  all: exists st, i; repeat split; try lia; by rewrite Z.sub_diag.
Qed.

(** The contents of the field for a block of data: the last incomplete block of
    the data over the first block. *)
Lemma sha512_buffer b data :
  length b = 128%nat -> (128 <= length data)%nat -> Z.of_nat (length data) + 128 <= 2 ^ 32 ->
  let r := (length data mod 128)%nat in
  fio_sha512 b data = Some (drop (length data - r) data ++ drop r (take 128 data)).
Proof.
  intros Hb Hge Hlen. cbn zeta. unfold fio_sha512, fio_sha512_update. cbn [fio_sha512_init count state buf].
  change (Z.land (Z.shiftr ([0; 0; 0; 0] !!! 0%nat) 3) 0x7f) with 0. cbn zeta.
  rewrite (proj2 (Z.leb_le _ _)), mem_read_Some, drop_0 by lia. cbn [mbind option_bind].
  change (Z.to_nat (128 - 0)) with 128%nat.
  destruct (fills_write0 b (take 128 data)) as (b1&->&Hl1&Hf1); [rewrite length_take; lia|].
  apply fills_all in Hf1; [|rewrite length_take; lia]. cbn [mbind option_bind].
  edestruct (sha512_for_ends (length data)) as (st'&i'&->&Hi&Hr&Hm); [lia|lia|lia|].
  cbn [mbind option_bind]. rewrite mem_read_Some by lia. cbn [mbind option_bind].
  assert (Hi' : Z.of_nat (length data) - i' = Z.of_nat (length data mod 128)).
  { rewrite Nat2Z.inj_mod. change (Z.of_nat 128) with 128. zdm. }
  rewrite Hi', Nat2Z.id. pose proof (Nat.mod_upper_bound (length data) 128 ltac:(lia)).
  replace (Z.to_nat i') with (length data - length data mod 128)%nat by lia.
  rewrite take_ge by (rewrite length_drop; lia).
  change (mem_write b1 0) with (mem_write b1 (Z.of_nat 0)).
  rewrite mem_write_eq by (rewrite length_drop; lia). cbn [mbind option_bind buf].
  rewrite take_0, length_drop, Hf1. cbn [app Nat.add]. do 3 f_equal.
  pose proof (Nat.Div0.mod_le (length data) 128). lia.
Qed.

(** [verify=sha512] stores the block buffer, not a digest.  Two blocks of
    data of the same length that agree on their first 128 bytes and on their
    last [length mod 128] bytes get the same 128-byte field, whatever lies
    between. *)
Theorem sha512_ignores_middle b1 b2 d1 d2 :
  length b1 = 128%nat -> length b2 = 128%nat -> length d1 = length d2 ->
  (128 <= length d1)%nat -> Z.of_nat (length d1) + 128 <= 2 ^ 32 ->
  take 128 d1 = take 128 d2 ->
  let r := (length d1 mod 128)%nat in
  drop (length d1 - r) d1 = drop (length d1 - r) d2 ->
  fio_sha512 b1 d1 = fio_sha512 b2 d2 /\ is_Some (fio_sha512 b1 d1).
Proof.
  intros Hb1 Hb2 Hl Hge Hlen Hh r Ht.
  rewrite !sha512_buffer by (done || lia). rewrite <- Hl. fold r. rewrite Ht, Hh. by split; [|eexists].
Qed.

(** 300 bytes, all zero but one in the middle that differs. *)
Lemma sha512_ignores_middle_witness :
  let d x := replicate 200 0 ++ [x] ++ replicate 99 0 in
  fio_sha512 (replicate 128 7) (d 0) = fio_sha512 (replicate 128 9) (d 255).
Proof.
  cbn zeta.
  apply (sha512_ignores_middle (replicate 128 7) (replicate 128 9)
    (replicate 200 0 ++ [0] ++ replicate 99 0) (replicate 200 0 ++ [255] ++ replicate 99 0));
    try reflexivity; vm_compute; congruence || lia.
Defined.
