(* ===== verification/Sha3.v ===== *)
(** * Sha3: crc/sha3.c

    Keccak-f[1600] with its in-place steps on [st[25]], and the sponge:
    [fio_sha3_init] with its four sizes, [fio_sha3_update] and
    [fio_sha3_final].  The reference is FIPS 202: lanes [A[x, y]] at place
    [x + 5 * y], the five steps as functions of the whole state, the rotation
    offsets from the walk over the lanes and the round constants from the
    linear feedback shift register, and the sponge over the padded message. *)
From S2P Require Import Prelude Digest.

(** ** The permutation *)
Definition ROTL64 (x y : Z) : Z := rotl 64 x y.

Definition keccakf_rndc : list Z :=
  [0x0000000000000001; 0x0000000000008082; 0x800000000000808a;
   0x8000000080008000; 0x000000000000808b; 0x0000000080000001;
   0x8000000080008081; 0x8000000000008009; 0x000000000000008a;
   0x0000000000000088; 0x0000000080008009; 0x000000008000000a;
   0x000000008000808b; 0x800000000000008b; 0x8000000000008089;
   0x8000000000008003; 0x8000000000008002; 0x8000000000000080;
   0x000000000000800a; 0x800000008000000a; 0x8000000080008081;
   0x8000000000008080; 0x0000000080000001; 0x8000000080008008].
Definition keccakf_rotc : list Z :=
  [1; 3; 6; 10; 15; 21; 28; 36; 45; 55; 2; 14;
   27; 41; 56; 8; 25; 43; 62; 18; 39; 61; 20; 44].
Definition keccakf_piln : list nat :=
  [10; 7; 11; 17; 18; 3; 5; 16; 8; 21; 24; 4;
   15; 23; 19; 13; 12; 2; 20; 14; 22; 9; 6; 1]%nat.

Definition lxor5 (st : list Z) (i : nat) : Z :=
  Z.lxor (Z.lxor (Z.lxor (Z.lxor (st !!! i) (st !!! (i + 5)%nat)) (st !!! (i + 10)%nat))
    (st !!! (i + 15)%nat)) (st !!! (i + 20)%nat).

(** [st[i] ^= v]. *)
Definition xor_at (st : list Z) (i : nat) (v : Z) : list Z := <[i := Z.lxor (st !!! i) v]> st.

Definition theta (st : list Z) : list Z :=
  let bc := map (lxor5 st) (seq 0 5) in
  fold_left (fun st i =>
    let t := Z.lxor (bc !!! ((i + 4) mod 5)%nat) (ROTL64 (bc !!! ((i + 1) mod 5)%nat) 1) in
    fold_left (fun st j => xor_at st (j + i) t) [0; 5; 10; 15; 20]%nat st) (seq 0 5) st.

Definition rho_pi (st : list Z) : list Z :=
  (fold_left (fun '(st, t) i =>
    let j := keccakf_piln !!! i in
    let bc0 := st !!! j in
    (<[j := ROTL64 t (keccakf_rotc !!! i)]> st, bc0)) (seq 0 24) (st, st !!! 1%nat)).1.

Definition chi (st : list Z) : list Z :=
  fold_left (fun st j =>
    let bc := map (fun i => st !!! (j + i)%nat) (seq 0 5) in
    fold_left (fun st i =>
      xor_at st (j + i) (Z.land (bnot 64 (bc !!! ((i + 1) mod 5)%nat)) (bc !!! ((i + 2) mod 5)%nat)))
      (seq 0 5) st) [0; 5; 10; 15; 20]%nat st.

Definition keccak_round (st : list Z) (round : nat) : list Z :=
  xor_at (chi (rho_pi (theta st))) 0 (keccakf_rndc !!! round).

Definition keccakf (st : list Z) : list Z := fold_left keccak_round (seq 0 24) st.

(** ** The sponge *)
Record fio_sha3_ctx := Ctx {
  st : list Z; md_len : Z; rsiz : Z; rsizw : Z; partial : Z; buf : list Z; sha : list Z
}.

Definition SHA3_224_DIGEST_SIZE : Z := 224 / 8.
Definition SHA3_256_DIGEST_SIZE : Z := 256 / 8.
Definition SHA3_384_DIGEST_SIZE : Z := 384 / 8.
Definition SHA3_512_DIGEST_SIZE : Z := 512 / 8.
Definition SHA3_224_BLOCK_SIZE : Z := 200 - 2 * SHA3_224_DIGEST_SIZE.

Definition fio_sha3_init (sctx : fio_sha3_ctx) (digest_sz : Z) : fio_sha3_ctx :=
  Ctx (replicate 25 0) digest_sz (200 - 2 * digest_sz) ((200 - 2 * digest_sz) / 8) 0
    (replicate (Z.to_nat SHA3_224_BLOCK_SIZE) 0) (sha sctx).
Definition fio_sha3_224_init sctx := fio_sha3_init sctx SHA3_224_DIGEST_SIZE.
Definition fio_sha3_256_init sctx := fio_sha3_init sctx SHA3_256_DIGEST_SIZE.
Definition fio_sha3_384_init sctx := fio_sha3_init sctx SHA3_384_DIGEST_SIZE.
Definition fio_sha3_512_init sctx := fio_sha3_init sctx SHA3_512_DIGEST_SIZE.

(** [for (i = 0; i < rsizw; i++) st[i] ^= ((uint64_t * ) src)[i]; keccakf(st);]. *)
Definition sha3_block (rsizw : Z) (st src : list Z) : list Z :=
  keccakf (fold_left (fun st i => xor_at st i (le_word 8 src i)) (seq 0 (Z.to_nat rsizw)) st).

(** [block_update] with [rsiz]-byte blocks and [sctx->partial] buffered bytes. *)
Definition fio_sha3_update (c : fio_sha3_ctx) (data : list Z) : option fio_sha3_ctx :=
  '(s, b, p) ← block_update (Z.to_nat (rsiz c)) (sha3_block (rsizw c)) (st c) (buf c) (partial c) data;
  Some (Ctx s (md_len c) (rsiz c) (rsizw c) p b (sha c)).

Definition fio_sha3_final (c : fio_sha3_ctx) : option fio_sha3_ctx :=
  let inlen := partial c in
  b ← mem_write (buf c) inlen [0x06];
  let inlen := inlen + 1 in
  b ← mem_write b inlen (replicate (Z.to_nat (rsiz c - inlen)) 0);
  last ← arr_get b (rsiz c - 1);
  b ← arr_set b (rsiz c - 1) (Z.lor last 0x80);
  let s := sha3_block (rsizw c) (st c) b in
  out ← mem_read (concat (map (le_bytes 8) s)) 0 (md_len c);
  h ← mem_write (sha c) 0 out;
  Some (Ctx s (md_len c) (rsiz c) (rsizw c) (partial c) b h).

(** The digest of a message that arrives in pieces. *)
Definition fio_sha3 (digest_sz : Z) (out : list Z) (chunks : list (list Z)) : option (list Z) :=
  c ← updates fio_sha3_update (fio_sha3_init (Ctx [] 0 0 0 0 [] out) digest_sz) chunks;
  c ← fio_sha3_final c; Some (sha c).

(** ** The reference: FIPS 202 *)
Definition lane (A : list Z) (x y : nat) : Z := A !!! (x mod 5 + 5 * (y mod 5))%nat.
Definition lanes (F : nat -> nat -> Z) : list Z := map (fun i => F (i mod 5)%nat (i / 5)%nat) (seq 0 25).

Definition column (A : list Z) (x : nat) : Z :=
  Z.lxor (Z.lxor (Z.lxor (Z.lxor (lane A x 0) (lane A x 1)) (lane A x 2)) (lane A x 3)) (lane A x 4).

Definition theta_ref (A : list Z) : list Z :=
  lanes (fun x y => Z.lxor (lane A x y) (Z.lxor (column A (x + 4)) (rotl 64 (column A (x + 1)) 1))).

(** The offset of lane (x, y): [(t + 1)(t + 2)/2] at the [t]-th step of the walk
    (x, y) -> (y, 2x + 3y) from (1, 0). *)
Definition rho_walk : list (nat * nat * Z) :=
  (fix go (fuel : nat) (t : Z) (x y : nat) : list (nat * nat * Z) :=
     match fuel with
     | O => []
     | S fuel => (x, y, ((t + 1) * (t + 2) / 2) mod 64) :: go fuel (t + 1) y ((2 * x + 3 * y) mod 5)%nat
     end) 24%nat 0 1%nat 0%nat.

Definition rho_offset (x y : nat) : Z :=
  match list_find (fun e => e.1 = (x, y)) rho_walk with Some (_, e) => e.2 | None => 0 end.

(** [A'[x, y] = A[x + 3y, x]] after the rotation of each lane. *)
Definition rho_pi_ref (A : list Z) : list Z :=
  lanes (fun x y => let x' := ((x + 3 * y) mod 5)%nat in
    if decide (x' = 0%nat /\ x = 0%nat) then lane A 0 0 else rotl 64 (lane A x' x) (rho_offset x' x)).

Definition chi_ref (A : list Z) : list Z :=
  lanes (fun x y => Z.lxor (lane A x y) (Z.land (bnot 64 (lane A (x + 1) y)) (lane A (x + 2) y))).

(** The bits [rc(t)] of the register x^8 + x^6 + x^5 + x^4 + 1, and the constant
    of round [ir]: bit [2^j - 1] is [rc(j + 7 ir)]. *)
Definition lfsr_step (r : Z) : Z :=
  let r := Z.shiftl r 1 in if Z.testbit r 8 then Z.lxor r 0x171 else r.
Definition rc (t : nat) : bool := Z.testbit (Nat.iter t lfsr_step 1) 0.
Definition round_constant (ir : nat) : Z :=
  fold_left (fun acc j => if rc (j + 7 * ir) then Z.setbit acc (2 ^ Z.of_nat j - 1) else acc) (seq 0 7) 0.

Definition iota_ref (ir : nat) (B : list Z) : list Z :=
  <[0%nat := Z.lxor (B !!! 0%nat) (round_constant ir)]> B.

Definition keccak_ref_round (A : list Z) (ir : nat) : list Z :=
  iota_ref ir (chi_ref (rho_pi_ref (theta_ref A))).

Definition keccak_ref (A : list Z) : list Z := fold_left keccak_ref_round (seq 0 24) A.

(** Absorbing a block: its words are added to the first lanes. *)
Definition sponge_block (n : nat) (A blk : list Z) : list Z :=
  keccak_ref (imap (fun i a => if (i <? n / 8)%nat then Z.lxor a (le_word 8 blk i) else a) A).

(** The suffix 01, then pad10*1, as bytes. *)
Definition sha3_pad (n len : nat) : list Z :=
  let q := (n - len mod n)%nat in
  if (q =? 1)%nat then [0x86] else 0x06 :: replicate (q - 2) 0 ++ [0x80].

Definition sha3_ref (digest_sz : nat) (msg : list Z) : list Z :=
  let n := (200 - 2 * digest_sz)%nat in
  take digest_sz (concat (map (le_bytes 8)
    (absorb_blocks n (sponge_block n) (replicate 25 0) (msg ++ sha3_pad n (length msg))).1)).

(** ** The permutation is that of the reference *)
Ltac lanes25 l Hl :=
  do 25 (destruct l as [|? l]; [discriminate Hl|]); destruct l; [clear Hl|discriminate Hl].

Lemma theta_spec st : length st = 25%nat -> theta st = theta_ref st.
Proof. intros Hl. lanes25 st Hl. reflexivity. Qed.

Lemma rho_pi_spec st : length st = 25%nat -> rho_pi st = rho_pi_ref st.
Proof. intros Hl. lanes25 st Hl. reflexivity. Qed.

Lemma chi_spec st : length st = 25%nat -> chi st = chi_ref st.
Proof. intros Hl. lanes25 st Hl. reflexivity. Qed.

Lemma lanes_length F : length (lanes F) = 25%nat.
Proof. unfold lanes. by rewrite length_map, length_seq. Qed.

Lemma rndc_spec i : (i < 24)%nat -> keccakf_rndc !!! i = round_constant i.
Proof. intros Hi. do 24 (destruct i as [|i]; [reflexivity|]). lia. Qed.

Lemma keccak_round_spec st i : length st = 25%nat -> (i < 24)%nat ->
  keccak_round st i = keccak_ref_round st i /\ length (keccak_round st i) = 25%nat.
Proof.
  intros Hl Hi. unfold keccak_round, keccak_ref_round, xor_at, iota_ref.
  rewrite theta_spec, rho_pi_spec, chi_spec, rndc_spec by (done || apply lanes_length).
  split; [reflexivity|]. rewrite length_insert. apply lanes_length.
Qed.

Lemma seq_below n : Forall (fun i => (i < n)%nat) (seq 0 n).
Proof. apply list.Forall_forall. intros i Hi. apply elem_of_seq in Hi. lia. Qed.

Lemma keccakf_spec st : length st = 25%nat -> keccakf st = keccak_ref st /\ length (keccakf st) = 25%nat.
Proof.
  exact (fold_left_agree (fun st => length st = 25%nat) (fun i => (i < 24)%nat) keccak_round
    keccak_ref_round (seq 0 24) keccak_round_spec (seq_below 24) st).
Qed.

Lemma xor_words (w : nat -> Z) m : forall st, (m <= length st)%nat ->
  fold_left (fun st i => xor_at st i (w i)) (seq 0 m) st =
  imap (fun i a => if (i <? m)%nat then Z.lxor a (w i) else a) st.
Proof.
  induction m as [|m IH]; intros st Hm.
  - cbn [seq fold_left]. apply list_eq. intros i. rewrite list_lookup_imap. by destruct (st !! i).
  - rewrite seq_S, fold_left_app, IH by lia. cbn [fold_left Nat.add]. apply list_eq. intros i.
    unfold xor_at. destruct (decide (i = m)) as [->|Hne].
    + rewrite list_lookup_insert_eq by (rewrite length_imap; lia).
      rewrite list_lookup_imap.
      destruct (st !! m) as [a|] eqn:Ea; [|apply lookup_ge_None in Ea; lia]. cbn [fmap option_fmap option_map].
      rewrite (list_lookup_total_correct _ m a)
        by (rewrite list_lookup_imap, Ea; cbn [fmap option_fmap option_map]; by rewrite Nat.ltb_irrefl).
      by rewrite (proj2 (Nat.ltb_lt _ _)) by lia.
    + rewrite list_lookup_insert_ne, !list_lookup_imap by done.
      destruct (st !! i) as [a|] eqn:Ea; [|done]. cbn [fmap option_fmap option_map]. f_equal.
      destruct (Nat.ltb_spec i m), (Nat.ltb_spec i (S m)); done || lia.
Qed.

Lemma le_word_take n p i : (8 * i + 8 <= n)%nat -> le_word 8 (take n p) i = le_word 8 p i.
Proof. intros Hi. unfold le_word. rewrite skipn_firstn_comm, take_take. do 2 f_equal. lia. Qed.

Lemma sha3_block_spec r st blk : (8 * r <= 200)%nat -> length st = 25%nat ->
  sha3_block (Z.of_nat r) st blk = sponge_block (8 * r) st blk /\
  length (sha3_block (Z.of_nat r) st blk) = 25%nat.
Proof.
  intros Hr Hl. unfold sha3_block, sponge_block.
  rewrite Nat2Z.id, xor_words, (Nat.mul_comm 8), Nat.div_mul by lia.
  apply keccakf_spec. by rewrite length_imap.
Qed.

Lemma sha3_block_take r st blk :
  sha3_block (Z.of_nat r) st (take (8 * r) blk) = sha3_block (Z.of_nat r) st blk.
Proof.
  unfold sha3_block. rewrite Nat2Z.id.
  destruct (fold_left_agree (fun _ => True) (fun i => (i < r)%nat)
    (fun st i => xor_at st i (le_word 8 (take (8 * r) blk) i)) (fun st i => xor_at st i (le_word 8 blk i))
    (seq 0 r)) with (a := st) as [E _]; [|apply seq_below|done|by rewrite E].
  intros a i _ Hi. rewrite le_word_take by lia. done.
Qed.

Lemma length_lanes_bytes (s : list Z) : length (concat (map (le_bytes 8) s)) = (8 * length s)%nat.
Proof.
  induction s as [|x s IH]; [done|]. cbn [map concat]. rewrite length_app, length_le_bytes, IH. simpl. lia.
Qed.

(** ** Streaming *)
Section sponge.
  Context (d r : nat) (Hr : (8 * r + 2 * d = 200)%nat) (Hd : (28 <= d <= 64)%nat).
  Local Notation n := (8 * r)%nat.
  Local Notation f := (sha3_block (Z.of_nat r)).

Record sha3_holds (out msg : list Z) (c : fio_sha3_ctx) : Prop := {
  sh_absorbed : absorbed n f (replicate 25 0) msg (st c) (take n (buf c));
  sh_buf : length (buf c) = 144%nat;
  sh_partial : partial c = Z.of_nat (length msg mod n);
  sh_rsiz : rsiz c = Z.of_nat n;
  sh_rsizw : rsizw c = Z.of_nat r;
  sh_md_len : md_len c = Z.of_nat d;
  sh_sha : sha c = out;
}.

Lemma sha3_init_holds c0 : sha3_holds (sha c0) [] (fio_sha3_init c0 (Z.of_nat d)).
Proof.
  split; simpl; try done; try lia.
  - apply absorbed_nil; [lia|]. rewrite length_take. cbn [length]. lia.
  - by rewrite Nat.Div0.mod_0_l.
  - replace (200 - 2 * Z.of_nat d) with (Z.of_nat r * 8) by lia. by rewrite Z.div_mul.
Qed.

Lemma sha3_update_holds out msg c data :
  sha3_holds out msg c -> Z.of_nat (length data) + 144 <= 2 ^ 32 ->
  exists c', fio_sha3_update c data = Some c' /\ sha3_holds out (msg ++ data) c'.
Proof.
  intros [Ha Hb Hp Hrs Hrw Hmd Hout] Hlen. unfold fio_sha3_update. rewrite Hp, Hrs, Hrw, Nat2Z.id.
  destruct (block_update_absorb n f ltac:(lia) (replicate 25 0) msg (st c) (buf c) data)
    as (s'&b'&->&Ha'&Hl&_); [done|lia|lia|lia|].
  cbn [mbind option_bind]. eexists. split; [done|]. split; simpl; done || lia.
Qed.

Lemma sha3_updates_hold out chunks : forall msg c, sha3_holds out msg c ->
  Z.of_nat (length (concat chunks)) + 144 <= 2 ^ 32 ->
  exists c', updates fio_sha3_update c chunks = Some c' /\ sha3_holds out (msg ++ concat chunks) c'.
Proof.
  unfold updates. induction chunks as [|data chunks IH]; intros msg c Hc Hlen; cbn [foldl concat] in *.
  - exists c. by rewrite app_nil_r.
  - rewrite length_app in Hlen. destruct (sha3_update_holds out msg c data Hc) as (c1&E&Hc1); [lia|].
    cbn [mbind option_bind]. rewrite E. destruct (IH _ _ Hc1) as (c'&->&Hc'); [lia|].
    exists c'. by rewrite app_assoc.
Qed.

(** The padded last block in the buffer. *)
Lemma sha3_last_block (b0 : list Z) k : length b0 = 144%nat -> (k < n)%nat ->
  exists b1 b2 last b3,
    mem_write b0 (Z.of_nat k) [0x06] = Some b1 /\
    mem_write b1 (Z.of_nat k + 1) (replicate (Z.to_nat (Z.of_nat n - (Z.of_nat k + 1))) 0) = Some b2 /\
    arr_get b2 (Z.of_nat n - 1) = Some last /\
    arr_set b2 (Z.of_nat n - 1) (Z.lor last 0x80) = Some b3 /\
    take n b3 = take k b0 ++ (if (n - k =? 1)%nat then [0x86] else 0x06 :: replicate (n - k - 2) 0 ++ [0x80]).
Proof.
  intros Hb Hk.
  assert (Hf : fills b0 (take k b0)) by (unfold fills; by rewrite length_take, Nat.min_l by lia).
  destruct (fills_write b0 _ [0x06] (Z.of_nat k) Hf) as (b1&E1&Hl1&Hf1); [len_solve|len_solve|].
  destruct (fills_write b1 _ (replicate (Z.to_nat (Z.of_nat n - (Z.of_nat k + 1))) 0) (Z.of_nat k + 1) Hf1)
    as (b2&E2&Hl2&Hf2); [len_solve|len_solve|].
  unfold fills in Hf2. replace (length ((take k b0 ++ [0x06]) ++ _)) with n in Hf2 by len_solve.
  exists b1, b2.
  assert (Hlook : b2 !! (n - 1)%nat = Some (if (n - k =? 1)%nat then 0x06 else 0)).
  { rewrite <- (lookup_take_lt b2 n) by lia. rewrite Hf2. destruct (Nat.eqb_spec (n - k) 1) as [Hq|Hq].
    - rewrite lookup_app_l, lookup_app_r by len_solve.
      replace (n - 1 - length (take k b0))%nat with 0%nat by len_solve. done.
    - rewrite lookup_app_r by len_solve. apply lookup_replicate_2. len_solve. }
  eexists. eexists. split; [done|]. split; [done|].
  split; [apply arr_get_Some; split; [lia|]; rewrite <- Hlook; f_equal; lia|].
  split; [apply arr_set_Some; lia|].
  replace (Z.to_nat (Z.of_nat n - 1)) with (n - 1)%nat by lia.
  rewrite take_insert_lt, Hf2 by lia. destruct (Nat.eqb_spec (n - k) 1) as [Hq|Hq].
  - replace (Z.to_nat _) with 0%nat by lia. cbn [replicate]. rewrite app_nil_r.
    rewrite insert_app_r_alt by len_solve.
    replace (n - 1 - length (take k b0))%nat with 0%nat by len_solve. done.
  - replace (Z.to_nat (Z.of_nat n - (Z.of_nat k + 1))) with (n - k - 2 + 1)%nat by lia.
    rewrite replicate_add, <- app_assoc. cbn [app replicate].
    rewrite insert_app_r_alt by len_solve. f_equal.
    replace (n - 1 - length (take k b0))%nat with (S (n - k - 2)) by len_solve.
    transitivity (0x06 :: <[(n - k - 2)%nat := Z.lor 0 0x80]> (replicate (n - k - 2) 0 ++ [0])); [done|].
    rewrite insert_app_r_alt by len_solve. by rewrite length_replicate, Nat.sub_diag.
Qed.

Lemma sha3_pad_length len : length (sha3_pad n len) = (n - len mod n)%nat.
Proof.
  pose proof (Nat.mod_upper_bound len n ltac:(lia)). unfold sha3_pad.
  destruct (Nat.eqb_spec (n - len mod n) 1); [done|]. cbn [length].
  rewrite length_app, length_replicate. cbn [length]. lia.
Qed.

Lemma sha3_final_holds out msg c : sha3_holds out msg c -> length out = d ->
  exists c', fio_sha3_final c = Some c' /\
    sha c' = take d (concat (map (le_bytes 8)
      (absorb_blocks n f (replicate 25 0) (msg ++ sha3_pad n (length msg))).1)).
Proof.
  intros [Ha Hb Hp Hrs Hrw Hmd Hout] Ho. unfold fio_sha3_final. rewrite Hp, Hrs, Hrw, Hmd, Hout.
  pose proof (Nat.mod_upper_bound (length msg) n ltac:(lia)) as Hk.
  pose proof (absorbed_app n _ ltac:(lia) _ _ _ _ (sha3_pad n (length msg)) Ha) as Happ. cbn zeta in Happ.
  rewrite sha3_pad_length in Happ by lia.
  rewrite Nat.ltb_irrefl in Happ. rewrite take_take, Nat.min_l in Happ by lia.
  rewrite (take_ge (sha3_pad _ _)) in Happ by (rewrite sha3_pad_length; lia).
  rewrite (drop_ge (sha3_pad _ _)) in Happ by (rewrite sha3_pad_length; lia).
  rewrite (absorb_short n f ltac:(lia) _ []) in Happ by (cbn [length]; lia).
  destruct (sha3_last_block (buf c) (length msg mod n) Hb Hk) as (b1&b2&last&b3&->&E2&E3&E4&Hlast).
  cbn [mbind option_bind]. rewrite E2. cbn [mbind option_bind]. rewrite E3. cbn [mbind option_bind].
  rewrite E4. cbn [mbind option_bind].
  rewrite <- sha3_block_take, Hlast, Happ. cbn [fst]. fold (sha3_pad n (length msg)).
  set (s := sha3_block _ _ _).
  assert (Hs : length s = 25%nat).
  { apply sha3_block_spec; [lia|].
    assert (Hst : st c = (absorb_blocks n f (replicate 25 0) msg).1) by (by rewrite (ab_eq _ _ _ _ _ _ Ha)).
    rewrite Hst. apply (absorb_blocks_inv _ _ (fun s => length s = 25%nat)); [lia| |by rewrite length_replicate].
    intros s' blk Hs'. apply sha3_block_spec; [lia|done]. }
  rewrite mem_read_Some, drop_0, Nat2Z.id by (rewrite ?length_lanes_bytes; lia).
  cbn [mbind option_bind].
  change (mem_write out 0) with (mem_write out (Z.of_nat 0)).
  rewrite mem_write_eq by (rewrite length_take; lia). cbn [mbind option_bind].
  eexists. split; [done|]. cbn [sha]. rewrite take_0, drop_ge, app_nil_r; [done|].
  rewrite length_take, length_lanes_bytes. lia.
Qed.
End sponge.

Lemma sha3_correct_eq d out chunks :
  d ∈ [28; 32; 48; 64]%nat -> length out = d -> Z.of_nat (length (concat chunks)) + 144 <= 2 ^ 32 ->
  fio_sha3 (Z.of_nat d) out chunks = Some (sha3_ref d (concat chunks)).
Proof.
  intros Hd Ho Hlen.
  assert (exists r, (8 * r + 2 * d = 200)%nat /\ (28 <= d <= 64)%nat) as (r&Hr&Hd').
  { rewrite !elem_of_cons, elem_of_nil in Hd. destruct Hd as [->|[->|[->|[->|[]]]]];
      [exists 18%nat|exists 17%nat|exists 13%nat|exists 9%nat]; lia. }
  unfold fio_sha3.
  destruct (sha3_updates_hold d r Hr Hd' out chunks []
    (fio_sha3_init (Ctx [] 0 0 0 0 [] out) (Z.of_nat d))) as (c&->&Hc);
    [exact (sha3_init_holds d r Hr Hd' (Ctx [] 0 0 0 0 [] out))|done|].
  cbn [mbind option_bind]. destruct (sha3_final_holds d r Hr Hd' out _ c Hc Ho) as (c'&->&Hf).
  cbn [mbind option_bind]. rewrite Hf. unfold sha3_ref.
  replace (200 - 2 * d)%nat with (8 * r)%nat by lia. do 5 f_equal.
  apply (absorb_blocks_ext _ _ _ (fun s => length s = 25%nat)); [lia| |by rewrite length_replicate].
  intros s blk Hs. apply sha3_block_spec; [lia|done].
Qed.

(** C29. For the four digest sizes, however a message below 4 GiB is cut into
    pieces, [fio_sha3_init], [fio_sha3_update] on each piece and
    [fio_sha3_final] stay inside their buffers and write the SHA-3 digest of
    FIPS 202 of the whole message. *)
Theorem sha3_correct d out chunks :
  d ∈ [28; 32; 48; 64]%nat -> length out = d -> Z.of_nat (length (concat chunks)) + 144 <= 2 ^ 32 ->
  fio_sha3 (Z.of_nat d) out chunks = Some (sha3_ref d (concat chunks)).
Proof. exact (sha3_correct_eq d out chunks). Qed.

Lemma sha3_correct_witness :
  fio_sha3 32 (replicate 32 7) [[0x61]; [0x62; 0x63]] = Some (sha3_ref 32 [0x61; 0x62; 0x63]).
Proof.
  apply (sha3_correct 32 (replicate 32 7) [[0x61]; [0x62; 0x63]]); [|reflexivity|simpl; lia].
  apply list_elem_of_In. simpl. auto.
Defined.

(** SHA3-256 of "abc". *)
Example sha3_256_abc :
  option_map (take 4) (fio_sha3 32 (replicate 32 0) [[0x61; 0x62; 0x63]]) = Some [0x3a; 0x98; 0x5d; 0xa7].
Proof. vm_compute. reflexivity. Qed.
