(* ===== verification/Hash.v ===== *)
(** * String and block hashes: [hash.h], [crc/murmur3.c], [crc/fnv.c]

    [jhash] indexes the file table and names the file locks; with [murmurhash3]
    and [fnv] it feeds the Bloom filter.  Keys are lists of bytes (the C code
    gets a pointer and this length); multi-byte loads are little-endian. *)
From S2P Require Import Prelude.

(** ** Bob Jenkins' [jhash] *)
Definition JHASH_INITVAL : Z := 0x61C88647.

Definition rol32 (word shift : Z) : Z := Z.lor (shl 32 word shift) (Z.shiftr word (32 - shift)).

Definition __jhash_mix (s : Z * Z * Z) : Z * Z * Z :=
  let '(a, b, c) := s in
  let a := u32 (a - c) in let a := Z.lxor a (rol32 c 4) in let c := u32 (c + b) in
  let b := u32 (b - a) in let b := Z.lxor b (rol32 a 6) in let a := u32 (a + c) in
  let c := u32 (c - b) in let c := Z.lxor c (rol32 b 8) in let b := u32 (b + a) in
  let a := u32 (a - c) in let a := Z.lxor a (rol32 c 16) in let c := u32 (c + b) in
  let b := u32 (b - a) in let b := Z.lxor b (rol32 a 19) in let a := u32 (a + c) in
  let c := u32 (c - b) in let c := Z.lxor c (rol32 b 4) in let b := u32 (b + a) in
  (a, b, c).

Definition __jhash_final (s : Z * Z * Z) : Z * Z * Z :=
  let '(a, b, c) := s in
  let c := Z.lxor c b in let c := u32 (c - rol32 b 14) in
  let a := Z.lxor a c in let a := u32 (a - rol32 c 11) in
  let b := Z.lxor b a in let b := u32 (b - rol32 a 25) in
  let c := Z.lxor c b in let c := u32 (c - rol32 b 16) in
  let a := Z.lxor a c in let a := u32 (a - rol32 c 4) in
  let b := Z.lxor b a in let b := u32 (b - rol32 a 14) in
  let c := Z.lxor c b in let c := u32 (c - rol32 b 24) in
  (a, b, c).

(** [x += (uint32_t) k[i] << sh], a fall-through case that only runs when the
    key still has byte [i]. *)
Definition add_byte (k : list Z) (x : Z) (p : nat * Z) : Z :=
  match k !! fst p with
  | Some v => u32 (x + shl 32 v (snd p))
  | None => x
  end.

(** The [switch] on the last 0 to 12 bytes. *)
Definition jhash_last (s : Z * Z * Z) (k : list Z) : Z * Z * Z :=
  let '(a, b, c) := s in
  let c := foldl (add_byte k) c [(11%nat, 24); (10%nat, 16); (9%nat, 8); (8%nat, 0)] in
  let b := foldl (add_byte k) b [(7%nat, 24); (6%nat, 16); (5%nat, 8); (4%nat, 0)] in
  let a := foldl (add_byte k) a [(3%nat, 24); (2%nat, 16); (1%nat, 8); (0%nat, 0)] in
  match k with
  | [] => (a, b, c)
  | _ => __jhash_final (a, b, c)
  end.

(** [while (length > 12)]; [*k] is a single byte, as [k] is a [uint8_t *]. *)
Fixpoint jhash_blocks (fuel : nat) (s : Z * Z * Z) (k : list Z) : Z * Z * Z :=
  match fuel with
  | O => jhash_last s k
  | S fuel =>
      if (12 <? length k)%nat then
        let '(a, b, c) := s in
        let a := u32 (a + default 0 (k !! 0%nat)) in
        let b := u32 (b + default 0 (k !! 4%nat)) in
        let c := u32 (c + default 0 (k !! 8%nat)) in
        jhash_blocks fuel (__jhash_mix (a, b, c)) (drop 12 k)
      else jhash_last s k
  end.

Definition jhash (key : list Z) (initval : Z) : Z :=
  let a := u32 (JHASH_INITVAL + Z.of_nat (length key) + initval) in
  let '(_, _, c) := jhash_blocks (length key) (a, a, a) key in c.

(** ** MurmurHash3 *)
Definition rotl32 (x r : Z) : Z := Z.lor (shl 32 x r) (Z.shiftr x (32 - r)).

Definition fmix32 (h : Z) : Z :=
  let h := Z.lxor h (Z.shiftr h 16) in
  let h := u32 (h * 0x85ebca6b) in
  let h := Z.lxor h (Z.shiftr h 13) in
  let h := u32 (h * 0xc2b2ae35) in
  Z.lxor h (Z.shiftr h 16).

(** [k1 *= c1; k1 = rotl32(k1, 15); k1 *= c2]. *)
Definition murmur_k (k1 : Z) : Z :=
  let k1 := u32 (k1 * 0xcc9e2d51) in
  let k1 := rotl32 k1 15 in
  u32 (k1 * 0x1b873593).

Definition murmur3_tail (tail : list Z) (len h1 : Z) : Z :=
  let h1 :=
    match tail with
    | [] => h1
    | [t0] => Z.lxor h1 (murmur_k t0)
    | [t0; t1] => Z.lxor h1 (murmur_k (Z.lxor (Z.shiftl t1 8) t0))
    | t0 :: t1 :: t2 :: _ =>
        Z.lxor h1 (murmur_k (Z.lxor (Z.lxor (Z.shiftl t2 16) (Z.shiftl t1 8)) t0))
    end in
  fmix32 (Z.lxor h1 len).

(** The loop over the [len / 4] words, then the tail. *)
Fixpoint murmur_blocks (data : list Z) (len h1 : Z) : Z :=
  match data with
  | b0 :: b1 :: b2 :: b3 :: rest =>
      let k1 := Z.lor b0 (Z.lor (Z.shiftl b1 8) (Z.lor (Z.shiftl b2 16) (Z.shiftl b3 24))) in
      let h1 := Z.lxor h1 (murmur_k k1) in
      let h1 := rotl32 h1 13 in
      let h1 := u32 (h1 * 5 + 0xe6546b64) in
      murmur_blocks rest len h1
  | tail => murmur3_tail tail len h1
  end.

Definition murmurhash3 (key : list Z) (seed : Z) : Z :=
  murmur_blocks key (Z.of_nat (length key)) seed.

(** ** FNV over 64-bit words *)
Definition FNV_PRIME : Z := 0x100000001b3.

Fixpoint le_word (l : list Z) : Z :=
  match l with
  | [] => 0
  | b :: l => Z.lor b (Z.shiftl (le_word l) 8)
  end.

Fixpoint fnv_loop (fuel : nat) (buf : list Z) (hval : Z) : Z :=
  match fuel, buf with
  | O, _ | _, [] => hval
  | S fuel, _ =>
      let hval := u64 (hval * FNV_PRIME) in
      if (8 <=? length buf)%nat
      then fnv_loop fuel (drop 8 buf) (Z.lxor hval (le_word (take 8 buf)))
      else Z.lxor hval (fold_left (fun val b => Z.lor (shl 64 val 8) b) buf 0)
  end.

Definition fnv (buf : list Z) (hval : Z) : Z := fnv_loop (length buf) buf hval.

(** ** Ranges *)
#[export] Hint Unfold uint : cint.

Lemma rot_uint x r : 0 <= r <= 32 -> uint 32 x -> uint 32 (Z.lor (shl 32 x r) (Z.shiftr x (32 - r))).
Proof. intros Hr Hx. apply lor_uint; [lia|apply shl_uint; lia|apply shiftr_uint; [lia|done]]. Qed.

Lemma u32_uint x : uint 32 (u32 x).
Proof. apply wrap_uint. lia. Qed.

Lemma lxor32 x y : uint 32 x -> uint 32 y -> uint 32 (Z.lxor x y).
Proof. apply lxor_uint. lia. Qed.

Create HintDb h32.
#[local] Hint Resolve u32_uint lxor32 : h32.
#[local] Hint Extern 1 (uint 32 (rol32 _ _)) => (apply rot_uint; [lia|]) : h32.
#[local] Hint Extern 1 (uint 32 (rotl32 _ _)) => (apply rot_uint; [lia|]) : h32.

Definition uint32_3 (s : Z * Z * Z) : Prop :=
  let '(a, b, c) := s in uint 32 a /\ uint 32 b /\ uint 32 c.

(** Step through a chain of assignments, keeping the range of each. *)
Ltac range_steps :=
  repeat match goal with
  | |- uint32_3 (let x := ?e in @?f x) =>
      let H := fresh "H" in
      assert (uint 32 e) as H by auto 6 with h32;
      change (uint32_3 (f e)); revert H; generalize e; intros ? H; cbv beta
  end.

Lemma jhash_mix_uint s : uint32_3 s -> uint32_3 (__jhash_mix s).
Proof.
  destruct s as [[a b] c]. intros (Ha & Hb & Hc). cbv beta iota delta [__jhash_mix]. range_steps. by split; [|split].
Qed.

Lemma jhash_final_uint s : uint32_3 s -> uint32_3 (__jhash_final s).
Proof.
  destruct s as [[a b] c]. intros (Ha & Hb & Hc). cbv beta iota delta [__jhash_final]. range_steps. by split; [|split].
Qed.

Lemma add_byte_uint k x p : uint 32 x -> uint 32 (add_byte k x p).
Proof. intros. unfold add_byte. destruct (k !! fst p); auto with h32. Qed.

Lemma add_bytes_uint k l : forall x, uint 32 x -> uint 32 (foldl (add_byte k) x l).
Proof. induction l; simpl; intros; auto using add_byte_uint. Qed.

Lemma jhash_last_uint s k : uint32_3 s -> uint32_3 (jhash_last s k).
Proof.
  destruct s as [[a b] c]. intros (Ha & Hb & Hc). unfold jhash_last.
  destruct k; [|apply jhash_final_uint]; split_and!; by apply add_bytes_uint.
Qed.

Lemma jhash_blocks_uint fuel : forall s k, uint32_3 s -> uint32_3 (jhash_blocks fuel s k).
Proof.
  induction fuel as [|fuel IH]; intros [[a b] c] k Hs; cbn [jhash_blocks];
    [by apply jhash_last_uint|]. destruct (_ <? _)%nat; [|by apply jhash_last_uint].
  apply IH, jhash_mix_uint. split; [|split]; apply u32_uint.
Qed.

Lemma jhash_uint key initval : uint 32 (jhash key initval).
Proof.
  unfold jhash. set (a := u32 _).
  assert (uint32_3 (a, a, a)) as Hs by (split; [|split]; apply u32_uint).
  pose proof (jhash_blocks_uint (length key) (a, a, a) key Hs) as H.
  destruct (jhash_blocks _ _ _) as [[x y] z]. apply H.
Qed.

Lemma fmix32_uint h : uint 32 h -> uint 32 (fmix32 h).
Proof.
  intros Hh. unfold fmix32. apply lxor32; [apply u32_uint|].
  apply shiftr_uint; [lia|apply u32_uint].
Qed.

Lemma murmur_k_uint k : uint 32 (murmur_k k).
Proof. apply u32_uint. Qed.

Lemma murmur_tail_uint tail len h1 :
  uint 32 h1 -> uint 32 len -> uint 32 (murmur3_tail tail len h1).
Proof.
  intros Hh Hl. unfold murmur3_tail. apply fmix32_uint, lxor32; [|done].
  destruct tail as [|t0 [|t1 [|t2 r]]]; auto using murmur_k_uint, lxor32.
Qed.

Lemma murmur_blocks_uint n : forall data len h1,
  (length data <= n)%nat -> uint 32 h1 -> uint 32 len -> uint 32 (murmur_blocks data len h1).
Proof.
  induction n as [|n IH]; intros data len h1 Hn Hh Hl.
  { destruct data; [by apply murmur_tail_uint|simpl in Hn; lia]. }
  destruct data as [|b0 [|b1 [|b2 [|b3 rest]]]]; cbn [murmur_blocks]; try by apply murmur_tail_uint.
  apply IH; [simpl in Hn; lia|apply u32_uint|done].
Qed.

(** The hashes return 32-bit values for every key, which the table and
    filter indices computed from them rely on. *)
Theorem hashes_in_range key initval seed :
  uint 32 seed -> Z.of_nat (length key) < 2 ^ 32 ->
  uint 32 (jhash key initval) /\ uint 32 (murmurhash3 key seed).
Proof.
  intros Hs Hl. split; [apply jhash_uint|].
  apply (murmur_blocks_uint (length key)); [done..|]. unfold uint. lia.
Qed.

Lemma hashes_in_range_witness :
  uint 32 (jhash [102; 105; 111] 0) /\ uint 32 (murmurhash3 [102; 105; 111] 0x8989).
Proof. apply (hashes_in_range [102; 105; 111] 0 0x8989); [unfold uint; lia|simpl; lia]. Defined.

(** [jhash] reads one byte in four of every block but the last: for a key
    longer than 12 bytes the second byte (among others) has no influence, so
    two file names that differ only there get the same hash. *)
Theorem jhash_ignores_bytes b0 b1 b1' rest initval :
  (10 < length rest)%nat ->
  jhash (b0 :: b1 :: rest) initval = jhash (b0 :: b1' :: rest) initval.
Proof.
  intros Hr. unfold jhash. cbn [length].
  set (n := S (length rest)).
  change (jhash_blocks (S n) ?s ?k) with
    (if (12 <? length k)%nat then
        let '(a, b, c) := s in
        jhash_blocks n (__jhash_mix (u32 (a + default 0 (k !! 0%nat)), u32 (b + default 0 (k !! 4%nat)),
          u32 (c + default 0 (k !! 8%nat)))) (drop 12 k)
      else jhash_last s k).
  cbn [length]. destruct (Nat.ltb_spec 12 (S (S (length rest)))); [done|lia].
Qed.

Lemma jhash_ignores_bytes_witness :
  jhash (47 :: 97 :: seqZ 0 12) 0 = jhash (47 :: 98 :: seqZ 0 12) 0.
Proof. apply (jhash_ignores_bytes 47 97 98 (seqZ 0 12) 0). vm_compute. lia. Defined.
