(* ===== verification/Bloom.v ===== *)
(** * The Bloom filter: [lib/bloom.c]

    Five hash functions over one bit map.  fio asks it whether a file name has
    been seen before ([filehash.c], [file_bloom_exists]). *)
From stdpp Require Import sets.
From S2P Require Import Prelude Crc Xxhash Hash.

Definition BITS_PER_INDEX : Z := 32.
Definition BITS_INDEX_MASK : Z := 31.
Definition BLOOM_SEED : Z := 0x8989.
Definition N_HASHES : nat := 5.

Record bloom := Bloom {
  nentries : Z;
  bmap : list Z
}.

Definition bloom_crc32c (buf : list Z) (seed : Z) : Z := crc32c_sw buf.
Definition bloom_fnv (buf : list Z) (seed : Z) : Z := u32 (fnv buf seed).

(** The [hashes] table: each entry applied to its seed. *)
Definition hashes : list (list Z -> Z) :=
  [fun d => jhash d BLOOM_SEED; fun d => XXH32 d BLOOM_SEED; fun d => murmurhash3 d BLOOM_SEED;
   fun d => bloom_crc32c d BLOOM_SEED; fun d => bloom_fnv d BLOOM_SEED].

(** [calloc] either fails or hands out cleared words. *)
Definition bloom_new (calloc_ok : bool) (entries : Z) : option bloom :=
  let no_uints := u64 (entries + BITS_PER_INDEX - 1) / BITS_PER_INDEX in
  if calloc_ok then Some (Bloom entries (replicate (Z.to_nat no_uints) 0)) else None.

(** The second loop of [__bloom_check], with its [break] when only asking. *)
Fixpoint check_loop (m : list Z) (hash : list Z) (was_set : nat) (set : bool)
    : option (list Z * nat) :=
  match hash with
  | [] => Some (m, was_set)
  | h :: hash =>
      let index := h / BITS_PER_INDEX in
      let bit := Z.land h BITS_INDEX_MASK in
      w ← arr_get m index;
      if negb (Z.land w (Z.shiftl 1 bit) =? 0) then check_loop m hash (S was_set) set
      else if set then
        m ← arr_set m index (Z.lor w (Z.shiftl 1 bit));
        check_loop m hash was_set set
      else Some (m, was_set)
  end.

Definition hash_values (fns : list (list Z -> Z)) (b : bloom) (data : list Z) : list Z :=
  (fun fn => u32 (u32 (fn data) mod nentries b)) <$> fns.

Definition __bloom_check (b : bloom) (data : list Z) (set : bool) : option (bloom * bool) :=
  '(m, was_set) ← check_loop (bmap b) (hash_values hashes b data) 0 set;
  Some (Bloom (nentries b) m, (was_set =? N_HASHES)%nat).

(** [bloom_set] hashes [nwords] 32-bit words, given here as their bytes. *)
Definition bloom_set (b : bloom) (data : list Z) : option (bloom * bool) :=
  __bloom_check b data true.

Definition bloom_string (b : bloom) (data : list Z) (set : bool) : option (bloom * bool) :=
  __bloom_check b data set.

(** ** The filter as a set of bits *)
Record bloom_wf (b : bloom) : Prop := {
  bl_entries : 0 < nentries b < 2 ^ 63;
  bl_len : Z.of_nat (length (bmap b)) = (nentries b + 31) / 32
}.

(** The positions a key occupies are all inside the map. *)
Lemma hash_values_bound fns b data h :
  bloom_wf b -> h ∈ hash_values fns b data -> 0 <= h / 32 < Z.of_nat (length (bmap b)) /\ 0 <= h.
Proof.
  intros [Hn Hl] Hh. unfold hash_values in Hh. apply list_elem_of_fmap in Hh as (fn & -> & _).
  assert (0 <= u32 (fn data) mod nentries b < nentries b) as Hm by (apply Z.mod_pos_bound; lia).
  assert (u32 (fn data) mod nentries b <= u32 (fn data))
    by (apply Z.mod_le; [apply (wrap_bounds 32 (fn data)); lia|lia]).
  pose proof (wrap_bounds 32 (fn data) ltac:(lia)).
  rewrite wrap_small by (unfold uint; lia). rewrite Hl. zdm.
Qed.

Lemma bit31 h : Z.land h BITS_INDEX_MASK = h mod 32.
Proof. unfold BITS_INDEX_MASK. change 31 with (Z.ones 5). by rewrite Z.land_ones. Qed.

Lemma land_bit w p : 0 <= p -> negb (Z.land w (Z.shiftl 1 p) =? 0) = Z.testbit w p.
Proof.
  intros Hp. rewrite Z.shiftl_1_l. destruct (Z.eqb_spec (Z.land w (2 ^ p)) 0) as [E|E]; simpl.
  - apply (f_equal (fun x => Z.testbit x p)) in E.
    by rewrite Z.land_spec, Z.pow2_bits_true, andb_true_r, Z.bits_0 in E by done.
  - destruct (Z.testbit w p) eqn:Et; [done|]. destruct E. apply Z.bits_inj'. intros i Hi.
    rewrite Z.land_spec, Z.bits_0, Z.pow2_bits_eqb by done.
    destruct (Z.eqb_spec p i) as [<-|]; [by rewrite Et|apply andb_false_r].
Qed.

(** Setting position [h] sets that bit and no other. *)
Lemma bbit_set m h w h' :
  0 <= h -> 0 <= h' -> arr_get m (h / 32) = Some w ->
  bbit (<[Z.to_nat (h / 32) := Z.lor w (Z.shiftl 1 (h mod 32))]> m) h' = (h' =? h) || bbit m h'.
Proof.
  intros Hh Hh' Hw. unfold bbit. pose proof (arr_get_bounds _ _ _ Hw) as Hb.
  rewrite arr_get_insert by zdm.
  destruct (Z.eqb_spec (h' / 32) (h / 32)) as [E|E].
  - rewrite E, Hw. simpl. rewrite Z.lor_spec, Z.shiftl_1_l, Z.pow2_bits_eqb by zdm.
    rewrite orb_comm. f_equal.
    destruct (Z.eqb_spec (h mod 32) (h' mod 32)), (Z.eqb_spec h' h); try done; zdm.
  - destruct (Z.eqb_spec h' h) as [->|]; done.
Qed.

(** The loop in set mode: it ends, keeps the size, and sets every position. *)
Lemma check_loop_set hash : forall m n,
  (forall h, h ∈ hash -> 0 <= h / 32 < Z.of_nat (length m) /\ 0 <= h) ->
  exists m' n', check_loop m hash n true = Some (m', n') /\ length m' = length m /\
    (forall h, 0 <= h -> bbit m' h = bool_decide (h ∈ hash) || bbit m h) /\
    ((forall h, h ∈ hash -> bbit m h = true) -> n' = (n + length hash)%nat).
Proof.
  induction hash as [|h hash IH]; intros m n Hb; cbn [check_loop].
  { exists m, n. split_and!; done. }
  destruct (Hb h) as [Hi H0]; [set_solver|].
  destruct (arr_get_is_Some m (h / 32) Hi) as [w Hw].
  assert (bbit m h = Z.testbit w (h mod 32)) as Hbit by (unfold bbit; by rewrite Hw).
  unfold BITS_PER_INDEX. rewrite Hw, bit31. cbn [mbind option_bind].
  rewrite land_bit by zdm. rewrite <- Hbit. destruct (bbit m h) eqn:E.
  - destruct (IH m (S n)) as (m' & n' & Hc & Hl & Hm & Hn); [set_solver|].
    exists m', n'. split_and!; [done..| |].
    + intros h' Hh'. rewrite Hm by done. apply eq_true_iff_eq.
      rewrite !orb_true_iff, !bool_decide_eq_true, elem_of_cons. naive_solver.
    + intros Hall. rewrite Hn by set_solver. simpl. lia.
  - rewrite arr_set_Some by done. cbn [mbind option_bind].
    destruct (IH (<[Z.to_nat (h / 32) := Z.lor w (Z.shiftl 1 (h mod 32))]> m) n)
      as (m' & n' & Hc & Hl & Hm & Hn).
    { intros h' Hh'. rewrite length_insert. apply Hb. set_solver. }
    exists m', n'. rewrite length_insert in Hl. split_and!; [done..| |].
    + intros h' Hh'. rewrite Hm, bbit_set by done. apply eq_true_iff_eq.
      rewrite !orb_true_iff, !bool_decide_eq_true, elem_of_cons, Z.eqb_eq. naive_solver.
    + intros Hall. rewrite Hall in E by set_solver. done.
Qed.

(** The loop when only asking: it ends, leaves the map alone, and counts all
    positions exactly when they are all set. *)
Lemma check_loop_query hash : forall m n,
  (forall h, h ∈ hash -> 0 <= h / 32 < Z.of_nat (length m) /\ 0 <= h) ->
  exists n', check_loop m hash n false = Some (m, n') /\ (n <= n' <= n + length hash)%nat /\
    (n' = (n + length hash)%nat <-> forall h, h ∈ hash -> bbit m h = true).
Proof.
  induction hash as [|h hash IH]; intros m n Hb; cbn [check_loop].
  { exists n. simpl. split_and!; [done|lia..|]. set_solver. }
  destruct (Hb h) as [Hi H0]; [set_solver|].
  destruct (arr_get_is_Some m (h / 32) Hi) as [w Hw].
  assert (bbit m h = Z.testbit w (h mod 32)) as Hbit by (unfold bbit; by rewrite Hw).
  unfold BITS_PER_INDEX. rewrite Hw, bit31. cbn [mbind option_bind].
  rewrite land_bit by zdm. rewrite <- Hbit. destruct (bbit m h) eqn:E.
  - destruct (IH m (S n)) as (n' & Hc & Hr & Hn); [set_solver|].
    exists n'. rewrite Hc. cbn [length]. split_and!; [done|lia..|].
    replace (n + S (length hash))%nat with (S n + length hash)%nat by lia.
    rewrite Hn. setoid_rewrite elem_of_cons. naive_solver.
  - exists n. cbn [length]. split_and!; [done|lia..|]. split; [lia|].
    intros Hall. rewrite Hall in E by set_solver. done.
Qed.

Lemma bloom_wf_positions b data :
  bloom_wf b -> forall h, h ∈ hash_values hashes b data ->
  0 <= h / 32 < Z.of_nat (length (bmap b)) /\ 0 <= h.
Proof. intros Hwf h. by apply hash_values_bound. Qed.

(** The positions [data] occupies are all set. *)
Definition bloom_mem (b : bloom) (data : list Z) : Prop :=
  forall h, h ∈ hash_values hashes b data -> bbit (bmap b) h = true.

(** One call, in either mode: it ends, keeps the filter well formed, and its
    effect on the bits is the addition of the key's positions. *)
Lemma bloom_check_spec b data set :
  bloom_wf b ->
  exists b' r, __bloom_check b data set = Some (b', r) /\ bloom_wf b' /\
    nentries b' = nentries b /\
    (forall h, 0 <= h -> bbit (bmap b') h =
       (set && bool_decide (h ∈ hash_values hashes b data)) || bbit (bmap b) h) /\
    (bloom_mem b data -> r = true) /\ (set = false -> r = true -> bloom_mem b data) /\
    (set = false -> b' = b).
Proof.
  intros Hwf. pose proof (bloom_wf_positions b data Hwf) as Hp.
  pose proof Hwf as [Hn Hl]. unfold __bloom_check. destruct set.
  - destruct (check_loop_set _ _ 0 Hp) as (m & n & -> & Hlen & Hm & Hc).
    eexists _, _. split; [done|]. simpl. split_and!; try done.
    + split; simpl; [done|congruence].
    + intros Hmem. rewrite (Hc Hmem). done.
  - destruct (check_loop_query _ _ 0 Hp) as (n & -> & _ & Hc).
    eexists _, _. split; [done|]. simpl. split_and!; try done.
    + intros Hmem. apply Nat.eqb_eq, Hc, Hmem.
    + intros _ Hr%Nat.eqb_eq. exact (proj1 Hc Hr).
    + by destruct b.
Qed.

(** A history of insertions. *)
Fixpoint bloom_inserts (b : bloom) (keys : list (list Z)) : option bloom :=
  match keys with
  | [] => Some b
  | k :: keys => '(b, _) ← bloom_string b k true; bloom_inserts b keys
  end.

Lemma bloom_inserts_spec keys : forall b,
  bloom_wf b -> exists b', bloom_inserts b keys = Some b' /\ bloom_wf b' /\
    nentries b' = nentries b /\
    (forall h, 0 <= h -> bbit (bmap b) h = true -> bbit (bmap b') h = true) /\
    (forall k, k ∈ keys -> bloom_mem b' k).
Proof.
  induction keys as [|k keys IH]; intros b Hwf; simpl.
  { exists b. split_and!; [done..|]. set_solver. }
  destruct (bloom_check_spec b k true Hwf) as (b1 & r & Hc & Hwf1 & Hn1 & Hb1 & _).
  unfold bloom_string. rewrite Hc. simpl.
  destruct (IH b1 Hwf1) as (b2 & -> & Hwf2 & Hn2 & Hmono & Hmem).
  exists b2. split_and!; [done|done|congruence| |].
  - intros h Hh E. apply Hmono; [done|]. by rewrite Hb1, E, orb_true_r by done.
  - intros k' [->|Hk']%elem_of_cons; [|by apply Hmem].
    intros h Hh. replace (hash_values hashes b2 k) with (hash_values hashes b k) in Hh
      by (unfold hash_values; by rewrite Hn2, Hn1).
    destruct (bloom_wf_positions b k Hwf h Hh) as [_ H0].
    apply Hmono; [done|]. rewrite Hb1 by done. by rewrite bool_decide_true.
Qed.

Lemma bloom_new_wf entries b :
  0 < entries < 2 ^ 63 -> bloom_new true entries = Some b ->
  bloom_wf b /\ nentries b = entries /\ forall h, bbit (bmap b) h = false.
Proof.
  intros He [= <-]. split_and!; [split; simpl|done|].
  - done.
  - rewrite length_replicate, wrap_small by (unfold uint, BITS_PER_INDEX; lia).
    unfold BITS_PER_INDEX. zdm.
  - intros h. unfold bbit, arr_get. simpl. destruct (0 <=? _); simpl; [|by rewrite Z.testbit_0_l].
    destruct (replicate _ 0 !! _) eqn:E; simpl; [|by rewrite Z.testbit_0_l].
    apply lookup_replicate in E as [-> _]. by rewrite Z.testbit_0_l.
Qed.

(** A Bloom filter of [entries] > 0 bits has no false negatives: create it,
    insert any keys in any order, and every query ends without an access
    outside the map, leaves the filter as it is, and answers "present" for
    each inserted key.  A query of a filter nothing was inserted into answers
    "absent". *)
Theorem bloom_no_false_negative entries b keys :
  0 < entries < 2 ^ 63 -> bloom_new true entries = Some b ->
  exists b', bloom_inserts b keys = Some b' /\
    (forall k, exists r, bloom_string b' k false = Some (b', r) /\ (k ∈ keys -> r = true)) /\
    (forall k, bloom_string b k false = Some (b, false)).
Proof.
  intros He Hb. destruct (bloom_new_wf entries b He Hb) as (Hwf & Hn & Hz).
  destruct (bloom_inserts_spec keys b Hwf) as (b' & Hi & Hwf' & _ & _ & Hmem).
  exists b'. split_and!; [done| |].
  - intros k. destruct (bloom_check_spec b' k false Hwf') as (b2 & r & Hc & _ & _ & _ & Hr & _ & Eb).
    rewrite (Eb eq_refl) in Hc. exists r. split; [done|]. intros Hk. by apply Hr, Hmem.
  - intros k. destruct (bloom_check_spec b k false Hwf) as (b2 & r & Hc & _ & _ & _ & _ & Hr & Eb).
    rewrite (Eb eq_refl) in Hc. unfold bloom_string. rewrite Hc. destruct r; [|done].
    specialize (Hr eq_refl eq_refl (u32 (u32 (jhash k BLOOM_SEED) mod nentries b))).
    rewrite Hz in Hr. discriminate Hr. unfold hash_values, hashes. simpl. set_solver.
Qed.

Lemma bloom_no_false_negative_witness :
  exists b b', bloom_new true 1000 = Some b /\
    bloom_inserts b [[1;2;3]; [4;5]] = Some b' /\ bloom_string b' [4;5] false = Some (b', true).
Proof.
  eexists. destruct (bloom_no_false_negative 1000 _ [[1;2;3]; [4;5]] ltac:(lia) eq_refl)
    as (b' & Hi & Hq & _).
  exists b'. split; [reflexivity|]. split; [exact Hi|].
  destruct (Hq [4;5]) as (r & Hr & Hk). rewrite Hr. rewrite Hk; [done|].
  apply list_elem_of_In. right. left. reflexivity.
Defined.
