(* ===== verification/Pattern.v ===== *)
(** * Buffer patterns: [lib/pattern.c], [lib/strntol.c]

    [buffer_pattern] and [verify_pattern] are parsed into a byte pattern
    ([parse_and_fill_pattern]), spread over I/O buffers ([cpy_pattern],
    [paste_format]) and compared with what is read back ([cmp_pattern]).

    A buffer is a list of byte values; a C string is the list of its non-zero
    characters, the text from a pointer on being a suffix of it.  A write
    outside a buffer is [None]. *)
From S2P Require Import Prelude.

(** ** Copying and comparing patterns *)
Definition EINVAL : Z := 22.
Definition EILSEQ : Z := 84.

(** The [while (left)] loop of [dup_pattern]; [left] strictly decreases. *)
Fixpoint dup_loop (fuel : nat) (out : list Z) (off left : Z) : option (list Z) :=
  if left =? 0 then Some out else
  match fuel with
  | O => None
  | S fuel =>
      let len := Z.min left off in
      src ← mem_read out 0 len;
      out ← mem_write out off src;
      dup_loop fuel out (shl 32 off 1) (left - len)
  end.

Definition dup_pattern (out : list Z) (out_len pattern_len : Z) : option (list Z) :=
  if out_len <=? pattern_len then Some out
  else dup_loop (Z.to_nat out_len) out pattern_len (out_len - pattern_len).

(** [cpy_pattern] with non-null pointers: the return code and the buffer. *)
Definition cpy_pattern (pattern : list Z) (pattern_len : Z) (out : list Z) (out_len : Z)
    : option (Z * list Z) :=
  if (pattern_len =? 0) || (out_len =? 0) then Some (- EINVAL, out) else
  let len := Z.min pattern_len out_len in
  src ← mem_read pattern 0 len;
  out ← mem_write out 0 src;
  out ← dup_pattern out out_len pattern_len;
  Some (0, out).

(** [memcmp(a + i, b + j, n) == 0]. *)
Definition mem_eq (a : list Z) (i : Z) (b : list Z) (j n : Z) : option bool :=
  x ← mem_read a i n;
  y ← mem_read b j n;
  Some (bool_decide (x = y)).

Definition cmp_pattern (pattern : list Z) (pattern_size off : Z) (buf : list Z) (len : Z)
    : option Z :=
  same ← (if pattern_size <? len then mem_eq buf 0 buf pattern_size (len - pattern_size)
          else Some true);
  if negb same then Some (- EILSEQ) else
  let size := Z.min len (pattern_size - off) in
  same ← (if negb (off =? 0) then mem_eq buf 0 pattern off size else Some true);
  if negb same then Some (- EILSEQ) else
  let '(bpos, len) := if negb (off =? 0) then (size, len - size) else (0, len) in
  if negb (len =? 0) then
    let size := Z.min len (if negb (off =? 0) then off else pattern_size) in
    same ← mem_eq buf bpos pattern 0 size;
    if negb same then Some (- EILSEQ) else Some 0
  else Some 0.

(** ** Formats *)

(** [paste] gets the window of the buffer it may write; it returns its code
    and the new contents of the window. *)
Record pattern_fmt_desc := FmtDesc {
  fd_fmt : list Z;
  fd_len : Z;
  fd_paste : list Z -> Z * list Z
}.

Record pattern_fmt := Fmt {
  pf_off : Z;
  pf_desc : pattern_fmt_desc
}.

(** The loop over the formats; a non-zero code of a callback ends it. *)
Fixpoint paste_loop (pattern : list Z) (pattern_len : Z) (fmt : list pattern_fmt)
    : option (Z * list Z) :=
  match fmt with
  | [] => Some (0, pattern)
  | f :: fmt =>
      if pattern_len <=? pf_off f then Some (0, pattern) else
      let len := Z.min (pattern_len - pf_off f) (fd_len (pf_desc f)) in
      win ← mem_read pattern (pf_off f) len;
      let '(rc, win) := fd_paste (pf_desc f) win in
      pattern ← mem_write pattern (pf_off f) win;
      if negb (rc =? 0) then Some (rc, pattern) else paste_loop pattern pattern_len fmt
  end.

Definition paste_format_inplace (pattern : list Z) (pattern_len : Z) (fmt : list pattern_fmt)
    : option (Z * list Z) :=
  if pattern_len =? 0 then Some (- EINVAL, pattern) else paste_loop pattern pattern_len fmt.

Definition paste_format (pattern : list Z) (pattern_len : Z) (fmt : list pattern_fmt)
    (out : list Z) (out_len : Z) : option (Z * list Z) :=
  if (pattern_len =? 0) || (out_len =? 0) then Some (- EINVAL, out) else
  let len := Z.min pattern_len out_len in
  src ← mem_read pattern 0 len;
  out ← mem_write out 0 src;
  '(rc, out) ← paste_format_inplace out len fmt;
  if negb (rc =? 0) then Some (rc, out) else
  out ← dup_pattern out out_len pattern_len;
  Some (0, out).

(** ** Proofs: copying *)

(** Element [i] of the pattern repeated for ever. *)
Definition periodic (p : list Z) (n : Z) (i : nat) : option Z :=
  p !! Z.to_nat (Z.of_nat i mod n).

Lemma periodic_small p n i : Z.of_nat i < n -> periodic p n i = p !! i.
Proof. intros. unfold periodic. rewrite Z.mod_small by lia. by rewrite Nat2Z.id. Qed.

Lemma mem_read_at {A} (src : list A) off n l (i : nat) :
  mem_read src off n = Some l ->
  Z.of_nat (length l) = n /\ l !! i = if decide (Z.of_nat i < n) then src !! (Z.to_nat off + i)%nat else None.
Proof.
  unfold mem_read. destruct (Z.leb_spec 0 off); [|done]. destruct (Z.leb_spec 0 n); [|done].
  destruct (Z.leb_spec (off + n) (Z.of_nat (length src))); [|done]. simpl. intros [= <-].
  rewrite length_take, length_drop. split; [lia|]. destruct (decide _).
  - rewrite lookup_take_lt by lia. apply lookup_drop.
  - by rewrite lookup_take_ge by lia.
Qed.

(** The doubling loop extends a periodic prefix, of length a multiple of the
    period, to the whole buffer. *)
Lemma dup_loop_spec p n fuel : forall out off left,
  0 < n -> 0 < off -> off mod n = 0 -> 0 <= left <= Z.of_nat fuel ->
  off + left < 2 ^ 32 -> off + left <= Z.of_nat (length out) ->
  (forall i, Z.of_nat i < off -> out !! i = periodic p n i) ->
  exists out', dup_loop fuel out off left = Some out' /\ length out' = length out /\
    forall i, out' !! i = if decide (Z.of_nat i < off + left) then periodic p n i else out !! i.
Proof.
  induction fuel as [|fuel IH]; intros out off left Hn Hoff Hm Hl Hw Hlen Hp; cbn [dup_loop].
  all: destruct (Z.eqb_spec left 0) as [->|Hne].
  1,3: exists out; split_and!; [done..|]; intros i; destruct (decide _); [apply Hp; lia|done].
  { lia. }
  set (len := Z.min left off).
  destruct (mem_read out 0 len) as [src|] eqn:Hr;
    [|rewrite mem_read_Some in Hr by (unfold len; lia); done].
  pose proof (fun i => mem_read_at _ _ _ _ i Hr) as Hs.
  assert (Z.of_nat (length src) = len) as Hsl by apply (Hs 0%nat).
  cbn [mbind option_bind].
  rewrite mem_write_Some by (unfold len in *; lia). cbn [mbind option_bind].
  set (o1 := list_inserts (Z.to_nat off) src out).
  assert (length o1 = length out) as Hl1 by apply length_inserts.
  assert (forall i, o1 !! i = if decide (Z.of_nat i < off + len) then periodic p n i else out !! i) as H1.
  { intros i. rewrite (mem_write_lookup out off src) by (apply mem_write_Some; unfold len in *; lia).
    rewrite Hsl. destruct (decide (Z.of_nat i < off)).
    - rewrite !decide_False, decide_True by lia. apply Hp; lia.
    - destruct (decide (Z.of_nat i < off + len)); [|by rewrite decide_False by lia].
      rewrite decide_True by lia. destruct (Hs (i - Z.to_nat off)%nat) as [_ ->].
      rewrite decide_True by lia. rewrite Z2Nat.inj_0, Nat.add_0_l, Hp by (unfold len in *; lia).
      unfold periodic. f_equal. f_equal. rewrite Nat2Z.inj_sub, Z2Nat.id by lia.
      rewrite Zminus_mod, Hm, Z.sub_0_r, Zmod_mod. done. }
  destruct (decide (left <= off)) as [Hle|Hgt].
  - assert (len = left) as -> by (unfold len; lia). rewrite Z.sub_diag.
    exists o1. split_and!; [by destruct fuel|done|done].
  - assert (len = off) as El by (unfold len; lia). rewrite El in *.
    assert (shl 32 off 1 = 2 * off) as ->
      by (unfold shl; rewrite Z.shiftl_mul_pow2, wrap_small by (unfold uint; lia); lia).
    destruct (IH o1 (2 * off) (left - off)) as (o2 & -> & Hl2 & H2); try lia.
    + rewrite Z.mul_mod, Hm, Z.mul_0_r by lia. apply Z.mod_0_l. lia.
    + intros i Hi. rewrite H1, decide_True by lia. done.
    + exists o2. split_and!; [done|lia|]. intros i. rewrite H2, H1.
      replace (2 * off + (left - off)) with (off + left) by lia.
      destruct (decide _); [done|]. by rewrite decide_False by lia.
Qed.

Lemma dup_pattern_spec p out out_len n :
  0 < n -> 0 < out_len < 2 ^ 32 -> out_len <= Z.of_nat (length out) ->
  (forall i, Z.of_nat i < Z.min n out_len -> out !! i = periodic p n i) ->
  exists out', dup_pattern out out_len n = Some out' /\ length out' = length out /\
    forall i, out' !! i = if decide (Z.of_nat i < out_len) then periodic p n i else out !! i.
Proof.
  intros Hn Ho Hl Hp. unfold dup_pattern. destruct (Z.leb_spec out_len n).
  - exists out. split_and!; [done..|]. intros i. destruct (decide _); [|done]. apply Hp. lia.
  - destruct (dup_loop_spec p n (Z.to_nat out_len) out n (out_len - n)) as (o & E & Hlo & Hi);
      try lia.
    + apply Z.mod_same. lia.
    + intros i Hi. apply Hp. lia.
    + exists o. split_and!; [done..|]. intros i. rewrite Hi.
      replace (n + (out_len - n)) with out_len by lia. done.
Qed.

(** Copying the head of the pattern, the first half of both [cpy_pattern] and
    [paste_format]. *)
Lemma copy_head_spec (pattern out : list Z) n out_len :
  0 < n -> n <= Z.of_nat (length pattern) -> 0 < out_len -> out_len <= Z.of_nat (length out) ->
  exists src o, mem_read pattern 0 (Z.min n out_len) = Some src /\ mem_write out 0 src = Some o /\
    length o = length out /\
    forall i, o !! i = if decide (Z.of_nat i < Z.min n out_len) then pattern !! i else out !! i.
Proof.
  intros Hn Hp Ho Hl.
  destruct (mem_read pattern 0 (Z.min n out_len)) as [src|] eqn:Hr;
    [|rewrite mem_read_Some in Hr by lia; done].
  pose proof (fun i => mem_read_at _ _ _ _ i Hr) as Hs.
  assert (Z.of_nat (length src) = Z.min n out_len) as Hsl by apply (Hs 0%nat).
  eexists src, _. split; [done|]. split; [apply mem_write_Some; lia|].
  split; [apply length_inserts|]. intros i.
  rewrite (mem_write_lookup out 0 src) by (apply mem_write_Some; lia). rewrite Hsl.
  destruct (decide (Z.of_nat i < Z.min n out_len)).
  - rewrite decide_True by lia. destruct (Hs (i - Z.to_nat 0)%nat) as [_ ->].
    rewrite decide_True by lia. f_equal. lia.
  - by rewrite decide_False by lia.
Qed.

Lemma cpy_pattern_spec pattern n out out_len :
  0 < n -> n <= Z.of_nat (length pattern) -> 0 < out_len < 2 ^ 32 ->
  out_len <= Z.of_nat (length out) ->
  exists out', cpy_pattern pattern n out out_len = Some (0, out') /\ length out' = length out /\
    forall i, out' !! i = if decide (Z.of_nat i < out_len) then periodic pattern n i else out !! i.
Proof.
  intros Hn Hp Ho Hl. unfold cpy_pattern.
  destruct (Z.eqb_spec n 0), (Z.eqb_spec out_len 0); try lia. cbn [orb].
  destruct (copy_head_spec pattern out n out_len) as (src & o & -> & Hw & Hlo & Hi); try lia.
  cbn [mbind option_bind]. rewrite Hw. cbn [mbind option_bind].
  destruct (dup_pattern_spec pattern o out_len n) as (o' & -> & Hlo' & Hi'); try lia.
  { intros i Hlt. rewrite Hi, decide_True, periodic_small by lia. done. }
  exists o'. split_and!; [done|lia|]. intros i. rewrite Hi', Hi.
  destruct (decide (Z.of_nat i < out_len)); [done|]. by rewrite decide_False by lia.
Qed.

(** ** Proofs: comparing *)
Lemma mem_eq_spec a i b j n :
  0 <= i -> 0 <= j -> 0 <= n -> i + n <= Z.of_nat (length a) -> j + n <= Z.of_nat (length b) ->
  exists r, mem_eq a i b j n = Some r /\
    (r = true <-> forall k : nat, Z.of_nat k < n ->
       a !! (Z.to_nat i + k)%nat = b !! (Z.to_nat j + k)%nat).
Proof.
  intros Hi Hj Hn Ha Hb. unfold mem_eq.
  destruct (mem_read a i n) as [x|] eqn:Hx; [|rewrite mem_read_Some in Hx by lia; done].
  destruct (mem_read b j n) as [y|] eqn:Hy; [|rewrite mem_read_Some in Hy by lia; done].
  cbn [mbind option_bind]. eexists. split; [done|]. rewrite bool_decide_eq_true. split.
  - intros -> k Hk. destruct (mem_read_at _ _ _ _ k Hx) as [_ E1], (mem_read_at _ _ _ _ k Hy) as [_ E2].
    rewrite decide_True in E1, E2 by done. congruence.
  - intros H. apply list_eq. intros k.
    destruct (mem_read_at _ _ _ _ k Hx) as [_ ->], (mem_read_at _ _ _ _ k Hy) as [_ ->].
    destruct (decide _); [by apply H|done].
Qed.

(** The first [m] bytes of [buf] continue the repeated pattern from [off] on. *)
Definition follows (pattern : list Z) (n off : Z) (buf : list Z) (m : Z) : Prop :=
  forall k : nat, Z.of_nat k < m ->
    buf !! k = pattern !! Z.to_nat ((off + Z.of_nat k) mod n).

(** A buffer with period [n] follows the pattern as soon as its first period does. *)
Lemma follows_period pattern n off buf len :
  0 < n ->
  (forall k : nat, Z.of_nat k + n < len -> buf !! k = buf !! (k + Z.to_nat n)%nat) ->
  follows pattern n off buf (Z.min len n) -> follows pattern n off buf len.
Proof.
  intros Hn Hper Hf k. induction k as [k IH] using lt_wf_ind. intros Hk.
  destruct (decide (Z.of_nat k < n)) as [|Hge]; [apply Hf; lia|].
  replace k with ((k - Z.to_nat n) + Z.to_nat n)%nat by lia.
  rewrite <- Hper, IH by lia. f_equal. f_equal.
  rewrite Nat2Z.inj_sub, Nat2Z.inj_add, Nat2Z.inj_sub, Z2Nat.id by lia.
  replace (off + (Z.of_nat k - n + n)) with (off + (Z.of_nat k - n) + 1 * n) by lia.
  by rewrite Z.mod_add by lia.
Qed.

Lemma follows_periodic pattern n off buf len k :
  0 < n -> follows pattern n off buf len -> Z.of_nat k + n < len ->
  buf !! k = buf !! (k + Z.to_nat n)%nat.
Proof.
  intros Hn Hf Hk. rewrite !Hf by lia. f_equal. f_equal.
  rewrite Nat2Z.inj_add, Z2Nat.id by lia.
  replace (off + (Z.of_nat k + n)) with (off + Z.of_nat k + 1 * n) by lia.
  by rewrite Z.mod_add by lia.
Qed.

(** The first comparison: the buffer against itself, one period further on. *)
Lemma cmp_self_spec buf n len :
  0 < n -> 0 <= len <= Z.of_nat (length buf) ->
  exists r, (if n <? len then mem_eq buf 0 buf n (len - n) else Some true) = Some r /\
    (r = true <-> forall k : nat, Z.of_nat k + n < len -> buf !! k = buf !! (k + Z.to_nat n)%nat).
Proof.
  intros Hn Hl. destruct (Z.ltb_spec n len).
  - destruct (mem_eq_spec buf 0 buf n (len - n)) as (r & -> & Hr); try lia.
    exists r. split; [done|]. rewrite Hr.
    split; intros H' k Hk; specialize (H' k ltac:(lia)); cbn [Z.to_nat Nat.add] in *;
      rewrite (Nat.add_comm (Z.to_nat n)) in *; done.
  - exists true. split; [done|]. split; [|done]. intros _ k Hk. lia.
Qed.

(** The second: the tail of the pattern from [off] on. *)
Lemma cmp_tail_spec pattern n off buf len :
  n = Z.of_nat (length pattern) -> 0 <= off < n -> 0 <= len <= Z.of_nat (length buf) ->
  exists r, mem_eq buf 0 pattern off (Z.min len (n - off)) = Some r /\
    (r = true <-> follows pattern n off buf (Z.min len (n - off))).
Proof.
  intros Hp Ho Hl.
  destruct (mem_eq_spec buf 0 pattern off (Z.min len (n - off))) as (r & -> & Hr); try lia.
  exists r. split; [done|]. rewrite Hr. unfold follows.
  split; intros H k Hk; specialize (H k Hk); change (Z.to_nat 0 + k)%nat with k in *;
    rewrite H; f_equal;
    rewrite Z.mod_small by lia; lia.
Qed.

(** The third: the head of the pattern, once the tail has matched. *)
Lemma cmp_head_spec pattern n off buf len :
  n = Z.of_nat (length pattern) -> 0 < off < n -> n - off <= len <= Z.of_nat (length buf) ->
  follows pattern n off buf (n - off) ->
  exists r, mem_eq buf (n - off) pattern 0 (Z.min (len - (n - off)) off) = Some r /\
    (r = true <-> follows pattern n off buf (Z.min len n)).
Proof.
  intros Hp Ho Hl Hf.
  destruct (mem_eq_spec buf (n - off) pattern 0 (Z.min (len - (n - off)) off)) as (r & -> & Hr);
    try lia.
  exists r. split; [done|]. rewrite Hr. split.
  - intros H k Hk. destruct (decide (Z.of_nat k < n - off)) as [|Hge]; [by apply Hf|].
    specialize (H (k - Z.to_nat (n - off))%nat ltac:(lia)).
    replace (Z.to_nat (n - off) + (k - Z.to_nat (n - off)))%nat with k in H by lia.
    rewrite H. f_equal. replace (off + Z.of_nat k) with (off + Z.of_nat k - n + 1 * n) by lia.
    rewrite Z.mod_add, Z.mod_small by lia. lia.
  - intros H k Hk. rewrite (H (Z.to_nat (n - off) + k)%nat) by lia. f_equal.
    replace (off + _) with (Z.of_nat k + 1 * n) by lia.
    rewrite Z.mod_add, Z.mod_small by lia. lia.
Qed.

Lemma cmp_pattern_spec pattern n off buf len :
  0 < n -> n = Z.of_nat (length pattern) -> 0 <= off < n -> 0 <= len <= Z.of_nat (length buf) ->
  exists rc, cmp_pattern pattern n off buf len = Some rc /\ (rc = 0 \/ rc = - EILSEQ) /\
    (rc = 0 <-> follows pattern n off buf len).
Proof.
  intros Hn Hp Ho Hl. unfold cmp_pattern.
  destruct (cmp_self_spec buf n len) as (r1 & -> & H1); [done..|]. cbn [mbind option_bind].
  assert (follows pattern n off buf len <-> r1 = true /\ follows pattern n off buf (Z.min len n))
    as Hiff.
  { rewrite H1. split.
    - intros Hf. split; [intros k; by apply (follows_periodic pattern n off)|].
      intros k Hk. apply Hf. lia.
    - intros [Hper Hf]. by apply follows_period. }
  setoid_rewrite Hiff. clear H1 Hiff. destruct r1; cbn [negb]; [|eexists; split_and!; [done|by right|naive_solver]].
  destruct (cmp_tail_spec pattern n off buf len) as (r2 & E2 & H2); [done..|].
  assert (follows pattern n off buf (Z.min len n) -> r2 = true) as H2f.
  { intros Hf. apply H2. intros k Hk. apply Hf. lia. }
  destruct (Z.eqb_spec off 0) as [->|Hoff]; cbn [negb mbind option_bind].
  - rewrite Z.sub_0_r in E2, H2. destruct (Z.eqb_spec len 0) as [->|]; cbn [negb].
    + exists 0. split_and!; [done|by left|]. split; [|done]. intros _. split; [done|].
      intros k Hk. lia.
    + rewrite E2. cbn [mbind option_bind].
      destruct r2; cbn [negb]; eexists; (split_and!; [done|by auto|naive_solver]).
  - rewrite E2. cbn [mbind option_bind]. destruct r2; cbn [negb];
      [|eexists; split_and!; [done|by right|naive_solver]].
    destruct H2 as [H2 _]. specialize (H2 eq_refl).
    destruct (Z.eqb_spec (len - Z.min len (n - off)) 0) as [E|Hne]; cbn [negb].
    + exists 0. split_and!; [done|by left|]. split; [|done]. intros _. split; [done|].
      intros k Hk. apply H2. lia.
    + assert (n - off < len) by lia.
      replace (Z.min len (n - off)) with (n - off) in * by lia.
      destruct (cmp_head_spec pattern n off buf len) as (r3 & -> & H3); [done|lia|lia|done|].
      cbn [mbind option_bind].
      destruct r3; cbn [negb]; eexists; (split_and!; [done|by auto|naive_solver]).
Qed.

(** [cmp_pattern] returns 0 exactly when the buffer is the repeated
    pattern, started at offset [off] of it, and otherwise [-EILSEQ]; it reads
    nothing outside the buffer and the pattern.  (The code compares the
    buffer with itself one period further on, then one period with the
    pattern in two pieces.) *)
Theorem cmp_pattern_correct pattern n off buf len :
  0 < n -> n = Z.of_nat (length pattern) -> 0 <= off < n -> 0 <= len <= Z.of_nat (length buf) ->
  exists rc, cmp_pattern pattern n off buf len = Some rc /\ (rc = 0 \/ rc = - EILSEQ) /\
    (rc = 0 <-> follows pattern n off buf len).
Proof. apply cmp_pattern_spec. Qed.

Lemma cmp_pattern_correct_witness :
  exists rc, cmp_pattern [1; 2; 3] 3 1 [2; 3; 1; 2; 3; 1; 2] 7 = Some rc /\ rc = 0.
Proof.
  destruct (cmp_pattern_correct [1; 2; 3] 3 1 [2; 3; 1; 2; 3; 1; 2] 7) as (rc & H & _ & Hf);
    [lia|reflexivity|lia|simpl; lia|].
  exists rc. split; [exact H|]. apply Hf. intros k Hk.
  do 7 (destruct k as [|k]; [reflexivity|]). lia.
Defined.

(** What [cpy_pattern] writes is what [cmp_pattern] accepts: for every
    pattern and every buffer size below 4 GiB the copy succeeds, touches only
    the first [out_len] bytes, and any window of it, at any offset, compares
    equal with the pattern taken at that offset modulo its length. *)
Theorem cpy_then_cmp pattern n out out_len at_ len :
  0 < n -> n = Z.of_nat (length pattern) -> 0 < out_len < 2 ^ 32 ->
  out_len <= Z.of_nat (length out) -> 0 <= at_ -> 0 <= len -> at_ + len <= out_len ->
  exists out' win, cpy_pattern pattern n out out_len = Some (0, out') /\
    drop (Z.to_nat out_len) out' = drop (Z.to_nat out_len) out /\
    mem_read out' at_ len = Some win /\ cmp_pattern pattern n (at_ mod n) win len = Some 0.
Proof.
  intros Hn Hp Ho Hl Ha Hlen Hs.
  destruct (cpy_pattern_spec pattern n out out_len) as (o & E & Hlo & Hi); try lia.
  destruct (mem_read o at_ len) as [win|] eqn:Hr; [|rewrite mem_read_Some in Hr by lia; done].
  exists o, win. split_and!; [done| |done|].
  - apply list_eq. intros i. rewrite !lookup_drop, Hi, decide_False by lia. done.
  - pose proof (Z.mod_pos_bound at_ n Hn). destruct (mem_read_at _ _ _ _ 0 Hr) as [Hw _].
    destruct (cmp_pattern_spec pattern n (at_ mod n) win len) as (rc & -> & _ & Hrc); try lia.
    f_equal. apply Hrc. intros k Hk. destruct (mem_read_at _ _ _ _ k Hr) as [_ ->].
    rewrite decide_True by done. rewrite Hi, decide_True by lia. unfold periodic.
    rewrite Zplus_mod_idemp_l. f_equal. f_equal. f_equal. lia.
Qed.

Lemma cpy_then_cmp_witness :
  exists out' win, cpy_pattern [1; 2; 3] 3 (replicate 20 0) 17 = Some (0, out') /\
    mem_read out' 5 9 = Some win /\ cmp_pattern [1; 2; 3] 3 (5 mod 3) win 9 = Some 0.
Proof.
  destruct (cpy_then_cmp [1; 2; 3] 3 (replicate 20 0) 17 5 9) as (o & w & H1 & _ & H2 & H3);
    [lia|reflexivity|lia|simpl; lia|lia|lia|lia|].
  exists o, w. split; [exact H1|]. split; [exact H2|exact H3].
Defined.
