(* ===== verification/PatternParse.v ===== *)
(** * Parsing patterns: [lib/pattern.c], [lib/strntol.c]

    [parse_and_fill_pattern] and the parsers it calls on the head of the
    input.  Text is a list of character codes without the terminating zero;
    what a pointer into it sees is a suffix of that list.  [out] is the whole
    output buffer and [pos] the place the source's [out] pointer has reached. *)
From Stdlib Require Import Ascii String.
From S2P Require Import Prelude Pattern.

(** ** Characters *)
Fixpoint codes (s : string) : list Z :=
  match s with
  | EmptyString => []
  | String c s => Z.of_nat (nat_of_ascii c) :: codes s
  end.

Definition is_digit (c : Z) : bool := (48 <=? c) && (c <=? 57).
Definition is_x (c : Z) : bool := (c =? 120) || (c =? 88).
Definition isspace (c : Z) : bool := ((9 <=? c) && (c <=? 13)) || (c =? 32).
Definition hex_val (c : Z) : option Z :=
  if is_digit c then Some (c - 48)
  else if (97 <=? c) && (c <=? 102) then Some (c - 87)
  else if (65 <=? c) && (c <=? 70) then Some (c - 55)
  else None.
Definition is_hex (c : Z) : bool := bool_decide (is_Some (hex_val c)).

(** The longest prefix of characters satisfying [p], by its length. *)
Fixpoint run_len (p : Z -> bool) (s : list Z) : nat :=
  match s with
  | c :: s => if p c then S (run_len p s) else O
  | [] => O
  end.

(** ** The C library's part: [sscanf], [strtol], [strchr], [strcasestr] *)

(** [sscanf(beg, "0%*[xX]%*[0-9a-fA-F]%n", &num)] with [num] zero before. *)
Definition scan_hex_prefix (beg : list Z) : Z :=
  match beg with
  | c :: r =>
      if c =? 48 then
        let nx := run_len is_x r in
        let nh := run_len is_hex (drop nx r) in
        if (nx =? 0)%nat || (nh =? 0)%nat then 0 else Z.of_nat (1 + nx + nh)
      else 0
  | [] => 0
  end.

(** [sscanf(beg, "%<w>hhx", &out)] on text that starts with a hexadecimal
    digit or with neither space nor sign: [None] is no assignment. *)
Definition scan_hhx (w : nat) (beg : list Z) : option Z :=
  match beg with
  | c :: r =>
      v ← hex_val c;
      if (w =? 1)%nat then Some v else
      match r with
      | c2 :: _ => match hex_val c2 with Some v2 => Some (16 * v + v2) | None => Some v end
      | [] => Some v
      end
  | [] => None
  end.

Definition LONG_MAX : Z := 2 ^ 63 - 1.
Definition LONG_MIN : Z := - 2 ^ 63.
Definition INT_MAX : Z := 2 ^ 31 - 1.
Definition INT_MIN : Z := - 2 ^ 31.

Definition digits_val (s : list Z) : Z := fold_left (fun a c => 10 * a + (c - 48)) s 0.

(** [strtol(s, &end, 10)]: the clamped value and [end - s]. *)
Definition strtol (s : list Z) : Z * Z :=
  let sp := run_len isspace s in
  let r := drop sp s in
  let '(neg, sg, r) := match r with
    | c :: r' => if c =? 45 then (true, 1%nat, r') else if c =? 43 then (false, 1%nat, r')
                 else (false, 0%nat, r)
    | [] => (false, 0%nat, r) end in
  let nd := run_len is_digit r in
  if (nd =? 0)%nat then (0, 0) else
  let v := digits_val (take nd r) in
  let v := if neg then - v else v in
  (Z.max LONG_MIN (Z.min LONG_MAX v), Z.of_nat (sp + sg + nd)).

(** [strntol(str, sz, &end, 10)]: the value and [end - str], with no [end]
    when the source leaves it pointing into its local buffer. *)
Definition strntol (str : list Z) (sz : Z) : Z * option Z :=
  let sp := run_len (fun c => c =? 32) (take (Z.to_nat sz) str) in
  let beg := drop sp str in
  let sz := sz - Z.of_nat sp in
  if (sz =? 0) || (24 <=? sz) then (0, Some 0) else
  let '(ret, e) := strtol (take (Z.to_nat sz) beg) in
  if (ret =? LONG_MIN) || (ret =? LONG_MAX) then (ret, None) else (ret, Some e).

(** Offset of the first ["0x"] or ["0X"], [strcasestr(s, "0x")]. *)
Fixpoint find_0x (s : list Z) : option nat :=
  match s with
  | c :: r =>
      match r with
      | c2 :: _ => if (c =? 48) && is_x c2 then Some O else S <$> find_0x r
      | [] => None
      end
  | [] => None
  end.

(** [strchr(s, c) - s]. *)
Fixpoint strchr (s : list Z) (c : Z) : option nat :=
  match s with
  | d :: s => if d =? c then Some O else S <$> strchr s c
  | [] => None
  end.

(** ** The parsers *)

(** What one parser returns: no end pointer, or the text after the item and
    the number of bytes it filled; with the buffer in either case. *)
Inductive pres :=
| PNull (out : list Z)
| PEnd (rest : list Z) (out : list Z) (filled : Z).

(** [open] and [read] of a file by name, at most the given number of bytes:
    the operating system's part. *)
Section Parse.
Context (read_file : list Z -> Z -> option (list Z)).

Definition parse_file (beg : list Z) (out : list Z) (pos out_len : Z) : option pres :=
  if out_len =? 0 then Some (PNull out) else
  match beg with
  | c :: beg =>
      _ ← assert (c =? 39);
      match strchr beg 39 with
      | None => Some (PNull out)
      | Some e =>
          match read_file (take e beg) out_len with
          | None => Some (PNull out)
          | Some data =>
              out ← mem_write out pos data;
              Some (PEnd (drop (S e) beg) out (Z.of_nat (length data)))
          end
      end
  | [] => None
  end.

Definition parse_string (beg : list Z) (out : list Z) (pos out_len : Z) : option pres :=
  if out_len =? 0 then Some (PNull out) else
  match beg with
  | c :: beg =>
      _ ← assert (c =? 34);
      match strchr beg 34 with
      | None => Some (PNull out)
      | Some e =>
          if out_len <? Z.of_nat e then Some (PNull out) else
          out ← mem_write out pos (take e beg);
          Some (PEnd (drop (S e) beg) out (Z.of_nat e))
      end
  | [] => None
  end.

(** [for (; val && out_len; out_len--, i++, val >>= 8) out[i] = val & 0xff]:
    the buffer, [i] and what is left of [val].  Four rounds empty a 32-bit
    value. *)
Fixpoint put_val (fuel : nat) (out : list Z) (pos i val out_len : Z) : option (list Z * Z * Z) :=
  if (val =? 0) || (out_len =? 0) then Some (out, i, val) else
  match fuel with
  | O => None
  | S fuel =>
      out ← arr_set out (pos + i) (Z.land val 0xff);
      put_val fuel out pos (i + 1) (Z.shiftr val 8) (out_len - 1)
  end.

(** The loop over the hexadecimal digits; an odd count reads one digit first. *)
Fixpoint put_hex (fuel : nat) (beg : list Z) (out : list Z) (pos i num out_len : Z)
    : option (list Z * Z * Z) :=
  if (num =? 0) || (out_len =? 0) then Some (out, i, num) else
  match fuel with
  | O => None
  | S fuel =>
      let odd := negb (Z.land num 1 =? 0) in
      let w := if odd then 1%nat else 2%nat in
      out ← match scan_hhx w beg with
            | Some v => arr_set out (pos + i) v
            | None => Some out
            end;
      put_hex fuel (drop w beg) out pos (i + 1) (num - Z.of_nat w) (out_len - 1)
  end.

(** The look-back that separates two adjacent hexadecimal numbers. *)
Definition look_back (beg : list Z) (num : Z) : Z :=
  match drop (Z.to_nat num) beg, arr_get beg (num - 1) with
  | c :: _, Some b => if (b =? 48) && is_x c then num - 1 else num
  | _, _ => num end.

Definition parse_number (beg : list Z) (out : list Z) (pos out_len : Z) : option pres :=
  if out_len =? 0 then Some (PNull out) else
  let num := scan_hex_prefix beg in
  if num =? 0 then
    let num := Z.of_nat (default O (find_0x beg)) in
    let '(lval, e) := if negb (num =? 0) then strntol beg num
                      else let '(v, e) := strtol beg in (v, Some e) in
    if bool_decide (e = Some 0) || (INT_MAX <? lval) || (lval <? INT_MIN)
    then Some (PNull out) else
    e ← e;
    if lval =? 0 then
      out ← arr_set out pos 0;
      Some (PEnd (drop (Z.to_nat e) beg) out 1)
    else
      '(out, i, val) ← put_val 4 out pos 0 (u32 lval) out_len;
      if negb (val =? 0) then Some (PNull out)
      else Some (PEnd (drop (Z.to_nat e) beg) out i)
  else
    _ ← assert (2 <? num);
    let num := num - 2 in
    let beg := drop 2 beg in
    let num := look_back beg num in
    '(out, i, num_left) ← put_hex (Z.to_nat num) beg out pos 0 num out_len;
    if negb (num_left =? 0) then Some (PNull out)
    else Some (PEnd (drop (Z.to_nat num) beg) out i).

(** The first descriptor whose name starts the text, [strncmp] over its length. *)
Fixpoint find_fmt (s : list Z) (descs : list pattern_fmt_desc) : option pattern_fmt_desc :=
  match descs with
  | [] => None
  | d :: descs =>
      if bool_decide (take (length (fd_fmt d)) s = fd_fmt d) then Some d else find_fmt s descs
  end.

(** [parse_format] also returns the entry it put into the [fmt] array. *)
Definition parse_format (beg : list Z) (out : list Z) (pos out_len : Z)
    (fmt_desc : list pattern_fmt_desc) (fmt_sz : Z) : option (pres * option pattern_fmt) :=
  if (out_len =? 0) || bool_decide (fmt_desc = []) || (fmt_sz =? 0)
  then Some (PNull out, None) else
  match beg with
  | c :: _ =>
      _ ← assert (c =? 37);
      match find_fmt beg fmt_desc with
      | None => Some (PNull out, None)
      | Some d =>
          if out_len <? fd_len d then Some (PNull out, Some (Fmt pos d)) else
          out ← mem_write out pos (replicate (Z.to_nat (fd_len d)) 0);
          Some (PEnd (drop (length (fd_fmt d)) beg) out (fd_len d), Some (Fmt pos d))
      end
  | [] => None
  end.

(** The result of the whole parse: [-EINVAL], the number of bytes with the
    buffer and the formats found, or a failed [assert]. *)
Inductive pf_result :=
| PFErr (out : list Z)
| PFOk (total : Z) (out : list Z) (fmts : list pattern_fmt)
| PFAbort.

Definition parse_item (beg : list Z) (out : list Z) (pos out_len : Z)
    (fmt_desc : list pattern_fmt_desc) (fmt_rem : Z) : option (pres * option pattern_fmt) :=
  match beg with
  | c :: _ =>
      if c =? 39 then r ← parse_file beg out pos out_len; Some (r, None)
      else if c =? 34 then r ← parse_string beg out pos out_len; Some (r, None)
      else if c =? 37 then parse_format beg out pos out_len fmt_desc fmt_rem
      else r ← parse_number beg out pos out_len; Some (r, None)
  | [] => r ← parse_number beg out pos out_len; Some (r, None)
  end.

(** The [do ... while (in_len)] loop; each round fills at least one byte. *)
Fixpoint parse_loop (fuel : nat) (beg : list Z) (in_len : Z) (out : list Z) (pos out_len : Z)
    (fmt_desc : list pattern_fmt_desc) (fmts : list pattern_fmt) (fmt_rem : Z)
    : option pf_result :=
  match fuel with
  | O => None
  | S fuel =>
      '(r, f) ← parse_item beg out pos out_len fmt_desc fmt_rem;
      match r with
      | PNull out => Some (PFErr out)
      | PEnd rest out filled =>
          let fmts := fmts ++ option_list f in
          let fmt_rem := fmt_rem - Z.of_nat (length (option_list f)) in
          let used := Z.of_nat (length beg) - Z.of_nat (length rest) in
          if negb (used <=? in_len) then Some PFAbort else
          if negb (negb (filled =? 0) && (filled <=? out_len)) then Some PFAbort else
          let in_len := in_len - used in
          let pos := pos + filled in
          let out_len := out_len - filled in
          if in_len =? 0 then Some (PFOk pos out fmts)
          else parse_loop fuel rest in_len out pos out_len fmt_desc fmts fmt_rem
      end
  end.

Definition parse_and_fill_pattern (inp : list Z) (in_len : Z) (out : list Z) (out_len : Z)
    (fmt_desc : list pattern_fmt_desc) (fmt_sz : Z) : option pf_result :=
  if (in_len =? 0) || (out_len =? 0) then Some (PFErr out) else
  parse_loop (S (Z.to_nat out_len)) inp in_len out 0 out_len fmt_desc [] fmt_sz.
End Parse.

(** The examples of the source's comment. *)
Example parse_comment_examples (f : list Z -> Z -> option (list Z)) :
  let p s := parse_and_fill_pattern f (codes s) (Z.of_nat (length (codes s))) (replicate 32 0) 32 [] 0 in
  (exists o, p "-1024"%string = Some (PFOk 4 o []) /\ take 4 o = [0; 0xfc; 0xff; 0xff]) /\
  (exists o, p "66"%string = Some (PFOk 1 o []) /\ take 1 o = [0x42]) /\
  (exists o, p "0xFF0X1"%string = Some (PFOk 2 o []) /\ take 2 o = [0xff; 0x01]) /\
  (exists o, p "-100xab"%string = Some (PFOk 5 o []) /\ take 5 o = [0xf6; 0xff; 0xff; 0xff; 0xab]).
Proof. repeat split; eexists; split; vm_compute; reflexivity. Qed.

(** ** Where the parsers write *)

Lemma put_val_spec fuel : forall out pos i val ol,
  0 <= val < 256 ^ Z.of_nat fuel -> 0 <= pos -> 0 <= i -> 0 <= ol ->
  pos + i + ol <= Z.of_nat (length out) ->
  exists out' i' val', put_val fuel out pos i val ol = Some (out', i', val') /\
    i <= i' <= i + ol /\ touch out out' (pos + i) (pos + i') /\ (val <> 0 -> ol <> 0 -> i < i').
Proof.
  induction fuel as [|fuel IH]; intros out pos i val ol Hv Hp Hi Ho Hl; cbn [put_val].
  - replace val with 0 by (change (256 ^ Z.of_nat 0) with 1 in Hv; lia). rewrite Z.eqb_refl.
    exists out, i, 0. split_and!; [done|lia|lia|apply touch_refl|lia].
  - destruct (Z.eqb_spec val 0); cbn [orb];
      [exists out, i, val; split_and!; [done|lia|lia|apply touch_refl|lia]|].
    destruct (Z.eqb_spec ol 0); [exists out, i, val; split_and!; [done|lia|lia|apply touch_refl|lia]|].
    destruct (touch_set out (pos + i) (Z.land val 0xff)) as (o1 & -> & T1); [lia|].
    cbn [mbind option_bind].
    destruct (IH o1 pos (i + 1) (Z.shiftr val 8) (ol - 1)) as (o2 & i2 & v2 & -> & Hb & T2 & _).
    + rewrite Z.shiftr_div_pow2 by lia. change (2 ^ 8) with 256.
      rewrite Nat2Z.inj_succ, Z.pow_succ_r in Hv by lia.
      split; [apply Z.div_pos; lia|apply Z.div_lt_upper_bound; lia].
    + lia.
    + lia.
    + lia.
    + destruct T1 as [-> _]. lia.
    + exists o2, i2, v2. split_and!; [done|lia|lia| |lia].
      eapply touch_trans; [|done|by rewrite <- Z.add_assoc]. lia.
Qed.

Lemma put_hex_spec fuel : forall beg out pos i num ol,
  0 <= num <= Z.of_nat fuel -> 0 <= pos -> 0 <= i -> 0 <= ol ->
  pos + i + ol <= Z.of_nat (length out) ->
  exists out' i' num', put_hex fuel beg out pos i num ol = Some (out', i', num') /\
    i <= i' <= i + ol /\ touch out out' (pos + i) (pos + i') /\ (num <> 0 -> ol <> 0 -> i < i').
Proof.
  induction fuel as [|fuel IH]; intros beg out pos i num ol Hn Hp Hi Ho Hl; cbn [put_hex].
  - replace num with 0 by lia. rewrite Z.eqb_refl.
    exists out, i, 0. split_and!; [done|lia|lia|apply touch_refl|lia].
  - destruct (Z.eqb_spec num 0); cbn [orb];
      [exists out, i, num; split_and!; [done|lia|lia|apply touch_refl|lia]|].
    destruct (Z.eqb_spec ol 0); [exists out, i, num; split_and!; [done|lia|lia|apply touch_refl|lia]|].
    set (w := if negb (Z.land num 1 =? 0) then 1%nat else 2%nat).
    assert (1 <= Z.of_nat w <= num) as Hw.
    { unfold w. assert (Z.land num 1 = num mod 2) as -> by apply (land_pow2_mod num 1 ltac:(lia)).
      destruct (Z.eqb_spec (num mod 2) 0); cbn [negb]; zdm. }
    assert (exists o1, match scan_hhx w beg with Some v => arr_set out (pos + i) v | None => Some out end
      = Some o1 /\ touch out o1 (pos + i) (pos + i + 1)) as (o1 & -> & T1).
    { destruct (scan_hhx w beg); [apply touch_set; lia|]. exists out. split; [done|apply touch_refl]. }
    cbn [mbind option_bind].
    destruct (IH (drop w beg) o1 pos (i + 1) (num - Z.of_nat w) (ol - 1))
      as (o2 & i2 & v2 & -> & Hb & T2 & _); try lia.
    { destruct T1 as [-> _]. lia. }
    exists o2, i2, v2. split_and!; [done|lia|lia| |lia].
    eapply touch_trans; [|done|by rewrite <- Z.add_assoc]. lia.
Qed.

(** The spellings an item without bytes can have: an empty quoted string, a
    hexadecimal prefix directly followed by another, and the name of an empty
    file. *)
Definition empty_item (beg : list Z) : Prop :=
  [34; 34] `prefix_of` beg \/
  (exists x y rest, is_x x = true /\ is_x y = true /\ beg = 48 :: x :: 48 :: y :: rest) \/
  [39] `prefix_of` beg.

(** What one item's parser guarantees to the loop. *)
Definition item_ok (beg out : list Z) (pos ol : Z) (r : pres) : Prop :=
  match r with
  | PNull out' => touch out out' pos (pos + ol)
  | PEnd rest out' filled =>
      0 <= filled <= ol /\ rest `suffix_of` beg /\ touch out out' pos (pos + filled) /\
      (filled = 0 -> empty_item beg)
  end.

Lemma strchr_lt s c e : strchr s c = Some e -> (e < length s)%nat.
Proof.
  revert e. induction s as [|d s IH]; intros e; simpl; [done|].
  destruct (d =? c); [intros [= <-]; lia|].
  destruct (strchr s c) as [e'|]; simpl; [|done]. intros [= <-]. specialize (IH e' eq_refl). lia.
Qed.

Lemma drop_suffix {A} n (l : list A) : drop n l `suffix_of` l.
Proof. exists (take n l). by rewrite take_drop. Qed.

Lemma item_null beg out pos ol : exists r, Some (PNull out) = Some r /\ item_ok beg out pos ol r.
Proof. eexists. split; [done|apply touch_refl]. Qed.

(** An item that stores [src] at the current place. *)
Lemma item_store beg out pos ol src rest :
  0 <= pos -> pos + ol <= Z.of_nat (length out) -> Z.of_nat (length src) <= ol ->
  rest `suffix_of` beg -> (src = [] -> empty_item beg) ->
  exists r, (out ← mem_write out pos src; Some (PEnd rest out (Z.of_nat (length src)))) = Some r /\
    item_ok beg out pos ol r.
Proof.
  intros Hp Hl Hs Hr Hz. rewrite mem_write_Some by lia. eexists. split; [done|].
  split; [lia|]. split_and!; [done|by apply touch_write, mem_write_Some; lia|].
  intros H. apply Hz. destruct src; [done|simpl in H; lia].
Qed.

Lemma parse_string_ok beg out pos ol :
  0 <= pos -> 0 <= ol -> pos + ol <= Z.of_nat (length out) ->
  exists r, parse_string (34 :: beg) out pos ol = Some r /\ item_ok (34 :: beg) out pos ol r.
Proof.
  intros Hp Ho Hl. unfold parse_string. destruct (ol =? 0); [apply item_null|].
  simpl. destruct (strchr beg 34) as [e|] eqn:He; [|apply item_null].
  pose proof (strchr_lt _ _ _ He). destruct (Z.ltb_spec ol (Z.of_nat e)); [apply item_null|].
  assert (length (take e beg) = e) as Hle by (rewrite length_take; lia).
  replace (Z.of_nat e) with (Z.of_nat (length (take e beg))) by lia. apply item_store; [done|done|lia|apply suffix_cons_r, (drop_suffix (S e))|].
  intros E. left. rewrite E in Hle. simpl in Hle. subst e.
  destruct beg as [|c beg]; simpl in He; [done|].
  destruct (Z.eqb_spec c 34) as [->|]; [by exists beg|]. destruct (strchr beg 34); done.
Qed.

Lemma strntol_end str sz v : strntol str sz = (v, None) -> v = LONG_MIN \/ v = LONG_MAX.
Proof.
  unfold strntol. destruct (_ || _); [done|]. destruct (strtol _) as [ret e].
  destruct (Z.eqb_spec ret LONG_MIN), (Z.eqb_spec ret LONG_MAX); simpl; naive_solver.
Qed.

Lemma scan_hex_prefix_ge beg :
  scan_hex_prefix beg <> 0 ->
  3 <= scan_hex_prefix beg /\ exists x r, beg = 48 :: x :: r /\ is_x x = true.
Proof.
  unfold scan_hex_prefix. destruct beg as [|c r]; [done|].
  destruct (Z.eqb_spec c 48) as [->|]; [|done].
  destruct (Nat.eqb_spec (run_len is_x r) 0) as [|Hx]; [done|].
  destruct (Nat.eqb_spec (run_len is_hex (drop (run_len is_x r) r)) 0); [done|].
  simpl orb. cbn iota. intros _. split; [lia|].
  destruct r as [|x r]; [done|]. exists x, r. split; [done|]. simpl in Hx.
  by destruct (is_x x).
Qed.

Lemma look_back_cases beg num :
  1 <= num -> look_back beg num = num \/
    (look_back beg num = num - 1 /\ (num = 1 -> exists y r, is_x y = true /\ beg = 48 :: y :: r)).
Proof.
  intros Hn. unfold look_back. destruct (drop _ _) as [|c r] eqn:Hd; [by left|].
  destruct (arr_get beg (num - 1)) as [b|] eqn:Hb; [|by left].
  destruct (Z.eqb_spec b 48) as [->|]; [|by left]. destruct (is_x c) eqn:Hx; [|by left].
  right. split; [done|]. intros ->. exists c, r. split; [done|].
  destruct beg as [|b' beg]; [done|]. cbv in Hb. injection Hb as ->.
  change (beg = c :: r) in Hd. by subst.
Qed.

Lemma parse_number_ok beg out pos ol :
  0 <= pos -> 0 <= ol -> pos + ol <= Z.of_nat (length out) ->
  exists r, parse_number beg out pos ol = Some r /\ item_ok beg out pos ol r.
Proof.
  intros Hp Ho Hl. unfold parse_number. destruct (Z.eqb_spec ol 0); [apply item_null|].
  destruct (Z.eqb_spec (scan_hex_prefix beg) 0) as [E0|E0].
  - destruct (if negb _ then _ else _) as [lval e] eqn:Ev.
    assert (e = None -> lval = LONG_MIN \/ lval = LONG_MAX) as Hnone.
    { intros ->. destruct (negb _); [by eapply strntol_end|]. by destruct (strtol beg). }
    destruct (_ || _ || _) eqn:Eb; [apply item_null|]. clear Ev.
    apply orb_false_iff in Eb as [[Ee Emax]%orb_false_iff Emin]. zbool.
    destruct e as [e|]; [|unfold INT_MAX, INT_MIN, LONG_MAX, LONG_MIN in *; naive_solver lia].
    cbn [mbind option_bind]. destruct (Z.eqb_spec lval 0).
    + destruct (touch_set out pos 0) as (o & -> & T); [lia|]. eexists. split; [done|].
      split; [lia|]. split_and!; [apply drop_suffix|done|lia].
    + pose proof (wrap_bounds 32 lval ltac:(lia)).
      destruct (put_val_spec 4 out pos 0 (u32 lval) ol) as (o & i & v & -> & Hi & T & Hpos); try lia.
      rewrite Z.add_0_r in T. cbn [mbind option_bind]. destruct (Z.eqb_spec v 0); cbn [negb].
      * eexists. split; [done|]. split; [lia|]. split_and!; [apply drop_suffix|done|].
        intros ->. enough (0 < 0) by lia. apply Hpos; [|lia]. intros E.
        unfold wrap in E. unfold INT_MAX, INT_MIN in *. zdm.
      * eexists. split; [done|]. eapply touch_weaken, T. lia.
  - destruct (scan_hex_prefix_ge beg E0) as (Hge & x & r & -> & Hx).
    destruct (Z.ltb_spec 2 (scan_hex_prefix (48 :: x :: r))) as [_|]; [|lia].
    cbn [assert mbind option_bind]. set (n0 := scan_hex_prefix _ - 2) in *.
    change (drop 2 (48 :: x :: r)) with r.
    assert (1 <= n0) as Hn0 by lia. clearbody n0. pose proof (look_back_cases r n0 Hn0) as Hlb.
    destruct (put_hex_spec (Z.to_nat (look_back r n0)) r out pos 0 (look_back r n0) ol)
      as (o & i & v & -> & Hi & T & Hpos); try lia.
    rewrite Z.add_0_r in T. cbn [mbind option_bind]. destruct (Z.eqb_spec v 0); cbn [negb].
    + eexists. split; [done|]. split; [lia|].
      split_and!; [by do 2 apply suffix_cons_r; apply drop_suffix|done|].
      intros ->. right. left. destruct Hlb as [E|[E Hy]]; [lia|].
      destruct (decide (n0 = 1)) as [E1|]; [|lia].
      destruct (Hy E1) as (y & r' & Hyx & ->). by exists x, y, r'.
    + eexists. split; [done|]. eapply touch_weaken, T. lia.
Qed.

Lemma parse_file_ok read_file beg out pos ol :
  (forall name n d, read_file name n = Some d -> Z.of_nat (length d) <= n) ->
  0 <= pos -> 0 <= ol -> pos + ol <= Z.of_nat (length out) ->
  exists r, parse_file read_file (39 :: beg) out pos ol = Some r /\ item_ok (39 :: beg) out pos ol r.
Proof.
  intros Hrd Hp Ho Hl. unfold parse_file. destruct (ol =? 0); [apply item_null|].
  simpl. destruct (strchr beg 39) as [e|]; [|apply item_null].
  destruct (read_file (take e beg) ol) as [d|] eqn:Hd; [|apply item_null].
  apply Hrd in Hd. apply item_store; [done..|apply suffix_cons_r, (drop_suffix (S e))|].
  intros _. right. right. by exists beg.
Qed.

(** A format entry points at bytes the parser has reserved. *)
Definition fmt_in (a b : Z) (f : pattern_fmt) : Prop :=
  a <= pf_off f /\ pf_off f + fd_len (pf_desc f) <= b.

Lemma find_fmt_In s descs d : find_fmt s descs = Some d -> d ∈ descs.
Proof.
  induction descs as [|d' descs IH]; simpl; [done|].
  destruct (bool_decide _); [intros [= ->]; left|]. right. auto.
Qed.

Lemma parse_format_ok beg out pos ol descs rem :
  Forall (fun d => 0 < fd_len d) descs ->
  0 <= pos -> 0 <= ol -> pos + ol <= Z.of_nat (length out) ->
  exists r f, parse_format (37 :: beg) out pos ol descs rem = Some (r, f) /\
    item_ok (37 :: beg) out pos ol r /\
    (forall rest out' filled, r = PEnd rest out' filled ->
       rem <> 0 /\ exists g, f = Some g /\ fmt_in pos (pos + filled) g).
Proof.
  intros Hd Hp Ho Hl. unfold parse_format. destruct (_ || _ || _) eqn:Eb.
  { eexists _, _. split; [done|]. split; [apply touch_refl|done]. }
  apply orb_false_iff in Eb as [_ Hrem]. zbool. simpl.
  destruct (find_fmt (37 :: beg) descs) as [d|] eqn:Hf; [|eexists _, _; split; [done|];
    split; [apply touch_refl|done]].
  apply find_fmt_In, list_elem_of_In in Hf. rewrite Forall_forall in Hd. specialize (Hd d Hf).
  destruct (Z.ltb_spec ol (fd_len d)); [eexists _, _; split; [done|];
    split; [apply touch_refl|done]|].
  set (z := replicate (Z.to_nat (fd_len d)) 0).
  assert (Z.of_nat (length z) = fd_len d) as Hz by (unfold z; rewrite length_replicate; lia).
  rewrite mem_write_Some by lia. cbn [mbind option_bind]. eexists _, _. split; [done|].
  rewrite <- Hz at 1. split; [split; [lia|]; split_and!; [|by apply touch_write, mem_write_Some; lia|lia]|].
  - destruct (length (fd_fmt d)); [done|]. simpl. apply suffix_cons_r, drop_suffix.
  - intros rest out' filled [= _ _ <-]. split; [done|]. eexists. split; [done|].
    unfold fmt_in. simpl. lia.
Qed.

Lemma parse_item_ok read_file beg out pos ol descs rem :
  (forall name n d, read_file name n = Some d -> Z.of_nat (length d) <= n) ->
  Forall (fun d => 0 < fd_len d) descs ->
  0 <= pos -> 0 <= ol -> pos + ol <= Z.of_nat (length out) ->
  exists r f, parse_item read_file beg out pos ol descs rem = Some (r, f) /\
    item_ok beg out pos ol r /\
    (forall rest out' filled, r = PEnd rest out' filled ->
       f = None \/ (rem <> 0 /\ exists g, f = Some g /\ fmt_in pos (pos + filled) g)).
Proof.
  intros Hrd Hd Hp Ho Hl. unfold parse_item. destruct beg as [|c beg].
  { destruct (parse_number_ok [] out pos ol) as (r & -> & Hr); [done..|].
    eexists _, _. split; [done|]. auto. }
  destruct (Z.eqb_spec c 39) as [->|].
  { destruct (parse_file_ok read_file beg out pos ol) as (r & -> & Hr); [done..|].
    eexists _, _. split; [done|]. auto. }
  destruct (Z.eqb_spec c 34) as [->|].
  { destruct (parse_string_ok beg out pos ol) as (r & -> & Hr); [done..|].
    eexists _, _. split; [done|]. auto. }
  destruct (Z.eqb_spec c 37) as [->|].
  { destruct (parse_format_ok beg out pos ol descs rem) as (r & f & -> & Hr & Hf); [done..|].
    eexists _, _. split; [done|]. split; [done|]. intros. right. by eapply Hf. }
  destruct (parse_number_ok (c :: beg) out pos ol) as (r & -> & Hr); [done..|].
  eexists _, _. split; [done|]. auto.
Qed.

(** What the whole parse promises, started at [pos] with [ol] bytes of room. *)
Definition parse_post (inp out : list Z) (pos ol : Z) (sz : Z) (r : pf_result) : Prop :=
  match r with
  | PFErr out' => touch out out' pos (pos + ol)
  | PFOk total out' fmts =>
      pos < total <= pos + ol /\ touch out out' pos total /\
      Forall (fmt_in 0 total) fmts /\ Z.of_nat (length fmts) <= sz
  | PFAbort => exists pre rest, inp = pre ++ rest /\ empty_item rest
  end.

Lemma fmt_in_mono a b c f : b <= c -> fmt_in a b f -> fmt_in a c f.
Proof. unfold fmt_in. lia. Qed.

Section Loop.
Context (read_file : list Z -> Z -> option (list Z)).
Hypothesis read_file_len :
  forall name n d, read_file name n = Some d -> Z.of_nat (length d) <= n.

Lemma parse_loop_ok fuel : forall beg out pos ol descs fmts rem sz,
  Forall (fun d => 0 < fd_len d) descs -> beg <> [] ->
  0 <= pos -> 0 <= ol < Z.of_nat fuel -> pos + ol <= Z.of_nat (length out) ->
  Forall (fmt_in 0 pos) fmts -> 0 <= rem -> Z.of_nat (length fmts) + rem <= sz ->
  exists r, parse_loop read_file fuel beg (Z.of_nat (length beg)) out pos ol descs fmts rem = Some r /\
    parse_post beg out pos ol sz r.
Proof.
  induction fuel as [|fuel IH]; intros beg out pos ol descs fmts rem sz Hd Hne Hp Ho Hl Hf Hr Hsz;
    [lia|]. cbn [parse_loop].
  destruct (parse_item_ok read_file beg out pos ol descs rem) as (r & f & -> & Hok & Hfm);
    [done..|lia|done|]. cbn [mbind option_bind].
  destruct r as [out'|rest out' filled]; [by exists (PFErr out')|].
  destruct Hok as (Hfill & Hsuf & HT & Hz).
  pose proof (suffix_length _ _ Hsuf) as Hsl.
  destruct (Z.leb_spec (Z.of_nat (length beg) - Z.of_nat (length rest)) (Z.of_nat (length beg)));
    [|lia]. cbn [negb].
  destruct (Z.eqb_spec filled 0) as [E|E].
  { exists PFAbort. split; [done|]. exists [], beg. auto. }
  destruct (Z.leb_spec filled ol); [|lia]. cbn [negb andb].
  set (fmts' := fmts ++ option_list f). set (rem' := rem - Z.of_nat (length (option_list f))).
  assert (Forall (fmt_in 0 (pos + filled)) fmts' /\ 0 <= rem' /\
    Z.of_nat (length fmts') + rem' <= sz) as (Hf' & Hr' & Hsz').
  { unfold fmts', rem'. rewrite length_app.
    assert (Forall (fmt_in 0 (pos + filled)) fmts) as Hf1
      by (eapply Forall_impl; [|exact Hf]; intros g; apply fmt_in_mono; lia).
    destruct (Hfm _ _ _ eq_refl) as [->|(Hrem & g & -> & Hg)]; simpl.
    - rewrite app_nil_r. split_and!; [done|lia..].
    - split_and!; [|lia..]. apply Forall_app. split; [done|]. constructor; [|done].
      unfold fmt_in in *. lia. }
  replace (Z.of_nat (length beg) - _) with (Z.of_nat (length rest)) by lia.
  destruct (Z.eqb_spec (Z.of_nat (length rest)) 0).
  { eexists. split; [done|]. split_and!; [lia|lia|done|done|lia]. }
  destruct (IH rest out' (pos + filled) (ol - filled) descs fmts' rem' sz) as (r & -> & Hpost);
    [done|by intros ->|lia|lia|destruct HT as [-> _]; lia|done..|].
  exists r. split; [done|]. destruct r as [o2|total o2 fm|]; simpl in *.
  - eapply touch_trans; [|done|]. lia. by replace (pos + ol) with (pos + filled + (ol - filled)) by lia.
  - destruct Hpost as (H1 & H2 & H3 & H4). split_and!; [lia|lia| |done|done].
    eapply touch_trans; [|done|done]. lia.
  - destruct Hpost as (pre & r & -> & He). destruct Hsuf as [p ->].
    exists (p ++ pre), r. by rewrite app_assoc.
Qed.
End Loop.


(** A file system in which every file holds the byte 7 repeated. *)
Definition sevens (name : list Z) (n : Z) : option (list Z) :=
  if 0 <? n then Some [7] else None.


(** The parser aborts on the pattern written as two double quotes, and on
    ["0x0x1"], instead of returning [-EINVAL]; and [strntol] places the end of
    a number preceded by blanks that many characters too early. *)
Theorem parse_empty_item_aborts f :
  parse_and_fill_pattern f [34; 34] 2 (replicate 8 0) 8 [] 0 = Some PFAbort /\
  parse_and_fill_pattern f (codes "0x0x1"%string) 5 (replicate 8 0) 8 [] 0 = Some PFAbort /\
  strntol (codes "  12"%string) 4 = (12, Some 2).
Proof. split_and!; vm_compute; reflexivity. Qed.

(** ** Printing and parsing back *)
Definition hex_digit (v : Z) : Z := if v <? 10 then 48 + v else 87 + v.

Fixpoint print_bytes (bs : list Z) : list Z :=
  match bs with
  | [] => []
  | b :: bs => hex_digit (b / 16) :: hex_digit (b mod 16) :: print_bytes bs
  end.

(** An item of a pattern: quoted text or a run of hexadecimal bytes. *)
Inductive item :=
| IText (s : list Z)
| IHex (bs : list Z).

Definition item_bytes (it : item) : list Z := match it with IText s => s | IHex bs => bs end.

Definition print_item (it : item) : list Z :=
  match it with
  | IText s => 34 :: s ++ [34]
  | IHex bs => 48 :: 120 :: print_bytes bs
  end.

Definition item_wf (it : item) : Prop :=
  item_bytes it <> [] /\
  match it with IText s => 34 ∉ s | IHex bs => Forall (uint 8) bs end.

Lemma hex_val_digit v : 0 <= v < 16 -> hex_val (hex_digit v) = Some v.
Proof.
  intros Hv. unfold hex_val, hex_digit, is_digit. destruct (Z.ltb_spec v 10).
  - destruct (Z.leb_spec 48 (48 + v)), (Z.leb_spec (48 + v) 57); try lia. simpl. f_equal. lia.
  - destruct (Z.leb_spec 48 (87 + v)), (Z.leb_spec (87 + v) 57); try lia.
    destruct (Z.leb_spec 97 (87 + v)), (Z.leb_spec (87 + v) 102); try lia. simpl. f_equal. lia.
Qed.

Lemma is_hex_digit v : 0 <= v < 16 -> is_hex (hex_digit v) = true.
Proof. intros. unfold is_hex. rewrite hex_val_digit by done. done. Qed.

Lemma not_x_digit v : 0 <= v < 16 -> is_x (hex_digit v) = false.
Proof.
  intros. unfold is_x, hex_digit. destruct (Z.ltb_spec v 10);
    apply orb_false_iff; split; apply Z.eqb_neq; lia.
Qed.

Lemma byte_nibbles b : uint 8 b -> 0 <= b / 16 < 16 /\ 0 <= b mod 16 < 16.
Proof. unfold uint. change (2 ^ 8) with 256. zdm. Qed.

Lemma run_len_hex bs rest :
  Forall (uint 8) bs ->
  run_len is_hex (print_bytes bs ++ rest) = (2 * length bs + run_len is_hex rest)%nat.
Proof.
  induction 1 as [|b bs Hb _ IH]; [done|]. apply byte_nibbles in Hb as [H1 H2].
  cbn [app print_bytes run_len length]. rewrite !is_hex_digit by done. rewrite IH. lia.
Qed.

Lemma length_print bs : length (print_bytes bs) = (2 * length bs)%nat.
Proof. induction bs as [|b bs IH]; [done|]. cbn [print_bytes length]. rewrite IH. lia. Qed.

(** The digit loop on printed bytes stores the bytes. *)
Lemma put_hex_print fuel : forall bs rest out pos i ol,
  Forall (uint 8) bs -> (2 * length bs <= fuel)%nat -> 0 <= pos -> 0 <= i ->
  Z.of_nat (length bs) <= ol -> pos + i + ol <= Z.of_nat (length out) ->
  exists out', put_hex fuel (print_bytes bs ++ rest) out pos i (Z.of_nat (2 * length bs)) ol
      = Some (out', i + Z.of_nat (length bs), 0) /\
    mem_write out (pos + i) bs = Some out'.
Proof.
  induction fuel as [|fuel IH]; intros bs rest out pos i ol Hbs Hfu Hp Hi Ho Hl; cbn [put_hex].
  - destruct bs as [|b bs]; [|simpl in Hfu; lia]. exists out. simpl. rewrite Z.add_0_r.
    split; [done|]. rewrite mem_write_Some by (simpl; lia). done.
  - destruct bs as [|b bs].
    { exists out. simpl. rewrite Z.add_0_r. split; [done|]. rewrite mem_write_Some by (simpl; lia). done. }
    apply Forall_cons_iff in Hbs as [Hb Hbs]. pose proof (byte_nibbles b Hb) as [N1 N2].
    cbn [length] in *. destruct (Z.eqb_spec (Z.of_nat (2 * S (length bs))) 0); [lia|].
    destruct (Z.eqb_spec ol 0); [lia|]. cbn [orb].
    assert (Z.land (Z.of_nat (2 * S (length bs))) 1 = 0) as ->.
    { change 1 with (2 ^ 1 - 1). rewrite land_pow2_mod by lia. change (2 ^ 1) with 2. zdm. }
    cbn [Z.eqb negb print_bytes app drop scan_hhx]. rewrite !hex_val_digit by done. cbn [mbind option_bind Nat.eqb].
    replace (16 * (b / 16) + b mod 16) with b by zdm. rewrite mem_write_one.
    destruct (mem_write out (pos + i) [b]) as [o1|] eqn:E1;
      [|rewrite mem_write_Some in E1 by (simpl; lia); done].
    pose proof (mem_write_length _ _ _ _ E1) as L1. cbn [mbind option_bind].
    destruct (IH bs rest o1 pos (i + 1) (ol - 1)) as (o2 & E2 & W2); [done|lia..|].
    replace (Z.of_nat (2 * S (length bs)) - Z.of_nat 2) with (Z.of_nat (2 * length bs)) by lia.
    rewrite drop_0, E2. exists o2.
    replace (i + 1 + Z.of_nat (length bs)) with (i + Z.of_nat (S (length bs))) by lia.
    split; [done|]. change (b :: bs) with ([b] ++ bs). eapply mem_write_app; [done|].
    change (Z.of_nat (length [b])) with 1. rewrite <- W2. f_equal. lia.
Qed.

(** What may follow a printed item: nothing, a quote, or another number. *)
Inductive follow : list Z -> Prop :=
| follow_end : follow []
| follow_text r : follow (34 :: r)
| follow_hex r : follow (48 :: 120 :: r).

Lemma print_items_follow its : follow (concat (print_item <$> its)).
Proof. destruct its as [|[s|bs] its]; simpl; constructor. Qed.

Lemma scan_print bs rest :
  Forall (uint 8) bs -> bs <> [] -> follow rest ->
  let beg := print_bytes bs ++ rest in
  let num := scan_hex_prefix (48 :: 120 :: beg) in
  2 < num /\ look_back beg (num - 2) = Z.of_nat (2 * length bs).
Proof.
  intros Hbs Hne Hf. cbv zeta. unfold scan_hex_prefix. rewrite Z.eqb_refl.
  assert (run_len is_x (120 :: print_bytes bs ++ rest) = 1%nat) as ->.
  { destruct Hbs as [|b bs' Hb _]; [done|]. apply byte_nibbles in Hb as [Hb _].
    cbn [print_bytes app run_len]. rewrite not_x_digit by done. done. }
  cbn [drop]. rewrite ?drop_0, run_len_hex by done.
  destruct bs as [|b bs]; [done|]. set (k := length (b :: bs)). assert (1 <= k)%nat by (unfold k; simpl; lia).
  assert (length (print_bytes (b :: bs)) = (2 * k)%nat) as Hlen by apply length_print.
  destruct (Nat.eqb_spec (2 * k + run_len is_hex rest) 0); [lia|]. cbn [Nat.eqb orb].
  split; [lia|]. unfold look_back. set (beg := print_bytes (b :: bs) ++ rest).
  destruct Hf as [|r|r].
  - replace (Z.of_nat _ - 2) with (Z.of_nat (2 * k)) by (simpl run_len; lia).
    rewrite drop_ge; [done|]. unfold beg. rewrite app_nil_r, Hlen. lia.
  - change (run_len is_hex (34 :: r)) with 0%nat.
    replace (Z.of_nat _ - 2) with (Z.of_nat (2 * k)) by lia.
    rewrite Nat2Z.id. unfold beg. rewrite <- Hlen at 1. rewrite drop_app_length.
    destruct (arr_get _ _); [|done]. by rewrite andb_false_r.
  - change (run_len is_hex (48 :: 120 :: r)) with 1%nat.
    replace (Z.of_nat _ - 2) with (Z.of_nat (2 * k + 1)) by lia.
    rewrite Nat2Z.id. unfold beg. replace (2 * k + 1)%nat with (S (length (print_bytes (b :: bs)))) at 1 by lia.
    replace (drop (S _) _) with (120 :: r)
      by (rewrite drop_app_ge by lia; by replace (S _ - _)%nat with 1%nat by lia).
    replace (arr_get _ _) with (Some 48).
    { simpl. lia. }
    symmetry. apply arr_get_Some. split; [lia|]. rewrite lookup_app_r by lia.
    by replace (Z.to_nat _ - _)%nat with 0%nat by lia.
Qed.

Lemma strchr_text s rest : 34 ∉ s -> strchr (s ++ 34 :: rest) 34 = Some (length s).
Proof.
  induction s as [|c s IH]; intros H; cbn [app strchr]; [done|].
  apply not_elem_of_cons in H as [H1 H2]. destruct (Z.eqb_spec c 34); [congruence|].
  by rewrite IH.
Qed.

(** One printed item is parsed to its bytes, whatever item follows it. *)
Lemma parse_print_item f it rest out pos ol descs rem :
  item_wf it -> follow rest -> 0 <= pos ->
  Z.of_nat (length (item_bytes it)) <= ol -> pos + ol <= Z.of_nat (length out) ->
  exists out', parse_item f (print_item it ++ rest) out pos ol descs rem
      = Some (PEnd rest out' (Z.of_nat (length (item_bytes it))), None) /\
    mem_write out pos (item_bytes it) = Some out'.
Proof.
  intros [Hne Hwf] Hf Hp Ho Hl.
  assert (ol <> 0) as Hol by (destruct (item_bytes it); simpl in *; [done|lia]).
  destruct it as [s|bs]; cbn [item_bytes print_item] in *.
  - cbn [app parse_item Z.eqb]. change (34 =? 39) with false. change (34 =? 34) with true. cbn iota.
    unfold parse_string. rewrite (proj2 (Z.eqb_neq ol 0)) by done. simpl assert. cbn [mbind option_bind].
    rewrite <- app_assoc. cbn [app]. rewrite strchr_text by done.
    destruct (Z.ltb_spec ol (Z.of_nat (length s))); [lia|]. rewrite take_app_length.
    destruct (mem_write out pos s) as [o|] eqn:E; [|rewrite mem_write_Some in E by lia; done].
    exists o. split; [|done]. cbn [mbind option_bind].
    replace (drop (S (length s)) _) with rest; [done|].
    rewrite (drop_app_ge s (34 :: rest) (S (length s))) by lia.
    by replace (S (length s) - length s)%nat with 1%nat by lia.
  - cbn [app parse_item]. change (48 =? 39) with false. change (48 =? 34) with false.
    change (48 =? 37) with false. cbn iota.
    unfold parse_number. rewrite (proj2 (Z.eqb_neq ol 0)) by done.
    destruct (scan_print bs rest Hwf Hne Hf) as [Hn Hlb].
    rewrite (proj2 (Z.eqb_neq _ 0)) by lia. rewrite (proj2 (Z.ltb_lt 2 _)) by done.
    cbn [assert mbind option_bind].
    change (drop 2 (48 :: 120 :: print_bytes bs ++ rest)) with (print_bytes bs ++ rest).
    rewrite Hlb.
    destruct (put_hex_print (Z.to_nat (Z.of_nat (2 * length bs))) bs rest out pos 0 ol)
      as (o & -> & Hw); [done|lia..|].
    rewrite Z.add_0_r in Hw. exists o. split; [|done]. cbn [mbind option_bind]. simpl negb. cbn iota.
    rewrite Nat2Z.id, <- length_print, drop_app_length. done.
Qed.

Lemma parse_loop_print f its : forall fuel out pos ol descs,
  Forall item_wf its -> its <> [] -> 0 <= pos -> Z.of_nat (length (concat (item_bytes <$> its))) <= ol ->
  ol < Z.of_nat fuel -> pos + ol <= Z.of_nat (length out) ->
  let inp := concat (print_item <$> its) in
  let bytes := concat (item_bytes <$> its) in
  exists out', parse_loop f fuel inp (Z.of_nat (length inp)) out pos ol descs [] 0
      = Some (PFOk (pos + Z.of_nat (length bytes)) out' []) /\
    mem_write out pos bytes = Some out'.
Proof.
  induction its as [|it its IH]; intros fuel out pos ol descs Hwf Hne Hp Ho Hfu Hl; [done|].
  apply Forall_cons_iff in Hwf as [Hit Hwf]. cbv zeta. cbn [fmap list_fmap concat] in *.
  fold (print_item <$> its) (item_bytes <$> its) in *. rewrite length_app in Ho.
  destruct fuel as [|fuel]; [lia|]. cbn [parse_loop].
  destruct (parse_print_item f it (concat (print_item <$> its)) out pos ol descs 0)
    as (o1 & -> & W1); [done|apply print_items_follow|lia..|].
  cbn [mbind option_bind option_list app length]. rewrite !length_app.
  set (n1 := Z.of_nat (length (item_bytes it))) in *.
  assert (0 < n1) as Hn1 by (destruct Hit as [H _]; unfold n1; destruct (item_bytes it); simpl; [done|lia]).
  set (li := Z.of_nat (length (print_item it) + length (concat (print_item <$> its)))) in *.
  set (lr := Z.of_nat (length (concat (print_item <$> its)))) in *.
  destruct (Z.leb_spec (li - lr) li); [|lia]. cbn [negb].
  destruct (Z.eqb_spec n1 0); [lia|]. destruct (Z.leb_spec n1 ol); [|lia]. cbn [negb andb].
  replace (li - (li - lr)) with lr by lia. pose proof (mem_write_length _ _ _ _ W1) as L1.
  destruct its as [|it2 its].
  { exists o1. rewrite app_nil_r. split; [|done]. simpl. do 2 f_equal. lia. }
  destruct (Z.eqb_spec lr 0) as [E|_].
  { unfold lr in E. destruct it2; simpl in E; lia. }
  destruct (IH fuel o1 (pos + n1) (ol - n1) descs) as (o2 & E2 & W2); [done|done|lia..|].
  fold lr in E2. change (option_list (@None pattern_fmt)) with (@nil pattern_fmt). cbn [length]. change (0 - Z.of_nat 0) with 0.
  rewrite E2. exists o2. split; [do 2 f_equal; lia|].
  by eapply mem_write_app.
Qed.

(** Printing and parsing back: a pattern written as a sequence of non-empty
    quoted texts and hexadecimal runs, in any order and without separators, is
    parsed to exactly the bytes it denotes, in order, if the buffer has room for
    them. *)
Theorem parse_print_roundtrip f its out out_len descs :
  Forall item_wf its -> its <> [] ->
  Z.of_nat (length (concat (item_bytes <$> its))) <= out_len <= Z.of_nat (length out) ->
  let inp := concat (print_item <$> its) in
  let bytes := concat (item_bytes <$> its) in
  exists out', parse_and_fill_pattern f inp (Z.of_nat (length inp)) out out_len descs 0
      = Some (PFOk (Z.of_nat (length bytes)) out' []) /\
    mem_write out 0 bytes = Some out'.
Proof.
  intros Hwf Hne Ho. cbv zeta. unfold parse_and_fill_pattern.
  destruct its as [|it its]; [done|].
  assert (length (concat (item_bytes <$> it :: its)) <> 0%nat) as Hb.
  { apply Forall_cons_iff in Hwf as [[H _] _]. simpl. rewrite length_app.
    destruct (item_bytes it); simpl; [done|lia]. }
  rewrite (proj2 (Z.eqb_neq (Z.of_nat (length (concat (print_item <$> it :: its)))) 0))
    by (destruct it; simpl; lia).
  rewrite (proj2 (Z.eqb_neq out_len 0)) by lia. cbn [orb].
  apply (parse_loop_print f (it :: its) _ out 0); [done|done|lia..].
Qed.

Lemma parse_print_roundtrip_witness :
  exists out', parse_and_fill_pattern sevens (codes "0xff0x14") 8 (replicate 4 0) 4 [] 0
    = Some (PFOk 2 out' []) /\ mem_write (replicate 4 0) 0 [0xff; 0x14] = Some out'.
Proof.
  apply (parse_print_roundtrip sevens [IHex [0xff]; IHex [0x14]] (replicate 4 0) 4 []).
  - repeat constructor; simpl; discriminate || (unfold uint; lia).
  - discriminate.
  - simpl. lia.
Defined.
