(* ===== verification/Rand.v ===== *)
(** * Random numbers and random buffers: [lib/rand.c], [lib/rand.h]

    The two Tausworthe generators behind every random decision of fio, their
    seeding, and the functions that fill I/O buffers from a seed.  [unsigned
    long] is 64 bits wide. *)
From S2P Require Import Prelude Pattern.

Definition FRAND32_MAX : Z := -1U.
Definition FRAND64_MAX : Z := -1ULL.

Record taus88_state := Taus88 { t_s1 : Z; t_s2 : Z; t_s3 : Z }.
Record taus258_state := Taus258 { q_s1 : Z; q_s2 : Z; q_s3 : Z; q_s4 : Z; q_s5 : Z }.

(** [struct frand_state]: the flag [use64] tells which member of the union is live. *)
Inductive frand_state :=
| State32 (s : taus88_state)
| State64 (s : taus258_state).

Definition rand_max (state : frand_state) : Z :=
  match state with State64 _ => FRAND64_MAX | State32 _ => FRAND32_MAX end.

(** [TAUSWORTHE(s,a,b,c,d)] stored into a word of [w] bits. *)
Definition TAUSWORTHE (w s a b c d : Z) : Z :=
  Z.lxor (shl w (Z.land s c) d) (Z.shiftr (Z.lxor (shl w s a) s) b).

Definition __rand32 (st : taus88_state) : taus88_state * Z :=
  let s1 := TAUSWORTHE 32 (t_s1 st) 13 19 4294967294 12 in
  let s2 := TAUSWORTHE 32 (t_s2 st) 2 25 4294967288 4 in
  let s3 := TAUSWORTHE 32 (t_s3 st) 3 11 4294967280 17 in
  (Taus88 s1 s2 s3, Z.lxor (Z.lxor s1 s2) s3).

Definition __rand64 (st : taus258_state) : taus258_state * Z :=
  let s1 := TAUSWORTHE 64 (q_s1 st) 1 53 18446744073709551614 10 in
  let s2 := TAUSWORTHE 64 (q_s2 st) 24 50 18446744073709551104 5 in
  let s3 := TAUSWORTHE 64 (q_s3 st) 3 23 18446744073709547520 29 in
  let s4 := TAUSWORTHE 64 (q_s4 st) 5 24 18446744073709420544 23 in
  let s5 := TAUSWORTHE 64 (q_s5 st) 3 33 18446744073701163008 8 in
  (Taus258 s1 s2 s3 s4 s5, Z.lxor (Z.lxor (Z.lxor (Z.lxor s1 s2) s3) s4) s5).

Definition __rand (state : frand_state) : frand_state * Z :=
  match state with
  | State64 s => let '(s, r) := __rand64 s in (State64 s, r)
  | State32 s => let '(s, r) := __rand32 s in (State32 s, r)
  end.

(** ** Seeding *)
Definition __seed (x m : Z) : Z := if x <? m then u64 (x + m) else x.

(** [(2^31) + (2^17) + (2^7)], where [^] is C's exclusive or. *)
Definition LCG_START : Z := Z.lxor 2 31 + Z.lxor 2 17 + Z.lxor 2 7.

Definition LCG (x seed : Z) : Z := Z.lxor (u32 (x * 69069)) seed.
Definition LCG64 (x seed : Z) : Z := Z.lxor (u64 (x * 6906969069)) seed.

Definition __init_rand32 (seed : Z) : taus88_state :=
  let s1 := u32 (__seed (LCG LCG_START seed) 1) in
  let s2 := u32 (__seed (LCG s1 seed) 7) in
  let s3 := u32 (__seed (LCG s2 seed) 15) in
  Nat.iter 6 (fun st => fst (__rand32 st)) (Taus88 s1 s2 s3).

Definition __init_rand64 (seed : Z) : taus258_state :=
  let s1 := __seed (LCG64 LCG_START seed) 1 in
  let s2 := __seed (LCG64 s1 seed) 7 in
  let s3 := __seed (LCG64 s2 seed) 15 in
  let s4 := __seed (LCG64 s3 seed) 33 in
  let s5 := __seed (LCG64 s4 seed) 49 in
  Nat.iter 6 (fun st => fst (__rand64 st)) (Taus258 s1 s2 s3 s4 s5).

Definition init_rand (use64 : bool) : frand_state :=
  if use64 then State64 (__init_rand64 1) else State32 (__init_rand32 1).

Definition init_rand_seed (seed : Z) (use64 : bool) : frand_state :=
  if use64 then State64 (__init_rand64 seed) else State32 (__init_rand32 seed).

(** ** Filling buffers *)
Definition GOLDEN_RATIO_PRIME : Z := 0x9e37fffffffc0001.

Definition this_len_of (len : Z) : Z :=
  if 8 <=? len then 8 else if 4 <=? len then 4 else if 2 <=? len then 2 else 1.

(** The [while (len)] loop of [__fill_random_buf]; [len] strictly decreases. *)
Fixpoint fill_loop (fuel : nat) (buf : list Z) (ptr len seed : Z) : option (list Z) :=
  if len =? 0 then Some buf else
  match fuel with
  | O => None
  | S fuel =>
      let this_len := this_len_of len in
      buf ← mem_write buf ptr (le_bytes (Z.to_nat this_len) seed);
      fill_loop fuel buf (ptr + this_len) (len - this_len)
        (Z.shiftr (u64 (seed * GOLDEN_RATIO_PRIME)) 3)
  end.

Definition __fill_random_buf (buf : list Z) (ptr len seed : Z) : option (list Z) :=
  fill_loop (Z.to_nat len) buf ptr len seed.

(** [r = __rand(fs); r *= __rand(fs)]: the seed both fill functions draw. *)
Definition fill_seed (fs : frand_state) : frand_state * Z :=
  let '(fs, r) := __rand fs in
  let '(fs, r') := __rand fs in
  (fs, u64 (r * r')).

Definition fill_random_buf (fs : frand_state) (buf : list Z) (len : Z)
    : option (frand_state * list Z * Z) :=
  let '(fs, r) := fill_seed fs in
  buf ← __fill_random_buf buf 0 len r;
  Some (fs, buf, r).

(** The compressible part: the pattern, or zeroes without one. *)
Definition fill_quiet (buf : list Z) (ptr len : Z) (pattern : list Z) (pbytes : Z)
    : option (list Z) :=
  if negb (pbytes =? 0) then
    win ← mem_read buf ptr len;
    '(_, win) ← cpy_pattern pattern pbytes win len;
    mem_write buf ptr win
  else mem_write buf ptr (replicate (Z.to_nat len) 0).

(** The [while (len)] loop of [__fill_random_buf_percentage]. *)
Fixpoint percentage_loop (fuel : nat) (seed : Z) (buf : list Z) (ptr percentage segment len : Z)
    (pattern : list Z) (pbytes : Z) : option (list Z) :=
  if len =? 0 then Some buf else
  match fuel with
  | O => None
  | S fuel =>
      let this_len := u32 (segment * u32 (100 - percentage)) / 100 in
      let this_len := if len <? this_len then len else this_len in
      buf ← __fill_random_buf buf ptr this_len seed;
      let len := len - this_len in
      if len =? 0 then Some buf else
      let ptr := ptr + this_len in
      let this_len := if len <? this_len then len
                      else if len - this_len <=? 8 then len else this_len in
      buf ← fill_quiet buf ptr this_len pattern pbytes;
      percentage_loop fuel seed buf (ptr + this_len) percentage segment (len - this_len)
        pattern pbytes
  end.

Definition __fill_random_buf_percentage (fuel : nat) (seed : Z) (buf : list Z)
    (percentage segment len : Z) (pattern : list Z) (pbytes : Z) : option (list Z) :=
  if percentage =? 100 then fill_quiet buf 0 len pattern pbytes else
  let segment := if len <? segment then len else segment in
  percentage_loop fuel seed buf 0 percentage segment len pattern pbytes.

Definition fill_random_buf_percentage (fuel : nat) (fs : frand_state) (buf : list Z)
    (percentage segment len : Z) (pattern : list Z) (pbytes : Z)
    : option (frand_state * list Z * Z) :=
  let '(fs, r) := fill_seed fs in
  buf ← __fill_random_buf_percentage fuel r buf percentage segment len pattern pbytes;
  Some (fs, buf, r).

(** ** The generators: proofs

    A component of [w] bits ignores its low [t] bits (the mask [c] clears
    them).  The parameters of all eight components satisfy the same relations,
    from which the step is injective on what is not ignored. *)
Record taus_params (w a b c d t : Z) : Prop := {
  tp_mask : c = Z.shiftl (Z.ones (w - t)) t;
  tp_range : 0 < t /\ 0 < a /\ 0 < b /\ 0 < d;
  tp_sum : d + t = w - b;
  tp_room : t + a <= w - d
}.

Lemma taus_testbit w s a b c d t i :
  taus_params w a b c d t -> uint w s -> 0 <= i < w ->
  Z.testbit (TAUSWORTHE w s a b c d) i =
  if i <? d + t then xorb (Z.testbit s (i + b)) (Z.testbit s (i + b - a)) else Z.testbit s (i - d).
Proof.
  intros [-> Hr Hs Hm] Hu Hi. unfold TAUSWORTHE.
  rewrite Z.lxor_spec, shl_testbit, Z.land_spec, Z.shiftr_spec, Z.lxor_spec, shl_testbit by lia.
  destruct (Z.ltb_spec i w); [|lia]. cbn [andb]. destruct (Z.ltb_spec i (d + t)).
  - rewrite Z.shiftl_spec_low by lia. rewrite andb_false_r, xorb_false_l.
    destruct (Z.ltb_spec (i + b) w); [|lia]. by rewrite andb_true_l, xorb_comm.
  - rewrite Z.shiftl_spec, Z.testbit_ones_nonneg by lia.
    destruct (Z.ltb_spec (i - d - t) (w - t)); [|lia]. rewrite andb_true_r.
    destruct (Z.ltb_spec (i + b) w); [lia|].
    rewrite (uint_testbit_high w s (i + b)) by (done || lia). by rewrite xorb_false_r.
Qed.

Lemma taus_uint w s a b c d t :
  taus_params w a b c d t -> uint w s -> uint w (TAUSWORTHE w s a b c d).
Proof.
  intros [-> Hr Hs Hm] Hu. unfold TAUSWORTHE.
  apply lxor_uint; [lia|apply shl_uint; lia|]. apply shiftr_uint; [lia|].
  apply lxor_uint; [lia|apply shl_uint; lia|done].
Qed.

(** Equality of two words from bit [t] on. *)
Definition same_above (w t x y : Z) : Prop :=
  forall i, t <= i < w -> Z.testbit x i = Z.testbit y i.

Lemma taus_injective w a b c d t x y :
  taus_params w a b c d t -> uint w x -> uint w y ->
  same_above w t (TAUSWORTHE w x a b c d) (TAUSWORTHE w y a b c d) -> same_above w t x y.
Proof.
  intros Hp Hx Hy H. pose proof Hp as [_ Hr Hs Hm].
  assert (forall i, t <= i < w - d -> Z.testbit x i = Z.testbit y i) as Hlow.
  { intros i Hi. specialize (H (i + d) ltac:(lia)).
    rewrite !(taus_testbit w _ a b c d t) in H by (done || lia).
    destruct (Z.ltb_spec (i + d) (d + t)); [lia|].
    by replace (i + d - d) with i in H by lia. }
  intros i. destruct (decide (0 <= i)) as [H0|]; [|lia].
  pattern i. apply Z_lt_induction; [|done]. clear i H0. intros i IH Hi.
  destruct (decide (i < w - d)); [by apply Hlow; lia|].
  specialize (H (i - b) ltac:(lia)).
  rewrite !(taus_testbit w _ a b c d t) in H by (done || lia).
  destruct (Z.ltb_spec (i - b) (d + t)); [|lia].
  replace (i - b + b) with i in H by lia. rewrite (IH (i - a)) in H by lia.
  destruct (Z.testbit x i), (Z.testbit y i), (Z.testbit y (i - a)); done.
Qed.

(** A component is alive when a bit that is not ignored is set. *)
Lemma alive_iff w t x : 0 <= t < w -> uint w x ->
  2 ^ t <= x <-> ~ same_above w t x 0.
Proof.
  intros Ht Hx. split.
  - intros Hge Hs. enough (x < 2 ^ t) by lia.
    apply (uint_of_testbit t); [lia|unfold uint in Hx; lia|]. intros i Hi.
    destruct (decide (i < w)); [rewrite Hs by lia; apply Z.bits_0|].
    apply (uint_testbit_high w); [done|lia].
  - intros Hn. destruct (decide (2 ^ t <= x)); [done|]. destruct Hn. intros i Hi.
    rewrite Z.bits_0. apply (uint_testbit_high t); [unfold uint in *; lia|lia].
Qed.

Lemma taus_zero w a b c d t : taus_params w a b c d t -> TAUSWORTHE w 0 a b c d = 0.
Proof.
  intros [-> Hr Hs Hm]. unfold TAUSWORTHE, shl, wrap.
  rewrite Z.land_0_l, !Z.shiftl_0_l, Z.mod_0_l by lia. by rewrite Z.lxor_0_l, Z.shiftr_0_l.
Qed.

Lemma taus_alive w a b c d t x :
  taus_params w a b c d t -> uint w x -> 2 ^ t <= x -> 2 ^ t <= TAUSWORTHE w x a b c d.
Proof.
  intros Hp Hx Hge. pose proof Hp as [_ Hr Hs Hm].
  apply (alive_iff w); [lia|by apply (taus_uint w _ a b c d t)|].
  apply (alive_iff w) in Hge; [|lia|done]. intros Hz. apply Hge.
  apply (taus_injective w a b c d t); [done|done|unfold uint in *; lia|].
  by rewrite (taus_zero w a b c d t) by done.
Qed.

Ltac taus_params_tac := split; [vm_compute; reflexivity|lia|lia|lia].

Lemma p32_1 : taus_params 32 13 19 4294967294 12 1. Proof. taus_params_tac. Qed.
Lemma p32_2 : taus_params 32 2 25 4294967288 4 3. Proof. taus_params_tac. Qed.
Lemma p32_3 : taus_params 32 3 11 4294967280 17 4. Proof. taus_params_tac. Qed.
Lemma p64_1 : taus_params 64 1 53 18446744073709551614 10 1. Proof. taus_params_tac. Qed.
Lemma p64_2 : taus_params 64 24 50 18446744073709551104 5 9. Proof. taus_params_tac. Qed.
Lemma p64_3 : taus_params 64 3 23 18446744073709547520 29 12. Proof. taus_params_tac. Qed.
Lemma p64_4 : taus_params 64 5 24 18446744073709420544 23 17. Proof. taus_params_tac. Qed.
Lemma p64_5 : taus_params 64 3 33 18446744073701163008 8 23. Proof. taus_params_tac. Qed.

(** A state whose components are words of the right width, none of them dead. *)
Definition comp_live (w t x : Z) : Prop := 2 ^ t <= x < 2 ^ w.

Definition live (st : frand_state) : Prop :=
  match st with
  | State32 s => comp_live 32 1 (t_s1 s) /\ comp_live 32 3 (t_s2 s) /\ comp_live 32 4 (t_s3 s)
  | State64 s => comp_live 64 1 (q_s1 s) /\ comp_live 64 9 (q_s2 s) /\ comp_live 64 12 (q_s3 s) /\
                 comp_live 64 17 (q_s4 s) /\ comp_live 64 23 (q_s5 s)
  end.

#[export] Instance live_dec st : Decision (live st).
Proof. destruct st; unfold live, comp_live; apply _. Defined.

(** Two states that produce the same numbers: equal up to the ignored bits. *)
Definition same_stream (x y : frand_state) : Prop :=
  match x, y with
  | State32 a, State32 b =>
      same_above 32 1 (t_s1 a) (t_s1 b) /\ same_above 32 3 (t_s2 a) (t_s2 b) /\
      same_above 32 4 (t_s3 a) (t_s3 b)
  | State64 a, State64 b =>
      same_above 64 1 (q_s1 a) (q_s1 b) /\ same_above 64 9 (q_s2 a) (q_s2 b) /\
      same_above 64 12 (q_s3 a) (q_s3 b) /\ same_above 64 17 (q_s4 a) (q_s4 b) /\
      same_above 64 23 (q_s5 a) (q_s5 b)
  | _, _ => False
  end.

Lemma comp_live_uint w t x : 0 <= t -> comp_live w t x -> uint w x.
Proof. unfold comp_live, uint. assert (0 < 2 ^ t \/ t < 0) by (destruct (decide (0 <= t)); [left; apply Z.pow_pos_nonneg; lia|lia]). lia. Qed.

Lemma comp_live_step w a b c d t x :
  taus_params w a b c d t -> comp_live w t x -> comp_live w t (TAUSWORTHE w x a b c d).
Proof.
  intros Hp Hx. pose proof Hp as [_ Hr _ _].
  pose proof (comp_live_uint w t x ltac:(lia) Hx) as Hu. split.
  - apply (taus_alive w a b c d t); [done..|apply Hx].
  - apply (taus_uint w x a b c d t Hp Hu).
Qed.

Lemma comp_live_inj w a b c d t x y :
  taus_params w a b c d t -> comp_live w t x -> comp_live w t y ->
  same_above w t (TAUSWORTHE w x a b c d) (TAUSWORTHE w y a b c d) -> same_above w t x y.
Proof.
  intros Hp Hx Hy. pose proof Hp as [_ Hr _ _].
  apply taus_injective; [done|by apply (comp_live_uint w t); [lia|]..].
Qed.

#[local] Hint Resolve p32_1 p32_2 p32_3 p64_1 p64_2 p64_3 p64_4 p64_5 : bits.
#[local] Hint Resolve comp_live_step comp_live_inj : bits.

Lemma rand_result_uint st : live st -> 0 <= snd (__rand st) <= rand_max st.
Proof.
  intros H. destruct st as [s|s]; simpl in *.
  - enough (uint 32 (snd (__rand32 s))) as Hu.
    { unfold FRAND32_MAX. change (all_ones 32) with (2 ^ 32 - 1).
      unfold uint in Hu. cbn [__rand32 snd] in Hu. lia. }
    destruct H as (H1 & H2 & H3). simpl.
    apply lxor_uint; [lia|apply lxor_uint; [lia| |]|];
      (eapply taus_uint; [eauto with bits|]); (eapply comp_live_uint; [|eassumption]; lia).
  - enough (uint 64 (snd (__rand64 s))) as Hu.
    { unfold FRAND64_MAX. change (all_ones 64) with (2 ^ 64 - 1).
      unfold uint in Hu. cbn [__rand64 snd] in Hu. lia. }
    destruct H as (H1 & H2 & H3 & H4 & H5). simpl.
    apply lxor_uint; [lia|apply lxor_uint; [lia|apply lxor_uint; [lia|apply lxor_uint; [lia| |]|]|]|];
      (eapply taus_uint; [eauto with bits|]); (eapply comp_live_uint; [|eassumption]; lia).
Qed.

Lemma live_step st : live st -> live (fst (__rand st)).
Proof. intros H. destruct st as [s|s]; simpl in *; destruct_and!; split_and!; eauto with bits. Qed.

(** The generators never degenerate: from a state none of whose components
    is dead a step gives such a state again and a number between 0 and
    [rand_max], and two states with the same successor were the same stream
    (the step is injective on the bits that matter, so it permutes the live
    states and every stream is purely periodic). *)
Theorem rand_step_live st st' :
  live st -> live st' ->
  live (fst (__rand st)) /\ 0 <= snd (__rand st) <= rand_max st /\
  (same_stream (fst (__rand st)) (fst (__rand st')) -> same_stream st st').
Proof.
  intros H H'. split; [|split; [by apply rand_result_uint|]].
  - by apply live_step.
  - destruct st as [s|s], st' as [s'|s']; simpl in *; try done; intros Hs; destruct_and!; split_and!;
      eauto with bits.
Qed.

Lemma rand_step_live_witness :
  live (init_rand false) /\ live (init_rand true) /\
  live (fst (__rand (init_rand false))) /\ live (fst (__rand (init_rand true))).
Proof.
  assert (live (init_rand false)) as H1 by (apply (bool_decide_unpack _); vm_compute; exact I).
  assert (live (init_rand true)) as H2 by (apply (bool_decide_unpack _); vm_compute; exact I).
  split; [exact H1|]. split; [exact H2|].
  split; [apply (rand_step_live _ _ H1 H1)|apply (rand_step_live _ _ H2 H2)].
Defined.

(** Seeding does not guarantee a live state: with the seed 3660657 (the
    product 53 * 69069, where 53 is what C makes of the intended constant
    [(2^31) + (2^17) + (2^7)]) the first component of the 32-bit generator is
    0 after seeding and stays 0 for ever. *)
Theorem rand_dead_seed n :
  LCG_START = 53 /\
  match init_rand_seed 3660657 false with
  | State32 s => t_s1 (Nat.iter n (fun st => fst (__rand32 st)) s) = 0
  | State64 _ => False
  end.
Proof.
  split; [reflexivity|]. change (init_rand_seed 3660657 false) with (State32 (__init_rand32 3660657)).
  cbv beta iota. induction n as [|n IH]; [vm_compute; reflexivity|].
  rewrite Nat.iter_succ. revert IH. generalize (Nat.iter n (fun st => fst (__rand32 st)) (__init_rand32 3660657)).
  intros st IH. cbn [fst __rand32 t_s1]. rewrite IH.
  apply (taus_zero 32 13 19 4294967294 12 1 p32_1).
Qed.

(** ** Filling: proofs *)
Lemma this_len_bounds len : 0 < len -> 1 <= this_len_of len <= len.
Proof. intros. unfold this_len_of. repeat zcase; lia. Qed.

(** The bytes the loop writes, as a function of the length and the seed only. *)
Fixpoint stream (fuel : nat) (len seed : Z) : list Z :=
  match fuel with
  | O => []
  | S fuel =>
      if len =? 0 then [] else
      le_bytes (Z.to_nat (this_len_of len)) seed ++
      stream fuel (len - this_len_of len) (Z.shiftr (u64 (seed * GOLDEN_RATIO_PRIME)) 3)
  end.

Lemma length_stream fuel : forall len seed, 0 <= len <= Z.of_nat fuel ->
  length (stream fuel len seed) = Z.to_nat len.
Proof.
  induction fuel as [|fuel IH]; intros len seed Hl; cbn [stream]; [simpl; lia|].
  destruct (Z.eqb_spec len 0) as [->|]; [done|]. pose proof (this_len_bounds len ltac:(lia)).
  rewrite length_app, length_le_bytes, IH by lia. lia.
Qed.

Lemma fill_loop_stream fuel : forall buf ptr len seed,
  0 <= len <= Z.of_nat fuel -> 0 <= ptr -> ptr + len <= Z.of_nat (length buf) ->
  fill_loop fuel buf ptr len seed = mem_write buf ptr (stream fuel len seed).
Proof.
  induction fuel as [|fuel IH]; intros buf ptr len seed Hl Hp Hb; cbn [fill_loop stream].
  - replace len with 0 by lia. simpl. by rewrite mem_write_Some by (simpl; lia).
  - destruct (Z.eqb_spec len 0) as [->|]; [by rewrite mem_write_Some by (simpl; lia)|].
    pose proof (this_len_bounds len ltac:(lia)) as Ht. set (k := this_len_of len) in *.
    set (bs := le_bytes (Z.to_nat k) seed).
    assert (Z.of_nat (length bs) = k) as Hbs by (unfold bs; rewrite length_le_bytes; lia).
    destruct (mem_write buf ptr bs) as [b1|] eqn:E1; [|rewrite mem_write_Some in E1 by lia; done].
    pose proof (mem_write_length _ _ _ _ E1) as L1. cbn [mbind option_bind].
    rewrite IH by lia. set (t := stream _ _ _).
    assert (Z.of_nat (length t) = len - k) as Hlt by (unfold t; rewrite length_stream; lia).
    destruct (mem_write b1 (ptr + k) t) as [b2|] eqn:E2; [|rewrite mem_write_Some in E2 by lia; done].
    symmetry. eapply mem_write_app; [done|by rewrite Hbs].
Qed.

Definition rand_stream (len seed : Z) : list Z := stream (Z.to_nat len) len seed.

Lemma fill_random_buf_stream buf ptr len seed :
  0 <= len -> 0 <= ptr -> ptr + len <= Z.of_nat (length buf) ->
  __fill_random_buf buf ptr len seed = mem_write buf ptr (rand_stream len seed) /\
  Z.of_nat (length (rand_stream len seed)) = len.
Proof.
  intros. split; [apply fill_loop_stream; lia|]. unfold rand_stream. rewrite length_stream by lia. lia.
Qed.

(** A whole number of 64-bit words of the stream does not depend on the length. *)
Lemma stream_prefix k : forall f1 f2 l1 l2 seed,
  8 * Z.of_nat k <= l1 <= Z.of_nat f1 -> 8 * Z.of_nat k <= l2 <= Z.of_nat f2 ->
  take (8 * k) (stream f1 l1 seed) = take (8 * k) (stream f2 l2 seed).
Proof.
  induction k as [|k IH]; intros f1 f2 l1 l2 seed H1 H2; [done|].
  destruct f1 as [|f1]; [lia|]. destruct f2 as [|f2]; [lia|]. cbn [stream].
  rewrite !(proj2 (Z.eqb_neq _ 0)) by lia.
  assert (this_len_of l1 = 8) as -> by (unfold this_len_of; rewrite (proj2 (Z.leb_le 8 l1)) by lia; done).
  assert (this_len_of l2 = 8) as -> by (unfold this_len_of; rewrite (proj2 (Z.leb_le 8 l2)) by lia; done).
  rewrite !take_app, length_le_bytes. f_equal.
  replace (8 * S k - Z.to_nat 8)%nat with (8 * k)%nat by lia. apply IH; lia.
Qed.

(** [__fill_random_buf] writes exactly [len] bytes at [ptr], and they
    depend on the seed alone: two fills with the same seed agree on all whole
    64-bit words they both contain, whatever the buffers held and whatever
    the two lengths are, so a reader that knows the seed can regenerate a
    prefix of what was written. *)
Theorem fill_random_deterministic b1 b2 p1 p2 l1 l2 seed :
  0 <= l1 -> 0 <= l2 -> 0 <= p1 -> 0 <= p2 ->
  p1 + l1 <= Z.of_nat (length b1) -> p2 + l2 <= Z.of_nat (length b2) ->
  exists o1 o2, __fill_random_buf b1 p1 l1 seed = Some o1 /\ __fill_random_buf b2 p2 l2 seed = Some o2 /\
    touch b1 o1 p1 (p1 + l1) /\ touch b2 o2 p2 (p2 + l2) /\
    forall i : nat, Z.of_nat i < 8 * (Z.min l1 l2 / 8) ->
      o1 !! (Z.to_nat p1 + i)%nat = o2 !! (Z.to_nat p2 + i)%nat.
Proof.
  intros Hl1 Hl2 Hp1 Hp2 Hb1 Hb2.
  destruct (fill_random_buf_stream b1 p1 l1 seed) as [-> L1]; [done..|].
  destruct (fill_random_buf_stream b2 p2 l2 seed) as [-> L2]; [done..|].
  destruct (mem_write b1 p1 _) as [o1|] eqn:E1; [|rewrite mem_write_Some in E1 by lia; done].
  destruct (mem_write b2 p2 _) as [o2|] eqn:E2; [|rewrite mem_write_Some in E2 by lia; done].
  pose proof (touch_write _ _ _ _ E1) as T1. pose proof (touch_write _ _ _ _ E2) as T2.
  rewrite L1 in T1. rewrite L2 in T2. exists o1, o2. split_and!; [done..|].
  intros i Hi. set (k := Z.to_nat (Z.min l1 l2 / 8)).
  assert (8 * Z.of_nat k <= l1 /\ 8 * Z.of_nat k <= l2 /\ (i < 8 * k)%nat) as (K1 & K2 & Ki)
    by (unfold k; zdm).
  rewrite (mem_write_lookup _ _ _ _ _ E1), (mem_write_lookup _ _ _ _ _ E2).
  rewrite !decide_True by lia.
  replace (Z.to_nat p1 + i - Z.to_nat p1)%nat with i by lia.
  replace (Z.to_nat p2 + i - Z.to_nat p2)%nat with i by lia.
  rewrite <- (lookup_take_lt (rand_stream l1 seed) _ _ Ki), <- (lookup_take_lt (rand_stream l2 seed) _ _ Ki).
  f_equal. apply stream_prefix; lia.
Qed.

Lemma fill_random_deterministic_witness :
  exists o1 o2, __fill_random_buf (replicate 16 0) 0 13 77 = Some o1 /\
    __fill_random_buf (replicate 20 1) 4 11 77 = Some o2 /\ o1 !! 3%nat = o2 !! 7%nat.
Proof.
  destruct (fill_random_deterministic (replicate 16 0) (replicate 20 1) 0 4 13 11 77)
    as (o1 & o2 & E1 & E2 & _ & _ & H); [lia|lia|lia|lia|simpl; lia|simpl; lia|].
  exists o1, o2. split; [exact E1|]. split; [exact E2|].
  apply (H 3%nat). vm_compute. reflexivity.
Defined.

Lemma fill_quiet_spec buf ptr len pattern pbytes :
  0 < len < 2 ^ 32 -> 0 <= ptr -> ptr + len <= Z.of_nat (length buf) ->
  0 <= pbytes <= Z.of_nat (length pattern) ->
  exists o, fill_quiet buf ptr len pattern pbytes = Some o /\ touch buf o ptr (ptr + len).
Proof.
  intros Hl Hp Hb Hpb. unfold fill_quiet. destruct (Z.eqb_spec pbytes 0); cbn [negb].
  - set (z := replicate (Z.to_nat len) 0).
    assert (Z.of_nat (length z) = len) as Hz by (unfold z; rewrite length_replicate; lia).
    destruct (mem_write buf ptr z) as [o|] eqn:E; [|rewrite mem_write_Some in E by lia; done].
    exists o. split; [done|]. pose proof (touch_write _ _ _ _ E) as T. by rewrite Hz in T.
  - destruct (mem_read buf ptr len) as [win|] eqn:Hr; [|rewrite mem_read_Some in Hr by lia; done].
    destruct (mem_read_at _ _ _ _ 0 Hr) as [Hw _]. cbn [mbind option_bind].
    destruct (cpy_pattern_spec pattern pbytes win len) as (w2 & -> & Lw & _); [lia..|].
    cbn [mbind option_bind].
    destruct (mem_write buf ptr w2) as [o|] eqn:E; [|rewrite mem_write_Some in E by lia; done].
    exists o. split; [done|]. pose proof (touch_write _ _ _ _ E) as T.
    by rewrite Lw, Hw in T.
Qed.

(** The length of a random chunk, as the loop computes it. *)
Definition chunk (segment percentage : Z) : Z := u32 (segment * u32 (100 - percentage)) / 100.

Lemma percentage_loop_spec fuel : forall seed buf ptr percentage segment len pattern pbytes,
  0 < chunk segment percentage ->
  0 <= len <= Z.of_nat fuel -> len < 2 ^ 32 -> 0 <= ptr -> ptr + len <= Z.of_nat (length buf) ->
  0 <= pbytes <= Z.of_nat (length pattern) ->
  exists o, percentage_loop fuel seed buf ptr percentage segment len pattern pbytes = Some o /\
    touch buf o ptr (ptr + len).
Proof.
  induction fuel as [|fuel IH]; intros seed buf ptr percentage segment len pattern pbytes
    Hc Hl Hw Hp Hb Hpb; cbn [percentage_loop].
  { replace len with 0 by lia. exists buf. split; [done|apply touch_refl]. }
  destruct (Z.eqb_spec len 0); [exists buf; split; [done|apply touch_refl]|].
  fold (chunk segment percentage). set (c := chunk segment percentage) in *.
  set (k := if len <? c then len else c).
  assert (1 <= k <= len) as Hk by (unfold k; zcase; lia).
  destruct (fill_random_buf_stream buf ptr k seed) as [-> Lk]; [lia..|].
  destruct (mem_write buf ptr _) as [b1|] eqn:E1; [|rewrite mem_write_Some in E1 by lia; done].
  pose proof (touch_write _ _ _ _ E1) as T1. rewrite Lk in T1.
  pose proof (mem_write_length _ _ _ _ E1) as L1. cbn [mbind option_bind].
  destruct (Z.eqb_spec (len - k) 0).
  { exists b1. split; [done|]. by replace (ptr + len) with (ptr + k) by lia. }
  set (q := if len - k <? k then _ else _).
  assert (1 <= q <= len - k) as Hq by (unfold q; repeat zcase; lia). clearbody q.
  destruct (fill_quiet_spec b1 (ptr + k) q pattern pbytes) as (b2 & -> & T2); [lia..|].
  cbn [mbind option_bind]. pose proof (proj1 T2) as L2.
  destruct (IH seed b2 (ptr + k + q) percentage segment (len - k - q) pattern pbytes)
    as (b3 & -> & T3); [done|lia..|].
  exists b3. split; [done|]. replace (ptr + len) with (ptr + k + q + (len - k - q)) by lia.
  eapply touch_trans; [|exact T1|eapply touch_trans; [|exact T2|exact T3]]; lia.
Qed.

Lemma fill_percentage_ends seed buf percentage segment len pattern pbytes :
  percentage = 100 /\ 0 < len \/ 0 < chunk (Z.min segment len) percentage ->
  0 <= len < 2 ^ 32 -> len <= Z.of_nat (length buf) ->
  0 <= pbytes <= Z.of_nat (length pattern) ->
  exists o, __fill_random_buf_percentage (Z.to_nat len) seed buf percentage segment len pattern pbytes
      = Some o /\ touch buf o 0 len.
Proof.
  intros Hc Hl Hb Hp. unfold __fill_random_buf_percentage.
  destruct (Z.eqb_spec percentage 100) as [->|].
  - destruct Hc as [[_ H]|H]; [apply (fill_quiet_spec buf 0 len); lia|].
    exfalso. unfold chunk in H. rewrite Z.mul_0_r in H. done.
  - destruct Hc as [[? _]|Hc]; [done|].
    replace (if len <? segment then len else segment) with (Z.min segment len) by (zcase; lia).
    apply (percentage_loop_spec _ seed buf 0); lia || done.
Qed.

(** [__fill_random_buf_percentage] ends and writes only the first [len]
    bytes of the buffer whenever the percentage leaves at least one random
    byte per segment (or is 100); [len] rounds are enough. *)
Theorem fill_percentage_total seed buf percentage segment len pattern pbytes :
  percentage = 100 /\ 0 < len \/ 0 < chunk (Z.min segment len) percentage ->
  0 <= len < 2 ^ 32 -> len <= Z.of_nat (length buf) ->
  0 <= pbytes <= Z.of_nat (length pattern) ->
  exists o, __fill_random_buf_percentage (Z.to_nat len) seed buf percentage segment len pattern pbytes
      = Some o /\ touch buf o 0 len.
Proof. apply fill_percentage_ends. Qed.

Lemma fill_percentage_total_witness :
  exists o, __fill_random_buf_percentage 64 5 (replicate 64 1) 50 32 64 [9] 1 = Some o /\
    touch (replicate 64 1) o 0 64.
Proof.
  apply (fill_percentage_total 5 (replicate 64 1) 50 32 64 [9] 1).
  - right. vm_compute. reflexivity.
  - lia.
  - simpl. lia.
  - simpl. lia.
Defined.

(** Otherwise it can loop for ever: with a segment of 16 bytes and 95 per
    cent compressible data no random byte fits in a segment, and with 9 or
    more bytes to fill no number of rounds is enough. *)
Theorem fill_percentage_diverges fuel seed buf :
  __fill_random_buf_percentage fuel seed buf 95 16 16 [] 0 = None.
Proof.
  unfold __fill_random_buf_percentage. change (95 =? 100) with false.
  change (16 <? 16) with false. cbv iota. generalize 0 at 1. revert buf.
  induction fuel as [|fuel IH]; intros buf ptr; [reflexivity|]. cbn [percentage_loop].
  change (u32 (16 * u32 (100 - 95)) / 100) with 0. change (16 =? 0) with false.
  change (16 <? 0) with false. cbv iota. unfold __fill_random_buf. cbn [Z.to_nat fill_loop Z.eqb].
  cbn [mbind option_bind]. rewrite Z.sub_0_r. change (16 =? 0) with false.
  change (16 <? 0) with false. change (16 - 0 <=? 8) with false. cbv iota.
  unfold fill_quiet. change (negb (0 =? 0)) with false. cbv iota.
  change (fill_loop (Z.to_nat 0) buf ptr 0 seed) with (Some buf). cbn [mbind option_bind].
  destruct (mem_write buf (ptr + 0) (replicate (Z.to_nat 0) 0)) as [b|]; [|done]. cbn [mbind option_bind].
  rewrite Z.sub_0_r. apply IH.
Qed.
