(* ===== verification/Verify.v ===== *)
(** * Verify: the verification headers of verify.c

    A unit that is written with verification on carries a header at every
    [verify_interval] bytes: a [struct verify_header] with the identity of the
    write and a checksum of itself, then the checksum of the data that follows.
    [populate_verify_io_u] fills and seals the buffer, [verify_io_u] checks what
    was read back.  The buffer is a list of bytes and pointers into it are
    offsets; [td->o] is [vtd] and [struct io_u] is [vio], reduced to the fields
    that verify.c uses.  [uninit] is the contents of the memory the code leaves
    uninitialised: a local array and the block [XXH32_init] allocates.  Logging
    and the dump of bad buffers are not kept. *)
From S2P Require Import Prelude Crc Xxhash Digest Md5 Sha1 Sha2 Sha256 Sha512 Sha3 Pattern Rand.

(** ** Data *)
Inductive verify_type :=
  | VERIFY_NONE | VERIFY_HDR_ONLY | VERIFY_MD5 | VERIFY_CRC64 | VERIFY_CRC32 | VERIFY_CRC32C
  | VERIFY_CRC32C_INTEL | VERIFY_CRC16 | VERIFY_CRC7 | VERIFY_SHA256 | VERIFY_SHA512
  | VERIFY_SHA3_224 | VERIFY_SHA3_256 | VERIFY_SHA3_384 | VERIFY_SHA3_512 | VERIFY_XXHASH
  | VERIFY_SHA1 | VERIFY_PATTERN | VERIFY_PATTERN_NO_HDR | VERIFY_NULL.

#[export] Instance verify_type_eq_dec : EqDecision verify_type.
Proof. solve_decision. Defined.

(** The values of the C enumeration, in order. *)
Definition verify_types : list verify_type :=
  [VERIFY_NONE; VERIFY_HDR_ONLY; VERIFY_MD5; VERIFY_CRC64; VERIFY_CRC32; VERIFY_CRC32C;
   VERIFY_CRC32C_INTEL; VERIFY_CRC16; VERIFY_CRC7; VERIFY_SHA256; VERIFY_SHA512;
   VERIFY_SHA3_224; VERIFY_SHA3_256; VERIFY_SHA3_384; VERIFY_SHA3_512; VERIFY_XXHASH;
   VERIFY_SHA1; VERIFY_PATTERN; VERIFY_PATTERN_NO_HDR; VERIFY_NULL].

Definition vnum (t : verify_type) : Z :=
  match t with
  | VERIFY_NONE => 0 | VERIFY_HDR_ONLY => 1 | VERIFY_MD5 => 2 | VERIFY_CRC64 => 3
  | VERIFY_CRC32 => 4 | VERIFY_CRC32C => 5 | VERIFY_CRC32C_INTEL => 6 | VERIFY_CRC16 => 7
  | VERIFY_CRC7 => 8 | VERIFY_SHA256 => 9 | VERIFY_SHA512 => 10 | VERIFY_SHA3_224 => 11
  | VERIFY_SHA3_256 => 12 | VERIFY_SHA3_384 => 13 | VERIFY_SHA3_512 => 14 | VERIFY_XXHASH => 15
  | VERIFY_SHA1 => 16 | VERIFY_PATTERN => 17 | VERIFY_PATTERN_NO_HDR => 18 | VERIFY_NULL => 19
  end.

Definition vtype_of (n : Z) : option verify_type := arr_get verify_types n.

(** [struct verify_header], 40 bytes without padding, and its image in memory. *)
Record verify_header := VHdr {
  magic : Z; h_verify_type : Z; h_len : Z; h_rand_seed : Z; h_offset : Z;
  time_sec : Z; time_nsec : Z; h_thread : Z; h_numberio : Z; h_crc32 : Z
}.

Definition FIO_HDR_MAGIC : Z := 0xacca.

(** The bytes in front of the field [crc32], and all of them. *)
Definition hdr_head (h : verify_header) : list Z :=
  le_bytes 2 (magic h) ++ le_bytes 2 (h_verify_type h) ++ le_bytes 4 (h_len h) ++
  le_bytes 8 (h_rand_seed h) ++ le_bytes 8 (h_offset h) ++ le_bytes 4 (time_sec h) ++
  le_bytes 4 (time_nsec h) ++ le_bytes 2 (h_thread h) ++ le_bytes 2 (h_numberio h).
Definition hdr_bytes (h : verify_header) : list Z := hdr_head h ++ le_bytes 4 (h_crc32 h).

Definition field (p : list Z) (off n : nat) : Z := le_val (take n (drop off p)).
Definition hdr_of (p : list Z) : verify_header :=
  VHdr (field p 0 2) (field p 2 2) (field p 4 4) (field p 8 8) (field p 16 8)
    (field p 24 4) (field p 28 4) (field p 32 2) (field p 34 2) (field p 36 4).

(** The job: [td->o] and what verify.c uses of [struct thread_data].
    [o_verify_fmt] lists the places of the [%o] formats in the pattern. *)
Record vtd := Vtd {
  o_verify : verify_type;
  o_verify_interval : Z;
  o_verify_offset : Z;
  o_verify_pattern : list Z;
  o_verify_pattern_bytes : Z;
  o_verify_fmt : list Z;
  o_verify_fatal : bool;
  o_verifysort : bool;
  o_verify_only : bool;
  o_loops : Z;
  o_time_based : bool;
  o_bs_unaligned : bool;
  o_trim_zero : bool;
  o_compress_percentage : Z;
  o_buffer_pattern : list Z;
  o_buffer_pattern_bytes : Z;
  td_write : bool;
  td_min_bs : Z;
  td_max_bs : Z;
  td_ver_backlog : bool;
  td_fakeio : bool;
  td_thread_number : Z;
  td_io_issues : Z;
  td_verify_state : frand_state
}.

Definition set_pattern (td : vtd) (p : list Z) : vtd :=
  Vtd (o_verify td) (o_verify_interval td) (o_verify_offset td) p (o_verify_pattern_bytes td)
    (o_verify_fmt td) (o_verify_fatal td) (o_verifysort td) (o_verify_only td) (o_loops td)
    (o_time_based td) (o_bs_unaligned td) (o_trim_zero td) (o_compress_percentage td)
    (o_buffer_pattern td) (o_buffer_pattern_bytes td) (td_write td) (td_min_bs td) (td_max_bs td)
    (td_ver_backlog td) (td_fakeio td) (td_thread_number td) (td_io_issues td) (td_verify_state td).

Definition set_verify_state (td : vtd) (fs : frand_state) : vtd :=
  Vtd (o_verify td) (o_verify_interval td) (o_verify_offset td) (o_verify_pattern td)
    (o_verify_pattern_bytes td)
    (o_verify_fmt td) (o_verify_fatal td) (o_verifysort td) (o_verify_only td) (o_loops td)
    (o_time_based td) (o_bs_unaligned td) (o_trim_zero td) (o_compress_percentage td)
    (o_buffer_pattern td) (o_buffer_pattern_bytes td) (td_write td) (td_min_bs td) (td_max_bs td)
    (td_ver_backlog td) (td_fakeio td) (td_thread_number td) (td_io_issues td) fs.

(** The unit.  [v_read] is [ddir == DDIR_READ], [v_trimmed] is [IO_U_F_TRIMMED]. *)
Record vio := Vio {
  v_buf : list Z;
  v_buflen : Z;
  v_offset : Z;
  v_rand_seed : Z;
  v_numberio : Z;
  v_start_sec : Z;
  v_start_nsec : Z;
  v_buf_filled_len : Z;
  v_read : bool;
  v_trimmed : bool
}.

Definition set_buf (io : vio) (b : list Z) : vio :=
  Vio b (v_buflen io) (v_offset io) (v_rand_seed io) (v_numberio io) (v_start_sec io)
    (v_start_nsec io) (v_buf_filled_len io) (v_read io) (v_trimmed io).
Definition set_seed (io : vio) (s : Z) : vio :=
  Vio (v_buf io) (v_buflen io) (v_offset io) s (v_numberio io) (v_start_sec io)
    (v_start_nsec io) (v_buf_filled_len io) (v_read io) (v_trimmed io).
Definition set_numberio (io : vio) (n : Z) : vio :=
  Vio (v_buf io) (v_buflen io) (v_offset io) (v_rand_seed io) n (v_start_sec io)
    (v_start_nsec io) (v_buf_filled_len io) (v_read io) (v_trimmed io).
Definition set_filled (io : vio) (n : Z) : vio :=
  Vio (v_buf io) (v_buflen io) (v_offset io) (v_rand_seed io) (v_numberio io) (v_start_sec io)
    (v_start_nsec io) n (v_read io) (v_trimmed io).

Record uninit := Uninit { un_stack : list Z; un_heap : list Z }.

(** ** Sizes *)
Definition sum_size (t : verify_type) : Z :=
  match t with
  | VERIFY_NONE | VERIFY_HDR_ONLY | VERIFY_NULL | VERIFY_PATTERN | VERIFY_PATTERN_NO_HDR => 0
  | VERIFY_MD5 => 16
  | VERIFY_CRC64 => 8
  | VERIFY_CRC32C | VERIFY_CRC32 | VERIFY_CRC32C_INTEL => 4
  | VERIFY_CRC16 => 2
  | VERIFY_CRC7 => 1
  | VERIFY_SHA256 => 64
  | VERIFY_SHA512 => 128
  | VERIFY_SHA3_224 => 28
  | VERIFY_SHA3_256 => 32
  | VERIFY_SHA3_384 => 48
  | VERIFY_SHA3_512 => 64
  | VERIFY_XXHASH => 4
  | VERIFY_SHA1 => 20
  end.

Definition HDR_SIZE : Z := 40.

(** [None] is the [assert(0)] for an unknown type. *)
Definition __hdr_size (verify_type : Z) : option Z :=
  t ← vtype_of verify_type;
  if decide (t = VERIFY_PATTERN_NO_HDR) then Some 0 else Some (sum_size t + HDR_SIZE).

Definition hdr_size (td : vtd) (hdr : verify_header) : option Z :=
  if decide (o_verify td = VERIFY_PATTERN_NO_HDR) then Some 0 else __hdr_size (h_verify_type hdr).

Definition get_hdr_inc (td : vtd) (io : vio) : Z :=
  if negb (o_verify_interval td =? 0) && (o_verify_interval td <=? v_buflen io) &&
     negb (o_bs_unaligned td)
  then o_verify_interval td else u32 (v_buflen io).

(** Two [memcpy] through a 200-byte array; overlapping areas are undefined. *)
Definition memswp (b : list Z) (buf1 buf2 len : Z) : option (list Z) :=
  _ ← assert (len <=? 200);
  _ ← assert (len <=? Z.abs (buf1 - buf2));
  swap ← mem_read b buf1 len;
  other ← mem_read b buf2 len;
  b ← mem_write b buf1 other;
  mem_write b buf2 swap.

(** ** Filling *)

(** The [%o] format: the offset of the unit, little endian, as far as it fits. *)
Definition paste_blockoff (offset : Z) (win : list Z) : Z * list Z :=
  let len := Nat.min (length win) 8 in
  (0, take len (le_bytes 8 offset) ++ drop len win).

Definition verify_fmt (td : vtd) (io : vio) : list pattern_fmt :=
  map (fun off => Fmt off (FmtDesc [0x25; 0x6f] 8 (paste_blockoff (v_offset io)))) (o_verify_fmt td).

Definition __fill_buffer (td : vtd) (seed : Z) (b : list Z) (len : Z) : option (list Z) :=
  __fill_random_buf_percentage (Z.to_nat len) seed b (o_compress_percentage td) len len
    (o_buffer_pattern td) (o_buffer_pattern_bytes td).

Definition fill_buffer (td : vtd) (b : list Z) (len : Z) : option (vtd * list Z * Z) :=
  '(fs, b, r) ← fill_random_buf_percentage (Z.to_nat len) (td_verify_state td) b
    (o_compress_percentage td) len len (o_buffer_pattern td) (o_buffer_pattern_bytes td);
  Some (set_verify_state td fs, b, r).

(** On the whole buffer of the unit, as [fill_pattern_headers] calls it. *)
Definition fill_verify_pattern (td : vtd) (io : vio) (len seed : Z) (use_seed : bool)
    : option (vtd * vio) :=
  if o_verify_pattern_bytes td =? 0 then
    if use_seed then b ← __fill_buffer td seed (v_buf io) len; Some (td, set_buf io b)
    else '(td, b, r) ← fill_buffer td (v_buf io) len; Some (td, set_seed (set_buf io b) r)
  else if (length (o_verify_fmt td) =? 0)%nat && (len <=? v_buf_filled_len io) then Some (td, io)
  else
    '(_, b) ← paste_format (o_verify_pattern td) (o_verify_pattern_bytes td) (verify_fmt td io)
                (v_buf io) len;
    Some (td, set_filled (set_buf io b) len).

(** ** Checksums: the bytes that follow the header

    A [fill] function gets the bytes its field had before and the data, a
    [verify_io_u] function the bytes of the field on the media and the data;
    the result is 0 or [EILSEQ]. *)
Definition words_bytes (n : nat) (ws : list Z) : list Z := concat (map (le_bytes n) ws).

(** [memcmp] of the field against what was computed. *)
Definition cmp_bytes (vh sum : list Z) : Z := if bool_decide (vh = sum) then 0 else EILSEQ.
(** [c == vh->x] for a little-endian integer field. *)
Definition cmp_int (vh : list Z) (c : Z) : Z := if c =? le_val vh then 0 else EILSEQ.

Definition fill_xxhash (un : uninit) (data : list Z) : option (list Z) :=
  s ← XXH32_update (XXH32_init (un_heap un) 1) data; Some (le_bytes 4 (XXH32_digest s)).
Definition verify_io_u_xxhash (un : uninit) (vh data : list Z) : option Z :=
  s ← XXH32_update (XXH32_init (un_heap un) 1) data; Some (cmp_int vh (XXH32_digest s)).

Definition fill_sha3 (digest_sz : Z) (vh data : list Z) : option (list Z) :=
  fio_sha3 digest_sz vh [data].
Definition fill_sha3_224 := fill_sha3 SHA3_224_DIGEST_SIZE.
Definition fill_sha3_256 := fill_sha3 SHA3_256_DIGEST_SIZE.
Definition fill_sha3_384 := fill_sha3 SHA3_384_DIGEST_SIZE.
Definition fill_sha3_512 := fill_sha3 SHA3_512_DIGEST_SIZE.

Definition verify_io_u_sha3 (un : uninit) (digest_sz : Z) (vh data : list Z) : option Z :=
  sum ← fio_sha3 digest_sz (take (Z.to_nat digest_sz) (un_stack un)) [data]; Some (cmp_bytes vh sum).
Definition verify_io_u_sha3_224 un := verify_io_u_sha3 un SHA3_224_DIGEST_SIZE.
Definition verify_io_u_sha3_256 un := verify_io_u_sha3 un SHA3_256_DIGEST_SIZE.
Definition verify_io_u_sha3_384 un := verify_io_u_sha3 un SHA3_384_DIGEST_SIZE.
Definition verify_io_u_sha3_512 un := verify_io_u_sha3 un SHA3_512_DIGEST_SIZE.

Definition fill_sha512 (vh data : list Z) : option (list Z) := fio_sha512 vh data.
Definition verify_io_u_sha512 (un : uninit) (vh data : list Z) : option Z :=
  sum ← fio_sha512 (take 128 (un_stack un)) data; Some (cmp_bytes vh sum).

Definition fill_sha256 (vh data : list Z) : option (list Z) := fio_sha256 vh [data].
Definition verify_io_u_sha256 (un : uninit) (vh data : list Z) : option Z :=
  sum ← fio_sha256 (take 64 (un_stack un)) [data]; Some (cmp_bytes vh sum).

Definition fill_sha1 (data : list Z) : option (list Z) :=
  h ← fio_sha1 [data]; Some (words_bytes 4 h).
Definition verify_io_u_sha1 (vh data : list Z) : option Z :=
  h ← fio_sha1 [data]; Some (cmp_bytes vh (words_bytes 4 h)).

Definition fill_md5 (data : list Z) : option (list Z) :=
  h ← fio_md5 [data]; Some (words_bytes 4 h).
Definition verify_io_u_md5 (vh data : list Z) : option Z :=
  h ← fio_md5 [data]; Some (cmp_bytes vh (words_bytes 4 h)).

Definition fill_crc7 (data : list Z) : option (list Z) := Some (le_bytes 1 (fio_crc7 data)).
Definition verify_io_u_crc7 (vh data : list Z) : option Z := Some (cmp_int vh (fio_crc7 data)).
Definition fill_crc16 (data : list Z) : option (list Z) := Some (le_bytes 2 (fio_crc16 data)).
Definition verify_io_u_crc16 (vh data : list Z) : option Z := Some (cmp_int vh (fio_crc16 data)).
Definition fill_crc32 (data : list Z) : option (list Z) := Some (le_bytes 4 (fio_crc32 data)).
Definition verify_io_u_crc32 (vh data : list Z) : option Z := Some (cmp_int vh (fio_crc32 data)).
Definition fill_crc32c (data : list Z) : option (list Z) := Some (le_bytes 4 (crc32c_sw data)).
Definition verify_io_u_crc32c (vh data : list Z) : option Z := Some (cmp_int vh (crc32c_sw data)).
Definition fill_crc64 (data : list Z) : option (list Z) := Some (le_bytes 8 (fio_crc64 data)).
Definition verify_io_u_crc64 (vh data : list Z) : option Z := Some (cmp_int vh (fio_crc64 data)).

(** The switch of [populate_hdr]; [None] is its [assert(0)]. *)
Definition fill_sum (un : uninit) (t : verify_type) (vh data : list Z) : option (list Z) :=
  match t with
  | VERIFY_MD5 => fill_md5 data
  | VERIFY_CRC64 => fill_crc64 data
  | VERIFY_CRC32C | VERIFY_CRC32C_INTEL => fill_crc32c data
  | VERIFY_CRC32 => fill_crc32 data
  | VERIFY_CRC16 => fill_crc16 data
  | VERIFY_CRC7 => fill_crc7 data
  | VERIFY_SHA256 => fill_sha256 vh data
  | VERIFY_SHA512 => fill_sha512 vh data
  | VERIFY_SHA3_224 => fill_sha3_224 vh data
  | VERIFY_SHA3_256 => fill_sha3_256 vh data
  | VERIFY_SHA3_384 => fill_sha3_384 vh data
  | VERIFY_SHA3_512 => fill_sha3_512 vh data
  | VERIFY_XXHASH => fill_xxhash un data
  | VERIFY_SHA1 => fill_sha1 data
  | VERIFY_HDR_ONLY | VERIFY_PATTERN | VERIFY_PATTERN_NO_HDR => Some []
  | VERIFY_NONE | VERIFY_NULL => None
  end.

(** The cases of the switch of [verify_io_u] that check a data checksum. *)
Definition verify_sum (un : uninit) (t : verify_type) (vh data : list Z) : option Z :=
  match t with
  | VERIFY_MD5 => verify_io_u_md5 vh data
  | VERIFY_CRC64 => verify_io_u_crc64 vh data
  | VERIFY_CRC32C | VERIFY_CRC32C_INTEL => verify_io_u_crc32c vh data
  | VERIFY_CRC32 => verify_io_u_crc32 vh data
  | VERIFY_CRC16 => verify_io_u_crc16 vh data
  | VERIFY_CRC7 => verify_io_u_crc7 vh data
  | VERIFY_SHA256 => verify_io_u_sha256 un vh data
  | VERIFY_SHA512 => verify_io_u_sha512 un vh data
  | VERIFY_SHA3_224 => verify_io_u_sha3_224 un vh data
  | VERIFY_SHA3_256 => verify_io_u_sha3_256 un vh data
  | VERIFY_SHA3_384 => verify_io_u_sha3_384 un vh data
  | VERIFY_SHA3_512 => verify_io_u_sha3_512 un vh data
  | VERIFY_XXHASH => verify_io_u_xxhash un vh data
  | VERIFY_SHA1 => verify_io_u_sha1 vh data
  | VERIFY_HDR_ONLY | VERIFY_PATTERN | VERIFY_PATTERN_NO_HDR | VERIFY_NONE | VERIFY_NULL => None
  end.

Definition has_sum (t : verify_type) : bool :=
  match t with
  | VERIFY_HDR_ONLY | VERIFY_PATTERN | VERIFY_PATTERN_NO_HDR | VERIFY_NONE | VERIFY_NULL => false
  | _ => true
  end.

(** ** Sealing a block *)

(** Field by field, then the checksum of what is in front of [crc32]. *)
Definition __fill_hdr (td : vtd) (io : vio) (header_num header_len rand_seed : Z) : verify_header :=
  let h := VHdr FIO_HDR_MAGIC (u16 (vnum (o_verify td))) (u32 header_len) (u64 rand_seed)
             (u64 (v_offset io + u32 (header_num * o_verify_interval td)))
             (u32 (v_start_sec io)) (u32 (v_start_nsec io)) (u16 (td_thread_number td))
             (u16 (v_numberio io)) 0 in
  VHdr (magic h) (h_verify_type h) (h_len h) (h_rand_seed h) (h_offset h) (time_sec h) (time_nsec h)
    (h_thread h) (h_numberio h) (crc32c_sw (hdr_head h)).

Definition fill_hdr (td : vtd) (io : vio) (b : list Z) (p header_num header_len rand_seed : Z)
    : option (list Z) :=
  if decide (o_verify td = VERIFY_PATTERN_NO_HDR) then Some b
  else mem_write b p (hdr_bytes (__fill_hdr td io header_num header_len rand_seed)).

Definition hdr_at (b : list Z) (p : Z) : option verify_header :=
  m ← mem_read b p HDR_SIZE; Some (hdr_of m).

(** [hdr_size(td, hdr)] for the header at [p]: the header is not read when there
    is none. *)
Definition hdr_size_at (td : vtd) (b : list Z) (p : Z) : option Z :=
  if decide (o_verify td = VERIFY_PATTERN_NO_HDR) then Some 0
  else h ← hdr_at b p; hdr_size td h.

Definition populate_hdr (un : uninit) (td : vtd) (io : vio) (b : list Z) (p header_num header_len : Z)
    : option (list Z) :=
  b ← fill_hdr td io b p header_num header_len (v_rand_seed io);
  hs ← hdr_size_at td b p;
  let data_len := u32 (header_len - hs) in
  b ← (if has_sum (o_verify td) then
         data ← mem_read b (p + hs) data_len;
         vh ← mem_read b (p + HDR_SIZE) (sum_size (o_verify td));
         sum ← fill_sum un (o_verify td) vh data;
         mem_write b (p + HDR_SIZE) sum
       else
         _ ← fill_sum un (o_verify td) [] []; Some b);
  if negb (o_verify_offset td =? 0) && negb (hs =? 0)
  then memswp b p (p + o_verify_offset td) hs else Some b.

(** [for (; p < buf + buflen; p += hdr_inc)]. *)
Fixpoint headers_loop (fuel : nat) (un : uninit) (td : vtd) (io : vio) (b : list Z)
    (p header_num hdr_inc : Z) : option (list Z) :=
  if p <? v_buflen io then
    match fuel with
    | O => None
    | S fuel =>
        b ← populate_hdr un td io b p header_num hdr_inc;
        headers_loop fuel un td io b (p + hdr_inc) (u32 (header_num + 1)) hdr_inc
    end
  else Some b.

Definition fill_pattern_headers (un : uninit) (td : vtd) (io : vio) (seed : Z) (use_seed : bool)
    : option (vtd * vio) :=
  '(td, io) ← fill_verify_pattern td io (v_buflen io) seed use_seed;
  b ← headers_loop (Z.to_nat (v_buflen io)) un td io (v_buf io) 0 0 (get_hdr_inc td io);
  Some (td, set_buf io b).

Definition populate_verify_io_u (un : uninit) (td : vtd) (io : vio) : option (vtd * vio) :=
  if decide (o_verify td = VERIFY_NULL) then Some (td, io)
  else fill_pattern_headers un td (set_numberio io (u16 (td_io_issues td))) 0 false.

(** ** Checking *)

(** The slow path: the first byte that differs from the pattern; [None] is the
    [assert(0)] after the loop. *)
Fixpoint pattern_slow (fuel : nat) (pattern : list Z) (pbytes : Z) (data : list Z) (i len mod_ : Z)
    : option Z :=
  if i <? len then
    match fuel with
    | O => None
    | S fuel =>
        x ← arr_get data i;
        y ← arr_get pattern mod_;
        if negb (x =? y) then Some EILSEQ
        else
          let m := mod_ + 1 in
          pattern_slow fuel pattern pbytes data (i + 1) len (if m =? pbytes then 0 else m)
    end
  else None.

(** [hdr] is at [p] in the buffer; the pattern of the job is updated in place. *)
Definition verify_io_u_pattern (td : vtd) (io : vio) (p hdr_num : Z) : option (Z * vtd) :=
  header_size ← __hdr_size (vnum (o_verify td));
  let pattern_size := o_verify_pattern_bytes td in
  _ ← assert (negb (pattern_size =? 0));
  '(_, pattern) ← paste_format_inplace (o_verify_pattern td) pattern_size (verify_fmt td io);
  let td := set_pattern td pattern in
  let len := u32 (get_hdr_inc td io - header_size) in
  let mod_ := u32 (u32 (get_hdr_inc td io * hdr_num) + header_size) mod pattern_size in
  data ← mem_read (v_buf io) (p + header_size) len;
  rc ← cmp_pattern pattern pattern_size mod_ data len;
  if rc =? 0 then Some (0, td)
  else r ← pattern_slow (Z.to_nat len) pattern pattern_size data 0 len mod_; Some (r, td).

(** The first 16 bytes by hand, then [memcmp] of the area with itself, 16 bytes
    further. *)
Fixpoint zero_head (n : nat) (data : list Z) : option bool :=
  match n, data with
  | O, _ => None
  | S n, [] => Some true
  | S n, x :: data => if negb (x =? 0) then Some false else zero_head n data
  end.

Definition mem_is_zero (data : list Z) : bool :=
  match zero_head 16 data with
  | Some r => r
  | None =>
      let p := drop 16 data in
      bool_decide (take (length p) data = p)
  end.

(** The result and [*offset]. *)
Fixpoint mem_is_zero_slow (data : list Z) (offset : Z) : bool * Z :=
  match data with
  | [] => (true, offset)
  | x :: data => if negb (x =? 0) then (false, offset) else mem_is_zero_slow data (offset + 1)
  end.

Definition verify_trimmed_io_u (td : vtd) (io : vio) : option Z :=
  if negb (o_trim_zero td) then Some 0
  else
    data ← mem_read (v_buf io) 0 (v_buflen io);
    if mem_is_zero data then Some 0 else Some EILSEQ.

(** [None] never: the checks in order, 0 or [EILSEQ]. [m] is the header's image. *)
Definition verify_header_ok (td : vtd) (io : vio) (m : list Z) (hdr_num hdr_len : Z) : Z :=
  let hdr := hdr_of m in
  if negb (magic hdr =? FIO_HDR_MAGIC) then EILSEQ
  else if negb (h_len hdr =? hdr_len) then EILSEQ
  else if negb (h_rand_seed hdr =? v_rand_seed io) then EILSEQ
  else if negb (h_offset hdr =? u64 (v_offset io + u32 (hdr_num * o_verify_interval td))) then EILSEQ
  else if (td_write td && (td_min_bs td =? td_max_bs td) && negb (o_time_based td)) &&
          (negb (o_verify_only td) || (o_loops td =? 0)) &&
          negb (h_numberio hdr =? v_numberio io) then EILSEQ
  else if negb (crc32c_sw (take 36 m) =? h_crc32 hdr) then EILSEQ
  else 0.


(** The switch on the type: the code and the job (for the pattern). *)
Definition verify_data (un : uninit) (td : vtd) (io : vio) (hdr : verify_header) (p hdr_num : Z)
    (verify_type : Z) : option (Z * vtd) :=
  match vtype_of verify_type with
  | Some VERIFY_HDR_ONLY =>
      if negb (o_verify_pattern_bytes td =? 0) then verify_io_u_pattern td io p hdr_num
      else Some (0, td)
  | Some VERIFY_PATTERN | Some VERIFY_PATTERN_NO_HDR => verify_io_u_pattern td io p hdr_num
  | Some VERIFY_NONE | Some VERIFY_NULL | None => Some (EINVAL, td)
  | Some t =>
      hs ← hdr_size td hdr;
      data ← mem_read (v_buf io) (u32 (hdr_num * h_len hdr) + hs) (u32 (h_len hdr - hs));
      vh ← mem_read (v_buf io) (p + HDR_SIZE) (sum_size t);
      r ← verify_sum un t vh data; Some (r, td)
  end.

(** One turn of the loop.  [inr] leaves [verify_io_u] at once. *)
Definition verify_block (un : uninit) (td : vtd) (io : vio) (p hdr_num hdr_inc : Z)
    : option ((vtd * vio * Z) + (vtd * vio * Z)) :=
  header_size ← __hdr_size (vnum (o_verify td));
  b ← (if negb (o_verify_offset td =? 0)
       then memswp (v_buf io) p (p + o_verify_offset td) header_size else Some (v_buf io));
  let io := set_buf io b in
  m ← (if decide (o_verify td = VERIFY_PATTERN_NO_HDR)
       then Some [] else mem_read b p HDR_SIZE);
  io ← (if o_verifysort td || td_ver_backlog td
        then h ← hdr_at b p; Some (set_seed io (h_rand_seed h)) else Some io);
  let ret := if decide (o_verify td = VERIFY_PATTERN_NO_HDR) then 0
             else verify_header_ok td io m hdr_num hdr_inc in
  if negb (ret =? 0) then Some (inr (td, io, ret))
  else
    let hdr := hdr_of m in
    let verify_type := if decide (o_verify td = VERIFY_NONE) then h_verify_type hdr
                       else vnum (o_verify td) in
    '(ret, td) ← verify_data un td io hdr p hdr_num verify_type;
    Some (inl (td, io, ret)).

(** The loop over the blocks: the job, the unit, the code, and whether it was
    left by [return]. *)
Fixpoint verify_loop (fuel : nat) (un : uninit) (td : vtd) (io : vio) (p hdr_num hdr_inc ret : Z)
    : option (vtd * vio * Z * bool) :=
  if p <? v_buflen io then
    if negb (ret =? 0) && o_verify_fatal td then Some (td, io, ret, false)
    else
      match fuel with
      | O => None
      | S fuel =>
          r ← verify_block un td io p hdr_num hdr_inc;
          match r with
          | inr (td, io, ret) => Some (td, io, ret, true)
          | inl (td, io, ret) =>
              verify_loop fuel un td io (p + hdr_inc) (u32 (hdr_num + 1)) hdr_inc ret
          end
      end
  else Some (td, io, ret, false).

(** The result of [verify_io_u], and whether the job was marked to terminate. *)
Record verdict := Verdict { vd_td : vtd; vd_io : vio; vd_ret : Z; vd_terminate : bool }.

Definition verify_io_u (un : uninit) (td : vtd) (io : vio) : option verdict :=
  if decide (o_verify td = VERIFY_NULL) then Some (Verdict td io 0 false)
  else if negb (v_read io) then Some (Verdict td io 0 false)
  else if td_fakeio td then Some (Verdict td io 0 false)
  else if v_trimmed io then
    ret ← verify_trimmed_io_u td io;
    Some (Verdict td io ret (negb (ret =? 0) && o_verify_fatal td))
  else
    '(td, io, ret, returned) ← verify_loop (Z.to_nat (v_buflen io)) un td io 0 0 (get_hdr_inc td io) 0;
    Some (Verdict td io ret (negb returned && negb (ret =? 0) && o_verify_fatal td)).
