(* ===== verification/VerifyInv.v ===== *)
(** * VerifyInv: lemmas on the verification headers

    The image of a header determines its fields; the checksum that a [fill]
    function stores is the one the matching [verify_io_u] function accepts; the
    swap that moves the header to [verify_offset] is its own inverse; and what
    one turn of the sealing and of the checking loop does to a block in the
    middle of a buffer. *)
From S2P Require Import Prelude Crc Xxhash Digest Md5 Sha1 Sha2 Sha256 Sha512 Sha3 Pattern Rand Verify.

(** ** Ranges of the checksums *)
Lemma xxh32_uint data sd : uint 32 (XXH32 data sd).
Proof.
  assert (Hav : forall h, uint 32 h -> uint 32 (avalanche h)).
  { intros h Hh. unfold avalanche. cbn zeta. apply lxor_uint; [lia|auto with cint|].
    apply shiftr_uint; [lia|auto with cint]. }
  assert (Htb : forall p h, uint 32 h -> uint 32 (tail_bytes h p)).
  { intros p. unfold tail_bytes. induction p as [|x p IH]; intros h Hh; simpl; auto with cint. }
  assert (Htw : forall n h p, uint 32 h -> uint 32 (tail_words n h p).1).
  { induction n as [|n IH]; intros h p Hh; cbn [tail_words]; [done|].
    destruct (4 <=? length p)%nat; [|done]. apply IH. auto with cint. }
  unfold XXH32. destruct (if _ <=? _ then _ else _) as [h p]. unfold finish.
  pose proof (Htw (length p) (u32 (h + u32 (sgn 32 (Z.of_nat (length data))))) p ltac:(auto with cint)) as Hw.
  destruct (tail_words _ _ _) as [h' p']. cbn [fst] in Hw. auto.
Qed.

Lemma xxhash_once mem sd data : length mem = 16%nat -> Z.of_nat (length data) < 2 ^ 31 ->
  exists s, XXH32_update (XXH32_init mem sd) data = Some s /\ XXH32_digest s = XXH32 data sd.
Proof.
  intros Hm Hl. destruct (xxhash_streaming_eq mem sd [data] Hm) as (s&E&Hd);
    [simpl; by rewrite app_nil_r|].
  exists s. split; [exact E|]. rewrite Hd. simpl. by rewrite app_nil_r.
Qed.

(** ** A stored checksum is accepted *)
Record uninit_ok (un : uninit) : Prop := {
  un_stack_len : length (un_stack un) = 128%nat;
  un_heap_len : length (un_heap un) = 16%nat
}.

(** Data that a checksum can be taken of: below 2 GiB, and at least one block for
    [VERIFY_SHA512], which stores its block buffer. *)
Definition sum_data (t : verify_type) (data : list Z) : Prop :=
  Z.of_nat (length data) + 256 <= 2 ^ 31 /\ (t = VERIFY_SHA512 -> (128 <= length data)%nat).

Lemma le_val_int n w c : w = 8 * Z.of_nat n -> uint w c -> cmp_int (le_bytes n c) c = 0.
Proof.
  intros -> [H1 H2]. unfold cmp_int. rewrite le_val_bytes, Z.mod_small by done. by rewrite Z.eqb_refl.
Qed.

Lemma cmp_bytes_refl s : cmp_bytes s s = 0.
Proof. unfold cmp_bytes. by rewrite bool_decide_eq_true_2. Qed.

Lemma words_bytes_length n ws : length (words_bytes n ws) = (n * length ws)%nat.
Proof.
  unfold words_bytes. induction ws as [|x ws IH]; [simpl; lia|].
  cbn [map concat length]. rewrite length_app, length_le_bytes, IH. lia.
Qed.

Lemma md5_total data : exists h, fio_md5 [data] = Some h /\ length h = 4%nat.
Proof.
  rewrite md5_correct_eq. eexists. split; [done|]. unfold md5_ref.
  apply (absorb_blocks_inv 64 md5_ref_block (fun s => length s = 4%nat)); [lia| |done].
  intros s b Hs. unfold md5_ref_block, add_regs. rewrite length_zip_with.
  assert (Hl : forall js r, length r = 4%nat -> length (fold_left (md5_ref_step b) js r) = 4%nat).
  { induction js as [|i js IH]; intros r Hr; [done|]. cbn [fold_left]. apply IH.
    by destruct r as [|? [|? [|? [|? [|? ?]]]]]. }
  rewrite Hl by done. lia.
Qed.

Lemma sha1_total data : exists h, fio_sha1 [data] = Some h /\ length h = 5%nat.
Proof.
  rewrite sha1_correct_eq. eexists. split; [done|]. unfold sha1_ref.
  apply (absorb_blocks_inv 64 sha1_ref_block (fun s => length s = 5%nat)); [lia| |done].
  intros s b Hs. unfold sha1_ref_block, add_regs. rewrite length_zip_with.
  assert (Hl : forall js r, length r = 5%nat -> length (fold_left (sha1_ref_step b) js r) = 5%nat).
  { induction js as [|i js IH]; intros r Hr; [done|]. cbn [fold_left]. apply IH.
    by destruct r as [|? [|? [|? [|? [|? [|? ?]]]]]]. }
  rewrite Hl by done. lia.
Qed.

Lemma sha256_total data : Z.of_nat (length data) + 64 <= 2 ^ 32 ->
  exists sum, length sum = 64%nat /\ forall b', length b' = 64%nat -> fio_sha256 b' [data] = Some sum.
Proof.
  intros Hl. pose proof (fun b' Hb' => sha256_field_eq b' [data] Hb') as Hf. cbn zeta in Hf.
  simpl concat in Hf. rewrite app_nil_r in Hf. eexists. split; [|intros b' Hb'; by apply Hf].
  rewrite length_app, length_map, length_drop. unfold last_block.
  assert (Hst : length (sha256_chain data) = 8%nat).
  { unfold sha256_chain.
    apply (absorb_blocks_inv 64 sha256_block (reg_ok 32 8)); [lia| |apply sha256_H_ok].
    intros s blk Hs. rewrite <- (proj1 (sha256_transform_ref s blk Hs)). by apply sha256_transform_ref. }
  rewrite Hst, length_drop.
  assert ((64 <= length (data ++ sha256_pad (length data)))%nat); [|lia].
  unfold sha256_pad. rewrite !length_app, length_replicate, length_le_bytes. cbn [length].
  pose proof (Nat.div_mod_eq (length data) 64). zdm.
Qed.

Lemma sha3_total d data : d ∈ [28; 32; 48; 64]%nat -> Z.of_nat (length data) + 144 <= 2 ^ 32 ->
  exists sum, length sum = d /\ forall out, length out = d -> fio_sha3 (Z.of_nat d) out [data] = Some sum.
Proof.
  intros Hd Hl. pose proof (fun out Ho => sha3_correct_eq d out [data] Hd Ho) as Hc.
  simpl concat in Hc. rewrite app_nil_r in Hc. eexists. split; [|intros out Ho; by apply Hc].
  unfold sha3_ref. rewrite length_take, length_lanes_bytes.
  assert (Hr : exists r, (8 * r + 2 * d = 200)%nat /\ (28 <= d <= 64)%nat /\ (0 < r)%nat).
  { rewrite !elem_of_cons, elem_of_nil in Hd. destruct Hd as [->|[->|[->|[->|[]]]]];
      [exists 18%nat|exists 17%nat|exists 13%nat|exists 9%nat]; lia. }
  destruct Hr as (r&Hr&Hd'&Hr0). replace (200 - 2 * d)%nat with (8 * r)%nat by lia.
  rewrite (absorb_blocks_inv (8 * r) (sponge_block (8 * r)) (fun s => length s = 25%nat)); [lia|lia| |done].
  intros s blk Hs. rewrite <- (proj1 (sha3_block_spec r s blk ltac:(lia) Hs)).
  apply sha3_block_spec; [lia|done].
Qed.

Lemma sha3_sum d vh data :
  (28 <=? d) && (d <=? 64) && bool_decide (d ∈ [28; 32; 48; 64]) = true ->
  Z.of_nat (length data) + 144 <= 2 ^ 32 -> length vh = Z.to_nat d ->
  exists sum, fill_sha3 d vh data = Some sum /\ length sum = Z.to_nat d /\
    forall un', uninit_ok un' -> verify_io_u_sha3 un' d sum data = Some 0.
Proof.
  intros Hd Hl Hvh. zbool. apply bool_decide_eq_true in H0.
  assert (Z.to_nat d ∈ [28; 32; 48; 64]%nat) as Hin.
  { rewrite !elem_of_cons, elem_of_nil in H0.
    destruct H0 as [->|[->|[->|[->|[]]]]]; apply (bool_decide_unpack _); reflexivity. }
  destruct (sha3_total (Z.to_nat d) data Hin Hl) as (sum&Hsl&Hs). rewrite Z2Nat.id in Hs by lia.
  exists sum. split; [by apply Hs|]. split; [done|]. intros un' [Hst _]. unfold verify_io_u_sha3.
  rewrite Hs by (rewrite length_take; lia). cbn [mbind option_bind]. by rewrite cmp_bytes_refl.
Qed.

(** What a [fill] function stores has the size of its field, and the matching
    check accepts it whatever the uninitialised memory holds. *)
Lemma fill_sum_verifies un t vh data :
  uninit_ok un -> has_sum t = true -> length vh = Z.to_nat (sum_size t) -> sum_data t data ->
  exists sum, fill_sum un t vh data = Some sum /\ length sum = Z.to_nat (sum_size t) /\
    forall un', uninit_ok un' -> verify_sum un' t sum data = Some 0.
Proof.
  intros Hun Ht Hvh [Hd Hd512].
  assert (Hint : forall n w c, w = 8 * Z.of_nat n -> uint w c ->
    exists sum, Some (le_bytes n c) = Some sum /\ length sum = n /\
      forall un', uninit_ok un' -> Some (cmp_int sum c) = Some 0).
  { intros n w c Hw Hc. eexists. split; [done|]. rewrite length_le_bytes. split; [done|].
    intros _ _. f_equal. by apply (le_val_int n w). }
  destruct t; try discriminate Ht; cbn [fill_sum verify_sum sum_size] in *.
  - destruct (md5_total data) as (h&E&Hl). unfold fill_md5, verify_io_u_md5. rewrite E.
    eexists. split; [done|]. rewrite words_bytes_length, Hl. split; [done|].
    intros _ _. cbn [mbind option_bind]. by rewrite cmp_bytes_refl.
  - apply (Hint 8%nat 64); [done|apply crc64_uint].
  - apply (Hint 4%nat 32); [done|apply crc32_uint].
  - apply (Hint 4%nat 32); [done|apply crc32c_uint].
  - apply (Hint 4%nat 32); [done|apply crc32c_uint].
  - apply (Hint 2%nat 16); [done|apply crc16_uint].
  - apply (Hint 1%nat 8); [done|apply crc7_uint].
  - destruct (sha256_total data) as (sum&Hl&Hs); [lia|]. exists sum.
    split; [by apply Hs|]. split; [done|]. intros un' [Hst _]. unfold verify_io_u_sha256.
    rewrite Hs by (rewrite length_take; lia). cbn [mbind option_bind]. by rewrite cmp_bytes_refl.
  - specialize (Hd512 eq_refl). unfold fill_sha512, verify_io_u_sha512.
    rewrite sha512_buffer by (done || lia). eexists. split; [done|].
    pose proof (Nat.mod_upper_bound (length data) 128 ltac:(lia)).
    split; [rewrite length_app, !length_drop, length_take; lia|]. intros un' [Hst _].
    rewrite sha512_buffer by (rewrite ?length_take; lia). cbn [mbind option_bind]. by rewrite cmp_bytes_refl.
  - by apply (sha3_sum 28); [|lia|].
  - by apply (sha3_sum 32); [|lia|].
  - by apply (sha3_sum 48); [|lia|].
  - by apply (sha3_sum 64); [|lia|].
  - destruct (xxhash_once (un_heap un) 1 data) as (s&E&Hdig); [apply Hun|lia|].
    unfold fill_xxhash, verify_io_u_xxhash. rewrite E. cbn [mbind option_bind]. eexists. split; [done|].
    rewrite length_le_bytes. split; [done|]. intros un' Hun'.
    destruct (xxhash_once (un_heap un') 1 data) as (s'&E'&Hdig'); [apply Hun'|lia|].
    rewrite E'. cbn [mbind option_bind]. rewrite Hdig, Hdig'. f_equal.
    apply (le_val_int 4 32); [done|apply xxh32_uint].
  - destruct (sha1_total data) as (h&E&Hl). unfold fill_sha1, verify_io_u_sha1. rewrite E.
    eexists. split; [done|]. rewrite words_bytes_length, Hl. split; [done|].
    intros _ _. cbn [mbind option_bind]. by rewrite cmp_bytes_refl.
Qed.

(** ** The header and its image *)
Record hdr_ok (h : verify_header) : Prop := {
  ok_magic : uint 16 (magic h); ok_type : uint 16 (h_verify_type h); ok_len : uint 32 (h_len h);
  ok_seed : uint 64 (h_rand_seed h); ok_offset : uint 64 (h_offset h); ok_sec : uint 32 (time_sec h);
  ok_nsec : uint 32 (time_nsec h); ok_thread : uint 16 (h_thread h);
  ok_numberio : uint 16 (h_numberio h); ok_crc : uint 32 (h_crc32 h)
}.

Lemma length_hdr_head h : length (hdr_head h) = 36%nat.
Proof. unfold hdr_head. by rewrite !length_app, !length_le_bytes. Qed.

Lemma length_hdr_bytes h : length (hdr_bytes h) = 40%nat.
Proof. unfold hdr_bytes. by rewrite length_app, length_hdr_head, length_le_bytes. Qed.

Lemma hdr_of_bytes h : hdr_ok h -> hdr_of (hdr_bytes h) = h.
Proof.
  intros [H1 H2 H3 H4 H5 H6 H7 H8 H9 H10]. destruct h as [a b c d e f g i j k]. simpl in *.
  apply (le_val_uint 2) in H1, H2, H8, H9; [|done..]. apply (le_val_uint 4) in H3, H6, H7, H10; [|done..].
  apply (le_val_uint 8) in H4, H5; [|done..]. unfold hdr_of. f_equal; assumption.
Qed.

Lemma fill_hdr_ok td io num inc seed : hdr_ok (__fill_hdr td io num inc seed).
Proof.
  split; cbn [__fill_hdr magic h_verify_type h_len h_rand_seed h_offset time_sec time_nsec h_thread
    h_numberio h_crc32]; auto with cint; [unfold uint, FIO_HDR_MAGIC; lia|apply crc32c_uint].
Qed.

Lemma hdr_head_take h : take 36 (hdr_bytes h) = hdr_head h.
Proof. unfold hdr_bytes. rewrite take_app_le, take_ge; [done|rewrite length_hdr_head; lia..]. Qed.

Lemma fill_hdr_crc td io num inc seed (h := __fill_hdr td io num inc seed) :
  h_crc32 h = crc32c_sw (take 36 (hdr_bytes h)).
Proof.
  rewrite hdr_head_take. unfold h, __fill_hdr. cbn zeta.
  cbn [h_crc32 magic h_verify_type h_len h_rand_seed h_offset time_sec time_nsec h_thread h_numberio].
  f_equal.
Qed.

(** The unit that is checked is the one that was sealed: same place, same seed
    (or one that is taken from the header), same number. *)
Record same_unit (td : vtd) (io rio : vio) : Prop := {
  su_offset : v_offset rio = v_offset io;
  su_buflen : v_buflen rio = v_buflen io;
  su_seed : o_verifysort td || td_ver_backlog td = true \/ v_rand_seed rio = u64 (v_rand_seed io);
  su_numberio : v_numberio rio = u16 (v_numberio io)
}.

(** The seed the check compares with, after the header has been looked at. *)
Definition seed_for (td : vtd) (h : verify_header) (rio : vio) : vio :=
  if o_verifysort td || td_ver_backlog td then set_seed rio (h_rand_seed h) else rio.

Lemma verify_header_accepts td io rio num inc (h := __fill_hdr td io num inc (v_rand_seed io)) :
  same_unit td io rio -> uint 32 inc ->
  verify_header_ok td (seed_for td h rio) (hdr_bytes h) num inc = 0.
Proof.
  intros [Ho _ Hs Hn] Hinc. unfold verify_header_ok. rewrite hdr_of_bytes by apply fill_hdr_ok.
  assert (Hseed : h_rand_seed h = v_rand_seed (seed_for td h rio)).
  { unfold seed_for. destruct (o_verifysort td || td_ver_backlog td); [done|].
    destruct Hs as [|Hs]; [done|]. by rewrite Hs. }
  assert (Hoff : v_offset (seed_for td h rio) = v_offset io /\ v_numberio (seed_for td h rio) = u16 (v_numberio io)).
  { unfold seed_for. by destruct (o_verifysort td || td_ver_backlog td). }
  destruct Hoff as [-> ->].
  assert (Hf : magic h = FIO_HDR_MAGIC /\ h_len h = inc /\
    h_offset h = u64 (v_offset io + u32 (num * o_verify_interval td)) /\
    h_numberio h = u16 (v_numberio io)).
  { repeat split. by apply wrap_small. }
  pose proof (fill_hdr_crc td io num inc (v_rand_seed io)) as Hcrc. fold h in Hcrc.
  destruct Hf as (->&->&->&->). rewrite <- Hseed, Hcrc, !Z.eqb_refl. cbn [negb]. by rewrite andb_false_r.
Qed.

(** ** The swap to [verify_offset] *)
Lemma memswp_parts (pre A M B post : list Z) p q n :
  p = Z.of_nat (length pre) -> q = Z.of_nat (length (pre ++ A ++ M)) ->
  n = Z.of_nat (length A) -> length A = length B -> n <= 200 ->
  memswp (pre ++ A ++ M ++ B ++ post) p q n = Some (pre ++ B ++ M ++ A ++ post).
Proof.
  intros -> -> -> HAB Hn. unfold memswp, assert.
  rewrite (proj2 (Z.leb_le _ 200)), (proj2 (Z.leb_le _ _)) by (rewrite ?length_app; lia).
  cbn [mbind option_bind]. rewrite (mem_read_mid pre A _ (Z.of_nat (length pre))) by done. cbn [mbind option_bind].
  replace (pre ++ A ++ M ++ B ++ post) with ((pre ++ A ++ M) ++ B ++ post) by (by rewrite <- !app_assoc).
  rewrite mem_read_mid by (done || lia). cbn [mbind option_bind].
  replace ((pre ++ A ++ M) ++ B ++ post) with (pre ++ A ++ M ++ B ++ post) by (by rewrite <- !app_assoc).
  rewrite mem_write_mid by done. cbn [mbind option_bind].
  replace (pre ++ B ++ M ++ B ++ post) with ((pre ++ B ++ M) ++ B ++ post) by (by rewrite <- !app_assoc).
  rewrite mem_write_mid; [by rewrite <- !app_assoc|rewrite !length_app; lia|done].
Qed.

(** [s'] is the block [s] with its first [hs] bytes where [verify_offset] says. *)
Definition placed (off : Z) (hs : nat) (s s' : list Z) : Prop :=
  if off =? 0 then s' = s
  else exists A M B R, s = A ++ M ++ B ++ R /\ s' = B ++ M ++ A ++ R /\
    length A = hs /\ length B = hs /\ off = Z.of_nat (length A + length M).

Lemma placed_length off hs s s' : placed off hs s s' -> length s' = length s.
Proof.
  unfold placed. destruct (off =? 0); [by intros ->|].
  intros (A&M&B&R&->&->&HA&HB&_). rewrite !length_app. lia.
Qed.

Lemma placed_sym off hs s s' : placed off hs s s' -> placed off hs s' s.
Proof.
  unfold placed. destruct (off =? 0); [done|].
  intros (A&M&B&R&->&->&HA&HB&Ho). exists B, M, A, R. repeat split; done || lia.
Qed.

Lemma placed_swap off hs s s' pre post p : placed off hs s s' -> (hs <= 200)%nat ->
  p = Z.of_nat (length pre) ->
  (if negb (off =? 0) then memswp (pre ++ s ++ post) p (p + off) (Z.of_nat hs)
   else Some (pre ++ s ++ post)) = Some (pre ++ s' ++ post).
Proof.
  unfold placed. intros Hpl Hhs ->. destruct (Z.eqb_spec off 0); cbn [negb]; [by rewrite Hpl|].
  destruct Hpl as (A&M&B&R&->&->&HA&HB&->). rewrite <- !app_assoc.
  apply memswp_parts; rewrite ?length_app; lia.
Qed.

(** The offsets for which the swap is defined. *)
Definition offset_ok (off : Z) (hs inc : nat) : Prop :=
  off = 0 \/ Z.of_nat hs <= off /\ off + Z.of_nat hs <= Z.of_nat inc.

Lemma placed_total off hs s : offset_ok off hs (length s) -> exists s', placed off hs s s'.
Proof.
  unfold placed, offset_ok. destruct (Z.eqb_spec off 0); [eauto|]. intros [|[H1 H2]]; [done|].
  exists (take hs (drop (Z.to_nat off) s) ++ take (Z.to_nat off - hs) (drop hs s) ++ take hs s ++
          drop (Z.to_nat off + hs) s).
  exists (take hs s), (take (Z.to_nat off - hs) (drop hs s)), (take hs (drop (Z.to_nat off) s)),
    (drop (Z.to_nat off + hs) s).
  split; [|repeat split; rewrite ?length_take, ?length_drop; lia].
  rewrite <- (take_drop hs s) at 1. f_equal.
  rewrite <- (take_drop (Z.to_nat off - hs) (drop hs s)) at 1. f_equal. rewrite drop_drop.
  replace (hs + (Z.to_nat off - hs))%nat with (Z.to_nat off) by lia.
  rewrite <- (take_drop hs (drop (Z.to_nat off) s)) at 1. f_equal. by rewrite drop_drop.
Qed.

(** ** One block *)

(** The types that seal a block with a header. *)
Definition sealing (t : verify_type) : bool :=
  match t with VERIFY_NONE | VERIFY_NULL | VERIFY_PATTERN_NO_HDR => false | _ => true end.

Definition hdr_len (t : verify_type) : nat := Z.to_nat (sum_size t + HDR_SIZE).

Lemma vtype_of_vnum t : vtype_of (vnum t) = Some t.
Proof. by destruct t. Qed.

Lemma sum_size_range t : 0 <= sum_size t <= 128.
Proof. destruct t; simpl; lia. Qed.

Lemma hdr_size_sealing td io num inc seed : sealing (o_verify td) = true ->
  hdr_size td (__fill_hdr td io num inc seed) = Some (Z.of_nat (hdr_len (o_verify td))) /\
  __hdr_size (vnum (o_verify td)) = Some (Z.of_nat (hdr_len (o_verify td))).
Proof.
  intros Hs. unfold hdr_size, __hdr_size, hdr_len. cbn [__fill_hdr h_verify_type].
  assert (u16 (vnum (o_verify td)) = vnum (o_verify td)) as -> by (by destruct (o_verify td)).
  rewrite vtype_of_vnum. cbn [mbind option_bind]. pose proof (sum_size_range (o_verify td)).
  rewrite Z2Nat.id by (unfold HDR_SIZE; lia). by destruct (o_verify td).
Qed.

(** A block that checks: header, checksum, data. *)
Definition sum_good (t : verify_type) (sum data : list Z) : Prop :=
  length sum = Z.to_nat (sum_size t) /\
  (has_sum t = true -> forall un, uninit_ok un -> verify_sum un t sum data = Some 0).

Definition sealed (td : vtd) (io : vio) (num inc : Z) (sum data : list Z) : list Z :=
  hdr_bytes (__fill_hdr td io num inc (v_rand_seed io)) ++ sum ++ data.

(** A block as the room for the header, the room for the checksum, and the data. *)
Lemma block_parts t (blk : list Z) : (hdr_len t <= length blk)%nat ->
  exists b40 bsum, blk = b40 ++ bsum ++ drop (hdr_len t) blk /\ length b40 = 40%nat /\
    length bsum = Z.to_nat (sum_size t).
Proof.
  unfold hdr_len, HDR_SIZE. pose proof (sum_size_range t). intros Hl.
  exists (take 40 blk), (take (Z.to_nat (sum_size t)) (drop 40 blk)).
  split; [|rewrite !length_take, length_drop; lia].
  rewrite <- (take_drop 40 blk) at 1. f_equal.
  rewrite <- (take_drop (Z.to_nat (sum_size t)) (drop 40 blk)) at 1. f_equal.
  rewrite drop_drop. f_equal. lia.
Qed.

(** The checksum part of [populate_hdr]. *)
Lemma populate_sum un t (pre hb bsum data post : list Z) inc (b := pre ++ hb ++ bsum ++ data ++ post) :
  uninit_ok un -> sealing t = true -> length hb = 40%nat -> length bsum = Z.to_nat (sum_size t) ->
  Z.of_nat (length data) = inc - Z.of_nat (hdr_len t) -> sum_data t data ->
  exists sum, sum_good t sum data /\
    (if has_sum t
     then data ← mem_read b (Z.of_nat (length pre) + Z.of_nat (hdr_len t)) (inc - Z.of_nat (hdr_len t));
          vh ← mem_read b (Z.of_nat (length pre) + HDR_SIZE) (sum_size t);
          sum ← fill_sum un t vh data;
          mem_write b (Z.of_nat (length pre) + HDR_SIZE) sum
     else _ ← fill_sum un t [] []; Some b) =
    Some (pre ++ (hb ++ sum ++ data) ++ post).
Proof.
  intros Hun Hs Hhb Hbs Hdl Hdata. pose proof (sum_size_range t) as Hss.
  assert (Hhl : Z.of_nat (hdr_len t) = sum_size t + 40) by (unfold hdr_len, HDR_SIZE; lia).
  destruct (has_sum t) eqn:Hhas.
  - assert (Hr1 : mem_read b (Z.of_nat (length pre) + Z.of_nat (hdr_len t)) (inc - Z.of_nat (hdr_len t)) = Some data).
    { unfold b. replace (pre ++ hb ++ bsum ++ data ++ post) with ((pre ++ hb ++ bsum) ++ data ++ post)
        by (by rewrite <- !app_assoc).
      apply mem_read_mid; rewrite ?length_app; lia. }
    assert (Hb : b = (pre ++ hb) ++ bsum ++ data ++ post) by (unfold b; by rewrite <- !app_assoc).
    assert (Hr2 : mem_read b (Z.of_nat (length pre) + HDR_SIZE) (sum_size t) = Some bsum).
    { rewrite Hb. apply mem_read_mid; rewrite ?length_app; unfold HDR_SIZE; lia. }
    destruct (fill_sum_verifies un t bsum data Hun Hhas Hbs Hdata) as (sum&Hf&Hsl&Hv).
    exists sum. split; [by split|]. rewrite Hr1. cbn [mbind option_bind]. rewrite Hr2.
    cbn [mbind option_bind]. rewrite Hf. cbn [mbind option_bind].
    rewrite Hb, mem_write_mid; [by rewrite <- !app_assoc|rewrite ?length_app; unfold HDR_SIZE; lia|lia].
  - exists []. assert (Ht : sum_size t = 0 /\ fill_sum un t [] [] = Some []) by (by destruct t).
    destruct Ht as [Ht ->]. rewrite Ht in *. destruct bsum; [|discriminate Hbs].
    split; [by split; [simpl; by rewrite Ht|rewrite Hhas]|]. cbn [mbind option_bind]. unfold b.
    by rewrite <- !app_assoc.
Qed.

Lemma populate_hdr_mid un td io pre blk post num inc p (t := o_verify td) :
  uninit_ok un -> sealing t = true -> p = Z.of_nat (length pre) ->
  Z.of_nat (length blk) = inc -> uint 32 inc -> (hdr_len t <= length blk)%nat ->
  offset_ok (o_verify_offset td) (hdr_len t) (length blk) -> sum_data t (drop (hdr_len t) blk) ->
  exists sum s', sum_good t sum (drop (hdr_len t) blk) /\
    placed (o_verify_offset td) (hdr_len t) (sealed td io num inc sum (drop (hdr_len t) blk)) s' /\
    populate_hdr un td io (pre ++ blk ++ post) p num inc = Some (pre ++ s' ++ post).
Proof.
  intros Hun Hs -> Hinc Hu Hlen Hoff Hdata.
  destruct (block_parts t blk Hlen) as (b40&bsum&Hblk&H40&Hbs).
  set (data := drop (hdr_len t) blk) in *.
  assert (Hdl : Z.of_nat (length data) = inc - Z.of_nat (hdr_len t))
    by (unfold data; rewrite length_drop; lia).
  pose proof (sum_size_range t) as Hss.
  assert (Hhl : Z.of_nat (hdr_len t) = sum_size t + 40) by (unfold hdr_len, HDR_SIZE; lia).
  set (h := __fill_hdr td io num inc (v_rand_seed io)).
  unfold populate_hdr, fill_hdr. destruct (decide (o_verify td = VERIFY_PATTERN_NO_HDR)) as [E|_];
    [by unfold t in Hs; rewrite E in Hs|].
  fold h. rewrite Hblk, <- !app_assoc, mem_write_mid by (rewrite ?length_hdr_bytes; lia).
  cbn [mbind option_bind]. unfold hdr_size_at.
  destruct (decide (o_verify td = VERIFY_PATTERN_NO_HDR)) as [E|_];
    [by unfold t in Hs; rewrite E in Hs|].
  unfold hdr_at. rewrite (mem_read_mid pre (hdr_bytes h) _ (Z.of_nat (length pre)) HDR_SIZE)
    by (rewrite ?length_hdr_bytes; done).
  cbn [mbind option_bind]. rewrite hdr_of_bytes by apply fill_hdr_ok.
  destruct (hdr_size_sealing td io num inc (v_rand_seed io) Hs) as [Ehs _]. fold h in Ehs.
  rewrite Ehs. fold t.
  cbn [mbind option_bind]. rewrite (wrap_small 32 (inc - _)) by (unfold uint in *; lia).
  destruct (populate_sum un t pre (hdr_bytes h) bsum data post inc Hun Hs) as (sum&Hgood&->);
    [by rewrite length_hdr_bytes|done|lia|done|].
  cbn [mbind option_bind].
  assert (Hsl : length (sealed td io num inc sum data) = length blk).
  { unfold sealed. rewrite !length_app, length_hdr_bytes, (proj1 Hgood). lia. }
  destruct (placed_total (o_verify_offset td) (hdr_len t) (sealed td io num inc sum data)) as [s' Hpl];
    [by rewrite Hsl|].
  exists sum, s'. split; [done|]. split; [done|].
  rewrite (proj2 (Z.eqb_neq (Z.of_nat (hdr_len t)) 0)) by lia. cbn [negb]. rewrite andb_true_r.
  by apply (placed_swap _ _ _ _ pre post _ Hpl); [lia|].
Qed.

(** The checks that do not compare with a pattern. *)
Definition checks_sum (td : vtd) : Prop :=
  has_sum (o_verify td) = true \/ o_verify td = VERIFY_HDR_ONLY /\ o_verify_pattern_bytes td = 0.

Lemma checks_sum_sealing td : checks_sum td -> sealing (o_verify td) = true.
Proof. intros [H|[-> _]]; [|done]. by destruct (o_verify td). Qed.

(** The data and the stored checksum that a check looks at. *)
Lemma verify_data_reads un td rio io num inc vh data pre post p (t := o_verify td) :
  has_sum t = true -> length vh = Z.to_nat (sum_size t) ->
  Z.of_nat (length data) = inc - Z.of_nat (hdr_len t) -> uint 32 inc ->
  p = Z.of_nat (length pre) -> p = num * inc -> uint 32 p ->
  v_buf rio = pre ++ sealed td io num inc vh data ++ post ->
  verify_data un td rio (__fill_hdr td io num inc (v_rand_seed io)) p num (vnum t) =
    (r ← verify_sum un t vh data; Some (r, td)).
Proof.
  intros Hhas Hsl Hdl Hu Hp Hnum Hup Hbuf.
  assert (Hs : sealing (o_verify td) = true) by (subst t; by destruct (o_verify td)).
  pose proof (sum_size_range t) as Hss.
  assert (Hhl : Z.of_nat (hdr_len t) = sum_size t + 40) by (unfold hdr_len, HDR_SIZE; lia).
  unfold verify_data. unfold t. rewrite vtype_of_vnum. fold t.
  destruct (hdr_size_sealing td io num inc (v_rand_seed io) Hs) as [Ehs _]. fold t in Ehs.
  set (h := __fill_hdr td io num inc (v_rand_seed io)) in *.
  assert (Hlen : h_len h = inc) by (by apply wrap_small).
  assert (Hr1 : mem_read (v_buf rio) (u32 (num * h_len h) + Z.of_nat (hdr_len t))
    (u32 (h_len h - Z.of_nat (hdr_len t))) = Some data).
  { rewrite Hlen, <- Hnum, !wrap_small by (unfold uint in *; lia). rewrite Hbuf. unfold sealed. fold h.
    replace (pre ++ (hdr_bytes h ++ vh ++ data) ++ post) with ((pre ++ hdr_bytes h ++ vh) ++ data ++ post)
      by (by rewrite <- !app_assoc).
    apply mem_read_mid; rewrite ?length_app, ?length_hdr_bytes; lia. }
  assert (Hr2 : mem_read (v_buf rio) (p + HDR_SIZE) (sum_size t) = Some vh).
  { rewrite Hbuf. unfold sealed. fold h.
    replace (pre ++ (hdr_bytes h ++ vh ++ data) ++ post) with ((pre ++ hdr_bytes h) ++ vh ++ data ++ post)
      by (by rewrite <- !app_assoc).
    apply mem_read_mid; rewrite ?length_app, ?length_hdr_bytes; unfold HDR_SIZE; lia. }
  assert (Hcase : forall t', t' = t ->
    (hs ← hdr_size td h;
     data ← mem_read (v_buf rio) (u32 (num * h_len h) + hs) (u32 (h_len h - hs));
     vh ← mem_read (v_buf rio) (p + HDR_SIZE) (sum_size t');
     r ← verify_sum un t' vh data; Some (r, td)) = (r ← verify_sum un t' vh data; Some (r, td))).
  { intros t' ->. rewrite Ehs. cbn [mbind option_bind]. rewrite Hr1. cbn [mbind option_bind].
    by rewrite Hr2. }
  clear Hr1 Hr2 Ehs. clearbody h. subst t. destruct (o_verify td); try discriminate Hhas; by apply Hcase.
Qed.

(** A block whose header is intact: the header passes, and the code is that of
    the check of the data. *)
Lemma verify_block_reads un td io rio pre s' post num inc vh data p r (t := o_verify td)
    (h := __fill_hdr td io num inc (v_rand_seed io))
    (rio' := seed_for td h (set_buf rio (pre ++ sealed td io num inc vh data ++ post))) :
  sealing t = true -> same_unit td io rio -> uint 32 inc ->
  placed (o_verify_offset td) (hdr_len t) (sealed td io num inc vh data) s' ->
  p = Z.of_nat (length pre) -> v_buf rio = pre ++ s' ++ post ->
  verify_data un td rio' h p num (vnum t) = Some (r, td) ->
  verify_block un td rio p num inc = Some (inl (td, rio', r)).
Proof.
  intros Hs Hsame Hu Hpl Hp Hbuf Hd. pose proof (sum_size_range t) as Hss.
  assert (Hhl : Z.of_nat (hdr_len t) = sum_size t + 40) by (unfold hdr_len, HDR_SIZE; lia).
  assert (Hno : o_verify td <> VERIFY_PATTERN_NO_HDR) by (intros E; subst t; by rewrite E in Hs).
  assert (Hnn : o_verify td <> VERIFY_NONE) by (intros E; subst t; by rewrite E in Hs).
  destruct (hdr_size_sealing td io num inc (v_rand_seed io) Hs) as [_ Ehs].
  unfold verify_block. rewrite Ehs. cbn [mbind option_bind]. fold t.
  rewrite Hbuf, (placed_swap _ _ _ _ pre post p (placed_sym _ _ _ _ Hpl)) by lia. cbn [mbind option_bind].
  rewrite !(decide_False (P := o_verify td = VERIFY_PATTERN_NO_HDR)) by done.
  assert (Hm : mem_read (pre ++ sealed td io num inc vh data ++ post) p HDR_SIZE = Some (hdr_bytes h)).
  { unfold sealed. rewrite <- !app_assoc. apply mem_read_mid; [done|]. by rewrite length_hdr_bytes. }
  unfold hdr_at. rewrite Hm. cbn [mbind option_bind]. rewrite hdr_of_bytes by apply fill_hdr_ok.
  assert (Hio : forall io', (if o_verifysort td || td_ver_backlog td then Some (set_seed io' (h_rand_seed h)) else Some io') =
                Some (seed_for td h io')) by (intros; unfold seed_for; by destruct (o_verifysort td || td_ver_backlog td)).
  rewrite Hio. cbn [mbind option_bind]. cbn zeta. fold rio'.
  rewrite !(decide_False (P := o_verify td = VERIFY_PATTERN_NO_HDR)) by done.
  assert (Hsame' : same_unit td io (set_buf rio (pre ++ sealed td io num inc vh data ++ post)))
    by (by destruct Hsame; split).
  pose proof (verify_header_accepts td io _ num inc Hsame' Hu) as Hacc. fold h rio' in Hacc.
  rewrite Hacc. change (negb (0 =? 0)) with false. cbv iota.
  rewrite (decide_False (P := o_verify td = VERIFY_NONE)) by done. fold t. by rewrite Hd.
Qed.

Lemma seed_for_buf td h rio : v_buf (seed_for td h rio) = v_buf rio.
Proof. unfold seed_for. by destruct (o_verifysort td || td_ver_backlog td). Qed.

Lemma verify_block_mid un td io rio pre s' post num inc sum data p (t := o_verify td)
    (h := __fill_hdr td io num inc (v_rand_seed io)) :
  uninit_ok un -> checks_sum td -> same_unit td io rio -> uint 32 inc -> sum_good t sum data ->
  Z.of_nat (length data) = inc - Z.of_nat (hdr_len t) ->
  placed (o_verify_offset td) (hdr_len t) (sealed td io num inc sum data) s' ->
  p = Z.of_nat (length pre) -> p = num * inc -> uint 32 p -> v_buf rio = pre ++ s' ++ post ->
  verify_block un td rio p num inc =
    Some (inl (td, seed_for td h (set_buf rio (pre ++ sealed td io num inc sum data ++ post)), 0)).
Proof.
  intros Hun Hc Hsame Hu [Hsl Hgood] Hdl Hpl Hp Hnum Hup Hbuf.
  apply (verify_block_reads un td io rio pre s' post num inc sum data p 0); try done.
  - by apply checks_sum_sealing.
  - destruct Hc as [Hhas|[E Hpb]].
    + rewrite (verify_data_reads un td _ io num inc sum data pre post p);
        [|done..|by rewrite seed_for_buf]. fold t. by rewrite Hgood.
    + unfold verify_data. rewrite vtype_of_vnum, E, Hpb. done.
Qed.
