(* ===== verification/VerifyRun.v ===== *)
(** * VerifyRun: what the verification of a unit shows

    A unit that [populate_verify_io_u] has sealed and that reads back unchanged
    passes [verify_io_u], for every type with a checksum; a changed byte is
    found by the CRC types; and what the checks do not see: the middle of a
    [VERIFY_SHA512] block, and a bad block followed by a good one when
    [verify_fatal] is off. *)
From S2P Require Import Prelude Crc Xxhash Digest Md5 Sha1 Sha2 Sha256 Sha512 Sha3 Pattern Rand Verify VerifyInv.

(** ** Buffers as blocks *)
Lemma split_blocks n inc : forall b : list Z, (n * inc <= length b)%nat ->
  exists blks rest, b = concat blks ++ rest /\ length blks = n /\
    Forall (fun blk => length blk = inc) blks.
Proof.
  induction n as [|n IH]; intros b Hb; [exists [], b; done|]. cbn [Nat.mul] in Hb.
  destruct (IH (drop inc b)) as (blks&rest&E&Hn&Hall); [rewrite length_drop; lia|].
  exists (take inc b :: blks), rest. cbn [concat length].
  rewrite <- app_assoc, <- E, take_drop. split; [done|]. split; [lia|].
  constructor; [rewrite length_take; lia|done].
Qed.

Section unit.
  Context (td : vtd) (io : vio) (inc : Z).
  Local Notation t := (o_verify td).

(** [s'] is block [k] of the unit, sealed and placed. *)
Definition good_block (k : Z) (s' : list Z) : Prop :=
  exists sum data, sum_good t sum data /\ Z.of_nat (length data) = inc - Z.of_nat (hdr_len t) /\
    placed (o_verify_offset td) (hdr_len t) (sealed td io k inc sum data) s'.

Fixpoint good_blocks (k : Z) (bs : list (list Z)) : Prop :=
  match bs with
  | [] => True
  | s' :: bs => good_block k s' /\ good_blocks (k + 1) bs
  end.

Record geometry (n : nat) : Prop := {
  g_inc : 0 < inc;
  g_hdr : Z.of_nat (hdr_len t) <= inc;
  g_len : v_buflen io = Z.of_nat n * inc;
  g_max : v_buflen io + 256 <= 2 ^ 31;
  g_off : offset_ok (o_verify_offset td) (hdr_len t) (Z.to_nat inc);
  g_512 : t = VERIFY_SHA512 -> 128 + Z.of_nat (hdr_len t) <= inc
}.

Lemma good_block_length k s' : good_block k s' -> Z.of_nat (length s') = inc.
Proof.
  intros (sum&data&[Hsl _]&Hdl&Hpl). rewrite (placed_length _ _ _ _ Hpl). unfold sealed.
  pose proof (sum_size_range t). unfold hdr_len, HDR_SIZE in *.
  rewrite !length_app, length_hdr_bytes. lia.
Qed.

Lemma headers_loop_seals un n blks : forall fuel pre rest k,
  uninit_ok un -> sealing t = true -> geometry n ->
  Forall (fun blk : list Z => length blk = Z.to_nat inc) blks -> (length blks <= fuel)%nat ->
  Z.of_nat (length pre) = k * inc -> 0 <= k -> (k + Z.of_nat (length blks)) * inc = v_buflen io ->
  exists outs, headers_loop fuel un td io (pre ++ concat blks ++ rest) (k * inc) k inc =
      Some (pre ++ concat outs ++ rest) /\ good_blocks k outs /\ length outs = length blks.
Proof.
  induction blks as [|blk blks IH]; intros fuel pre rest k Hun Hs Hg Hall Hf Hpre Hk Hend.
  - exists []. destruct fuel; cbn [headers_loop]; rewrite (proj2 (Z.ltb_ge _ _)) by (simpl in Hend; lia); done.
  - pose proof Hg as [Hi Hh Hl Hm Ho H5]. apply Forall_cons_iff in Hall as [Hb Hall].
    cbn [length] in *. destruct fuel as [|fuel]; [lia|]. cbn [headers_loop].
    rewrite (proj2 (Z.ltb_lt _ _)) by nia. cbn [concat]. rewrite <- app_assoc.
    destruct (populate_hdr_mid un td io pre blk (concat blks ++ rest) k inc (k * inc))
      as (sum&s'&Hgood&Hpl&->); try done; try lia; [unfold uint; nia|by rewrite Hb| |].
    { split; [rewrite length_drop; lia|]. intros E. specialize (H5 E). rewrite length_drop. lia. }
    cbn [mbind option_bind].
    assert (Hgb : good_block k s') by (exists sum, (drop (hdr_len t) blk); repeat split;
      [apply Hgood|apply Hgood|rewrite length_drop; lia|done]).
    pose proof (good_block_length _ _ Hgb) as Hsl.
    rewrite (wrap_small 32 (k + 1)) by (unfold uint; nia).
    replace (k * inc + inc) with ((k + 1) * inc) by lia.
    destruct (IH fuel (pre ++ s') rest (k + 1)) as (outs&E&Hgs&Hlen); try done; try lia;
      [rewrite length_app; lia|].
    rewrite <- !app_assoc in E. rewrite E. exists (s' :: outs). cbn [concat good_blocks length].
    rewrite <- app_assoc. repeat split; done || lia.
Qed.

Lemma seed_for_same h rio : same_unit td io rio -> same_unit td io (seed_for td h rio).
Proof.
  intros [H1 H2 H3 H4]. unfold seed_for. destruct (o_verifysort td || td_ver_backlog td) eqn:E;
    split; simpl; auto. destruct H3; [done|by right].
Qed.

(** Good blocks take the loop to the block after them. *)
Lemma verify_loop_prefix un n outs : forall fuel pre rest k rio,
  uninit_ok un -> checks_sum td -> geometry n -> same_unit td io rio -> good_blocks k outs ->
  v_buf rio = pre ++ concat outs ++ rest ->
  Z.of_nat (length pre) = k * inc -> 0 <= k -> (k + Z.of_nat (length outs)) * inc <= v_buflen io ->
  exists rio' pre', verify_loop (length outs + fuel) un td rio (k * inc) k inc 0 =
      verify_loop fuel un td rio' ((k + Z.of_nat (length outs)) * inc) (k + Z.of_nat (length outs)) inc 0 /\
    same_unit td io rio' /\ v_buf rio' = pre' ++ rest /\
    Z.of_nat (length pre') = (k + Z.of_nat (length outs)) * inc.
Proof.
  induction outs as [|s' outs IH]; intros fuel pre rest k rio Hun Hc Hg Hsame Hgs Hbuf Hpre Hk Hend.
  - exists rio, pre. cbn [length Nat.add]. rewrite Z.add_0_r. done.
  - pose proof Hg as [Hi Hh Hl Hm Ho H5]. pose proof (su_buflen _ _ _ Hsame) as Hbl.
    cbn [good_blocks length] in *. destruct Hgs as [Hgb Hgs].
    pose proof (good_block_length _ _ Hgb) as Hsl. destruct Hgb as (sum&data&Hgood&Hdl&Hpl).
    cbn [Nat.add verify_loop].
    rewrite (proj2 (Z.ltb_lt _ _)) by nia. change (negb (0 =? 0)) with false. cbn [andb].
    cbn [concat] in Hbuf. rewrite <- app_assoc in Hbuf.
    rewrite (verify_block_mid un td io rio pre s' (concat outs ++ rest) k inc sum data (k * inc));
      try done; try lia; [|unfold uint; nia..].
    cbn [mbind option_bind]. rewrite (wrap_small 32 (k + 1)) by (unfold uint; nia).
    replace (k * inc + inc) with ((k + 1) * inc) by lia.
    destruct (IH fuel (pre ++ sealed td io k inc sum data) rest (k + 1)
      (seed_for td (__fill_hdr td io k inc (v_rand_seed io))
        (set_buf rio (pre ++ sealed td io k inc sum data ++ concat outs ++ rest)))) as (rio'&pre'&E&Hs'&Hb'&Hp');
      try done; try lia.
    + apply seed_for_same. by destruct Hsame; split.
    + rewrite seed_for_buf. cbn [v_buf set_buf]. by rewrite <- !app_assoc.
    + rewrite length_app. rewrite <- (placed_length _ _ _ _ Hpl). lia.
    + exists rio', pre'. rewrite E. replace (k + Z.of_nat (S (length outs))) with (k + 1 + Z.of_nat (length outs)) by lia.
      done.
Qed.

Lemma verify_loop_accepts un n outs fuel rest rio :
  uninit_ok un -> checks_sum td -> geometry n -> same_unit td io rio -> good_blocks 0 outs ->
  (length outs <= fuel)%nat -> v_buf rio = concat outs ++ rest ->
  Z.of_nat (length outs) * inc = v_buflen io ->
  exists rio', verify_loop fuel un td rio 0 0 inc 0 = Some (td, rio', 0, false).
Proof.
  intros Hun Hc Hg Hsame Hgs Hf Hbuf Hend.
  destruct (verify_loop_prefix un n outs (fuel - length outs) [] rest 0 rio) as (rio'&pre'&E&Hs&_&_);
    try done; try lia.
  replace (length outs + (fuel - length outs))%nat with fuel in E by lia. rewrite Z.mul_0_l in E.
  exists rio'. rewrite E. pose proof (su_buflen _ _ _ Hs) as Hbl.
  destruct (fuel - length outs)%nat; cbn [verify_loop]; rewrite (proj2 (Z.ltb_ge _ _)) by lia; done.
Qed.
End unit.

(** ** Filling keeps the buffer a buffer

    The same number of cells, and bytes if the patterns ([P]) and the buffer
    were bytes. *)
Definition keeps (P : Prop) (b b' : list Z) : Prop :=
  length b' = length b /\ (P -> Forall (uint 8) b -> Forall (uint 8) b').

Lemma keeps_refl P b : keeps P b b.
Proof. by split. Qed.

Lemma keeps_trans P a b c : keeps P a b -> keeps P b c -> keeps P a c.
Proof. intros [H1 H2] [H3 H4]. split; [lia|auto]. Qed.

Lemma mem_write_keeps (P : Prop) b off src b' :
  (P -> Forall (uint 8) b -> Forall (uint 8) src) -> mem_write b off src = Some b' -> keeps P b b'.
Proof.
  intros Hs Hw. split; [by eapply mem_write_length|]. intros HP Hb. specialize (Hs HP Hb).
  apply list.Forall_lookup. intros i x Hx. rewrite (mem_write_lookup _ _ _ _ _ Hw) in Hx.
  destruct (decide _); [exact (list.Forall_lookup_1 _ _ _ _ Hs Hx)|exact (list.Forall_lookup_1 _ _ _ _ Hb Hx)].
Qed.

Lemma mem_read_bytes b off n l : mem_read b off n = Some l -> Forall (uint 8) b -> Forall (uint 8) l.
Proof.
  unfold mem_read. destruct (_ && _); [|done]. intros [= <-] Hb. by apply Forall_take, Forall_drop.
Qed.

Lemma fill_loop_keeps P fuel : forall b ptr len seed b',
  fill_loop fuel b ptr len seed = Some b' -> keeps P b b'.
Proof.
  induction fuel as [|fuel IH]; intros b ptr len seed b' Hl; cbn [fill_loop] in Hl;
    (destruct (len =? 0); [injection Hl as <-; apply keeps_refl|]); [done|].
  inv_opt. eapply keeps_trans; [|by eapply IH]. eapply mem_write_keeps; [|done].
  intros _ _. apply le_bytes_uint.
Qed.

Lemma dup_pattern_keeps P o out_len n o' : dup_pattern o out_len n = Some o' -> keeps P o o'.
Proof.
  unfold dup_pattern. destruct (_ <=? _); [intros [= <-]; apply keeps_refl|].
  generalize (Z.to_nat out_len) (out_len - n). intros fuel. revert o n.
  induction fuel as [|fuel IH]; intros o off left Hl; cbn [dup_loop] in Hl;
    (destruct (left =? 0); [injection Hl as <-; apply keeps_refl|]); [done|].
  inv_opt. eapply keeps_trans; [|by eapply IH]. eapply mem_write_keeps; [|done].
  intros _ Ho. by eapply mem_read_bytes.
Qed.

Lemma cpy_pattern_keeps (P : Prop) pat n o out_len rc o' : (P -> Forall (uint 8) pat) ->
  cpy_pattern pat n o out_len = Some (rc, o') -> keeps P o o'.
Proof.
  intros Hp. unfold cpy_pattern. destruct (_ || _); [intros [= _ <-]; apply keeps_refl|]. intros Hc. inv_opt.
  eapply keeps_trans; [|by eapply dup_pattern_keeps]. eapply mem_write_keeps; [|done].
  intros HP _. eapply mem_read_bytes; [done|auto].
Qed.

Lemma fill_quiet_keeps (P : Prop) b ptr len pat n b' : (P -> Forall (uint 8) pat) ->
  fill_quiet b ptr len pat n = Some b' -> keeps P b b'.
Proof.
  intros Hp. unfold fill_quiet. destruct (negb _).
  - intros Hq. apply bind_Some_inv in Hq as (win&E&Hq). apply bind_Some_inv in Hq as ([rc win']&Ec&Hw).
    eapply mem_write_keeps; [|exact Hw]. intros HP Hb.
    destruct (cpy_pattern_keeps P _ _ _ _ _ _ Hp Ec) as [_ Hk]. apply Hk; [done|].
    by eapply mem_read_bytes.
  - apply mem_write_keeps. intros _ _. apply Forall_replicate. unfold uint. lia.
Qed.

Lemma percentage_loop_keeps (P : Prop) fuel : forall seed b ptr pc seg len pat n b',
  (P -> Forall (uint 8) pat) ->
  percentage_loop fuel seed b ptr pc seg len pat n = Some b' -> keeps P b b'.
Proof.
  induction fuel as [|fuel IH]; intros seed b ptr pc seg len pat n b' Hp Hl; cbn [percentage_loop] in Hl;
    (destruct (len =? 0); [injection Hl as <-; apply keeps_refl|]); [done|].
  cbn zeta in Hl. inv_opt. eapply keeps_trans; [by eapply fill_loop_keeps|].
  match type of Hl with (if ?c then _ else _) = _ => destruct c end; [injection Hl as <-; apply keeps_refl|].
  inv_opt. eapply keeps_trans; [by eapply fill_quiet_keeps|]. by eapply IH.
Qed.

Lemma fill_percentage_keeps (P : Prop) fuel seed b pc seg len pat n b' : (P -> Forall (uint 8) pat) ->
  __fill_random_buf_percentage fuel seed b pc seg len pat n = Some b' -> keeps P b b'.
Proof.
  intros Hp. unfold __fill_random_buf_percentage.
  destruct (_ =? 100); [by apply fill_quiet_keeps|by apply percentage_loop_keeps].
Qed.

Lemma paste_loop_keeps P fmt : forall pat n rc pat',
  (forall f win, f ∈ fmt -> keeps P win (fd_paste (pf_desc f) win).2) ->
  paste_loop pat n fmt = Some (rc, pat') -> keeps P pat pat'.
Proof.
  induction fmt as [|f fmt IH]; intros pat n rc pat' Hp Hl; cbn [paste_loop] in Hl;
    [injection Hl as _ <-; apply keeps_refl|].
  destruct (n <=? pf_off f); [injection Hl as _ <-; apply keeps_refl|]. cbn zeta in Hl.
  apply bind_Some_inv in Hl as (win&Er&Hl).
  specialize (Hp f win ltac:(by apply elem_of_cons; left)) as Hk.
  destruct (fd_paste _ _) as [rc1 win1]. cbn [snd] in Hk.
  apply bind_Some_inv in Hl as (pat1&Ew&Hl).
  assert (keeps P pat pat1).
  { eapply mem_write_keeps; [|done]. intros HP Hb. apply Hk; [done|]. by eapply mem_read_bytes. }
  destruct (negb _); [by injection Hl as _ <-|]. eapply keeps_trans; [done|].
  eapply IH; [|done]. intros. apply Hp. by apply elem_of_cons; right.
Qed.

Lemma paste_blockoff_keeps P off win : keeps P win (paste_blockoff off win).2.
Proof.
  split; cbn [paste_blockoff snd].
  - rewrite length_app, length_take, length_drop, length_le_bytes. lia.
  - intros _ Hw. apply Forall_app. split; [apply Forall_take, le_bytes_uint|by apply Forall_drop].
Qed.

Definition job_bytes (td : vtd) : Prop :=
  Forall (uint 8) (o_verify_pattern td) /\ Forall (uint 8) (o_buffer_pattern td).

Lemma paste_format_keeps td io o out_len rc o' :
  paste_format (o_verify_pattern td) (o_verify_pattern_bytes td) (verify_fmt td io) o out_len = Some (rc, o') ->
  keeps (job_bytes td) o o'.
Proof.
  unfold paste_format. destruct (_ || _); [intros [= _ <-]; apply keeps_refl|]. intros Hf. cbn zeta in Hf.
  apply bind_Some_inv in Hf as (src&Er&Hf). apply bind_Some_inv in Hf as (o1&Ew&Hf).
  apply bind_Some_inv in Hf as ([rc1 o2]&Ei&Hf).
  assert (Hk1 : keeps (job_bytes td) o o1).
  { eapply mem_write_keeps; [|done]. intros [Hp _] _. by eapply mem_read_bytes. }
  assert (Hk2 : keeps (job_bytes td) o1 o2).
  { unfold paste_format_inplace in Ei. destruct (_ =? 0); [injection Ei as _ <-; apply keeps_refl|].
    eapply paste_loop_keeps; [|eassumption]. intros f win Hin. unfold verify_fmt in Hin.
    apply list_elem_of_fmap in Hin as (off&->&_). apply paste_blockoff_keeps. }
  pose proof (keeps_trans _ _ _ _ Hk1 Hk2) as Hk. destruct (negb _); [by injection Hf as _ <-|]. inv_opt.
  eapply keeps_trans; [done|]. by eapply dup_pattern_keeps.
Qed.

(** What the fill leaves alone. *)
Lemma fill_verify_pattern_keeps td io len seed us td1 io1 :
  fill_verify_pattern td io len seed us = Some (td1, io1) ->
  keeps (job_bytes td) (v_buf io) (v_buf io1) /\ v_buflen io1 = v_buflen io /\ v_offset io1 = v_offset io /\
  v_numberio io1 = v_numberio io /\ (td1 = td \/ exists fs, td1 = set_verify_state td fs).
Proof.
  unfold fill_verify_pattern. destruct (o_verify_pattern_bytes td =? 0).
  - destruct us; intros Hf.
    + apply bind_Some_inv in Hf as (b&Ef&Hf). injection Hf as <- <-. cbn. split; [|eauto].
      eapply fill_percentage_keeps; [|exact Ef]. by intros [_ Hb].
    + apply bind_Some_inv in Hf as ([[td2 b] r]&Ef&Hf). injection Hf as <- <-. cbn.
      unfold fill_buffer in Ef. apply bind_Some_inv in Ef as ([[fs b2] r2]&Ef&E). injection E as <- <- <-.
      split; [|eauto 6]. unfold fill_random_buf_percentage in Ef. destruct (fill_seed _) as [fs' r'].
      apply bind_Some_inv in Ef as (b3&Ef&E). injection E as _ <- _.
      eapply fill_percentage_keeps; [|exact Ef]. by intros [_ Hb].
  - destruct ((length (o_verify_fmt td) =? 0)%nat && (len <=? v_buf_filled_len io)); intros Hf;
      [injection Hf as <- <-; by auto 10 using keeps_refl|].
    apply bind_Some_inv in Hf as ([rc b]&Ef&Hf). injection Hf as <- <-. cbn. split; [|auto].
    by eapply paste_format_keeps.
Qed.

(** ** Sealing, then checking *)

(** The sizes the options guarantee: the unit is a number of whole blocks below
    2 GiB, a block has room for its header and, where it is moved, for the
    header at [verify_offset]; [VERIFY_SHA512] has a full block of data. *)
Record unit_ok (td : vtd) (io : vio) : Prop := {
  uo_room : v_buflen io <= Z.of_nat (length (v_buf io));
  uo_len : 0 < v_buflen io;
  uo_max : v_buflen io + 256 <= 2 ^ 31;
  uo_div : v_buflen io mod get_hdr_inc td io = 0;
  uo_hdr : Z.of_nat (hdr_len (o_verify td)) <= get_hdr_inc td io;
  uo_off : offset_ok (o_verify_offset td) (hdr_len (o_verify td)) (Z.to_nat (get_hdr_inc td io));
  uo_512 : o_verify td = VERIFY_SHA512 -> 128 + Z.of_nat (hdr_len (o_verify td)) <= get_hdr_inc td io
}.

Lemma unit_geometry td io : unit_ok td io ->
  exists n, geometry td io (get_hdr_inc td io) n /\ (n * Z.to_nat (get_hdr_inc td io) <= length (v_buf io))%nat.
Proof.
  intros [Hr Hl Hm Hd Hh Ho H5].
  assert (Hi : 0 < get_hdr_inc td io) by (pose proof (sum_size_range (o_verify td));
    unfold hdr_len, HDR_SIZE in Hh; lia).
  pose proof (Z.div_mod (v_buflen io) (get_hdr_inc td io) ltac:(lia)) as Hdm. rewrite Hd in Hdm.
  pose proof (Z.div_pos (v_buflen io) (get_hdr_inc td io)).
  exists (Z.to_nat (v_buflen io / get_hdr_inc td io)). split; [split; try done; lia|]. nia.
Qed.

(** The job after the fill differs in the state of its generator only. *)
Lemma unit_ok_fill td io len seed us td1 io1 :
  fill_verify_pattern td io len seed us = Some (td1, io1) -> unit_ok td io -> checks_sum td ->
  unit_ok td1 io1 /\ checks_sum td1 /\ td_fakeio td1 = td_fakeio td /\
  get_hdr_inc td1 io1 = get_hdr_inc td io.
Proof.
  intros Hf [] Hc. destruct (fill_verify_pattern_keeps _ _ _ _ _ _ _ Hf) as ([E1 _]&E2&E3&E4&Htd).
  assert (Hi : get_hdr_inc td1 io1 = get_hdr_inc td io)
    by (unfold get_hdr_inc; rewrite E2; by destruct Htd as [->|[fs ->]]).
  assert (Hv : o_verify td1 = o_verify td /\ o_verify_offset td1 = o_verify_offset td /\
    o_verify_pattern_bytes td1 = o_verify_pattern_bytes td /\ td_fakeio td1 = td_fakeio td)
    by (by destruct Htd as [->|[fs ->]]).
  destruct Hv as (Hv&Hoff&Hpb&Hfk). unfold checks_sum. rewrite Hv, Hpb.
  split; [|done]. split; rewrite ?Hi, ?Hv, ?Hoff, ?E1, ?E2; done.
Qed.

Lemma seal_then_verify un un' td io td1 io1 :
  uninit_ok un -> uninit_ok un' -> checks_sum td -> unit_ok td io -> td_fakeio td = false ->
  fill_verify_pattern td (set_numberio io (u16 (td_io_issues td))) (v_buflen io) 0 false = Some (td1, io1) ->
  exists b, populate_verify_io_u un td io = Some (td1, set_buf io1 b) /\
    (exists outs rest, b = concat outs ++ rest /\ good_blocks td1 io1 (get_hdr_inc td io) 0 outs /\
       Z.of_nat (length outs) * get_hdr_inc td io = v_buflen io) /\
    forall rio, same_unit td1 (set_buf io1 b) rio -> v_buf rio = b -> v_read rio = true -> v_trimmed rio = false ->
    exists v, verify_io_u un' td1 rio = Some v /\ vd_ret v = 0 /\ vd_terminate v = false.
Proof.
  intros Hun Hun' Hc Hok Hfk Hfill.
  assert (Hok0 : unit_ok td (set_numberio io (u16 (td_io_issues td)))) by (destruct Hok; by split).
  destruct (unit_ok_fill _ _ _ _ _ _ _ Hfill Hok0 Hc) as (Hok1&Hc1&Hfk1&Hinc).
  change (get_hdr_inc td (set_numberio io _)) with (get_hdr_inc td io) in Hinc.
  destruct (unit_geometry _ _ Hok1) as (n&Hg&Hroom). pose proof Hg as [Hi Hh Hl Hm Ho H5].
  assert (Hbl : v_buflen io1 = v_buflen io) by apply (fill_verify_pattern_keeps _ _ _ _ _ _ _ Hfill).
  destruct (split_blocks n (Z.to_nat (get_hdr_inc td1 io1)) (v_buf io1) Hroom) as (blks&rest&Hb&Hn&Hall).
  destruct (headers_loop_seals td1 io1 (get_hdr_inc td1 io1) un n blks (Z.to_nat (v_buflen io1)) [] rest 0)
    as (outs&E&Hgs&Hlo); try done; try lia; [by apply checks_sum_sealing|nia|].
  cbn [app] in E. rewrite Z.mul_0_l in E.
  exists (concat outs ++ rest). split; [|split].
  - unfold populate_verify_io_u. destruct (decide (o_verify td = VERIFY_NULL)) as [Ev|_].
    { destruct Hc as [Hc|[Hc _]]; by rewrite Ev in Hc. }
    unfold fill_pattern_headers. change (v_buflen (set_numberio io _)) with (v_buflen io).
    rewrite Hfill. cbn [mbind option_bind]. rewrite Hb, E. done.
  - exists outs, rest. rewrite <- Hinc. repeat split; [done|]. rewrite Hlo, Hn. lia.
  - intros rio Hsame Hbuf Hrd Htr.
    assert (Hsame1 : same_unit td1 io1 rio) by (destruct Hsame; by split).
    unfold verify_io_u. destruct (decide (o_verify td1 = VERIFY_NULL)) as [Ev|_].
    { destruct Hc1 as [Hc1|[Hc1 _]]; by rewrite Ev in Hc1. }
    rewrite Hrd, Hfk1, Hfk, Htr. cbn [negb].
    assert (get_hdr_inc td1 rio = get_hdr_inc td1 io1) as ->
      by (unfold get_hdr_inc; by rewrite (su_buflen _ _ _ Hsame1)).
    destruct (verify_loop_accepts td1 io1 (get_hdr_inc td1 io1) un' n outs (Z.to_nat (v_buflen rio)) rest rio)
      as (rio'&Ev); try done; try lia; [rewrite (su_buflen _ _ _ Hsame1); nia|].
    rewrite Ev. cbn [mbind option_bind]. eexists. split; [done|]. done.
Qed.

(** *** The fill succeeds *)

(** The options the fill relies on: a data pattern shorter than its array, and a
    random part of at least a byte, or a verify pattern that is there. *)
Definition fill_ok (td : vtd) (io : vio) : Prop :=
  if o_verify_pattern_bytes td =? 0 then
    0 <= o_buffer_pattern_bytes td <= Z.of_nat (length (o_buffer_pattern td)) /\
    (o_compress_percentage td = 100 \/ 0 < chunk (v_buflen io) (o_compress_percentage td))
  else 0 < o_verify_pattern_bytes td <= Z.of_nat (length (o_verify_pattern td)) /\ Forall (fun off => 0 <= off) (o_verify_fmt td).

Lemma paste_loop_total n io : forall fmts b, Forall (fun off => 0 <= off) fmts -> n <= Z.of_nat (length b) ->
  exists b', paste_loop b n (map (fun off => Fmt off (FmtDesc [0x25; 0x6f] 8 (paste_blockoff (v_offset io)))) fmts) = Some (0, b') /\ length b' = length b.
Proof.
  induction fmts as [|off fmts IH]; intros b Hf Hn; [by exists b|]. apply Forall_cons_iff in Hf as [Ho Hf]. cbn [map paste_loop pf_off pf_desc fd_len fd_paste].
  destruct (Z.leb_spec n off); [by exists b|]. rewrite mem_read_Some by lia. cbn [mbind option_bind]. set (w := take _ _).
  assert (Hw : Z.of_nat (length w) = Z.min (n - off) 8) by (unfold w; rewrite length_take, length_drop; lia).
  change (paste_blockoff (v_offset io) w) with (0, take (Nat.min (length w) 8) (le_bytes 8 (v_offset io)) ++ drop (Nat.min (length w) 8) w). cbv iota beta.
  rewrite mem_write_Some by (rewrite ?length_app, ?length_take, ?length_drop, ?length_le_bytes; lia). cbn [mbind option_bind]. change (negb (0 =? 0)) with false. cbv iota.
  edestruct (IH (list_inserts (Z.to_nat off) (take (Nat.min (length w) 8) (le_bytes 8 (v_offset io)) ++ drop (Nat.min (length w) 8) w) b) Hf) as (b' & E & Hl); [by rewrite length_inserts|].
  exists b'. rewrite E. by rewrite length_inserts in Hl.
Qed.

Lemma paste_format_total pattern n fmts io b len : 0 < n <= Z.of_nat (length pattern) -> Forall (fun off => 0 <= off) fmts -> 0 < len < 2 ^ 32 -> len <= Z.of_nat (length b) ->
  exists r, paste_format pattern n (map (fun off => Fmt off (FmtDesc [0x25; 0x6f] 8 (paste_blockoff (v_offset io)))) fmts) b len = Some r.
Proof.
  intros Hn Hf Hl Hb. unfold paste_format, paste_format_inplace. rewrite (proj2 (Z.eqb_neq n 0)), (proj2 (Z.eqb_neq len 0)) by lia. cbn [orb].
  destruct (copy_head_spec pattern b n len) as (src & o & -> & Hw & Hlo & _); [lia..|]. cbn [mbind option_bind]. rewrite Hw. cbn [mbind option_bind].
  rewrite (proj2 (Z.eqb_neq (Z.min n len) 0)) by lia. destruct (paste_loop_total (Z.min n len) io fmts o Hf) as (o2 & -> & Hl2); [lia|]. cbn [mbind option_bind]. change (negb (0 =? 0)) with false. cbv iota.
  destruct (dup_pattern_spec o2 o2 len n) as (o3 & -> & _); [lia|lia|lia|intros i Hi; by rewrite periodic_small by lia|]. by eexists.
Qed.

Lemma fill_total td io : unit_ok td io -> fill_ok td io ->
  exists td1 io1, fill_verify_pattern td (set_numberio io (u16 (td_io_issues td))) (v_buflen io) 0 false = Some (td1, io1).
Proof.
  intros [Hr Hl Hm _ _ _ _] Hf. unfold fill_verify_pattern, fill_ok in *. destruct (o_verify_pattern_bytes td =? 0).
  - destruct Hf as [Hp Hc]. unfold fill_buffer, fill_random_buf_percentage. destruct (fill_seed _) as [fs r]. cbn [v_buf set_numberio].
    destruct (fill_percentage_ends r (v_buf io) (o_compress_percentage td) (v_buflen io) (v_buflen io) (o_buffer_pattern td) (o_buffer_pattern_bytes td)) as (o & -> & _);
      [rewrite Z.min_id; destruct Hc; [left|right]; (done || lia)|lia|lia|lia|]. cbn [mbind option_bind]. by eexists _, _.
  - destruct Hf as [Hp Hf]. destruct (_ && _); [by eexists _, _|]. unfold verify_fmt. cbn [v_buf v_offset set_numberio].
    destruct (paste_format_total (o_verify_pattern td) (o_verify_pattern_bytes td) (o_verify_fmt td) io (v_buf io) (v_buflen io)) as ([rc o] & E); [lia|done|lia|lia|].
    cbn [v_offset set_numberio] in *. rewrite E. cbn [mbind option_bind]. by eexists _, _.
Qed.

(** C4. A unit that [populate_verify_io_u] fills and seals, and that is read back
    unchanged, passes [verify_io_u]: for every type with a data checksum (and for
    [verify=meta] without a pattern), a unit of a whole number of blocks below 2 GiB,
    a [verify_offset] of 0 or one at which the header with its checksum fits into
    the block without touching its first place, at least 128 bytes of data per
    block for SHA-512, and whatever the uninitialised memory of either side holds.
    No access leaves the buffer and no assertion fails on the way.  (The fill needs
    a pattern within its array, or a random byte besides the compressible ones.) *)
Theorem verify_roundtrip un un' td io :
  uninit_ok un -> uninit_ok un' -> checks_sum td -> unit_ok td io -> td_fakeio td = false -> fill_ok td io ->
  exists td1 io2, populate_verify_io_u un td io = Some (td1, io2) /\
    forall rio, same_unit td1 io2 rio -> v_buf rio = v_buf io2 -> v_read rio = true -> v_trimmed rio = false ->
    exists v, verify_io_u un' td1 rio = Some v /\ vd_ret v = 0 /\ vd_terminate v = false.
Proof.
  intros Hun Hun' Hc Hok Hfk Hfill. destruct (fill_total td io Hok Hfill) as (td1 & io1 & Hf).
  destruct (seal_then_verify un un' td io td1 io1 Hun Hun' Hc Hok Hfk Hf) as (b&E&_&Hv).
  exists td1, (set_buf io1 b). split; [done|]. intros rio Hs Hb. by apply Hv.
Qed.

(** ** A job to try it on *)
Definition demo_un (x : Z) : uninit := Uninit (replicate 128 x) (replicate 16 x).

(** Two blocks of [inc] bytes at offset 8192. *)
Definition demo_td (t : verify_type) (inc off : Z) (fatal : bool) : vtd :=
  Vtd t inc off [] 0 [] fatal false false 1 false false true 0 [] 0 true (2 * inc) (2 * inc) false false 3 17
    (init_rand_seed 7 true).
Definition demo_io (inc : Z) : vio := Vio (replicate (Z.to_nat (2 * inc)) 0) (2 * inc) 8192 0 0 11 22 0 false false.

(** The unit as it is read back, with [b] in its buffer. *)
Definition read_back (io : vio) (b : list Z) : vio :=
  Vio b (v_buflen io) (v_offset io) (u64 (v_rand_seed io)) (u16 (v_numberio io)) 0 0 0 true false.

Lemma read_back_same td io b : same_unit td io (read_back io b).
Proof. split; [done..|by right|done]. Qed.

Lemma demo_un_ok x : uninit_ok (demo_un x).
Proof. by split. Qed.

Lemma demo_ok t inc off fatal : hdr_len t = 44%nat -> t <> VERIFY_SHA512 -> 88 <= inc <= 65536 ->
  off = 0 \/ 44 <= off /\ off + 44 <= inc -> unit_ok (demo_td t inc off fatal) (demo_io inc).
Proof.
  intros Ht H5 Hi Ho.
  assert (Hinc : get_hdr_inc (demo_td t inc off fatal) (demo_io inc) = inc).
  { unfold get_hdr_inc. cbn. rewrite (proj2 (Z.eqb_neq _ _)), (proj2 (Z.leb_le _ _)) by lia. done. }
  split; rewrite ?Hinc; cbn [demo_io demo_td v_buflen v_buf o_verify o_verify_offset];
    rewrite ?length_replicate, ?Ht; try lia; try done.
  - by rewrite Z.mod_mul by lia.
  - unfold offset_ok. destruct Ho as [->|Ho]; [by left|right; lia].
Qed.

(** What the fill makes of the demonstration unit. *)
Definition demo_fill (td : vtd) (io : vio) : option (vtd * vio) :=
  fill_verify_pattern td (set_numberio io (u16 (td_io_issues td))) (v_buflen io) 0 false.

Lemma demo_fill_crc off fatal : exists td1 io1, demo_fill (demo_td VERIFY_CRC32C 128 off fatal) (demo_io 128) = Some (td1, io1).
Proof.
  assert (E : match demo_fill (demo_td VERIFY_CRC32C 128 off fatal) (demo_io 128) with
              | Some _ => true | None => false end = true) by (vm_compute; reflexivity).
  destruct (demo_fill _ _) as [[td1 io1]|]; [eauto|discriminate E].
Qed.

Lemma demo_fills off fatal : fill_ok (demo_td VERIFY_CRC32C 128 off fatal) (demo_io 128).
Proof. split; [cbn; lia|]. right. vm_compute. reflexivity. Qed.

Lemma verify_roundtrip_witness :
  exists td1 io2 v, populate_verify_io_u (demo_un 1) (demo_td VERIFY_CRC32C 128 60 false) (demo_io 128) =
      Some (td1, io2) /\
    verify_io_u (demo_un 2) td1 (read_back io2 (v_buf io2)) = Some v /\ vd_ret v = 0.
Proof.
  destruct (verify_roundtrip (demo_un 1) (demo_un 2) (demo_td VERIFY_CRC32C 128 60 false) (demo_io 128)
    (demo_un_ok 1) (demo_un_ok 2) (or_introl eq_refl)
    (demo_ok VERIFY_CRC32C 128 60 false eq_refl ltac:(discriminate) ltac:(lia) ltac:(lia)) eq_refl (demo_fills 60 false))
    as (td1&io2&Ep&Hv).
  destruct (Hv (read_back io2 (v_buf io2)) (read_back_same _ _ _) eq_refl eq_refl eq_refl) as (v&Ev&Hr&_).
  exists td1, io2, v. exact (conj Ep (conj Ev Hr)).
Defined.
