(* ===== verification/VerifyDetect.v ===== *)
(** * VerifyDetect: what the verification of a unit finds

    A unit that has been sealed and comes back with one byte changed fails
    [verify_io_u], wherever the byte is: in the header, which has a CRC of its
    own, in the stored checksum, or in the data, for the types whose checksum
    finds every one-byte error. *)
From S2P Require Import Prelude Crc Xxhash Digest Md5 Sha1 Sha2 Sha256 Sha512 Sha3 Pattern Rand Verify VerifyInv VerifyRun.

(** ** One changed byte *)

(** The types whose checksum finds every change of one byte. *)
Definition crc_type (t : verify_type) : bool :=
  match t with VERIFY_CRC16 | VERIFY_CRC32C | VERIFY_CRC32C_INTEL | VERIFY_CRC64 => true | _ => false end.

(** ** A changed header *)
Lemma verify_header_code td io m num inc :
  (verify_header_ok td io m num inc = 0 /\ crc32c_sw (take 36 m) = h_crc32 (hdr_of m)) \/
  verify_header_ok td io m num inc = EILSEQ.
Proof.
  unfold verify_header_ok. cbn zeta. repeat (match goal with |- context [if ?c then EILSEQ else _] =>
    destruct c eqn:?; [by right|] end).
  left. split; [done|]. by apply negb_false_iff, Z.eqb_eq in Heqb4.
Qed.

Lemma header_change_found td io num inc seed hb rio :
  one_byte (hdr_bytes (__fill_hdr td io num inc seed)) hb ->
  verify_header_ok td rio hb num inc = EILSEQ.
Proof.
  set (h := __fill_hdr td io num inc seed). intros Hob.
  destruct (verify_header_code td rio hb num inc) as [[_ Hcrc]|]; [exfalso|done].
  assert (Hh : h_crc32 h = crc32c_sw (hdr_head h)) by (rewrite <- hdr_head_take; apply fill_hdr_crc).
  assert (Hval : le_val (le_bytes 4 (h_crc32 h)) = h_crc32 h)
    by (apply (le_val_uint 4 32); [done|rewrite Hh; apply crc32c_uint]).
  cbn [hdr_of h_crc32] in Hcrc. unfold field in Hcrc.
  unfold hdr_bytes in Hob. apply one_byte_app in Hob as [(hd&->&Hob)|(c&->&Hob)].
  - pose proof (one_byte_length _ _ Hob) as Hl. rewrite length_hdr_head in Hl.
    rewrite take_app_le, take_ge, drop_app_ge, Hl, Nat.sub_diag, drop_0, take_ge in Hcrc
      by (rewrite ?length_le_bytes, ?Hl; lia).
    rewrite Hval, Hh in Hcrc. destruct (one_byte_crc _ _ Hob) as (_&Hne&_). exact (Hne (eq_sym Hcrc)).
  - pose proof (one_byte_length _ _ Hob) as Hl. rewrite length_le_bytes in Hl.
    pose proof (length_hdr_head h) as Hlh.
    rewrite take_app_le, (take_ge (hdr_head h)), drop_app_ge, Hlh, Nat.sub_diag, drop_0, take_ge in Hcrc by lia.
    apply one_byte_val in Hob. apply Hob. rewrite Hval, Hh. exact Hcrc.
Qed.

(** ** A changed checksum or changed data *)
Definition crc_of (t : verify_type) (data : list Z) : Z :=
  match t with VERIFY_CRC16 => fio_crc16 data | VERIFY_CRC64 => fio_crc64 data | _ => crc32c_sw data end.

Lemma crc_type_sum un t vh data : crc_type t = true ->
  has_sum t = true /\ verify_sum un t vh data = Some (cmp_int vh (crc_of t data)).
Proof. by destruct t. Qed.

Lemma cmp_int_code vh c : cmp_int vh c = 0 /\ c = le_val vh \/ cmp_int vh c = EILSEQ /\ c <> le_val vh.
Proof. unfold cmp_int. destruct (Z.eqb_spec c (le_val vh)); auto. Qed.

Lemma sum_change_found un t sum data sd :
  uninit_ok un -> crc_type t = true -> sum_good t sum data -> one_byte (sum ++ data) sd ->
  exists vh data', sd = vh ++ data' /\ length vh = length sum /\ length data' = length data /\
    verify_sum un t vh data' = Some EILSEQ.
Proof.
  intros Hun Ht [_ Hgood] Hob. destruct (crc_type_sum un t sum data Ht) as [Hhas E].
  specialize (Hgood Hhas un Hun). rewrite E in Hgood. injection Hgood as Hgood.
  destruct (cmp_int_code sum (crc_of t data)) as [[_ Hc]|[Hc _]]; [|rewrite Hgood in Hc; done].
  apply one_byte_app in Hob as [(vh&->&Hob)|(d'&->&Hob)]; pose proof (one_byte_length _ _ Hob) as Hl.
  - exists vh, data. split_and!; try done. rewrite (proj2 (crc_type_sum un t vh data Ht)). f_equal.
    destruct (cmp_int_code vh (crc_of t data)) as [[_ Hc']|[-> _]]; [|done].
    exfalso. apply (one_byte_val _ _ Hob). congruence.
  - exists sum, d'. split_and!; try done. rewrite (proj2 (crc_type_sum un t sum d' Ht)). f_equal.
    destruct (cmp_int_code sum (crc_of t d')) as [[_ Hc']|[-> _]]; [|done].
    exfalso. destruct (one_byte_crc _ _ Hob) as (H16&H32&H64).
    destruct t; try discriminate Ht; cbn [crc_of] in *; congruence.
Qed.

(** ** A changed block *)
Definition block_code (r : (vtd * vio * Z) + (vtd * vio * Z)) : Z :=
  match r with inl (_, _, c) | inr (_, _, c) => c end.

Lemma verify_block_detects un td io rio pre bad post num inc sum data p (t := o_verify td) :
  uninit_ok un -> crc_type t = true -> o_verify_offset td = 0 -> same_unit td io rio -> uint 32 inc ->
  sum_good t sum data -> Z.of_nat (length data) = inc - Z.of_nat (hdr_len t) ->
  one_byte (sealed td io num inc sum data) bad ->
  p = Z.of_nat (length pre) -> p = num * inc -> uint 32 p -> v_buf rio = pre ++ bad ++ post ->
  (exists rio', verify_block un td rio p num inc = Some (inl (td, rio', EILSEQ)) /\
     v_buflen rio' = v_buflen rio) \/
  (exists rio', verify_block un td rio p num inc = Some (inr (td, rio', EILSEQ))).
Proof.
  intros Hun Ht Hoff Hsame Hu Hgood Hdl Hob Hp Hnum Hup Hbuf.
  pose proof (sum_size_range t) as Hss.
  assert (Hs : sealing t = true) by (by destruct t).
  assert (Hhl : Z.of_nat (hdr_len t) = sum_size t + 40) by (unfold hdr_len, HDR_SIZE; lia).
  set (h := __fill_hdr td io num inc (v_rand_seed io)). unfold sealed in Hob. fold h in Hob.
  apply one_byte_app in Hob as [(hb&->&Hob)|(sd&->&Hob)].
  - right. pose proof (one_byte_length _ _ Hob) as Hl. rewrite length_hdr_bytes in Hl.
    assert (Hno : o_verify td <> VERIFY_PATTERN_NO_HDR) by (intros E; subst t; by rewrite E in Hs).
    destruct (hdr_size_sealing td io num inc (v_rand_seed io) Hs) as [_ Ehs].
    unfold verify_block. rewrite Ehs, Hoff. cbn [mbind option_bind Z.eqb negb].
    rewrite !(decide_False (P := o_verify td = VERIFY_PATTERN_NO_HDR)) by done.
    assert (Hm : mem_read (v_buf rio) p HDR_SIZE = Some hb).
    { rewrite Hbuf, <- !app_assoc. apply mem_read_mid; [done|]. by rewrite Hl. }
    unfold hdr_at. rewrite Hm. cbn [mbind option_bind].
    assert (Hio : exists rio', (if o_verifysort td || td_ver_backlog td
        then Some (set_seed (set_buf rio (v_buf rio)) (h_rand_seed (hdr_of hb)))
        else Some (set_buf rio (v_buf rio))) = Some rio') by (destruct (o_verifysort td || td_ver_backlog td); eauto).
    destruct Hio as [rio' ->]. cbn [mbind option_bind]. cbn zeta.
    rewrite !(decide_False (P := o_verify td = VERIFY_PATTERN_NO_HDR)) by done.
    rewrite (header_change_found td io num inc (v_rand_seed io)) by done. exists rio'. done.
  - left. destruct (sum_change_found un t sum data sd Hun Ht Hgood Hob) as (vh&d'&->&Hvl&Hd'l&Hv).
    destruct (crc_type_sum un t vh d' Ht) as [Hhas _]. destruct Hgood as [Hsl _].
    eexists. split.
    + eapply (verify_block_reads un td io rio pre _ post num inc vh d' p); try done.
      * unfold placed. by rewrite Hoff.
      * rewrite (verify_data_reads un td _ io num inc vh d' pre post p);
          [fold t; by rewrite Hv|done|by rewrite Hvl|fold t; lia|done..|by rewrite seed_for_buf].
    + unfold seed_for. by destruct (o_verifysort td || td_ver_backlog td).
Qed.

(** ** A changed unit *)
Lemma find_block (inc : nat) (outs : list (list Z)) : forall i,
  Forall (fun s => length s = inc) outs -> (i < length outs * inc)%nat ->
  exists outs1 s outs2 j, outs = outs1 ++ s :: outs2 /\ i = (length (concat outs1) + j)%nat /\
    (j < length s)%nat.
Proof.
  induction outs as [|s outs IH]; intros i Hall Hi; [simpl in Hi; lia|].
  apply Forall_cons_iff in Hall as [Hs Hall]. cbn [length Nat.mul] in Hi.
  destruct (decide (i < inc)%nat).
  - exists [], s, outs, i. split_and!; simpl; done || lia.
  - destruct (IH (i - inc)%nat) as (o1&s1&o2&j&->&Ei&Hj); [done|lia|].
    exists (s :: o1), s1, o2, j. cbn [concat]. rewrite length_app. split_and!; done || lia.
Qed.

Lemma insert_in_block (o1 s tail : list Z) j y : (j < length s)%nat ->
  <[(length o1 + j)%nat := y]> (o1 ++ s ++ tail) = o1 ++ <[j := y]> s ++ tail.
Proof. intros Hj. by rewrite insert_app_r, insert_app_l. Qed.

Lemma good_blocks_app td io inc a : forall k s b, good_blocks td io inc k (a ++ s :: b) ->
  good_blocks td io inc k a /\ good_block td io inc (k + Z.of_nat (length a)) s /\
  good_blocks td io inc (k + Z.of_nat (length a) + 1) b.
Proof.
  induction a as [|x a IH]; intros k s b Hg; cbn [app good_blocks length] in *.
  - rewrite Z.add_0_r. by destruct Hg.
  - destruct Hg as [Hx Hg]. destruct (IH _ _ _ Hg) as (Ha&Hs&Hb). split; [done|].
    by replace (k + Z.of_nat (S (length a))) with (k + 1 + Z.of_nat (length a)) by lia.
Qed.

Lemma good_blocks_lengths td io inc outs : forall k, good_blocks td io inc k outs ->
  Forall (fun s => length s = Z.to_nat inc) outs.
Proof.
  induction outs as [|s outs IH]; intros k Hg; cbn [good_blocks] in Hg; [constructor|].
  destruct Hg as [Hs Hg]. constructor; [|by eapply IH]. apply good_block_length in Hs. lia.
Qed.

Lemma fill_crc_bytes un t vh data sum : crc_type t = true -> fill_sum un t vh data = Some sum ->
  Forall (uint 8) sum.
Proof.
  intros Ht E. assert (exists n c, Some (le_bytes n c) = Some sum) as (n&c&E').
  { destruct t; try discriminate Ht; do 2 eexists; exact E. }
  apply (inj Some) in E'. rewrite <- E'. apply le_bytes_uint.
Qed.

(** Sealing with a CRC keeps a buffer of bytes one. *)
Lemma headers_loop_bytes un td io inc fuel : forall b p k b',
  crc_type (o_verify td) = true -> o_verify_offset td = 0 ->
  headers_loop fuel un td io b p k inc = Some b' -> keeps True b b'.
Proof.
  induction fuel as [|fuel IH]; intros b p k b' Ht Ho Hl; cbn [headers_loop] in Hl;
    (destruct (p <? v_buflen io); [|injection Hl as <-; apply keeps_refl]); [done|].
  apply bind_Some_inv in Hl as (b1&Ep&Hl). eapply keeps_trans; [|by eapply IH].
  unfold populate_hdr in Ep. apply bind_Some_inv in Ep as (b2&Eh&Ep).
  assert (keeps True b b2) as Hk1.
  { unfold fill_hdr in Eh. destruct (decide _); [injection Eh as <-; apply keeps_refl|].
    eapply mem_write_keeps; [|done]. intros _ _. unfold hdr_bytes, hdr_head.
    rewrite !Forall_app. split_and!; apply le_bytes_uint. }
  apply bind_Some_inv in Ep as (hs&_&Ep). apply bind_Some_inv in Ep as (b3&Es&Ep).
  rewrite Ho in Ep. cbn [Z.eqb negb andb] in Ep. injection Ep as <-.
  eapply keeps_trans; [done|]. rewrite (proj1 (crc_type_sum un _ [] [] Ht)) in Es.
  apply bind_Some_inv in Es as (d&_&Es). apply bind_Some_inv in Es as (vh&_&Es).
  apply bind_Some_inv in Es as (sum&Ef&Es). eapply mem_write_keeps; [|exact Es]. intros _ _.
  by eapply fill_crc_bytes.
Qed.

Lemma verify_unit_detects un td io inc n outs1 s bad outs2 rest rio (t := o_verify td) :
  uninit_ok un -> crc_type t = true -> o_verify_offset td = 0 -> td_fakeio td = false ->
  geometry td io inc n -> get_hdr_inc td io = inc -> same_unit td io rio ->
  good_blocks td io inc 0 (outs1 ++ s :: outs2) ->
  Z.of_nat (length (outs1 ++ s :: outs2)) * inc = v_buflen io -> one_byte s bad ->
  v_buf rio = concat outs1 ++ bad ++ concat outs2 ++ rest -> v_read rio = true -> v_trimmed rio = false ->
  o_verify_fatal td = true \/ inc = v_buflen io ->
  exists v, verify_io_u un td rio = Some v /\ vd_ret v = EILSEQ.
Proof.
  intros Hun Ht Hoff Hfk Hg Hinc Hsame Hgs Hlen Hob Hbuf Hrd Htr Hlast.
  pose proof Hg as [Hi Hh Hl Hm Ho H5]. pose proof (su_buflen _ _ _ Hsame) as Hbl.
  apply good_blocks_app in Hgs as (Hgs&(sum&data&Hgood&Hdl&Hpl)&_). rewrite Z.add_0_l in Hpl.
  unfold placed in Hpl. rewrite Hoff in Hpl. cbn [Z.eqb] in Hpl. subst s.
  rewrite length_app in Hlen. cbn [length] in Hlen.
  set (k := Z.of_nat (length outs1)) in *.
  destruct (verify_loop_prefix td io inc un n outs1 (Z.to_nat (v_buflen rio) - length outs1) []
    (bad ++ concat outs2 ++ rest) 0 rio) as (rio'&pre'&E&Hs'&Hb'&Hp'); try done; try nia.
  { left. by apply (crc_type_sum un t [] []). }
  rewrite Z.add_0_l in *. fold k in E, Hp'. rewrite Z.mul_0_l in E.
  replace (length outs1 + (Z.to_nat (v_buflen rio) - length outs1))%nat with (Z.to_nat (v_buflen rio))
    in E by nia.
  assert (Hfuel : exists f, (Z.to_nat (v_buflen rio) - length outs1 = S f)%nat)
    by (exists (Z.to_nat (v_buflen rio) - length outs1 - 1)%nat; nia).
  destruct Hfuel as [f Hf]. rewrite Hf in E.
  unfold verify_io_u. rewrite decide_False by (intros E'; subst t; by rewrite E' in Ht).
  rewrite Hrd, Hfk, Htr. cbn [negb].
  assert (get_hdr_inc td rio = inc) as -> by (rewrite <- Hinc; unfold get_hdr_inc; by rewrite Hbl).
  rewrite E. cbn [verify_loop]. pose proof (su_buflen _ _ _ Hs') as Hbl'.
  rewrite (proj2 (Z.ltb_lt _ _)) by nia. change (negb (0 =? 0)) with false. cbn [andb].
  destruct (verify_block_detects un td io rio' pre' bad (concat outs2 ++ rest) k inc sum data (k * inc))
    as [(rio2&Eb&Hbl2)|(rio2&Eb)]; try done; try lia; [unfold uint; nia|unfold uint; nia| |].
  - rewrite Eb. cbn [mbind option_bind].
    assert (Hstop : exists td2 io2 b2, verify_loop f un td rio2 (k * inc + inc) (u32 (k + 1)) inc EILSEQ =
      Some (td2, io2, EILSEQ, b2)).
    { destruct f; cbn [verify_loop]; destruct (Z.ltb_spec (k * inc + inc) (v_buflen rio2)); try eauto;
        (destruct Hlast as [->|Hlast]; [cbn; eauto|nia]). }
    destruct Hstop as (td2&io2&b2&->). cbn [mbind option_bind]. eexists. split; done.
  - rewrite Eb. cbn [mbind option_bind]. eexists. split; done.
Qed.

Lemma one_byte_detected un un' td io td1 io1 :
  uninit_ok un -> uninit_ok un' -> crc_type (o_verify td) = true -> o_verify_offset td = 0 ->
  unit_ok td io -> td_fakeio td = false -> job_bytes td -> Forall (uint 8) (v_buf io) ->
  fill_verify_pattern td (set_numberio io (u16 (td_io_issues td))) (v_buflen io) 0 false = Some (td1, io1) ->
  exists io2, populate_verify_io_u un td io = Some (td1, io2) /\
    forall rio i x y, same_unit td1 io2 rio -> v_read rio = true -> v_trimmed rio = false ->
    Z.of_nat i < v_buflen io -> v_buf io2 !! i = Some x -> x <> y -> uint 8 y ->
    v_buf rio = <[i := y]> (v_buf io2) ->
    o_verify_fatal td = true \/ get_hdr_inc td io = v_buflen io ->
    exists v, verify_io_u un' td1 rio = Some v /\ vd_ret v = EILSEQ.
Proof.
  intros Hun Hun' Ht Hoff Hok Hfk Hjb Hb Hf.
  assert (Hc : checks_sum td) by (left; by apply (crc_type_sum un _ [] [])).
  destruct (seal_then_verify un un' td io td1 io1 Hun Hun' Hc Hok Hfk Hf)
    as (b&Ep&(outs&rest&Hbuf&Hgs&Hlen)&_).
  destruct (fill_verify_pattern_keeps _ _ _ _ _ _ _ Hf) as ([_ Hbytes]&Hbl&_&_&Htd).
  specialize (Hbytes Hjb Hb). cbn [v_buflen set_numberio] in Hbl.
  assert (Hok0 : unit_ok td (set_numberio io (u16 (td_io_issues td)))) by (destruct Hok; by split).
  destruct (unit_ok_fill _ _ _ _ _ _ _ Hf Hok0 Hc) as (Hok1&Hc1&Hfk1&Hinc).
  change (get_hdr_inc td (set_numberio io _)) with (get_hdr_inc td io) in Hinc.
  assert (Hopt : o_verify td1 = o_verify td /\ o_verify_offset td1 = o_verify_offset td /\
    o_verify_fatal td1 = o_verify_fatal td) by (by destruct Htd as [->|[fs ->]]).
  destruct Hopt as (Hv1&Ho1&Hf1). destruct (unit_geometry _ _ Hok1) as (n&Hg&_).
  exists (set_buf io1 b). split; [done|].
  assert (Hbb : Forall (uint 8) b).
  { unfold populate_verify_io_u in Ep. rewrite decide_False in Ep by (intros E; by rewrite E in Ht).
    unfold fill_pattern_headers in Ep. change (v_buflen (set_numberio io _)) with (v_buflen io) in Ep.
    rewrite Hf in Ep. cbn [mbind option_bind] in Ep. apply bind_Some_inv in Ep as (b'&El&Ep).
    injection Ep as ->. eapply headers_loop_bytes; [| |exact El|done|done]; congruence. }
  intros rio i x y Hsame Hrd Htr Hi Hx Hne Hy Hrb Hlast. cbn [v_buf set_buf] in Hx, Hrb.
  pose proof (good_blocks_lengths _ _ _ _ _ Hgs) as Hall. rewrite <- Hinc in Hgs, Hlen, Hall.
  destruct (find_block _ _ i Hall) as (o1&s&o2&j&Eo&Ei&Hj);
    [pose proof (g_inc _ _ _ _ Hg); nia|].
  rewrite Eo, concat_app in Hbuf. cbn [concat] in Hbuf. rewrite <- !app_assoc in Hbuf.
  assert (Hs : Forall (uint 8) s /\ s !! j = Some x).
  { rewrite Hbuf in Hbb, Hx. rewrite !Forall_app in Hbb. split; [tauto|].
    rewrite Ei, lookup_app_r in Hx by lia. replace (length (concat o1) + j - length (concat o1))%nat with j in Hx by lia.
    by rewrite lookup_app_l in Hx by done. }
  destruct Hs as [Hsb Hsx]. rewrite Eo, <- Hbl in Hlen. rewrite Eo in Hgs.
  apply (verify_unit_detects un' td1 io1 (get_hdr_inc td1 io1) n o1 s (<[j := y]> s) o2 rest rio);
    try done; try congruence.
  - destruct Hsame. by split.
  - by apply (one_byte_insert s j x).
  - rewrite Hrb, Hbuf, Ei. by apply insert_in_block.
Qed.

(** C5. With [crc16], [crc32c] or [crc64] and [verify_offset] 0, a sealed unit (of
    whole blocks, as for the round trip) that comes back with any one byte changed,
    in a header, in a stored checksum or in the data, fails [verify_io_u] with
    [EILSEQ], when [verify_fatal] is set or the unit is one block. *)
Theorem verify_detects_one_byte un un' td io :
  uninit_ok un -> uninit_ok un' -> crc_type (o_verify td) = true -> o_verify_offset td = 0 ->
  unit_ok td io -> td_fakeio td = false -> job_bytes td -> Forall (uint 8) (v_buf io) -> fill_ok td io ->
  exists td1 io2, populate_verify_io_u un td io = Some (td1, io2) /\
    forall rio i x y, same_unit td1 io2 rio -> v_read rio = true -> v_trimmed rio = false ->
    Z.of_nat i < v_buflen io -> v_buf io2 !! i = Some x -> x <> y -> uint 8 y ->
    v_buf rio = <[i := y]> (v_buf io2) ->
    o_verify_fatal td = true \/ get_hdr_inc td io = v_buflen io ->
    exists v, verify_io_u un' td1 rio = Some v /\ vd_ret v = EILSEQ.
Proof.
  intros Hun Hun' Ht Hoff Hok Hfk Hjb Hb Hfill. destruct (fill_total td io Hok Hfill) as (td1 & io1 & Hf).
  destruct (one_byte_detected un un' td io td1 io1 Hun Hun' Ht Hoff Hok Hfk Hjb Hb Hf) as (io2 & E & H). by exists td1, io2.
Qed.

Definition demo_byte (r : option (vtd * vio)) (i : nat) : bool :=
  match r with Some (_, io2) => match v_buf io2 !! i with Some x => true | None => false end | None => false end.

Lemma demo_io_bytes inc : Forall (uint 8) (v_buf (demo_io inc)).
Proof. apply Forall_replicate. unfold uint. lia. Qed.

(** Byte 200, in the data of the second block. *)
Lemma verify_detects_one_byte_witness :
  exists td1 io2 y v,
    populate_verify_io_u (demo_un 1) (demo_td VERIFY_CRC32C 128 0 true) (demo_io 128) = Some (td1, io2) /\
    v_buf io2 !! 200%nat <> Some y /\
    verify_io_u (demo_un 2) td1 (read_back io2 (<[200%nat := y]> (v_buf io2))) = Some v /\ vd_ret v = EILSEQ.
Proof.
  destruct (verify_detects_one_byte (demo_un 1) (demo_un 2) (demo_td VERIFY_CRC32C 128 0 true) (demo_io 128)
    (demo_un_ok 1) (demo_un_ok 2) eq_refl eq_refl
    (demo_ok VERIFY_CRC32C 128 0 true eq_refl ltac:(discriminate) ltac:(lia) ltac:(lia)) eq_refl
    (conj (Forall_nil_2 _) (Forall_nil_2 _)) (demo_io_bytes 128) (demo_fills 0 true)) as (td1&io2&Ep&Hv).
  assert (Hb : demo_byte (populate_verify_io_u (demo_un 1) (demo_td VERIFY_CRC32C 128 0 true) (demo_io 128)) 200 = true)
    by (vm_compute; reflexivity).
  rewrite Ep in Hb. cbn [demo_byte] in Hb. destruct (v_buf io2 !! 200%nat) as [x|] eqn:Ex; [|discriminate Hb].
  set (y := if x =? 0 then 1 else 0).
  assert (Hy : x <> y /\ uint 8 y) by (unfold y, uint; destruct (Z.eqb_spec x 0); lia).
  destruct (Hv (read_back io2 (<[200%nat := y]> (v_buf io2))) 200%nat x y (read_back_same _ _ _) eq_refl eq_refl
    ltac:(cbn; lia) Ex (proj1 Hy) (proj2 Hy) eq_refl (or_introl eq_refl)) as (v&Ev&Hr).
  exists td1, io2, y, v. split; [exact Ep|]. split; [|exact (conj Ev Hr)].
  rewrite Ex. intros [= Hxy]. by apply (proj1 Hy).
Defined.

(** ** What is not found *)

(** Block [k] of the unit, and the buffer around it. *)
Lemma nth_block td io inc outs (k : Z) : good_blocks td io inc 0 outs -> 0 <= k < Z.of_nat (length outs) -> 0 < inc ->
  exists o1 s o2, outs = o1 ++ s :: o2 /\ Z.of_nat (length o1) = k /\ Z.of_nat (length (concat o1)) = k * inc.
Proof.
  intros Hg Hk Hi. pose proof (good_blocks_lengths _ _ _ _ _ Hg) as Hall.
  destruct (lookup_lt_is_Some_2 outs (Z.to_nat k)) as [s Hs]; [lia|].
  exists (take (Z.to_nat k) outs), s, (drop (S (Z.to_nat k)) outs).
  split; [by rewrite take_drop_middle|]. rewrite length_take. split; [lia|].
  assert (Hcl : forall o : list (list Z), Forall (fun s => length s = Z.to_nat inc) o ->
    Z.of_nat (length (concat o)) = Z.of_nat (length o) * inc).
  { induction o as [|x o IH]; intros Ho; [done|]. apply Forall_cons_iff in Ho as [Hx Ho].
    cbn [concat length]. rewrite length_app. specialize (IH Ho). lia. }
  rewrite Hcl by (by apply Forall_take). rewrite length_take. nia.
Qed.

(** Unless [verify_fatal] is set, the code of a block is forgotten at the next. *)
Lemma verify_loop_forgets fuel un td io p k inc r :
  o_verify_fatal td = false -> p < v_buflen io ->
  verify_loop fuel un td io p k inc r = verify_loop fuel un td io p k inc 0.
Proof.
  intros Hf Hp. destruct fuel; cbn [verify_loop]; rewrite (proj2 (Z.ltb_lt _ _) Hp), Hf; by rewrite !andb_false_r.
Qed.

Lemma verify_unit_forgets un td io inc n o1 sum (data data' : list Z) o2 rest rio (t := o_verify td)
    (k := Z.of_nat (length o1)) :
  uninit_ok un -> crc_type t = true -> o_verify_offset td = 0 -> td_fakeio td = false ->
  o_verify_fatal td = false -> geometry td io inc n -> get_hdr_inc td io = inc -> same_unit td io rio ->
  good_blocks td io inc 0 o1 -> length sum = Z.to_nat (sum_size t) -> length data' = length data ->
  Z.of_nat (length data) = inc - Z.of_nat (hdr_len t) -> good_blocks td io inc (k + 1) o2 -> o2 <> [] ->
  (k + 1 + Z.of_nat (length o2)) * inc = v_buflen io ->
  v_buf rio = concat o1 ++ sealed td io k inc sum data' ++ concat o2 ++ rest ->
  v_read rio = true -> v_trimmed rio = false ->
  exists v, verify_io_u un td rio = Some v /\ vd_ret v = 0 /\ vd_terminate v = false.
Proof.
  intros Hun Ht Hoff Hfk Hnf Hg Hinc Hsame Hg1 Hsl Hd' Hdl Hg2 Ho2 Hlen Hbuf Hrd Htr.
  pose proof Hg as [Hi Hh Hl Hm Ho H5]. pose proof (su_buflen _ _ _ Hsame) as Hbl.
  assert (Hc : checks_sum td) by (left; by apply (crc_type_sum un t [] [])).
  assert (Hn2 : (0 < length o2)%nat) by (destruct o2; [done|simpl; lia]).
  set (f2 := (Z.to_nat (v_buflen rio) - length o1 - 1 - length o2)%nat).
  assert (Hfuel : Z.to_nat (v_buflen rio) = (length o1 + S (length o2 + f2))%nat) by (unfold f2; nia).
  remember (S (length o2 + f2)) as f1 eqn:Ef1.
  remember (sealed td io k inc sum data' ++ concat o2 ++ rest) as tail eqn:Et.
  destruct (verify_loop_prefix td io inc un n o1 f1 [] tail 0 rio Hun Hc Hg Hsame Hg1 Hbuf eq_refl)
    as (rio1&pre&E&Hs1&Hb1&Hp1); [lia|clear -Hlen Hi; fold k; nia|].
  subst f1 tail.
  rewrite Z.add_0_l, Z.mul_0_l, <- Hfuel in E. fold k in E. rewrite Z.add_0_l in Hp1. fold k in Hp1.
  pose proof (su_buflen _ _ _ Hs1) as Hbl1.
  unfold verify_io_u. rewrite decide_False by (intros E'; subst t; by rewrite E' in Ht).
  rewrite Hrd, Hfk, Htr. cbn [negb].
  assert (get_hdr_inc td rio = inc) as -> by (rewrite <- Hinc; unfold get_hdr_inc; by rewrite Hbl).
  rewrite E. cbn [verify_loop].
  rewrite (proj2 (Z.ltb_lt _ _)) by nia. change (negb (0 =? 0)) with false. cbn [andb].
  destruct (crc_type_sum un t sum data' Ht) as [Hhas Hvs].
  erewrite (verify_block_reads un td io rio1 pre _ (concat o2 ++ rest) k inc sum data' (k * inc));
    try done; [|by apply checks_sum_sealing|unfold uint; nia|unfold placed; by rewrite Hoff|].
  2: { rewrite (verify_data_reads un td _ io k inc sum data' pre (concat o2 ++ rest) (k * inc));
         [fold t; by rewrite Hvs|done|done|fold t; lia|unfold uint; nia|done|done|unfold uint; nia|by rewrite seed_for_buf]. }
  cbn [mbind option_bind]. rewrite (wrap_small 32 (k + 1)) by (unfold uint; nia).
  replace (k * inc + inc) with ((k + 1) * inc) by lia.
  set (rio2 := seed_for td _ _).
  assert (Hs2 : same_unit td io rio2) by (apply seed_for_same; by destruct Hs1; split).
  rewrite verify_loop_forgets by (try done; rewrite (su_buflen _ _ _ Hs2); nia).
  destruct (verify_loop_prefix td io inc un n o2 f2 (pre ++ sealed td io k inc sum data') rest (k + 1) rio2)
    as (rio3&pre3&E3&Hs3&_&_); try done; try lia.
  { unfold rio2. rewrite seed_for_buf. cbn [v_buf set_buf]. by rewrite <- !app_assoc. }
  { rewrite length_app. unfold sealed. pose proof (sum_size_range t).
    assert (Z.of_nat (hdr_len t) = sum_size t + 40) by (unfold hdr_len, HDR_SIZE; lia).
    rewrite !length_app, length_hdr_bytes. lia. }
  rewrite E3. pose proof (su_buflen _ _ _ Hs3).
  destruct f2; cbn [verify_loop]; rewrite (proj2 (Z.ltb_ge _ _)) by lia; cbn [mbind option_bind];
    (eexists; split; [reflexivity|done]).
Qed.

(** Unless [verify_fatal] is set, the code of a block replaces the code of
    the block before it, so that a unit of which a block other than the last has
    any junk in place of its data is accepted. *)
Theorem nonfatal_forgets un un' td io td1 io1 :
  uninit_ok un -> uninit_ok un' -> crc_type (o_verify td) = true -> o_verify_offset td = 0 ->
  unit_ok td io -> td_fakeio td = false -> o_verify_fatal td = false ->
  fill_verify_pattern td (set_numberio io (u16 (td_io_issues td))) (v_buflen io) 0 false = Some (td1, io1) ->
  exists io2, populate_verify_io_u un td io = Some (td1, io2) /\
    forall rio k junk, same_unit td1 io2 rio -> v_read rio = true -> v_trimmed rio = false ->
    let inc := get_hdr_inc td io in
    let hs := Z.of_nat (hdr_len (o_verify td)) in
    0 <= k -> (k + 1) * inc < v_buflen io -> Z.of_nat (length junk) = inc - hs ->
    mem_write (v_buf io2) (k * inc + hs) junk = Some (v_buf rio) ->
    exists v, verify_io_u un' td1 rio = Some v /\ vd_ret v = 0 /\ vd_terminate v = false.
Proof.
  intros Hun Hun' Ht Hoff Hok Hfk Hnf Hf.
  assert (Hc : checks_sum td) by (left; by apply (crc_type_sum un _ [] [])).
  destruct (seal_then_verify un un' td io td1 io1 Hun Hun' Hc Hok Hfk Hf)
    as (b&Ep&(outs&rest&Hbuf&Hgs&Hlen)&_).
  destruct (fill_verify_pattern_keeps _ _ _ _ _ _ _ Hf) as (_&Hbl&_&_&Htd).
  cbn [v_buflen set_numberio] in Hbl.
  assert (Hok0 : unit_ok td (set_numberio io (u16 (td_io_issues td)))) by (destruct Hok; by split).
  destruct (unit_ok_fill _ _ _ _ _ _ _ Hf Hok0 Hc) as (Hok1&Hc1&Hfk1&Hinc).
  change (get_hdr_inc td (set_numberio io _)) with (get_hdr_inc td io) in Hinc.
  assert (Hopt : o_verify td1 = o_verify td /\ o_verify_offset td1 = o_verify_offset td /\
    o_verify_fatal td1 = o_verify_fatal td) by (by destruct Htd as [->|[fs ->]]).
  destruct Hopt as (Hv1&Ho1&Hf1). destruct (unit_geometry _ _ Hok1) as (n&Hg&_).
  pose proof (g_inc _ _ _ _ Hg) as Hi0. rewrite Hinc in Hi0.
  exists (set_buf io1 b). split; [done|].
  intros rio k junk Hsame Hrd Htr inc hs Hk Hlast Hjl Hw. cbn [v_buf set_buf] in Hw.
  fold inc in Hgs, Hlen, Hinc, Hi0.
  destruct (nth_block td1 io1 inc outs k Hgs) as (o1&s&o2&Eo&Hk1&Hcl); [nia|done|].
  pose proof Hgs as Hall. apply good_blocks_lengths in Hall.
  rewrite Eo in Hgs. apply good_blocks_app in Hgs as (Hg1&(sum&data&[Hsl _]&Hdl&Hpl)&Hg2).
  rewrite Z.add_0_l, Hk1 in *. unfold placed in Hpl. rewrite Ho1, Hoff in Hpl. cbn [Z.eqb] in Hpl. subst s.
  rewrite Hv1 in Hsl, Hdl. fold hs in Hdl.
  rewrite Eo, concat_app in Hbuf. cbn [concat] in Hbuf. rewrite <- !app_assoc in Hbuf.
  rewrite Eo, length_app in Hlen. cbn [length] in Hlen.
  set (h := hdr_bytes (__fill_hdr td1 io1 k inc (v_rand_seed io1))).
  assert (Hw' : Some (v_buf rio) = Some (concat o1 ++ (h ++ sum ++ junk) ++ concat o2 ++ rest)).
  { rewrite <- Hw, Hbuf. unfold sealed. fold h. rewrite <- !app_assoc.
    rewrite (app_assoc h), (app_assoc (concat o1)), (app_assoc h sum (junk ++ _)), (app_assoc (concat o1) (h ++ sum)).
    apply mem_write_mid; [|lia].
    rewrite !length_app. unfold h. rewrite length_hdr_bytes, Hsl. unfold hs, hdr_len, HDR_SIZE.
    pose proof (sum_size_range (o_verify td)). lia. }
  apply (inj Some) in Hw'.
  rewrite Hinc in Hg.
  assert (Hsame1 : same_unit td1 io1 rio) by (destruct Hsame; by split).
  assert (Hne : o2 <> []) by (intros ->; simpl in Hlen; lia).
  apply (verify_unit_forgets un' td1 io1 inc n o1 sum data junk o2 rest rio);
    rewrite ?Hv1, ?Ho1, ?Hf1, ?Hk1; try done; try lia; congruence.
Qed.

(** The data of the first of the two blocks is lost altogether. *)
Definition demo_wipe (r : option (vtd * vio)) : option (list Z) :=
  match r with Some (_, io2) => mem_write (v_buf io2) 44 (replicate 84 255) | None => None end.

Lemma nonfatal_forgets_witness :
  exists td1 io2 b v,
    populate_verify_io_u (demo_un 1) (demo_td VERIFY_CRC32C 128 0 false) (demo_io 128) = Some (td1, io2) /\
    mem_write (v_buf io2) 44 (replicate 84 255) = Some b /\
    verify_io_u (demo_un 2) td1 (read_back io2 b) = Some v /\ vd_ret v = 0.
Proof.
  destruct (demo_fill_crc 0 false) as (td1&io1&E).
  destruct (nonfatal_forgets (demo_un 1) (demo_un 2) (demo_td VERIFY_CRC32C 128 0 false) (demo_io 128)
    td1 io1 (demo_un_ok 1) (demo_un_ok 2) eq_refl eq_refl
    (demo_ok VERIFY_CRC32C 128 0 false eq_refl ltac:(discriminate) ltac:(lia) ltac:(lia)) eq_refl eq_refl E)
    as (io2&Ep&Hv).
  assert (Hb : match demo_wipe (populate_verify_io_u (demo_un 1) (demo_td VERIFY_CRC32C 128 0 false) (demo_io 128))
    with Some _ => true | None => false end = true) by (vm_compute; reflexivity).
  rewrite Ep in Hb. cbn [demo_wipe] in Hb.
  destruct (mem_write (v_buf io2) 44 (replicate 84 255)) as [b|] eqn:Eb; [|discriminate Hb].
  destruct (Hv (read_back io2 b) 0 (replicate 84 255) (read_back_same _ _ _) eq_refl eq_refl
    ltac:(lia) ltac:(vm_compute; reflexivity) eq_refl Eb) as (v&Ev&Hr&_).
  exists td1, io2, b, v. exact (conj Ep (conj Eb (conj Ev Hr))).
Defined.
