(* ===== verification/CFloat.v ===== *)
(** * C doubles

    fio draws offsets, block sizes and percentages by scaling a random integer
    with a [double]: [n * (r / (max + 1.0))].  A [double] is an IEEE-754
    binary64 value, modelled by the Standard Library's executable
    specification [spec_float] at precision 53 and exponent bound 1024, with
    the C conversions from and to integers.  The lemmas bound the result of
    that scaling, rounding included. *)
From S2P Require Import Prelude.
From Stdlib Require Import SpecFloat.

Definition double := spec_float.
Definition of_int (n : Z) : double := binary_normalize 53 1024 n 0 false.
Definition dadd : double -> double -> double := SFadd 53 1024.
Definition dsub : double -> double -> double := SFsub 53 1024.
Definition dmul : double -> double -> double := SFmul 53 1024.
Definition ddiv : double -> double -> double := SFdiv 53 1024.
Definition dltb : double -> double -> bool := SFltb.

(** The value truncated towards zero; an infinity or a NaN has none. *)
Definition dtrunc (x : double) : option Z :=
  match x with
  | S754_zero _ => Some 0
  | S754_finite s m e =>
      let a := if 0 <=? e then Zpos m * 2 ^ e else Zpos m / 2 ^ (- e) in
      Some (if s then - a else a)
  | _ => None
  end.

(** A cast to an integer type with bounds [lo, hi); outside it the cast is
    undefined. *)
Definition dcast (lo hi : Z) (x : double) : option Z :=
  n ← dtrunc x; if (lo <=? n) && (n <? hi) then Some n else None.
Definition to_u64 : double -> option Z := dcast 0 (2 ^ 64).
Definition to_u32 : double -> option Z := dcast 0 (2 ^ 32).
Definition to_s32 : double -> option Z := dcast (- 2 ^ 31) (2 ^ 31).

(** [n * (r / (max + 1.0))]. *)
Definition dscale (n r max : Z) : double :=
  dmul (of_int n) (ddiv (of_int r) (dadd (of_int max) (of_int 1))).

(** ** Rounding *)
Lemma digits2_bounds p : 2 ^ (Zpos (digits2_pos p) - 1) <= Zpos p < 2 ^ Zpos (digits2_pos p).
Proof.
  induction p as [p IH|p IH|]; cbn [digits2_pos]; [| |by vm_compute];
    rewrite Pos2Z.inj_succ, (Z.pow_succ_r 2 (Zpos (digits2_pos p))) by lia;
    replace (2 ^ (Z.succ (Zpos (digits2_pos p)) - 1)) with (2 * 2 ^ (Zpos (digits2_pos p) - 1))
      by (rewrite <- Z.pow_succ_r by lia; f_equal; lia); lia.
Qed.

Lemma digits2_unique p d : 0 < d -> 2 ^ (d - 1) <= Zpos p < 2 ^ d -> Zpos (digits2_pos p) = d.
Proof.
  intros Hd H. pose proof (digits2_bounds p) as H'.
  destruct (Z.lt_trichotomy (Zpos (digits2_pos p)) d) as [L|[L|L]]; [|done|].
  - pose proof (Z.pow_le_mono_r 2 (Zpos (digits2_pos p)) (d - 1)). lia.
  - pose proof (Z.pow_le_mono_r 2 d (Zpos (digits2_pos p) - 1)). lia.
Qed.

Lemma iter_pos_nat {A} (f : A -> A) n : forall x, iter_pos f n x = Nat.iter (Pos.to_nat n) f x.
Proof.
  induction n as [n IH|n IH|]; intros x; cbn [iter_pos].
  - replace (Pos.to_nat n~1) with (Pos.to_nat n + (Pos.to_nat n + 1))%nat by lia.
    rewrite !Nat.iter_add, !IH. done.
  - replace (Pos.to_nat n~0) with (Pos.to_nat n + Pos.to_nat n)%nat by lia.
    rewrite Nat.iter_add, !IH. done.
  - done.
Qed.

(** Shifting an exact mantissa right [n] times: the quotient, and the last bit
    shifted out. *)
Lemma shr_iter m n : 0 <= m ->
  let s := Nat.iter n shr_1 (Build_shr_record m false false) in
  shr_m s = m / 2 ^ Z.of_nat n /\
  (shr_r s = true -> 2 ^ Z.of_nat n <= 2 * (m mod 2 ^ Z.of_nat n)) /\
  (m mod 2 ^ Z.of_nat n = 0 -> shr_r s = false /\ shr_s s = false).
Proof.
  intros Hm. induction n as [|n (IHm & IHr & IHe)]; cbn zeta in *.
  { cbn. rewrite Z.div_1_r. done. }
  rewrite Nat.iter_succ. set (t := Nat.iter n _ _) in *. destruct t as [a r s]. cbn [shr_m shr_r shr_s] in *.
  rewrite Nat2Z.inj_succ, Z.pow_succ_r by lia. set (q := 2 ^ Z.of_nat n) in *.
  assert (0 < q) by (subst q; lia).
  assert (Ha : 0 <= a) by (subst a; apply Z.div_pos; lia).
  assert (Hd : m / (2 * q) = a / 2) by (rewrite (Z.mul_comm 2 q), <- Z.div_div by lia; congruence).
  assert (Hmod : m mod (2 * q) = m mod q + q * (a mod 2)).
  { subst a. rewrite (Z.mul_comm 2 q). apply Z.rem_mul_r; lia. }
  pose proof (Z.mod_pos_bound m q).
  rewrite Hd, Hmod.
  assert (Hsh : shr_m (shr_1 (Build_shr_record a r s)) = a / 2 /\
    shr_r (shr_1 (Build_shr_record a r s)) = Z.odd a /\
    shr_s (shr_1 (Build_shr_record a r s)) = orb r s).
  { destruct a as [|[p|p|]|p]; try lia; cbn [shr_1 shr_m shr_r shr_s]; repeat split.
    - rewrite Pos2Z.inj_xI. symmetry. rewrite (Z.mul_comm 2), Z.div_add_l by lia. change (1 / 2) with 0. lia.
    - rewrite Pos2Z.inj_xO. symmetry. rewrite Z.mul_comm, Z.div_mul by lia. lia. }
  destruct Hsh as (-> & -> & ->). rewrite Zmod_odd.
  split; [done|]. split.
  - intros ->. lia.
  - intros E. destruct (Z.odd a); [nia|]. destruct IHe as [-> ->]; [lia|done].
Qed.

(** Shifting to the exponent of a 53-bit result. *)
Lemma shr_fexp_long (m : positive) e : 54 <= Zpos (digits2_pos m) -> -1000 <= e ->
  let n := Zpos (digits2_pos m) - 53 in
  shr_fexp 53 1024 (Zpos m) e loc_Exact =
    (Nat.iter (Z.to_nat n) shr_1 (Build_shr_record (Zpos m) false false), e + n).
Proof.
  intros Hd He n. unfold shr_fexp, fexp, emin. cbn [Zdigits2 shr_record_of_loc].
  replace (Z.max (Zpos (digits2_pos m) + e - 53) (3 - 1024 - 53) - e) with n by lia.
  assert (0 < n) by lia. clearbody n. destruct n as [|n|n]; [lia| |lia].
  unfold shr. rewrite iter_pos_nat. done.
Qed.

Lemma shr_fexp_short (m : positive) e : Zpos (digits2_pos m) <= 53 -> -1000 <= e ->
  shr_fexp 53 1024 (Zpos m) e loc_Exact = (Build_shr_record (Zpos m) false false, e).
Proof.
  intros Hd He. unfold shr_fexp, fexp, emin. cbn [Zdigits2 shr_record_of_loc].
  set (n := _ - e). assert (n <= 0) by lia. destruct n; [done|lia|done].
Qed.

(** The second normalisation, after rounding up to at most [2^53]. *)
Lemma renorm (k : positive) e : Zpos k <= 2 ^ 53 -> -1000 <= e <= 900 ->
  exists m e', (let '(mrs, e'') := shr_fexp 53 1024 (Zpos k) e loc_Exact in
      match shr_m mrs with
      | Z0 => S754_zero false
      | Zpos m => if e'' <=? 1024 - 53 then S754_finite false m e'' else S754_infinity false
      | _ => S754_nan
      end) = S754_finite false m e' /\ e <= e' <= e + 1 /\ Zpos m * 2 ^ (e' - e) = Zpos k.
Proof.
  intros Hk He. pose proof (digits2_bounds k) as Hb.
  destruct (Z.le_gt_cases (Zpos (digits2_pos k)) 53) as [L|L].
  - rewrite shr_fexp_short by lia. cbn [shr_m].
    destruct (Z.leb_spec e (1024 - 53)); [|lia]. exists k, e. rewrite Z.sub_diag, Z.mul_1_r. split_and!; [done|lia..].
  - assert (k = 9007199254740992)%positive as ->.
    { pose proof (Z.pow_le_mono_r 2 53 (Zpos (digits2_pos k) - 1)). lia. }
    rewrite shr_fexp_long by (done || lia).
    change (Z.pos (digits2_pos _) - 53) with 1.
    change (shr_m (Nat.iter (Z.to_nat 1) _ _)) with 4503599627370496.
    destruct (Z.leb_spec (e + 1) (1024 - 53)); [|lia].
    exists 4503599627370496%positive, (e + 1). split; [done|]. split; [lia|].
    replace (e + 1 - e) with 1 by lia. done.
Qed.

(** Rounding an exact value [mx * 2^ex] that is not tiny or huge: the result
    is exact when at most 53 bits are significant, and exceeds the value by at
    most one part in [2^53] otherwise. *)
Lemma round_bounds (mx : positive) ex : -1000 <= ex <= 500 -> Zpos (digits2_pos mx) <= 300 ->
  exists m e, binary_round_aux 53 1024 false (Zpos mx) ex loc_Exact = S754_finite false m e /\
    ex <= e /\ Zpos m * 2 ^ (e - ex) * 2 ^ 53 <= Zpos mx * (2 ^ 53 + 1) /\
    (Zpos mx mod 2 ^ Z.max 0 (Zpos (digits2_pos mx) - 53) = 0 -> Zpos m * 2 ^ (e - ex) = Zpos mx).
Proof.
  intros He Hd. pose proof (digits2_bounds mx) as Hb. unfold binary_round_aux.
  destruct (Z.le_gt_cases (Zpos (digits2_pos mx)) 53) as [L|L].
  - rewrite shr_fexp_short by lia. cbn [shr_m loc_of_shr_record round_nearest_even].
    pose proof (Z.pow_le_mono_r 2 (Zpos (digits2_pos mx)) 53).
    destruct (renorm mx ex) as (m & e & -> & Hee & Hm); [lia..|].
    exists m, e. split_and!; [done|lia| |done]. rewrite Hm. lia.
  - rewrite shr_fexp_long by lia. cbn zeta.
    set (n := Zpos (digits2_pos mx) - 53) in *.
    destruct (shr_iter (Zpos mx) (Z.to_nat n)) as (Em & Er & Ee); [lia|].
    set (s := Nat.iter _ _ _) in *. rewrite Z2Nat.id in Em, Er, Ee by lia.
    set (q := 2 ^ n) in *. assert (0 < q) by (subst q; lia).
    assert (Hlow : 2 ^ 52 * q <= Zpos mx < 2 ^ 53 * q).
    { subst q. rewrite <- !Z.pow_add_r by lia.
      replace (52 + n) with (Zpos (digits2_pos mx) - 1) by lia.
      replace (53 + n) with (Zpos (digits2_pos mx)) by lia. done. }
    assert (Hq : 2 ^ 52 <= Zpos mx / q < 2 ^ 53).
    { split; [apply Z.div_le_lower_bound|apply Z.div_lt_upper_bound]; lia. }
    pose proof (Z.div_mod (Zpos mx) q) as Hdm. pose proof (Z.mod_pos_bound (Zpos mx) q).
    assert (Hr : exists k : positive, round_nearest_even (shr_m s) (loc_of_shr_record s) = Zpos k /\
      Zpos k <= 2 ^ 53 /\ 2 * (Zpos k * q) <= 2 * Zpos mx + q /\
      (Zpos mx mod q = 0 -> Zpos k * q = Zpos mx)).
    { assert (Hk : round_nearest_even (shr_m s) (loc_of_shr_record s) = shr_m s \/
        (round_nearest_even (shr_m s) (loc_of_shr_record s) = shr_m s + 1 /\ shr_r s = true)).
      { destruct s as [a [] []]; cbn; [| |by left|by left]; [by right|].
        destruct (Z.even a); [by left|by right]. }
      destruct Hk as [->|[-> Hrt]]; rewrite Em.
      - exists (Z.to_pos (Zpos mx / q)). rewrite Z2Pos.id by lia. split_and!; [done|lia|nia|nia].
      - exists (Z.to_pos (Zpos mx / q + 1)). rewrite Z2Pos.id by lia.
        specialize (Er Hrt). split_and!; [done|lia|nia|].
        intros E. destruct (Ee E). congruence. }
    destruct Hr as (k & -> & Hk & Hup & Hex).
    destruct (renorm k (ex + n)) as (m & e & -> & Hee & Hm); [lia..|].
    assert (Hv : Zpos m * 2 ^ (e - ex) = Zpos k * q).
    { rewrite <- Hm, <- Z.mul_assoc. subst q. rewrite <- Z.pow_add_r by lia. f_equal. f_equal. lia. }
    exists m, e. rewrite Hv. split_and!; [done|lia|lia|].
    rewrite Z.max_r by lia. done.
Qed.

(** ** Integers below [2^53] are exact *)
Lemma pos_iter_xO (m d : positive) : Zpos (Pos.iter xO m d) = Zpos m * 2 ^ Zpos d.
Proof.
  induction d as [|d IH] using Pos.peano_ind; [cbn; lia|].
  rewrite Pos.iter_succ, Pos2Z.inj_succ, Z.pow_succ_r by lia.
  rewrite Pos2Z.inj_xO, IH. lia.
Qed.

(** The canonical form of [n * 2^0]: 53 significant bits. *)
Definition norm53 (n : Z) (m : positive) (e : Z) : Prop :=
  Zpos (digits2_pos m) = 53 /\ e <= 0 /\ -53 <= e /\ Zpos m = n * 2 ^ (- e).

Lemma of_int_small n : 0 < n < 2 ^ 53 -> exists m e, of_int n = S754_finite false m e /\ norm53 n m e.
Proof.
  intros Hn. unfold of_int. destruct n as [|p|p]; [lia| |lia]. cbn [binary_normalize].
  pose proof (digits2_bounds p) as Hb. set (d := Zpos (digits2_pos p)) in *.
  assert (Hd : 1 <= d <= 53).
  { split; [lia|]. destruct (Z.le_gt_cases d 53); [done|].
    pose proof (Z.pow_le_mono_r 2 53 (d - 1)). lia. }
  unfold binary_round. fold d.
  assert (Ha : exists mz, shl_align p 0 (fexp 53 1024 (d + 0)) = (mz, d - 53) /\
    Zpos mz = Zpos p * 2 ^ (53 - d)).
  { unfold shl_align, fexp, emin.
    replace (Z.max (d + 0 - 53) (3 - 1024 - 53)) with (d - 53) by lia.
    destruct (d - 53 - 0) as [|k|k] eqn:E; [|lia|].
    - exists p. replace d with 53 by lia. split; [done|lia].
    - exists (Pos.iter xO p k). split; [done|]. rewrite pos_iter_xO. do 2 f_equal. lia. }
  destruct Ha as (mz & -> & Hmz).
  assert (Hdz : Zpos (digits2_pos mz) = 53).
  { apply digits2_unique; [done|]. rewrite Hmz.
    assert (E1 : 2 ^ (53 - 1) = 2 ^ (53 - d) * 2 ^ (d - 1)) by (rewrite <- Z.pow_add_r by lia; f_equal; lia).
    assert (E2 : 2 ^ 53 = 2 ^ (53 - d) * 2 ^ d) by (rewrite <- Z.pow_add_r by lia; f_equal; lia).
    rewrite E1, E2. nia. }
  unfold binary_round_aux. rewrite shr_fexp_short by lia. cbn [shr_m loc_of_shr_record round_nearest_even].
  rewrite shr_fexp_short by lia. cbn [shr_m].
  destruct (Z.leb_spec (d - 53) (1024 - 53)); [|lia].
  exists mz, (d - 53). repeat split; [lia..|]. rewrite Hmz. do 2 f_equal. lia.
Qed.

(** Division by [2^32] is exact. *)
Lemma ddiv_2_32 r m e : norm53 r m e ->
  ddiv (S754_finite false m e) (dadd (of_int (2 ^ 32 - 1)) (of_int 1)) = S754_finite false m (e - 32).
Proof.
  intros (Hd & He & He' & Hm). change (dadd _ _) with (S754_finite false 4503599627370496 (-20)).
  pose proof (digits2_bounds m) as Hb. rewrite Hd in Hb.
  assert (Hq : Z.div_eucl (Z.shiftl (Zpos m) 53) 4503599627370496 = (Zpos m~0, 0)).
  { rewrite Z.shiftl_mul_pow2 by lia. change (2 ^ 53) with (2 * 4503599627370496).
    rewrite Z.mul_assoc. destruct (Z.div_eucl _ _) as [q r'] eqn:E. f_equal.
    - transitivity (Zpos m * 2 * 4503599627370496 / 4503599627370496).
      + unfold Z.div. by rewrite E.
      + rewrite Z.div_mul by lia. lia.
    - transitivity ((Zpos m * 2 * 4503599627370496) mod 4503599627370496).
      + unfold Z.modulo. by rewrite E.
      + by apply Z.mod_mul. }
  assert (Hc : SFdiv_core_binary 53 1024 (Zpos m) e 4503599627370496 (-20) = (Zpos m~0, e - 33, loc_Exact)).
  { unfold SFdiv_core_binary. cbn [Zdigits2]. rewrite Hd.
    change (Zpos (digits2_pos 4503599627370496)) with 53. unfold fexp, emin.
    replace (Z.min _ _) with (e - 33) by lia. cbv zeta.
    replace (e - -20 - (e - 33)) with 53 by lia. cbv iota.
    change IntDef.Z.div_eucl with Z.div_eucl. by rewrite Hq. }
  unfold ddiv, SFdiv. rewrite Hc. cbn [xorb].
  assert (Hd2 : Zpos (digits2_pos m~0) = 54) by (cbn [digits2_pos]; lia).
  unfold binary_round_aux. rewrite shr_fexp_long by lia. cbn zeta. rewrite Hd2.
  change (Z.to_nat (54 - 53)) with 1%nat. cbn [Nat.iter nat_rect shr_1 shr_m loc_of_shr_record orb round_nearest_even].
  rewrite shr_fexp_short by lia. cbn [shr_m].
  destruct (Z.leb_spec (e - 33 + (54 - 53)) (1024 - 53)); [|lia]. f_equal. lia.
Qed.

Lemma of_int_0_scale n m e : of_int n = S754_finite false m e ->
  dscale n 0 (2 ^ 32 - 1) = S754_zero false.
Proof. intros E. unfold dscale. rewrite E. change (ddiv _ _) with (S754_zero false). reflexivity. Qed.

(** The scaling of a 32-bit draw lands below [n], whatever the rounding. *)
Lemma dscale_lt n r : 0 < n < 2 ^ 53 -> 0 <= r < 2 ^ 32 ->
  exists k, dtrunc (dscale n r (2 ^ 32 - 1)) = Some k /\ 0 <= k < n.
Proof.
  intros Hn Hr. destruct (of_int_small n Hn) as (mn & en & En & Hdn & Hen & Hen' & Hmn).
  destruct (Z.eq_dec r 0) as [->|Hr0].
  { rewrite (of_int_0_scale n mn en En). exists 0. split; [done|lia]. }
  destruct (of_int_small r) as (mr & er & Er & Hnr); [lia|].
  unfold dscale. rewrite En, Er, (ddiv_2_32 r mr er Hnr). destruct Hnr as (Hdr & Her & Her' & Hmr).
  unfold dmul, SFmul. cbn [xorb].
  pose proof (digits2_bounds mn) as Hbn. pose proof (digits2_bounds mr) as Hbr. rewrite Hdn in Hbn. rewrite Hdr in Hbr.
  assert (Hd : Zpos (digits2_pos (mn * mr)) <= 300).
  { pose proof (digits2_bounds (mn * mr)) as Hb. destruct (Z.le_gt_cases (Zpos (digits2_pos (mn * mr))) 300); [done|].
    pose proof (Z.pow_le_mono_r 2 300 (Zpos (digits2_pos (mn * mr)) - 1)). nia. }
  destruct (round_bounds (mn * mr) (en + (er - 32))) as (m & e & -> & He & Hv & _); [lia..|].
  set (ex := en + (er - 32)) in *.
  assert (Hlt : Zpos m * 2 ^ (e - ex) < n * 2 ^ (- ex)).
  { replace (- ex) with (- en + - er + 32) by lia. rewrite !Z.pow_add_r by lia.
    rewrite Pos2Z.inj_mul, Hmn, Hmr in Hv. set (A := 2 ^ (- en)) in *. set (B := 2 ^ (- er)) in *.
    assert (0 < A) by (subst A; lia). assert (0 < B) by (subst B; lia). assert (0 < n * A * B) by nia.
    assert (r * (2 ^ 53 + 1) < 2 ^ 32 * 2 ^ 53) by lia. nia. }
  cbn [dtrunc]. eexists. split; [done|].
  destruct (Z.leb_spec 0 e).
  - replace (e - ex) with (e + - ex) in Hlt by lia. rewrite Z.pow_add_r in Hlt by lia.
    assert (0 < 2 ^ (- ex)) by lia. split; [|nia]. assert (0 < 2 ^ e) by lia. nia.
  - replace (- ex) with (- e + (e - ex)) in Hlt by lia. rewrite Z.pow_add_r in Hlt by lia.
    assert (0 < 2 ^ (e - ex)) by lia. assert (0 < 2 ^ (- e)) by lia.
    split; [apply Z.div_pos; lia|]. apply Z.div_lt_upper_bound; [lia|]. nia.
Qed.

(** A 64-bit draw within 512 of [2^64] rounds up, and the scaling lands on
    [n] itself. *)
Lemma dscale_64_top : dtrunc (dscale 1000 (2 ^ 64 - 512) (2 ^ 64 - 1)) = Some 1000.
Proof. done. Qed.

Lemma to_u64_scale n r : 0 < n < 2 ^ 53 -> 0 <= r < 2 ^ 32 ->
  exists k, to_u64 (dscale n r (2 ^ 32 - 1)) = Some k /\ 0 <= k < n.
Proof.
  intros Hn Hr. destruct (dscale_lt n r Hn Hr) as (k & E & Hk). exists k. split; [|done].
  unfold to_u64, dcast. rewrite E. cbn [mbind option_bind].
  destruct (Z.leb_spec 0 k), (Z.ltb_spec k (2 ^ 64)); cbn; done || lia.
Qed.

Lemma to_s32_scale n r : 0 < n < 2 ^ 31 -> 0 <= r < 2 ^ 32 ->
  exists k, to_s32 (dscale n r (2 ^ 32 - 1)) = Some k /\ 0 <= k < n.
Proof.
  intros Hn Hr. destruct (dscale_lt n r) as (k & E & Hk); [lia..|]. exists k. split; [|done].
  unfold to_s32, dcast. rewrite E. cbn [mbind option_bind].
  destruct (Z.leb_spec (- 2 ^ 31) k), (Z.ltb_spec k (2 ^ 31)); cbn; done || lia.
Qed.

Lemma to_u32_scale n r : 0 < n < 2 ^ 32 -> 0 <= r < 2 ^ 32 ->
  exists k, to_u32 (dscale n r (2 ^ 32 - 1)) = Some k /\ 0 <= k < n.
Proof.
  intros Hn Hr. destruct (dscale_lt n r) as (k & E & Hk); [lia..|]. exists k. split; [|done].
  unfold to_u32, dcast. rewrite E. cbn [mbind option_bind].
  destruct (Z.leb_spec 0 k), (Z.ltb_spec k (2 ^ 32)); cbn; done || lia.
Qed.
