(* ===== verification/Dist.v ===== *)
(** * Random distributions: [lib/zipf.c], [lib/gauss.c], [lib/rand.h]

    The zipf, pareto and gaussian offset generators and [rand32_between].
    [pow] and [log] of the mathematical library are parameters; the rest of
    the double arithmetic is [CFloat]'s. *)
From S2P Require Import Prelude Rand CFloat.

Definition GOLDEN_RATIO_64 : Z := 0x61C8864680B583EB.
Definition __hash_u64 (val : Z) : Z := u64 (val * GOLDEN_RATIO_64).

(** [start + (int) ((double)end * (r / (FRAND32_MAX + 1.0)))]; the assertion
    that the state is the 32-bit one fails otherwise. *)
Definition rand32_between (state : frand_state) (start end_ : Z) : option (frand_state * Z) :=
  match state with
  | State64 _ => None
  | State32 s =>
      let '(s, r) := __rand32 s in
      v ← to_s32 (dscale end_ r FRAND32_MAX);
      Some (State32 s, start + v)
  end.

(** ** Zipf and pareto *)
Record zipf_state := Zipf {
  z_nranges : Z; theta : double; zeta2 : double; zetan : double; pareto_pow : double;
  z_rand : frand_state; rand_off : Z; z_disable_hash : bool
}.

Definition ZIPF_MAX_GEN : Z := 10000000.
Definition dzero : double := of_int 0.
Definition done_ : double := of_int 1.
Definition dtwo : double := of_int 2.
Definition dhalf : double := ddiv done_ dtwo.

Section zipf.
Context (pow : double -> double -> double) (log : double -> double).

(** The summation loop of [zipf_update], [i] counting up to [to_gen]. *)
Fixpoint zetan_loop (n : nat) (i : Z) (theta zetan : double) : double :=
  match n with
  | O => zetan
  | S n => zetan_loop n (i + 1) theta (dadd zetan (pow (ddiv done_ (of_int (u32 (i + 1)))) theta))
  end.

Definition zipf_update (zs : zipf_state) : zipf_state :=
  let to_gen := Z.min (z_nranges zs) ZIPF_MAX_GEN in
  Zipf (z_nranges zs) (theta zs) (zeta2 zs) (zetan_loop (Z.to_nat to_gen) 0 (theta zs) (zetan zs))
    (pareto_pow zs) (z_rand zs) (rand_off zs) (z_disable_hash zs).

Definition shared_rand_init (nranges seed : Z) : zipf_state :=
  let '(r, off) := __rand (init_rand_seed seed false) in
  Zipf nranges dzero dzero dzero dzero r off false.

Definition zipf_init (nranges : Z) (th : double) (seed : Z) : zipf_state :=
  let zs := shared_rand_init nranges seed in
  zipf_update (Zipf (z_nranges zs) th (dadd (pow done_ th) (pow dhalf th)) (zetan zs)
    (pareto_pow zs) (z_rand zs) (rand_off zs) (z_disable_hash zs)).

Definition set_rand (zs : zipf_state) (r : frand_state) : zipf_state :=
  Zipf (z_nranges zs) (theta zs) (zeta2 zs) (zetan zs) (pareto_pow zs) r (rand_off zs) (z_disable_hash zs).

Definition zipf_next (zs : zipf_state) : option (zipf_state * Z) :=
  let n := of_int (z_nranges zs) in
  let alpha := ddiv done_ (dsub done_ (theta zs)) in
  let eta := ddiv (dsub done_ (pow (ddiv dtwo n) (dsub done_ (theta zs))))
                  (dsub done_ (ddiv (zeta2 zs) (zetan zs))) in
  let '(r, v) := __rand (z_rand zs) in
  let rand_uni := ddiv (of_int v) (of_int FRAND32_MAX) in
  let rand_z := dmul rand_uni (zetan zs) in
  val ← (if dltb rand_z done_ then Some 1
         else if dltb rand_z (dadd done_ (pow dhalf (theta zs))) then Some 2
         else (k ← to_u64 (dmul n (pow (dadd (dsub (dmul eta rand_uni) eta) done_) alpha));
               Some (u64 (1 + k))));
  let val := u64 (val - 1) in
  let val := if z_disable_hash zs then val else __hash_u64 val in
  if z_nranges zs =? 0 then None else
  Some (set_rand zs r, u64 (val + rand_off zs) mod z_nranges zs).

Definition pareto_init (nranges : Z) (h : double) (seed : Z) : zipf_state :=
  let zs := shared_rand_init nranges seed in
  Zipf (z_nranges zs) (theta zs) (zeta2 zs) (zetan zs)
    (ddiv (log h) (log (dsub done_ h))) (z_rand zs) (rand_off zs) (z_disable_hash zs).

Definition pareto_next (zs : zipf_state) : option (zipf_state * Z) :=
  let '(r, v) := __rand (z_rand zs) in
  let rand := ddiv (of_int v) (of_int FRAND32_MAX) in
  n ← to_u64 (dmul (of_int (u64 (z_nranges zs - 1))) (pow rand (pareto_pow zs)));
  let n := if z_disable_hash zs then n else __hash_u64 n in
  if z_nranges zs =? 0 then None else
  Some (set_rand zs r, u64 (n + rand_off zs) mod z_nranges zs).
End zipf.

Definition zipf_disable_hash (zs : zipf_state) : zipf_state :=
  Zipf (z_nranges zs) (theta zs) (zeta2 zs) (zetan zs) (pareto_pow zs) (z_rand zs) (rand_off zs) true.

(** ** Gauss *)
Record gauss_state := Gauss { g_r : frand_state; g_nranges : Z; stddev : Z; g_disable_hash : bool }.

Definition GAUSS_ITERS : nat := 12.

(** A 32-bit pattern read as an [int]. *)
Definition s32 (x : Z) : Z := let x := u32 x in if x <? 2 ^ 31 then x else x - 2 ^ 32.

Definition set_r (gs : gauss_state) (r : frand_state) : gauss_state :=
  Gauss r (g_nranges gs) (stddev gs) (g_disable_hash gs).

(** [vr - gs->stddev / 2] is computed in [unsigned int] and returned as [int]. *)
Definition gauss_dev (gs : gauss_state) : option (gauss_state * Z) :=
  if stddev gs =? 0 then Some (gs, 0) else
  let '(r, v) := __rand (g_r gs) in
  vr ← to_s32 (dscale (stddev gs) (u32 v) FRAND32_MAX);
  Some (set_r gs r, s32 (vr - stddev gs / 2)).

Fixpoint gauss_sum (n : nat) (r : frand_state) (nranges sum : Z) : option (frand_state * Z) :=
  match n with
  | O => Some (r, sum)
  | S n =>
      let '(r, v) := __rand r in
      if u64 (nranges + 1) =? 0 then None else
      gauss_sum n r nranges (u64 (sum + v mod u64 (nranges + 1)))
  end.

(** [while (dev + sum >= gs->nranges) dev /= 2;] with [dev] an [int] and the
    comparison in [unsigned long long]. *)
Fixpoint gauss_shrink (fuel : nat) (dev sum nranges : Z) : option Z :=
  if u64 (dev + sum) <? nranges then Some dev else
  match fuel with
  | O => None
  | S fuel => gauss_shrink fuel (Z.quot dev 2) sum nranges
  end.

Definition gauss_next (fuel : nat) (gs : gauss_state) : option (gauss_state * Z) :=
  '(r, sum) ← gauss_sum GAUSS_ITERS (g_r gs) (g_nranges gs) 0;
  let gs := set_r gs r in
  let sum := u64 (sum + Z.of_nat GAUSS_ITERS - 1) / Z.of_nat GAUSS_ITERS in
  '(gs, sum) ← (if stddev gs =? 0 then Some (gs, sum) else
    '(gs, dev) ← gauss_dev gs;
    dev ← gauss_shrink fuel dev sum (g_nranges gs);
    Some (gs, u64 (sum + dev)));
  let sum := if g_disable_hash gs then sum else __hash_u64 sum in
  if g_nranges gs =? 0 then None else
  Some (gs, sum mod g_nranges gs).

Lemma gauss_range fuel gs gs' v :
  gauss_next fuel gs = Some (gs', v) -> 0 < g_nranges gs -> 0 <= v < g_nranges gs.
Proof.
  intros H Hn. unfold gauss_next in H. apply bind_Some in H as ([r sum] & _ & H).
  apply bind_Some in H as ([g1 s1] & H1 & H).
  assert (E : g_nranges g1 = g_nranges gs).
  { destruct (stddev _ =? 0); [by injection H1 as <- <-|]. apply bind_Some in H1 as ([g2 d] & H2 & H1).
    apply bind_Some in H1 as (d' & _ & H1). injection H1 as <- <-. unfold gauss_dev in H2.
    destruct (stddev _ =? 0); [by injection H2 as <- <-|]. destruct (__rand _) as [r2 x].
    apply bind_Some in H2 as (vr & _ & H2). by injection H2 as <- <-. }
  destruct (Z.eqb_spec (g_nranges g1) 0); [lia|]. injection H as <- <-. rewrite E. by apply Z.mod_pos_bound.
Qed.

(** [ceil] of a double, as the integer it denotes. *)
Definition dceil (x : double) : option Z :=
  n ← dtrunc x; Some (if dltb (of_int n) x then n + 1 else n).

(** [gauss_init]; an [unsigned int] cannot hold a larger [stddev]. *)
Definition gauss_init (nranges : Z) (dev : double) (seed : Z) : option gauss_state :=
  let r := init_rand_seed seed false in
  if SpecFloat.SFeqb dev dzero then Some (Gauss r nranges 0 false) else
  sd ← dceil (ddiv (dmul (of_int nranges) (of_int 100)) dev);
  if negb ((0 <=? sd) && (sd <? 2 ^ 32)) then None else
  Some (Gauss r nranges (if nranges / 2 <? sd then u32 (nranges / 2) else sd) false).

Definition gauss_disable_hash (gs : gauss_state) : gauss_state :=
  Gauss (g_r gs) (g_nranges gs) (stddev gs) true.

(** ** Results are in range *)
Lemma rand32_result st st' r : live (State32 st) -> __rand32 st = (st', r) -> 0 <= r < 2 ^ 32.
Proof.
  intros H E. pose proof (rand_result_uint (State32 st) H) as Hr. cbn [__rand] in Hr.
  rewrite E in Hr. cbn [snd rand_max] in Hr. change FRAND32_MAX with (2 ^ 32 - 1) in Hr. lia.
Qed.

Lemma rand32_between_range st start end_ : live st -> rand_max st = FRAND32_MAX -> 0 < end_ < 2 ^ 31 ->
  exists st' v, rand32_between st start end_ = Some (st', v) /\ start <= v < start + end_.
Proof.
  intros Hl Hm He. destruct st as [s|s]; [|discriminate Hm]. unfold rand32_between.
  destruct (__rand32 s) as [s' r] eqn:Er. pose proof (rand32_result _ _ _ Hl Er).
  destruct (to_s32_scale end_ r) as (k & Ek & Hk); [lia..|].
  change FRAND32_MAX with (2 ^ 32 - 1). rewrite Ek. exists (State32 s'), (start + k).
  split; [done|lia].
Qed.

Lemma zipf_range pow zs zs' v :
  zipf_next pow zs = Some (zs', v) \/ pareto_next pow zs = Some (zs', v) -> 0 < z_nranges zs -> 0 <= v < z_nranges zs.
Proof.
  intros H Hn. unfold zipf_next, pareto_next in H.
  destruct (__rand (z_rand zs)) as [r x]. destruct (Z.eqb_spec (z_nranges zs) 0); [lia|].
  destruct H as [H|H]; apply bind_Some in H as (k & _ & H); injection H as <- <-; by apply Z.mod_pos_bound.
Qed.

(** Whatever the libm functions return, an offset drawn from the zipf or
    the pareto distribution lies below the number of ranges, and drawing one
    changes nothing in the distribution but its generator. *)
Theorem zipf_pareto_in_range pow zs zs' v :
  zipf_next pow zs = Some (zs', v) \/ pareto_next pow zs = Some (zs', v) ->
  0 < z_nranges zs ->
  0 <= v < z_nranges zs /\ zs' = set_rand zs (z_rand zs') /\ z_rand zs' = fst (__rand (z_rand zs)).
Proof.
  intros H Hn. unfold zipf_next, pareto_next in H.
  destruct (__rand (z_rand zs)) as [r x]. destruct (Z.eqb_spec (z_nranges zs) 0); [lia|].
  destruct H as [H|H]; apply bind_Some in H as (k & _ & H); injection H as <- <-;
    (split; [by apply Z.mod_pos_bound|done]).
Qed.

Lemma zipf_pareto_in_range_witness :
  exists zs v, zipf_next (fun x _ => x) (zipf_init (fun x _ => x) 100 dhalf 7) = Some (zs, v) /\ 0 <= v < 100.
Proof.
  destruct (zipf_next (fun x _ => x) (zipf_init (fun x _ => x) 100 dhalf 7)) as [[zs v]|] eqn:E.
  - exists zs, v. split; [done|].
    exact (proj1 (zipf_pareto_in_range _ _ _ _ (or_introl E) eq_refl)).
  - assert (H : (if zipf_next (fun x _ => x) (zipf_init (fun x _ => x) 100 dhalf 7) then true else false) = true)
      by (vm_compute; reflexivity).
    rewrite E in H. discriminate H.
Defined.

(** ** The gaussian generator *)
Lemma gauss_shrink_total fuel : forall dev sum n, 0 <= sum < n -> n < 2 ^ 64 ->
  Z.abs dev < 2 ^ Z.of_nat fuel -> exists dev', gauss_shrink fuel dev sum n = Some dev' /\
    u64 (dev' + sum) < n.
Proof.
  induction fuel as [|fuel IH]; intros dev sum n Hs Hn Hd; cbn [gauss_shrink].
  - assert (dev = 0) as -> by (change (2 ^ Z.of_nat 0) with 1 in Hd; lia).
    assert (E : u64 (0 + sum) = sum) by (apply Z.mod_small; lia). rewrite E.
    destruct (Z.ltb_spec sum n); [|lia]. exists 0. by rewrite E.
  - destruct (Z.ltb_spec (u64 (dev + sum)) n); [by exists dev|].
    apply IH; [done..|]. rewrite Nat2Z.inj_succ, Z.pow_succ_r in Hd by lia.
    Z.to_euclidean_division_equations. lia.
Qed.

Lemma gauss_shrink_full fuel n : 0 < n < 2 ^ 64 -> gauss_shrink fuel 0 n n = None.
Proof.
  intros Hn. assert (E : u64 (0 + n) = n) by (apply Z.mod_small; lia).
  induction fuel as [|fuel IH]; cbn [gauss_shrink]; rewrite E, Z.ltb_irrefl; [done|].
  by change (Z.quot 0 2) with 0.
Qed.

Lemma rand_draw st : live st -> exists st' r, __rand st = (st', r) /\ live st' /\
  rand_max st' = rand_max st /\ 0 <= r <= rand_max st.
Proof.
  intros H. exists (fst (__rand st)), (snd (__rand st)). split_and!.
  - by destruct (__rand st).
  - by apply live_step.
  - by destruct st.
  - apply (rand_result_uint st H).
  - apply (rand_result_uint st H).
Qed.

Lemma gauss_sum_bound k : forall st n sum, live st -> 0 < n < 2 ^ 32 -> 0 <= sum ->
  sum + Z.of_nat k * n < 2 ^ 64 ->
  exists st' sum', gauss_sum k st n sum = Some (st', sum') /\ live st' /\ rand_max st' = rand_max st /\
    sum <= sum' <= sum + Z.of_nat k * n.
Proof.
  induction k as [|k IH]; intros st n sum Hl Hn Hs Hb; cbn [gauss_sum].
  { exists st, sum. split_and!; [done..|lia|lia]. }
  destruct (rand_draw st Hl) as (st1 & r & -> & Hl1 & Hm1 & Hr).
  assert (En : u64 (n + 1) = n + 1) by (apply Z.mod_small; lia). rewrite En.
  destruct (Z.eqb_spec (n + 1) 0); [lia|].
  pose proof (Z.mod_pos_bound r (n + 1)).
  assert (Es : u64 (sum + r mod (n + 1)) = sum + r mod (n + 1)) by (apply Z.mod_small; nia). rewrite Es.
  destruct (IH st1 n (sum + r mod (n + 1))) as (st2 & sum2 & E2 & Hl2 & Hm2 & Hs2); [done|lia|lia|nia|].
  exists st2, sum2. split_and!; [done|done|congruence|lia|nia].
Qed.

Lemma s32_abs x : Z.abs (s32 x) <= 2 ^ 31.
Proof. unfold s32. pose proof (wrap_bounds 32 x). zcase; lia. Qed.

(** [sum / 12] rounded up, the value the loop of [gauss_next] starts from. *)
Definition gauss_mean (gs : gauss_state) : option Z :=
  '(_, sum) ← gauss_sum GAUSS_ITERS (g_r gs) (g_nranges gs) 0; Some ((sum + 11) / 12).

(** The mean of the twelve draws never exceeds the number of ranges, and
    whenever it stays below it the gaussian generator terminates, within 32
    halvings of the deviation, with an offset below the number of ranges. *)
Theorem gauss_next_total gs :
  live (g_r gs) -> rand_max (g_r gs) = FRAND32_MAX ->
  0 < g_nranges gs < 2 ^ 32 -> 0 <= stddev gs <= g_nranges gs / 2 ->
  exists mean, gauss_mean gs = Some mean /\ mean <= g_nranges gs /\
    (mean < g_nranges gs ->
     exists gs' v, gauss_next 32 gs = Some (gs', v) /\ 0 <= v < g_nranges gs /\ live (g_r gs')).
Proof.
  intros Hl Hm Hn Hsd. unfold gauss_mean, gauss_next.
  destruct (gauss_sum_bound GAUSS_ITERS (g_r gs) (g_nranges gs) 0) as (r & sum & -> & Hl1 & Hm1 & Hs);
    [done|done|lia|unfold GAUSS_ITERS; lia|].
  cbn [mbind option_bind]. change (Z.of_nat GAUSS_ITERS) with 12 in *.
  exists ((sum + 11) / 12). split; [done|]. split; [zdm|].
  intros Hlt. assert (E : u64 (sum + 12 - 1) = sum + 11) by (replace (sum + 12 - 1) with (sum + 11) by lia; apply Z.mod_small; lia).
  rewrite E. set (mean := (sum + 11) / 12) in *. assert (0 <= mean) by (apply Z.div_pos; lia).
  change (stddev (set_r gs r)) with (stddev gs). change (g_nranges (set_r gs r)) with (g_nranges gs).
  destruct (Z.eqb_spec (stddev gs) 0) as [Ez|Ez].
  - cbn [mbind option_bind]. change (g_nranges (set_r gs r)) with (g_nranges gs).
    destruct (Z.eqb_spec (g_nranges gs) 0); [lia|]. eexists _, _. split; [done|].
    split; [apply Z.mod_pos_bound; lia|done].
  - unfold gauss_dev. change (stddev (set_r gs r)) with (stddev gs). change (g_r (set_r gs r)) with r.
    destruct (Z.eqb_spec (stddev gs) 0); [done|].
    destruct (rand_draw r Hl1) as (r2 & v & -> & Hl2 & Hm2 & Hv).
    assert (stddev gs < 2 ^ 31) by zdm.
    destruct (to_s32_scale (stddev gs) (u32 v)) as (k & Ek & Hk); [lia|apply wrap_bounds; lia|].
    change FRAND32_MAX with (2 ^ 32 - 1). rewrite Ek. cbn [mbind option_bind set_r g_nranges].
    destruct (gauss_shrink_total 32 (s32 (k - stddev gs / 2)) mean (g_nranges gs)) as (dev' & -> & Hdev);
      [lia..| |].
    { pose proof (s32_abs (k - stddev gs / 2)). change (2 ^ Z.of_nat 32) with (2 * 2 ^ 31). lia. }
    cbn [mbind option_bind]. change (g_nranges (set_r (set_r gs r) r2)) with (g_nranges gs).
    destruct (Z.eqb_spec (g_nranges gs) 0); [lia|]. eexists _, _. split; [done|].
    split; [apply Z.mod_pos_bound; lia|done].
Qed.

Lemma gauss_next_total_witness :
  exists gs, gauss_init 1000 (of_int 10) 7 = Some gs /\ exists gs' v, gauss_next 32 gs = Some (gs', v) /\ 0 <= v < 1000.
Proof.
  destruct (gauss_init 1000 (of_int 10) 7) as [gs|] eqn:E; [|vm_compute in E; discriminate E].
  exists gs. split; [reflexivity|]. vm_compute in E. injection E as <-.
  set (gs := Gauss _ _ _ _).
  destruct (gauss_next_total gs) as (mean & Em & _ & H);
    [by apply (bool_decide_unpack _); vm_compute|done|done|done|].
  destruct H as (gs' & v & Hv & Hr & _); [by vm_compute in Em; injection Em as <-|].
  exists gs', v. exact (conj Hv Hr).
Defined.

(** On a file of two ranges the generator can hang: seeded with 2, its very
    first draw leaves a mean equal to the number of ranges and a zero
    deviation, and the halving loop never ends. *)
Theorem gauss_next_hangs fuel :
  exists gs, gauss_init 2 (of_int 10) 2 = Some gs /\ gauss_mean gs = Some (g_nranges gs) /\
    gauss_next fuel gs = None.
Proof.
  destruct (gauss_init 2 (of_int 10) 2) as [gs|] eqn:E; [|vm_compute in E; discriminate E].
  exists gs. split; [reflexivity|]. vm_compute in E. injection E as <-. split; [by vm_compute|].
  unfold gauss_next. cbn [g_r g_nranges].
  set (s := gauss_sum _ _ _ _). vm_compute in s. subst s. cbn [mbind option_bind].
  change (u64 _ / _) with 2. unfold set_r, gauss_dev. cbn [stddev g_r g_nranges g_disable_hash].
  change (1 =? 0) with false. cbv iota.
  set (s := __rand _). vm_compute in s. subst s. cbv iota beta.
  set (s := to_s32 _). vm_compute in s. subst s. cbn [mbind option_bind].
  change (s32 _) with 0. by rewrite gauss_shrink_full.
Qed.
