(* ===== verification/Lfsr.v ===== *)
(** * The LFSR offset generator: [lib/lfsr.c]

    [random_generator=lfsr] visits the blocks of a file in an order given by a
    linear feedback shift register, without keeping a map of the blocks seen.
    The register holds up to 63 bits and runs in XNOR form, so that all ones is
    the one value it never takes. *)
From S2P Require Import Prelude.

Definition FIO_MAX_TAPS : nat := 6.

Definition lfsr_taps : list (list Z) :=
  [[0; 0; 0; 0; 0; 0];
   [0; 0; 0; 0; 0; 0];
   [0; 0; 0; 0; 0; 0];
   [3; 2; 0; 0; 0; 0];
   [4; 3; 0; 0; 0; 0];
   [5; 3; 0; 0; 0; 0];
   [6; 5; 0; 0; 0; 0];
   [7; 6; 0; 0; 0; 0];
   [8; 6; 5; 4; 0; 0];
   [9; 5; 0; 0; 0; 0];
   [10; 7; 0; 0; 0; 0];
   [11; 9; 0; 0; 0; 0];
   [12; 6; 4; 1; 0; 0];
   [13; 4; 3; 1; 0; 0];
   [14; 5; 3; 1; 0; 0];
   [15; 14; 0; 0; 0; 0];
   [16; 15; 13; 4; 0; 0];
   [17; 14; 0; 0; 0; 0];
   [18; 11; 0; 0; 0; 0];
   [19; 6; 2; 1; 0; 0];
   [20; 17; 0; 0; 0; 0];
   [21; 19; 0; 0; 0; 0];
   [22; 21; 0; 0; 0; 0];
   [23; 18; 0; 0; 0; 0];
   [24; 23; 22; 17; 0; 0];
   [25; 22; 0; 0; 0; 0];
   [26; 6; 2; 1; 0; 0];
   [27; 5; 2; 1; 0; 0];
   [28; 25; 0; 0; 0; 0];
   [29; 27; 0; 0; 0; 0];
   [30; 6; 4; 1; 0; 0];
   [31; 28; 0; 0; 0; 0];
   [32; 31; 29; 1; 0; 0];
   [33; 20; 0; 0; 0; 0];
   [34; 27; 2; 1; 0; 0];
   [35; 33; 0; 0; 0; 0];
   [36; 25; 0; 0; 0; 0];
   [37; 5; 4; 3; 2; 1];
   [38; 6; 5; 1; 0; 0];
   [39; 35; 0; 0; 0; 0];
   [40; 38; 21; 19; 0; 0];
   [41; 38; 0; 0; 0; 0];
   [42; 41; 20; 19; 0; 0];
   [43; 42; 38; 37; 0; 0];
   [44; 43; 18; 17; 0; 0];
   [45; 44; 42; 41; 0; 0];
   [46; 45; 26; 25; 0; 0];
   [47; 42; 0; 0; 0; 0];
   [48; 47; 21; 20; 0; 0];
   [49; 40; 0; 0; 0; 0];
   [50; 49; 24; 23; 0; 0];
   [51; 50; 36; 35; 0; 0];
   [52; 49; 0; 0; 0; 0];
   [53; 52; 38; 37; 0; 0];
   [54; 53; 18; 17; 0; 0];
   [55; 31; 0; 0; 0; 0];
   [56; 55; 35; 34; 0; 0];
   [57; 50; 0; 0; 0; 0];
   [58; 39; 0; 0; 0; 0];
   [59; 58; 38; 37; 0; 0];
   [60; 59; 0; 0; 0; 0];
   [61; 60; 46; 45; 0; 0];
   [62; 61; 6; 5; 0; 0];
   [63; 62; 0; 0; 0; 0]].

Record fio_lfsr := Lfsr {
  xormask : Z;
  last_val : Z;
  cached_bit : Z;
  max_val : Z;
  num_vals : Z;
  cycle_length : Z;
  cached_cycle_length : Z;
  spin : Z
}.

(** [__LFSR_NEXT]: [((v & 1) - 1) & xormask] is the mask when the bit shifted
    out is 0 and nothing when it is 1. *)
Definition __LFSR_NEXT (fl : fio_lfsr) (v : Z) : Z :=
  Z.lxor (Z.lor (Z.shiftr v 1) (cached_bit fl))
         (Z.land (u64 (Z.land v 1 - 1)) (xormask fl)).

Definition set_last_val (fl : fio_lfsr) (v : Z) : fio_lfsr :=
  Lfsr (xormask fl) v (cached_bit fl) (max_val fl) (num_vals fl) (cycle_length fl)
    (cached_cycle_length fl) (spin fl).

(** The [switch] falls through from case [spin]: [spin + 1] steps, none above 15. *)
Definition __lfsr_next (fl : fio_lfsr) (spin : Z) : fio_lfsr :=
  if (0 <=? spin) && (spin <=? 15)
  then set_last_val fl (Nat.iter (Z.to_nat (spin + 1)) (__LFSR_NEXT fl) (last_val fl))
  else fl.

Definition set_cycle_length (fl : fio_lfsr) (c : Z) : fio_lfsr :=
  Lfsr (xormask fl) (last_val fl) (cached_bit fl) (max_val fl) (num_vals fl) c
    (cached_cycle_length fl) (spin fl).

(** One pass of the [do] loop of [lfsr_next]. *)
Definition lfsr_pass (fl : fio_lfsr) : fio_lfsr :=
  if cycle_length fl =? 0 then __lfsr_next fl (spin fl) else
  let fl := set_cycle_length fl (cycle_length fl - 1) in
  if cycle_length fl =? 0 then
    set_cycle_length (__lfsr_next fl (u32 (spin fl + 1))) (cached_cycle_length fl)
  else __lfsr_next fl (spin fl).

Fixpoint lfsr_loop (fuel : nat) (fl : fio_lfsr) : option fio_lfsr :=
  match fuel with
  | O => None
  | S fuel =>
      let fl := lfsr_pass fl in
      if max_val fl <? last_val fl then lfsr_loop fuel fl else Some fl
  end.

Definition inc_num_vals (fl : fio_lfsr) : fio_lfsr :=
  Lfsr (xormask fl) (last_val fl) (cached_bit fl) (max_val fl) (u64 (num_vals fl + 1))
    (cycle_length fl) (cached_cycle_length fl) (spin fl).

(** [lfsr_next]: no offset is the return value 1. *)
Definition lfsr_next (fuel : nat) (fl : fio_lfsr) : option (fio_lfsr * option Z) :=
  let n := num_vals fl in
  let fl := inc_num_vals fl in
  if max_val fl <? n then Some (fl, None) else
  fl ← lfsr_loop fuel fl;
  Some (fl, Some (last_val fl)).

(** The loop over the taps stops at the first 0. *)
Fixpoint create_xormask_loop (taps : list Z) (mask : Z) : Z :=
  match taps with
  | [] => mask
  | t :: taps => if t =? 0 then mask else create_xormask_loop taps (Z.lor mask (shl 64 1 (t - 1)))
  end.

Definition lfsr_create_xormask (taps : list Z) : Z :=
  create_xormask_loop (take FIO_MAX_TAPS taps) 0.

(** [for (i = 3; i < 64; i++) if ((1UL << i) > size) return lfsr_taps[i]]. *)
Fixpoint find_lfsr_loop (fuel : nat) (i size : Z) : option (list Z) :=
  match fuel with
  | O => None
  | S fuel => if size <? shl 64 1 i then arr_get lfsr_taps i else find_lfsr_loop fuel (i + 1) size
  end.

Definition find_lfsr (size : Z) : option (list Z) := find_lfsr_loop 61 3 size.

(** The search of [prepare_spin] for the first [i] in [1, spin] that closes a
    short cycle: its length, or 0. *)
Fixpoint spin_cycle (fuel : nat) (i x y spin : Z) : Z :=
  match fuel with
  | O => 0
  | S fuel =>
      if spin <? i then 0
      else if (y * i) mod (spin + 1) =? 0 then u64 (x * i + y * i / (spin + 1))
      else spin_cycle fuel (i + 1) x y spin
  end.

Definition prepare_spin (fl : fio_lfsr) (spin : Z) : fio_lfsr * Z :=
  let max := u64 (shl 64 (cached_bit fl) 1 - 1) in
  if 15 <? spin then (fl, 1) else
  let x := max / (spin + 1) in
  let y := max mod (spin + 1) in
  let c := spin_cycle 16 1 x y spin in
  (Lfsr (xormask fl) (last_val fl) (cached_bit fl) (max_val fl) (num_vals fl) (u64 (c + 1)) c spin, 0).

Definition lfsr_reset (fl : fio_lfsr) (seed : Z) : fio_lfsr * Z :=
  let bitmask := u64 (shl 64 (cached_bit fl) 1 - 1) in
  let v := Z.land seed bitmask in
  (Lfsr (xormask fl) v (cached_bit fl) (max_val fl) 0 (cycle_length fl)
     (cached_cycle_length fl) (spin fl), if v =? bitmask then 1 else 0).

(** [lfsr_init]: the structure and the return code. *)
Definition lfsr_init (fl : fio_lfsr) (nums seed spin_ : Z) : fio_lfsr * Z :=
  match find_lfsr nums with
  | None => (fl, 1)
  | Some taps =>
      let bit := shl 64 1 (default 0 (arr_get taps 0) - 1) in
      let fl := Lfsr (lfsr_create_xormask taps) (last_val fl) bit (u64 (nums - 1)) (num_vals fl)
                  (cycle_length fl) (cached_cycle_length fl) (spin fl) in
      let '(fl, rc) := prepare_spin fl spin_ in
      if negb (rc =? 0) then (fl, 1) else
      let '(fl, rc) := lfsr_reset fl seed in
      if negb (rc =? 0) then (fl, 1) else (fl, 0)
  end.

(** A structure as the caller leaves it before [lfsr_init]. *)
Definition lfsr_blank : fio_lfsr := Lfsr 0 0 0 0 0 0 0 0.

(** The offsets of the first [n] calls. *)
Fixpoint lfsr_offsets (n fuel : nat) (fl : fio_lfsr) : option (list Z) :=
  match n with
  | O => Some []
  | S n =>
      '(fl, off) ← lfsr_next fuel fl;
      match off with
      | None => Some []
      | Some v => l ← lfsr_offsets n fuel fl; Some (v :: l)
      end
  end.

(** ** The register: proofs

    [width i fl]: the register has [i] bits, its mask contains the top one. *)
Record width (i : Z) (fl : fio_lfsr) : Prop := {
  w_range : 3 <= i <= 63;
  w_bit : cached_bit fl = 2 ^ (i - 1);
  w_mask : uint i (xormask fl);
  w_top : Z.testbit (xormask fl) (i - 1) = true
}.

(** The values the register can hold: [i] bits, not all ones. *)
Definition valid (i v : Z) : Prop := 0 <= v < 2 ^ i - 1.

Lemma land_1 v : Z.land v 1 = v mod 2.
Proof. apply (land_pow2_mod v 1). lia. Qed.

Lemma next_mask fl v : uint 64 (xormask fl) ->
  Z.land (u64 (Z.land v 1 - 1)) (xormask fl) = if Z.testbit v 0 then 0 else xormask fl.
Proof.
  intros Hm. rewrite land_1, Z.bit0_odd, Zmod_odd. destruct (Z.odd v).
  - change (u64 (1 - 1)) with 0. apply Z.land_0_l.
  - change (u64 (0 - 1)) with (Z.ones 64). rewrite Z.land_comm, Z.land_ones by lia.
    by apply wrap_small.
Qed.

Lemma next_testbit i fl v k :
  width i fl -> uint i v -> 0 <= k < i ->
  Z.testbit (__LFSR_NEXT fl v) k =
    if k =? i - 1 then Z.testbit v 0
    else xorb (Z.testbit v (k + 1)) (negb (Z.testbit v 0) && Z.testbit (xormask fl) k).
Proof.
  intros [Hi Hb Hm Ht] Hv Hk. unfold __LFSR_NEXT.
  rewrite next_mask by (unfold uint in *; assert (2 ^ i <= 2 ^ 64) by (apply Z.pow_le_mono_r; lia); lia).
  rewrite Z.lxor_spec, Z.lor_spec, Z.shiftr_spec, Hb, Z.pow2_bits_eqb by lia.
  destruct (Z.eqb_spec k (i - 1)) as [->|Hne].
  - rewrite (uint_testbit_high i) by (done || lia). rewrite Z.eqb_refl. cbn [orb].
    destruct (Z.testbit v 0); [by rewrite Z.bits_0|by rewrite Ht].
  - rewrite (proj2 (Z.eqb_neq (i - 1) k)) by lia. rewrite orb_false_r.
    destruct (Z.testbit v 0); [by rewrite Z.bits_0|done].
Qed.

Lemma next_uint i fl v : width i fl -> uint i v -> uint i (__LFSR_NEXT fl v).
Proof.
  intros [Hi Hb Hm Ht] Hv. unfold __LFSR_NEXT. apply lxor_uint; [lia| |].
  - apply lor_uint; [lia|by apply shiftr_uint; [lia|]|]. rewrite Hb.
    split; [apply Z.pow_nonneg; lia|apply Z.pow_lt_mono_r; lia].
  - rewrite Z.land_comm. apply land_uint; [lia|done|]. apply (wrap_uint 64). lia.
Qed.

(** A step loses no information. *)
Lemma next_injective i fl x y :
  width i fl -> uint i x -> uint i y -> __LFSR_NEXT fl x = __LFSR_NEXT fl y -> x = y.
Proof.
  intros Hw Hx Hy E. pose proof Hw as [Hi _ _ _].
  assert (forall k, 0 <= k < i -> Z.testbit (__LFSR_NEXT fl x) k = Z.testbit (__LFSR_NEXT fl y) k)
    as Hb by (intros; by rewrite E).
  assert (Z.testbit x 0 = Z.testbit y 0) as H0.
  { specialize (Hb (i - 1) ltac:(lia)). rewrite !(next_testbit i) in Hb by (done || lia).
    by rewrite Z.eqb_refl in Hb. }
  apply (uint_ext i); [done..|]. intros k Hk. destruct (decide (k = 0)) as [->|]; [done|].
  specialize (Hb (k - 1) ltac:(lia)). rewrite !(next_testbit i), H0 in Hb by (done || lia).
  rewrite (proj2 (Z.eqb_neq (k - 1) (i - 1))) in Hb by lia.
  replace (k - 1 + 1) with k in Hb by lia.
  destruct (Z.testbit x k), (Z.testbit y k), (negb _ && _); done.
Qed.

Lemma next_ones i fl : width i fl -> __LFSR_NEXT fl (Z.ones i) = Z.ones i.
Proof.
  intros Hw. pose proof Hw as [Hi _ _ _].
  assert (uint i (Z.ones i)) as Ho by (apply all_ones_uint; lia).
  apply (uint_ext i); [by apply next_uint|done|]. intros k Hk.
  rewrite (next_testbit i) by done. rewrite !Z.testbit_ones_nonneg by lia.
  destruct (Z.ltb_spec 0 i), (Z.ltb_spec k i), (Z.ltb_spec (k + 1) i); try lia; simpl.
  - by rewrite (proj2 (Z.eqb_neq k (i - 1))) by lia.
  - by rewrite (proj2 (Z.eqb_eq k (i - 1))) by lia.
Qed.

Lemma next_valid i fl v : width i fl -> valid i v -> valid i (__LFSR_NEXT fl v).
Proof.
  intros Hw Hv. assert (uint i v) as Hu by (unfold valid, uint in *; lia).
  pose proof (next_uint i fl v Hw Hu) as Hn. unfold uint, valid in *.
  enough (__LFSR_NEXT fl v <> 2 ^ i - 1) by lia. intros E.
  assert (Z.ones i = 2 ^ i - 1) as Eo by (rewrite Z.ones_equiv; lia).
  rewrite <- Eo, <- (next_ones i fl) in E by done. apply (next_injective i) in E; [lia|done|done|].
  unfold uint. lia.
Qed.

(** Every row of the tap table describes such a register. *)
Definition row_ok (i : Z) : bool :=
  match arr_get lfsr_taps i with
  | Some taps => bool_decide (default 0 (arr_get taps 0) = i) &&
      (lfsr_create_xormask taps <? 2 ^ i) && (0 <=? lfsr_create_xormask taps) &&
      Z.testbit (lfsr_create_xormask taps) (i - 1)
  | None => false
  end.

Lemma rows_ok : forallb row_ok (Z.of_nat <$> seq 3 61) = true.
Proof. vm_compute. reflexivity. Qed.

Lemma row_spec i : 3 <= i <= 63 -> exists taps, arr_get lfsr_taps i = Some taps /\
  arr_get taps 0 = Some i /\ uint i (lfsr_create_xormask taps) /\
  Z.testbit (lfsr_create_xormask taps) (i - 1) = true.
Proof.
  intros Hi. pose proof rows_ok as H. rewrite forallb_forall in H. specialize (H i).
  assert (row_ok i = true) as Hr.
  { apply H, list_elem_of_In, list_elem_of_fmap. exists (Z.to_nat i).
    rewrite list_elem_of_In, in_seq. lia. }
  unfold row_ok in Hr. destruct (arr_get lfsr_taps i) as [taps|]; [|done].
  apply andb_true_iff in Hr as [Hr Ht]. zbool. apply bool_decide_eq_true in H0.
  exists taps. split; [done|]. split; [|split; [unfold uint; lia|done]].
  destruct (arr_get taps 0); simpl in *; [by f_equal|lia].
Qed.

Lemma shl_1 i : 0 <= i <= 63 -> shl 64 1 i = 2 ^ i.
Proof.
  intros Hi. unfold shl. rewrite Z.shiftl_1_l. apply wrap_small. split; [apply Z.pow_nonneg; lia|].
  apply Z.pow_lt_mono_r; lia.
Qed.

Lemma find_lfsr_loop_spec fuel : forall i size, 3 <= i -> i + Z.of_nat fuel = 64 ->
  0 <= size < 2 ^ 63 -> (i = 3 \/ 2 ^ (i - 1) <= size) ->
  exists k, 3 <= k <= 63 /\ find_lfsr_loop fuel i size = arr_get lfsr_taps k /\ size < 2 ^ k /\
    (k = 3 \/ 2 ^ (k - 1) <= size).
Proof.
  induction fuel as [|fuel IH]; intros i size Hi Hf Hs Hp; cbn [find_lfsr_loop].
  - replace i with 64 in * by lia. lia.
  - rewrite shl_1 by lia. destruct (Z.ltb_spec size (2 ^ i)).
    + exists i. split_and!; done || lia.
    + apply IH; [lia..|]. right. by replace (i + 1 - 1) with i by lia.
Qed.

(** The state [lfsr_init] leaves on success: a register wide enough for
    [nums] values, holding a legal value. *)
Lemma lfsr_init_spec fl0 nums seed sp fl :
  0 < nums < 2 ^ 63 -> 0 <= seed -> 0 <= sp -> lfsr_init fl0 nums seed sp = (fl, 0) ->
  exists i, width i fl /\ valid i (last_val fl) /\ max_val fl = nums - 1 /\ num_vals fl = 0 /\
    spin fl = sp /\ sp <= 15 /\ nums < 2 ^ i /\ (i = 3 \/ 2 ^ (i - 1) <= nums) /\
    (exists taps, arr_get lfsr_taps i = Some taps /\ xormask fl = lfsr_create_xormask taps) /\
    cached_cycle_length fl = spin_cycle 16 1 ((2 ^ i - 1) / (sp + 1)) ((2 ^ i - 1) mod (sp + 1)) sp /\
    cycle_length fl = u64 (cached_cycle_length fl + 1).
Proof.
  intros Hn Hseed Hsp. unfold lfsr_init.
  destruct (find_lfsr_loop_spec 61 3 nums) as (i & Hi & Hf & Hlt & Hge); [lia..|by left|].
  fold (find_lfsr nums) in Hf.
  destruct (row_spec i Hi) as (taps & Hr & H0 & Hm & Ht). rewrite Hf, Hr, H0. 
  change (default 0 (Some i)) with i. rewrite shl_1 by lia. unfold prepare_spin. cbn [cached_bit].
  assert (u64 (shl 64 (2 ^ (i - 1)) 1 - 1) = 2 ^ i - 1) as Hones.
  { unfold shl. rewrite Z.shiftl_mul_pow2 by lia.
    replace (2 ^ (i - 1) * 2 ^ 1) with (2 ^ i) by (rewrite <- Z.pow_add_r by lia; f_equal; lia).
    assert (8 <= 2 ^ i <= 2 ^ 63) by (split; [apply (Z.pow_le_mono_r 2 3)|apply Z.pow_le_mono_r]; lia).
    rewrite (wrap_small 64 (2 ^ i)), wrap_small by (unfold uint; lia). done. }
  destruct (Z.ltb_spec 15 sp); [done|]. cbn [negb Z.eqb]. unfold lfsr_reset.
  cbn [xormask last_val cached_bit max_val num_vals cycle_length cached_cycle_length spin].
  rewrite Hones.
  assert (Z.land seed (2 ^ i - 1) = seed mod 2 ^ i) as -> by (apply land_pow2_mod; lia).
  destruct (Z.eqb_spec (seed mod 2 ^ i) (2 ^ i - 1)) as [|Hne]; cbn [Z.eqb negb]; [done|].
  intros [= <-]. exists i.
  cbn [xormask last_val cached_bit max_val num_vals cycle_length cached_cycle_length spin].
  pose proof (Z.mod_pos_bound seed (2 ^ i) ltac:(lia)).
  split_and!; try done; try lia.
  - unfold valid. lia.
  - apply wrap_small. unfold uint. lia.
  - by exists taps.
Qed.

(** ** What every call of [lfsr_next] preserves *)
Definition lfsr_inv (i : Z) (fl : fio_lfsr) : Prop := width i fl /\ valid i (last_val fl).

Lemma iter_valid i fl n v : width i fl -> valid i v -> valid i (Nat.iter n (__LFSR_NEXT fl) v).
Proof.
  intros Hw Hv. induction n as [|n IH]; [done|]. rewrite Nat.iter_succ. by apply next_valid.
Qed.

Lemma lfsr_next_inv_step i fl sp : lfsr_inv i fl -> lfsr_inv i (__lfsr_next fl sp).
Proof.
  intros [Hw Hv]. unfold __lfsr_next. destruct (_ && _); [|done].
  split; [by destruct Hw; split|]. cbn [set_last_val last_val]. by apply iter_valid.
Qed.

Lemma lfsr_pass_inv i fl : lfsr_inv i fl ->
  lfsr_inv i (lfsr_pass fl) /\ max_val (lfsr_pass fl) = max_val fl.
Proof.
  intros Hinv. unfold lfsr_pass.
  assert (forall sp, max_val (__lfsr_next fl sp) = max_val fl) as Hmx
    by (intros; unfold __lfsr_next; by destruct (_ && _)).
  destruct (_ =? 0); [split; [by apply lfsr_next_inv_step|done]|].
  set (fl1 := set_cycle_length fl _).
  assert (lfsr_inv i fl1) as H1 by (destruct Hinv as [[] ?]; by split).
  destruct (_ =? 0).
  - pose proof (lfsr_next_inv_step i fl1 (u32 (spin fl1 + 1)) H1) as [[] Hv].
    split; [by split|]. cbn. unfold __lfsr_next. by destruct (_ && _).
  - split; [by apply lfsr_next_inv_step|]. unfold __lfsr_next. by destruct (_ && _).
Qed.

Lemma lfsr_loop_inv i fuel : forall fl fl', lfsr_inv i fl -> lfsr_loop fuel fl = Some fl' ->
  lfsr_inv i fl' /\ max_val fl' = max_val fl /\ last_val fl' <= max_val fl.
Proof.
  induction fuel as [|fuel IH]; intros fl fl' Hinv; cbn [lfsr_loop]; [done|].
  destruct (lfsr_pass_inv i fl Hinv) as [Hp Hmx].
  destruct (Z.ltb_spec (max_val (lfsr_pass fl)) (last_val (lfsr_pass fl))).
  - intros E. apply IH in E; [|done]. rewrite <- Hmx. done.
  - intros [= <-]. split_and!; [done|done|lia].
Qed.

Lemma lfsr_offsets_inv i n fuel : forall fl l, lfsr_inv i fl -> lfsr_offsets n fuel fl = Some l ->
  Forall (fun v => 0 <= v <= max_val fl) l.
Proof.
  induction n as [|n IH]; intros fl l Hinv; cbn [lfsr_offsets]; [intros [= <-]; constructor|].
  unfold lfsr_next. cbn [inc_num_vals max_val].
  assert (lfsr_inv i (inc_num_vals fl)) as H1 by (destruct Hinv as [[] ?]; by split).
  destruct (_ <? _); [intros [= <-]; constructor|].
  destruct (lfsr_loop fuel (inc_num_vals fl)) as [fl'|] eqn:E; [|done]. cbn [mbind option_bind].
  destruct (lfsr_loop_inv i fuel _ _ H1 E) as (H2 & Hmx & Hle).
  change (max_val (inc_num_vals fl)) with (max_val fl) in *.
  destruct (lfsr_offsets n fuel fl') as [l'|] eqn:El; [|done]. cbn [mbind option_bind].
  intros [= <-]. constructor; [destruct H2 as [_ Hv]; unfold valid in Hv; lia|].
  specialize (IH fl' l' H2 El). by rewrite Hmx in IH.
Qed.

(** For every number of blocks up to 2^63, every seed and every spin,
    whatever [lfsr_init] accepts stays sound for any number of calls: the
    register never takes the forbidden all-ones value and never leaves its
    width, and each offset returned is a block number below [nums]. *)
Theorem lfsr_in_range fl0 nums seed sp fl n fuel l :
  0 < nums < 2 ^ 63 -> 0 <= seed -> 0 <= sp -> lfsr_init fl0 nums seed sp = (fl, 0) ->
  lfsr_offsets n fuel fl = Some l ->
  (exists i, lfsr_inv i fl /\ nums < 2 ^ i) /\ Forall (fun v => 0 <= v < nums) l.
Proof.
  intros Hn Hs Hsp Hi Hl. destruct (lfsr_init_spec _ _ _ _ _ Hn Hs Hsp Hi) as (i & Hw & Hv & Hmx & _ & _ & _ & Hlt & _).
  split; [by exists i|]. pose proof (lfsr_offsets_inv i n fuel fl l (conj Hw Hv) Hl) as H.
  eapply Forall_impl; [|exact H]. simpl. lia.
Qed.

Definition sample_lfsr : fio_lfsr := fst (lfsr_init lfsr_blank 1000 5 3).

Lemma lfsr_in_range_witness :
  exists l, lfsr_offsets 4 100 sample_lfsr = Some l /\ Forall (fun v => 0 <= v < 1000) l.
Proof.
  destruct (lfsr_offsets 4 100 sample_lfsr) as [l|] eqn:E; [|vm_compute in E; discriminate].
  exists l. split; [reflexivity|].
  apply (lfsr_in_range lfsr_blank 1000 5 3 sample_lfsr 4 100 l); [lia|lia|lia| |exact E].
  vm_compute. reflexivity.
Defined.

(** ** The full cycle

    The iterates of the step from a value on. *)
Fixpoint orbit (fl : fio_lfsr) (k : nat) (y : Z) : list Z :=
  match k with
  | O => []
  | S k => __LFSR_NEXT fl y :: orbit fl k (__LFSR_NEXT fl y)
  end.

Lemma orbit_lookup fl k : forall y j,
  orbit fl k y !! j = if decide (j < k)%nat then Some (Nat.iter (S j) (__LFSR_NEXT fl) y) else None.
Proof.
  induction k as [|k IH]; intros y j; cbn [orbit]; [by destruct j|].
  destruct j as [|j]; [done|]. simpl lookup. rewrite IH.
  destruct (decide (j < k)%nat), (decide (S j < S k)%nat); try lia; [|done].
  by rewrite <- Nat.iter_succ_r.
Qed.

(** The register's cycle through 0 has the full length [2^i - 1]. *)
Definition full_cycle (i : Z) (fl : fio_lfsr) : Prop :=
  forall k, 0 < Z.of_nat k < 2 ^ i - 1 -> Nat.iter k (__LFSR_NEXT fl) 0 <> 0.

(** Checking by running the register, with only its mask and top bit. *)
Definition row_register (i : Z) : fio_lfsr :=
  Lfsr (lfsr_create_xormask (default [] (arr_get lfsr_taps i))) 0 (2 ^ (i - 1)) 0 0 0 0 0.

Fixpoint no_return (fl : fio_lfsr) (k : positive) (y : Z) : bool * Z :=
  match k with
  | xH => let z := __LFSR_NEXT fl y in (negb (z =? 0), z)
  | xO k => let '(b, z) := no_return fl k y in
            if b then no_return fl k z else (false, z)
  | xI k => let z := __LFSR_NEXT fl y in
            if z =? 0 then (false, z) else
            let '(b, z) := no_return fl k z in
            if b then no_return fl k z else (false, z)
  end.

Lemma no_return_spec fl k : forall y z, no_return fl k y = (true, z) ->
  z = Nat.iter (Pos.to_nat k) (__LFSR_NEXT fl) y /\
  forall j, (0 < j <= Pos.to_nat k)%nat -> Nat.iter j (__LFSR_NEXT fl) y <> 0.
Proof.
  induction k as [k IH|k IH|]; intros y z; cbn [no_return].
  - destruct (Z.eqb_spec (__LFSR_NEXT fl y) 0) as [|H0]; [done|].
    destruct (no_return fl k (__LFSR_NEXT fl y)) as [[] z1] eqn:E1; [|done].
    apply IH in E1 as [E1 H1]. intros [E2 H2]%IH. rewrite Pos2Nat.inj_xI. split.
    + rewrite E2, E1, <- Nat.iter_add, <- Nat.iter_succ_r. f_equal. lia.
    + intros j Hj. destruct j as [|j]; [lia|]. rewrite Nat.iter_succ_r.
      destruct (decide (j = 0)%nat) as [->|]; [done|].
      destruct (decide (j <= Pos.to_nat k)%nat); [apply H1; lia|].
      replace j with ((j - Pos.to_nat k) + Pos.to_nat k)%nat by lia.
      rewrite Nat.iter_add, <- E1. apply H2. lia.
  - destruct (no_return fl k y) as [[] z1] eqn:E1; [|done].
    apply IH in E1 as [E1 H1]. intros [E2 H2]%IH. rewrite Pos2Nat.inj_xO. split.
    + rewrite E2, E1, <- Nat.iter_add. f_equal. lia.
    + intros j Hj. destruct (decide (j <= Pos.to_nat k)%nat); [apply H1; lia|].
      replace j with ((j - Pos.to_nat k) + Pos.to_nat k)%nat by lia.
      rewrite Nat.iter_add, <- E1. apply H2. lia.
  - intros [= H <-]. split; [done|]. intros j Hj. replace j with 1%nat by lia. simpl.
    apply negb_true_iff, Z.eqb_neq in H. done.
Qed.

(** The widths up to 16 bits, run through completely. *)
Definition cycle_ok (i : Z) : bool := fst (no_return (row_register i) (Z.to_pos (2 ^ i - 2)) 0).

Lemma cycles_ok : forallb cycle_ok (Z.of_nat <$> seq 3 14) = true.
Proof. vm_compute. reflexivity. Qed.

Lemma next_ext fl fl' v : xormask fl = xormask fl' -> cached_bit fl = cached_bit fl' ->
  __LFSR_NEXT fl v = __LFSR_NEXT fl' v.
Proof. unfold __LFSR_NEXT. by intros -> ->. Qed.

Lemma iter_ext fl fl' n v : xormask fl = xormask fl' -> cached_bit fl = cached_bit fl' ->
  Nat.iter n (__LFSR_NEXT fl) v = Nat.iter n (__LFSR_NEXT fl') v.
Proof.
  intros H1 H2. induction n as [|n IH]; [done|]. rewrite !Nat.iter_succ, IH. by apply next_ext.
Qed.

Lemma row_full_cycle i fl taps :
  3 <= i <= 16 -> arr_get lfsr_taps i = Some taps ->
  xormask fl = lfsr_create_xormask taps -> cached_bit fl = 2 ^ (i - 1) -> full_cycle i fl.
Proof.
  intros Hi Ht Hm Hb k Hk. pose proof cycles_ok as H. rewrite forallb_forall in H.
  assert (cycle_ok i = true) as Hc.
  { apply H, list_elem_of_In, list_elem_of_fmap. exists (Z.to_nat i).
    rewrite list_elem_of_In, in_seq. lia. }
  clear H. unfold cycle_ok in Hc.
  destruct (no_return (row_register i) _ 0) as [b z] eqn:E. simpl in Hc. subst b.
  apply no_return_spec in E as [_ E].
  rewrite (iter_ext fl (row_register i)).
  - apply E. assert (8 <= 2 ^ i) by (apply (Z.pow_le_mono_r 2 3); lia).
    rewrite <- Z2Nat.inj_pos, Z2Pos.id by lia. lia.
  - unfold row_register. cbn [xormask]. by rewrite Ht.
  - done.
Qed.

Section Cycle.
Context (i : Z) (fl : fio_lfsr) (Hw : width i fl) (Hc : full_cycle i fl).
Notation f := (__LFSR_NEXT fl).
Notation N := (Z.to_nat (2 ^ i - 1)).

Lemma iter_inj n x y : valid i x -> valid i y -> Nat.iter n f x = Nat.iter n f y -> x = y.
Proof.
  intros Hx Hy. induction n as [|n IH]; [done|]. rewrite !Nat.iter_succ.
  intros E%(next_injective i); [by apply IH|done|..].
  all: match goal with |- uint _ ?t => assert (valid i t) by by apply iter_valid end;
    unfold valid, uint in *; lia.
Qed.

(** A value that does not return early has an orbit through all values. *)
Lemma orbit_perm x :
  valid i x -> (forall d, (0 < d < N)%nat -> Nat.iter d f x <> x) ->
  orbit fl N x ≡ₚ Z.of_nat <$> seq 0 N.
Proof.
  intros Hx Hd.
  assert (length (orbit fl N x) = N) as Hlen.
  { generalize N, x. induction n; intros; simpl; [done|]. by rewrite IHn. }
  apply submseteq_length_Permutation; [|rewrite length_fmap, length_seq, Hlen; done].
  apply NoDup_submseteq.
  - apply NoDup_alt. intros j1 j2 v H1 H2. rewrite !orbit_lookup in *.
    destruct (decide (j1 < N)%nat); [|done]. destruct (decide (j2 < N)%nat); [|done].
    injection H1 as <-. injection H2 as H2.
    assert (forall a b, (a <= b < N)%nat -> Nat.iter (S a) f x = Nat.iter (S b) f x -> a = b) as Hab.
    { intros a b Hab E. destruct (decide (a = b)); [done|]. exfalso.
      replace (S b) with (S a + (b - a))%nat in E by lia. rewrite Nat.iter_add in E.
      apply iter_inj in E; [|done|by apply iter_valid]. symmetry in E.
      revert E. apply Hd. lia. }
    destruct (decide (j1 <= j2)%nat); [apply Hab; [lia|done]|symmetry; apply Hab; [lia|done]].
  - intros v [j Hj]%list_elem_of_lookup. rewrite orbit_lookup in Hj.
    destruct (decide _); [|done]. assert (v = Nat.iter (S j) f x) as -> by congruence.
    assert (valid i (Nat.iter (S j) f x)) as Hv by by apply iter_valid.
    revert Hv. generalize (Nat.iter (S j) f x). intros v Hv.
    apply list_elem_of_fmap. exists (Z.to_nat v).
    rewrite list_elem_of_In, in_seq. unfold valid in Hv. lia.
Qed.

Lemma orbit_all x : valid i x -> orbit fl N x ≡ₚ Z.of_nat <$> seq 0 N.
Proof.
  intros Hx. apply orbit_perm; [done|]. intros d Hd E.
  assert (valid i 0) as H0 by (unfold valid in *; lia).
  assert (x ∈ orbit fl N 0) as [a Ha]%list_elem_of_lookup.
  { rewrite orbit_perm; [|done|].
    - apply list_elem_of_fmap. exists (Z.to_nat x). rewrite list_elem_of_In, in_seq.
      unfold valid in Hx. lia.
    - intros d' Hd'. apply Hc. lia. }
  rewrite orbit_lookup in Ha. destruct (decide _); [|done]. 
  assert (x = Nat.iter (S a) f 0) as Hxa by congruence. clear Ha. rewrite Hxa in E.
  rewrite <- Nat.iter_add in E. replace (d + S a)%nat with (S a + d)%nat in E by lia.
  rewrite Nat.iter_add in E. apply iter_inj in E; [|by apply iter_valid|done].
  revert E. apply Hc. lia.
Qed.
End Cycle.

(** ** The calls follow the orbit *)
Definition plain (fl : fio_lfsr) : Prop := spin fl = 0 /\ cycle_length fl = 0.

Lemma plain_pass fl : plain fl -> lfsr_pass fl = set_last_val fl (__LFSR_NEXT fl (last_val fl)).
Proof. intros [Hs Hcy]. unfold lfsr_pass. rewrite Hcy, Hs. reflexivity. Qed.

Lemma orbit_ext fl fl' k : forall y, xormask fl = xormask fl' -> cached_bit fl = cached_bit fl' ->
  orbit fl k y = orbit fl' k y.
Proof.
  induction k as [|k IH]; intros y H1 H2; cbn [orbit]; [done|].
  rewrite (next_ext fl fl') by done. f_equal. by apply IH.
Qed.

Lemma lfsr_loop_orbit k : forall fl fuel v rest,
  plain fl -> (k <= fuel)%nat ->
  filter (fun v => v <= max_val fl) (orbit fl k (last_val fl)) = v :: rest ->
  exists j, (j < k)%nat /\ lfsr_loop fuel fl = Some (set_last_val fl v) /\
    rest = filter (fun v => v <= max_val fl) (orbit fl j v).
Proof.
  induction k as [|k IH]; intros fl fuel v rest Hpl Hf Hfl; cbn [orbit] in Hfl; [done|].
  destruct fuel as [|fuel]; [lia|]. cbn [lfsr_loop]. rewrite plain_pass by done.
  set (z := __LFSR_NEXT fl (last_val fl)) in *. cbn [set_last_val max_val last_val].
  destruct (Z.ltb_spec (max_val fl) z).
  - rewrite filter_cons_False in Hfl by lia.
    destruct (IH (set_last_val fl z) fuel v rest) as (j & Hj & Hl & Hr); [done|lia| |].
    + cbn [set_last_val max_val last_val]. by rewrite (orbit_ext (set_last_val fl z) fl).
    + exists j. split_and!; [lia|done|]. rewrite Hr.
      cbn [set_last_val max_val]. by rewrite (orbit_ext (set_last_val fl z) fl).
  - rewrite filter_cons_True in Hfl by lia. injection Hfl as <- <-. exists k. auto.
Qed.

Lemma lfsr_offsets_orbit n : forall fl k fuel m,
  plain fl -> (k <= fuel)%nat -> 0 <= num_vals fl -> max_val fl < 2 ^ 63 ->
  num_vals fl + Z.of_nat n = max_val fl + 1 ->
  length (filter (fun v => v <= max_val fl) (orbit fl k (last_val fl))) = n ->
  lfsr_offsets (n + m) fuel fl = Some (filter (fun v => v <= max_val fl) (orbit fl k (last_val fl))).
Proof.
  induction n as [|n IH]; intros fl k fuel m Hpl Hf H0 Hmx Hn Hlen.
  - destruct (filter _ _); [|done]. destruct m as [|m]; [done|]. cbn [Nat.add lfsr_offsets].
    unfold lfsr_next. cbn [inc_num_vals max_val].
    destruct (Z.ltb_spec (max_val fl) (num_vals fl)); [done|lia].
  - destruct (filter _ _) as [|v rest] eqn:E; [done|]. cbn [Nat.add lfsr_offsets].
    unfold lfsr_next. cbn [inc_num_vals max_val].
    destruct (Z.ltb_spec (max_val fl) (num_vals fl)); [lia|].
    destruct (lfsr_loop_orbit k (inc_num_vals fl) fuel v rest) as (j & Hj & -> & Hr); [done|done| |].
    { cbn [inc_num_vals max_val last_val]. by rewrite (orbit_ext (inc_num_vals fl) fl). }
    cbn [mbind option_bind inc_num_vals max_val] in *.
    set (fl' := set_last_val (inc_num_vals fl) v).
    assert (num_vals fl' = num_vals fl + 1) as Hnv
      by (unfold fl'; cbn [set_last_val inc_num_vals num_vals]; apply wrap_small; unfold uint; lia).
    assert (rest = filter (fun v => v <= max_val fl') (orbit fl' j (last_val fl'))) as Hr'.
    { rewrite Hr. unfold fl' at 2 3. cbn [set_last_val inc_num_vals max_val last_val].
      change (max_val fl') with (max_val fl). f_equal. by apply orbit_ext. }
    rewrite (IH fl' j fuel m); [by rewrite <- Hr'|done|lia|lia|done| |].
    + rewrite Hnv. change (max_val fl') with (max_val fl). lia.
    + rewrite <- Hr'. simpl in Hlen. lia.
Qed.

(** The first call takes two steps and then runs plainly. *)
Lemma lfsr_first_call fl n fuel :
  spin fl = 0 -> cycle_length fl = 1 -> cached_cycle_length fl = 0 -> 
  let fl1 := set_cycle_length (set_last_val fl (__LFSR_NEXT fl (last_val fl))) 0 in
  lfsr_offsets (S n) fuel fl = lfsr_offsets (S n) fuel fl1.
Proof.
  intros Hs Hcy Hcc fl1. cbn [lfsr_offsets]. unfold lfsr_next.
  change (num_vals fl1) with (num_vals fl). change (max_val (inc_num_vals fl1)) with (max_val (inc_num_vals fl)).
  destruct (_ <? _); [done|]. destruct fuel as [|fuel]; [done|]. cbn [lfsr_loop].
  replace (lfsr_pass (inc_num_vals fl1)) with (lfsr_pass (inc_num_vals fl)); [done|].
  destruct fl as [xm lv cb mv nv cl ccl sp]. simpl in Hs, Hcy, Hcc. subst. reflexivity.
Qed.

(** C22. Without spinning, for up to 65535 blocks and any accepted seed, the
    generator visits every block exactly once and then reports the end: the
    offsets of the first [nums] calls are a permutation of the blocks, and any
    further call returns none.  (2^16 passes per call are enough; the period
    of each register of up to 16 bits is checked by running it.) *)
Theorem lfsr_covers fl0 nums seed fl m fuel :
  0 < nums < 2 ^ 16 -> 0 <= seed -> 2 ^ 16 <= Z.of_nat fuel ->
  lfsr_init fl0 nums seed 0 = (fl, 0) ->
  exists l, lfsr_offsets (Z.to_nat nums + m) fuel fl = Some l /\
    l ≡ₚ Z.of_nat <$> seq 0 (Z.to_nat nums).
Proof.
  intros Hn Hs Hf Hi.
  destruct (lfsr_init_spec fl0 nums seed 0 fl) as
    (i & Hw & Hv & Hmx & Hnv & Hsp & _ & Hlt & Hge & (taps & Ht & Hm) & Hcc & Hcy); [lia|lia|lia|done|].
  pose proof Hw as [Hir Hb _ _].
  assert (i <= 16) as Hi16.
  { destruct (decide (i <= 16)); [done|]. exfalso. destruct Hge as [?|Hge]; [lia|].
    assert (2 ^ 16 <= 2 ^ (i - 1)) by (apply Z.pow_le_mono_r; lia). lia. }
  assert (2 ^ i <= 2 ^ 16) as Hp by (apply Z.pow_le_mono_r; lia).
  pose proof (row_full_cycle i fl taps ltac:(lia) Ht Hm Hb) as Hfc.
  assert (cached_cycle_length fl = 0) as Hcc0 by (rewrite Hcc; reflexivity).
  rewrite Hcc0 in Hcy. change (u64 (0 + 1)) with 1 in Hcy.
  replace (Z.to_nat nums + m)%nat with (S (Z.to_nat nums + m - 1)) by lia.
  rewrite lfsr_first_call by done.
  replace (S (Z.to_nat nums + m - 1)) with (Z.to_nat nums + m)%nat by lia.
  set (fl1 := set_cycle_length (set_last_val fl (__LFSR_NEXT fl (last_val fl))) 0).
  pose proof (next_valid i fl _ Hw Hv) as Hv1.
  pose proof (orbit_all i fl Hw Hfc _ Hv1) as Hperm.
  rewrite (orbit_ext fl fl1) in Hperm by done. set (k := Z.to_nat (2 ^ i - 1)) in *.
  assert (filter (fun v => v <= max_val fl1) (orbit fl1 k (last_val fl1)) ≡ₚ
    Z.of_nat <$> seq 0 (Z.to_nat nums)) as Hpn.
  { change (last_val fl1) with (__LFSR_NEXT fl (last_val fl)). rewrite Hperm.
    change (max_val fl1) with (max_val fl). rewrite Hmx. apply NoDup_Permutation.
    - apply list.NoDup_filter, NoDup_fmap_2; [apply _|apply NoDup_seq].
    - apply NoDup_fmap_2; [apply _|apply NoDup_seq].
    - intros v. rewrite list_elem_of_filter, !list_elem_of_fmap.
      setoid_rewrite list_elem_of_In. setoid_rewrite in_seq. unfold k. split.
      + intros (Hle & a & -> & Ha). exists a. lia.
      + intros (a & -> & Ha). split; [lia|]. exists a. lia. }
  exists (filter (fun v => v <= max_val fl1) (orbit fl1 k (last_val fl1))). split; [|done].
  apply lfsr_offsets_orbit.
  - done.
  - lia.
  - change (num_vals fl1) with (num_vals fl). lia.
  - change (max_val fl1) with (max_val fl). lia.
  - change (num_vals fl1) with (num_vals fl). change (max_val fl1) with (max_val fl). lia.
  - rewrite Hpn, length_fmap, length_seq. done.
Qed.

Lemma lfsr_covers_witness :
  exists l, lfsr_offsets 20 (Z.to_nat (2 ^ 16)) (fst (lfsr_init lfsr_blank 20 3 0)) = Some l /\
    l ≡ₚ Z.of_nat <$> seq 0 20.
Proof.
  apply (lfsr_covers lfsr_blank 20 3 _ 0); [lia|lia|lia|].
  vm_compute. reflexivity.
Defined.
