(* ===== verification/FlistSort.v ===== *)
(** * List sorting: [lib/flist_sort.c]

    The bottom-up merge sort of [flist_sort].  A null-terminated chain of list
    heads is a list; [part] is the array of sorted partial lists, the empty
    list standing for a null pointer.  [None] is an access past the array. *)
From S2P Require Import Prelude.
From Stdlib Require Import Sorted.

Definition MAX_LIST_LENGTH_BITS : nat := 20.

Section sort.
Context {A : Type} (cmp : A -> A -> Z).

Fixpoint merge (a : list A) : list A -> list A :=
  match a with
  | [] => fun b => b
  | x :: a' =>
      fix merge_b (b : list A) : list A :=
        match b with
        | [] => x :: a'
        | y :: b' => if cmp x y <=? 0 then x :: merge a' (y :: b') else y :: merge_b b'
        end
  end.

(** [for (lev = 0; part[lev]; lev++)]: the emptied slots, the level reached and
    the list carried there. *)
Fixpoint carry (part : list (list A)) (cur : list A) : option (list (list A) * nat * list A) :=
  match part with
  | [] => None
  | [] :: _ => Some (part, 0%nat, cur)
  | p :: rest =>
      '(rest, lev, cur) ← carry rest (merge p cur);
      Some ([] :: rest, S lev, cur)
  end.

(** One iteration of the [while (list)] loop. *)
Definition sort_step (part : list (list A)) (max_lev : nat) (x : A) : option (list (list A) * nat) :=
  '(part, lev, cur) ← carry part [x];
  let '(lev, max_lev) :=
    if (max_lev <? lev)%nat then
      let lev := if (MAX_LIST_LENGTH_BITS <=? lev)%nat then (lev - 1)%nat else lev in (lev, lev)
    else (lev, max_lev) in
  Some (<[lev := cur]> part, max_lev).

Fixpoint sort_loop (l : list A) (part : list (list A)) (max_lev : nat) : option (list (list A) * nat) :=
  match l with
  | [] => Some (part, max_lev)
  | x :: l =>
      '(part, max_lev) ← sort_step part max_lev x;
      sort_loop l part max_lev
  end.

(** [for (lev = 0; lev < max_lev; lev++)]. *)
Definition merge_parts (part : list (list A)) (max_lev : nat) (l : list A) : list A :=
  foldl (fun acc p => match p with [] => acc | _ => merge p acc end) l (take max_lev part).

Definition flist_sort (l : list A) : option (list A) :=
  match l with
  | [] => Some []
  | _ =>
      '(part, max_lev) ← sort_loop l (replicate (S MAX_LIST_LENGTH_BITS) []) 0%nat;
      top ← part !! max_lev;
      Some (merge top (merge_parts part max_lev []))
  end.

(** ** Stable sorting *)
Definition le (x y : A) : Prop := cmp x y <= 0.
Definition same (x y : A) : bool := (cmp x y <=? 0) && (cmp y x <=? 0).

Record stable_sort (l s : list A) : Prop := {
  ss_perm : s ≡ₚ l;
  ss_sorted : StronglySorted le s;
  ss_stable : forall x, filter (same x) s = filter (same x) l
}.

Lemma merge_nil_r a : merge a [] = a.
Proof. by destruct a. Qed.

Lemma merge_cons x a y b : merge (x :: a) (y :: b) =
  if cmp x y <=? 0 then x :: merge a (y :: b) else y :: merge (x :: a) b.
Proof. done. Qed.

Lemma merge_ind (P : list A -> list A -> Prop) :
  (forall b, P [] b) -> (forall a, P a []) ->
  (forall x a y b, P a (y :: b) -> P (x :: a) b -> P (x :: a) (y :: b)) ->
  forall a b, P a b.
Proof. intros H1 H2 H3 a. induction a as [|x a IHa]; [done|]. induction b; eauto. Qed.

Lemma merge_perm a b : merge a b ≡ₚ a ++ b.
Proof.
  revert a b. apply (merge_ind (fun a b => merge a b ≡ₚ a ++ b)).
  - done.
  - intros a. by rewrite merge_nil_r, app_nil_r.
  - intros x a y b IH1 IH2. rewrite merge_cons. destruct (_ <=? _).
    + by rewrite IH1.
    + rewrite IH2. apply Permutation_middle.
Qed.
End sort.

Section preorder.
Context {A : Type} (cmp : A -> A -> Z).
Context (le_trans : forall x y z, le cmp x y -> le cmp y z -> le cmp x z).
Context (le_total : forall x y, le cmp x y \/ le cmp y x).

Lemma merge_sorted a b : StronglySorted (le cmp) a -> StronglySorted (le cmp) b ->
  StronglySorted (le cmp) (merge cmp a b).
Proof.
  revert a b. apply (merge_ind (fun a b => _ a -> _ b -> _ (merge cmp a b))).
  - done.
  - intros a. by rewrite merge_nil_r.
  - intros x a y b IH1 IH2 Ha Hb. rewrite merge_cons.
    inversion Ha as [|? ? Ha' Hxa]; inversion Hb as [|? ? Hb' Hyb]; subst.
    destruct (Z.leb_spec (cmp x y) 0) as [L|L]; constructor.
    + by apply IH1.
    + rewrite merge_perm. apply list.Forall_app. split; [done|]. constructor; [done|].
      eapply list.Forall_impl; [exact Hyb|]. intros z. by apply le_trans.
    + by apply IH2.
    + assert (Hyx : le cmp y x) by (destruct (le_total x y); [unfold le in *; lia|done]).
      rewrite merge_perm. apply list.Forall_app. split; [|done]. constructor; [done|].
      eapply list.Forall_impl; [exact Hxa|]. intros z. by apply le_trans.
Qed.

(** An element of [a] that sorts strictly after [y] is not equivalent to what
    [y] is equivalent to, nor are the elements behind it. *)
Lemma filter_none x y a : StronglySorted (le cmp) a -> Forall (fun z => le cmp y z /\ ~ le cmp z y) a ->
  same cmp x y -> filter (same cmp x) a = [].
Proof.
  intros _ Ha Hxy. induction Ha as [|z a [Hyz Hzy] _ IH]; [done|].
  rewrite filter_cons. destruct (decide (same cmp x z)) as [Hxz|]; [|done].
  exfalso. apply Hzy. unfold same in *. apply andb_True in Hxy as [Hxy _], Hxz as [_ Hzx].
  apply Is_true_true in Hxy, Hzx. apply Z.leb_le in Hxy, Hzx. by apply (le_trans z x y).
Qed.

Lemma merge_stable x a b : StronglySorted (le cmp) a -> StronglySorted (le cmp) b ->
  filter (same cmp x) (merge cmp a b) = filter (same cmp x) a ++ filter (same cmp x) b.
Proof.
  revert a b. apply (merge_ind (fun a b => StronglySorted (le cmp) a -> StronglySorted (le cmp) b ->
    filter (same cmp x) (merge cmp a b) = filter (same cmp x) a ++ filter (same cmp x) b)).
  - done.
  - intros a _ _. by rewrite merge_nil_r, filter_nil, app_nil_r.
  - intros u a y b IH1 IH2 Ha Hb. rewrite merge_cons.
    inversion Ha as [|? ? Ha' Hua]; inversion Hb as [|? ? Hb' Hyb]; subst.
    destruct (Z.leb_spec (cmp u y) 0) as [L|L].
    + rewrite (filter_cons _ u), IH1 by done. rewrite (filter_cons _ u a). by destruct (decide _).
    + rewrite (filter_cons _ y), IH2, (filter_cons _ y b) by done.
      destruct (decide (same cmp x y)) as [Hs|]; [|done].
      assert (Hyu : le cmp y u) by (destruct (le_total u y); [unfold le in *; lia|done]).
      rewrite (filter_none x y (u :: a) Ha); [done| |done].
      constructor; [split; [done|unfold le; lia]|].
      eapply list.Forall_impl; [exact Hua|]. intros z Huz. split; [by apply (le_trans y u z)|].
      intros Hzy. assert (le cmp u y) by (by apply (le_trans u z y)). unfold le in *. lia.
Qed.

Lemma merge_stable_sort l1 l2 s1 s2 :
  stable_sort cmp l1 s1 -> stable_sort cmp l2 s2 -> stable_sort cmp (l1 ++ l2) (merge cmp s1 s2).
Proof.
  intros [P1 S1 F1] [P2 S2 F2]. split.
  - by rewrite merge_perm, P1, P2.
  - by apply merge_sorted.
  - intros x. rewrite merge_stable, F1, F2 by done. by rewrite list.filter_app.
Qed.

(** The input segments the partial lists are the sorted forms of, the highest
    level holding the earliest elements. *)
Definition flat (segs : list (list A)) : list A := foldr (fun s acc => acc ++ s) [] segs.

Lemma flat_app s1 s2 : flat (s1 ++ s2) = flat s2 ++ flat s1.
Proof. induction s1 as [|s s1 IH]; simpl; [by rewrite app_nil_r|]. by rewrite IH, app_assoc. Qed.

Lemma flat_empties k : flat (replicate k []) = [].
Proof. induction k as [|k IH]; simpl; [done|]. by rewrite IH. Qed.

Lemma stable_sort_nil : stable_sort cmp [] [].
Proof. split; [done|constructor|done]. Qed.

Lemma stable_sort_nil_inv l : stable_sort cmp l [] -> l = [].
Proof. intros [P _ _]. by apply Permutation_nil in P. Qed.

Lemma empties_ok k : Forall2 (stable_sort cmp) (replicate k []) (replicate k []).
Proof. induction k; simpl; constructor; [apply stable_sort_nil|done]. Qed.

Lemma carry_spec part : forall segs c cur,
  Forall2 (stable_sort cmp) segs part -> stable_sort cmp c cur -> Exists (fun p => p = []) part ->
  exists lev shi hi c' cur', carry cmp part cur = Some (replicate lev [] ++ [] :: hi, lev, cur') /\
    part !! lev = Some [] /\ drop (S lev) part = hi /\
    Forall2 (stable_sort cmp) shi hi /\ stable_sort cmp c' cur' /\ flat shi ++ c' = flat segs ++ c.
Proof.
  induction part as [|p part IH]; intros segs c cur HF Hc He; [inversion He|].
  inversion HF as [|s ? segs' ? Hs HF' E1 E2]; subst. destruct p as [|x p].
  - exists 0%nat, segs', part, c, cur. apply stable_sort_nil_inv in Hs as ->.
    split_and!; [done..|]. simpl. by rewrite app_nil_r.
  - apply Exists_cons in He as [?|He]; [done|].
    destruct (IH segs' (s ++ c) (merge cmp (x :: p) cur)) as (lev & shi & hi & c' & cur' & E & H1 & H2 & H3 & H4 & H5);
      [done|by apply merge_stable_sort|done|].
    exists (S lev), shi, hi, c', cur'. cbn [carry]. rewrite E. cbn [mbind option_bind].
    split_and!; [done..|]. simpl. by rewrite H5, app_assoc.
Qed.

(** The state of the loop after the elements [pre]. *)
Record sort_inv (part : list (list A)) (max_lev : nat) (pre : list A) : Prop := {
  si_len : length part = 21%nat;
  si_max : (max_lev <= 19)%nat;
  si_above : forall k, (max_lev < k < 21)%nat -> part !! k = Some [];
  si_segs : exists segs, Forall2 (stable_sort cmp) segs part /\ flat segs = pre
}.

Lemma place_lookup (lev i k : nat) (cur : list A) hi : (i <= lev)%nat -> (i < k)%nat ->
  (<[i := cur]> (replicate lev [] ++ [] :: hi)) !! k =
  if decide (k <= lev)%nat then Some [] else hi !! (k - S lev)%nat.
Proof.
  intros Hi Hk. rewrite list_lookup_insert_ne by lia. case_decide.
  - destruct (decide (k = lev)) as [->|].
    + rewrite lookup_app_r by (rewrite length_replicate; lia). rewrite length_replicate, Nat.sub_diag. done.
    + rewrite lookup_app_l by (rewrite length_replicate; lia). apply lookup_replicate. split; [done|lia].
  - rewrite lookup_app_r by (rewrite length_replicate; lia). rewrite length_replicate.
    by replace (k - lev)%nat with (S (k - S lev)) by lia.
Qed.

(** Storing the carried list at its level, or one below. *)
Lemma place_ok (lev i : nat) shi hi c cur : (i <= lev)%nat ->
  Forall2 (stable_sort cmp) shi hi -> stable_sort cmp c cur ->
  exists segs, Forall2 (stable_sort cmp) segs (<[i := cur]> (replicate lev [] ++ [] :: hi)) /\
    flat segs = flat shi ++ c.
Proof.
  intros Hi HF Hc. exists (<[i := c]> (replicate lev [] ++ [] :: shi)). split.
  - apply Forall2_insert; [|done]. apply Forall2_app; [apply empties_ok|].
    constructor; [apply stable_sort_nil|done].
  - replace (replicate lev [] ++ [] :: shi) with (replicate i [] ++ [] :: (replicate (lev - i) [] ++ shi) : list (list A)).
    + rewrite insert_app_r_alt by (rewrite length_replicate; lia). rewrite length_replicate, Nat.sub_diag.
      simpl. rewrite flat_app. simpl. rewrite flat_app, !flat_empties, !app_nil_r. done.
    + change ([] :: (replicate (lev - i) [] ++ shi)) with (replicate (S (lev - i)) [] ++ shi : list (list A)).
      change ([] :: shi) with (replicate 1 [] ++ shi : list (list A)).
      rewrite !app_assoc, <- !replicate_add. do 2 f_equal. lia.
Qed.

Lemma sort_step_inv part max_lev pre x : sort_inv part max_lev pre ->
  exists part' max', sort_step cmp part max_lev x = Some (part', max') /\ sort_inv part' max' (pre ++ [x]).
Proof.
  intros [Hl Hm Ha (segs & HF & Hpre)].
  destruct (carry_spec part segs [x] [x]) as (lev & shi & hi & c' & cur' & E & H1 & H2 & H3 & H4 & H5);
    [done|split; [done|by repeat constructor|done]| |].
  { apply list.Exists_exists. exists []. split; [|done]. apply list_elem_of_lookup. exists 20%nat. apply Ha. lia. }
  assert (Hlev : (lev < 21)%nat) by (rewrite <- Hl; apply lookup_lt_is_Some; eauto).
  assert (Hhi : forall k, hi !! k = part !! (S lev + k)%nat) by (intros k; by rewrite <- H2, lookup_drop).
  assert (Hlen : length (replicate lev [] ++ [] :: hi) = 21%nat).
  { rewrite length_app, length_replicate. simpl. rewrite <- H2, length_drop. lia. }
  rewrite Hpre in H5. unfold sort_step. rewrite E. cbn [mbind option_bind].
  set (i := if (MAX_LIST_LENGTH_BITS <=? lev)%nat then (lev - 1)%nat else lev).
  assert (Hi : (i <= lev)%nat /\ (i <= 19)%nat /\ (lev <= S i)%nat /\ ((lev <= 19)%nat -> i = lev)).
  { subst i. unfold MAX_LIST_LENGTH_BITS. destruct (Nat.leb_spec 20 lev); lia. }
  set (j := if (max_lev <? lev)%nat then i else lev).
  set (mx := if (max_lev <? lev)%nat then i else max_lev).
  exists (<[j := cur']> (replicate lev [] ++ [] :: hi)), mx.
  split; [subst j mx; by destruct (max_lev <? lev)%nat|].
  assert (Hj : (j <= lev)%nat /\ (j <= mx)%nat /\ (mx <= 19)%nat /\ (max_lev <= mx)%nat).
  { subst j mx. destruct (Nat.ltb_spec max_lev lev); lia. }
  split.
  - by rewrite length_insert.
  - lia.
  - intros k Hk. rewrite place_lookup by lia. case_decide; [done|].
    rewrite Hhi. apply Ha. lia.
  - destruct (place_ok lev j shi hi c' cur') as (segs' & HF' & Hf); [lia|done|done|].
    exists segs'. split; [done|]. by rewrite Hf.
Qed.

Lemma sort_loop_inv l : forall part max_lev pre, sort_inv part max_lev pre ->
  exists part' max', sort_loop cmp l part max_lev = Some (part', max') /\ sort_inv part' max' (pre ++ l).
Proof.
  induction l as [|x l IH]; intros part max_lev pre H; cbn [sort_loop].
  { exists part, max_lev. by rewrite app_nil_r. }
  destruct (sort_step_inv part max_lev pre x H) as (p1 & m1 & -> & H1). cbn [mbind option_bind].
  destruct (IH p1 m1 _ H1) as (p2 & m2 & -> & H2). exists p2, m2. by rewrite <- app_assoc in H2.
Qed.

Lemma merge_parts_spec segs ps c acc : Forall2 (stable_sort cmp) segs ps -> stable_sort cmp c acc ->
  stable_sort cmp (flat segs ++ c) (foldl (fun acc p => match p with [] => acc | _ => merge cmp p acc end) acc ps).
Proof.
  intros HF. revert c acc. induction HF as [|s p segs ps Hs _ IH]; intros c acc Hc; simpl; [done|].
  rewrite <- app_assoc. apply IH. destruct p as [|x p].
  - by apply stable_sort_nil_inv in Hs as ->.
  - by apply merge_stable_sort.
Qed.

Lemma flat_tail_empty segs part k : Forall2 (stable_sort cmp) segs part ->
  (forall j, (k <= j < length part)%nat -> part !! j = Some []) -> flat (drop k segs) = [].
Proof.
  intros HF H. assert (HD : Forall2 (stable_sort cmp) (drop k segs) (drop k part)) by (by apply Forall2_drop).
  assert (He : Forall (fun p => p = []) (drop k part)).
  { apply list.Forall_lookup. intros j p Hj. rewrite lookup_drop in Hj.
    pose proof (lookup_lt_Some _ _ _ Hj). rewrite H in Hj by lia. by injection Hj as <-. }
  induction HD as [|s p ss ps Hs _ IH]; [done|]. inversion He; subst. simpl.
  apply stable_sort_nil_inv in Hs as ->. by rewrite IH, app_nil_r.
Qed.

Lemma flist_sort_spec l : exists s, flist_sort cmp l = Some s /\ stable_sort cmp l s.
Proof.
  destruct l as [|x l]; [exists []; split; [done|apply stable_sort_nil]|]. unfold flist_sort.
  set (l' := x :: l).
  destruct (sort_loop_inv l' (replicate (S MAX_LIST_LENGTH_BITS) []) 0%nat []) as (part & mx & -> & H).
  { split; [done|lia| |].
    - intros k Hk. apply lookup_replicate. unfold MAX_LIST_LENGTH_BITS. split; [done|lia].
    - eexists. split; [apply empties_ok|apply flat_empties]. }
  cbn [mbind option_bind]. destruct H as [Hl Hm Ha (segs & HF & Hpre)].
  destruct (lookup_lt_is_Some_2 part mx) as [top Ht]; [lia|]. rewrite Ht. cbn [mbind option_bind].
  eexists. split; [done|].
  destruct (Forall2_lookup_r _ _ _ _ _ HF Ht) as (seg & Hseg & Hs).
  replace l' with (seg ++ (flat (take mx segs) ++ [])).
  - apply merge_stable_sort; [done|]. apply merge_parts_spec; [by apply Forall2_take|apply stable_sort_nil].
  - simpl in Hpre. rewrite app_nil_r, <- Hpre. rewrite <- (take_drop_middle _ _ _ Hseg) at 2.
    rewrite flat_app. simpl. rewrite (flat_tail_empty segs part (S mx)); [done|done|].
    intros j Hj. apply Ha. lia.
Qed.
End preorder.

(** Comparison functions that agree on the elements sort alike. *)
Section ext.
Context {A : Type} (c1 c2 : A -> A -> Z) (P : A -> Prop).
Context (Hc : forall x y, P x -> P y -> (c1 x y <=? 0) = (c2 x y <=? 0)).

Lemma merge_Forall c a b : Forall P a -> Forall P b -> Forall P (merge c a b).
Proof. intros Ha Hb. rewrite merge_perm. by apply list.Forall_app. Qed.

Lemma merge_ext a b : Forall P a -> Forall P b -> merge c1 a b = merge c2 a b.
Proof.
  revert a b. apply (merge_ind (fun a b => Forall P a -> Forall P b -> merge c1 a b = merge c2 a b)); [done|..].
  - intros a _ _. by rewrite !merge_nil_r.
  - intros x a y b IH1 IH2 Ha Hb. rewrite !merge_cons.
    inversion Ha; inversion Hb; subst. rewrite Hc by done. destruct (_ <=? _); [rewrite IH1|rewrite IH2]; done.
Qed.

Lemma carry_ext part : forall cur, Forall (Forall P) part -> Forall P cur ->
  carry c1 part cur = carry c2 part cur /\
  forall part' lev cur', carry c2 part cur = Some (part', lev, cur') -> Forall (Forall P) part' /\ Forall P cur'.
Proof.
  induction part as [|p part IH]; intros cur Hp Hcur; [done|]. inversion Hp; subst.
  destruct p as [|x p]; [split; [done|by intros ? ? ? [= <- <- <-]]|]. cbn [carry].
  rewrite merge_ext by done. destruct (IH (merge c2 (x :: p) cur)) as [-> IH']; [done|by apply merge_Forall|].
  split; [done|]. intros part' lev cur' E. apply bind_Some in E as ([[q l] c] & E & Eq).
  injection Eq as <- <- <-. destruct (IH' _ _ _ E). split; [by constructor|done].
Qed.

Lemma sort_loop_ext l : forall part mx, Forall (Forall P) part -> Forall P l ->
  sort_loop c1 l part mx = sort_loop c2 l part mx /\
  forall part' mx', sort_loop c2 l part mx = Some (part', mx') -> Forall (Forall P) part'.
Proof.
  induction l as [|x l IH]; intros part mx Hp Hl; [by split; [|intros ? ? [= <- <-]]|].
  inversion Hl; subst. cbn [sort_loop]. unfold sort_step.
  destruct (carry_ext part [x]) as [-> Hk]; [done|by repeat constructor|].
  destruct (carry c2 part [x]) as [[[q lev] cur]|] eqn:E; [|done]. cbn [mbind option_bind].
  destruct (Hk _ _ _ eq_refl) as [Hq Hcur].
  set (j := if (_ <? _)%nat then _ else _). destruct j as [lev' mx'].
  apply IH; [|done]. by apply Forall_insert.
Qed.

Lemma merge_parts_ext part : forall n acc, Forall (Forall P) part -> Forall P acc ->
  merge_parts c1 part n acc = merge_parts c2 part n acc /\ Forall P (merge_parts c2 part n acc).
Proof.
  induction part as [|p part IH]; intros n acc Hp Ha; [by unfold merge_parts; destruct n|].
  inversion Hp; subst. destruct n as [|n]; [done|]. unfold merge_parts in *. cbn [take foldl].
  destruct p as [|x p]; [by apply IH|]. rewrite merge_ext by done. apply IH; [done|by apply merge_Forall].
Qed.

Lemma flist_sort_ext l : Forall P l -> flist_sort c1 l = flist_sort c2 l.
Proof.
  intros Hl. destruct l as [|x l]; [done|]. unfold flist_sort.
  destruct (sort_loop_ext (x :: l) (replicate (S MAX_LIST_LENGTH_BITS) []) 0) as [-> Hk];
    [by apply Forall_replicate|done|].
  destruct (sort_loop c2 (x :: l) _ _) as [[part mx]|] eqn:E; [|done]. cbn [mbind option_bind].
  specialize (Hk _ _ eq_refl). destruct (part !! mx) as [top|] eqn:Et; [|done]. cbn [mbind option_bind].
  destruct (merge_parts_ext part mx [] Hk) as [-> Hm]; [constructor|].
  f_equal. apply merge_ext; [|done]. by apply (list.Forall_lookup_1 _ _ _ _ Hk Et).
Qed.
End ext.

(** C35. For every comparison function that orders the elements (transitive and
    total), [flist_sort] returns: the result is a permutation of the list, in
    order, and elements that compare equal keep their relative order; it never
    reads past the array of partial lists, however long the list is. *)
Theorem flist_sort_stable {A} (cmp : A -> A -> Z) l :
  (forall x y z, le cmp x y -> le cmp y z -> le cmp x z) ->
  (forall x y, le cmp x y \/ le cmp y x) ->
  exists s, flist_sort cmp l = Some s /\ s ≡ₚ l /\ StronglySorted (le cmp) s /\
    forall x, filter (same cmp x) s = filter (same cmp x) l.
Proof.
  intros Ht Hto. destruct (flist_sort_spec cmp Ht Hto l) as (s & E & [P S F]). exists s. done.
Qed.

Lemma flist_sort_stable_witness :
  exists s, flist_sort (fun x y => x mod 10 - y mod 10) [31; 12; 1; 22; 5] = Some s /\
    s = [31; 1; 12; 22; 5] /\ s ≡ₚ [31; 12; 1; 22; 5].
Proof.
  destruct (flist_sort_stable (fun x y => x mod 10 - y mod 10) [31; 12; 1; 22; 5]) as (s & E & P & _);
    [unfold le; lia..|].
  exists s. split; [done|]. split; [|done]. vm_compute in E. by injection E as <-.
Defined.
