(* ===== verification/RandomMap.v ===== *)
(** * The random map as an interface

    [io_u.c] and [filesetup.c] use the block map only through [axmap_isset],
    [axmap_set_nr], [axmap_next_free] and [axmap_reset].  [RandomMap] is that
    set of operations, [RandomMapLaws] what the offset generation relies on:
    an abstract set of marked blocks below a size.  The axmap discharges it. *)
From S2P Require Import Prelude Axmap.

Class RandomMap (M : Type) := {
  rm_isset : M -> Z -> option bool;
  rm_set_nr : M -> Z -> Z -> option (M * Z);
  rm_next_free : M -> Z -> option (M * Z);
  rm_reset : M -> M
}.

Class RandomMapLaws (M : Type) `{RandomMap M} := {
  rm_ok : M -> Prop;
  rm_size : M -> Z;
  rm_marked : M -> Z -> bool;
  rm_size_pos m : rm_ok m -> 0 < rm_size m < 2 ^ 63;
  rm_isset_law m b : rm_ok m -> 0 <= b < rm_size m -> rm_isset m b = Some (rm_marked m b);
  rm_set_free_law m b k : rm_ok m -> 0 <= b -> 1 <= k < 2 ^ 32 -> b + k <= rm_size m ->
    (forall x, b <= x < b + k -> rm_marked m x = false) ->
    exists m', rm_set_nr m b k = Some (m', k) /\ rm_ok m' /\ rm_size m' = rm_size m /\
      forall x, 0 <= x -> rm_marked m' x = rm_marked m x || in_range b k x;
  rm_next_free_law m b : rm_ok m -> 0 <= b < rm_size m ->
    exists m' r, rm_next_free m b = Some (m', r) /\ rm_ok m' /\ rm_size m' = rm_size m /\
      (forall x, rm_marked m' x = rm_marked m x) /\
      ((r = -1ULL /\ forall x, 0 <= x < rm_size m -> rm_marked m x = true) \/
       (0 <= r < rm_size m /\ rm_marked m r = false));
  rm_reset_law m : rm_ok m ->
    rm_ok (rm_reset m) /\ rm_size (rm_reset m) = rm_size m /\ forall x, rm_marked (rm_reset m) x = false
}.

#[export] Instance axmap_random_map : RandomMap axmap := {
  rm_isset := axmap_isset;
  rm_set_nr := axmap_set_nr;
  rm_next_free := axmap_next_free;
  rm_reset := axmap_reset
}.

#[export] Program Instance axmap_random_map_laws : RandomMapLaws axmap := {
  rm_ok := axmap_wf; rm_size := nr_bits; rm_marked := bits
}.
Next Obligation. intros m [Hn _ _ _ _]. lia. Qed.
Next Obligation. exact isset_spec. Qed.
Next Obligation. exact set_nr_free_spec. Qed.
Next Obligation.
  intros m b Hwf Hb. destruct (next_free_spec m b Hwf Hb) as (m' & r & E & H1 & H2 & H3 & H4).
  exists m', r. split_and!; [done..| |done]. intros x. unfold bits. by rewrite H2.
Qed.
Next Obligation.
  intros m [Hn Hne Hd Hl Hf]. destruct (reset_wf m) as [H1 H2]; [lia|done|lia|by apply levels_wf_shape|].
  done.
Qed.

(** The number of marked blocks below the size; each issued block adds one. *)
Section counting.
Context `{RandomMapLaws M}.

Definition blocks (n : Z) : list Z := Z.of_nat <$> seq 0 (Z.to_nat n).

Lemma elem_of_blocks n x : x ∈ blocks n <-> 0 <= x < n.
Proof.
  unfold blocks. rewrite list_elem_of_fmap. split.
  - intros (k & -> & Hk%elem_of_seq). lia.
  - intros Hx. exists (Z.to_nat x). rewrite elem_of_seq. lia.
Qed.

Lemma NoDup_blocks n : NoDup (blocks n).
Proof. apply NoDup_fmap_2; [apply _|apply NoDup_seq]. Qed.

(** The map's marked blocks are exactly those of the list [l]. *)
Definition marks (m : M) (l : list Z) : Prop :=
  forall x, 0 <= x < rm_size m -> rm_marked m x = bool_decide (x ∈ l).

Lemma marks_step m m' l b : marks m l -> rm_size m' = rm_size m -> 0 <= b ->
  (forall x, 0 <= x -> rm_marked m' x = rm_marked m x || in_range b 1 x) -> marks m' (l ++ [b]).
Proof.
  intros Hm Hs Hb H' x Hx. rewrite H', Hm by lia.
  destruct (in_range_spec b 1 x) as [Hr|Hr].
  - rewrite orb_true_r. symmetry. apply bool_decide_eq_true.
    assert (x = b) as -> by lia. apply elem_of_app. right. by apply list_elem_of_singleton.
  - rewrite orb_false_r. apply bool_decide_ext. rewrite elem_of_app, list_elem_of_singleton.
    split; [tauto|]. intros [?|?]; [done|lia].
Qed.

Lemma all_blocks_perm l n : NoDup l -> (forall x, x ∈ l -> 0 <= x < n) -> (Z.to_nat n <= length l)%nat ->
  l ≡ₚ blocks n.
Proof.
  intros Hd Hr Hl. apply submseteq_length_Permutation.
  - apply NoDup_submseteq; [done|]. intros x Hx. apply elem_of_blocks. by apply Hr.
  - unfold blocks. rewrite length_fmap, length_seq. lia.
Qed.
End counting.
