(* ===== verification/IoU.v ===== *)
(** * Offset and length of the next I/O: [io_u.c], [filesetup.c], [io_ddir.h]

    The part of [io_u.c] that decides where the next I/O goes: random offsets
    over the random map, the LFSR or a distribution, sequential offsets, zones,
    block sizes.  The code runs in a state monad over the thread, the file and
    the I/O unit; [None] is a failed assertion, undefined behaviour or a loop
    out of fuel, and a C return value is a value.  The random map is any
    [RandomMap]; libm's [pow] is a parameter. *)
From S2P Require Import Prelude Axmap Rand CFloat Dist Lfsr FlistSort RandomMap.

(** The data directions for which [ddir_rw] holds. *)
Inductive fio_ddir := DDIR_READ | DDIR_WRITE | DDIR_TRIM.

#[export] Instance fio_ddir_eq_dec : EqDecision fio_ddir.
Proof. solve_decision. Defined.

(** An array indexed by a direction. *)
Definition per_ddir (A : Type) : Type := fio_ddir -> A.
Definition upd {A} (d : fio_ddir) (v : A) (a : per_ddir A) : per_ddir A :=
  fun d' => if decide (d' = d) then v else a d'.

Inductive rand_gen := FIO_RAND_GEN_TAUSWORTHE | FIO_RAND_GEN_LFSR | FIO_RAND_GEN_TAUSWORTHE64.
Inductive rand_dist :=
| FIO_RAND_DIST_RANDOM | FIO_RAND_DIST_ZIPF | FIO_RAND_DIST_PARETO | FIO_RAND_DIST_GAUSS
| FIO_RAND_DIST_ZONED | FIO_RAND_DIST_ZONED_ABS.
Inductive rw_seq_t := RW_SEQ_SEQ | RW_SEQ_IDENT.

Record zone_split_index := Zsi { size_perc : Z; size_perc_prev : Z; zsi_size : Z; zsi_size_prev : Z }.
Record bssplit_t := Bssplit { bsp_bs : Z; bsp_perc : Z }.

(** The options the code reads; the last five are fields of [struct
    thread_data] that this code does not write. *)
Record thread_options := Options {
  td_random : bool; rw_seq : rw_seq_t; o_ddir_seq_nr : Z; ddir_seq_add : Z;
  ba : per_ddir Z; min_bs : per_ddir Z; max_bs : per_ddir Z; bssplit : per_ddir (list bssplit_t);
  bs_unaligned : bool; bs_is_seq_rand : bool;
  norandommap : bool; random_generator : rand_gen; random_distribution : rand_dist;
  perc_rand : per_ddir Z; zone_split_nr : per_ddir Z;
  zone_range : Z; zone_size : Z; zone_skip : Z;
  time_based : bool; fservice_nonuniform : bool; do_verify : bool; verifysort_nr : nat;
  file_append : bool; start_offset : Z; start_offset_percent : Z; start_offset_align : option Z;
  offset_increment : Z;
  subjob_number : Z; verifying : bool; rand_seed_block_off : Z;
  zone_state_index : per_ddir (list zone_split_index)
}.

Record thread_data := Td {
  random_state : frand_state; zone_state : frand_state;
  seq_rand_state : per_ddir frand_state; bsrange_state : per_ddir frand_state;
  ddir_seq_nr : Z; next_rand_list : list Z; zone_bytes : Z; io_skip_bytes : Z
}.

Record fio_file (M : Type) := File {
  file_offset : Z; io_size : Z; real_file_size : Z;
  last_pos : per_ddir Z; last_start : per_ddir Z;
  io_axmap : option M; lfsr : option fio_lfsr; zipf : zipf_state; gauss : gauss_state;
  type_file : bool
}.
Arguments File {M}.
Arguments file_offset {M}. Arguments io_size {M}. Arguments real_file_size {M}.
Arguments last_pos {M}. Arguments last_start {M}. Arguments io_axmap {M}.
Arguments lfsr {M}. Arguments zipf {M}. Arguments gauss {M}. Arguments type_file {M}.

Record io_u := IoU { offset : Z; buflen : Z; ddir : fio_ddir; busy_ok : bool }.

Record state (M : Type) := St { td : thread_data; file : fio_file M; iou : io_u }.
Arguments St {M}. Arguments td {M}. Arguments file {M}. Arguments iou {M}.

(** ** The state monad *)
Section monad.
Context {M : Type}.
Definition stm (A : Type) : Type := state M -> option (A * state M).
#[export] Instance stm_ret : MRet stm := fun A x s => Some (x, s).
#[export] Instance stm_bind : MBind stm := fun A B k m s =>
  match m s with Some (x, s') => k x s' | None => None end.
Definition get : stm (state M) := fun s => Some (s, s).
Definition lift {A} (x : option A) : stm A := fun s => match x with Some a => Some (a, s) | None => None end.
Definition put_td (t : thread_data) : stm unit := fun s => Some (tt, St t (file s) (iou s)).
Definition put_file (f : fio_file M) : stm unit := fun s => Some (tt, St (td s) f (iou s)).
Definition put_iou (i : io_u) : stm unit := fun s => Some (tt, St (td s) (file s) i).
End monad.
Arguments stm : clear implicits.

(** Field updates. *)
Section updates.
Context {M : Type}.
Definition set_random_state r t := Td r (zone_state t) (seq_rand_state t) (bsrange_state t)
  (ddir_seq_nr t) (next_rand_list t) (zone_bytes t) (io_skip_bytes t).
Definition set_zone_state r t := Td (random_state t) r (seq_rand_state t) (bsrange_state t)
  (ddir_seq_nr t) (next_rand_list t) (zone_bytes t) (io_skip_bytes t).
Definition set_seq_rand_state d r t := Td (random_state t) (zone_state t) (upd d r (seq_rand_state t))
  (bsrange_state t) (ddir_seq_nr t) (next_rand_list t) (zone_bytes t) (io_skip_bytes t).
Definition set_bsrange_state d r t := Td (random_state t) (zone_state t) (seq_rand_state t)
  (upd d r (bsrange_state t)) (ddir_seq_nr t) (next_rand_list t) (zone_bytes t) (io_skip_bytes t).
Definition set_ddir_seq_nr n t := Td (random_state t) (zone_state t) (seq_rand_state t)
  (bsrange_state t) n (next_rand_list t) (zone_bytes t) (io_skip_bytes t).
Definition set_next_rand_list l t := Td (random_state t) (zone_state t) (seq_rand_state t)
  (bsrange_state t) (ddir_seq_nr t) l (zone_bytes t) (io_skip_bytes t).
Definition set_zone_bytes n t := Td (random_state t) (zone_state t) (seq_rand_state t)
  (bsrange_state t) (ddir_seq_nr t) (next_rand_list t) n (io_skip_bytes t).
Definition set_io_skip_bytes n t := Td (random_state t) (zone_state t) (seq_rand_state t)
  (bsrange_state t) (ddir_seq_nr t) (next_rand_list t) (zone_bytes t) n.

Definition set_file_offset n (f : fio_file M) : fio_file M := File n (io_size f) (real_file_size f) (last_pos f)
  (last_start f) (io_axmap f) (lfsr f) (zipf f) (gauss f) (type_file f).
Definition set_positions p q (f : fio_file M) : fio_file M := File (file_offset f) (io_size f) (real_file_size f) p q
  (io_axmap f) (lfsr f) (zipf f) (gauss f) (type_file f).
Definition set_last_pos d n (f : fio_file M) : fio_file M := set_positions (upd d n (last_pos f)) (last_start f) f.
Definition set_axmap (m : M) (f : fio_file M) : fio_file M := File (file_offset f) (io_size f) (real_file_size f)
  (last_pos f) (last_start f) (Some m) (lfsr f) (zipf f) (gauss f) (type_file f).
Definition set_lfsr l (f : fio_file M) : fio_file M := File (file_offset f) (io_size f) (real_file_size f)
  (last_pos f) (last_start f) (io_axmap f) (Some l) (zipf f) (gauss f) (type_file f).
Definition set_zipf z (f : fio_file M) : fio_file M := File (file_offset f) (io_size f) (real_file_size f)
  (last_pos f) (last_start f) (io_axmap f) (lfsr f) z (gauss f) (type_file f).
Definition set_gauss g (f : fio_file M) : fio_file M := File (file_offset f) (io_size f) (real_file_size f)
  (last_pos f) (last_start f) (io_axmap f) (lfsr f) (zipf f) g (type_file f).

Definition set_offset n i := IoU n (buflen i) (ddir i) (busy_ok i).
Definition set_buflen n i := IoU (offset i) n (ddir i) (busy_ok i).
Definition set_busy_ok i := IoU (offset i) (buflen i) (ddir i) true.
End updates.

Section io_u.
Context {M : Type} `{RandomMap M}.
Context (pow : double -> double -> double) (o : thread_options) (fuel : nat).

(** ** The random map *)
Definition file_randommap (f : fio_file M) : option M :=
  if norandommap o then None else io_axmap f.

Definition random_map_free (m : M) (block : Z) : option bool := negb <$> rm_isset m block.

(** [nr_blocks * min_bs] is computed in [unsigned int]. *)
Definition mark_random_map (m : M) : stm M unit :=
  s ← get;
  let i := iou s in
  let f := file s in
  let bs := min_bs o (ddir i) in
  if bs =? 0 then lift None else
  let block := u64 (offset i - file_offset f) / bs in
  let nr_blocks := u32 (u64 (buflen i + bs - 1) / bs) in
  nr_blocks ← (if busy_ok i then mret nr_blocks else
    '(m', n) ← lift (rm_set_nr m block nr_blocks);
    put_file (set_axmap m' f);; mret n);
  if u32 (nr_blocks * bs) <? buflen i then put_iou (set_buflen (u32 (nr_blocks * bs)) i)
  else mret tt.

Definition last_block (f : fio_file M) (d : fio_ddir) : option Z :=
  let max_size := Z.min (io_size f) (real_file_size f) in
  let max_size := if zone_range o =? 0 then max_size else zone_range o in
  let max_size := if ba o d <? min_bs o d then u64 (max_size - u32 (min_bs o d - ba o d)) else max_size in
  if ba o d =? 0 then None else Some (max_size / ba o d).

(** ** Random offsets; [None] is the return value 1 *)
Definition draw_block (lastb : Z) : stm M (option Z) :=
  s ← get;
  match random_generator o with
  | FIO_RAND_GEN_TAUSWORTHE | FIO_RAND_GEN_TAUSWORTHE64 =>
      let '(st, r) := __rand (random_state (td s)) in
      put_td (set_random_state st (td s));;
      b ← lift (to_u64 (dscale lastb r (rand_max st)));
      mret (Some b)
  | FIO_RAND_GEN_LFSR =>
      fl ← lift (lfsr (file s));
      '(fl, v) ← lift (lfsr_next fuel fl);
      put_file (set_lfsr fl (file s));;
      mret v
  end.

Definition __get_next_rand_offset (lastb : Z) : stm M (option Z) :=
  ob ← draw_block lastb;
  match ob with
  | None => mret None
  | Some b =>
      s ← get;
      match file_randommap (file s) with
      | None => mret (Some b)
      | Some m =>
          free ← lift (random_map_free m b);
          if free : bool then mret (Some b) else
          '(m, b) ← lift (rm_next_free m b);
          put_file (set_axmap m (file s));;
          mret (if b =? -1ULL then None else Some b)
      end
  end.

Definition __get_next_rand_offset_zipf : stm M (option Z) :=
  s ← get;
  '(z, b) ← lift (zipf_next pow (zipf (file s)));
  put_file (set_zipf z (file s));; mret (Some b).

Definition __get_next_rand_offset_pareto : stm M (option Z) :=
  s ← get;
  '(z, b) ← lift (pareto_next pow (zipf (file s)));
  put_file (set_zipf z (file s));; mret (Some b).

Definition __get_next_rand_offset_gauss : stm M (option Z) :=
  s ← get;
  '(g, b) ← lift (gauss_next fuel (gauss (file s)));
  put_file (set_gauss g (file s));; mret (Some b).

(** [v = rand32_between(&td->zone_state, 1, 100)] and the entry it selects. *)
Definition draw_zone (d : fio_ddir) : stm M zone_split_index :=
  s ← get;
  '(st, v) ← lift (rand32_between (zone_state (td s)) 1 100);
  put_td (set_zone_state st (td s));;
  lift (zone_state_index o d !! Z.to_nat (v - 1)).

Definition __get_next_rand_offset_zoned_abs (d : fio_ddir) : stm M (option Z) :=
  s ← get;
  lastb ← lift (last_block (file s) d);
  if lastb =? 0 then mret None else
  if zone_split_nr o d =? 0 then __get_next_rand_offset lastb else
  zsi ← draw_zone d;
  let stotal := zsi_size_prev zsi / ba o d in
  let send := zsi_size zsi / ba o d in
  if send =? -1U then __get_next_rand_offset lastb else
  if lastb <? send then mret None else
  ob ← __get_next_rand_offset (u64 (send - stotal));
  mret ((fun b => u64 (b + stotal)) <$> ob).

(** [send == -1U] cannot hold: [size_perc] is 8 bits wide. *)
Definition __get_next_rand_offset_zoned (d : fio_ddir) : stm M (option Z) :=
  s ← get;
  lastb ← lift (last_block (file s) d);
  if lastb =? 0 then mret None else
  if zone_split_nr o d =? 0 then __get_next_rand_offset lastb else
  zsi ← draw_zone d;
  let stotal := size_perc_prev zsi in
  let send := size_perc zsi in
  if send =? -1U then __get_next_rand_offset lastb else
  let off := if stotal =? 0 then 0 else u64 (stotal * lastb) / 100 in
  ob ← __get_next_rand_offset (u64 (lastb * u32 (send - stotal)) / 100);
  mret ((fun b => if off =? 0 then b else u64 (b + off)) <$> ob).

Definition get_off_from_method (d : fio_ddir) : stm M (option Z) :=
  match random_distribution o with
  | FIO_RAND_DIST_RANDOM =>
      s ← get;
      lastb ← lift (last_block (file s) d);
      if lastb =? 0 then mret None else __get_next_rand_offset lastb
  | FIO_RAND_DIST_ZIPF => __get_next_rand_offset_zipf
  | FIO_RAND_DIST_PARETO => __get_next_rand_offset_pareto
  | FIO_RAND_DIST_GAUSS => __get_next_rand_offset_gauss
  | FIO_RAND_DIST_ZONED => __get_next_rand_offset_zoned d
  | FIO_RAND_DIST_ZONED_ABS => __get_next_rand_offset_zoned_abs d
  end.

Definition should_sort_io : bool :=
  negb (Nat.eqb (verifysort_nr o) 0) && do_verify o && td_random o && verifying o &&
  match random_generator o with FIO_RAND_GEN_LFSR => true | _ => false end.

(** [r1->off - r2->off] returned as an [int]. *)
Definition flist_cmp (r1 r2 : Z) : Z := s32 (r1 - r2).

(** The batch loop: [flist_add] puts each new offset at the head. *)
Fixpoint rand_batch (n : nat) (d : fio_ddir) (acc : list Z) : stm M (list Z) :=
  match n with
  | O => mret acc
  | S n =>
      ob ← get_off_from_method d;
      match ob with None => mret acc | Some b => rand_batch n d (b :: acc) end
  end.

Definition fetch_rand (l : list Z) : stm M (option Z) :=
  s ← get;
  match l with
  | [] => lift None
  | b :: l => put_td (set_next_rand_list l (td s));; mret (Some b)
  end.

Definition get_next_rand_offset (d : fio_ddir) : stm M (option Z) :=
  if negb should_sort_io then get_off_from_method d else
  s ← get;
  match next_rand_list (td s) with
  | _ :: _ => fetch_rand (next_rand_list (td s))
  | [] =>
      l ← rand_batch (verifysort_nr o) d [];
      match l with
      | [] => mret None
      | _ => l ← lift (flist_sort flist_cmp l); fetch_rand l
      end
  end.

(** [fio_file_reset] of [filesetup.c]. *)
Definition fio_file_reset (f : fio_file M) : fio_file M :=
  let f := set_positions (fun _ => file_offset f) (fun _ => -1ULL) f in
  match io_axmap f, lfsr f with
  | Some m, _ => set_axmap (rm_reset m) f
  | None, Some fl => set_lfsr (fst (lfsr_reset fl (rand_seed_block_off o))) f
  | None, None => f
  end.

Definition get_next_rand_block (d : fio_ddir) : stm M (option Z) :=
  ob ← get_next_rand_offset d;
  match ob with
  | Some b => mret (Some b)
  | None =>
      if time_based o || fservice_nonuniform o then
        s ← get;
        put_file (fio_file_reset (file s));;
        get_next_rand_offset d
      else mret None
  end.

(** ** Sequential offsets *)
Definition td_min_bs : Z := Z.min (min_bs o DDIR_TRIM) (Z.min (min_bs o DDIR_READ) (min_bs o DDIR_WRITE)).

Definition get_start_offset (f : fio_file M) : option Z :=
  if file_append o && type_file f then Some (real_file_size f) else
  if 0 <? start_offset_percent o then
    let align_bs := default td_min_bs (start_offset_align o) in
    let off := u64 (u64 (real_file_size f * start_offset_percent o) / 100 +
                    u64 (subjob_number o * offset_increment o)) in
    if align_bs =? 0 then None else
    Some (u64 (u64 (off / align_bs + (if off mod align_bs =? 0 then 0 else 1)) * align_bs))
  else Some (u64 (start_offset o + u64 (subjob_number o * offset_increment o))).

(** [None] is the return value 1. *)
Definition get_next_seq_offset (d : fio_ddir) : stm M (option Z) :=
  s ← get;
  let f := file s in
  start ← lift (get_start_offset f);
  let f := if (u64 (io_size f + start) <=? last_pos f d) && time_based o
           then set_last_pos d (file_offset f) f else f in
  put_file f;;
  if real_file_size f <=? last_pos f d then mret None else
  let f := if (last_pos f d =? file_offset f) && (ddir_seq_add o <? 0)
           then set_last_pos d (if io_size f <? real_file_size f then io_size f else real_file_size f) f
           else f in
  put_file f;;
  let pos := u64 (last_pos f d - file_offset f) in
  let pos :=
    if negb (pos =? 0) && negb (ddir_seq_add o =? 0) then
      let pos := u64 (pos + ddir_seq_add o) in
      if real_file_size f <=? pos then
        if 0 <? ddir_seq_add o then file_offset f
        else u64 ((if io_size f <? real_file_size f then io_size f else real_file_size f) + ddir_seq_add o)
      else pos
    else pos in
  mret (Some pos).

Definition should_do_random (d : fio_ddir) : stm M bool :=
  if perc_rand o d =? 100 then mret true else
  s ← get;
  '(st, v) ← lift (rand32_between (seq_rand_state (td s) d) 1 100);
  put_td (set_seq_rand_state d st (td s));;
  mret (v <=? perc_rand o d).

(** What [get_next_block] found: [offset] set, [b] set, or a failure. *)
Inductive next_block := NoBlock | AtOffset (n : Z) | AtBlock (b : Z).

Definition seq_block (r : option Z) : next_block := match r with Some n => AtOffset n | None => NoBlock end.
Definition rand_block (r : option Z) : next_block := match r with Some b => AtBlock b | None => NoBlock end.

Definition mark_busy_ok : stm M unit := s ← get; put_iou (set_busy_ok (iou s)).

Definition seq_or_rand (d : fio_ddir) : stm M next_block :=
  r ← get_next_seq_offset d;
  match r with
  | Some n => mret (AtOffset n)
  | None => r ← get_next_rand_block d; mret (rand_block r)
  end.

Definition pick_block (d : fio_ddir) (rw_seq_hit : bool) : stm M (next_block * bool) :=
  if rw_seq_hit then
    if td_random o then
      rnd ← should_do_random d;
      if rnd : bool then r ← get_next_rand_block d; mret (rand_block r, true)
      else mark_busy_ok;; nb ← seq_or_rand d; mret (nb, false)
    else r ← get_next_seq_offset d; mret (seq_block r, false)
  else
    mark_busy_ok;;
    match rw_seq o with
    | RW_SEQ_SEQ => nb ← seq_or_rand d; mret (nb, false)
    | RW_SEQ_IDENT =>
        s ← get;
        let f := file s in
        mret (AtOffset (if last_start f d =? -1ULL then 0 else u64 (last_start f d - file_offset f)), false)
    end.

(** The final assignment tests [offset != -1ULL] and then [b != -1ULL], which
    are [-1ULL] unless they were set; [true] is the return value 1. *)
Definition get_next_block (d : fio_ddir) (rw_seq_hit : bool) : stm M (bool * bool) :=
  '(nb, is_random) ← pick_block d rw_seq_hit;
  s ← get;
  match nb with
  | NoBlock => mret (true, is_random)
  | AtOffset n =>
      if n =? -1ULL then mret (true, is_random)
      else put_iou (set_offset n (iou s));; mret (false, is_random)
  | AtBlock b =>
      if b =? -1ULL then mret (true, is_random)
      else put_iou (set_offset (u64 (b * ba o d)) (iou s));; mret (false, is_random)
  end.

Definition __get_next_offset : stm M (bool * bool) :=
  s ← get;
  let d := ddir (iou s) in
  hit ← (if o_ddir_seq_nr o =? 0 then mret false else
    let n := u32 (ddir_seq_nr (td s) - 1) in
    if n =? 0 then put_td (set_ddir_seq_nr (o_ddir_seq_nr o) (td s));; mret true
    else put_td (set_ddir_seq_nr n (td s));; mret false);
  '(ret, is_random) ← get_next_block d hit;
  if ret : bool then mret (true, is_random) else
  s ← get;
  let f := file s in
  if io_size f <=? offset (iou s) then mret (true, is_random) else
  let off := u64 (offset (iou s) + file_offset f) in
  put_iou (set_offset off (iou s));;
  mret (real_file_size f <=? off, is_random).

(** ** Block sizes *)
Definition io_u_fits (f : fio_file M) (i : io_u) (len : Z) : option bool :=
  start ← get_start_offset f;
  Some (u64 (offset i + len) <=? u64 (io_size f + start)).

Definition is_power_of_2 (val : Z) : bool := negb (val =? 0) && (Z.land val (val - 1) =? 0).

(** The [bssplit] loop: the size of the entry it stops at, or of the last. *)
Fixpoint bssplit_pick (f : fio_file M) (i : io_u) (l : list bssplit_t) (r frand_max perc len : Z) : option Z :=
  match l with
  | [] => Some len
  | bsp :: l =>
      let perc := perc + bsp_perc bsp in
      if perc =? 0 then Some (bsp_bs bsp) else
      fits ← io_u_fits f i (bsp_bs bsp);
      if (r / perc <=? frand_max / 100) && fits then Some (bsp_bs bsp)
      else bssplit_pick f i l r frand_max perc (bsp_bs bsp)
  end.

(** One draw of the [do] loop: the length, aligned. *)
Definition draw_buflen (f : fio_file M) (i : io_u) (d : fio_ddir) (r frand_max : Z) : option Z :=
  let minbs := min_bs o d in
  len ← (match bssplit o d with
    | [] => k ← to_u32 (dscale (max_bs o d) r frand_max); Some (Z.max (u32 (1 + k)) minbs)
    | l => bssplit_pick f i l r frand_max 0 0
    end);
  if bs_unaligned o then Some len
  else if is_power_of_2 minbs then Some (Z.land len (bnot 32 (u32 (minbs - 1))))
  else if minbs =? 0 then None else Some (u32 (len - len mod minbs)).

Fixpoint buflen_loop (n : nat) (d : fio_ddir) : stm M Z :=
  match n with
  | O => lift None
  | S n =>
      s ← get;
      let '(st, r) := __rand (bsrange_state (td s) d) in
      put_td (set_bsrange_state d st (td s));;
      len ← lift (draw_buflen (file s) (iou s) d r (rand_max (bsrange_state (td s) d)));
      fits ← lift (io_u_fits (file s) (iou s) len);
      if fits : bool then mret len else buflen_loop n d
  end.

Definition __get_next_buflen (is_random : bool) : stm M Z :=
  s ← get;
  let d := if bs_is_seq_rand o then (if is_random then DDIR_WRITE else DDIR_READ) else ddir (iou s) in
  if min_bs o d =? max_bs o d then mret (min_bs o d) else
  fits ← lift (io_u_fits (file s) (iou s) (min_bs o d));
  if negb fits then mret 0 else buflen_loop fuel d.

(** ** Filling an I/O unit *)
Definition __fill_io_u_zone : stm M unit :=
  s ← get;
  let d := ddir (iou s) in
  let f := file s in
  let t := td s in
  let '(t, f) :=
    if (zone_size o <=? zone_bytes t) && negb (zone_skip o =? 0) then
      let off := u64 (file_offset f + u64 (zone_range o + zone_skip o)) in
      let off := if real_file_size f <=? off then u64 (real_file_size f - off) else off in
      (set_io_skip_bytes (u64 (io_skip_bytes t + zone_skip o)) (set_zone_bytes 0 t),
       set_last_pos d off (set_file_offset off f))
    else (t, f) in
  let f := if u64 (file_offset f + zone_range o) <=? last_pos f d
           then set_last_pos d (file_offset f) f else f in
  put_td t;;
  if zone_range o =? 0 then lift None else
  put_file (if zone_bytes t mod zone_range o =? 0 then fio_file_reset f else f).

(** [fill_io_u] from the zone check on, for a unit whose direction
    [set_rw_ddir] has already chosen; [true] is the return value 1. *)
Definition fill_io_u : stm M bool :=
  (if zone_range o =? 0 then mret tt else __fill_io_u_zone);;
  '(ret, is_random) ← __get_next_offset;
  if ret : bool then mret true else
  len ← __get_next_buflen is_random;
  s ← get;
  put_iou (set_buflen len (iou s));;
  if len =? 0 then mret true else
  if real_file_size (file s) <? u64 (offset (iou s) + len) then mret true else
  (match (if td_random o then file_randommap (file s) else None) with
   | Some m => mark_random_map m
   | None => mret tt
   end);;
  s ← get;
  put_td (set_zone_bytes (u64 (zone_bytes (td s) + buflen (iou s))) (td s));;
  mret false.

(** The part of [get_io_u] that records where the unit ended. *)
Definition note_position : stm M bool :=
  s ← get;
  let i := iou s in
  let f := file s in
  if buflen i =? 0 then mret true else
  put_file (set_positions (upd (ddir i) (u64 (offset i + buflen i)) (last_pos f))
                          (upd (ddir i) (offset i) (last_start f)) f);;
  mret false.

(** A unit taken from the free list with its flags cleared, filled, and noted. *)
Definition next_io (d : fio_ddir) : stm M (option (Z * Z)) :=
  put_iou (IoU 0 0 d false);;
  r ← fill_io_u;
  if r : bool then mret None else
  r ← note_position;
  s ← get;
  mret (if r : bool then None else Some (offset (iou s), buflen (iou s))).

(** The units issued until [n] have been, or the generation fails. *)
Fixpoint run (n : nat) (d : fio_ddir) : stm M (list (Z * Z)) :=
  match n with
  | O => mret []
  | S n =>
      r ← next_io d;
      match r with
      | None => mret []
      | Some x => l ← run n d; mret (x :: l)
      end
  end.
End io_u.

(** ** Reasoning about the monad *)
Section inversion.
Context {M : Type}.

Lemma bind_Some_stm {A B} (m : stm M A) (k : A -> stm M B) s y s'' :
  (m ≫= k) s = Some (y, s'') -> exists x s', m s = Some (x, s') /\ k x s' = Some (y, s'').
Proof.
  unfold mbind, stm_bind. destruct (m s) as [[x s']|]; [|done]. intros E. by exists x, s'.
Qed.

Lemma bind_run {A B} (m : stm M A) (k : A -> stm M B) s x s' :
  m s = Some (x, s') -> (m ≫= k) s = k x s'.
Proof. intros E. unfold mbind, stm_bind. by rewrite E. Qed.

Lemma lift_Some {A} (x : option A) (s s' : state M) a : lift x s = Some (a, s') -> x = Some a /\ s' = s.
Proof. unfold lift. destruct x; [|done]. by intros [= -> ->]. Qed.

Lemma lift_run {A} (x : option A) (s : state M) a : x = Some a -> lift x s = Some (a, s).
Proof. by intros ->. Qed.
Lemma get_inv (s s' x : state M) : get s = Some (x, s') -> x = s /\ s' = s.
Proof. by intros [= -> ->]. Qed.
End inversion.

(** Split the first bind of a computation that returned. *)
Ltac stm_inv H :=
  let x := fresh "x" in let s := fresh "s" in let E := fresh "E" in
  apply bind_Some_stm in H as (x & s & E & H).

Ltac stm_simpl := cbn [td file iou ddir offset buflen busy_ok set_offset set_buflen set_busy_ok
  set_ddir_seq_nr set_random_state set_axmap set_positions set_zone_bytes random_state ddir_seq_nr
  file_offset io_size real_file_size last_pos last_start io_axmap] in *.

(** ** What the offset generation leaves alone *)
Section keeps.
Context {M : Type} `{RandomMap M}.
Context (pow : double -> double -> double) (o : thread_options) (fuel : nat).

Definition fgeo (f : fio_file M) : Z * Z * Z * bool := (file_offset f, io_size f, real_file_size f, type_file f).
Definition geo (s : state M) : Z * Z * Z * bool * fio_ddir := (fgeo (file s), ddir (iou s)).

(** Running [m] from [s] keeps the file's extent and the unit's direction. *)
Definition keeps {A} (m : stm M A) (s : state M) : Prop :=
  forall x s', m s = Some (x, s') -> geo s' = geo s.

Lemma keeps_bind {A B} (m : stm M A) (k : A -> stm M B) s :
  keeps m s -> (forall x s', m s = Some (x, s') -> keeps (k x) s') -> keeps (m ≫= k) s.
Proof.
  intros Hm Hk y s'' E. apply bind_Some_stm in E as (x & s' & E1 & E2).
  rewrite (Hk x s' E1 y s'' E2). by apply (Hm x s').
Qed.

Lemma keeps_get {B} (k : state M -> stm M B) s : keeps (k s) s -> keeps (get ≫= k) s.
Proof. done. Qed.

Lemma keeps_ret {A} (x : A) s : keeps (mret x : stm M A) s.
Proof. intros y s' E. by injection E as _ <-. Qed.

Lemma keeps_lift {A} (x : option A) s : keeps (lift x) s.
Proof. intros y s' E. by apply lift_Some in E as [_ ->]. Qed.

Lemma keeps_put_td t s : keeps (put_td t) s.
Proof. intros y s' E. by injection E as _ <-. Qed.

Lemma keeps_put_file f s : fgeo f = fgeo (file s) -> keeps (put_file f) s.
Proof. intros Hf y s' E. injection E as _ <-. unfold geo. simpl. by rewrite Hf. Qed.

Lemma keeps_put_iou i s : ddir i = ddir (iou s) -> keeps (put_iou i) s.
Proof. intros Hi y s' E. injection E as _ <-. unfold geo. simpl. by rewrite Hi. Qed.

Lemma lift_bind_keeps {A B} (x : option A) (k : A -> stm M B) s :
  (forall a, x = Some a -> keeps (k a) s) -> keeps (lift x ≫= k) s.
Proof.
  intros Hk. apply keeps_bind; [apply keeps_lift|]. intros a s' [E ->]%lift_Some. by apply Hk.
Qed.

Lemma put_file_keeps {B} f (k : unit -> stm M B) s :
  fgeo f = fgeo (file s) -> keeps (k tt) (St (td s) f (iou s)) -> keeps (put_file f ≫= k) s.
Proof. intros Hf Hk. apply keeps_bind; [by apply keeps_put_file|]. by intros [] s' [= <-]. Qed.

Lemma put_td_keeps {B} t (k : unit -> stm M B) s :
  keeps (k tt) (St t (file s) (iou s)) -> keeps (put_td t ≫= k) s.
Proof. intros Hk. apply keeps_bind; [by apply keeps_put_td|]. by intros [] s' [= <-]. Qed.

Lemma put_iou_keeps {B} i (k : unit -> stm M B) s :
  ddir i = ddir (iou s) -> keeps (k tt) (St (td s) (file s) i) -> keeps (put_iou i ≫= k) s.
Proof. intros Hi Hk. apply keeps_bind; [by apply keeps_put_iou|]. by intros [] s' [= <-]. Qed.

Lemma reset_fgeo f : fgeo (fio_file_reset o f) = fgeo f.
Proof. unfold fio_file_reset. simpl. destruct (io_axmap f), (lfsr f); done. Qed.

Lemma reset_file_offset f : file_offset (fio_file_reset o f) = file_offset f.
Proof. pose proof (reset_fgeo f) as E. unfold fgeo in E. congruence. Qed.
End keeps.

Create HintDb stm.
#[export] Hint Resolve keeps_ret keeps_lift keeps_put_td reset_fgeo : stm.

(** Walk through a computation, one bind or one case at a time. *)
Ltac keeps_step :=
  lazymatch goal with
  | |- keeps (mbind _ get) _ => apply keeps_get; cbv beta zeta
  | |- keeps (mbind _ (lift _)) _ => apply lift_bind_keeps; intros ? _
  | |- keeps (mbind _ (put_td _)) _ => apply put_td_keeps
  | |- keeps (mbind _ (put_file _)) _ =>
      apply put_file_keeps; [solve [auto with stm | repeat case_match; done]|]
  | |- keeps (mbind _ (put_iou _)) _ => apply put_iou_keeps; [done|]
  | |- keeps (mbind _ _) _ => apply keeps_bind; [|intros ? ? _]
  | |- keeps (put_file _) _ => apply keeps_put_file; solve [auto with stm | repeat case_match; done]
  | |- keeps (put_iou _) _ => apply keeps_put_iou; done
  | |- keeps (match _ with _ => _ end) _ => case_match
  | |- keeps (let _ := _ in _) _ => cbv zeta
  | |- _ => solve [auto with stm]
  end.
Ltac keeps_tac := repeat keeps_step.

Section bounds.
Context {M : Type} `{RandomMap M}.
Context (pow : double -> double -> double) (o : thread_options) (fuel : nat).

Lemma draw_block_keeps lastb s : keeps (draw_block (M := M) o fuel lastb) s.
Proof. unfold draw_block. keeps_tac. Qed.
#[local] Hint Resolve draw_block_keeps : stm.

Lemma rand_offset_keeps lastb s : keeps (__get_next_rand_offset (M := M) o fuel lastb) s.
Proof. unfold __get_next_rand_offset. keeps_tac. Qed.
#[local] Hint Resolve rand_offset_keeps : stm.

Lemma method_keeps d s : keeps (get_off_from_method (M := M) pow o fuel d) s.
Proof.
  unfold get_off_from_method, __get_next_rand_offset_zipf, __get_next_rand_offset_pareto,
    __get_next_rand_offset_gauss, __get_next_rand_offset_zoned, __get_next_rand_offset_zoned_abs, draw_zone.
  keeps_tac.
Qed.
#[local] Hint Resolve method_keeps : stm.

Lemma rand_batch_keeps n d : forall acc s, keeps (rand_batch (M := M) pow o fuel n d acc) s.
Proof. induction n as [|n IH]; intros acc s; cbn [rand_batch]; keeps_tac. Qed.
#[local] Hint Resolve rand_batch_keeps : stm.

Lemma next_rand_offset_keeps d s : keeps (get_next_rand_offset (M := M) pow o fuel d) s.
Proof. unfold get_next_rand_offset, fetch_rand. keeps_tac. Qed.
#[local] Hint Resolve next_rand_offset_keeps : stm.

Lemma rand_block_keeps d s : keeps (get_next_rand_block (M := M) pow o fuel d) s.
Proof. unfold get_next_rand_block. keeps_tac. Qed.
#[local] Hint Resolve rand_block_keeps : stm.

Lemma seq_offset_keeps d s : keeps (get_next_seq_offset (M := M) o d) s.
Proof. unfold get_next_seq_offset. keeps_tac. Qed.
#[local] Hint Resolve seq_offset_keeps : stm.

Lemma pick_block_keeps d hit s : keeps (pick_block (M := M) pow o fuel d hit) s.
Proof. unfold pick_block, should_do_random, mark_busy_ok, seq_or_rand. keeps_tac. Qed.
#[local] Hint Resolve pick_block_keeps : stm.

Lemma u64_nonneg x : 0 <= u64 x.
Proof. apply wrap_bounds. lia. Qed.
#[local] Hint Resolve u64_nonneg : stm.

Lemma seq_nonneg d (s s' : state M) n : 0 <= file_offset (file s) ->
  get_next_seq_offset o d s = Some (Some n, s') -> 0 <= n.
Proof.
  intros Hf E. unfold get_next_seq_offset in E. stm_inv E. apply get_inv in E0 as [-> ->].
  stm_inv E. apply lift_Some in E0 as [_ ->]. stm_inv E. injection E0 as _ <-.
  case_match; [discriminate E|]. stm_inv E. injection E0 as _ <-. injection E as <- _.
  repeat case_match; auto with stm.
Qed.

Definition nonneg_at (nb : next_block) : Prop := match nb with AtOffset n => 0 <= n | _ => True end.

Lemma pick_block_nonneg d hit (s s' : state M) nb r : 0 <= file_offset (file s) ->
  pick_block pow o fuel d hit s = Some ((nb, r), s') -> nonneg_at nb.
Proof.
  intros Hf E. assert (Hsr : forall s1 s2 nb', file s1 = file s -> seq_or_rand pow o fuel d s1 = Some (nb', s2) ->
    nonneg_at nb').
  { intros s1 s2 nb' Hs1 E1. unfold seq_or_rand in E1. stm_inv E1. destruct x as [n|].
    - injection E1 as <- <-. apply (seq_nonneg d s1 s0); [by rewrite Hs1|done].
    - stm_inv E1. injection E1 as <- <-. by destruct x. }
  unfold pick_block in E. destruct hit; [destruct (td_random o)|].
  - stm_inv E. assert (Hs0 : file s0 = file s).
    { unfold should_do_random in E0. destruct (perc_rand o d =? 100); [by injection E0 as _ <-|].
      stm_inv E0. apply get_inv in E1 as [-> ->]. stm_inv E0. apply lift_Some in E1 as [_ ->].
      destruct x0. stm_inv E0. injection E1 as _ <-. by injection E0 as _ <-. }
    destruct x.
    + stm_inv E. injection E as <- _ _. by destruct x.
    + stm_inv E. injection E1 as _ <-. stm_inv E. injection E as <- _ _. eapply Hsr; [|exact E1]. done.
  - stm_inv E. injection E as <- _ _. destruct x; [|done]. by apply (seq_nonneg d s s0).
  - stm_inv E. injection E0 as _ <-. destruct (rw_seq o).
    + stm_inv E. injection E as <- _ _. eapply Hsr; [|exact E0]. done.
    + injection E as <- _ _. simpl. case_match; auto with stm. lia.
Qed.

Lemma next_block_spec d hit (s s' : state M) r : 0 <= file_offset (file s) ->
  get_next_block pow o fuel d hit s = Some ((false, r), s') -> geo s' = geo s /\ 0 <= offset (iou s').
Proof.
  intros Hf E. unfold get_next_block in E. stm_inv E. destruct x as [nb r'].
  pose proof (pick_block_keeps d hit s _ _ E0) as Hk. apply (pick_block_nonneg d hit s s0 nb r' Hf) in E0.
  stm_inv E. apply get_inv in E1 as [-> ->].
  destruct nb as [|n|b]; [discriminate E|..]; (case_match; [discriminate E|]);
    stm_inv E; injection E1 as _ <-; injection E as _ <-; (split; [done|]); simpl; [done|auto with stm].
Qed.

Lemma next_offset_spec (s s' : state M) r : 0 <= file_offset (file s) ->
  __get_next_offset pow o fuel s = Some ((false, r), s') ->
  geo s' = geo s /\ offset (iou s') < real_file_size (file s') /\
  exists rel, 0 <= rel < io_size (file s') /\ offset (iou s') = u64 (rel + file_offset (file s')).
Proof.
  intros Hf E. unfold __get_next_offset in E. stm_inv E. apply get_inv in E0 as [-> ->]. stm_inv E.
  assert (Hs0 : file s0 = file s /\ iou s0 = iou s).
  { repeat case_match; try stm_inv E0; try injection E1 as _ <-; by injection E0 as _ <-. }
  destruct Hs0 as [Hs0 Hi0]. stm_inv E. destruct x0 as [ret r']. destruct ret; [discriminate E|].
  apply next_block_spec in E1 as [Hg Hn]; [|by rewrite Hs0].
  stm_inv E. apply get_inv in E1 as [-> ->].
  destruct (Z.leb_spec (io_size (file s1)) (offset (iou s1))); [discriminate E|].
  stm_inv E. injection E1 as _ <-. injection E as Hr _ <-. simpl in *.
  apply Z.leb_gt in Hr. split; [|split; [done|]].
  - unfold geo in *. simpl in *. by rewrite Hs0, Hi0 in Hg.
  - by exists (offset (iou s1)).
Qed.

(** Drawing a length changes only the generator. *)
Lemma buflen_loop_frame n d : forall (s s' : state M) len,
  buflen_loop o n d s = Some (len, s') -> file s' = file s /\ iou s' = iou s.
Proof.
  induction n as [|n IH]; intros s s' len E; cbn [buflen_loop] in E; [discriminate E|].
  stm_inv E. apply get_inv in E0 as [-> ->]. destruct (__rand _) as [st r].
  stm_inv E. injection E0 as _ <-. stm_inv E. apply lift_Some in E0 as [_ ->].
  stm_inv E. apply lift_Some in E0 as [_ ->]. destruct x1.
  - by injection E as _ <-.
  - by apply IH in E.
Qed.

Lemma buflen_frame r (s s' : state M) len :
  __get_next_buflen o fuel r s = Some (len, s') -> file s' = file s /\ iou s' = iou s.
Proof.
  intros E. unfold __get_next_buflen in E. stm_inv E. apply get_inv in E0 as [-> ->].
  case_match; [by injection E as _ <-|]. stm_inv E. apply lift_Some in E0 as [_ ->].
  case_match; [by injection E as _ <-|]. by apply buflen_loop_frame in E.
Qed.

Lemma mark_frame m (s s' : state M) x : 0 <= buflen (iou s) ->
  mark_random_map o m s = Some (x, s') ->
  geo s' = geo s /\ offset (iou s') = offset (iou s) /\ 0 <= buflen (iou s') <= buflen (iou s).
Proof.
  intros Hb E. unfold mark_random_map in E. stm_inv E. apply get_inv in E0 as [-> ->].
  case_match; [discriminate E|]. stm_inv E.
  assert (Hs0 : iou s0 = iou s /\ geo s0 = geo s).
  { destruct (busy_ok (iou s)); [by injection E0 as _ <-|]. stm_inv E0. apply lift_Some in E1 as [_ ->]. destruct x1.
    stm_inv E0. injection E1 as _ <-. by injection E0 as _ <-. }
  destruct Hs0 as [Hi Hg]. pose proof (wrap_bounds 32 (x0 * min_bs o (ddir (iou s)))).
  destruct (Z.ltb_spec (u32 (x0 * min_bs o (ddir (iou s)))) (buflen (iou s))).
  - injection E as _ <-. simpl. split; [|lia]. unfold geo in *. simpl. rewrite Hi in Hg. congruence.
  - injection E as _ <-. rewrite Hi. split; [done|lia].
Qed.
End bounds.

(** ** Lengths *)
Section lengths.
Context {M : Type} `{RandomMap M}.
Context (pow : double -> double -> double) (o : thread_options) (fuel : nat).

(** The 32-bit options hold 32-bit values. *)
Record lens_ok : Prop := {
  lo_min : forall d, uint 32 (min_bs o d);
  lo_max : forall d, uint 32 (max_bs o d);
  lo_split : forall d, Forall (fun bsp => uint 32 (bsp_bs bsp)) (bssplit o d)
}.
Context (Hlens : lens_ok).

Lemma bssplit_pick_uint (f : fio_file M) i l r mx : forall perc len n,
  Forall (fun bsp => uint 32 (bsp_bs bsp)) l -> uint 32 len ->
  bssplit_pick o f i l r mx perc len = Some n -> uint 32 n.
Proof.
  induction l as [|b l IH]; intros perc len n Hl Hn E; cbn [bssplit_pick] in E; [by injection E as <-|].
  apply Forall_cons_iff in Hl as [Hb Hl]. case_match; [by injection E as <-|].
  apply bind_Some in E as (fits & _ & E). case_match; [by injection E as <-|]. eapply IH; [exact Hl|exact Hb|exact E].
Qed.

Lemma draw_buflen_uint (f : fio_file M) i d r mx len : draw_buflen o f i d r mx = Some len -> uint 32 len.
Proof.
  intros E. unfold draw_buflen in E. apply bind_Some in E as (n & En & E).
  assert (Hn : uint 32 n).
  { destruct Hlens as [Hmin _ Hsp]. specialize (Hsp d). specialize (Hmin d). destruct (bssplit o d) as [|b l].
    - apply bind_Some in En as (k & _ & En). injection En as <-.
      pose proof (wrap_bounds 32 (1 + k)). unfold uint in *. lia.
    - eapply bssplit_pick_uint; [exact Hsp| |exact En]. unfold uint. lia. }
  case_match; [by injection E as <-|]. case_match.
  - injection E as <-. apply land_uint; [lia|done|]. unfold bnot. apply Z.lxor_nonneg.
    split; intros _; [by vm_compute|apply wrap_bounds; lia].
  - case_match; [discriminate E|]. injection E as <-. apply wrap_uint. lia.
Qed.

Lemma buflen_loop_uint n d : forall (s s' : state M) len,
  buflen_loop o n d s = Some (len, s') -> uint 32 len.
Proof.
  induction n as [|n IH]; intros s s' len E; cbn [buflen_loop] in E; [discriminate E|].
  stm_inv E. apply get_inv in E0 as [-> ->]. destruct (__rand _) as [st r].
  stm_inv E. injection E0 as _ <-. stm_inv E. apply lift_Some in E0 as [Hd ->].
  stm_inv E. apply lift_Some in E0 as [_ ->]. destruct x1.
  - injection E as <- _. by apply draw_buflen_uint in Hd.
  - by apply IH in E.
Qed.

Lemma buflen_uint r (s s' : state M) len : __get_next_buflen o fuel r s = Some (len, s') -> uint 32 len.
Proof.
  intros E. unfold __get_next_buflen in E. stm_inv E. apply get_inv in E0 as [-> ->].
  set (d := if bs_is_seq_rand o then _ else _) in E.
  destruct (_ =? _); [injection E as <- _; apply Hlens|]. stm_inv E. apply lift_Some in E0 as [_ ->].
  destruct x; [by apply buflen_loop_uint in E|]. injection E as <- _. unfold uint. lia.
Qed.

Lemma fill_zone_nonneg (s s' : state M) x : 0 <= file_offset (file s) ->
  __fill_io_u_zone o s = Some (x, s') -> 0 <= file_offset (file s').
Proof.
  intros Hf E. unfold __fill_io_u_zone in E. stm_inv E. apply get_inv in E0 as [-> ->].
  set (p := if _ && _ then _ else _) in E.
  assert (Hp : 0 <= file_offset (snd p)).
  { clear E. subst p. case_match; [|done]. simpl. case_match; apply u64_nonneg. }
  destruct p as [t f]. stm_inv E. injection E0 as _ <-.
  destruct (_ =? _); [discriminate E|]. injection E as _ <-. simpl.
  set (f' := if _ <=? _ then _ else _). assert (Hf' : file_offset f' = file_offset f) by (subst f'; by case_match).
  case_match; [|by rewrite Hf']. by rewrite reset_file_offset, Hf'.
Qed.

Lemma fill_io_u_spec (s s' : state M) :
  0 <= file_offset (file s) -> fill_io_u pow o fuel s = Some (false, s') ->
  real_file_size (file s') + 2 ^ 32 <= 2 ^ 64 ->
  0 <= offset (iou s') /\ 0 <= buflen (iou s') /\ offset (iou s') + buflen (iou s') <= real_file_size (file s') /\
  exists rel, 0 <= rel < io_size (file s') /\ offset (iou s') = u64 (rel + file_offset (file s')).
Proof.
  intros Hf E Hsz. unfold fill_io_u in E. stm_inv E.
  assert (Hf0 : 0 <= file_offset (file s0)).
  { destruct (zone_range o =? 0); [by injection E0 as _ <-|]. by apply fill_zone_nonneg in E0. }
  stm_inv E. destruct x0 as [ret r]. destruct ret; [discriminate E|].
  apply next_offset_spec in E1 as (Hg & Hlt & rel & Hrel & Hoff); [|done].
  stm_inv E. pose proof (buflen_uint _ _ _ _ E1) as Hl. apply buflen_frame in E1 as [Hfl Hi].
  stm_inv E. apply get_inv in E1 as [-> ->]. stm_inv E. injection E1 as _ <-.
  destruct (x0 =? 0); [discriminate E|].
  destruct (Z.ltb_spec (real_file_size (file s2)) (u64 (offset (iou s2) + x0))); [discriminate E|].
  stm_inv E. stm_inv E. apply get_inv in E2 as [-> ->]. stm_inv E. injection E2 as _ <-. injection E as <-.
  assert (Hm : geo s3 = geo s2 /\ offset (iou s3) = offset (iou s2) /\ 0 <= buflen (iou s3) <= x0).
  { case_match.
    - apply mark_frame in E1; [done|]. simpl. apply Hl.
    - injection E1 as _ <-. unfold uint in Hl. simpl. split_and!; [done..|lia|lia]. }
  destruct Hm as (Hg3 & Ho3 & Hb3). cbn [file iou] in *.
  assert (Hgeo : fgeo (file s3) = fgeo (file s2)) by (unfold geo in Hg3; congruence).
  unfold fgeo in Hgeo. injection Hgeo as G1 G2 G3 _. rewrite G3 in Hsz. rewrite G1, G2, G3, Ho3.
  rewrite <- Hfl, <- Hi in *. pose proof (u64_nonneg (rel + file_offset (file s2))).
  assert (Hnw : u64 (offset (iou s2) + x0) = offset (iou s2) + x0).
  { apply Z.mod_small. unfold uint in Hl. lia. }
  split_and!; [lia|lia|lia|]. by exists rel.
Qed.
End lengths.

(** C6. A filled unit stays inside its file.  For every workload type,
    distribution, zone and block-size option, if the file is smaller than 2^64 -
    2^32 bytes, a unit that [fill_io_u] fills ends at or before the end of the
    file.  It starts at the file's offset plus a distance below the I/O size as
    long as the file's offset plus its I/O size has not passed 2^64, which zones
    that move past the end of the file can make happen ([zone_wrap_escapes]). *)
Theorem fill_io_u_in_bounds {M} `{RandomMap M} pow o fuel (s s' : state M) :
  lens_ok o -> 0 <= file_offset (file s) ->
  fill_io_u pow o fuel s = Some (false, s') ->
  let f := file s' in let i := iou s' in
  real_file_size f + 2 ^ 32 <= 2 ^ 64 ->
  0 <= offset i /\ 0 <= buflen i /\ offset i + buflen i <= real_file_size f /\
  (file_offset f + io_size f <= 2 ^ 64 -> 0 <= file_offset f ->
   file_offset f <= offset i < file_offset f + io_size f).
Proof.
  intros Ho Hf E f i Hsz.
  destruct (fill_io_u_spec pow o fuel Ho s s' Hf E Hsz) as (H1 & H2 & H3 & rel & Hrel & Hoff).
  split_and!; [done..|]. intros Hw Hn. subst f i. rewrite Hoff. unfold wrap. rewrite Z.mod_small by lia. lia.
Qed.

Section draw.
Context {M : Type} `{RandomMap M}.
Context (o : thread_options) (fuel : nat) (d : fio_ddir).
Context (Hsplit : bssplit o d = []).
Context (Hbs : 0 < min_bs o d <= max_bs o d) (Hmax : max_bs o d < 2 ^ 32).

Lemma power_of_2_pow x : 0 < x -> is_power_of_2 x = true -> x = 2 ^ Z.log2 x.
Proof.
  intros Hx E. unfold is_power_of_2 in E. apply andb_prop in E as [_ E]. apply Z.eqb_eq in E.
  pose proof (Z.log2_spec x Hx) as Hl. set (j := Z.log2 x) in *.
  assert (Hj : 0 <= j) by apply Z.log2_nonneg.
  destruct (Z.eq_dec x (2 ^ j)) as [|Hne]; [done|exfalso].
  assert (Hl' : Z.log2 (x - 1) = j) by (apply Z.log2_unique; [done|lia]).
  assert (Hb : Z.testbit (Z.land x (x - 1)) j = true).
  { rewrite Z.land_spec. rewrite <- Hl' at 2. rewrite !Z.bit_log2; [done|lia|lia]. }
  rewrite E, Z.bits_0 in Hb. done.
Qed.

Lemma align_down len m : uint 32 len -> 0 < m < 2 ^ 32 ->
  is_power_of_2 m = true -> Z.land len (bnot 32 (u32 (m - 1))) = len - len mod m.
Proof.
  intros Hl Hm Hp. apply power_of_2_pow in Hp; [|lia]. set (j := Z.log2 m) in *.
  assert (Hj : 0 <= j) by apply Z.log2_nonneg.
  replace (u32 (m - 1)) with (Z.ones j).
  2:{ rewrite wrap_small by (unfold uint; lia). rewrite Z.ones_equiv. lia. }
  assert (Hj32 : j < 32) by (apply (Z.pow_lt_mono_r_iff 2); lia).
  transitivity (Z.ldiff len (Z.ones j)).
  - apply Z.bits_inj'. intros k Hk. unfold bnot.
    rewrite Z.land_spec, Z.ldiff_spec, Z.lxor_spec.
    destruct (Z.ltb_spec k 32).
    + rewrite (Z.testbit_ones_nonneg 32) by lia.
      destruct (Z.ltb_spec k 32); [|lia]. by destruct (Z.testbit (Z.ones j) k).
    + by rewrite (uint_testbit_high 32 len k) by done.
  - rewrite Z.ldiff_ones_r by lia. rewrite Z.shiftl_mul_pow2, Z.shiftr_div_pow2 by lia.
    rewrite Hp. pose proof (Z.div_mod len (2 ^ j)). lia.
Qed.

Lemma draw_buflen_spec (f : fio_file M) i r : 0 <= r < 2 ^ 32 ->
  exists len, draw_buflen o f i d r (2 ^ 32 - 1) = Some len /\ min_bs o d <= len <= max_bs o d /\
    (bs_unaligned o = false -> (min_bs o d | len)).
Proof.
  intros Hr. unfold draw_buflen. rewrite Hsplit.
  destruct (to_u32_scale (max_bs o d) r) as (k & -> & Hk); [lia..|]. cbn [mbind option_bind].
  rewrite (wrap_small 32 (1 + k)) by (unfold uint; lia).
  set (n := Z.max (1 + k) (min_bs o d)). assert (Hn : min_bs o d <= n <= max_bs o d) by lia.
  pose proof (Z.mod_pos_bound n (min_bs o d)). pose proof (Z.div_mod n (min_bs o d)).
  assert (1 <= n / min_bs o d) by (apply Z.div_le_lower_bound; lia).
  assert (Ha : min_bs o d <= n - n mod min_bs o d <= max_bs o d /\ (min_bs o d | n - n mod min_bs o d)).
  { split; [nia|]. exists (n / min_bs o d). lia. }
  destruct (bs_unaligned o); [by exists n|].
  destruct (is_power_of_2 (min_bs o d)) eqn:Hp.
  - rewrite align_down by (done || unfold uint; lia). eexists. split; [done|]. tauto.
  - destruct (Z.eqb_spec (min_bs o d) 0); [lia|]. rewrite wrap_small by (unfold uint; lia).
    eexists. split; [done|]. tauto.
Qed.

Lemma buflen_loop_spec n : forall (s s' : state M) len, live (bsrange_state (td s) d) ->
  rand_max (bsrange_state (td s) d) = FRAND32_MAX ->
  buflen_loop o n d s = Some (len, s') ->
  min_bs o d <= len <= max_bs o d /\ (bs_unaligned o = false -> (min_bs o d | len)) /\
  io_u_fits o (file s) (iou s) len = Some true.
Proof.
  induction n as [|n IH]; intros s s' len Hl Hm E; cbn [buflen_loop] in E; [discriminate E|].
  stm_inv E. apply get_inv in E0 as [-> ->].
  destruct (rand_draw _ Hl) as (st & r & Er & Hl' & Hm' & Hr). rewrite Er in E.
  stm_inv E. injection E0 as _ <-. stm_inv E. apply lift_Some in E0 as [Hd ->]. cbn [td] in Hd.
  rewrite Hm in Hd, Hr, Hm'. change FRAND32_MAX with (2 ^ 32 - 1) in Hd, Hr.
  destruct (draw_buflen_spec (file s) (iou s) r) as (len' & Hd' & Hb); [lia|].
  rewrite Hd' in Hd. injection Hd as <-.
  stm_inv E. apply lift_Some in E0 as [Hfit ->]. destruct x0.
  - injection E as <- _. tauto.
  - apply IH in E; [done|..]; cbn [td set_bsrange_state bsrange_state]; unfold upd; by rewrite decide_True.
Qed.
End draw.

(** The direction whose sizes apply. *)
Definition bs_ddir (o : thread_options) (d : fio_ddir) (is_random : bool) : fio_ddir :=
  if bs_is_seq_rand o then (if is_random then DDIR_WRITE else DDIR_READ) else d.

(** Block sizes from a range: when the smallest size does not fit the result
    is 0; otherwise a returned length lies between the two sizes, is a multiple
    of the smaller unless unaligned sizes are allowed, and fits (a fixed size
    is returned unchecked); and when the largest size fits, the first draw
    already returns. *)
Theorem get_next_buflen_correct {M} `{RandomMap M} o fuel r (s : state M) :
  let d := bs_ddir o (ddir (iou s)) r in
  bssplit o d = [] -> 0 < min_bs o d <= max_bs o d -> max_bs o d < 2 ^ 32 ->
  live (bsrange_state (td s) d) -> rand_max (bsrange_state (td s) d) = FRAND32_MAX ->
  (forall len s', __get_next_buflen o fuel r s = Some (len, s') ->
    (len = 0 /\ io_u_fits o (file s) (iou s) (min_bs o d) = Some false) \/
    (min_bs o d <= len <= max_bs o d /\ (bs_unaligned o = false -> (min_bs o d | len)) /\
     (min_bs o d = max_bs o d \/ io_u_fits o (file s) (iou s) len = Some true))) /\
  ((0 < fuel)%nat -> (forall len, 0 <= len <= max_bs o d -> io_u_fits o (file s) (iou s) len = Some true) ->
   is_Some (__get_next_buflen o fuel r s)).
Proof.
  intros d Hsp Hbs Hmx Hl Hm. split.
  - intros len s' E. unfold __get_next_buflen in E. stm_inv E. apply get_inv in E0 as [-> ->].
    fold (bs_ddir o (ddir (iou s)) r) in E. fold d in E.
    destruct (Z.eqb_spec (min_bs o d) (max_bs o d)) as [Eb|Eb].
    { injection E as <- _. right. split_and!; [lia|lia|intros _; apply Z.divide_refl|by left]. }
    stm_inv E. apply lift_Some in E0 as [Hfit ->]. destruct x; cbn [negb] in E.
    + right. apply buflen_loop_spec in E as (H1 & H2 & H3); [|done..]. split_and!; [lia|lia|done|by right].
    + injection E as <- _. left. done.
  - intros Hf Hfits. unfold __get_next_buflen. rewrite (bind_run get _ s s s) by done.
    fold (bs_ddir o (ddir (iou s)) r). fold d.
    destruct (_ =? _); [by eexists|]. rewrite (bind_run _ _ s true s) by (apply lift_run, Hfits; lia).
    cbn [negb]. destruct fuel as [|fuel]; [lia|]. cbn [buflen_loop].
    rewrite (bind_run get _ s s s) by done.
    destruct (rand_draw _ Hl) as (st & x & -> & Hl' & Hm' & Hr).
    rewrite Hm in Hr |- *. change FRAND32_MAX with (2 ^ 32 - 1) in *.
    destruct (draw_buflen_spec o d Hsp Hbs Hmx (file s) (iou s) x) as (len & Hd & Hb & _); [lia|].
    rewrite (bind_run _ _ _ tt (St (set_bsrange_state d st (td s)) (file s) (iou s))) by done.
    erewrite bind_run by (by apply lift_run). erewrite bind_run by (apply lift_run, Hfits; lia).
    by eexists.
Qed.

(** ** Random workloads over the random map *)
Section random.
Context {M : Type} `{RandomMapLaws M}.
Context (pow : double -> double -> double) (o : thread_options) (fuel : nat) (d : fio_ddir) (bs : Z).

(** A plain random workload: one direction, one block size, the 32-bit
    generator, a random map, no zones, one pass. *)
Record random_job : Prop := {
  rj_random : td_random o = true;
  rj_seq_nr : o_ddir_seq_nr o = 1;
  rj_perc : perc_rand o d = 100;
  rj_dist : random_distribution o = FIO_RAND_DIST_RANDOM;
  rj_gen : random_generator o = FIO_RAND_GEN_TAUSWORTHE;
  rj_map : norandommap o = false;
  rj_bs : 0 < bs < 2 ^ 32;
  rj_min : min_bs o d = bs; rj_max : max_bs o d = bs; rj_ba : ba o d = bs;
  rj_seqrand : bs_is_seq_rand o = false;
  rj_zone : zone_range o = 0;
  rj_time : time_based o = false; rj_service : fservice_nonuniform o = false
}.
Context (Hj : random_job).

(** The state after the blocks [l] were issued: the map marks exactly them. *)
Record run_inv (fo n rfs : Z) (s : state M) (m : M) (l : list Z) : Prop := {
  ri_live : live (random_state (td s)) /\ rand_max (random_state (td s)) = FRAND32_MAX;
  ri_seq : ddir_seq_nr (td s) = 1;
  ri_fo : file_offset (file s) = fo /\ 0 <= fo;
  ri_n : n = io_size (file s) / bs /\ 0 < n < 2 ^ 53 /\ 0 <= io_size (file s);
  ri_rfs : real_file_size (file s) = rfs /\ fo + io_size (file s) <= rfs < 2 ^ 63;
  ri_map : io_axmap (file s) = Some m;
  ri_ok : rm_ok m; ri_size : rm_size m = n;
  ri_marks : marks m l;
  ri_nodup : NoDup l; ri_in : forall x, x ∈ l -> 0 <= x < n
}.

Lemma last_block_random fo n rfs s m l : run_inv fo n rfs s m l -> last_block o (file s) d = Some n.
Proof.
  intros []. destruct_and!. unfold last_block. rewrite (rj_zone Hj), (rj_min Hj), (rj_ba Hj).
  pose proof (rj_bs Hj). change (0 =? 0) with true. cbv iota. rewrite Z.ltb_irrefl.
  destruct (Z.eqb_spec bs 0); [lia|]. rewrite Z.min_l by lia. by subst n.
Qed.

(** The raw draw: any block of the file. *)
Lemma draw_block_random fo n rfs s m l : run_inv fo n rfs s m l ->
  exists st b, draw_block o fuel n s = Some (Some b, St (set_random_state st (td s)) (file s) (iou s)) /\
    0 <= b < n /\ run_inv fo n rfs (St (set_random_state st (td s)) (file s) (iou s)) m l.
Proof.
  intros Hi. pose proof Hi as [[Hlv Hmx] Hsq Hfo Hn Hrf Hmap Hok Hsize Hmarks Hnd Hin].
  destruct (rand_draw (random_state (td s))) as (st & r & Er & Hl' & Hm' & Hr); [done|].
  rewrite Hmx in Hr, Hm'. change FRAND32_MAX with (2 ^ 32 - 1) in Hr.
  destruct (to_u64_scale n r) as (b & Hb & Hbn); [lia..|]. exists st, b.
  split; [|split; [done|by split]].
  unfold draw_block. rewrite (bind_run get _ s s s) by done. rewrite (rj_gen Hj), Er.
  erewrite bind_run by done. erewrite bind_run; [done|]. apply lift_run. rewrite Hm'. exact Hb.
Qed.

Lemma run_inv_map fo n rfs s m m' l : run_inv fo n rfs s m l ->
  rm_ok m' -> rm_size m' = rm_size m -> (forall x, rm_marked m' x = rm_marked m x) ->
  run_inv fo n rfs (St (td s) (set_axmap m' (file s)) (iou s)) m' l.
Proof.
  intros [Hlv Hsq Hfo Hn Hrf Hmap Hok Hsize Hmarks Hnd Hin] Hok' Hs' Hm'.
  split; cbn; try done; [congruence|]. intros x Hx. rewrite Hm'. apply Hmarks. by rewrite <- Hs'.
Qed.

(** Drawing a block: a free one, or none when every block was issued. *)
Lemma get_off_random fo n rfs s m l : run_inv fo n rfs s m l ->
  exists s' m' ob, get_off_from_method pow o fuel d s = Some (ob, s') /\
    run_inv fo n rfs s' m' l /\ iou s' = iou s /\
    match ob with
    | Some b => 0 <= b < n /\ b ∉ l
    | None => forall x, 0 <= x < n -> x ∈ l
    end.
Proof.
  intros Hi. pose proof Hi as [_ _ _ Hn _ _ _ _ _ _ _]. unfold get_off_from_method. rewrite (rj_dist Hj).
  rewrite (bind_run get _ s s s) by done.
  rewrite (bind_run _ _ s n s) by (by apply lift_run, (last_block_random fo n rfs s m l)).
  destruct (Z.eqb_spec n 0); [lia|]. unfold __get_next_rand_offset.
  destruct (draw_block_random _ _ _ _ _ _ Hi) as (st & b & Ed & Hb & Hi1).
  set (s1 := St _ _ _) in Ed, Hi1. rewrite (bind_run _ _ s _ s1 Ed).
  rewrite (bind_run get _ s1 s1 s1) by done. unfold file_randommap. rewrite (rj_map Hj).
  pose proof Hi1 as [_ _ _ _ _ Hmap Hok Hsize Hmarks _ _]. rewrite Hmap.
  assert (Hfree : random_map_free m b = Some (negb (bool_decide (b ∈ l)))).
  { unfold random_map_free. rewrite rm_isset_law by (done || lia). simpl. rewrite Hmarks by lia. done. }
  rewrite (bind_run (lift _) _ s1 _ s1 (lift_run _ _ _ Hfree)).
  destruct (bool_decide_reflect (b ∈ l)) as [Hin|Hin]; cbn [negb];
    [|exists s1, m, (Some b); done].
  destruct (rm_next_free_law m b) as (m' & r & Enf & Hok' & Hs' & Hm' & Hc); [done|lia|].
  rewrite (bind_run (lift _) _ s1 _ s1 (lift_run _ _ _ Enf)). erewrite bind_run by done.
  eexists _, m', _. split; [done|]. split; [by apply (run_inv_map fo n rfs s1 m m' l)|]. split; [done|].
  destruct Hc as [[-> Hfull]|[Hr Hfr]].
  - rewrite Z.eqb_refl. intros x Hx. rewrite Hsize in Hfull. specialize (Hfull x Hx).
    rewrite Hmarks in Hfull by lia. by apply bool_decide_eq_true in Hfull.
  - destruct (Z.eqb_spec r (-1ULL)) as [->|_]; [change (-1ULL) with (2 ^ 64 - 1) in Hr; lia|].
    split; [lia|]. rewrite Hmarks in Hfr by lia. by apply bool_decide_eq_false in Hfr.
Qed.

(** The offset of the next unit. *)
Lemma next_offset_random fo n rfs s m l : run_inv fo n rfs s m l -> ddir (iou s) = d ->
  exists s' m' ret r, __get_next_offset pow o fuel s = Some ((ret, r), s') /\ run_inv fo n rfs s' m' l /\
    (ret = true -> forall x, 0 <= x < n -> x ∈ l) /\
    (ret = false -> exists b, 0 <= b < n /\ b ∉ l /\ iou s' = set_offset (fo + b * bs) (iou s)).
Proof.
  intros Hi Hd. pose proof Hi as [_ Hsq Hfo Hn Hrf _ _ _ _ _ _]. unfold __get_next_offset.
  rewrite (bind_run get _ s s s) by done. rewrite Hsq, (rj_seq_nr Hj), Hd.
  change (1 =? 0) with false. change (u32 (1 - 1) =? 0) with true. cbv iota.
  set (s1 := St (set_ddir_seq_nr 1 (td s)) (file s) (iou s)).
  rewrite (bind_run _ _ s true s1) by done.
  assert (Hi1 : run_inv fo n rfs s1 m l) by (by destruct Hi; split).
  destruct (get_off_random _ _ _ _ _ _ Hi1) as (s2 & m2 & ob & Eo & Hi2 & Hiou & Hob).
  assert (Eb : get_next_rand_block pow o fuel d s1 = Some (ob, s2)).
  { unfold get_next_rand_block, get_next_rand_offset, should_sort_io.
    rewrite (rj_gen Hj), andb_false_r. cbn [negb]. rewrite (bind_run _ _ _ _ _ Eo).
    destruct ob; [done|]. by rewrite (rj_time Hj), (rj_service Hj). }
  assert (Ep : pick_block pow o fuel d true s1 = Some ((rand_block ob, true), s2)).
  { unfold pick_block. rewrite (rj_random Hj). unfold should_do_random. rewrite (rj_perc Hj).
    change (100 =? 100) with true. rewrite (bind_run _ _ s1 true s1) by done. cbv iota.
    by rewrite (bind_run _ _ _ _ _ Eb). }
  pose proof Hi2 as [_ _ Hfo2 Hn2 Hrf2 _ _ _ _ _ _]. pose proof (rj_bs Hj).
  destruct ob as [b|]; cbn [rand_block] in *.
  - destruct Hob as [Hb Hbl].
    assert (Hbb : (b + 1) * bs <= io_size (file s2)).
    { destruct Hn2 as [Hn2 _]. pose proof (Z.mul_div_le (io_size (file s2)) bs). nia. }
    set (s3 := St (td s2) (file s2) (set_offset (b * bs) (iou s2))).
    rewrite (bind_run _ _ s1 (false, true) s3).
    2:{ unfold get_next_block. rewrite (bind_run _ _ _ _ _ Ep). rewrite (bind_run get _ s2 s2 s2) by done.
        destruct (Z.eqb_spec b (-1ULL)) as [->|_]; [change (-1ULL) with (2 ^ 64 - 1) in Hb; lia|].
        rewrite (rj_ba Hj), wrap_small by (unfold uint; nia). done. }
    cbv iota. rewrite (bind_run get _ s3 s3 s3) by done. subst s3. cbn [file iou offset set_offset].
    destruct (Z.leb_spec (io_size (file s2)) (b * bs)); [nia|].
    destruct Hfo2 as [Hfo2 Hfo0]. rewrite Hfo2, (wrap_small 64 (b * bs + fo)) by (unfold uint; nia).
    erewrite bind_run by done. destruct (Z.leb_spec (real_file_size (file s2)) (b * bs + fo)); [nia|].
    eexists _, m2, _, _. split; [done|]. split; [by destruct Hi2; split|]. split; [done|].
    intros _. exists b. split_and!; [lia|lia|done|]. cbn. rewrite Hiou. unfold set_offset. cbn. f_equal. lia.
  - exists s2, m2, true, true. split; [|done].
    rewrite (bind_run _ _ s1 (true, true) s2); [done|].
    unfold get_next_block. rewrite (bind_run _ _ _ _ _ Ep). by rewrite (bind_run get _ s2 s2 s2).
Qed.

(** Marking the block of a unit that fills it exactly. *)
Lemma mark_random fo n rfs s m l b : run_inv fo n rfs s m l ->
  iou s = IoU (fo + b * bs) bs d false -> 0 <= b < n -> b ∉ l ->
  exists m', mark_random_map o m s = Some (tt, St (td s) (set_axmap m' (file s)) (iou s)) /\
    run_inv fo n rfs (St (td s) (set_axmap m' (file s)) (iou s)) m' (l ++ [b]).
Proof.
  intros Hi Hiou Hb Hbl. pose proof Hi as [Hlv Hsq Hfo Hn Hrf Hmap Hok Hsize Hmarks Hnd Hin].
  pose proof (rj_bs Hj). destruct (rm_size_pos m Hok).
  destruct (rm_set_free_law m b 1) as (m' & Es & Hok' & Hs' & Hm'); [done|lia|lia|lia| |].
  { intros x Hx. replace x with b by lia. rewrite Hmarks by lia. by apply bool_decide_eq_false. }
  exists m'. split.
  - unfold mark_random_map. rewrite (bind_run get _ s s s) by done. rewrite Hiou. cbn [ddir buflen offset busy_ok].
    rewrite (rj_min Hj). destruct (Z.eqb_spec bs 0); [lia|]. destruct Hfo as [-> Hfo0].
    assert (Hbs : b * bs < 2 ^ 63).
    { destruct Hn as (-> & _). pose proof (Z.mul_div_le (io_size (file s)) bs). nia. }
    replace (fo + b * bs - fo) with (b * bs) by lia.
    rewrite (wrap_small 64 (b * bs)) by (unfold uint; nia). rewrite Z.div_mul by lia.
    rewrite (wrap_small 64 (bs + bs - 1)) by (unfold uint; lia).
    replace ((bs + bs - 1) / bs) with 1 by (apply (Z.div_unique _ _ _ (bs - 1)); lia).
    rewrite (bind_run _ _ s 1 (St (td s) (set_axmap m' (file s)) (iou s))).
    2:{ change (u32 1) with 1. erewrite bind_run by (by apply lift_run). reflexivity. }
    change (u32 1) with 1. rewrite Z.mul_1_l, wrap_small by (unfold uint; lia). rewrite Z.ltb_irrefl.
    by rewrite Hiou.
  - split; cbn; try done.
    + congruence.
    + apply (marks_step m m' l b); [done|done|lia|done].
    + apply list.NoDup_app. split_and!; [done| |apply NoDup_singleton].
      intros x Hx ->%list_elem_of_singleton. done.
    + intros x [Hx|Hx%list_elem_of_singleton]%elem_of_app; [by apply Hin|lia].
Qed.

Lemma run_inv_frame fo n rfs s m l t i p q : run_inv fo n rfs s m l ->
  run_inv fo n rfs (St (set_zone_bytes t (td s)) (set_positions p q (file s)) i) m l.
Proof. intros []. by split. Qed.

Lemma run_inv_iou fo n rfs s m l i : run_inv fo n rfs s m l -> run_inv fo n rfs (St (td s) (file s) i) m l.
Proof. intros []. by split. Qed.

(** One unit: a fresh block, or none once every block was issued. *)
Lemma next_io_random fo n rfs s m l : run_inv fo n rfs s m l ->
  exists s' m', (next_io pow o fuel d s = Some (None, s') /\ forall x, 0 <= x < n -> x ∈ l) \/
    (exists b, next_io pow o fuel d s = Some (Some (fo + b * bs, bs), s') /\ 0 <= b < n /\ b ∉ l /\
       run_inv fo n rfs s' m' (l ++ [b])).
Proof.
  intros Hi. pose proof (rj_bs Hj). unfold next_io, fill_io_u.
  set (s0 := St (td s) (file s) (IoU 0 0 d false)). rewrite (bind_run _ _ s tt s0) by done.
  destruct (next_offset_random fo n rfs s0 m l) as (s1 & m1 & ret & r & Eo & Hi1 & Ht & Hf);
    [by apply run_inv_iou|done|].
  destruct ret.
  { exists s1, m1. left. split; [|by apply Ht].
    erewrite bind_run; [|rewrite (rj_zone Hj); rewrite (bind_run _ _ s0 tt s0) by done;
      rewrite (bind_run _ _ s0 _ s1 Eo); done]. done. }
  destruct (Hf eq_refl) as (b & Hb & Hbl & Hiou'). clear Ht Hf.
  assert (Hiou : iou s1 = IoU (fo + b * bs) 0 d false) by exact Hiou'. clear Hiou'.
  set (i2 := IoU (fo + b * bs) bs d false).
  set (s2 := St (td s1) (file s1) i2).
  destruct (mark_random fo n rfs s2 m1 l b) as (m3 & Em & Hi3); [by apply run_inv_iou|done|done|done|].
  set (s3 := St _ _ _) in Em, Hi3.
  set (s4 := St (set_zone_bytes (u64 (zone_bytes (td s3) + bs)) (td s3)) (file s3) i2).
  pose proof Hi1 as [_ _ Hfo1 Hn1 Hrf1 Hmap1 _ _ _ _ _].
  assert (Hbb : (b + 1) * bs <= io_size (file s1)).
  { destruct Hn1 as (Hn1 & _). pose proof (Z.mul_div_le (io_size (file s1)) bs). nia. }
  assert (Efill : fill_io_u pow o fuel s0 = Some (false, s4)).
  { unfold fill_io_u. rewrite (rj_zone Hj). rewrite (bind_run _ _ s0 tt s0) by done.
    rewrite (bind_run _ _ s0 _ s1 Eo).
    rewrite (bind_run _ _ s1 bs s1).
    2:{ unfold __get_next_buflen. rewrite (bind_run get _ s1 s1 s1) by done. rewrite (rj_seqrand Hj), Hiou.
        cbn [ddir]. cbv beta iota zeta. by rewrite (rj_min Hj), (rj_max Hj), Z.eqb_refl. }
    rewrite (bind_run get _ s1 s1 s1) by done. rewrite (bind_run _ _ s1 tt s2) by (by rewrite Hiou).
    destruct (Z.eqb_spec bs 0); [lia|]. rewrite Hiou. cbn [offset].
    rewrite wrap_small by (unfold uint; nia).
    destruct (Z.ltb_spec (real_file_size (file s1)) (fo + b * bs + bs)); [nia|].
    unfold file_randommap. rewrite (rj_random Hj), (rj_map Hj), Hmap1.
    rewrite (bind_run _ _ s2 tt s3 Em). by rewrite (bind_run get _ s3 s3 s3). }
  unfold fill_io_u in Efill. rewrite (bind_run _ _ s0 false s4 Efill).
  eexists _, m3. right. exists b. split.
  - unfold note_position. erewrite bind_run.
    2:{ rewrite (bind_run get _ s4 s4 s4) by done. change (buflen (iou s4)) with bs. cbv zeta.
        destruct (Z.eqb_spec bs 0); [lia|]. reflexivity. }
    done.
  - split_and!; [lia|lia|done|]. apply (run_inv_frame fo n rfs s3). exact Hi3.
Qed.

Lemma run_random k : forall fo n rfs s m l, run_inv fo n rfs s m l ->
  exists s' bl, run pow o fuel k d s = Some (map (fun b => (fo + b * bs, bs)) bl, s') /\
    NoDup (l ++ bl) /\ (forall x, x ∈ l ++ bl -> 0 <= x < n) /\
    (length bl = k \/ forall x, 0 <= x < n -> x ∈ l ++ bl).
Proof.
  induction k as [|k IH]; intros fo n rfs s m l Hi; cbn [run].
  { exists s, []. rewrite app_nil_r. destruct Hi. split_and!; [done..|by left]. }
  destruct (next_io_random _ _ _ _ _ _ Hi) as (s' & m' & [[E Hall]|(b & E & Hb & Hbl & Hi')]);
    rewrite (bind_run _ _ _ _ _ E).
  - exists s', []. rewrite app_nil_r. destruct Hi. split_and!; [done..|by right].
  - destruct (IH fo n rfs s' m' (l ++ [b]) Hi') as (s'' & bl & E2 & Hnd & Hin & Hc).
    exists s'', (b :: bl). rewrite <- app_assoc in Hnd, Hin, Hc. split_and!; [|done|done|].
    + by rewrite (bind_run _ _ _ _ _ E2).
    + destruct Hc as [<-|Hc]; [by left|by right].
Qed.
End random.

Lemma random_covers {M} `{RandomMapLaws M} pow o fuel d bs (s : state M) m fo n rfs k :
  random_job o d bs -> run_inv bs fo n rfs s m [] -> (Z.to_nat n <= k)%nat ->
  exists s' bl, run pow o fuel k d s = Some (map (fun b => (fo + b * bs, bs)) bl, s') /\ bl ≡ₚ blocks n.
Proof.
  intros Hj Hi Hk. destruct (run_random pow o fuel d bs Hj k _ _ _ _ _ _ Hi) as (s' & bl & E & Hnd & Hin & Hc).
  cbn [app] in *. exists s', bl. split; [done|].
  destruct Hc as [Hl|Hall].
  - apply all_blocks_perm; [done..|lia].
  - apply NoDup_Permutation; [done|apply NoDup_blocks|]. intros x. rewrite elem_of_blocks.
    split; [apply Hin|apply Hall].
Qed.

(** Random I/O over any random map covers the file: with [n] whole blocks
    in the I/O range, running the generator [n] times or more issues every
    block exactly once, each with the full block size and aligned to it, and
    then stops by itself. *)
Theorem random_run_covers {M} `{RandomMapLaws M} pow o fuel d bs (s : state M) m n k :
  random_job o d bs ->
  run_inv bs (file_offset (file s)) n (real_file_size (file s)) s m [] ->
  (Z.to_nat n <= k)%nat ->
  exists s' bl,
    run pow o fuel k d s = Some (map (fun b => (file_offset (file s) + b * bs, bs)) bl, s') /\
    bl ≡ₚ blocks n.
Proof. apply random_covers. Qed.

(** ** Setting up the random map: [filesetup.c] *)
Definition check_rand_gen_limits (gen_is_set : bool) (gen : rand_gen) (blocks : Z) : rand_gen :=
  if blocks <=? FRAND32_MAX then gen else
  match gen with
  | FIO_RAND_GEN_TAUSWORTHE => if gen_is_set then gen else FIO_RAND_GEN_TAUSWORTHE64
  | _ => gen
  end.

(** The body of [init_random_map]'s loop for one file: the return value, the
    generator it settles on, and the file. *)
Definition init_file_map (malloc : Z -> option (list Z)) (o : thread_options)
    (gen_is_set softrandommap : bool) (rw_min_bs : Z) (f : fio_file axmap)
    : option (bool * rand_gen * fio_file axmap) :=
  let fsize := Z.min (real_file_size f) (io_size f) in
  if rw_min_bs =? 0 then None else
  let blocks := fsize / rw_min_bs in
  let gen := check_rand_gen_limits gen_is_set (random_generator o) blocks in
  match gen with
  | FIO_RAND_GEN_LFSR =>
      let '(fl, ret) := lfsr_init lfsr_blank blocks (rand_seed_block_off o) 0 in
      if ret =? 0 then Some (true, gen, set_lfsr fl f) else Some (softrandommap, gen, f)
  | _ =>
      if norandommap o then Some (true, gen, f) else
      match axmap_new malloc blocks with
      | Some m => Some (true, gen, set_axmap m f)
      | None => Some (softrandommap, gen, f)
      end
  end.


(** ** Sequential workloads *)
Section sequential.
Context {M : Type} `{RandomMap M}.
Context (pow : double -> double -> double) (o : thread_options) (fuel : nat) (d : fio_ddir) (bs : Z).

(** A plain sequential workload: one direction, one block size, no holes, no
    zones, one pass. *)
Record seq_job : Prop := {
  sj_random : td_random o = false;
  sj_seq_nr : o_ddir_seq_nr o = 1;
  sj_add : ddir_seq_add o = 0;
  sj_bs : 0 < bs < 2 ^ 32;
  sj_min : min_bs o d = bs; sj_max : max_bs o d = bs;
  sj_seqrand : bs_is_seq_rand o = false;
  sj_zone : zone_range o = 0;
  sj_time : time_based o = false;
  sj_append : file_append o = false; sj_percent : start_offset_percent o = 0
}.
Context (Hj : seq_job).

(** The state after [j] units of the [n] in the I/O range. *)
Record seq_inv (fo n rfs j : Z) (s : state M) : Prop := {
  si_seq : ddir_seq_nr (td s) = 1;
  si_fo : file_offset (file s) = fo /\ 0 <= fo;
  si_n : io_size (file s) = n * bs /\ 0 <= n;
  si_rfs : real_file_size (file s) = rfs /\ fo + n * bs <= rfs < 2 ^ 63;
  si_pos : last_pos (file s) d = fo + j * bs /\ 0 <= j <= n
}.

Lemma seq_offset_step fo n rfs j s : seq_inv fo n rfs j s ->
  exists r, get_next_seq_offset o d s = Some (r, s) /\
    ((r = Some (j * bs)) \/ (r = None /\ j = n)).
Proof.
  intros [Hsq [Hfo Hfo0] [Hio Hn] [Hrf Hrf2] [Hp Hjn]]. unfold get_next_seq_offset.
  pose proof (sj_bs Hj). rewrite (bind_run get _ s s s) by done.
  assert (Hs : exists st, get_start_offset o (file s) = Some st).
  { unfold get_start_offset. rewrite (sj_append Hj), (sj_percent Hj). by eexists. }
  destruct Hs as [st Hst]. rewrite (bind_run _ _ s st s) by (by apply lift_run).
  rewrite (sj_time Hj), andb_false_r, (sj_add Hj).
  assert (Es : put_file (file s) s = Some (tt, s)) by (by destruct s).
  rewrite (bind_run _ _ _ _ _ Es). rewrite Hp, Hrf, Hfo.
  destruct (Z.leb_spec rfs (fo + j * bs)) as [L|L].
  { exists None. split; [done|]. right. split; [done|]. nia. }
  cbv zeta. change (0 <? 0) with false. change (0 =? 0) with true. cbn [negb]. rewrite !andb_false_r.
  cbv iota. rewrite (bind_run _ _ _ _ _ Es).
  rewrite Hp, Hfo. replace (fo + j * bs - fo) with (j * bs) by lia.
  rewrite (wrap_small 64 (j * bs)) by (unfold uint; nia).
  eexists. split; [done|by left].
Qed.

Lemma seq_next_offset fo n rfs j s : seq_inv fo n rfs j s -> ddir (iou s) = d ->
  exists s' ret r, __get_next_offset pow o fuel s = Some ((ret, r), s') /\ seq_inv fo n rfs j s' /\
    (if ret : bool then j = n else j < n /\ iou s' = set_offset (fo + j * bs) (iou s)).
Proof.
  intros Hi Hd. unfold __get_next_offset. rewrite (bind_run get _ s s s) by done.
  rewrite (si_seq _ _ _ _ _ Hi), (sj_seq_nr Hj), Hd.
  change (1 =? 0) with false. change (u32 (1 - 1) =? 0) with true. cbv iota.
  set (s1 := St (set_ddir_seq_nr 1 (td s)) (file s) (iou s)).
  rewrite (bind_run _ _ s true s1) by done.
  assert (Hi1 : seq_inv fo n rfs j s1) by (by destruct Hi; split).
  destruct (seq_offset_step fo n rfs j s1 Hi1) as (r & Er & Hr).
  assert (Ep : pick_block pow o fuel d true s1 = Some ((seq_block r, false), s1)).
  { unfold pick_block. rewrite (sj_random Hj). by rewrite (bind_run _ _ _ _ _ Er). }
  pose proof Hi1 as [_ [Hfo Hfo0] [Hio Hn] [Hrf Hrf2] [Hp Hjn]]. pose proof (sj_bs Hj).
  destruct Hr as [->|[-> Hjn']]; cbn [seq_block] in Ep.
  - assert (Hnn : (j * bs =? -1ULL) = false).
    { apply Z.eqb_neq. change (-1ULL) with (2 ^ 64 - 1). nia. }
    set (s2 := St (td s1) (file s1) (set_offset (j * bs) (iou s1))).
    rewrite (bind_run _ _ s1 (false, false) s2).
    2:{ unfold get_next_block. rewrite (bind_run _ _ _ _ _ Ep). rewrite (bind_run get _ s1 s1 s1) by done.
        by rewrite Hnn. }
    cbv iota. rewrite (bind_run get _ s2 s2 s2) by done.
    change (file s2) with (file s1). change (offset (iou s2)) with (j * bs). rewrite Hio, Hfo, Hrf.
    destruct (Z.leb_spec (n * bs) (j * bs)) as [L|L].
    + exists s2, true, false. split; [done|]. split; [by destruct Hi1; split|]. nia.
    + rewrite (wrap_small 64 (j * bs + fo)) by (unfold uint; nia). erewrite bind_run by done.
      destruct (Z.leb_spec rfs (j * bs + fo)); [nia|].
      eexists _, false, false. split; [done|]. split; [by destruct Hi1; split|]. split; [nia|].
      cbn. unfold set_offset. cbn. f_equal. lia.
  - exists s1, true, false. split; [|done]. rewrite (bind_run _ _ s1 (true, false) s1); [done|].
    unfold get_next_block. rewrite (bind_run _ _ _ _ _ Ep). by rewrite (bind_run get _ s1 s1 s1).
Qed.

Lemma seq_next_io fo n rfs j s : seq_inv fo n rfs j s ->
  exists s', (next_io pow o fuel d s = Some (None, s') /\ j = n) \/
    (next_io pow o fuel d s = Some (Some (fo + j * bs, bs), s') /\ j < n /\ seq_inv fo n rfs (j + 1) s').
Proof.
  intros Hi. pose proof (sj_bs Hj). unfold next_io.
  set (s0 := St (td s) (file s) (IoU 0 0 d false)). rewrite (bind_run _ _ s tt s0) by done.
  assert (Hi0 : seq_inv fo n rfs j s0) by (by destruct Hi; split).
  destruct (seq_next_offset fo n rfs j s0 Hi0) as (s1 & ret & r & Eo & Hi1 & Hc); [done|].
  destruct ret.
  { exists s1. left. split; [|done]. unfold fill_io_u.
    erewrite bind_run; [|rewrite (sj_zone Hj); rewrite (bind_run _ _ s0 tt s0) by done;
      rewrite (bind_run _ _ s0 _ s1 Eo); done]. done. }
  destruct Hc as [Hjn Hiou']. assert (Hiou : iou s1 = IoU (fo + j * bs) 0 d false) by exact Hiou'. clear Hiou'.
  pose proof Hi1 as [Hsq [Hfo Hfo0] [Hio Hn] [Hrf Hrf2] [Hp Hj0]].
  assert (Hend : (j + 1) * bs <= n * bs) by nia. assert (0 <= j * bs) by nia.
  set (i2 := IoU (fo + j * bs) bs d false). set (s2 := St (td s1) (file s1) i2).
  set (s4 := St (set_zone_bytes (u64 (zone_bytes (td s2) + bs)) (td s2)) (file s2) i2).
  assert (Efill : fill_io_u pow o fuel s0 = Some (false, s4)).
  { unfold fill_io_u. rewrite (sj_zone Hj). rewrite (bind_run _ _ s0 tt s0) by done.
    rewrite (bind_run _ _ s0 _ s1 Eo). rewrite (bind_run _ _ s1 bs s1).
    2:{ unfold __get_next_buflen. rewrite (bind_run get _ s1 s1 s1) by done. rewrite (sj_seqrand Hj), Hiou.
        cbn [ddir]. cbv beta iota zeta. by rewrite (sj_min Hj), (sj_max Hj), Z.eqb_refl. }
    rewrite (bind_run get _ s1 s1 s1) by done. rewrite (bind_run _ _ s1 tt s2) by (by rewrite Hiou).
    destruct (Z.eqb_spec bs 0); [lia|]. rewrite Hiou. cbn [offset].
    rewrite wrap_small by (unfold uint; nia).
    destruct (Z.ltb_spec (real_file_size (file s1)) (fo + j * bs + bs)); [nia|].
    rewrite (sj_random Hj). rewrite (bind_run _ _ s2 tt s2) by done. by rewrite (bind_run get _ s2 s2 s2). }
  rewrite (bind_run _ _ s0 false s4 Efill). eexists. right. split; [|split; [done|]].
  - unfold note_position. erewrite bind_run.
    2:{ rewrite (bind_run get _ s4 s4 s4) by done. change (buflen (iou s4)) with bs. cbv zeta.
        destruct (Z.eqb_spec bs 0); [lia|]. reflexivity. }
    done.
  - split; cbn; try done. unfold upd. rewrite decide_True by done.
    rewrite wrap_small by (unfold uint; nia). lia.
Qed.

Lemma seq_run k : forall fo n rfs j s, seq_inv fo n rfs j s ->
  exists s', run pow o fuel k d s =
    Some (map (fun b => (fo + (j + b) * bs, bs)) (take k (blocks (n - j))), s').
Proof.
  induction k as [|k IH]; intros fo n rfs j s Hi; cbn [run]; [by exists s|].
  destruct (seq_next_io fo n rfs j s Hi) as (s' & [[E ->]|(E & Hjn & Hi')]); rewrite (bind_run _ _ _ _ _ E).
  - exists s'. by rewrite Z.sub_diag.
  - destruct (IH fo n rfs (j + 1) s' Hi') as (s'' & E2). exists s''.
    rewrite (bind_run _ _ _ _ _ E2).
    assert (Eb : blocks (n - j) = 0 :: (Z.succ <$> blocks (n - (j + 1)))).
    { unfold blocks. replace (Z.to_nat (n - j)) with (S (Z.to_nat (n - (j + 1)))) by lia.
      cbn [seq fmap list_fmap]. f_equal. rewrite <- fmap_S_seq, <- !list_fmap_compose.
      apply list_fmap_ext. intros ? x _. cbn. lia. }
    rewrite Eb. cbn [take map]. unfold mret, stm_ret. f_equal. f_equal. f_equal; [f_equal; lia|].
    rewrite <- fmap_take.
    change (Z.succ <$> take k (blocks (n - (j + 1)))) with (map Z.succ (take k (blocks (n - (j + 1))))).
    rewrite map_map. apply map_ext. intros a. f_equal. lia.
Qed.
End sequential.


(** ** Sorted verify batches *)
Lemma flist_cmp_small x y : 0 <= x < 2 ^ 31 -> 0 <= y < 2 ^ 31 ->
  (flist_cmp x y <=? 0) = (x - y <=? 0).
Proof.
  intros Hx Hy. unfold flist_cmp, s32, wrap. cbv zeta.
  destruct (Z.le_gt_cases 0 (x - y)).
  - rewrite Z.mod_small by lia. destruct (Z.ltb_spec (x - y) (2 ^ 31)); [done|lia].
  - replace ((x - y) mod 2 ^ 32) with (x - y + 2 ^ 32) by (symmetry; rewrite <- (Z.mod_add _ 1), Z.mod_small; lia).
    destruct (Z.ltb_spec (x - y + 2 ^ 32) (2 ^ 31)); [lia|]. f_equal. lia.
Qed.

(** A verify batch is issued in ascending order of its offsets: sorting the
    drawn block numbers, all below [2^31], gives the same blocks in order. *)
Theorem verify_batch_sorted l :
  Forall (fun b => 0 <= b < 2 ^ 31) l ->
  exists s, flist_sort flist_cmp l = Some s /\ s ≡ₚ l /\ Sorted.StronglySorted Z.le s.
Proof.
  intros Hl. rewrite (flist_sort_ext flist_cmp (fun x y => x - y) _ flist_cmp_small l Hl).
  destruct (flist_sort_spec (fun x y : Z => x - y)) with (l := l) as (s & E & [P S _]);
    [unfold le; lia..|].
  exists s. split_and!; [done..|].
  eapply Sorted.StronglySorted_ind; [| |exact S]; [constructor|].
  intros a k _ IH Ha. constructor; [done|]. eapply list.Forall_impl; [exact Ha|]. unfold le. lia.
Qed.

Lemma verify_batch_sorted_witness :
  exists s, flist_sort flist_cmp [9; 4; 7; 4] = Some s /\ s ≡ₚ [9; 4; 7; 4] /\ Sorted.StronglySorted Z.le s.
Proof. apply (verify_batch_sorted [9; 4; 7; 4]). repeat constructor; lia. Defined.

(** The comparison of block numbers is truncated to an [int]: a batch with
    numbers [2^31] apart comes out in descending order, and numbers [2^32]
    apart compare equal. *)
Theorem verify_batch_misordered :
  flist_sort flist_cmp [2 ^ 31; 0] = Some [2 ^ 31; 0] /\ flist_cmp (2 ^ 32) 0 = 0.
Proof. split; vm_compute; reflexivity. Qed.

(** ** Zones past the end of the file *)

(** When the next zone starts past the end of the file, the offset does not
    wrap to the beginning: [real_file_size - file_offset] is negative, and the
    file offset becomes a number past every file of less than [2^63] bytes. *)
Theorem zone_wrap_escapes {M} `{RandomMap M} o (s : state M) :
  let off := file_offset (file s) + (zone_range o + zone_skip o) in
  0 < zone_range o -> 0 < zone_skip o -> zone_size o <= zone_bytes (td s) ->
  0 <= file_offset (file s) -> 0 <= real_file_size (file s) < off -> off < 2 ^ 63 ->
  exists s', __fill_io_u_zone o s = Some (tt, s') /\ 2 ^ 63 <= file_offset (file s').
Proof.
  intros off Hr Hk Hz Hfo Hrf Hoff. unfold __fill_io_u_zone. rewrite (bind_run get _ s s s) by done.
  destruct (Z.leb_spec (zone_size o) (zone_bytes (td s))); [|lia].
  destruct (Z.eqb_spec (zone_skip o) 0); [lia|]. cbn [negb andb].
  rewrite (wrap_small 64 (zone_range o + zone_skip o)) by (unfold uint; lia). fold off.
  rewrite (wrap_small 64 off) by (unfold uint; lia).
  destruct (Z.leb_spec (real_file_size (file s)) off); [|lia].
  set (t := set_io_skip_bytes _ _). set (f := set_last_pos _ _ _).
  rewrite (bind_run _ _ s tt (St t (file s) (iou s))) by done.
  destruct (Z.eqb_spec (zone_range o) 0); [lia|]. eexists. split; [done|]. cbn [file].
  assert (Hf : forall g : fio_file M, file_offset g = file_offset f -> 2 ^ 63 <= file_offset g).
  { intros g ->. change (file_offset f) with (u64 (real_file_size (file s) - off)). unfold wrap.
    rewrite <- (Z.mod_add _ 1), Z.mod_small by lia. lia. }
  destruct (_ mod _ =? 0).
  - apply Hf. rewrite reset_file_offset. by case_match.
  - apply Hf. by case_match.
Qed.

(** ** A concrete job *)
Definition sample_options (rnd : bool) (max : Z) : thread_options :=
  Options rnd RW_SEQ_SEQ 1 0 (fun _ => 512) (fun _ => 512) (fun _ => max) (fun _ => []) false false
    false FIO_RAND_GEN_TAUSWORTHE FIO_RAND_DIST_RANDOM (fun _ => 100) (fun _ => 0) 0 0 0
    false false false 0%nat false 0 0 None 0 0 false 7 (fun _ => []).

Definition sample_td : thread_data :=
  Td (init_rand false) (init_rand false) (fun _ => init_rand false) (fun _ => init_rand false) 1 [] 0 0.

Definition sample_file : fio_file axmap :=
  File 1024 5120 8192 (fun _ => 1024) (fun _ => -1ULL) None None
    (shared_rand_init 10 1) (Gauss (init_rand false) 10 0 false) true.

Definition sample_state : state axmap := St sample_td sample_file (IoU 0 0 DDIR_READ false).
Definition no_pow (x y : double) : double := x.

Lemma sample_live : live (init_rand false).
Proof. apply (bool_decide_unpack _). vm_compute. exact I. Qed.

Lemma sample_random_job : random_job (sample_options true 512) DDIR_READ 512.
Proof. by split. Qed.

Lemma sample_seq_job : seq_job (sample_options false 512) DDIR_READ 512.
Proof. by split. Qed.

Lemma fill_io_u_in_bounds_witness :
  exists s', fill_io_u no_pow (sample_options false 512) 10 sample_state = Some (false, s') /\
    1024 <= offset (iou s') < 1024 + 5120 /\ offset (iou s') + buflen (iou s') <= 8192.
Proof.
  destruct (fill_io_u no_pow (sample_options false 512) 10 sample_state) as [[r s']|] eqn:E.
  2:{ assert (X : fst <$> fill_io_u no_pow (sample_options false 512) 10 sample_state = Some false) by (vm_compute; reflexivity).
      rewrite E in X. discriminate X. }
  assert (Hr : r = false).
  { assert (X : fst <$> fill_io_u no_pow (sample_options false 512) 10 sample_state = Some false) by (vm_compute; reflexivity).
    rewrite E in X. by injection X. }
  assert (Hg : fgeo (file s') = (1024, 5120, 8192, true)).
  { assert (X : (fun p => fgeo (file (snd p))) <$> fill_io_u no_pow (sample_options false 512) 10 sample_state =
      Some (1024, 5120, 8192, true)) by (vm_compute; reflexivity).
    rewrite E in X. by apply (inj Some) in X. }
  subst r. exists s'. split; [reflexivity|].
  assert (G : file_offset (file s') = 1024 /\ io_size (file s') = 5120 /\ real_file_size (file s') = 8192)
    by (unfold fgeo in Hg; split_and!; congruence).
  destruct (fill_io_u_in_bounds no_pow (sample_options false 512) 10 sample_state s') as (H1 & H2 & H3 & H4);
    [split; intros dd; [unfold uint; cbn; lia|unfold uint; cbn; lia|constructor]|done|exact E|lia|].
  destruct G as (G1 & G2 & G3). rewrite G1, G2, G3 in *. split; [apply H4; lia|lia].
Defined.

Lemma get_next_buflen_correct_witness :
  is_Some (__get_next_buflen (sample_options false 4096) 1 true
    (St sample_td sample_file (IoU 1024 0 DDIR_READ false))).
Proof.
  apply (get_next_buflen_correct (sample_options false 4096) 1 true
    (St sample_td sample_file (IoU 1024 0 DDIR_READ false))); [done|done|done|apply sample_live|done|lia|].
  intros len Hlen. cbn in Hlen. unfold io_u_fits. change (get_start_offset _ _) with (Some 0).
  cbn [mbind option_bind]. f_equal. apply Z.leb_le.
  change (u64 (io_size _ + 0)) with 5120. change (offset _) with 1024.
  rewrite wrap_small by (unfold uint; lia). lia.
Defined.

Lemma random_run_covers_witness :
  exists m s' bl, axmap_new sample_malloc 10 = Some m /\
    run no_pow (sample_options true 512) 10 12 DDIR_READ (St sample_td (set_axmap m sample_file) (iou sample_state)) =
      Some (map (fun b => (1024 + b * 512, 512)) bl, s') /\ bl ≡ₚ blocks 10.
Proof.
  destruct (axmap_new_some sample_malloc 10) as [m Em]; [intros k; by eexists|].
  destruct (axmap_new_wf sample_malloc 10 m) as (Hwf & Hnr & Hbits); [lia|done|].
  exists m.
  destruct (random_run_covers no_pow (sample_options true 512) 10 DDIR_READ 512
    (St sample_td (set_axmap m sample_file) (iou sample_state)) m 10 12) as (s' & bl & E & Hp);
    [apply sample_random_job| |lia|exists s', bl; split; [exact Em|split; [exact E|exact Hp]]].
  split;
    [split; [apply sample_live|reflexivity]|reflexivity|split; [reflexivity|done]
    |split_and!; [reflexivity|done..]|split_and!; [reflexivity|done..]|reflexivity|exact Hwf|exact Hnr|..].
  - intros x _. change (rm_marked m x) with (bits m x). rewrite Hbits. symmetry. apply bool_decide_eq_false. apply not_elem_of_nil.
  - apply NoDup_nil_2.
  - intros x []%not_elem_of_nil.
Defined.



(** A job with zones of 512 bytes, 8192 bytes skipped between them. *)
Definition sample_zoned : thread_options :=
  Options false RW_SEQ_SEQ 1 0 (fun _ => 512) (fun _ => 512) (fun _ => 512) (fun _ => []) false false
    false FIO_RAND_GEN_TAUSWORTHE FIO_RAND_DIST_RANDOM (fun _ => 100) (fun _ => 0) 512 512 8192
    false false false 0%nat false 0 0 None 0 0 false 7 (fun _ => []).

Lemma zone_wrap_escapes_witness :
  exists s', __fill_io_u_zone sample_zoned
      (St (set_zone_bytes 512 sample_td) sample_file (iou sample_state)) = Some (tt, s') /\
    2 ^ 63 <= file_offset (file s').
Proof.
  apply (zone_wrap_escapes sample_zoned (St (set_zone_bytes 512 sample_td) sample_file (iou sample_state)));
    cbn; lia.
Defined.
