(* ===== verification/Stat.v ===== *)
(** * Latency statistics: [stat.c], [stat.h], [iolog.h]

    The latency histogram (a value is filed under its most significant bits),
    the percentiles computed from it, the running statistics of a thread and
    how the statistics of several threads are merged.

    Means and variances are C doubles: the operations are stated against the
    interface [FloatOps], which the IEEE doubles of [CFloat] implement; all
    counters, minima, maxima and buckets are exact whatever its arithmetic. *)
From Stdlib Require Import SpecFloat Sorted.
From S2P Require Import Prelude CFloat.

Definition FIO_IO_U_MAP_NR : nat := 7.
Definition FIO_IO_U_LAT_N_NR : nat := 10.
Definition FIO_IO_U_LAT_U_NR : nat := 10.
Definition FIO_IO_U_LAT_M_NR : nat := 12.
Definition FIO_IO_U_PLAT_BITS : Z := 6.
Definition FIO_IO_U_PLAT_VAL : Z := Z.shiftl 1 FIO_IO_U_PLAT_BITS.
Definition FIO_IO_U_PLAT_GROUP_NR : Z := 29.
Definition FIO_IO_U_PLAT_NR : Z := FIO_IO_U_PLAT_GROUP_NR * FIO_IO_U_PLAT_VAL.
Definition DDIR_RWDIR_CNT : nat := 3.
Definition DDIR_RWDIR_SYNC_CNT : nat := 4.

(** ** The histogram *)

(** [(sizeof(val)*8) - __builtin_clzll(val) - 1] is the position of the most
    significant bit. *)
Definition plat_val_to_idx (val : Z) : Z :=
  let msb := if val =? 0 then 0 else Z.log2 val in
  if msb <=? FIO_IO_U_PLAT_BITS then val else
  let error_bits := msb - FIO_IO_U_PLAT_BITS in
  let base := shl 32 (error_bits + 1) FIO_IO_U_PLAT_BITS in
  let offset := Z.land (FIO_IO_U_PLAT_VAL - 1) (Z.shiftr val error_bits) in
  if base + offset <? FIO_IO_U_PLAT_NR - 1 then base + offset else FIO_IO_U_PLAT_NR - 1.

(** [base + ((k + 0.5) * (1 << error_bits))]: with at least one error bit the
    product is a whole number and far below 2^53, so the double is exact. *)
Definition plat_idx_to_val (idx : Z) : option Z :=
  _ ← assert (idx <? FIO_IO_U_PLAT_NR);
  if idx <? Z.shiftl FIO_IO_U_PLAT_VAL 1 then Some idx else
  let error_bits := Z.shiftr idx FIO_IO_U_PLAT_BITS - 1 in
  let base := Z.shiftl 1 (error_bits + FIO_IO_U_PLAT_BITS) in
  let k := idx mod FIO_IO_U_PLAT_VAL in
  Some (base + (2 * k + 1) * Z.shiftl 1 error_bits / 2).

(** ** Running statistics *)
Class FloatOps (F : Type) := {
  fzero : F;
  fof : Z -> F;
  fadd : F -> F -> F;
  fsub : F -> F -> F;
  fmul : F -> F -> F;
  fdiv : F -> F -> F;
  fis0 : F -> bool
}.

Section Stats.
Context {F : Type} {fops : FloatOps F}.

Record io_stat := IoStat {
  max_val : Z;
  min_val : Z;
  samples : Z;
  mean : F;
  S_ : F
}.

Definition add_stat_sample (is_ : io_stat) (data : Z) : io_stat :=
  let val := fof data in
  let mx := if max_val is_ <? data then data else max_val is_ in
  let mn := if data <? min_val is_ then data else min_val is_ in
  let delta := fsub val (mean is_) in
  let '(m, s) :=
    if negb (fis0 delta) then
      let m := fadd (mean is_) (fdiv delta (fadd (fof (samples is_)) (fof 1))) in
      (m, fadd (S_ is_) (fmul delta (fsub val m)))
    else (mean is_, S_ is_) in
  IoStat mx mn (u64 (samples is_ + 1)) m s.

Definition reset_io_stat (ios : io_stat) : io_stat := IoStat 0 0 0 fzero fzero.

Definition sum_stat (dst src : io_stat) (first : bool) : io_stat :=
  if samples src =? 0 then dst else
  let mn := Z.min (min_val dst) (min_val src) in
  let mx := Z.max (max_val dst) (max_val src) in
  let total := fof (u64 (samples dst + samples src)) in
  let '(m, s) :=
    if first then (mean src, S_ src)
    else
      let delta := fsub (mean src) (mean dst) in
      (fdiv (fadd (fmul (mean src) (fof (samples src))) (fmul (mean dst) (fof (samples dst)))) total,
       fadd (fadd (S_ src) (S_ dst))
         (fdiv (fmul (fmul delta delta) (fof (u64 (samples dst * samples src)))) total)) in
  IoStat mx mn (u64 (samples dst + samples src)) m s.

(** The fields of [struct thread_stat] that are accumulated. *)
Record thread_stat := ThreadStat {
  unified_rw_rep : bool;
  clat_percentiles : bool;
  sync_stat : io_stat;
  clat_stat : list io_stat;
  slat_stat : list io_stat;
  lat_stat : list io_stat;
  bw_stat : list io_stat;
  iops_stat : list io_stat;
  usr_time : Z; sys_time : Z; ctx : Z; minf : Z; majf : Z;
  io_u_map : list Z; io_u_submit : list Z; io_u_complete : list Z;
  io_u_lat_n : list Z; io_u_lat_u : list Z; io_u_lat_m : list Z;
  io_u_plat : list (list Z);
  io_u_sync_plat : list Z;
  total_io_u : list Z; short_io_u : list Z; drop_io_u : list Z;
  total_submit : Z; total_complete : Z;
  io_bytes : list Z; runtime : list Z;
  total_run_time : Z
}.

(** [for (k = 0; k < n; k++) dst[k] += src[k]] on [w]-bit counters. *)
Definition add_first (w : Z) (n : nat) (dst src : list Z) : list Z :=
  zip_with (fun d s => wrap w (d + s)) (take n dst) (take n src) ++ drop n dst.

(** The per-direction arrays: entry by entry, or all into entry 0 when the
    directions are reported together. *)
Definition sum_ddir {A} (unified : bool) (add : bool -> A -> A -> A) (first : bool)
    (dst src : list A) : list A :=
  if unified then
    match dst, src with
    | d :: dst, s :: src => fold_left (fun d s => add false d s) src (add first d s) :: dst
    | _, _ => dst
    end
  else zip_with (add first) dst src.

Definition max_runtime (d s : Z) : Z := if d <? s then s else d.

Definition sum_thread_stats (dst src : thread_stat) (first : bool) : thread_stat :=
  let uni := unified_rw_rep dst in
  let n := DDIR_RWDIR_CNT in
  let stats := sum_ddir uni (fun first d s => sum_stat d s first) first in
  let add64 := sum_ddir uni (fun _ d s => u64 (d + s)) first in
  ThreadStat uni (clat_percentiles dst)
    (sum_stat (sync_stat dst) (sync_stat src) (first && negb uni))
    (stats (clat_stat dst) (clat_stat src)) (stats (slat_stat dst) (slat_stat src))
    (stats (lat_stat dst) (lat_stat src)) (stats (bw_stat dst) (bw_stat src))
    (stats (iops_stat dst) (iops_stat src))
    (u64 (usr_time dst + usr_time src)) (u64 (sys_time dst + sys_time src))
    (u64 (ctx dst + ctx src)) (u64 (minf dst + minf src)) (u64 (majf dst + majf src))
    (add_first 32 FIO_IO_U_MAP_NR (io_u_map dst) (io_u_map src))
    (add_first 32 FIO_IO_U_MAP_NR (io_u_submit dst) (io_u_submit src))
    (add_first 32 FIO_IO_U_MAP_NR (io_u_complete dst) (io_u_complete src))
    (add_first 32 FIO_IO_U_LAT_N_NR (io_u_lat_n dst) (io_u_lat_n src))
    (add_first 32 FIO_IO_U_LAT_N_NR (io_u_lat_u dst) (io_u_lat_u src))
    (add_first 32 FIO_IO_U_LAT_N_NR (io_u_lat_m dst) (io_u_lat_m src))
    (sum_ddir uni (fun _ => add_first 32 (Z.to_nat FIO_IO_U_PLAT_NR)) first (io_u_plat dst) (io_u_plat src))
    (add_first 32 (Z.to_nat FIO_IO_U_PLAT_NR) (io_u_sync_plat dst) (io_u_sync_plat src))
    (add64 (take n (total_io_u dst)) (take n (total_io_u src)) ++
       add_first 64 1 (drop n (total_io_u dst)) (drop n (total_io_u src)))
    (add64 (short_io_u dst) (short_io_u src)) (add64 (drop_io_u dst) (drop_io_u src))
    (u64 (total_submit dst + total_submit src)) (u64 (total_complete dst + total_complete src))
    (add64 (io_bytes dst) (io_bytes src))
    (sum_ddir uni (fun _ => max_runtime) first (runtime dst) (runtime src))
    (u64 (total_run_time dst + total_run_time src)).

(** [plat[idx]++]. *)
Definition bump (plat : list Z) (idx : Z) : option (list Z) :=
  v ← arr_get plat idx; arr_set plat idx (u32 (v + 1)).

Definition set_clat (ts : thread_stat) (st : list io_stat) (plat : list (list Z)) : thread_stat :=
  ThreadStat (unified_rw_rep ts) (clat_percentiles ts) (sync_stat ts) st (slat_stat ts)
    (lat_stat ts) (bw_stat ts) (iops_stat ts) (usr_time ts) (sys_time ts) (ctx ts) (minf ts)
    (majf ts) (io_u_map ts) (io_u_submit ts) (io_u_complete ts) (io_u_lat_n ts) (io_u_lat_u ts)
    (io_u_lat_m ts) plat (io_u_sync_plat ts) (total_io_u ts) (short_io_u ts) (drop_io_u ts)
    (total_submit ts) (total_complete ts) (io_bytes ts) (runtime ts) (total_run_time ts).

Definition add_clat_percentile_sample (plat : list (list Z)) (nsec ddir : Z)
    : option (list (list Z)) :=
  let idx := plat_val_to_idx nsec in
  _ ← assert (idx <? FIO_IO_U_PLAT_NR);
  row ← arr_get plat ddir;
  row ← bump row idx;
  arr_set plat ddir row.

(** [add_clat_sample] of a job that writes no latency logs. *)
Definition add_clat_sample (ts : thread_stat) (ddir nsec : Z) : option thread_stat :=
  st ← arr_get (clat_stat ts) ddir;
  sts ← arr_set (clat_stat ts) ddir (add_stat_sample st nsec);
  plat ← (if clat_percentiles ts then add_clat_percentile_sample (io_u_plat ts) nsec ddir
          else Some (io_u_plat ts));
  Some (set_clat ts sts plat).
End Stats.
Arguments io_stat : clear implicits.
Arguments thread_stat : clear implicits.

(** ** Percentiles

    The list of percentiles ends at its twentieth entry or at the first 0.0.  Equal
    doubles other than zeroes are the same double, so that any sorting algorithm
    gives what [qsort] gives. *)
Definition FIO_IO_U_LIST_MAX_LEN : nat := 20.
Definition dis0 (x : double) : bool := match x with S754_zero _ => true | _ => false end.
Definition dleb : double -> double -> bool := SFleb.

Definition double_cmp (a b : double) : Z := if dltb b a then 1 else if dltb a b then -1 else 0.

(** The loop that counts [len], as the entries it counts. *)
Fixpoint listed (n : nat) (plist : list double) : list double :=
  match n, plist with
  | S n, p :: plist => if dis0 p then [] else p :: listed n plist
  | _, _ => []
  end.

Fixpoint place (p : double) (l : list double) : list double :=
  match l with
  | [] => [p]
  | q :: l => if 0 <? double_cmp p q then q :: place p l else p :: q :: l
  end.
Definition qsort (l : list double) : list double := foldr place [] l.

(** [sum >= (plist[j].u.f / 100.0 * nr)]. *)
Definition reached (nr : Z) (p : double) (sum : Z) : bool := dleb (dmul (ddiv p (of_int 100)) (of_int nr)) (of_int sum).

Section Percentiles.
Context (nr : Z) (plist : list double).

(** The inner [while]: files bucket [i] under every percentile reached. *)
Fixpoint percentile_while (fuel : nat) (j : nat) (sum val : Z) (ovals : list Z)
    : option (nat * bool * list Z) :=
  match fuel with
  | O => None
  | S fuel =>
      p ← plist !! j;
      if reached nr p sum then
        if negb (dleb p (of_int 100)) then None else
        let ovals := ovals ++ [val] in
        if (j =? length plist - 1)%nat then Some (j, true, ovals)
        else percentile_while fuel (S j) sum val ovals
      else Some (j, false, ovals)
  end.

(** The loop over the buckets, from bucket [i] on. *)
Fixpoint percentile_for (plat : list Z) (i : Z) (j : nat) (sum : Z) (ovals : list Z)
    : option (list Z) :=
  match plat with
  | [] => Some ovals
  | c :: plat =>
      let sum := u64 (sum + c) in
      val ← plat_idx_to_val i;
      r ← percentile_while (S (length plist)) j sum val ovals;
      match r with
      | (j, true, ovals) => Some ovals
      | (j, false, ovals) => percentile_for plat (i + 1) j sum ovals
      end
  end.
End Percentiles.

(** [calc_clat_percentiles]: the sorted list, the values found, their minimum and
    their maximum. *)
Definition calc_clat_percentiles (plat : list Z) (nr : Z) (plist : list double) : option (list double * list Z * Z * Z) :=
  match listed FIO_IO_U_LIST_MAX_LEN plist with
  | [] => Some ([], [], -1ULL, 0)
  | l =>
      let l := qsort l in
      ovals ← percentile_for nr l plat 0 0 0 [];
      Some (l, ovals, fold_left Z.min ovals (-1ULL), fold_left Z.max ovals 0)
  end.

(** ** Histogram: proofs *)
Lemma plat_small val : 0 <= val < 128 -> plat_val_to_idx val = val.
Proof.
  intros Hv. unfold plat_val_to_idx. destruct (Z.eqb_spec val 0); [done|].
  assert (Z.log2 val < 7) by (apply Z.log2_lt_pow2; [lia|change (2 ^ 7) with 128; lia]).
  destruct (Z.leb_spec (Z.log2 val) FIO_IO_U_PLAT_BITS); [done|unfold FIO_IO_U_PLAT_BITS in *; lia].
Qed.

(** A larger value: the group is the number of discarded bits, the place in
    the group the seven leading bits. *)
Lemma plat_large val : 128 <= val < 2 ^ 64 ->
  let eb := Z.log2 val - 6 in
  1 <= eb <= 57 /\ 64 <= val / 2 ^ eb < 128 /\
  plat_val_to_idx val = Z.min (eb * 64 + val / 2 ^ eb) (FIO_IO_U_PLAT_NR - 1).
Proof.
  intros Hv eb.
  assert (7 <= Z.log2 val) by (apply Z.log2_le_pow2; [lia|change (2 ^ 7) with 128; lia]).
  assert (Z.log2 val < 64) by (apply Z.log2_lt_pow2; lia).
  assert (64 <= val / 2 ^ eb < 128) as Hq.
  { destruct (Z.log2_spec val) as [Hlo Hhi]; [lia|]. unfold eb. split.
    - apply Z.div_le_lower_bound; [apply Z.pow_pos_nonneg; lia|].
      change 64 with (2 ^ 6). rewrite <- Z.pow_add_r by lia. by replace (Z.log2 val - 6 + 6) with (Z.log2 val) by lia.
    - apply Z.div_lt_upper_bound; [apply Z.pow_pos_nonneg; lia|].
      change 128 with (2 ^ 7). rewrite <- Z.pow_add_r by lia.
      by replace (Z.log2 val - 6 + 7) with (Z.succ (Z.log2 val)) by lia. }
  split; [unfold eb; lia|]. split; [done|]. unfold plat_val_to_idx.
  rewrite (proj2 (Z.eqb_neq val 0)) by lia.
  destruct (Z.leb_spec (Z.log2 val) FIO_IO_U_PLAT_BITS); [unfold FIO_IO_U_PLAT_BITS in *; lia|].
  change FIO_IO_U_PLAT_BITS with 6. fold eb.
  assert (shl 32 (eb + 1) 6 = (eb + 1) * 64) as ->.
  { unfold shl. rewrite Z.shiftl_mul_pow2 by lia. apply wrap_small. unfold uint, eb. lia. }
  assert (Z.land (FIO_IO_U_PLAT_VAL - 1) (Z.shiftr val eb) = val / 2 ^ eb - 64) as ->.
  { rewrite Z.land_comm. change (FIO_IO_U_PLAT_VAL - 1) with (2 ^ 6 - 1).
    rewrite land_pow2_mod, Z.shiftr_div_pow2 by (unfold eb; lia).
    change (2 ^ 6) with 64. symmetry. apply (Z.mod_unique_pos _ _ 1); lia. }
  zcase; lia.
Qed.

Lemma plat_idx_to_val_large eb w : 1 <= eb -> 64 <= w < 128 -> eb * 64 + w < FIO_IO_U_PLAT_NR ->
  plat_idx_to_val (eb * 64 + w) = Some (w * 2 ^ eb + 2 ^ (eb - 1)).
Proof.
  intros He Hw Hn. unfold plat_idx_to_val. destruct (Z.ltb_spec (eb * 64 + w) FIO_IO_U_PLAT_NR); [|lia].
  cbn [assert mbind option_bind]. change (Z.shiftl FIO_IO_U_PLAT_VAL 1) with 128.
  destruct (Z.ltb_spec (eb * 64 + w) 128); [lia|]. change FIO_IO_U_PLAT_BITS with 6.
  change FIO_IO_U_PLAT_VAL with 64.
  assert (Z.shiftr (eb * 64 + w) 6 = eb + 1) as ->.
  { rewrite Z.shiftr_div_pow2 by lia. change (2 ^ 6) with 64. zdm. }
  assert ((eb * 64 + w) mod 64 = w - 64) as -> by zdm.
  replace (eb + 1 - 1) with eb by lia. rewrite !Z.shiftl_1_l, Z.pow_add_r by lia.
  replace (2 ^ eb) with (2 * 2 ^ (eb - 1)) by (rewrite <- Z.pow_succ_r by lia; f_equal; lia).
  change (2 ^ 6) with 64. set (p := 2 ^ (eb - 1)). f_equal.
  replace ((2 * (w - 64) + 1) * (2 * p)) with ((2 * (w - 64) + 1) * p * 2) by lia.
  rewrite Z.div_mul by lia. lia.
Qed.

Lemma plat_idx_bound val : 0 <= val < 2 ^ 64 -> 0 <= plat_val_to_idx val < FIO_IO_U_PLAT_NR.
Proof.
  intros Hv. change FIO_IO_U_PLAT_NR with 1856. destruct (decide (val < 128)).
  - rewrite plat_small by lia. lia.
  - destruct (plat_large val) as (He & Hq & ->); [lia|]. change (FIO_IO_U_PLAT_NR - 1) with 1855. lia.
Qed.

Lemma plat_mono x y : 0 <= x <= y -> y < 2 ^ 64 -> plat_val_to_idx x <= plat_val_to_idx y.
Proof.
  intros Hxy Hy. destruct (decide (y < 128)); [rewrite !plat_small by lia; lia|].
  destruct (plat_large y) as (Hey & Hqy & ->); [lia|].
  destruct (decide (x < 128)).
  { rewrite plat_small by lia. change (FIO_IO_U_PLAT_NR - 1) with 1855. lia. }
  destruct (plat_large x) as (Hex & Hqx & ->); [lia|].
  assert (Z.log2 x <= Z.log2 y) as Hl by (apply Z.log2_le_mono; lia).
  apply Z.min_le_compat_r. destruct (decide (Z.log2 x = Z.log2 y)) as [E|]; [|lia].
  rewrite E. apply Z.add_le_mono_l, Z.div_le_mono; [apply Z.pow_pos_nonneg; lia|lia].
Qed.

(** Every bucket's representative value is filed under that bucket. *)
Lemma plat_roundtrip_all :
  forallb (fun i => match plat_idx_to_val (Z.of_nat i) with
                    | Some v => plat_val_to_idx v =? Z.of_nat i
                    | None => false end) (seq 0 1856) = true.
Proof. vm_compute. reflexivity. Qed.

Lemma plat_values_all : forallb (fun i => match plat_idx_to_val (Z.of_nat i) with Some v => (0 <=? v) && (v <=? -1ULL) | None => false end) (seq 0 1856) = true.
Proof. vm_compute. reflexivity. Qed.
Lemma plat_value idx v : 0 <= idx < FIO_IO_U_PLAT_NR -> plat_idx_to_val idx = Some v -> 0 <= v <= -1ULL.
Proof.
  intros Hi E. change FIO_IO_U_PLAT_NR with 1856 in Hi. pose proof plat_values_all as H.
  rewrite forallb_forall in H. specialize (H (Z.to_nat idx) ltac:(apply in_seq; lia)). rewrite Z2Nat.id, E in H by lia. lia.
Qed.

Lemma plat_roundtrip idx : 0 <= idx < FIO_IO_U_PLAT_NR ->
  exists v, plat_idx_to_val idx = Some v /\ plat_val_to_idx v = idx.
Proof.
  intros Hi. change FIO_IO_U_PLAT_NR with 1856 in Hi. pose proof plat_roundtrip_all as H.
  rewrite forallb_forall in H. specialize (H (Z.to_nat idx)). rewrite Z2Nat.id in H by lia.
  destruct (plat_idx_to_val idx) as [v|]; [|discriminate H; apply in_seq; lia].
  exists v. split; [done|]. apply Z.eqb_eq, H, in_seq. lia.
Qed.

(** C19. The latency histogram is accurate: every 64-bit latency has a bucket
    inside the array, larger latencies never get smaller buckets, each
    bucket's representative value is filed under that bucket, and for
    latencies below 2^34 ns the representative differs from the latency by at
    most 1/128 of it (not at all below 128 ns). *)
Theorem plat_histogram_accurate val val' idx :
  0 <= val <= val' -> val' < 2 ^ 64 -> 0 <= idx < FIO_IO_U_PLAT_NR ->
  0 <= plat_val_to_idx val < FIO_IO_U_PLAT_NR /\
  plat_val_to_idx val <= plat_val_to_idx val' /\
  (exists v, plat_idx_to_val idx = Some v /\ plat_val_to_idx v = idx) /\
  (val < 2 ^ 34 -> exists v, plat_idx_to_val (plat_val_to_idx val) = Some v /\
     128 * Z.abs (v - val) <= val).
Proof.
  intros Hv Hv' Hi. split; [apply plat_idx_bound; lia|]. split; [by apply plat_mono|].
  split; [by apply plat_roundtrip|]. intros Hs. destruct (decide (val < 128)).
  - rewrite plat_small by lia. exists val. split; [|lia]. unfold plat_idx_to_val.
    change FIO_IO_U_PLAT_NR with 1856. change (Z.shiftl FIO_IO_U_PLAT_VAL 1) with 128.
    rewrite !(proj2 (Z.ltb_lt val _)) by lia. done.
  - destruct (plat_large val) as (He & Hq & ->); [lia|]. set (eb := Z.log2 val - 6) in *.
    assert (eb <= 27) by (assert (Z.log2 val < 34) by (apply Z.log2_lt_pow2; lia); lia).
    change (FIO_IO_U_PLAT_NR - 1) with 1855. rewrite Z.min_l by lia.
    rewrite plat_idx_to_val_large by (change FIO_IO_U_PLAT_NR with 1856; lia).
    eexists. split; [done|].
    assert (0 < 2 ^ (eb - 1)) by (apply Z.pow_pos_nonneg; lia).
    assert (2 ^ eb = 2 * 2 ^ (eb - 1)) as E2 by (rewrite <- Z.pow_succ_r by lia; f_equal; lia).
    pose proof (Z.div_mod val (2 ^ eb) ltac:(lia)). pose proof (Z.mod_pos_bound val (2 ^ eb) ltac:(lia)).
    rewrite E2 in *. nia.
Qed.

Lemma plat_histogram_accurate_witness :
  exists v, plat_idx_to_val (plat_val_to_idx 1000000) = Some v /\ 128 * Z.abs (v - 1000000) <= 1000000.
Proof.
  destruct (plat_histogram_accurate 1000000 2000000 500) as (_ & _ & _ & H);
    [lia|lia|vm_compute; split; [discriminate|reflexivity]|].
  apply H. lia.
Defined.

(** ** Percentiles: proofs *)
Definition total (l : list Z) : Z := foldr Z.add 0 l.

(** *** Comparing with sums: below 2^53 the conversion is exact *)
Lemma norm53_bounds n m e : norm53 n m e -> 2 ^ 52 <= Zpos m < 2 ^ 53 /\ Zpos m = n * 2 ^ (- e) /\ e <= 0.
Proof. intros (Hd & He & _ & Hm). pose proof (digits2_bounds m) as H. rewrite Hd in H. done. Qed.

Lemma norm53_mono n n' m m' e e' : norm53 n m e -> norm53 n' m' e' -> n <= n' -> e < e' \/ e = e' /\ Zpos m <= Zpos m'.
Proof.
  intros (Hb & Em & He)%norm53_bounds (Hb' & Em' & He')%norm53_bounds Hn. destruct (Z.lt_trichotomy e e') as [?|[->|H]]; [by left|right; split; [done|nia]|exfalso].
  assert (Hp : 2 ^ (- e') = 2 ^ (- e) * 2 ^ (e - e')) by (rewrite <- Z.pow_add_r by lia; f_equal; lia).
  assert (2 <= 2 ^ (e - e')) by (change 2 with (2 ^ 1) at 1; apply Z.pow_le_mono_r; lia).
  assert (0 < 2 ^ (- e)) by (apply Z.pow_pos_nonneg; lia). rewrite Hp in Em'. nia.
Qed.

Lemma dleb_mono x s s' : 0 <= s <= s' -> s' < 2 ^ 53 -> dleb x (of_int s) = true -> dleb x (of_int s') = true.
Proof.
  intros Hs Hs' H. destruct (decide (s' = 0)) as [->|Hn']; [by replace s with 0 in H by lia|].
  destruct (of_int_small s') as (m' & e' & E' & N'); [lia|]. rewrite E'. unfold dleb, SFleb in *.
  destruct (decide (s = 0)) as [->|Hn].
  { change (of_int 0) with (S754_zero false) in H. by destruct x as [[]|[]| |[] ??]. }
  destruct (of_int_small s) as (m & e & E & N); [lia|]. rewrite E in H. destruct x as [[]|[]| |[] mx ex]; try done. cbn [SFcompare] in *.
  destruct (norm53_mono _ _ _ _ _ _ N N' ltac:(lia)) as [He|[-> Hm]].
  - destruct (Z.compare_spec ex e) as [->|Hx|Hx]; [by rewrite (proj2 (Z.compare_lt_iff _ _) He)|by rewrite (proj2 (Z.compare_lt_iff ex e')) by lia|done].
  - destruct (Z.compare_spec ex e') as [->|Hx|Hx]; [|done|done].
    change (Pcompare mx m' Eq) with (mx ?= m')%positive. change (Pcompare mx m Eq) with (mx ?= m)%positive in H.
    destruct (Pos.compare_spec mx m) as [->|Hp|Hp]; [| |done]; destruct (Pos.compare_spec m m') as [->|Hq|Hq]; try lia;
      destruct (Pos.compare_spec mx m'); try done; lia.
Qed.

Lemma reached_mono nr p s s' : 0 <= s <= s' -> s' < 2 ^ 53 -> reached nr p s = true -> reached nr p s' = true.
Proof. apply dleb_mono. Qed.

(** *** Sorting *)
Lemma place_perm p l : place p l ≡ₚ p :: l.
Proof. induction l as [|q l IH]; cbn [place]; [done|]. destruct (_ <? _); [|done]. rewrite IH. constructor. Qed.
Lemma qsort_perm l : qsort l ≡ₚ l.
Proof. unfold qsort. induction l as [|p l IH]; cbn [foldr]; [done|]. by rewrite place_perm, IH. Qed.

Definition sorted_by_cmp : list double -> Prop := Sorted (fun p q => double_cmp p q <= 0).
Lemma cmp_flip p q : 0 < double_cmp p q -> double_cmp q p <= 0.
Proof.
  unfold double_cmp, dltb, SFltb. intros H.
  assert (E : SFcompare p q = CompOpp <$> SFcompare q p).
  { destruct p as [[]|[]| |[] m e], q as [[]|[]| |[] m' e']; try done; cbn [SFcompare fmap option_fmap option_map];
      rewrite (Z.compare_antisym e' e), <- (Pos.compare_cont_antisym m' m Eq : _ = Pos.compare_cont Eq m m'); by destruct (Z.compare e' e), (Pos.compare_cont Eq m' m). }
  rewrite E in *. by destruct (SFcompare q p) as [[]|].
Qed.
Lemma place_sorted p l : sorted_by_cmp l -> sorted_by_cmp (place p l).
Proof.
  unfold sorted_by_cmp. induction l as [|q l IH]; cbn [place]; intros H; [by repeat constructor|]. apply Sorted_inv in H as [H Hq].
  destruct (Z.ltb_spec 0 (double_cmp p q)) as [Hlt|Hge]; [|constructor; [by constructor|by constructor]].
  constructor; [by apply IH|]. destruct l as [|r l]; cbn [place]; [constructor; by apply cmp_flip|]. apply HdRel_inv in Hq.
  destruct (_ <? _); constructor; [done|by apply cmp_flip].
Qed.
Lemma qsort_sorted l : sorted_by_cmp (qsort l).
Proof. unfold qsort. induction l as [|p l IH]; cbn [foldr]; [constructor|by apply place_sorted]. Qed.

Lemma listed_length n l : (length (listed n l) <= n)%nat.
Proof. revert l. induction n as [|n IH]; intros [|p l]; cbn [listed length]; try lia. destruct (dis0 p); cbn [length]; [lia|]. specialize (IH l). lia. Qed.

(** *** The loops *)
Section PercentileProofs.
Context (nr : Z) (plist : list double).
Hypothesis below_100 : Forall (fun p => dleb p (of_int 100) = true) plist.
Let len := length plist.

(** [sum] samples reach the first [n] percentiles of the list. *)
Definition reach_first (n : nat) (sum : Z) : Prop := Forall (fun p => reached nr p sum = true) (take n plist).

Lemma reach_mono n s s' : 0 <= s <= s' -> s' < 2 ^ 53 -> reach_first n s -> reach_first n s'.
Proof. intros Hs Hs'. apply Forall_impl. intros p. by apply reached_mono. Qed.
Lemma reach_snoc n p sum : plist !! n = Some p -> reach_first (S n) sum <-> reach_first n sum /\ reached nr p sum = true.
Proof. intros E. unfold reach_first. rewrite (take_S_r _ _ _ E), Forall_app, list.Forall_singleton. done. Qed.
Lemma reach_less n n' sum : (n <= n')%nat -> reach_first n' sum -> reach_first n sum.
Proof. intros Hn. unfold reach_first. replace n' with (n + (n' - n))%nat by lia. rewrite <- take_take_drop, Forall_app. tauto. Qed.

Lemma percentile_while_spec fuel : forall j sum val ovals,
  (j < len)%nat -> (len - j < fuel)%nat -> reach_first j sum ->
  exists n, (j + n <= len)%nat /\ reach_first (j + n) sum /\
    percentile_while nr plist fuel j sum val ovals =
      Some (if (j + n =? len)%nat then (len - 1)%nat else (j + n)%nat, (j + n =? len)%nat,
            ovals ++ replicate n val) /\
    ((j + n < len)%nat -> ~ reach_first (S (j + n)) sum).
Proof.
  induction fuel as [|fuel IH]; intros j sum val ovals Hj Hf Hb; cbn [percentile_while]; [lia|].
  destruct (lookup_lt_is_Some_2 plist j Hj) as [p Hp]. rewrite Hp. cbn [mbind option_bind].
  destruct (reached nr p sum) eqn:Er.
  - rewrite (proj1 (list.Forall_forall _ _) below_100 p (list_elem_of_lookup_2 _ _ _ Hp)). cbn [negb]. fold len.
    assert (Hb' : reach_first (S j) sum) by (by apply (reach_snoc _ p)). destruct (Nat.eqb_spec j (len - 1)) as [E|Hne].
    + exists 1%nat. replace (j + 1 =? len)%nat with true by (symmetry; apply Nat.eqb_eq; lia). split_and!; [lia|by rewrite Nat.add_1_r|by rewrite <- E|lia].
    + destruct (IH (S j) sum val (ovals ++ [val])) as (n & H1 & H2 & H3 & H4); [lia..|done|].
      exists (S n). rewrite <- !Nat.add_succ_comm. split_and!; [lia|done| |done]. rewrite H3. by rewrite <- app_assoc.
  - exists 0%nat. rewrite Nat.add_0_r. destruct (Nat.eqb_spec j len); [lia|].
    split_and!; [lia|done|by rewrite app_nil_r|]. intros _ H. apply (reach_snoc _ p) in H as [_ H]; [congruence|done].
Qed.

(** Bucket [m] of [l] (numbered from [i], with [sum] samples before [l]) is the
    first up to which the samples reach the percentiles up to [j], and [v]
    represents it. *)
Definition first_bucket (l : list Z) (i sum : Z) (j : nat) (v : Z) : Prop :=
  exists m, (m < length l)%nat /\ reach_first (S j) (sum + total (take (S m) l)) /\
    (forall m', (m' < m)%nat -> ~ reach_first (S j) (sum + total (take (S m') l))) /\
    plat_idx_to_val (i + Z.of_nat m) = Some v.

Lemma first_bucket_cons c l i sum j v :
  ~ reach_first (S j) (sum + c) -> first_bucket l (i + 1) (sum + c) j v -> first_bucket (c :: l) i sum j v.
Proof.
  intros Hn (m & Hm & Hr & Hf & Hv). exists (S m). split; [simpl; lia|]. split.
  { cbn [take total foldr]. by rewrite Z.add_assoc. }
  split.
  - intros [|m'] Hm'; cbn [take total foldr]; [simpl; by rewrite Z.add_0_r|].
    rewrite Z.add_assoc. apply Hf. lia.
  - rewrite <- Hv. f_equal. lia.
Qed.

Lemma percentile_for_spec l : forall i j sum ovals,
  Forall (fun c => 0 <= c) l -> 0 <= sum -> sum + total l < 2 ^ 53 ->
  0 <= i -> i + Z.of_nat (length l) <= FIO_IO_U_PLAT_NR -> (j < len)%nat -> reach_first j sum ->
  (l = [] -> ~ reach_first (S j) sum) ->
  exists ext, percentile_for nr plist l i j sum ovals = Some (ovals ++ ext) /\
    (j + length ext <= len)%nat /\
    (forall t v, ext !! t = Some v -> first_bucket l i sum (j + t) v) /\
    (reach_first len (sum + total l) -> (j + length ext)%nat = len).
Proof.
  induction l as [|c l IH]; intros i j sum ovals Hl H0 Ht Hi Hil Hj Hb Hnil; cbn [percentile_for].
  { exists []. rewrite app_nil_r. split_and!; [done|simpl; lia|done|]. simpl. rewrite Z.add_0_r.
    intros Hr. exfalso. apply (Hnil eq_refl). eapply reach_less; [|exact Hr]. lia. }
  apply Forall_cons_iff in Hl as [Hc Hl]. cbn [total foldr length] in *. fold (total l) in *.
  assert (0 <= total l) by (clear -Hl; induction Hl; simpl; lia).
  rewrite wrap_small by (unfold uint; lia).
  destruct (plat_roundtrip i) as (v & Hv & _); [lia|]. rewrite Hv. cbn [mbind option_bind]. fold len.
  destruct (percentile_while_spec (S len) j (sum + c) v ovals) as (n & Hn & Hr & -> & Hstop); [lia..|eapply reach_mono; [| |exact Hb]; lia|].
  assert (forall t v', replicate n v !! t = Some v' -> first_bucket (c :: l) i sum (j + t) v') as Hhead.
  { intros t v' Hlt. apply lookup_replicate in Hlt as [-> Hlt]. exists 0%nat.
    split_and!; [simpl; lia| |lia|by rewrite Z.add_0_r]. simpl. rewrite Z.add_0_r. eapply reach_less; [|exact Hr]. lia. }
  cbn [mbind option_bind]. destruct (Nat.eqb_spec (j + n) len) as [E|E].
  { exists (replicate n v). rewrite length_replicate. split_and!; done || lia. }
  assert (Hns : ~ reach_first (S (j + n)) (sum + c)) by (apply Hstop; lia).
  destruct (IH (i + 1) (j + n)%nat (sum + c) (ovals ++ replicate n v)) as (ext & -> & He1 & He2 & He3);
    [done|lia..|done|done|].
  exists (replicate n v ++ ext). rewrite app_assoc, length_app, length_replicate.
  split_and!; [done|lia| |].
  - intros t v' Htv. apply lookup_app_Some in Htv as [Htv|[Hge Htv]]; [by apply Hhead|].
    rewrite length_replicate in *. apply He2 in Htv.
    replace (j + n + (t - n))%nat with (j + t)%nat in Htv by lia.
    apply first_bucket_cons; [|done]. intros Hr'. apply Hns. eapply reach_less; [|exact Hr']. lia.
  - rewrite Z.add_assoc. intros Hlast. apply He3 in Hlast. lia.
Qed.
End PercentileProofs.

Lemma least_attained l : forall a, Forall (fun v => v <= a) l -> l <> [] -> fold_left Z.min l a ∈ l /\ Forall (fun v => fold_left Z.min l a <= v) l.
Proof.
  assert (H : forall l a, (fold_left Z.min l a = a \/ fold_left Z.min l a ∈ l) /\ fold_left Z.min l a <= a /\ Forall (fun v => fold_left Z.min l a <= v) l).
  { clear l. induction l as [|x l IH]; intros a; cbn [fold_left]; [split_and!; [by left|lia|constructor]|]. destruct (IH (Z.min a x)) as (H1 & H2 & H3).
    split_and!; [|lia|constructor; [lia|done]]. destruct H1 as [H1|H1]; [|right; by right]. rewrite H1. destruct (Z.min_spec a x) as [[_ ->]|[_ ->]]; [by left|right; left]. }
  intros a Ha Hl. destruct l as [|x l]; [done|]. apply Forall_cons_iff in Ha as [Hx Ha]. cbn [fold_left]. rewrite Z.min_r by done. destruct (H l x) as (H1 & H2 & H3).
  split; [destruct H1 as [->|H1]; [left|by right]|by constructor].
Qed.
Lemma greatest_attained l : forall a, Forall (fun v => a <= v) l -> l <> [] -> fold_left Z.max l a ∈ l /\ Forall (fun v => v <= fold_left Z.max l a) l.
Proof.
  assert (H : forall l a, (fold_left Z.max l a = a \/ fold_left Z.max l a ∈ l) /\ a <= fold_left Z.max l a /\ Forall (fun v => v <= fold_left Z.max l a) l).
  { clear l. induction l as [|x l IH]; intros a; cbn [fold_left]; [split_and!; [by left|lia|constructor]|]. destruct (IH (Z.max a x)) as (H1 & H2 & H3).
    split_and!; [|lia|constructor; [lia|done]]. destruct H1 as [H1|H1]; [|right; by right]. rewrite H1. destruct (Z.max_spec a x) as [[_ ->]|[_ ->]]; [right; left|by left]. }
  intros a Ha Hl. destruct l as [|x l]; [done|]. apply Forall_cons_iff in Ha as [Hx Ha]. cbn [fold_left]. rewrite Z.max_r by done. destruct (H l x) as (H1 & H2 & H3).
  split; [destruct H1 as [->|H1]; [left|by right]|by constructor].
Qed.

Lemma total_bound plat : Forall (uint 32) plat -> 0 <= total plat <= Z.of_nat (length plat) * 2 ^ 32.
Proof. induction 1 as [|c l Hc _ IH]; cbn [total foldr length]; [lia|]. unfold uint in Hc. fold (total l) in *. lia. Qed.

(** C20. Percentiles.  For 32-bit bucket counts and a list of percentiles, none above
    100 and all of them reached by the samples, [calc_clat_percentiles] sorts the
    list and returns one value per percentile: that of the first bucket up to which
    the samples reach this percentile and those before it in the sorted list, where
    [sum] samples reach [p] if [sum >= p / 100.0 * nr] in doubles.  The minimum and
    the maximum returned are the least and the greatest of these values. *)
Theorem clat_percentiles_correct plat nr plist (l := listed FIO_IO_U_LIST_MAX_LEN plist) :
  l <> [] -> Forall (fun p => dleb p (of_int 100) = true) l ->
  Z.of_nat (length plat) = FIO_IO_U_PLAT_NR -> Forall (uint 32) plat -> Forall (fun p => reached nr p (total plat) = true) l ->
  exists s ovals mn mx, calc_clat_percentiles plat nr plist = Some (s, ovals, mn, mx) /\
    s ≡ₚ l /\ sorted_by_cmp s /\ length ovals = length l /\
    (forall j v, ovals !! j = Some v -> first_bucket nr s plat 0 0 j v) /\
    mn ∈ ovals /\ mx ∈ ovals /\ Forall (fun v => mn <= v <= mx) ovals.
Proof.
  intros Hne H100 Hpl Hu Hr. unfold calc_clat_percentiles. fold l. pose proof (qsort_perm l) as Hp. pose proof (total_bound plat Hu) as Htot.
  rewrite Hpl in Htot. change FIO_IO_U_PLAT_NR with 1856 in *. assert (Hlen : length (qsort l) = length l) by (by rewrite Hp).
  assert (0 < length l)%nat by (destruct l; [done|cbn; lia]).
  destruct (percentile_for_spec nr (qsort l) ltac:(by rewrite Hp) plat 0 0 0 []) as (ovals & E & _ & He & Hall);
    [|lia|lia|lia|change FIO_IO_U_PLAT_NR with 1856; lia|lia|constructor|by intros ->|].
  { eapply Forall_impl; [|exact Hu]. unfold uint. simpl. lia. }
  specialize (Hall ltac:(unfold reach_first; by rewrite take_ge, Hp by lia)). cbn [Nat.add app] in *.
  assert (Hv : Forall (fun v => 0 <= v <= -1ULL) ovals).
  { apply list.Forall_forall. intros v [j Hj]%list_elem_of_lookup. destruct (He j v Hj) as (m & Hm & _ & _ & Ev).
    apply (plat_value (0 + Z.of_nat m) v); [change FIO_IO_U_PLAT_NR with 1856; lia|exact Ev]. }
  exists (qsort l), ovals, (fold_left Z.min ovals (-1ULL)), (fold_left Z.max ovals 0). split; [destruct l; [done|]; by rewrite E|].
  assert (Hn : ovals <> []) by (intros ->; rewrite Hlen in Hall; cbn [length] in Hall; lia).
  destruct (least_attained ovals (-1ULL)) as [Hm1 Hm2]; [eapply Forall_impl; [|exact Hv]; cbn; lia|done|].
  destruct (greatest_attained ovals 0) as [Hx1 Hx2]; [eapply Forall_impl; [|exact Hv]; cbn; lia|done|].
  split_and!; [done|apply qsort_sorted|lia|done|done|done|]. apply (Forall_and Hm2 Hx2).
Qed.

(** The percentiles 90 and 50 of ten samples. *)
Lemma clat_percentiles_correct_witness :
  exists s ovals mn mx,
    calc_clat_percentiles ([0; 4; 6] ++ replicate 1853 0) 10 [of_int 90; of_int 50; of_int 0] = Some (s, ovals, mn, mx) /\
    length ovals = 2%nat.
Proof.
  destruct (clat_percentiles_correct ([0; 4; 6] ++ replicate 1853 0) 10 [of_int 90; of_int 50; of_int 0])
    as (s & o & mn & mx & H & _ & _ & Hl & _).
  - vm_compute. discriminate.
  - apply (bool_decide_unpack _). vm_compute. exact I.
  - reflexivity.
  - apply (bool_decide_unpack _). vm_compute. exact I.
  - apply (bool_decide_unpack _). vm_compute. exact I.
  - exists s, o, mn, mx. split; [exact H|exact Hl].
Defined.

(** ** Accumulating and merging: proofs *)
Section Merge.
Context {F : Type} {fops : FloatOps F}.

Definition io_stat0 : io_stat F := IoStat 0 (-1ULL) 0 fzero fzero.

(** [init_thread_stat], for the fields of the model. *)
Definition init_thread_stat : thread_stat F :=
  let zeros n := replicate n 0 in
  let st := replicate DDIR_RWDIR_CNT io_stat0 in
  ThreadStat false false io_stat0 st st st st st 0 0 0 0 0
    (zeros FIO_IO_U_MAP_NR) (zeros FIO_IO_U_MAP_NR) (zeros FIO_IO_U_MAP_NR)
    (zeros FIO_IO_U_LAT_N_NR) (zeros FIO_IO_U_LAT_U_NR) (zeros FIO_IO_U_LAT_M_NR)
    (replicate DDIR_RWDIR_CNT (zeros (Z.to_nat FIO_IO_U_PLAT_NR))) (zeros (Z.to_nat FIO_IO_U_PLAT_NR))
    (zeros DDIR_RWDIR_SYNC_CNT) (zeros DDIR_RWDIR_CNT) (zeros DDIR_RWDIR_CNT) 0 0
    (zeros DDIR_RWDIR_CNT) (zeros DDIR_RWDIR_CNT) 0.

(** The latencies recorded for direction [d] in a history of samples. *)
Definition vals (d : Z) (evs : list (Z * Z)) : list Z := snd <$> filter (fun e => fst e = d) evs.

Definition in_bucket (i : Z) (l : list Z) : Z := Z.of_nat (length (filter (fun v => plat_val_to_idx v = i) l)).

(** The integer part of an [io_stat] that has seen the latencies [l]. *)
Definition stat_repr (st : io_stat F) (l : list Z) : Prop :=
  samples st = u64 (Z.of_nat (length l)) /\
  min_val st = foldr Z.min (-1ULL) l /\ max_val st = foldr Z.max 0 l.

Definition plat_repr (row : list Z) (l : list Z) : Prop :=
  length row = Z.to_nat FIO_IO_U_PLAT_NR /\
  forall i : nat, (i < Z.to_nat FIO_IO_U_PLAT_NR)%nat -> row !! i = Some (u32 (in_bucket (Z.of_nat i) l)).

(** A thread's statistics represent a history of (direction, latency) samples. *)
Definition repr (ts : thread_stat F) (evs : list (Z * Z)) : Prop :=
  length (clat_stat ts) = DDIR_RWDIR_CNT /\ length (io_u_plat ts) = DDIR_RWDIR_CNT /\
  forall d st row, clat_stat ts !! d = Some st -> io_u_plat ts !! d = Some row ->
    stat_repr st (vals (Z.of_nat d) evs) /\ plat_repr row (vals (Z.of_nat d) evs).

Lemma vals_app d xs ys : vals d (xs ++ ys) = vals d xs ++ vals d ys.
Proof. unfold vals. by rewrite list.filter_app, fmap_app. Qed.

Lemma vals_one d e v : vals d [(e, v)] = if decide (e = d) then [v] else [].
Proof. unfold vals. rewrite filter_cons. simpl. by destruct (decide _). Qed.

Lemma in_bucket_app i xs ys : in_bucket i (xs ++ ys) = in_bucket i xs + in_bucket i ys.
Proof. unfold in_bucket. rewrite list.filter_app, length_app. lia. Qed.

Lemma foldr_min_app a xs ys : foldr Z.min a (xs ++ ys) = Z.min (foldr Z.min a xs) (foldr Z.min a ys).
Proof.
  induction xs as [|x xs IH]; simpl; [|lia].
  enough (foldr Z.min a ys <= a) by lia. clear. induction ys; simpl; lia.
Qed.

Lemma foldr_max_app a xs ys : foldr Z.max a (xs ++ ys) = Z.max (foldr Z.max a xs) (foldr Z.max a ys).
Proof.
  induction xs as [|x xs IH]; simpl; [|lia].
  enough (a <= foldr Z.max a ys) by lia. clear. induction ys; simpl; lia.
Qed.

Lemma wrap_add w x y : 0 <= w -> wrap w (wrap w x + wrap w y) = wrap w (x + y).
Proof. intros. rewrite wrap_add_l, wrap_add_r by done. done. Qed.

(** Merging two running statistics is running over both histories. *)
Lemma sum_stat_repr a b first xs ys :
  Z.of_nat (length ys) < 2 ^ 64 -> stat_repr a xs -> stat_repr b ys ->
  stat_repr (sum_stat a b first) (xs ++ ys).
Proof.
  intros Hl (Ha1 & Ha2 & Ha3) (Hb1 & Hb2 & Hb3). unfold sum_stat.
  rewrite (wrap_small 64) in Hb1 by (unfold uint; lia).
  destruct (Z.eqb_spec (samples b) 0) as [E|E].
  { destruct ys; [by rewrite app_nil_r|simpl in *; lia]. }
  destruct (if first then _ else _) as [m s]. unfold stat_repr. cbn [samples min_val max_val].
  rewrite length_app, foldr_min_app, foldr_max_app, Nat2Z.inj_add, Ha1, Hb1, Ha2, Ha3, Hb2, Hb3.
  rewrite wrap_add_l by lia. done.
Qed.

Lemma add_stat_repr st x l : stat_repr st l -> stat_repr (add_stat_sample st x) (l ++ [x]).
Proof.
  intros (H1 & H2 & H3). unfold add_stat_sample. destruct (if negb _ then _ else _) as [m s].
  unfold stat_repr. cbn [samples min_val max_val].
  rewrite length_app, foldr_min_app, foldr_max_app, Nat2Z.inj_add. simpl.
  rewrite H1, H2, H3. rewrite wrap_add_l by lia.
  assert (foldr Z.min (-1ULL) l <= -1ULL) by (clear; induction l; simpl; lia).
  assert (0 <= foldr Z.max 0 l) by (clear; induction l; simpl; lia).
  split; [done|]. split; zcase; lia.
Qed.

Lemma add_first_lookup w n d s i : length d = n -> length s = n ->
  add_first w n d s !! i =
    match d !! i, s !! i with Some x, Some y => Some (wrap w (x + y)) | _, _ => None end.
Proof.
  intros Hd Hs. unfold add_first. rewrite !take_ge, drop_ge, app_nil_r by lia.
  rewrite lookup_zip_with. destruct (d !! i), (s !! i); done.
Qed.

Lemma plat_sum_repr a b xs ys : plat_repr a xs -> plat_repr b ys ->
  plat_repr (add_first 32 (Z.to_nat FIO_IO_U_PLAT_NR) a b) (xs ++ ys).
Proof.
  intros [La Ha] [Lb Hb]. split.
  - unfold add_first. rewrite !take_ge, drop_ge, app_nil_r, length_zip_with by lia. lia.
  - intros i Hi. rewrite add_first_lookup, Ha, Hb by done. simpl.
    by rewrite wrap_add, in_bucket_app by lia.
Qed.

Lemma bump_repr row x l : 0 <= x < 2 ^ 64 -> plat_repr row l ->
  exists row', bump row (plat_val_to_idx x) = Some row' /\ plat_repr row' (l ++ [x]).
Proof.
  intros Hx [Hl Hr]. pose proof (plat_idx_bound x Hx) as Hi.
  set (k := plat_val_to_idx x) in *. unfold bump.
  assert (arr_get row k = Some (u32 (in_bucket k l))) as Hg.
  { apply arr_get_Some. split; [lia|]. rewrite Hr by lia. by rewrite Z2Nat.id by lia. }
  rewrite Hg. cbn [mbind option_bind]. rewrite arr_set_Some by lia. eexists. split; [done|].
  split; [by rewrite length_insert|]. intros i Hib. rewrite in_bucket_app.
  unfold in_bucket at 3. rewrite filter_cons, filter_nil. fold k.
  destruct (decide (i = Z.to_nat k)) as [->|Hne].
  - rewrite list_lookup_insert_eq by lia. rewrite Z2Nat.id by lia. rewrite decide_True by done.
    simpl. by rewrite wrap_add_l by lia.
  - rewrite list_lookup_insert_ne by done. rewrite Hr by done. rewrite decide_False by lia.
    simpl. by rewrite Z.add_0_r.
Qed.

Lemma init_repr : repr init_thread_stat [].
Proof.
  split; [done|]. split; [done|]. intros d st row Hst Hrow.
  cbn [init_thread_stat clat_stat io_u_plat] in Hst, Hrow.
  apply lookup_replicate in Hst as [-> _]. apply lookup_replicate in Hrow as [-> _].
  split; [done|]. split; [by rewrite length_replicate|]. intros i Hi.
  rewrite lookup_replicate_2 by done. done.
Qed.

Lemma add_clat_repr ts evs d x :
  clat_percentiles ts = true -> 0 <= d < 3 -> 0 <= x < 2 ^ 64 -> repr ts evs ->
  exists ts', add_clat_sample ts d x = Some ts' /\ repr ts' (evs ++ [(d, x)]) /\
    clat_percentiles ts' = true /\ unified_rw_rep ts' = unified_rw_rep ts.
Proof.
  intros Hp Hd Hx (L1 & L2 & Hr). change DDIR_RWDIR_CNT with 3%nat in *.
  destruct (arr_get_is_Some (clat_stat ts) d) as [st Hst]; [lia|].
  destruct (arr_get_is_Some (io_u_plat ts) d) as [row Hrow]; [lia|].
  unfold add_clat_sample, add_clat_percentile_sample. rewrite Hst, Hp. cbn [mbind option_bind].
  pose proof (plat_idx_bound x Hx) as Hi. rewrite (proj2 (Z.ltb_lt _ _)) by apply Hi.
  rewrite arr_set_Some by lia. cbn [assert mbind option_bind]. rewrite Hrow. cbn [mbind option_bind].
  apply arr_get_Some in Hst as [_ Hst]. apply arr_get_Some in Hrow as [_ Hrow].
  destruct (Hr _ _ _ Hst Hrow) as [Hs Hpl]. rewrite Z2Nat.id in Hs, Hpl by lia.
  destruct (bump_repr row x _ Hx Hpl) as (row' & -> & Hrow'). cbn [mbind option_bind].
  rewrite arr_set_Some by lia. cbn [mbind option_bind]. eexists. split; [done|].
  split; [|done]. split; [cbn; by rewrite length_insert|]. split; [cbn; by rewrite length_insert|].
  cbn [set_clat clat_stat io_u_plat]. intros d' st2 row2 H1 H2. rewrite vals_app, vals_one.
  destruct (decide (d = Z.of_nat d')) as [->|Hne].
  - rewrite Nat2Z.id in *. rewrite list_lookup_insert_eq in H1 by lia. rewrite list_lookup_insert_eq in H2 by lia.
    injection H1 as <-. injection H2 as <-. split; [by apply add_stat_repr|done].
  - rewrite list_lookup_insert_ne in H1 by lia. rewrite list_lookup_insert_ne in H2 by lia. rewrite app_nil_r. by apply Hr.
Qed.

Lemma sum_thread_repr a b first xs ys :
  unified_rw_rep a = false -> Z.of_nat (length ys) < 2 ^ 64 -> repr a xs -> repr b ys ->
  repr (sum_thread_stats a b first) (xs ++ ys).
Proof.
  intros Hu Hl (La1 & La2 & Ha) (Lb1 & Lb2 & Hb). unfold sum_thread_stats.
  split; [|split]; cbn [clat_stat io_u_plat]; rewrite Hu; cbn [sum_ddir].
  1,2: rewrite length_zip_with; lia.
  intros d st row Hst Hrow. rewrite lookup_zip_with in Hst. rewrite lookup_zip_with in Hrow.
  destruct (clat_stat a !! d) as [sa|] eqn:E1; [|done].
  destruct (clat_stat b !! d) as [sb|] eqn:E2; [|done].
  destruct (io_u_plat a !! d) as [ra|] eqn:E3; [|done].
  destruct (io_u_plat b !! d) as [rb|] eqn:E4; [|done]. cbn in Hst, Hrow.
  injection Hst as <-. injection Hrow as <-.
  destruct (Ha _ _ _ E1 E3) as [Sa Pa], (Hb _ _ _ E2 E4) as [Sb Pb]. rewrite vals_app.
  split; [apply sum_stat_repr; [|done..]|by apply plat_sum_repr].
  unfold vals. rewrite length_fmap.
  pose proof (length_filter (fun e : Z * Z => fst e = Z.of_nat d) ys). lia.
Qed.

(** A history of samples, recorded one by one. *)
Fixpoint record_samples (ts : thread_stat F) (evs : list (Z * Z)) : option (thread_stat F) :=
  match evs with
  | [] => Some ts
  | (d, x) :: evs => ts ← add_clat_sample ts d x; record_samples ts evs
  end.

Definition sample_ok (e : Z * Z) : Prop := 0 <= fst e < 3 /\ 0 <= snd e < 2 ^ 64.

Lemma record_repr evs : forall ts hist,
  Forall sample_ok evs -> clat_percentiles ts = true -> repr ts hist ->
  exists ts', record_samples ts evs = Some ts' /\ repr ts' (hist ++ evs) /\
    unified_rw_rep ts' = unified_rw_rep ts.
Proof.
  induction evs as [|[d x] evs IH]; intros ts hist Hok Hp Hr; cbn [record_samples].
  { exists ts. by rewrite app_nil_r. }
  apply Forall_cons_iff in Hok as [[Hd Hx] Hok].
  destruct (add_clat_repr ts hist d x Hp Hd Hx Hr) as (ts1 & -> & Hr1 & Hp1 & Hu1).
  cbn [mbind option_bind]. destruct (IH ts1 (hist ++ [(d, x)]) Hok Hp1 Hr1) as (ts2 & -> & Hr2 & Hu2).
  exists ts2. rewrite <- app_assoc in Hr2. split_and!; [done|done|congruence].
Qed.
End Merge.

(** C21. Recording and merging completion latencies is exact on the counts.  For
    two threads with fresh statistics, percentiles on and directions reported
    apart, that each record any history of completion latencies, the merged
    [clat_stat] and [io_u_plat] of each direction have the sample count, minimum,
    maximum and every histogram bucket of the concatenated history (counts modulo
    the width of their counters); the floating-point moments and the other
    statistics are not part of this. *)
Theorem stats_merge_exact {F} {fops : FloatOps F} (t1 t2 : thread_stat F) first xs ys :
  clat_percentiles t1 = true -> clat_percentiles t2 = true -> unified_rw_rep t1 = false ->
  repr t1 [] -> repr t2 [] ->
  Forall sample_ok xs -> Forall sample_ok ys -> Z.of_nat (length ys) < 2 ^ 64 ->
  exists a b, record_samples t1 xs = Some a /\ record_samples t2 ys = Some b /\
    repr (sum_thread_stats a b first) (xs ++ ys).
Proof.
  intros P1 P2 U1 R1 R2 Hx Hy Hl.
  destruct (record_repr xs t1 [] Hx P1 R1) as (a & Ea & Ra & Ua).
  destruct (record_repr ys t2 [] Hy P2 R2) as (b & Eb & Rb & _).
  exists a, b. split_and!; [done..|]. apply sum_thread_repr; [congruence|done..].
Qed.

(** IEEE doubles discharge the interface. *)
#[export] Instance double_float : FloatOps double := {
  fzero := of_int 0; fof := of_int; fadd := dadd; fsub := dsub; fmul := dmul; fdiv := ddiv;
  fis0 := SpecFloat.SFeqb (of_int 0)
}.

(** A thread that reports percentiles, directions apart. *)
Definition job_stat : thread_stat double :=
  let t := @init_thread_stat double double_float in
  ThreadStat false true (sync_stat t) (clat_stat t) (slat_stat t) (lat_stat t) (bw_stat t)
    (iops_stat t) 0 0 0 0 0 (io_u_map t) (io_u_submit t) (io_u_complete t) (io_u_lat_n t)
    (io_u_lat_u t) (io_u_lat_m t) (io_u_plat t) (io_u_sync_plat t) (total_io_u t) (short_io_u t)
    (drop_io_u t) 0 0 (io_bytes t) (runtime t) 0.

Lemma stats_merge_exact_witness :
  exists a b, @record_samples double double_float job_stat [(0, 5); (1, 1000)] = Some a /\
    @record_samples double double_float job_stat [(0, 70)] = Some b /\
    repr (@sum_thread_stats double double_float a b true) [(0, 5); (1, 1000); (0, 70)].
Proof.
  apply (@stats_merge_exact double double_float job_stat job_stat true [(0, 5); (1, 1000)] [(0, 70)]).
  - reflexivity.
  - reflexivity.
  - reflexivity.
  - exact (@init_repr double double_float).
  - exact (@init_repr double double_float).
  - repeat constructor; simpl; lia.
  - repeat constructor; simpl; lia.
  - simpl. lia.
Defined.

(** Two places where statistics are lost: [sum_thread_stats] stops at the
    ten nanosecond buckets in the millisecond array, so the two slowest of its
    twelve buckets are never merged; and [reset_io_stat] (run after the ramp
    time) resets the minimum to 0, where it stays whatever is recorded. *)
Theorem stats_lost {F} {fops : FloatOps F} (dst src : thread_stat F) first (st : io_stat F) xs :
  length (io_u_lat_m dst) = FIO_IO_U_LAT_M_NR -> length (io_u_lat_m src) = FIO_IO_U_LAT_M_NR ->
  Forall (fun x => 0 <= x) xs ->
  drop 10 (io_u_lat_m (sum_thread_stats dst src first)) = drop 10 (io_u_lat_m dst) /\
  min_val (fold_left add_stat_sample xs (reset_io_stat st)) = 0.
Proof.
  intros Hd Hs Hx. split.
  - cbn [sum_thread_stats io_u_lat_m]. unfold add_first. change FIO_IO_U_LAT_N_NR with 10%nat.
    change FIO_IO_U_LAT_M_NR with 12%nat in *.
    rewrite drop_app_ge; rewrite length_zip_with, !length_take; [|lia].
    by replace (10 - min (min 10 _) (min 10 _))%nat with 0%nat by lia.
  - enough (forall s, min_val s = 0 -> min_val (fold_left add_stat_sample xs s) = 0) as H by by apply H.
    induction Hx as [|x xs Hx0 _ IH]; intros s H; [done|]. cbn [fold_left]. apply IH.
    unfold add_stat_sample. destruct (if negb _ then _ else _). cbn [min_val]. zcase; lia.
Qed.

Lemma stats_lost_witness :
  drop 10 (io_u_lat_m (@sum_thread_stats double double_float job_stat job_stat false)) = [0; 0] /\
  min_val (fold_left (@add_stat_sample double double_float) [7; 9] (@reset_io_stat double double_float (@io_stat0 double double_float))) = 0.
Proof.
  apply (@stats_lost double double_float job_stat job_stat false (@io_stat0 double double_float) [7; 9]).
  - reflexivity.
  - reflexivity.
  - repeat constructor; lia.
Defined.
