(* ===== verification/Flags.v ===== *)
(** * Flag words

    [x |= f], [x &= ~f] and [x & f] on words whose flags are single bits, and
    the rewriting that evaluates a test after any sequence of updates. *)
From S2P Require Import Prelude.

Definition flag (k : Z) : Z := Z.shiftl 1 k.
Definition isset (x f : Z) : bool := negb (Z.land x f =? 0).
Definition set_flags (x f : Z) : Z := Z.lor x f.
Definition clear_flags (x f : Z) : Z := Z.ldiff x f.

Create HintDb flags.

Lemma isset_testbit x k : 0 <= k -> isset x (flag k) = Z.testbit x k.
Proof.
  intros Hk. unfold isset, flag. rewrite Z.shiftl_1_l, <- (Z.mul_1_l (2 ^ k)).
  destruct (Z.testbit x k) eqn:E.
  - apply negb_true_iff, Z.eqb_neq. intros H0.
    assert (Ht : Z.testbit (Z.land x (1 * 2 ^ k)) k = true).
    { rewrite Z.land_spec, E, Z.mul_1_l, Z.pow2_bits_true by done. done. }
    rewrite H0, Z.bits_0 in Ht. done.
  - apply negb_false_iff, Z.eqb_eq. apply Z.bits_inj'. intros i Hi.
    rewrite Z.land_spec, Z.mul_1_l, Z.bits_0. destruct (decide (i = k)) as [->|].
    + by rewrite E.
    + rewrite Z.pow2_bits_false by lia. apply andb_false_r.
Qed.

Lemma isset_set x f k : 0 <= k -> isset (set_flags x f) (flag k) = isset x (flag k) || isset f (flag k).
Proof. intros. rewrite !isset_testbit by done. apply Z.lor_spec. Qed.

Lemma isset_clear x f k : 0 <= k ->
  isset (clear_flags x f) (flag k) = isset x (flag k) && negb (isset f (flag k)).
Proof. intros. rewrite !isset_testbit by done. apply Z.ldiff_spec. Qed.

Lemma isset_0 f : isset 0 f = false.
Proof. unfold isset. by rewrite Z.land_0_l. Qed.

(** Evaluate the flag tests of the goal and of hypothesis-free booleans: an
    update of constants is computed, a test of a variable word stays. *)
Ltac flags_in_goal :=
  repeat first [rewrite isset_set by lia | rewrite isset_clear by lia];
  repeat match goal with
  | |- context [isset (flag ?a) (flag ?b)] =>
      let v := eval vm_compute in (isset (flag a) (flag b)) in change (isset (flag a) (flag b)) with v
  end; cbn [negb orb andb]; rewrite ?andb_true_r, ?andb_false_r, ?orb_true_r, ?orb_false_r.
