(* ===== verification/Time.v ===== *)
(** * Elapsed time and sleeping: [gettime.c], [time.c]

    The arithmetic on [struct timespec] behind every latency, rate and timeout,
    and the two ways to wait: [usec_spin] and [usec_sleep].  The results of
    [fio_gettime] are a sequence [clock], those of [nanosleep] a function of
    the call and its request, and [td->terminate] a function of the round. *)
From S2P Require Import Prelude.

Record timespec := Timespec { tv_sec : Z; tv_nsec : Z }.
Record timeval := Timeval { v_sec : Z; v_usec : Z }.

(** ** Differences *)

(** One carry from the seconds, and [0] for a clock that runs backwards. *)
Definition borrow (sec sub unit : Z) : Z * Z :=
  if (0 <? sec) && (sub <? 0) then (sec - 1, sub + unit) else (sec, sub).
Definition time_warp (sec sub : Z) : bool := (sec <? 0) || ((sec =? 0) && (sub <? 0)).

Definition ntime_since (s e : timespec) : Z :=
  let sec := tv_sec e - tv_sec s in
  let nsec := tv_nsec e - tv_nsec s in
  let '(sec, nsec) := borrow sec nsec 1000000000 in
  if time_warp sec nsec then 0 else u64 (nsec + sec * 1000000000).

Definition utime_since (s e : timespec) : Z :=
  let sec := tv_sec e - tv_sec s in
  let usec := Z.quot (tv_nsec e - tv_nsec s) 1000 in
  let '(sec, usec) := borrow sec usec 1000000 in
  if time_warp sec usec then 0 else u64 (usec + sec * 1000000).

Definition mtime_since (s e : timespec) : Z :=
  let sec := tv_sec e - tv_sec s in
  let usec := Z.quot (tv_nsec e - tv_nsec s) 1000 in
  let '(sec, usec) := borrow sec usec 1000000 in
  if time_warp sec usec then 0 else u64 (sec * 1000 + Z.quot usec 1000).

Definition mtime_since_tv (s e : timeval) : Z :=
  let sec := v_sec e - v_sec s in
  let usec := v_usec e - v_usec s in
  let '(sec, usec) := borrow sec usec 1000000 in
  if time_warp sec usec then 0 else u64 (sec * 1000 + Z.quot usec 1000).

Definition timespec_add_msec (ts : timespec) (msec : Z) : timespec :=
  let adj_nsec := u64 (1000000 * msec) in
  let nsec := tv_nsec ts + adj_nsec in
  let '(sec, nsec) :=
    if 1000000000 <=? adj_nsec then
      let adj_sec := adj_nsec / 1000000000 in
      (tv_sec ts + adj_sec, nsec - adj_sec * 1000000000)
    else (tv_sec ts, nsec) in
  if 1000000000 <=? nsec then Timespec (sec + 1) (nsec - 1000000000) else Timespec sec nsec.

(** ** Waiting *)
Section wait.
Context (clock : nat -> timespec) (nanosleep : nat -> timespec -> bool) (terminate : nat -> bool).
Context (ns_granularity : Z).

(** [while ((t = utime_since_now(&start)) < usec)]; [n] is the next reading. *)
Fixpoint spin_loop (fuel : nat) (start : timespec) (usec : Z) (n : nat) : option (nat * Z) :=
  match fuel with
  | O => None
  | S fuel =>
      let t := utime_since start (clock n) in
      if t <? usec then spin_loop fuel start usec (S n) else Some (S n, t)
  end.

Definition usec_spin (fuel : nat) (usec : Z) (n : nat) : option (nat * Z) :=
  spin_loop fuel (clock n) (u32 usec) (S n).

Definition sleep_request (ts : Z) : timespec :=
  if 1000000 <=? ts then Timespec (ts / 1000000) ((ts - 1000000 * (ts / 1000000)) * 1000)
  else Timespec 0 (ts * 1000).

(** The loop of [usec_sleep] in round [k]; the result is the next reading, the
    time slept, and whether the wait was cut short. *)
Fixpoint sleep_loop (fuel : nat) (usec t : Z) (n k : nat) : option (nat * Z * bool) :=
  match fuel with
  | O => None
  | S fuel =>
      if usec <? ns_granularity then
        '(n, s) ← usec_spin fuel usec n; Some (n, u64 (t + s), false)
      else if negb (nanosleep k (sleep_request (usec - ns_granularity))) then Some (S n, t, true)
      else
        let ts := utime_since (clock n) (clock (S n)) in
        let t := u64 (t + ts) in
        if usec <=? ts then Some (S (S n), t, false)
        else if terminate k then Some (S (S n), t, true)
        else sleep_loop fuel (usec - ts) t (S (S n)) (S k)
  end.

Definition usec_sleep (fuel : nat) (usec : Z) (n : nat) : option (nat * Z * bool) :=
  sleep_loop fuel usec 0 n 0.
End wait.

(** ** What the differences are *)
Definition NS : Z := 1000000000.
Definition nsec_of (t : timespec) : Z := tv_sec t * NS + tv_nsec t.

(** A time as the kernel gives it, up to some 250 years after the epoch. *)
Definition time_ok (t : timespec) : Prop := 0 <= tv_sec t < 2 ^ 33 /\ 0 <= tv_nsec t < NS.

Lemma borrow_spec sec sub unit : 0 < unit -> - unit < sub < unit ->
  let '(sec', sub') := borrow sec sub unit in
  let d := sec * unit + sub in
  sec' * unit + sub' = d /\ (time_warp sec' sub' = true <-> d < 0) /\
  (0 <= d -> 0 <= sec' /\ 0 <= sub' < unit).
Proof.
  intros Hu Hs. unfold borrow, time_warp.
  destruct (Z.ltb_spec 0 sec), (Z.ltb_spec sub 0); cbn [andb];
    rewrite orb_true_iff, andb_true_iff, !Z.ltb_lt, Z.eqb_eq; (split; [lia|]); (split; [|nia]);
    (split; [intros [?|[? ?]]; nia|intros ?; destruct (decide (sec < 0)); first [exfalso; nia|left; lia|right; nia]]).
Qed.

Lemma ntime_since_eq s e : time_ok s -> time_ok e ->
  ntime_since s e = Z.max 0 (nsec_of e - nsec_of s).
Proof.
  intros [Hs1 Hs2] [He1 He2]. unfold ntime_since, NS in *.
  pose proof (borrow_spec (tv_sec e - tv_sec s) (tv_nsec e - tv_nsec s) 1000000000 ltac:(lia) ltac:(lia)) as Hb.
  destruct (borrow _ _ _) as [sec sub]. destruct Hb as (E&Hw&Hp).
  assert (Hd : nsec_of e - nsec_of s = sub + sec * 1000000000) by (unfold nsec_of, NS; lia).
  destruct (time_warp sec sub); [pose proof (proj1 Hw eq_refl); lia|].
  assert (0 <= (tv_sec e - tv_sec s) * 1000000000 + (tv_nsec e - tv_nsec s))
    by (destruct (Z.le_gt_cases 0 ((tv_sec e - tv_sec s) * 1000000000 + (tv_nsec e - tv_nsec s)));
        [done|by apply Hw in H]).
  rewrite wrap_small by (unfold uint; lia). lia.
Qed.

(** Elapsed microseconds and milliseconds, from the same rounded parts. *)
Lemma utime_parts s e : time_ok s -> time_ok e ->
  let q := Z.quot (tv_nsec e - tv_nsec s) 1000 in
  let d := (tv_sec e - tv_sec s) * 1000000 + q in
  utime_since s e = Z.max 0 d /\ mtime_since s e = Z.max 0 d / 1000 /\
  nsec_of e - nsec_of s - 1000 < 1000 * d < nsec_of e - nsec_of s + 1000.
Proof.
  intros [Hs1 Hs2] [He1 He2]. cbn zeta. unfold NS in *.
  set (x := tv_nsec e - tv_nsec s). set (q := Z.quot x 1000).
  assert (Hq : 1000 * q - 1000 < x < 1000 * q + 1000 /\ - 1000000 < q < 1000000).
  { assert (- 1000000000 < x < 1000000000) by (unfold x; lia).
    clearbody x. unfold q. Z.to_euclidean_division_equations. lia. }
  unfold utime_since, mtime_since. fold x. fold q.
  pose proof (borrow_spec (tv_sec e - tv_sec s) q 1000000 ltac:(lia) ltac:(lia)) as Hb.
  destruct (borrow _ _ _) as [sec sub]. destruct Hb as (E&Hw&Hp).
  split; [|split]; [..|unfold nsec_of, NS; fold x; lia].
  - destruct (time_warp sec sub); [pose proof (proj1 Hw eq_refl); lia|].
    rewrite wrap_small; [|unfold uint]; destruct (Z.le_gt_cases 0 ((tv_sec e - tv_sec s) * 1000000 + q)) as [|Hn];
      try lia; by apply Hw in Hn.
  - destruct (time_warp sec sub); [pose proof (proj1 Hw eq_refl); rewrite Z.max_l by lia; done|].
    destruct (Z.le_gt_cases 0 ((tv_sec e - tv_sec s) * 1000000 + q)) as [Hd|Hn]; [|by apply Hw in Hn].
    specialize (Hp Hd). rewrite Z.quot_div_nonneg, Z.max_r by lia.
    rewrite <- E. replace (sec * 1000000 + sub) with (sec * 1000 * 1000 + sub) by lia.
    rewrite Z.div_add_l by lia. assert (sub / 1000 < 1000) by (apply Z.div_lt_upper_bound; lia).
    assert (0 <= sub / 1000) by (apply Z.div_pos; lia).
    rewrite wrap_small by (unfold uint; nia). done.
Qed.

(** Between two times the nanoseconds are exact, the microseconds are off by
    less than one, the milliseconds are the microseconds divided, and a clock
    that runs backwards counts as no time at all. *)
Theorem elapsed_correct s e : time_ok s -> time_ok e ->
  let d := Z.max 0 (nsec_of e - nsec_of s) in
  ntime_since s e = d /\ Z.abs (1000 * utime_since s e - d) < 1000 /\
  mtime_since s e = utime_since s e / 1000 /\ (nsec_of e <= nsec_of s -> utime_since s e = 0).
Proof.
  intros Hs He. cbn zeta. rewrite ntime_since_eq by done.
  destruct (utime_parts s e Hs He) as (->&->&Hr). split_and!; [done|lia|done|lia].
Qed.

(** A nanosecond before a full second later counts as the full second. *)
Lemma elapsed_correct_witness :
  let s := Timespec 5 500 in let e := Timespec 6 499 in
  ntime_since s e = 999999999 /\ utime_since s e = 1000000 /\
  Z.abs (1000 * utime_since s e - ntime_since s e) < 1000.
Proof.
  cbn zeta. destruct (elapsed_correct (Timespec 5 500) (Timespec 6 499)) as (E&Hu&_);
    [unfold time_ok, NS; cbn; lia..|]. rewrite E. split; [reflexivity|]. split; [reflexivity|exact Hu].
Defined.

(** Adding milliseconds to a time adds just that and leaves it normalised. *)
Theorem timespec_add_msec_correct ts msec : time_ok ts -> uint 32 msec ->
  let ts' := timespec_add_msec ts msec in
  nsec_of ts' = nsec_of ts + 1000000 * msec /\ 0 <= tv_nsec ts' < NS.
Proof.
  intros [Hs Hn] Hm. cbn zeta. unfold timespec_add_msec, nsec_of, uint, NS in *.
  rewrite wrap_small by (unfold uint; lia).
  pose proof (Z.div_mod (1000000 * msec) 1000000000 ltac:(lia)).
  pose proof (Z.mod_pos_bound (1000000 * msec) 1000000000 ltac:(lia)).
  destruct (Z.leb_spec 1000000000 (1000000 * msec)); zcase; cbn [tv_sec tv_nsec]; lia.
Qed.

Lemma timespec_add_msec_correct_witness :
  let ts' := timespec_add_msec (Timespec 1 999999999) 1001 in
  ts' = Timespec 3 999999 /\ nsec_of ts' = 1999999999 + 1000000 * 1001.
Proof.
  cbn zeta. split; [reflexivity|].
  destruct (timespec_add_msec_correct (Timespec 1 999999999) 1001) as [E _]; [unfold time_ok, NS; cbn; lia|unfold uint; lia|].
  exact E.
Defined.

(** ** Waits end, and last *)
Section waits.
Context (clock : nat -> timespec) (nanosleep : nat -> timespec -> bool) (terminate : nat -> bool).
Context (gran : Z) (Hgran : uint 32 gran).

(** From reading [a] to reading [b] the clock is a time, and moves on by at
    least a microsecond per reading. *)
Definition ticking (a b : nat) : Prop :=
  forall n, (a <= n < b)%nat -> time_ok (clock n) /\ time_ok (clock (S n)) /\
    nsec_of (clock n) + 1000 <= nsec_of (clock (S n)).

Lemma ticking_sub a b a' b' : ticking a b -> (a <= a')%nat -> (b' <= b)%nat -> ticking a' b'.
Proof. intros H ? ? n ?. apply H. lia. Qed.

Lemma ticking_far a b k : ticking a b -> (a + S k <= b)%nat ->
  time_ok (clock a) /\ time_ok (clock (a + S k)) /\
  nsec_of (clock a) + 1000 * (Z.of_nat k + 1) <= nsec_of (clock (a + S k)).
Proof.
  intros Ht. induction k as [|k IH]; intros Hk.
  - destruct (Ht a ltac:(lia)) as (H1&H2&H3). rewrite Nat.add_1_r. split_and!; try done; lia.
  - destruct (IH ltac:(lia)) as (H1&H2&H3). destruct (Ht (a + S k)%nat ltac:(lia)) as (_&H5&H6).
    replace (a + S (S k))%nat with (S (a + S k)) by lia. split_and!; try done; lia.
Qed.

Lemma ticking_utime a b k : ticking a b -> (a + S k <= b)%nat ->
  Z.of_nat k + 1 <= utime_since (clock a) (clock (a + S k)) < 2 ^ 54.
Proof.
  intros Ht Hk. destruct (ticking_far a b k Ht Hk) as (Ha&Hb&Hd).
  destruct (utime_parts _ _ Ha Hb) as (->&_&Hr). unfold nsec_of, time_ok, NS in *. lia.
Qed.

Lemma spin_ends usec b a : ticking a b -> 0 <= usec -> forall fuel k,
  Z.of_nat (a + k) + Z.max 1 (usec - Z.of_nat k) <= Z.of_nat b -> usec - Z.of_nat k < Z.of_nat fuel -> (0 < fuel)%nat ->
  exists n' t, spin_loop clock fuel (clock a) usec (a + S k) = Some (n', t) /\ usec <= t < 2 ^ 54 /\ (n' <= S b)%nat.
Proof.
  intros Ht Hu. induction fuel as [|fuel IH]; intros k Hb Hf H0; [lia|]. cbn [spin_loop].
  pose proof (ticking_utime a b k Ht ltac:(lia)) as Htk.
  destruct (Z.ltb_spec (utime_since (clock a) (clock (a + S k))) usec).
  - replace (S (a + S k)) with (a + S (S k))%nat by lia. apply IH; lia.
  - eexists _, _. split; [reflexivity|]. lia.
Qed.

Lemma sleep_ends b : forall fuel usec t n k,
  0 <= usec -> 0 <= t -> usec + t < 2 ^ 63 -> ticking n b ->
  Z.of_nat n + 2 * usec + 1 <= Z.of_nat b -> 2 * usec + 2 <= Z.of_nat fuel ->
  exists n' t' cut, sleep_loop clock nanosleep terminate gran fuel usec t n k = Some (n', t', cut) /\
    (cut = false -> usec + t <= t') /\
    ((forall j r, nanosleep j r = true) -> (forall j, terminate j = false) -> cut = false).
Proof.
  induction fuel as [|fuel IH]; intros usec t n k Hu H0 Hm Ht Hb Hf; [lia|]. cbn [sleep_loop].
  destruct (Z.ltb_spec usec gran) as [Hlt|Hge].
  - unfold usec_spin. rewrite wrap_small by (unfold uint in *; lia).
    destruct (spin_ends usec b n Ht Hu fuel 0) as (n'&s&E&Hs&_); try lia.
    replace (n + 1)%nat with (S n) in E by lia. rewrite E. cbn [mbind option_bind].
    eexists _, _, _. split; [reflexivity|]. split; [|done]. intros _. rewrite wrap_small by (unfold uint; lia). lia.
  - destruct (nanosleep k (sleep_request (usec - gran))) eqn:En; cbn [negb].
    2: { eexists _, _, _. split; [reflexivity|]. split; [done|]. intros Hn. by rewrite Hn in En. }
    destruct (Z.eqb_spec usec 0) as [->|Hne].
    { pose proof (Ht n ltac:(lia)) as (Ha&Hb'&_). destruct (utime_parts _ _ Ha Hb') as (Eu&_&Hr).
      destruct (Z.leb_spec 0 (utime_since (clock n) (clock (S n)))); [|lia].
      eexists _, _, _. split; [reflexivity|]. split; [|done]. intros _.
      unfold nsec_of, time_ok, NS in *. rewrite wrap_small by (unfold uint; lia). lia. }
    pose proof (ticking_utime n b 0 Ht ltac:(lia)) as Htk. rewrite Nat.add_1_r in Htk. cbn [Z.of_nat] in Htk.
    destruct (Z.leb_spec usec (utime_since (clock n) (clock (S n)))).
    + eexists _, _, _. split; [reflexivity|]. split; [|done]. intros _. rewrite wrap_small by (unfold uint; lia). lia.
    + destruct (terminate k) eqn:Et.
      { eexists _, _, _. split; [reflexivity|]. split; [done|]. intros _ Hn. by rewrite Hn in Et. }
      set (ts := utime_since (clock n) (clock (S n))) in *.
      rewrite wrap_small by (unfold uint; lia).
      destruct (IH (usec - ts) (t + ts) (S (S n)) (S k)) as (n'&t'&cut&E&H1&H2); try lia.
      { eapply ticking_sub; [done|lia..]. }
      eexists _, _, _. split; [exact E|]. split; [|done]. intros Hc. specialize (H1 Hc). lia.
Qed.
End waits.

(** On a clock that moves on by a microsecond per reading [usec_sleep] returns
    after at most [2 * usec + 2] rounds; unless the sleep is interrupted or the
    job is stopped, the time it reports is at least the time asked for. *)
Theorem usec_sleep_correct clock nanosleep terminate gran usec n :
  uint 32 gran -> uint 62 usec -> ticking clock n (n + Z.to_nat (2 * usec + 1)) ->
  exists n' t cut,
    usec_sleep clock nanosleep terminate gran (Z.to_nat (2 * usec + 2)) usec n = Some (n', t, cut) /\
    (cut = false -> usec <= t) /\
    ((forall j r, nanosleep j r = true) -> (forall j, terminate j = false) -> cut = false).
Proof.
  intros Hg Hu Ht. unfold uint in Hu.
  destruct (sleep_ends clock nanosleep terminate gran Hg (n + Z.to_nat (2 * usec + 1)) (Z.to_nat (2 * usec + 2)) usec 0 n 0)
    as (n'&t&cut&E&H1&H2); try done; try lia.
  exists n', t, cut. split; [exact E|]. split; [|done]. intros Hc. specialize (H1 Hc). lia.
Qed.

(** A clock that reads 30 microseconds more every time, and a sleep of 100. *)
Definition sample_clock (n : nat) : timespec := Timespec 7 (30000 * Z.of_nat n).

Lemma usec_sleep_correct_witness :
  exists n' t, usec_sleep sample_clock (fun _ _ => true) (fun _ => false) 50 202 100 0 = Some (n', t, false) /\ 100 <= t.
Proof.
  destruct (usec_sleep_correct sample_clock (fun _ _ => true) (fun _ => false) 50 100 0) as (n'&t&cut&E&H1&H2).
  - unfold uint. lia.
  - unfold uint. lia.
  - intros n Hn. unfold time_ok, nsec_of, NS, sample_clock. cbn [tv_sec tv_nsec].
    assert (Z.of_nat n < 201) by lia. lia.
  - specialize (H2 (fun _ _ => eq_refl) (fun _ => eq_refl)). subst cut. exists n', t. exact (conj E (H1 eq_refl)).
Defined.
