(* ===== verification/Files.v ===== *)
(** * Files of a job: references and service order
    ([filesetup.c], [ioengines.c], [io_u.c])

    A file is opened once and closed when its last reference goes: one
    reference belongs to the opening, one to each unit that carries I/O for it.
    The descriptor, the reference count and the flags of [struct fio_file] and
    the file fields of [struct thread_data] are the state; what the engine's
    [open_file] and the system's [close] answer are arguments. *)
From S2P Require Import Prelude Flags Rand CFloat Dist.

Definition FIO_FILE_open : Z := flag 0.
Definition FIO_FILE_closing : Z := flag 1.
Definition FIO_FILE_done : Z := flag 3.

Record fio_file := File { fd : Z; references : Z; fflags : Z }.

Definition fio_file_open (f : fio_file) : bool := isset (fflags f) FIO_FILE_open.
Definition fio_file_closing (f : fio_file) : bool := isset (fflags f) FIO_FILE_closing.
Definition fio_file_done (f : fio_file) : bool := isset (fflags f) FIO_FILE_done.

Definition fio_file_set_open (f : fio_file) : fio_file :=
  File (fd f) (references f) (set_flags (fflags f) FIO_FILE_open).
Definition fio_file_clear_open (f : fio_file) : fio_file :=
  File (fd f) (references f) (clear_flags (fflags f) FIO_FILE_open).
Definition fio_file_set_closing (f : fio_file) : fio_file :=
  File (fd f) (references f) (set_flags (fflags f) FIO_FILE_closing).
Definition fio_file_clear_closing (f : fio_file) : fio_file :=
  File (fd f) (references f) (clear_flags (fflags f) FIO_FILE_closing).
Definition fio_file_set_done (f : fio_file) : fio_file :=
  File (fd f) (references f) (set_flags (fflags f) FIO_FILE_done).

Record files_td := FilesTd {
  files : list fio_file;
  nr_open_files : Z;
  nr_done_files : Z;
  next_file : Z;
  file_service_file : option Z;
  file_service_left : Z
}.

Definition put_files (s : files_td) (l : list fio_file) (nopen : Z) : files_td :=
  FilesTd l nopen (nr_done_files s) (next_file s) (file_service_file s) (file_service_left s).

(** The answers of the engine: [open_file] fails, or gives a descriptor; then
    the checks that follow it in [td_io_open_file] (no random I/O on a pipe,
    cache invalidation, [posix_fadvise], write hint, direct I/O) pass or not. *)
Inductive open_result := OpenFailed | Opened (new_fd : Z) (checks_ok : bool).

(** What happens when the last reference goes: whether [fsync] is due
    ([should_fsync] and [fsync_on_close]) and the two error codes. *)
Record close_env := CloseEnv { fsync_due : bool; fsync_err : Z; close_err : Z }.

Definition upd_file (s : files_td) (i : Z) (f : fio_file) : option files_td :=
  l ← arr_set (files s) i f; Some (put_files s l (nr_open_files s)).

Definition get_file (s : files_td) (i : Z) : option files_td :=
  f ← arr_get (files s) i;
  _ ← assert (fio_file_open f);
  upd_file s i (File (fd f) (references f + 1) (fflags f)).

(** The result is the state and the error code; [generic_close_file] leaves the
    descriptor at -1. *)
Definition put_file (s : files_td) (i : Z) (env : close_env) : option (files_td * Z) :=
  f ← arr_get (files s) i;
  if negb (fio_file_open f) then _ ← assert (fd f =? -1); Some (s, 0) else
  _ ← assert (negb (references f =? 0));
  let r := references f - 1 in
  if negb (r =? 0) then s ← upd_file s i (File (fd f) r (fflags f)); Some (s, 0) else
  let f_ret := if fsync_due env then fsync_err env else 0 in
  let ret := close_err env in
  let ret := if ret =? 0 then f_ret else ret in
  l ← arr_set (files s) i (fio_file_clear_open (File (-1) r (fflags f)));
  Some (put_files s l (u32 (nr_open_files s - 1)), ret).

(** [td_io_open_file]; the result 1 is a failure.  When a check fails after the
    open, the descriptor is closed and nothing else is undone. *)
Definition td_io_open_file (s : files_td) (i : Z) (r : open_result) : option (files_td * Z) :=
  f ← arr_get (files s) i;
  _ ← assert (negb (fio_file_open f));
  _ ← assert (fd f =? -1);
  match r with
  | OpenFailed => Some (s, 1)
  | Opened new_fd checks_ok =>
      let f := fio_file_clear_closing (fio_file_set_open (File new_fd (references f) (fflags f))) in
      l ← arr_set (files s) i f;
      s ← get_file (put_files s l (u32 (nr_open_files s + 1))) i;
      if checks_ok then Some (s, 0) else
      f ← arr_get (files s) i;
      s ← upd_file s i (File (-1) (references f) (fflags f)); Some (s, 1)
  end.

Definition td_io_close_file (s : files_td) (i : Z) (env : close_env) : option (files_td * Z) :=
  f ← arr_get (files s) i;
  s ← upd_file s i (fio_file_set_closing f);
  put_file s i env.

(** ** Service order *)
Inductive pick := PickFile (i : Z) | PickNull | PickErr (e : Z).
Definition EBUSY : Z := 16.

Section service.
Context (nr_files open_files file_service_type file_service_nr : Z) (close : close_env).
Context (pow : double -> double -> double).

Definition set_next (s : files_td) (n : Z) : files_td :=
  FilesTd (files s) (nr_open_files s) (nr_done_files s) n (file_service_file s) (file_service_left s).

Definition flags_fit (f : fio_file) (goodf badf : Z) : bool :=
  ((goodf =? 0) || isset (fflags f) goodf) && negb (isset (fflags f) badf).

(** One pass of the body up to the loop test; [inr] is a [return] or [break]. *)
Definition rr_body (s : files_td) (open_res : Z -> open_result) (goodf badf : Z) :
    option (files_td + files_td * pick) :=
  let i := next_file s in
  f ← arr_get (files s) i;
  let next := u32 (i + 1) in
  let s := set_next s (if nr_files <=? next then 0 else next) in
  if fio_file_done f then Some (inl s) else
  '(s, r) ←
    (if negb (fio_file_open f) then
       if open_files <=? nr_open_files s then Some (s, inr (PickErr EBUSY)) else
       '(s, err) ← td_io_open_file s i (open_res i);
       Some (s, inl (if err =? 0 then Some true else None))
     else Some (s, inl (Some false)));
  match r with
  | inr p => Some (inr (s, p))
  | inl None => Some (inl s)
  | inl (Some opened) =>
      f ← arr_get (files s) i;
      if flags_fit f goodf badf then Some (inr (s, PickFile i)) else
      if (opened : bool) then '(s, _) ← td_io_close_file s i close; Some (inl s) else Some (inl s)
  end.

Fixpoint rr_loop (fuel : nat) (s : files_td) (old_next_file : Z) (open_res : Z -> open_result)
    (goodf badf : Z) : option (files_td * pick) :=
  match fuel with
  | O => None
  | S fuel =>
      r ← rr_body s open_res goodf badf;
      match r with
      | inr res => Some res
      | inl s => if negb (next_file s =? old_next_file) then rr_loop fuel s old_next_file open_res goodf badf
                 else Some (s, PickNull)
      end
  end.

Definition get_next_file_rr (s : files_td) (open_res : Z -> open_result) (goodf badf : Z) :
    option (files_td * pick) :=
  rr_loop (Z.to_nat nr_files) s (next_file s) open_res goodf badf.

(** *** Random choice *)
Definition FIO_FSERVICE_RANDOM : Z := 1.
Definition FIO_FSERVICE_RR : Z := 2.
Definition FIO_FSERVICE_SEQ : Z := 3.
Definition __FIO_FSERVICE_NONUNIFORM : Z := 0x100.
Definition FIO_FSERVICE_ZIPF : Z := Z.lor __FIO_FSERVICE_NONUNIFORM 4.
Definition FIO_FSERVICE_PARETO : Z := Z.lor __FIO_FSERVICE_NONUNIFORM 5.
Definition FIO_FSERVICE_GAUSS : Z := Z.lor __FIO_FSERVICE_NONUNIFORM 6.
Definition FIO_FSERVICE_SHIFT : Z := 10.

Record file_rand := FileRand {
  next_file_state : frand_state; next_file_zipf : zipf_state; next_file_gauss : gauss_state
}.

Definition __get_next_fileno_rand (fuel : nat) (g : file_rand) : option (file_rand * Z) :=
  if file_service_type =? FIO_FSERVICE_RANDOM then
    let frand_max := rand_max (next_file_state g) in
    let '(st, r) := __rand (next_file_state g) in
    fno ← to_u32 (dscale nr_files r frand_max);
    Some (FileRand st (next_file_zipf g) (next_file_gauss g), fno)
  else
  '(g, fileno) ←
    (if file_service_type =? FIO_FSERVICE_ZIPF then
       '(z, v) ← zipf_next pow (next_file_zipf g);
       Some (FileRand (next_file_state g) z (next_file_gauss g), v)
     else if file_service_type =? FIO_FSERVICE_PARETO then
       '(z, v) ← pareto_next pow (next_file_zipf g);
       Some (FileRand (next_file_state g) z (next_file_gauss g), v)
     else if file_service_type =? FIO_FSERVICE_GAUSS then
       '(z, v) ← gauss_next fuel (next_file_gauss g);
       Some (FileRand (next_file_state g) (next_file_zipf g) z, v)
     else None);
  Some (g, u32 (Z.shiftr fileno FIO_FSERVICE_SHIFT)).

(** The loop draws until a file fits; [open_res] also sees the attempt. *)
Fixpoint get_next_file_rand (fuel : nat) (s : files_td) (g : file_rand)
    (open_res : nat -> Z -> open_result) (goodf badf : Z) : option (files_td * file_rand * pick) :=
  match fuel with
  | O => None
  | S fuel =>
      '(g, fno) ← __get_next_fileno_rand fuel g;
      f ← arr_get (files s) fno;
      if fio_file_done f then get_next_file_rand fuel s g open_res goodf badf else
      '(s, r) ←
        (if negb (fio_file_open f) then
           if open_files <=? nr_open_files s then Some (s, inr (PickErr EBUSY)) else
           '(s, err) ← td_io_open_file s fno (open_res fuel fno);
           Some (s, inl (if err =? 0 then Some true else None))
         else Some (s, inl (Some false)));
      match r with
      | inr p => Some (s, g, p)
      | inl None => get_next_file_rand fuel s g open_res goodf badf
      | inl (Some opened) =>
          f ← arr_get (files s) fno;
          if flags_fit f goodf badf then Some (s, g, PickFile fno) else
          s ← (if (opened : bool) then '(s, _) ← td_io_close_file s fno close; Some s else Some s);
          get_next_file_rand fuel s g open_res goodf badf
      end
  end.

(** *** The next file *)
Definition set_service (s : files_td) (f : option Z) (left : Z) : files_td :=
  FilesTd (files s) (nr_open_files s) (nr_done_files s) (next_file s) f left.

(** The service file goes on when it is open, not closing and either the
    service is sequential or units are left; [file_service_left--] counts down
    as it is tested. *)
Definition service_continues (s : files_td) : option (files_td * option Z) :=
  match file_service_file s with
  | None => Some (s, None)
  | Some i =>
      f ← arr_get (files s) i;
      if fio_file_open f && negb (fio_file_closing f) then
        if file_service_type =? FIO_FSERVICE_SEQ then Some (s, Some i) else
        let left := file_service_left s in
        let s := set_service s (file_service_file s) (u32 (left - 1)) in
        Some (s, if negb (left =? 0) then Some i else None)
      else Some (s, None)
  end.

Definition __get_next_file (fuel : nat) (s : files_td) (g : file_rand)
    (open_res : nat -> Z -> open_result) : option (files_td * file_rand * pick) :=
  _ ← assert (nr_files <=? Z.of_nat (length (files s)));
  if nr_files <=? nr_done_files s then Some (s, g, PickNull) else
  '(s, cont) ← service_continues s;
  match cont with
  | Some i => Some (s, g, PickFile i)
  | None =>
      '(s, g, p) ←
        (if (file_service_type =? FIO_FSERVICE_RR) || (file_service_type =? FIO_FSERVICE_SEQ) then
           '(s, p) ← get_next_file_rr s (open_res fuel) FIO_FILE_open FIO_FILE_closing; Some (s, g, p)
         else get_next_file_rand fuel s g open_res FIO_FILE_open FIO_FILE_closing);
      match p with
      | PickErr e => Some (s, g, p)
      | PickNull => Some (set_service s None (u32 (file_service_nr - 1)), g, p)
      | PickFile i => Some (set_service s (Some i) (u32 (file_service_nr - 1)), g, p)
      end
  end.

(** [set_io_u_file]: files are tried until [fill_io_u] succeeds on one ([fill]
    tells whether it fails on the given attempt); a file it fails on is
    closed and done, unless the service is non-uniform, when it is reset
    instead.  The close error that [put_file_log] records is dropped. *)
Fixpoint set_io_u_file (fuel : nat) (s : files_td) (g : file_rand)
    (open_res : nat -> Z -> open_result) (fill_fails : nat -> Z -> bool) :
    option (files_td * file_rand * pick) :=
  match fuel with
  | O => None
  | S fuel =>
      '(s, g, p) ← __get_next_file fuel s g open_res;
      match p with
      | PickNull | PickErr _ => Some (s, g, p)
      | PickFile i =>
          s ← get_file s i;
          if negb (fill_fails fuel i) then Some (s, g, PickFile i) else
          '(s, _) ← put_file s i close;
          '(s, _) ← td_io_close_file s i close;
          if isset file_service_type __FIO_FSERVICE_NONUNIFORM then
            set_io_u_file fuel s g open_res fill_fails
          else
            f ← arr_get (files s) i;
            s ← upd_file s i (fio_file_set_done f);
            let s := FilesTd (files s) (nr_open_files s) (u32 (nr_done_files s + 1)) (next_file s)
                       (file_service_file s) (file_service_left s) in
            set_io_u_file fuel s g open_res fill_fails
      end
  end.
End service.

(** ** References

    [held i h]: how many of the units' references [h] are to file [i].  An open
    file has one reference for its opening, until it is being closed, and one
    per unit; a file that is not open has none, and no descriptor. *)
Definition held (i : Z) (h : list Z) : Z := Z.of_nat (length (filter (fun j => j = i) h)).

Record file_ok (f : fio_file) (n : Z) : Prop := {
  fk_open : fio_file_open f = true -> fd f <> -1 /\ 0 < references f /\
    references f = (if fio_file_closing f then 0 else 1) + n;
  fk_closed : fio_file_open f = false -> fd f = -1 /\ references f = 0 /\ n = 0;
  fk_done : fio_file_done f = true -> fio_file_open f = true -> fio_file_closing f = true
}.

Definition count_files (P : fio_file -> bool) (l : list fio_file) : Z :=
  Z.of_nat (length (filter (fun f => P f = true) l)).

Record files_ok (s : files_td) (h : list Z) : Prop := {
  fo_files : forall i f, arr_get (files s) i = Some f -> file_ok f (held i h);
  fo_nopen : nr_open_files s = count_files fio_file_open (files s);
  fo_ndone : nr_done_files s = count_files fio_file_done (files s);
  fo_len : Z.of_nat (length (files s)) < 2 ^ 31;
  fo_next : 0 <= next_file s < Z.of_nat (length (files s));
  fo_service : forall i, file_service_file s = Some i -> 0 <= i < Z.of_nat (length (files s));
  fo_held : forall i, i ∈ h -> 0 <= i < Z.of_nat (length (files s))
}.

Lemma count_files_insert P l i f f' : arr_get l i = Some f ->
  count_files P (<[Z.to_nat i := f']> l) = count_files P l + Z.b2z (P f') - Z.b2z (P f).
Proof.
  intros [Hi Hl]%arr_get_Some. unfold count_files.
  pose proof (length_filter_insert (fun f => P f = true) l (Z.to_nat i) f f' Hl) as E.
  destruct (P f) eqn:E1, (P f') eqn:E2; repeat case_decide; simpl Z.b2z; congruence || lia.
Qed.

Lemma count_files_bounds P l : 0 <= count_files P l <= Z.of_nat (length l).
Proof. unfold count_files. pose proof (length_filter (fun f => P f = true) l). lia. Qed.

Lemma count_files_lt P l i f : arr_get l i = Some f -> P f = false -> count_files P l < Z.of_nat (length l).
Proof.
  intros [Hi Hl]%arr_get_Some Hf. unfold count_files.
  apply list_elem_of_split_length in Hl as (l1 & l2 & -> & Hlen).
  rewrite list.filter_app, filter_cons, decide_False by congruence.
  rewrite !length_app. simpl. pose proof (length_filter (fun f => P f = true) l1).
  pose proof (length_filter (fun f => P f = true) l2). lia.
Qed.

Lemma count_files_pos P l i f : arr_get l i = Some f -> P f = true -> 0 < count_files P l.
Proof.
  intros [Hi Hl]%arr_get_Some Hf. unfold count_files.
  apply list_elem_of_split_length in Hl as (l1 & l2 & -> & Hlen).
  rewrite list.filter_app, filter_cons, decide_True by done. rewrite length_app. simpl. lia.
Qed.

Lemma held_cons i j h : held i (j :: h) = (if decide (j = i) then 1 else 0) + held i h.
Proof. unfold held. rewrite filter_cons. case_decide; simpl length; lia. Qed.

Lemma held_nonneg i h : 0 <= held i h.
Proof. unfold held. lia. Qed.

Lemma held_elem i h : i ∈ h <-> 0 < held i h.
Proof.
  induction h as [|j h IH]; [by rewrite elem_of_nil; unfold held|]. rewrite elem_of_cons, held_cons, IH.
  pose proof (held_nonneg i h). case_decide; lia.
Qed.

Lemma files_ok_perm s h h' : h ≡ₚ h' -> files_ok s h -> files_ok s h'.
Proof.
  intros Hp [H1 H2 H3 H4 H5 H6 H7]. split; try done; [|intros i; rewrite <- Hp; apply H7]. intros i f Hf.
  replace (held i h') with (held i h); [by apply H1|]. unfold held. by rewrite Hp.
Qed.

(** The step every operation takes: one file changes, with the counters. *)
Lemma files_ok_upd s h s' h' i f f' : files_ok s h -> arr_get (files s) i = Some f ->
  file_ok f' (held i h') -> (forall j, j <> i -> held j h' = held j h) ->
  files s' = <[Z.to_nat i := f']> (files s) ->
  nr_open_files s' = nr_open_files s + Z.b2z (fio_file_open f') - Z.b2z (fio_file_open f) ->
  nr_done_files s' = nr_done_files s + Z.b2z (fio_file_done f') - Z.b2z (fio_file_done f) ->
  next_file s' = next_file s -> file_service_file s' = file_service_file s -> files_ok s' h'.
Proof.
  intros [H1 H2 H3 H4 H5 H6 H7] Hf Hok Hh El Eo Ed En Es. assert (Hb := arr_get_bounds _ _ _ Hf).
  split; rewrite ?El, ?length_insert, ?En, ?Es; try done.
  - intros j g Hg. rewrite arr_get_insert in Hg by (apply arr_get_bounds in Hg; lia).
    destruct (Z.eqb_spec j i) as [->|Hne]; [by simplify_eq|]. rewrite Hh by done. by apply H1.
  - rewrite (count_files_insert _ _ _ _ _ Hf). lia.
  - rewrite (count_files_insert _ _ _ _ _ Hf). lia.
  - intros j Hj. destruct (Z.eq_dec j i) as [->|Hne]; [done|]. apply H7. rewrite held_elem in *. by rewrite <- Hh.
Qed.

(** The flag tests after an update of the flags. *)
Ltac fflags :=
  unfold fio_file_open, fio_file_closing, fio_file_done, fio_file_set_open, fio_file_clear_open,
    fio_file_set_closing, fio_file_clear_closing, fio_file_set_done, FIO_FILE_open, FIO_FILE_closing,
    FIO_FILE_done in *; cbn [fd references fflags] in *; flags_in_goal.

Lemma upd_file_eq s i f f' : arr_get (files s) i = Some f ->
  upd_file s i f' = Some (put_files s (<[Z.to_nat i := f']> (files s)) (nr_open_files s)).
Proof. intros H%arr_get_bounds. unfold upd_file. by rewrite arr_set_Some. Qed.

Lemma arr_get_put s i f f' n : arr_get (files s) i = Some f ->
  arr_get (files (put_files s (<[Z.to_nat i := f']> (files s)) n)) i = Some f'.
Proof. intros H%arr_get_bounds. simpl. rewrite arr_get_insert by lia. by rewrite Z.eqb_refl. Qed.

Lemma held_other i j h : j <> i -> held j (i :: h) = held j h.
Proof. intros. rewrite held_cons, decide_False by congruence. lia. Qed.

Lemma held_same i h : held i (i :: h) = 1 + held i h.
Proof. by rewrite held_cons, decide_True. Qed.

Lemma get_file_ok s h i f : files_ok s h -> arr_get (files s) i = Some f -> fio_file_open f = true ->
  get_file s i = Some (put_files s (<[Z.to_nat i := File (fd f) (references f + 1) (fflags f)]> (files s)) (nr_open_files s)) /\
  files_ok (put_files s (<[Z.to_nat i := File (fd f) (references f + 1) (fflags f)]> (files s)) (nr_open_files s)) (i :: h).
Proof.
  intros Hs Hf Ho. unfold get_file. rewrite Hf. cbn [mbind option_bind]. rewrite Ho. cbn [assert mbind option_bind].
  rewrite (upd_file_eq _ _ _ _ Hf). split; [done|].
  destruct (fo_files _ _ Hs _ _ Hf) as [K1 K2 K3].
  eapply (files_ok_upd s h _ _ i f); [done|done| |by intros; apply held_other|done|simpl; fflags; lia..|done|done].
  rewrite held_same. split; [|fflags; congruence|done].
  intros _. destruct K1 as (? & ? & ?); [done|]. fflags. split; [done|lia].
Qed.

Lemma u32_files s h n : files_ok s h -> 0 <= n <= Z.of_nat (length (files s)) -> u32 n = n.
Proof. intros Hs Hn. pose proof (fo_len _ _ Hs). apply wrap_small. unfold uint. lia. Qed.

(** Dropping a reference a unit holds never fails; the file is closed with the
    last one. *)
Lemma put_file_ok s h i f env : files_ok s (i :: h) -> arr_get (files s) i = Some f ->
  exists s' ret f', put_file s i env = Some (s', ret) /\ files_ok s' h /\
    files s' = <[Z.to_nat i := f']> (files s) /\ fio_file_open f' = negb (references f =? 1) /\
    fio_file_closing f' = fio_file_closing f /\ fio_file_done f' = fio_file_done f /\
    nr_done_files s' = nr_done_files s /\ next_file s' = next_file s /\
    file_service_file s' = file_service_file s.
Proof.
  intros Hs Hf. unfold put_file. rewrite Hf. cbn [mbind option_bind].
  destruct (fo_files _ _ Hs _ _ Hf) as [K1 K2 K3]. rewrite held_same in K1, K2. pose proof (held_nonneg i h).
  destruct (fio_file_open f) eqn:Ho; cbn [negb]; [|destruct K2 as (_ & _ & ?); [done|lia]].
  destruct K1 as (Hfd & Hpos & Hr); [done|].
  assert (Hoth : forall j, j <> i -> held j h = held j (i :: h)) by (intros; by rewrite held_other).
  destruct (Z.eqb_spec (references f) 0); [lia|]. cbn [negb assert mbind option_bind].
  destruct (Z.eqb_spec (references f - 1) 0) as [Hl|Hl]; cbn [negb];
    destruct (Z.eqb_spec (references f) 1) as [Hl1|Hl1]; try lia; cbn [negb].
  - pose proof (arr_get_bounds _ _ _ Hf). rewrite arr_set_Some by done. cbn [mbind option_bind].
    pose proof (count_files_pos _ _ _ _ Hf Ho) as Hc. rewrite <- (fo_nopen _ _ Hs) in Hc.
    pose proof (count_files_bounds fio_file_open (files s)) as Hcb. rewrite <- (fo_nopen _ _ Hs) in Hcb.
    eexists _, _, _. split; [done|]. split; [|split_and!; try done; simpl; fflags; done].
    eapply (files_ok_upd s _ _ _ i f); [done|done| |exact Hoth|done| | |done|done]; simpl.
    + split; fflags; [done| |done]. intros _. split_and!; [done|lia|].
      destruct (isset (fflags f) (flag 1)); lia.
    + rewrite (u32_files s (i :: h)) by (done || lia). rewrite Ho. fflags. simpl. lia.
    + fflags. lia.
  - rewrite (upd_file_eq _ _ _ _ Hf). cbn [mbind option_bind]. eexists _, _, _. split; [done|].
    split; [|split_and!; try done; simpl; fflags; done].
    eapply (files_ok_upd s _ _ _ i f); [done|done| |exact Hoth|done|simpl; fflags; lia..|done|done].
    split; [|fflags; congruence|fflags; auto]. intros _. fflags. split_and!; [done|lia|]. 
    destruct (isset (fflags f) (flag 1)); lia.
Qed.

(** Closing gives the opening's reference away, once. *)
Lemma td_io_close_file_ok s h i f env : files_ok s h -> arr_get (files s) i = Some f ->
  fio_file_open f = true -> fio_file_closing f = false ->
  exists s' ret f', td_io_close_file s i env = Some (s', ret) /\ files_ok s' h /\
    files s' = <[Z.to_nat i := f']> (files s) /\
    fio_file_closing f' = true /\ fio_file_done f' = fio_file_done f /\
    nr_done_files s' = nr_done_files s /\ next_file s' = next_file s /\
    file_service_file s' = file_service_file s.
Proof.
  intros Hs Hf Ho Hc. unfold td_io_close_file. rewrite Hf. cbn [mbind option_bind].
  rewrite (upd_file_eq _ _ _ _ Hf). cbn [mbind option_bind]. set (s1 := put_files _ _ _).
  assert (Hs1 : files_ok s1 (i :: h)).
  { destruct (fo_files _ _ Hs _ _ Hf) as [K1 K2 K3]. destruct K1 as (? & ? & ?); [done|].
    eapply (files_ok_upd s h _ _ i f); [done|done| |by intros; apply held_other|done|simpl; fflags; lia..|done|done].
    rewrite held_same. split; [|fflags; congruence|fflags; done].
    intros _. rewrite Hc in *. fflags. split_and!; [done|done|lia]. }
  destruct (put_file_ok s1 h i (fio_file_set_closing f) env Hs1) as (s' & ret & f' & E & Hok & El & _ & Ec & Ed & R1 & R2 & R3).
  { by eapply arr_get_put. }
  exists s', ret, f'. split_and!; try done.
  - rewrite El. simpl. apply list_insert_insert_eq.
  - rewrite Ec. by fflags.
  - rewrite Ed. by fflags.
Qed.

Lemma td_io_open_file_ok s h i f r : files_ok s h -> arr_get (files s) i = Some f ->
  fio_file_open f = false -> fio_file_done f = false ->
  (forall new_fd ok, r = Opened new_fd ok -> new_fd <> -1 /\ ok = true) ->
  exists s' err, td_io_open_file s i r = Some (s', err) /\ files_ok s' h /\
    next_file s' = next_file s /\ nr_done_files s' = nr_done_files s /\
    file_service_file s' = file_service_file s /\
    (err = 0 -> exists f', files s' = <[Z.to_nat i := f']> (files s) /\ fio_file_open f' = true /\
       fio_file_closing f' = false /\ fio_file_done f' = fio_file_done f) /\
    (err <> 0 -> s' = s /\ r = OpenFailed).
Proof.
  intros Hs Hf Ho Hdn Hr. unfold td_io_open_file. rewrite Hf. cbn [mbind option_bind]. rewrite Ho.
  destruct (fo_files _ _ Hs _ _ Hf) as [K1 K2 K3]. destruct K2 as (-> & Href & Hh); [done|].
  cbn [negb assert mbind option_bind]. change (-1 =? -1) with true. cbn [assert mbind option_bind].
  destruct r as [|nfd ok]; [by eexists _, _; split_and!|].
  destruct (Hr nfd ok) as [Hfd ->]; [done|]. pose proof (arr_get_bounds _ _ _ Hf) as Hb.
  rewrite arr_set_Some by done. cbn [mbind option_bind].
  pose proof (count_files_lt _ _ _ _ Hf Ho) as Hc. rewrite <- (fo_nopen _ _ Hs) in Hc.
  pose proof (count_files_bounds fio_file_open (files s)) as Hcb. rewrite <- (fo_nopen _ _ Hs) in Hcb.
  unfold get_file. rewrite (arr_get_put _ _ f) by done. cbn [mbind option_bind].
  assert (E : fio_file_open (fio_file_clear_closing (fio_file_set_open (File nfd (references f) (fflags f)))) = true) by by fflags.
  rewrite E. cbn [assert mbind option_bind]. rewrite (upd_file_eq _ _ (fio_file_clear_closing (fio_file_set_open (File nfd (references f) (fflags f))))) by (by eapply arr_get_put).
  cbn [mbind option_bind]. eexists _, _. split; [done|].
  assert (El : files (put_files s (<[Z.to_nat i:=fio_file_clear_closing (fio_file_set_open (File nfd (references f) (fflags f)))]> (files s)) (u32 (nr_open_files s + 1)))
    = <[Z.to_nat i:=fio_file_clear_closing (fio_file_set_open (File nfd (references f) (fflags f)))]> (files s)) by done.
  rewrite El, list_insert_insert_eq. split; [|split_and!; try done].
  - eapply (files_ok_upd s h _ _ i f); [done|done| |done|done| | |done|done]; simpl.
    + split; fflags; [|done|congruence]. intros _. split_and!; [done|lia|]. lia.
    + rewrite (u32_files s h) by (done || lia). rewrite Ho. fflags. simpl. lia.
    + fflags. lia.
  - intros _. eexists. split; [done|]. split_and!; fflags; done.
Qed.

(** ** Round robin *)
Section round_robin.
Context (nr_files open_files : Z) (close : close_env) (open_res : Z -> open_result).

(** What happens to file [i] when its turn comes. *)
Definition rr_skips (s : files_td) (i : Z) (f : fio_file) : bool :=
  fio_file_done f ||
  if fio_file_open f then fio_file_closing f
  else (nr_open_files s <? open_files) && match open_res i with OpenFailed => true | _ => false end.
Definition rr_busy (s : files_td) (f : fio_file) : bool :=
  negb (fio_file_done f) && negb (fio_file_open f) && (open_files <=? nr_open_files s).

(** The files in the order of their turns. *)
Definition turn (s : files_td) (k : Z) : Z := (next_file s + k) mod nr_files.

Definition skipped (s : files_td) (k : Z) : Prop :=
  exists f, arr_get (files s) (turn s k) = Some f /\ rr_skips s (turn s k) f = true.

(** The contract: the file of the first turn that is not skipped. *)
Definition rr_result (s s' : files_td) (h : list Z) (p : pick) : Prop :=
  files_ok s' h /\ nr_done_files s' = nr_done_files s /\ length (files s') = length (files s) /\
  next_file s' < nr_files /\
  match p with
  | PickFile i => exists k f, 0 <= k < nr_files /\ i = turn s k /\ (forall j, 0 <= j < k -> skipped s j) /\
      next_file s' = turn s (k + 1) /\
      arr_get (files s') i = Some f /\ fio_file_open f = true /\ fio_file_closing f = false /\
      fio_file_done f = false
  | PickNull => s' = s /\ forall j, 0 <= j < nr_files -> skipped s j
  | PickErr e => e = EBUSY /\ exists k f, 0 <= k < nr_files /\ (forall j, 0 <= j < k -> skipped s j) /\
      arr_get (files s) (turn s k) = Some f /\ rr_busy s f = true
  end.

Context (s : files_td) (h : list Z) (Hok : files_ok s h).
Context (Hnr : 0 < nr_files <= Z.of_nat (length (files s))) (Hnext : next_file s < nr_files).
Context (Hopen : forall i new_fd ok, open_res i = Opened new_fd ok -> new_fd <> -1 /\ ok = true).

Lemma turn_bounds k : 0 <= turn s k < nr_files.
Proof. apply Z.mod_pos_bound. lia. Qed.

Lemma turn_next k : (if nr_files <=? u32 (turn s k + 1) then 0 else u32 (turn s k + 1)) = turn s (k + 1).
Proof.
  pose proof (turn_bounds k). pose proof (fo_len _ _ Hok). rewrite wrap_small by (unfold uint; lia).
  unfold turn in *. rewrite Z.add_assoc, <- (Zplus_mod_idemp_l (next_file s + k)). zcase.
  - replace ((next_file s + k) mod nr_files + 1) with nr_files by lia. by rewrite Z.mod_same by lia.
  - by rewrite (Z.mod_small ((next_file s + k) mod nr_files + 1)) by lia.
Qed.

Lemma turn_wraps k : 0 <= k < nr_files -> turn s (k + 1) = next_file s <-> k + 1 = nr_files.
Proof.
  intros Hk. pose proof (fo_next _ _ Hok). unfold turn. split.
  - intros E. rewrite <- (Z.mod_small (next_file s) nr_files) in E at 2 by lia.
    destruct (Z.lt_ge_cases (next_file s + (k + 1)) nr_files) as [L|L].
    + rewrite !Z.mod_small in E by lia. lia.
    + rewrite (Z.mod_small (next_file s)) in E by lia.
      assert (next_file s + (k + 1) = nr_files * 1 + (next_file s + (k + 1) - nr_files)) as E2 by lia.
      rewrite E2, Z.add_comm, Z.mul_comm, Z.mod_add, Z.mod_small in E by lia. lia.
  - intros ->. rewrite Zplus_mod, Z.mod_same, Z.add_0_r, Z.mod_mod by lia. apply Z.mod_small. lia.
Qed.

Lemma set_next_ok n : 0 <= n < Z.of_nat (length (files s)) -> files_ok (set_next s n) h.
Proof. intros Hn. destruct Hok. by split. Qed.

(** One turn: the file is skipped, busy or taken. *)
Lemma rr_turn k f : arr_get (files s) (turn s k) = Some f ->
  let s1 := set_next s (turn s k) in
  (rr_skips s (turn s k) f = true /\
   rr_body nr_files open_files close s1 open_res FIO_FILE_open FIO_FILE_closing = Some (inl (set_next s (turn s (k + 1))))) \/
  (rr_busy s f = true /\ 
   rr_body nr_files open_files close s1 open_res FIO_FILE_open FIO_FILE_closing =
     Some (inr (set_next s (turn s (k + 1)), PickErr EBUSY))) \/
  (exists s' f', rr_body nr_files open_files close s1 open_res FIO_FILE_open FIO_FILE_closing =
     Some (inr (s', PickFile (turn s k))) /\ files_ok s' h /\ nr_done_files s' = nr_done_files s /\
     length (files s') = length (files s) /\ next_file s' = turn s (k + 1) /\
     arr_get (files s') (turn s k) = Some f' /\ fio_file_open f' = true /\ fio_file_closing f' = false /\
     fio_file_done f' = false).
Proof.
  intros Hf. cbn zeta. unfold rr_body. change (next_file (set_next s (turn s k))) with (turn s k).
  change (files (set_next s (turn s k))) with (files s). rewrite Hf. cbn [mbind option_bind].
  rewrite turn_next. change (set_next (set_next s (turn s k)) (turn s (k + 1))) with (set_next s (turn s (k + 1))).
  unfold rr_skips, rr_busy. destruct (fio_file_done f) eqn:Ed; [by left|]. cbn [orb negb andb].
  change (nr_open_files (set_next s (turn s (k + 1)))) with (nr_open_files s).
  pose proof (turn_bounds (k + 1)). pose proof (turn_bounds k).
  assert (Hfit : forall g, fio_file_open g = true -> flags_fit g FIO_FILE_open FIO_FILE_closing = negb (fio_file_closing g)).
  { intros g Hg. unfold flags_fit, fio_file_open, fio_file_closing in *. by rewrite Hg, orb_true_r. }
  destruct (fio_file_open f) eqn:Eo; cbn [negb andb].
  - cbn [mbind option_bind]. change (files (set_next s (turn s (k + 1)))) with (files s). rewrite Hf.
    cbn [mbind option_bind]. rewrite Hfit by done. destruct (fio_file_closing f) eqn:Ec; cbn [negb]; [by left|].
    right. right. eexists _, f. split; [done|]. split; [apply set_next_ok; lia|done].
  - destruct (Z.leb_spec open_files (nr_open_files s)); [right; left; split; done|].
    destruct (Z.ltb_spec (nr_open_files s) open_files); [|lia]. cbn [andb].
    destruct (td_io_open_file_ok (set_next s (turn s (k + 1))) h (turn s k) f (open_res (turn s k)))
      as (s' & err & E & Hok' & En & Edn & _ & Hz & Hn0); [apply set_next_ok; lia|done..|by apply Hopen|].
    rewrite E. cbn [mbind option_bind]. destruct (Z.eqb_spec err 0) as [->|Hne].
    + destruct Hz as (f' & El & Eo' & Ec' & Ed'); [done|]. right. right.
      assert (Hg : arr_get (files s') (turn s k) = Some f').
      { rewrite El. simpl. rewrite arr_get_insert by lia. by rewrite Z.eqb_refl. }
      rewrite Hg. cbn [mbind option_bind]. rewrite Hfit, Ec' by done. cbn [negb].
      eexists s', f'. split_and!; try done; [by rewrite El, length_insert|congruence].
    + destruct (Hn0 Hne) as [-> Er]. rewrite Er. by left.
Qed.

Lemma rr_loop_correct fuel : forall k, Z.of_nat fuel = nr_files - k -> 0 <= k < nr_files ->
  (forall j, 0 <= j < k -> skipped s j) ->
  exists s' p, rr_loop nr_files open_files close fuel (set_next s (turn s k)) (next_file s) open_res
      FIO_FILE_open FIO_FILE_closing = Some (s', p) /\ rr_result s s' h p.
Proof.
  induction fuel as [|fuel IH]; intros k Hfuel Hk Hskip; [lia|]. cbn [rr_loop].
  pose proof (turn_bounds k). destruct (arr_get_is_Some (files s) (turn s k)) as [f Hf]; [lia|].
  destruct (rr_turn k f Hf) as [[Hs ->]|[[Hb ->]|(s' & f' & -> & Hok' & Hdn' & Hlen' & Hrest)]]; cbn [mbind option_bind].
  - assert (Hskip' : forall j, 0 <= j < k + 1 -> skipped s j).
    { intros j Hj. destruct (Z.eq_dec j k) as [->|]; [by exists f|apply Hskip; lia]. }
    change (next_file (set_next s (turn s (k + 1)))) with (turn s (k + 1)).
    pose proof (turn_wraps k Hk) as Hw. destruct (Z.eqb_spec (turn s (k + 1)) (next_file s)) as [E|E]; cbn [negb].
    + rewrite E. assert (Es : set_next s (next_file s) = s) by by destruct s. rewrite Es.
      eexists _, _. split; [done|]. split_and!; [done|done|done|lia|done|]. intros j Hj. apply Hskip'. apply Hw in E. lia.
    + apply IH; [lia| |done]. assert (k + 1 <> nr_files) by tauto. lia.
  - eexists _, _. split; [done|]. split; [apply set_next_ok; pose proof (turn_bounds (k + 1)); lia|].
    split_and!; [done|done|apply turn_bounds|done|by exists k, f].
  - eexists _, _. split; [done|]. split_and!; [done..| |].
    { destruct Hrest as [-> _]. apply turn_bounds. }
    exists k, f'. split_and!; tauto.
Qed.

Lemma get_next_file_rr_ok :
  exists s' p, get_next_file_rr nr_files open_files close s open_res FIO_FILE_open FIO_FILE_closing = Some (s', p) /\
    rr_result s s' h p.
Proof.
  pose proof (fo_next _ _ Hok). unfold get_next_file_rr.
  assert (E : set_next s (turn s 0) = s).
  { unfold turn. rewrite Z.add_0_r, Z.mod_small by lia. by destruct s. }
  pose proof (rr_loop_correct (Z.to_nat nr_files) 0) as HL. rewrite E in HL. apply HL; lia.
Qed.

(** Round robin is fair and never idles: [get_next_file_rr] returns after at
    most one round, with the file of the first turn that is not skipped (open,
    not closing, not done, and the next call starts after it), with busy only
    when that file has to be opened and the limit on open files is reached, and
    with nothing only when every file is done, closing or cannot be opened.
    References and counters stay consistent. *)
Theorem get_next_file_rr_correct :
  exists s' p, get_next_file_rr nr_files open_files close s open_res FIO_FILE_open FIO_FILE_closing = Some (s', p) /\
    rr_result s s' h p.
Proof. exact get_next_file_rr_ok. Qed.
End round_robin.

(** ** The file of a unit *)
Section unit_file.
Context (nr_files open_files file_service_type file_service_nr : Z) (close : close_env).
Context (pow : double -> double -> double) (open_res : nat -> Z -> open_result).
Context (Hopen : forall n i new_fd ok, open_res n i = Opened new_fd ok -> new_fd <> -1 /\ ok = true).
Context (Htype : file_service_type = FIO_FSERVICE_RR \/ file_service_type = FIO_FSERVICE_SEQ).
Context (Hnr : 0 < nr_files).

Definition serves (s : files_td) (i : Z) : Prop :=
  exists f, arr_get (files s) i = Some f /\ fio_file_open f = true /\ fio_file_closing f = false /\
    fio_file_done f = false.

Lemma set_service_ok s h f n : files_ok s h -> (forall i, f = Some i -> 0 <= i < Z.of_nat (length (files s))) ->
  files_ok (set_service s f n) h.
Proof. intros [] Hf. by split. Qed.

Lemma service_continues_ok s h : files_ok s h -> exists s' r, service_continues file_service_type s = Some (s', r) /\
  files_ok s' h /\ nr_done_files s' = nr_done_files s /\ files s' = files s /\ next_file s' = next_file s /\
  (forall i, r = Some i -> serves s' i).
Proof.
  intros Hs. unfold service_continues. destruct (file_service_file s) as [i|] eqn:Ei; [|by eexists _, _; split_and!].
  destruct (arr_get_is_Some (files s) i) as [f Hf]; [by apply (fo_service _ _ Hs)|]. rewrite Hf. cbn [mbind option_bind].
  destruct (fio_file_open f) eqn:Eo; cbn [andb]; [|by eexists _, _; split_and!].
  destruct (fio_file_closing f) eqn:Ec; cbn [negb]; [by eexists _, _; split_and!|].
  assert (Hd : fio_file_done f = false).
  { destruct (fio_file_done f) eqn:Ed; [|done]. destruct (fo_files _ _ Hs _ _ Hf) as [_ _ K]. rewrite K in Ec; congruence. }
  destruct (file_service_type =? FIO_FSERVICE_SEQ); eexists _, _; (split; [done|]); split_and!; try done.
  - intros j [= <-]. by exists f.
  - apply set_service_ok; [done|]. intros j [= <-]. by apply (fo_service _ _ Hs).
  - intros j Hj. destruct (negb _); [|done]. injection Hj as <-. by exists f.
Qed.

Lemma get_next_file_ok fuel s h g : files_ok s h -> nr_files <= Z.of_nat (length (files s)) -> next_file s < nr_files ->
  exists s' p, __get_next_file nr_files open_files file_service_type file_service_nr close pow fuel s g open_res = Some (s', g, p) /\
    files_ok s' h /\ nr_done_files s' = nr_done_files s /\ length (files s') = length (files s) /\
    next_file s' < nr_files /\ forall i, p = PickFile i -> serves s' i /\ nr_done_files s < nr_files.
Proof.
  intros Hs Hl Hn. unfold __get_next_file. destruct (Z.leb_spec nr_files (Z.of_nat (length (files s)))); [|lia].
  cbn [assert mbind option_bind]. destruct (Z.leb_spec nr_files (nr_done_files s)); [by eexists _, _; split_and!|].
  destruct (service_continues_ok s h Hs) as (s1 & r & -> & Hs1 & Hd1 & Hf1 & Hn1 & Hr). cbn [mbind option_bind].
  destruct r as [i|]; [eexists _, _; split_and!; try done; [congruence|lia|]; intros j [= <-]; by split; [apply Hr|]|].
  assert (Ht : (file_service_type =? FIO_FSERVICE_RR) || (file_service_type =? FIO_FSERVICE_SEQ) = true).
  { destruct Htype as [->| ->]; done. }
  rewrite Ht.
  destruct (get_next_file_rr_ok nr_files open_files close (open_res fuel) s1 h Hs1) as (s2 & p & E & Hs2 & Hd2 & Hl2 & Hn2 & Hp);
    [rewrite Hf1; lia|lia|by apply Hopen|].
  rewrite E. cbn [mbind option_bind]. rewrite Hd1 in Hd2. rewrite Hf1 in Hl2.
  destruct p as [i| |e]; [|by eexists _, _; split_and!; try done; apply set_service_ok..|by eexists _, _; split_and!].
  destruct Hp as (k & f & Hk & -> & _ & _ & Hf & Ho & Hc & Hd).
  assert (Hserve : serves s2 (turn nr_files s1 k)) by by exists f.
  eexists _, _. split_and!; try done.
  - apply set_service_ok; [done|]. intros j [= <-]. by apply arr_get_bounds in Hf.
  - by intros j [= <-].
Qed.

Definition mark_done (s : files_td) (l : list fio_file) : files_td :=
  FilesTd l (nr_open_files s) (u32 (nr_done_files s + 1)) (next_file s) (file_service_file s) (file_service_left s).

(** A file that [fill_io_u] fails on: reference dropped, closed and done. *)
Lemma retire_ok s h i : files_ok s h -> serves s i ->
  exists s1 s2 r2 s3 r3 f l, get_file s i = Some s1 /\ put_file s1 i close = Some (s2, r2) /\
    td_io_close_file s2 i close = Some (s3, r3) /\ arr_get (files s3) i = Some f /\
    upd_file s3 i (fio_file_set_done f) = Some (put_files s3 l (nr_open_files s3)) /\
    files_ok (mark_done s3 l) h /\ nr_done_files (mark_done s3 l) = nr_done_files s + 1 /\
    length l = length (files s) /\ next_file s3 = next_file s.
Proof.
  intros Hs (f & Hf & Ho & Hc & Hd). pose proof (arr_get_bounds _ _ _ Hf) as Hb.
  destruct (get_file_ok s h i f Hs Hf Ho) as [E1 Hs1]. set (s1 := put_files _ _ _) in *.
  destruct (put_file_ok s1 h i (File (fd f) (references f + 1) (fflags f)) close Hs1)
    as (s2 & r2 & f2 & E2 & Hs2 & L2 & O2 & C2 & D2 & N2 & X2 & V2); [by eapply arr_get_put|].
  assert (Hb2 : Z.of_nat (length (files s1)) = Z.of_nat (length (files s))) by (simpl; by rewrite length_insert).
  assert (Hf2 : arr_get (files s2) i = Some f2) by (rewrite L2, arr_get_insert by lia; by rewrite Z.eqb_refl).
  assert (Ho2 : fio_file_open f2 = true).
  { rewrite O2. destruct (fo_files _ _ Hs _ _ Hf) as [K1 _ _]. destruct K1 as (_ & ? & _); [done|].
    simpl. destruct (Z.eqb_spec (references f + 1) 1); [lia|done]. }
  destruct (td_io_close_file_ok s2 h i f2 close Hs2 Hf2 Ho2) as (s3 & r3 & f3 & E3 & Hs3 & L3 & C3 & D3 & N3 & X3 & V3).
  { rewrite C2. exact Hc. }
  assert (Hl2 : length (files s2) = length (files s)) by (rewrite L2, length_insert; simpl; apply length_insert).
  assert (Hl3 : length (files s3) = length (files s)) by (by rewrite L3, length_insert).
  assert (Hf3 : arr_get (files s3) i = Some f3).
  { rewrite L3, arr_get_insert by lia. by rewrite Z.eqb_refl. }
  assert (Hd3 : fio_file_done f3 = false) by (rewrite D3, D2; exact Hd).
  exists s1, s2, r2, s3, r3, f3, (<[Z.to_nat i := fio_file_set_done f3]> (files s3)). split_and!; try done.
  - by apply upd_file_eq with f3.
  - pose proof (count_files_lt _ _ _ _ Hf3 Hd3) as Hlt. rewrite <- (fo_ndone _ _ Hs3) in Hlt.
    pose proof (count_files_bounds fio_file_done (files s3)) as Hge. rewrite <- (fo_ndone _ _ Hs3) in Hge.
    destruct (fo_files _ _ Hs3 _ _ Hf3) as [K1 K2 K3].
    eapply (files_ok_upd s3 h _ _ i f3); [done|done| |done|done|simpl; fflags; lia| |done|done].
    + split; fflags; [exact K1|exact K2|]. intros _ _. exact C3.
    + simpl. rewrite (u32_files s3 h) by (done || lia). rewrite Hd3. fflags. simpl. lia.
  - pose proof (count_files_lt _ _ _ _ Hf3 Hd3) as Hlt. rewrite <- (fo_ndone _ _ Hs3) in Hlt.
    pose proof (count_files_bounds fio_file_done (files s3)) as Hge. rewrite <- (fo_ndone _ _ Hs3) in Hge.
    simpl. rewrite (u32_files s3 h) by (done || lia). rewrite N3, N2. done.
  - by rewrite length_insert.
  - by rewrite X3, X2.
Qed.

Lemma set_io_u_file_ok fuel fill_fails g : forall s h,
  files_ok s h -> nr_files = Z.of_nat (length (files s)) ->
  nr_files - nr_done_files s < Z.of_nat fuel ->
  exists s' p, set_io_u_file nr_files open_files file_service_type file_service_nr close pow fuel s g open_res fill_fails
      = Some (s', g, p) /\
    match p with
    | PickFile i => files_ok s' (i :: h) /\ serves s' i
    | _ => files_ok s' h
    end.
Proof.
  induction fuel as [|fuel IH]; intros s h Hs Hl Hfuel.
  { pose proof (count_files_bounds fio_file_done (files s)). rewrite <- (fo_ndone _ _ Hs) in *. lia. }
  pose proof (fo_next _ _ Hs). cbn [set_io_u_file].
  destruct (get_next_file_ok fuel s h g Hs) as (s1 & p & -> & Hs1 & Hd1 & Hl1 & Hn1 & Hp); [lia..|]. cbn [mbind option_bind].
  destruct p as [i| |e]; [|by eexists _, _..]. destruct (Hp i eq_refl) as [Hi Hlt].
  destruct (fill_fails fuel i) eqn:Ef; cbn [negb].
  - destruct (retire_ok s1 h i Hs1 Hi) as (t1 & t2 & r2 & t3 & r3 & f & l & -> & E2 & E3 & E4 & E5 & Hok & Hnd & Hlen & Hnx).
    cbn [mbind option_bind]. rewrite E2. cbn [mbind option_bind]. rewrite E3. cbn [mbind option_bind].
    assert (Hu : isset file_service_type __FIO_FSERVICE_NONUNIFORM = false) by (destruct Htype as [->| ->]; done).
    rewrite Hu, E4. cbn [mbind option_bind]. rewrite E5. cbn [mbind option_bind].
    apply (IH (mark_done t3 l) h Hok); [simpl; congruence|lia].
  - destruct Hi as (f & Hf & Ho & Hc & Hd). destruct (get_file_ok s1 h i f Hs1 Hf Ho) as [-> Hs2].
    cbn [mbind option_bind]. eexists _, _. split; [done|]. split; [done|].
    eexists. split; [by eapply arr_get_put|]. unfold fio_file_open, fio_file_closing, fio_file_done in *. done.
Qed.

(** C23. A job never loops over its files without end.  With round-robin or
    sequential service, and if a file that opens also passes the checks that
    follow the open (cache hints, write hint, direct I/O), [set_io_u_file] returns
    after at most one attempt per file that is not done, whatever [fill_io_u]
    answers and whichever opens fail; a file it returns is open, not closing and
    not done, and the unit has a reference to it; otherwise no reference is taken.
    Reference counts, the number of open files and the number of done files stay
    exact throughout. *)
Theorem set_io_u_file_total fuel fill_fails g : forall s h,
  files_ok s h -> nr_files = Z.of_nat (length (files s)) ->
  nr_files - nr_done_files s < Z.of_nat fuel ->
  exists s' p, set_io_u_file nr_files open_files file_service_type file_service_nr close pow fuel s g open_res fill_fails
      = Some (s', g, p) /\
    match p with
    | PickFile i => files_ok s' (i :: h) /\ serves s' i
    | _ => files_ok s' h
    end.
Proof. exact (set_io_u_file_ok fuel fill_fails g). Qed.
End unit_file.

Lemma held_open s f h : files_ok s (f :: h) -> exists fl, arr_get (files s) f = Some fl /\ fio_file_open fl = true.
Proof.
  intros Hs. destruct (arr_get_is_Some (files s) f) as [fl E]; [apply (fo_held _ _ Hs); left|]. exists fl. split; [done|].
  destruct (fio_file_open fl) eqn:Eo; [done|]. destruct (fk_closed _ _ (fo_files _ _ Hs f fl E) Eo) as (_ & _ & Hn).
  unfold held in Hn. rewrite filter_cons_True in Hn by done. cbn [length] in Hn. lia.
Qed.

(** ** What the units are promised

    A way to pick a file answers on every consistent state; a unit that gets a
    file has a reference to it. *)
Class FilePicker (pick_file : files_td -> option (files_td * pick)) : Prop := {
  picks : forall s h, files_ok s h -> exists s' p, pick_file s = Some (s', p) /\
    match p with PickFile i => files_ok s' (i :: h) | _ => files_ok s' h end
}.

(** [set_io_u_file] over all files of the job. *)
Definition pick_unit_file (open_files type nr : Z) (close : close_env) (g : file_rand)
    (open_res : nat -> Z -> open_result) (fill_fails : nat -> Z -> bool) (s : files_td) : option (files_td * pick) :=
  '(s, _, p) ← set_io_u_file (Z.of_nat (length (files s))) open_files type nr close (fun x _ => x)
                 (S (length (files s))) s g open_res fill_fails;
  Some (s, p).

#[export] Instance unit_file_picker open_files type nr close g open_res fill_fails :
  (forall n i new_fd ok, open_res n i = Opened new_fd ok -> new_fd <> -1 /\ ok = true) ->
  type = FIO_FSERVICE_RR \/ type = FIO_FSERVICE_SEQ ->
  FilePicker (pick_unit_file open_files type nr close g open_res fill_fails).
Proof.
  intros Hopen Htype. split. intros s h Hs. pose proof (fo_next _ _ Hs).
  pose proof (count_files_bounds fio_file_done (files s)) as Hd. rewrite <- (fo_ndone _ _ Hs) in Hd.
  destruct (set_io_u_file_ok (Z.of_nat (length (files s))) open_files type nr close (fun x _ => x) open_res Hopen Htype
    ltac:(lia) (S (length (files s))) fill_fails g s h Hs eq_refl ltac:(lia)) as (t & p & E & Hp).
  unfold pick_unit_file. rewrite E. exists t, p. split; [done|]. destruct p; [apply Hp|done|done].
Qed.

(** ** Examples and witnesses *)
Definition no_close : close_env := CloseEnv false 0 0.
Definition no_rand : file_rand :=
  FileRand (State32 (Taus88 2 8 16)) (Zipf 0 dzero dzero dzero dzero (State32 (Taus88 2 8 16)) 0 false)
    (Gauss (State32 (Taus88 2 8 16)) 0 0 false).

(** Three files: the first is open with a unit on it, the second done, the third
    not open. *)
Definition demo_files : files_td :=
  FilesTd [File 7 2 (flag 0); File (-1) 0 (Z.lor (flag 1) (flag 3)); File (-1) 0 0] 1 1 1 None 0.

Lemma demo_files_ok : files_ok demo_files [0].
Proof.
  split; [|done|done|done|by vm_compute|done|intros i ->%list_elem_of_singleton; by vm_compute].
  intros i f [Hi Hf]%arr_get_Some. destruct (Z.to_nat i) as [|[|[|k]]] eqn:E; simplify_eq/=;
    (assert (i = 0 \/ i = 1 \/ i = 2) as [->|[->| ->]] by lia; try done); by split; vm_compute.
Qed.

Lemma get_next_file_rr_correct_witness :
  exists s' p, get_next_file_rr 3 8 no_close demo_files (fun _ => Opened 5 true) FIO_FILE_open FIO_FILE_closing = Some (s', p) /\
    p = PickFile 2 /\ rr_result 3 8 (fun _ => Opened 5 true) demo_files s' [0] p.
Proof.
  destruct (get_next_file_rr_correct 3 8 no_close (fun _ => Opened 5 true) demo_files [0] demo_files_ok)
    as (s' & p & E & H); [done|done|by intros ??? [= <- <-]|].
  exists s', p. split; [exact E|]. split; [|exact H]. vm_compute in E. by injection E as <- <-.
Defined.

Lemma set_io_u_file_total_witness :
  exists s' p, set_io_u_file 3 8 FIO_FSERVICE_RR 1 no_close (fun x _ => x) 3 demo_files no_rand (fun _ _ => Opened 5 true)
      (fun n i => i =? 2) = Some (s', no_rand, p) /\ p = PickFile 0 /\ files_ok s' [0; 0].
Proof.
  destruct (set_io_u_file_total 3 8 FIO_FSERVICE_RR 1 no_close (fun x _ => x) (fun _ _ => Opened 5 true)
    ltac:(by intros ???? [= <- <-]) (or_introl eq_refl) ltac:(done) 3 (fun n i => i =? 2) no_rand demo_files [0] demo_files_ok)
    as (s' & p & E & H); [done|done|].
  exists s', p. split; [exact E|]. assert (Ep : p = PickFile 0) by (vm_compute in E; by injection E as <- <-).
  subst p. split; [reflexivity|exact (proj1 H)].
Defined.

(** A file whose open is undone by a later check stays marked open, without a
    descriptor: the next turn hands it out as if it were usable. *)
Theorem failed_check_leaves_open :
  exists s1, td_io_open_file (FilesTd [File (-1) 0 0] 0 0 0 None 0) 0 (Opened 5 false) = Some (s1, 1) /\
    get_next_file_rr 1 8 no_close s1 (fun _ => OpenFailed) FIO_FILE_open FIO_FILE_closing = Some (s1, PickFile 0) /\
    exists f, arr_get (files s1) 0 = Some f /\ fio_file_open f = true /\ fd f = -1.
Proof. eexists. split; [reflexivity|]. split; [reflexivity|]. by eexists. Qed.

(** ** Random service stays inside the file table *)
Lemma shiftr_below n v k : 0 <= k -> 0 <= v < Z.shiftl n k -> 0 <= Z.shiftr v k < n.
Proof.
  intros Hk Hv. rewrite Z.shiftl_mul_pow2 in Hv by done. rewrite Z.shiftr_div_pow2 by done.
  assert (0 < 2 ^ k) by (apply Z.pow_pos_nonneg; lia).
  split; [apply Z.div_pos; lia|apply Z.div_lt_upper_bound; lia].
Qed.

(** A file drawn at random exists: the uniform draw always returns
    and lies below [nr_files] (with a 32-bit generator), and what the skewed
    distributions return, set up over [nr_files << FIO_FSERVICE_SHIFT] ranges as
    [init_rand_file_service] does, lies below [nr_files] too. *)
Theorem fileno_in_range nr_files type pow fuel g :
  0 < nr_files < 2 ^ 31 ->
  live (next_file_state g) -> rand_max (next_file_state g) = FRAND32_MAX ->
  z_nranges (next_file_zipf g) = Z.shiftl nr_files FIO_FSERVICE_SHIFT ->
  g_nranges (next_file_gauss g) = Z.shiftl nr_files FIO_FSERVICE_SHIFT ->
  (type = FIO_FSERVICE_RANDOM -> is_Some (__get_next_fileno_rand nr_files type pow fuel g)) /\
  forall g' fno, __get_next_fileno_rand nr_files type pow fuel g = Some (g', fno) -> 0 <= fno < nr_files.
Proof.
  intros Hn Hl Hm Hz Hg. unfold __get_next_fileno_rand.
  destruct (rand_draw _ Hl) as (st & r & Er & _ & _ & Hr). rewrite Er, Hm. rewrite Hm in Hr.
  change FRAND32_MAX with (2 ^ 32 - 1) in *.
  destruct (to_u32_scale nr_files r) as (k & Ek & Hk); [lia..|]. rewrite Ek.
  destruct (Z.eqb_spec type FIO_FSERVICE_RANDOM) as [->|Ht].
  { cbn [mbind option_bind]. split; [done|]. by intros g' fno [= <- <-]. }
  split; [done|]. intros g' fno H. apply bind_Some in H as ([g1 v] & Hv & H). injection H as <- <-.
  assert (Hsh : 0 < Z.shiftl nr_files FIO_FSERVICE_SHIFT).
  { rewrite Z.shiftl_mul_pow2 by done. change (2 ^ FIO_FSERVICE_SHIFT) with 1024. lia. }
  assert (Hb : 0 <= v < Z.shiftl nr_files FIO_FSERVICE_SHIFT).
  { repeat case_match; try discriminate Hv; apply bind_Some in Hv as ([z w] & Hw & Hv); simplify_eq.
    - rewrite <- Hz. eapply zipf_range; [by left|lia].
    - rewrite <- Hz. eapply zipf_range; [by right|lia].
    - rewrite <- Hg. eapply gauss_range; [done|lia]. }
  pose proof (shiftr_below nr_files v FIO_FSERVICE_SHIFT ltac:(done) Hb).
  rewrite wrap_small by (unfold uint; lia). done.
Qed.
