(* ===== verification/Buckets.v ===== *)
(** * Completion buckets: [io_u.c], [stat.c]

    How many units were submitted, completed or queued at a time, and how long
    they took, is counted in small arrays of [uint32_t] buckets.  A [switch]
    over ranges is a chain of tests; [bump] of [Stat] is [array[idx]++]. *)
From S2P Require Import Prelude Stat.

(** ** Submit, complete and depth maps *)
Definition map_idx (nr : Z) : Z :=
  if nr =? 0 then 0 else if nr <=? 4 then 1 else if nr <=? 8 then 2 else if nr <=? 16 then 3
  else if nr <=? 32 then 4 else if nr <=? 64 then 5 else 6.

Definition __io_u_mark_map (map : list Z) (nr : Z) : option (list Z) := bump map (map_idx nr).

(** [io_u_mark_submit] and [io_u_mark_complete]: the map and the total. *)
Definition io_u_mark_submit (map : list Z) (total nr : Z) : option (list Z * Z) :=
  map ← __io_u_mark_map map nr; Some (map, u64 (total + 1)).
Definition io_u_mark_complete (map : list Z) (total nr : Z) : option (list Z * Z) :=
  map ← __io_u_mark_map map nr; Some (map, u64 (total + 1)).

(** Depth 0 takes the [default] branch, like a depth of 64 and more. *)
Definition depth_idx (cur_depth : Z) : Z :=
  if cur_depth =? 1 then 0 else
  if (2 <=? cur_depth) && (cur_depth <=? 3) then 1 else
  if (4 <=? cur_depth) && (cur_depth <=? 7) then 2 else
  if (8 <=? cur_depth) && (cur_depth <=? 15) then 3 else
  if (16 <=? cur_depth) && (cur_depth <=? 31) then 4 else
  if (32 <=? cur_depth) && (cur_depth <=? 63) then 5 else 6.

Definition io_u_mark_depth (map : list Z) (cur_depth nr : Z) : option (list Z) :=
  v ← arr_get map (depth_idx cur_depth); arr_set map (depth_idx cur_depth) (u32 (v + nr)).

(** ** Latency buckets *)
Record lat_buckets := Lat { lat_n : list Z; lat_u : list Z; lat_m : list Z }.

(** The [switch] that [io_u_mark_lat_nsec] and [io_u_mark_lat_usec] share. *)
Definition lat_idx (t : Z) : Z :=
  if t <=? 1 then 0 else if t <=? 3 then 1 else if t <=? 9 then 2 else if t <=? 19 then 3
  else if t <=? 49 then 4 else if t <=? 99 then 5 else if t <=? 249 then 6
  else if t <=? 499 then 7 else if t <=? 749 then 8 else 9.

Definition io_u_mark_lat_nsec (b : lat_buckets) (nsec : Z) : option lat_buckets :=
  _ ← assert (nsec <? 1000);
  l ← bump (lat_n b) (lat_idx nsec); Some (Lat l (lat_u b) (lat_m b)).

Definition io_u_mark_lat_usec (b : lat_buckets) (usec : Z) : option lat_buckets :=
  _ ← assert ((usec <? 1000) && (1 <=? usec));
  l ← bump (lat_u b) (lat_idx usec); Some (Lat (lat_n b) l (lat_m b)).

Definition lat_msec_idx (msec : Z) : Z :=
  if msec <? 1000 then lat_idx msec else if msec <=? 1999 then 10 else 11.

Definition io_u_mark_lat_msec (b : lat_buckets) (msec : Z) : option lat_buckets :=
  _ ← assert (1 <=? msec);
  l ← bump (lat_m b) (lat_msec_idx msec); Some (Lat (lat_n b) (lat_u b) l).

Definition io_u_mark_latency (b : lat_buckets) (nsec : Z) : option lat_buckets :=
  if nsec <? 1000 then io_u_mark_lat_nsec b nsec
  else if nsec <? 1000000 then io_u_mark_lat_usec b (nsec / 1000)
  else io_u_mark_lat_msec b (nsec / 1000000).

Fixpoint mark_latencies (b : lat_buckets) (l : list Z) : option lat_buckets :=
  match l with
  | [] => Some b
  | x :: l => b ← io_u_mark_latency b x; mark_latencies b l
  end.

(** ** What the report prints

    [show_lat] labels bucket [i] with an upper bound ([stat.c]); the bucket
    counts the latencies below it and not below the bound before. *)
Definition ranges : list Z := [2; 4; 10; 20; 50; 100; 250; 500; 750; 1000].
Definition ranges_m : list Z := ranges ++ [2000].

(** The number of bounds at or below [t]. *)
Definition slot (bounds : list Z) (t : Z) : Z := Z.of_nat (length (filter (fun b => b <= t) bounds)).

(** The array (0 nanoseconds, 1 microseconds, 2 milliseconds) and the slot a
    latency belongs to, from the printed bounds alone. *)
Definition lat_place (nsec : Z) : nat * Z :=
  if decide (nsec < 1000) then (0%nat, slot ranges nsec)
  else if decide (nsec < 1000000) then (1%nat, slot ranges (nsec / 1000))
  else (2%nat, slot ranges_m (nsec / 1000000)).

Definition bucket (b : lat_buckets) (p : nat * Z) : Z :=
  default 0 (arr_get (match fst p with 0%nat => lat_n b | 1%nat => lat_u b | _ => lat_m b end) (snd p)).

Definition lat_shape (b : lat_buckets) : Prop :=
  length (lat_n b) = FIO_IO_U_LAT_N_NR /\ length (lat_u b) = FIO_IO_U_LAT_U_NR /\
  length (lat_m b) = FIO_IO_U_LAT_M_NR.

(** ** Correctness *)
Lemma slot_cons b bounds t : slot (b :: bounds) t = (if decide (b <= t) then 1 else 0) + slot bounds t.
Proof. unfold slot. rewrite filter_cons. case_decide; simpl length; lia. Qed.

Lemma slot_nil t : slot [] t = 0.
Proof. done. Qed.

(** Evaluate a slot: the bounds ascend, so a test that fails ends the count. *)
Ltac slots :=
  repeat (rewrite slot_cons; case_decide; try (exfalso; lia)); rewrite ?slot_nil.

Lemma lat_idx_slot t : 0 <= t < 1000 -> lat_idx t = slot ranges t.
Proof. intros Ht. unfold ranges, lat_idx. slots; repeat zcase; lia. Qed.

Lemma lat_msec_idx_slot t : 1 <= t -> lat_msec_idx t = slot ranges_m t.
Proof. intros Ht. unfold ranges_m, ranges, lat_msec_idx, lat_idx. cbn [app]. slots; repeat zcase; lia. Qed.

Lemma slot_bound bounds t : 0 <= slot bounds t <= Z.of_nat (length bounds).
Proof. unfold slot. pose proof (length_filter (fun b => b <= t) bounds). lia. Qed.

Lemma bump_get l i : 0 <= i < Z.of_nat (length l) ->
  exists l', bump l i = Some l' /\ length l' = length l /\
    forall j, 0 <= j -> default 0 (arr_get l' j) = (if j =? i then u32 (default 0 (arr_get l j) + 1) else default 0 (arr_get l j)).
Proof.
  intros Hi. unfold bump. destruct (arr_get_is_Some l i Hi) as [v Ev]. rewrite Ev. cbn [mbind option_bind].
  exists (<[Z.to_nat i := u32 (v + 1)]> l). rewrite arr_set_Some by lia. split; [done|].
  split; [apply length_insert|]. intros j Hj. rewrite arr_get_insert by lia.
  destruct (Z.eqb_spec j i) as [->|]; [by rewrite Ev|done].
Qed.

Lemma mark_latency_step b x : lat_shape b -> 0 <= x ->
  exists b', io_u_mark_latency b x = Some b' /\ lat_shape b' /\
    forall p, 0 <= snd p -> (fst p <= 2)%nat ->
      bucket b' p = if decide (p = lat_place x) then u32 (bucket b p + 1) else bucket b p.
Proof.
  intros (Hn & Hu & Hm) Hx. unfold io_u_mark_latency, lat_place.
  pose proof (slot_bound ranges x). pose proof (slot_bound ranges (x / 1000)).
  pose proof (slot_bound ranges_m (x / 1000000)).
  change (length ranges) with 10%nat in *. change (length ranges_m) with 11%nat in *.
  assert (Hlast : forall t, t < 1000 -> slot ranges t < 10).
  { intros t Ht. unfold ranges. slots; lia. }
  unfold lat_shape, FIO_IO_U_LAT_N_NR, FIO_IO_U_LAT_U_NR, FIO_IO_U_LAT_M_NR in *.
  destruct (Z.ltb_spec x 1000); [|destruct (Z.ltb_spec x 1000000)].
  - rewrite decide_True by done. unfold io_u_mark_lat_nsec. destruct (Z.ltb_spec x 1000); [|lia].
    cbn [assert mbind option_bind]. rewrite lat_idx_slot by lia. specialize (Hlast x).
    destruct (bump_get (lat_n b) (slot ranges x)) as (l & -> & Hl & Hg); [lia|]. cbn [mbind option_bind].
    eexists. split; [done|]. split; [by split_and!; simpl; congruence|].
    intros [[|[|a]] i] Hi Ha; unfold bucket; cbn [fst snd lat_n lat_u lat_m] in *;
      [|rewrite decide_False by congruence; done..].
    rewrite Hg by lia. case_decide; destruct (Z.eqb_spec i (slot ranges x)); congruence.
  - rewrite decide_False by lia. rewrite decide_True by lia. unfold io_u_mark_lat_usec.
    assert (1 <= x / 1000 < 1000) by zdm. specialize (Hlast (x / 1000)).
    destruct (Z.ltb_spec (x / 1000) 1000); [|lia]. destruct (Z.leb_spec 1 (x / 1000)); [|lia].
    cbn [andb assert mbind option_bind]. rewrite lat_idx_slot by lia.
    destruct (bump_get (lat_u b) (slot ranges (x / 1000))) as (l & -> & Hl & Hg); [lia|]. cbn [mbind option_bind].
    eexists. split; [done|]. split; [by split_and!; simpl; congruence|].
    intros [[|[|a]] i] Hi Ha; unfold bucket; cbn [fst snd lat_n lat_u lat_m] in *;
      [rewrite decide_False by congruence; done| |rewrite decide_False by congruence; done].
    rewrite Hg by lia. case_decide; destruct (Z.eqb_spec i (slot ranges (x / 1000))); congruence.
  - rewrite decide_False by lia. rewrite decide_False by lia. unfold io_u_mark_lat_msec.
    assert (1 <= x / 1000000) by zdm. destruct (Z.leb_spec 1 (x / 1000000)); [|lia].
    cbn [assert mbind option_bind]. rewrite lat_msec_idx_slot by lia.
    destruct (bump_get (lat_m b) (slot ranges_m (x / 1000000))) as (l & -> & Hl & Hg); [lia|]. cbn [mbind option_bind].
    eexists. split; [done|]. split; [by split_and!; simpl; congruence|].
    intros [[|[|a]] i] Hi Ha; unfold bucket; cbn [fst snd lat_n lat_u lat_m] in *;
      [rewrite decide_False by congruence; done..|].
    assert (a = 0%nat) as -> by lia.
    rewrite Hg by lia. case_decide; destruct (Z.eqb_spec i (slot ranges_m (x / 1000000))); congruence.
Qed.

(** The latencies of [l] that belong to place [p]. *)
Definition at_place (p : nat * Z) (l : list Z) : Z := Z.of_nat (length (filter (fun x => lat_place x = p) l)).

Lemma mark_latencies_count l : forall b, lat_shape b -> Forall (fun x => 0 <= x) l ->
  exists b', mark_latencies b l = Some b' /\ lat_shape b' /\
    forall p, 0 <= snd p -> (fst p <= 2)%nat -> u32 (bucket b' p) = u32 (bucket b p + at_place p l).
Proof.
  induction l as [|x l IH]; intros b Hb Hl; cbn [mark_latencies].
  { exists b. split_and!; [done..|]. intros p _ _. unfold at_place. simpl. by rewrite Z.add_0_r. }
  apply Forall_cons_iff in Hl as [Hx Hl].
  destruct (mark_latency_step b x Hb Hx) as (b1 & -> & Hb1 & H1). cbn [mbind option_bind].
  destruct (IH b1 Hb1 Hl) as (b2 & -> & Hb2 & H2). exists b2. split_and!; [done..|].
  intros p Hp Ha. rewrite (H2 p Hp Ha), (H1 p Hp Ha). unfold at_place. rewrite filter_cons.
  destruct (decide (p = lat_place x)) as [->|Hne].
  - rewrite decide_True by done. rewrite wrap_add_l by lia. simpl length. f_equal. lia.
  - by rewrite decide_False by congruence.
Qed.

Definition no_latencies : lat_buckets :=
  Lat (replicate FIO_IO_U_LAT_N_NR 0) (replicate FIO_IO_U_LAT_U_NR 0) (replicate FIO_IO_U_LAT_M_NR 0).

Lemma no_latencies_bucket p : bucket no_latencies p = 0.
Proof.
  unfold bucket, arr_get. destruct (0 <=? snd p); [|done].
  destruct p as [[|[|a]] i]; cbn [fst snd no_latencies lat_n lat_u lat_m];
    match goal with |- default 0 (replicate ?n 0 !! ?k) = 0 =>
      destruct (replicate n 0 !! k) eqn:E; [by apply lookup_replicate in E as [-> _]|done] end.
Qed.

(** Every completion is counted in the bucket its label promises: after any
    sequence of fewer than [2^32] latencies each bucket of the three arrays
    holds exactly the number of latencies below its printed bound and not below
    the bound before it, in its unit, and no assertion fails. *)
Theorem latencies_counted l p :
  Forall (fun x => 0 <= x) l -> Z.of_nat (length l) < 2 ^ 32 -> 0 <= snd p -> (fst p <= 2)%nat ->
  exists b, mark_latencies no_latencies l = Some b /\ u32 (bucket b p) = at_place p l.
Proof.
  intros Hl Hn Hp Ha.
  destruct (mark_latencies_count l no_latencies) as (b & E & _ & H); [done|done|].
  exists b. split; [done|]. rewrite H, no_latencies_bucket by done. apply wrap_small. unfold uint, at_place.
  pose proof (length_filter (fun x => lat_place x = p) l). lia.
Qed.

Lemma latencies_counted_witness :
  exists b, mark_latencies no_latencies [3; 15000; 2500000000; 16000] = Some b /\ u32 (bucket b (1%nat, 3)) = 2.
Proof.
  apply (latencies_counted [3; 15000; 2500000000; 16000] (1%nat, 3)); [|done|done|simpl; lia].
  repeat constructor; lia.
Defined.

(** The depth map is logarithmic: a depth of at least 1 falls in bucket
    [log2 depth], capped at 6; a batch of submissions or completions of more
    than 4 in bucket [log2_up nr - 1], capped at 6, smaller ones in bucket 1 and
    empty ones in bucket 0. *)
Theorem depth_buckets_log d nr : 1 <= d -> 4 < nr ->
  depth_idx d = Z.min 6 (Z.log2 d) /\ map_idx nr = Z.min 6 (Z.log2_up nr - 1).
Proof.
  intros Hd Hn. split.
  - pose proof (Z.log2_spec d ltac:(lia)) as Hl. unfold depth_idx.
    assert (Hcase : forall k, 0 <= k -> 2 ^ k <= d < 2 ^ (k + 1) -> Z.log2 d = k).
    { intros k Hk Hb. apply Z.log2_unique; [done|]. by rewrite <- Z.add_1_r. }
    assert (Hbig : 64 <= d -> 6 <= Z.log2 d) by (intros H; apply Z.log2_le_pow2; lia).
    pose proof (Hcase 0 ltac:(lia)). pose proof (Hcase 1 ltac:(lia)). pose proof (Hcase 2 ltac:(lia)).
    pose proof (Hcase 3 ltac:(lia)). pose proof (Hcase 4 ltac:(lia)). pose proof (Hcase 5 ltac:(lia)).
    clear Hcase Hl. zcase; [lia|].
    repeat (match goal with |- context [?a <=? ?b] => destruct (Z.leb_spec a b) end; cbn [andb]; try lia).
  - unfold map_idx.
    assert (Hcase : forall k, 0 < k -> 2 ^ (k - 1) < nr <= 2 ^ k -> Z.log2_up nr = k).
    { intros k Hk Hb. apply Z.log2_up_unique; [done|]. by rewrite <- Z.sub_1_r. }
    assert (Hbig : 64 < nr -> 7 <= Z.log2_up nr).
    { intros H. pose proof (Z.log2_log2_up_spec nr ltac:(lia)) as [_ Hu].
      destruct (Z.le_gt_cases 7 (Z.log2_up nr)); [done|].
      pose proof (Z.pow_le_mono_r 2 (Z.log2_up nr) 6). lia. }
    pose proof (Hcase 3 ltac:(lia)). pose proof (Hcase 4 ltac:(lia)). pose proof (Hcase 5 ltac:(lia)).
    pose proof (Hcase 6 ltac:(lia)). clear Hcase. repeat zcase; lia.
Qed.

Lemma depth_buckets_log_witness :
  depth_idx 20 = Z.min 6 (Z.log2 20) /\ map_idx 33 = Z.min 6 (Z.log2_up 33 - 1).
Proof. apply (depth_buckets_log 20 33); lia. Defined.
