(* ===== verification/LatTarget.v ===== *)
(** * The latency target: [io_u.c]

    [latency_target] makes fio search for the highest queue depth whose
    completions meet a latency: double the depth until it fails, then bisect.
    The state is the latency part of [struct thread_data].  The number of units
    completed so far is an argument, as draining the queue ([io_u_quiesce]) and
    the clock are outside the model. *)
From S2P Require Import Prelude CFloat.

Record lat_state := LatState {
  latency_qd : Z; latency_qd_high : Z; latency_qd_low : Z;
  latency_ios : Z; latency_failed : Z; latency_end_run : bool; td_done : bool
}.

Section target.
Context (iodepth : Z).

Definition lat_new_cycle (s : lat_state) (ios : Z) : lat_state :=
  LatState (latency_qd s) (latency_qd_high s) (latency_qd_low s) ios 0 (latency_end_run s) (td_done s).

(** The result [true] means the target cannot be met. *)
Definition __lat_target_failed (s : lat_state) (ios : Z) : lat_state * bool :=
  if latency_qd s =? 1 then (s, true) else
  let high := latency_qd s in
  let low := if latency_qd s =? latency_qd_low s then u32 (latency_qd_low s - 1) else latency_qd_low s in
  let qd := u32 (latency_qd s + low) / 2 in
  (lat_new_cycle (LatState qd high low (latency_ios s) (latency_failed s) (latency_end_run s) (td_done s)) ios,
   false).

(** [percentile] is the option [latency_percentile]. *)
Definition lat_target_failed (percentile : double) (s : lat_state) (ios : Z) : lat_state * bool :=
  if SpecFloat.SFeqb percentile (of_int 100) then __lat_target_failed s ios else
  (LatState (latency_qd s) (latency_qd_high s) (latency_qd_low s) (latency_ios s)
     (u32 (latency_failed s + 1)) (latency_end_run s) (td_done s), false).

Definition lat_target_init (target : bool) (s : lat_state) (ios : Z) : lat_state :=
  if target then LatState 1 iodepth 1 ios (latency_failed s) false (td_done s)
  else LatState iodepth (latency_qd_high s) (latency_qd_low s) (latency_ios s) (latency_failed s) false (td_done s).

Definition lat_target_reset (target : bool) (s : lat_state) (ios : Z) : lat_state :=
  if latency_end_run s then s else lat_target_init target s ios.

Definition lat_target_success (s : lat_state) (ios : Z) : lat_state :=
  let old := latency_qd s in
  let low := latency_qd s in
  let qd := if negb (latency_qd_high s =? iodepth) then u32 (latency_qd s + latency_qd_high s) / 2
            else u32 (latency_qd s * 2) in
  let qd := if iodepth <? qd then iodepth else qd in
  let '(er, dn) :=
    if qd =? old then (if latency_end_run s then (true, true) else (true, td_done s))
    else (latency_end_run s, td_done s) in
  lat_new_cycle (LatState qd (latency_qd_high s) low (latency_ios s) (latency_failed s) er dn) ios.

(** [window] tells whether [latency_window] has passed since the cycle began. *)
Definition lat_target_check (window : bool) (percentile : double) (s : lat_state) (total : Z) : lat_state :=
  if negb window then s else
  let ios := u64 (total - latency_ios s) in
  let success := dmul (ddiv (of_int (u64 (ios - latency_failed s))) (of_int ios)) (of_int 100) in
  if SpecFloat.SFleb percentile success then lat_target_success s total
  else fst (__lat_target_failed s total).

(** [queue_full], given whether the free list is empty. *)
Definition queue_full (qempty target : bool) (s : lat_state) (cur_depth : Z) : bool :=
  if qempty then true else if negb target then false else latency_qd s <=? cur_depth.

(** ** Bounds *)
Record lat_ok (s : lat_state) : Prop := {
  lk_low : 1 <= latency_qd_low s <= latency_qd s;
  lk_high : latency_qd s <= latency_qd_high s <= iodepth
}.
Context (Hdepth : 1 <= iodepth < 2 ^ 31).

Lemma failed_ok s ios : lat_ok s -> lat_ok (fst (__lat_target_failed s ios)).
Proof.
  intros [Hl Hh]. unfold __lat_target_failed. destruct (Z.eqb_spec (latency_qd s) 1); [by split|].
  destruct (Z.eqb_spec (latency_qd s) (latency_qd_low s)).
  - rewrite (wrap_small 32 (latency_qd_low s - 1)) by (unfold uint; lia).
    rewrite wrap_small by (unfold uint; lia). split; simpl; zdm.
  - rewrite wrap_small by (unfold uint; lia). split; simpl; zdm.
Qed.

Lemma success_ok s ios : lat_ok s -> lat_ok (lat_target_success s ios).
Proof.
  intros [Hl Hh]. unfold lat_target_success.
  set (q := if negb _ then _ else _). set (q' := if iodepth <? q then iodepth else q).
  assert (Hq : latency_qd s <= q' <= latency_qd_high s).
  { subst q' q. destruct (Z.eqb_spec (latency_qd_high s) iodepth); cbn [negb];
      rewrite wrap_small by (unfold uint; lia); zcase; zdm. }
  destruct (if q' =? _ then _ else _) as [er dn]. split; simpl; lia.
Qed.

Lemma lat_init_ok s ios : lat_ok (lat_target_init true s ios).
Proof. split; simpl; lia. Qed.

(** Whatever the measurements, the search keeps 1 <= low <= depth <= high <=
    iodepth: the depth used is never 0 and never above the job's, in every
    cycle of checks and failures from the initial state. *)
Theorem lat_target_bounds s percentile events :
  lat_ok s ->
  lat_ok (fold_left (fun s (e : bool * bool * Z) =>
    let '(is_check, window, total) := e in
    if is_check then lat_target_check window percentile s total
    else fst (lat_target_failed percentile s total)) events s).
Proof.
  revert s. induction events as [|[[c w] n] events IH]; intros s Hs; cbn [fold_left]; [done|].
  apply IH. destruct c.
  - unfold lat_target_check. destruct w; cbn [negb]; [|done].
    destruct (SpecFloat.SFleb _ _); [by apply success_ok|by apply failed_ok].
  - unfold lat_target_failed. destruct (SpecFloat.SFeqb _ _); [by apply failed_ok|].
    destruct Hs. by split.
Qed.

(** ** Convergence

    A device that meets the target up to depth [t] and not above. *)
Context (t : Z).

Definition lat_cycle (s : lat_state) : lat_state :=
  if latency_qd s <=? t then lat_target_success s 0 else fst (__lat_target_failed s 0).

Fixpoint lat_run (n : nat) (s : lat_state) : lat_state :=
  match n with
  | O => s
  | S n => if td_done s then s else lat_run n (lat_cycle s)
  end.

Lemma lat_run_step s n : td_done s = false -> lat_run (S n) s = lat_run n (lat_cycle s).
Proof. intros H. cbn [lat_run]. by rewrite H. Qed.

(** Reached after finitely many cycles. *)
Definition settles (s : lat_state) : Prop :=
  exists n, td_done (lat_run n s) = true /\ latency_qd (lat_run n s) = Z.min t iodepth.

Lemma settles_step s : td_done s = false -> settles (lat_cycle s) -> settles s.
Proof. intros H (n & H1 & H2). exists (S n). rewrite lat_run_step by done. done. Qed.

Lemma settles_done s : td_done s = true -> latency_qd s = Z.min t iodepth -> settles s.
Proof. intros H1 H2. exists 0%nat. done. Qed.

(** The bisection: the answer lies between the bounds. *)
Record bisect (s : lat_state) : Prop := {
  bi_low : 1 <= latency_qd_low s <= t;
  bi_high : t < latency_qd_high s < iodepth;
  bi_qd : latency_qd_low s <= latency_qd s < latency_qd_high s;
  bi_run : td_done s = false
}.

Definition bisect_measure (s : lat_state) : Z :=
  2 * (latency_qd_high s - latency_qd_low s) + (if latency_qd s =? latency_qd_low s then 1 else 0).

Lemma bisect_success s : bisect s -> latency_qd s <= t ->
  let q := (latency_qd s + latency_qd_high s) / 2 in
  lat_cycle s = LatState q (latency_qd_high s) (latency_qd s) 0 0
    (if q =? latency_qd s then true else latency_end_run s)
    (if q =? latency_qd s then latency_end_run s else false).
Proof.
  intros [Hl Hh Hq Hd] Ht q. unfold lat_cycle, lat_target_success.
  destruct (Z.leb_spec (latency_qd s) t); [|lia].
  destruct (Z.eqb_spec (latency_qd_high s) iodepth); [lia|]. cbn [negb].
  rewrite wrap_small by (unfold uint; lia). fold q.
  assert (q < iodepth) by (subst q; zdm). destruct (Z.ltb_spec iodepth q); [lia|].
  unfold lat_new_cycle. destruct (Z.eqb_spec q (latency_qd s)); [|by rewrite Hd].
  by destruct (latency_end_run s); [|rewrite Hd].
Qed.

Lemma bisect_settles_final s : bisect s -> latency_qd s = t -> latency_qd_high s = t + 1 -> settles s.
Proof.
  intros Hb Hq Hh. pose proof Hb as [Hl Hh' Hq' Hd]. apply settles_step; [done|].
  pose proof (bisect_success s Hb ltac:(lia)) as E. cbn zeta in E. rewrite Hq, Hh in E.
  replace ((t + (t + 1)) / 2) with t in E by zdm. rewrite Z.eqb_refl in E. rewrite E.
  destruct (latency_end_run s) eqn:Er.
  - apply settles_done; [done|simpl; lia].
  - set (s1 := LatState _ _ _ _ _ _ _).
    assert (Hb1 : bisect s1) by (split; simpl; lia || done).
    apply settles_step; [done|].
    pose proof (bisect_success s1 Hb1 ltac:(simpl; lia)) as E1. cbn in E1.
    replace ((t + (t + 1)) / 2) with t in E1 by zdm. rewrite Z.eqb_refl in E1.
    change (lat_cycle s1) with (lat_cycle s1) in E1. rewrite E1.
    apply settles_done; [done|simpl; lia].
Qed.

Lemma bisect_settles n : forall s, bisect s -> bisect_measure s < Z.of_nat n -> settles s.
Proof.
  induction n as [|n IH]; intros s Hb Hn; pose proof Hb as [Hl Hh Hq Hd]; unfold bisect_measure in Hn;
    destruct (Z.eqb_spec (latency_qd s) (latency_qd_low s)) as [Eq|Eq]; try lia.
  all: destruct (Z.le_gt_cases (latency_qd s) t) as [Ht|Ht]; [|try lia].
  all: try (destruct (Z.eq_dec (latency_qd_high s) (latency_qd s + 1)) as [E1|E1];
    [apply bisect_settles_final; [done|lia..]|];
    apply settles_step; [done|]; rewrite (bisect_success s Hb Ht);
    set (q := (latency_qd s + latency_qd_high s) / 2);
    assert (Hqq : latency_qd s < q < latency_qd_high s) by (subst q; zdm);
    destruct (Z.eqb_spec q (latency_qd s)); [lia|]; apply IH;
    [split; simpl; lia || done|unfold bisect_measure; simpl; destruct (Z.eqb_spec q (latency_qd s)); lia]).
  apply settles_step; [done|]. unfold lat_cycle, __lat_target_failed.
  destruct (Z.leb_spec (latency_qd s) t); [lia|]. destruct (Z.eqb_spec (latency_qd s) 1); [lia|].
  destruct (Z.eqb_spec (latency_qd s) (latency_qd_low s)); [lia|]. cbn [fst].
  rewrite wrap_small by (unfold uint; lia).
  set (q := (latency_qd s + latency_qd_low s) / 2).
  assert (Hqq : latency_qd_low s <= q < latency_qd s) by (subst q; zdm). apply IH.
  - split; simpl; lia || done.
  - unfold bisect_measure, lat_new_cycle. simpl. zcase; lia.
Qed.

(** Doubling: no failure yet, every depth so far met the target. *)
Lemma double_step s : latency_qd_high s = iodepth -> 1 <= latency_qd s <= iodepth ->
  latency_qd s <= t -> td_done s = false -> 2 * latency_qd s <= iodepth ->
  lat_cycle s = LatState (2 * latency_qd s) iodepth (latency_qd s) 0 0 (latency_end_run s) false.
Proof.
  intros Hh Hq Ht Hd H2. unfold lat_cycle, lat_target_success.
  destruct (Z.leb_spec (latency_qd s) t); [|lia]. rewrite Hh, Z.eqb_refl. cbn [negb].
  rewrite wrap_small by (unfold uint; lia). destruct (Z.ltb_spec iodepth (latency_qd s * 2)); [lia|].
  destruct (Z.eqb_spec (latency_qd s * 2) (latency_qd s)); [lia|]. unfold lat_new_cycle. simpl.
  rewrite Hd. f_equal. lia.
Qed.

(** From depth [2^j] to the first power of two above [t]. *)
Lemma double_settles m : forall j s, 0 <= j -> latency_qd s = 2 ^ j -> latency_qd_high s = iodepth ->
  td_done s = false -> 2 ^ j <= t -> t < 2 ^ (j + Z.of_nat m) < iodepth -> settles s.
Proof.
  induction m as [|m IH]; intros j s Hj Hq Hh Hd Ht Hm.
  { rewrite Nat2Z.inj_0, Z.add_0_r in Hm. lia. }
  assert (E2 : 2 * 2 ^ j = 2 ^ (j + 1)) by (rewrite Z.pow_add_r by lia; lia).
  assert (Hle : 2 ^ (j + 1) <= 2 ^ (j + Z.of_nat (S m))) by (apply Z.pow_le_mono_r; lia).
  assert (0 < 2 ^ j) by lia.
  apply settles_step; [done|]. rewrite double_step by (done || lia). rewrite Hq, E2.
  destruct (Z.le_gt_cases (2 ^ (j + 1)) t) as [Hc|Hc].
  - apply (IH (j + 1)); simpl; try lia; try done. replace (j + 1 + Z.of_nat m) with (j + Z.of_nat (S m)) by lia. lia.
  - set (s1 := LatState _ _ _ _ _ _ _). apply settles_step; [done|].
    assert (E1 : lat_cycle s1 = LatState ((2 ^ (j + 1) + 2 ^ j) / 2) (2 ^ (j + 1)) (2 ^ j) 0 0 (latency_end_run s) false).
    { unfold lat_cycle, __lat_target_failed. subst s1. cbn [latency_qd latency_qd_low latency_qd_high].
      destruct (Z.leb_spec (2 ^ (j + 1)) t); [lia|]. destruct (Z.eqb_spec (2 ^ (j + 1)) 1); [lia|].
      destruct (Z.eqb_spec (2 ^ (j + 1)) (2 ^ j)); [lia|]. cbn [fst]. unfold lat_new_cycle. simpl.
      rewrite wrap_small by (unfold uint; lia). done. }
    rewrite E1. eapply (bisect_settles (Z.to_nat (2 * 2 ^ (j + 1) + 2))).
    + split; simpl; try done; try lia; rewrite <- E2; zdm.
    + unfold bisect_measure. simpl. rewrite Z2Nat.id by lia. zcase; lia.
Qed.

(** When every depth meets the target the search climbs to the job's depth. *)
Lemma climb_settles n : forall s, latency_qd_high s = iodepth -> 1 <= latency_qd s <= iodepth ->
  td_done s = false -> iodepth <= t ->
  2 * (iodepth - latency_qd s) + (if latency_end_run s then 0 else 1) < Z.of_nat n -> settles s.
Proof.
  induction n as [|n IH]; intros s Hh Hq Hd Ht Hn; [destruct (latency_end_run s); lia|].
  apply settles_step; [done|]. unfold lat_cycle, lat_target_success.
  destruct (Z.leb_spec (latency_qd s) t); [|lia]. rewrite Hh, Z.eqb_refl. cbn [negb].
  rewrite wrap_small by (unfold uint; lia).
  set (q := if iodepth <? latency_qd s * 2 then iodepth else latency_qd s * 2).
  assert (Hqq : latency_qd s <= q <= iodepth /\ (q = latency_qd s -> q = iodepth)) by (subst q; zcase; lia).
  destruct (Z.eqb_spec q (latency_qd s)) as [E|E].
  - destruct (latency_end_run s) eqn:Er.
    + apply settles_done; [done|simpl; lia].
    + apply IH; simpl; lia || done.
  - apply IH; simpl; try lia; try done.
Qed.
End target.

(** C26. The search finds its answer: on a device that meets the target up to
    depth [t] and not above, the search from its initial state ends after
    finitely many cycles with depth [min t iodepth], provided that every depth
    of the job meets the target or that some power of two below the job's depth
    does not. *)
Theorem lat_target_converges iodepth t s0 :
  1 <= iodepth < 2 ^ 31 -> 1 <= t -> td_done s0 = false ->
  (iodepth <= t \/ exists k, t < 2 ^ k < iodepth) ->
  settles iodepth t (lat_target_init iodepth true s0 0).
Proof.
  intros Hd Ht Hs [Hc|(k & Hk)].
  - eapply (climb_settles iodepth Hd t (Z.to_nat (2 * iodepth + 2))); simpl; try done; lia.
  - assert (Hk0 : 0 < k).
    { destruct (Z.lt_trichotomy k 0) as [L|[->|L]]; [rewrite Z.pow_neg_r in Hk by done; lia|lia|done]. }
    assert (E0 : 0 + Z.of_nat (Z.to_nat k) = k) by lia.
    apply (double_settles iodepth Hd t (Z.to_nat k) 0); [lia|done|done|done|lia|by rewrite E0].
Qed.

Lemma lat_target_converges_witness :
  settles 64 11 (lat_target_init 64 true (LatState 0 0 0 0 0 false false) 0) /\
  latency_qd (lat_run 64 11 20 (lat_target_init 64 true (LatState 0 0 0 0 0 false false) 0)) = 11.
Proof.
  split; [|vm_compute; reflexivity].
  apply (lat_target_converges 64 11); [lia|lia|done|]. right. exists 4. lia.
Defined.

Lemma lat_target_bounds_witness :
  lat_ok 8 (fold_left (fun s (e : bool * bool * Z) =>
    let '(is_check, window, total) := e in
    if is_check then lat_target_check 8 window (of_int 100) s total
    else fst (lat_target_failed (of_int 100) s total))
    [(true, true, 5); (true, true, 9); (false, true, 3)]
    (lat_target_init 8 true (LatState 0 0 0 0 0 false false) 0)).
Proof. apply (lat_target_bounds 8); [lia|]. by split; simpl. Defined.

(** When the depth that first fails is the job's own, the search does not
    end: a failure at [iodepth] sets the upper bound to [iodepth], which also
    means that nothing has failed yet, so each success doubles back to it.  With
    a depth of 8 and a device good for 7, depths 7 and 8 alternate for ever. *)
Theorem lat_target_oscillates n :
  let s := lat_run 8 7 n (lat_target_init 8 true (LatState 0 0 0 0 0 false false) 0) in
  td_done s = false.
Proof.
  set (s0 := lat_target_init 8 true _ 0).
  assert (Hloop : forall n s, latency_qd_high s = 8 -> td_done s = false ->
    (latency_qd s = 8 /\ latency_qd_low s = 7) \/ (latency_qd s = 7) -> td_done (lat_run 8 7 n s) = false).
  { clear n. induction n as [|n IH]; intros s Hh Hd Hc; [done|]. rewrite lat_run_step by done.
    destruct Hc as [[Hq Hl]|Hq]; unfold lat_cycle; rewrite Hq.
    - apply IH; unfold __lat_target_failed; cbn; rewrite Hq; cbn; [done|done|]. rewrite Hl. right. done.
    - apply IH; unfold lat_target_success; cbn; rewrite Hh, Hq; cbn; [done|done|]. by left. }
  intros s. subst s. destruct n as [|[|[|[|[|[|n]]]]]]; [done..|].
  do 6 (rewrite lat_run_step by done). apply Hloop; vm_compute; auto.
Qed.
