(* ===== verification/IoULife.v ===== *)
(** * The life of an I/O unit: [io_u.c], [ioengines.c], [backend.c], [td_error.c]

    A job owns [iodepth] units.  A unit is taken from the free list (or from
    the ring of requeued units), gets a file and a range, is handed to the
    engine, and comes back: completed at once, queued and reaped later, refused,
    short or failed.  The units are an array, a unit is its index; the queues
    are those of [IoUQueue], the files those of [Files].  The engine's answers
    are arguments.  Jobs are those that run their I/O inline and without
    verification: no parent thread, no [end_io] hook, no piece of history and
    no asynchronous verify threads. *)
From S2P Require Import Prelude Flags IoUQueue Files Buckets LatTarget.

(** ** Directions *)
Definition DDIR_READ : Z := 0.
Definition DDIR_WRITE : Z := 1.
Definition DDIR_TRIM : Z := 2.
Definition DDIR_SYNC : Z := 3.
Definition DDIR_DATASYNC : Z := 4.
Definition DDIR_SYNC_FILE_RANGE : Z := 5.

Definition ddir_sync (d : Z) : bool := (d =? DDIR_SYNC) || (d =? DDIR_DATASYNC) || (d =? DDIR_SYNC_FILE_RANGE).
Definition ddir_rw (d : Z) : bool := (d =? DDIR_READ) || (d =? DDIR_WRITE) || (d =? DDIR_TRIM).

(** ** State *)
Definition IO_U_F_FREE : Z := flag 0.
Definition IO_U_F_FLIGHT : Z := flag 1.
Definition IO_U_F_NO_FILE_PUT : Z := flag 2.
Definition IO_U_F_IN_CUR_DEPTH : Z := flag 3.
Definition IO_U_F_BUSY_OK : Z := flag 4.
Definition IO_U_F_TRIMMED : Z := flag 5.
Definition IO_U_F_BARRIER : Z := flag 6.
Definition IO_U_F_VER_LIST : Z := flag 7.

Record io_u := IoUnit {
  file : option Z; flags : Z; ddir : Z; u_acct_ddir : Z;
  buflen : Z; offset : Z; xfer_buflen : Z; resid : Z; error : Z
}.

(** [acct_ddir]: the direction a unit is accounted under. *)
Definition acct_ddir (u : io_u) : Z := if u_acct_ddir u =? -1 then ddir u else u_acct_ddir u.

Definition with_flags (u : io_u) (fl : Z) : io_u :=
  IoUnit (file u) fl (ddir u) (u_acct_ddir u) (buflen u) (offset u) (xfer_buflen u) (resid u) (error u).
Definition with_file (u : io_u) (f : option Z) : io_u :=
  IoUnit f (flags u) (ddir u) (u_acct_ddir u) (buflen u) (offset u) (xfer_buflen u) (resid u) (error u).
Definition with_result (u : io_u) (r e : Z) : io_u :=
  IoUnit (file u) (flags u) (ddir u) (u_acct_ddir u) (buflen u) (offset u) (xfer_buflen u) r e.
Definition io_u_set (u : io_u) (f : Z) : io_u := with_flags u (set_flags (flags u) f).
Definition io_u_clear (u : io_u) (f : Z) : io_u := with_flags u (clear_flags (flags u) f).

(** Counters per direction of [struct thread_data] and [struct thread_stat]. *)
Record acct := Acct {
  io_issues : list Z; io_issue_bytes : list Z; rate_io_issue_bytes : list Z;
  io_blocks : list Z; io_bytes : list Z; this_io_blocks : list Z; this_io_bytes : list Z;
  td_bytes_done : list Z; total_io_u : list Z; short_io_u : list Z
}.

Record depth_marks := Marks {
  m_map : list Z; m_submit : list Z; m_total_submit : Z; m_complete : list Z; m_total_complete : Z
}.

Record td_errors := TdErrors { td_error : Z; total_err_count : Z; first_error : Z; td_terminate : bool }.

Record td := Td {
  units : list io_u;
  freelist : io_u_queue Z;
  requeues : io_u_ring Z;
  fs : files_td;
  cur_depth : Z;
  io_u_queued : Z;
  io_u_in_flight : Z;
  acc : acct;
  marks : depth_marks;
  errs : td_errors;
  last_was_sync : bool;
  last_ddir : Z
}.

Definition with_units (s : td) (us : list io_u) : td :=
  Td us (freelist s) (requeues s) (fs s) (cur_depth s) (io_u_queued s) (io_u_in_flight s) (acc s) (marks s)
    (errs s) (last_was_sync s) (last_ddir s).
Definition with_lists (s : td) (q : io_u_queue Z) (r : io_u_ring Z) (d : Z) : td :=
  Td (units s) q r (fs s) d (io_u_queued s) (io_u_in_flight s) (acc s) (marks s) (errs s) (last_was_sync s) (last_ddir s).
Definition with_fs (s : td) (f : files_td) : td :=
  Td (units s) (freelist s) (requeues s) f (cur_depth s) (io_u_queued s) (io_u_in_flight s) (acc s) (marks s)
    (errs s) (last_was_sync s) (last_ddir s).
Definition with_flight (s : td) (q f : Z) : td :=
  Td (units s) (freelist s) (requeues s) (fs s) (cur_depth s) q f (acc s) (marks s) (errs s) (last_was_sync s) (last_ddir s).
Definition with_acc (s : td) (a : acct) : td :=
  Td (units s) (freelist s) (requeues s) (fs s) (cur_depth s) (io_u_queued s) (io_u_in_flight s) a (marks s)
    (errs s) (last_was_sync s) (last_ddir s).
Definition with_marks (s : td) (m : depth_marks) : td :=
  Td (units s) (freelist s) (requeues s) (fs s) (cur_depth s) (io_u_queued s) (io_u_in_flight s) (acc s) m
    (errs s) (last_was_sync s) (last_ddir s).
Definition with_errs (s : td) (e : td_errors) : td :=
  Td (units s) (freelist s) (requeues s) (fs s) (cur_depth s) (io_u_queued s) (io_u_in_flight s) (acc s) (marks s)
    e (last_was_sync s) (last_ddir s).
Definition with_last (s : td) (b : bool) (d : Z) : td :=
  Td (units s) (freelist s) (requeues s) (fs s) (cur_depth s) (io_u_queued s) (io_u_in_flight s) (acc s) (marks s)
    (errs s) b d.

Definition unit_at (s : td) (i : Z) : option io_u := arr_get (units s) i.
Definition upd_unit (s : td) (i : Z) (u : io_u) : option td :=
  us ← arr_set (units s) i u; Some (with_units s us).

(** [array[d] += x] on [uint64_t] counters. *)
Definition add_at (l : list Z) (d x : Z) : option (list Z) := v ← arr_get l d; arr_set l d (u64 (v + x)).

(** ** Errors *)
Definition EIO : Z := 5.
Definition EILSEQ : Z := 84.
Definition ENOSPC : Z := 28.
Definition ERROR_TYPE_READ_BIT : Z := 0.
Definition ERROR_TYPE_WRITE_BIT : Z := 1.
Definition ERROR_TYPE_VERIFY_BIT : Z := 2.

Definition td_error_type (d err : Z) : Z :=
  if err =? EILSEQ then ERROR_TYPE_VERIFY_BIT
  else if d =? DDIR_READ then ERROR_TYPE_READ_BIT else ERROR_TYPE_WRITE_BIT.

Definition td_verror (s : td) (e : Z) : td :=
  if negb (td_error (errs s) =? 0) then s
  else with_errs s (TdErrors (u32 e) (total_err_count (errs s)) (first_error (errs s)) (td_terminate (errs s))).
Definition td_clear_error (s : td) : td :=
  with_errs s (TdErrors 0 (total_err_count (errs s)) (first_error (errs s)) (td_terminate (errs s))).
Definition update_error_count (s : td) (e : Z) : td :=
  let n := u32 (total_err_count (errs s) + 1) in
  with_errs s (TdErrors (td_error (errs s)) n (if n =? 1 then e else first_error (errs s)) (td_terminate (errs s))).
Definition fio_mark_td_terminate (s : td) : td :=
  with_errs s (TdErrors (td_error (errs s)) (total_err_count (errs s)) (first_error (errs s)) true).

(** The options a job's units depend on. *)
Record options := Options {
  iodepth_batch : Z; latency_target : bool; lat : lat_state; has_commit : bool; serialize_overlap : bool;
  continue_on_error : Z; ignore_error : Z -> option (list Z); error_dump : bool; fill_device : bool;
  real_file_size : Z -> Z; close_answer : close_env
}.

Section life.
Context (o : options).

Definition td_non_fatal_error (etype err : Z) : bool :=
  if negb (isset (continue_on_error o) (Z.shiftl 1 etype)) then false
  else existsb (Z.eqb err) (default [EIO; EILSEQ] (ignore_error o etype)).

(** ** Taking, returning and requeueing a unit *)
Definition GET_CLEARS : Z :=
  Z.lor (Z.lor (Z.lor (Z.lor IO_U_F_FREE IO_U_F_NO_FILE_PUT) IO_U_F_TRIMMED) IO_U_F_BARRIER) IO_U_F_VER_LIST.

(** [__get_io_u]: [None] as the unit is [NULL]. *)
Definition __get_io_u (stop_io : bool) (s : td) : option (td * option Z) :=
  if stop_io then Some (s, None) else
  '(s, i) ←
    (if negb (io_u_rempty (requeues s)) then
       '(r, i) ← io_u_rpop (requeues s); Some (with_lists s (freelist s) r (cur_depth s), i)
     else if negb (queue_full (io_u_qempty (freelist s)) (latency_target o) (lat o) (cur_depth s)) then
       '(q, i) ← io_u_qpop (freelist s);
       i ← i;
       let s := with_lists s q (requeues s) (cur_depth s) in
       u ← unit_at s i;
       s ← upd_unit s i (IoUnit None (flags u) (ddir u) (u_acct_ddir u) 0 (offset u) (xfer_buflen u) 0 (error u));
       Some (s, Some i)
     else Some (s, None));
  match i with
  | None => Some (s, None)
  | Some i =>
      u ← unit_at s i;
      _ ← assert (isset (flags u) IO_U_F_FREE);
      let u := io_u_clear u GET_CLEARS in
      let u := IoUnit (file u) (flags u) (ddir u) (-1) (buflen u) (offset u) (xfer_buflen u) (resid u) 0 in
      let s := with_lists s (freelist s) (requeues s) (u32 (cur_depth s + 1)) in
      s ← upd_unit s i (io_u_set u IO_U_F_IN_CUR_DEPTH);
      Some (s, Some i)
  end.

Definition put_file_log (s : td) (f : Z) : option td :=
  '(g, ret) ← put_file (fs s) f (close_answer o);
  let s := with_fs s g in
  Some (if negb (ret =? 0) then td_verror s ret else s).

Definition leave_depth (s : td) (u : io_u) : td :=
  if isset (flags u) IO_U_F_IN_CUR_DEPTH
  then with_lists s (freelist s) (requeues s) (u32 (cur_depth s - 1)) else s.

Definition put_io_u (s : td) (i : Z) : option td :=
  u ← unit_at s i;
  s ← match file u with
      | Some f => if negb (isset (flags u) IO_U_F_NO_FILE_PUT) then put_file_log s f else Some s
      | None => Some s
      end;
  let u := io_u_set (with_file u None) IO_U_F_FREE in
  s ← upd_unit s i u;
  let s := leave_depth s u in
  q ← io_u_qpush (freelist s) (Some i);
  Some (with_lists s q (requeues s) (cur_depth s)).

Definition clear_io_u (s : td) (i : Z) : option td :=
  u ← unit_at s i;
  s ← upd_unit s i (io_u_clear u IO_U_F_FLIGHT);
  put_io_u s i.

(** [td->io_issues[d]--] and its neighbours. *)
Definition with_issues (a : acct) (n b r : list Z) : acct :=
  Acct n b r (io_blocks a) (io_bytes a) (this_io_blocks a) (this_io_bytes a) (td_bytes_done a) (total_io_u a) (short_io_u a).

Definition requeue_io_u (s : td) (i : Z) : option td :=
  u ← unit_at s i;
  let d := acct_ddir u in
  let u := io_u_set u IO_U_F_FREE in
  s ← (if isset (flags u) IO_U_F_FLIGHT && ddir_rw d then
         n ← add_at (io_issues (acc s)) d (-1);
         Some (with_acc s (with_issues (acc s) n (io_issue_bytes (acc s)) (rate_io_issue_bytes (acc s))))
       else Some s);
  let u := io_u_clear u IO_U_F_FLIGHT in
  s ← upd_unit s i u;
  let s := leave_depth s u in
  r ← io_u_rpush (requeues s) (Some i);
  Some (with_lists s (freelist s) r (cur_depth s)).

(** ** Handing a unit to the engine *)
Definition FIO_Q_COMPLETED : Z := 0.
Definition FIO_Q_QUEUED : Z := 1.
Definition FIO_Q_BUSY : Z := 2.

(** The engine's [queue] hook returns a code and leaves a residual and an error
    in the unit. *)
Record answer := Answer { a_ret : Z; a_resid : Z; a_error : Z }.

Definition mark_depth (s : td) (nr : Z) : option td :=
  m ← io_u_mark_depth (m_map (marks s)) (cur_depth s) nr;
  Some (with_marks s (Marks m (m_submit (marks s)) (m_total_submit (marks s)) (m_complete (marks s)) (m_total_complete (marks s)))).
Definition mark_submit (s : td) (nr : Z) : option td :=
  '(m, t) ← io_u_mark_submit (m_submit (marks s)) (m_total_submit (marks s)) nr;
  Some (with_marks s (Marks (m_map (marks s)) m t (m_complete (marks s)) (m_total_complete (marks s)))).
Definition mark_complete (s : td) (nr : Z) : option td :=
  '(m, t) ← io_u_mark_complete (m_complete (marks s)) (m_total_complete (marks s)) nr;
  Some (with_marks s (Marks (m_map (marks s)) (m_submit (marks s)) (m_total_submit (marks s)) m t)).

(** [td_io_commit], with the answer of the engine's [commit] hook. *)
Definition td_io_commit (s : td) (commit_ret : Z) : option td :=
  if (cur_depth s =? 0) || (io_u_queued s =? 0) then Some s else
  s ← mark_depth s (io_u_queued s);
  let s := if has_commit o && negb (commit_ret =? 0) then td_verror s (- commit_ret) else s in
  Some (with_flight s 0 (u32 (io_u_in_flight s + io_u_queued s))).

Definition count_total (s : td) (d : Z) : option td :=
  if ddir_rw d || ddir_sync d then
    t ← add_at (total_io_u (acc s)) d 1;
    let a := acc s in
    Some (with_acc s (Acct (io_issues a) (io_issue_bytes a) (rate_io_issue_bytes a) (io_blocks a) (io_bytes a)
      (this_io_blocks a) (this_io_bytes a) (td_bytes_done a) t (short_io_u a)))
  else Some s.

(** [io_issues], [io_issue_bytes] and [rate_io_issue_bytes] before the queue
    hook, and undone when the engine is busy. *)
Definition issue (s : td) (d len : Z) (ver_list : bool) : option td :=
  if ddir_rw d then
    let a := acc s in
    n ← (if ver_list then Some (io_issues a) else add_at (io_issues a) d 1);
    b ← (if ver_list then Some (io_issue_bytes a) else add_at (io_issue_bytes a) d len);
    r ← add_at (rate_io_issue_bytes a) d len;
    Some (with_acc s (with_issues a n b r))
  else Some s.
Definition unissue (s : td) (d len : Z) : option td :=
  let a := acc s in
  n ← add_at (io_issues a) d (-1);
  b ← add_at (io_issue_bytes a) d (- len);
  r ← add_at (rate_io_issue_bytes a) d (- len);
  Some (with_acc s (with_issues a n b r)).

Definition td_io_queue (s : td) (i : Z) (a : answer) (commit_ret : Z) : option (td * Z) :=
  u ← unit_at s i;
  let d := acct_ddir u in
  let len := xfer_buflen u in
  _ ← assert (negb (isset (flags u) IO_U_F_FLIGHT));
  f ← file u;
  f ← arr_get (files (fs s)) f;
  _ ← assert (fio_file_open f);
  s ← issue s d len (isset (flags u) IO_U_F_VER_LIST);
  let u := with_result (io_u_set u IO_U_F_FLIGHT) (a_resid a) (a_error a) in
  let ret := a_ret a in
  '(s, u) ←
    (if (ret =? FIO_Q_BUSY) && ddir_rw d then
       s ← unissue s d len; Some (s, io_u_clear u IO_U_F_FLIGHT)
     else Some (s, u));
  s ← upd_unit s i u;
  let s := if negb (error u =? 0) && (td_error (errs s) =? 0) then td_verror s (error u) else s in
  s ← (if negb (has_commit o) || (ddir u =? DDIR_TRIM) then s ← mark_submit s 1; mark_complete s 1 else Some s);
  if ret =? FIO_Q_COMPLETED then
    s ← (if ddir_rw (ddir u) || ddir_sync (ddir u) then s ← mark_depth s 1; count_total s (ddir u) else Some s);
    Some (s, ret)
  else if ret =? FIO_Q_QUEUED then
    let s := with_flight s (u32 (io_u_queued s + 1)) (io_u_in_flight s) in
    s ← count_total s (ddir u);
    s ← (if iodepth_batch o <=? io_u_queued s then td_io_commit s commit_ret else Some s);
    Some (s, ret)
  else Some (s, ret).

(** [in_flight_overlap] over all units ([io_u_all]). *)
Definition overlaps (u v : io_u) : bool :=
  (offset u <? u64 (offset v + buflen v)) && (offset v <? u64 (offset u + buflen u)).
Definition in_flight_overlap (s : td) (u : io_u) : bool :=
  existsb (fun v => isset (flags v) IO_U_F_FLIGHT && overlaps u v) (units s).

Definition io_u_submit (s : td) (i : Z) (a : answer) (commit_ret : Z) : option (td * Z) :=
  u ← unit_at s i;
  if serialize_overlap o && (1 <? cur_depth s) && in_flight_overlap s u then Some (s, FIO_Q_BUSY)
  else td_io_queue s i a commit_ret.
(** ** Completion *)
Record icd := Icd { icd_error : Z; icd_bytes : list Z }.
Definition init_icd : icd := Icd 0 [0; 0; 0].

Definition io_u_log_error (s : td) (u : io_u) : td :=
  let eb := td_error_type (ddir u) (error u) in
  if td_non_fatal_error eb (error u) && negb (error_dump o) then s
  else if td_error (errs s) =? 0 then td_verror s (error u) else s.

Definition count_done (s : td) (d bytes : Z) (ver_list : bool) : option td :=
  let a := acc s in
  n ← add_at (io_blocks a) d 1;
  b ← add_at (io_bytes a) d bytes;
  tn ← (if ver_list then Some (this_io_blocks a) else add_at (this_io_blocks a) d 1);
  tb ← (if ver_list then Some (this_io_bytes a) else add_at (this_io_bytes a) d bytes);
  Some (with_acc s (Acct (io_issues a) (io_issue_bytes a) (rate_io_issue_bytes a) n b tn tb
    (td_bytes_done a) (total_io_u a) (short_io_u a))).

Definition io_completed (s : td) (i : Z) (c : icd) : option (td * icd) :=
  u ← unit_at s i;
  let d := ddir u in
  _ ← assert (isset (flags u) IO_U_F_FLIGHT);
  let u := io_u_clear u (Z.lor IO_U_F_FLIGHT IO_U_F_BUSY_OK) in
  s ← upd_unit s i u;
  if ddir_sync d then Some (with_last s true (last_ddir s), c) else
  let s := with_last s false d in
  '(s, c) ←
    (if (error u =? 0) && ddir_rw d then
       let bytes := u32 (buflen u - resid u) in
       s ← count_done s d bytes (isset (flags u) IO_U_F_VER_LIST);
       b ← add_at (icd_bytes c) d bytes;
       Some (s, Icd (icd_error c) b)
     else if negb (error u =? 0) then Some (io_u_log_error s u, Icd (error u) (icd_bytes c))
     else Some (s, c));
  if negb (icd_error c =? 0) then
    let eb := td_error_type d (icd_error c) in
    if negb (td_non_fatal_error eb (icd_error c)) then Some (s, c) else
    let s := td_clear_error (update_error_count s (icd_error c)) in
    s ← upd_unit s i (with_result u (resid u) 0);
    Some (s, Icd 0 (icd_bytes c))
  else Some (s, c).

Definition add_bytes_done (s : td) (c : icd) : option td :=
  let a := acc s in
  b0 ← arr_get (icd_bytes c) 0; l ← add_at (td_bytes_done a) 0 b0;
  b1 ← arr_get (icd_bytes c) 1; l ← add_at l 1 b1;
  b2 ← arr_get (icd_bytes c) 2; l ← add_at l 2 b2;
  Some (with_acc s (Acct (io_issues a) (io_issue_bytes a) (rate_io_issue_bytes a) (io_blocks a) (io_bytes a)
    (this_io_blocks a) (this_io_bytes a) l (total_io_u a) (short_io_u a))).

Definition finish_icd (s : td) (c : icd) (ret : Z) : option (td * Z) :=
  if negb (icd_error c =? 0) then Some (td_verror s (icd_error c), -1)
  else s ← add_bytes_done s c; Some (s, ret).

Definition io_u_sync_complete (s : td) (i : Z) : option (td * Z) :=
  '(s, c) ← io_completed s i init_icd;
  s ← put_io_u s i;
  finish_icd s c 0.

(** The engine's [event] hook names a finished unit, in which it has left the
    residual and the error. *)
Record event := Event { ev_unit : Z; ev_resid : Z; ev_error : Z }.

Definition take_event (s : td) (e : event) : option td :=
  u ← unit_at s (ev_unit e); upd_unit s (ev_unit e) (with_result u (ev_resid e) (ev_error e)).

Fixpoint ios_completed (s : td) (evs : list event) (c : icd) : option (td * icd) :=
  match evs with
  | [] => Some (s, c)
  | e :: evs =>
      s ← take_event s e;
      '(s, c) ← io_completed s (ev_unit e) c;
      s ← put_io_u s (ev_unit e);
      ios_completed s evs c
  end.

(** The engine's [getevents] hook returns finished units or a negative code. *)
Inductive ev_answer := Events (l : list event) | EvError (r : Z).

Definition td_io_getevents (s : td) (min max commit_ret : Z) (a : ev_answer) : option (td * ev_answer) :=
  let r :=
    if (0 <? min) && has_commit o && (commit_ret <? 0) then EvError commit_ret else
    let max := if cur_depth s <? max then cur_depth s else max in
    let max := if max <? min then min else max in
    if max =? 0 then Events [] else a in
  match r with
  | Events l =>
      let n := Z.of_nat (length l) in
      let s := with_flight s (io_u_queued s) (u32 (io_u_in_flight s - n)) in
      s ← mark_complete s n; Some (s, r)
  | EvError e => Some (td_verror s e, r)
  end.

(** [io_u_queued_complete], given [iodepth_batch_complete_max]. *)
Definition io_u_queued_complete (s : td) (min_evts max_evts commit_ret : Z) (a : ev_answer) : option (td * Z) :=
  let min := if negb (min_evts =? 0) && (cur_depth s <? min_evts) then cur_depth s else min_evts in
  '(s, r) ← td_io_getevents s min max_evts commit_ret a;
  match r with
  | EvError e => Some (td_verror s (- e), e)
  | Events [] => Some (s, 0)
  | Events l =>
      '(s, c) ← ios_completed s l init_icd;
      finish_icd s c (Z.of_nat (length l))
  end.

(** [io_u_quiesce]: commit, then reap until nothing is in flight; the answers
    of the rounds come from [eng]. *)
Fixpoint quiesce_loop (fuel : nat) (s : td) (max_evts : Z) (eng : nat -> td -> Z * ev_answer) (completed : Z) :
    option (td * Z) :=
  if io_u_in_flight s =? 0 then Some (s, completed) else
  match fuel with
  | O => None
  | S fuel =>
      let '(cr, a) := eng fuel s in
      '(s, ret) ← io_u_queued_complete s 1 max_evts cr a;
      quiesce_loop fuel s max_evts eng (if 0 <? ret then completed + ret else completed)
  end.

Definition io_u_quiesce (fuel : nat) (s : td) (max_evts commit_ret : Z) (eng : nat -> td -> Z * ev_answer) :
    option (td * Z) :=
  s ← (if negb (io_u_queued s =? 0) || negb (cur_depth s =? 0) then td_io_commit s commit_ret else Some s);
  quiesce_loop fuel s max_evts eng 0.

(** ** After the queue hook *)
Definition break_on_this_error (s : td) (d ret : Z) : td * Z * bool :=
  if (ret <? 0) || negb (td_error (errs s) =? 0) then
    let err := if ret <? 0 then - ret else td_error (errs s) in
    let eb := td_error_type d err in
    if negb (isset (continue_on_error o) (Z.shiftl 1 eb)) then (s, ret, true) else
    if td_non_fatal_error eb err then (td_clear_error (update_error_count s err), 0, false)
    else if fill_device o && (err =? ENOSPC) then (fio_mark_td_terminate (td_clear_error s), ret, true)
    else (update_error_count s err, ret, true)
  else (s, ret, false).

Definition count_short (s : td) (d : Z) : option td :=
  if ddir_rw d then
    t ← add_at (short_io_u (acc s)) d 1;
    let a := acc s in
    Some (with_acc s (Acct (io_issues a) (io_issue_bytes a) (rate_io_issue_bytes a) (io_blocks a) (io_bytes a)
      (this_io_blocks a) (this_io_bytes a) (td_bytes_done a) (total_io_u a) t))
  else Some s.

(** The switch of [io_queue_event]: the state, the code and the bytes issued. *)
Definition queue_event (s : td) (i ret : Z) (bytes_issued commit_ret : Z) : option (td * Z * Z) :=
  u ← unit_at s i;
  if ret =? FIO_Q_COMPLETED then
    if negb (error u =? 0) then
      s ← clear_io_u s i; Some (s, - error u, bytes_issued)
    else if negb (resid u =? 0) then
      let bytes := sgn 32 (xfer_buflen u - resid u) in
      let bytes_issued := u64 (bytes_issued + bytes) in
      if bytes =? 0 then
        let s := td_verror s EIO in s ← put_io_u s i; Some (s, ret, bytes_issued)
      else
        let u := IoUnit (file u) (flags u) (ddir u) (u_acct_ddir u) (buflen u) (u64 (offset u + bytes))
                   (resid u) (resid u) (error u) in
        s ← upd_unit s i u;
        s ← count_short s (ddir u);
        f ← file u;
        if offset u =? real_file_size o f then '(s, ret) ← io_u_sync_complete s i; Some (s, ret, bytes_issued)
        else s ← requeue_io_u s i; Some (s, ret, bytes_issued)
    else '(s, ret) ← io_u_sync_complete s i; Some (s, ret, bytes_issued)
  else if ret =? FIO_Q_QUEUED then Some (s, ret, u64 (bytes_issued + xfer_buflen u))
  else if ret =? FIO_Q_BUSY then
    s ← requeue_io_u s i; s ← td_io_commit s commit_ret; Some (s, ret, bytes_issued)
  else _ ← assert (ret <? 0); Some (td_verror s (- ret), ret, bytes_issued).

(** [io_queue_event] outside verification; the boolean ends the job's loop. *)
Definition io_queue_event (s : td) (i ret d bytes_issued commit_ret : Z) : option (td * Z * Z * bool) :=
  '(s, ret, bytes) ← queue_event s i ret bytes_issued commit_ret;
  let '(s, ret, brk) := break_on_this_error s d ret in
  Some (s, ret, bytes, brk).

(** The two calls of the job loop that hand a unit over. *)
Definition submit_unit (s : td) (i : Z) (a : answer) (bytes_issued cr1 cr2 : Z) : option (td * Z * Z * bool) :=
  u ← unit_at s i;
  '(s, ret) ← io_u_submit s i a cr1;
  io_queue_event s i ret (ddir u) bytes_issued cr2.

(** ** Getting a unit ready

    [get_io_u] for a job that neither replays a log nor verifies or trims behind
    its writes.  [pick] is what [set_io_u_file] returns with the new file state,
    [range] the direction, offset and length that [fill_io_u] chose, [prep] the
    engine's [prep] hook.  The result is the unit, nothing, or an error code. *)
Definition get_io_u (stop_io : bool) (s : td) (pick_file : files_td -> option (files_td * pick))
    (range : Z * Z * Z) (prep : Z) : option (td * (option Z + Z)) :=
  '(s, i) ← __get_io_u stop_io s;
  match i with
  | None => Some (s, inl None)
  | Some i =>
      u ← unit_at s i;
      '(s, err) ←
        match file u with
        | Some _ => Some (s, None)
        | None =>
            '(g, p) ← pick_file (fs s);
            let s := with_fs s g in
            match p with
            | PickErr _ => Some (s, Some (- EBUSY))
            | PickNull => Some (s, Some 0)
            | PickFile f =>
                let '(d, off, len) := range in
                s ← upd_unit s i (IoUnit (Some f) (flags u) d d len off len (resid u) (error u));
                fl ← arr_get (files g) f;
                _ ← assert (fio_file_open fl);
                Some (s, if ddir_rw d && (len =? 0) then Some 0 else None)
            end
        end;
      match err with
      | Some e => s ← put_io_u s i; Some (s, if e =? 0 then inl None else inr e)
      | None => if prep =? 0 then Some (s, inl (Some i)) else s ← put_io_u s i; Some (s, inl None)
      end
  end.
End life.
