(* ===== verification/IoULifeInv.v ===== *)
(** * The invariant of a job's units

    Where every unit is, what the counters mean, and that every operation of
    [IoULife] keeps it so: no assertion of the source fails, no unit is lost or
    duplicated, files stay open while a unit uses them, and issued I/O is
    accounted for. *)
From S2P Require Import Prelude Flags IoUQueue Files Buckets Stat LatTarget IoULife.

(** ** The parts of the invariant

    [F] and [R] are the units of the free list and of the requeue ring, [E] those
    with [IO_U_F_FLIGHT] set: the engine has them, except for the [x] that it has
    just handed back.  The job has [depth] units. *)
(** Evaluate the flags of a unit after some were set or cleared. *)
Ltac uflags :=
  unfold io_u_set, io_u_clear, GET_CLEARS, IO_U_F_FREE, IO_U_F_FLIGHT, IO_U_F_NO_FILE_PUT, IO_U_F_IN_CUR_DEPTH,
    IO_U_F_BUSY_OK, IO_U_F_TRIMMED, IO_U_F_BARRIER, IO_U_F_VER_LIST in *;
  cbn [flags with_flags with_file with_result file ddir u_acct_ddir buflen offset xfer_buflen resid error] in *;
  change (Z.lor ?a ?b) with (set_flags a b); flags_in_goal.

Section invariant.
Context (depth : Z).

Definition queues_ok (s : td) (F R : list Z) : Prop :=
  let n := Z.of_nat (length (units s)) in
  n < 2 ^ 31 /\ queue_wf (freelist s) /\ qmax (freelist s) = n /\ stacked (freelist s) = Some <$> F /\
  (exists k, ring_wf k (requeues s)) /\ n < rmax (requeues s) /\ queued (requeues s) = Some <$> R /\
  cur_depth s = n - Z.of_nat (length (F ++ R)).

Record unit_ok (R F E : list Z) (i : Z) (u : io_u) : Prop := {
  uo_free : isset (flags u) IO_U_F_FREE = bool_decide (i ∈ F ++ R);
  uo_flight : isset (flags u) IO_U_F_FLIGHT = bool_decide (i ∈ E);
  uo_excl : i ∈ F ++ R -> i ∉ E;
  uo_depth : i ∉ F ++ R -> isset (flags u) IO_U_F_IN_CUR_DEPTH = true;
  uo_put : isset (flags u) IO_U_F_NO_FILE_PUT = false;
  uo_ver : isset (flags u) IO_U_F_VER_LIST = false;
  uo_file : i ∈ R \/ i ∈ E -> is_Some (file u);
  uo_nofile : i ∈ F -> file u = None;
  uo_ddir : is_Some (file u) -> 0 <= ddir u <= 3 /\ (u_acct_ddir u = -1 \/ u_acct_ddir u = ddir u)
}.

Record units_ok (us : list io_u) (F R E : list Z) : Prop := {
  us_units : forall i u, arr_get us i = Some u -> unit_ok R F E i u;
  us_free : NoDup (F ++ R);
  us_eng : NoDup E;
  us_range : forall i, i ∈ F ++ R \/ i ∈ E -> 0 <= i < Z.of_nat (length us);
  us_count : Z.of_nat (length us) = depth
}.

Definition flight_ok (s : td) (E : list Z) (x : Z) : Prop :=
  uint 32 (io_u_queued s) /\ uint 32 (io_u_in_flight s) /\
  u32 (io_u_queued s + io_u_in_flight s) = u32 (Z.of_nat (length E) - x).

Definition holders (us : list io_u) : list Z := omap file us.

Definition shape (a : acct) (m : depth_marks) : Prop :=
  length (io_issues a) = 3%nat /\ length (io_issue_bytes a) = 3%nat /\ length (rate_io_issue_bytes a) = 3%nat /\
  length (io_blocks a) = 3%nat /\ length (io_bytes a) = 3%nat /\ length (this_io_blocks a) = 3%nat /\
  length (this_io_bytes a) = 3%nat /\ length (td_bytes_done a) = 3%nat /\ length (total_io_u a) = 4%nat /\
  length (short_io_u a) = 3%nat /\
  length (m_map m) = 7%nat /\ length (m_submit m) = 7%nat /\ length (m_complete m) = 7%nat.

Record life_ok (s : td) (F R E : list Z) (x : Z) : Prop := {
  lo_queues : queues_ok s F R;
  lo_units : units_ok (units s) F R E;
  lo_flight : flight_ok s E x;
  lo_files : files_ok (fs s) (holders (units s));
  lo_shape : shape (acc s) (marks s)
}.

(** ** Lemmas on the parts *)
Lemma holders_split us i u : us !! i = Some u ->
  exists rest, holders us ≡ₚ option_list (file u) ++ rest /\
    forall u', holders (<[i := u']> us) ≡ₚ option_list (file u') ++ rest.
Proof.
  intros (l1 & l2 & -> & ->)%list_elem_of_split_length. exists (holders l1 ++ holders l2). unfold holders.
  assert (Hom : forall v, omap file (l1 ++ v :: l2) ≡ₚ option_list (file v) ++ omap file l1 ++ omap file l2).
  { intros v. rewrite omap_app. simpl. destruct (file v); simpl; [|done]. by rewrite Permutation_middle. }
  split; [apply Hom|]. intros u'. rewrite <- (Nat.add_0_r (length l1)), insert_app_r. apply Hom.
Qed.

(** One unit moves: the lists change for it alone. *)
Lemma units_ok_upd us F R E F' R' E' i u' : units_ok us F R E -> 0 <= i < Z.of_nat (length us) ->
  (forall j, j <> i -> (j ∈ F' <-> j ∈ F) /\ (j ∈ R' <-> j ∈ R) /\ (j ∈ E' <-> j ∈ E)) ->
  NoDup (F' ++ R') -> NoDup E' -> unit_ok R' F' E' i u' ->
  units_ok (<[Z.to_nat i := u']> us) F' R' E'.
Proof.
  intros [H1 H2 H3 H4 H5] Hi Hoth Hf He Hu. split; [|done|done| |by rewrite length_insert].
  - intros j v Hj. rewrite arr_get_insert in Hj by (apply arr_get_bounds in Hj; lia).
    destruct (Z.eqb_spec j i) as [->|Hne]; [by injection Hj as <-|].
    destruct (H1 j v Hj) as [K1 K2 K3 K4 K5 K6 K7 K8 K9]. destruct (Hoth j Hne) as (EF & ER & EE).
    assert (EFR : j ∈ F' ++ R' <-> j ∈ F ++ R) by (rewrite !elem_of_app; tauto).
    split; try done.
    + rewrite K1. by apply bool_decide_ext.
    + rewrite K2. by apply bool_decide_ext.
    + rewrite EFR, EE. done.
    + rewrite EFR. done.
    + rewrite ER, EE. done.
    + rewrite EF. done.
  - intros j Hj. rewrite length_insert. destruct (Z.eq_dec j i) as [->|Hne]; [done|].
    destruct (Hoth j Hne) as (EF & ER & EE). apply H4. rewrite elem_of_app in *. tauto.
Qed.

Lemma units_ok_perm us F R E F' E' : units_ok us F R E -> F = F' -> E ≡ₚ E' -> units_ok us F' R E'.
Proof.
  intros [H1 H2 H3 H4 H5] <- HE. split; [|done|by rewrite <- HE|intros i; rewrite <- HE; apply H4|done].
  intros i u Hu. destruct (H1 i u Hu) as [K1 K2 K3 K4 K5 K6 K7 K8 K9].
  split; try done; [rewrite K2; apply bool_decide_ext; by rewrite HE| |]; by rewrite <- HE.
Qed.

Lemma life_ok_perm s F R E E' x : life_ok s F R E x -> E ≡ₚ E' -> life_ok s F R E' x.
Proof.
  intros [H1 H2 H3 H4 H5] HE. split; try done; [by eapply units_ok_perm|].
  unfold flight_ok in *. by rewrite <- HE.
Qed.

Lemma add_at_ok l d v : 0 <= d < Z.of_nat (length l) ->
  exists l', add_at l d v = Some l' /\ length l' = length l /\
    forall j, 0 <= j -> default 0 (arr_get l' j) = if j =? d then u64 (default 0 (arr_get l d) + v) else default 0 (arr_get l j).
Proof.
  intros Hd. unfold add_at. destruct (arr_get_is_Some l d Hd) as [w Ew]. rewrite Ew. cbn [mbind option_bind].
  rewrite arr_set_Some by done. eexists. split; [done|]. split; [apply length_insert|].
  intros j Hj. rewrite arr_get_insert by lia. by destruct (Z.eqb_spec j d).
Qed.

Lemma unit_at_upd s i u u' : unit_at s i = Some u ->
  upd_unit s i u' = Some (with_units s (<[Z.to_nat i := u']> (units s))).
Proof. intros H%arr_get_bounds. unfold upd_unit. by rewrite arr_set_Some. Qed.

Lemma in_range_length (l : list Z) m : NoDup l -> (forall x, x ∈ l -> 0 <= x < m) -> 0 <= m -> Z.of_nat (length l) <= m.
Proof.
  intros Hd Hr Hn. assert (Hs : l ⊆+ seqZ 0 m).
  { apply NoDup_submseteq; [done|]. intros x Hx. apply elem_of_seqZ. specialize (Hr x Hx). lia. }
  apply submseteq_length in Hs. rewrite length_seqZ in Hs. lia.
Qed.

Lemma free_room us F R E i : units_ok us F R E -> 0 <= i < Z.of_nat (length us) -> i ∉ F ++ R ->
  Z.of_nat (length (F ++ R)) < Z.of_nat (length us).
Proof.
  intros [_ Hd _ Hr _] Hi Hn. assert (H := in_range_length (i :: F ++ R) (Z.of_nat (length us))).
  cbn [length] in H. ospecialize (H _ _ _); [by constructor| |lia|lia].
  intros x [->|Hx]%elem_of_cons; [done|]. apply Hr. by left.
Qed.

(** The counters and everything else a step leaves alone. *)
Definition same_flight (s s' : td) : Prop :=
  io_u_queued s' = io_u_queued s /\ io_u_in_flight s' = io_u_in_flight s.

Section ops.
Context (o : options).

Lemma put_file_log_ok s f rest : files_ok (fs s) (f :: rest) ->
  exists s' g e, put_file_log o s f = Some s' /\ s' = with_errs (with_fs s g) e /\ files_ok g rest.
Proof.
  intros Hs. unfold put_file_log.
  destruct (arr_get_is_Some (files (fs s)) f) as [g Hg]; [apply (fo_held _ _ Hs); by left|].
  destruct (put_file_ok (fs s) rest f g (close_answer o) Hs Hg) as (s' & ret & f' & -> & Hok & _). cbn [mbind option_bind].
  unfold td_verror. destruct (negb (ret =? 0)); [|by exists (with_fs s s'), s', (errs s); destruct s].
  destruct (negb _); [|by eexists _, _, _]. exists (with_fs s s'), s', (errs s). by destruct s.
Qed.
Lemma put_io_u_ok s F R E x i u : life_ok s F R E x -> unit_at s i = Some u -> i ∉ F ++ R -> i ∉ E ->
  exists s', put_io_u o s i = Some s' /\ life_ok s' (F ++ [i]) R E x /\ acc s' = acc s /\ marks s' = marks s /\
    same_flight s s' /\ units s' = <[Z.to_nat i := io_u_set (with_file u None) IO_U_F_FREE]> (units s).
Proof.
  intros [Hq Hu Hfl Hfs Hsh] Hi Hfree Heng. pose proof (arr_get_bounds _ _ _ Hi) as Hb.
  destruct (us_units _ _ _ _ Hu i u Hi) as [K1 K2 K3 K4 K5 K6 K7 K8 K9].
  assert (Hl : units s !! Z.to_nat i = Some u) by (apply arr_get_Some in Hi; tauto).
  destruct (holders_split _ _ _ Hl) as (rest & Hh & Hh').
  assert (Hput : exists s1 g e, (match file u with
      | Some f => if negb (isset (flags u) IO_U_F_NO_FILE_PUT) then put_file_log o s f else Some s
      | None => Some s end) = Some s1 /\ s1 = with_errs (with_fs s g) e /\ files_ok g rest).
  { rewrite K5. cbn [negb]. destruct (file u) as [f|]; simpl in Hh.
    - apply put_file_log_ok. by eapply files_ok_perm.
    - exists s, (fs s), (errs s). split; [done|]. split; [by destruct s|]. by eapply files_ok_perm. }
  destruct Hput as (s1 & g & e & Hput & -> & Hg).
  unfold put_io_u. rewrite Hi. cbn [mbind option_bind]. rewrite Hput. cbn [mbind option_bind].
  rewrite (unit_at_upd _ _ u) by done. cbn [mbind option_bind].
  assert (Hd : isset (flags (io_u_set (with_file u None) IO_U_F_FREE)) IO_U_F_IN_CUR_DEPTH = true).
  { uflags. by apply K4. }
  unfold leave_depth. rewrite Hd. cbn [freelist with_lists].
  destruct Hq as (Hn & Hqw & Hqm & Hqs & Hrw & Hrm & Hrq & Hcd). pose proof (free_room _ _ _ _ _ Hu Hb Hfree) as Hroom.
  rewrite length_app in Hroom. pose proof (stacked_length _ Hqw) as Hsl. rewrite Hqs, length_fmap in Hsl.
  destruct (qpush_spec (freelist s) (Some i) Hqw) as (q' & Eq & Hqw' & Hqs'); [lia|].
  change (freelist (with_units (with_errs (with_fs s g) e) (<[Z.to_nat i:=io_u_set (with_file u None) IO_U_F_FREE]> (units (with_errs (with_fs s g) e))))) with (freelist s).
  rewrite Eq. cbn [mbind option_bind]. eexists. split; [done|]. split; [|done].
  assert (Hqm' : qmax q' = qmax (freelist s)).
  { unfold io_u_qpush in Eq. destruct (qnr (freelist s) <? qmax (freelist s)); [|done].
    apply bind_Some in Eq as (? & _ & Eq). by injection Eq as <-. }
  split; simpl.
  - unfold queues_ok. simpl. rewrite length_insert, !length_app. cbn [length].
    rewrite Hcd, !length_app in *. rewrite wrap_small by (unfold uint; lia).
    split_and!; try done; [lia|rewrite Hqs', Hqs, fmap_app; done|lia].
  - eapply units_ok_upd; [done|done| | |by destruct Hu|].
    + intros j Hj. rewrite elem_of_app, list_elem_of_singleton. tauto.
    + destruct Hu as [_ Hnd _ _ _]. rewrite <- app_assoc. apply NoDup_Permutation_proper with (i :: F ++ R).
      { by rewrite Permutation_middle. } by constructor.
    + assert (Hin : i ∈ (F ++ [i]) ++ R) by (rewrite !elem_of_app, list_elem_of_singleton; tauto).
      split; uflags; try done.
      * rewrite bool_decide_eq_true_2 by done. done.
      * intros [?|?]; [|done]. rewrite elem_of_app in Hfree. tauto.
  - exact Hfl.
  - eapply files_ok_perm; [|exact Hg]. symmetry. by rewrite Hh'.
  - exact Hsh.
Qed.
(** Two states of a unit that differ only in its range, its result and
    [IO_U_F_FLIGHT]. *)
Definition kin (u u' : io_u) : Prop :=
  file u' = file u /\ ddir u' = ddir u /\ u_acct_ddir u' = u_acct_ddir u /\
  isset (flags u') IO_U_F_FREE = isset (flags u) IO_U_F_FREE /\
  isset (flags u') IO_U_F_IN_CUR_DEPTH = isset (flags u) IO_U_F_IN_CUR_DEPTH /\
  isset (flags u') IO_U_F_NO_FILE_PUT = isset (flags u) IO_U_F_NO_FILE_PUT /\
  isset (flags u') IO_U_F_VER_LIST = isset (flags u) IO_U_F_VER_LIST.

Lemma kin_trans u v w : kin u v -> kin v w -> kin u w.
Proof. unfold kin. intros. intuition congruence. Qed.

Lemma life_kin s F R E E' x x' i u u' : life_ok s F R E x -> unit_at s i = Some u -> kin u u' -> i ∉ F ++ R ->
  (forall j, j <> i -> j ∈ E' <-> j ∈ E) -> NoDup E' -> isset (flags u') IO_U_F_FLIGHT = bool_decide (i ∈ E') ->
  (i ∈ E' -> is_Some (file u)) -> Z.of_nat (length E') - x' = Z.of_nat (length E) - x ->
  life_ok (with_units s (<[Z.to_nat i := u']> (units s))) F R E' x'.
Proof.
  intros [Hq Hu Hfl Hfs Hsh] Hi (Kf & Kd & Ka & KF & KC & KN & KV) Hfree Hoth Hnd Hfx Hfile Hx.
  pose proof (arr_get_bounds _ _ _ Hi) as Hb. destruct (us_units _ _ _ _ Hu i u Hi) as [K1 K2 K3 K4 K5 K6 K7 K8 K9].
  split; simpl.
  - unfold queues_ok in *. simpl. by rewrite length_insert.
  - eapply units_ok_upd; [done|done| |by destruct Hu|done|].
    + intros j Hj. specialize (Hoth j Hj). tauto.
    + split; rewrite ?KF, ?KC, ?KN, ?KV, ?Kf, ?Kd, ?Ka; try done.
      intros [Hr|He]; [|by apply Hfile]. rewrite elem_of_app in Hfree. tauto.
  - unfold flight_ok in *. simpl. destruct Hfl as (? & ? & E1). split_and!; [done..|]. rewrite E1. f_equal. lia.
  - assert (Hl : units s !! Z.to_nat i = Some u) by (apply arr_get_Some in Hi; tauto).
    destruct (holders_split _ _ _ Hl) as (rest & Hh & Hh'). eapply files_ok_perm; [|exact Hfs].
    rewrite Hh, Hh'. by rewrite Kf.
  - exact Hsh.
Qed.

(** A unit comes back: [IO_U_F_FLIGHT] goes. *)
Lemma life_land s F R E x i u u' : life_ok s F R (i :: E) x -> unit_at s i = Some u -> kin u u' -> i ∉ F ++ R ->
  isset (flags u') IO_U_F_FLIGHT = false ->
  life_ok (with_units s (<[Z.to_nat i := u']> (units s))) F R E (x - 1).
Proof.
  intros Hs Hi Hk Hf Hfx. pose proof (us_eng _ _ _ _ (lo_units _ _ _ _ _ Hs)) as Hnd.
  apply list.NoDup_cons in Hnd as [Hni Hnd]. eapply (life_kin s F R (i :: E) E x); try done.
  - intros j Hj. rewrite elem_of_cons. tauto.
  - by rewrite bool_decide_eq_false_2.
  - cbn [length]. lia.
Qed.

(** A unit that does not change hands. *)
Lemma life_same s F R E x i u u' : life_ok s F R E x -> unit_at s i = Some u -> kin u u' -> i ∉ F ++ R ->
  isset (flags u') IO_U_F_FLIGHT = isset (flags u) IO_U_F_FLIGHT ->
  life_ok (with_units s (<[Z.to_nat i := u']> (units s))) F R E x.
Proof.
  intros Hs Hi Hk Hf Hfx. destruct (us_units _ _ _ _ (lo_units _ _ _ _ _ Hs) i u Hi).
  eapply (life_kin s F R E E x x); try done; [by destruct (lo_units _ _ _ _ _ Hs)|congruence|auto].
Qed.

(** A unit is handed over: [IO_U_F_FLIGHT] comes. *)
Lemma life_launch s F R E x i u u' : life_ok s F R E x -> unit_at s i = Some u -> kin u u' -> i ∉ F ++ R -> i ∉ E ->
  is_Some (file u) -> isset (flags u') IO_U_F_FLIGHT = true ->
  life_ok (with_units s (<[Z.to_nat i := u']> (units s))) F R (i :: E) (x + 1).
Proof.
  intros Hs Hi Hk Hf He Hfile Hfx. eapply (life_kin s F R E (i :: E) x); try done.
  - intros j Hj. rewrite elem_of_cons. tauto.
  - apply list.NoDup_cons. split; [done|by destruct (lo_units _ _ _ _ _ Hs)].
  - by rewrite bool_decide_eq_true_2 by (by left).
  - cbn [length]. lia.
Qed.

Lemma life_acc s F R E x a : life_ok s F R E x -> shape a (marks s) -> life_ok (with_acc s a) F R E x.
Proof. by intros [] Hs; split. Qed.
Lemma life_marks s F R E x m : life_ok s F R E x -> shape (acc s) m -> life_ok (with_marks s m) F R E x.
Proof. by intros [] Hs; split. Qed.
Lemma life_errs s F R E x e : life_ok s F R E x -> life_ok (with_errs s e) F R E x.
Proof. by intros []; split. Qed.
Lemma life_last s F R E x b d : life_ok s F R E x -> life_ok (with_last s b d) F R E x.
Proof. by intros []; split. Qed.

Lemma unit_at_insert s i u u' : unit_at s i = Some u ->
  unit_at (with_units s (<[Z.to_nat i := u']> (units s))) i = Some u'.
Proof. intros H%arr_get_bounds. unfold unit_at. simpl. rewrite arr_get_insert by lia. by rewrite Z.eqb_refl. Qed.

Lemma unit_at_other s s' i j u : 0 <= i < Z.of_nat (length (units s)) ->
  units s' = <[Z.to_nat i := u]> (units s) -> j <> i -> unit_at s' j = unit_at s j.
Proof.
  intros Hi E Hj. unfold unit_at. rewrite E. destruct (Z.lt_ge_cases j 0) as [L|L].
  - unfold arr_get. by destruct (Z.leb_spec 0 j); [lia|].
  - rewrite arr_get_insert by lia. by destruct (Z.eqb_spec j i).
Qed.

Lemma upd_unit_twice s i u1 u2 : with_units (with_units s (<[Z.to_nat i := u1]> (units s)))
  (<[Z.to_nat i := u2]> (units (with_units s (<[Z.to_nat i := u1]> (units s))))) =
  with_units s (<[Z.to_nat i := u2]> (units s)).
Proof. unfold with_units. simpl. by rewrite list_insert_insert_eq. Qed.

(** [clear_io_u] returns a unit the engine gave back. *)
Lemma clear_io_u_ok s F R E x i u : life_ok s F R (i :: E) x -> unit_at s i = Some u -> i ∉ F ++ R ->
  exists s', clear_io_u o s i = Some s' /\ life_ok s' (F ++ [i]) R E (x - 1) /\ acc s' = acc s /\ marks s' = marks s /\
    same_flight s s' /\
    units s' = <[Z.to_nat i := io_u_set (with_file (io_u_clear u IO_U_F_FLIGHT) None) IO_U_F_FREE]> (units s).
Proof.
  intros Hs Hi Hf. unfold clear_io_u. rewrite Hi. cbn [mbind option_bind].
  rewrite (unit_at_upd _ _ u) by done. cbn [mbind option_bind].
  assert (Hland := life_land s F R E x i u (io_u_clear u IO_U_F_FLIGHT) Hs Hi).
  pose proof (us_eng _ _ _ _ (lo_units _ _ _ _ _ Hs)) as Hnd. apply list.NoDup_cons in Hnd as [Hni _].
  destruct (put_io_u_ok _ F R E (x - 1) i (io_u_clear u IO_U_F_FLIGHT) (Hland ltac:(unfold kin; uflags; split_and!; done) Hf ltac:(by uflags)))
    as (s' & E1 & H1 & H2 & H3 & H4 & H5); [by eapply unit_at_insert|done|done|].
  exists s'. split_and!; try done. rewrite H5. simpl. apply list_insert_insert_eq.
Qed.
(** A counter of an array, 0 outside it. *)
Definition at_ (l : list Z) (d : Z) : Z := default 0 (arr_get l d).

(** Counter [d] has moved by [n], the others have not. *)
Definition moved (l l' : list Z) (d n : Z) : Prop :=
  forall j, u64 (at_ l' j) = u64 (at_ l j + if j =? d then n else 0).

Lemma moved_refl l d : moved l l d 0.
Proof. intros j. f_equal. zcase; lia. Qed.

Lemma add_at_moved l d n : 0 <= d < Z.of_nat (length l) ->
  exists l', add_at l d n = Some l' /\ length l' = length l /\ moved l l' d n.
Proof.
  intros Hd. destruct (add_at_ok l d n Hd) as (l' & E & Hl & Hg). exists l'. split_and!; [done..|].
  intros j. destruct (Z.lt_ge_cases j 0) as [Hj|Hj].
  - unfold at_, arr_get. destruct (Z.leb_spec 0 j); [lia|]. zcase; [lia|]. done.
  - unfold at_ at 1. rewrite Hg by done. fold (at_ l j) (at_ l d). zcase; [subst|by rewrite Z.add_0_r].
    unfold wrap. by rewrite Z.mod_mod by lia.
Qed.

Lemma rw_bounds d : ddir_rw d = true -> 0 <= d < 3.
Proof. unfold ddir_rw, DDIR_READ, DDIR_WRITE, DDIR_TRIM. repeat destruct (Z.eqb_spec d _); simpl; intros; lia || done. Qed.

Lemma leave_depth_eq s u : isset (flags u) IO_U_F_IN_CUR_DEPTH = true ->
  leave_depth s u = with_lists s (freelist s) (requeues s) (u32 (cur_depth s - 1)).
Proof. intros H. unfold leave_depth. by rewrite H. Qed.

Lemma requeue_io_u_ok s F R E x i u (b : bool) :
  life_ok s F R ((if b then [i] else []) ++ E) x -> unit_at s i = Some u -> i ∉ F ++ R -> i ∉ E -> is_Some (file u) ->
  exists s', requeue_io_u s i = Some s' /\ life_ok s' F (R ++ [i]) E (x - if b then 1 else 0) /\
    moved (io_issues (acc s)) (io_issues (acc s')) (acct_ddir u) (if b && ddir_rw (acct_ddir u) then -1 else 0) /\
    io_blocks (acc s') = io_blocks (acc s) /\
    same_flight s s' /\ units s' = <[Z.to_nat i := io_u_clear (io_u_set u IO_U_F_FREE) IO_U_F_FLIGHT]> (units s).
Proof.
  intros Hs Hi Hf He Hfile. pose proof (us_units _ _ _ _ (lo_units _ _ _ _ _ Hs) i u Hi) as [K1 K2 K3 K4 K5 K6 K7 K8 K9].
  assert (Hb : isset (flags u) IO_U_F_FLIGHT = b).
  { rewrite K2. destruct b; cbn [app]; [apply bool_decide_eq_true_2; by left|by apply bool_decide_eq_false_2]. }
  unfold requeue_io_u. rewrite Hi. cbn [mbind option_bind].
  replace (isset (flags (io_u_set u IO_U_F_FREE)) IO_U_F_FLIGHT) with b by (rewrite <- Hb; by uflags).
  set (d := acct_ddir u).
  assert (Hs1 : exists a, (if b && ddir_rw d then
      n ← add_at (io_issues (acc s)) d (-1);
      Some (with_acc s (with_issues (acc s) n (io_issue_bytes (acc s)) (rate_io_issue_bytes (acc s)))) else Some s) = Some (with_acc s a) /\
    shape a (marks s) /\ moved (io_issues (acc s)) (io_issues a) d (if b && ddir_rw d then -1 else 0) /\ io_blocks a = io_blocks (acc s)).
  { destruct (b && ddir_rw d) eqn:Eb.
    - apply andb_true_iff in Eb as [_ Hrw%rw_bounds]. destruct (lo_shape _ _ _ _ _ Hs) as (L1 & L).
      destruct (add_at_moved (io_issues (acc s)) d (-1)) as (n & -> & Hn & Hg); [lia|]. cbn [mbind option_bind].
      eexists. split; [done|]. split; [split; [cbn; lia|exact L]|done].
    - exists (acc s). split; [by destruct s|]. split; [by destruct Hs|]. split; [apply moved_refl|done]. }
  destruct Hs1 as (a & Ea & Hsha & Hmv & Hbl). rewrite Ea. cbn [mbind option_bind].
  assert (Hs2 : life_ok (with_units (with_acc s a) (<[Z.to_nat i := io_u_clear u IO_U_F_FLIGHT]> (units s))) F R E (x - if b then 1 else 0)).
  { pose proof (life_acc _ _ _ _ _ a Hs Hsha) as Hsa. destruct b; cbn [app] in *.
    - eapply (life_land (with_acc s a) F R E x i u); [done|done|unfold kin; uflags; done|done|by uflags].
    - rewrite Z.sub_0_r. eapply (life_same (with_acc s a) F R E x i u); [done|done|unfold kin; uflags; done|done|uflags; done]. }
  rewrite (unit_at_upd _ _ u) by done. cbn [mbind option_bind].
  rewrite leave_depth_eq by (uflags; by apply K4). cbn [requeues with_lists with_units with_acc].
  destruct (lo_queues _ _ _ _ _ Hs) as (Hn & Hqw & Hqm & Hqs & (k & Hrw) & Hrm & Hrq & Hcd).
  pose proof (arr_get_bounds _ _ _ Hi) as Hbd. pose proof (free_room _ _ _ _ _ (lo_units _ _ _ _ _ Hs) Hbd Hf) as Hroom.
  rewrite length_app in Hroom. pose proof (queued_length k _ Hrw) as Hql. rewrite Hrq, length_fmap in Hql.
  destruct (rpush_spec k (requeues s) (Some i) Hrw) as (r' & Er & Hrw' & Hrq'); [lia|]. rewrite Er. cbn [mbind option_bind].
  eexists. split; [done|]. split; [|split_and!; try done; by destruct s].
  assert (Hrm' : rmax r' = rmax (requeues s)).
  { unfold io_u_rpush in Er. destruct (negb _); [|done]. apply bind_Some in Er as (? & _ & Er). by injection Er as <-. }
  destruct Hs2 as [_ Hu2 Hfl2 Hfs2 _]. split; simpl.
  - unfold queues_ok. simpl. rewrite length_insert. rewrite Hcd, !length_app in *. cbn [length].
    rewrite wrap_small by (unfold uint; lia). split_and!; try done; [by exists k|lia|by rewrite Hrq', Hrq, fmap_app|lia].
  - simpl in Hu2. rewrite <- (list_insert_insert_eq (units s) (Z.to_nat i) _ (io_u_clear u IO_U_F_FLIGHT)).
    eapply units_ok_upd; [exact Hu2|by rewrite length_insert| | |by destruct Hu2|].
    + intros j Hj. rewrite elem_of_app, list_elem_of_singleton. tauto.
    + destruct Hu2 as [_ Hnd _ _ _]. rewrite app_assoc, <- Permutation_cons_append. by constructor.
    + assert (Hin : i ∈ F ++ R ++ [i]) by (rewrite !elem_of_app, list_elem_of_singleton; tauto).
      split; uflags; try done.
      * by rewrite bool_decide_eq_true_2.
      * by rewrite bool_decide_eq_false_2.
  - exact Hfl2.
  - simpl in Hfs2. eapply files_ok_perm; [|exact Hfs2]. 
    assert (Hl : units s !! Z.to_nat i = Some u) by (apply arr_get_Some in Hi; tauto).
    destruct (holders_split _ _ _ Hl) as (rest & _ & Hh'). by rewrite !Hh'.
  - exact Hsha.
Qed.
(** The second half of [__get_io_u]: unit [i] has left its list. *)
Lemma take_unit_ok s F R F' R' E x i u q r : life_ok s F R E x -> F ++ R ≡ₚ i :: F' ++ R' ->
  (forall j, j <> i -> (j ∈ F' <-> j ∈ F) /\ (j ∈ R' <-> j ∈ R)) ->
  queue_wf q -> qmax q = qmax (freelist s) -> stacked q = Some <$> F' ->
  (exists k, ring_wf k r) -> rmax r = rmax (requeues s) -> queued r = Some <$> R' ->
  (forall v, unit_at s i = Some v -> isset (flags u) IO_U_F_FREE = isset (flags v) IO_U_F_FREE /\
     isset (flags u) IO_U_F_FLIGHT = isset (flags v) IO_U_F_FLIGHT /\ file u = file v /\
     ddir u = ddir v /\ u_acct_ddir u = u_acct_ddir v) ->
  let u' := io_u_set (IoUnit (file u) (clear_flags (flags u) GET_CLEARS) (ddir u) (-1) (buflen u) (offset u) (xfer_buflen u) (resid u) 0)
              IO_U_F_IN_CUR_DEPTH in
  isset (flags u) IO_U_F_FREE = true /\
  life_ok (with_units (with_lists s q r (u32 (cur_depth s + 1))) (<[Z.to_nat i := u']> (units s))) F' R' E x /\
  i ∉ F' ++ R' /\ i ∉ E /\ 0 <= i < Z.of_nat (length (units s)).
Proof.
  intros Hs Hp Hoth Hq1 Hq2 Hq3 Hr1 Hr2 Hr3 Hv u'.
  pose proof (lo_units _ _ _ _ _ Hs) as Hu. destruct (lo_queues _ _ _ _ _ Hs) as (Hn & Hqw & Hqm & Hqs & Hrw & Hrm & Hrq & Hcd).
  assert (Hin : i ∈ F ++ R) by (rewrite Hp; by left).
  assert (Hb : 0 <= i < Z.of_nat (length (units s))) by (apply (us_range _ _ _ _ Hu); by left).
  assert (Hnd : NoDup (i :: F' ++ R')) by (rewrite <- Hp; by destruct Hu). apply list.NoDup_cons in Hnd as [Hni Hnd].
  destruct (arr_get_is_Some (units s) i Hb) as [v Hiv]. destruct (Hv v Hiv) as (V1 & V2 & V3 & V4 & V5).
  destruct (us_units _ _ _ _ Hu i v Hiv) as [K1 K2 K3 K4 K5 K6 K7 K8 K9].
  split; [rewrite V1, K1; by apply bool_decide_eq_true_2|]. split; [|split_and!; [done|by apply K3|lia|lia]].
  pose proof (Permutation_length Hp) as Hlen. rewrite !length_app in Hlen. cbn [length] in Hlen.
  pose proof (in_range_length (F ++ R) (Z.of_nat (length (units s)))) as Hle. rewrite length_app in *.
  ospecialize (Hle _ _ _); [by destruct Hu|by intros; apply (us_range _ _ _ _ Hu); left|lia|].
  split; simpl.
  - unfold queues_ok. simpl. rewrite length_insert, Hcd, length_app, ?length_app in *. rewrite wrap_small by (unfold uint; lia).
    split_and!; try done; lia.
  - eapply units_ok_upd; [done|done| |done|by destruct Hu|].
    + intros j Hj. specialize (Hoth j Hj). tauto.
    + subst u'. split; uflags; try done.
      * by rewrite bool_decide_eq_false_2.
      * by rewrite V2, K2.
      * rewrite V3. intros [Hr|He]; [|by apply K7; right]. rewrite elem_of_app in Hni. tauto.
      * intros HF. rewrite elem_of_app in Hni. tauto.
      * rewrite V3, V4. intros Hsome. split; [by apply K9|by left].
  - by destruct Hs.
  - assert (Hl : units s !! Z.to_nat i = Some v) by (apply arr_get_Some in Hiv; tauto).
    destruct (holders_split _ _ _ Hl) as (rest & Hh & Hh'). eapply files_ok_perm; [|by destruct Hs].
    rewrite Hh, Hh'. subst u'. simpl. by rewrite V3.
  - by destruct Hs.
Qed.

Lemma get_unit_ok stop s F R E x : life_ok s F R E x ->
  exists s' r, __get_io_u o stop s = Some (s', r) /\ acc s' = acc s /\ marks s' = marks s /\ same_flight s s' /\
  match r with
  | None => s' = s /\ (stop = true \/ R = [] /\ queue_full (io_u_qempty (freelist s)) (latency_target o) (lat o) (cur_depth s) = true)
  | Some i => exists F' R' u, life_ok s' F' R' E x /\ unit_at s' i = Some u /\ i ∉ F' ++ R' /\ i ∉ E /\
      (R = i :: R' /\ F' = F /\ is_Some (file u) \/ R = [] /\ R' = [] /\ F = F' ++ [i] /\ file u = None) /\
      (forall j, j <> i -> unit_at s' j = unit_at s j)
  end.
Proof.
  intros Hs. unfold __get_io_u. destruct stop; [exists s, None; split_and!; try done; by left|].
  pose proof (lo_units _ _ _ _ _ Hs) as Hu. destruct (lo_queues _ _ _ _ _ Hs) as (Hn & Hqw & Hqm & Hqs & (k & Hrw) & Hrm & Hrq & Hcd).
  pose proof (queued_length k _ Hrw) as Hql. rewrite Hrq, length_fmap in Hql.
  assert (Hre : io_u_rempty (requeues s) = bool_decide (R = [])).
  { unfold io_u_rempty. destruct Hrw as [Hk Hm Hl Hh Ht]. unfold ring_count in Hql.
    destruct R as [|j R']; cbn [length] in Hql.
    - rewrite bool_decide_eq_true_2 by done. apply Z.eqb_eq.
      symmetry in Hql. apply Z.mod_divide in Hql as [c Hc]; [|lia]. clear Hm Hl Hk. assert (c = 0) by nia. lia.
    - rewrite bool_decide_eq_false_2 by done. apply Z.eqb_neq. intros E1. rewrite E1, Z.sub_diag, Z.mod_0_l in Hql by lia. lia. }
  rewrite Hre. destruct R as [|i R']; [rewrite bool_decide_eq_true_2 by done|rewrite bool_decide_eq_false_2 by done]; cbn [negb].
  - destruct (queue_full _ _ _ _) eqn:Efull; cbn [negb].
    { exists s, None. split_and!; try done. by right. }
    assert (Hne : F <> []).
    { intros ->. unfold queue_full in Efull. pose proof (stacked_length _ Hqw) as Hsl. rewrite Hqs in Hsl. simpl in Hsl.
      unfold io_u_qempty in Efull. rewrite <- Hsl in Efull. done. }
    destruct (exists_last Hne) as (F' & i & ->). rewrite fmap_app in Hqs.
    destruct (qpop_spec (freelist s) (Some <$> F') (Some i) Hqw Hqs) as (q & Eq & Hqw' & Hqs'). rewrite Eq. cbn [mbind option_bind].
    assert (Hb : 0 <= i < Z.of_nat (length (units s))).
    { apply (us_range _ _ _ _ Hu). left. rewrite !elem_of_app, list_elem_of_singleton. tauto. }
    destruct (arr_get_is_Some (units s) i Hb) as [v Hiv].
    set (s1 := with_lists s q (requeues s) (cur_depth s)).
    assert (Hi1 : unit_at s1 i = Some v) by exact Hiv. rewrite Hi1. cbn [mbind option_bind].
    rewrite (unit_at_upd _ _ v) by done. cbn [mbind option_bind].
    erewrite unit_at_insert by done. cbn [mbind option_bind].
    assert (Hfile : file v = None).
    { apply (uo_nofile _ _ _ _ _ (us_units _ _ _ _ Hu i v Hiv)). rewrite elem_of_app, list_elem_of_singleton. tauto. }
    assert (Hqm' : qmax q = qmax (freelist s)).
    { unfold io_u_qpop in Eq. destruct (negb _); [|done]. apply bind_Some in Eq as (? & _ & Eq).
      apply bind_Some in Eq as (? & _ & Eq). by injection Eq as <- _. }
    assert (Hnd : NoDup ((F' ++ [i]) ++ [])) by (by destruct Hu). rewrite app_nil_r in Hnd.
    apply list.NoDup_app in Hnd as (_ & Hdis & _).
    edestruct (take_unit_ok s (F' ++ [i]) [] F' [] E x i (IoUnit None (flags v) (ddir v) (u_acct_ddir v) 0 (offset v) (xfer_buflen v) 0 (error v)) q (requeues s) Hs)
      as (T1 & T2 & T3 & T4 & T5); try done.
    { rewrite !app_nil_r. by rewrite <- Permutation_cons_append. }
    { intros j Hj. rewrite elem_of_app, list_elem_of_singleton. tauto. }
    { by exists k. }
    { intros w Hw. unfold unit_at in Hw. rewrite Hiv in Hw. injection Hw as <-. by rewrite Hfile. }
    cbn [flags]. cbn [flags] in T1. rewrite T1. cbn [assert mbind option_bind].
    unfold upd_unit. cbn [units with_lists with_units]. rewrite arr_set_Some by (simpl; rewrite length_insert; lia).
    cbn [mbind option_bind]. change (units s1) with (units s). rewrite list_insert_insert_eq.
    eexists _, _. split; [done|]. split_and!; try done. eexists F', [], _. split; [exact T2|].
    split; [unfold unit_at; simpl; rewrite arr_get_insert by lia; by rewrite Z.eqb_refl|]. split_and!; try done.
    + by right.
    + intros j Hj. by eapply unit_at_other.
  - assert (Hq' : queued (requeues s) = Some i :: (Some <$> R')) by by rewrite Hrq.
    destruct (rpop_spec k (requeues s) _ _ Hrw Hq') as (r & Er & Hrw' & Hrq'). rewrite Er. cbn [mbind option_bind].
    assert (Hb : 0 <= i < Z.of_nat (length (units s))).
    { apply (us_range _ _ _ _ Hu). left. rewrite !elem_of_app. right. by left. }
    destruct (arr_get_is_Some (units s) i Hb) as [v Hiv].
    assert (Hi1 : unit_at (with_lists s (freelist s) r (cur_depth s)) i = Some v) by exact Hiv. rewrite Hi1. cbn [mbind option_bind].
    assert (Hfile : is_Some (file v)).
    { apply (uo_file _ _ _ _ _ (us_units _ _ _ _ Hu i v Hiv)). left. by left. }
    assert (Hrm' : rmax r = rmax (requeues s)).
    { unfold io_u_rpop in Er. destruct (negb _); [|done]. apply bind_Some in Er as (? & _ & Er). by injection Er as <- _. }
    edestruct (take_unit_ok s F (i :: R') F R' E x i v (freelist s) r Hs)
      as (T1 & T2 & T3 & T4 & T5); try done.
    { by rewrite Permutation_middle. }
    { intros j Hj. rewrite elem_of_cons. tauto. }
    { by exists k. }
    { intros w Hw. unfold unit_at in Hw. rewrite Hiv in Hw. by injection Hw as <-. }
    rewrite T1. cbn [assert mbind option_bind].
    unfold upd_unit. cbn [units with_lists with_units]. rewrite arr_set_Some by lia.
    cbn [mbind option_bind]. eexists _, _. split; [done|]. split_and!; try done.
    eexists F, R', _. split; [exact T2|].
    split; [unfold unit_at; simpl; rewrite arr_get_insert by lia; by rewrite Z.eqb_refl|]. split_and!; try done.
    + by left.
    + intros j Hj. by eapply unit_at_other.
Qed.
(** *** Marks and commits *)
Lemma depth_idx_bounds d : 0 <= depth_idx d < 7.
Proof. unfold depth_idx. repeat match goal with |- context [if ?b then _ else _] => destruct b end; lia. Qed.
Lemma map_idx_bounds d : 0 <= map_idx d < 7.
Proof. unfold map_idx. repeat zcase; lia. Qed.

Lemma bump_len l i : 0 <= i < Z.of_nat (length l) -> exists l', bump l i = Some l' /\ length l' = length l.
Proof.
  intros Hi. unfold bump. destruct (arr_get_is_Some l i Hi) as [v ->]. cbn [mbind option_bind].
  rewrite arr_set_Some by done. eexists. split; [done|apply length_insert].
Qed.

Lemma mark_depth_ok s F R E x nr : life_ok s F R E x ->
  exists m, mark_depth s nr = Some (with_marks s m) /\ life_ok (with_marks s m) F R E x.
Proof.
  intros Hs. destruct (lo_shape _ _ _ _ _ Hs) as (A1 & A2 & A3 & A4 & A5 & A6 & A7 & A8 & A9 & A10 & M1 & M2 & M3).
  unfold mark_depth, io_u_mark_depth. pose proof (depth_idx_bounds (cur_depth s)).
  destruct (arr_get_is_Some (m_map (marks s)) (depth_idx (cur_depth s))) as [v ->]; [lia|]. cbn [mbind option_bind].
  rewrite arr_set_Some by lia. cbn [mbind option_bind]. eexists. split; [done|]. apply life_marks; [done|].
  unfold shape. simpl. rewrite length_insert. by split_and!.
Qed.

Lemma mark_submit_ok s F R E x nr : life_ok s F R E x ->
  exists m, mark_submit s nr = Some (with_marks s m) /\ life_ok (with_marks s m) F R E x.
Proof.
  intros Hs. destruct (lo_shape _ _ _ _ _ Hs) as (A1 & A2 & A3 & A4 & A5 & A6 & A7 & A8 & A9 & A10 & M1 & M2 & M3).
  unfold mark_submit, io_u_mark_submit, __io_u_mark_map. pose proof (map_idx_bounds nr).
  destruct (bump_len (m_submit (marks s)) (map_idx nr)) as (l & -> & Hl); [lia|]. cbn [mbind option_bind].
  eexists. split; [done|]. apply life_marks; [done|]. unfold shape. simpl. split_and!; done || congruence.
Qed.

Lemma mark_complete_ok s F R E x nr : life_ok s F R E x ->
  exists m, mark_complete s nr = Some (with_marks s m) /\ life_ok (with_marks s m) F R E x.
Proof.
  intros Hs. destruct (lo_shape _ _ _ _ _ Hs) as (A1 & A2 & A3 & A4 & A5 & A6 & A7 & A8 & A9 & A10 & M1 & M2 & M3).
  unfold mark_complete, io_u_mark_complete, __io_u_mark_map. pose proof (map_idx_bounds nr).
  destruct (bump_len (m_complete (marks s)) (map_idx nr)) as (l & -> & Hl); [lia|]. cbn [mbind option_bind].
  eexists. split; [done|]. apply life_marks; [done|]. unfold shape. simpl. split_and!; done || congruence.
Qed.

(** What a step leaves alone: the units and the counters of I/O. *)
Definition same_io (s s' : td) : Prop := units s' = units s /\ acc s' = acc s.

Lemma td_io_commit_ok s F R E x c : life_ok s F R E x ->
  exists s', td_io_commit o s c = Some s' /\ life_ok s' F R E x /\ same_io s s'.
Proof.
  intros Hs. unfold td_io_commit. destruct ((cur_depth s =? 0) || (io_u_queued s =? 0)); [by exists s|].
  destruct (mark_depth_ok s F R E x (io_u_queued s) Hs) as (m & -> & Hm). cbn [mbind option_bind].
  assert (Hv : exists e, (if has_commit o && negb (c =? 0) then td_verror (with_marks s m) (- c) else with_marks s m) =
    with_errs (with_marks s m) e).
  { unfold td_verror. destruct (_ && _); [|by exists (errs s)]. destruct (negb _); [by exists (errs s)|by eexists]. }
  destruct Hv as (e & ->). eexists. split; [done|]. split; [|done].
  destruct Hm as [H1 H2 (Q1 & Q2 & Q3) H4 H5]. split; try done.
  unfold flight_ok in *. simpl in *. split_and!; [done|by apply wrap_uint|].
  unfold wrap in *. rewrite Zplus_mod_idemp_r. rewrite <- Q3. f_equal. lia.
Qed.

(** *** Handing over *)
Lemma moved_trans l l' l'' d a b : moved l l' d a -> moved l' l'' d b -> moved l l'' d (a + b).
Proof.
  intros H1 H2 j. rewrite H2. rewrite <- wrap_add_l, H1, wrap_add_l by lia. f_equal. zcase; lia.
Qed.

Lemma issue_ok s F R E x d len : life_ok s F R E x -> exists a, issue s d len false = Some (with_acc s a) /\
  life_ok (with_acc s a) F R E x /\ moved (io_issues (acc s)) (io_issues a) d (if ddir_rw d then 1 else 0) /\
  io_blocks a = io_blocks (acc s).
Proof.
  intros Hs. unfold issue. destruct (ddir_rw d) eqn:Ed.
  - apply rw_bounds in Ed. destruct (lo_shape _ _ _ _ _ Hs) as (A1 & A2 & A3 & A).
    destruct (add_at_moved (io_issues (acc s)) d 1) as (n & -> & Hn & Hg); [lia|]. cbn [mbind option_bind].
    destruct (add_at_moved (io_issue_bytes (acc s)) d len) as (b & -> & Hb & _); [lia|]. cbn [mbind option_bind].
    destruct (add_at_moved (rate_io_issue_bytes (acc s)) d len) as (r & -> & Hr & _); [lia|]. cbn [mbind option_bind].
    eexists. split; [done|]. split; [|done]. apply life_acc; [done|]. unfold shape. cbn. split_and!; lia.
  - exists (acc s). split; [by destruct s|]. split; [by destruct s|]. split; [apply moved_refl|done].
Qed.

Lemma unissue_ok s F R E x d len : life_ok s F R E x -> ddir_rw d = true -> exists a, unissue s d len = Some (with_acc s a) /\
  life_ok (with_acc s a) F R E x /\ moved (io_issues (acc s)) (io_issues a) d (-1) /\ io_blocks a = io_blocks (acc s).
Proof.
  intros Hs Ed%rw_bounds. unfold unissue. destruct (lo_shape _ _ _ _ _ Hs) as (A1 & A2 & A3 & A).
  destruct (add_at_moved (io_issues (acc s)) d (-1)) as (n & -> & Hn & Hg); [lia|]. cbn [mbind option_bind].
  destruct (add_at_moved (io_issue_bytes (acc s)) d (- len)) as (b & -> & Hb & _); [lia|]. cbn [mbind option_bind].
  destruct (add_at_moved (rate_io_issue_bytes (acc s)) d (- len)) as (r & -> & Hr & _); [lia|]. cbn [mbind option_bind].
  eexists. split; [done|]. split; [|done]. apply life_acc; [done|]. unfold shape. cbn. split_and!; lia.
Qed.

Lemma count_total_ok s F R E x d : life_ok s F R E x -> d <= 3 -> exists s', count_total s d = Some s' /\
  life_ok s' F R E x /\ units s' = units s /\ io_issues (acc s') = io_issues (acc s) /\
  io_blocks (acc s') = io_blocks (acc s) /\ same_flight s s'.
Proof.
  intros Hs Hd. unfold count_total. destruct (ddir_rw d || ddir_sync d) eqn:Ed; [|by exists s].
  assert (Hd0 : 0 <= d).
  { apply orb_true_iff in Ed as [Ed%rw_bounds|Ed]; [lia|]. unfold ddir_sync, DDIR_SYNC, DDIR_DATASYNC, DDIR_SYNC_FILE_RANGE in Ed. lia. }
  destruct (lo_shape _ _ _ _ _ Hs) as (A1 & A2 & A3 & A4 & A5 & A6 & A7 & A8 & A9 & A10 & M).
  destruct (add_at_moved (total_io_u (acc s)) d 1) as (t & -> & Ht & _); [lia|]. cbn [mbind option_bind].
  eexists. split; [done|]. split; [|done]. apply life_acc; [done|]. unfold shape. cbn. split_and!; lia.
Qed.

Lemma holder_open s F R E x i u f : life_ok s F R E x -> unit_at s i = Some u -> file u = Some f ->
  exists g, arr_get (files (fs s)) f = Some g /\ fio_file_open g = true.
Proof.
  intros Hs Hi Hf. assert (Hl : units s !! Z.to_nat i = Some u) by (apply arr_get_Some in Hi; tauto).
  destruct (holders_split _ _ _ Hl) as (rest & Hh & _). rewrite Hf in Hh. simpl in Hh.
  pose proof (files_ok_perm _ _ _ Hh (lo_files _ _ _ _ _ Hs)) as Hfs.
  destruct (arr_get_is_Some (files (fs s)) f) as [g Hg]; [apply (fo_held _ _ Hfs); by left|].
  exists g. split; [done|]. destruct (fio_file_open g) eqn:Eo; [done|].
  destruct (fo_files _ _ Hfs _ _ Hg) as [_ K _]. destruct (K Eo) as (_ & _ & K0). rewrite held_same in K0.
  pose proof (held_nonneg f rest). lia.
Qed.
(** Bookkeeping that touches neither units nor issue counters. *)
Definition quiet (s s' : td) : Prop :=
  units s' = units s /\ io_issues (acc s') = io_issues (acc s) /\ io_blocks (acc s') = io_blocks (acc s).

Lemma quiet_trans s1 s2 s3 : quiet s1 s2 -> quiet s2 s3 -> quiet s1 s3.
Proof. unfold quiet. intros. intuition congruence. Qed.

Lemma td_verror_ok s F R E x e : life_ok s F R E x -> life_ok (td_verror s e) F R E x /\ quiet s (td_verror s e) /\ same_flight s (td_verror s e).
Proof. intros Hs. unfold td_verror. destruct (negb _); [done|]. split; [by apply life_errs|done]. Qed.

(** After the queue hook: an error is recorded, the depth and submission maps
    are updated, a queued unit is counted and possibly committed. *)
Lemma queue_tail_ok s F R E x u ret c : life_ok s F R E (x + 1) -> ddir u <= 3 ->
  exists s',
    (s ← (if negb (has_commit o) || (ddir u =? DDIR_TRIM) then s ← mark_submit s 1; mark_complete s 1 else Some s);
     if ret =? FIO_Q_COMPLETED then
       s ← (if ddir_rw (ddir u) || ddir_sync (ddir u) then s ← mark_depth s 1; count_total s (ddir u) else Some s);
       Some (s, ret)
     else if ret =? FIO_Q_QUEUED then
       let s := with_flight s (u32 (io_u_queued s + 1)) (io_u_in_flight s) in
       s ← count_total s (ddir u);
       s ← (if iodepth_batch o <=? io_u_queued s then td_io_commit o s c else Some s);
       Some (s, ret)
     else Some (s, ret)) = Some (s', ret) /\
    quiet s s' /\ life_ok s' F R E (x + if ret =? FIO_Q_QUEUED then 0 else 1).
Proof.
  intros Hs Hd.
  assert (Hm : exists s1, (if negb (has_commit o) || (ddir u =? DDIR_TRIM) then s ← mark_submit s 1; mark_complete s 1 else Some s) = Some s1 /\
    quiet s s1 /\ life_ok s1 F R E (x + 1)).
  { destruct (_ || _); [|by exists s]. destruct (mark_submit_ok s F R E (x + 1) 1 Hs) as (m & -> & Hm). cbn [mbind option_bind].
    destruct (mark_complete_ok _ F R E (x + 1) 1 Hm) as (m2 & -> & Hm2). by eexists. }
  destruct Hm as (s1 & -> & Hq1 & H1). cbn [mbind option_bind]. destruct (Z.eqb_spec ret FIO_Q_COMPLETED) as [->|Hc].
  - change (FIO_Q_COMPLETED =? FIO_Q_QUEUED) with false. cbn match. destruct (_ || _); [|by eexists].
    destruct (mark_depth_ok s1 F R E (x + 1) 1 H1) as (m & -> & Hm). cbn [mbind option_bind].
    destruct (count_total_ok _ F R E (x + 1) (ddir u) Hm Hd) as (s2 & -> & H2 & Q2 & Q3 & Q4 & _). cbn [mbind option_bind].
    eexists. split; [done|]. split; [|done]. by eapply quiet_trans.
  - destruct (Z.eqb_spec ret FIO_Q_QUEUED) as [->|Hc2]; [|by eexists].
    assert (H2 : life_ok (with_flight s1 (u32 (io_u_queued s1 + 1)) (io_u_in_flight s1)) F R E x).
    { destruct H1 as [L1 L2 (Q1 & Q2 & Q3) L4 L5]. split; try done. unfold flight_ok. simpl.
      split_and!; [by apply wrap_uint|done|]. rewrite wrap_add_l by lia.
      replace (io_u_queued s1 + 1 + io_u_in_flight s1) with (io_u_queued s1 + io_u_in_flight s1 + 1) by lia.
      rewrite <- wrap_add_l, Q3, wrap_add_l by lia. f_equal. lia. }
    cbn zeta. destruct (count_total_ok _ F R E x (ddir u) H2 Hd) as (s2 & -> & H3 & Q2 & Q3 & Q4 & _). cbn [mbind option_bind].
    rewrite Z.add_0_r. assert (Hq2 : quiet s s2) by (by eapply quiet_trans).
    destruct (_ <=? _); [|by eexists]. destruct (td_io_commit_ok s2 F R E x c H3) as (s3 & -> & H4 & Q5 & Q6). cbn [mbind option_bind].
    eexists. split; [done|]. split; [|done]. eapply quiet_trans; [done|]. split; [done|]. by rewrite Q6.
Qed.

Lemma td_io_queue_ok s F R E x i u a c : life_ok s F R E x -> unit_at s i = Some u -> i ∉ F ++ R -> i ∉ E ->
  is_Some (file u) ->
  let back := (a_ret a =? FIO_Q_BUSY) && ddir_rw (acct_ddir u) in
  exists s' u', td_io_queue o s i a c = Some (s', a_ret a) /\ units s' = <[Z.to_nat i := u']> (units s) /\ kin u u' /\
    resid u' = a_resid a /\ error u' = a_error a /\ xfer_buflen u' = xfer_buflen u /\ io_blocks (acc s') = io_blocks (acc s) /\
    moved (io_issues (acc s)) (io_issues (acc s')) (acct_ddir u)
      (if back then 0 else if ddir_rw (acct_ddir u) then 1 else 0) /\
    life_ok s' F R ((if back then [] else [i]) ++ E) (x + if (a_ret a =? FIO_Q_QUEUED) || back then 0 else 1).
Proof.
  intros Hs Hi Hf He [f Hfile] back.
  pose proof (us_units _ _ _ _ (lo_units _ _ _ _ _ Hs) i u Hi) as [K1 K2 K3 K4 K5 K6 K7 K8 K9].
  destruct (K9 ltac:(by rewrite Hfile)) as [Hd _]. destruct (holder_open s F R E x i u f Hs Hi Hfile) as (g & Hg & Ho).
  unfold td_io_queue. rewrite Hi. cbn [mbind option_bind]. rewrite K2, bool_decide_eq_false_2 by done.
  cbn [negb assert mbind option_bind]. rewrite Hfile. cbn [mbind option_bind]. rewrite Hg. cbn [mbind option_bind].
  rewrite Ho. cbn [assert mbind option_bind]. rewrite K6.
  destruct (issue_ok s F R E x (acct_ddir u) (xfer_buflen u) Hs) as (a1 & -> & H1 & M1 & B1). cbn [mbind option_bind].
  set (u1 := with_result (io_u_set u IO_U_F_FLIGHT) (a_resid a) (a_error a)).
  assert (Hkin : kin u u1) by (unfold kin, u1; uflags; done).
  fold back. assert (Hmid : exists a2 u2, (if back then s ← unissue (with_acc s a1) (acct_ddir u) (xfer_buflen u);
      Some (s, io_u_clear u1 IO_U_F_FLIGHT) else Some (with_acc s a1, u1)) = Some (with_acc s a2, u2) /\
    kin u u2 /\ resid u2 = a_resid a /\ error u2 = a_error a /\ ddir u2 = ddir u /\ xfer_buflen u2 = xfer_buflen u /\ io_blocks a2 = io_blocks (acc s) /\
    moved (io_issues (acc s)) (io_issues a2) (acct_ddir u) (if back then 0 else if ddir_rw (acct_ddir u) then 1 else 0) /\
    life_ok (with_units (with_acc s a2) (<[Z.to_nat i := u2]> (units s))) F R ((if back then [] else [i]) ++ E) (x + if back then 0 else 1)).
  { destruct back eqn:Eb.
    - apply andb_true_iff in Eb as [_ Erw].
      destruct (unissue_ok (with_acc s a1) F R E x (acct_ddir u) (xfer_buflen u) H1 Erw) as (a2 & -> & H2 & M2 & B2).
      cbn [mbind option_bind]. exists a2, (io_u_clear u1 IO_U_F_FLIGHT). rewrite Erw in M1.
      assert (Hkin2 : kin u (io_u_clear u1 IO_U_F_FLIGHT)) by (unfold kin, u1; uflags; done).
      split_and!; try done; [simpl in B2; congruence|by apply (moved_trans _ _ _ _ _ _ M1 M2)|].
      rewrite Z.add_0_r. cbn [app]. change (with_acc (with_acc s a1) a2) with (with_acc s a2) in H2.
      eapply (life_same (with_acc s a2) F R E x i u); [done|done|done|done|].
      rewrite K2, bool_decide_eq_false_2 by done. unfold u1. by uflags.
    - exists a1, u1. split_and!; try done. cbn [app].
      eapply (life_launch (with_acc s a1) F R E x i u); [done|done|done|done|done|by rewrite Hfile|unfold u1; by uflags]. }
  destruct Hmid as (a2 & u2 & -> & Hk2 & Hr2 & He2 & Hd2 & Hx2 & Hb2 & Hm2 & H2). cbn [mbind option_bind].
  rewrite (unit_at_upd (with_acc s a2) i u) by done. cbn [mbind option_bind units with_acc].
  set (s2 := with_units (with_acc s a2) _) in *.
  assert (H3 : exists s3, (if negb (error u2 =? 0) && (td_error (errs s2) =? 0) then td_verror s2 (error u2) else s2) = s3 /\
    quiet s2 s3 /\ life_ok s3 F R ((if back then [] else [i]) ++ E) (x + if back then 0 else 1)).
  { destruct (negb (error u2 =? 0) && (td_error (errs s2) =? 0)); [|by exists s2].
    eexists. split; [done|]. destruct (td_verror_ok _ _ _ _ _ (error u2) H2) as (? & ? & _). done. }
  destruct H3 as (s3 & -> & Q3 & H3).
  destruct (queue_tail_ok s3 F R ((if back then [] else [i]) ++ E) (x + (if back then 0 else 1) - 1) u2 (a_ret a) c) as (s4 & E4 & Q4 & H4).
  { by replace (x + (if back then 0 else 1) - 1 + 1) with (x + if back then 0 else 1) by lia. }
  { lia. }
  cbn zeta in E4 |- *. rewrite E4. exists s4, u2. pose proof (quiet_trans _ _ _ Q3 Q4) as (U1 & U2 & U3).
  do 8 (split; [first [done|by rewrite U1|by rewrite U2|by rewrite U3]|]).
  replace (x + (if (a_ret a =? FIO_Q_QUEUED) || back then 0 else 1)) with (x + (if back then 0 else 1) - 1 + (if a_ret a =? FIO_Q_QUEUED then 0 else 1)); [done|].
  subst back. destruct (Z.eqb_spec (a_ret a) FIO_Q_QUEUED) as [->|]; cbn [orb]; [change (FIO_Q_QUEUED =? FIO_Q_BUSY) with false; cbn; lia|].
  destruct ((a_ret a =? FIO_Q_BUSY) && ddir_rw (acct_ddir u)); lia.
Qed.
(** *** Completion *)
Lemma count_done_ok s F R E x d bytes : life_ok s F R E x -> ddir_rw d = true -> exists s', count_done s d bytes false = Some s' /\
  life_ok s' F R E x /\ units s' = units s /\ io_issues (acc s') = io_issues (acc s) /\
  moved (io_blocks (acc s)) (io_blocks (acc s')) d 1 /\ same_flight s s'.
Proof.
  intros Hs Hd%rw_bounds. destruct (lo_shape _ _ _ _ _ Hs) as (A1 & A2 & A3 & A4 & A5 & A6 & A7 & A8 & A9 & A10 & M).
  unfold count_done.
  destruct (add_at_moved (io_blocks (acc s)) d 1) as (n & -> & Hn & Hg); [lia|]. cbn [mbind option_bind].
  destruct (add_at_moved (io_bytes (acc s)) d bytes) as (b & -> & Hb & _); [lia|]. cbn [mbind option_bind].
  destruct (add_at_moved (this_io_blocks (acc s)) d 1) as (tn & -> & Htn & _); [lia|]. cbn [mbind option_bind].
  destruct (add_at_moved (this_io_bytes (acc s)) d bytes) as (tb & -> & Htb & _); [lia|]. cbn [mbind option_bind].
  eexists. split; [done|]. split; [|done]. apply life_acc; [done|]. unfold shape. cbn. split_and!; lia.
Qed.

(** Direction-and-result of a unit that completes: counted as done, or failed. *)
Definition succeeds (u : io_u) : bool := (error u =? 0) && ddir_rw (ddir u).

Lemma io_completed_ok s F R E x i u c : life_ok s F R (i :: E) x -> unit_at s i = Some u -> i ∉ F ++ R ->
  length (icd_bytes c) = 3%nat ->
  exists s' c' u', io_completed o s i c = Some (s', c') /\ length (icd_bytes c') = 3%nat /\
    units s' = <[Z.to_nat i := u']> (units s) /\ kin u u' /\ life_ok s' F R E (x - 1) /\ same_flight s s' /\
    io_issues (acc s') = io_issues (acc s) /\
    moved (io_blocks (acc s)) (io_blocks (acc s')) (ddir u) (if succeeds u then 1 else 0).
Proof.
  intros Hs Hi Hf Hc. pose proof (us_units _ _ _ _ (lo_units _ _ _ _ _ Hs) i u Hi) as [K1 K2 K3 K4 K5 K6 K7 K8 K9].
  unfold io_completed. rewrite Hi. cbn [mbind option_bind]. rewrite K2, bool_decide_eq_true_2 by (by left).
  cbn [assert mbind option_bind]. rewrite (unit_at_upd _ _ u) by done. cbn [mbind option_bind].
  set (u1 := io_u_clear u (Z.lor IO_U_F_FLIGHT IO_U_F_BUSY_OK)).
  assert (Hk1 : kin u u1) by (unfold kin, u1; uflags; done).
  assert (H1 : life_ok (with_units s (<[Z.to_nat i := u1]> (units s))) F R E (x - 1)).
  { eapply life_land; [done|done|done|done|unfold u1; by uflags]. }
  assert (Hv1 : isset (flags u1) IO_U_F_VER_LIST = false) by (unfold u1; uflags; done).
  assert (Hi1 : unit_at (with_units s (<[Z.to_nat i := u1]> (units s))) i = Some u1) by (by eapply unit_at_insert).
  set (s1 := with_units s _) in *. change (error u1) with (error u). change (buflen u1) with (buflen u). change (resid u1) with (resid u).
  unfold succeeds. destruct (ddir_sync (ddir u)) eqn:Esync.
  { assert (Erw : ddir_rw (ddir u) = false).
    { unfold ddir_sync, ddir_rw, DDIR_SYNC, DDIR_DATASYNC, DDIR_SYNC_FILE_RANGE, DDIR_READ, DDIR_WRITE, DDIR_TRIM in *. lia. }
    rewrite Erw, andb_false_r. eexists _, _, u1. split; [done|]. split_and!; try done; [by apply life_last|apply moved_refl]. }
  assert (H2 : life_ok (with_last s1 false (ddir u)) F R E (x - 1)) by by apply life_last.
  cbn zeta. set (s2 := with_last s1 false (ddir u)) in *.
  assert (Hmid : exists s3 c3, (if (error u =? 0) && ddir_rw (ddir u) then
       s ← count_done s2 (ddir u) (u32 (buflen u - resid u)) (isset (flags u1) IO_U_F_VER_LIST);
       b ← add_at (icd_bytes c) (ddir u) (u32 (buflen u - resid u)); Some (s, Icd (icd_error c) b)
     else if negb (error u =? 0) then Some (io_u_log_error o s2 u1, Icd (error u) (icd_bytes c)) else Some (s2, c)) = Some (s3, c3) /\
     length (icd_bytes c3) = 3%nat /\ life_ok s3 F R E (x - 1) /\ units s3 = units s1 /\ same_flight s s3 /\
     io_issues (acc s3) = io_issues (acc s) /\
     moved (io_blocks (acc s)) (io_blocks (acc s3)) (ddir u) (if (error u =? 0) && ddir_rw (ddir u) then 1 else 0)).
  { rewrite Hv1. destruct ((error u =? 0) && ddir_rw (ddir u)) eqn:Eok.
    - apply andb_true_iff in Eok as [_ Erw].
      destruct (count_done_ok s2 F R E (x - 1) (ddir u) (u32 (buflen u - resid u)) H2 Erw) as (s3 & -> & H3 & U3 & I3 & M3 & SF). cbn [mbind option_bind].
      apply rw_bounds in Erw. destruct (add_at_moved (icd_bytes c) (ddir u) (u32 (buflen u - resid u))) as (b & -> & Hb & _); [lia|].
      cbn [mbind option_bind]. eexists _, _. split; [done|]. simpl. split_and!; try done; [lia|apply SF..].
    - assert (Hl : life_ok (io_u_log_error o s2 u1) F R E (x - 1) /\ quiet s2 (io_u_log_error o s2 u1) /\ same_flight s2 (io_u_log_error o s2 u1)).
      { unfold io_u_log_error. destruct (td_non_fatal_error _ _ _ && _); [done|].
        destruct (td_error (errs s2) =? 0); [by apply td_verror_ok|done]. }
      destruct Hl as (L1 & (L2 & L3 & L4) & L5). destruct (negb (error u =? 0)); eexists _, _; (split; [done|]).
      + split_and!; try done; [apply L5..|]. rewrite L4. apply moved_refl.
      + split_and!; try done. apply moved_refl. }
  destruct Hmid as (s3 & c3 & -> & Hc3 & H3 & U3 & SF3 & I3 & M3). cbn [mbind option_bind].
  assert (Hi3 : unit_at s3 i = Some u1) by (unfold unit_at; rewrite U3; exact Hi1).
  destruct (negb (icd_error c3 =? 0)); [|by exists s3, c3, u1].
  destruct (negb (td_non_fatal_error o _ _)); [by exists s3, c3, u1|].
  set (s4 := td_clear_error _).
  assert (Hi4 : unit_at s4 i = Some u1) by exact Hi3.
  rewrite (unit_at_upd s4 i u1) by done. cbn [mbind option_bind]. eexists _, _, (with_result u1 (resid u1) 0).
  split; [done|]. split; [done|]. split; [change (units s4) with (units s3); simpl; rewrite U3; simpl; apply list_insert_insert_eq|].
  assert (Hk4 : kin u1 (with_result u1 (resid u1) 0)) by done.
  split; [by eapply kin_trans|]. split_and!; try done.
  eapply life_same; [|done|done|done|done]. by apply life_errs, life_errs.
Qed.
(** *** Accounting

    [failed d] counts the units of direction [d] that came back with an error.
    Every issued unit is done, failed or with the engine. *)
Definition acct_at (s : td) (j : Z) : Z := match unit_at s j with Some u => acct_ddir u | None => -7 end.
Definition pend (s : td) (E : list Z) (d : Z) : Z := Z.of_nat (length (filter (fun j => acct_at s j = d) E)).
Definition acct_ok (s : td) (E : list Z) (failed : Z -> Z) : Prop :=
  forall d, 0 <= d < 3 ->
    u64 (at_ (io_issues (acc s)) d) = u64 (at_ (io_blocks (acc s)) d + failed d + pend s E d).

Lemma pend_cons s i E d : pend s (i :: E) d = (if acct_at s i =? d then 1 else 0) + pend s E d.
Proof. unfold pend. rewrite filter_cons. case_decide; destruct (Z.eqb_spec (acct_at s i) d); try done; simpl length; lia. Qed.

Lemma pend_ext s s' E d : (forall j, j ∈ E -> acct_at s' j = acct_at s j) -> pend s' E d = pend s E d.
Proof.
  induction E as [|i E IH]; intros H; [done|]. rewrite !pend_cons, IH by (intros; apply H; by right).
  rewrite H; [done|by left].
Qed.

Lemma pend_perm s E E' d : E ≡ₚ E' -> pend s E d = pend s E' d.
Proof. intros H. unfold pend. by rewrite H. Qed.

(** A step on one unit that keeps its direction. *)
Lemma acct_at_kin s s' i u u' : unit_at s i = Some u -> units s' = <[Z.to_nat i := u']> (units s) ->
  acct_ddir u' = acct_ddir u -> forall j, acct_at s' j = acct_at s j.
Proof.
  intros Hi E Ha j. unfold acct_at. destruct (Z.eq_dec j i) as [->|Hj].
  - rewrite Hi. unfold unit_at. rewrite E. pose proof (arr_get_bounds _ _ _ Hi).
    rewrite arr_get_insert by lia. by rewrite Z.eqb_refl.
  - erewrite unit_at_other; [done|by eapply arr_get_bounds|done|done].
Qed.

(** The balance of a step: what issues, completions and the engine's units move by. *)
Lemma acct_step s s' E E' failed failed' d a b :
  acct_ok s E failed -> moved (io_issues (acc s)) (io_issues (acc s')) d a ->
  moved (io_blocks (acc s)) (io_blocks (acc s')) d b ->
  (forall j, 0 <= j < 3 -> pend s' E' j = pend s E j + (if j =? d then a - b else 0) - (failed' j - failed j)) ->
  acct_ok s' E' failed'.
Proof.
  intros Hok Ha Hb Hp j Hj. specialize (Hok j Hj). rewrite Ha, Hp by done. rewrite <- wrap_add_l, Hok, wrap_add_l by lia.
  replace (at_ (io_blocks (acc s')) j + failed' j + (pend s E j + (if j =? d then a - b else 0) - (failed' j - failed j)))
    with (at_ (io_blocks (acc s')) j + (failed j + pend s E j + (if j =? d then a - b else 0))) by lia.
  rewrite <- (wrap_add_l 64 (at_ (io_blocks (acc s')) j)) by lia. rewrite Hb, wrap_add_l by lia. f_equal. zcase; lia.
Qed.

(** *** Sequences of completions *)
Lemma finish_icd_ok s F R E x c ret : life_ok s F R E x -> length (icd_bytes c) = 3%nat ->
  exists s' r, finish_icd s c ret = Some (s', r) /\ life_ok s' F R E x /\ quiet s s' /\ same_flight s s' /\
    (r = ret \/ r = -1).
Proof.
  intros Hs Hc. unfold finish_icd. destruct (negb _).
  { destruct (td_verror_ok s F R E x (icd_error c) Hs) as (L1 & L2 & L3). eexists _, _. do 4 (split; [done|]). by right. }
  destruct (lo_shape _ _ _ _ _ Hs) as (A1 & A2 & A3 & A4 & A5 & A6 & A7 & A8 & A9 & A10 & M). unfold add_bytes_done.
  destruct (arr_get_is_Some (icd_bytes c) 0) as [b0 ->]; [lia|]. cbn [mbind option_bind].
  destruct (add_at_moved (td_bytes_done (acc s)) 0 b0) as (l0 & -> & H0 & _); [lia|]. cbn [mbind option_bind].
  destruct (arr_get_is_Some (icd_bytes c) 1) as [b1 ->]; [lia|]. cbn [mbind option_bind].
  destruct (add_at_moved l0 1 b1) as (l1 & -> & H1 & _); [lia|]. cbn [mbind option_bind].
  destruct (arr_get_is_Some (icd_bytes c) 2) as [b2 ->]; [lia|]. cbn [mbind option_bind].
  destruct (add_at_moved l1 2 b2) as (l2 & -> & H2 & _); [lia|]. cbn [mbind option_bind].
  eexists _, _. split; [done|]. split; [|do 2 (split; [done|]); by left].
  apply life_acc; [done|]. unfold shape. cbn. split_and!; lia.
Qed.

(** A unit with a file is accounted under its own direction. *)
Lemma acct_ddir_eq s F R E x i u : life_ok s F R E x -> unit_at s i = Some u -> is_Some (file u) -> acct_ddir u = ddir u.
Proof.
  intros Hs Hi Hf. destruct (us_units _ _ _ _ (lo_units _ _ _ _ _ Hs) i u Hi) as [_ _ _ _ _ _ _ _ K9].
  destruct (K9 Hf) as [_ [Ka|Ka]]; unfold acct_ddir; rewrite Ka; [done|]. by destruct (_ =? -1).
Qed.

Definition fail_of (u : io_u) (d : Z) : Z := if negb (succeeds u) && (ddir u =? d) then 1 else 0.

(** A unit completes and goes back to the free list. *)
Lemma complete_put_ok s F R E x i u c failed : life_ok s F R (i :: E) x -> acct_ok s (i :: E) failed ->
  unit_at s i = Some u -> i ∉ F ++ R -> length (icd_bytes c) = 3%nat ->
  exists s1 c' s', io_completed o s i c = Some (s1, c') /\ put_io_u o s1 i = Some s' /\ length (icd_bytes c') = 3%nat /\
    life_ok s' (F ++ [i]) R E (x - 1) /\ same_flight s s' /\ acct_ok s' E (fun d => failed d + fail_of u d) /\
    (forall j, j <> i -> unit_at s' j = unit_at s j).
Proof.
  intros Hs Ha Hi Hf Hc. pose proof (us_units _ _ _ _ (lo_units _ _ _ _ _ Hs) i u Hi) as Ku.
  assert (Had : acct_ddir u = ddir u).
  { eapply acct_ddir_eq; [done|done|]. apply (uo_file _ _ _ _ _ Ku). right. by left. }
  destruct (io_completed_ok s F R E x i u c Hs Hi Hf Hc) as (s1 & c' & u1 & E1 & Hc' & U1 & Hk1 & H1 & SF1 & I1 & M1).
  pose proof (us_eng _ _ _ _ (lo_units _ _ _ _ _ Hs)) as Hnd. apply list.NoDup_cons in Hnd as [Hni _].
  pose proof (arr_get_bounds _ _ _ Hi) as Hb.
  assert (Hi1 : unit_at s1 i = Some u1) by (unfold unit_at; rewrite U1, arr_get_insert by lia; by rewrite Z.eqb_refl).
  destruct (put_io_u_ok s1 F R E (x - 1) i u1 H1 Hi1 Hf Hni) as (s' & E2 & H2 & A2 & _ & SF2 & U2).
  exists s1, c', s'. do 4 (split; [done|]).
  split; [destruct SF1, SF2; split; congruence|]. split.
  - eapply (acct_step s s' (i :: E) E failed _ (ddir u) 0 (if succeeds u then 1 else 0)); [done| | |].
    + rewrite A2, I1. apply moved_refl.
    + by rewrite A2.
    + intros j _. rewrite pend_cons. unfold acct_at at 1. rewrite Hi, Had.
      rewrite (pend_ext s' s) by (intros k Hk; assert (k <> i) by congruence; symmetry; unfold acct_at;
        rewrite (unit_at_other s1 s' i k _ ltac:(rewrite U1, length_insert; lia) U2), (unit_at_other s s1 i k _ ltac:(lia) U1) by done; done).
      unfold fail_of. destruct (succeeds u); cbn [negb andb]; rewrite (Z.eqb_sym j); destruct (ddir u =? j); lia.
  - intros j Hj. rewrite (unit_at_other s1 s' i j _ ltac:(rewrite U1, length_insert; lia) U2) by done.
    by rewrite (unit_at_other s s1 i j _ ltac:(lia) U1).
Qed.
Lemma complete_sync_ok s F R E x i u failed : life_ok s F R (i :: E) x -> acct_ok s (i :: E) failed ->
  unit_at s i = Some u -> i ∉ F ++ R ->
  exists s' r, io_u_sync_complete o s i = Some (s', r) /\ life_ok s' (F ++ [i]) R E (x - 1) /\
    acct_ok s' E (fun d => failed d + fail_of u d) /\ (forall j, j <> i -> unit_at s' j = unit_at s j) /\ (r = 0 \/ r = -1).
Proof.
  intros Hs Ha Hi Hf. unfold io_u_sync_complete.
  destruct (complete_put_ok s F R E x i u init_icd failed Hs Ha Hi Hf) as (s1 & c & s2 & -> & E2 & Hc & H2 & _ & A2 & U2); [done|].
  cbn [mbind option_bind]. rewrite E2. cbn [mbind option_bind].
  destruct (finish_icd_ok s2 _ _ _ _ c 0 H2 Hc) as (s3 & r & -> & H3 & (Q1 & Q2 & Q3) & _ & Hr).
  exists s3, r. split_and!; try done.
  - intros d Hd. rewrite Q2, Q3, A2 by done. f_equal. f_equal. apply pend_ext. intros j _. unfold acct_at, unit_at. by rewrite Q1.
  - intros j Hj. unfold unit_at. rewrite Q1. by apply U2.
Qed.

Definition ev_units (evs : list event) : list Z := ev_unit <$> evs.
(** The units that come back failed, by direction. *)
Definition ev_fail (s : td) (d : Z) (e : event) : Z :=
  match unit_at s (ev_unit e) with
  | Some u => fail_of (with_result u (ev_resid e) (ev_error e)) d
  | None => 0
  end.
Definition ev_fails (s : td) (evs : list event) (d : Z) : Z := foldr (fun e n => ev_fail s d e + n) 0 evs.

Lemma ev_fails_cons s e evs d : ev_fails s (e :: evs) d = ev_fail s d e + ev_fails s evs d.
Proof. done. Qed.

Lemma ev_fails_ext s s' evs d : (forall e, e ∈ evs -> unit_at s' (ev_unit e) = unit_at s (ev_unit e)) ->
  ev_fails s' evs d = ev_fails s evs d.
Proof.
  induction evs as [|e evs IH]; intros H; [done|]. rewrite !ev_fails_cons, IH by (intros; apply H; by right).
  unfold ev_fail. rewrite H; [done|by left].
Qed.

Lemma acct_ext s E failed failed' : acct_ok s E failed -> (forall d, failed' d = failed d) -> acct_ok s E failed'.
Proof. intros H Hf d Hd. rewrite H, Hf by done. done. Qed.

Lemma ios_completed_ok evs : forall s F R E x c failed, life_ok s F R (ev_units evs ++ E) x ->
  acct_ok s (ev_units evs ++ E) failed -> length (icd_bytes c) = 3%nat ->
  exists s' c', ios_completed o s evs c = Some (s', c') /\ length (icd_bytes c') = 3%nat /\
    life_ok s' (F ++ ev_units evs) R E (x - Z.of_nat (length evs)) /\ same_flight s s' /\
    acct_ok s' E (fun d => failed d + ev_fails s evs d) /\
    (forall j, j ∉ ev_units evs -> unit_at s' j = unit_at s j).
Proof.
  induction evs as [|e evs IH]; intros s F R E x c failed Hs Ha Hc; cbn [ios_completed ev_units fmap list_fmap app] in *.
  { exists s, c. rewrite app_nil_r, Z.sub_0_r. split_and!; try done. eapply acct_ext; [done|]. intros d. cbn. lia. }
  set (i := ev_unit e) in *.
  pose proof (lo_units _ _ _ _ _ Hs) as Hu. assert (Hb : 0 <= i < Z.of_nat (length (units s))).
  { apply (us_range _ _ _ _ Hu). right. by left. }
  destruct (arr_get_is_Some (units s) i Hb) as [u Hi]. assert (Hi' : unit_at s i = Some u) by exact Hi.
  assert (Hf : i ∉ F ++ R). { intros HF. apply (uo_excl _ _ _ _ _ (us_units _ _ _ _ Hu i u Hi) HF). by left. }
  unfold take_event. fold i. rewrite Hi'. cbn [mbind option_bind]. rewrite (unit_at_upd _ _ u) by done. cbn [mbind option_bind].
  set (u1 := with_result u (ev_resid e) (ev_error e)). set (s1 := with_units s _).
  assert (H1 : life_ok s1 F R (i :: ev_units evs ++ E) x) by (eapply life_same; done).
  assert (Hi1 : unit_at s1 i = Some u1) by (by eapply unit_at_insert).
  assert (Ha1 : acct_ok s1 (i :: ev_units evs ++ E) failed).
  { intros d Hd. change (acc s1) with (acc s). rewrite Ha by done. f_equal. f_equal. symmetry. apply pend_ext. intros j _.
    by eapply (acct_at_kin s s1 i u u1). }
  destruct (complete_put_ok s1 F R (ev_units evs ++ E) x i u1 c failed H1 Ha1 Hi1 Hf Hc) as (s2 & c2 & s3 & -> & E3 & Hc2 & H3 & SF3 & A3 & U3).
  cbn [mbind option_bind]. rewrite E3. cbn [mbind option_bind].
  destruct (IH s3 (F ++ [i]) R E (x - 1) c2 _ H3 A3 Hc2) as (s4 & c4 & E4 & Hc4 & H4 & SF4 & A4 & U4).
  exists s4, c4. split; [done|]. split; [done|].
  assert (Hne : forall k, k ∈ ev_units evs -> k <> i).
  { pose proof (us_eng _ _ _ _ Hu) as Hnd. apply list.NoDup_cons in Hnd as [Hni _]. intros k Hk ->. apply Hni. apply elem_of_app. by left. }
  assert (Uo : forall k, k <> i -> unit_at s3 k = unit_at s k).
  { intros k Hk. rewrite U3 by done. by eapply unit_at_other. }
  split_and!.
  - rewrite <- app_assoc in H4. cbn [length]. replace (x - Z.of_nat (S (length evs))) with (x - 1 - Z.of_nat (length evs)) by lia. exact H4.
  - destruct SF3 as [S1 S2], SF4 as [S3 S4]. split; [by rewrite S3, S1|by rewrite S4, S2].
  - eapply acct_ext; [done|]. intros d. rewrite ev_fails_cons.
    rewrite <- (ev_fails_ext s s3) by (intros e' He'; apply Uo, Hne; unfold ev_units; by apply list_elem_of_fmap_2).
    unfold ev_fail. fold i. rewrite Hi'. fold u1. lia.
  - intros j Hj. apply not_elem_of_cons in Hj as [Hj1 Hj2]. rewrite U4 by done. by apply Uo.
Qed.
Lemma acct_quiet s s' E failed : acct_ok s E failed -> quiet s s' -> acct_ok s' E failed.
Proof.
  intros Ha (Q1 & Q2 & Q3) d Hd. rewrite Q2, Q3, Ha by done. f_equal. f_equal. symmetry.
  apply pend_ext. intros j _. unfold acct_at, unit_at. by rewrite Q1.
Qed.

Lemma acct_perm s E E' failed : acct_ok s E failed -> E ≡ₚ E' -> acct_ok s E' failed.
Proof. intros Ha Hp d Hd. rewrite Ha by done. by rewrite (pend_perm s E E') by done. Qed.

(** The engine hands back [l], which it had. *)
Lemma getevents_ok s F R E x min max c ans failed : life_ok s F R E x -> acct_ok s E failed ->
  exists s' r, td_io_getevents o s min max c ans = Some (s', r) /\ quiet s s' /\
    ((exists e, r = EvError e /\ life_ok s' F R E x) \/
     (exists l, r = Events l /\ (l = [] \/ ans = Events l) /\ life_ok s' F R E (x + Z.of_nat (length l)))).
Proof.
  intros Hs Ha. unfold td_io_getevents. set (r := if (0 <? min) && _ && _ then _ else _).
  assert (Hr : (exists e, r = EvError e) \/ exists l, r = Events l /\ (l = [] \/ ans = Events l)).
  { subst r. destruct (_ && _ && _); [left; by eexists|]. cbn zeta. destruct (_ =? 0); [right; eexists; split; [done|by left]|].
    destruct ans as [l|e]; [right; eexists; split; [done|by right]|left; by eexists]. }
  destruct Hr as [(e & ->)|(l & -> & Hl)].
  - destruct (td_verror_ok s F R E x e Hs) as (L1 & L2 & _). eexists _, _. split; [done|]. split; [done|]. left. by eexists.
  - assert (H1 : life_ok (with_flight s (io_u_queued s) (u32 (io_u_in_flight s - Z.of_nat (length l)))) F R E (x + Z.of_nat (length l))).
    { destruct Hs as [L1 L2 (Q1 & Q2 & Q3) L4 L5]. split; try done. unfold flight_ok. simpl. split_and!; [done|by apply wrap_uint|].
      rewrite wrap_add_r by lia. replace (io_u_queued s + (io_u_in_flight s - Z.of_nat (length l))) with (io_u_queued s + io_u_in_flight s + - Z.of_nat (length l)) by lia.
      rewrite <- wrap_add_l, Q3, wrap_add_l by lia. f_equal. lia. }
    destruct (mark_complete_ok _ F R E _ (Z.of_nat (length l)) H1) as (m & -> & Hm). cbn [mbind option_bind].
    eexists _, _. split; [done|]. split; [done|]. right. by exists l.
Qed.

Lemma reap_ok s F R E min max c ans failed : life_ok s F R E 0 -> acct_ok s E failed ->
  (forall l, ans = Events l -> exists E0, E ≡ₚ ev_units l ++ E0) ->
  exists s' r evs E', io_u_queued_complete o s min max c ans = Some (s', r) /\ (evs = [] \/ ans = Events evs) /\
    E ≡ₚ ev_units evs ++ E' /\ life_ok s' (F ++ ev_units evs) R E' 0 /\
    acct_ok s' E' (fun d => failed d + ev_fails s evs d).
Proof.
  intros Hs Ha Hans. unfold io_u_queued_complete. set (mn := if _ && _ then _ else _).
  assert (Hnil : forall s', quiet s s' -> life_ok s' F R E 0 -> exists evs E', (evs = [] \/ ans = Events evs) /\ E ≡ₚ ev_units evs ++ E' /\
    life_ok s' (F ++ ev_units evs) R E' 0 /\ acct_ok s' E' (fun d => failed d + ev_fails s evs d)).
  { intros s' Hq Hl. exists [], E. split; [by left|]. split; [done|]. rewrite app_nil_r. split; [done|].
    eapply acct_ext; [by eapply acct_quiet|]. intros d. cbn. lia. }
  destruct (getevents_ok s F R E 0 mn max c ans failed Hs Ha) as (s1 & r & -> & Q1 & [(e & -> & H1)|(l & -> & Hl & H1)]); cbn [mbind option_bind].
  - destruct (td_verror_ok s1 F R E 0 (- e) H1) as (L1 & L2 & _). destruct (Hnil (td_verror s1 (- e))) as (evs & E' & ?); [by eapply quiet_trans|done|].
    by eexists _, _, evs, E'.
  - destruct l as [|e l]; [destruct (Hnil s1 Q1 H1) as (evs & E' & ?); by eexists _, _, evs, E'|].
    destruct Hl as [?|Hl]; [done|]. destruct (Hans _ Hl) as (E0 & Hp).
    assert (H2 := life_ok_perm _ _ _ _ _ _ H1 Hp). assert (A2 := acct_perm _ _ _ _ (acct_quiet _ _ _ _ Ha Q1) Hp).
    destruct (ios_completed_ok (e :: l) s1 F R E0 _ init_icd failed H2 A2) as (s2 & c2 & -> & Hc2 & H3 & _ & A3 & _); [done|]. cbn [mbind option_bind].
    destruct (finish_icd_ok s2 _ _ _ _ c2 (Z.of_nat (length (e :: l))) H3 Hc2) as (s3 & r & -> & H4 & Q4 & _ & _).
    exists s3, r, (e :: l), E0. split; [done|]. split; [by right|]. split; [done|]. split; [by rewrite Z.add_simpl_r in H4|].
    eapply acct_quiet; [|done]. eapply acct_ext; [done|]. intros d.
    rewrite <- (ev_fails_ext s s1); [done|]. intros e' _. unfold unit_at. destruct Q1 as [-> _]. done.
Qed.
Lemma rw_false d : 0 <= d <= 3 -> ddir_rw d = false -> d = 3.
Proof. unfold ddir_rw, DDIR_READ, DDIR_WRITE, DDIR_TRIM. intros. lia. Qed.

(** A unit with a file goes to the requeue ring; [b]: it was in flight. *)
Lemma requeue_step s F R E x i u (b : bool) failed :
  life_ok s F R ((if b then [i] else []) ++ E) x -> acct_ok s ((if b then [i] else []) ++ E) failed ->
  unit_at s i = Some u -> i ∉ F ++ R -> i ∉ E -> is_Some (file u) ->
  exists s', requeue_io_u s i = Some s' /\ life_ok s' F (R ++ [i]) E (x - if b then 1 else 0) /\ acct_ok s' E failed.
Proof.
  intros Hs Ha Hi Hf He Hfile. pose proof (us_units _ _ _ _ (lo_units _ _ _ _ _ Hs) i u Hi) as Ku.
  destruct (uo_ddir _ _ _ _ _ Ku Hfile) as [Hd _]. rewrite <- (acct_ddir_eq _ _ _ _ _ _ _ Hs Hi Hfile) in Hd.
  destruct (requeue_io_u_ok s F R E x i u b Hs Hi Hf He Hfile) as (s' & E1 & H1 & M1 & B1 & _ & U1).
  exists s'. split_and!; try done.
  eapply (acct_step s s' _ E failed failed (acct_ddir u) _ 0); [exact Ha|exact M1|rewrite B1; apply moved_refl|].
  intros j Hj. rewrite (pend_ext s s') by (intros k _; eapply (acct_at_kin s s' i u); done).
  destruct b; cbn [app andb]; [|destruct (j =? acct_ddir u); lia].
  rewrite pend_cons. unfold acct_at. rewrite Hi, (Z.eqb_sym j). destruct (ddir_rw (acct_ddir u)) eqn:Erw.
  - destruct (acct_ddir u =? j); lia.
  - apply rw_false in Erw; [|done]. rewrite Erw. destruct (Z.eqb_spec 3 j); lia.
Qed.

Lemma break_ok s F R E x d ret : life_ok s F R E x ->
  exists s' r b, break_on_this_error o s d ret = (s', r, b) /\ life_ok s' F R E x /\ quiet s s'.
Proof.
  intros Hs. unfold break_on_this_error. destruct (_ || _); [|by eexists _, _, _].
  destruct (negb (isset _ _)); [by eexists _, _, _|].
  destruct (td_non_fatal_error _ _ _); [eexists _, _, _; split; [done|]; split; [by apply life_errs, life_errs|done]|].
  destruct (_ && _); (eexists _, _, _; split; [done|]; split; [|done]); [by apply life_errs, life_errs|by apply life_errs].
Qed.

Lemma count_short_ok s F R E x d : life_ok s F R E x -> exists s', count_short s d = Some s' /\ life_ok s' F R E x /\ quiet s s'.
Proof.
  intros Hs. unfold count_short. destruct (ddir_rw d) eqn:Ed; [|by exists s]. apply rw_bounds in Ed.
  destruct (lo_shape _ _ _ _ _ Hs) as (A1 & A2 & A3 & A4 & A5 & A6 & A7 & A8 & A9 & A10 & M).
  destruct (add_at_moved (short_io_u (acc s)) d 1) as (t & -> & Ht & _); [lia|]. cbn [mbind option_bind].
  eexists. split; [done|]. split; [|done]. apply life_acc; [done|]. unfold shape. cbn. split_and!; lia.
Qed.

(** Where the unit is after it was handed over. *)
Definition placed (i : Z) (F R E F' R' E' : list Z) : Prop :=
  F' = F ++ [i] /\ R' = R /\ E' = E \/ F' = F /\ R' = R ++ [i] /\ E' = E \/ F' = F /\ R' = R /\ E' = i :: E.

Definition transfer_ok (u : io_u) (a : answer) : Prop :=
  (a_ret a = FIO_Q_COMPLETED \/ a_ret a = FIO_Q_QUEUED \/ a_ret a = FIO_Q_BUSY) /\
  (a_ret a = FIO_Q_COMPLETED -> a_error a = 0 -> a_resid a <> 0 -> sgn 32 (xfer_buflen u - a_resid a) <> 0).
(** The accounting of [td_io_queue]. *)
Lemma td_io_queue_step s F R E i u a c failed : life_ok s F R E 0 -> acct_ok s E failed -> unit_at s i = Some u ->
  i ∉ F ++ R -> i ∉ E -> is_Some (file u) ->
  let back := (a_ret a =? FIO_Q_BUSY) && ddir_rw (acct_ddir u) in
  exists s' u', td_io_queue o s i a c = Some (s', a_ret a) /\ unit_at s' i = Some u' /\ is_Some (file u') /\
    acct_ddir u' = acct_ddir u /\ ddir u' = ddir u /\
    resid u' = a_resid a /\ error u' = a_error a /\ xfer_buflen u' = xfer_buflen u /\
    life_ok s' F R ((if back then [] else [i]) ++ E) (if (a_ret a =? FIO_Q_QUEUED) || back then 0 else 1) /\
    acct_ok s' ((if back then [] else [i]) ++ E) failed.
Proof.
  intros Hs Ha Hi Hf He Hfile back. pose proof (us_units _ _ _ _ (lo_units _ _ _ _ _ Hs) i u Hi) as Ku.
  destruct (uo_ddir _ _ _ _ _ Ku Hfile) as [Hd _]. rewrite <- (acct_ddir_eq _ _ _ _ _ _ _ Hs Hi Hfile) in Hd.
  destruct (td_io_queue_ok s F R E 0 i u a c Hs Hi Hf He Hfile) as (s' & u' & E1 & U1 & Hk & Hr & Her & Hx & B1 & M1 & H1).
  pose proof (arr_get_bounds _ _ _ Hi) as Hb. destruct Hk as (Kf & Kd & Ka & _). exists s', u'.
  assert (Had : acct_ddir u' = acct_ddir u) by (unfold acct_ddir; by rewrite Ka, Kd).
  split_and!; try done; [unfold unit_at; rewrite U1, arr_get_insert by lia; by rewrite Z.eqb_refl|by rewrite Kf|].
  eapply (acct_step s s' E _ failed failed (acct_ddir u) _ 0); [exact Ha|exact M1|rewrite B1; apply moved_refl|].
  fold back. intros j Hj. destruct back eqn:Eb; cbn [app].
  - rewrite (pend_ext s s') by (intros k _; eapply (acct_at_kin s s' i u); done). destruct (j =? _); lia.
  - rewrite pend_cons, (pend_ext s s') by (intros k _; eapply (acct_at_kin s s' i u); done).
    rewrite (acct_at_kin s s' i u u') by done. unfold acct_at. rewrite Hi, (Z.eqb_sym j).
    destruct (ddir_rw (acct_ddir u)) eqn:Erw; [destruct (acct_ddir u =? j); lia|].
    apply rw_false in Erw; [|done]. rewrite Erw. destruct (Z.eqb_spec 3 j); lia.
Qed.

(** [clear_io_u] on a unit that came back with an error. *)
Lemma clear_step s F R E x i u failed : life_ok s F R (i :: E) x -> acct_ok s (i :: E) failed -> unit_at s i = Some u ->
  i ∉ F ++ R -> error u <> 0 ->
  exists s', clear_io_u o s i = Some s' /\ life_ok s' (F ++ [i]) R E (x - 1) /\ acct_ok s' E (fun d => failed d + fail_of u d).
Proof.
  intros Hs Ha Hi Hf Her. destruct (clear_io_u_ok s F R E x i u Hs Hi Hf) as (s' & E1 & H1 & A1 & _ & _ & U1).
  pose proof (us_units _ _ _ _ (lo_units _ _ _ _ _ Hs) i u Hi) as Ku.
  assert (Had : acct_ddir u = ddir u).
  { apply (acct_ddir_eq _ _ _ _ _ _ _ Hs Hi). apply (uo_file _ _ _ _ _ Ku). right. by left. }
  exists s'. split_and!; try done. eapply (acct_step s s' (i :: E) E failed _ (acct_ddir u) 0 0); [done|rewrite A1; apply moved_refl..|].
  intros j _. rewrite (pend_ext s s') by (intros k _; eapply (acct_at_kin s s' i u); done). rewrite pend_cons.
  unfold acct_at, fail_of, succeeds. rewrite Hi, Had. destruct (Z.eqb_spec (error u) 0); [done|]. cbn [andb negb].
  destruct (ddir u =? j), (j =? ddir u); lia.
Qed.

(** A refused unit is requeued and what is queued is committed. *)
Lemma busy_event_ok s F R E i u (b : bool) bytes c failed :
  life_ok s F R ((if b then [i] else []) ++ E) (if b then 1 else 0) -> acct_ok s ((if b then [i] else []) ++ E) failed ->
  unit_at s i = Some u -> i ∉ F ++ R -> i ∉ E -> is_Some (file u) ->
  exists s', queue_event o s i FIO_Q_BUSY bytes c = Some (s', FIO_Q_BUSY, bytes) /\ life_ok s' F (R ++ [i]) E 0 /\ acct_ok s' E failed.
Proof.
  intros H1 A1 Hi Hf He Hfile. unfold queue_event. rewrite Hi. cbn [mbind option_bind].
  change (FIO_Q_BUSY =? FIO_Q_COMPLETED) with false. change (FIO_Q_BUSY =? FIO_Q_QUEUED) with false.
  change (FIO_Q_BUSY =? FIO_Q_BUSY) with true. cbn match.
  destruct (requeue_step s F R E _ i u b failed H1 A1 Hi Hf He Hfile) as (s2 & -> & H2 & A2). cbn [mbind option_bind].
  rewrite Z.sub_diag in H2. destruct (td_io_commit_ok s2 F (R ++ [i]) E 0 c H2) as (s3 & -> & H3 & Q1 & Q2). cbn [mbind option_bind].
  exists s3. split; [done|]. split; [done|]. eapply acct_quiet; [done|]. split; [done|]. by rewrite Q2.
Qed.

(** A unit that completed at once, without error, in full or at the end of the file. *)
Lemma sync_event_ok s F R E i u failed : life_ok s F R (i :: E) 1 -> acct_ok s (i :: E) failed -> unit_at s i = Some u ->
  i ∉ F ++ R -> error u = 0 ->
  exists s' r failed', io_u_sync_complete o s i = Some (s', r) /\ life_ok s' (F ++ [i]) R E 0 /\ acct_ok s' E failed' /\
    forall d, 0 <= d < 3 -> failed' d = failed d.
Proof.
  intros H1 A1 Hi Hf Her. pose proof (us_units _ _ _ _ (lo_units _ _ _ _ _ H1) i u Hi) as Ku.
  destruct (complete_sync_ok s F R E 1 i u failed H1 A1 Hi Hf) as (s' & r & E3 & H3 & A3 & _).
  exists s', r, (fun d => failed d + fail_of u d). split_and!; try done. intros d Hd. unfold fail_of, succeeds. rewrite Her.
  destruct (uo_ddir _ _ _ _ _ Ku) as [Hdu _]; [apply (uo_file _ _ _ _ _ Ku); right; by left|].
  destruct (ddir_rw (ddir u)) eqn:Erw; cbn [negb andb Z.eqb]; [lia|]. apply rw_false in Erw; [|done].
  destruct (Z.eqb_spec (ddir u) d); lia.
Qed.

(** The three ways a unit that completed at once can go. *)
Lemma completed_event_ok s F R E i u bytes c failed : life_ok s F R (i :: E) 1 -> acct_ok s (i :: E) failed ->
  unit_at s i = Some u -> i ∉ F ++ R -> i ∉ E ->
  (error u = 0 -> resid u <> 0 -> sgn 32 (xfer_buflen u - resid u) <> 0) ->
  exists s' r b F' R' failed', queue_event o s i FIO_Q_COMPLETED bytes c = Some (s', r, b) /\
    placed i F R E F' R' E /\ life_ok s' F' R' E 0 /\ acct_ok s' E failed' /\
    (error u = 0 -> forall d, 0 <= d < 3 -> failed' d = failed d).
Proof.
  intros H1 A1 Hi Hf He Hpart. pose proof (us_units _ _ _ _ (lo_units _ _ _ _ _ H1) i u Hi) as Ku.
  destruct (uo_file _ _ _ _ _ Ku) as [f Ef]; [right; by left|].
  unfold queue_event. rewrite Hi. cbn [mbind option_bind]. change (FIO_Q_COMPLETED =? FIO_Q_COMPLETED) with true. cbn match.
  destruct (Z.eqb_spec (error u) 0) as [Ez|Ez]; cbn [negb].
  2:{ destruct (clear_step s F R E 1 i u failed H1 A1 Hi Hf) as (s2 & -> & H2 & A2); [done|]. cbn [mbind option_bind].
      eexists s2, _, _, (F ++ [i]), R, _. split; [done|]. split; [by left|]. by split_and!. }
  destruct (Z.eqb_spec (resid u) 0) as [Erz|Erz]; cbn [negb].
  { destruct (sync_event_ok s F R E i u failed H1 A1 Hi Hf Ez) as (s3 & r3 & f' & -> & H3 & A3 & Hz). cbn [mbind option_bind].
    eexists s3, r3, _, (F ++ [i]), R, f'. split; [done|]. split; [by left|]. by split_and!. }
  destruct (Z.eqb_spec (sgn 32 (xfer_buflen u - resid u)) 0) as [Eb|_]; [by destruct Hpart|]. cbn zeta.
  rewrite (unit_at_upd s i u) by done. cbn [mbind option_bind]. set (u2 := IoUnit _ _ _ _ _ _ _ _ _). set (s2 := with_units s _).
  assert (H2 : life_ok s2 F R (i :: E) 1) by (eapply life_same; done).
  assert (A2 : acct_ok s2 (i :: E) failed).
  { intros d Hd. change (acc s2) with (acc s). rewrite A1 by done. f_equal. f_equal. symmetry. apply pend_ext. intros j _.
    by eapply (acct_at_kin s s2 i u u2). }
  destruct (count_short_ok s2 F R (i :: E) 1 (ddir u2) H2) as (s3 & E3 & H3 & Q3). assert (A3 := acct_quiet _ _ _ _ A2 Q3).
  assert (Hi3 : unit_at s3 i = Some u2) by (unfold unit_at; destruct Q3 as [-> _]; by eapply unit_at_insert).
  change (ddir u) with (ddir u2). rewrite E3. cbn [mbind option_bind]. change (file u2) with (file u). rewrite Ef. cbn [mbind option_bind].
  destruct (offset u2 =? real_file_size o f).
  - destruct (sync_event_ok s3 F R E i u2 failed H3 A3 Hi3 Hf Ez) as (s4 & r4 & f' & -> & H4 & A4 & Hz). cbn [mbind option_bind].
    eexists s4, r4, _, (F ++ [i]), R, f'. split; [done|]. split; [by left|]. by split_and!.
  - destruct (requeue_step s3 F R E 1 i u2 true failed H3 A3 Hi3 Hf He) as (s4 & -> & H4 & A4); [simpl; by rewrite Ef|]. cbn [mbind option_bind].
    eexists s4, _, _, F, (R ++ [i]), failed. split; [done|]. split; [right; by left|]. by split_and!.
Qed.

Lemma submit_ok s F R E i u a bytes c1 c2 failed : life_ok s F R E 0 -> acct_ok s E failed -> unit_at s i = Some u ->
  i ∉ F ++ R -> i ∉ E -> is_Some (file u) -> transfer_ok u a ->
  exists s' ret b brk F' R' E' failed', submit_unit o s i a bytes c1 c2 = Some (s', ret, b, brk) /\
    placed i F R E F' R' E' /\ life_ok s' F' R' E' 0 /\ acct_ok s' E' failed' /\
    (a_error a = 0 -> forall d, 0 <= d < 3 -> failed' d = failed d).
Proof.
  intros Hs Ha Hi Hf He Hfile [Hret Hpart]. unfold submit_unit, io_u_submit. rewrite Hi. cbn [mbind option_bind].
  assert (Hev : exists s1 r1 s2 r2 b2 F' R' E' failed',
    (if serialize_overlap o && (1 <? cur_depth s) && in_flight_overlap s u then Some (s, FIO_Q_BUSY) else td_io_queue o s i a c1) = Some (s1, r1) /\
    queue_event o s1 i r1 bytes c2 = Some (s2, r2, b2) /\ placed i F R E F' R' E' /\ life_ok s2 F' R' E' 0 /\ acct_ok s2 E' failed' /\
    (a_error a = 0 -> forall d, 0 <= d < 3 -> failed' d = failed d)).
  2:{ destruct Hev as (s1 & r1 & s2 & r2 & b2 & F' & R' & E' & failed' & -> & E2 & Hp & H2 & A2 & Hz). cbn [mbind option_bind].
      unfold io_queue_event. rewrite E2. cbn [mbind option_bind].
      destruct (break_ok s2 F' R' E' 0 (ddir u) r2 H2) as (s3 & r3 & brk & -> & H3 & Q3).
      eexists _, _, _, _, F', R', E', failed'. split; [done|]. split_and!; try done. by eapply acct_quiet. }
  destruct (serialize_overlap o && (1 <? cur_depth s) && in_flight_overlap s u).
  { destruct (busy_event_ok s F R E i u false bytes c2 failed Hs Ha Hi Hf He Hfile) as (s2 & E2 & H2 & A2).
    eexists _, _, s2, _, _, F, (R ++ [i]), E, failed. split; [done|]. split; [exact E2|]. split; [right; by left|done]. }
  destruct (td_io_queue_step s F R E i u a c1 failed Hs Ha Hi Hf He Hfile)
    as (s1 & u1 & E1 & Hi1 & Hfile1 & Had1 & Hd1 & Hr1 & He1 & Hx1 & H1 & A1). rewrite E1.
  destruct Hret as [Er|[Er|Er]]; rewrite Er in *.
  - destruct (completed_event_ok s1 F R E i u1 bytes c2 failed H1 A1 Hi1 Hf He) as (s2 & r2 & b2 & F' & R' & f' & E2 & H2);
      [rewrite He1, Hr1, Hx1; by apply Hpart|].
    eexists s1, _, s2, _, _, F', R', E, f'. split; [done|]. split; [exact E2|]. by rewrite He1 in H2.
  - unfold queue_event. eexists s1, _, s1, _, _, F, R, (i :: E), failed. split; [done|]. rewrite Hi1. split; [done|].
    split; [right; by right|]. by split_and!.
  - destruct (busy_event_ok s1 F R E i u1 (negb (ddir_rw (acct_ddir u))) bytes c2 failed) as (s2 & E2 & H2 & A2);
      [by destruct (ddir_rw (acct_ddir u))..|done|done|done|done|].
    eexists s1, _, s2, _, _, F, (R ++ [i]), E, failed. split; [done|]. split; [exact E2|]. split; [right; by left|]. by split_and!.
Qed.
(** *** Getting a unit ready *)
Lemma acct_outside s s' E failed : acct_ok s E failed -> acc s' = acc s ->
  (forall j, j ∈ E -> unit_at s' j = unit_at s j) -> acct_ok s' E failed.
Proof.
  intros Ha HA HU d Hd. rewrite HA, Ha by done. f_equal. f_equal. symmetry. apply pend_ext. intros j Hj.
  unfold acct_at. by rewrite HU.
Qed.

(** A held unit without a file gets one, with a range. *)
Lemma life_assign s F R E x i u u' f g : life_ok s F R E x -> unit_at s i = Some u -> i ∉ F ++ R -> i ∉ E ->
  file u = None -> file u' = Some f -> flags u' = flags u -> 0 <= ddir u' <= 3 -> u_acct_ddir u' = ddir u' ->
  files_ok g (f :: holders (units s)) ->
  life_ok (with_units (with_fs s g) (<[Z.to_nat i := u']> (units s))) F R E x.
Proof.
  intros [Hq Hu Hfl Hfs Hsh] Hi Hf He Hn Hs' Hfl' Hd Ha Hg. pose proof (arr_get_bounds _ _ _ Hi) as Hb.
  destruct (us_units _ _ _ _ Hu i u Hi) as [K1 K2 K3 K4 K5 K6 K7 K8 K9]. split; simpl; try done.
  - unfold queues_ok in *. simpl. by rewrite length_insert.
  - eapply units_ok_upd; [done|done|done|by destruct Hu|by destruct Hu|].
    split; rewrite ?Hfl'; try done.
    + intros HF. rewrite elem_of_app in Hf. tauto.
    + intros _. split; [done|by right].
  - assert (Hl : units s !! Z.to_nat i = Some u) by (apply arr_get_Some in Hi; tauto).
    destruct (holders_split _ _ _ Hl) as (rest & Hh & Hh'). eapply files_ok_perm; [|exact Hg].
    rewrite Hh, Hh'. by rewrite Hs', Hn.
Qed.

Lemma get_io_u_ok stop s F R E pick_file `{!FilePicker pick_file} range prep failed :
  life_ok s F R E 0 -> acct_ok s E failed -> 0 <= range.1.1 <= 3 ->
  exists s' r F' R', get_io_u o stop s pick_file range prep = Some (s', r) /\ life_ok s' F' R' E 0 /\ acct_ok s' E failed /\
    (forall i, r = inl (Some i) -> exists u, unit_at s' i = Some u /\ is_Some (file u) /\ i ∉ F' ++ R' /\ i ∉ E).
Proof.
  intros Hs Ha Hd. unfold get_io_u.
  destruct (get_unit_ok stop s F R E 0 Hs) as (s1 & r & -> & A1 & M1 & SF1 & Hr). cbn [mbind option_bind].
  destruct r as [i|]; [|destruct Hr as [-> _]; by eexists _, _, F, R].
  destruct Hr as (F' & R' & u & H1 & Hi & Hf & He & Hcase & Hoth). rewrite Hi. cbn [mbind option_bind].
  assert (Hne : forall j, j ∈ E -> j <> i) by congruence.
  assert (Ha1 : acct_ok s1 E failed) by (eapply acct_outside; [done|done|]; intros j Hj; by apply Hoth, Hne).
  (* returning the unit unused *)
  assert (Hput : forall s2 u2, life_ok s2 F' R' E 0 -> acct_ok s2 E failed -> unit_at s2 i = Some u2 ->
    exists s3, put_io_u o s2 i = Some s3 /\ life_ok s3 (F' ++ [i]) R' E 0 /\ acct_ok s3 E failed).
  { intros s2 u2 H2 A2 Hi2. destruct (put_io_u_ok s2 F' R' E 0 i u2 H2 Hi2 Hf He) as (s3 & E3 & H3 & A3 & _ & _ & U3).
    exists s3. split_and!; try done. eapply acct_outside; [exact A2|done|]. intros j Hj.
    eapply unit_at_other; [by eapply arr_get_bounds|done|by apply Hne]. }
  destruct (file u) as [f|] eqn:Efile.
  - cbn [mbind option_bind]. destruct (prep =? 0).
    + eexists _, _, F', R'. split; [done|]. split_and!; try done. intros k [= <-]. exists u. by rewrite Efile.
    + destruct (Hput s1 u H1 Ha1 Hi) as (s3 & -> & H3 & A3). cbn [mbind option_bind]. by eexists _, _, (F' ++ [i]), R'.
  - destruct (picks (fs s1) _ (lo_files _ _ _ _ _ H1)) as (g & p & -> & Hp). cbn [mbind option_bind].
    assert (Hfs : forall g', files_ok g' (holders (units s1)) -> life_ok (with_fs s1 g') F' R' E 0) by (intros g' Hg'; by destruct H1; split).
    destruct p as [f| |e]; cbn [mbind option_bind].
    + destruct range as [[d off] len]. simpl in Hd. cbn [mbind option_bind].
      rewrite (unit_at_upd (with_fs s1 g) i u) by done. cbn [mbind option_bind].
      set (u2 := IoUnit (Some f) (flags u) d d len off len (resid u) (error u)). cbn [units with_fs].
      assert (H2 : life_ok (with_units (with_fs s1 g) (<[Z.to_nat i := u2]> (units s1))) F' R' E 0) by (by eapply life_assign).
      set (s2 := with_units _ _) in *. assert (Hi2 : unit_at s2 i = Some u2) by (by eapply (unit_at_insert (with_fs s1 g))).
      assert (Ha2 : acct_ok s2 E failed).
      { eapply acct_outside; [exact Ha1|done|]. intros j Hj. eapply (unit_at_other s1); [by eapply arr_get_bounds|done|by apply Hne]. }
      destruct (held_open g f _ Hp) as (fl & Efl & Eop). rewrite Efl. cbn [mbind option_bind]. rewrite Eop. cbn [mbind option_bind assert].
      destruct (Hput s2 u2 H2 Ha2 Hi2) as (s3 & E3 & H3 & A3).
      destruct (ddir_rw d && (len =? 0)); [rewrite E3; by eexists _, _, (F' ++ [i]), R'|].
      destruct (prep =? 0); [|rewrite E3; by eexists _, _, (F' ++ [i]), R'].
      eexists _, _, F', R'. split; [done|]. split_and!; try done. intros k [= <-]. by exists u2.
    + destruct (Hput (with_fs s1 g) u (Hfs g Hp)) as (s3 & -> & H3 & A3); [by eapply acct_outside|done|]. cbn [mbind option_bind].
      by eexists _, _, (F' ++ [i]), R'.
    + destruct (Hput (with_fs s1 g) u (Hfs g Hp)) as (s3 & -> & H3 & A3); [by eapply acct_outside|done|]. cbn [mbind option_bind].
      by eexists _, _, (F' ++ [i]), R'.
Qed.
End ops.
End invariant.
