(* ===== verification/IoULifeRun.v ===== *)
(** * Runs of a job's units

    Sequences of the operations of [IoULife], in any order the job loop and the
    engine may take, from the units that [init_io_u] of [backend.c] sets up; the
    theorems on whole runs; and the cases in which the code goes wrong. *)
From S2P Require Import Prelude Flags IoUQueue Files Buckets Stat CFloat LatTarget IoULife IoULifeInv.

(** ** Setting up: the queues and units of [init_io_u] *)
Definition new_unit : io_u := IoUnit None IO_U_F_FREE 0 0 0 0 0 0 0.

Fixpoint push_units (n : nat) (i : Z) (q : io_u_queue Z) : option (io_u_queue Z) :=
  match n with
  | O => Some q
  | S n => q ← io_u_qpush q (Some i); push_units n (i + 1) q
  end.

Definition zeros (n : nat) : list Z := replicate n 0.
Definition new_acct : acct :=
  Acct (zeros 3) (zeros 3) (zeros 3) (zeros 3) (zeros 3) (zeros 3) (zeros 3) (zeros 3) (zeros 4) (zeros 3).
Definition new_marks : depth_marks := Marks (zeros 7) (zeros 7) 0 (zeros 7) 0.

Definition init_io_u (iodepth : Z) (g : files_td) : option td :=
  r ← io_u_rinit true iodepth;
  q ← io_u_qinit true iodepth;
  q ← push_units (Z.to_nat iodepth) 0 q;
  Some (Td (replicate (Z.to_nat iodepth) new_unit) q r g 0 0 0 new_acct new_marks (TdErrors 0 0 0 false) false 0).

(** ** Operations

    A world is the job's state and the units the engine has. *)
Inductive op :=
| OGet (stop : bool) (range : Z * Z * Z) (prep : Z)
| OSubmit (i : Z) (a : answer) (bytes_issued c1 c2 : Z)
| OCommit (c : Z)
| OReap (min max c : Z) (ans : ev_answer)
| OPut (i : Z).

Section runs.
Context (depth : Z) (o : options) (pick_file : files_td -> option (files_td * pick)) `{!FilePicker pick_file}.

Definition in_flight (s : td) (i : Z) : bool :=
  match unit_at s i with Some u => isset (flags u) IO_U_F_FLIGHT | None => false end.

(** The engine keeps what it was given and has not handed back. *)
Definition run_op (x : op) (w : td * list Z) : option (td * list Z) :=
  let '(s, E) := w in
  match x with
  | OGet stop range prep => '(s, _) ← get_io_u o stop s pick_file range prep; Some (s, E)
  | OSubmit i a b c1 c2 =>
      '(s, _, _, _) ← submit_unit o s i a b c1 c2; Some (s, if in_flight s i then i :: E else E)
  | OCommit c => s ← td_io_commit o s c; Some (s, E)
  | OReap min max c ans =>
      '(s, _) ← io_u_queued_complete o s min max c ans; Some (s, filter (fun i => in_flight s i = true) E)
  | OPut i => s ← put_io_u o s i; Some (s, E)
  end.

(** The job holds unit [i]: it is neither free, nor requeued, nor in flight. *)
Definition holds (s : td) (i : Z) : option io_u :=
  u ← unit_at s i;
  if isset (flags u) IO_U_F_FREE || isset (flags u) IO_U_F_FLIGHT then None else Some u.

(** What the callers and the engine respect: a held unit is submitted with its
    file, the engine answers with one of its three codes and a transfer that is
    not empty, and it hands back only units it has, each once. *)
Definition legal (x : op) (w : td * list Z) : Prop :=
  match x with
  | OGet _ range _ => 0 <= range.1.1 <= 3
  | OSubmit i a _ _ _ => exists u, holds w.1 i = Some u /\ is_Some (file u) /\ transfer_ok u a
  | OCommit _ => True
  | OReap _ _ _ ans => forall l, ans = Events l -> NoDup (ev_units l) /\ forall i, i ∈ ev_units l -> i ∈ w.2
  | OPut i => is_Some (holds w.1 i)
  end.

Fixpoint legal_run (xs : list op) (w : td * list Z) : Prop :=
  match xs with
  | [] => True
  | x :: xs => legal x w /\ forall w', run_op x w = Some w' -> legal_run xs w'
  end.

Fixpoint run (xs : list op) (w : td * list Z) : option (td * list Z) :=
  match xs with
  | [] => Some w
  | x :: xs => w ← run_op x w; run xs w
  end.

(** The engine reports no error. *)
Definition clean (x : op) : Prop :=
  match x with
  | OSubmit _ a _ _ _ => a_error a = 0
  | OReap _ _ _ (Events l) => Forall (fun e => ev_error e = 0) l
  | _ => True
  end.

(** ** The invariant of a world *)
Definition world_ok (w : td * list Z) (F R : list Z) (failed : Z -> Z) : Prop :=
  life_ok depth w.1 F R w.2 0 /\ acct_ok w.1 w.2 failed.

Lemma holds_inv s F R E x i u : life_ok depth s F R E x -> holds s i = Some u ->
  unit_at s i = Some u /\ i ∉ F ++ R /\ i ∉ E.
Proof.
  intros Hs H. unfold holds in H. apply bind_Some in H as (v & Hv & H).
  destruct (us_units _ _ _ _ _ (lo_units _ _ _ _ _ _ Hs) i v Hv) as [K1 K2 _ _ _ _ _ _ _].
  destruct (isset (flags v) IO_U_F_FREE) eqn:E1; [done|]. destruct (isset (flags v) IO_U_F_FLIGHT) eqn:E2; [done|].
  injection H as <-. split; [done|]. split.
  - exact (bool_decide_eq_false_1 _ (eq_sym K1)).
  - exact (bool_decide_eq_false_1 _ (eq_sym K2)).
Qed.

Lemma in_flight_eq s F R E x i : life_ok depth s F R E x -> in_flight s i = bool_decide (i ∈ E).
Proof.
  intros Hs. unfold in_flight. destruct (unit_at s i) as [u|] eqn:Hi.
  - apply (uo_flight _ _ _ _ _ (us_units _ _ _ _ _ (lo_units _ _ _ _ _ _ Hs) i u Hi)).
  - symmetry. apply bool_decide_eq_false_2. intros HE.
    destruct (arr_get_is_Some (units s) i) as [u Hu]; [apply (us_range _ _ _ _ _ (lo_units _ _ _ _ _ _ Hs)); by right|].
    unfold unit_at in Hi. congruence.
Qed.

(** Events without errors of units that carry I/O fail nothing. *)
Lemma clean_fails s F R E x evs d : life_ok depth s F R E x -> (forall i, i ∈ ev_units evs -> i ∈ E) -> 0 <= d < 3 ->
  Forall (fun e => ev_error e = 0) evs -> ev_fails s evs d = 0.
Proof.
  intros Hs Hin Hd Hc. induction Hc as [|e evs He Hc IH]; [done|]. rewrite ev_fails_cons, IH by (intros; apply Hin; by right).
  rewrite Z.add_0_r. unfold ev_fail. destruct (unit_at s (ev_unit e)) as [u|] eqn:Hu; [|done].
  pose proof (us_units _ _ _ _ _ (lo_units _ _ _ _ _ _ Hs) _ u Hu) as Ku.
  destruct (uo_ddir _ _ _ _ _ Ku) as [Hdu _]; [apply (uo_file _ _ _ _ _ Ku); right; apply Hin; by left|].
  unfold fail_of, succeeds. simpl. rewrite He. destruct (ddir_rw (ddir u)) eqn:Erw; [done|].
  apply rw_false in Erw; [|done]. cbn [negb andb]. destruct (Z.eqb_spec (ddir u) d); [lia|done].
Qed.

Lemma run_op_ok x w F R failed : world_ok w F R failed -> legal x w ->
  exists w' F' R' failed', run_op x w = Some w' /\ world_ok w' F' R' failed' /\
    (clean x -> forall d, 0 <= d < 3 -> failed' d = failed d).
Proof.
  destruct w as [s E]. intros [Hs Ha] Hl. destruct x as [stop range prep|i a b c1 c2|c|mn mx c ans|i]; simpl in *.
  - destruct (get_io_u_ok depth o stop s F R E pick_file range prep failed Hs Ha Hl) as (s' & r & F' & R' & -> & H1 & A1 & _).
    cbn [mbind option_bind]. by eexists _, F', R', failed.
  - destruct Hl as (u & Hh & Hfile & Ht). destruct (holds_inv _ _ _ _ _ _ _ Hs Hh) as (Hi & Hf & He).
    destruct (submit_ok depth o s F R E i u a b c1 c2 failed Hs Ha Hi Hf He Hfile Ht) as (s' & r & b' & k & F' & R' & E' & f' & -> & Hp & H1 & A1 & Hz).
    cbn [mbind option_bind]. rewrite (in_flight_eq _ _ _ _ _ i H1).
    assert (HE : (if bool_decide (i ∈ E') then i :: E else E) = E').
    { destruct Hp as [(_ & _ & ->)|[(_ & _ & ->)|(_ & _ & ->)]]; [by rewrite bool_decide_eq_false_2..|].
      rewrite bool_decide_eq_true_2; [done|by left]. }
    rewrite HE. by eexists _, F', R', f'.
  - destruct (td_io_commit_ok depth o s F R E 0 c Hs) as (s' & -> & H1 & Q1 & Q2). cbn [mbind option_bind].
    eexists _, F, R, failed. split; [done|]. split; [|done]. split; [done|]. eapply acct_quiet; [done|]. simpl. split; [done|]. by rewrite Q2.
  - destruct (reap_ok depth o s F R E mn mx c ans failed Hs Ha) as (s' & r & evs & E' & -> & Hev & HE & H1 & A1).
    { intros l ->. destruct (Hl l eq_refl) as [Hnd Hsub]. apply submseteq_Permutation. by apply NoDup_submseteq. }
    cbn [mbind option_bind]. eexists _, (F ++ ev_units evs), R, (fun d => failed d + ev_fails s evs d). split; [done|].
    assert (Hp : E' ≡ₚ filter (fun i => in_flight s' i = true) E).
    { pose proof (us_eng _ _ _ _ _ (lo_units _ _ _ _ _ _ Hs)) as Hnd.
      apply NoDup_Permutation; [by destruct (lo_units _ _ _ _ _ _ H1)|by apply list.NoDup_filter|]. intros j.
      rewrite list_elem_of_filter, (in_flight_eq _ _ _ _ _ j H1), bool_decide_eq_true, HE, elem_of_app. tauto. }
    split; [split; simpl; [by eapply life_ok_perm|by eapply acct_perm]|]. intros Hc d Hd. cbn beta.
    rewrite (clean_fails s F R E 0); [lia|done| |done|].
    + intros j Hj. rewrite HE, elem_of_app. by left.
    + destruct Hev as [->| ->]; [constructor|done].
  - destruct Hl as [u Hh]. destruct (holds_inv _ _ _ _ _ _ _ Hs Hh) as (Hi & Hf & He).
    destruct (put_io_u_ok depth o s F R E 0 i u Hs Hi Hf He) as (s' & -> & H1 & A1 & _ & _ & U1). cbn [mbind option_bind].
    eexists _, (F ++ [i]), R, failed. split; [done|]. split; [|done]. split; [done|]. eapply acct_outside; [done|done|]. intros j Hj.
    eapply unit_at_other; [by eapply arr_get_bounds|done|by intros ->].
Qed.

Lemma run_ok xs : forall w F R failed, world_ok w F R failed -> legal_run xs w ->
  exists w' F' R' failed', run xs w = Some w' /\ world_ok w' F' R' failed' /\
    (Forall clean xs -> forall d, 0 <= d < 3 -> failed' d = failed d).
Proof.
  induction xs as [|x xs IH]; intros w F R failed Hw Hl; [by eexists _, F, R, failed|].
  destruct Hl as [Hx Hl]. destruct (run_op_ok x w F R failed Hw Hx) as (w1 & F1 & R1 & f1 & E1 & Hw1 & Hc1).
  cbn [run]. rewrite E1. cbn [mbind option_bind]. destruct (IH w1 F1 R1 f1 Hw1) as (w2 & F2 & R2 & f2 & E2 & Hw2 & Hc2); [by apply Hl|].
  exists w2, F2, R2, f2. split_and!; [done|done|]. intros Hc d Hd. apply Forall_cons_iff in Hc as [Hcx Hcs]. rewrite Hc2, Hc1 by done. done.
Qed.
End runs.

(** ** The initial world *)
Lemma push_units_ok n : forall i q, queue_wf q -> Z.of_nat n + qnr q <= qmax q ->
  exists q', push_units n i q = Some q' /\ queue_wf q' /\ qmax q' = qmax q /\ stacked q' = stacked q ++ (Some <$> seqZ i (Z.of_nat n)).
Proof.
  induction n as [|n IH]; intros i q Hq Hn; [exists q; split_and!; try done; by rewrite app_nil_r|].
  cbn [push_units]. destruct (qpush_spec q (Some i) Hq) as (q1 & E1 & Hq1 & Hs1); [lia|]. rewrite E1. cbn [mbind option_bind].
  assert (Hm : qmax q1 = qmax q /\ qnr q1 = qnr q + 1).
  { unfold io_u_qpush in E1. destruct (Z.ltb_spec (qnr q) (qmax q)); [|done]. apply bind_Some in E1 as (l & _ & E1).
    injection E1 as <-. simpl. destruct Hq as [? ? ?]. by rewrite wrap_small by (unfold uint; lia). }
  destruct Hm as [Hm1 Hm2]. destruct (IH (i + 1) q1 Hq1) as (q2 & E2 & Hq2 & Hm3 & Hs2); [lia|].
  exists q2. split_and!; [done|done|congruence|]. rewrite Hs2, Hs1, <- app_assoc. f_equal.
  rewrite (seqZ_cons i) by lia. cbn [fmap list_fmap app]. by replace (Z.pred (Z.of_nat (S n))) with (Z.of_nat n) by lia.
Qed.

Lemma queue_empty nr : stacked (Queue (replicate (Z.to_nat nr) (@None Z)) 0 nr) = [].
Proof. done. Qed.

Lemma arr_get_replicate {A} n (x : A) i y : arr_get (replicate n x) i = Some y -> y = x.
Proof. intros [_ H]%arr_get_Some. by apply lookup_replicate in H as [-> _]. Qed.

Lemma holders_new n : holders (replicate n new_unit) = [].
Proof. induction n; [done|]. cbn. exact IHn. Qed.

Lemma world_init_ok iodepth g : 0 < iodepth < 2 ^ 31 -> files_ok g [] ->
  exists s, init_io_u iodepth g = Some s /\ world_ok iodepth (s, []) (seqZ 0 iodepth) [] (fun _ => 0).
Proof.
  intros Hn Hg. unfold init_io_u, io_u_rinit, io_u_qinit. cbn [mbind option_bind].
  rewrite (wrap_small 32 (iodepth + 1)) by (unfold uint; lia).
  destruct (round_up_spec (iodepth + 1)) as (k & Hk & -> & Hb); [lia|].
  destruct (push_units_ok (Z.to_nat iodepth) 0 (Queue (replicate (Z.to_nat iodepth) None) 0 iodepth)) as (q & -> & Hq & Hqm & Hqs).
  { split; simpl; [lia|rewrite length_replicate; lia|lia]. } { simpl. lia. }
  cbn [mbind option_bind]. eexists. split; [done|]. rewrite Z2Nat.id in Hqs by lia. simpl in Hqm.
  assert (Hlen : Z.of_nat (length (replicate (Z.to_nat iodepth) new_unit)) = iodepth) by (rewrite length_replicate; lia).
  split; [|by intros d Hd; assert (d = 0 \/ d = 1 \/ d = 2) as [->|[->| ->]] by lia].
  split; simpl.
  - unfold queues_ok. simpl. rewrite Hlen, app_nil_r, length_seqZ. split_and!; try done; try lia.
    + exists k. split; simpl; try done; try lia. rewrite length_replicate. lia.
  - split; [|rewrite app_nil_r; apply NoDup_seqZ|constructor| |done].
    + intros i u Hu. assert (Hi := arr_get_bounds _ _ _ Hu). apply arr_get_replicate in Hu as ->. rewrite Hlen in Hi.
      assert (Hin : i ∈ seqZ 0 iodepth ++ []) by (rewrite app_nil_r; apply elem_of_seqZ; lia).
      split; try done.
      * by rewrite bool_decide_eq_true_2.
      * intros _ Hx. by apply elem_of_nil in Hx.
      * intros [Hx|Hx]; by apply elem_of_nil in Hx.
      * intros [? Hx]. discriminate Hx.
    + rewrite Hlen, app_nil_r. intros i [Hi%elem_of_seqZ|Hi%elem_of_nil]; [lia|done].
  - by split_and!.
  - by rewrite holders_new.
  - by split_and!.
Qed.

(** Every unit is in exactly one place. *)
Lemma places depth s F R E x : life_ok depth s F R E x -> 0 <= depth ->
  F ++ R ++ E ++ filter (fun i => is_Some (holds s i)) (seqZ 0 depth) ≡ₚ seqZ 0 depth.
Proof.
  intros Hs Hd. destruct (lo_units _ _ _ _ _ _ Hs) as [Hu Hnd Hne Hr Hc]. set (H := filter _ _).
  assert (HH : forall i, i ∈ H <-> i ∉ F ++ R /\ i ∉ E /\ 0 <= i < depth).
  { intros i. unfold H. rewrite list_elem_of_filter, elem_of_seqZ. split.
    - intros [[u Hh] Hi]. destruct (holds_inv _ _ _ _ _ _ _ _ Hs Hh) as (_ & ? & ?). split_and!; [done|done|lia|lia].
    - intros (H1 & H2 & Hi). split; [|lia]. destruct (arr_get_is_Some (units s) i) as [u Hiu]; [lia|].
      destruct (Hu i u Hiu) as [K1 K2 _ _ _ _ _ _ _]. exists u. unfold holds, unit_at. rewrite Hiu. cbn [mbind option_bind].
      by rewrite K1, K2, !bool_decide_eq_false_2. }
  apply NoDup_Permutation; [|apply NoDup_seqZ|].
  - rewrite app_assoc. apply list.NoDup_app. split; [done|]. split.
    + intros i Hi Hx. rewrite elem_of_app, HH in Hx. destruct Hx as [Hx|Hx]; [|tauto].
      assert (Hb : 0 <= i < depth) by (rewrite <- Hc; apply Hr; by left).
      destruct (arr_get_is_Some (units s) i) as [u Hiu]; [lia|]. by apply (uo_excl _ _ _ _ _ (Hu i u Hiu)).
    + apply list.NoDup_app. split; [done|]. split; [|apply list.NoDup_filter, NoDup_seqZ]. intros i Hi. rewrite HH. tauto.
  - intros i. rewrite app_assoc, !elem_of_app, HH, elem_of_seqZ, <- elem_of_app. rewrite <- Hc in *. specialize (Hr i).
    destruct (decide (i ∈ F ++ R)), (decide (i ∈ E)); try tauto; split; intros; try (destruct Hr; [tauto|lia]); try lia.
Qed.



(** ** Examples, witnesses and failures *)
Definition demo_opts : options :=
  Options 4 false (LatState 0 0 0 0 0 false false) true false 1 (fun _ => None) false false (fun _ => 1048576) no_close.
Definition demo_fs : files_td := FilesTd [File (-1) 0 0] 0 0 0 None 0.
Definition demo_pick : files_td -> option (files_td * pick) :=
  pick_unit_file 4 FIO_FSERVICE_RR 1 no_close no_rand (fun _ _ => Opened 5 true) (fun _ _ => false).

#[local] Instance demo_picker : FilePicker demo_pick.
Proof. apply unit_file_picker; [by intros ???? [= <- <-]|by left]. Qed.

Lemma demo_fs_ok : files_ok demo_fs [].
Proof.
  split; try done; [|intros i Hi; by apply elem_of_nil in Hi].
  intros i f [Hi Hf]%arr_get_Some. destruct (Z.to_nat i) as [|k] eqn:E; simplify_eq/=. by split.
Qed.

(** One read queued, one completed at once after a refusal and a short
    transfer, one reaped. *)
Definition demo_ops : list op :=
  [OGet false (0, 0, 4096) 0; OSubmit 1 (Answer FIO_Q_QUEUED 0 0) 0 0 0; OGet false (0, 4096, 4096) 0;
   OSubmit 0 (Answer FIO_Q_BUSY 0 0) 0 0 0; OGet false (0, 0, 0) 0; OSubmit 0 (Answer FIO_Q_COMPLETED 512 0) 0 0 0;
   OGet false (0, 0, 0) 0; OSubmit 0 (Answer FIO_Q_COMPLETED 0 0) 0 0 0; OReap 1 8 0 (Events [Event 1 0 0])].

Ltac legal_step := split; [|intros ? ?Hw; vm_compute in Hw; injection Hw as <-].

Lemma demo_legal s : init_io_u 2 demo_fs = Some s -> legal_run demo_opts demo_pick demo_ops (s, []).
Proof.
  intros H. vm_compute in H. injection H as <-. unfold demo_ops. cbn [legal_run].
  legal_step; [done|]. legal_step; [by eexists; split_and!; [vm_compute; reflexivity|done|split; [by right; left|done]]|].
  legal_step; [done|]. legal_step; [by eexists; split_and!; [vm_compute; reflexivity|done|split; [by right; right|done]]|].
  legal_step; [done|]. legal_step; [by eexists; split_and!; [vm_compute; reflexivity|done|split; [by left|done]]|].
  legal_step; [done|]. legal_step; [by eexists; split_and!; [vm_compute; reflexivity|done|split; [by left|done]]|].
  legal_step; [|done]. intros l [= <-]. split; [apply NoDup_singleton|]. intros i Hi. by apply list_elem_of_singleton in Hi as ->; vm_compute; left.
Qed.



(** Once the engine has handed back units that were never committed, the
    counter of units in flight is below zero modulo 2^32 and nothing is left to
    bring it back: reaping goes on without end. *)
Lemma quiesce_stuck o fuel : forall s max eng done, cur_depth s = 0 -> 0 <= max -> io_u_in_flight s <> 0 ->
  uint 32 (io_u_in_flight s) -> quiesce_loop o fuel s max eng done = None.
Proof.
  induction fuel as [|fuel IH]; intros s max eng dn Hd Hm Hf Hu; cbn [quiesce_loop];
    destruct (Z.eqb_spec (io_u_in_flight s) 0); [done|done|done|].
  destruct (eng fuel s) as [cr a]. unfold io_u_queued_complete, td_io_getevents. rewrite Hd.
  change (negb (1 =? 0) && (0 <? 1)) with true. cbn match. change ((0 <? 0) && has_commit o && (cr <? 0)) with false. cbn match.
  assert (Hev : (if (if (if 0 <? max then 0 else max) <? 0 then 0 else if 0 <? max then 0 else max) =? 0 then Events [] else a) = Events []).
  { destruct (Z.ltb_spec 0 max); [done|]. by assert (max = 0) as -> by lia. }
  cbn zeta. rewrite Hev. destruct (mark_complete _ _) as [s1|] eqn:E1; cbn [mbind option_bind]; [|done].
  unfold mark_complete in E1. apply bind_Some in E1 as ([m t] & _ & E1). injection E1 as <-.
  assert (Ew : u32 (io_u_in_flight s - Z.of_nat (length (@nil event))) = io_u_in_flight s)
    by (cbn [length]; rewrite Z.sub_0_r; by apply wrap_small).
  apply IH; simpl in *; try done; by rewrite Ew.
Qed.

(** [io_u_quiesce] need not end: with [iodepth_batch] above the number of
    queued units, [td_io_getevents] commits and reaps them behind the back of
    [td_io_commit]; [io_u_queued] then counts units that are gone and
    [io_u_in_flight] has wrapped, with no unit outstanding. *)
Theorem quiesce_hangs :
  exists s0 s, init_io_u 2 demo_fs = Some s0 /\
    run demo_opts demo_pick
      [OGet false (0, 0, 4096) 0; OSubmit 1 (Answer FIO_Q_QUEUED 0 0) 0 0 0;
       OReap 1 8 0 (Events [Event 1 0 0])] (s0, []) = Some (s, []) /\
    cur_depth s = 0 /\ io_u_queued s = 1 /\ io_u_in_flight s = 2 ^ 32 - 1 /\
    forall fuel max c eng, 0 <= max -> io_u_quiesce demo_opts fuel s max c eng = None.
Proof.
  eexists _, _. split; [vm_compute; reflexivity|]. split; [vm_compute; reflexivity|]. split_and!; [reflexivity..|].
  intros fuel max c eng Hm. unfold io_u_quiesce, td_io_commit. cbn [io_u_queued cur_depth Z.eqb negb orb mbind option_bind].
  by apply quiesce_stuck.
Qed.

(** A transfer of nothing returns the unit to the free list with
    [IO_U_F_FLIGHT] still set; when the error is one the job goes on after, the
    next submission of that unit fails the assertion of [td_io_queue]. *)
Theorem full_resid_aborts :
  exists s0 w, init_io_u 1 demo_fs = Some s0 /\
    run demo_opts demo_pick
      [OGet false (0, 0, 4096) 0; OSubmit 0 (Answer FIO_Q_COMPLETED 4096 0) 0 0 0; OGet false (0, 0, 4096) 0] (s0, []) = Some w /\
    td_error (errs w.1) = 0 /\ run_op demo_opts demo_pick (OSubmit 0 (Answer FIO_Q_COMPLETED 0 0) 0 0 0) w = None.
Proof. eexists _, _. split; [vm_compute; reflexivity|]. split; [vm_compute; reflexivity|]. split; vm_compute; reflexivity. Qed.

(** An [fdatasync] or [sync_file_range] unit is counted outside [total_io_u],
    which has four entries. *)
Theorem datasync_out_of_bounds :
  exists s0 s u, init_io_u 1 demo_fs = Some s0 /\
    get_io_u demo_opts false s0 demo_pick (DDIR_DATASYNC, 0, 0) 0 = Some (s, inl (Some 0)) /\
    unit_at s 0 = Some u /\ ddir u = DDIR_DATASYNC /\ length (total_io_u (acc s)) = 4%nat /\
    td_io_queue demo_opts s 0 (Answer FIO_Q_COMPLETED 0 0) 0 = None.
Proof.
  eexists _, _, _. split; [vm_compute; reflexivity|]. split; [vm_compute; reflexivity|].
  split; [vm_compute; reflexivity|]. split_and!; vm_compute; reflexivity.
Qed.

(** A unit from the verify list is not counted when it is issued, but it is
    subtracted when the engine is busy: the issue counter wraps. *)
Theorem verify_busy_underflows :
  exists s, td_io_queue demo_opts
      (Td [IoUnit (Some 0) (Z.lor IO_U_F_IN_CUR_DEPTH IO_U_F_VER_LIST) DDIR_READ (-1) 4096 0 4096 0 0]
         (Queue [None] 0 1) (Ring 0 0 2 [None; None]) (FilesTd [File 5 2 (flag 0)] 1 0 0 None 0) 1 0 0
         new_acct new_marks (TdErrors 0 0 0 false) false 0)
      0 (Answer FIO_Q_BUSY 0 0) 0 = Some (s, FIO_Q_BUSY) /\ io_issues (acc s) = [2 ^ 64 - 1; 0; 0].
Proof. eexists. split; vm_compute; reflexivity. Qed.
