(* ===== verification/Pace.v ===== *)
(** * The direction and the pace of a job: [io_u.c], [backend.c], [init.c]

    Which direction the next unit has ([get_rw_ddir]): a sync that is due, the
    read/write mix, and the rate limit, which may switch the direction or put
    the job to sleep.  The counters are those of [IoULife].  The clock is an
    argument; what [io_u_quiesce] and [usec_sleep] do are functions, so that the
    theorems hold for every behaviour of the engine. *)
From S2P Require Import Prelude Flags Time Rand CFloat Dist IoUQueue Files IoULife IoULifeInv.
From Stdlib Require Import SpecFloat.

(** ** Options and state *)
Definition TD_DDIR_READ : Z := flag 0.
Definition TD_DDIR_WRITE : Z := flag 1.
Definition TD_DDIR_TRIM : Z := flag 3.
Definition TD_DDIR_RW : Z := Z.lor TD_DDIR_READ TD_DDIR_WRITE.
Definition TD_DDIR_TRIMWRITE : Z := Z.lor TD_DDIR_TRIM TD_DDIR_WRITE.

Record pace_options := PaceOptions {
  td_ddir : Z; rwmix : list Z; fsync_blocks : Z; fdatasync_blocks : Z; sync_file_range_nr : Z;
  override_sync : bool; submit_inline : bool; poisson : bool; o_bs : list Z; o_min_bs : list Z;
  o_rate : list Z; o_rate_iops : list Z; check_rate : bool; engine_barrier : bool; barrier_blocks : Z;
  thinktime : Z; thinktime_spin : Z; thinktime_blocks : Z; rate_ign_think : bool
}.

Record pace := Pace {
  base : td;
  rwmix_ddir : Z; rwmix_issues : Z; rwmix_state : frand_state;
  rate_bps : list Z; rate_next_io_time : list Z; last_usec : list Z; poisson_state : list frand_state
}.

Definition with_base (p : pace) (s : td) : pace :=
  Pace s (rwmix_ddir p) (rwmix_issues p) (rwmix_state p) (rate_bps p) (rate_next_io_time p) (last_usec p) (poisson_state p).
Definition with_mix (p : pace) (d n : Z) (r : frand_state) : pace :=
  Pace (base p) d n r (rate_bps p) (rate_next_io_time p) (last_usec p) (poisson_state p).
Definition with_next (p : pace) (l : list Z) : pace :=
  Pace (base p) (rwmix_ddir p) (rwmix_issues p) (rwmix_state p) (rate_bps p) l (last_usec p) (poisson_state p).
Definition with_poisson (p : pace) (l : list Z) (r : list frand_state) : pace :=
  Pace (base p) (rwmix_ddir p) (rwmix_issues p) (rwmix_state p) (rate_bps p) (rate_next_io_time p) l r.

Section pace.
Context (o : pace_options).

Definition td_read : bool := isset (td_ddir o) TD_DDIR_READ.
Definition td_write : bool := isset (td_ddir o) TD_DDIR_WRITE.
Definition td_trim : bool := isset (td_ddir o) TD_DDIR_TRIM.
Definition td_rw : bool := Z.land (td_ddir o) TD_DDIR_RW =? TD_DDIR_RW.
Definition td_trimwrite : bool := Z.land (td_ddir o) TD_DDIR_TRIMWRITE =? TD_DDIR_TRIMWRITE.

(** ** Setting up the rate *)
Definition __setup_rate (p : pace) (d : Z) : option (pace * Z) :=
  _ ← assert (ddir_rw d);
  bs ← arr_get (o_min_bs o) d;
  r ← arr_get (o_rate o) d;
  ri ← arr_get (o_rate_iops o) d;
  let bps := if negb (r =? 0) then r else u64 (ri * bs) in
  l ← arr_set (rate_bps p) d bps;
  let p := Pace (base p) (rwmix_ddir p) (rwmix_issues p) (rwmix_state p) l (rate_next_io_time p) (last_usec p) (poisson_state p) in
  if bps =? 0 then Some (p, -1) else
  n ← arr_set (rate_next_io_time p) d 0;
  u ← arr_set (last_usec p) d 0;
  let a := acc (base p) in
  b ← arr_set (rate_io_issue_bytes a) d 0;
  Some (Pace (with_acc (base p) (with_issues a (io_issues a) (io_issue_bytes a) b))
    (rwmix_ddir p) (rwmix_issues p) (rwmix_state p) l n u (poisson_state p), 0).

Definition setup_rate_of (p : pace) (d ret : Z) : option (pace * Z) :=
  r ← arr_get (o_rate o) d;
  ri ← arr_get (o_rate_iops o) d;
  if negb (r =? 0) || negb (ri =? 0) then '(p, x) ← __setup_rate p d; Some (p, if ret =? 0 then x else ret)
  else Some (p, ret).

Definition setup_rate (p : pace) : option (pace * Z) :=
  '(p, ret) ← setup_rate_of p DDIR_READ 0;
  '(p, ret) ← setup_rate_of p DDIR_WRITE ret;
  setup_rate_of p DDIR_TRIM ret.

(** ** The direction *)
Definition should_fsync (p : pace) : bool := negb (last_was_sync (base p)) && (td_write || override_sync o).

(** A sync every [n] writes. *)
Definition sync_due (writes n : Z) : bool := negb (n =? 0) && negb (writes =? 0) && (writes mod n =? 0).

Definition set_rwmix_bytes (p : pace) : option pace :=
  diff ← arr_get (rwmix o) (Z.lxor (rwmix_ddir p) 1);
  n ← arr_get (io_issues (acc (base p))) (rwmix_ddir p);
  Some (with_mix p (rwmix_ddir p) (u64 (n * diff) / 100) (rwmix_state p)).

Definition get_rand_ddir (p : pace) : option (pace * Z) :=
  '(st, v) ← rand32_between (rwmix_state p) 1 100;
  r ← arr_get (rwmix o) DDIR_READ;
  Some (with_mix p (rwmix_ddir p) (rwmix_issues p) st, if v <=? r then DDIR_READ else DDIR_WRITE).

Section env.
Context (quiesce : td -> option td) (sleep : Z -> Z -> Z).

(** [io_u_quiesce(td)] and [usec_sleep(td, usec)]. *)
Definition wait_for (p : pace) (d now usec : Z) : option (pace * Z * Z) :=
  s ← (if submit_inline o then quiesce (base p) else Some (base p));
  Some (with_base p s, d, sleep now usec).

Definition rate_ddir (p : pace) (d now : Z) : option (pace * Z * Z) :=
  let odir := Z.lxor d 1 in
  _ ← assert (ddir_rw d);
  nd ← arr_get (rate_next_io_time p) d;
  if nd <=? now then Some (p, d, now) else
  switch ← (if td_rw then m ← arr_get (rwmix o) odir; Some (negb (m =? 0)) else Some false);
  if switch : bool then
    no ← arr_get (rate_next_io_time p) odir;
    if no <=? now then Some (p, odir, now)
    else if nd <=? no then wait_for p d now (u64 (nd - now))
    else wait_for p odir now (u64 (no - now))
  else wait_for p d now (u64 (nd - now)).

(** Read, write or the mix of the two. *)
Definition choose_ddir (p : pace) : option (pace * Z) :=
  if td_rw then
    n ← arr_get (io_issues (acc (base p))) (rwmix_ddir p);
    if rwmix_issues p <=? n then
      '(p, d) ← get_rand_ddir p;
      p ← (if negb (d =? rwmix_ddir p) then set_rwmix_bytes p else Some p);
      Some (with_mix p d (rwmix_issues p) (rwmix_state p), d)
    else Some (p, rwmix_ddir p)
  else Some (p, if td_read then DDIR_READ else if td_write then DDIR_WRITE
                else if td_trim then DDIR_TRIM else -1).

Definition get_rw_ddir (p : pace) (now : Z) : option (pace * Z * Z) :=
  w ← arr_get (io_issues (acc (base p))) DDIR_WRITE;
  if should_fsync p && sync_due w (fsync_blocks o) then Some (p, DDIR_SYNC, now)
  else if should_fsync p && sync_due w (fdatasync_blocks o) then Some (p, DDIR_DATASYNC, now)
  else if should_fsync p && sync_due w (sync_file_range_nr o) then Some (p, DDIR_SYNC_FILE_RANGE, now)
  else
    '(p, d) ← choose_ddir p;
    '(p, d, now) ← rate_ddir p d now;
    Some (with_mix p d (rwmix_issues p) (rwmix_state p), d, now).

(** [set_rw_ddir], given the last positions of the unit's file; the boolean is
    [IO_U_F_BARRIER]. *)
Definition set_rw_ddir (p : pace) (last_write last_trim now : Z) : option (pace * Z * Z * bool) :=
  '(p, d, now) ← get_rw_ddir p now;
  let d := if td_trimwrite then (if last_write =? last_trim then DDIR_TRIM else DDIR_WRITE) else d in
  w ← arr_get (io_issues (acc (base p))) DDIR_WRITE;
  if (d =? DDIR_WRITE) && engine_barrier o && negb (barrier_blocks o =? 0) then
    Some (p, d, now, (w mod barrier_blocks o =? 0) && negb (w =? 0))
  else Some (p, d, now, false).
End env.

(** ** When the next unit is due *)
Definition single_of_int (n : Z) : spec_float := binary_normalize 24 128 n 0 false.
Definition single_mul : spec_float -> spec_float -> spec_float := SFmul 24 128.

(** [__rand_0_1] on the 32-bit generator, as the float that [logf] takes. *)
Definition round24 (x : spec_float) : spec_float :=
  match x with
  | S754_finite s m e => binary_normalize 24 128 (if s then Zneg m else Zpos m) e s
  | x => x
  end.
Definition rand_0_1 (st : frand_state) : frand_state * double :=
  let '(st, r) := __rand st in
  (st, ddiv (dadd (of_int r) (of_int 1)) (dadd (of_int (rand_max st)) (of_int 1))).

(** [usec_for_io], [logf] being the library's. *)
Definition usec_for_io (logf : spec_float -> spec_float) (p : pace) (d : Z) : option (pace * Z) :=
  bps ← arr_get (rate_bps p) d;
  if poisson o then
    bs ← arr_get (o_bs o) d;
    _ ← assert (negb (bs =? 0));
    let iops := bps / bs in
    _ ← assert (negb (iops =? 0));
    st ← arr_get (poisson_state p) d;
    let '(st, r) := rand_0_1 st in
    val ← to_u64 (single_mul (single_of_int (1000000 / iops)) (SFopp (logf (round24 r))));
    sts ← arr_set (poisson_state p) d st;
    u ← arr_get (last_usec p) d;
    let u := sgn 64 (u + val) in
    us ← arr_set (last_usec p) d u;
    Some (with_poisson p us sts, u)
  else if negb (bps =? 0) then
    bytes ← arr_get (rate_io_issue_bytes (acc (base p))) d;
    let secs := bytes / bps in
    let remainder := bytes mod bps in
    Some (p, u64 (u64 (remainder * 1000000) / bps + u64 (secs * 1000000)))
  else Some (p, 0).

(** The rate is looked at once something has completed. *)
Definition should_check_rate (p : pace) : option bool :=
  b0 ← arr_get (td_bytes_done (acc (base p))) DDIR_READ;
  b1 ← arr_get (td_bytes_done (acc (base p))) DDIR_WRITE;
  b2 ← arr_get (td_bytes_done (acc (base p))) DDIR_TRIM;
  Some (check_rate o && (negb (b0 =? 0) || negb (b1 =? 0) || negb (b2 =? 0))).

(** [td->rate_next_io_time[ddir] = usec_for_io(td, ddir)] after the hand-over. *)
Definition note_rate (logf : spec_float -> spec_float) (p : pace) (d : Z) : option pace :=
  c ← should_check_rate p;
  if c : bool then
    '(p, t) ← usec_for_io logf p d;
    l ← arr_set (rate_next_io_time p) d (u64 t);
    Some (with_next p l)
  else Some p.

(** ** Think time

    [left] is an [int], and [usec_sleep] takes an [unsigned long]; [spin] and
    [slept] are what [usec_spin] and [usec_sleep] return. *)
Definition think_left (total : Z) : Z := sgn 32 (thinktime o - total).

Definition handle_thinktime (quiesce : td -> option td) (spin slept : Z -> Z) (p : pace) (d : Z) : option pace :=
  b0 ← arr_get (io_blocks (acc (base p))) DDIR_READ;
  b1 ← arr_get (io_blocks (acc (base p))) DDIR_WRITE;
  b2 ← arr_get (io_blocks (acc (base p))) DDIR_TRIM;
  _ ← assert (negb (thinktime_blocks o =? 0));
  if negb (u64 (b0 + b1 + b2) mod thinktime_blocks o =? 0) then Some p else
  s ← quiesce (base p);
  let p := with_base p s in
  let total := if negb (thinktime_spin o =? 0) then spin (thinktime_spin o) else 0 in
  let left := think_left total in
  let total := if negb (left =? 0) then u64 (total + slept (u64 left)) else total in
  bps ← arr_get (rate_bps p) d;
  if negb (total =? 0) && negb (bps =? 0) && rate_ign_think o then
    let missed := u64 (bps * total) / 1000000 in
    bs ← arr_get (o_min_bs o) d;
    let usperop := u64 (bs * 1000000) / bps in
    over ← (if usperop <=? total then Some bs
            else Some (u64 ((usperop - total) / usperop * u64 (- bs))));
    let a := acc (base p) in
    r ← add_at (rate_io_issue_bytes a) d (u64 (missed - over));
    Some (with_base p (with_acc (base p) (with_issues a (io_issues a) (io_issue_bytes a) r)))
  else Some p.
End pace.

(** ** One unit after the other

    The direction, the counters of [td_io_queue], a completion, and the time of
    the next unit, as with a synchronous engine: the completion, which sets
    [last_was_sync] in [io_completed], comes before the next unit is chosen.  With
    more units in flight it comes later; the rate does not depend on it, the
    sequence of syncs does. *)
Definition settle (s : td) (d : Z) : td :=
  if ddir_sync d then with_last s true (last_ddir s) else with_last s false d.

Section run.
Context (o : pace_options) (quiesce : td -> option td) (sleep : Z -> Z -> Z) (logf : spec_float -> spec_float).

Definition pace_step (p : pace) (now len : Z) : option (pace * Z * Z) :=
  '(p, d, now) ← get_rw_ddir o quiesce sleep p now;
  s ← issue (base p) d len false;
  p ← note_rate o logf (with_base p s) d;
  Some (with_base p (settle (base p) d), d, now).

(** A unit issued: its direction, when, and its length. *)
Record shot := Shot { sh_ddir : Z; sh_time : Z; sh_len : Z }.

(** [gap] is the time from one unit to the next. *)
Fixpoint pace_run (p : pace) (now : Z) (inputs : list (Z * Z)) : option (pace * list shot) :=
  match inputs with
  | [] => Some (p, [])
  | (gap, len) :: inputs =>
      '(p', d, t) ← pace_step p (now + gap) len;
      '(p'', l) ← pace_run p' t inputs;
      Some (p'', Shot d t len :: l)
  end.
End run.

(** ** The rate is kept *)

(** When [bytes] are due at [bps] bytes a second. *)
Definition due (bps bytes : Z) : Z := if bps =? 0 then 0 else bytes * 1000000 / bps.

(** Something has completed in some direction. *)
Definition started (s : td) : Prop :=
  length (td_bytes_done (acc s)) = 3%nat /\ exists d b, arr_get (td_bytes_done (acc s)) d = Some b /\ b <> 0.

(** What the pace relies on when the units in flight are reaped: the counters of
    issued units do not move, and those of completed ones do not go back. *)
Class Quiesces (quiesce : td -> option td) : Prop := quiesce_ok : forall s, started s ->
  exists s', quiesce s = Some s' /\ started s' /\
    io_issues (acc s') = io_issues (acc s) /\ io_issue_bytes (acc s') = io_issue_bytes (acc s) /\
    rate_io_issue_bytes (acc s') = rate_io_issue_bytes (acc s).

#[export] Instance quiesces_idle : Quiesces (fun s => Some s).
Proof. intros s Hs. by exists s. Qed.

Lemma arr_cases (l : list Z) d v : length l = 3%nat -> arr_get l d = Some v -> d = 0 \/ d = 1 \/ d = 2.
Proof.
  intros Hl E. unfold arr_get in E. destruct (Z.leb_spec 0 d); [|done].
  apply lookup_lt_Some in E. lia.
Qed.

Lemma started_check o p : started (base p) -> should_check_rate o p = Some (check_rate o).
Proof.
  intros [Hl (d&b&E&Hb)]. unfold should_check_rate, DDIR_READ, DDIR_WRITE, DDIR_TRIM.
  destruct (arr_get_is_Some (td_bytes_done (acc (base p))) 0 ltac:(lia)) as [b0 E0].
  destruct (arr_get_is_Some (td_bytes_done (acc (base p))) 1 ltac:(lia)) as [b1 E1].
  destruct (arr_get_is_Some (td_bytes_done (acc (base p))) 2 ltac:(lia)) as [b2 E2].
  rewrite E0, E1, E2. cbn [mbind option_bind]. f_equal.
  destruct (check_rate o); [|done]. cbn [andb].
  destruct (arr_cases _ _ _ Hl E) as [-> | [-> | ->]]; simplify_eq.
  - by rewrite (proj2 (Z.eqb_neq b 0)).
  - rewrite (proj2 (Z.eqb_neq b 0)) by done. apply orb_true_iff. left. apply orb_true_r.
  - rewrite (proj2 (Z.eqb_neq b 0)) by done. apply orb_true_r.
Qed.

Section rate.
Context (o : pace_options) (quiesce : td -> option td) `{!Quiesces quiesce}.
Context (sleep : Z -> Z -> Z) (logf : spec_float -> spec_float).
Context (Hsleep : forall now usec, 0 <= usec -> now + usec <= sleep now usec).

(** The job reads, writes or trims, or mixes reads and writes; it does not sync,
    and its rate is a plain one. *)
Record paced_job : Prop := {
  pj_mix : length (rwmix o) = 3%nat;
  pj_ddir : td_rw o || td_read o || td_write o || td_trim o = true;
  pj_plain : poisson o = false;
  pj_check : check_rate o = true;
  pj_sync : fsync_blocks o = 0 /\ fdatasync_blocks o = 0 /\ sync_file_range_nr o = 0
}.

(** At most [room] more bytes will be issued. *)
Record pace_inv (p : pace) (room : Z) : Prop := {
  pi_bps : length (rate_bps p) = 3%nat;
  pi_next : length (rate_next_io_time p) = 3%nat;
  pi_issues : length (io_issues (acc (base p))) = 3%nat /\ length (io_issue_bytes (acc (base p))) = 3%nat /\
    length (rate_io_issue_bytes (acc (base p))) = 3%nat;
  pi_started : started (base p);
  pi_ddir : td_rw o = true -> rwmix_ddir p = 0 \/ rwmix_ddir p = 1;
  pi_live : live (rwmix_state p) /\ rand_max (rwmix_state p) = FRAND32_MAX;
  pi_due : forall d, 0 <= d < 3 -> 0 <= at_ (rate_bps p) d /\ 0 <= at_ (rate_io_issue_bytes (acc (base p))) d /\
    (at_ (rate_io_issue_bytes (acc (base p))) d + room) * 1000000 < 2 ^ 63 /\
    at_ (rate_next_io_time p) d = due (at_ (rate_bps p) d) (at_ (rate_io_issue_bytes (acc (base p))) d)
}.

Lemma arr_at (l : list Z) d : 0 <= d < Z.of_nat (length l) -> arr_get l d = Some (at_ l d).
Proof. intros Hd. unfold at_. destruct (arr_get_is_Some l d Hd) as [v ->]. done. Qed.

Lemma due_bounds bps bytes : 0 <= bps -> 0 <= bytes -> bytes * 1000000 < 2 ^ 63 -> 0 <= due bps bytes < 2 ^ 63.
Proof.
  intros Hb Hy Hm. unfold due. destruct (Z.eqb_spec bps 0); [lia|]. split; [apply Z.div_pos; lia|].
  apply Z.div_lt_upper_bound; nia.
Qed.

Lemma usec_for_io_due p d (H : paced_job) : 0 <= d < 3 -> length (rate_bps p) = 3%nat ->
  length (rate_io_issue_bytes (acc (base p))) = 3%nat -> 0 <= at_ (rate_bps p) d ->
  0 <= at_ (rate_io_issue_bytes (acc (base p))) d -> at_ (rate_io_issue_bytes (acc (base p))) d * 1000000 < 2 ^ 63 ->
  usec_for_io o logf p d = Some (p, due (at_ (rate_bps p) d) (at_ (rate_io_issue_bytes (acc (base p))) d)).
Proof.
  intros Hd Hl1 Hl2 Hb Hy Hm. unfold usec_for_io. rewrite (arr_at (rate_bps p)) by lia. cbn [mbind option_bind].
  rewrite (pj_plain H). unfold due. destruct (Z.eqb_spec (at_ (rate_bps p) d) 0) as [E|E]; cbn [negb]; [done|].
  rewrite arr_at by lia. cbn [mbind option_bind]. do 2 f_equal.
  set (bps := at_ (rate_bps p) d) in *. set (y := at_ (rate_io_issue_bytes (acc (base p))) d) in *.
  pose proof (Z.div_mod y bps ltac:(lia)) as Hdm. pose proof (Z.mod_pos_bound y bps ltac:(lia)) as Hmb.
  assert (0 <= y / bps) by (apply Z.div_pos; lia). assert (y mod bps <= y) by nia. assert (y / bps <= y) by nia.
  assert (Hs : y mod bps * 1000000 / bps + y / bps * 1000000 = y * 1000000 / bps).
  { rewrite Hdm at 3. replace ((bps * (y / bps) + y mod bps) * 1000000)
      with (y / bps * 1000000 * bps + y mod bps * 1000000) by lia. rewrite Z.div_add_l by lia. lia. }
  rewrite (wrap_small 64 (_ mod _ * _)), (wrap_small 64 (_ / _ * _)) by (unfold uint; lia). rewrite Hs.
  apply wrap_small. pose proof (due_bounds bps y ltac:(lia) Hy Hm) as Hdb. unfold due in Hdb.
  rewrite (proj2 (Z.eqb_neq bps 0)) in Hdb by done. unfold uint. lia.
Qed.

(** Reaping the units in flight leaves the invariant alone. *)
Lemma inv_quiesced p s room : pace_inv p room -> started s -> io_issues (acc s) = io_issues (acc (base p)) ->
  io_issue_bytes (acc s) = io_issue_bytes (acc (base p)) ->
  rate_io_issue_bytes (acc s) = rate_io_issue_bytes (acc (base p)) -> pace_inv (with_base p s) room.
Proof. intros [] Hs E1 E2 E3. split; cbn [base with_base rate_bps rate_next_io_time rwmix_ddir rwmix_state]; rewrite ?E1, ?E2, ?E3; done. Qed.

(** The states of one step, before the unit is issued. *)
Definition same_pace (p p' : pace) : Prop :=
  rate_bps p' = rate_bps p /\ rate_next_io_time p' = rate_next_io_time p /\
  rate_io_issue_bytes (acc (base p')) = rate_io_issue_bytes (acc (base p)).

Lemma wait_for_ok p d now usec room : pace_inv p room -> 0 <= usec ->
  exists p' now', wait_for o quiesce sleep p d now usec = Some (p', d, now') /\ pace_inv p' room /\ same_pace p p' /\
    now + usec <= now'.
Proof.
  intros Hp Hu. unfold wait_for. destruct (submit_inline o).
  - destruct (quiesce_ok (base p) (pi_started _ _ Hp)) as (s'&->&Hs&E1&E2&E3). cbn [mbind option_bind].
    eexists _, _. split; [reflexivity|]. split; [by apply inv_quiesced|]. split; [by repeat split|by apply Hsleep].
  - cbn [mbind option_bind]. eexists _, _. split; [reflexivity|]. split; [by destruct p|]. split; [by repeat split|by apply Hsleep].
Qed.

Definition legal_ddir (d : Z) : Prop := 0 <= d < 3 /\ (td_rw o = true -> d = 0 \/ d = 1).

Lemma legal_other d : legal_ddir d -> td_rw o = true -> legal_ddir (Z.lxor d 1) /\ 0 <= Z.lxor d 1 < 3.
Proof. intros [_ Hd] Hrw. unfold legal_ddir. destruct (Hd Hrw) as [-> | ->]; [change (Z.lxor 0 1) with 1|change (Z.lxor 1 1) with 0]; split_and!; intros; lia. Qed.

Lemma legal_rw d : legal_ddir d -> ddir_rw d = true.
Proof. intros [Hd _]. assert (d = 0 \/ d = 1 \/ d = 2) as [-> | [-> | ->]] by lia; done. Qed.

Lemma rate_ddir_ok p d now room : paced_job -> pace_inv p room -> 0 <= room -> 0 <= now -> legal_ddir d ->
  exists p' d' now', rate_ddir o quiesce sleep p d now = Some (p', d', now') /\ pace_inv p' room /\ same_pace p p' /\
    legal_ddir d' /\ now <= now' /\ at_ (rate_next_io_time p') d' <= now'.
Proof.
  intros Hj Hp Hr Hn Hd. pose proof (pi_next _ _ Hp) as Hln. pose proof (pj_mix Hj) as Hlm.
  assert (Hnx : forall d, 0 <= d < 3 -> 0 <= at_ (rate_next_io_time p) d < 2 ^ 63).
  { intros d0 Hd0. destruct (pi_due _ _ Hp d0 Hd0) as (H1&H2&H3&->). apply due_bounds; lia. }
  assert (Hw : forall e, legal_ddir e -> now < at_ (rate_next_io_time p) e ->
    exists p' d' now', wait_for o quiesce sleep p e now (u64 (at_ (rate_next_io_time p) e - now)) = Some (p', d', now') /\
      pace_inv p' room /\ same_pace p p' /\ legal_ddir d' /\ now <= now' /\ at_ (rate_next_io_time p') d' <= now').
  { intros e He Hlt. pose proof (Hnx e (proj1 He)). rewrite wrap_small by (unfold uint; lia).
    destruct (wait_for_ok p e now (at_ (rate_next_io_time p) e - now) room Hp ltac:(lia)) as (p'&now'&->&Hi&Hs&Hle).
    exists p', e, now'. split_and!; try done; [lia|]. destruct Hs as (_&->&_). lia. }
  unfold rate_ddir. rewrite (legal_rw d Hd). cbn [assert mbind option_bind].
  rewrite (arr_at (rate_next_io_time p) d) by (destruct Hd; lia). cbn [mbind option_bind].
  destruct (Z.leb_spec (at_ (rate_next_io_time p) d) now) as [Hle|Hgt].
  { exists p, d, now. by split_and!. }
  destruct (td_rw o) eqn:Erw; cbn [mbind option_bind].
  2: { by apply Hw. }
  destruct (legal_other d Hd Erw) as [Ho Hob]. rewrite (arr_at (rwmix o)) by lia. cbn [mbind option_bind].
  destruct (at_ (rwmix o) (Z.lxor d 1) =? 0); cbn [negb]; [by apply Hw|].
  rewrite (arr_at (rate_next_io_time p)) by lia. cbn [mbind option_bind].
  destruct (Z.leb_spec (at_ (rate_next_io_time p) (Z.lxor d 1)) now).
  { exists p, (Z.lxor d 1), now. by split_and!. }
  destruct (Z.leb_spec (at_ (rate_next_io_time p) d) (at_ (rate_next_io_time p) (Z.lxor d 1))); by apply Hw.
Qed.

Lemma inv_mix p d n r room : pace_inv p room -> (td_rw o = true -> d = 0 \/ d = 1) -> live r ->
  rand_max r = FRAND32_MAX -> pace_inv (with_mix p d n r) room.
Proof. intros [] Hd Hl Hm. split; cbn; try done. Qed.

Lemma rand32_between_live st st' v : live st -> rand32_between st 1 100 = Some (st', v) ->
  rand_max st = FRAND32_MAX -> live st' /\ rand_max st' = FRAND32_MAX.
Proof.
  intros Hl E Hm. destruct st as [s|s]; [|discriminate E]. cbn [rand32_between] in E.
  pose proof (live_step _ Hl) as Hl'. cbn [__rand] in Hl'.
  destruct (__rand32 s) as [s' r]. apply bind_Some in E as (k&_&E). injection E as <- <-. done.
Qed.

Lemma choose_ddir_ok p room : paced_job -> pace_inv p room -> exists p' d, choose_ddir o p = Some (p', d) /\
  pace_inv p' room /\ same_pace p p' /\ legal_ddir d.
Proof.
  intros Hj Hp. pose proof (pi_issues _ _ Hp) as (Hl&_&_). pose proof (pj_mix Hj) as Hlm. unfold choose_ddir.
  destruct (td_rw o) eqn:Erw.
  - pose proof (pi_ddir _ _ Hp Erw) as Hdd. assert (Hd3 : 0 <= rwmix_ddir p < 3) by lia.
    rewrite arr_at by lia. cbn [mbind option_bind].
    destruct (Z.leb_spec (rwmix_issues p) (at_ (io_issues (acc (base p))) (rwmix_ddir p))).
    2: { exists p, (rwmix_ddir p). split_and!; try done. }
    destruct (pi_live _ _ Hp) as [Hlv Hmx].
    destruct (rand32_between_range (rwmix_state p) 1 100 Hlv Hmx ltac:(lia)) as (st&v&Ev&Hv).
    destruct (rand32_between_live _ _ _ Hlv Ev Hmx) as [Hlv' Hmx'].
    unfold get_rand_ddir. rewrite Ev. cbn [mbind option_bind]. rewrite arr_at by (unfold DDIR_READ; lia). cbn [mbind option_bind].
    set (d := if v <=? at_ (rwmix o) DDIR_READ then DDIR_READ else DDIR_WRITE).
    assert (Hd : d = 0 \/ d = 1) by (unfold d, DDIR_READ, DDIR_WRITE; destruct (v <=? _); auto).
    assert (Hset : exists n, (if negb (d =? rwmix_ddir (with_mix p (rwmix_ddir p) (rwmix_issues p) st))
      then set_rwmix_bytes o (with_mix p (rwmix_ddir p) (rwmix_issues p) st)
      else Some (with_mix p (rwmix_ddir p) (rwmix_issues p) st)) = Some (with_mix p (rwmix_ddir p) n st)).
    { destruct (negb _); [|by eexists]. unfold set_rwmix_bytes. cbn [with_mix rwmix_ddir base rwmix_state].
      rewrite (arr_at (rwmix o)) by (destruct Hdd as [-> | ->]; [change (Z.lxor 0 1) with 1|change (Z.lxor 1 1) with 0]; lia).
      rewrite (arr_at (io_issues _)) by lia. by eexists. }
    destruct Hset as [n ->]. cbn [mbind option_bind]. eexists _, d. split; [reflexivity|].
    split; [|split; [by repeat split|split; [lia|done]]]. cbn [with_mix rwmix_ddir rwmix_issues rwmix_state base].
    apply (inv_mix p d n st room Hp); done.
  - eexists _, _. split; [reflexivity|]. split; [done|]. split; [by repeat split|].
    pose proof (pj_ddir Hj) as Hd. rewrite Erw in Hd. cbn [orb] in Hd.
    split; [|congruence]. destruct (td_read o), (td_write o), (td_trim o); unfold DDIR_READ, DDIR_WRITE, DDIR_TRIM; try done; lia.
Qed.

Lemma no_sync p now : paced_job -> length (io_issues (acc (base p))) = 3%nat ->
  get_rw_ddir o quiesce sleep p now =
    ('(p, d) ← choose_ddir o p;
     '(p, d, now) ← rate_ddir o quiesce sleep p d now;
     Some (with_mix p d (rwmix_issues p) (rwmix_state p), d, now)).
Proof.
  intros Hj Hl. destruct (pj_sync Hj) as (E1&E2&E3). unfold get_rw_ddir.
  rewrite (arr_at (io_issues _)) by (unfold DDIR_WRITE; lia). cbn [mbind option_bind].
  unfold sync_due. rewrite E1, E2, E3. cbn [Z.eqb negb andb]. by rewrite andb_false_r.
Qed.

Lemma add_at_at l d v : 0 <= d < Z.of_nat (length l) -> 0 <= at_ l d + v < 2 ^ 64 ->
  exists l', add_at l d v = Some l' /\ length l' = length l /\
    forall j, 0 <= j -> at_ l' j = at_ l j + (if j =? d then v else 0).
Proof.
  intros Hd Hv. destruct (add_at_ok l d v Hd) as (l'&E&Hl&Hj). exists l'. split_and!; [done..|].
  intros j H0. unfold at_ at 1. rewrite Hj by done. unfold at_ in *.
  destruct (Z.eqb_spec j d) as [->|]; [|lia]. rewrite wrap_small; [done|unfold uint; lia].
Qed.

Lemma add_at_some l d v : 0 <= d < Z.of_nat (length l) -> exists l', add_at l d v = Some l' /\ length l' = length l.
Proof. intros Hd. destruct (add_at_ok l d v Hd) as (l'&E&Hl&_). by exists l'. Qed.

(** The unit is counted and the next one of its direction put off. *)
Lemma issue_note_ok p d len room : paced_job -> pace_inv p room -> legal_ddir d -> 0 <= len <= room ->
  exists s p', issue (base p) d len false = Some s /\ note_rate o logf (with_base p s) d = Some p' /\
    pace_inv (with_base p' (settle (base p') d)) (room - len) /\ rate_bps p' = rate_bps p /\
    forall j, 0 <= j -> at_ (rate_io_issue_bytes (acc (base p'))) j =
      at_ (rate_io_issue_bytes (acc (base p))) j + (if j =? d then len else 0).
Proof.
  intros Hj Hp Hd Hlen. pose proof Hp as [H1 H2 (H3&H4&H5) H6 H7 H8 H9].
  assert (Hd3 : 0 <= d < 3) by (destruct Hd; lia). destruct (H9 d Hd3) as (B0&B1&B2&B3).
  unfold issue. rewrite (legal_rw d Hd).
  destruct (add_at_some (io_issues (acc (base p))) d 1 ltac:(lia)) as (n&->&Hn).
  destruct (add_at_some (io_issue_bytes (acc (base p))) d len ltac:(lia)) as (b&->&Hb).
  destruct (add_at_at (rate_io_issue_bytes (acc (base p))) d len ltac:(lia) ltac:(lia)) as (r&->&Hr&Hrj).
  cbn [mbind option_bind]. set (s := with_acc _ _). exists s.
  assert (Hst : started s) by exact H6.
  unfold note_rate. rewrite started_check by exact Hst. cbn [mbind option_bind]. rewrite (pj_check Hj).
  assert (Hrd : at_ r d = at_ (rate_io_issue_bytes (acc (base p))) d + len) by (rewrite Hrj, Z.eqb_refl by lia; done).
  rewrite (usec_for_io_due (with_base p s) d Hj); cbn [with_base rate_bps base s acc with_acc with_issues rate_io_issue_bytes];
    try done; try lia. cbn [mbind option_bind].
  pose proof (due_bounds (at_ (rate_bps p) d) (at_ r d) ltac:(lia) ltac:(lia) ltac:(lia)) as Hdb.
  rewrite (wrap_small 64 (due _ _)) by (unfold uint; lia).
  rewrite arr_set_Some by (cbn [with_base rate_next_io_time]; lia).
  eexists. split; [reflexivity|]. split; [reflexivity|]. split; [|split; [done|exact Hrj]].
  assert (Hacc : forall s0, acc (settle s0 d) = acc s0) by (intros; unfold settle; by destruct (ddir_sync d)).
  split; cbn [with_base with_next rate_bps rate_next_io_time base rwmix_ddir rwmix_state]; rewrite ?Hacc; try done.
  - by rewrite length_insert.
  - cbn. rewrite Hn, Hb, Hr. done.
  - unfold started. rewrite Hacc. exact Hst.
  - intros j Hjb. cbn [s acc with_acc with_issues rate_io_issue_bytes]. rewrite Hrj by lia.
    destruct (H9 j Hjb) as (C0&C1&C2&C3).
    assert (Hnx : forall x, at_ (<[Z.to_nat d := x]> (rate_next_io_time p)) j = if j =? d then x else at_ (rate_next_io_time p) j)
      by (intros x; unfold at_; rewrite arr_get_insert by lia; by destruct (j =? d)).
    rewrite Hnx. destruct (Z.eqb_spec j d) as [->|Hne].
    + rewrite Hrd. split_and!; done || lia.
    + rewrite Z.add_0_r. split_and!; done || lia.
Qed.

Lemma pace_step_ok p now len room : paced_job -> pace_inv p room -> 0 <= len <= room -> 0 <= now ->
  exists p' d t, pace_step o quiesce sleep logf p now len = Some (p', d, t) /\ pace_inv p' (room - len) /\
    0 <= d < 3 /\ now <= t /\ due (at_ (rate_bps p) d) (at_ (rate_io_issue_bytes (acc (base p))) d) <= t /\
    rate_bps p' = rate_bps p /\
    forall j, 0 <= j -> at_ (rate_io_issue_bytes (acc (base p'))) j =
      at_ (rate_io_issue_bytes (acc (base p))) j + (if j =? d then len else 0).
Proof.
  intros Hj Hp Hlen Hn. unfold pace_step. rewrite no_sync by (try done; by apply (pi_issues _ _ Hp)).
  destruct (choose_ddir_ok p room Hj Hp) as (p1&d1&->&Hp1&(S1&S2&S3)&Hd1). cbn [mbind option_bind].
  destruct (rate_ddir_ok p1 d1 now room Hj Hp1 ltac:(lia) Hn Hd1) as (p2&d&t&->&Hp2&(S4&S5&S6)&Hd&Ht&Hdue).
  cbn [mbind option_bind].
  assert (Hp3 : pace_inv (with_mix p2 d (rwmix_issues p2) (rwmix_state p2)) room).
  { destruct (pi_live _ _ Hp2). apply inv_mix; try done. apply Hd. }
  destruct (issue_note_ok _ d len room Hj Hp3 Hd Hlen) as (s&p'&E1&E2&Hp'&Hb&Hr).
  rewrite E1. cbn [mbind option_bind]. rewrite E2. cbn [mbind option_bind].
  assert (Hd3 : 0 <= d < 3) by (destruct Hd; lia).
  eexists _, d, t. split; [reflexivity|]. split; [done|]. split; [done|]. split; [done|].
  cbn [with_mix rate_bps base] in Hb, Hr. cbn [with_base rate_bps base]. split; [|split; [congruence|]].
  - destruct (pi_due _ _ Hp2 d Hd3) as (_&_&_&E). rewrite E in Hdue. congruence.
  - intros j Hj0. unfold settle. destruct (ddir_sync d); cbn [acc with_last]; rewrite Hr by done; by rewrite S6, S3.
Qed.
End rate.

(** The bytes issued in a direction. *)
Definition issued (l : list shot) (d : Z) : Z :=
  foldr (fun sh n => (if sh_ddir sh =? d then sh_len sh else 0) + n) 0 l.
Definition lengths (inputs : list (Z * Z)) : Z := foldr (fun i n => i.2 + n) 0 inputs.

Lemma lengths_nonneg inputs : Forall (fun i => 0 <= i.1 /\ 0 <= i.2) inputs -> 0 <= lengths inputs.
Proof.
  induction inputs as [|i l IH]; intros H; [done|]. apply Forall_cons_iff in H as [[_ Hi] H].
  specialize (IH H). unfold lengths in *. cbn [foldr]. lia.
Qed.


Lemma no_wait : forall t usec, 0 <= usec -> t + usec <= Z.add t usec.
Proof. lia. Qed.

(** A mixed job with 1 MB/s for reads and 300 kB/s for writes. *)
Definition sample_base (issues : list Z) (sync : bool) : td :=
  Td [] (Queue [] 0 0) (Ring 0 0 1 [None]) (FilesTd [] 0 0 0 None 0) 0 0 0
    (Acct issues [0; 0; 0] [0; 0; 0] [0; 0; 0] [0; 0; 0] [0; 0; 0] [0; 0; 0] [1; 0; 0] [0; 0; 0; 0] [0; 0; 0])
    (Marks [] [] 0 [] 0) (TdErrors 0 0 0 false) sync 0.
Definition sample_pace (bps issues : list Z) (sync : bool) : pace :=
  Pace (sample_base issues sync) 0 0 (init_rand false) bps [0; 0; 0] [0; 0; 0] [].
Definition sample_opts (ddirs fsync : Z) (mix : list Z) (check : bool) : pace_options :=
  PaceOptions ddirs mix fsync 0 0 false true false [4096; 4096; 4096] [4096; 4096; 4096] [0; 0; 0] [0; 0; 0]
    check false 0 0 0 1 false.

Lemma sample_job fsync mix : length mix = 3%nat -> fsync = 0 -> paced_job (sample_opts TD_DDIR_RW fsync mix true).
Proof. intros Hl ->. by split. Qed.

Lemma live_default : live (init_rand false).
Proof. apply (bool_decide_unpack _). vm_compute. exact I. Qed.

Lemma sample_inv o bps room : length bps = 3%nat -> Forall (fun b => 0 <= b) bps -> 0 <= room -> room * 1000000 < 2 ^ 63 ->
  pace_inv o (sample_pace bps [0; 0; 0] false) room.
Proof.
  intros Hl Hb Hr Hm. split.
  - exact Hl.
  - reflexivity.
  - by split_and!.
  - split; [done|]. by exists 0, 1.
  - intros _. by left.
  - split; [exact live_default|reflexivity].
  - intros d Hd. assert (d = 0 \/ d = 1 \/ d = 2) as Hc by lia.
    assert (0 <= at_ bps d).
    { rewrite list.Forall_forall in Hb. apply Hb. pose proof (arr_at bps d ltac:(lia)) as E.
      unfold arr_get in E. destruct (0 <=? d); [|done]. apply list_elem_of_lookup_2 in E. done. }
    assert (at_ [0; 0; 0] d = 0) as E0 by (by destruct Hc as [-> | [-> | ->]]).
    cbn [sample_pace sample_base base acc rate_bps rate_next_io_time rate_io_issue_bytes]. rewrite E0.
    split_and!; [done|lia|lia|]. unfold due. by destruct (at_ bps d =? 0).
Qed.


(** ** Syncs *)
Section cadence.
Context (o : pace_options) (quiesce : td -> option td) (sleep : Z -> Z -> Z) (logf : spec_float -> spec_float) (n : Z).
Context (Hn : 0 < n) (Hfs : fsync_blocks o = n) (Hw : td_write o = true).
Context (Hck : check_rate o = false).

(** [w] writes issued, and whether the last unit was a sync. *)
Record sync_inv (p : pace) (w : Z) (synced : bool) : Prop := {
  si_issues : length (io_issues (acc (base p))) = 3%nat /\ length (io_issue_bytes (acc (base p))) = 3%nat /\
    length (rate_io_issue_bytes (acc (base p))) = 3%nat /\ length (td_bytes_done (acc (base p))) = 3%nat;
  si_writes : at_ (io_issues (acc (base p))) DDIR_WRITE = w;
  si_last : last_was_sync (base p) = synced
}.

Lemma note_nothing p d : length (td_bytes_done (acc (base p))) = 3%nat -> note_rate o logf p d = Some p.
Proof.
  intros Hl. unfold note_rate, should_check_rate. rewrite !arr_at by (unfold DDIR_READ, DDIR_WRITE, DDIR_TRIM; lia).
  cbn [mbind option_bind]. by rewrite Hck.
Qed.

(** A sync that is due is issued before anything else. *)
Lemma sync_first p w now len : sync_inv p w false -> 0 < w -> w mod n = 0 ->
  exists p', pace_step o quiesce sleep logf p now len = Some (p', DDIR_SYNC, now) /\ sync_inv p' w true /\
    rate_next_io_time p' = rate_next_io_time p.
Proof.
  intros [(H1&H2&H3&H4) H5 H6] Hw0 Hm. unfold pace_step, get_rw_ddir, should_fsync.
  rewrite (arr_at (io_issues _)) by (unfold DDIR_WRITE; lia). cbn [mbind option_bind].
  rewrite H6, Hw, H5, Hfs. unfold sync_due.
  rewrite (proj2 (Z.eqb_neq n 0)), (proj2 (Z.eqb_neq w 0)), (proj2 (Z.eqb_eq _ _) Hm) by lia.
  cbn [negb andb orb mbind option_bind issue ddir_rw].
  change (issue (base p) DDIR_SYNC len false) with (Some (base p)). cbn [mbind option_bind].
  rewrite note_nothing by exact H4. eexists. split; [reflexivity|]. split; [by split|reflexivity].
Qed.

(** Otherwise the unit is the one of the mix. *)
Lemma sync_else p w synced now len : sync_inv p w synced -> fdatasync_blocks o = 0 -> sync_file_range_nr o = 0 ->
  synced = true \/ w = 0 \/ w mod n <> 0 ->
  pace_step o quiesce sleep logf p now len =
    ('(p, d) ← choose_ddir o p;
     '(p, d, now) ← rate_ddir o quiesce sleep p d now;
     s ← issue (base p) d len false;
     p ← note_rate o logf (with_base (with_mix p d (rwmix_issues p) (rwmix_state p)) s) d;
     Some (with_base p (settle (base p) d), d, now)).
Proof.
  intros [(H1&H2&H3&H4) H5 H6] E1 E2 Hd. unfold pace_step, get_rw_ddir.
  rewrite (arr_at (io_issues _)) by (unfold DDIR_WRITE; lia). cbn [mbind option_bind].
  assert (Hnot : should_fsync o p && sync_due w n = false).
  { unfold should_fsync, sync_due. rewrite H6. destruct Hd as [-> | [-> | Hd]]; [done| |].
    - cbn. by rewrite andb_false_r, andb_false_r.
    - rewrite (proj2 (Z.eqb_neq _ 0) Hd). by rewrite !andb_false_r. }
  rewrite H5, Hfs, Hnot, E1, E2. unfold sync_due. cbn [Z.eqb negb andb]. rewrite !andb_false_r.
  destruct (choose_ddir o p) as [[p1 d]|]; [|done]. cbn [mbind option_bind].
  destruct (rate_ddir o quiesce sleep p1 d now) as [[[p2 d2] t]|]; done.
Qed.
End cadence.

(** The [i]-th unit of a job that writes and syncs every [n] blocks. *)
Definition cadence (n : Z) (i : nat) : Z := if Z.of_nat i mod (n + 1) =? n then DDIR_SYNC else DDIR_WRITE.

Section writer.
Context (o : pace_options) (quiesce : td -> option td) (sleep : Z -> Z -> Z) (logf : spec_float -> spec_float).

(** A job that only writes, with [fsync] and without a rate. *)
Record sync_job (n : Z) : Prop := {
  sj_n : 0 < n; sj_fsync : fsync_blocks o = n; sj_write : td_write o = true; sj_read : td_read o = false;
  sj_check : check_rate o = false; sj_other : fdatasync_blocks o = 0 /\ sync_file_range_nr o = 0
}.

Lemma writer_rw n : sync_job n -> td_rw o = false.
Proof.
  intros H. destruct (td_rw o) eqn:E; [|done]. exfalso. pose proof (sj_read _ H) as Hr.
  unfold td_rw, td_read, isset in *. apply Z.eqb_eq in E. apply negb_false_iff, Z.eqb_eq in Hr.
  assert (Hb : Z.testbit (Z.land (td_ddir o) TD_DDIR_RW) 0 = true) by (by rewrite E).
  assert (Hb' : Z.testbit (Z.land (td_ddir o) TD_DDIR_READ) 0 = false) by (by rewrite Hr).
  rewrite Z.land_spec in Hb, Hb'. change (Z.testbit TD_DDIR_RW 0) with true in Hb.
  change (Z.testbit TD_DDIR_READ 0) with true in Hb'. congruence.
Qed.

(** The write itself. *)
Lemma write_step p w now len n synced : sync_job n -> sync_inv p w synced -> length (rate_next_io_time p) = 3%nat ->
  at_ (rate_next_io_time p) DDIR_WRITE <= now -> synced = true \/ w = 0 \/ w mod n <> 0 -> 0 <= w < 2 ^ 63 ->
  exists p', pace_step o quiesce sleep logf p now len = Some (p', DDIR_WRITE, now) /\ sync_inv p' (w + 1) false /\
    rate_next_io_time p' = rate_next_io_time p.
Proof.
  intros Hj Hs Hl Hnow Hd Hw. destruct (sj_other _ Hj) as [E1 E2].
  rewrite (sync_else o quiesce sleep logf n (sj_fsync _ Hj) p w synced now len Hs E1 E2 Hd).
  unfold choose_ddir. rewrite (writer_rw n Hj), (sj_read _ Hj), (sj_write _ Hj). cbn [mbind option_bind].
  unfold rate_ddir. change (ddir_rw DDIR_WRITE) with true. cbn [assert mbind option_bind].
  rewrite (arr_at (rate_next_io_time p) DDIR_WRITE) by (unfold DDIR_WRITE; lia). cbn [mbind option_bind].
  rewrite (proj2 (Z.leb_le _ _) Hnow). cbn [mbind option_bind].
  destruct Hs as [(H1&H2&H3&H4) H5 H6]. unfold issue. change (ddir_rw DDIR_WRITE) with true. cbn iota.
  destruct (add_at_at (io_issues (acc (base p))) DDIR_WRITE 1) as (l&->&Hll&Hlj);
    [unfold DDIR_WRITE; lia|rewrite H5; lia|].
  destruct (add_at_some (io_issue_bytes (acc (base p))) DDIR_WRITE len) as (b&->&Hb); [unfold DDIR_WRITE; lia|].
  destruct (add_at_some (rate_io_issue_bytes (acc (base p))) DDIR_WRITE len) as (r&->&Hr); [unfold DDIR_WRITE; lia|].
  cbn [mbind option_bind]. rewrite note_nothing by (try exact (sj_check _ Hj); exact H4). cbn [mbind option_bind].
  eexists. split; [reflexivity|]. split; [|done]. split; [| |done].
  - cbn. rewrite Hll, Hb, Hr. done.
  - change (at_ l DDIR_WRITE = w + 1). rewrite Hlj, Z.eqb_refl by (unfold DDIR_WRITE; lia). lia.
Qed.

(** Where in its cycle the job is after [i] units. *)
Definition at_pos (n : Z) (i : nat) (p : pace) : Prop :=
  sync_inv p (Z.of_nat i - Z.of_nat i / (n + 1)) (bool_decide (0 < Z.of_nat i /\ Z.of_nat i mod (n + 1) = 0)).

Lemma next_pos x m : 0 < m -> (if x mod m =? m - 1 then (x + 1) / m = x / m + 1 /\ (x + 1) mod m = 0
  else (x + 1) / m = x / m /\ (x + 1) mod m = x mod m + 1).
Proof.
  intros Hm. pose proof (Z.div_mod x m ltac:(lia)). pose proof (Z.mod_pos_bound x m Hm).
  destruct (Z.eqb_spec (x mod m) (m - 1)); split; symmetry.
  - apply (Z.div_unique_pos _ _ _ 0); lia.
  - apply (Z.mod_unique_pos _ _ (x / m + 1) 0); lia.
  - apply (Z.div_unique_pos _ _ _ (x mod m + 1)); lia.
  - apply (Z.mod_unique_pos _ _ (x / m) (x mod m + 1)); lia.
Qed.

Lemma cadence_step n p i now len : sync_job n -> at_pos n i p -> length (rate_next_io_time p) = 3%nat ->
  at_ (rate_next_io_time p) DDIR_WRITE <= now -> Z.of_nat i < 2 ^ 63 ->
  exists p', pace_step o quiesce sleep logf p now len = Some (p', cadence n i, now) /\ at_pos n (S i) p' /\
    rate_next_io_time p' = rate_next_io_time p.
Proof.
  intros Hj Hp Hl Hnow Hi. pose proof (sj_n _ Hj) as Hn. unfold at_pos in *. unfold cadence.
  rewrite Nat2Z.inj_succ. unfold Z.succ. pose proof (next_pos (Z.of_nat i) (n + 1) ltac:(lia)) as Hnx.
  pose proof (Z.div_mod (Z.of_nat i) (n + 1) ltac:(lia)) as Hdm.
  pose proof (Z.mod_pos_bound (Z.of_nat i) (n + 1) ltac:(lia)) as Hmb.
  assert (Ha : 0 <= Z.of_nat i / (n + 1)) by (apply Z.div_pos; lia).
  set (x := Z.of_nat i) in *. set (a := x / (n + 1)) in *. set (r := x mod (n + 1)) in *.
  assert (Hwm : x - a = a * n + r) by lia.
  destruct (Z.eqb_spec r n) as [Er|Er].
  - rewrite (proj2 (Z.eqb_eq r (n + 1 - 1))) in Hnx by lia. destruct Hnx as [-> ->].
    rewrite bool_decide_eq_false_2 in Hp by lia.
    destruct (sync_first o quiesce sleep logf n Hn (sj_fsync _ Hj) (sj_write _ Hj) (sj_check _ Hj) p (x - a) now len Hp)
      as (p'&E&Hp'&Hnx'); [nia|rewrite Hwm, Er; replace (a * n + n) with ((a + 1) * n) by lia; apply Z.mod_mul; lia|].
    exists p'. rewrite bool_decide_eq_true_2 by lia. split; [done|]. split; [|done].
    by replace (x + 1 - (a + 1)) with (x - a) by lia.
  - rewrite (proj2 (Z.eqb_neq r (n + 1 - 1))) in Hnx by lia. destruct Hnx as [-> ->].
    destruct (write_step p (x - a) now len n _ Hj Hp Hl Hnow) as (p'&E&Hp'&Hnx'); [|nia|].
    { destruct (decide (0 < x /\ r = 0)); [left; by apply bool_decide_eq_true_2|right].
      destruct (decide (r = 0)); [left; nia|right]. rewrite Hwm, Z.add_comm, Z.mod_add, Z.mod_small by lia. done. }
    exists p'. rewrite bool_decide_eq_false_2 by lia. split; [done|]. split; [|done].
    by replace (x + 1 - a) with (x - a + 1) by lia.
Qed.
End writer.

(** C27. A job with a synchronous engine, whose units complete as they are issued,
    that only writes, has no rate and no [fdatasync] or [sync_file_range], and has
    [fsync=n], issues exactly [n] writes, a sync, [n] writes, a sync, and so on.
    (With a deeper queue [last_was_sync] is set only once the sync completes, and
    a sync may come again.) *)
Theorem fsync_cadence o quiesce sleep logf n p now inputs :
  sync_job o n -> at_pos n 0 p -> length (rate_next_io_time p) = 3%nat ->
  at_ (rate_next_io_time p) DDIR_WRITE <= now -> Forall (fun i => 0 <= i.1) inputs -> Z.of_nat (length inputs) < 2 ^ 63 ->
  exists p' l, pace_run o quiesce sleep logf p now inputs = Some (p', l) /\
    map sh_ddir l = map (cadence n) (seq 0 (length inputs)).
Proof.
  intros Hj. cut (forall inputs k p now, at_pos n k p -> length (rate_next_io_time p) = 3%nat ->
    at_ (rate_next_io_time p) DDIR_WRITE <= now -> Forall (fun i => 0 <= i.1) inputs -> Z.of_nat (k + length inputs) < 2 ^ 63 ->
    exists p' l, pace_run o quiesce sleep logf p now inputs = Some (p', l) /\
      map sh_ddir l = map (cadence n) (seq k (length inputs))); [intros H; by apply (H inputs 0%nat)|].
  clear p now inputs. induction inputs as [|[gap len] inputs IH]; intros k p now Hp Hl Hnow Hin Hb.
  { by exists p, []. }
  apply Forall_cons_iff in Hin as [Hg Hin]. cbn [fst length] in *.
  destruct (cadence_step o quiesce sleep logf n p k (now + gap) len Hj Hp Hl ltac:(lia) ltac:(lia)) as (p1&E&Hp1&Hn1).
  rewrite <- Hn1 in Hl, Hnow. destruct (IH (S k) p1 (now + gap) Hp1 Hl ltac:(lia) Hin ltac:(lia)) as (p'&l&E'&Hm).
  exists p', (Shot (cadence n k) (now + gap) len :: l). cbn [pace_run]. rewrite E. cbn [mbind option_bind].
  rewrite E'. cbn [mbind option_bind map seq sh_ddir]. by rewrite Hm.
Qed.

Lemma fsync_cadence_witness :
  exists p' l, pace_run (sample_opts TD_DDIR_WRITE 2 [0; 100; 0] false) (fun s => Some s) Z.add (fun x => x)
      (sample_pace [0; 0; 0] [0; 0; 0] false) 0 (replicate 7 (1, 4096)) = Some (p', l) /\
    map sh_ddir l = [DDIR_WRITE; DDIR_WRITE; DDIR_SYNC; DDIR_WRITE; DDIR_WRITE; DDIR_SYNC; DDIR_WRITE].
Proof.
  apply (fsync_cadence (sample_opts TD_DDIR_WRITE 2 [0; 100; 0] false) (fun s => Some s) Z.add (fun x => x) 2
    (sample_pace [0; 0; 0] [0; 0; 0] false) 0 (replicate 7 (1, 4096))).
  - split; reflexivity || lia || (split; reflexivity).
  - split; [by split_and!|reflexivity..].
  - reflexivity.
  - vm_compute. discriminate.
  - apply Forall_replicate. cbn. lia.
  - vm_compute. reflexivity.
Defined.

(** Nothing is put off. *)
Definition on_time (p : pace) (now : Z) : Prop := forall d v, arr_get (rate_next_io_time p) d = Some v -> v <= now.

Lemma on_time_later p p' t t' : on_time p t -> rate_next_io_time p' = rate_next_io_time p -> t <= t' -> on_time p' t'.
Proof. intros H E Ht d v Hv. rewrite E in Hv. specialize (H d v Hv). lia. Qed.

Lemma rate_ddir_on_time o quiesce sleep p d now r : on_time p now -> rate_ddir o quiesce sleep p d now = Some r ->
  ddir_rw d = true /\ r = (p, d, now).
Proof.
  intros Ht E. unfold rate_ddir in E. destruct (ddir_rw d); [|done]. cbn [assert mbind option_bind] in E.
  apply bind_Some in E as (v&Ev&E). rewrite (proj2 (Z.leb_le _ _) (Ht _ _ Ev)) in E. by injection E as <-.
Qed.

Lemma choose_ddir_base o p p' d : choose_ddir o p = Some (p', d) ->
  base p' = base p /\ rate_next_io_time p' = rate_next_io_time p.
Proof.
  intros E. unfold choose_ddir in E. destruct (td_rw o); [|by injection E as <- _].
  apply bind_Some in E as (n&_&E). destruct (_ <=? n); [|by injection E as <- _].
  apply bind_Some in E as ([p1 d1]&E1&E). unfold get_rand_ddir in E1.
  apply bind_Some in E1 as ([st v]&_&E1). apply bind_Some in E1 as (r&_&E1). injection E1 as <- <-.
  apply bind_Some in E as (p2&E2&E). injection E as <- <-.
  destruct (negb _); [|by injection E2 as <-]. unfold set_rwmix_bytes in E2.
  apply bind_Some in E2 as (df&_&E2). apply bind_Some in E2 as (m&_&E2). by injection E2 as <-.
Qed.

Lemma add_at_inv l d v l' : add_at l d v = Some l' -> length l' = length l /\ forall j, j <> d -> 0 <= j -> at_ l' j = at_ l j.
Proof.
  unfold add_at. intros E. apply bind_Some in E as (x&Ex&E). pose proof (arr_set_inv _ _ _ _ E) as (Hd&->).
  split; [apply length_insert|]. intros j Hj H0. unfold at_. rewrite arr_get_insert by lia.
  by rewrite (proj2 (Z.eqb_neq j d)).
Qed.

Lemma after_sync o quiesce sleep logf p w now len p' d t : check_rate o = false -> sync_inv p w true -> on_time p now ->
  pace_step o quiesce sleep logf p now len = Some (p', d, t) -> d <> DDIR_WRITE ->
  sync_inv p' w false /\ d <> DDIR_SYNC /\ rate_next_io_time p' = rate_next_io_time p /\ t = now.
Proof.
  intros Hck [(H1&H2&H3&H4) H5 H6] Ht E Hd. unfold pace_step, get_rw_ddir, should_fsync in E.
  rewrite (arr_at (io_issues (acc (base p))) DDIR_WRITE) in E by (unfold DDIR_WRITE; lia).
  rewrite H6 in E. cbn [mbind option_bind negb andb] in E.
  apply bind_Some in E as ([[p1 d1] t1]&E1&E). apply bind_Some in E1 as ([p2 d2]&E2&E1).
  destruct (choose_ddir_base _ _ _ _ E2) as [B1 B2]. apply bind_Some in E1 as ([[p3 d3] t3]&E3&E1).
  destruct (rate_ddir_on_time _ _ _ _ _ _ _ (on_time_later _ _ now now Ht B2 ltac:(lia)) E3) as [Hrw [= -> -> ->]].
  injection E1 as <- <- <-. apply bind_Some in E as (s&Es&E). cbn [with_mix base] in Es. rewrite B1 in Es.
  unfold issue in Es. rewrite Hrw in Es. apply bind_Some in Es as (l1&E4&Es). apply bind_Some in Es as (l2&E5&Es).
  apply bind_Some in Es as (l3&E6&Es). injection Es as <-.
  apply add_at_inv in E4 as [L1 J1]. apply add_at_inv in E5 as [L2 _]. apply add_at_inv in E6 as [L3 _].
  rewrite note_nothing in E by (done || exact H4). cbn [mbind option_bind] in E. injection E as <- <- <-.
  assert (Hns : ddir_sync d2 = false).
  { unfold ddir_rw, ddir_sync, DDIR_READ, DDIR_WRITE, DDIR_TRIM, DDIR_SYNC, DDIR_DATASYNC, DDIR_SYNC_FILE_RANGE in *.
    repeat destruct (Z.eqb_spec d2 _); try done; lia. }
  unfold settle. rewrite Hns. split_and!; try done.
  - split; [cbn; by rewrite L1, L2, L3|change (at_ l1 DDIR_WRITE = w); by rewrite <- H5; apply J1|done].
  - intros ->. done.
Qed.

(** In a job that also reads, the sync that the last write made due is issued
    again after every read until the next write: as long as a run has no write,
    every other unit of it is a sync. *)
Theorem reads_repeat_syncs o quiesce sleep logf n w p now inputs p' l :
  0 < n -> fsync_blocks o = n -> td_write o = true -> check_rate o = false ->
  sync_inv p w false -> 0 < w -> w mod n = 0 -> on_time p now -> Forall (fun i => 0 <= i.1) inputs ->
  pace_run o quiesce sleep logf p now inputs = Some (p', l) ->
  Forall (fun sh => sh_ddir sh <> DDIR_WRITE) l ->
  forall i sh, l !! i = Some sh -> (sh_ddir sh = DDIR_SYNC <-> Nat.even i = true).
Proof.
  intros Hn Hfs Hw Hck Hp Hw0 Hm Ht Hin E Hl.
  cut (forall inputs b p now l, sync_inv p w b -> on_time p now -> Forall (fun i => 0 <= i.1) inputs ->
    pace_run o quiesce sleep logf p now inputs = Some (p', l) -> Forall (fun sh => sh_ddir sh <> DDIR_WRITE) l ->
    forall i sh, l !! i = Some sh -> (sh_ddir sh = DDIR_SYNC <-> xorb b (Nat.even i) = true)).
  { intros H i sh Hi. rewrite (H inputs false p now l Hp Ht Hin E Hl i sh Hi). by destruct (Nat.even i). }
  clear p now inputs l Hp Ht Hin E Hl.
  induction inputs as [|[gap len] inputs IH]; intros b p now l Hp Ht Hin E Hl i sh Hi.
  { injection E as <- <-. done. }
  apply Forall_cons_iff in Hin as [Hg Hin]. cbn [fst] in Hg. cbn [pace_run] in E.
  apply bind_Some in E as ([[p1 d] t]&E1&E). apply bind_Some in E as ([p2 l2]&E2&E). injection E as -> <-.
  apply Forall_cons_iff in Hl as [Hd Hl]. cbn [sh_ddir] in Hd.
  assert (Hstep : sync_inv p1 w (negb b) /\ on_time p1 t /\ (d = DDIR_SYNC <-> b = false)).
  { destruct b.
    - destruct (after_sync _ _ _ _ _ _ _ _ _ _ _ Hck Hp (on_time_later _ p _ (now + gap) Ht eq_refl ltac:(lia)) E1 Hd)
        as (H1&H2&H3&->). split; [done|]. split; [|done]. by apply (on_time_later p _ now); [..|lia].
    - destruct (sync_first o quiesce sleep logf n Hn Hfs Hw Hck p w (now + gap) len Hp Hw0 Hm) as (q&E3&Hq&Hnx).
      rewrite E1 in E3. injection E3 as -> -> ->. split; [done|]. split; [|done]. by apply (on_time_later p _ now); [..|lia]. }
  destruct Hstep as (Hp1&Ht1&Hdb). destruct i as [|i]; cbn [lookup list_lookup] in Hi.
  - injection Hi as <-. cbn [sh_ddir Nat.even]. rewrite Hdb. by destruct b.
  - rewrite (IH (negb b) p1 t l2 Hp1 Ht1 Hin E2 Hl i sh Hi). rewrite Nat.even_succ, <- Nat.negb_even.
    by destruct b, (Nat.even i).
Qed.

(** Four writes have been issued and the mix is all reads. *)
Lemma reads_repeat_syncs_witness :
  exists p' l, pace_run (sample_opts TD_DDIR_RW 4 [100; 0; 0] false) (fun s => Some s) Z.add (fun x => x)
      (sample_pace [0; 0; 0] [0; 4; 0] false) 0 (replicate 5 (1, 4096)) = Some (p', l) /\
    map sh_ddir l = [DDIR_SYNC; DDIR_READ; DDIR_SYNC; DDIR_READ; DDIR_SYNC] /\
    forall i sh, l !! i = Some sh -> (sh_ddir sh = DDIR_SYNC <-> Nat.even i = true).
Proof.
  assert (Hr : match pace_run (sample_opts TD_DDIR_RW 4 [100; 0; 0] false) (fun s => Some s) Z.add (fun x => x)
      (sample_pace [0; 0; 0] [0; 4; 0] false) 0 (replicate 5 (1, 4096)) with
    | Some (_, l) => map sh_ddir l | None => [] end = [DDIR_SYNC; DDIR_READ; DDIR_SYNC; DDIR_READ; DDIR_SYNC])
    by (vm_compute; reflexivity).
  destruct (pace_run _ _ _ _ _ _ _) as [[p' l]|] eqn:E; [|discriminate Hr].
  exists p', l. split; [reflexivity|]. split; [exact Hr|].
  apply (reads_repeat_syncs (sample_opts TD_DDIR_RW 4 [100; 0; 0] false) (fun s => Some s) Z.add (fun x => x) 4 4
    (sample_pace [0; 0; 0] [0; 4; 0] false) 0 (replicate 5 (1, 4096)) p' l).
  - lia.
  - reflexivity.
  - reflexivity.
  - reflexivity.
  - split; [by split_and!|reflexivity..].
  - lia.
  - reflexivity.
  - intros d v Hv. cbn [sample_pace rate_next_io_time] in Hv.
    destruct (arr_cases [0; 0; 0] d v eq_refl Hv) as [-> | [-> | ->]]; injection Hv as <-; lia.
  - apply Forall_replicate. cbn. lia.
  - exact E.
  - clear E. assert (Hl : Forall (fun d => d <> DDIR_WRITE) (map sh_ddir l)) by (rewrite Hr; repeat constructor; discriminate).
    apply (proj1 (Forall_map sh_ddir (fun d => d <> DDIR_WRITE) l) Hl).
Defined.

(** A sync issued while the rate is checked writes past the end of
    [rate_next_io_time]. *)
Theorem sync_rate_out_of_bounds o logf p d : check_rate o = true -> started (base p) -> ddir_sync d = true ->
  length (rate_bps p) = 3%nat -> note_rate o logf p d = None.
Proof.
  intros Hc Hs Hd Hl. unfold note_rate. rewrite started_check by done. cbn [mbind option_bind]. rewrite Hc.
  unfold usec_for_io. destruct (arr_get (rate_bps p) d) as [v|] eqn:E; [|done].
  destruct (arr_cases _ _ _ Hl E) as [-> | [-> | ->]]; discriminate Hd.
Qed.

Lemma sync_rate_out_of_bounds_witness :
  note_rate (sample_opts TD_DDIR_WRITE 4 [0; 100; 0] true) (fun x => x) (sample_pace [0; 9; 0] [0; 4; 0] false) DDIR_SYNC = None.
Proof.
  apply (sync_rate_out_of_bounds (sample_opts TD_DDIR_WRITE 4 [0; 100; 0] true)); try reflexivity.
  split; [reflexivity|]. exists 0, 1. split; [reflexivity|discriminate].
Defined.

(** When the busy part of the think time overshoots the whole of it by [e]
    microseconds, the rest is negative, and [usec_sleep] asks [nanosleep] for
    more than half a million years. *)
Theorem thinktime_overshoot o e gran : 0 < e < 2 ^ 31 -> 0 < thinktime o < 2 ^ 31 -> uint 32 gran ->
  let left := think_left o (thinktime o + e) in
  left = - e /\ 18446744000000 <= tv_sec (sleep_request (u64 left - gran)).
Proof.
  intros He Ht Hg. cbn zeta.
  assert (El : think_left o (thinktime o + e) = - e).
  { unfold think_left, sgn. replace (thinktime o - (thinktime o + e)) with (- e) by lia.
    unfold wrap. replace ((- e) mod 2 ^ 32) with (2 ^ 32 - e)
      by (symmetry; rewrite <- (Z.mod_add (- e) 1), Z.mod_small by lia; lia).
    destruct (Z.ltb_spec (2 ^ 32 - e) (2 ^ (32 - 1))); lia. }
  split; [done|]. rewrite El. unfold wrap. replace ((- e) mod 2 ^ 64) with (2 ^ 64 - e)
    by (symmetry; rewrite <- (Z.mod_add (- e) 1), Z.mod_small by lia; lia).
  unfold sleep_request, uint in *. rewrite (proj2 (Z.leb_le _ _)) by lia. cbn [tv_sec].
  apply Z.div_le_lower_bound; lia.
Qed.

(** [thinktime=1000], [thinktime_spin=1000]: the spin ends a microsecond late. *)
Lemma thinktime_overshoot_witness :
  let o := PaceOptions TD_DDIR_READ [0; 0; 0] 0 0 0 false true false [] [] [] [] false false 0 1000 1000 1 false in
  think_left o 1001 = -1 /\ 18446744000000 <= tv_sec (sleep_request (u64 (think_left o 1001) - 60)).
Proof.
  cbn zeta. apply (thinktime_overshoot (PaceOptions TD_DDIR_READ [0; 0; 0] 0 0 0 false true false [] [] [] [] false false 0 1000 1000 1 false) 1 60);
    cbn; unfold uint; lia.
Defined.
