(* ===== verification/JobLoop.v ===== *)
(** * The loop of a job: [do_io] of [backend.c]

    A worker gets a unit, hands it to the engine, looks at the answer, reaps
    completions when the queue is full, and stops when enough has been issued,
    time is up or an error ends the job; afterwards it waits for what is in
    flight.  The life of a unit is that of [IoULife], rates and think time those
    of [Pace].  Modelled are jobs that run inline and neither verify, nor replay
    a log, nor trim behind their writes, without ramp time, latency target and
    final fsync; clock, engine, file choice and ranges are inputs, indexed by a
    count of the calls. *)
From Stdlib Require Import SpecFloat.
From S2P Require Import Prelude Flags IoUQueue Files Buckets LatTarget Time IoULife CFloat Pace.

(** ** Options, inputs and state *)
Record job_opts := JobOpts {
  jo_size : Z; jo_io_size : Z; jo_loops : Z; jo_number_ios : Z; jo_time_based : bool; jo_timeout : Z;
  jo_batch_min : Z; jo_batch_max : Z; jo_low : Z; jo_random : bool; jo_norandommap : bool; jo_total_io_size : Z;
  jo_ratemin : list Z; jo_rate_iops_min : list Z; jo_ratecycle : Z; jo_noio : bool; jo_ts_mask : Z;
  jo_epoch : timespec; jo_start : timespec
}.

(** What surrounds the loop.  [e_cancel] is the engine's [cancel] hook, if it has
    one. *)
Record job_env := JobEnv {
  e_clock : nat -> timespec;
  e_flow : nat -> bool;
  e_pick : files_td -> option (files_td * pick);
  e_range : nat -> pace -> Z * Z * Z;
  e_prep : nat -> Z;
  e_answer : nat -> td -> answer;
  e_commit : nat -> Z;
  e_reap : nat -> td -> Z -> ev_answer;
  e_cancel : option (Z -> Z);
  e_quiesce : td -> option td;
  e_spin : Z -> Z;
  e_slept : Z -> Z
}.

Record job := Job {
  pc : pace; bytes_issued : Z; ret : Z;
  ts_cache : timespec; ts_cache_nr : Z;
  rate_bytes : list Z; rate_blocks : list Z; lastrate : list timespec;
  job_done : bool; tick : nat
}.

Definition job_td (j : job) : td := base (pc j).
Definition with_pc (j : job) (p : pace) : job :=
  Job p (bytes_issued j) (ret j) (ts_cache j) (ts_cache_nr j) (rate_bytes j) (rate_blocks j) (lastrate j) (job_done j) (tick j).
Definition with_td (j : job) (s : td) : job := with_pc j (with_base (pc j) s).
Definition with_ret (j : job) (r : Z) : job :=
  Job (pc j) (bytes_issued j) r (ts_cache j) (ts_cache_nr j) (rate_bytes j) (rate_blocks j) (lastrate j) (job_done j) (tick j).
Definition with_bytes (j : job) (b : Z) : job :=
  Job (pc j) b (ret j) (ts_cache j) (ts_cache_nr j) (rate_bytes j) (rate_blocks j) (lastrate j) (job_done j) (tick j).
Definition with_ts (j : job) (t : timespec) (n : Z) : job :=
  Job (pc j) (bytes_issued j) (ret j) t n (rate_bytes j) (rate_blocks j) (lastrate j) (job_done j) (tick j).
Definition with_sample (j : job) (b n : list Z) (t : list timespec) : job :=
  Job (pc j) (bytes_issued j) (ret j) (ts_cache j) (ts_cache_nr j) b n t (job_done j) (tick j).
Definition with_done (j : job) (d : bool) : job :=
  Job (pc j) (bytes_issued j) (ret j) (ts_cache j) (ts_cache_nr j) (rate_bytes j) (rate_blocks j) (lastrate j) d (tick j).
(** One more call of the surroundings. *)
Definition ticked (j : job) : job :=
  Job (pc j) (bytes_issued j) (ret j) (ts_cache j) (ts_cache_nr j) (rate_bytes j) (rate_blocks j) (lastrate j) (job_done j) (S (tick j)).

Section loop.
Context (o : options) (po : pace_options) (jo : job_opts) (env : job_env) (logf : spec_float -> spec_float).

(** ** Limits *)
Definition ddir_rw_sum (l : list Z) : option Z :=
  a ← arr_get l DDIR_READ; b ← arr_get l DDIR_WRITE; c ← arr_get l DDIR_TRIM; Some (u64 (a + b + c)).

Definition exceeds_number_ios (s : td) : option bool :=
  if jo_number_ios jo =? 0 then Some false else
  n ← ddir_rw_sum (io_blocks (acc s));
  let n := u64 (n + u32 (io_u_queued s + io_u_in_flight s)) in
  Some (u64 (jo_number_ios jo * jo_loops jo) <=? n).

Definition io_bytes_exceeded (s : td) (this_bytes : list Z) : option bool :=
  bytes ←
    (if td_rw po then r ← arr_get this_bytes DDIR_READ; w ← arr_get this_bytes DDIR_WRITE; Some (u64 (r + w))
     else if td_write po then arr_get this_bytes DDIR_WRITE
     else if td_read po then arr_get this_bytes DDIR_READ
     else arr_get this_bytes DDIR_TRIM);
  let limit := if negb (jo_io_size jo =? 0) then jo_io_size jo else jo_size jo in
  let limit := u64 (limit * jo_loops jo) in
  x ← exceeds_number_ios s;
  Some ((limit <=? bytes) || x).

Definition io_issue_bytes_exceeded (s : td) : option bool := io_bytes_exceeded s (io_issue_bytes (acc s)).
Definition io_complete_bytes_exceeded (s : td) : option bool := io_bytes_exceeded s (this_io_bytes (acc s)).

Definition read_clock (j : job) : job * timespec := (ticked j, e_clock env (tick j)).

Definition update_ts_cache (j : job) : job :=
  let nr := u32 (ts_cache_nr j + 1) in
  let j := with_ts j (ts_cache j) nr in
  if Z.land nr (jo_ts_mask jo) =? jo_ts_mask jo then let '(j, t) := read_clock j in with_ts j t nr else j.

Definition runtime_exceeded (t : timespec) : bool :=
  negb (jo_timeout jo =? 0) && (jo_timeout jo <=? utime_since (jo_epoch jo) t).

(** The cached time is checked, and read again before the job is stopped; the
    boolean ends the loop. *)
Definition time_is_up (j : job) : job * bool :=
  let j := update_ts_cache j in
  if negb (runtime_exceeded (ts_cache j)) then (j, false) else
  let '(j, t) := read_clock j in
  let j := with_ts j t (ts_cache_nr j) in
  if runtime_exceeded t then (with_td j (fio_mark_td_terminate (job_td j)), true) else (j, false).

(** ** The minimum rate

    The sample of direction [d]; [now] is absent when the caller's [comp_time]
    has not been written. *)
Definition check_min_rate_of (j : job) (now : option timespec) (d : Z) : option (job * bool) :=
  let a := acc (job_td j) in
  rm ← arr_get (jo_ratemin jo) d;
  im ← arr_get (jo_rate_iops_min jo) d;
  if (rm =? 0) && (im =? 0) then Some (j, false) else
  now ← now;
  if mtime_since (jo_start jo) now <? 2000 then Some (j, false) else
  iops ← arr_get (this_io_blocks a) d;
  bytes ← arr_get (this_io_bytes a) d;
  let ratemin := u32 rm in
  rate_iops ← arr_get (o_rate_iops po) d;
  rate ← arr_get (o_rate po) d;
  rb ← arr_get (rate_bytes j) d;
  rn ← arr_get (rate_blocks j) d;
  last ← arr_get (lastrate j) d;
  let spent := mtime_since last now in
  let running := negb (rb =? 0) || negb (rn =? 0) in
  if running && (spent <? jo_ratecycle jo) then Some (j, false) else
  let missed :=
    running &&
    (if negb (rate =? 0) || negb (rm =? 0) then
       (bytes <? rb) || ((if negb (spent =? 0) then u64 (u64 (bytes - rb) * 1000) / spent else 0) <? ratemin)
     else
       (iops <? rate_iops) || ((if negb (spent =? 0) then u64 (u64 (iops - rn) * 1000) / spent else 0) <? im) || (iops <? rn)) in
  if missed then Some (j, true) else
  b ← arr_set (rate_bytes j) d bytes;
  n ← arr_set (rate_blocks j) d iops;
  l ← arr_set (lastrate j) d now;
  Some (with_sample j b n l, false).

Definition check_one_rate (j : job) (now : option timespec) (d : Z) : option (job * bool) :=
  b ← arr_get (td_bytes_done (acc (job_td j))) d;
  if negb (b =? 0) then check_min_rate_of j now d else Some (j, false).

Definition check_min_rate (j : job) (now : option timespec) : option (job * bool) :=
  '(j, r0) ← check_one_rate j now DDIR_READ;
  '(j, r1) ← check_one_rate j now DDIR_WRITE;
  '(j, r2) ← check_one_rate j now DDIR_TRIM;
  Some (j, r0 || r1 || r2).

(** ** Reaping *)
Definition reap (j : job) (min_evts : Z) : option (job * Z) :=
  let s := job_td j in
  '(s', r) ← io_u_queued_complete o s min_evts (jo_batch_max jo) (e_commit env (tick j)) (e_reap env (tick j) s min_evts);
  Some (ticked (with_td j s'), r).

Definition is_full (s : td) : bool := queue_full (io_u_qempty (freelist s)) (latency_target o) (lat o) (cur_depth s).

Fixpoint reap_loop (fuel : nat) (j : job) (full : bool) (min_evts : Z) : option (job * Z) :=
  match fuel with
  | O => None
  | S fuel =>
      '(j, r) ← reap j min_evts;
      if r <? 0 then Some (j, r)
      else if full && (jo_low jo <? cur_depth (job_td j)) then reap_loop fuel j full min_evts
      else Some (j, r)
  end.

(** [wait_for_completions]: the code and the time read into [*time], if any. *)
Definition wait_for_completions (j : job) : option (job * Z * option timespec) :=
  let s := job_td j in
  let full := is_full s in
  let min_evts := Z.min (jo_batch_min jo) (cur_depth s) in
  let min_evts := if (full && (min_evts =? 0)) || (jo_batch_min jo =? 0) then 1 else min_evts in
  let '(j, t) := if check_rate po then let '(j, t) := read_clock j in (j, Some t) else (j, None) in
  '(j, r) ← reap_loop (S (length (units s))) j full min_evts;
  Some (j, r, t).

Definition io_in_polling : bool := (jo_batch_min jo =? 0) && (jo_batch_max jo =? 0).

(** ** One round *)
Inductive verdict := Go | Stop.

Definition total_bytes : Z :=
  let t := jo_size jo in
  let t := if td_write po && jo_random jo && jo_norandommap jo then Z.max t (jo_io_size jo) else t in
  if td_trimwrite po then u64 (t + jo_total_io_size jo) else t.

(** [io_u_submit], the note of the rate and [io_queue_event]; the boolean ends
    the loop, the time is [comp_time]. *)
Definition submit_step (j : job) (i : Z) : option (job * bool * option timespec) :=
  let s := job_td j in
  u ← unit_at s i;
  let d := ddir u in
  let c := e_commit env (tick j) in
  '(s, r) ← io_u_submit o s i (e_answer env (tick j) s) c;
  p ← note_rate po logf (with_base (pc j) s) d;
  let j := with_pc j p in
  '(s, r', b, brk) ← io_queue_event o (base p) i r d (bytes_issued j) c;
  u ← unit_at (base p) i;
  let done := (r =? FIO_Q_COMPLETED) && (error u =? 0) &&
    ((resid u =? 0) || match file u with
                       | Some f => let n := sgn 32 (xfer_buflen u - resid u) in negb (n =? 0) && (u64 (offset u + n) =? real_file_size o f)
                       | None => false end) in
  let j := with_bytes (with_ret (with_td j s) r') b in
  let '(j, t) := if done && check_rate po then let '(j, t) := read_clock j in (j, Some t) else (ticked j, None) in
  Some (j, brk, t).

(** From the label [reap] on; [d] is the direction of the unit, -1 without one. *)
Definition finish_round (j : job) (d : Z) (time : option timespec) : option (job * verdict) :=
  let s := job_td j in
  let full := is_full s || ((ret j =? FIO_Q_BUSY) && negb (cur_depth s =? 0)) in
  '(j, time) ←
    (if full || io_in_polling then
       '(j, r, t) ← wait_for_completions j;
       Some (with_ret j r, match t with Some t => Some t | None => time end)
     else Some (j, time));
  if ret j <? 0 then Some (j, Stop) else
  n ← ddir_rw_sum (td_bytes_done (acc (job_td j)));
  if (n =? 0) && negb (jo_noio jo) then Some (j, Go) else
  c ← should_check_rate po (pc j);
  '(j, missed) ← (if c : bool then check_min_rate j time else Some (j, false));
  if missed : bool then Some (with_td j (td_verror (job_td j) EIO), Stop) else
  if ddir_rw d && negb (thinktime po =? 0) then
    p ← handle_thinktime po (e_quiesce env) (e_spin env) (e_slept env) (pc j) d;
    Some (with_pc j p, Go)
  else Some (j, Go).

Definition round (j : job) : option (job * verdict) :=
  if td_terminate (errs (job_td j)) || job_done j then Some (j, Stop) else
  let '(j, up) := time_is_up j in
  if up then Some (j, Stop) else
  if e_flow env (tick j) then Some (ticked j, Go) else
  if (total_bytes <=? bytes_issued j) && negb (jo_time_based jo) then Some (j, Stop) else
  '(s, g) ← get_io_u o false (job_td j) (e_pick env) (e_range env (tick j) (pc j)) (e_prep env (tick j));
  let j := ticked (with_td j s) in
  match g with
  | inr e => if e =? - EBUSY then finish_round (with_ret j FIO_Q_BUSY) (-1) None
             else if latency_target o then finish_round j (-1) None else Some (j, Stop)
  | inl None => if latency_target o then finish_round j (-1) None else Some (j, Stop)
  | inl (Some i) =>
      u ← unit_at s i;
      '(j, brk, t) ← submit_step j i;
      if brk : bool then Some (j, Stop) else finish_round j (ddir u) t
  end.

Fixpoint io_loop (fuel : nat) (j : job) : option job :=
  x ← io_issue_bytes_exceeded (job_td j);
  if x && negb (jo_time_based jo) then Some j else
  match fuel with
  | O => None
  | S fuel => '(j, v) ← round j; match v with Stop => Some j | Go => io_loop fuel j end
  end.

(** ** The end of the job *)
Fixpoint cancel_units (n : nat) (i : Z) (cancel : Z -> Z) (s : td) : option td :=
  match n with
  | O => Some s
  | S n =>
      u ← unit_at s i;
      s ← (if isset (flags u) IO_U_F_FLIGHT && (cancel i =? 0) then put_io_u o s i else Some s);
      cancel_units n (i + 1) cancel s
  end.

Definition cleanup_pending_aio (j : job) : option job :=
  '(j, r) ← reap j 0;
  if r <? 0 then Some j else
  s ← match e_cancel env with
      | Some cancel => cancel_units (length (units (job_td j))) 0 cancel (job_td j)
      | None => Some (job_td j)
      end;
  let j := with_td j s in
  if negb (cur_depth s =? 0) then '(j, _) ← reap j (cur_depth s); Some j else Some j.

(** The expected end of a job that fills the device. *)
Definition device_full (s : td) : bool := fill_device o && (td_error (errs s) =? ENOSPC).
Definition clear_td_error (s : td) : td :=
  with_errs s (TdErrors 0 (total_err_count (errs s)) (first_error (errs s)) (td_terminate (errs s))).

Definition drain (j : job) : option job :=
  let s := job_td j in
  let j := if device_full s then with_td j (fio_mark_td_terminate (clear_td_error s)) else j in
  if td_error (errs (job_td j)) =? 0 then
    if negb (cur_depth (job_td j) =? 0) then
      '(j, _) ← reap j (cur_depth (job_td j));
      Some (if device_full (job_td j) then with_td j (clear_td_error (job_td j)) else j)
    else Some j
  else cleanup_pending_aio j.

(** [do_io]: the job afterwards and the bytes it did in each direction. *)
Definition do_io (fuel : nat) (j : job) : option (job * list Z) :=
  let before := td_bytes_done (acc (job_td j)) in
  j ← io_loop fuel (with_ret (with_bytes j 0) 0);
  j ← drain j;
  n ← ddir_rw_sum (this_io_bytes (acc (job_td j)));
  let j := if n =? 0 then with_done j true else j in
  let after := td_bytes_done (acc (job_td j)) in
  Some (j, zip_with (fun a b => u64 (a - b)) after before).
End loop.
