(* ===== verification/JobLoopInv.v ===== *)
(** * The books of a job through its operations

    What the operations of a unit do to the errors and byte counters [do_io]
    looks at, and the invariant [going] of a job on an engine that reports no
    error and no short transfer: getting, submitting, completing and reaping a
    unit keep it. *)
From Stdlib Require Import SpecFloat.
From S2P Require Import Prelude Flags IoUQueue Files Buckets LatTarget Time Rand IoULife IoULifeInv IoULifeRun CFloat Pace JobLoop.

(** ** What operations do to the books

    The errors and the three byte counters the loop looks at, and the files. *)
Definition entries (s : td) : td_errors * list Z * list Z * list Z :=
  (errs s, io_issue_bytes (acc s), this_io_bytes (acc s), td_bytes_done (acc s)).
Definition books (s : td) : td_errors * list Z * list Z * list Z * files_td := (entries s, fs s).

Lemma books_mark_depth s n s' : mark_depth s n = Some s' -> books s' = books s.
Proof. unfold mark_depth. intros H. inv_opt. done. Qed.
Lemma books_mark_submit s n s' : mark_submit s n = Some s' -> books s' = books s.
Proof. unfold mark_submit. intros H. inv_opt. destruct x as [m t]. inv_opt. done. Qed.
Lemma books_mark_complete s n s' : mark_complete s n = Some s' -> books s' = books s.
Proof. unfold mark_complete. intros H. inv_opt. destruct x as [m t]. inv_opt. done. Qed.
Lemma books_upd s i u s' : upd_unit s i u = Some s' -> books s' = books s.
Proof. unfold upd_unit. intros H. inv_opt. done. Qed.
Lemma books_count_total s d s' : count_total s d = Some s' -> books s' = books s.
Proof. unfold count_total. intros H. destruct (_ || _); inv_opt; done. Qed.
Lemma books_leave s u : books (leave_depth s u) = books s.
Proof. unfold leave_depth. by destruct (isset _ _). Qed.

Section books.
Context (o : options).

Lemma books_commit s s' : td_io_commit o s 0 = Some s' -> books s' = books s.
Proof.
  unfold td_io_commit. destruct (_ || _); intros H; inv_opt; [done|]. rewrite andb_false_r in *.
  rewrite <- (books_mark_depth _ _ _ E). done.
Qed.

Definition closes_quietly : Prop := fsync_err (close_answer o) = 0 /\ close_err (close_answer o) = 0.

Lemma put_file_quiet s i s' r : closes_quietly -> put_file s i (close_answer o) = Some (s', r) -> r = 0.
Proof.
  intros [Hf Hc]. unfold put_file. intros H. inv_opt. destruct (negb (fio_file_open x)); inv_opt; [done|].
  destruct (negb (references x - 1 =? 0)); inv_opt; [done|]. rewrite Hc, Hf. by destruct (fsync_due _).
Qed.

Lemma entries_put s i s' : closes_quietly -> put_io_u o s i = Some s' -> entries s' = entries s.
Proof.
  intros Hq. unfold put_io_u. intros H. inv_opt. change (entries (with_lists ?s _ _ _)) with (entries s).
  transitivity (entries x0); [exact (f_equal fst (eq_trans (books_leave x1 _) (books_upd _ _ _ _ E1)))|].
  destruct (file x) as [f|]; [|by inv_opt].
  destruct (negb _); [|by inv_opt]. unfold put_file_log in E0. inv_opt. destruct x3 as [g r].
  apply put_file_quiet in E3 as ->; [|done]. inv_opt. done.
Qed.

(** The files change as dropping a reference changes them. *)
Lemma files_put s i s' : put_io_u o s i = Some s' ->
  fs s' = fs s \/ exists f r, put_file (fs s) f (close_answer o) = Some (fs s', r).
Proof.
  unfold put_io_u. intros H. inv_opt. change (fs (with_lists ?s _ _ _)) with (fs s).
  pose proof (f_equal snd (eq_trans (books_leave x1 (io_u_set (with_file x None) IO_U_F_FREE)) (books_upd _ _ _ _ E1))) as B.
  cbn [books snd] in B. rewrite B. destruct (file x) as [f|]; [|inv_opt; by left].
  destruct (negb _); [|inv_opt; by left]. right. unfold put_file_log in E0. inv_opt. destruct x3 as [g r]. inv_opt.
  exists f, r. rewrite E3. destruct (negb (r =? 0)); [|done]. unfold td_verror. by destruct (negb _).
Qed.

(** Trace the books of a state back through the operations that led to it. *)
Ltac books_back :=
  repeat match goal with
  | H : mark_depth _ _ = Some ?s |- context [books ?s] => rewrite (books_mark_depth _ _ _ H)
  | H : mark_submit _ _ = Some ?s |- context [books ?s] => rewrite (books_mark_submit _ _ _ H)
  | H : mark_complete _ _ = Some ?s |- context [books ?s] => rewrite (books_mark_complete _ _ _ H)
  | H : upd_unit _ _ _ = Some ?s |- context [books ?s] => rewrite (books_upd _ _ _ _ H)
  | H : count_total _ _ = Some ?s |- context [books ?s] => rewrite (books_count_total _ _ _ H)
  | H : td_io_commit o _ 0 = Some ?s |- context [books ?s] => rewrite (books_commit _ _ H)
  | |- context [books (with_flight ?s _ _)] => change (books (with_flight s _ _)) with (books s)
  | |- context [books (with_lists ?s _ _ _)] => change (books (with_lists s _ _ _)) with (books s)
  end.

(** One counter moves by [n] at [d]. *)
Definition bumped (l l' : list Z) (d n : Z) : Prop :=
  length l' = length l /\ forall k, 0 <= k -> at_ l' k = if k =? d then u64 (at_ l d + n) else at_ l k.

Lemma add_at_bumped l d n l' : add_at l d n = Some l' -> bumped l l' d n.
Proof.
  intros H. assert (Hd : 0 <= d < Z.of_nat (length l)).
  { unfold add_at in H. inv_opt. by eapply arr_get_bounds. }
  destruct (add_at_ok l d n Hd) as (l2 & E & Hl & Hg). rewrite H in E. injection E as <-. by split.
Qed.

(** Handing a unit over: the bytes are counted as issued, nothing else moves. *)
Lemma books_queue s i u a s' r : unit_at s i = Some u -> ddir_rw (acct_ddir u) = true ->
  a_error a = 0 -> a_ret a = FIO_Q_COMPLETED \/ a_ret a = FIO_Q_QUEUED -> isset (flags u) IO_U_F_VER_LIST = false ->
  td_io_queue o s i a 0 = Some (s', r) ->
  r = a_ret a /\ errs s' = errs s /\ bumped (io_issue_bytes (acc s)) (io_issue_bytes (acc s')) (acct_ddir u) (xfer_buflen u) /\
  this_io_bytes (acc s') = this_io_bytes (acc s) /\ td_bytes_done (acc s') = td_bytes_done (acc s) /\ fs s' = fs s.
Proof.
  intros Hi Hrw He Hret Hv. unfold td_io_queue. rewrite Hi. cbn [mbind option_bind]. intros H. inv_opt.
  assert (Hbusy : (a_ret a =? FIO_Q_BUSY) = false) by (unfold FIO_Q_BUSY, FIO_Q_COMPLETED, FIO_Q_QUEUED in *; lia).
  rewrite Hbusy in *. cbn [andb] in *. inv_opt. cbn [error with_result] in *. rewrite He in *. cbn [Z.eqb negb andb] in *.
  rewrite Hv in *. unfold issue in E3. rewrite Hrw in E3. inv_opt.
  assert (Hb : forall t, books t = (errs s, x7, this_io_bytes (acc s), td_bytes_done (acc s), fs s) ->
    errs t = errs s /\ bumped (io_issue_bytes (acc s)) (io_issue_bytes (acc t)) (acct_ddir u) (xfer_buflen u) /\
    this_io_bytes (acc t) = this_io_bytes (acc s) /\ td_bytes_done (acc t) = td_bytes_done (acc s) /\ fs t = fs s).
  { intros t [= -> -> -> -> ->]. split_and!; try done. by apply add_at_bumped. }
  assert (H6 : books x5 = (errs s, x7, this_io_bytes (acc s), td_bytes_done (acc s), fs s)).
  { destruct (negb (has_commit o) || _); inv_opt; by books_back. }
  destruct Hret as [Er|Er]; rewrite Er in *.
  - change (FIO_Q_COMPLETED =? FIO_Q_COMPLETED) with true in H. cbv iota in H. inv_opt. split; [done|]. apply Hb. rewrite <- H6.
    destruct (ddir_rw _ || _); inv_opt; by books_back.
  - change (FIO_Q_QUEUED =? FIO_Q_COMPLETED) with false in H. change (FIO_Q_QUEUED =? FIO_Q_QUEUED) with true in H. cbv iota in H.
    inv_opt. split; [done|]. apply Hb. rewrite <- H6. destruct (iodepth_batch o <=? _); inv_opt; by books_back.
Qed.

(** Completing a unit: its bytes are counted as done. *)
Lemma books_completed s i u c s' c' (n := u32 (buflen u - resid u)) : unit_at s i = Some u -> ddir_rw (ddir u) = true -> error u = 0 ->
  isset (flags u) IO_U_F_VER_LIST = false -> icd_error c = 0 -> io_completed o s i c = Some (s', c') ->
  errs s' = errs s /\ io_issue_bytes (acc s') = io_issue_bytes (acc s) /\ td_bytes_done (acc s') = td_bytes_done (acc s) /\
  bumped (this_io_bytes (acc s)) (this_io_bytes (acc s')) (ddir u) n /\
  icd_error c' = 0 /\ bumped (icd_bytes c) (icd_bytes c') (ddir u) n /\ fs s' = fs s.
Proof.
  intros Hi Hrw He Hv Hc. unfold io_completed. rewrite Hi. cbn [mbind option_bind]. intros H. inv_opt.
  assert (Hsy : ddir_sync (ddir u) = false).
  { apply rw_bounds in Hrw. unfold ddir_sync, DDIR_SYNC, DDIR_DATASYNC, DDIR_SYNC_FILE_RANGE. lia. }
  rewrite Hsy in H. cbn [error io_u_clear with_flags] in H. rewrite He, Hrw in H. cbn [Z.eqb andb] in H. inv_opt.
  cbn [icd_error] in H. rewrite Hc in H. cbn [Z.eqb negb] in H. inv_opt.
  unfold count_done in E2. assert (Hv' : isset (flags (io_u_clear u (Z.lor IO_U_F_FLIGHT IO_U_F_BUSY_OK))) IO_U_F_VER_LIST = false)
    by (uflags; done).
  rewrite Hv' in E2. inv_opt. pose proof (books_upd _ _ _ _ E0) as [= B1 B2 B3 B4 B5].
  cbn [with_acc with_last acc errs fs io_issue_bytes this_io_bytes td_bytes_done icd_error icd_bytes] in *. rewrite B1, B2, <- B3, B4.
  split_and!; try done; by apply add_at_bumped.
Qed.
End books.

(** ** Which units an operation touches *)
Definition only (i : Z) (s s' : td) : Prop := forall j, j <> i -> unit_at s' j = unit_at s j.

Lemma only_trans i s1 s2 s3 : only i s1 s2 -> only i s2 s3 -> only i s1 s3.
Proof. intros H1 H2 j Hj. by rewrite H2, H1. Qed.

Lemma only_upd s i u s' : upd_unit s i u = Some s' -> only i s s'.
Proof.
  unfold upd_unit. intros H. inv_opt. intros j Hj. unfold unit_at. simpl.
  apply arr_set_inv in E as [Hi ->]. unfold arr_get in *. destruct (Z.leb_spec 0 j); [|done].
  apply list_lookup_insert_ne. lia.
Qed.

Lemma only_same i s s' : units s' = units s -> only i s s'.
Proof. intros E j _. unfold unit_at. by rewrite E. Qed.

Lemma units_mark_complete s n s' : mark_complete s n = Some s' -> units s' = units s.
Proof. unfold mark_complete. intros H. inv_opt. destruct x as [m t]. inv_opt. done. Qed.

Lemma unit_at_leave s u j : unit_at (leave_depth s u) j = unit_at s j.
Proof. unfold leave_depth. by destruct (isset _ _). Qed.

Section touched.
Context (o : options).

Lemma only_put s i s' : put_io_u o s i = Some s' -> only i s s'.
Proof.
  unfold put_io_u. intros H. inv_opt.
  assert (U0 : units x0 = units s).
  { destruct (file x) as [f|]; [|by inv_opt]. destruct (negb _); [|by inv_opt]. unfold put_file_log in E0. inv_opt.
    destruct x3 as [g r]. inv_opt. destruct (negb (r =? 0)); [|done]. unfold td_verror. by destruct (negb _). }
  intros j Hj. change (unit_at (with_lists ?s _ _ _) j) with (unit_at s j).
  rewrite unit_at_leave, (only_upd _ _ _ _ E1 j Hj). unfold unit_at. by rewrite U0.
Qed.

Lemma only_completed s i u c s' c' : unit_at s i = Some u -> error u = 0 -> ddir_rw (ddir u) = true -> icd_error c = 0 ->
  io_completed o s i c = Some (s', c') -> only i s s'.
Proof.
  intros Hi He Hrw Hc. unfold io_completed. rewrite Hi. cbn [mbind option_bind]. intros H. inv_opt.
  assert (Hsy : ddir_sync (ddir u) = false).
  { apply rw_bounds in Hrw. unfold ddir_sync, DDIR_SYNC, DDIR_DATASYNC, DDIR_SYNC_FILE_RANGE. lia. }
  rewrite Hsy in H. cbn [error io_u_clear with_flags] in H. rewrite He, Hrw in H. cbn [Z.eqb andb] in H. inv_opt.
  cbn [icd_error] in H. rewrite Hc in H. cbn [Z.eqb negb] in H. inv_opt. unfold count_done in E2. inv_opt.
  intros j Hj. change (unit_at (with_acc (with_last x0 _ _) _) j) with (unit_at x0 j). by apply (only_upd _ _ _ _ E0).
Qed.
End touched.

(** ** A job under way

    [k] units of [bs] bytes have been issued in direction [d]; [F] are free, [E]
    are with the engine; the job had done [B0] before. *)
Section job.
Context (o : options) (depth d bs : Z) (B0 : list Z).
Hypothesis quiet_close : closes_quietly o.
Hypothesis rw : ddir_rw d = true.
Hypothesis block : 0 < bs < 2 ^ 32.

(** What the job's files keep as units let go of them. *)
Context (alive : files_td -> Prop).
Hypothesis alive_put : forall g i g' r, alive g -> put_file g i (close_answer o) = Some (g', r) -> alive g'.

Lemma alive_put_unit s i s' : alive (fs s) -> put_io_u o s i = Some s' -> alive (fs s').
Proof. intros Ha H. apply files_put in H as [->|(f & r & H)]; [done|]. by eapply alive_put. Qed.

Definition plain (s : td) (i : Z) : Prop :=
  exists u, unit_at s i = Some u /\ ddir u = d /\ acct_ddir u = d /\ buflen u = bs /\ xfer_buflen u = bs.

(** The bytes of direction [d] that [m] units make. *)
Definition share (m k : Z) : Z := if k =? d then bs * m else 0.

Record going (k : Z) (s : td) (F E : list Z) : Prop := {
  g_life : life_ok depth s F [] E 0;
  g_acct : exists failed, acct_ok s E failed;
  g_err : td_error (errs s) = 0 /\ td_terminate (errs s) = false;
  g_issue : forall j, 0 <= j < 3 -> at_ (io_issue_bytes (acc s)) j = share k j;
  g_this : forall j, 0 <= j < 3 -> at_ (this_io_bytes (acc s)) j = share (k - Z.of_nat (length E)) j;
  g_done : forall j, 0 <= j < 3 -> at_ (td_bytes_done (acc s)) j = at_ B0 j + share (k - Z.of_nat (length E)) j;
  g_files : alive (fs s);
  g_plain : forall i, i ∈ E -> plain s i;
  g_le : Z.of_nat (length E) <= k
}.

Context (n : Z).
Hypothesis room : forall j, 0 <= j < 3 -> 0 <= at_ B0 j /\ at_ B0 j + bs * n < 2 ^ 64.

Definition clean_events (l : list event) : Prop := Forall (fun e => ev_resid e = 0 /\ ev_error e = 0) l.

(** One event: the unit's bytes are done, and the unit is free. *)
Lemma event_books s e c s1 s2 c' s3 : plain s (ev_unit e) -> ev_resid e = 0 /\ ev_error e = 0 -> icd_error c = 0 ->
  (forall u, unit_at s (ev_unit e) = Some u -> isset (flags u) IO_U_F_VER_LIST = false) ->
  take_event s e = Some s1 -> io_completed o s1 (ev_unit e) c = Some (s2, c') -> put_io_u o s2 (ev_unit e) = Some s3 ->
  errs s3 = errs s /\ io_issue_bytes (acc s3) = io_issue_bytes (acc s) /\ td_bytes_done (acc s3) = td_bytes_done (acc s) /\
  bumped (this_io_bytes (acc s)) (this_io_bytes (acc s3)) d bs /\ icd_error c' = 0 /\ bumped (icd_bytes c) (icd_bytes c') d bs /\
  only (ev_unit e) s s3 /\ (alive (fs s) -> alive (fs s3)).
Proof.
  intros (u&Hu&Hd&Ha&Hb&Hx) [Hr He] Hc Hv H1 H2 H3. unfold take_event in H1. rewrite Hu in H1. cbn [mbind option_bind] in H1.
  assert (Hu1 : unit_at s1 (ev_unit e) = Some (with_result u (ev_resid e) (ev_error e))).
  { rewrite (unit_at_upd _ _ u) in H1 by done. injection H1 as <-. by eapply unit_at_insert. }
  pose proof (books_upd _ _ _ _ H1) as [= B1 B2 B3 B4 B5].
  destruct (books_completed o s1 (ev_unit e) _ c s2 c' Hu1) as (C1&C2&C3&C4&C5&C6&C7); try done.
  { cbn. by rewrite Hd. } { by apply (Hv u). }
  pose proof (entries_put o _ _ _ quiet_close H3) as [= D1 D2 D3 D4].
  cbn [with_result buflen resid ddir] in C4, C6. rewrite Hb, Hr, Hd, Z.sub_0_r, wrap_small in C4, C6 by (unfold uint; lia).
  rewrite B3 in C4. rewrite D1, D2, D4, C1, C2, C3, B1, B2, B4, D3. split_and!; try done.
  2:{ intros Hal. eapply alive_put_unit; [|exact H3]. by rewrite C7, B5. }
  eapply only_trans; [by eapply only_upd|]. eapply only_trans; [|by eapply only_put].
  apply (only_completed o s1 _ _ c s2 c' Hu1); [exact He|cbn; by rewrite Hd|exact Hc|exact H2].
Qed.

(** [m] units' worth more in direction [d]. *)
Definition grown_by (l l' : list Z) (m : Z) : Prop :=
  length l' = length l /\ forall j, 0 <= j < 3 -> at_ l' j = u64 (at_ l j + share m j).

Lemma grown_refl l : length l = 3%nat -> (forall j, 0 <= j < 3 -> uint 64 (at_ l j)) -> grown_by l l 0.
Proof.
  intros _ Hu. split; [done|]. intros j Hj. unfold share. rewrite Z.mul_0_r. destruct (j =? d); rewrite Z.add_0_r;
    symmetry; by apply wrap_small, Hu.
Qed.

Lemma bumped_grown l l' l'' m : (forall j, 0 <= j < 3 -> uint 64 (at_ l j)) -> bumped l l' d bs -> grown_by l' l'' m -> grown_by l l'' (m + 1).
Proof.
  intros Hu [Hl Hb] [Hl' Hg]. split; [congruence|]. intros j Hj. rewrite Hg, Hb by lia. unfold share.
  destruct (Z.eqb_spec j d) as [->|]; [|by rewrite !Z.add_0_r].
  rewrite wrap_add_l by lia. f_equal. lia.
Qed.
Lemma events_books : forall evs s c s' c', NoDup (ev_units evs) -> (forall i, i ∈ ev_units evs -> plain s i) ->
  (forall i u, i ∈ ev_units evs -> unit_at s i = Some u -> isset (flags u) IO_U_F_VER_LIST = false) ->
  clean_events evs -> icd_error c = 0 -> length (this_io_bytes (acc s)) = 3%nat -> length (icd_bytes c) = 3%nat ->
  (forall j, 0 <= j < 3 -> uint 64 (at_ (this_io_bytes (acc s)) j) /\ uint 64 (at_ (icd_bytes c) j)) ->
  ios_completed o s evs c = Some (s', c') ->
  errs s' = errs s /\ io_issue_bytes (acc s') = io_issue_bytes (acc s) /\ td_bytes_done (acc s') = td_bytes_done (acc s) /\
  grown_by (this_io_bytes (acc s)) (this_io_bytes (acc s')) (Z.of_nat (length evs)) /\ icd_error c' = 0 /\
  grown_by (icd_bytes c) (icd_bytes c') (Z.of_nat (length evs)) /\ (forall j, j ∉ ev_units evs -> unit_at s' j = unit_at s j) /\
  (alive (fs s) -> alive (fs s')).
Proof.
  induction evs as [|e evs IH]; intros s c s' c' Hnd Hpl Hv Hcl Hc Hlt Hlc Hu H; cbn [ios_completed] in H.
  - injection H as <- <-. split_and!; try done; apply grown_refl; try done; intros; by apply Hu.
  - inv_opt. destruct x0 as [s2 c2]. inv_opt. cbn [ev_units fmap list_fmap] in *.
    apply list.NoDup_cons in Hnd as [Hni Hnd]. apply Forall_cons_iff in Hcl as [He Hcl].
    destruct (event_books s e c x s2 c2 x0) as (A1&A2&A3&A4&A5&A6&A7&A8); try done.
    { apply Hpl. by left. } { intros u. apply Hv. by left. }
    assert (Hne : forall i, i ∈ ev_units evs -> unit_at x0 i = unit_at s i) by (intros i Hi; apply A7; by intros ->).
    destruct (IH x0 c2 s' c') as (B1&B2&B3&B4&B5&B6&B7&B8); try done.
    + intros i Hi. destruct (Hpl i) as (u&Hiu&?); [by right|]. exists u. by rewrite Hne.
    + intros i u Hi Hiu. rewrite Hne in Hiu by done. apply (Hv i); [by right|done].
    + destruct A4 as [-> _]. done.
    + destruct A6 as [-> _]. done.
    + intros j Hj. destruct A4 as [_ A4], A6 as [_ A6]. rewrite A4, A6 by lia.
      destruct (j =? d); [split; by apply wrap_uint|by apply Hu].
    + rewrite B1, B2, B3, A1, A2, A3. cbn [length]. rewrite Nat2Z.inj_succ, <- Z.add_1_r.
      split_and!; try done; [by eapply bumped_grown; [intros; by apply Hu|..]..| |by auto].
      intros j Hj. apply not_elem_of_cons in Hj as [Hj1 Hj2]. rewrite B7 by done. by apply A7.
Qed.

Lemma getevents_clean s F E mn mx l failed : life_ok depth s F [] E 0 -> acct_ok s E failed ->
  let mx' := if cur_depth s <? mx then cur_depth s else mx in
  let eff := if mx' <? mn then mn else mx' in
  let l' := if eff =? 0 then [] else l in
  exists s', td_io_getevents o s mn mx 0 (Events l) = Some (s', Events l') /\ books s' = books s /\ quiet s s' /\
    life_ok depth s' F [] E (Z.of_nat (length l')).
Proof.
  intros Hs Ha mx' eff l'. destruct (getevents_ok depth o s F [] E 0 mn mx 0 (Events l) failed Hs Ha) as (s' & r & E1 & Q & Hr).
  assert (Er : r = Events l' /\ books s' = books s).
  { revert E1. unfold td_io_getevents. change (0 <? 0) with false. rewrite andb_false_r. cbv iota. fold mx'. fold eff.
    replace (if eff =? 0 then Events [] else Events l) with (Events l') by (unfold l'; by destruct (eff =? 0)).
    intros E1. inv_opt. split; [done|]. rewrite (books_mark_complete _ _ _ E0). done. }
  destruct Er as [-> Hb]. exists s'. split; [done|]. split; [done|]. split; [done|].
  destruct Hr as [(e & ? & _)|(l2 & [= <-] & _ & H)]; [done|]. by rewrite Z.add_0_l in H.
Qed.

(** Adding up [bytes_done] at the end of a batch. *)
Lemma add_done_books s c s' m : length (td_bytes_done (acc s)) = 3%nat -> length (icd_bytes c) = 3%nat ->
  grown_by (icd_bytes init_icd) (icd_bytes c) m -> add_bytes_done s c = Some s' ->
  errs s' = errs s /\ io_issue_bytes (acc s') = io_issue_bytes (acc s) /\ this_io_bytes (acc s') = this_io_bytes (acc s) /\
  units s' = units s /\ fs s' = fs s /\ forall j, 0 <= j < 3 -> at_ (td_bytes_done (acc s')) j = u64 (at_ (td_bytes_done (acc s)) j + share m j).
Proof.
  intros Hl Hlc [_ Hg]. unfold add_bytes_done. intros H. inv_opt. split_and!; try done.
  cbn [with_acc acc td_bytes_done]. intros j Hj.
  assert (Hv : forall k x, arr_get (icd_bytes c) k = Some x -> 0 <= k < 3 -> x = u64 (share m k)).
  { intros k y Hk Hr. specialize (Hg k Hr). unfold at_ in Hg at 1. rewrite Hk in Hg. simpl in Hg. rewrite Hg. f_equal.
    assert (at_ [0; 0; 0] k = 0) as -> by (assert (k = 0 \/ k = 1 \/ k = 2) as [-> | [-> | ->]] by lia; reflexivity). lia. }
  apply Hv in E, E1, E3; [|lia..]. subst.
  apply add_at_bumped in E0 as [_ B0'], E2 as [_ B2'], E4 as [_ B4'].
  rewrite B4' by lia. rewrite (B2' j), (B2' 2) by lia. rewrite (B0' j), (B0' 1), (B0' 2) by lia.
  assert (j = 0 \/ j = 1 \/ j = 2) as [-> | [-> | ->]] by lia; cbn [Z.eqb Pos.eqb]; by rewrite wrap_add_r by lia.
Qed.

Lemma share_add a b j : share a j + share b j = share (a + b) j.
Proof. unfold share. destruct (j =? d); lia. Qed.

Lemma share_range a j : 0 <= a <= n -> 0 <= share a j <= bs * n.
Proof. unfold share. destruct (j =? d); nia. Qed.

(** Reaping: what the engine hands back is done and free again. *)
Lemma reap_clean k s F E mn mx l : going k s F E -> 0 <= k <= n -> NoDup (ev_units l) -> (forall i, i ∈ ev_units l -> i ∈ E) ->
  clean_events l ->
  let mn' := if negb (mn =? 0) && (cur_depth s <? mn) then cur_depth s else mn in
  let mx' := if cur_depth s <? mx then cur_depth s else mx in
  let l' := if (if mx' <? mn' then mn' else mx') =? 0 then [] else l in
  exists s' E', io_u_queued_complete o s mn mx 0 (Events l) = Some (s', Z.of_nat (length l')) /\
    E ≡ₚ ev_units l' ++ E' /\ going k s' (F ++ ev_units l') E'.
Proof.
  intros [Hs [failed Ha] Herr Hiss Hthis Hdone Hfs Hpl Hle] Hk Hnd Hin Hcl mn' mx' l'.
  assert (Hnd' : NoDup (ev_units l') /\ (forall i, i ∈ ev_units l' -> i ∈ E) /\ clean_events l').
  { unfold l'. destruct ((if mx' <? mn' then mn' else mx') =? 0); [|by split_and!]. split; [constructor|]. split; [intros i Hi; by apply elem_of_nil in Hi|constructor]. }
  clear Hnd Hin Hcl. destruct Hnd' as (Hnd & Hin & Hcl).
  unfold io_u_queued_complete. fold mn'.
  destruct (getevents_clean s F E mn' mx l failed Hs Ha) as (s1 & E1 & Hb1 & Q1 & H1). cbn zeta in E1, H1. fold mx' in E1, H1.
  fold l' in E1, H1. rewrite E1. cbn [mbind option_bind]. clear E1. pose proof Hb1 as [= B1 B2 B3 B4 B5]. destruct Q1 as (U1 & I1 & I2).
  assert (HE : exists E0, E ≡ₚ ev_units l' ++ E0) by (apply submseteq_Permutation, NoDup_submseteq; done).
  destruct HE as [E0 HE]. assert (Hlen : Z.of_nat (length E) = Z.of_nat (length l') + Z.of_nat (length E0)).
  { rewrite HE, length_app. unfold ev_units. rewrite length_fmap. lia. }
  pose proof (acct_quiet _ s1 _ _ Ha (conj U1 (conj I1 I2))) as Ha1.
  destruct l' as [|e l0] eqn:El.
  - exists s1, E. split; [done|]. split; [done|]. rewrite app_nil_r. split; rewrite ?B1, ?B2, ?B3, ?B4, ?B5; try done; [by exists failed|].
    intros i Hi. destruct (Hpl i Hi) as (u & Hu & ?). exists u. split; [|done]. unfold unit_at. by rewrite U1.
  - rewrite <- El in *. clear El.
    assert (H2 := life_ok_perm _ _ _ _ _ _ _ H1 HE). assert (A2 := acct_perm _ _ _ _ Ha1 HE).
    destruct (ios_completed_ok depth o l' s1 F [] E0 _ init_icd failed H2 A2) as (s2 & c2 & E2 & Hc2 & H3 & _ & A3 & U3); [done|].
    rewrite E2. cbn [mbind option_bind]. rewrite Z.sub_diag in H3.
    destruct (lo_shape _ _ _ _ _ _ Hs) as (L1 & L2 & L3 & L4 & L5 & L6 & L7 & L8 & _).
    destruct (lo_shape _ _ _ _ _ _ H3) as (_ & _ & _ & _ & _ & _ & _ & M8 & _).
    destruct (events_books l' s1 init_icd s2 c2) as (C1 & C2 & C3 & C4 & C5 & C6 & C7 & C8); try done.
    + intros i Hi. destruct (Hpl i (Hin i Hi)) as (u & Hu & ?). exists u. split; [|done]. unfold unit_at. by rewrite U1.
    + intros i u _ Hu. exact (uo_ver _ _ _ _ _ (us_units _ _ _ _ _ (lo_units _ _ _ _ _ _ H1) i u Hu)).
    + by rewrite B3.
    + intros j Hj. rewrite B3, Hthis by done. pose proof (share_range (k - Z.of_nat (length E)) j ltac:(lia)).
      destruct (room j Hj). split; [unfold uint; lia|]. assert (at_ (icd_bytes init_icd) j = 0) as -> by (assert (j = 0 \/ j = 1 \/ j = 2) as [-> | [-> | ->]] by lia; reflexivity). unfold uint. lia.
    + assert (Hfin : exists s3, add_bytes_done s2 c2 = Some s3 /\ life_ok depth s3 (F ++ ev_units l') [] E0 0 /\ quiet s2 s3).
      { destruct (finish_icd_ok depth s2 _ _ _ _ c2 0 H3 Hc2) as (s3 & r & E3 & H4 & Q4 & _ & _). unfold finish_icd in E3.
        rewrite C5 in E3. cbn [Z.eqb negb] in E3. inv_opt. by exists s3. }
      destruct Hfin as (s3 & E3 & H4 & Q4). unfold finish_icd. rewrite C5. cbn [Z.eqb negb]. rewrite E3. cbn [mbind option_bind].
      destruct (add_done_books s2 c2 s3 (Z.of_nat (length l')) M8 Hc2 C6 E3) as (D1 & D2 & D3 & D4 & D6 & D5).
      exists s3, E0. split; [done|]. split; [done|].
      split; rewrite ?D1, ?D2, ?D3, ?D6, ?C1, ?C2, ?B1, ?B2; try done; [| | |by apply C8; rewrite B5| |].
      * eexists. eapply acct_quiet; done.
      * intros j Hj. destruct C4 as [_ C4]. rewrite C4, B3, Hthis, share_add by done.
        replace (k - Z.of_nat (length E) + Z.of_nat (length l')) with (k - Z.of_nat (length E0)) by lia.
        apply wrap_small. pose proof (share_range (k - Z.of_nat (length E0)) j ltac:(lia)). destruct (room j Hj). unfold uint. lia.
      * intros j Hj. rewrite D5, C3, B4, Hdone, <- Z.add_assoc, share_add by done.
        replace (k - Z.of_nat (length E) + Z.of_nat (length l')) with (k - Z.of_nat (length E0)) by lia.
        apply wrap_small. pose proof (share_range (k - Z.of_nat (length E0)) j ltac:(lia)). destruct (room j Hj). unfold uint. lia.
      * intros i Hi. destruct (Hpl i) as (u & Hu & ?); [rewrite HE; apply elem_of_app; by right|]. exists u. split; [|done].
        unfold unit_at. rewrite D4. fold (unit_at s2 i). rewrite C7; [unfold unit_at; by rewrite U1|].
        intros Hi'. pose proof (us_eng _ _ _ _ _ (lo_units _ _ _ _ _ _ H2)) as Hn2. apply list.NoDup_app in Hn2 as (_ & Hn2 & _). by eapply Hn2.
      * lia.
Qed.
End job.

(** ** One unit *)
Lemma errs_upd s i u s' : upd_unit s i u = Some s' -> errs s' = errs s.
Proof. intros H. by injection (books_upd _ _ _ _ H). Qed.

Lemma get_unit_errs o s s' r : __get_io_u o false s = Some (s', r) -> errs s' = errs s /\ fs s' = fs s.
Proof.
  unfold __get_io_u. intros H. inv_opt. destruct x as [s1 i].
  assert (Hu : forall t i u t', upd_unit t i u = Some t' -> errs t' = errs t /\ fs t' = fs t)
    by (intros t k u t' Ht; by pose proof (books_upd _ _ _ _ Ht) as [= ? _ _ _ ?]).
  assert (Hs : errs s1 = errs s /\ fs s1 = fs s).
  { destruct (negb (io_u_rempty _)); [inv_opt; destruct x as [q j]; inv_opt; done|].
    destruct (negb _); inv_opt; [|done]. destruct x as [q j]. inv_opt.
    match goal with H : upd_unit _ _ _ = Some _ |- _ => apply Hu in H as [-> ->]; done end. }
  destruct Hs as [<- <-]. destruct i as [i|]; inv_opt; [|done].
  match goal with H : upd_unit _ _ _ = Some _ |- _ => apply Hu in H as [-> ->]; done end.
Qed.

Lemma units_count_total s d s' : count_total s d = Some s' -> units s' = units s.
Proof. unfold count_total. intros H. destruct (_ || _); inv_opt; done. Qed.
Lemma units_mark_depth s n s' : mark_depth s n = Some s' -> units s' = units s.
Proof. unfold mark_depth. intros H. inv_opt. done. Qed.
Lemma units_mark_submit s n s' : mark_submit s n = Some s' -> units s' = units s.
Proof. unfold mark_submit. intros H. inv_opt. destruct x as [m t]. inv_opt. done. Qed.
Lemma units_commit o s c s' : td_io_commit o s c = Some s' -> units s' = units s.
Proof.
  unfold td_io_commit. destruct (_ || _); intros H; inv_opt; [done|]. simpl. rewrite <- (units_mark_depth _ _ _ E).
  destruct (_ && _); [|done]. unfold td_verror. by destruct (negb _).
Qed.

(** Trace the units of a state back through operations that leave them alone. *)
Ltac units_back :=
  repeat match goal with
  | H : mark_depth _ _ = Some ?s |- context [units ?s] => rewrite (units_mark_depth _ _ _ H)
  | H : mark_submit _ _ = Some ?s |- context [units ?s] => rewrite (units_mark_submit _ _ _ H)
  | H : mark_complete _ _ = Some ?s |- context [units ?s] => rewrite (units_mark_complete _ _ _ H)
  | H : count_total _ _ = Some ?s |- context [units ?s] => rewrite (units_count_total _ _ _ H)
  | H : td_io_commit _ _ _ = Some ?s |- context [units ?s] => rewrite (units_commit _ _ _ _ H)
  | |- context [units (with_flight ?s _ _)] => change (units (with_flight s _ _)) with (units s)
  end.

Lemma units_queue o s i u a c s' r : unit_at s i = Some u -> a_ret a <> FIO_Q_BUSY -> a_error a = 0 ->
  td_io_queue o s i a c = Some (s', r) ->
  units s' = <[Z.to_nat i := with_result (io_u_set u IO_U_F_FLIGHT) (a_resid a) 0]> (units s).
Proof.
  intros Hi Hb He. unfold td_io_queue. rewrite Hi. cbn [mbind option_bind]. intros H. inv_opt.
  rewrite (proj2 (Z.eqb_neq _ _) Hb) in *. cbn [andb] in *. inv_opt. cbn [error with_result] in *. rewrite He in *. cbn [Z.eqb negb andb] in *.
  match goal with H : issue _ _ _ _ = Some ?t |- _ => assert (Ui : units t = units s) by (unfold issue in H; destruct (ddir_rw _); inv_opt; done) end.
  match goal with H : upd_unit ?t i ?v = Some ?t' |- _ => assert (Uu : units t' = <[Z.to_nat i := v]> (units s))
    by (unfold upd_unit in H; inv_opt; simpl; rewrite Ui in *;
        match goal with K : arr_set _ _ _ = Some _ |- _ => by apply arr_set_inv in K as [_ ->] end); rewrite <- Uu; clear Uu Ui H end.
  assert (Hm : units x5 = units x4) by (destruct (negb (has_commit o) || _); inv_opt; by units_back). rewrite <- Hm. clear Hm.
  destruct (a_ret a =? FIO_Q_COMPLETED); [|destruct (a_ret a =? FIO_Q_QUEUED)]; inv_opt; [| |done].
  - destruct (ddir_rw _ || _); inv_opt; by units_back.
  - destruct (iodepth_batch o <=? _); inv_opt; by units_back.
Qed.

Section unit.
Context (o : options) (depth d bs : Z) (B0 : list Z) (n : Z).
Hypothesis quiet_close : closes_quietly o.
Hypothesis rw : ddir_rw d = true.
Hypothesis block : 0 < bs < 2 ^ 32.
Hypothesis room : forall j, 0 <= j < 3 -> 0 <= at_ B0 j /\ at_ B0 j + bs * n < 2 ^ 64.
Hypothesis no_target : latency_target o = false.
Hypothesis no_serial : serialize_overlap o = false.
Context (pick_file : files_td -> option (files_td * pick)).
(** The file service finds a file as long as some are [alive]. *)
Context (alive : files_td -> Prop).
Hypothesis finds : forall g h, files_ok g h -> alive g ->
  exists g' f, pick_file g = Some (g', PickFile f) /\ files_ok g' (f :: h) /\ alive g'.
Hypothesis alive_put : forall g i g' r, alive g -> put_file g i (close_answer o) = Some (g', r) -> alive g'.

Abbreviation going := (going depth d bs B0 alive).

Lemma full_iff s F E x : life_ok depth s F [] E x -> is_full o s = bool_decide (F = []).
Proof.
  intros Hs. destruct (lo_queues _ _ _ _ _ _ Hs) as (_ & Hqw & _ & Hqs & _).
  pose proof (stacked_length _ Hqw) as Hsl. rewrite Hqs, length_fmap in Hsl. unfold is_full, queue_full, io_u_qempty.
  rewrite no_target. cbn [andb orb]. destruct F; cbn [length] in Hsl.
  - rewrite bool_decide_eq_true_2 by done. rewrite (proj2 (Z.eqb_eq _ _)) by lia. done.
  - rewrite bool_decide_eq_false_2 by done. rewrite (proj2 (Z.eqb_neq _ _)) by lia. done.
Qed.

(** A held unit, ready to go. *)
Definition ready (s : td) (i : Z) : Prop := plain d bs s i /\ exists u f, unit_at s i = Some u /\ file u = Some f.

Lemma get_clean k s F E off : going k s F E -> F <> [] ->
  exists s' i F', get_io_u o false s pick_file (d, off, bs) 0 = Some (s', inl (Some i)) /\ F = F' ++ [i] /\ i ∉ F' /\ i ∉ E /\
    ready s' i /\ going k s' F' E.
Proof.
  intros [Hs [failed Ha] Herr Hiss Hthis Hdone Hfs Hpl Hle] HF. unfold get_io_u.
  destruct (get_unit_ok depth o false s F [] E 0 Hs) as (s1 & r & E1 & A1 & M1 & SF1 & Hr). rewrite E1. cbn [mbind option_bind].
  destruct (get_unit_errs _ _ _ _ E1) as [Ee Ef]. destruct r as [i|].
  2:{ destruct Hr as [_ [?|[_ Hfull]]]; [done|]. exfalso. pose proof (full_iff s F E 0 Hs) as Hf. unfold is_full in Hf.
      rewrite Hfull, bool_decide_eq_false_2 in Hf by done. done. }
  destruct Hr as (F' & R' & u & H1 & Hi & Hf & He & Hcase & Hoth). rewrite Hi. cbn [mbind option_bind].
  destruct Hcase as [(? & _)|(_ & -> & -> & Hfile)]; [done|]. rewrite Hfile. rewrite app_nil_r in Hf.
  rewrite <- Ef in Hfs. destruct (finds (fs s1) _ (lo_files _ _ _ _ _ _ H1) Hfs) as (g & f & -> & Hg & Hal). cbn [mbind option_bind].
  rewrite (unit_at_upd (with_fs s1 g) i u) by done. cbn [mbind option_bind].
  destruct (held_open g f _ Hg) as (fl & Efl & Eop). rewrite Efl. cbn [mbind option_bind]. rewrite Eop. cbn [mbind option_bind assert].
  rewrite (proj2 (Z.eqb_neq bs 0)), andb_false_r by lia. cbn [mbind option_bind]. change (0 =? 0) with true. cbv iota.
  set (u2 := IoUnit (Some f) (flags u) d d bs off bs (resid u) (error u)). cbn [units with_fs].
  pose proof (rw_bounds d rw) as Hd.
  assert (H2 : life_ok depth (with_units (with_fs s1 g) (<[Z.to_nat i := u2]> (units s1))) F' [] E 0)
    by (eapply life_assign; rewrite ?app_nil_r; try done; simpl; lia).
  set (s2 := with_units _ _) in *. assert (Hi2 : unit_at s2 i = Some u2) by (by eapply (unit_at_insert (with_fs s1 g))).
  assert (Hother : forall j, j ∈ E -> unit_at s2 j = unit_at s j).
  { intros j Hj. assert (j <> i) by (by intros ->). rewrite <- Hoth by done.
    eapply (unit_at_other s1); [by eapply arr_get_bounds|done|done]. }
  exists s2, i, F'. split; [done|]. split; [done|]. split; [done|]. split; [done|]. split.
  { split; [|by exists u2, f]. exists u2. split_and!; try done. unfold acct_ddir. simpl. by destruct (d =? -1). }
  split; try done; change (acc s2) with (acc s1); change (errs s2) with (errs s1); rewrite ?A1, ?Ee; try done.
  - exists failed. eapply acct_outside; [exact Ha|by change (acc s2) with (acc s1)|done].
  - intros j Hj. destruct (Hpl j Hj) as (v & Hv & ?). exists v. by rewrite Hother.
Qed.

Definition clean_answer (a : answer) : Prop :=
  (a_ret a = FIO_Q_COMPLETED \/ a_ret a = FIO_Q_QUEUED) /\ a_resid a = 0 /\ a_error a = 0.

(** What the queue hook leaves behind: the unit is in flight, its bytes issued. *)
Lemma queue_clean k s F E i a : going k s F E -> 0 <= k < n -> i ∉ F -> i ∉ E -> ready s i -> clean_answer a ->
  exists s1 u1 failed, io_u_submit o s i a 0 = Some (s1, a_ret a) /\ unit_at s1 i = Some u1 /\ resid u1 = 0 /\ error u1 = 0 /\
    xfer_buflen u1 = bs /\ ddir u1 = d /\
    life_ok depth s1 F [] (i :: E) (if a_ret a =? FIO_Q_QUEUED then 0 else 1) /\ acct_ok s1 (i :: E) failed /\
    errs s1 = errs s /\ (forall j, 0 <= j < 3 -> at_ (io_issue_bytes (acc s1)) j = share d bs (k + 1) j) /\
    this_io_bytes (acc s1) = this_io_bytes (acc s) /\ td_bytes_done (acc s1) = td_bytes_done (acc s) /\
    fs s1 = fs s /\ (forall j, j ∈ i :: E -> plain d bs s1 j).
Proof.
  intros [Hs [failed Ha] Herr Hiss Hthis Hdone Hfs Hpl Hle] Hk Hf He [(u & Hi & Hd & Had & Hb & Hx) (u' & f & Hi' & Hfile)] (Hret & Hres & Hae).
  rewrite Hi in Hi'. injection Hi' as <-. unfold io_u_submit. rewrite Hi. cbn [mbind option_bind]. rewrite no_serial. cbn [andb].
  destruct (td_io_queue_step depth o s F [] E i u a 0 failed Hs Ha Hi) as (s1 & u1 & E1 & Hi1 & _ & Had1 & Hd1 & Hr1 & He1 & Hx1 & H1 & A1);
    [by rewrite app_nil_r|done|by exists f|].
  assert (Hnb : a_ret a <> FIO_Q_BUSY) by (unfold FIO_Q_BUSY, FIO_Q_COMPLETED, FIO_Q_QUEUED in *; lia).
  rewrite (proj2 (Z.eqb_neq _ _) Hnb) in H1, A1. cbn [andb orb app] in H1, A1. rewrite orb_false_r in H1.
  pose proof (uo_ver _ _ _ _ _ (us_units _ _ _ _ _ (lo_units _ _ _ _ _ _ Hs) i u Hi)) as Hv.
  destruct (books_queue o s i u a s1 (a_ret a) Hi) as (_ & B1 & [_ B2] & B3 & B4 & B5); [by rewrite Had|done..|].
  pose proof (units_queue o s i u a 0 s1 (a_ret a) Hi Hnb Hae E1) as U1.
  exists s1, u1, failed. rewrite E1. rewrite Hd1, Hr1, He1, Hx1, Hd. split_and!; try done.
  - intros j Hj. rewrite B2 by lia. rewrite Had, Hx. unfold share. destruct (Z.eqb_spec j d) as [->|Hne].
    + rewrite Hiss by done. unfold share. rewrite Z.eqb_refl.
      rewrite wrap_small; [lia|]. destruct (room d Hj). unfold uint. nia.
    + rewrite Hiss by done. unfold share. by rewrite (proj2 (Z.eqb_neq _ _) Hne).
  - intros j Hj. destruct (Z.eq_dec j i) as [->|Hne].
    + exists u1. split; [done|]. split; [by rewrite Hd1|]. split; [by rewrite Had1|]. split; [|by rewrite Hx1].
      unfold unit_at in Hi1. rewrite U1, arr_get_insert, Z.eqb_refl in Hi1 by (by eapply arr_get_bounds).
      injection Hi1 as <-. done.
    + destruct (Hpl j) as (v & Hv' & ?); [apply elem_of_cons in Hj as [?|?]; done|]. exists v. split; [|done].
      rewrite <- Hv'. eapply (unit_at_other s s1 i); [by eapply arr_get_bounds|done|done].
Qed.

(** The state between the queue hook and the look at its answer. *)
Record queued_ok (k : Z) (s1 : td) (F E : list Z) (i : Z) (x : Z) : Prop := {
  q_life : life_ok depth s1 F [] (i :: E) x;
  q_acct : exists failed, acct_ok s1 (i :: E) failed;
  q_err : td_error (errs s1) = 0 /\ td_terminate (errs s1) = false;
  q_issue : forall j, 0 <= j < 3 -> at_ (io_issue_bytes (acc s1)) j = share d bs (k + 1) j;
  q_this : forall j, 0 <= j < 3 -> at_ (this_io_bytes (acc s1)) j = share d bs (k - Z.of_nat (length E)) j;
  q_done : forall j, 0 <= j < 3 -> at_ (td_bytes_done (acc s1)) j = at_ B0 j + share d bs (k - Z.of_nat (length E)) j;
  q_files : alive (fs s1);
  q_plain : forall j, j ∈ i :: E -> plain d bs s1 j;
  q_le : Z.of_nat (length E) <= k;
  q_unit : exists u1, unit_at s1 i = Some u1 /\ resid u1 = 0 /\ error u1 = 0
}.

Lemma unbroken s r : td_error (errs s) = 0 -> 0 <= r -> break_on_this_error o s d r = (s, r, false).
Proof. intros He Hr. unfold break_on_this_error. rewrite He, (proj2 (Z.ltb_ge _ _) Hr). done. Qed.

Lemma share_small a j : 0 <= a <= n -> 0 <= j < 3 -> uint 64 (share d bs a j) /\ uint 64 (at_ B0 j + share d bs a j).
Proof.
  intros Ha Hj. pose proof (share_range d bs block n a j Ha). destruct (room j Hj). unfold uint. lia.
Qed.

Lemma completed_clean k s1 F E i b : queued_ok k s1 F E i 1 -> 0 <= k < n -> i ∉ F ->
  exists s2, io_queue_event o s1 i FIO_Q_COMPLETED d b 0 = Some (s2, 0, b, false) /\ going (k + 1) s2 (F ++ [i]) E.
Proof.
  intros [H1 [failed A1] Herr Hiss Hthis Hdone Hfs Hpl Hle (u1 & Hi & Hr & He)] Hk Hf.
  unfold io_queue_event, queue_event. rewrite Hi. cbn [mbind option_bind]. change (FIO_Q_COMPLETED =? FIO_Q_COMPLETED) with true. cbv iota.
  rewrite Hr, He. change (negb (0 =? 0)) with false. cbv iota.
  destruct (complete_sync_ok depth o s1 F [] E 1 i u1 failed H1 A1 Hi) as (s2 & r & E2 & H2 & A2 & U2 & _); [by rewrite app_nil_r|].
  rewrite E2. cbn [mbind option_bind]. unfold io_u_sync_complete in E2. inv_opt. destruct x as [sa c]. inv_opt.
  destruct (Hpl i) as (v & Hv & Hd & _ & Hb & _); [by left|]. rewrite Hi in Hv. injection Hv as <-.
  pose proof (uo_ver _ _ _ _ _ (us_units _ _ _ _ _ (lo_units _ _ _ _ _ _ H1) i u1 Hi)) as Hver.
  destruct (books_completed o s1 i u1 init_icd sa c Hi) as (C1 & C2 & C3 & C4 & C5 & C6 & C7); [by rewrite Hd|done..|].
  rewrite Hb, Hr, Hd, Z.sub_0_r, wrap_small in C4, C6 by (unfold uint; lia).
  pose proof (entries_put o _ _ _ quiet_close E1) as [= D1 D2 D3 D4].
  pose proof (alive_put_unit o alive alive_put sa i x ltac:(by rewrite C7) E1) as D5.
  unfold finish_icd in E2. rewrite C5 in E2. change (negb (0 =? 0)) with false in E2. cbv iota in E2.
  apply bind_Some_inv in E2 as (s3 & E3 & E2). injection E2 as -> <-.
  destruct (lo_shape _ _ _ _ _ _ H1) as (L1 & L2 & L3 & L4 & L5 & L6 & L7 & L8 & _).
  assert (Hz : forall j, 0 <= j < 3 -> at_ (icd_bytes init_icd) j = 0)
    by (intros j Hj; assert (j = 0 \/ j = 1 \/ j = 2) as [-> | [-> | ->]] by lia; reflexivity).
  assert (Hlc : length (icd_bytes c) = 3%nat) by (destruct C6 as [-> _]; done).
  assert (Hg : grown_by d bs (icd_bytes init_icd) (icd_bytes c) (0 + 1)).
  { eapply bumped_grown; [|exact C6|apply grown_refl; [done|]]; intros j Hj.
    - rewrite Hz by done. unfold uint. lia.
    - destruct C6 as [_ ->]; [|lia]. rewrite !Hz by (done || by apply rw_bounds). destruct (j =? d); [by apply wrap_uint|unfold uint; lia]. }
  destruct (add_done_books d bs x c s2 1) as (F1 & F2 & F3 & F4 & F6 & F5); [by rewrite D4, C3|done|exact Hg|done|].
  exists s2. rewrite unbroken by (rewrite ?F1, ?D1, ?C1; by destruct Herr || done).
  split; [done|]. split; rewrite ?F1, ?F2, ?F3, ?F6, ?D1, ?D2, ?D3, ?C1, ?C2; try done.
  - by eexists.
  - intros j Hj. destruct C4 as [_ C4]. rewrite C4 by lia. rewrite !Hthis by (done || by apply rw_bounds).
    replace (k + 1 - Z.of_nat (length E)) with (k - Z.of_nat (length E) + 1) by lia. rewrite <- share_add.
    destruct (Z.eqb_spec j d) as [->|Hne].
    + replace bs with (share d bs 1 d) at 2 by (unfold share; rewrite Z.eqb_refl; lia). rewrite share_add.
      apply wrap_small, share_small; [lia|done].
    + unfold share. rewrite (proj2 (Z.eqb_neq _ _) Hne). done.
  - intros j Hj. rewrite F5, D4, C3, Hdone, <- Z.add_assoc, share_add by done.
    replace (k - Z.of_nat (length E) + 1) with (k + 1 - Z.of_nat (length E)) by lia. apply wrap_small, share_small; [lia|done].
  - intros j Hj. destruct (Hpl j) as (v & Hv & ?); [by right|]. exists v. split; [|done]. rewrite U2; [done|].
    intros ->. pose proof (us_eng _ _ _ _ _ (lo_units _ _ _ _ _ _ H1)) as Hn2. apply list.NoDup_cons in Hn2 as [Hn2 _]. done.
  - lia.
Qed.

Lemma queued_clean k s1 F E i b : queued_ok k s1 F E i 0 -> 0 <= k < n ->
  io_queue_event o s1 i FIO_Q_QUEUED d b 0 = Some (s1, 1, u64 (b + bs), false) /\ going (k + 1) s1 F (i :: E).
Proof.
  intros [H1 [failed A1] Herr Hiss Hthis Hdone Hfs Hpl Hle (u1 & Hi & Hr & He)] Hk.
  destruct (Hpl i) as (v & Hv & _ & _ & _ & Hx); [by left|]. rewrite Hi in Hv. injection Hv as <-.
  unfold io_queue_event, queue_event. rewrite Hi. cbn [mbind option_bind].
  change (FIO_Q_QUEUED =? FIO_Q_COMPLETED) with false. change (FIO_Q_QUEUED =? FIO_Q_QUEUED) with true. cbv iota. cbn [mbind option_bind].
  rewrite unbroken, Hx by (by destruct Herr || done). split; [done|]. cbn [length] in *.
  assert (Ek : k + 1 - Z.of_nat (length (i :: E)) = k - Z.of_nat (length E)) by (cbn [length]; lia).
  split; rewrite ?Ek; try done; [by eexists|cbn [length]; lia].
Qed.
End unit.
