(* ===== verification/JobLoopRun.v ===== *)
(** * Complete runs of a job's loop

    On an engine that reports no error and no short transfer, [do_io] issues all
    of its bytes, loses none and leaves nothing in flight; what happens with
    short transfers and with a minimum rate is shown by examples. *)
From Stdlib Require Import SpecFloat.
From S2P Require Import Prelude Flags IoUQueue Files Buckets LatTarget Time Rand IoULife IoULifeInv IoULifeRun CFloat Pace JobLoop JobLoopInv.

(** ** The loop *)
Definition counted (po : pace_options) : Z :=
  if td_write po then DDIR_WRITE else if td_read po then DDIR_READ else DDIR_TRIM.

Definition flying (s : td) : list Z := filter (fun i => in_flight s i = true) (seqZ 0 (Z.of_nat (length (units s)))).

(** A job of [n] units of [bs] bytes in one direction, without rate, think time,
    time limit or latency target, on an engine that neither fails nor is busy nor
    transfers less than asked, and that hands back as many units as it must; a file
    is always found among those that are [alive]. *)
Record calm (o : options) (po : pace_options) (jo : job_opts) (env : job_env) (alive : files_td -> Prop) (bs n : Z) : Prop := {
  cj_close : closes_quietly o;
  cj_target : latency_target o = false;
  cj_serial : serialize_overlap o = false;
  cj_dir : td_rw po = false /\ td_trimwrite po = false;
  cj_rate : check_rate po = false /\ thinktime po = 0;
  cj_size : jo_size jo = bs * n /\ 0 < bs < 2 ^ 32 /\ 0 < n /\ bs * n < 2 ^ 63;
  cj_limits : jo_io_size jo = 0 /\ jo_loops jo = 1 /\ jo_number_ios jo = 0 /\ jo_time_based jo = false /\ jo_timeout jo = 0;
  cj_depths : 0 <= jo_batch_min jo /\ 0 <= jo_batch_max jo /\ 0 <= jo_low jo;
  ce_flow : forall k, e_flow env k = false;
  ce_pick : forall g h, files_ok g h -> alive g ->
    exists g' f, e_pick env g = Some (g', PickFile f) /\ files_ok g' (f :: h) /\ alive g';
  ce_put : forall g i g' r, alive g -> put_file g i (close_answer o) = Some (g', r) -> alive g';
  ce_range : forall k p, exists off, e_range env k p = (counted po, off, bs);
  ce_prep : forall k, e_prep env k = 0;
  ce_answer : forall k s, clean_answer (e_answer env k s);
  ce_commit : forall k, e_commit env k = 0;
  ce_reap : forall k s mn, exists l, e_reap env k s mn = Events l /\ NoDup (ev_units l) /\ clean_events l /\
    (forall i, i ∈ ev_units l -> i ∈ flying s) /\ Z.min mn (Z.of_nat (length (flying s))) <= Z.of_nat (length l)
}.

Section loop.
Context (o : options) (po : pace_options) (jo : job_opts) (env : job_env) (logf : spec_float -> spec_float).
Context (alive : files_td -> Prop) (depth bs n : Z) (B0 : list Z).
Hypothesis Hcalm : calm o po jo env alive bs n.
Hypothesis Hdepth : 0 < depth.
Hypothesis room : forall j, 0 <= j < 3 -> 0 <= at_ B0 j /\ at_ B0 j + bs * n < 2 ^ 64.

Abbreviation d := (counted po).
Abbreviation going := (going depth d bs B0 alive).

Lemma counted_rw : ddir_rw d = true.
Proof. unfold counted. by destruct (td_write po), (td_read po). Qed.

Lemma block_ok : 0 < bs < 2 ^ 32.
Proof. apply (cj_size _ _ _ _ _ _ _ Hcalm). Qed.

(** Every unit is free or with the engine. *)
Definition settled (k : Z) (j : job) (F E : list Z) : Prop :=
  going k (job_td j) F E /\ Z.of_nat (length F + length E) = depth /\ job_done j = false /\ 0 <= bytes_issued j <= bs * k.

Lemma flying_eq s F E x : life_ok depth s F [] E x -> flying s ≡ₚ E.
Proof.
  intros Hs. pose proof (lo_units _ _ _ _ _ _ Hs) as Hu. apply NoDup_Permutation; [|by destruct Hu|].
  - apply list.NoDup_filter, NoDup_seqZ.
  - intros i. unfold flying. rewrite list_elem_of_filter, (in_flight_eq depth s F [] E x i Hs), bool_decide_eq_true, elem_of_seqZ.
    split; [tauto|]. intros Hi. split; [done|]. pose proof (us_range _ _ _ _ _ Hu i (or_intror Hi)). lia.
Qed.

Lemma depth_eq s F E x : life_ok depth s F [] E x -> Z.of_nat (length F + length E) = depth -> cur_depth s = Z.of_nat (length E).
Proof.
  intros Hs Hd. destruct (lo_queues _ _ _ _ _ _ Hs) as (_ & _ & _ & _ & _ & _ & _ & Hc).
  rewrite Hc, (us_count _ _ _ _ _ (lo_units _ _ _ _ _ _ Hs)), app_nil_r. lia.
Qed.

(** A reap hands back units; at least one if it must, all if all are asked for. *)
Lemma reap_job k j F E mn : settled k j F E -> 0 <= k <= n -> 0 <= mn ->
  exists j' r F' E', reap o jo env j mn = Some (j', r) /\ 0 <= r /\ settled k j' F' E' /\
    (length E' <= length E)%nat /\ (0 < mn -> E <> [] -> (length E' < length E)%nat) /\
    (mn = Z.of_nat (length E) -> E' = []).
Proof.
  intros (Hg & Hd & Hjd & Hb) Hk Hmn. unfold reap. rewrite (ce_commit _ _ _ _ _ _ _ Hcalm).
  destruct (ce_reap _ _ _ _ _ _ _ Hcalm (tick j) (job_td j) mn) as (l & -> & Hnd & Hcl & Hin & Hlen).
  pose proof (g_life _ _ _ _ _ _ _ _ _ Hg) as Hs. pose proof (flying_eq _ _ _ _ Hs) as Hfl.
  assert (Hin' : forall i, i ∈ ev_units l -> i ∈ E) by (intros i Hi; rewrite <- Hfl; by apply Hin). rewrite Hfl in Hlen.
  pose proof (depth_eq _ _ _ _ Hs Hd) as Hcd.
  destruct (reap_clean o depth d bs B0 (cj_close _ _ _ _ _ _ _ Hcalm) counted_rw block_ok alive (ce_put _ _ _ _ _ _ _ Hcalm) n room k (job_td j) F E mn (jo_batch_max jo) l Hg Hk Hnd Hin' Hcl)
    as (s' & E' & E1 & HE & Hg'). cbn zeta in E1, HE, Hg'. set (l' := if _ =? 0 then [] else l) in *. rewrite E1. cbn [mbind option_bind].
  assert (HlE : (length E = length l' + length E')%nat) by (rewrite HE, length_app; unfold ev_units; by rewrite length_fmap).
  eexists _, _, (F ++ ev_units l'), E'. split; [done|]. split; [lia|]. split.
  { split; [exact Hg'|]. split; [|done]. rewrite length_app. unfold ev_units. rewrite length_fmap. lia. }
  assert (Hl' : 0 < mn -> E <> [] -> l' = l).
  { intros Hm HE0. unfold l'. rewrite Hcd. assert (0 < Z.of_nat (length E)) by (destruct E; [done|simpl; lia]).
    rewrite (proj2 (Z.eqb_neq mn 0)) by lia. cbn [negb andb].
    destruct (Z.ltb_spec (Z.of_nat (length E)) mn), (Z.ltb_spec (Z.of_nat (length E)) (jo_batch_max jo));
      repeat match goal with |- context [?a <? ?b] => destruct (Z.ltb_spec a b) end; rewrite (proj2 (Z.eqb_neq _ 0)) by lia; done. }
  split; [lia|]. split.
  - intros Hm HE0. specialize (Hl' Hm HE0). assert (0 < length E)%nat by (destruct E; [done|simpl; lia]). rewrite Hl' in HlE. lia.
  - intros Hm. destruct E as [|e E0]; [by destruct E'; [|simpl in HlE; lia]|]. rewrite Hl' in HlE by (done || simpl in Hm; lia).
    destruct E'; [done|]. simpl in HlE, Hm, Hlen. lia.
Qed.

Lemma reap_loop_ok k mn full : 0 <= k <= n -> 0 < mn -> forall fuel j F E, settled k j F E -> (length E < fuel)%nat ->
  exists j' r F' E', reap_loop o jo env fuel j full mn = Some (j', r) /\ 0 <= r /\ settled k j' F' E' /\
    (length E' <= length E)%nat /\ (E <> [] -> (length E' < length E)%nat).
Proof.
  intros Hk Hmn. induction fuel as [|fuel IH]; intros j F E Hj Hf; [lia|]. cbn [reap_loop].
  destruct (reap_job k j F E mn Hj Hk ltac:(lia)) as (j1 & r & F1 & E1 & -> & Hr & Hj1 & Hle & Hlt & _). cbn [mbind option_bind].
  rewrite (proj2 (Z.ltb_ge r 0)) by lia.
  destruct (full && (jo_low jo <? cur_depth (job_td j1))) eqn:Ec; [|exists j1, r, F1, E1; split_and!; auto].
  apply andb_true_iff in Ec as [_ Ec%Z.ltb_lt]. destruct Hj1 as (Hg1 & Hd1 & Hjd1).
  rewrite (depth_eq _ _ _ _ (g_life _ _ _ _ _ _ _ _ _ Hg1) Hd1) in Ec. destruct (cj_depths _ _ _ _ _ _ _ Hcalm) as (_ & _ & Hlow).
  assert (HE : E <> []) by (intros ->; simpl in Hle; lia). specialize (Hlt Hmn HE).
  destruct (IH j1 F1 E1 (conj Hg1 (conj Hd1 Hjd1)) ltac:(lia)) as (j2 & r2 & F2 & E2 & -> & Hr2 & Hj2 & Hle2 & _).
  exists j2, r2, F2, E2. split_and!; try done; lia.
Qed.

Lemma wait_ok k j F E : settled k j F E -> 0 <= k <= n ->
  exists j' r F' E', wait_for_completions o po jo env j = Some (j', r, None) /\ 0 <= r /\ settled k j' F' E' /\
    (F = [] -> F' <> []) /\ (F <> [] -> F' <> []).
Proof.
  intros Hj Hk. pose proof Hj as (Hg & Hd & Hjd & Hb). pose proof (g_life _ _ _ _ _ _ _ _ _ Hg) as Hs.
  unfold wait_for_completions. destruct (cj_rate _ _ _ _ _ _ _ Hcalm) as [-> _].
  rewrite (full_iff o depth (cj_target _ _ _ _ _ _ _ Hcalm) _ F E 0 Hs), (depth_eq _ _ _ _ Hs Hd).
  destruct (cj_depths _ _ _ _ _ _ _ Hcalm) as (Hbm & _ & _).
  set (mn := if _ || _ then 1 else _).
  assert (Hmn : 0 < mn \/ (mn = 0 /\ F <> [] /\ E = [])).
  { unfold mn. destruct (Z.eqb_spec (jo_batch_min jo) 0); [rewrite orb_true_r; lia|]. rewrite orb_false_r.
    destruct (Z.eqb_spec (Z.min (jo_batch_min jo) (Z.of_nat (length E))) 0) as [E0|E0]; [|rewrite andb_false_r; lia].
    rewrite andb_true_r. case_bool_decide; [lia|]. right. split; [lia|]. split; [done|]. destruct E; [done|simpl in E0; lia]. }
  assert (Hfuel : (length E < S (length (units (job_td j))))%nat).
  { pose proof (us_count _ _ _ _ _ (lo_units _ _ _ _ _ _ Hs)). lia. }
  assert (Hend : forall F' E' : list Z, (length E' <= length E)%nat -> (E <> [] -> (length E' < length E)%nat) -> Z.of_nat (length F' + length E') = depth ->
    (F = [] -> F' <> []) /\ (F <> [] -> F' <> [])).
  { intros F' E' Hle Hlt Hd'. split; intros HF ->; simpl in *.
    - subst F. simpl in Hd. assert (E <> []) by (intros ->; simpl in Hd; lia). specialize (Hlt ltac:(done)). lia.
    - assert (0 < length F)%nat by (destruct F; [done|simpl; lia]). lia. }
  destruct Hmn as [Hmn|(Hm0 & HF & ->)].
  - destruct (reap_loop_ok k mn (bool_decide (F = [])) Hk Hmn _ j F E Hj Hfuel) as (j' & r & F' & E' & -> & Hr & Hj' & Hle & Hlt).
    cbn [mbind option_bind]. destruct (Hend F' E' Hle Hlt) as [H1 H2]; [apply Hj'|]. by exists j', r, F', E'.
  - rewrite (bool_decide_eq_false_2 (F = [])) by done. cbn [reap_loop].
    destruct (reap_job k j F [] mn Hj Hk ltac:(lia)) as (j1 & r & F1 & E1 & -> & Hr & Hj1 & Hle & _ & _). cbn [mbind option_bind].
    rewrite (proj2 (Z.ltb_ge r 0)) by lia. cbn [andb mbind option_bind].
    destruct (Hend F1 E1 Hle ltac:(done)) as [H1 H2]; [apply Hj1|]. by exists j1, r, F1, E1.
Qed.

Lemma sum_Some l : length l = 3%nat -> is_Some (ddir_rw_sum l).
Proof.
  intros Hl. unfold ddir_rw_sum, DDIR_READ, DDIR_WRITE, DDIR_TRIM.
  destruct (arr_get_is_Some l 0) as [a ->]; [lia|]. destruct (arr_get_is_Some l 1) as [b ->]; [lia|].
  destruct (arr_get_is_Some l 2) as [c ->]; [lia|]. by eexists.
Qed.

Lemma done_length k s F E : going k s F E -> length (td_bytes_done (acc s)) = 3%nat /\ length (this_io_bytes (acc s)) = 3%nat /\
  length (io_issue_bytes (acc s)) = 3%nat.
Proof. intros Hg. destruct (lo_shape _ _ _ _ _ _ (g_life _ _ _ _ _ _ _ _ _ Hg)) as (L1 & L2 & L3 & L4 & L5 & L6 & L7 & L8 & _). done. Qed.

Lemma no_rate p : length (td_bytes_done (acc (base p))) = 3%nat -> should_check_rate po p = Some false.
Proof.
  intros Hl. unfold should_check_rate. destruct (cj_rate _ _ _ _ _ _ _ Hcalm) as [-> _].
  destruct (arr_get_is_Some (td_bytes_done (acc (base p))) DDIR_READ) as [a ->]; [unfold DDIR_READ; lia|].
  destruct (arr_get_is_Some (td_bytes_done (acc (base p))) DDIR_WRITE) as [b ->]; [unfold DDIR_WRITE; lia|].
  destruct (arr_get_is_Some (td_bytes_done (acc (base p))) DDIR_TRIM) as [c ->]; [unfold DDIR_TRIM; lia|]. done.
Qed.

Lemma finish_round_ok k j F E dd t : settled k j F E -> 0 <= k <= n -> 0 <= ret j -> ret j <> FIO_Q_BUSY ->
  exists j' F' E', finish_round o po jo env j dd t = Some (j', Go) /\ settled k j' F' E' /\ F' <> [].
Proof.
  intros Hj Hk Hr Hnb. pose proof Hj as (Hg & Hd & Hjd & Hb). pose proof (g_life _ _ _ _ _ _ _ _ _ Hg) as Hs.
  unfold finish_round. rewrite (proj2 (Z.eqb_neq _ _) Hnb). cbn [andb]. rewrite orb_false_r.
  assert (Hw : exists j' t' F' E', (if is_full o (job_td j) || io_in_polling jo then
      '(j, r, t0) ← wait_for_completions o po jo env j; Some (with_ret j r, match t0 with Some t0 => Some t0 | None => t end)
     else Some (j, t)) = Some (j', t') /\ 0 <= ret j' /\ settled k j' F' E' /\ F' <> []).
  { rewrite (full_iff o depth (cj_target _ _ _ _ _ _ _ Hcalm) _ F E 0 Hs).
    destruct (bool_decide (F = []) || io_in_polling jo) eqn:Ew.
    - destruct (wait_ok k j F E Hj Hk) as (j1 & r & F1 & E1 & -> & Hr1 & Hj1 & H1 & H2). cbn [mbind option_bind].
      eexists _, _, F1, E1. split; [done|]. split; [done|]. split; [exact Hj1|]. destruct (decide (F = [])); auto.
    - apply orb_false_iff in Ew as [Ew _]. apply bool_decide_eq_false in Ew. by exists j, t, F, E. }
  destruct Hw as (j1 & t1 & F1 & E1 & -> & Hr1 & Hj1 & HF1). cbn [mbind option_bind]. rewrite (proj2 (Z.ltb_ge _ _) Hr1).
  destruct (done_length _ _ _ _ (proj1 Hj1)) as (L1 & _).
  destruct (sum_Some _ L1) as [m ->]. cbn [mbind option_bind].
  destruct ((m =? 0) && negb (jo_noio jo)); [by exists j1, F1, E1|].
  rewrite (no_rate (pc j1)) by exact L1. cbn [mbind option_bind].
  destruct (cj_rate _ _ _ _ _ _ _ Hcalm) as [_ ->]. rewrite andb_false_r. by exists j1, F1, E1.
Qed.

Lemma submit_step_ok k j F E i : going k (job_td j) F E -> 0 <= k < n -> i ∉ F -> i ∉ E -> ready d bs (job_td j) i ->
  Z.of_nat (S (length F + length E)) = depth -> job_done j = false -> 0 <= bytes_issued j <= bs * k ->
  exists j' t F' E', submit_step o po env logf j i = Some (j', false, t) /\ settled (k + 1) j' F' E' /\
    0 <= ret j' /\ ret j' <> FIO_Q_BUSY.
Proof.
  intros Hg Hk Hf He Hrdy Hd Hjd Hb. unfold submit_step. pose proof Hrdy as [(u & Hu & Hdu & _) _]. rewrite Hu. cbn [mbind option_bind].
  rewrite (ce_commit _ _ _ _ _ _ _ Hcalm). set (a := e_answer env (tick j) (job_td j)).
  assert (Ha : clean_answer a) by apply (ce_answer _ _ _ _ _ _ _ Hcalm). clearbody a.
  destruct (queue_clean o depth d bs B0 n counted_rw block_ok room (cj_serial _ _ _ _ _ _ _ Hcalm) alive k (job_td j) F E i a Hg Hk Hf He Hrdy Ha)
    as (s1 & u1 & failed & -> & Hu1 & Hr1 & He1 & Hx1 & Hd1 & H1 & A1 & B1 & B2 & B3 & B4 & B5 & Hpl). cbn [mbind option_bind].
  destruct (done_length _ _ _ _ Hg) as (L1 & _ & _).
  unfold note_rate. rewrite (no_rate (with_base (pc j) s1)) by (simpl; by rewrite B4). cbn [mbind option_bind].
  rewrite Hdu. cbn [with_base base with_pc bytes_issued].
  assert (Hq : queued_ok depth d bs B0 alive k s1 F E i (if a_ret a =? FIO_Q_QUEUED then 0 else 1)).
  { destruct Hg as [G1 G2 G3 G4 G5 G6 G9 G7 G8]. split; rewrite ?B1, ?B3, ?B4, ?B5; try done; [by exists failed|by exists u1]. }
  destruct (cj_rate _ _ _ _ _ _ _ Hcalm) as [Hcr _]. destruct Ha as ([Er|Er] & Hre & Hae); rewrite Er in *.
  - destruct (completed_clean o depth d bs B0 n (cj_close _ _ _ _ _ _ _ Hcalm) counted_rw block_ok room alive (ce_put _ _ _ _ _ _ _ Hcalm) k s1 F E i (bytes_issued j) Hq Hk Hf) as (s2 & -> & Hg2).
    cbn [mbind option_bind]. rewrite Hu1. cbn [mbind option_bind]. rewrite Hcr, andb_false_r.
    eexists _, _, (F ++ [i]), E. split; [done|]. split; [|done]. split; [exact Hg2|]. rewrite length_app. cbn [length]. split; [lia|].
    split; [done|]. simpl. pose proof block_ok. nia.
  - destruct (queued_clean o depth d bs B0 n alive k s1 F E i (bytes_issued j) Hq Hk) as [-> Hg2].
    cbn [mbind option_bind]. rewrite Hu1. cbn [mbind option_bind]. rewrite Hcr, andb_false_r.
    eexists _, _, F, (i :: E). split; [done|]. split; [|done]. split; [exact Hg2|]. cbn [length]. split; [lia|].
    split; [done|]. simpl. destruct (cj_size _ _ _ _ _ _ _ Hcalm) as (_ & Hbs & _ & Hmax). rewrite wrap_small by (unfold uint; nia). nia.
Qed.

Lemma size_total : jo_size jo <= total_bytes po jo.
Proof.
  unfold total_bytes. destruct (cj_dir _ _ _ _ _ _ _ Hcalm) as [_ ->]. destruct (_ && _ && _); lia.
Qed.

Lemma round_ok k j F E : settled k j F E -> 0 <= k < n -> F <> [] ->
  exists j' F' E', round o po jo env logf j = Some (j', Go) /\ settled (k + 1) j' F' E' /\ F' <> [].
Proof.
  intros (Hg & Hd & Hjd & Hb) Hk HF. unfold round. destruct (g_err _ _ _ _ _ _ _ _ _ Hg) as [_ ->]. rewrite Hjd. cbn [orb].
  destruct (cj_limits _ _ _ _ _ _ _ Hcalm) as (_ & _ & _ & Htb & Hto).
  assert (Hup : exists j1, time_is_up jo env j = (j1, false) /\ job_td j1 = job_td j /\ job_done j1 = false /\ bytes_issued j1 = bytes_issued j).
  { unfold time_is_up, runtime_exceeded. rewrite Hto. cbn [Z.eqb negb andb]. eexists. split; [done|]. unfold update_ts_cache.
    by destruct (_ =? _). }
  destruct Hup as (j1 & -> & T1 & D1 & Y1). rewrite (ce_flow _ _ _ _ _ _ _ Hcalm).
  destruct (cj_size _ _ _ _ _ _ _ Hcalm) as (Hsz & Hbs & Hn & Hmax). pose proof size_total as Htot.
  rewrite Y1, (proj2 (Z.leb_gt _ _)) by nia. cbn [andb].
  destruct (ce_range _ _ _ _ _ _ _ Hcalm (tick j1) (pc j1)) as [off ->]. rewrite (ce_prep _ _ _ _ _ _ _ Hcalm), T1.
  destruct (get_clean o depth d bs B0 counted_rw block_ok (cj_target _ _ _ _ _ _ _ Hcalm) (e_pick env) alive (ce_pick _ _ _ _ _ _ _ Hcalm)
    k (job_td j) F E off Hg HF) as (s' & i & F' & -> & -> & Hif & Hie & Hrdy & Hg'). cbn [mbind option_bind].
  pose proof Hrdy as [(u & Hu & _) _]. rewrite Hu. cbn [mbind option_bind]. rewrite length_app in Hd. cbn [length] in Hd.
  destruct (submit_step_ok k (ticked (with_td j1 s')) F' E i Hg' Hk Hif Hie Hrdy) as (j2 & t & F2 & E2 & -> & Hj2 & Hr2 & Hnb2);
    [lia|done|cbn; lia|]. cbn [mbind option_bind].
  exact (finish_round_ok (k + 1) j2 F2 E2 (ddir u) t Hj2 ltac:(lia) Hr2 Hnb2).
Qed.

Lemma issued_all k j F E : settled k j F E -> 0 <= k <= n -> io_issue_bytes_exceeded po jo (job_td j) = Some (n <=? k).
Proof.
  intros (Hg & _) Hk. destruct (done_length _ _ _ _ Hg) as (_ & _ & L3).
  unfold io_issue_bytes_exceeded, io_bytes_exceeded, exceeds_number_ios.
  destruct (cj_limits _ _ _ _ _ _ _ Hcalm) as (-> & -> & -> & _). destruct (cj_dir _ _ _ _ _ _ _ Hcalm) as [-> _].
  destruct (cj_size _ _ _ _ _ _ _ Hcalm) as (-> & Hbs & Hn & Hmax). pose proof (rw_bounds _ counted_rw) as Hd.
  pose proof (g_issue _ _ _ _ _ _ _ _ _ Hg d ltac:(lia)) as Hi. unfold share in Hi. rewrite Z.eqb_refl in Hi.
  assert (Hget : (if td_write po then arr_get (io_issue_bytes (acc (job_td j))) DDIR_WRITE
    else if td_read po then arr_get (io_issue_bytes (acc (job_td j))) DDIR_READ
    else arr_get (io_issue_bytes (acc (job_td j))) DDIR_TRIM) = Some (bs * k)).
  { assert (Hgd : arr_get (io_issue_bytes (acc (job_td j))) d = Some (bs * k))
      by (rewrite (arr_at (io_issue_bytes (acc (job_td j))) d) by lia; by rewrite Hi).
    unfold counted in Hgd. by destruct (td_write po), (td_read po). }
  rewrite Hget. cbn [mbind option_bind Z.eqb negb]. rewrite orb_false_r, Z.mul_1_r, wrap_small by (unfold uint; nia).
  f_equal. destruct (Z.leb_spec (bs * n) (bs * k)), (Z.leb_spec n k); nia || done.
Qed.

Lemma io_loop_ok : forall m k j F E, k = n - Z.of_nat m -> 0 <= k -> settled k j F E -> F <> [] ->
  exists j' F' E', io_loop o po jo env logf m j = Some j' /\ settled n j' F' E'.
Proof.
  destruct (cj_limits _ _ _ _ _ _ _ Hcalm) as (_ & _ & _ & Htb & _).
  induction m as [|m IH]; intros k j F E Ek Hk Hj HF; cbn [io_loop]; rewrite (issued_all k j F E Hj) by lia; cbn [mbind option_bind]; rewrite Htb.
  - rewrite (proj2 (Z.leb_le n k)) by lia. cbn [andb negb]. exists j, F, E. split; [done|]. by replace n with k by lia.
  - rewrite (proj2 (Z.leb_gt n k)) by lia. cbn [andb].
    destruct (round_ok k j F E Hj ltac:(lia) HF) as (j1 & F1 & E1 & -> & Hj1 & HF1). cbn [mbind option_bind].
    apply (IH (k + 1) j1 F1 E1); [lia|lia|done|done].
Qed.

Lemma not_full s F E : going n s F E -> device_full o s = false.
Proof. intros Hg. unfold device_full. destruct (g_err _ _ _ _ _ _ _ _ _ Hg) as [-> _]. apply andb_false_r. Qed.

Lemma drain_ok j F E : settled n j F E -> exists j' F', drain o jo env j = Some j' /\ settled n j' F' [].
Proof.
  intros Hj. pose proof Hj as (Hg & Hd & _). pose proof (g_life _ _ _ _ _ _ _ _ _ Hg) as Hs. destruct (cj_size _ _ _ _ _ _ _ Hcalm) as (_ & _ & Hn & _).
  unfold drain. rewrite (not_full _ _ _ Hg). destruct (g_err _ _ _ _ _ _ _ _ _ Hg) as [-> _]. change (0 =? 0) with true. cbv iota. rewrite (depth_eq _ _ _ _ Hs Hd).
  destruct (Z.eqb_spec (Z.of_nat (length E)) 0) as [E0|E0]; cbn [negb].
  - exists j, F. split; [done|]. destruct E; [done|simpl in E0; lia].
  - destruct (reap_job n j F E (Z.of_nat (length E)) Hj ltac:(lia) ltac:(lia)) as (j1 & r & F1 & E1 & -> & _ & Hj1 & _ & _ & Hall).
    cbn [mbind option_bind]. rewrite (Hall eq_refl) in Hj1. pose proof Hj1 as (Hg1 & _).
    rewrite (not_full _ _ _ Hg1). by exists j1, F1.
Qed.
End loop.

Lemma start_going alive depth d bs g s0 : 0 < depth < 2 ^ 31 -> files_ok g [] -> alive g -> init_io_u depth g = Some s0 ->
  going depth d bs [0; 0; 0] alive 0 s0 (seqZ 0 depth) [].
Proof.
  intros Hd Hg Ha E0. destruct (world_init_ok depth g Hd Hg) as (s & E1 & [Hs Hac]). rewrite E0 in E1. injection E1 as <-. cbn [fst snd] in *.
  unfold init_io_u in E0. inv_opt.
  assert (Hz : forall j, 0 <= j < 3 -> at_ [0; 0; 0] j = 0)
    by (intros j Hj; assert (j = 0 \/ j = 1 \/ j = 2) as [-> | [-> | ->]] by lia; reflexivity).
  assert (Hs0 : forall j, share d bs 0 j = 0) by (intros j; unfold share; destruct (j =? d); lia).
  split; try done; cbn [acc new_acct io_issue_bytes this_io_bytes td_bytes_done]; change (0 - Z.of_nat (length [])) with 0.
  - by eexists.
  - intros j Hj. rewrite Hs0. by apply Hz.
  - intros j Hj. rewrite Hs0. by apply Hz.
  - intros j Hj. rewrite Hs0, Z.add_0_r. done.
  - intros i Hi. by apply elem_of_nil in Hi.
Qed.

Lemma rw_sum l : length l = 3%nat -> ddir_rw_sum l = Some (u64 (at_ l 0 + at_ l 1 + at_ l 2)).
Proof. destruct l as [|a [|b [|c [|]]]]; intros [=]. reflexivity. Qed.

Lemma zip_at f (l l' : list Z) k : length l = 3%nat -> length l' = 3%nat -> 0 <= k < 3 -> at_ (zip_with f l l') k = f (at_ l k) (at_ l' k).
Proof.
  intros Hl Hl' Hk. destruct l as [|a [|b [|c [|]]]]; try done. destruct l' as [|a' [|b' [|c' [|]]]]; try done.
  assert (k = 0 \/ k = 1 \/ k = 2) as [-> | [-> | ->]] by lia; reflexivity.
Qed.

(** C3. A calm job does its work.  The job has one direction and writes or reads
    [n] blocks of [bs] bytes; it has no rate, think time, flow, latency target,
    [serialize_overlap], [io_size], loops, [number_ios] or time limit.  Its engine
    completes or queues every unit and is never busy, reports no error, transfers
    what it is asked for, prepares and commits, and reaps at least as many units
    as it is asked for; a file is always found and closes quietly.  Then [do_io]
    takes at most one round per unit of I/O, issues exactly the bytes the job asks
    for, reports them done in the job's direction and none in the others, and
    leaves no error, nothing in flight and every unit back on the free list. *)
Theorem do_io_completes o po jo env logf alive depth bs n g j s0 :
  calm o po jo env alive bs n -> 0 < depth < 2 ^ 31 -> files_ok g [] -> alive g ->
  init_io_u depth g = Some s0 -> job_td j = s0 -> job_done j = false ->
  exists j' bytes, do_io o po jo env logf (Z.to_nat n) j = Some (j', bytes) /\
    (forall k, 0 <= k < 3 -> at_ bytes k = if k =? counted po then bs * n else 0) /\
    at_ (io_issue_bytes (acc (job_td j'))) (counted po) = bs * n /\
    at_ (this_io_bytes (acc (job_td j'))) (counted po) = bs * n /\
    flying (job_td j') = [] /\ cur_depth (job_td j') = 0 /\
    stacked (freelist (job_td j')) ≡ₚ Some <$> seqZ 0 depth /\
    td_error (errs (job_td j')) = 0 /\ job_done j' = false.
Proof.
  intros Hc Hd Hg Ha E0 Ej Hjd. destruct (cj_size _ _ _ _ _ _ _ Hc) as (_ & Hbs & Hn & Hmax).
  assert (Hz : forall k, 0 <= k < 3 -> at_ [0; 0; 0] k = 0)
    by (intros k Hk; assert (k = 0 \/ k = 1 \/ k = 2) as [-> | [-> | ->]] by lia; reflexivity).
  assert (room : forall k, 0 <= k < 3 -> 0 <= at_ [0; 0; 0] k /\ at_ [0; 0; 0] k + bs * n < 2 ^ 64) by (intros k Hk; rewrite Hz by done; lia).
  pose proof (start_going alive depth (counted po) bs g s0 Hd Hg Ha E0) as Hg0. rewrite <- Ej in Hg0.
  assert (H0 : settled po alive depth bs [0; 0; 0] 0 (with_ret (with_bytes j 0) 0) (seqZ 0 depth) []).
  { split; [exact Hg0|]. rewrite length_seqZ. cbn [length]. split; [lia|]. split; [done|]. cbn. lia. }
  destruct (io_loop_ok o po jo env logf alive depth bs n [0; 0; 0] Hc ltac:(lia) room (Z.to_nat n) 0 _ _ _ ltac:(lia) ltac:(lia) H0)
    as (j1 & F1 & E1 & HL & H1).
  { intros HF. apply (f_equal length) in HF. rewrite length_seqZ in HF. simpl in HF. lia. }
  destruct (drain_ok o po jo env alive depth bs n [0; 0; 0] Hc room j1 F1 E1 H1) as (j2 & F2 & HD & Hg2 & Hd2 & Hj2 & _).
  pose proof (g_life _ _ _ _ _ _ _ _ _ Hg2) as Hs. destruct (done_length _ _ _ _ _ _ _ _ _ Hg2) as (L1 & L2 & L3).
  pose proof (rw_bounds _ (counted_rw po)) as Hdir.
  assert (Ht : at_ (this_io_bytes (acc (job_td j2))) (counted po) = bs * n).
  { rewrite (g_this _ _ _ _ _ _ _ _ _ Hg2) by lia. unfold share. rewrite Z.eqb_refl. cbn [length]. lia. }
  assert (Ht' : at_ (io_issue_bytes (acc (job_td j2))) (counted po) = bs * n).
  { rewrite (g_issue _ _ _ _ _ _ _ _ _ Hg2) by lia. unfold share. rewrite Z.eqb_refl. lia. }
  unfold do_io. rewrite HL. cbn [mbind option_bind]. rewrite HD. cbn [mbind option_bind].
  rewrite (rw_sum (this_io_bytes (acc (job_td j2))) L2). cbn [mbind option_bind]. rewrite (proj2 (Z.eqb_neq _ 0)).
  2:{ rewrite !(g_this _ _ _ _ _ _ _ _ _ Hg2) by lia. change (Z.of_nat (length [])) with 0. rewrite Z.sub_0_r.
      rewrite wrap_small; unfold share; repeat match goal with |- context [?a =? ?b] => destruct (Z.eqb_spec a b) end; try (unfold uint; nia); nia. }
  cbn [mbind option_bind]. destruct (done_length _ _ _ _ _ _ _ _ _ Hg0) as (M1 & _).
  eexists _, _. split; [done|]. split_and!; [|exact Ht'|exact Ht| | | |apply (g_err _ _ _ _ _ _ _ _ _ Hg2)|exact Hj2].
  - intros k Hk. rewrite zip_at by congruence || lia.
    rewrite (g_done _ _ _ _ _ _ _ _ _ Hg2), (g_done _ _ _ _ _ _ _ _ _ Hg0), Hz by done. change (Z.of_nat (length [])) with 0.
    unfold share. rewrite wrap_small; destruct (k =? counted po); unfold uint; nia.
  - apply Permutation_nil_r. exact (flying_eq _ _ _ _ _ Hs).
  - rewrite (depth_eq _ _ _ _ _ Hs Hd2). done.
  - destruct (lo_queues _ _ _ _ _ _ Hs) as (_ & _ & _ & -> & _). apply fmap_Permutation.
    pose proof (places depth _ _ _ _ _ Hs ltac:(lia)) as Hp. etrans; [|exact Hp]. cbn [app].
    pose proof (Permutation_length Hp) as Hl. rewrite !length_app, length_seqZ in Hl. cbn [length] in *.
    destruct (filter _ (seqZ 0 depth)); [by rewrite app_nil_r|]. cbn [length] in Hl. lia.
Qed.

(** ** Examples, witnesses and failures

    A job of 4 KB reads on one file, on an engine that completes every other
    unit at once. *)
Definition closed_file (v : option Z) : files_td := FilesTd [File (-1) 0 0] 0 0 0 v 0.
Definition open_file (v : option Z) (r : Z) : files_td := FilesTd [File 5 r FIO_FILE_open] 1 0 0 v 0.
Definition one_file (g : files_td) : Prop :=
  exists v, (v = None \/ v = Some 0) /\ (g = closed_file v \/ exists r, g = open_file v r).

Lemma demo_finds g h : files_ok g h -> one_file g ->
  exists g' f, demo_pick g = Some (g', PickFile f) /\ files_ok g' (f :: h) /\ one_file g'.
Proof.
  intros Hg Ho. assert (H : exists r, demo_pick g = Some (open_file (Some 0) r, PickFile 0)).
  { destruct Ho as (v & [-> | ->] & [-> |[r ->]]); [exists 2|exists (r + 1)|exists 2|exists (r + 1)]; vm_compute; reflexivity. }
  destruct H as [r Hr], (picks (FilePicker := demo_picker) g h Hg) as (g' & p & E & Hp). rewrite Hr in E. injection E as <- <-.
  exists (open_file (Some 0) r), 0. split; [exact Hr|]. split; [exact Hp|]. exists (Some 0). split; [by right|]. right. by exists r.
Qed.

Lemma demo_put g i g' r : one_file g -> put_file g i no_close = Some (g', r) -> one_file g'.
Proof.
  intros (v & Hv & Hg) H. exists v. split; [done|]. unfold put_file in H. apply bind_Some_inv in H as (f & Ef & H).
  destruct (arr_get_bounds _ _ _ Ef) as [Hi Hl]. destruct Hg as [-> |[q ->]]; cbn in Hl; assert (i = 0) as -> by lia; cbn in Ef; injection Ef as <-.
  - cbn in H. injection H as <- _. by left.
  - cbn [fio_file_open fflags] in H. change (negb (isset FIO_FILE_open FIO_FILE_open)) with false in H. cbv iota in H.
    apply bind_Some_inv in H as (_ & _ & H). cbn [references fd fflags] in H. destruct (negb (q - 1 =? 0)) eqn:Eq.
    + cbn in H. injection H as <- _. right. by exists (q - 1).
    + apply negb_false_iff, Z.eqb_eq in Eq. rewrite Eq in H. cbn in H. injection H as <- _. by left.
Qed.

Definition demo_job_opts (size : Z) : job_opts :=
  JobOpts size 0 1 0 false 0 1 1 2 false false 0 [0; 0; 0] [0; 0; 0] 1000 false 0 (Timespec 0 0) (Timespec 0 0).
Definition demo_env (answer : nat -> answer) : job_env :=
  JobEnv (fun k => Timespec 0 (Z.of_nat k)) (fun _ => false) demo_pick (fun k _ => (DDIR_READ, 4096 * Z.of_nat k, 4096)) (fun _ => 0)
    (fun k _ => answer k) (fun _ => 0)
    (fun _ s m => Events ((fun i => Event i 0 0) <$> take (Z.to_nat m) (flying s))) None Some (fun x => x) (fun x => x).
Definition demo_read : pace_options := sample_opts TD_DDIR_READ 0 [100; 0; 0] false.
Definition mixed_answer (k : nat) : answer := Answer (if Nat.even (k / 2) then FIO_Q_QUEUED else FIO_Q_COMPLETED) 0 0.
Definition demo_start (s : td) : job :=
  Job (Pace s 0 0 (init_rand false) [0; 0; 0] [0; 0; 0] [0; 0; 0] []) 0 0 (Timespec 0 0) 0 [0; 0; 0] [0; 0; 0] [] false 0.

Lemma demo_calm answer n : (forall k, clean_answer (answer k)) -> 0 < n -> 4096 * n < 2 ^ 63 ->
  calm demo_opts demo_read (demo_job_opts (4096 * n)) (demo_env answer) one_file 4096 n.
Proof.
  intros Ha Hn Hb. split; try done.
  - intros g h. apply demo_finds.
  - intros g i g' r. apply demo_put.
  - intros k p. by exists (4096 * Z.of_nat k).
  - intros k s. apply Ha.
  - intros k s m. eexists. split; [done|]. unfold ev_units. rewrite <- list_fmap_compose.
    assert (Hid : forall l : list Z, (ev_unit ∘ (fun i => Event i 0 0)) <$> l = l) by (intros l; exact (list_fmap_id l)).
    rewrite Hid, length_fmap, length_take. split_and!.
    + eapply sublist_NoDup; [|apply sublist_take]. apply list.NoDup_filter, NoDup_seqZ.
    + apply list.Forall_forall. intros e He. apply list_elem_of_fmap in He as (i & -> & _). done.
    + intros i Hi. by apply (subseteq_take (Z.to_nat m) (flying s)).
    + lia.
Qed.

Lemma mixed_clean k : clean_answer (mixed_answer k).
Proof. unfold mixed_answer, clean_answer. destruct (Nat.even _); cbn; auto. Qed.

Lemma do_io_completes_witness :
  exists s0 j' bytes, init_io_u 4 demo_fs = Some s0 /\
    do_io demo_opts demo_read (demo_job_opts (4096 * 10)) (demo_env mixed_answer) (fun x => x) (Z.to_nat 10) (demo_start s0) = Some (j', bytes) /\
    at_ bytes DDIR_READ = 40960 /\ cur_depth (job_td j') = 0.
Proof.
  destruct (world_init_ok 4 demo_fs ltac:(lia) demo_fs_ok) as (s0 & E0 & _).
  destruct (do_io_completes demo_opts demo_read (demo_job_opts (4096 * 10)) (demo_env mixed_answer) (fun x => x) one_file 4 4096 10 demo_fs
    (demo_start s0) s0) as (j' & bytes & E & Hb & _ & _ & _ & Hd & _).
  - apply demo_calm; [exact mixed_clean|lia|lia].
  - lia.
  - exact demo_fs_ok.
  - exists None. split; [by left|by left].
  - exact E0.
  - reflexivity.
  - reflexivity.
  - exists s0, j', bytes. split; [exact E0|]. split; [exact E|]. split; [|exact Hd]. apply (Hb 0). lia.
Defined.

(** Every other transfer gets half of its block done. *)
Definition short_answer (k : nat) : answer := Answer FIO_Q_COMPLETED (if Nat.even (k / 3) then 2048 else 0) 0.

(** Short transfers are counted twice: [io_issue_bytes] takes the whole block
    when it is issued and the rest of it again when it is requeued, so that a job
    of ten blocks leaves its loop, without an error and with nothing in flight,
    after having done six of them and half of a seventh that stays requeued. *)
Theorem short_transfers_stop_early :
  exists s0 j' bytes, init_io_u 4 demo_fs = Some s0 /\
    do_io demo_opts demo_read (demo_job_opts (4096 * 10)) (demo_env short_answer) (fun x => x) 20 (demo_start s0) = Some (j', bytes) /\
    io_issue_bytes (acc (job_td j')) = [40960; 0; 0] /\ this_io_bytes (acc (job_td j')) = [24576; 0; 0] /\ bytes = [24576; 0; 0] /\
    io_issues (acc (job_td j')) = [6; 0; 0] /\ cur_depth (job_td j') = 0 /\ td_error (errs (job_td j')) = 0.
Proof. eexists _, _, _. split; [vm_compute; reflexivity|]. split; [vm_compute; reflexivity|]. by vm_compute. Qed.

(** A job with a minimum rate; the first unit completes at once, the others are
    queued. *)
Definition rate_opts : pace_options :=
  PaceOptions TD_DDIR_READ [100; 0; 0] 0 0 0 false true false [4096; 4096; 4096] [4096; 4096; 4096] [0; 0; 0] [0; 0; 0]
    true false 0 0 0 1 false.
Definition rate_job (ratemin : Z) : job_opts :=
  JobOpts 40960 0 1 0 false 0 1 1 2 false false 0 [ratemin; 0; 0] [0; 0; 0] 1000 false 0 (Timespec 0 0) (Timespec 0 0).
Definition late_answer (k : nat) : answer := Answer (if (k =? 2)%nat then FIO_Q_COMPLETED else FIO_Q_QUEUED) 0 0.

(** The minimum rate is checked against a time nobody wrote: [comp_time] of
    [do_io] is filled in only when the unit completed at once or completions
    were waited for; with a unit queued while the queue has room, the check
    reads it uninitialised, and the run has no defined result.  The same job
    without a minimum rate ends. *)
Theorem min_rate_uninitialised :
  exists s0, init_io_u 4 demo_fs = Some s0 /\
    is_Some (do_io demo_opts rate_opts (rate_job 0) (demo_env late_answer) (fun x => x) 10 (demo_start s0)) /\
    forall fuel, do_io demo_opts rate_opts (rate_job 1000) (demo_env late_answer) (fun x => x) fuel (demo_start s0) = None.
Proof.
  eexists. split; [vm_compute; reflexivity|]. split; [vm_compute; by eexists|].
  intros [|[|fuel]]; vm_compute; reflexivity.
Qed.
