(* ===== verification/Flow.v ===== *)
(** * Flow control between jobs: [flow.c]

    Jobs with the same [flow_id] share a counter.  A job passes when the counter,
    seen from its side, is not above its watermark, and then moves the counter by
    its weight; the flows are counted by reference.  Starting and leaving run under
    [flow_lock]; the check runs without a lock.  Here a run is a sequence of whole
    calls; [FlowRace] takes the check apart into its accesses of the counter. *)
From S2P Require Import Prelude.

(** ** State *)

(** A flow, by its address in the shared pool. *)
Record fio_flow := Flow { refs : Z; flow_id : Z; flow_counter : Z }.

(** The options of a job and its [td->flow]. *)
Record flow_job := FlowJob { o_flow : Z; o_flow_id : Z; o_watermark : Z; td_flow : option Z }.

(** [flow_list], in order, and the jobs. *)
Record flow_world := FlowWorld { flow_list : list (Z * fio_flow); jobs : list flow_job }.

Definition with_flow (j : flow_job) (f : option Z) : flow_job := FlowJob (o_flow j) (o_flow_id j) (o_watermark j) f.

(** ** Operations *)
Fixpoint flow_at (l : list (Z * fio_flow)) (a : Z) : option fio_flow :=
  match l with
  | [] => None
  | (b, f) :: l => if b =? a then Some f else flow_at l a
  end.

Fixpoint flow_store (l : list (Z * fio_flow)) (a : Z) (f : fio_flow) : list (Z * fio_flow) :=
  match l with
  | [] => []
  | (b, g) :: l => if b =? a then (b, f) :: l else (b, g) :: flow_store l a f
  end.

Fixpoint flow_del (l : list (Z * fio_flow)) (a : Z) : list (Z * fio_flow) :=
  match l with
  | [] => []
  | (b, g) :: l => if b =? a then l else (b, g) :: flow_del l a
  end.

(** The search of [flow_get]. *)
Fixpoint flow_find (l : list (Z * fio_flow)) (id : Z) : option Z :=
  match l with
  | [] => None
  | (b, g) :: l => if flow_id g =? id then Some b else flow_find l id
  end.

(** [flow_get]: [alloc] is what [smalloc] returns. *)
Definition flow_get (l : list (Z * fio_flow)) (id : Z) (alloc : option Z) : option (list (Z * fio_flow) * option Z) :=
  let ref l a := f ← flow_at l a; Some (flow_store l a (Flow (u32 (refs f + 1)) (flow_id f) (flow_counter f)), Some a) in
  match flow_find l id with
  | Some a => ref l a
  | None => match alloc with
            | None => Some (l, None)
            | Some a => ref (l ++ [(a, Flow 0 id 0)]) a
            end
  end.

(** [flow_put]; a flow that is gone is a use after free. *)
Definition flow_put (l : list (Z * fio_flow)) (a : Z) : option (list (Z * fio_flow)) :=
  f ← flow_at l a;
  let n := u32 (refs f - 1) in
  if n =? 0 then Some (flow_del l a) else Some (flow_store l a (Flow n (flow_id f) (flow_counter f))).

Definition flow_init_job (w : flow_world) (i : nat) (alloc : option Z) : option flow_world :=
  j ← jobs w !! i;
  if negb (o_flow j =? 0) then
    '(l, f) ← flow_get (flow_list w) (u32 (o_flow_id j)) alloc;
    Some (FlowWorld l (<[i := with_flow j f]> (jobs w)))
  else Some w.

Definition flow_exit_job (w : flow_world) (i : nat) : option flow_world :=
  j ← jobs w !! i;
  match td_flow j with
  | Some a => l ← flow_put (flow_list w) a; Some (FlowWorld l (<[i := with_flow j None]> (jobs w)))
  | None => Some w
  end.

(** The answer is 1 when the job is held back; the pause of [flow_sleep] before that
    answer is left out.  This is a check that no other job interrupts. *)
Definition flow_threshold_exceeded (w : flow_world) (i : nat) : option (flow_world * Z) :=
  j ← jobs w !! i;
  match td_flow j with
  | None => Some (w, 0)
  | Some a =>
      f ← flow_at (flow_list w) a;
      let c := if 0 <? o_flow j then flow_counter f else sgn 64 (- flow_counter f) in
      if o_watermark j <? c then Some (w, 1)
      else Some (FlowWorld (flow_store (flow_list w) a (Flow (refs f) (flow_id f) (sgn 64 (flow_counter f + o_flow j)))) (jobs w), 0)
  end.

(** ** Runs *)
Inductive flow_op := FInit (i : nat) (alloc : option Z) | FExit (i : nat) | FCheck (i : nat).

Definition flow_step (w : flow_world) (x : flow_op) : option (flow_world * Z) :=
  match x with
  | FInit i al => w ← flow_init_job w i al; Some (w, 1)
  | FExit i => w ← flow_exit_job w i; Some (w, 1)
  | FCheck i => flow_threshold_exceeded w i
  end.

(** A job starts once and the pool hands out memory that is not in use. *)
Definition flow_legal (w : flow_world) (x : flow_op) : Prop :=
  match x with
  | FInit i al => (exists j, jobs w !! i = Some j /\ td_flow j = None) /\ (forall a, al = Some a -> flow_at (flow_list w) a = None)
  | FExit i | FCheck i => is_Some (jobs w !! i)
  end.

Inductive flow_run : flow_world -> list (flow_op * Z) -> flow_world -> Prop :=
| flow_done w : flow_run w [] w
| flow_next w x w1 r xs w2 : flow_legal w x -> flow_step w x = Some (w1, r) -> flow_run w1 xs w2 ->
    flow_run w ((x, r) :: xs) w2.

(** ** The invariant *)
Definition on_flow (a : Z) (j : flow_job) : bool := bool_decide (td_flow j = Some a).
Definition users (w : flow_world) (a : Z) : Z := Z.of_nat (length (filter (fun j => on_flow a j = true) (jobs w))).

Definition addrs (l : list (Z * fio_flow)) : list Z := l.*1.
Definition ids (l : list (Z * fio_flow)) : list Z := flow_id <$> l.*2.

(** [W] bounds the watermarks, [m] the weights. *)
Record flows_ok (W m : Z) (w : flow_world) : Prop := {
  fk_addrs : NoDup (addrs (flow_list w));
  fk_ids : NoDup (ids (flow_list w));
  fk_refs : forall a f, flow_at (flow_list w) a = Some f -> refs f = users w a /\ 0 < refs f;
  fk_jobs : forall i j a, jobs w !! i = Some j -> td_flow j = Some a ->
    o_flow j <> 0 /\ exists f, flow_at (flow_list w) a = Some f /\ flow_id f = u32 (o_flow_id j);
  fk_opts : forall i j, jobs w !! i = Some j -> 0 <= o_watermark j <= W /\ - m <= o_flow j <= m;
  fk_count : forall a f, flow_at (flow_list w) a = Some f -> - (W + m) <= flow_counter f <= W + m
}.

(** Lemmas on the list *)
Lemma flow_at_store l a f b : flow_at l a <> None ->
  flow_at (flow_store l a f) b = if b =? a then Some f else flow_at l b.
Proof.
  induction l as [|[c g] l IH]; [done|]. cbn [flow_at flow_store]. intros H.
  destruct (Z.eqb_spec c a) as [->|Hc]; cbn [flow_at].
  - destruct (Z.eqb_spec a b), (Z.eqb_spec b a); subst; done.
  - rewrite IH by done. destruct (Z.eqb_spec c b), (Z.eqb_spec b a); subst; done.
Qed.

Lemma store_addrs l a f : addrs (flow_store l a f) = addrs l.
Proof.
  induction l as [|[c g] l IH]; [done|]. cbn [flow_store]. destruct (c =? a); [done|].
  unfold addrs in *. cbn. f_equal. exact IH.
Qed.

Lemma store_ids l a f g : flow_at l a = Some g -> flow_id f = flow_id g -> ids (flow_store l a f) = ids l.
Proof.
  induction l as [|[c h] l IH]; [done|]. cbn [flow_store flow_at]. destruct (Z.eqb_spec c a).
  - intros [= ->] Hi. unfold ids. simpl. by rewrite Hi.
  - intros H Hi. unfold ids in *. cbn. f_equal. by apply IH.
Qed.

Lemma flow_at_elem l a f : flow_at l a = Some f -> (a, f) ∈ l.
Proof.
  induction l as [|[c g] l IH]; [done|]. cbn [flow_at]. destruct (Z.eqb_spec c a) as [->|].
  - intros [= ->]. by left.
  - intros. right. auto.
Qed.

Lemma flow_at_None l a : flow_at l a = None <-> a ∉ addrs l.
Proof.
  unfold addrs. induction l as [|[c g] l IH]; simpl; [split; [intros _ H%elem_of_nil|]; done|].
  rewrite not_elem_of_cons. destruct (Z.eqb_spec c a); [subst; split; [done|tauto]|]. rewrite IH. split; [intros; split; [congruence|done]|tauto].
Qed.

Lemma flow_at_del l a b : NoDup (addrs l) -> flow_at (flow_del l a) b = if b =? a then None else flow_at l b.
Proof.
  induction l as [|[c g] l IH]; simpl; intros Hnd; [by destruct (b =? a)|].
  apply list.NoDup_cons in Hnd as [Hn Hnd]. destruct (Z.eqb_spec c a) as [->|Hc]; simpl.
  - destruct (Z.eqb_spec b a) as [E|E]; [rewrite E; by apply flow_at_None|]. destruct (Z.eqb_spec a b); congruence.
  - rewrite IH by done. destruct (Z.eqb_spec c b), (Z.eqb_spec b a); congruence.
Qed.

Lemma flow_del_sub l a : sublist (flow_del l a) l.
Proof.
  induction l as [|[c g] l IH]; [constructor|]. simpl. destruct (c =? a); [by apply sublist_cons|by apply sublist_skip].
Qed.

Lemma flow_find_Some l id a : NoDup (addrs l) -> flow_find l id = Some a -> exists f, flow_at l a = Some f /\ flow_id f = id.
Proof.
  induction l as [|[c g] l IH]; [done|]. simpl. intros [Hn Hnd]%list.NoDup_cons. destruct (Z.eqb_spec (flow_id g) id).
  - intros [= ->]. exists g. by rewrite Z.eqb_refl.
  - intros H. destruct (IH Hnd H) as (f&Hf&Hi). exists f. split; [|done]. destruct (Z.eqb_spec c a); [subst|done].
    exfalso. apply Hn. apply flow_at_elem in Hf. apply (list_elem_of_fmap_2 fst) in Hf. done.
Qed.

Lemma flow_find_None l id : flow_find l id = None -> id ∉ ids l.
Proof.
  unfold ids. induction l as [|[c g] l IH]; simpl; [intros _ H%elem_of_nil; done|].
  destruct (Z.eqb_spec (flow_id g) id); [done|]. intros H. apply not_elem_of_cons. split; [congruence|auto].
Qed.

(** ** Every operation keeps it *)
Lemma users_insert w i j f a : jobs w !! i = Some j ->
  users (FlowWorld (flow_list w) (<[i := with_flow j f]> (jobs w))) a + (if on_flow a j then 1 else 0) =
  users w a + (if bool_decide (f = Some a) then 1 else 0).
Proof.
  intros Hi. unfold users. simpl. apply list_elem_of_split_length in Hi as (l1 & l2 & -> & ->).
  replace (length l1) with (length l1 + 0)%nat by lia. rewrite insert_app_r. simpl.
  rewrite !list.filter_app, !filter_cons, !length_app.
  assert (Hw : on_flow a (with_flow j f) = bool_decide (f = Some a)) by done. rewrite Hw.
  destruct (on_flow a j), (bool_decide (f = Some a));
    repeat match goal with |- context [decide ?P] => destruct (decide P) end; try done; simpl; lia.
Qed.

Section keeps.
Context (W m : Z).
Hypothesis small : 0 <= W /\ 0 <= m /\ W + m + m < 2 ^ 62.

Lemma users_bound w a : Z.of_nat (length (jobs w)) < 2 ^ 32 -> 0 <= users w a < 2 ^ 32.
Proof. intros H. unfold users. pose proof (length_filter (fun j => on_flow a j = true) (jobs w)). lia. Qed.

Lemma on_flow_other a j b : td_flow j = Some b -> on_flow a j = bool_decide (b = a).
Proof. intros E. unfold on_flow. rewrite E. apply bool_decide_ext. split; [by intros [= ->]|by intros ->]. Qed.

(** One more reference to the flow at [a]. *)
Lemma ref_ok l w i j a f (w' := FlowWorld (flow_store l a (Flow (u32 (refs f + 1)) (flow_id f) (flow_counter f)))
    (<[i := with_flow j (Some a)]> (jobs w))) :
  Z.of_nat (length (jobs w)) < 2 ^ 32 -> jobs w !! i = Some j -> td_flow j = None -> o_flow j <> 0 ->
  NoDup (addrs l) -> NoDup (ids l) -> flow_at l a = Some f -> flow_id f = u32 (o_flow_id j) ->
  (forall b g, flow_at l b = Some g -> refs g = users w b /\ (b <> a -> 0 < refs g) /\ - (W + m) <= flow_counter g <= W + m) ->
  (forall b g, flow_at (flow_list w) b = Some g -> flow_at l b = Some g) ->
  flows_ok W m w -> flows_ok W m w'.
Proof.
  intros Hlen Hi Hno Hfl Hnd Hids Ha Hid Hl Hsub [H1 H2 H3 H4 H5 H6].
  assert (Hu : forall b, users w' b = users w b + if bool_decide (Some a = Some b) then 1 else 0).
  { intros b. pose proof (users_insert w i j (Some a) b Hi) as E. unfold on_flow in E. rewrite Hno in E. unfold users in *. simpl in *. lia. }
  assert (Hat : forall b, flow_at (flow_list w') b = if b =? a then Some (Flow (u32 (refs f + 1)) (flow_id f) (flow_counter f)) else flow_at l b)
    by (intros b; apply flow_at_store; congruence).
  destruct (Hl a f Ha) as (Hr&_&Hc). pose proof (users_bound w a Hlen) as Hub.
  assert (users w' a < 2 ^ 32).
  { apply users_bound. unfold w'. simpl. by rewrite length_insert. }
  pose proof (Hu a) as Hua. rewrite bool_decide_eq_true_2 in Hua by done.
  split; simpl.
  - by rewrite store_addrs.
  - by rewrite (store_ids _ _ _ f).
  - intros b g Hb. change (flow_at (flow_list w') b = Some g) in Hb. rewrite Hat in Hb. destruct (Z.eqb_spec b a) as [->|Hne].
    + injection Hb as <-. simpl. rewrite wrap_small by (unfold uint; lia). lia.
    + rewrite Hu, bool_decide_eq_false_2 by congruence. destruct (Hl b g Hb) as (->&?&_). auto with lia.
  - intros k j' b Hk Hb. change (jobs w') with (<[i := with_flow j (Some a)]> (jobs w)) in Hk.
    change (flow_store _ _ _) with (flow_list w'). setoid_rewrite Hat.
    assert (Hcase : (j' = with_flow j (Some a) /\ b = a) \/ (exists k, jobs w !! k = Some j')).
    { destruct (decide (k = i)) as [->|Hne]; [|rewrite list_lookup_insert_ne in Hk by done; eauto].
      rewrite list_lookup_insert_eq in Hk by (by eapply lookup_lt_Some). injection Hk as <-. simpl in Hb. injection Hb as <-. by left. }
    destruct Hcase as [[-> ->]|[k' Hk']].
    + rewrite Z.eqb_refl. split; [done|]. eexists. split; [done|]. done.
    + destruct (H4 k' j' b Hk' Hb) as [? (g&Hg&Hgi)]. split; [done|]. destruct (Z.eqb_spec b a) as [->|]; [|eauto].
      eexists. split; [done|]. simpl. apply Hsub in Hg. congruence.
  - intros k j' Hk. destruct (decide (k = i)) as [->|Hne]; [|rewrite list_lookup_insert_ne in Hk by done; eauto].
    rewrite list_lookup_insert_eq in Hk by (by eapply lookup_lt_Some). injection Hk as <-. simpl. eauto.
  - intros b g Hb. change (flow_at (flow_list w') b = Some g) in Hb. rewrite Hat in Hb. destruct (Z.eqb_spec b a) as [->|Hne].
    + injection Hb as <-. done.
    + by destruct (Hl b g Hb) as (_&_&?).
Qed.

Lemma flow_init_ok w i al : Z.of_nat (length (jobs w)) < 2 ^ 32 -> flows_ok W m w -> flow_legal w (FInit i al) ->
  exists w', flow_init_job w i al = Some w' /\ flows_ok W m w' /\ length (jobs w') = length (jobs w).
Proof.
  intros Hlen Hw [(j&Hj&Hno) Hal]. unfold flow_init_job. rewrite Hj. cbn [mbind option_bind].
  destruct (Z.eqb_spec (o_flow j) 0) as [|Hne]; cbn [negb]; [by exists w|].
  pose proof Hw as [H1 H2 H3 H4 H5 H6].
  unfold flow_get. destruct (flow_find (flow_list w) (u32 (o_flow_id j))) as [a|] eqn:Ef.
  - destruct (flow_find_Some _ _ _ H1 Ef) as (f&Hf&Hid). rewrite Hf. cbn [mbind option_bind].
    eexists. split; [done|]. split; [|simpl; by rewrite length_insert]. eapply (ref_ok (flow_list w)); try done.
    intros b g Hb. destruct (H3 b g Hb). split_and!; try done; eapply H6; done.
  - destruct al as [a|]; cbn [mbind option_bind].
    + specialize (Hal a eq_refl). pose proof (proj1 (flow_at_None _ _) Hal) as Hnew.
      assert (Hat : forall b, flow_at (flow_list w ++ [(a, Flow 0 (u32 (o_flow_id j)) 0)]) b =
        if b =? a then Some (Flow 0 (u32 (o_flow_id j)) 0) else flow_at (flow_list w) b).
      { clear -Hnew. intros b. unfold addrs in Hnew. induction (flow_list w) as [|[c g] l IH]; simpl.
        - destruct (Z.eqb_spec a b), (Z.eqb_spec b a); congruence.
        - apply not_elem_of_cons in Hnew as [Hc Hn]. rewrite IH by done. simpl in Hc.
          destruct (Z.eqb_spec c b), (Z.eqb_spec b a); congruence. }
      rewrite Hat, Z.eqb_refl. cbn [mbind option_bind]. eexists. split; [done|]. split; [|simpl; by rewrite length_insert].
      assert (Hu0 : users w a = 0).
      { unfold users. destruct (filter (fun j => on_flow a j = true) (jobs w)) as [|j' l] eqn:El; [done|].
        assert (Hin : j' ∈ filter (fun j => on_flow a j = true) (jobs w)) by (rewrite El; by left).
        apply list_elem_of_filter in Hin as [Ho (k&Hk)%list_elem_of_lookup]. apply bool_decide_eq_true in Ho. destruct (H4 k j' a Hk Ho) as [_ (f&Hf&_)]. congruence. }
      eapply (ref_ok (flow_list w ++ [(a, Flow 0 (u32 (o_flow_id j)) 0)]) w i j a (Flow 0 (u32 (o_flow_id j)) 0)); try done.
      * unfold addrs in *. rewrite fmap_app. apply list.NoDup_app. split; [done|]. split; [|apply NoDup_singleton].
        intros x Hx Hx'. simpl in Hx'. apply list_elem_of_singleton in Hx' as ->. done.
      * unfold ids in *. rewrite !fmap_app. apply list.NoDup_app. split; [done|]. split; [|apply NoDup_singleton].
        intros x Hx Hx'. simpl in Hx'. apply list_elem_of_singleton in Hx' as ->. by apply flow_find_None in Ef.
      * rewrite Hat, Z.eqb_refl. done.
      * intros b g Hb. rewrite Hat in Hb. destruct (Z.eqb_spec b a) as [->|Hb'].
        -- injection Hb as <-. simpl. split_and!; [done|done|lia|lia].
        -- destruct (H3 b g Hb). split_and!; try done; eapply H6; done.
      * intros b g Hb. rewrite Hat. destruct (Z.eqb_spec b a) as [->|]; congruence.
    + eexists. split; [done|]. split; [|simpl; by rewrite length_insert].
      assert (with_flow j None = j) as -> by (destruct j; simpl in *; by subst). rewrite list_insert_id by done. by destruct w.
Qed.

Lemma flow_exit_ok w i : Z.of_nat (length (jobs w)) < 2 ^ 32 -> flows_ok W m w -> is_Some (jobs w !! i) ->
  exists w', flow_exit_job w i = Some w' /\ flows_ok W m w' /\ length (jobs w') = length (jobs w).
Proof.
  intros Hlen Hw [j Hj]. unfold flow_exit_job. rewrite Hj. cbn [mbind option_bind].
  destruct (td_flow j) as [a|] eqn:Ea; [|by exists w]. pose proof Hw as [H1 H2 H3 H4 H5 H6].
  destruct (H4 i j a Hj Ea) as [Hne (f&Hf&Hid)]. destruct (H3 a f Hf) as [Hr Hpos]. pose proof (users_bound w a Hlen).
  unfold flow_put. rewrite Hf. cbn [mbind option_bind]. rewrite wrap_small by (unfold uint; lia).
  set (jobs' := <[i := with_flow j None]> (jobs w)).
  assert (Hu : forall b, users (FlowWorld (flow_list w) jobs') b = users w b - if bool_decide (b = a) then 1 else 0).
  { intros b. pose proof (users_insert w i j None b Hj) as E. rewrite (on_flow_other _ _ a Ea) in E.
    rewrite (bool_decide_eq_false_2 (None = Some b)) in E by done.
    rewrite (bool_decide_ext (a = b) (b = a)) in E by done. fold jobs' in E. lia. }
  assert (Hjob : forall k j', jobs' !! k = Some j' -> (j' = with_flow j None \/ exists k', k' <> i /\ jobs w !! k' = Some j')).
  { intros k j' Hk. unfold jobs' in Hk. destruct (decide (k = i)) as [->|]; [|rewrite list_lookup_insert_ne in Hk by done; eauto].
    rewrite list_lookup_insert_eq in Hk by (by eapply lookup_lt_Some). injection Hk as <-. by left. }
  assert (Hopt : forall k j', jobs' !! k = Some j' -> 0 <= o_watermark j' <= W /\ - m <= o_flow j' <= m).
  { intros k j' [->|(k'&_&Hk')]%Hjob; simpl; eauto. }
  destruct (Z.eqb_spec (refs f - 1) 0) as [E0|E0]; cbn [mbind option_bind];
    (eexists; split; [done|]; split; [|cbn [jobs]; unfold jobs'; by rewrite length_insert]).
  - split; simpl; fold jobs'; try done.
    + apply (sublist_NoDup _ _ H1). apply fmap_sublist, flow_del_sub.
    + apply (sublist_NoDup _ _ H2). apply fmap_sublist, fmap_sublist, flow_del_sub.
    + intros b g. rewrite flow_at_del by done. destruct (Z.eqb_spec b a); [done|]. intros Hb. destruct (H3 b g Hb) as [-> ?].
      split; [|done]. pose proof (Hu b) as E. rewrite bool_decide_eq_false_2 in E by done. unfold users in *. simpl in *. lia.
    + intros k j' b Hk Hb. destruct (Hjob k j' Hk) as [->|(k'&Hne'&Hk')]; [done|]. destruct (H4 k' j' b Hk' Hb) as [? Hg].
      split; [done|]. rewrite flow_at_del by done. destruct (Z.eqb_spec b a) as [->|]; [|done]. exfalso.
      assert (Hz : users (FlowWorld (flow_list w) jobs') a = 0) by (rewrite Hu, bool_decide_eq_true_2 by done; lia).
      unfold users in Hz. simpl in Hz. assert (Hin : j' ∈ filter (fun j => on_flow a j = true) jobs').
      { apply list_elem_of_filter. split; [by apply bool_decide_eq_true_2|]. eapply list_elem_of_lookup_2. exact Hk. }
      destruct (filter _ jobs'); [by apply elem_of_nil in Hin|simpl in Hz; lia].
    + intros b g. rewrite flow_at_del by done. destruct (Z.eqb_spec b a); [done|]. eauto.
  - set (f' := Flow (refs f - 1) (flow_id f) (flow_counter f)).
    assert (Hat : forall b, flow_at (flow_store (flow_list w) a f') b = if b =? a then Some f' else flow_at (flow_list w) b)
      by (intros b; apply flow_at_store; congruence).
    split; simpl; fold jobs' f'; try done.
    + by rewrite store_addrs.
    + by rewrite (store_ids _ _ _ f).
    + intros b g. rewrite Hat. pose proof (Hu b) as E. unfold users in E |- *. simpl in E |- *.
      destruct (Z.eqb_spec b a) as [->|Hb]; intros Hg.
      * injection Hg as <-. rewrite bool_decide_eq_true_2 in E by done. unfold users in Hr. simpl. lia.
      * rewrite bool_decide_eq_false_2 in E by done. destruct (H3 b g Hg) as [Hrg ?]. unfold users in Hrg. lia.
    + intros k j' b Hk Hb. destruct (Hjob k j' Hk) as [->|(k'&_&Hk')]; [done|]. destruct (H4 k' j' b Hk' Hb) as [? (g&Hg&Hgi)].
      split; [done|]. rewrite Hat. destruct (Z.eqb_spec b a) as [->|]; [|eauto]. exists f'. split; [done|]. simpl. congruence.
    + intros b g. rewrite Hat. destruct (Z.eqb_spec b a) as [->|]; [intros [= <-]; simpl; eauto|eauto].
Qed.

(** Moving a counter within the bounds. *)
Lemma counter_store_ok w a f c : flows_ok W m w -> flow_at (flow_list w) a = Some f -> - (W + m) <= c <= W + m ->
  flows_ok W m (FlowWorld (flow_store (flow_list w) a (Flow (refs f) (flow_id f) c)) (jobs w)).
Proof.
  intros [H1 H2 H3 H4 H5 H6] Hf Hc. set (f' := Flow _ _ _).
  assert (Hat : forall b, flow_at (flow_store (flow_list w) a f') b = if b =? a then Some f' else flow_at (flow_list w) b)
    by (intros b; apply flow_at_store; congruence).
  split; simpl; try done.
  - by rewrite store_addrs.
  - by rewrite (store_ids _ _ _ f).
  - intros b g. rewrite Hat. destruct (Z.eqb_spec b a) as [->|]; [|apply H3]. intros [= <-]. simpl. by apply H3.
  - intros k j' b Hk Hb. destruct (H4 k j' b Hk Hb) as [? (g&Hg&Hgi)]. split; [done|]. rewrite Hat.
    destruct (Z.eqb_spec b a) as [->|]; [|eauto]. exists f'. split; [done|]. simpl. congruence.
  - intros b g. rewrite Hat. destruct (Z.eqb_spec b a) as [->|]; [|apply H6]. intros [= <-]. done.
Qed.

(** A check leaves the references alone and moves one counter, if it passes. *)
Lemma flow_check_ok w i : flows_ok W m w -> is_Some (jobs w !! i) ->
  exists w' r, flow_threshold_exceeded w i = Some (w', r) /\ flows_ok W m w' /\ jobs w' = jobs w /\
    forall a f, flow_at (flow_list w) a = Some f -> exists f', flow_at (flow_list w') a = Some f' /\
      flow_counter f' = flow_counter f +
        match jobs w !! i with Some j => if on_flow a j && (r =? 0) then o_flow j else 0 | None => 0 end.
Proof.
  intros Hw [j Hj]. unfold flow_threshold_exceeded. rewrite Hj. cbn [mbind option_bind].
  assert (Hsame : forall r, (forall a, on_flow a j && (r =? 0) = false) -> forall a f, flow_at (flow_list w) a = Some f ->
    exists f', flow_at (flow_list w) a = Some f' /\ flow_counter f' = flow_counter f + if on_flow a j && (r =? 0) then o_flow j else 0).
  { intros r Hr a f Hf. exists f. split; [done|]. rewrite Hr. lia. }
  destruct (td_flow j) as [a|] eqn:Ea.
  2:{ exists w, 0. split_and!; try done. apply Hsame. intros b. unfold on_flow. by rewrite Ea. }
  pose proof Hw as [H1 H2 H3 H4 H5 H6]. destruct (H4 i j a Hj Ea) as [Hne (f&Hf&Hid)]. rewrite Hf. cbn [mbind option_bind].
  pose proof (H6 a f Hf) as Hc. destruct (H5 i j Hj) as [Hwm Hfl].
  assert (Hsg : forall x, - 2 ^ 62 < x < 2 ^ 62 -> sgn 64 x = x).
  { intros x Hx. apply sgn_small; lia. }
  rewrite (Hsg (- flow_counter f)) by lia.
  destruct (Z.ltb_spec (o_watermark j) (if 0 <? o_flow j then flow_counter f else - flow_counter f)) as [Hlt|Hge].
  { exists w, 1. split_and!; try done. apply Hsame. intros b. apply andb_false_r. }
  rewrite Hsg by lia. set (f' := Flow _ _ _). eexists _, 0. split; [done|]. simpl.
  assert (Hat : forall b, flow_at (flow_store (flow_list w) a f') b = if b =? a then Some f' else flow_at (flow_list w) b)
    by (intros b; apply flow_at_store; congruence).
  assert (Hnew : - (W + m) <= flow_counter f + o_flow j <= W + m) by (destruct (Z.ltb_spec 0 (o_flow j)); lia).
  split; [|split; [done|]].
  - by apply counter_store_ok.
  - intros b g Hg. rewrite Hat, (on_flow_other _ _ a Ea), andb_true_r. destruct (Z.eqb_spec b a) as [->|Hb].
    + rewrite bool_decide_eq_true_2 by done. exists f'. split; [done|]. simpl. congruence.
    + rewrite bool_decide_eq_false_2 by congruence. exists g. split; [done|lia].
Qed.

Lemma flow_step_ok w x : Z.of_nat (length (jobs w)) < 2 ^ 32 -> flows_ok W m w -> flow_legal w x ->
  exists w' r, flow_step w x = Some (w', r) /\ flows_ok W m w' /\ length (jobs w') = length (jobs w).
Proof.
  intros Hlen Hw Hl. destruct x as [i al|i|i]; simpl.
  - destruct (flow_init_ok w i al Hlen Hw Hl) as (w'&->&H'&E). by exists w', 1.
  - destruct (flow_exit_ok w i Hlen Hw Hl) as (w'&->&H'&E). by exists w', 1.
  - destruct (flow_check_ok w i Hw Hl) as (w'&r&->&H'&E&_). exists w', r. by rewrite E.
Qed.

Lemma flow_run_ok w xs w' : flow_run w xs w' -> Z.of_nat (length (jobs w)) < 2 ^ 32 -> flows_ok W m w -> 
  flows_ok W m w' /\ length (jobs w') = length (jobs w).
Proof.
  induction 1 as [|w x w1 r xs w2 Hl E _ IH]; intros Hlen Hw; [done|].
  destruct (flow_step_ok w x Hlen Hw Hl) as (w1'&r'&E'&Hw1&El). rewrite E in E'. injection E' as <- <-.
  destruct IH as [? ?]; [by rewrite El|done|]. split; [done|congruence].
Qed.
End keeps.

(** ** Theorems *)

(** The jobs before any of them has started. *)
Definition fresh_jobs (W m : Z) (js : list flow_job) : Prop :=
  forall i j, js !! i = Some j -> td_flow j = None /\ 0 <= o_watermark j <= W /\ - m <= o_flow j <= m.

Lemma fresh_flow_ok W m js : fresh_jobs W m js -> flows_ok W m (FlowWorld [] js).
Proof.
  intros H. split; simpl; [constructor|constructor|done| | |done].
  - intros i j a Hi Ha. destruct (H i j Hi) as [E _]. congruence.
  - intros i j Hi. by destruct (H i j Hi) as [_ ?].
Qed.

(** Flow control is memory safe and sharing is by id: in any sequence of
    calls of jobs that start, check and leave, the next legal call never touches a freed
    flow, a flow's count of references is the number of jobs that point at it,
    and two jobs point at the same flow exactly if they have the same
    [flow_id]. *)
Theorem flow_shared W m js xs w x :
  0 <= W /\ 0 <= m /\ W + m + m < 2 ^ 62 -> Z.of_nat (length js) < 2 ^ 32 -> fresh_jobs W m js ->
  flow_run (FlowWorld [] js) xs w -> flow_legal w x ->
  is_Some (flow_step w x) /\
  (forall a f, flow_at (flow_list w) a = Some f -> refs f = users w a /\ 0 < refs f) /\
  (forall i j i' j' a a', jobs w !! i = Some j -> jobs w !! i' = Some j' -> td_flow j = Some a -> td_flow j' = Some a' ->
     a = a' <-> u32 (o_flow_id j) = u32 (o_flow_id j')).
Proof.
  intros Hs Hlen Hf Hr Hl.
  destruct (flow_run_ok W m Hs _ _ _ Hr Hlen (fresh_flow_ok W m js Hf)) as [Hw El]. simpl in El.
  destruct (flow_step_ok W m Hs w x ltac:(by rewrite El) Hw Hl) as (w'&r&E&_&_).
  split; [by exists (w', r)|]. split; [apply Hw|]. intros i j i' j' a a' Hi Hi' Ha Ha'.
  destruct (fk_jobs _ _ _ Hw i j a Hi Ha) as [_ (f&Hfa&Hid)].
  destruct (fk_jobs _ _ _ Hw i' j' a' Hi' Ha') as [_ (f'&Hfa'&Hid')]. rewrite <- Hid, <- Hid'. split.
  - intros <-. congruence.
  - intros E'. apply flow_at_elem in Hfa, Hfa'. pose proof (fk_ids _ _ _ Hw) as Hnd. unfold ids in Hnd.
    rewrite <- list_fmap_compose in Hnd.
    apply list_elem_of_lookup in Hfa as [k Hk], Hfa' as [k' Hk'].
    assert (k = k') as <-.
    { eapply (NoDup_lookup _ k k' (flow_id f)); [exact Hnd|by rewrite list_lookup_fmap, Hk|rewrite list_lookup_fmap, Hk'; simpl; congruence]. }
    congruence.
Qed.

#[export] Instance flow_op_eq_dec : EqDecision flow_op.
Proof. solve_decision. Defined.

(** The weight with which job [i] pulls at flow [a]. *)
Definition weight (w : flow_world) (a : Z) (i : nat) : Z :=
  match jobs w !! i with Some j => if on_flow a j then o_flow j else 0 | None => 0 end.

Definition zsum (g : nat -> Z) (n : nat) : Z := foldr Z.add 0 (g <$> seq 0 n).

Lemma zsum_S g n : zsum g (S n) = zsum g n + g n.
Proof.
  unfold zsum. rewrite seq_S, fmap_app, foldr_app. simpl. rewrite Z.add_0_r.
  generalize (g n). intros c. induction (g <$> seq 0 n) as [|x l IH]; simpl; [lia|]. rewrite IH. lia.
Qed.

Lemma zsum_add g h n : zsum (fun i => g i + h i) n = zsum g n + zsum h n.
Proof. induction n as [|n IH]; [done|]. rewrite !zsum_S, IH. lia. Qed.

Lemma zsum_ext g h n : (forall i, g i = h i) -> zsum g n = zsum h n.
Proof. intros E. induction n as [|n IH]; [done|]. by rewrite !zsum_S, IH, E. Qed.

Lemma zsum_point g k n : zsum (fun i => if decide (i = k) then g i else 0) n = if decide (k < n)%nat then g k else 0.
Proof.
  induction n as [|n IH]; [by destruct (decide _); [lia|]|]. rewrite zsum_S, IH.
  repeat case_decide; subst; lia.
Qed.

(** ** Witnesses *)
Definition two_jobs : list flow_job := [FlowJob 8 1 16 None; FlowJob (-1) 1 16 None].

Lemma two_jobs_fresh : fresh_jobs 16 8 two_jobs.
Proof. intros [|[|i]] j Hj; simplify_eq/=; (split; [done|lia]). Qed.

Definition two_started : flow_world := FlowWorld [(64, Flow 2 1 0)] [FlowJob 8 1 16 (Some 64); FlowJob (-1) 1 16 (Some 64)].
Definition two_start : list (flow_op * Z) := [(FInit 0 (Some 64), 1); (FInit 1 None, 1)].

Lemma two_start_run : flow_run (FlowWorld [] two_jobs) two_start two_started.
Proof.
  econstructor; [split; [by eexists|done]|reflexivity|]. econstructor; [split; [by eexists|done]|reflexivity|]. constructor.
Qed.

Lemma flow_shared_witness : is_Some (flow_step two_started (FExit 1)) /\ refs (Flow 2 1 0) = users two_started 64.
Proof.
  destruct (flow_shared 16 8 two_jobs two_start two_started (FExit 1) ltac:(lia) ltac:(simpl; lia) two_jobs_fresh two_start_run
    ltac:(by eexists)) as (H1&H2&_).
  split; [exact H1|]. exact (proj1 (H2 64 (Flow 2 1 0) eq_refl)).
Defined.
