(* ===== verification/FlowRace.v ===== *)
(** * Overlapping flow checks: [flow.c]

    [flow_threshold_exceeded] takes no lock: it reads the shared counter to compare
    it with the watermark, and if the job may go on it reads the counter again and
    writes it back moved by the weight.  Here each access is a step of its own, and
    the checks of different jobs overlap. *)
From S2P Require Import Prelude Flow.

(** ** The accesses *)

(** Where a job is in its check: outside of it, past the comparison, or with the
    counter loaded and not yet written back. *)
Inductive phase := Idle | Passed | Loaded (v : Z).

#[export] Instance phase_eq_dec : EqDecision phase.
Proof. solve_decision. Defined.

Record racing := Racing { r_world : flow_world; phases : list phase }.

(** The comparison, with the answer if the check ends here. *)
Definition check_compare (r : racing) (i : nat) : option (racing * option Z) :=
  p ← phases r !! i; j ← jobs (r_world r) !! i;
  if negb (bool_decide (p = Idle)) then None else
  match td_flow j with
  | None => Some (r, Some 0)
  | Some a =>
      f ← flow_at (flow_list (r_world r)) a;
      let c := if 0 <? o_flow j then flow_counter f else sgn 64 (- flow_counter f) in
      if o_watermark j <? c then Some (r, Some 1) else Some (Racing (r_world r) (<[i := Passed]> (phases r)), None)
  end.

(** The two halves of [flow->flow_counter += td->o.flow]. *)
Definition check_load (r : racing) (i : nat) : option racing :=
  p ← phases r !! i; j ← jobs (r_world r) !! i; a ← td_flow j; f ← flow_at (flow_list (r_world r)) a;
  match p with Passed => Some (Racing (r_world r) (<[i := Loaded (flow_counter f)]> (phases r))) | _ => None end.

Definition check_store (r : racing) (i : nat) : option (racing * option Z) :=
  p ← phases r !! i; j ← jobs (r_world r) !! i; a ← td_flow j; f ← flow_at (flow_list (r_world r)) a;
  match p with
  | Loaded v => Some (Racing (FlowWorld (flow_store (flow_list (r_world r)) a (Flow (refs f) (flow_id f) (sgn 64 (v + o_flow j)))) (jobs (r_world r)))
                             (<[i := Idle]> (phases r)), Some 0)
  | _ => None
  end.

(** The addition with nothing between its halves. *)
Definition check_add (r : racing) (i : nat) : option (racing * option Z) := r1 ← check_load r i; check_store r1 i.

(** ** Runs *)

(** A job starts or leaves, compares, or adds. *)
Inductive race_op := RCall (x : flow_op) | RCompare (i : nat) | RAdd (i : nat).

Definition race_step (r : racing) (x : race_op) : option (racing * option Z) :=
  match x with
  | RCall x => '(w, _) ← flow_step (r_world r) x; Some (Racing w (phases r), None)
  | RCompare i => check_compare r i
  | RAdd i => check_add r i
  end.

(** A job is in one place of its own code at a time. *)
Definition race_legal (r : racing) (x : race_op) : Prop :=
  match x with
  | RCall (FInit i _ as y) | RCall (FExit i as y) => phases r !! i = Some Idle /\ flow_legal (r_world r) y
  | RCall (FCheck _) => False
  | RCompare i => phases r !! i = Some Idle
  | RAdd i => phases r !! i = Some Passed
  end.

Inductive race_run : racing -> list race_op -> racing -> Prop :=
| race_done r : race_run r [] r
| race_next r x r1 a xs r2 : race_legal r x -> race_step r x = Some (r1, a) -> race_run r1 xs r2 -> race_run r (x :: xs) r2.

(** What the addition does. *)
Lemma check_add_eq r i j a f : phases r !! i = Some Passed -> jobs (r_world r) !! i = Some j -> td_flow j = Some a -> flow_at (flow_list (r_world r)) a = Some f ->
  check_add r i = Some (Racing (FlowWorld (flow_store (flow_list (r_world r)) a (Flow (refs f) (flow_id f) (sgn 64 (flow_counter f + o_flow j)))) (jobs (r_world r)))
                               (<[i := Idle]> (phases r)), Some 0).
Proof.
  intros Hp Hj Ha Hf. pose proof (lookup_lt_Some _ _ _ Hp) as Hlt. unfold check_add, check_load. rewrite Hp, Hj. cbn [mbind option_bind]. rewrite Ha. cbn [mbind option_bind].
  rewrite Hf. cbn [mbind option_bind]. unfold check_store. cbn [r_world phases]. rewrite list_lookup_insert_eq by done. rewrite Hj. cbn [mbind option_bind].
  rewrite Ha. cbn [mbind option_bind]. rewrite Hf. cbn [mbind option_bind]. by rewrite list_insert_insert_eq.
Qed.

(** A check that is not interrupted is [flow_threshold_exceeded]. *)
Lemma check_uninterrupted r i : phases r !! i = Some Idle ->
  ('(r1, a) ← check_compare r i; match a with Some v => Some (r1, Some v) | None => check_add r1 i end) =
  ('(w, v) ← flow_threshold_exceeded (r_world r) i; Some (Racing w (phases r), Some v)).
Proof.
  intros Hp. unfold check_compare, flow_threshold_exceeded. rewrite Hp. cbn [mbind option_bind].
  destruct (jobs (r_world r) !! i) as [j|] eqn:Hj; [|done]. cbn [mbind option_bind negb]. rewrite bool_decide_eq_true_2 by done. cbn [negb].
  destruct (td_flow j) as [a|] eqn:Ha; [|by destruct r].
  destruct (flow_at _ a) as [f|] eqn:Hf; [|done]. cbn [mbind option_bind].
  destruct (_ <? _); cbn [mbind option_bind]; [by destruct r|].
  rewrite (check_add_eq _ i j a f) by (done || (cbn; by rewrite list_lookup_insert_eq by (by eapply lookup_lt_Some))).
  cbn [phases r_world]. by rewrite list_insert_insert_eq, list_insert_id.
Qed.

(** ** The invariant *)

(** What the jobs past their comparison are about to add to flow [a], counted in
    the direction [s]. *)
Definition due (s : Z) (r : racing) (a : Z) (i : nat) : Z :=
  if bool_decide (phases r !! i = Some Passed) then Z.max 0 (s * weight (r_world r) a i) else 0.

(** [n] jobs, watermarks up to [W], weights up to [m]. *)
Record racing_ok (W m : Z) (n : nat) (r : racing) : Prop := {
  ro_flows : flows_ok (W + Z.of_nat n * m) m (r_world r);
  ro_jobs : length (jobs (r_world r)) = n;
  ro_phases : length (phases r) = n;
  ro_opts : forall i j, jobs (r_world r) !! i = Some j -> 0 <= o_watermark j <= W /\ - m <= o_flow j <= m;
  ro_passed : forall i j, phases r !! i = Some Passed -> jobs (r_world r) !! i = Some j -> is_Some (td_flow j);
  ro_count : forall s a f, s = 1 \/ s = -1 -> flow_at (flow_list (r_world r)) a = Some f ->
    s * flow_counter f + zsum (due s r a) n <= W + Z.of_nat n * m
}.

Lemma zsum_le g n m : (forall i, g i <= m) -> zsum g n <= Z.of_nat n * m.
Proof. intros H. induction n as [|n IH]; [done|]. rewrite zsum_S. specialize (H n). lia. Qed.

Lemma zsum_nonneg g n : (forall i, 0 <= g i) -> 0 <= zsum g n.
Proof. intros H. induction n as [|n IH]; [done|]. rewrite zsum_S. specialize (H n). lia. Qed.

(** Changing one summand. *)
Lemma zsum_change g h k n : (k < n)%nat -> (forall i, i <> k -> g i = h i) -> zsum g n = zsum h n + (g k - h k).
Proof.
  intros Hk H. rewrite (zsum_ext g (fun i => h i + if decide (i = k) then g i - h i else 0)) by (intros i; case_decide; subst; [lia|rewrite H by done; lia]).
  rewrite zsum_add, (zsum_point (fun i => g i - h i)), decide_True by done. lia.
Qed.

(** ** Every step keeps it *)

(** A job that starts or leaves changes itself only, and no counter but that of a
    new flow. *)
Definition framed (i : nat) (w w' : flow_world) : Prop :=
  (forall k, k <> i -> jobs w' !! k = jobs w !! k) /\
  (forall j', jobs w' !! i = Some j' -> exists j, jobs w !! i = Some j /\ o_watermark j' = o_watermark j /\ o_flow j' = o_flow j) /\
  forall a f', flow_at (flow_list w') a = Some f' -> flow_counter f' = 0 \/ exists f, flow_at (flow_list w) a = Some f /\ flow_counter f' = flow_counter f.

Lemma framed_refl i w : framed i w w.
Proof. split_and!; eauto. Qed.

Lemma framed_with i w l j fl : jobs w !! i = Some j ->
  (forall a f', flow_at l a = Some f' -> flow_counter f' = 0 \/ exists f, flow_at (flow_list w) a = Some f /\ flow_counter f' = flow_counter f) ->
  framed i w (FlowWorld l (<[i := with_flow j fl]> (jobs w))).
Proof.
  intros Hj Hl. split_and!; [| |done]; cbn [jobs].
  - intros k Hk. by apply list_lookup_insert_ne.
  - intros j'. rewrite list_lookup_insert_eq by (by eapply lookup_lt_Some). intros [= <-]. by exists j.
Qed.

Lemma flow_at_app l k a : flow_at (l ++ k) a = match flow_at l a with Some f => Some f | None => flow_at k a end.
Proof. induction l as [|[b g] l IH]; [done|]. cbn. by destruct (b =? a). Qed.

Lemma init_framed w i al w' : flow_init_job w i al = Some w' -> framed i w w'.
Proof.
  unfold flow_init_job. destruct (jobs w !! i) as [j|] eqn:Hj; [|done]. cbn [mbind option_bind].
  destruct (negb _); [|intros [= <-]; apply framed_refl]. destruct (flow_get _ _ al) as [[l fl]|] eqn:E; [|done]. intros [= <-]. apply framed_with; [done|].
  assert (Hstore : forall l0 a g b f', flow_at l0 a = Some g -> flow_at (flow_store l0 a (Flow (u32 (refs g + 1)) (flow_id g) (flow_counter g))) b = Some f' ->
    exists f, flow_at l0 b = Some f /\ flow_counter f' = flow_counter f).
  { intros l0 a g b f' Hg. rewrite flow_at_store by congruence. destruct (Z.eqb_spec b a) as [->|]; [intros [= <-]|]; eauto. }
  unfold flow_get in E. destruct (flow_find _ _) as [a|] eqn:Ef.
  - destruct (flow_at _ a) as [g|] eqn:Hg; [|done]. injection E as <- <-. intros b f' Hb. right. eauto.
  - destruct al as [a|]; [|injection E as <- <-; eauto]. destruct (flow_at (_ ++ _) a) as [g|] eqn:Hg; [|done]. injection E as <- <-.
    intros b f' Hb. destruct (Hstore _ _ _ _ _ Hg Hb) as (f & Hf & ->). rewrite flow_at_app in Hf. destruct (flow_at (flow_list w) b) as [h|] eqn:Eh.
    + injection Hf as <-. eauto.
    + cbn in Hf. destruct (a =? b); [|done]. injection Hf as <-. by left.
Qed.

Lemma exit_framed w i w' : NoDup (addrs (flow_list w)) -> flow_exit_job w i = Some w' -> framed i w w'.
Proof.
  intros Hnd. unfold flow_exit_job. destruct (jobs w !! i) as [j|] eqn:Hj; [|done]. cbn [mbind option_bind].
  destruct (td_flow j) as [a|]; [|intros [= <-]; apply framed_refl]. destruct (flow_put _ a) as [l|] eqn:E; [|done]. intros [= <-]. apply framed_with; [done|].
  unfold flow_put in E. destruct (flow_at _ a) as [g|] eqn:Hg; [|done]. cbn [mbind option_bind] in E. destruct (_ =? 0); injection E as <-; intros b f'.
  - rewrite flow_at_del by done. destruct (b =? a); [done|eauto].
  - rewrite flow_at_store by congruence. destruct (Z.eqb_spec b a) as [->|]; [intros [= <-]|]; eauto.
Qed.

Section keeps.
Context (W m : Z) (n : nat).
Hypothesis small : 0 <= W /\ 0 <= m /\ W + Z.of_nat n * m + m + m < 2 ^ 62 /\ Z.of_nat n < 2 ^ 32.

Local Lemma bound_small : 0 <= W + Z.of_nat n * m /\ 0 <= m /\ (W + Z.of_nat n * m) + m + m < 2 ^ 62.
Proof. destruct small as (?&?&?&?). pose proof (Z.mul_nonneg_nonneg (Z.of_nat n) m). lia. Qed.

Lemma due_bound s r a i : s = 1 \/ s = -1 -> (forall i j, jobs (r_world r) !! i = Some j -> 0 <= o_watermark j <= W /\ - m <= o_flow j <= m) ->
  0 <= due s r a i <= m.
Proof.
  intros Hs Ho. unfold due, weight. case_bool_decide; [|lia]. destruct (jobs _ !! i) as [j|] eqn:Hj; [|lia]. specialize (Ho i j Hj).
  destruct (on_flow a j); destruct Hs as [-> | ->]; lia.
Qed.

Lemma framed_racing r w' i : racing_ok W m n r -> phases r !! i = Some Idle -> framed i (r_world r) w' -> flows_ok (W + Z.of_nat n * m) m w' ->
  length (jobs w') = length (jobs (r_world r)) -> racing_ok W m n (Racing w' (phases r)).
Proof.
  intros [H1 H2 H3 H4 H5 H6] Hi (Hk & Hj & Hc) Hw' Hlen.
  assert (Hopt : forall k j', jobs w' !! k = Some j' -> 0 <= o_watermark j' <= W /\ - m <= o_flow j' <= m).
  { intros k j' E. destruct (decide (k = i)) as [->|]; [|rewrite Hk in E by done; eauto]. destruct (Hj j' E) as (j & Ej & -> & ->). eauto. }
  split; cbn [r_world phases]; [done|congruence|done|exact Hopt| |].
  - intros k j' Hp E. rewrite Hk in E by congruence. eauto.
  - intros s a f' Hs Hf'. destruct (Hc a f' Hf') as [-> |(f & Hf & ->)].
    + assert (zsum (due s (Racing w' (phases r)) a) n <= Z.of_nat n * m) by (apply zsum_le; intros k; apply due_bound; done). lia.
    + rewrite (zsum_ext _ (due s r a)); [by apply H6|]. intros k. unfold due. cbn [phases r_world]. case_bool_decide; [|done].
      unfold weight. by rewrite Hk by congruence.
Qed.

Lemma call_racing r x : racing_ok W m n r -> race_legal r (RCall x) -> exists r', race_step r (RCall x) = Some (r', None) /\ racing_ok W m n r'.
Proof.
  intros Hr Hl. pose proof bound_small as Hb. pose proof Hr as [H1 H2 _ _ _ _].
  assert (Hlen : Z.of_nat (length (jobs (r_world r))) < 2 ^ 32) by (rewrite H2; lia).
  destruct x as [i al|i|]; [| |done]; destruct Hl as [Hi Hl]; cbn [race_step flow_step].
  - destruct (flow_init_ok _ m Hb _ i al Hlen H1 Hl) as (w' & E & Hw' & Elen). rewrite E. eexists. split; [done|]. eapply framed_racing; eauto using init_framed.
  - destruct (flow_exit_ok _ m _ i Hlen H1 Hl) as (w' & E & Hw' & Elen). rewrite E. eexists. split; [done|]. eapply framed_racing; eauto using exit_framed, fk_addrs.
Qed.

Lemma racing_job r i p : racing_ok W m n r -> phases r !! i = Some p -> exists j, jobs (r_world r) !! i = Some j.
Proof. intros Hr Hp. apply lookup_lt_Some in Hp. rewrite (ro_phases _ _ _ _ Hr), <- (ro_jobs _ _ _ _ Hr) in Hp. by apply lookup_lt_is_Some. Qed.

Lemma weight_on r i j a b : jobs (r_world r) !! i = Some j -> td_flow j = Some a -> weight (r_world r) b i = if b =? a then o_flow j else 0.
Proof. intros Hj Ha. unfold weight. rewrite Hj, (on_flow_other b j a Ha). destruct (Z.eqb_spec b a); case_bool_decide; congruence. Qed.

(** The counter stays well within 64 bits. *)
Lemma racing_small r a f : racing_ok W m n r -> flow_at (flow_list (r_world r)) a = Some f -> - (W + Z.of_nat n * m) <= flow_counter f <= W + Z.of_nat n * m.
Proof.
  intros Hr Hf. assert (Hz : forall s, s = 1 \/ s = -1 -> 0 <= zsum (due s r a) n).
  { intros s Hs. apply zsum_nonneg. intros k. by apply due_bound, Hr. }
  pose proof (ro_count _ _ _ _ Hr 1 a f (or_introl eq_refl) Hf). pose proof (ro_count _ _ _ _ Hr (-1) a f (or_intror eq_refl) Hf).
  pose proof (Hz 1 (or_introl eq_refl)). pose proof (Hz (-1) (or_intror eq_refl)). lia.
Qed.

Lemma compare_racing r i : racing_ok W m n r -> phases r !! i = Some Idle ->
  exists r' v, check_compare r i = Some (r', v) /\ racing_ok W m n r' /\ r_world r' = r_world r.
Proof.
  intros Hr Hi. pose proof bound_small as Hb. destruct (racing_job r i Idle Hr Hi) as [j Hj]. unfold check_compare. rewrite Hi, Hj. cbn [mbind option_bind].
  rewrite bool_decide_eq_true_2 by done. cbn [negb]. destruct (td_flow j) as [a|] eqn:Ha; [|by exists r, (Some 0)].
  destruct (fk_jobs _ _ _ (ro_flows _ _ _ _ Hr) i j a Hj Ha) as [Hne (f & Hf & _)]. rewrite Hf. cbn [mbind option_bind]. pose proof (racing_small r a f Hr Hf) as Hsm.
  rewrite (sgn_small 64 (- flow_counter f)) by lia. destruct (Z.ltb_spec (o_watermark j) (if 0 <? o_flow j then flow_counter f else - flow_counter f)) as [|Hle]; [by exists r, (Some 1)|].
  eexists _, None. split; [done|]. split; [|done]. pose proof Hr as [H1 H2 H3 H4 H5 H6]. pose proof (lookup_lt_Some _ _ _ Hi) as Hlt.
  destruct (H4 i j Hj) as [Hwm _]. split; cbn [r_world phases]; [done|done|by rewrite length_insert|done| |].
  - intros k j' Hk Hj'. destruct (decide (k = i)) as [->|]; [|rewrite list_lookup_insert_ne in Hk by done; eauto]. rewrite Hj in Hj'. injection Hj' as <-. by rewrite Ha.
  - intros s b g Hs Hg. set (r' := Racing _ _).
    assert (Hsum : zsum (due s r' b) n <= Z.of_nat n * m) by (apply zsum_le; intros k; by apply due_bound).
    destruct (decide (0 < s * weight (r_world r) b i)) as [Hpos|Hneg].
    + rewrite (weight_on r i j a b Hj Ha) in Hpos. destruct (Z.eqb_spec b a) as [->|]; [|lia]. assert (g = f) as -> by congruence.
      destruct Hs as [-> | ->]; destruct (Z.ltb_spec 0 (o_flow j)); lia.
    + rewrite (zsum_ext _ (due s r b)); [by apply H6|]. intros k. unfold due, r'. cbn [phases r_world]. destruct (decide (k = i)) as [->|].
      * rewrite list_lookup_insert_eq, Hi by done. rewrite bool_decide_eq_true_2, bool_decide_eq_false_2 by done. lia.
      * by rewrite list_lookup_insert_ne.
Qed.

Lemma add_racing r i : racing_ok W m n r -> phases r !! i = Some Passed ->
  exists r', check_add r i = Some (r', Some 0) /\ racing_ok W m n r' /\ jobs (r_world r') = jobs (r_world r) /\
    forall b g, flow_at (flow_list (r_world r)) b = Some g -> exists g', flow_at (flow_list (r_world r')) b = Some g' /\
      flow_counter g' = flow_counter g + weight (r_world r) b i.
Proof.
  intros Hr Hi. pose proof bound_small as Hb. destruct (racing_job r i Passed Hr Hi) as [j Hj]. destruct (ro_passed _ _ _ _ Hr i j Hi Hj) as [a Ha].
  destruct (fk_jobs _ _ _ (ro_flows _ _ _ _ Hr) i j a Hj Ha) as [Hne (f & Hf & _)]. rewrite (check_add_eq r i j a f) by done.
  pose proof (racing_small r a f Hr Hf) as Hsm. pose proof Hr as [H1 H2 H3 H4 H5 H6]. destruct (H4 i j Hj) as [_ Hfl]. rewrite (sgn_small 64 (flow_counter f + o_flow j)) by lia.
  set (f' := Flow _ _ _). eexists. split; [done|]. cbn [r_world jobs flow_list].
  assert (Hat : forall b, flow_at (flow_store (flow_list (r_world r)) a f') b = if b =? a then Some f' else flow_at (flow_list (r_world r)) b)
    by (intros b; apply flow_at_store; congruence).
  assert (Hcnt : forall b g', flow_at (flow_store (flow_list (r_world r)) a f') b = Some g' -> exists g, flow_at (flow_list (r_world r)) b = Some g /\ flow_counter g' = flow_counter g + weight (r_world r) b i).
  { intros b g'. rewrite Hat, (weight_on r i j a b Hj Ha). destruct (Z.eqb_spec b a) as [->|]; [intros [= <-]; by exists f|]. intros ?. exists g'. split; [done|lia]. }
  split; [|split; [done|]].
  - split; cbn [r_world phases jobs flow_list]; [apply counter_store_ok; [done|done|lia]|done|by rewrite length_insert|done| |].
    + intros k j' Hk Hj'. destruct (decide (k = i)) as [->|]; [|rewrite list_lookup_insert_ne in Hk by done; eauto].
      rewrite list_lookup_insert_eq in Hk by (by eapply lookup_lt_Some). done.
    + intros s b g' Hs Hg'. destruct (Hcnt b g' Hg') as (g & Hg & ->). set (r' := Racing _ _). specialize (H6 s b g Hs Hg).
      pose proof (lookup_lt_Some _ _ _ Hi) as Hlt. rewrite (zsum_change (due s r' b) (due s r b) i); [|by rewrite <- H3|].
      * unfold due at 2 3. cbn [r' phases r_world]. rewrite list_lookup_insert_eq, Hi by done. rewrite bool_decide_eq_false_2, bool_decide_eq_true_2 by done. lia.
      * intros k Hk. unfold due. cbn [r' phases r_world]. by rewrite list_lookup_insert_ne.
  - intros b g Hg. rewrite Hat, (weight_on r i j a b Hj Ha). destruct (Z.eqb_spec b a) as [->|]; [|exists g; split; [done|lia]]. exists f'. split; [done|]. cbn. congruence.
Qed.

Lemma race_step_ok r x : racing_ok W m n r -> race_legal r x -> exists r' v, race_step r x = Some (r', v) /\ racing_ok W m n r'.
Proof.
  intros Hr Hl. destruct x as [x|i|i]; cbn [race_legal race_step] in *.
  - destruct (call_racing r x Hr Hl) as (r' & E & Hr'). eauto.
  - destruct (compare_racing r i Hr Hl) as (r' & v & E & Hr' & _). eauto.
  - destruct (add_racing r i Hr Hl) as (r' & E & Hr' & _). eauto.
Qed.

Lemma race_run_ok r xs r' : race_run r xs r' -> racing_ok W m n r -> racing_ok W m n r'.
Proof.
  induction 1 as [|r x r1 v xs r2 Hl E _ IH]; intros Hr; [done|]. destruct (race_step_ok r x Hr Hl) as (r1' & v' & E' & Hr1). rewrite E in E'. injection E' as <- <-. auto.
Qed.
End keeps.

(** ** Theorems *)

(** How often job [i] has passed, counted when it adds. *)
Definition passes (xs : list race_op) (i : nat) : Z :=
  foldr (fun x n => match x with RAdd k => if decide (k = i) then 1 + n else n | _ => n end) 0 xs.

Definition checking (x : race_op) : Prop := match x with RCall _ => False | _ => True end.

Lemma checks_counted W m n r xs r' a f : 0 <= W /\ 0 <= m /\ W + Z.of_nat n * m + m + m < 2 ^ 62 /\ Z.of_nat n < 2 ^ 32 -> racing_ok W m n r -> race_run r xs r' ->
  Forall checking xs -> flow_at (flow_list (r_world r)) a = Some f ->
  exists f', flow_at (flow_list (r_world r')) a = Some f' /\ flow_counter f' = flow_counter f + zsum (fun i => weight (r_world r) a i * passes xs i) n.
Proof.
  intros Hs Hr Hrun. revert f Hr. induction Hrun as [r|r x r1 v xs r2 Hl E _ IH]; intros f Hr Hc Hf.
  - exists f. split; [done|]. cbn [passes foldr]. rewrite (zsum_ext _ (fun _ => 0)) by (intros i; apply Z.mul_0_r).
    assert (Hz : forall k, zsum (fun _ => 0) k = 0) by (intros k; induction k as [|k IH]; [done|by rewrite zsum_S, IH]). rewrite Hz. lia.
  - apply Forall_cons_iff in Hc as [Hx Hc]. destruct x as [y|i|i]; [done| |]; cbn [race_legal race_step] in Hl, E.
    + destruct (compare_racing W m n Hs r i Hr Hl) as (r1' & v' & E' & Hr1 & Hw). rewrite E in E'. injection E' as <- <-.
      destruct (IH f Hr1 Hc ltac:(by rewrite Hw)) as (f' & Hf' & Hcnt). exists f'. split; [done|]. rewrite Hcnt, Hw. done.
    + destruct (add_racing W m n Hs r i Hr Hl) as (r1' & E' & Hr1 & Hj & Hadd). rewrite E in E'. injection E' as <- ->.
      destruct (Hadd a f Hf) as (f1 & Hf1 & Hc1). destruct (IH f1 Hr1 Hc Hf1) as (f' & Hf' & Hcnt). exists f'. split; [done|]. rewrite Hcnt, Hc1.
      pose proof (lookup_lt_Some _ _ _ Hl) as Hlt. rewrite (ro_phases _ _ _ _ Hr) in Hlt.
      assert (Hwt : forall k, weight (r_world r1) a k = weight (r_world r) a k) by (intros k; unfold weight; by rewrite Hj).
      rewrite (zsum_change (fun k => weight (r_world r) a k * passes (RAdd i :: xs) k) (fun k => weight (r_world r1) a k * passes xs k) i); [|done|].
      * cbn [passes foldr]. rewrite decide_True by done. fold (passes xs i). rewrite Hwt. lia.
      * intros k Hk. cbn [passes foldr]. rewrite decide_False by done. by rewrite Hwt.
Qed.

(** The jobs before any of them has started. *)
Definition at_start (js : list flow_job) : racing := Racing (FlowWorld [] js) (replicate (length js) Idle).

Lemma at_start_ok W m js : 0 <= W /\ 0 <= m -> fresh_jobs W m js -> racing_ok W m (length js) (at_start js).
Proof.
  intros [HW Hm] H. pose proof (Z.mul_nonneg_nonneg (Z.of_nat (length js)) m). split; cbn [at_start r_world phases jobs flow_list].
  - apply fresh_flow_ok. intros i j Hi. destruct (H i j Hi) as (?&?&?). split; [done|]. lia.
  - done.
  - apply length_replicate.
  - intros i j Hi. by destruct (H i j Hi).
  - intros i j Hi. apply lookup_replicate in Hi as [? _]. done.
  - done.
Qed.

(** C11. Flow control keeps jobs in proportion.  Jobs start, leave and check in any
    interleaving, and their checks may overlap, as long as no other job touches the
    counter between the load and the store of one addition.  Then no step touches
    a freed flow; while the jobs only check, the counter of a flow is its old value
    plus weight times passes, summed over its jobs; it never leaves plus or minus
    the largest watermark plus one largest weight per job, so with weights 8 and -1
    the second job passes eight times as often, up to a constant; and a flow with
    weights of both signs never holds up all of its jobs.  ([update_lost] and
    [counter_drifts] show what an interrupted addition does.) *)
Theorem flow_balanced W m js xs0 r0 a f0 xs r (n := Z.of_nat (length js)) :
  0 <= W /\ 0 <= m /\ W + n * m + m + m < 2 ^ 62 /\ n < 2 ^ 32 -> fresh_jobs W m js ->
  race_run (at_start js) xs0 r0 -> flow_at (flow_list (r_world r0)) a = Some f0 -> race_run r0 xs r -> Forall checking xs ->
  (forall x, race_legal r x -> is_Some (race_step r x)) /\
  (exists f, flow_at (flow_list (r_world r)) a = Some f /\ Z.abs (flow_counter f) <= W + n * m /\
     flow_counter f = flow_counter f0 + zsum (fun i => weight (r_world r0) a i * passes xs i) (length js)) /\
  (forall i j i' j', phases r !! i = Some Idle -> phases r !! i' = Some Idle -> jobs (r_world r) !! i = Some j -> jobs (r_world r) !! i' = Some j' ->
     td_flow j = Some a -> td_flow j' = Some a -> 0 < o_flow j -> o_flow j' < 0 ->
     (exists r', check_compare r i = Some (r', None)) \/ exists r', check_compare r i' = Some (r', None)).
Proof.
  intros Hs Hf Hr0 Hf0 Hr Hc. assert (Hok0 : racing_ok W m (length js) r0) by (eapply race_run_ok; [done|exact Hr0|apply at_start_ok; [lia|done]]).
  assert (Hok : racing_ok W m (length js) r) by (eapply race_run_ok; done).
  destruct (checks_counted W m _ r0 xs r a f0 Hs Hok0 Hr Hc Hf0) as (f & Hfa & Hcnt). pose proof (racing_small W m _ Hs r a f Hok Hfa) as Hsm. split; [|split].
  - intros x Hx. destruct (race_step_ok W m _ Hs r x Hok Hx) as (r' & v & -> & _). done.
  - exists f. split; [done|]. split; [lia|exact Hcnt].
  - intros i j i' j' Hi Hi' Hj Hj' Ha Ha' Hp Hn. unfold check_compare. rewrite Hi, Hi', Hj, Hj'. cbn [mbind option_bind]. rewrite !bool_decide_eq_true_2 by done. cbn [negb].
    rewrite Ha, Ha', Hfa. cbn [mbind option_bind]. rewrite (proj2 (Z.ltb_lt 0 (o_flow j)) Hp), (proj2 (Z.ltb_ge 0 (o_flow j'))) by lia.
    destruct (ro_opts _ _ _ _ Hok i j Hj), (ro_opts _ _ _ _ Hok i' j' Hj'). rewrite (sgn_small 64 (- flow_counter f)) by lia.
    destruct (Z.ltb_spec (o_watermark j) (flow_counter f)); [right|left; by eexists]. rewrite (proj2 (Z.ltb_ge (o_watermark j') _)) by lia. by eexists.
Qed.

(** ** Witness *)
Definition ran (r : option (racing * option Z)) : racing := match r with Some (r, _) => r | None => at_start [] end.
Definition after (r : racing) (xs : list race_op) : racing := fold_left (fun r x => ran (race_step r x)) xs r.

Definition both_started : racing := Racing two_started [Idle; Idle].

Lemma both_start_run : race_run (at_start two_jobs) [RCall (FInit 0 (Some 64)); RCall (FInit 1 None)] both_started.
Proof. do 2 (econstructor; [split; [done|split; [by eexists|done]]|reflexivity|]). constructor. Qed.

(** Both pass their comparison before either adds. *)
Definition overlapping : list race_op := [RCompare 0; RCompare 1; RAdd 0; RAdd 1; RCompare 0].

Lemma overlapping_run : race_run both_started overlapping (after both_started overlapping).
Proof. do 5 (econstructor; [reflexivity|reflexivity|]). constructor. Qed.

Lemma flow_balanced_witness :
  (exists f, flow_at (flow_list (r_world (after both_started overlapping))) 64 = Some f /\ Z.abs (flow_counter f) <= 32 /\
     flow_counter f = 0 + zsum (fun i => weight two_started 64 i * passes overlapping i) 2) /\
  is_Some (check_add (after both_started overlapping) 0).
Proof.
  destruct (flow_balanced 16 8 two_jobs _ both_started 64 (Flow 2 1 0) overlapping (after both_started overlapping) ltac:(cbn; lia) two_jobs_fresh
    both_start_run eq_refl overlapping_run) as (H1 & H2 & _); [repeat constructor|].
  split; [exact H2|]. exact (H1 (RAdd 0) eq_refl).
Defined.

(** ** Interrupted additions *)

(** Jobs 0 and 1 pass and both load before either stores: of the two moves, by 8
    and by -1, the first one is lost. *)
Example update_lost :
  (r ← Some both_started; '(r, _) ← check_compare r 0; '(r, _) ← check_compare r 1; r ← check_load r 0; r ← check_load r 1;
   '(r, _) ← check_store r 0; '(r, _) ← check_store r 1; flow_counter <$> flow_at (flow_list (r_world r)) 64) = Some (-1).
Proof. reflexivity. Qed.

(** The accesses one at a time. *)
Inductive access := Compare (i : nat) | Load (i : nat) | Store (i : nat).

Definition access_step (r : option racing) (x : access) : option racing :=
  r ← r; match x with Compare i => fst <$> check_compare r i | Load i => check_load r i | Store i => fst <$> check_store r i end.

Definition whole (i : nat) : list access := [Compare i; Load i; Store i].

(** With interrupted additions the counter has no bound.  Three jobs of weights 1,
    1 and -1 with watermark 0: the third keeps bringing the counter back to 0, and
    each of the others stores what it loaded while the other was ahead.  The
    counter reaches 4, above watermark plus one weight per job, and can go on. *)
Example counter_drifts :
  let js := [FlowJob 1 1 0 (Some 64); FlowJob 1 1 0 (Some 64); FlowJob (-1) 1 0 (Some 64)] in
  (r ← fold_left access_step
     ([Compare 0] ++ whole 1 ++ [Load 0] ++ whole 2 ++ [Compare 1; Store 0; Load 1] ++ whole 2 ++ whole 2 ++ [Compare 0; Store 1; Load 0] ++
      whole 2 ++ whole 2 ++ whole 2 ++ [Compare 1; Store 0; Load 1])
     (Some (Racing (FlowWorld [(64, Flow 3 1 0)] js) [Idle; Idle; Idle]));
   flow_counter <$> flow_at (flow_list (r_world r)) 64) = Some 4.
Proof. reflexivity. Qed.
