(* ===== verification/Smalloc.v ===== *)
(** * The shared-memory allocator: [smalloc.c]

    fio keeps what its worker processes share in pools mapped with [mmap].  A
    pool is handed out in 32-byte blocks recorded in a bit map; each
    allocation starts with a header and ends with a guard word.

    Memory is a map from byte addresses to bytes.  A shift by the word size or
    more, an access outside the bit map and a failed [assert] are [None]. *)
From S2P Require Import Prelude BitOps.

Definition SMALLOC_BPB : Z := 32.
Definition SMALLOC_BPI : Z := 32.
Definition SMALLOC_BPL : Z := SMALLOC_BPB * SMALLOC_BPI.
Definition INITIAL_SIZE : Z := 16 * 1024 * 1024.
Definition INITIAL_POOLS : nat := 8.
Definition MAX_POOLS : Z := 16.
Definition SMALLOC_PRE_RED : Z := 0xdeadbeef.
Definition SMALLOC_POST_RED : Z := 0x5aa55aa5.
Definition int_mask : Z := 3.

(** [sizeof(struct block_hdr)], with the padding after [prered]. *)
Definition HDR_SIZE : Z := 16.

Record pool := Pool {
  map : Z;
  bitmap : list Z;
  free_blocks : Z;
  nr_blocks : Z;
  next_non_full : Z
}.

Definition set_bitmap (p : pool) (bm : list Z) : pool :=
  Pool (map p) bm (free_blocks p) (nr_blocks p) (next_non_full p).
Definition set_free (p : pool) (n : Z) : pool :=
  Pool (map p) (bitmap p) n (nr_blocks p) (next_non_full p).
Definition set_non_full (p : pool) (n : Z) : pool :=
  Pool (map p) (bitmap p) (free_blocks p) (nr_blocks p) n.

Definition ptr_valid (p : pool) (ptr : Z) : bool :=
  let pool_size := u32 (nr_blocks p * SMALLOC_BPL) in
  (map p <=? ptr) && (ptr <? map p + pool_size).

Definition size_to_blocks (size : Z) : Z := u64 (size + SMALLOC_BPB - 1) / SMALLOC_BPB.

(** ** Runs of blocks *)

(** [((1U << this_blocks) - 1) << idx], or all ones for a whole word. *)
Definition block_mask (this_blocks idx : Z) : option Z :=
  if this_blocks =? SMALLOC_BPI then Some (-1U)
  else if (this_blocks <? 32) && (idx <? 32) then Some (shl 32 (Z.shiftl 1 this_blocks - 1) idx)
  else None.

(** [blocks_iter]: [func] gets a word and a mask and returns its result and
    the new word.  One word is used up per round. *)
Fixpoint blocks_iter (fuel : nat) (nrw : Z) (bm : list Z) (pool_idx idx nr_blocks : Z)
    (func : Z -> Z -> option (bool * Z)) : option (bool * list Z) :=
  if nr_blocks =? 0 then Some (true, bm) else
  match fuel with
  | O => None
  | S fuel =>
      if nrw <=? pool_idx then Some (false, bm) else
      let this_blocks := u32 nr_blocks in
      let '(this_blocks, idx) :=
        if SMALLOC_BPI <? u32 (this_blocks + idx)
        then let t := u32 (SMALLOC_BPI - idx) in (t, u32 (SMALLOC_BPI - t))
        else (this_blocks, idx) in
      mask ← block_mask this_blocks idx;
      w ← arr_get bm pool_idx;
      r ← func w mask;
      bm ← arr_set bm pool_idx (snd r);
      if negb (fst r) then Some (false, bm)
      else blocks_iter fuel nrw bm (pool_idx + 1) 0 (u64 (nr_blocks - this_blocks)) func
  end.

Definition mask_cmp (w mask : Z) : option (bool * Z) := Some (Z.land w mask =? 0, w).

Definition mask_clear (w mask : Z) : option (bool * Z) :=
  _ ← assert (Z.land w mask =? mask); Some (true, Z.land w (bnot 32 mask)).

Definition mask_set (w mask : Z) : option (bool * Z) :=
  _ ← assert (Z.land w mask =? 0); Some (true, Z.lor w mask).

Definition run_iter (p : pool) (pool_idx idx nr : Z) (func : Z -> Z -> option (bool * Z)) :=
  blocks_iter (S (length (bitmap p))) (nr_blocks p) (bitmap p) pool_idx idx nr func.

Definition blocks_free (p : pool) (pool_idx idx nr : Z) : option bool :=
  '(r, _) ← run_iter p pool_idx idx nr mask_cmp; Some r.

Definition set_blocks (p : pool) (pool_idx idx nr : Z) : option pool :=
  '(_, bm) ← run_iter p pool_idx idx nr mask_set; Some (set_bitmap p bm).

Definition clear_blocks (p : pool) (pool_idx idx nr : Z) : option pool :=
  '(_, bm) ← run_iter p pool_idx idx nr mask_clear; Some (set_bitmap p bm).

(** [word] is an [int]: the shift copies its sign bit, and the result is
    widened to the [unsigned long] argument of [ffz]. *)
Definition find_next_zero (word start : Z) : option Z :=
  _ ← assert (negb (word =? -1U));
  Some (ffz (u64 (Z.shiftr (sgn 32 word) start)) + start).

(** ** Allocating *)

(** The search loop of [__smalloc_pool]: the pool (its [next_non_full]
    advanced) and the word and bit of the run taken, if any.  The inner [while]
    that carries [idx] into [i] is a division. *)
Fixpoint search (fuel : nat) (p : pool) (i last_idx nr : Z) : option (pool * option (Z * Z)) :=
  if nr_blocks p <=? i then Some (p, None) else
  match fuel with
  | O => None
  | S fuel =>
      w ← arr_get (bitmap p) i;
      if w =? -1U then search fuel (set_non_full p (i + 1)) (i + 1) 0 nr else
      idx ← find_next_zero w last_idx;
      ok ← blocks_free p i idx nr;
      if negb ok then
        let idx := u32 (idx + nr) in
        if idx <? SMALLOC_BPI then search fuel p i idx nr
        else search fuel p (u32 (i + idx / SMALLOC_BPI)) 0 nr
      else
        p ← set_blocks p i idx nr;
        Some (p, Some (i, idx))
  end.

(** Each round moves on by at least one block. *)
Definition search_fuel (p : pool) : nat := S (Z.to_nat (32 * nr_blocks p)).

(** [__smalloc_pool]: the address of the run, or 0 for a null pointer. *)
Definition __smalloc_pool (p : pool) (size : Z) : option (pool * Z) :=
  let nr := size_to_blocks size in
  if free_blocks p <? nr then Some (p, 0) else
  '(p, r) ← search (search_fuel p) p (next_non_full p) 0 nr;
  match r with
  | None => Some (p, 0)
  | Some (i, idx) =>
      let offset := u32 (i * SMALLOC_BPL + idx * SMALLOC_BPB) in
      Some (set_free p (u64 (free_blocks p - nr)), map p + offset)
  end.

(** ** Memory *)
Definition memory := Z -> Z.

Definition store (m : memory) (a : Z) (l : list Z) : memory :=
  fun x => if (a <=? x) && (x <? a + Z.of_nat (length l)) then default 0 (l !! Z.to_nat (x - a)) else m x.

Definition load (m : memory) (a : Z) (n : nat) : list Z :=
  (fun k => m (a + Z.of_nat k)) <$> seq 0 n.

Definition hdr_size (m : memory) (hdr : Z) : Z := le_val (load m hdr 8).
Definition hdr_prered (m : memory) (hdr : Z) : Z := le_val (load m (hdr + 8) 4).

Definition postred_ptr (hdr size : Z) : Z :=
  let ptr := hdr + size - 4 in Z.land (ptr + int_mask) (Z.lnot int_mask).

Definition fill_redzone (m : memory) (hdr : Z) : memory :=
  let size := hdr_size m hdr in
  let m := store m (hdr + 8) (le_bytes 4 SMALLOC_PRE_RED) in
  store m (postred_ptr hdr size) (le_bytes 4 SMALLOC_POST_RED).

Definition sfree_check_redzone (m : memory) (hdr : Z) : option unit :=
  let postred := postred_ptr hdr (hdr_size m hdr) in
  _ ← assert (hdr_prered m hdr =? SMALLOC_PRE_RED);
  assert (le_val (load m postred 4) =? SMALLOC_POST_RED).

Definition alloc_size_of (size : Z) : Z :=
  Z.land (u64 (size + HDR_SIZE + 4 + int_mask)) (bnot 64 int_mask).

Definition smalloc_pool (p : pool) (m : memory) (size : Z) : option (pool * memory * Z) :=
  let alloc_size := alloc_size_of size in
  '(p, ptr) ← __smalloc_pool p alloc_size;
  if ptr =? 0 then Some (p, m, 0) else
  let m := store m ptr (le_bytes 8 alloc_size) in
  let m := fill_redzone m ptr in
  let m := store m (ptr + HDR_SIZE) (replicate (Z.to_nat size) 0) in
  Some (p, m, ptr + HDR_SIZE).

Definition sfree_pool (p : pool) (m : memory) (ptr : Z) : option pool :=
  if ptr =? 0 then Some p else
  let hdr := ptr - HDR_SIZE in
  _ ← assert (ptr_valid p hdr);
  _ ← sfree_check_redzone m hdr;
  let offset := hdr - map p in
  let i := u32 (offset / SMALLOC_BPL) in
  let idx := (offset mod SMALLOC_BPL) / SMALLOC_BPB in
  let n := size_to_blocks (hdr_size m hdr) in
  p ← clear_blocks p i idx n;
  let p := if i <? next_non_full p then set_non_full p i else p in
  Some (set_free p (u64 (free_blocks p + n))).

(** ** The pools *)
Definition add_pool (nr_pools alloc_size : Z) (mmap : Z -> option Z) : option pool :=
  if nr_pools =? MAX_POOLS then None else
  let alloc_size := u32 (u32 (alloc_size + 4) + HDR_SIZE) in
  let alloc_size := if alloc_size <? INITIAL_SIZE then INITIAL_SIZE else alloc_size in
  let alloc_size := u32 (Z.land (alloc_size + SMALLOC_BPL - 1) (bnot 64 (SMALLOC_BPL - 1))) in
  let bitmap_blocks := alloc_size / SMALLOC_BPL in
  match mmap (u32 (alloc_size + bitmap_blocks * 4)) with
  | None => None
  | Some ptr => Some (Pool ptr (replicate (Z.to_nat bitmap_blocks) 0)
                        (bitmap_blocks * SMALLOC_BPB) bitmap_blocks 0)
  end.

Record heap := Heap { mp : list pool; last_pool : Z; mem : memory }.

(** [for (; i < end_pool; i++)]: the first pool that has room. *)
Fixpoint try_pools (fuel : nat) (h : heap) (i end_pool size : Z) : option (heap * Z * Z) :=
  match fuel with
  | O => Some (h, i, 0)
  | S fuel =>
      if negb (i <? end_pool) then Some (h, i, 0) else
      p ← arr_get (mp h) i;
      '(p, m, ptr) ← smalloc_pool p (mem h) size;
      ps ← arr_set (mp h) i p;
      let h := Heap ps (last_pool h) m in
      if negb (ptr =? 0) then Some (Heap ps i m, i, ptr)
      else try_pools fuel h (i + 1) end_pool size
  end.

(** [smalloc]: from [last_pool] to the end, then once more from the start. *)
Definition smalloc (h : heap) (size : Z) : option (heap * Z) :=
  if negb (size =? u32 size) then Some (h, 0) else
  let n := Z.of_nat (length (mp h)) in
  '(h, _, ptr) ← try_pools (length (mp h)) h (last_pool h) n size;
  if negb (ptr =? 0) then Some (h, ptr) else
  if last_pool h =? 0 then Some (h, 0) else
  '(h, _, ptr) ← try_pools (length (mp h)) (Heap (mp h) 0 (mem h)) 0 (last_pool h) size;
  Some (h, ptr).

(** [sfree]: the pool the pointer lies in; an unknown pointer is only reported. *)
Fixpoint find_pool (ps : list pool) (i : Z) (ptr : Z) : option (Z * pool) :=
  match ps with
  | [] => None
  | p :: ps => if ptr_valid p ptr then Some (i, p) else find_pool ps (i + 1) ptr
  end.

Definition sfree (h : heap) (ptr : Z) : option heap :=
  if ptr =? 0 then Some h else
  match find_pool (mp h) 0 ptr with
  | None => Some h
  | Some (i, p) =>
      p ← sfree_pool p (mem h) ptr;
      ps ← arr_set (mp h) i p;
      Some (Heap ps (last_pool h) (mem h))
  end.

(** ** Runs of blocks: proofs *)
Lemma block_mask_bits t idx : 0 < t -> 0 <= idx -> t + idx <= 32 ->
  exists mask, block_mask t idx = Some mask /\ uint 32 mask /\
    forall k, 0 <= k < 32 -> Z.testbit mask k = (idx <=? k) && (k <? idx + t).
Proof.
  intros Ht Hi Hs. unfold block_mask. destruct (Z.eqb_spec t SMALLOC_BPI) as [E|E].
  - unfold SMALLOC_BPI in E. exists (-1U). split_and!; [done|apply all_ones_uint; lia..|].
    intros k Hk. rewrite all_ones_testbit by lia.
    destruct (Z.leb_spec 0 k), (Z.leb_spec idx k), (Z.ltb_spec k 32), (Z.ltb_spec k (idx + t)); done || lia.
  - unfold SMALLOC_BPI in E. destruct (Z.ltb_spec t 32), (Z.ltb_spec idx 32); try lia. cbn [andb].
    eexists. split; [done|]. split; [apply shl_uint; lia|]. intros k Hk.
    rewrite shl_testbit, Z.shiftl_1_l by lia. replace (2 ^ t - 1) with (Z.ones t) by (rewrite Z.ones_equiv; lia).
    destruct (Z.ltb_spec k 32); [|lia]. cbn [andb]. destruct (Z.leb_spec idx k); cbn [andb].
    + rewrite Z.testbit_ones_nonneg by lia.
      destruct (Z.ltb_spec (k - idx) t), (Z.ltb_spec k (idx + t)); done || lia.
    + by rewrite Z.testbit_neg_r by lia.
Qed.

(** What an operation does on a word whose masked bits all are [c]: it succeeds
    and makes them [v]. *)
Definition op_spec (f : Z -> Z -> option (bool * Z)) (c v : bool) : Prop :=
  forall w mask, uint 32 w -> uint 32 mask ->
  (forall k, 0 <= k < 32 -> Z.testbit mask k = true -> Z.testbit w k = c) ->
  exists w', f w mask = Some (true, w') /\ uint 32 w' /\
    forall k, 0 <= k < 32 -> Z.testbit w' k = if Z.testbit mask k then v else Z.testbit w k.

Lemma land_mask_zero w mask : uint 32 mask ->
  Z.land w mask = 0 <-> (forall k, 0 <= k < 32 -> Z.testbit mask k = true -> Z.testbit w k = false).
Proof.
  intros Hm. split.
  - intros E k Hk Hb. apply (f_equal (fun x => Z.testbit x k)) in E.
    by rewrite Z.land_spec, Z.bits_0, Hb, andb_true_r in E.
  - intros H. apply Z.bits_inj'. intros k Hk. rewrite Z.land_spec, Z.bits_0.
    destruct (Z.testbit mask k) eqn:E; [|apply andb_false_r]. rewrite H; [done| |done].
    destruct (decide (k < 32)); [lia|]. by rewrite (uint_testbit_high 32) in E by (done || lia).
Qed.

Lemma mask_cmp_spec : op_spec mask_cmp false false.
Proof.
  intros w mask Hw Hm H. unfold mask_cmp. rewrite (proj2 (land_mask_zero w mask Hm) H).
  exists w. split_and!; [done|apply Hw..|]. intros k Hk.
  destruct (Z.testbit mask k) eqn:E; [by apply H|done].
Qed.

Lemma mask_set_spec : op_spec mask_set false true.
Proof.
  intros w mask Hw Hm H. unfold mask_set. rewrite (proj2 (land_mask_zero w mask Hm) H).
  eexists. split; [done|]. split; [by apply lor_uint; [lia|..]|]. intros k Hk.
  rewrite Z.lor_spec. destruct (Z.testbit mask k); [apply orb_true_r|apply orb_false_r].
Qed.

Lemma mask_clear_spec : op_spec mask_clear true false.
Proof.
  intros w mask Hw Hm H. unfold mask_clear.
  assert (Z.land w mask = mask) as ->.
  { apply Z.bits_inj'. intros k Hk. rewrite Z.land_spec. destruct (Z.testbit mask k) eqn:E;
      [|apply andb_false_r]. rewrite H; [done| |done].
    destruct (decide (k < 32)); [lia|]. by rewrite (uint_testbit_high 32) in E by (done || lia). }
  rewrite Z.eqb_refl. eexists. split; [done|].
  split; [apply land_uint; [lia|done|apply bnot_uint; [lia|done]]|]. intros k Hk.
  rewrite Z.land_spec, bnot_testbit by (done || lia).
  destruct (Z.leb_spec 0 k), (Z.ltb_spec k 32); try lia. cbn [andb].
  destruct (Z.testbit mask k); [apply andb_false_r|apply andb_true_r].
Qed.

Lemma bbit_insert bm i w p : 0 <= i < Z.of_nat (length bm) -> 0 <= p ->
  bbit (<[Z.to_nat i := w]> bm) p = if p / 32 =? i then Z.testbit w (p mod 32) else bbit bm p.
Proof.
  intros Hi Hp. unfold bbit. rewrite arr_get_insert by zdm. by destruct (Z.eqb_spec (p / 32) i).
Qed.

(** The number of blocks the first word of a run contributes. *)
Lemma first_word idx nr : 0 <= idx < 32 -> 0 < nr < 2 ^ 31 ->
  (if SMALLOC_BPI <? u32 (u32 nr + idx)
   then let t := u32 (SMALLOC_BPI - idx) in (t, u32 (SMALLOC_BPI - t)) else (u32 nr, idx))
  = (Z.min nr (32 - idx), idx).
Proof.
  intros Hi Hn. rewrite (wrap_small 32 nr), (wrap_small 32 (nr + idx)) by (unfold uint; lia).
  change SMALLOC_BPI with 32. rewrite (wrap_small 32 (32 - idx)) by (unfold uint; lia).
  zcase; [|f_equal; lia]. cbv zeta. rewrite wrap_small by (unfold uint; lia). f_equal; lia.
Qed.

(** An operation on the run of [nr] blocks from block [32 * pi + idx] on, all of
    which have the value [c]. *)
Lemma blocks_iter_ok f c v : op_spec f c v -> forall fuel nrw bm pi idx nr,
  Forall (uint 32) bm -> nrw = Z.of_nat (length bm) ->
  0 <= pi -> 0 <= idx < 32 -> 0 <= nr < 2 ^ 31 -> 32 * pi + idx + nr <= 32 * nrw ->
  nrw - pi < Z.of_nat fuel ->
  (forall p, 32 * pi + idx <= p < 32 * pi + idx + nr -> bbit bm p = c) ->
  exists bm', blocks_iter fuel nrw bm pi idx nr f = Some (true, bm') /\
    length bm' = length bm /\ Forall (uint 32) bm' /\
    forall p, 0 <= p -> bbit bm' p =
      if (32 * pi + idx <=? p) && (p <? 32 * pi + idx + nr) then v else bbit bm p.
Proof.
  intros Hf. induction fuel as [|fuel IH]; intros nrw bm pi idx nr Hu Hnrw Hpi Hidx Hnr Hin Hfu Hc;
    cbn [blocks_iter]; [lia|].
  destruct (Z.eqb_spec nr 0) as [->|Hne].
  { exists bm. split_and!; [done..|]. intros p Hp.
    destruct (Z.leb_spec (32 * pi + idx) p), (Z.ltb_spec p (32 * pi + idx + 0)); done || lia. }
  destruct (Z.leb_spec nrw pi); [lia|].
  rewrite first_word by lia. set (t := Z.min nr (32 - idx)).
  destruct (block_mask_bits t idx) as (mask & -> & Hmu & Hmb); [lia..|]. cbn [mbind option_bind].
  destruct (arr_get_is_Some bm pi) as [w Hw]; [lia|]. rewrite Hw. cbn [mbind option_bind].
  assert (uint 32 w) as Hwu.
  { apply arr_get_Some in Hw as [_ Hw]. rewrite Forall_lookup in Hu. by eapply Hu. }
  assert (forall k, 0 <= k < 32 -> Z.testbit w k = bbit bm (32 * pi + k)) as Hbit.
  { intros k Hk. unfold bbit. replace ((32 * pi + k) / 32) with pi by zdm.
    rewrite Hw. simpl. f_equal. zdm. }
  destruct (Hf w mask Hwu Hmu) as (w' & -> & Hwu' & Hwb).
  { intros k Hk Hm. rewrite Hmb in Hm by done. zbool. rewrite Hbit by done. apply Hc. lia. }
  cbn [mbind option_bind snd fst]. rewrite arr_set_Some by lia. cbn [mbind option_bind negb].
  set (bm1 := <[Z.to_nat pi := w']> bm).
  assert (forall p, 0 <= p -> bbit bm1 p =
    if (32 * pi + idx <=? p) && (p <? 32 * pi + idx + t) then v else bbit bm p) as Hb1.
  { intros p Hp. unfold bm1. rewrite bbit_insert by lia. destruct (Z.eqb_spec (p / 32) pi) as [E|E].
    - rewrite Hwb, Hmb by zdm. rewrite Hbit by zdm. replace (32 * pi + p mod 32) with p by zdm.
      destruct (Z.leb_spec idx (p mod 32)), (Z.ltb_spec (p mod 32) (idx + t)),
        (Z.leb_spec (32 * pi + idx) p), (Z.ltb_spec p (32 * pi + idx + t)); done || zdm.
    - destruct (Z.leb_spec (32 * pi + idx) p), (Z.ltb_spec p (32 * pi + idx + t)); done || zdm. }
  rewrite (wrap_small 64) by (unfold uint; lia).
  destruct (decide (nr - t = 0)) as [E0|E0].
  - rewrite E0. replace (blocks_iter fuel nrw bm1 (pi + 1) 0 0 f) with (Some (true, bm1)) by by destruct fuel.
    exists bm1. split_and!; [done|by apply length_insert|by apply Forall_insert|].
    replace t with nr in Hb1 by lia. done.
  - destruct (IH nrw bm1 (pi + 1) 0 (nr - t)) as (bm2 & -> & L2 & U2 & B2); try lia.
    + by apply Forall_insert.
    + unfold bm1. by rewrite length_insert.
    + intros p Hp. rewrite Hb1 by lia.
      destruct (Z.leb_spec (32 * pi + idx) p), (Z.ltb_spec p (32 * pi + idx + t)); cbn [andb]; try lia.
      apply Hc. lia.
    + exists bm2. split_and!; [done|rewrite L2; apply length_insert|done|].
      intros p Hp. rewrite B2, Hb1 by done.
      destruct (Z.leb_spec (32 * (pi + 1) + 0) p), (Z.ltb_spec p (32 * (pi + 1) + 0 + (nr - t))),
        (Z.leb_spec (32 * pi + idx) p), (Z.ltb_spec p (32 * pi + idx + t)),
        (Z.ltb_spec p (32 * pi + idx + nr)); done || lia.
Qed.

(** Asking about a run never fails, and says yes only for a free run inside the pool. *)
Lemma blocks_iter_cmp fuel : forall nrw bm pi idx nr,
  Forall (uint 32) bm -> nrw = Z.of_nat (length bm) ->
  0 <= pi -> 0 <= idx < 32 -> 0 <= nr < 2 ^ 31 -> nrw - pi < Z.of_nat fuel -> pi <= nrw ->
  (nr = 0 -> 32 * pi + idx <= 32 * nrw) ->
  exists r bm', blocks_iter fuel nrw bm pi idx nr mask_cmp = Some (r, bm') /\
    (r = true -> 32 * pi + idx + nr <= 32 * nrw /\
       forall p, 32 * pi + idx <= p < 32 * pi + idx + nr -> bbit bm p = false).
Proof.
  induction fuel as [|fuel IH]; intros nrw bm pi idx nr Hu Hnrw Hpi Hidx Hnr Hfu Hle Hz;
    cbn [blocks_iter]; [lia|].
  destruct (Z.eqb_spec nr 0) as [->|Hne].
  { eexists _, _. split; [done|]. intros _. split; [specialize (Hz eq_refl); lia|lia]. }
  destruct (Z.leb_spec nrw pi); [by eexists _, _; split|].
  rewrite first_word by lia. set (t := Z.min nr (32 - idx)).
  destruct (block_mask_bits t idx) as (mask & -> & Hmu & Hmb); [lia..|]. cbn [mbind option_bind].
  destruct (arr_get_is_Some bm pi) as [w Hw]; [lia|]. rewrite Hw. cbn [mbind option_bind mask_cmp fst snd].
  assert (<[Z.to_nat pi := w]> bm = bm) as Hid.
  { apply arr_get_Some in Hw as [_ Hw]. by apply list_insert_id. }
  rewrite arr_set_Some, Hid by lia. cbn [mbind option_bind].
  destruct (Z.eqb_spec (Z.land w mask) 0) as [E|E]; cbn [negb]; [|by eexists _, _; split].
  rewrite land_mask_zero in E by done. rewrite (wrap_small 64) by (unfold uint; lia).
  destruct (IH nrw bm (pi + 1) 0 (nr - t)) as (r & bm' & -> & Hr); try done; try lia.
  exists r, bm'. split; [done|]. intros ->. destruct (Hr eq_refl) as [Hin Hfree].
  split; [lia|]. intros p Hp. destruct (decide (p < 32 * (pi + 1))); [|apply Hfree; lia].
  unfold bbit. replace (p / 32) with pi by zdm. rewrite Hw. simpl. apply E; [zdm|].
  rewrite Hmb by zdm. destruct (Z.leb_spec idx (p mod 32)), (Z.ltb_spec (p mod 32) (idx + t)); done || zdm.
Qed.

Record pool_wf (p : pool) : Prop := {
  pw_words : Forall (uint 32) (bitmap p);
  pw_len : nr_blocks p = Z.of_nat (length (bitmap p));
  pw_size : 0 < nr_blocks p < 2 ^ 21;
  pw_nnf : 0 <= next_non_full p <= nr_blocks p
}.

Lemma word_full bm i w : arr_get bm i = Some w -> uint 32 w ->
  w = -1U <-> forall b, 32 * i <= b < 32 * i + 32 -> bbit bm b = true.
Proof.
  intros Hw Hu. pose proof (arr_get_bounds _ _ _ Hw). rewrite (testbit_all_ones 32) by (done || lia).
  split.
  - intros H' b Hb. unfold bbit. replace (b / 32) with i by zdm. rewrite Hw. simpl. apply H'. zdm.
  - intros H' k Hk. specialize (H' (32 * i + k) ltac:(lia)). unfold bbit in H'.
    replace ((32 * i + k) / 32) with i in H' by zdm. rewrite Hw in H'. simpl in H'.
    rewrite <- H'. f_equal. zdm.
Qed.

(** The argument of [ffz] in [find_next_zero] has the bits of the word from
    [start] on. *)
Lemma next_zero_bits w start k : uint 32 w -> 0 <= start < 32 -> 0 <= k < 32 - start ->
  Z.testbit (u64 (Z.shiftr (sgn 32 w) start)) k = Z.testbit w (k + start).
Proof.
  intros Hw Hs Hk. rewrite wrap_testbit, Z.shiftr_spec by lia.
  destruct (Z.ltb_spec k 64); [|lia]. cbn [andb]. unfold sgn. rewrite wrap_small by done.
  destruct (w <? 2 ^ (32 - 1)); [done|].
  replace (w - 2 ^ 32) with (w + (-1) * 2 ^ 32) by lia.
  rewrite <- (Z.mod_pow2_bits_low (w + (-1) * 2 ^ 32) 32), Z.mod_add by lia.
  by rewrite Z.mod_pow2_bits_low by lia.
Qed.

(** What [find_next_zero] returns is a clear bit of the word if it is in the word. *)
Lemma find_next_zero_spec w start idx :
  uint 32 w -> 0 <= start < 32 -> find_next_zero w start = Some idx ->
  start <= idx < 96 /\ (idx < 32 -> Z.testbit w idx = false).
Proof.
  intros Hw Hs. unfold find_next_zero. destruct (negb _); [|done].
  cbn [assert mbind option_bind]. set (v := u64 _). intros [= <-].
  destruct (decide (v = -1ULL)) as [->|Hne].
  { change (ffz (-1ULL)) with 63. lia. }
  destruct (ffz_lowest v) as (H1 & H2 & _); [apply wrap_uint; lia|done|].
  split; [lia|]. intros Hlt. unfold v in *. rewrite next_zero_bits in H2 by (done || lia). done.
Qed.

(** It is in the word when the word is not full from [start] on. *)
Lemma find_next_zero_in w start :
  uint 32 w -> 0 <= start < 32 -> (exists k, start <= k < 32 /\ Z.testbit w k = false) ->
  exists idx, find_next_zero w start = Some idx /\ idx < 32.
Proof.
  intros Hw Hs (k0 & Hk0 & Hb0). unfold find_next_zero.
  destruct (Z.eqb_spec w (-1U)) as [->|Hne].
  { rewrite all_ones_testbit in Hb0 by lia.
    destruct (Z.leb_spec 0 k0), (Z.ltb_spec k0 32); done || lia. }
  cbn [negb assert mbind option_bind]. set (v := u64 _). eexists. split; [done|].
  pose proof (next_zero_bits w start (k0 - start) Hw Hs ltac:(lia)) as Hv. fold v in Hv.
  replace (k0 - start + start) with k0 in Hv by lia. rewrite Hb0 in Hv.
  destruct (ffz_lowest v) as (_ & _ & H3); [apply wrap_uint; lia| |].
  { intros E. rewrite E, all_ones_testbit in Hv by lia.
    destruct (Z.leb_spec 0 (k0 - start)), (Z.ltb_spec (k0 - start) 64); done || lia. }
  destruct (decide (ffz v <= k0 - start)); [lia|]. rewrite H3 in Hv by lia. done.
Qed.

(** A run that starts behind its word shifts by more than the word size. *)
Lemma blocks_iter_outside fuel nrw bm pi idx nr f :
  32 <= idx < 96 -> 0 < nr < 2 ^ 31 -> pi < nrw -> blocks_iter fuel nrw bm pi idx nr f = None.
Proof.
  intros Hi Hn Hp. destruct fuel as [|fuel]; cbn [blocks_iter];
    rewrite (proj2 (Z.eqb_neq nr 0)) by lia; [done|].
  destruct (Z.leb_spec nrw pi); [lia|].
  rewrite (wrap_small 32 nr), (wrap_small 32 (nr + idx)) by (unfold uint; lia).
  change SMALLOC_BPI with 32. destruct (Z.ltb_spec 32 (nr + idx)); [|lia].
  assert (u32 (32 - idx) = 2 ^ 32 + 32 - idx \/ idx = 32 /\ u32 (32 - idx) = 0) as Ht.
  { unfold wrap. destruct (decide (idx = 32)) as [->|]; [by right|]. left.
    symmetry. apply (Z.mod_unique_pos _ _ (-1)); lia. }
  cbv zeta. unfold block_mask. change SMALLOC_BPI with 32.
  destruct Ht as [->|[-> ->]].
  - rewrite (proj2 (Z.eqb_neq _ 32)) by lia. rewrite (proj2 (Z.ltb_ge (2 ^ 32 + 32 - idx) 32)) by lia. done.
  - reflexivity.
Qed.

(** What a successful search has done. *)
Definition search_post (p : pool) (nr : Z) (p' : pool) (r : option (Z * Z)) : Prop :=
  pool_wf p' /\ map p' = map p /\ nr_blocks p' = nr_blocks p /\ free_blocks p' = free_blocks p /\
  match r with
  | None => bitmap p' = bitmap p
  | Some (i, idx) =>
      0 <= i /\ 0 <= idx < 32 /\ 32 * i + idx + nr <= 32 * nr_blocks p /\
      forall b, 0 <= b -> let inside := (32 * i + idx <=? b) && (b <? 32 * i + idx + nr) in
        (inside = true -> bbit (bitmap p) b = false) /\
        bbit (bitmap p') b = inside || bbit (bitmap p) b
  end.

Lemma take_run p i idx nr :
  pool_wf p -> 0 <= i -> 0 <= idx < 32 -> 0 < nr < 2 ^ 31 -> 32 * i + idx + nr <= 32 * nr_blocks p ->
  (forall b, 32 * i + idx <= b < 32 * i + idx + nr -> bbit (bitmap p) b = false) ->
  exists p', set_blocks p i idx nr = Some p' /\ search_post p nr p' (Some (i, idx)).
Proof.
  intros [W1 W2 W3 W4] Hi Hidx Hnr Hin Hfree. unfold set_blocks, run_iter.
  destruct (blocks_iter_ok mask_set false true mask_set_spec (S (length (bitmap p))) (nr_blocks p)
    (bitmap p) i idx nr) as (bm & -> & L & U & B); [done|done|lia..|done|].
  cbn [mbind option_bind]. eexists. split; [done|].
  assert (forall b, 0 <= b -> bbit bm b = (32 * i + idx <=? b) && (b <? 32 * i + idx + nr) || bbit (bitmap p) b) as B'.
  { intros b Hb. rewrite B by done. by destruct (_ && _). }
  split_and!; [|first [done|lia]..|].
  - split; cbn [set_bitmap bitmap nr_blocks next_non_full]; [done|congruence|done..].
  - intros b Hb. cbv zeta. split; [|by apply B'].
    intros Hins. zbool. apply Hfree. lia.
Qed.

Lemma set_non_full_post p i nr p' r :
  pool_wf p -> 0 <= i < nr_blocks p -> search_post (set_non_full p (i + 1)) nr p' r ->
  search_post p nr p' r.
Proof. done. Qed.

Lemma wf_set_non_full p i : pool_wf p -> 0 <= i <= nr_blocks p -> pool_wf (set_non_full p i).
Proof. intros [W1 W2 W3 W4] Hi. by split. Qed.

(** Whatever the search returns is right. *)
Lemma search_sound fuel : forall p i last_idx nr p' r,
  pool_wf p -> 0 <= i -> 0 <= last_idx < 32 -> 0 < nr < 2 ^ 31 ->
  search fuel p i last_idx nr = Some (p', r) -> search_post p nr p' r.
Proof.
  induction fuel as [|fuel IH]; intros p i last_idx nr p' r Hwf Hi Hl Hnr; cbn [search];
    destruct (Z.leb_spec (nr_blocks p) i); try done; try (intros [= <- <-]; by split_and!).
  pose proof Hwf as [W1 W2 W3 W4].
  destruct (arr_get (bitmap p) i) as [w|] eqn:Hw; [|done]. cbn [mbind option_bind].
  assert (uint 32 w) as Hwu.
  { pose proof (proj2 (proj1 (arr_get_Some _ _ _) Hw)) as Hw2. rewrite Forall_lookup in W1. by eapply W1. }
  destruct (Z.eqb_spec w (-1U)) as [->|Hne].
  { intros E. apply (set_non_full_post p i); [done|lia|].
    apply IH in E; [done|apply wf_set_non_full; [done|lia]|lia..]. }
  destruct (find_next_zero w last_idx) as [idx|] eqn:Hz; [|done]. cbn [mbind option_bind].
  destruct (find_next_zero_spec w last_idx idx Hwu Hl Hz) as [Hib Hfree].
  unfold blocks_free, run_iter. destruct (decide (idx < 32)) as [Hlt|Hge].
  2: { rewrite blocks_iter_outside by lia. done. }
  destruct (blocks_iter_cmp (S (length (bitmap p))) (nr_blocks p) (bitmap p) i idx nr)
    as (ok & bm & -> & Hok); [done|done|lia..|]. cbn [mbind option_bind].
  destruct ok; cbn [negb].
  - destruct (Hok eq_refl) as [Hin Hf].
    destruct (take_run p i idx nr) as (p1 & -> & Hpost); [done|lia..|done|].
    cbn [mbind option_bind]. by intros [= <- <-].
  - rewrite wrap_small by (unfold uint; lia). change SMALLOC_BPI with 32.
    destruct (Z.ltb_spec (idx + nr) 32).
    + intros E. apply IH in E; [done|done|lia..].
    + intros E. apply IH in E; [done|done| |lia..]. apply (wrap_bounds 32). lia.
Qed.

(** Requests of one block, and of a word or more, always get an answer: the
    search then only ever looks at whole words. *)
Lemma search_total fuel : forall p i nr,
  pool_wf p -> 0 <= i -> nr = 1 \/ 32 <= nr < 2 ^ 31 - 32 -> nr_blocks p - i < Z.of_nat fuel ->
  is_Some (search fuel p i 0 nr).
Proof.
  induction fuel as [|fuel IH]; intros p i nr Hwf Hi Hnr Hf; cbn [search];
    (destruct (Z.leb_spec (nr_blocks p) i); [done|]); [lia|].
  pose proof Hwf as [W1 W2 W3 W4].
  destruct (arr_get_is_Some (bitmap p) i) as [w Hw]; [lia|]. rewrite Hw. cbn [mbind option_bind].
  assert (uint 32 w) as Hwu.
  { pose proof (proj2 (proj1 (arr_get_Some _ _ _) Hw)) as Hw2. rewrite Forall_lookup in W1. by eapply W1. }
  destruct (Z.eqb_spec w (-1U)) as [->|Hne].
  { apply IH; [apply wf_set_non_full; [done|lia]|lia|done|cbn; lia]. }
  destruct (not_all_ones_zero 32 w) as (k0 & Hk0 & Hb0); [lia|done..|].
  destruct (find_next_zero_in w 0) as (idx & Hz & Hlt); [done|lia|by exists k0|]. rewrite Hz.
  destruct (find_next_zero_spec w 0 idx Hwu ltac:(lia) Hz) as [Hib Hfree]. cbn [mbind option_bind].
  unfold blocks_free, run_iter.
  destruct (blocks_iter_cmp (S (length (bitmap p))) (nr_blocks p) (bitmap p) i idx nr)
    as (ok & bm & Hc & Hok); [done|done|lia..|]. rewrite Hc. cbn [mbind option_bind].
  destruct ok; cbn [negb].
  - destruct (Hok eq_refl) as [Hin Hf'].
    destruct (take_run p i idx nr) as (p1 & -> & _); [done|lia..|done|]. done.
  - destruct Hnr as [->|Hnr].
    + exfalso.
      destruct (blocks_iter_ok mask_cmp false false mask_cmp_spec (S (length (bitmap p))) (nr_blocks p)
        (bitmap p) i idx 1) as (bm' & Hc' & _); [done|done|lia..| |].
      * intros b Hb. replace b with (32 * i + idx) by lia. unfold bbit.
        replace ((32 * i + idx) / 32) with i by zdm. rewrite Hw. simpl.
        replace ((32 * i + idx) mod 32) with idx by zdm. by apply Hfree.
      * rewrite Hc in Hc'. discriminate Hc'.
    + rewrite (wrap_small 32 (idx + nr)) by (unfold uint; lia). change SMALLOC_BPI with 32.
      destruct (Z.ltb_spec (idx + nr) 32); [lia|].
      rewrite wrap_small by (unfold uint; split; zdm). apply IH; [done|zdm|by right|zdm].
Qed.

(** ** Memory: proofs *)
Lemma load_store m a l : load (store m a l) a (length l) = l.
Proof.
  apply list_eq. intros k. unfold load. rewrite list_lookup_fmap.
  destruct (decide (k < length l)%nat) as [Hk|Hk].
  - rewrite lookup_seq_lt by done. simpl. unfold store.
    destruct (Z.leb_spec a (a + Z.of_nat k)), (Z.ltb_spec (a + Z.of_nat k) (a + Z.of_nat (length l))); try lia.
    cbn [andb]. replace (Z.to_nat (a + Z.of_nat k - a)) with k by lia.
    destruct (lookup_lt_is_Some_2 l k Hk) as [x ->]. done.
  - rewrite lookup_seq_ge by lia. rewrite lookup_ge_None_2 by lia. done.
Qed.

Lemma load_ext m m' a n :
  (forall x, a <= x < a + Z.of_nat n -> m x = m' x) -> load m a n = load m' a n.
Proof.
  intros H. unfold load. apply list_fmap_ext. intros i k Hk.
  apply lookup_seq in Hk as [-> Hk]. apply H. lia.
Qed.

Lemma store_outside m a l x : ~ (a <= x < a + Z.of_nat (length l)) -> store m a l x = m x.
Proof.
  intros H. unfold store. destruct (Z.leb_spec a x), (Z.ltb_spec x (a + Z.of_nat (length l))); done || lia.
Qed.

Lemma align4 x : Z.land x (Z.lnot 3) = x - x mod 4.
Proof.
  rewrite <- Z.ldiff_land. change 3 with (Z.ones 2). rewrite Z.ldiff_ones_r by lia.
  rewrite Z.shiftl_mul_pow2, Z.shiftr_div_pow2 by lia. change (2 ^ 2) with 4. zdm.
Qed.

Lemma alloc_size_bounds size : 0 <= size < 2 ^ 31 ->
  size + 20 <= alloc_size_of size <= size + 23 /\ alloc_size_of size mod 4 = 0.
Proof.
  intros Hs. unfold alloc_size_of, HDR_SIZE, int_mask. rewrite wrap_small by (unfold uint; lia).
  set (x := size + 16 + 4 + 3).
  assert (Z.land x (bnot 64 3) = x - x mod 4) as ->; [|unfold x; zdm].
  rewrite <- align4. apply Z.bits_inj'. intros k Hk. rewrite !Z.land_spec, Z.lnot_spec by done.
  destruct (decide (k < 64)).
  - rewrite bnot_testbit by (unfold uint; lia).
    destruct (Z.leb_spec 0 k), (Z.ltb_spec k 64); done || lia.
  - rewrite (uint_testbit_high 64 x) by (unfold uint, x; lia). done.
Qed.

(** ** The heap invariant

    [live] lists the allocations in use, each as its first block and the size
    in its header. *)
Definition nblk (s : Z) : Z := (s + 31) / 32.

Lemma size_to_blocks_eq s : 0 <= s < 2 ^ 32 -> size_to_blocks s = nblk s.
Proof.
  intros. unfold size_to_blocks, SMALLOC_BPB, nblk. rewrite wrap_small by (unfold uint; lia).
  f_equal. lia.
Qed.

Definition hdr_of (p : pool) (b : Z) : Z := map p + 32 * b.

Record entry_ok (p : pool) (m : memory) (e : Z * Z) : Prop := {
  eo_start : 0 <= fst e;
  eo_size : 20 <= snd e < 2 ^ 31 + 32 /\ snd e mod 4 = 0;
  eo_in : fst e + nblk (snd e) <= 32 * nr_blocks p;
  eo_hdr : hdr_size m (hdr_of p (fst e)) = snd e;
  eo_pre : hdr_prered m (hdr_of p (fst e)) = SMALLOC_PRE_RED;
  eo_post : le_val (load m (hdr_of p (fst e) + snd e - 4) 4) = SMALLOC_POST_RED
}.

Definition covers (e : Z * Z) (b : Z) : Prop := fst e <= b < fst e + nblk (snd e).

Fixpoint used_blocks (live : list (Z * Z)) : Z :=
  match live with
  | [] => 0
  | e :: live => nblk (snd e) + used_blocks live
  end.

Record heap_inv (p : pool) (m : memory) (live : list (Z * Z)) : Prop := {
  hi_wf : pool_wf p;
  hi_map : 0 < map p /\ map p mod 4 = 0;
  hi_live : Forall (entry_ok p m) live;
  hi_bits : forall b, 0 <= b -> bbit (bitmap p) b = true <-> exists e, e ∈ live /\ covers e b;
  hi_apart : forall i j e e' b, live !! i = Some e -> live !! j = Some e' ->
    covers e b -> covers e' b -> i = j;
  hi_free : free_blocks p + used_blocks live = 32 * nr_blocks p
}.

(** A header is intact as long as nobody writes into it or its guard word. *)
Lemma entry_frame p p' m m' e :
  map p' = map p -> nr_blocks p' = nr_blocks p ->
  (forall x, hdr_of p (fst e) <= x < hdr_of p (fst e) + 16 \/
     hdr_of p (fst e) + snd e - 4 <= x < hdr_of p (fst e) + snd e -> m x = m' x) ->
  entry_ok p m e -> entry_ok p' m' e.
Proof.
  intros Hm Hn Hx [H1 H2 H3 H4 H5 H6].
  assert (hdr_of p' (fst e) = hdr_of p (fst e)) as E by (unfold hdr_of; by rewrite Hm).
  split; rewrite ?E, ?Hn; try done; [rewrite <- H4|rewrite <- H5|rewrite <- H6]; unfold hdr_size, hdr_prered;
    f_equal; apply load_ext; intros x Hxr; symmetry; apply Hx; lia.
Qed.

(** The three ways the memory changes. *)
Record astate := AState { a_pool : pool; a_mem : memory; a_live : list (Z * Z) }.

Inductive step : astate -> astate -> Prop :=
| step_alloc p m live size p' m' ptr :
    0 <= size < 2 ^ 31 -> smalloc_pool p m size = Some (p', m', ptr) -> ptr <> 0 ->
    step (AState p m live)
         (AState p' m' (((ptr - HDR_SIZE - map p) / 32, alloc_size_of size) :: live))
| step_oom p m live size p' m' :
    0 <= size < 2 ^ 31 -> smalloc_pool p m size = Some (p', m', 0) ->
    step (AState p m live) (AState p' m' live)
| step_write p m live b s a data :
    (b, s) ∈ live -> hdr_of p b + HDR_SIZE <= a ->
    a + Z.of_nat (length data) <= hdr_of p b + s - 4 ->
    step (AState p m live) (AState p (store m a data) live)
| step_free p m live i b s p' :
    live !! i = Some (b, s) -> sfree_pool p m (hdr_of p b + HDR_SIZE) = Some p' ->
    step (AState p m live) (AState p' m (delete i live)).

Inductive reachable (s0 : astate) : astate -> Prop :=
| reach_start : reachable s0 s0
| reach_step s s' : reachable s0 s -> step s s' -> reachable s0 s'.

(** Two allocations without a common block do not share an address. *)
Lemma apart_addr p e e' x :
  0 < nblk (snd e) -> 0 < nblk (snd e') -> (forall b, covers e b -> covers e' b -> False) ->
  hdr_of p (fst e) <= x < hdr_of p (fst e) + snd e ->
  hdr_of p (fst e') <= x < hdr_of p (fst e') + snd e' -> False.
Proof.
  intros Hn Hn' Hap Hx Hx'. apply (Hap ((x - map p) / 32)); unfold covers, hdr_of, nblk in *; zdm.
Qed.

Lemma nblk_pos s : 20 <= s -> 0 < nblk s.
Proof. intros. unfold nblk. zdm. Qed.

(** The raw allocation: either nothing, or a run that was free. *)
Lemma raw_alloc p size p' ptr :
  pool_wf p -> 0 < map p -> 0 < size < 2 ^ 31 + 32 -> free_blocks p < 2 ^ 64 ->
  __smalloc_pool p size = Some (p', ptr) ->
  pool_wf p' /\ map p' = map p /\ nr_blocks p' = nr_blocks p /\
  (ptr = 0 /\ bitmap p' = bitmap p /\ free_blocks p' = free_blocks p \/
   exists b, ptr = hdr_of p b /\ 0 <= b /\ b + nblk size <= 32 * nr_blocks p /\
     free_blocks p' = free_blocks p - nblk size /\ nblk size <= free_blocks p /\
     forall c, 0 <= c -> (covers (b, size) c -> bbit (bitmap p) c = false) /\
       (bbit (bitmap p') c = true <-> covers (b, size) c \/ bbit (bitmap p) c = true)).
Proof.
  intros Hwf Hmap Hs Hfb. unfold __smalloc_pool. rewrite size_to_blocks_eq by lia.
  assert (0 < nblk size < 2 ^ 31) as Hn by (unfold nblk; zdm).
  destruct (Z.ltb_spec (free_blocks p) (nblk size)); [intros [= <- <-]; split_and!; [done..|left; by split_and!]|].
  destruct (search _ p _ 0 _) as [[p1 r]|] eqn:Es; [|done]. cbn [mbind option_bind].
  pose proof Hwf as [W1 W2 W3 W4].
  apply search_sound in Es; [|done|lia|lia|done]. destruct Es as (Hwf1 & Hm1 & Hn1 & Hf1 & Hr).
  destruct r as [[i idx]|].
  2: { intros [= <- <-]. split_and!; [done..|]. left. auto. }
  destruct Hr as (Hi & Hidx & Hin & Hb). intros [= <- <-].
  assert (u32 (i * SMALLOC_BPL + idx * SMALLOC_BPB) = 32 * (32 * i + idx)) as ->.
  { unfold SMALLOC_BPL, SMALLOC_BPB, SMALLOC_BPI. rewrite wrap_small by (unfold uint; lia). lia. }
  cbn [set_free map nr_blocks bitmap free_blocks]. rewrite Hf1, Hm1.
  rewrite wrap_small by (unfold uint; lia).
  split_and!; [destruct Hwf1; by split|done|done|]. right. exists (32 * i + idx).
  split_and!; [done|lia|lia|done|lia|]. intros c Hc. destruct (Hb c Hc) as [H1 H2].
  unfold covers. cbn [fst snd]. cbv zeta in H1, H2. rewrite H2.
  destruct (Z.leb_spec (32 * i + idx) c), (Z.ltb_spec c (32 * i + idx + nblk size)); cbn [andb orb] in *;
    (split; [intros ?; try (by apply H1); lia|]); naive_solver lia.
Qed.

(** What [smalloc_pool] writes: header, guard word and zeroes, all inside the run. *)
Lemma hdr_written p m b s size :
  map p mod 4 = 0 -> s mod 4 = 0 -> 0 <= size -> size + 20 <= s < 2 ^ 31 + 32 ->
  let hdr := hdr_of p b in
  let m' := store (fill_redzone (store m hdr (le_bytes 8 s)) hdr) (hdr + HDR_SIZE)
              (replicate (Z.to_nat size) 0) in
  hdr_size m' hdr = s /\ hdr_prered m' hdr = SMALLOC_PRE_RED /\
  le_val (load m' (hdr + s - 4) 4) = SMALLOC_POST_RED /\
  (forall x, ~ (hdr <= x < hdr + s) -> m' x = m x) /\
  load m' (hdr + HDR_SIZE) (Z.to_nat size) = replicate (Z.to_nat size) 0.
Proof.
  intros Hm Hs Hsz Hb hdr m'.
  assert (hdr_size (store m hdr (le_bytes 8 s)) hdr = s) as Hs1.
  { unfold hdr_size. replace 8%nat with (length (le_bytes 8 s)) by apply length_le_bytes.
    rewrite load_store, le_val_bytes by lia. apply Z.mod_small. simpl Z.mul. lia. }
  assert (postred_ptr hdr s = hdr + s - 4) as Hp.
  { unfold postred_ptr, int_mask. rewrite align4. unfold hdr, hdr_of. zdm. }
  unfold m', fill_redzone. rewrite Hs1, Hp. unfold HDR_SIZE in *.
  set (m1 := store m hdr (le_bytes 8 s)) in *.
  set (m2 := store m1 (hdr + 8) (le_bytes 4 SMALLOC_PRE_RED)).
  set (m3 := store m2 (hdr + s - 4) (le_bytes 4 SMALLOC_POST_RED)).
  set (m4 := store m3 (hdr + 16) _).
  assert (forall x, ~ (hdr + 16 <= x < hdr + 16 + size) -> m4 x = m3 x) as H4.
  { intros x Hx. apply store_outside. rewrite length_replicate. lia. }
  assert (forall x, ~ (hdr + s - 4 <= x < hdr + s) -> m3 x = m2 x) as H3.
  { intros x Hx. apply store_outside. rewrite length_le_bytes. lia. }
  assert (forall x, ~ (hdr + 8 <= x < hdr + 12) -> m2 x = m1 x) as H2.
  { intros x Hx. apply store_outside. rewrite length_le_bytes. lia. }
  assert (forall x, ~ (hdr <= x < hdr + 8) -> m1 x = m x) as H1.
  { intros x Hx. apply store_outside. rewrite length_le_bytes. lia. }
  split_and!.
  - unfold hdr_size. rewrite (load_ext m4 m1); [exact Hs1|]. intros x Hx. rewrite H4, H3, H2 by lia. done.
  - unfold hdr_prered. rewrite (load_ext m4 m2) by (intros x Hx; by rewrite H4, H3 by lia).
    replace 4%nat with (length (le_bytes 4 SMALLOC_PRE_RED)) by apply length_le_bytes.
    unfold m2. rewrite load_store. reflexivity.
  - rewrite (load_ext m4 m3) by (intros x Hx; by rewrite H4 by lia).
    replace 4%nat with (length (le_bytes 4 SMALLOC_POST_RED)) by apply length_le_bytes.
    unfold m3. rewrite load_store. reflexivity.
  - intros x Hx. rewrite H4, H3, H2, H1 by lia. done.
  - rewrite <- (length_replicate (Z.to_nat size) 0) at 1. apply load_store.
Qed.

Lemma used_nonneg p m live : Forall (entry_ok p m) live -> 0 <= used_blocks live.
Proof.
  induction 1 as [|e live He _ IH]; simpl; [lia|]. destruct He as [_ He _ _ _ _].
  pose proof (nblk_pos (snd e) ltac:(lia)). lia.
Qed.

Lemma inv_free_bound p m live : heap_inv p m live -> 0 <= free_blocks p -> free_blocks p < 2 ^ 64.
Proof.
  intros [Hwf _ Hl _ _ Hf] H0. pose proof Hwf as [_ _ W3 _].
  pose proof (used_nonneg p m live Hl). lia.
Qed.

Lemma entry_apart p m live i j e e' :
  heap_inv p m live -> live !! i = Some e -> live !! j = Some e' -> i <> j ->
  forall x, hdr_of p (fst e) <= x < hdr_of p (fst e) + snd e ->
    hdr_of p (fst e') <= x < hdr_of p (fst e') + snd e' -> False.
Proof.
  intros Hinv Hi Hj Hne x. pose proof Hinv as [_ _ Hl _ Hap _]. rewrite Forall_lookup in Hl.
  pose proof (Hl _ _ Hi) as [_ He _ _ _ _]. pose proof (Hl _ _ Hj) as [_ He' _ _ _ _].
  apply (apart_addr p); [apply nblk_pos; lia..|]. intros b H1 H2. by apply Hne, (Hap i j e e' b).
Qed.

(** Allocating keeps the invariant, gives zeroed memory and changes nothing
    outside the new run. *)
Lemma alloc_inv p m live size p' m' ptr :
  heap_inv p m live -> 0 <= free_blocks p -> 0 <= size < 2 ^ 31 ->
  smalloc_pool p m size = Some (p', m', ptr) ->
  map p' = map p /\ 0 <= free_blocks p' /\
  (ptr = 0 /\ m' = m /\ heap_inv p' m' live \/
   exists b, ptr = hdr_of p b + HDR_SIZE /\ 0 <= b /\
     heap_inv p' m' ((b, alloc_size_of size) :: live) /\
     load m' ptr (Z.to_nat size) = replicate (Z.to_nat size) 0 /\
     forall x, ~ (hdr_of p b <= x < hdr_of p b + alloc_size_of size) -> m' x = m x).
Proof.
  intros Hinv Hf0 Hsz. pose proof (inv_free_bound p m live Hinv Hf0) as Hfb.
  pose proof Hinv as [Hwf [Hm0 Hm4] Hl Hbits Hap Hfree].
  destruct (alloc_size_bounds size Hsz) as [Has Has4].
  unfold smalloc_pool. set (s := alloc_size_of size) in *.
  destruct (__smalloc_pool p s) as [[p1 raw]|] eqn:Er; [|done]. cbn [mbind option_bind].
  destruct (raw_alloc p s p1 raw) as (Hwf1 & Hm1 & Hn1 & Hcase); [done..|lia|done|done|].
  assert (forall live', free_blocks p1 + used_blocks live' = 32 * nr_blocks p ->
    free_blocks p1 + used_blocks live' = 32 * nr_blocks p1) as Hnr
    by (intros; by rewrite Hn1).
  destruct Hcase as [(-> & Hbm & Hfr)|(b & -> & Hb0 & Hbin & Hfr & Hfn & Hbb)].
  { rewrite Z.eqb_refl. intros [= <- <- <-]. split; [done|]. split; [lia|]. left. split_and!; [done..|].
    split; [done|by rewrite Hm1| |by rewrite Hbm|done|apply Hnr; lia].
    eapply Forall_impl; [|exact Hl]. intros e. by apply entry_frame. }
  destruct (Z.eqb_spec (hdr_of p b) 0); [unfold hdr_of in *; lia|]. intros [= <- <- <-].
  destruct (hdr_written p m b s size) as (W1 & W2 & W3 & W4 & W5); [done|done|lia|lia|].
  set (m' := store _ _ _) in *. split; [done|]. split; [lia|]. right. exists b.
  split_and!; [done|done| |done|done].
  assert (forall e, e ∈ live -> forall c, covers e c -> covers (b, s) c -> False) as Hnew.
  { intros e He c H1 H2. rewrite Forall_forall in Hl. pose proof (Hl e (proj1 (list_elem_of_In _ _) He)) as [He0 _ _ _ _ _].
    destruct (Hbb c) as [Hc _]; [unfold covers in H1; lia|]. specialize (Hc H2).
    assert (bbit (bitmap p) c = true) by (apply Hbits; [unfold covers in H1; lia|by exists e]). congruence. }
  split.
  - done.
  - by rewrite Hm1.
  - assert (hdr_of p1 b = hdr_of p b) as Eh by (unfold hdr_of; by rewrite Hm1).
    constructor; [split; cbn [fst snd]; rewrite ?Eh, ?Hn1; done || lia|].
    apply Forall_forall. intros e He. rewrite Forall_forall in Hl. pose proof (Hl e He) as Heo.
    apply (entry_frame p p1 m m'); [done..| |done]. intros x Hx. symmetry. apply W4. intros Hin.
    pose proof Heo as [_ Hes _ _ _ _].
    apply (apart_addr p e (b, s) x); [apply nblk_pos; lia|apply nblk_pos; simpl; lia| |lia|done].
    apply Hnew. by apply list_elem_of_In.
  - intros c Hc. destruct (Hbb c Hc) as [_ ->]. rewrite Hbits by done. setoid_rewrite elem_of_cons.
    naive_solver.
  - intros i j e e' c Hi Hj H1 H2. destruct i as [|i], j as [|j]; [done| | |].
    + exfalso. injection Hi as <-. change (live !! j = Some e') in Hj.
      by apply (Hnew e' (list_elem_of_lookup_2 _ _ _ Hj) c).
    + exfalso. injection Hj as <-. change (live !! i = Some e) in Hi.
      by apply (Hnew e (list_elem_of_lookup_2 _ _ _ Hi) c).
    + f_equal. by apply (Hap i j e e' c).
  - apply Hnr. cbn [used_blocks snd]. lia.
Qed.

Lemma write_inv p m live b s a data :
  heap_inv p m live -> (b, s) ∈ live -> hdr_of p b + HDR_SIZE <= a ->
  a + Z.of_nat (length data) <= hdr_of p b + s - 4 -> heap_inv p (store m a data) live.
Proof.
  intros Hinv Hin Ha1 Ha2. pose proof Hinv as [Hwf Hm Hl Hbits Hap Hfree]. unfold HDR_SIZE in *.
  apply list_elem_of_lookup in Hin as [i Hi].
  split; [done|done| |done|done|done]. apply Forall_lookup. intros j e Hj.
  rewrite Forall_lookup in Hl. pose proof (Hl j e Hj) as Heo.
  apply (entry_frame p p m); [done..| |done]. intros x Hx. symmetry. apply store_outside. intros Hxa.
  pose proof Heo as [_ Hes _ _ _ _]. destruct (decide (i = j)) as [->|Hne].
  - assert (e = (b, s)) as -> by congruence. simpl in *. lia.
  - apply (entry_apart p m live i j (b, s) e Hinv Hi Hj Hne x); simpl; lia.
Qed.

Lemma used_blocks_delete live : forall i e, live !! i = Some e ->
  used_blocks live = nblk (snd e) + used_blocks (delete i live).
Proof.
  induction live as [|e0 live IH]; intros [|i] e Hi; simpl in *; try done.
  - by injection Hi as <-.
  - rewrite (IH i e Hi). lia.
Qed.

Lemma elem_of_delete_ne {A} (l : list A) i j x : l !! j = Some x -> i <> j -> x ∈ delete i l.
Proof.
  intros Hj Hne. destruct (decide (j < i)%nat).
  - apply list_elem_of_lookup. exists j. by rewrite list_lookup_delete_lt.
  - apply list_elem_of_lookup. exists (j - 1)%nat. rewrite list_lookup_delete_ge by lia.
    by replace (S (j - 1)) with j by lia.
Qed.

Lemma lookup_delete_inv {A} (l : list A) i j x : delete i l !! j = Some x ->
  exists j', l !! j' = Some x /\ j' <> i /\ j' = (if decide (j < i)%nat then j else S j).
Proof.
  intros H. destruct (decide (j < i)%nat).
  - rewrite list_lookup_delete_lt in H by done. exists j. split_and!; [done|lia|done].
  - rewrite list_lookup_delete_ge in H by lia. exists (S j). split_and!; [done|lia|done].
Qed.

(** Clearing the run of a live allocation. *)
Lemma clear_run p m live i b s :
  heap_inv p m live -> live !! i = Some (b, s) ->
  exists p', clear_blocks p (b / 32) (b mod 32) (nblk s) = Some p' /\ pool_wf p' /\
    map p' = map p /\ nr_blocks p' = nr_blocks p /\ free_blocks p' = free_blocks p /\
    next_non_full p' = next_non_full p /\
    forall c, 0 <= c -> bbit (bitmap p') c = true <-> bbit (bitmap p) c = true /\ ~ covers (b, s) c.
Proof.
  intros [Hwf _ Hl Hbits _ _] Hi. pose proof Hwf as [W1 W2 W3 W4].
  rewrite Forall_lookup in Hl. destruct (Hl _ _ Hi) as [E1 E2 E3 _ _ _]. simpl in *.
  pose proof (nblk_pos s ltac:(lia)). unfold clear_blocks, run_iter.
  replace b with (32 * (b / 32) + b mod 32) in E3 by zdm.
  destruct (blocks_iter_ok mask_clear true false mask_clear_spec (S (length (bitmap p))) (nr_blocks p)
    (bitmap p) (b / 32) (b mod 32) (nblk s)) as (bm & -> & L & U & B); [done|done|zdm|zdm| |lia|zdm| |].
  { unfold nblk. zdm. }
  { intros c Hc. apply Hbits; [zdm|]. exists (b, s). split; [by eapply list_elem_of_lookup_2|].
    unfold covers. simpl. zdm. }
  cbn [mbind option_bind]. eexists. split; [done|].
  split_and!; [split; cbn; [done|congruence|done|done]|done..|]. cbn [set_bitmap bitmap].
  intros c Hc. rewrite B by done. unfold covers. cbn [fst snd].
  replace (32 * (b / 32) + b mod 32) with b by zdm.
  destruct (Z.leb_spec b c), (Z.ltb_spec c (b + nblk s)); cbn [andb]; naive_solver lia.
Qed.

(** Freeing a live allocation passes every check and keeps the invariant. *)
Lemma free_inv p m live i b s :
  heap_inv p m live -> 0 <= free_blocks p -> live !! i = Some (b, s) ->
  exists p', sfree_pool p m (hdr_of p b + HDR_SIZE) = Some p' /\ map p' = map p /\
    0 <= free_blocks p' /\ heap_inv p' m (delete i live).
Proof.
  intros Hinv Hf0 Hi. pose proof Hinv as [Hwf [Hm0 Hm4] Hl Hbits Hap Hfree].
  pose proof (proj1 (Forall_lookup _ _) Hl _ _ Hi) as Heo.
  pose proof Heo as [E1 [E2 E2'] E3 E4 E5 E6]. cbn [fst snd] in *.
  pose proof Hwf as [W1 W2 W3 W4]. pose proof (nblk_pos s ltac:(lia)) as Hn.
  unfold sfree_pool. replace (hdr_of p b + HDR_SIZE - HDR_SIZE) with (hdr_of p b) by lia.
  assert (0 <= 32 * b < 1024 * nr_blocks p) as Hoff by lia.
  rewrite (proj2 (Z.eqb_neq _ 0)) by (unfold hdr_of, HDR_SIZE; lia).
  assert (ptr_valid p (hdr_of p b) = true) as ->.
  { unfold ptr_valid, SMALLOC_BPL, SMALLOC_BPB, SMALLOC_BPI, hdr_of.
    rewrite wrap_small by (unfold uint; lia).
    destruct (Z.leb_spec (map p) (map p + 32 * b)),
      (Z.ltb_spec (map p + 32 * b) (map p + nr_blocks p * (32 * 32))); done || lia. }
  cbn [assert mbind option_bind]. unfold sfree_check_redzone. rewrite E4, E5, Z.eqb_refl.
  assert (postred_ptr (hdr_of p b) s = hdr_of p b + s - 4) as ->.
  { unfold postred_ptr, int_mask. rewrite align4. unfold hdr_of. zdm. }
  rewrite E6, Z.eqb_refl. cbn [assert mbind option_bind].
  replace (hdr_of p b - map p) with (32 * b) by (unfold hdr_of; lia).
  change SMALLOC_BPL with 1024. change SMALLOC_BPB with 32.
  replace (32 * b / 1024) with (b / 32) by zdm. replace (32 * b mod 1024 / 32) with (b mod 32) by zdm.
  rewrite (wrap_small 32) by (unfold uint; split; zdm). rewrite size_to_blocks_eq by lia.
  destruct (clear_run p m live i b s Hinv Hi) as (p1 & -> & Hwf1 & Hm1 & Hn1 & Hf1 & Hnn & Hb1).
  cbn [mbind option_bind]. eexists. split; [done|].
  pose proof (used_blocks_delete live i (b, s) Hi) as Hu. cbn [snd] in Hu.
  set (p2 := if _ <? _ then _ else _).
  assert (map p2 = map p /\ nr_blocks p2 = nr_blocks p /\ free_blocks p2 = free_blocks p /\
    bitmap p2 = bitmap p1 /\ pool_wf p2) as (Hm2 & Hn2 & Hf2 & Hb2 & Hwf2).
  { unfold p2. destruct (Z.ltb_spec (b / 32) (next_non_full p1)); [|by split_and!].
    split_and!; [done..|]. apply wf_set_non_full; [done|]. rewrite Hn1. zdm. }
  clearbody p2. pose proof (used_nonneg p m _ (Forall_delete _ _ i Hl)) as Hun.
  rewrite Hf2, wrap_small by (unfold uint; lia). cbn [set_free map free_blocks].
  split; [done|]. split; [lia|].
  split; cbn [set_free map free_blocks bitmap nr_blocks]; rewrite ?Hm2, ?Hn2, ?Hb2.
  - destruct Hwf2; by split.
  - done.
  - apply Forall_delete. eapply Forall_impl; [|exact Hl]. intros e. by apply entry_frame.
  - intros c Hc. rewrite Hb1, Hbits by done. split.
    + intros [(e & [j Hj]%list_elem_of_lookup & Hcov) Hnc]. exists e. split; [|done].
      apply (elem_of_delete_ne live i j); [done|]. intros ->. apply Hnc. by assert (e = (b, s)) as <- by congruence.
    + intros (e & [j Hj]%list_elem_of_lookup & Hcov).
      apply lookup_delete_inv in Hj as (j' & Hj & Hne & _). split.
      * exists e. split; [by eapply list_elem_of_lookup_2|done].
      * intros Hc2. by apply Hne, (Hap j' i e (b, s) c).
  - intros j k e e' c Hj Hk H1 H2.
    apply lookup_delete_inv in Hj as (j' & Hj & Hnj & Ej). apply lookup_delete_inv in Hk as (k' & Hk & Hnk & Ek).
    pose proof (Hap j' k' e e' c Hj Hk H1 H2). destruct (decide (j < i)%nat), (decide (k < i)%nat); lia.
  - lia.
Qed.

Definition astate_ok (s : astate) : Prop :=
  heap_inv (a_pool s) (a_mem s) (a_live s) /\ 0 <= free_blocks (a_pool s).

Lemma step_ok s s' : astate_ok s -> step s s' -> astate_ok s'.
Proof.
  intros [Hinv Hf] Hst. destruct Hst as [p m live size p' m' ptr Hsz Ha Hne|p m live size p' m' Hsz Ha
    |p m live b s a data Hin Ha1 Ha2|p m live i b s p' Hi Hfr]; cbn [a_pool a_mem a_live] in *.
  - destruct (alloc_inv p m live size p' m' ptr Hinv Hf Hsz Ha) as (Hm & Hf' & [(? & _)|(b & -> & Hb0 & Hi & _)]);
      [done|]. split; [|done]. cbn [a_pool a_mem a_live].
    by replace ((hdr_of p b + HDR_SIZE - HDR_SIZE - map p) / 32) with b by (unfold hdr_of; zdm).
  - destruct (alloc_inv p m live size p' m' 0 Hinv Hf Hsz Ha) as (Hm & Hf' & [(_ & _ & Hi)|(b & E & Hb0 & _)]).
    + by split.
    + destruct Hinv as [_ [Hm0 _] _ _ _ _]. unfold hdr_of, HDR_SIZE in E. lia.
  - split; [by apply (write_inv p m live b s)|done].
  - destruct (free_inv p m live i b s Hinv Hf Hi) as (p2 & E & _ & Hf2 & Hi2). 
    rewrite E in Hfr. injection Hfr as <-. by split.
Qed.

Lemma reachable_ok s0 s : astate_ok s0 -> reachable s0 s -> astate_ok s.
Proof. intros H0. induction 1 as [|s s' _ IH Hst]; [done|]. by apply (step_ok s). Qed.

(** A pool as [add_pool] leaves it. *)
Definition fresh_pool (base words : Z) : pool :=
  Pool base (replicate (Z.to_nat words) 0) (words * SMALLOC_BPB) words 0.

Lemma fresh_ok base words m :
  0 < base -> base mod 4 = 0 -> 0 < words < 2 ^ 21 -> astate_ok (AState (fresh_pool base words) m []).
Proof.
  intros Hb Hb4 Hw. split; [|cbn; unfold SMALLOC_BPB; lia]. split; cbn.
  - split; cbn; [|rewrite length_replicate; lia|done|lia].
    apply Forall_forall. intros x Hx%list_elem_of_In. apply elem_of_replicate in Hx as [-> _]. done.
  - done.
  - constructor.
  - intros b Hb0. split; [|intros (e & He & _); by apply not_elem_of_nil in He].
    unfold bbit, arr_get. destruct (0 <=? b / 32); [|by rewrite Z.testbit_0_l].
    destruct (replicate _ 0 !! _) as [x|] eqn:E; simpl; [|by rewrite Z.testbit_0_l].
    apply lookup_replicate in E as [-> _]. by rewrite Z.testbit_0_l.
  - done.
  - unfold SMALLOC_BPB. lia.
Qed.

Lemma smalloc_answered p m size :
  pool_wf p -> 0 <= size <= 12 \/ 1024 <= size < 2 ^ 30 ->
  is_Some (smalloc_pool p m size).
Proof.
  intros Hwf Hs. pose proof Hwf as [W1 W2 W3 W4]. unfold smalloc_pool.
  destruct (alloc_size_bounds size ltac:(lia)) as [Has Has4]. set (s := alloc_size_of size) in *.
  enough (is_Some (__smalloc_pool p s)) as [[p1 ptr] ->].
  { cbn [mbind option_bind]. by destruct (ptr =? 0). }
  unfold __smalloc_pool. rewrite size_to_blocks_eq by lia. destruct (_ <? _); [done|].
  destruct (search_total (search_fuel p) p (next_non_full p) (nblk s)) as [[p1 r] ->];
    [done|lia|unfold nblk; zdm|unfold search_fuel; lia|].
  cbn [mbind option_bind]. by destruct r as [[i idx]|].
Qed.

(** C7. The shared-memory allocator is safe.  Starting from a fresh pool, after any
    sequence of allocations that got an answer, writes by the holders inside their
    own memory, and frees: the live allocations never share a byte, the bit map
    marks exactly their blocks and [free_blocks] counts the others; requests that
    fit one block (up to 12 bytes) or need a word of the bit map or more (1 KiB and
    up) get an answer, and any request that does, gets no memory or memory that is
    disjoint from all live allocations and zeroed, with nothing changed outside of
    its run; and freeing any live allocation passes the pointer, guard-word and
    bit-map checks.  (The search for a request in between may shift a word by its
    width, which C leaves undefined: see [smalloc_search_gaps].) *)
Theorem smalloc_safe base words m0 s :
  0 < base -> base mod 4 = 0 -> 0 < words < 2 ^ 21 ->
  reachable (AState (fresh_pool base words) m0 []) s ->
  heap_inv (a_pool s) (a_mem s) (a_live s) /\
  (forall size, 0 <= size <= 12 \/ 1024 <= size < 2 ^ 30 -> is_Some (smalloc_pool (a_pool s) (a_mem s) size)) /\
  (forall size p' m' ptr, 0 <= size < 2 ^ 31 -> smalloc_pool (a_pool s) (a_mem s) size = Some (p', m', ptr) ->
   ptr = 0 \/ exists b, ptr = hdr_of (a_pool s) b + HDR_SIZE /\
     heap_inv p' m' ((b, alloc_size_of size) :: a_live s) /\
     load m' ptr (Z.to_nat size) = replicate (Z.to_nat size) 0 /\
     (forall x, ~ (hdr_of (a_pool s) b <= x < hdr_of (a_pool s) b + alloc_size_of size) ->
        m' x = a_mem s x)) /\
  (forall i b sz, a_live s !! i = Some (b, sz) ->
     exists p2, sfree_pool (a_pool s) (a_mem s) (hdr_of (a_pool s) b + HDR_SIZE) = Some p2 /\
       heap_inv p2 (a_mem s) (delete i (a_live s))).
Proof.
  intros Hb Hb4 Hw Hr.
  destruct (reachable_ok _ _ (fresh_ok base words m0 Hb Hb4 Hw) Hr) as [Hinv Hf].
  split; [done|]. split_and!.
  - intros size. apply smalloc_answered. apply Hinv.
  - intros size p' m' ptr Hsz Ha. destruct (alloc_inv _ _ _ _ _ _ _ Hinv Hf Hsz Ha) as (_ & _ & [(-> & _)|(b & E & _ & Hi & Hz & Hx)]);
      [by left|]. right. by exists b.
  - intros i b sz Hi. destruct (free_inv _ _ _ _ _ _ Hinv Hf Hi) as (p2 & E & _ & _ & Hi2). by exists p2.
Qed.

Lemma smalloc_safe_witness :
  exists p' m', smalloc_pool (fresh_pool 4096 16) (fun _ => 0) 100 = Some (p', m', 4112) /\
    exists b, heap_inv p' m' [(b, alloc_size_of 100)].
Proof.
  assert (snd <$> smalloc_pool (fresh_pool 4096 16) (fun _ => 0) 100 = Some 4112) as H
    by (vm_compute; reflexivity).
  destruct (smalloc_pool (fresh_pool 4096 16) (fun _ => 0) 100) as [[[p' m'] ptr]|] eqn:E;
    [|discriminate H].
  injection H as ->. exists p', m'. split; [reflexivity|].
  destruct (smalloc_safe 4096 16 (fun _ => 0) (AState (fresh_pool 4096 16) (fun _ => 0) []))
    as (_ & _ & Hs & _); [lia|reflexivity|lia|apply reach_start|].
  destruct (Hs 100 p' m' 4112) as [H|(b & _ & H & _)]; [lia|exact E|discriminate H|].
  exists b. exact H.
Defined.

(** Requests that fit one block (up to 12 bytes) or need a whole word of the
    bit map (1 KiB and more) always get an answer in a well-formed pool: the
    search ends within its bound and no shift leaves the word. *)
Theorem smalloc_answers p m size :
  pool_wf p -> 0 <= size <= 12 \/ 1024 <= size < 2 ^ 30 ->
  is_Some (smalloc_pool p m size).
Proof. apply smalloc_answered. Qed.

Lemma smalloc_answers_witness : is_Some (smalloc_pool (fresh_pool 4096 16) (fun _ => 0) 5).
Proof.
  apply (smalloc_answers (fresh_pool 4096 16) (fun _ => 0) 5).
  - apply (fresh_ok 4096 16 (fun _ => 0)); [lia|reflexivity|lia].
  - lia.
Defined.

(** Two gaps of the search.  With the four low blocks of a word free and the
    rest taken, a request of five blocks looks for a clear bit in a word that
    has none left and then shifts by more than the word size.  And a full word
    behind a partly free one moves [next_non_full] past the free blocks: after
    a request of 32 blocks the only free block of the pool is no longer found. *)
Theorem smalloc_search_gaps :
  __smalloc_pool (Pool 4096 [0xfffffff0; 0] 36 2 0) 160 = None /\
  exists p1, __smalloc_pool (Pool 4096 [0xfffffffe; 0xffffffff; 0] 33 3 0) 1024 = Some (p1, 4096 + 2048) /\
    free_blocks p1 = 1 /\ bbit (bitmap p1) 0 = false /\
    exists p2, __smalloc_pool p1 32 = Some (p2, 0).
Proof.
  split; [vm_compute; reflexivity|]. eexists. split; [vm_compute; reflexivity|].
  split; [reflexivity|]. split; [reflexivity|]. eexists. vm_compute. reflexivity.
Qed.
