(* ===== verification/Server.v ===== *)
(** * Commands on the wire: [server.c], [server.h]

    The client/server protocol moves commands over a byte stream: a header with
    a checksum of its own and a payload of at most 1024 bytes per fragment.
    This file has the sending side ([fio_net_send_cmd], [fio_send_cmd_ext_pdu]),
    the receiving side ([fio_net_recv_cmd]) that puts the fragments together
    again, and the loops over [writev] and [recv] below them.  The machine is
    little-endian. *)
From S2P Require Import Prelude Crc Flags.

(** ** Messages *)
Definition FIO_SERVER_VER : Z := 70.
Definition FIO_SERVER_MAX_FRAGMENT_PDU : Z := 1024.
Definition FIO_SERVER_MAX_CMD_MB : Z := 2048.
Definition FIO_NET_CMD_JOB : Z := 3.
Definition FIO_NET_CMD_TEXT : Z := 5.
Definition FIO_NET_CMD_F_MORE : Z := flag 0.

(** [sizeof(struct fio_net_cmd)] and [FIO_NET_CMD_CRC_SZ]. *)
Definition CMD_SIZE : Z := 24.
Definition FIO_NET_CMD_CRC_SZ : nat := 20.

Record fio_net_cmd := Cmd {
  version : Z; opcode : Z; cmd_flags : Z; tag : Z; pdu_len : Z; cmd_crc16 : Z; pdu_crc16 : Z
}.

Definition cmd_head (c : fio_net_cmd) : list Z :=
  le_bytes 2 (version c) ++ le_bytes 2 (opcode c) ++ le_bytes 4 (cmd_flags c) ++ le_bytes 8 (tag c) ++ le_bytes 4 (pdu_len c).
Definition cmd_bytes (c : fio_net_cmd) : list Z := cmd_head c ++ le_bytes 2 (cmd_crc16 c) ++ le_bytes 2 (pdu_crc16 c).

Definition field_at (p : list Z) (off n : nat) : Z := le_val (take n (drop off p)).
Definition cmd_of (p : list Z) : fio_net_cmd :=
  Cmd (field_at p 0 2) (field_at p 2 2) (field_at p 4 4) (field_at p 8 8) (field_at p 16 4) (field_at p 20 2) (field_at p 22 2).

Definition __fio_init_net_cmd (op len t : Z) : fio_net_cmd := Cmd FIO_SERVER_VER (u16 op) 0 (u64 t) (u32 len) 0 0.

Definition with_cmd_flags (c : fio_net_cmd) (f : Z) : fio_net_cmd :=
  Cmd (version c) (opcode c) (u32 f) (tag c) (pdu_len c) (cmd_crc16 c) (pdu_crc16 c).

Definition fio_net_cmd_crc_pdu (c : fio_net_cmd) (pdu : list Z) : fio_net_cmd :=
  Cmd (version c) (opcode c) (cmd_flags c) (tag c) (pdu_len c) (fio_crc16 (take FIO_NET_CMD_CRC_SZ (cmd_bytes c)))
    (fio_crc16 (take (Z.to_nat (pdu_len c)) pdu)).

(** ** The stream below *)

(** A [writev] takes some bytes, none, is to be repeated, or fails. *)
Inductive wres := Wrote (n : nat) | WNone | WAgain | WError.

(** A [recv] delivers some bytes, the end of the stream, is to be repeated, or
    fails. *)
Inductive rres := Got (n : nat) | REof | RAgain | RError.

(** The [while (ret)] loop: [iov] is the caller's array, what is left to write of
    each entry, and [i] the entry the pointer is at.  The array is changed in
    place. *)
Fixpoint iov_advance (fuel : nat) (iov : list (list Z)) (i ret : nat) : option (list (list Z) * nat) :=
  if (ret =? 0)%nat then Some (iov, i) else
  match fuel with
  | O => None
  | S fuel =>
      v ← iov !! i;
      if (length v <=? ret)%nat then iov_advance fuel iov (S i) (ret - length v) else Some (<[i := drop ret v]> iov, i)
  end.

(** The bytes [writev(sk, iov + i, count)] sees. *)
Definition iov_view (iov : list (list Z)) (i count : nat) : option (list Z) :=
  if (i + count <=? length iov)%nat then Some (concat (take count (drop i iov))) else None.

Section socket.
(** What the [k]-th call of [writev] does with so many bytes, what the [k]-th
    call of [recv] does when so many are asked for and so many are there, and
    [exit_backend] after a call. *)
Context (wenv : nat -> nat -> wres) (renv : nat -> Z -> nat -> rres) (exit_backend : nat -> bool).

(** The socket for sending: the calls made and the bytes that went out. *)
Record outgoing := Outgoing { o_calls : nat; o_bytes : list Z }.

(** The loop of [fio_sendv_data]: the code and the array as it leaves it. *)
Fixpoint sendv_loop (fuel : nat) (iov : list (list Z)) (i count : nat) (total : Z) (s : outgoing) :
    option (Z * list (list Z) * outgoing) :=
  match fuel with
  | O => None
  | S fuel =>
      view ← iov_view iov i count;
      let k := o_calls s in
      let stop t iov s := Some (if t =? 0 then 0 else 1, iov, s) in
      match wenv k (length view) with
      | Wrote n =>
          _ ← assert ((0 <? n)%nat && (n <=? length view)%nat);
          let s := Outgoing (S k) (o_bytes s ++ take n view) in
          let total := total - Z.of_nat n in
          if total =? 0 then stop total iov s else
          '(iov, i) ← iov_advance (S (length iov)) iov i n;
          if exit_backend k then stop total iov s else sendv_loop fuel iov i count total s
      | WNone | WError => stop total iov (Outgoing (S k) (o_bytes s))
      | WAgain =>
          let s := Outgoing (S k) (o_bytes s) in
          if exit_backend k then stop total iov s else sendv_loop fuel iov i count total s
      end
  end.

Definition fio_sendv_data (fuel : nat) (s : outgoing) (iov : list (list Z)) (count : nat) :
    option (Z * list (list Z) * outgoing) :=
  sendv_loop fuel iov 0 count (Z.of_nat (length (concat (take count iov)))) s.

Definition fio_send_data (fuel : nat) (s : outgoing) (p : list Z) : option (Z * outgoing) :=
  _ ← assert (Z.of_nat (length p) <=? CMD_SIZE + FIO_SERVER_MAX_FRAGMENT_PDU);
  '(ret, _, s) ← fio_sendv_data fuel s [p] 1;
  Some (ret, s).

(** The socket for receiving: the calls made and the bytes still to come. *)
Record incoming := Incoming { i_calls : nat; i_bytes : list Z }.

(** The loop of [fio_recv_data]: the code and the bytes received. *)
Fixpoint recv_loop (fuel : nat) (wait : bool) (s : incoming) (len : Z) (buf : list Z) : option (Z * list Z * incoming) :=
  match fuel with
  | O => None
  | S fuel =>
      let k := i_calls s in
      let stop l b s := Some (if l =? 0 then 0 else -1, b, s) in
      let s' := Incoming (S k) (i_bytes s) in
      match renv k len (length (i_bytes s)) with
      | Got n =>
          _ ← assert ((0 <? n)%nat && (Z.of_nat n <=? len) && (n <=? length (i_bytes s))%nat);
          let buf := buf ++ take n (i_bytes s) in
          let s' := Incoming (S k) (drop n (i_bytes s)) in
          let len := len - Z.of_nat n in
          if len =? 0 then stop len buf s'
          else if exit_backend k then stop len buf s' else recv_loop fuel wait s' len buf
      | REof | RError => stop len buf s'
      | RAgain => if wait && negb (exit_backend k) then recv_loop fuel wait s' len buf else stop len buf s'
      end
  end.

Definition fio_recv_data (fuel : nat) (wait : bool) (s : incoming) (len : Z) : option (Z * list Z * incoming) :=
  recv_loop fuel wait s len [].
End socket.

(** ** Sending *)

(** The fragments of a command, the last one without [FIO_NET_CMD_F_MORE]. *)
Section send.
Context {K : Type} (send : K -> list Z -> option (Z * K)).

Fixpoint send_loop (fuel : nat) (s : K) (op t : Z) (buf : list Z) (size : Z) : option (Z * K) :=
  match fuel with
  | O => None
  | S fuel =>
      let this_len := if FIO_SERVER_MAX_FRAGMENT_PDU <? size then FIO_SERVER_MAX_FRAGMENT_PDU else size in
      pdu ← mem_read buf 0 this_len;
      let c := __fio_init_net_cmd op this_len t in
      let c := if this_len <? size then with_cmd_flags c FIO_NET_CMD_F_MORE else c in
      let c := fio_net_cmd_crc_pdu c pdu in
      '(ret, s) ← send s (cmd_bytes c ++ pdu);
      if (ret =? 0) && negb (size - this_len =? 0)
      then send_loop fuel s op t (drop (Z.to_nat this_len) buf) (size - this_len) else Some (ret, s)
  end.

(** [fio_net_send_cmd] with the tag it puts into the header. *)
Definition fio_net_send_cmd (s : K) (op : Z) (buf : list Z) (size t : Z) : option (Z * K) :=
  send_loop (S (Z.to_nat size)) s op t buf size.

Definition fio_net_send_simple_cmd (s : K) (op t : Z) : option (Z * K) :=
  send s (cmd_bytes (fio_net_cmd_crc_pdu (__fio_init_net_cmd op 0 t) [])).
End send.

(** [fio_send_cmd_ext_pdu]: header and payload as two vectors.  [iov[0]] is set
    up once, before the loop: [off] bytes of it are used up when a round
    begins. *)
Section ext.
Context {K : Type} (sendv : K -> list (list Z) -> option (Z * list (list Z) * K)).

Fixpoint ext_loop (fuel : nat) (s : K) (op t flags : Z) (off : nat) (buf : list Z) (size : Z) : option (Z * K) :=
  match fuel with
  | O => None
  | S fuel =>
      let this_len := if FIO_SERVER_MAX_FRAGMENT_PDU <? size then FIO_SERVER_MAX_FRAGMENT_PDU else size in
      let this_flags := if this_len <? size then Z.lor flags FIO_NET_CMD_F_MORE else flags in
      let c := with_cmd_flags (__fio_init_net_cmd op this_len t) this_flags in
      pdu ← mem_read buf 0 this_len;
      '(ret, iov, s) ← sendv s [drop off (cmd_bytes (fio_net_cmd_crc_pdu c buf)); pdu];
      base ← iov !! 0%nat;
      if (ret =? 0) && negb (size - this_len =? 0)
      then ext_loop fuel s op t flags (Z.to_nat CMD_SIZE - length base) (drop (Z.to_nat this_len) buf) (size - this_len)
      else Some (ret, s)
  end.

Definition fio_send_cmd_ext_pdu (s : K) (op : Z) (buf : list Z) (size t flags : Z) : option (Z * K) :=
  ext_loop (S (Z.to_nat size)) s op t flags 0 buf size.
End ext.

(** ** Receiving *)
Definition verify_convert_cmd (p : list Z) : Z :=
  let c := cmd_of p in
  if negb (fio_crc16 (take FIO_NET_CMD_CRC_SZ p) =? cmd_crc16 c) then 1
  else if negb (version c =? FIO_SERVER_VER) then 1
  else if FIO_SERVER_MAX_FRAGMENT_PDU <? pdu_len c then 1
  else 0.

(** A command being assembled: the first header, the payload so far, and the
    size of the allocation. *)
Record partial := Partial { p_cmd : fio_net_cmd; p_payload : list Z; p_size : Z }.

Section recv.
Context {K : Type} (recv : K -> Z -> option (Z * list Z * K)) (realloc_ok : Z -> bool).

Definition append_pdu (first : bool) (c : partial) (pdu : list Z) (len : Z) : partial :=
  let h := p_cmd c in
  let h := if first then h
           else Cmd (version h) (opcode h) (cmd_flags h) (tag h) (u32 (pdu_len h + len)) (cmd_crc16 h) (pdu_crc16 h) in
  Partial h (p_payload c ++ pdu) (p_size c).

(** One round of the loop: stop with a code, or go on. *)
Definition recv_round (s : K) (cur : option partial) : option ((Z * option partial * K) + (bool * partial * K)) :=
  '(ret, p, s) ← recv s CMD_SIZE;
  if negb (ret =? 0) then Some (inl (ret, cur, s)) else
  let ret := verify_convert_cmd p in
  if negb (ret =? 0) then Some (inl (ret, cur, s)) else
  let c := cmd_of p in
  let size := match cur with None => CMD_SIZE + pdu_len c + 1 | Some q => p_size q + pdu_len c end in
  if FIO_SERVER_MAX_CMD_MB * 1024 <? size / 1024 then Some (inl (1, cur, s))
  else if negb (realloc_ok size) then Some (inl (1, cur, s)) else
  let first := match cur with None => true | Some _ => false end in
  let q := match cur with None => Partial c [] size | Some q => Partial (p_cmd q) (p_payload q) size end in
  if negb first && negb (opcode (p_cmd q) =? opcode c) then Some (inl (1, Some q, s))
  else if pdu_len c =? 0 then Some (inl (0, Some q, s)) else
  '(ret, pdu, s) ← recv s (pdu_len c);
  if negb (ret =? 0) then Some (inl (ret, Some q, s))
  else if negb (fio_crc16 pdu =? pdu_crc16 c) then Some (inl (1, Some q, s))
  else Some (inr (isset (cmd_flags c) FIO_NET_CMD_F_MORE, append_pdu first q pdu (pdu_len c), s)).

Fixpoint recv_cmds (fuel : nat) (s : K) (cur : option partial) : option (Z * option partial * K) :=
  match fuel with
  | O => None
  | S fuel =>
      r ← recv_round s cur;
      match r with
      | inl stop => Some stop
      | inr (more, q, s) => if more : bool then recv_cmds fuel s (Some q) else Some (0, Some q, s)
      end
  end.

(** The byte after the text of a [TEXT] or [JOB] command is cleared: [buf_len]
    comes from the payload. *)
Definition text_room (op : Z) (payload : list Z) : option Z :=
  if op =? FIO_NET_CMD_TEXT then Some (24 + field_at payload 4 4)
  else if op =? FIO_NET_CMD_JOB then Some (8 + sgn 32 (field_at payload 0 4))
  else None.

Record message := Message { m_cmd : fio_net_cmd; m_payload : list Z }.

(** The last byte of the allocation is whatever [realloc] left there. *)
Definition finish_cmd (junk : Z) (q : partial) : option message :=
  let h := p_cmd q in
  let payload := p_payload q ++ [junk] in
  payload ← (if negb (pdu_len h =? 0) then
      match text_room (opcode h) payload with
      | Some i => mem_write payload i [0]
      | None => Some payload
      end else Some payload);
  Some (Message (Cmd (version h) (opcode h) (clear_flags (cmd_flags h) FIO_NET_CMD_F_MORE) (tag h) (pdu_len h)
    (cmd_crc16 h) (pdu_crc16 h)) payload).

(** [fio_net_recv_cmd]; [None] inside is the null pointer. *)
Definition fio_net_recv_cmd (fuel : nat) (junk : Z) (s : K) : option (option message * K) :=
  '(ret, q, s) ← recv_cmds fuel s None;
  if negb (ret =? 0) then Some (None, s)
  else match q with
       | None => Some (None, s)
       | Some q => m ← finish_cmd junk q; Some (Some m, s)
       end.
End recv.

(** ** What the two ends rely on *)

(** The sender's view: what is handed over goes out, in order. *)
Class Sends {K} (send : K -> list Z -> option (Z * K)) (sent : K -> list Z) : Prop :=
  sends_all : forall s b, b <> [] -> Z.of_nat (length b) <= CMD_SIZE + FIO_SERVER_MAX_FRAGMENT_PDU ->
    exists s', send s b = Some (0, s') /\ sent s' = sent s ++ b.

(** The receiver's view: [holds s b] says that [b] is what comes next. *)
Class Delivers {K} (recv : K -> Z -> option (Z * list Z * K)) (holds : K -> list Z -> Prop) : Prop :=
  delivers : forall s a b, a <> [] -> holds s (a ++ b) ->
    exists s', recv s (Z.of_nat (length a)) = Some (0, a, s') /\ holds s' b.

(** A socket that takes or delivers at least one byte per call. *)
Definition write_prompt (wenv : nat -> nat -> wres) : Prop :=
  forall k len, (0 < len)%nat -> exists n, wenv k len = Wrote n /\ (0 < n <= len)%nat.
Definition read_prompt (renv : nat -> Z -> nat -> rres) : Prop :=
  forall k len avail, 0 < len -> (0 < avail)%nat ->
    exists n, renv k len avail = Got n /\ (0 < n <= avail)%nat /\ Z.of_nat n <= len.

Lemma send_one_ok wenv ex : write_prompt wenv -> (forall k, ex k = false) -> forall fuel p s,
  p <> [] -> (length p <= fuel)%nat ->
  exists iov s', sendv_loop wenv ex fuel [p] 0 1 (Z.of_nat (length p)) s = Some (0, iov, s') /\ o_bytes s' = o_bytes s ++ p.
Proof.
  intros Hw Hx. induction fuel as [|fuel IH]; intros p s Hp Hf; [destruct p; simpl in *; done || lia|].
  cbn [sendv_loop]. change (iov_view [p] 0 1) with (Some (p ++ [])). rewrite app_nil_r. cbn [mbind option_bind].
  assert (Hlp : (0 < length p)%nat) by (destruct p; [done|simpl; lia]).
  destruct (Hw (o_calls s) (length p) Hlp) as (n&->&Hn).
  rewrite (proj2 (Nat.ltb_lt 0 n)), (proj2 (Nat.leb_le n _)) by lia. cbn [andb assert mbind option_bind].
  destruct (Z.eqb_spec (Z.of_nat (length p) - Z.of_nat n) 0) as [E|E].
  - eexists _, _. split; [reflexivity|]. cbn [o_bytes]. by rewrite take_ge by lia.
  - cbn [iov_advance length]. change ([p] !! 0%nat) with (Some p). cbn [mbind option_bind].
    rewrite (proj2 (Nat.eqb_neq n 0)), (proj2 (Nat.leb_gt (length p) n)) by lia.
    change (<[0%nat := drop n p]> [p]) with [drop n p]. cbn [mbind option_bind]. rewrite Hx.
    destruct (IH (drop n p) (Outgoing (S (o_calls s)) (o_bytes s ++ take n p))) as (iov&s'&E'&Hs').
    + intros Hd. apply (f_equal length) in Hd. rewrite length_drop in Hd. simpl in Hd. lia.
    + rewrite length_drop. lia.
    + rewrite length_drop in E'. replace (Z.of_nat (length p) - Z.of_nat n) with (Z.of_nat (length p - n)) by lia.
      rewrite E'. eexists _, _. split; [reflexivity|]. rewrite Hs'. cbn [o_bytes]. by rewrite <- app_assoc, take_drop.
Qed.

(** [fio_send_data] is such a sender, however little each [writev] takes. *)
Lemma socket_sends wenv ex fuel : write_prompt wenv -> (forall k, ex k = false) -> (1048 <= fuel)%nat ->
  Sends (fio_send_data wenv ex fuel) o_bytes.
Proof.
  intros Hw Hx Hf s b Hb Hl. unfold CMD_SIZE, FIO_SERVER_MAX_FRAGMENT_PDU in Hl.
  unfold fio_send_data. rewrite (proj2 (Z.leb_le _ _)) by (unfold CMD_SIZE, FIO_SERVER_MAX_FRAGMENT_PDU; lia).
  cbn [assert mbind option_bind]. unfold fio_sendv_data. cbn [take concat]. rewrite app_nil_r.
  destruct (send_one_ok wenv ex Hw Hx fuel b s Hb ltac:(lia)) as (iov&s'&->&Hs'). by exists s'.
Qed.

Lemma recv_loop_ok renv ex wait : read_prompt renv -> (forall k, ex k = false) -> forall fuel a b buf s,
  a <> [] -> (length a <= fuel)%nat -> i_bytes s = a ++ b ->
  exists s', recv_loop renv ex fuel wait s (Z.of_nat (length a)) buf = Some (0, buf ++ a, s') /\ i_bytes s' = b.
Proof.
  intros Hr Hx. induction fuel as [|fuel IH]; intros a b buf s Ha Hf Hs; [destruct a; simpl in *; done || lia|].
  assert (Hla : (0 < length a)%nat) by (destruct a; [done|simpl; lia]).
  cbn [recv_loop]. rewrite Hs.
  destruct (Hr (i_calls s) (Z.of_nat (length a)) (length (a ++ b))) as (n&->&Hn&Hna); [lia|rewrite length_app; lia|].
  rewrite (proj2 (Nat.ltb_lt 0 n)), (proj2 (Z.leb_le (Z.of_nat n) _)), (proj2 (Nat.leb_le n _)) by lia.
  cbn [andb assert mbind option_bind]. rewrite take_app_le, drop_app_le by lia.
  destruct (Z.eqb_spec (Z.of_nat (length a) - Z.of_nat n) 0) as [E|E].
  - eexists. split; [rewrite take_ge by lia; reflexivity|]. cbn [i_bytes]. by rewrite drop_ge by lia.
  - rewrite Hx. destruct (IH (drop n a) b (buf ++ take n a) (Incoming (S (i_calls s)) (drop n a ++ b))) as (s'&E'&Hs').
    + intros Hd. apply (f_equal length) in Hd. rewrite length_drop in Hd. simpl in Hd. lia.
    + rewrite length_drop. lia.
    + done.
    + rewrite length_drop in E'. replace (Z.of_nat (length a) - Z.of_nat n) with (Z.of_nat (length a - n)) by lia.
      rewrite E', <- app_assoc, take_drop. by eexists.
Qed.

(** [fio_recv_data] is such a receiver, however little each [recv] delivers. *)
Lemma socket_delivers renv ex wait fuel : read_prompt renv -> (forall k, ex k = false) ->
  Delivers (fio_recv_data renv ex fuel wait) (fun s b => i_bytes s = b /\ (length b <= fuel)%nat).
Proof.
  intros Hr Hx s a b Ha [Hs Hf]. rewrite length_app in Hf.
  destruct (recv_loop_ok renv ex wait Hr Hx fuel a b [] s Ha ltac:(lia) Hs) as (s'&E&Hs').
  exists s'. split; [exact E|]. split; [done|lia].
Qed.

(** ** The frames of a command *)
Definition frag_cmd (op t : Z) (more : bool) (pdu : list Z) : fio_net_cmd :=
  let c := __fio_init_net_cmd op (Z.of_nat (length pdu)) t in
  fio_net_cmd_crc_pdu (if more then with_cmd_flags c FIO_NET_CMD_F_MORE else c) pdu.
Definition frag_bytes (op t : Z) (more : bool) (pdu : list Z) : list Z := cmd_bytes (frag_cmd op t more pdu) ++ pdu.

(** What a command looks like on the wire: full fragments, then the rest. *)
Fixpoint wire (fuel : nat) (op t : Z) (buf : list Z) : list Z :=
  match fuel with
  | O => []
  | S fuel =>
      if (1024 <? length buf)%nat then frag_bytes op t true (take 1024 buf) ++ wire fuel op t (drop 1024 buf)
      else frag_bytes op t false buf
  end.

Record cmd_ok (c : fio_net_cmd) : Prop := {
  ok_version : uint 16 (version c); ok_opcode : uint 16 (opcode c); ok_flags : uint 32 (cmd_flags c);
  ok_tag : uint 64 (tag c); ok_len : uint 32 (pdu_len c); ok_crc : uint 16 (cmd_crc16 c); ok_pdu_crc : uint 16 (pdu_crc16 c) }.

Lemma length_cmd_head c : length (cmd_head c) = 20%nat.
Proof. unfold cmd_head. by rewrite !length_app, !length_le_bytes. Qed.

Lemma length_cmd_bytes c : length (cmd_bytes c) = 24%nat.
Proof. unfold cmd_bytes. by rewrite !length_app, length_cmd_head, !length_le_bytes. Qed.

Lemma cmd_of_bytes c : cmd_ok c -> cmd_of (cmd_bytes c) = c.
Proof.
  intros [H1 H2 H3 H4 H5 H6 H7]. destruct c as [a b d e f g h]. simpl in *.
  apply (le_val_uint 2) in H1, H2, H6, H7; [|done..]. apply (le_val_uint 4) in H3, H5; [|done..].
  apply (le_val_uint 8) in H4; [|done]. unfold cmd_of. f_equal; assumption.
Qed.

Lemma cmd_head_take c : take FIO_NET_CMD_CRC_SZ (cmd_bytes c) = cmd_head c.
Proof. unfold cmd_bytes, FIO_NET_CMD_CRC_SZ. rewrite take_app_le, take_ge; [done|rewrite length_cmd_head; lia..]. Qed.

Lemma frag_cmd_ok op t more pdu : cmd_ok (frag_cmd op t more pdu).
Proof.
  unfold frag_cmd. destruct more; split;
    cbn [fio_net_cmd_crc_pdu with_cmd_flags __fio_init_net_cmd version opcode cmd_flags tag pdu_len cmd_crc16 pdu_crc16];
    auto using crc16_uint with cint; unfold uint, FIO_SERVER_VER; lia.
Qed.

Lemma frag_fields op t more pdu : (length pdu <= 1024)%nat ->
  let c := frag_cmd op t more pdu in
  version c = FIO_SERVER_VER /\ opcode c = u16 op /\ isset (cmd_flags c) FIO_NET_CMD_F_MORE = more /\
  clear_flags (cmd_flags c) FIO_NET_CMD_F_MORE = 0 /\ tag c = u64 t /\ pdu_len c = Z.of_nat (length pdu) /\
  cmd_crc16 c = fio_crc16 (cmd_head c) /\ pdu_crc16 c = fio_crc16 pdu.
Proof.
  intros Hl c. assert (Hu : u32 (Z.of_nat (length pdu)) = Z.of_nat (length pdu)) by (apply wrap_small; unfold uint; lia).
  unfold c, frag_cmd, fio_net_cmd_crc_pdu. rewrite cmd_head_take. generalize fio_crc16. intros crc.
  unfold cmd_head.
  destruct more; cbn [with_cmd_flags __fio_init_net_cmd version opcode cmd_flags tag pdu_len cmd_crc16 pdu_crc16];
    rewrite Hu, Nat2Z.id, take_ge by done; split_and!; reflexivity.
Qed.

Lemma frag_accepted op t more pdu : (length pdu <= 1024)%nat ->
  verify_convert_cmd (cmd_bytes (frag_cmd op t more pdu)) = 0.
Proof.
  intros Hl. pose proof (frag_fields op t more pdu Hl) as (Hv&_&_&_&_&Hn&Hc&_).
  unfold verify_convert_cmd. rewrite cmd_of_bytes by apply frag_cmd_ok.
  rewrite cmd_head_take, <- Hc, Hv, Hn, !Z.eqb_refl. cbn [negb].
  rewrite (proj2 (Z.ltb_ge _ _)); [done|]. unfold FIO_SERVER_MAX_FRAGMENT_PDU. lia.
Qed.

Lemma length_frag op t more pdu : length (frag_bytes op t more pdu) = (24 + length pdu)%nat.
Proof. unfold frag_bytes. by rewrite length_app, length_cmd_bytes. Qed.

(** ** The sending loop writes the frames *)
Lemma send_wire {K} (send : K -> list Z -> option (Z * K)) sent `{!Sends send sent} op t : forall fuel buf s,
  (length buf < fuel)%nat ->
  exists s', send_loop send fuel s op t buf (Z.of_nat (length buf)) = Some (0, s') /\
    sent s' = sent s ++ wire fuel op t buf.
Proof.
  induction fuel as [|fuel IH]; intros buf s Hf; [lia|]. cbn [send_loop wire].
  unfold FIO_SERVER_MAX_FRAGMENT_PDU.
  assert (Hgo : forall more pdu, (length pdu <= 1024)%nat -> exists s', send s (frag_bytes op t more pdu) = Some (0, s') /\
      sent s' = sent s ++ frag_bytes op t more pdu).
  { intros more pdu Hl. apply sends_all; [|rewrite length_frag; unfold CMD_SIZE, FIO_SERVER_MAX_FRAGMENT_PDU; lia].
    intros E. apply (f_equal length) in E. rewrite length_frag in E. simpl in E. lia. }
  destruct (Nat.ltb_spec 1024 (length buf)) as [Hlt|Hge].
  - rewrite (proj2 (Z.ltb_lt 1024 _)) by lia. rewrite mem_read_Some by lia. cbn [mbind option_bind].
    change (Z.to_nat 0) with 0%nat. rewrite drop_0, (proj2 (Z.ltb_lt 1024 _)) by lia.
    change (Z.to_nat 1024) with 1024%nat.
    assert (Hl : length (take 1024 buf) = 1024%nat) by (rewrite length_take; lia).
    destruct (Hgo true (take 1024 buf) ltac:(lia)) as (s1&E1&Hs1). unfold frag_bytes, frag_cmd in E1. rewrite Hl in E1.
    change (Z.of_nat 1024) with 1024 in E1. rewrite E1. cbn [mbind option_bind].
    rewrite (proj2 (Z.eqb_neq (Z.of_nat (length buf) - 1024) 0)) by lia. change ((0 =? 0) && negb false) with true. cbv iota.
    destruct (IH (drop 1024 buf) s1) as (s2&E2&Hs2); [rewrite length_drop; lia|].
    rewrite length_drop in E2. replace (Z.of_nat (length buf) - 1024) with (Z.of_nat (length buf - 1024)) by lia.
    exists s2. split; [exact E2|]. by rewrite Hs2, Hs1, app_assoc.
  - rewrite (proj2 (Z.ltb_ge 1024 _)) by lia. rewrite mem_read_Some by lia. cbn [mbind option_bind].
    change (Z.to_nat 0) with 0%nat. rewrite drop_0, Nat2Z.id, take_ge, Z.ltb_irrefl, Z.sub_diag by lia.
    destruct (Hgo false buf ltac:(lia)) as (s1&E1&Hs1). unfold frag_bytes, frag_cmd in E1. rewrite E1.
    cbn [mbind option_bind]. exists s1. split; [reflexivity|exact Hs1].
Qed.

(** ** The receiving loop puts them together *)

(** A command whose payload so far is [buf]. *)
Record assembled (op t : Z) (buf : list Z) (q : partial) : Prop := {
  as_version : version (p_cmd q) = FIO_SERVER_VER; as_opcode : opcode (p_cmd q) = u16 op;
  as_flags : clear_flags (cmd_flags (p_cmd q)) FIO_NET_CMD_F_MORE = 0; as_tag : tag (p_cmd q) = u64 t;
  as_len : pdu_len (p_cmd q) = Z.of_nat (length buf); as_payload : p_payload q = buf;
  as_size : p_size q = CMD_SIZE + Z.of_nat (length buf) + 1 }.

(** Nothing received yet, or a command assembled so far. *)
Definition so_far (op t : Z) (buf : list Z) (cur : option partial) : Prop :=
  match cur with None => buf = [] | Some q => assembled op t buf q end.

Definition max_payload : Z := FIO_SERVER_MAX_CMD_MB * 1024 * 1024 - CMD_SIZE - 1.

Section receiver.
Context {K : Type} (recv : K -> Z -> option (Z * list Z * K)) (holds : K -> list Z -> Prop) `{!Delivers recv holds}.
Context (realloc_ok : Z -> bool) (op t : Z).
Hypothesis room : forall size, size <= FIO_SERVER_MAX_CMD_MB * 1024 * 1024 -> realloc_ok size = true.

(** The allocation before a fragment of [n] bytes is read. *)
Definition grown (c : fio_net_cmd) (n : Z) (cur : option partial) : partial :=
  match cur with
  | None => Partial c [] (CMD_SIZE + n + 1)
  | Some q => Partial (p_cmd q) (p_payload q) (p_size q + n)
  end.

Lemma recv_header s cur buf hb rest (c := cmd_of hb) (n := pdu_len c) :
  length hb = 24%nat -> verify_convert_cmd hb = 0 -> opcode c = u16 op -> so_far op t buf cur -> 0 <= n ->
  Z.of_nat (length buf) + n <= max_payload -> holds s (hb ++ rest) ->
  exists s1, holds s1 rest /\
    recv_round recv realloc_ok s cur =
      (if n =? 0 then Some (inl (0, Some (grown c n cur), s1)) else
      '(ret, p, s2) ← recv s1 n;
      if negb (ret =? 0) then Some (inl (ret, Some (grown c n cur), s2))
      else if negb (fio_crc16 p =? pdu_crc16 c) then Some (inl (1, Some (grown c n cur), s2))
      else Some (inr (isset (cmd_flags c) FIO_NET_CMD_F_MORE,
        append_pdu (if cur then false else true) (grown c n cur) p n, s2))).
Proof.
  intros Hl Hv Hop Hso Hn Hmax Hh.
  destruct (delivers s hb rest) as (s1&E1&Hs1); [by intros ->|exact Hh|].
  exists s1. split; [exact Hs1|]. rewrite Hl in E1. change (Z.of_nat 24) with CMD_SIZE in E1.
  unfold recv_round. rewrite E1. cbn [mbind option_bind]. rewrite Hv.
  change (negb (0 =? 0)) with false. cbv iota. fold c n. rewrite Hop.
  unfold max_payload, CMD_SIZE, FIO_SERVER_MAX_CMD_MB in *.
  destruct cur as [q|]; cbn [so_far grown p_cmd p_payload p_size negb andb] in *.
  - destruct Hso as [_ Ho _ _ _ _ Hsz]. unfold CMD_SIZE in Hsz. rewrite Hsz, Ho, Z.eqb_refl.
    rewrite (proj2 (Z.ltb_ge _ _)) by (Z.to_euclidean_division_equations; lia). rewrite room by (unfold FIO_SERVER_MAX_CMD_MB; lia).
    reflexivity.
  - subst buf. rewrite (proj2 (Z.ltb_ge _ _)) by (Z.to_euclidean_division_equations; simpl in *; lia).
    rewrite room by (unfold FIO_SERVER_MAX_CMD_MB; simpl in *; lia). reflexivity.
Qed.

Lemma assembled_more buf cur more pdu : (length pdu <= 1024)%nat -> so_far op t buf cur ->
  Z.of_nat (length buf + length pdu) <= max_payload ->
  assembled op t (buf ++ pdu) (append_pdu (if cur then false else true)
    (grown (frag_cmd op t more pdu) (Z.of_nat (length pdu)) cur) pdu (Z.of_nat (length pdu))).
Proof.
  intros Hl Hso Hmax. pose proof (frag_fields op t more pdu Hl) as (Hv&Hop&_&Hf&Ht&Hn&_&_).
  unfold append_pdu. destruct cur as [q|]; cbn [so_far grown p_cmd p_payload p_size] in *.
  - destruct Hso as [H1 H2 H3 H4 H5 H6 H7]. split; cbn [p_cmd p_payload p_size version opcode cmd_flags tag pdu_len];
      rewrite ?H5, ?H6, ?H7, ?length_app; try done; [|lia].
    unfold max_payload, CMD_SIZE, FIO_SERVER_MAX_CMD_MB in Hmax. rewrite wrap_small by (unfold uint; lia). lia.
  - subst buf. split; cbn [p_cmd p_payload p_size app]; done.
Qed.

Lemma recv_fragment s cur buf more pdu rest :
  (0 < length pdu <= 1024)%nat -> so_far op t buf cur -> Z.of_nat (length buf + length pdu) <= max_payload ->
  holds s (frag_bytes op t more pdu ++ rest) ->
  exists q s', recv_round recv realloc_ok s cur = Some (inr (more, q, s')) /\
    assembled op t (buf ++ pdu) q /\ holds s' rest.
Proof.
  intros Hl Hso Hmax Hh. pose proof (frag_fields op t more pdu ltac:(lia)) as (_&Hop&Hm&_&_&Hn&_&Hc).
  unfold frag_bytes in Hh. rewrite <- app_assoc in Hh.
  destruct (recv_header s cur buf (cmd_bytes (frag_cmd op t more pdu)) (pdu ++ rest)) as (s1&Hs1&E);
    rewrite ?cmd_of_bytes, ?Hn, ?Hop by apply frag_cmd_ok;
    [by rewrite length_cmd_bytes|apply frag_accepted; lia|done|done|lia|lia|exact Hh|].
  rewrite cmd_of_bytes, Hn, Hm, Hc, (proj2 (Z.eqb_neq _ _)) in E by (apply frag_cmd_ok || lia).
  destruct (delivers s1 pdu rest) as (s2&E2&Hs2); [by destruct pdu; simpl in *; [lia|]|exact Hs1|].
  rewrite E2 in E. cbn [mbind option_bind] in E. rewrite (Z.eqb_refl (fio_crc16 pdu)) in E.
  change (negb (0 =? 0)) with false in E. cbn [negb] in E. cbv iota in E.
  eexists _, s2. split; [exact E|]. split; [|exact Hs2]. apply assembled_more; [lia|done..].
Qed.

Lemma recv_wire : forall fuel buf s cur rest done,
  (length buf < fuel)%nat -> (0 < length buf)%nat -> so_far op t done cur ->
  Z.of_nat (length done + length buf) <= max_payload -> holds s (wire fuel op t buf ++ rest) ->
  exists q s', recv_cmds recv realloc_ok fuel s cur = Some (0, Some q, s') /\
    assembled op t (done ++ buf) q /\ holds s' rest.
Proof.
  induction fuel as [|fuel IH]; intros buf s cur rest done Hf Hb Hso Hmax Hh; [lia|]. cbn [recv_cmds wire] in *.
  destruct (Nat.ltb_spec 1024 (length buf)) as [Hlt|Hge].
  - rewrite <- app_assoc in Hh.
    assert (Hl : length (take 1024 buf) = 1024%nat) by (rewrite length_take; lia).
    destruct (recv_fragment s cur done true (take 1024 buf) _ ltac:(lia) Hso ltac:(lia) Hh) as (q&s1&E&Hq&Hs1).
    rewrite E. cbn [mbind option_bind].
    destruct (IH (drop 1024 buf) s1 (Some q) rest (done ++ take 1024 buf)) as (q'&s2&E2&Hq'&Hs2);
      rewrite ?length_app, ?length_drop, ?Hl; try lia; try assumption.
    exists q', s2. split; [exact E2|]. split; [|exact Hs2]. by rewrite <- app_assoc, take_drop in Hq'.
  - destruct (recv_fragment s cur done false buf _ ltac:(lia) Hso ltac:(lia) Hh) as (q&s1&E&Hq&Hs1).
    rewrite E. cbn [mbind option_bind]. eauto.
Qed.
End receiver.

(** ** From one end to the other *)
Definition is_text (op : Z) : bool := (op =? FIO_NET_CMD_TEXT) || (op =? FIO_NET_CMD_JOB).

(** The length field of a text command counts the rest of the payload. *)
Definition text_fits (op : Z) (buf : list Z) (junk : Z) : Prop :=
  is_text op = true -> buf <> [] /\ text_room op (buf ++ [junk]) = Some (Z.of_nat (length buf)).

(** The message a receiver should see. *)
Definition is_message (op t : Z) (buf : list Z) (junk : Z) (m : message) : Prop :=
  opcode (m_cmd m) = op /\ tag (m_cmd m) = t /\ cmd_flags (m_cmd m) = 0 /\
  pdu_len (m_cmd m) = Z.of_nat (length buf) /\ m_payload m = buf ++ [if is_text op then 0 else junk].

Lemma finish_assembled op t buf q junk :
  uint 16 op -> uint 64 t -> assembled op t buf q -> text_fits op buf junk ->
  exists m, finish_cmd junk q = Some m /\ is_message op t buf junk m.
Proof.
  intros Hop Ht [H1 H2 H3 H4 H5 H6 H7] Htxt. unfold finish_cmd, is_message.
  rewrite H2, H3, H4, H5, H6, !wrap_small by done. destruct (is_text op) eqn:E.
  - destruct (Htxt E) as [Hne Hroom]. rewrite Hroom. destruct buf as [|x buf]; [done|].
    rewrite (proj2 (Z.eqb_neq _ _)) by (simpl; lia). cbn [negb].
    rewrite mem_write_eq by (rewrite length_app; simpl; lia). cbn [mbind option_bind].
    eexists. split; [reflexivity|]. split_and!; try reflexivity. cbn [m_payload].
    rewrite take_app_length, drop_ge by (rewrite length_app; simpl; lia). by rewrite app_nil_r.
  - unfold is_text in E. apply orb_false_iff in E as [Ea Eb]. unfold text_room. rewrite Ea, Eb.
    destruct (negb _); cbn [mbind option_bind]; (eexists; split; [reflexivity|]; split_and!; reflexivity).
Qed.

(** C17. Round trip over the wire: a command sent by [fio_net_send_cmd], however
    the stream cuts it up, is what [fio_net_recv_cmd] returns at the other end
    (opcode, tag, length and payload, the fragment flag cleared and a text
    command terminated), and the receiver stops exactly where the command ends.
    The payload can be empty, fit one fragment or take up to two gigabytes of
    them. *)
Theorem wire_roundtrip {K L} (send : K -> list Z -> option (Z * K)) sent
  (recv : L -> Z -> option (Z * list Z * L)) holds realloc_ok op t buf junk s :
  Sends send sent -> Delivers recv holds ->
  (forall size, size <= FIO_SERVER_MAX_CMD_MB * 1024 * 1024 -> realloc_ok size = true) ->
  uint 16 op -> uint 64 t -> Z.of_nat (length buf) <= max_payload -> text_fits op buf junk ->
  exists s' frames, fio_net_send_cmd send s op buf (Z.of_nat (length buf)) t = Some (0, s') /\
    sent s' = sent s ++ frames /\
    forall r rest, holds r (frames ++ rest) ->
    exists m r', fio_net_recv_cmd recv realloc_ok (S (length buf)) junk r = Some (Some m, r') /\
      is_message op t buf junk m /\ holds r' rest.
Proof.
  intros HS HD Hroom Hop Ht Hmax Htxt.
  destruct (send_wire send sent op t (S (length buf)) buf s) as (s'&E&Hs'); [lia|].
  exists s', (wire (S (length buf)) op t buf). unfold fio_net_send_cmd. rewrite Nat2Z.id.
  split; [exact E|]. split; [exact Hs'|]. intros r rest Hr. unfold fio_net_recv_cmd.
  assert (Hget : exists q r', recv_cmds recv realloc_ok (S (length buf)) r None = Some (0, Some q, r') /\
    assembled op t buf q /\ holds r' rest).
  { destruct (decide (length buf = 0)%nat) as [E0|E0].
    - destruct buf as [|]; [|done]. cbn [wire length Nat.ltb Nat.leb recv_cmds] in *.
      unfold frag_bytes in Hr. rewrite app_nil_r in Hr.
      pose proof (frag_fields op t false [] ltac:(simpl; lia)) as (Hv&Ho&_&Hf&Htg&Hn&_&_).
      destruct (recv_header recv holds realloc_ok op t Hroom r None [] (cmd_bytes (frag_cmd op t false [])) rest)
        as (r1&Hr1&E1); rewrite ?cmd_of_bytes, ?Hn, ?Ho by apply frag_cmd_ok;
        [by rewrite length_cmd_bytes|apply frag_accepted; simpl; lia|done|reflexivity|done|exact Hmax|exact Hr|].
      rewrite cmd_of_bytes, Hn in E1 by apply frag_cmd_ok.
      rewrite E1. cbn [length Z.of_nat Z.eqb mbind option_bind]. eexists _, r1. split; [reflexivity|].
      split; [|exact Hr1].
      split; cbn [grown p_cmd p_payload p_size]; try assumption; reflexivity.
    - apply (recv_wire recv holds realloc_ok op t Hroom (S (length buf)) buf r None rest []); try done; simpl; lia. }
  destruct Hget as (q&r'&->&Hq&Hr'). cbn [mbind option_bind]. change (negb (0 =? 0)) with false. cbv iota.
  destruct (finish_assembled op t buf q junk Hop Ht Hq Htxt) as (m&->&Hm). cbn [mbind option_bind].
  exists m, r'. split; [reflexivity|]. split; [exact Hm|exact Hr'].
Qed.

(** ** One byte changed on the way *)
Section damage.
Context {K : Type} (recv : K -> Z -> option (Z * list Z * K)) (holds : K -> list Z -> Prop) `{!Delivers recv holds}.
Context (realloc_ok : Z -> bool) (op t : Z).
Hypothesis room : forall size, size <= FIO_SERVER_MAX_CMD_MB * 1024 * 1024 -> realloc_ok size = true.

Lemma field_mid (a b c : list Z) (n : nat) : length a = n -> field_at (a ++ b ++ c) n (length b) = le_val b.
Proof.
  intros <-. unfold field_at. rewrite drop_app_length, take_app_length. done.
Qed.

(** A header whose own checksum covers other bytes is refused. *)
Lemma header_refused hd crc pc : length hd = 20%nat -> length crc = 2%nat -> fio_crc16 hd <> le_val crc ->
  verify_convert_cmd (hd ++ crc ++ pc) = 1.
Proof.
  intros Hl Hc Hne. unfold verify_convert_cmd, cmd_of. cbn [cmd_crc16].
  pose proof (field_mid hd crc pc 20 Hl) as Hf. rewrite Hc in Hf. rewrite Hf.
  unfold FIO_NET_CMD_CRC_SZ. rewrite take_app_le, take_ge by lia. by rewrite (proj2 (Z.eqb_neq _ _)).
Qed.

Lemma cmd_of_pdu_crc c pc : cmd_ok c -> length pc = 2%nat ->
  cmd_of (cmd_head c ++ le_bytes 2 (cmd_crc16 c) ++ pc) =
    Cmd (version c) (opcode c) (cmd_flags c) (tag c) (pdu_len c) (cmd_crc16 c) (le_val pc).
Proof.
  intros [H1 H2 H3 H4 H5 H6 _] Hl. destruct c as [a b d e f g h], pc as [|x [|y [|]]]; try done. simpl in * |-.
  apply (le_val_uint 2) in H1, H2, H6; [|done..]. apply (le_val_uint 4) in H3, H5; [|done..].
  apply (le_val_uint 8) in H4; [|done]. unfold cmd_of. f_equal; try assumption; reflexivity.
Qed.

Definition refused (r : option ((Z * option partial * K) + (bool * partial * K))) : Prop :=
  exists code q s, r = Some (inl (code, q, s)) /\ code <> 0.

Lemma refused_header s cur hb rest : length hb = 24%nat -> verify_convert_cmd hb = 1 -> holds s (hb ++ rest) ->
  refused (recv_round recv realloc_ok s cur).
Proof.
  intros Hl Hv Hh. destruct (delivers s hb rest) as (s1&E1&Hs1); [by intros ->|exact Hh|].
  rewrite Hl in E1. change (Z.of_nat 24) with CMD_SIZE in E1. unfold recv_round. rewrite E1.
  cbn [mbind option_bind]. rewrite Hv. exists 1, cur, s1. done.
Qed.

(** A payload that does not match the sum in an accepted header is refused. *)
Lemma refused_payload s cur buf hb pdu rest : length hb = 24%nat -> verify_convert_cmd hb = 0 ->
  opcode (cmd_of hb) = u16 op -> so_far op t buf cur -> pdu_len (cmd_of hb) = Z.of_nat (length pdu) -> pdu <> [] ->
  Z.of_nat (length buf + length pdu) <= max_payload -> fio_crc16 pdu <> pdu_crc16 (cmd_of hb) ->
  holds s (hb ++ pdu ++ rest) -> refused (recv_round recv realloc_ok s cur).
Proof.
  intros Hl Hv Hop Hso Hn Hne Hmax Hc Hh.
  destruct (recv_header recv holds realloc_ok op t room s cur buf hb (pdu ++ rest)) as (s1&Hs1&E);
    rewrite ?Hn; try done; try lia.
  rewrite E, Hn, (proj2 (Z.eqb_neq (Z.of_nat (length pdu)) 0)) by (destruct pdu; simpl; done || lia).
  destruct (delivers s1 pdu rest Hne Hs1) as (s2&E2&Hs2). rewrite E2. cbn [mbind option_bind].
  rewrite (proj2 (Z.eqb_neq (fio_crc16 pdu) _)) by exact Hc. change (negb (0 =? 0)) with false. cbv iota.
  cbn [negb]. eexists 1, _, s2. split; [reflexivity|lia].
Qed.

Lemma verify_convert_same p p' : take FIO_NET_CMD_CRC_SZ p = take FIO_NET_CMD_CRC_SZ p' ->
  cmd_crc16 (cmd_of p) = cmd_crc16 (cmd_of p') -> version (cmd_of p) = version (cmd_of p') ->
  pdu_len (cmd_of p) = pdu_len (cmd_of p') -> verify_convert_cmd p = verify_convert_cmd p'.
Proof. intros H1 H2 H3 H4. unfold verify_convert_cmd. by rewrite H1, H2, H3, H4. Qed.

Lemma length_2 n v l : one_byte (le_bytes n v) l -> length l = n.
Proof. intros H. by rewrite (one_byte_length _ _ H), length_le_bytes. Qed.

Lemma damaged_head s cur c hc rest : cmd_ok c -> cmd_crc16 c = fio_crc16 (cmd_head c) ->
  one_byte (cmd_head c ++ le_bytes 2 (cmd_crc16 c)) hc -> holds s ((hc ++ le_bytes 2 (pdu_crc16 c)) ++ rest) ->
  refused (recv_round recv realloc_ok s cur).
Proof.
  intros Hok Hcc Hob Hh. pose proof (length_cmd_head c) as Hhd. pose proof (one_byte_length _ _ Hob) as Hlen.
  apply (refused_header s cur _ _) in Hh; [exact Hh|by rewrite length_app, Hlen, length_app, Hhd, !length_le_bytes|].
  assert (Hcv : le_val (le_bytes 2 (cmd_crc16 c)) = cmd_crc16 c) by (apply (le_val_uint 2 16); [done|apply Hok]).
  apply one_byte_app in Hob as [(hd&->&Hob)|(crc&->&Hob)]; rewrite <- app_assoc.
  - pose proof (one_byte_length _ _ Hob) as Hlh. rewrite Hhd in Hlh.
    apply header_refused; [exact Hlh|apply length_le_bytes|].
    rewrite Hcv, Hcc. apply one_byte_crc in Hob as [H16 _]. intros E. exact (H16 (eq_sym E)).
  - apply header_refused; [exact Hhd|exact (length_2 _ _ _ Hob)|]. rewrite <- Hcc, <- Hcv. by apply one_byte_val.
Qed.

Lemma damaged_pdu_crc s cur buf c pc pdu rest : cmd_ok c -> verify_convert_cmd (cmd_bytes c) = 0 ->
  opcode c = u16 op -> so_far op t buf cur -> pdu_len c = Z.of_nat (length pdu) -> pdu <> [] ->
  Z.of_nat (length buf + length pdu) <= max_payload -> pdu_crc16 c = fio_crc16 pdu ->
  one_byte (le_bytes 2 (pdu_crc16 c)) pc -> holds s ((cmd_head c ++ le_bytes 2 (cmd_crc16 c) ++ pc) ++ pdu ++ rest) ->
  refused (recv_round recv realloc_ok s cur).
Proof.
  intros Hok Hacc Hop Hso Hn Hne Hmax Hc Hob Hh. pose proof (length_2 _ _ _ Hob) as Hlc.
  assert (Hpv : le_val (le_bytes 2 (pdu_crc16 c)) = pdu_crc16 c) by (apply (le_val_uint 2 16); [done|apply Hok]).
  pose proof (cmd_of_pdu_crc c pc Hok Hlc) as Hhb. pose proof (length_cmd_head c) as Hhd.
  apply (refused_payload s cur buf _ pdu rest) in Hh; [exact Hh| | |rewrite Hhb; exact Hop|exact Hso|rewrite Hhb; exact Hn|
    exact Hne|exact Hmax|].
  - by rewrite !length_app, Hhd, Hlc, !length_le_bytes.
  - rewrite (verify_convert_same _ (cmd_bytes c)); [exact Hacc|..]; rewrite ?Hhb, ?(cmd_of_bytes c Hok); reflexivity.
  - rewrite Hhb, <- Hc, <- Hpv. cbn [pdu_crc16]. by apply one_byte_val.
Qed.

Lemma damaged_fragment s cur buf more pdu bad rest :
  (0 < length pdu <= 1024)%nat -> so_far op t buf cur -> Z.of_nat (length buf + length pdu) <= max_payload ->
  one_byte (frag_bytes op t more pdu) bad -> holds s (bad ++ rest) -> refused (recv_round recv realloc_ok s cur).
Proof.
  intros Hl Hso Hmax Hob Hh. pose proof (frag_fields op t more pdu ltac:(lia)) as (_&Hop&_&_&_&Hn&Hcc&Hc).
  pose proof (frag_cmd_ok op t more pdu) as Hok. pose proof (frag_accepted op t more pdu ltac:(lia)) as Hacc.
  assert (Hne : pdu <> []) by (by destruct pdu; simpl in *; [lia|]).
  unfold frag_bytes in Hob. set (c := frag_cmd op t more pdu) in *. clearbody c.
  apply one_byte_app in Hob as [(hb&->&Hob)|(pd&->&Hob)]; rewrite <- app_assoc in Hh.
  - unfold cmd_bytes in Hob. rewrite app_assoc in Hob. apply one_byte_app in Hob as [(hc&->&Hob)|(pc&->&Hob)].
    + exact (damaged_head s cur c hc _ Hok Hcc Hob Hh).
    + rewrite <- (app_assoc (cmd_head c)) in Hh.
      exact (damaged_pdu_crc s cur buf c pc pdu rest Hok Hacc Hop Hso Hn Hne Hmax Hc Hob Hh).
  - pose proof (one_byte_length _ _ Hob) as Hlp.
    apply (refused_payload s cur buf (cmd_bytes c) pd rest); rewrite ?cmd_of_bytes, ?Hlp by exact Hok;
      [apply length_cmd_bytes|exact Hacc|exact Hop|exact Hso|exact Hn| |exact Hmax| |exact Hh].
    + intros ->. simpl in Hlp. lia.
    + rewrite Hc. apply one_byte_crc in Hob as [H16 _]. intros E. exact (H16 (eq_sym E)).
Qed.

Lemma damaged_wire : forall fuel buf s cur rest done bad,
  (length buf < fuel)%nat -> (0 < length buf)%nat -> so_far op t done cur ->
  Z.of_nat (length done + length buf) <= max_payload -> one_byte (wire fuel op t buf) bad -> holds s (bad ++ rest) ->
  exists code q s', recv_cmds recv realloc_ok fuel s cur = Some (code, q, s') /\ code <> 0.
Proof.
  induction fuel as [|fuel IH]; intros buf s cur rest done bad Hf Hb Hso Hmax Hob Hh; [lia|]. cbn [recv_cmds wire] in *.
  destruct (Nat.ltb_spec 1024 (length buf)) as [Hlt|Hge].
  - assert (Hl : length (take 1024 buf) = 1024%nat) by (rewrite length_take; lia).
    apply one_byte_app in Hob as [(fb&->&Hob)|(wb&->&Hob)]; rewrite <- app_assoc in Hh.
    + destruct (damaged_fragment s cur done true (take 1024 buf) fb _ ltac:(lia) Hso ltac:(lia) Hob Hh)
        as (code&q&s'&->&Hc). cbn [mbind option_bind]. eauto.
    + destruct (recv_fragment recv holds realloc_ok op t room s cur done true (take 1024 buf) _ ltac:(lia) Hso
        ltac:(lia) Hh) as (q&s1&E&Hq&Hs1). rewrite E. cbn [mbind option_bind].
      apply (IH (drop 1024 buf) s1 (Some q) rest (done ++ take 1024 buf) wb);
        rewrite ?length_app, ?length_drop, ?Hl; try lia; assumption.
  - destruct (damaged_fragment s cur done false buf bad _ ltac:(lia) Hso ltac:(lia) Hob Hh) as (code&q&s'&->&Hc).
    cbn [mbind option_bind]. eauto.
Qed.
End damage.

(** C18. A command with a payload of which one byte changes on the wire, in a
    header or in the payload of any fragment, is never handed to the receiver:
    [fio_net_recv_cmd] returns the null pointer. *)
Theorem wire_detects_one_byte {K L} (send : K -> list Z -> option (Z * K)) sent
  (recv : L -> Z -> option (Z * list Z * L)) holds realloc_ok op t buf junk s s' frames bad r rest :
  Sends send sent -> Delivers recv holds ->
  (forall size, size <= FIO_SERVER_MAX_CMD_MB * 1024 * 1024 -> realloc_ok size = true) ->
  buf <> [] -> Z.of_nat (length buf) <= max_payload ->
  fio_net_send_cmd send s op buf (Z.of_nat (length buf)) t = Some (0, s') -> sent s' = sent s ++ frames ->
  one_byte frames bad -> holds r (bad ++ rest) ->
  exists r', fio_net_recv_cmd recv realloc_ok (S (length buf)) junk r = Some (None, r').
Proof.
  intros HS HD Hroom Hne Hmax E Hs' Hob Hr.
  destruct (send_wire send sent op t (S (length buf)) buf s) as (s2&E2&Hs2); [lia|].
  unfold fio_net_send_cmd in E. rewrite Nat2Z.id, E2 in E. injection E as ->.
  rewrite Hs' in Hs2. apply app_inv_head in Hs2. subst frames.
  assert (Hl : (0 < length buf)%nat) by (destruct buf; simpl; done || lia).
  destruct (damaged_wire recv holds realloc_ok op t Hroom (S (length buf)) buf r None rest [] bad)
    as (code&q&r'&E'&Hc); try done; try (simpl; lia).
  unfold fio_net_recv_cmd. rewrite E'. cbn [mbind option_bind]. rewrite (proj2 (Z.eqb_neq _ _)) by done. by exists r'.
Qed.

(** ** What the code does not check *)

(** One [writev] that takes the whole array. *)
Lemma sendv_whole wenv ex fuel a b s :
  (0 < length a + length b)%nat -> wenv (o_calls s) (length a + length b)%nat = Wrote (length a + length b) ->
  fio_sendv_data wenv ex (S fuel) s [a; b] 2 = Some (0, [a; b], Outgoing (S (o_calls s)) (o_bytes s ++ a ++ b)).
Proof.
  intros Hl Hw. unfold fio_sendv_data. cbn [sendv_loop].
  change (iov_view [a; b] 0 2) with (Some (a ++ b ++ [])). cbn [take concat]. rewrite app_nil_r.
  cbn [mbind option_bind]. rewrite !length_app, Hw, (proj2 (Nat.ltb_lt 0 _)), Nat.leb_refl by lia.
  cbn [andb assert mbind option_bind]. rewrite Z.sub_diag, take_ge by (rewrite length_app; lia). reflexivity.
Qed.

(** [fio_sendv_data] keeps [count] when it steps over a vector: a [writev]
    that takes the header and a part of the payload of an extended command makes
    the next one read a vector past the end of the array. *)
Theorem sendv_out_of_bounds wenv ex fuel op buf t flags n :
  buf <> [] -> Z.of_nat (length buf) <= FIO_SERVER_MAX_FRAGMENT_PDU ->
  wenv O (24 + length buf)%nat = Wrote n -> (24 <= n < 24 + length buf)%nat -> ex O = false ->
  fio_send_cmd_ext_pdu (fun s iov => fio_sendv_data wenv ex fuel s iov 2) (Outgoing O []) op buf (Z.of_nat (length buf)) t flags
    = None.
Proof.
  intros Hne Hl Hw Hn Hx. unfold fio_send_cmd_ext_pdu. cbn [ext_loop].
  rewrite (proj2 (Z.ltb_ge _ _)) by exact Hl. rewrite mem_read_Some by lia. cbn [mbind option_bind].
  change (Z.to_nat 0) with 0%nat. rewrite !drop_0, Nat2Z.id, take_ge by lia.
  set (h := cmd_bytes _). assert (Hh : length h = 24%nat) by apply length_cmd_bytes. clearbody h.
  unfold fio_sendv_data. destruct fuel as [|fuel]; [reflexivity|]. cbn [sendv_loop].
  change (iov_view [h; buf] 0 2) with (Some (h ++ buf ++ [])). cbn [take concat].
  rewrite app_nil_r. cbn [mbind option_bind o_calls o_bytes]. rewrite !length_app, Hh, Hw.
  rewrite (proj2 (Nat.ltb_lt 0 n)), (proj2 (Nat.leb_le n _)) by lia. cbn [andb assert mbind option_bind].
  rewrite (proj2 (Z.eqb_neq (Z.of_nat (24 + length buf) - Z.of_nat n) 0)) by lia. cbn [iov_advance length]. change ([h; buf] !! 0%nat) with (Some h).
  cbn [mbind option_bind]. rewrite (proj2 (Nat.eqb_neq n 0)), Hh, (proj2 (Nat.leb_le 24 n)) by lia.
  destruct (Nat.eqb_spec (n - 24) 0); cbn [mbind option_bind]; [rewrite Hx; by destruct fuel|].
  change ([h; buf] !! 1%nat) with (Some buf). cbn [mbind option_bind].
  rewrite (proj2 (Nat.leb_gt (length buf) _)), Hx by lia. by destruct fuel.
Qed.

(** [fio_send_cmd_ext_pdu] points [iov[0]] at the header once and
    [fio_sendv_data] changes it: after a [writev] that takes only [n] bytes of
    the first header, the second fragment goes out without the first [n] bytes of
    its header, and the sender reports success. *)
Theorem ext_header_cut wenv ex fuel op buf t flags n (len := length buf) :
  (1024 < len <= 2048)%nat -> (0 < n < 24)%nat -> ex O = false ->
  wenv 0%nat 1048%nat = Wrote n -> wenv 1%nat (1048 - n)%nat = Wrote (1048 - n) ->
  wenv 2%nat (len - 1000 - n)%nat = Wrote (len - 1000 - n) ->
  exists h1 h2 s, length h1 = 24%nat /\ length h2 = 24%nat /\
    fio_send_cmd_ext_pdu (fun s iov => fio_sendv_data wenv ex (S (S fuel)) s iov 2) (Outgoing O []) op buf (Z.of_nat len) t flags
      = Some (0, s) /\
    o_bytes s = h1 ++ take 1024 buf ++ drop n h2 ++ drop 1024 buf.
Proof.
  intros Hl Hn Hx Hw0 Hw1 Hw2. unfold fio_send_cmd_ext_pdu. assert (Hlen : length buf = len) by reflexivity. clearbody len.
  assert (Hf : exists f, Z.to_nat (Z.of_nat len) = S f) by (exists (len - 1)%nat; lia).
  generalize dependent (Z.to_nat (Z.of_nat len)). intros f1 [f ->].
  assert (Hf : exists f1, S f = f1) by eauto. destruct Hf as [f1 Hf]. rewrite Hf.
  cbn [ext_loop]. unfold FIO_SERVER_MAX_FRAGMENT_PDU. rewrite !(proj2 (Z.ltb_lt 1024 (Z.of_nat len))) by lia.
  rewrite mem_read_Some by lia. cbn [mbind option_bind].
  change (Z.to_nat 0) with 0%nat. rewrite !drop_0. change (Z.to_nat 1024) with 1024%nat.
  set (h1 := cmd_bytes _). assert (Hh : length h1 = 24%nat) by apply length_cmd_bytes. clearbody h1.
  assert (Ha : length (take 1024 buf) = 1024%nat) by (rewrite length_take; lia). set (a := take 1024 buf) in *.
  assert (E1 : fio_sendv_data wenv ex (S (S fuel)) (Outgoing 0 []) [h1; a] 2 =
    Some (0, [drop n h1; a], Outgoing 2 (h1 ++ a))).
  { unfold fio_sendv_data. cbn [sendv_loop]. change (iov_view [h1; a] 0 2) with (Some (h1 ++ a ++ [])). cbn [take concat].
    rewrite app_nil_r. cbn [mbind option_bind o_calls o_bytes]. rewrite !length_app, Hh, Ha. cbn [Nat.add]. rewrite Hw0.
    rewrite (proj2 (Nat.ltb_lt 0 n)), (proj2 (Nat.leb_le n _)) by lia. cbn [andb assert mbind option_bind].
    rewrite (proj2 (Z.eqb_neq (Z.of_nat 1048 - Z.of_nat n) 0)) by lia. cbn [iov_advance length]. change ([h1; a] !! 0%nat) with (Some h1).
    cbn [mbind option_bind]. rewrite (proj2 (Nat.eqb_neq n 0)), Hh, (proj2 (Nat.leb_gt 24 n)) by lia.
    cbn [mbind option_bind]. rewrite Hx. change (<[0%nat := drop n h1]> [h1; a]) with [drop n h1; a].
    cbn [sendv_loop]. change (iov_view [drop n h1; a] 0 2) with (Some (drop n h1 ++ a ++ [])). rewrite app_nil_r.
    cbn [mbind option_bind o_calls o_bytes app]. rewrite !length_app, length_drop, Hh, Ha.
    replace (24 - n + 1024)%nat with (1048 - n)%nat by lia. rewrite Hw1, (proj2 (Nat.ltb_lt 0 _)), Nat.leb_refl by lia.
    cbn [andb assert mbind option_bind]. rewrite (proj2 (Z.eqb_eq _ _)) by lia.
    rewrite take_app_le by lia. rewrite (take_ge (drop n h1 ++ a)) by (rewrite length_app, length_drop; lia).
    by rewrite app_assoc, take_drop. }
  rewrite E1. cbn [mbind option_bind]. change ([drop n h1; a] !! 0%nat) with (Some (drop n h1)).
  cbn [mbind option_bind]. rewrite (proj2 (Z.eqb_neq (Z.of_nat len - 1024) 0)) by lia.
  change ((0 =? 0) && negb false) with true. cbv iota.
  subst f1. cbn [ext_loop].
  unfold FIO_SERVER_MAX_FRAGMENT_PDU. rewrite (proj2 (Z.ltb_ge 1024 _)), Z.ltb_irrefl by lia.
  rewrite mem_read_Some by (rewrite ?length_drop; lia). cbn [mbind option_bind]. change (Z.to_nat 0) with 0%nat.
  rewrite drop_0, length_drop, Hh. change (Z.to_nat CMD_SIZE) with 24%nat. replace (24 - (24 - n))%nat with n by lia.
  rewrite take_ge by (rewrite length_drop; lia).
  set (h2 := cmd_bytes _). assert (Hh2 : length h2 = 24%nat) by apply length_cmd_bytes. clearbody h2.
  assert (Hb : (length (drop n h2) + length (drop 1024 buf) = len - 1000 - n)%nat) by (rewrite !length_drop; lia).
  rewrite sendv_whole; cbn [o_calls o_bytes]; rewrite ?Hb; [|lia|exact Hw2].
  cbn [mbind option_bind]. change ([drop n h2; drop 1024 buf] !! 0%nat) with (Some (drop n h2)).
  cbn [mbind option_bind]. rewrite Z.sub_diag. change ((0 =? 0) && negb (0 =? 0)) with false. cbv iota.
  eexists h1, h2, _. split; [exact Hh|]. split; [exact Hh2|]. split; [reflexivity|]. cbn [o_bytes]. by rewrite <- app_assoc.
Qed.

(** [fio_net_recv_cmd] trusts the length inside a text command: a command
    that passes every check but whose [buf_len] runs past its payload makes the
    terminating zero a write outside the allocation. *)
Theorem text_overruns {L} (recv : L -> Z -> option (Z * list Z * L)) holds realloc_ok t buf junk r rest :
  Delivers recv holds ->
  (forall size, size <= FIO_SERVER_MAX_CMD_MB * 1024 * 1024 -> realloc_ok size = true) ->
  buf <> [] -> Z.of_nat (length buf) <= max_payload ->
  Z.of_nat (length buf) < 24 + field_at (buf ++ [junk]) 4 4 ->
  holds r (wire (S (length buf)) FIO_NET_CMD_TEXT t buf ++ rest) ->
  fio_net_recv_cmd recv realloc_ok (S (length buf)) junk r = None.
Proof.
  intros HD Hroom Hne Hmax Hbig Hr. assert (Hl : (0 < length buf)%nat) by (destruct buf; simpl; done || lia).
  destruct (recv_wire recv holds realloc_ok FIO_NET_CMD_TEXT t Hroom (S (length buf)) buf r None rest [])
    as (q&r'&E&[H1 H2 H3 H4 H5 H6 H7]&_); try done; try (simpl; lia).
  unfold fio_net_recv_cmd. rewrite E. cbn [mbind option_bind]. change (negb (0 =? 0)) with false. cbv iota.
  unfold finish_cmd. rewrite H2, H5, H6. cbn [app]. rewrite (proj2 (Z.eqb_neq _ _)) by lia. cbn [negb].
  change (text_room (u16 FIO_NET_CMD_TEXT) (buf ++ [junk])) with (Some (24 + field_at (buf ++ [junk]) 4 4)).
  unfold mem_write. rewrite (proj2 (Z.leb_gt (_ + _) _)), andb_false_r by (rewrite length_app; simpl; lia). reflexivity.
Qed.

(** ** Witnesses *)

(** A socket that moves one byte per call. *)
Definition slow_write : nat -> nat -> wres := fun _ _ => Wrote 1.
Definition slow_read : nat -> Z -> nat -> rres := fun _ _ _ => Got 1.
Definition live : nat -> bool := fun _ => false.
Definition slow_send := fio_send_data slow_write live 1048.
Definition slow_recv := fio_recv_data slow_read live 4000 true.
Definition slow_holds (s : incoming) (b : list Z) : Prop := i_bytes s = b /\ (length b <= 4000)%nat.

Lemma slow_sends : Sends slow_send o_bytes.
Proof. apply socket_sends; [|done|lia]. intros k len Hl. exists 1%nat. split; [done|lia]. Qed.

Lemma slow_delivers : Delivers slow_recv slow_holds.
Proof. apply socket_delivers; [|done]. intros k len avail Hl Ha. exists 1%nat. split; [done|lia]. Qed.

(** A command of two fragments. *)
Definition sample_buf : list Z := repeat 0x5a 1030.
Definition sample_send := fio_net_send_cmd slow_send (Outgoing 0 []) 14 sample_buf (Z.of_nat (length sample_buf)) 99.
Lemma sample_short : match sample_send with Some (_, s) => (length (o_bytes s) <=? 4000)%nat | None => false end = true.
Proof. vm_compute. reflexivity. Qed.

Lemma wire_roundtrip_witness : exists s' m r', sample_send = Some (0, s') /\
  fio_net_recv_cmd slow_recv (fun _ => true) (S (length sample_buf)) 7 (Incoming 0 (o_bytes s')) = Some (Some m, r') /\
  is_message 14 99 sample_buf 7 m /\ i_bytes r' = [].
Proof.
  destruct (wire_roundtrip slow_send o_bytes slow_recv slow_holds (fun _ => true) 14 99 sample_buf 7 (Outgoing 0 [])
    slow_sends slow_delivers (fun _ _ => eq_refl) ltac:(unfold uint; lia) ltac:(unfold uint; lia)
    ltac:(vm_compute; discriminate) (fun H : false = true => ltac:(discriminate H))) as (s'&fr&E&Hs&Hrecv).
  cbn [app o_bytes] in Hs. subst fr. pose proof sample_short as Hlen. unfold sample_send in *.
  rewrite E in Hlen. apply Nat.leb_le in Hlen.
  destruct (Hrecv (Incoming 0 (o_bytes s')) []) as (m&r'&Er&Hm&Hh&_);
    [rewrite app_nil_r; exact (conj eq_refl Hlen)|].
  exists s', m, r'. split; [exact E|]. split; [exact Er|]. split; [exact Hm|exact Hh].
Defined.

(** The same command with a byte of its second header changed. *)
Definition sent_bytes : list Z := match sample_send with Some (_, s) => o_bytes s | None => [] end.
Definition damaged : list Z := <[1050%nat := 0x41]> sent_bytes.
Lemma sent_bytes_ok : forallb (fun x => (0 <=? x) && (x <? 2 ^ 8)) sent_bytes &&
  (if sent_bytes !! 1050%nat is Some x then x =? 14 else false) && (length damaged <=? 4000)%nat &&
  (if sample_send is Some (r, _) then r =? 0 else false) = true.
Proof. vm_compute. reflexivity. Qed.

Lemma damaged_ok : one_byte sent_bytes damaged /\ (length damaged <= 4000)%nat.
Proof.
  pose proof sent_bytes_ok as H. apply andb_true_iff in H as [H _]. apply andb_true_iff in H as [H Hl].
  apply andb_true_iff in H as [Hb H14]. apply Nat.leb_le in Hl. split; [|exact Hl].
  unfold damaged. clear Hl. generalize dependent sent_bytes. intros l Hb H14.
  destruct (l !! 1050%nat) as [x|] eqn:E; [|discriminate H14].
  apply Z.eqb_eq in H14. subst x. apply (one_byte_insert _ _ 14); [apply table_uint; exact Hb|exact E|lia|unfold uint; lia].
Qed.

Lemma sample_sent : exists s',
  fio_net_send_cmd slow_send (Outgoing 0 []) 14 sample_buf (Z.of_nat (length sample_buf)) 99 = Some (0, s') /\
  o_bytes s' = sent_bytes.
Proof.
  pose proof sent_bytes_ok as H. apply andb_true_iff in H as [_ H]. unfold sent_bytes, sample_send in *.
  revert H. generalize (fio_net_send_cmd slow_send (Outgoing 0 []) 14 sample_buf (Z.of_nat (length sample_buf)) 99).
  intros [[r s']|] H; [|discriminate H].
  apply Z.eqb_eq in H. subst r. exists s'. split; reflexivity.
Qed.

Lemma wire_detects_one_byte_witness : exists r',
  fio_net_recv_cmd slow_recv (fun _ => true) (S (length sample_buf)) 7 (Incoming 0 damaged) = Some (None, r').
Proof.
  destruct sample_sent as (s'&E&Hs). destruct damaged_ok as [Hob Hl]. rewrite <- Hs in Hob.
  apply (wire_detects_one_byte slow_send o_bytes slow_recv slow_holds (fun _ => true) 14 99 sample_buf 7 (Outgoing 0 []) s'
    (o_bytes s') damaged (Incoming 0 damaged) [] slow_sends slow_delivers (fun _ _ => eq_refl) ltac:(discriminate)
    ltac:(vm_compute; discriminate) E eq_refl Hob).
  rewrite app_nil_r. exact (conj eq_refl Hl).
Defined.

Lemma sendv_out_of_bounds_witness : exists wenv,
  fio_send_cmd_ext_pdu (fun s iov => fio_sendv_data wenv live 9 s iov 2) (Outgoing O []) 14 [1; 2; 3] 3 0 0 = None.
Proof.
  exists (fun _ _ => Wrote 25).
  apply (sendv_out_of_bounds (fun _ _ => Wrote 25) live 9 14 [1; 2; 3] 0 0 25);
    [discriminate|vm_compute; discriminate|reflexivity|simpl; lia|reflexivity].
Defined.

Lemma ext_header_cut_witness : exists h1 h2 s, length h1 = 24%nat /\ length h2 = 24%nat /\
  fio_send_cmd_ext_pdu (fun s iov => fio_sendv_data (fun k n => Wrote (if k is O then 10 else n)) live 2 s iov 2)
    (Outgoing O []) 14 sample_buf 1030 0 0 = Some (0, s) /\
  o_bytes s = h1 ++ take 1024 sample_buf ++ drop 10 h2 ++ drop 1024 sample_buf.
Proof.
  apply (ext_header_cut (fun k n => Wrote (if k is O then 10 else n)) live 0 14 sample_buf 0 0 10);
    [simpl; lia|lia|reflexivity..].
Defined.

(** A text command of 30 bytes that claims 1000 bytes of text. *)
Definition long_text : list Z := repeat 0 4 ++ [0xe8; 3; 0; 0] ++ repeat 0 22.
Lemma text_overruns_witness :
  fio_net_recv_cmd slow_recv (fun _ => true) 31 7 (Incoming 0 (wire 31 FIO_NET_CMD_TEXT 0 long_text)) = None.
Proof.
  apply (text_overruns slow_recv slow_holds (fun _ => true) 0 long_text 7
    (Incoming 0 (wire 31 FIO_NET_CMD_TEXT 0 long_text)) [] slow_delivers (fun _ _ => eq_refl));
    [discriminate|vm_compute; discriminate|vm_compute; reflexivity|].
  rewrite app_nil_r. split; [reflexivity|]. apply Nat.leb_le. vm_compute. reflexivity.
Defined.
