(* ===== verification/EditDist.v ===== *)
(** * Distance between option names: [string_distance] of [parse.c]

    The two-row table the program uses to guess a misspelt option, and that it
    computes the least number of single-character edits. *)
From S2P Require Import Prelude.

(** ** The code *)

(** The inner loop over [j]: [sub] is [p[j - 1]] and [q] the entry just written. *)
Fixpoint dist_row (c : Z) (s2 p : list Z) (sub q : Z) : list Z :=
  match s2, p with
  | d :: s2, pj :: p =>
      let sub := if negb (c =? d) then u32 (sub + 1) else sub in
      let pmin := Z.min (u32 (q + 1)) sub in
      let qj := Z.min (u32 (pj + 1)) pmin in
      qj :: dist_row c s2 p pj qj
  | _, _ => []
  end.

Definition next_row (c : Z) (s2 p : list Z) : list Z :=
  match p with
  | [] => []
  | p0 :: p => let q0 := u32 (p0 + 1) in q0 :: dist_row c s2 p p0 q0
  end.

Definition first_row (s2 : list Z) : list Z := u32 <$> seqZ 0 (Z.of_nat (length s2) + 1).

Definition string_distance (s1 s2 : list Z) : option Z :=
  let p := fold_left (fun p c => next_row c s2 p) s1 (first_row s2) in
  i ← arr_get p (Z.of_nat (length s2));
  Some (sgn 32 i).

Definition string_distance_ok (opt : list Z) (distance : Z) : bool :=
  u64 distance <=? (Z.of_nat (length opt) + 1) / 2.

(** ** Edits

    One edit replaces at most one character by at most one. *)
Definition edit (s t : list Z) : Prop :=
  exists x a b y, s = x ++ a ++ y /\ t = x ++ b ++ y /\ (length a <= 1)%nat /\ (length b <= 1)%nat.

Inductive edits : Z -> list Z -> list Z -> Prop :=
| edits_none s : edits 0 s s
| edits_more n s t u : edits n s t -> edit t u -> edits (n + 1) s u.

(** An alignment: what happens to each character, from left to right. *)
Inductive script : list Z -> list Z -> Z -> Prop :=
| script_nil : script [] [] 0
| script_keep c s t n : script s t n -> script (c :: s) (c :: t) n
| script_sub c d s t n : script s t n -> script (c :: s) (d :: t) (n + 1)
| script_del c s t n : script s t n -> script (c :: s) t (n + 1)
| script_ins d s t n : script s t n -> script s (d :: t) (n + 1).

#[local] Hint Constructors script : core.

Lemma script_nonneg s t n : script s t n -> 0 <= n.
Proof. induction 1; lia. Qed.

Lemma script_refl s : script s s 0.
Proof. induction s; auto. Qed.

Lemma script_app s t n s' t' n' : script s t n -> script s' t' n' -> script (s ++ s') (t ++ t') (n + n').
Proof.
  induction 1 as [|c s t n _ IH|c d s t n _ IH|c s t n _ IH|d s t n _ IH]; intros H'; [done| |..]; cbn [app].
  - auto.
  - replace (n + 1 + n') with (n + n' + 1) by lia. auto.
  - replace (n + 1 + n') with (n + n' + 1) by lia. auto.
  - replace (n + 1 + n') with (n + n' + 1) by lia. auto.
Qed.

Lemma script_rev s t n : script s t n -> script (rev s) (rev t) n.
Proof.
  induction 1 as [|c s t n _ IH|c d s t n _ IH|c s t n _ IH|d s t n _ IH]; cbn [rev]; [done| |..].
  - replace n with (n + 0) by lia. apply script_app; auto.
  - apply (script_app _ _ _ [c] [d] 1 IH). apply (script_sub c d [] [] 0). auto.
  - rewrite <- (app_nil_r (rev t)). apply (script_app _ _ _ [c] [] 1 IH). apply (script_del c [] [] 0). auto.
  - rewrite <- (app_nil_r (rev s)). apply (script_app _ _ _ [] [d] 1 IH). apply (script_ins d [] [] 0). auto.
Qed.

(** An alignment of two words splits at their last characters. *)
Lemma script_last s a t b n : script (s ++ [a]) (t ++ [b]) n ->
  (a = b /\ script s t n) \/ script s t (n - 1) \/ script s (t ++ [b]) (n - 1) \/ script (s ++ [a]) t (n - 1).
Proof.
  intros H. apply script_rev in H. rewrite !rev_app_distr in H. cbn [rev app] in H.
  inversion H as [|c s' t' n' H' E1 E2|c d s' t' n' H' E1 E2|c s' t' n' H' E1 E2|d s' t' n' H' E1 E2]; subst; apply script_rev in H';
    cbn [rev] in H'; rewrite ?rev_involutive in H'; rewrite ?Z.add_simpl_r; auto.
Qed.

(** ** The least number of edits *)
Definition least (s t : list Z) (n : Z) : Prop := script s t n /\ forall m, script s t m -> n <= m.

Lemma least_nil_l t : least [] t (Z.of_nat (length t)).
Proof.
  split.
  - induction t; [done|]. cbn [length]. rewrite Nat2Z.inj_succ, <- Z.add_1_r. auto.
  - intros m H. remember [] as s eqn:Es. induction H; simplify_eq/=; try lia. specialize (IHscript eq_refl). lia.
Qed.

Lemma least_nil_r s : least s [] (Z.of_nat (length s)).
Proof.
  split.
  - induction s; [done|]. cbn [length]. rewrite Nat2Z.inj_succ, <- Z.add_1_r. auto.
  - intros m H. remember [] as t eqn:Et. induction H; simplify_eq/=; try lia. specialize (IHscript eq_refl). lia.
Qed.

Lemma least_step s a t b x y z : least s t x -> least s (t ++ [b]) y -> least (s ++ [a]) t z ->
  least (s ++ [a]) (t ++ [b]) (Z.min (y + 1) (Z.min (z + 1) (if negb (a =? b) then x + 1 else x))).
Proof.
  intros [Hx Lx] [Hy Ly] [Hz Lz]. split.
  - assert (Hxs : script (s ++ [a]) (t ++ [b]) (if negb (a =? b) then x + 1 else x)).
    { destruct (Z.eqb_spec a b) as [->|]; cbn [negb].
      - replace x with (x + 0) by lia. apply script_app; [done|apply script_refl].
      - apply (script_app s t x [a] [b] 1 Hx). apply (script_sub a b [] [] 0). auto. }
    assert (Hys : script (s ++ [a]) (t ++ [b]) (y + 1)).
    { pose proof (script_app s (t ++ [b]) y [a] [] 1 Hy (script_del a [] [] 0 script_nil)) as H. by rewrite app_nil_r in H. }
    assert (Hzs : script (s ++ [a]) (t ++ [b]) (z + 1)).
    { pose proof (script_app (s ++ [a]) t z [] [b] 1 Hz (script_ins b [] [] 0 script_nil)) as H. by rewrite app_nil_r in H. }
    destruct (Z.min_spec (y + 1) (Z.min (z + 1) (if negb (a =? b) then x + 1 else x))) as [[_ ->]|[_ ->]]; [done|].
    destruct (Z.min_spec (z + 1) (if negb (a =? b) then x + 1 else x)) as [[_ ->]|[_ ->]]; done.
  - intros m [[-> H]|[H|[H|H]]]%script_last.
    + rewrite Z.eqb_refl. cbn [negb]. apply Lx in H. lia.
    + apply Lx in H. destruct (negb _); lia.
    + apply Ly in H. lia.
    + apply Lz in H. lia.
Qed.

Lemma least_bound s t n : least s t n -> 0 <= n <= Z.of_nat (length s + length t).
Proof.
  intros [H L]. split; [by eapply script_nonneg|]. apply L. rewrite Nat2Z.inj_add.
  pose proof (script_app _ _ _ _ _ _ (proj1 (least_nil_r s)) (proj1 (least_nil_l t))) as H'. by rewrite app_nil_r in H'.
Qed.

(** Alignments and sequences of edits reach the same words at the same cost. *)
Lemma edits_cons c n s t : edits n s t -> edits n (c :: s) (c :: t).
Proof.
  induction 1 as [s|n s t u _ IH (x & a & b & y & -> & -> & Ha & Hb)]; [constructor|]. econstructor; [exact IH|].
  by exists (c :: x), a, b, y.
Qed.

Lemma script_edits s t n : script s t n -> edits n s t.
Proof.
  induction 1 as [|c s t n _ IH|c d s t n _ IH|c s t n _ IH|d s t n _ IH]; [constructor|by apply edits_cons|..].
  - eapply edits_more; [by apply edits_cons|]. exists [], [c], [d], t. split_and!; (done || simpl; lia).
  - eapply edits_more; [by apply edits_cons|]. exists [], [c], [], t. split_and!; (done || simpl; lia).
  - eapply edits_more; [exact IH|]. exists [], [], [d], t. split_and!; (done || simpl; lia).
Qed.

(** One more edit costs an alignment at most one more. *)
Lemma script_head s a y n b : script s (a ++ y) n -> (length a <= 1)%nat -> (length b <= 1)%nat ->
  exists m, script s (b ++ y) m /\ m <= n + 1.
Proof.
  intros H Ha Hb. destruct b as [|b [|]]; [| |simpl in Hb; lia]; cbn [app].
  - destruct a as [|a [|]]; [exists n; split; [done|lia]| |simpl in Ha; lia]. cbn [app] in H. clear Ha Hb.
    remember (a :: y) as t eqn:Et. induction H as [|c s t n H IH|c d s t n H IH|c s t n H IH|d s t n H IH]; simplify_eq.
    + exists (n + 1). split; [auto|lia].
    + exists (n + 1). split; [auto|lia].
    + destruct (IH eq_refl) as (m & Hm & Hle). exists (m + 1). split; [auto|lia].
    + exists n. split; [done|lia].
  - destruct a as [|a [|]]; [exists (n + 1); split; [auto|lia]| |simpl in Ha; lia]. cbn [app] in H. clear Ha Hb.
    remember (a :: y) as t eqn:Et. induction H as [|c s t n H IH|c d s t n H IH|c s t n H IH|d s t n H IH]; simplify_eq.
    + exists (n + 1). split; [auto|lia].
    + exists (n + 1). split; [auto|lia].
    + destruct (IH eq_refl) as (m & Hm & Hle). exists (m + 1). split; [auto|lia].
    + exists (n + 1). split; [auto|lia].
Qed.

Lemma script_edit s t u n : script s t n -> edit t u -> exists m, script s u m /\ m <= n + 1.
Proof.
  intros H (x & a & b & y & -> & -> & Ha & Hb). revert s n H. induction x as [|e x IH]; intros s n H; [exact (script_head s a y n b H Ha Hb)|].
  cbn [app] in *. remember (e :: x ++ a ++ y) as t eqn:Et.
  induction H as [|c s t n H IH'|c d s t n H IH'|c s t n H IH'|d s t n H IH']; simplify_eq.
  - destruct (IH _ _ H) as (m & Hm & Hle). exists m. auto.
  - destruct (IH _ _ H) as (m & Hm & Hle). exists (m + 1). split; [auto|lia].
  - destruct (IH' eq_refl) as (m & Hm & Hle). exists (m + 1). split; [auto|lia].
  - destruct (IH _ _ H) as (m & Hm & Hle). exists (m + 1). split; [auto|lia].
Qed.

Lemma edits_script n s t : edits n s t -> exists m, script s t m /\ m <= n.
Proof.
  induction 1 as [s|n s t u _ (m & Hm & Hle) He]; [exists 0; split; [apply script_refl|lia]|].
  destruct (script_edit _ _ _ _ Hm He) as (k & Hk & Hle'). exists k. split; [done|lia].
Qed.

(** ** The table *)
Definition row_ok (u s2 p : list Z) : Prop :=
  length p = S (length s2) /\ forall j, (j <= length s2)%nat -> exists x, p !! j = Some x /\ least u (take j s2) x.

Lemma dist_row_ok u c : forall s2 v p sub q, Z.of_nat (length u + length v + length s2) < 2 ^ 31 ->
  least u v sub -> least (u ++ [c]) v q -> length p = length s2 ->
  (forall j, (j < length s2)%nat -> exists x, p !! j = Some x /\ least u (v ++ take (S j) s2) x) ->
  let r := dist_row c s2 p sub q in
  length r = length s2 /\ forall j, (j < length s2)%nat -> exists x, r !! j = Some x /\ least (u ++ [c]) (v ++ take (S j) s2) x.
Proof.
  induction s2 as [|d s2 IH]; intros v p sub q Hlen Hs Hq Hp Hrow; [destruct p; [split; [done|cbn; lia]|done]|].
  destruct p as [|pj p]; [done|]. cbn [dist_row]. cbn [length] in *.
  destruct (Hrow 0%nat ltac:(lia)) as (x & [= <-] & Hpj). change (take 1 (d :: s2)) with [d] in Hpj.
  pose proof (least_bound _ _ _ Hs) as Bs. pose proof (least_bound _ _ _ Hq) as Bq. pose proof (least_bound _ _ _ Hpj) as Bp.
  rewrite !length_app in Bq, Bp. cbn [length] in Bq, Bp.
  rewrite !(wrap_small 32) by (unfold uint; lia).
  set (qj := Z.min (pj + 1) _). assert (Hqj : least (u ++ [c]) (v ++ [d]) qj) by (by apply least_step).
  destruct (IH (v ++ [d]) p pj qj) as [Hl Hr]; [rewrite length_app; cbn [length]; lia|done|done|lia| |].
  - intros j Hj. destruct (Hrow (S j) ltac:(lia)) as (x & Hx & Hx'). exists x. split; [done|]. rewrite <- app_assoc. exact Hx'.
  - split; [lia|]. intros [|j] Hj; [by exists qj|]. destruct (Hr j ltac:(lia)) as (x & Hx & Hx'). exists x. split; [done|].
    rewrite <- app_assoc in Hx'. exact Hx'.
Qed.

Lemma next_row_ok u c s2 p : Z.of_nat (length u + length s2) < 2 ^ 31 -> row_ok u s2 p -> row_ok (u ++ [c]) s2 (next_row c s2 p).
Proof.
  intros Hlen [Hl Hp]. destruct p as [|p0 p]; [done|]. cbn [next_row length] in *.
  destruct (Hp 0%nat ltac:(lia)) as (x & [= <-] & H0). change (take 0 s2) with (@nil Z) in H0. pose proof (least_bound _ _ _ H0) as B0. cbn [length] in B0.
  assert (Hq : least (u ++ [c]) [] (u32 (p0 + 1))).
  { rewrite wrap_small by (unfold uint; lia). destruct H0 as [H0 L0], (least_nil_r u) as [Hu Lu].
    assert (p0 = Z.of_nat (length u)) as -> by (apply Z.le_antisymm; auto).
    replace (Z.of_nat (length u) + 1) with (Z.of_nat (length (u ++ [c]))) by (rewrite length_app; cbn; lia). apply least_nil_r. }
  destruct (dist_row_ok u c s2 [] p p0 (u32 (p0 + 1))) as [Hl' Hr]; [cbn [length]; lia|done|done|lia| |].
  - intros j Hj. destruct (Hp (S j) ltac:(lia)) as (x & Hx & Hx'). by exists x.
  - split; [cbn [length]; lia|]. intros [|j] Hj; [by exists (u32 (p0 + 1))|]. destruct (Hr j ltac:(lia)) as (x & Hx & Hx'). by exists x.
Qed.

Lemma first_row_ok s2 : Z.of_nat (length s2) < 2 ^ 31 -> row_ok [] s2 (first_row s2).
Proof.
  intros Hlen. unfold first_row. split; [rewrite length_fmap, length_seqZ; lia|]. intros j Hj.
  exists (Z.of_nat j). split.
  - rewrite list_lookup_fmap, lookup_seqZ_lt by lia. cbn. by rewrite wrap_small by (unfold uint; lia).
  - replace (Z.of_nat j) with (Z.of_nat (length (take j s2))) by (rewrite length_take; lia). apply least_nil_l.
Qed.

Lemma table_ok s2 : forall s1 u p, Z.of_nat (length u + length s1 + length s2) < 2 ^ 31 -> row_ok u s2 p ->
  row_ok (u ++ s1) s2 (fold_left (fun p c => next_row c s2 p) s1 p).
Proof.
  induction s1 as [|c s1 IH]; intros u p Hlen Hp; cbn [fold_left length] in *; [by rewrite app_nil_r|].
  replace (u ++ c :: s1) with ((u ++ [c]) ++ s1) by (by rewrite <- app_assoc).
  apply IH; [rewrite length_app; cbn [length]; lia|]. apply next_row_ok; [lia|done].
Qed.

(** C38. [string_distance] is the edit distance: the two-row table yields the
    least number of single-character insertions, deletions and replacements that
    turn the first word into the second. *)
Theorem string_distance_correct s1 s2 : Z.of_nat (length s1 + length s2) < 2 ^ 31 ->
  exists d, string_distance s1 s2 = Some d /\ edits d s1 s2 /\ forall n, edits n s1 s2 -> d <= n.
Proof.
  intros Hlen. destruct (table_ok s2 s1 [] (first_row s2)) as [_ Hp]; [cbn [length]; lia|apply first_row_ok; lia|].
  destruct (Hp (length s2) (le_n _)) as (d & Hd & Hl). rewrite firstn_all in Hl. pose proof (least_bound _ _ _ Hl) as B. destruct Hl as [H L].
  exists d. split; [|split; [by apply script_edits|]].
  - unfold string_distance, arr_get. rewrite (proj2 (Z.leb_le 0 _)), Nat2Z.id by lia. cbn [app] in Hd. rewrite Hd. cbn [mbind option_bind].
    cbn [app] in B. by rewrite sgn_small by lia.
  - intros n (m & Hm & Hle)%edits_script. specialize (L m Hm). lia.
Qed.

Lemma string_distance_correct_witness :
  string_distance [105; 111; 100; 101; 112; 116; 104] [105; 111; 95; 100; 101; 112; 116] = Some 2 /\
  edits 2 [105; 111; 100; 101; 112; 116; 104] [105; 111; 95; 100; 101; 112; 116].
Proof.
  destruct (string_distance_correct [105; 111; 100; 101; 112; 116; 104] [105; 111; 95; 100; 101; 112; 116] ltac:(done)) as (d & E & H & _).
  vm_compute in E. injection E as <-. split; [vm_compute; reflexivity|exact H].
Defined.
