(* ===== verification/ParseNum.v ===== *)
(** * Numbers with units: [str_to_decimal] of [parse.c]

    Sizes such as [4k], [10%] and [0x1000] and times such as [10ms].  Text is a
    list of character codes without the terminating zero, what a pointer into it
    sees a suffix of that list.  [errno] survives from call to call: a boolean
    says whether it is [ERANGE].  The evaluator of parenthesised expressions is
    generated code: a parameter that gives [errno] and, if it succeeds, a value. *)
From Stdlib Require Import String.
From S2P Require Import Prelude Pattern PatternParse.

(** ** Characters *)
Definition tolower (c : Z) : Z := if (65 <=? c) && (c <=? 90) then c + 32 else c.
Definition isalpha (c : Z) : bool := ((65 <=? c) && (c <=? 90)) || ((97 <=? c) && (c <=? 122)).
Definition at_ptr (p : list Z) : Z := hd 0 p.

(** [!strncmp(pre, s, n)] for a [pre] of [n] characters. *)
Definition starts (pre s : list Z) : bool := bool_decide (take (length pre) s = pre).

(** [strstr(s, "0x") || strstr(s, "0X")]. *)
Definition has_0x (s : list Z) : bool := bool_decide (is_Some (find_0x s)).

(** [strtoll(s, NULL, base)] for base 10 or 16: the clamped value, and whether it
    was out of range. *)
Definition dec_val (c : Z) : option Z := if is_digit c then Some (c - 48) else None.
Definition strtoll (base : Z) (s : list Z) : Z * bool :=
  let r := drop (run_len isspace s) s in
  let neg := at_ptr r =? 45 in
  let r := if neg || (at_ptr r =? 43) then drop 1 r else r in
  let digit := if base =? 16 then hex_val else dec_val in
  let r := match r with
           | z :: x :: h :: t => if (base =? 16) && (z =? 48) && is_x x && is_hex h then h :: t else r
           | _ => r
           end in
  let ds := take (run_len (fun c => bool_decide (is_Some (digit c))) r) r in
  let v := fold_left (fun a c => base * a + default 0 (digit c)) ds 0 in
  let v := if neg then - v else v in
  (Z.max LONG_MIN (Z.min LONG_MAX v), negb ((LONG_MIN <=? v) && (v <=? LONG_MAX))).

(** ** Units of time *)
Definition get_mult_time (str : list Z) (is_seconds : bool) : Z :=
  let p := drop (run_len (fun c => is_digit c || (c =? 43) || (c =? 45)) str) str in
  if negb (isalpha (at_ptr p)) then (if is_seconds then 1000000 else 1) else
  let c := tolower <$> p in
  if starts (codes "us") c || starts (codes "usec") c then 1
  else if starts (codes "ms") c || starts (codes "msec") c then 1000
  else if bool_decide (c = codes "s") then 1000000
  else if bool_decide (c = codes "m") then 60 * 1000000
  else if bool_decide (c = codes "h") then 60 * 60 * 1000000
  else if bool_decide (c = codes "d") then 24 * 60 * 60 * 1000000
  else 1.

(** ** Units of size *)
Definition is_separator (c : Z) : bool := (c =? 58) || (c =? 45) || (c =? 44) || (c =? 47).

Definition mult_pow (mult pow : Z) : Z := Nat.iter (Z.to_nat pow) (fun r => u64 (r * mult)) 1.

(** The multiplier, and whether it is a percentage. *)
Definition __get_mult_bytes (p : option (list Z)) (kb_base : Z) : Z * bool :=
  match p with
  | None => (1, false)
  | Some p =>
      let c := tolower <$> p in
      let c := take (run_len (fun c => negb (is_separator c)) c) c in
      let other := if kb_base =? 1000 then 1024 else if kb_base =? 1024 then 1000 else kb_base in
      if starts (codes "pib") c then (mult_pow other 5, false)
      else if starts (codes "tib") c then (mult_pow other 4, false)
      else if starts (codes "gib") c then (mult_pow other 3, false)
      else if starts (codes "mib") c then (mult_pow other 2, false)
      else if starts (codes "kib") c then (mult_pow other 1, false)
      else if starts (codes "p") c || starts (codes "pb") c then (mult_pow kb_base 5, false)
      else if starts (codes "t") c || starts (codes "tb") c then (mult_pow kb_base 4, false)
      else if starts (codes "g") c || starts (codes "gb") c then (mult_pow kb_base 3, false)
      else if starts (codes "m") c || starts (codes "mb") c then (mult_pow kb_base 2, false)
      else if starts (codes "k") c || starts (codes "kb") c then (mult_pow kb_base 1, false)
      else if starts (codes "%") c then (1, true)
      else (mult_pow kb_base 0, false)
  end.

(** The loop of [get_mult_bytes]: forward to the first character that is not part
    of the number. *)
Fixpoint skip_number (p : list Z) (digit_seen : bool) : list Z :=
  match p with
  | c :: r =>
      if negb (is_digit c) && ((negb (c =? 43) && negb (c =? 45)) || digit_seen) then p
      else skip_number r (digit_seen || is_digit c)
  | [] => []
  end.

Definition get_mult_bytes (str : list Z) (kb_base : Z) : Z * bool :=
  if (length str <? 2)%nat then __get_mult_bytes (Some str) kb_base else
  let p := skip_number str false in
  __get_mult_bytes (if negb (isalpha (at_ptr p)) && negb (at_ptr p =? 37) then None else Some p) kb_base.

(** [fio_get_kb_base] of [options.c]. *)
Definition fio_get_kb_base (kb_base : Z) : Z := if kb_base =? 0 then 1024 else kb_base.

Section decimal.
Context (arith : bool -> list Z -> bool -> bool -> bool * option Z).

(** [errno] afterwards, and [*val] unless the function returns 1. *)
Definition str_to_decimal (e : bool) (str : list Z) (kilo : bool) (kb_base : Z) (is_seconds is_time : bool) : bool * option Z :=
  match str with
  | [] => (e, None)
  | c :: _ =>
      let '(e, rc) := if c =? 40 then arith e str is_seconds is_time else (e, None) in
      let '(e, val) :=
        match rc with
        | Some ival => (e, Some (if negb kilo && is_seconds then Z.quot ival 1000000 else ival))
        | None =>
            let '(v, range) := strtoll (if has_0x str then 16 else 10) str in
            let e := e || range in
            (e, if (v =? LONG_MAX) && e then None else Some v)
        end in
      (e, v ← val;
          Some (if kilo then
                  let '(mult, perc) := get_mult_bytes str kb_base in
                  if perc then sgn 64 (-1 - v) else sgn 64 (v * mult)
                else sgn 64 (v * get_mult_time str is_seconds)))
  end.

Definition check_str_bytes (e : bool) (p : list Z) (kb_base : Z) : bool * option Z :=
  str_to_decimal e p true kb_base false false.
Definition check_str_time (e : bool) (p : list Z) (is_seconds : bool) : bool * option Z :=
  str_to_decimal e p false 0 is_seconds true.
(** [check_range_bytes]: [long] has the width of [long long]. *)
Definition check_range_bytes (e : bool) (p : list Z) (kb_base : Z) : bool * option Z :=
  str_to_decimal e p true kb_base false false.
End decimal.

(** How sizes given as percentages are told apart and read back. *)
Definition parse_is_percent (val : Z) : bool := (val <=? -1ULL) && (u64 (-1 - 100) <=? val).

(** [check_int]: [sscanf] with [%x] or [%u] into an [int].  A number that does not
    fit has no defined result ([None]); the inner option is the assignment. *)
Definition check_int (p : list Z) : option (option Z) :=
  match p with
  | [] => Some None
  | _ =>
      let r := drop (run_len isspace p) p in
      let neg := at_ptr r =? 45 in
      let r := if neg || (at_ptr r =? 43) then drop 1 r else r in
      let base := if has_0x p then 16 else 10 in
      let digit := if base =? 16 then hex_val else dec_val in
      let r := match r with
               | z :: x :: h :: t => if (base =? 16) && (z =? 48) && is_x x && is_hex h then h :: t else r
               | _ => r
               end in
      let ds := take (run_len (fun c => bool_decide (is_Some (digit c))) r) r in
      if (length ds =? 0)%nat then Some None else
      let v := fold_left (fun a c => base * a + default 0 (digit c)) ds 0 in
      let v := if neg then - v else v in
      if (- 2 ^ 32 <? v) && (v <? 2 ^ 32) then Some (Some (sgn 32 v)) else None
  end.

(** ** Printing *)
Fixpoint dec_digits (fuel : nat) (n : Z) (acc : list Z) : list Z :=
  match fuel with
  | O => acc
  | S fuel => let acc := (48 + n mod 10) :: acc in if n / 10 =? 0 then acc else dec_digits fuel (n / 10) acc
  end.
(** [%llu]. *)
Definition print_dec (n : Z) : list Z := dec_digits 20 n [].

Definition dec_value (a : Z) (s : list Z) : Z := fold_left (fun a c => 10 * a + default 0 (dec_val c)) s a.

Lemma dec_val_digit v : 0 <= v < 10 -> dec_val (48 + v) = Some v /\ is_digit (48 + v) = true.
Proof.
  intros Hv. assert (is_digit (48 + v) = true) as E by (unfold is_digit; lia). unfold dec_val. rewrite E. split; [f_equal; lia|done].
Qed.

Lemma dec_digits_ok : forall fuel n acc, 0 <= n < 10 ^ Z.of_nat fuel -> (0 < fuel)%nat -> Forall (fun c => is_digit c = true) acc ->
  Forall (fun c => is_digit c = true) (dec_digits fuel n acc) /\
  exists k, 0 <= k /\ (forall a, dec_value a (dec_digits fuel n acc) = dec_value (a * 10 ^ k + n) acc) /\
    (length acc < length (dec_digits fuel n acc))%nat.
Proof.
  induction fuel as [|fuel IH]; intros n acc Hn Hf Ha; [lia|]. cbn [dec_digits].
  pose proof (Z.mod_pos_bound n 10 ltac:(lia)) as Hm. pose proof (Z.div_mod n 10 ltac:(lia)) as Hd.
  destruct (dec_val_digit (n mod 10) Hm) as [E1 E2].
  destruct (Z.eqb_spec (n / 10) 0) as [E0|E0].
  - split; [by constructor|]. exists 1. split; [lia|]. split; [|cbn; lia]. intros a. cbn [dec_value fold_left]. unfold dec_value.
    cbn [fold_left]. rewrite E1. cbn [default from_option id]. rewrite E0 in Hd. f_equal; lia.
  - rewrite Nat2Z.inj_succ, Z.pow_succ_r in Hn by lia.
    assert (0 < n / 10) by (pose proof (Z.div_pos n 10 ltac:(lia) ltac:(lia)); lia).
    assert (Hq : 0 <= n / 10 < 10 ^ Z.of_nat fuel) by lia.
    assert (0 < fuel)%nat by (destruct fuel; [cbn in Hq; lia|lia]).
    destruct (IH (n / 10) ((48 + n mod 10) :: acc) Hq ltac:(lia) ltac:(by constructor)) as (Hall & k & Hk & Hv & Hl).
    split; [done|]. exists (k + 1). split; [lia|]. split; [|cbn [length] in Hl; lia]. intros a. rewrite Hv. unfold dec_value. cbn [fold_left].
    rewrite E1. cbn [default from_option id]. rewrite Z.pow_add_r by lia. apply (f_equal (fun x => fold_left _ acc x)). lia.
Qed.

Lemma print_dec_ok n : 0 <= n < 10 ^ 20 ->
  Forall (fun c => is_digit c = true) (print_dec n) /\ dec_value 0 (print_dec n) = n /\ (0 < length (print_dec n))%nat.
Proof.
  intros Hn. destruct (dec_digits_ok 20 n [] Hn ltac:(lia) ltac:(constructor)) as (H & k & _ & Hv & Hl). split; [done|]. split; [|exact Hl].
  exact (Hv 0).
Qed.

(** ** Reading digits back *)
Lemma run_len_app p s t : Forall (fun c => p c = true) s -> (forall c r, t = c :: r -> p c = false) -> run_len p (s ++ t) = length s.
Proof.
  induction 1 as [|c s Hc _ IH]; intros Ht; cbn [app run_len length].
  - destruct t as [|c r]; [done|]. cbn [run_len]. by rewrite (Ht c r eq_refl).
  - rewrite Hc, IH by done. done.
Qed.

(** A text that starts with a digit and has no [0x]. *)
Lemma strtoll_digits s t : (0 < length s)%nat -> Forall (fun c => is_digit c = true) s -> is_digit (at_ptr t) = false ->
  strtoll 10 (s ++ t) =
    (Z.min LONG_MAX (dec_value 0 s), negb (dec_value 0 s <=? LONG_MAX)).
Proof.
  intros Hl Hs Ht. destruct s as [|c s]; [cbn in Hl; lia|]. unfold strtoll. change (10 =? 16) with false.
  assert (Hc : is_digit c = true) by (by inversion Hs). assert (Hc' : 48 <= c <= 57) by (unfold is_digit in Hc; lia).
  assert (Hsp : run_len isspace ((c :: s) ++ t) = 0%nat).
  { cbn [app run_len]. assert (isspace c = false) as -> by (unfold isspace; lia). done. }
  rewrite Hsp. change (drop 0 ?l) with l. cbn [app at_ptr hd].
  rewrite (proj2 (Z.eqb_neq c 45)), (proj2 (Z.eqb_neq c 43)) by lia. cbn [orb andb].
  replace (match c :: s ++ t with z :: x :: h :: u => c :: s ++ t | _ => c :: s ++ t end) with (c :: s ++ t)
    by (by destruct (s ++ t) as [|? [|? ?]]).
  assert (Hrun : run_len (fun c => bool_decide (is_Some (dec_val c))) ((c :: s) ++ t) = length (c :: s)).
  { apply run_len_app.
    - eapply Forall_impl; [|exact Hs]. intros d Hd. cbn beta in Hd. apply bool_decide_eq_true. unfold dec_val. rewrite Hd. by eexists.
    - intros d r ->. cbn in Ht. apply bool_decide_eq_false. unfold dec_val. rewrite Ht. by intros [? ?]. }
  change (c :: s ++ t) with ((c :: s) ++ t). rewrite Hrun, take_app_length. fold (dec_value 0 (c :: s)).
  assert (Hpos : forall u a, 0 <= a -> Forall (fun c => is_digit c = true) u -> 0 <= dec_value a u).
  { intros u. induction u as [|e u IH]; intros a Ha Hu; [done|]. inversion Hu; subst. cbn [dec_value fold_left]. apply IH; [|done].
    unfold dec_val. destruct (is_digit e) eqn:E; [unfold is_digit in E; cbn; lia|done]. }
  specialize (Hpos (c :: s) 0 ltac:(lia) Hs). unfold LONG_MIN, LONG_MAX in *. f_equal; [lia|]. f_equal. rewrite (proj2 (Z.leb_le (- 2 ^ 63) _)) by lia. done.
Qed.

Lemma find_0x_app s t : Forall (fun c => is_digit c = true) s -> is_x (at_ptr t) = false -> find_0x t = None -> find_0x (s ++ t) = None.
Proof.
  intros Hs Ht Hn. induction Hs as [|c s Hc Hs IH]; [done|]. cbn [app find_0x]. destruct (s ++ t) as [|d r] eqn:E; [done|].
  rewrite IH. cbn [fmap option_fmap option_map]. assert (is_x d = false) as ->; [|by rewrite andb_false_r].
  destruct s as [|d' s]; cbn [app] in E.
  - subst t. done.
  - injection E as -> _. inversion Hs; subst. unfold is_digit in *. unfold is_x. lia.
Qed.

Lemma skip_digits t : is_digit (at_ptr t) = false -> forall s b, Forall (fun c => is_digit c = true) s -> (s = [] -> b = true) ->
  skip_number (s ++ t) b = t.
Proof.
  intros Ht. induction s as [|c s IH]; intros b Hs Hb; cbn [app].
  - specialize (Hb eq_refl) as ->. destruct t as [|c t]; [done|]. cbn in Ht. cbn [skip_number]. by rewrite Ht, orb_true_r.
  - inversion Hs; subst. cbn [skip_number]. rewrite H1. cbn [negb andb]. apply IH; [done|]. intros _. by rewrite orb_true_r.
Qed.

Lemma tolower_digit c : is_digit (tolower c) = is_digit c /\ isalpha (tolower c) = isalpha c /\ is_x (tolower c) = is_x c /\
  (tolower c =? 48) = (c =? 48) /\ (tolower c =? 37) = (c =? 37).
Proof.
  unfold tolower, is_digit, isalpha, is_x. destruct ((65 <=? c) && (c <=? 90)) eqn:E; split_and!; lia || done.
Qed.

Lemma find_0x_lower t : find_0x (tolower <$> t) = find_0x t.
Proof.
  induction t as [|c t IH]; [done|]. cbn [fmap list_fmap find_0x]. destruct t as [|d t]; [done|]. cbn [fmap list_fmap] in *.
  destruct (tolower_digit c) as (_ & _ & _ & -> & _), (tolower_digit d) as (_ & _ & -> & _). destruct ((c =? 48) && is_x d); [done|].
  by rewrite IH.
Qed.

Lemma at_ptr_lower t : at_ptr (tolower <$> t) = tolower (at_ptr t).
Proof. by destruct t. Qed.

(** What a suffix must look like for the number before it to be read as decimal
    digits. *)
Definition plain_suffix (u : list Z) : bool := negb (is_digit (at_ptr u)) && negb (is_x (at_ptr u)) && negb (has_0x u).

Section read.
Context (arith : bool -> list Z -> bool -> bool -> bool * option Z).

Lemma read_digits e n t kilo kb secs tm : 0 <= n < LONG_MAX -> plain_suffix (tolower <$> t) = true ->
  str_to_decimal arith e (print_dec n ++ t) kilo kb secs tm =
    (e, Some (if kilo : bool then let '(mult, perc) := get_mult_bytes (print_dec n ++ t) kb in
                         if perc : bool then sgn 64 (-1 - n) else sgn 64 (n * mult)
              else sgn 64 (n * get_mult_time (print_dec n ++ t) secs))).
Proof.
  intros Hn Ht. unfold plain_suffix in Ht. rewrite !andb_true_iff, !negb_true_iff, at_ptr_lower in Ht.
  destruct Ht as [[Hd Hx] H0], (tolower_digit (at_ptr t)) as (Ed & _ & Ex & _). rewrite Ed in Hd. rewrite Ex in Hx.
  unfold has_0x in H0. rewrite find_0x_lower in H0. apply bool_decide_eq_false in H0. apply eq_None_not_Some in H0.
  destruct (print_dec_ok n) as (Hs & Hv & Hl); [unfold LONG_MAX in Hn; lia|].
  pose proof (strtoll_digits (print_dec n) t Hl Hs Hd) as Hr. rewrite Hv in Hr.
  rewrite Z.min_r, (proj2 (Z.leb_le n LONG_MAX)) in Hr by lia. cbn [negb] in Hr.
  assert (Hx0 : has_0x (print_dec n ++ t) = false).
  { unfold has_0x. rewrite find_0x_app by done. by apply bool_decide_eq_false; intros [? ?]. }
  unfold str_to_decimal. destruct (print_dec n) as [|c s] eqn:Ep; [cbn in Hl; lia|].
  assert (Hc : c <> 40) by (inversion Hs as [|? ? Hc]; unfold is_digit in Hc; lia).
  cbn [app]. change (c :: s ++ t) with ((c :: s) ++ t). rewrite (proj2 (Z.eqb_neq c 40)), Hx0, Hr by lia.
  rewrite orb_false_r, (proj2 (Z.eqb_neq n LONG_MAX)) by lia. done.
Qed.
End read.

Lemma mult_of_suffix n t kb : 0 <= n < LONG_MAX -> plain_suffix (tolower <$> t) = true -> t <> [] ->
  get_mult_bytes (print_dec n ++ t) kb =
    __get_mult_bytes (if negb (isalpha (at_ptr (tolower <$> t))) && negb (at_ptr (tolower <$> t) =? 37) then None else Some t) kb.
Proof.
  intros Hn Ht Hne. unfold plain_suffix in Ht. rewrite !andb_true_iff, !negb_true_iff, at_ptr_lower in Ht. destruct Ht as [[Hd _] _].
  destruct (tolower_digit (at_ptr t)) as (Ed & Ea & _ & _ & Ep). rewrite Ed in Hd. rewrite at_ptr_lower, Ea, Ep.
  destruct (print_dec_ok n) as (Hs & Hv & Hl); [unfold LONG_MAX in Hn; lia|].
  unfold get_mult_bytes. assert (Hlen : (length (print_dec n ++ t) <? 2)%nat = false).
  { apply Nat.ltb_ge. rewrite length_app. destruct t; [done|cbn [length]; lia]. }
  rewrite Hlen, skip_digits by (done || intros E; rewrite E in Hl; cbn in Hl; lia). done.
Qed.

Lemma mult_plain n kb : 0 <= n < LONG_MAX -> get_mult_bytes (print_dec n) kb = (1, false).
Proof.
  intros Hn. destruct (print_dec_ok n) as (Hs & Hv & Hl); [unfold LONG_MAX in Hn; lia|]. unfold get_mult_bytes.
  destruct (Nat.ltb_spec (length (print_dec n)) 2) as [H1|H1].
  - destruct (print_dec n) as [|c [|]]; [cbn in Hl; lia| |cbn in H1; lia]. inversion Hs as [|? ? Hc _]; subst.
    assert (Hr : 48 <= c <= 57) by (unfold is_digit in Hc; lia).
    assert (c = 48 \/ c = 49 \/ c = 50 \/ c = 51 \/ c = 52 \/ c = 53 \/ c = 54 \/ c = 55 \/ c = 56 \/ c = 57) as Hcs by lia.
    clear - Hcs. repeat destruct Hcs as [-> |Hcs]; [..|subst c]; vm_compute; reflexivity.
  - pose proof (skip_digits [] eq_refl (print_dec n) false Hs) as E. rewrite app_nil_r in E. rewrite E; [done|].
    intros E'. rewrite E' in Hl. cbn in Hl. lia.
Qed.

(** ** Sizes *)

(** Units of size: spelling in lower case, power, and whether it is one of those
    whose base is the other one of 1000 and 1024.  The spellings [ki] to [pi] of the
    documentation are not among them: the parser takes them for [k] to [p] (see
    [units_misread]). *)
Definition size_units : list (list Z * (Z * bool)) :=
  [([], (0, false)); (codes "b", (0, false));
   (codes "k", (1, false)); (codes "kb", (1, false)); (codes "kib", (1, true));
   (codes "m", (2, false)); (codes "mb", (2, false)); (codes "mib", (2, true));
   (codes "g", (3, false)); (codes "gb", (3, false)); (codes "gib", (3, true));
   (codes "t", (4, false)); (codes "tb", (4, false)); (codes "tib", (4, true));
   (codes "p", (5, false)); (codes "pb", (5, false)); (codes "pib", (5, true))].

Definition unit_base (kb_base : Z) (other : bool) : Z :=
  if other then (if kb_base =? 1000 then 1024 else 1000) else kb_base.

Lemma lower_lower (p : list Z) : tolower <$> (tolower <$> p) = tolower <$> p.
Proof.
  rewrite <- list_fmap_compose. apply list_fmap_ext. intros i c _. unfold compose, tolower.
  destruct ((65 <=? c) && (c <=? 90)) eqn:E; [|by rewrite E]. destruct ((65 <=? c + 32) && (c + 32 <=? 90)) eqn:E'; [lia|done].
Qed.

(** The multiplier depends on the suffix only through its lower-case form. *)
Lemma mult_lower p kb : __get_mult_bytes (Some p) kb = __get_mult_bytes (Some (tolower <$> p)) kb.
Proof. unfold __get_mult_bytes. by rewrite lower_lower. Qed.

Lemma size_units_ok : Forall (fun '(u, (k, other)) => plain_suffix u = true /\ forall kb, kb = 1000 \/ kb = 1024 ->
  (if bool_decide (u = []) then (1, false)
   else __get_mult_bytes (if negb (isalpha (at_ptr u)) && negb (at_ptr u =? 37) then None else Some u) kb)
  = (unit_base kb other ^ k, false)) size_units.
Proof.
  unfold size_units. repeat (apply list.Forall_cons; split; [split; [vm_compute; reflexivity|intros kb [-> | ->]; vm_compute; reflexivity]|]).
  constructor.
Qed.

Lemma read_size arith e n t u k other kb : 0 <= n < LONG_MAX -> (u, (k, other)) ∈ size_units -> tolower <$> t = u ->
  kb = 1000 \/ kb = 1024 ->
  check_str_bytes arith e (print_dec n ++ t) kb = (e, Some (sgn 64 (n * unit_base kb other ^ k))).
Proof.
  intros Hn Hu Ht Hkb. pose proof size_units_ok as H. rewrite list.Forall_forall in H. specialize (H _ Hu). cbn beta iota in H.
  destruct H as [Hp Hm]. specialize (Hm kb Hkb). unfold check_str_bytes. rewrite read_digits by (done || by rewrite Ht).
  destruct (decide (t = [])) as [-> |Hne].
  - cbn [fmap list_fmap] in Ht. subst u. rewrite app_nil_r, mult_plain by done. cbn in Hm. by injection Hm as <-.
  - rewrite mult_of_suffix, Ht by (done || by rewrite Ht). rewrite bool_decide_eq_false_2 in Hm by (subst u; by destruct t).
    destruct (negb (isalpha (at_ptr u)) && negb (at_ptr u =? 37)); [by rewrite Hm|]. rewrite mult_lower, Ht, Hm. done.
Qed.

(** C37. Sizes are read back: the decimal digits of a number, followed by nothing or by
    one of the units [b], [k], [kb], [kib], [m], [mb], [mib], [g], [gb], [gib], [p],
    [pb], [pib] in any mixture of upper and lower case, give the number times the
    unit, as long as the product is below the greatest [long long].  With [kb_base]
    1000 the units that end in [ib] are powers of 1024 and the others of 1000, with
    1024 it is the other way round.  (The fourth power is left out: [HOWTO] gives
    [1t] as 1000**4 in its table and as 1000000000 in its examples.) *)
Theorem size_roundtrip arith e n t u k other kb : 0 <= n -> (u, (k, other)) ∈ size_units -> k <> 4 -> tolower <$> t = u ->
  kb = 1000 \/ kb = 1024 -> n * unit_base kb other ^ k < LONG_MAX ->
  check_str_bytes arith e (print_dec n ++ t) kb = (e, Some (n * unit_base kb other ^ k)).
Proof.
  intros Hn Hu _ Ht Hkb Hb. assert (Hp : 0 < unit_base kb other ^ k).
  { assert (H : Forall (fun '(_, (k, _)) => 0 <= k) size_units) by (apply (bool_decide_unpack _); vm_compute; exact I).
    apply Z.pow_pos_nonneg; [destruct Hkb as [-> | ->], other; done|]. exact (proj1 (list.Forall_forall _ _) H _ Hu). }
  rewrite (read_size arith e n t u k other kb) by (done || nia). unfold LONG_MAX in Hb. do 2 f_equal. apply sgn_small; nia.
Qed.

(** A product that does not fit wraps around. *)
Example size_wraps : check_str_bytes (fun e _ _ _ => (e, None)) true (codes "16777217t") 1024 = check_str_bytes (fun e _ _ _ => (e, None)) true (codes "1t") 1024.
Proof. vm_compute. reflexivity. Qed.

Lemma size_roundtrip_witness :
  check_str_bytes (fun e _ _ _ => (e, None)) true (codes "64MiB") 1024 = (true, Some 64000000) /\
  print_dec 64 ++ codes "MiB" = codes "64MiB".
Proof.
  split; [|vm_compute; reflexivity].
  exact (size_roundtrip (fun e _ _ _ => (e, None)) true 64 (codes "MiB") (codes "mib") 2 true 1024 ltac:(lia)
    ltac:(apply (bool_decide_unpack _); vm_compute; exact I) ltac:(lia) ltac:(vm_compute; reflexivity) ltac:(right; reflexivity) ltac:(vm_compute; reflexivity)).
Defined.

(** Percentages are kept apart: a number from 0 to 100 with a percent sign is
    stored as a value that [parse_is_percent] recognises and from which the
    percentage can be computed back; a plain size below 2^64 - 101 is never taken
    for one. *)
Theorem percent_roundtrip arith e n kb : 0 <= n < LONG_MAX ->
  exists v, check_str_bytes arith e (print_dec n ++ [37]) kb = (e, Some v) /\
    parse_is_percent (u64 v) = (n <=? 100) /\ u64 (-1 - u64 v) = n /\ parse_is_percent n = false.
Proof.
  intros Hn. exists (-1 - n). unfold check_str_bytes.
  rewrite (read_digits arith e n [37]) by (done || vm_compute; reflexivity).
  rewrite (mult_of_suffix n [37]) by (done || vm_compute; reflexivity).
  assert (Hm : __get_mult_bytes (Some [37]) kb = (1, true)) by reflexivity.
  change (negb (isalpha (at_ptr (tolower <$> [37]))) && negb (at_ptr (tolower <$> [37]) =? 37)) with false. cbv iota. rewrite Hm.
  unfold LONG_MAX in Hn. rewrite sgn_small by lia. split; [done|].
  assert (Hu : u64 (-1 - n) = 2 ^ 64 - 1 - n).
  { unfold wrap. rewrite <- (Z.mod_add (-1 - n) 1) by lia. rewrite Z.mod_small by lia. lia. }
  rewrite Hu. unfold parse_is_percent. change (u64 (-1 - 100)) with (2 ^ 64 - 101). change (all_ones 64) with (2 ^ 64 - 1). split; [lia|]. split; [|lia].
  unfold wrap. replace (-1 - (2 ^ 64 - 1 - n)) with (n + (-1) * 2 ^ 64) by lia. rewrite Z.mod_add by lia. apply Z.mod_small. lia.
Qed.

Lemma percent_roundtrip_witness : exists v, check_str_bytes (fun e _ _ _ => (e, None)) false (print_dec 20 ++ [37]) 1024 = (false, Some v) /\
  parse_is_percent (u64 v) = true.
Proof.
  destruct (percent_roundtrip (fun e _ _ _ => (e, None)) false 20 1024 ltac:(vm_compute; split; [discriminate|reflexivity])) as (v & E & H & _).
  exists v. split; [exact E|exact H].
Defined.

(** ** Times *)
Definition time_units (is_seconds : bool) : list (list Z * Z) :=
  [([], if is_seconds then 1000000 else 1); (codes "us", 1); (codes "usec", 1); (codes "ms", 1000); (codes "msec", 1000);
   (codes "s", 1000000); (codes "m", 60 * 1000000); (codes "h", 3600 * 1000000); (codes "d", 86400 * 1000000)].

Lemma mult_time_lower t secs : get_mult_time (tolower <$> t) secs = get_mult_time t secs.
Proof.
  unfold get_mult_time. set (p := fun c => is_digit c || (c =? 43) || (c =? 45)).
  assert (Hp : forall c, p (tolower c) = p c).
  { intros c. unfold p, is_digit, tolower. destruct ((65 <=? c) && (c <=? 90)) eqn:E; lia. }
  assert (Hr : run_len p (tolower <$> t) = run_len p t) by (induction t as [|c t IH]; [done|]; cbn [fmap list_fmap run_len]; rewrite Hp, IH; done).
  rewrite Hr, <- fmap_drop, lower_lower, at_ptr_lower. by destruct (tolower_digit (at_ptr (drop (run_len p t) t))) as (_ & -> & _).
Qed.

Lemma time_units_ok secs : Forall (fun '(u, m) => plain_suffix u = true /\ (at_ptr u =? 43) = false /\ (at_ptr u =? 45) = false /\
  get_mult_time u secs = m) (time_units secs).
Proof.
  unfold time_units. destruct secs;
    repeat (apply list.Forall_cons; split; [split_and!; vm_compute; reflexivity|]); constructor.
Qed.

Lemma run_time n t : 0 <= n < LONG_MAX -> is_digit (at_ptr t) = false -> (at_ptr t =? 43) = false -> (at_ptr t =? 45) = false ->
  forall secs, get_mult_time (print_dec n ++ t) secs = get_mult_time t secs.
Proof.
  intros Hn Hd Hp Hm secs. destruct (print_dec_ok n) as (Hs & _ & _); [unfold LONG_MAX in Hn; lia|]. unfold get_mult_time.
  assert (Ht : run_len (fun c => is_digit c || (c =? 43) || (c =? 45)) t = 0%nat).
  { destruct t as [|c t]; [done|]. cbn in Hd, Hp, Hm. cbn [run_len]. by rewrite Hd, Hp, Hm. }
  rewrite (run_len_app _ (print_dec n) t), drop_app_length, Ht; [done| |].
  - eapply Forall_impl; [|exact Hs]. intros c Hc. cbn beta in Hc. by rewrite Hc.
  - intros c r ->. cbn in Hd, Hp, Hm. by rewrite Hd, Hp, Hm.
Qed.

(** Times are read back: the decimal digits of a number, followed by a unit
    of time in any mixture of upper and lower case, give that many microseconds;
    without a unit the option decides between seconds and microseconds. *)
Theorem time_roundtrip arith e n t u m secs : 0 <= n < LONG_MAX -> (u, m) ∈ time_units secs -> tolower <$> t = u ->
  check_str_time arith e (print_dec n ++ t) secs = (e, Some (sgn 64 (n * m))).
Proof.
  intros Hn Hu Ht. pose proof (time_units_ok secs) as H. rewrite list.Forall_forall in H. specialize (H _ Hu). cbn beta iota in H.
  destruct H as (Hp & H43 & H45 & Hm). unfold check_str_time. rewrite read_digits by (done || by rewrite Ht).
  assert (Hd : is_digit (at_ptr t) = false).
  { unfold plain_suffix in Hp. rewrite !andb_true_iff, !negb_true_iff in Hp. destruct Hp as [[Hd _] _].
    rewrite <- Ht, at_ptr_lower in Hd. by destruct (tolower_digit (at_ptr t)) as (<- & _). }
  rewrite <- Ht, at_ptr_lower in H43, H45. unfold tolower in H43, H45.
  rewrite run_time, <- mult_time_lower, Ht, Hm; [done|done|done|destruct ((65 <=? at_ptr t) && _) eqn:E; lia..].
Qed.

Lemma time_roundtrip_witness : check_str_time (fun e _ _ _ => (e, None)) false (print_dec 90 ++ codes "S") true = (false, Some 90000000).
Proof.
  exact (time_roundtrip (fun e _ _ _ => (e, None)) false 90 (codes "S") (codes "s") 1000000 true ltac:(vm_compute; split; [discriminate|reflexivity])
    ltac:(apply (bool_decide_unpack _); vm_compute; exact I) ltac:(vm_compute; reflexivity)).
Defined.

(** What the manual promises and the code does not do: [4ki] and [1mi] lose
    their i, [10sec] is ten microseconds, and a hexadecimal prefix or a blank
    before the number makes the unit void. *)
Theorem units_misread :
  let bytes s kb := (check_str_bytes (fun e _ _ _ => (e, None)) false (codes s) kb).2 in
  bytes "4ki"%string 1000 = Some 4000 /\ bytes "1mi"%string 1024 = Some 1048576 /\ bytes "0x10k"%string 1024 = Some 16 /\ bytes " 4k"%string 1024 = Some 4 /\
  (check_str_time (fun e _ _ _ => (e, None)) false (codes "10sec") true).2 = Some 10.
Proof. vm_compute. done. Qed.

(** [errno] is never cleared: the largest [long long] is read while [errno]
    is not [ERANGE], and refused after any call that left it so; a product that
    does not fit wraps without an error. *)
Theorem range_check_stale :
  check_str_bytes (fun e _ _ _ => (e, None)) false (codes "9223372036854775807") 1024 = (false, Some LONG_MAX) /\
  check_str_bytes (fun e _ _ _ => (e, None)) true (codes "9223372036854775807") 1024 = (true, None) /\
  check_str_bytes (fun e _ _ _ => (e, None)) false (codes "-9223372036854775809") 1024 = (true, Some LONG_MIN) /\
  check_str_bytes (fun e _ _ _ => (e, None)) false (codes "16777217t") 1024 = (false, Some (2 ^ 40)).
Proof. vm_compute. done. Qed.
