(* ===== verification/OptParse.v ===== *)
(** * Options: [parse.c]

    Finding an option by name and storing its value: strings with a table of
    allowed values, sizes, times, ranges, booleans, each possibly a list for
    reads, writes and trims.  The options structure is a map from offsets to
    cells; callbacks of an option are functions on it.  Lists of floating-point
    numbers are not modelled. *)
From Stdlib Require Import String.
From stdpp Require Import gmap.
From S2P Require Import Prelude Pattern PatternParse ParseNum.

(** ** Options and their data *)
Inductive fio_opt_type :=
| FIO_OPT_INVALID | FIO_OPT_STR | FIO_OPT_STR_MULTI | FIO_OPT_STR_VAL | FIO_OPT_STR_VAL_TIME | FIO_OPT_STR_STORE
| FIO_OPT_RANGE | FIO_OPT_INT | FIO_OPT_BOOL | FIO_OPT_FLOAT_LIST | FIO_OPT_STR_SET | FIO_OPT_DEPRECATED | FIO_OPT_UNSUPPORTED.

#[export] Instance fio_opt_type_eq_dec : EqDecision fio_opt_type.
Proof. solve_decision. Defined.

Inductive cell := Num (v : Z) | Str (s : list Z).
Abbreviation data := (gmap Z cell).

(** What a callback gets. *)
Inductive cb_arg := ArgStr (s : option (list Z)) | ArgVal (v : Z).
Definition callback := data -> cb_arg -> data * Z.

Record value_pair := ValuePair { ival : list Z; oval : Z; orval : bool; vp_cb : option callback }.

Record fio_option := FioOption {
  name : list Z; alias : option (list Z); type : fio_opt_type;
  off1 : Z; off2 : Z; off3 : Z; off4 : Z; off5 : Z; off6 : Z;
  maxval : Z; minval : Z; neg : bool; cb : option callback; def : option (list Z);
  posval : list value_pair; opt_verify : option (data -> Z);
  is_seconds : bool; is_time : bool; pow2 : bool
}.

Definition int_at (d : data) (off : Z) : Z := match d !! off with Some (Num v) => v | _ => 0 end.

(** [val_store] through an [int] and through a [long long] pointer. *)
Definition store_int (d : data) (off v : Z) (or : bool) : data :=
  <[off := Num (sgn 32 (if or then Z.lor (int_at d off) v else v))]> d.
Definition store_ull (d : data) (off v : Z) : data := <[off := Num (sgn 64 v)]> d.
(** [if (o->off) val_store(...)]. *)
Definition store_if (d : data) (off v : Z) : data := if off =? 0 then d else store_int d off v false.

(** ** Text *)

(** The text up to the first [c], if there is one. *)
Definition cut (s : list Z) (c : Z) : list Z := match strchr s c with Some k => take k s | None => s end.

Definition opt_len (str : list Z) : nat := length (cut str 58).
Definition str_match_len (ival str : list Z) : nat := Nat.max (length ival) (opt_len str).
(** [!strncmp(a, b, n)]. *)
Definition strn_eq (a b : list Z) (n : nat) : bool := bool_decide (take n (a ++ [0]) = take n (b ++ [0])).

(** [posval_sort]: the entries up to the first empty one, longest first. *)
Fixpoint insert_vp (v : value_pair) (l : list value_pair) : list value_pair :=
  match l with
  | w :: l' => if (length (ival v) <? length (ival w))%nat then w :: insert_vp v l' else v :: l
  | [] => [v]
  end.
Fixpoint used_vps (l : list value_pair) : list value_pair :=
  match l with v :: l => if bool_decide (ival v = []) then [] else v :: used_vps l | [] => [] end.
Definition posval_sort (o : fio_option) : list value_pair := foldr insert_vp [] (used_vps (posval o)).

Definition is_power_of_2 (val : Z) : bool := negb (u64 val =? 0) && (Z.land (u64 val) (u64 (val - 1)) =? 0).

Definition strip_blank_front (p : list Z) : list Z := drop (run_len isspace p) p.

Definition iscntrl (c : Z) : bool := ((0 <=? c) && (c <=? 31)) || (c =? 127).
Definition strip_blank_end (p : list Z) : list Z :=
  let p := cut (cut p 59) 35 in
  let r := drop (run_len (fun c => isspace c || iscntrl c) (rev p)) (rev p) in
  if bool_decide (r = []) then take 1 p else rev r.

(** ** One value *)
Section options.
Context (arith : bool -> list Z -> bool -> bool -> bool * option Z) (kb_base : Z).

Definition set_str (o : fio_option) (ptr : option (list Z)) (d : data) : data * Z :=
  let vps := posval_sort o in
  let all_skipped := bool_decide (vps = []) in
  let '(d, ret) :=
    match ptr with
    | None => (d, 1)
    | Some p =>
        fold_left (fun '(d, ret) v =>
          if strn_eq (ival v) p (str_match_len (ival v) p)
          then (if negb (off1 o =? 0) then store_int d (off1 o) (oval v) (orval v) else d, 0) else (d, ret)) vps (d, 1)
    end in
  if negb (ret =? 0) && negb all_skipped then (d, ret)
  else match cb o with Some fn => fn d (ArgStr ptr) | None => (d, ret) end.

(** [o->maxval] and [o->minval]; [maxval] is unsigned. *)
Definition out_of_range (o : fio_option) (v : Z) : bool :=
  (negb (maxval o =? 0) && (maxval o <? v)) || (negb (minval o =? 0) && (v <? minval o)).

Definition store_val (o : fio_option) (v : Z) (d : data) (first more : bool) (curr : Z) : data :=
  match type o with
  | FIO_OPT_INT =>
      let d := if first then store_int d (off1 o) v false else d in
      let d := if curr =? 1 then store_if d (off2 o) v else d in
      let d := if curr =? 2 then store_if d (off3 o) v else d in
      if negb more then
        let d := if curr <? 1 then store_if d (off2 o) v else d in
        if curr <? 2 then store_if d (off3 o) v else d
      else d
  | _ =>
      let d := if first then store_ull d (off1 o) v else d in
      if negb more && negb (off2 o =? 0) then store_ull d (off2 o) v else d
  end.

Definition set_val (o : fio_option) (ptr : list Z) (e : bool) (d : data) (first more : bool) (curr : Z) : bool * data * Z :=
  let time := match type o with FIO_OPT_STR_VAL_TIME => true | _ => is_time o end in
  let tmp := cut (take 127 ptr) 44 in
  let '(e, val) := if time then check_str_time arith e tmp (is_seconds o) else check_str_bytes arith e tmp kb_base in
  match val with
  | None => (e, d, 1)
  | Some v =>
      if pow2 o && negb (is_power_of_2 v) then (e, d, 1)
      else if out_of_range o v then (e, d, 1)
      else if negb (bool_decide (posval o = [])) && negb (existsb (fun p => oval p =? v) (posval_sort o)) then (e, d, 1)
      else match cb o with
           | Some fn => let '(d, ret) := fn d (ArgVal v) in (e, d, ret)
           | None => (e, store_val o v d first more curr, 0)
           end
  end.

Definition store_pair (d : data) (a b v w : Z) : data :=
  if negb (a =? 0) && negb (b =? 0) then store_int (store_int d a v false) b w false else d.

Definition store_range (o : fio_option) (v w : Z) (d : data) (first more : bool) (curr : Z) : data :=
  let d := if first then store_int (store_int d (off1 o) v false) (off2 o) w false else d in
  let d := if curr =? 1 then store_pair d (off3 o) (off4 o) v w else d in
  let d := if curr =? 2 then store_pair d (off5 o) (off6 o) v w else d in
  if negb more then
    let d := if curr <? 1 then store_pair d (off3 o) (off4 o) v w else d in
    if curr <? 2 then store_pair d (off5 o) (off6 o) v w else d
  else d.

Definition set_range (o : fio_option) (ptr : list Z) (e : bool) (d : data) (first more : bool) (curr : Z) : bool * data * Z :=
  let tmp := cut (take 127 ptr) 44 in
  match (match strchr tmp 45 with Some k => Some k | None => strchr tmp 58 end) with
  | None => (e, d, 1)
  | Some k =>
      let '(e, v1) := check_range_bytes arith e (take k tmp) kb_base in
      match v1 with
      | None => (e, d, 1)
      | Some v1 =>
          let '(e, v2) := check_range_bytes arith e (drop (S k) tmp) kb_base in
          match v2 with
          | None => (e, d, 1)
          | Some v2 => (e, if v2 <? v1 then store_range o v2 v1 d first more curr else store_range o v1 v2 d first more curr, 0)
          end
      end
  end.

(** [FIO_OPT_BOOL] and [FIO_OPT_STR_SET]. *)
Definition set_bool (o : fio_option) (ptr : option (list Z)) (d : data) (first more : bool) : option (data * Z) :=
  il ← match ptr with
       | Some p => check_int p
       | None => Some (match type o with FIO_OPT_BOOL => None | _ => Some 1 end)
       end;
  match il with
  | None => Some (d, 1)
  | Some il =>
      if (negb (maxval o =? 0) && (sgn 32 (maxval o) <? il)) || (negb (minval o =? 0) && (il <? minval o)) then Some (d, 1) else
      let il := if neg o then (if il =? 0 then 1 else 0) else il in
      match cb o with
      | Some fn => Some (fn d (ArgVal il))
      | None =>
          let d := if first then store_int d (off1 o) il false else d in
          Some (if negb more then store_if d (off2 o) il else d, 0)
      end
  end.

(** [FIO_OPT_STR_STORE]: the string, and a suboption after its colon. *)
Definition set_store (o : fio_option) (ptr : list Z) (d : data) : data * Z :=
  if bool_decide (ptr = []) then (d, 1) else
  let cp := negb (off1 o =? 0) in
  let d := if cp then <[off1 o := Str ptr]> d else d in
  match cb o with
  | Some fn => fn d (ArgStr (Some ptr))
  | None =>
      let vps := posval_sort o in
      if bool_decide (posval o = []) || negb cp || bool_decide (vps = []) then (d, if bool_decide (posval o = []) then 0 else 1) else
      match list_find (fun v => strn_eq (ival v) ptr (str_match_len (ival v) ptr) = true) vps with
      | None => (d, 0)
      | Some (_, v) =>
          match strchr ptr 58 with
          | Some k =>
              let d := <[off1 o := Str (take k ptr)]> d in
              match vp_cb v with Some fn => fn d (ArgStr (Some (drop (S k) ptr))) | None => (d, 0) end
          | None => (d, 0)
          end
      end
  end.

(** [__handle_option]: [errno], the data and the code. *)
Definition __handle_option (o : fio_option) (ptr : option (list Z)) (e : bool) (d : data) (first more : bool) (curr : Z) :
    option (bool * data * Z) :=
  '(e, d, ret) ←
    match type o, ptr with
    | FIO_OPT_STR, _ => let '(d, r) := set_str o ptr d in Some (e, d, r)
    | FIO_OPT_STR_SET, _ => '(d, r) ← set_bool o ptr d first more; Some (e, d, r)
    | _, None => Some (e, d, 1)
    | FIO_OPT_STR_MULTI, _ => let '(d, r) := set_str o ptr d in Some (e, d, r)
    | FIO_OPT_STR_VAL_TIME, Some p | FIO_OPT_INT, Some p | FIO_OPT_STR_VAL, Some p => Some (set_val o p e d first more curr)
    | FIO_OPT_STR_STORE, Some p => let '(d, r) := set_store o p d in Some (e, d, r)
    | FIO_OPT_RANGE, Some p => Some (set_range o p e d first more curr)
    | FIO_OPT_BOOL, _ => '(d, r) ← set_bool o ptr d first more; Some (e, d, r)
    | FIO_OPT_FLOAT_LIST, _ => None
    | FIO_OPT_INVALID, _ | FIO_OPT_DEPRECATED, _ | FIO_OPT_UNSUPPORTED, _ => Some (e, d, 1)
    end;
  if negb (ret =? 0) then Some (e, d, ret) else
  Some (e, d, match opt_verify o with Some f => f d | None => 0 end).

(** ** Lists of values *)

(** The separator after the first value. *)
Definition next_value (t : fio_opt_type) (p : list Z) : option nat :=
  match t with
  | FIO_OPT_STR_STORE | FIO_OPT_STR => None
  | FIO_OPT_FLOAT_LIST => strchr p 58
  | FIO_OPT_STR_MULTI | FIO_OPT_RANGE => strchr p 44
  | _ => match strchr p 44 with
         | Some k => Some k
         | None => match strchr p 58 with Some k => Some k | None => strchr p 45 end
         end
  end.

(** A comma at the very end is cut off before the value is read. *)
Definition drop_last_comma (t : fio_opt_type) (p : list Z) : list Z :=
  match t with
  | FIO_OPT_STR_STORE | FIO_OPT_STR | FIO_OPT_FLOAT_LIST => p
  | _ => match strchr p 44 with
         | Some k => if (S k =? length p)%nat then take k p else p
         | None => p
         end
  end.

Fixpoint handle_values (fuel : nat) (o : fio_option) (ptr : option (list Z)) (e : bool) (d : data) (ret done : Z) :
    option (bool * data * Z) :=
  match fuel with
  | O => None
  | S fuel =>
      let ptr2 := p ← ptr; next_value (type o) p in
      '(e, d, r) ← __handle_option o (drop_last_comma (type o) <$> ptr) e d (done =? 0) (bool_decide (is_Some ptr2)) done;
      let ret := if negb (ret =? 0) then r else ret in
      match ptr, ptr2 with
      | Some p, Some k => handle_values fuel o (Some (drop (S k) p)) e d ret (done + 1)
      | _, _ => Some (e, d, ret)
      end
  end.

Definition handle_option (o : fio_option) (ptr : option (list Z)) (e : bool) (d : data) : option (bool * data * Z) :=
  handle_values (S (length (default [] ptr))) o ptr e d 1 0.

(** ** Finding the option *)
Definition o_match (o : fio_option) (opt : list Z) : bool :=
  bool_decide (name o = opt) || bool_decide (alias o = Some opt).

Fixpoint find_option (options : list fio_option) (opt : list Z) : option fio_option :=
  match options with
  | [] => None
  | o :: options =>
      if negb (o_match o opt) then find_option options opt
      else match type o with FIO_OPT_UNSUPPORTED => find_option options opt | _ => Some o end
  end.

(** [get_option]: the option and the text after the equals sign. *)
Definition get_option (opt : list Z) (options : list fio_option) : option fio_option * option (list Z) :=
  match strchr opt 61 with
  | Some k => (find_option options (strip_blank_end (take k opt)), Some (drop (S k) opt))
  | None => (find_option options opt, None)
  end.

Definition parse_option (opt : list Z) (options : list fio_option) (e : bool) (d : data) : option (bool * data * Z) :=
  match get_option opt options with
  | (None, _) => Some (e, d, 1)
  | (Some o, post) =>
      '(e, d, r) ← handle_option o post e d;
      Some (e, d, if negb (r =? 0) then 1 else 0)
  end.

Definition parse_cmd_option (opt : list Z) (val : option (list Z)) (options : list fio_option) (e : bool) (d : data) :
    option (bool * data * Z) :=
  match find_option options opt with
  | None => Some (e, d, 1)
  | Some o => '(e, d, r) ← handle_option o val e d; Some (e, d, if negb (r =? 0) then 1 else 0)
  end.

(** [fill_default_options]. *)
Fixpoint fill_default_options (options : list fio_option) (e : bool) (d : data) : option (bool * data) :=
  match options with
  | [] => Some (e, d)
  | o :: options =>
      '(e, d) ← match def o with Some t => '(e, d, _) ← handle_option o (Some t) e d; Some (e, d) | None => Some (e, d) end;
      fill_default_options options e d
  end.
End options.

(** [option_init]: the bounds of booleans and integers. *)
Definition option_init (o : fio_option) : fio_option :=
  let bounds mx mn := FioOption (name o) (alias o) (type o) (off1 o) (off2 o) (off3 o) (off4 o) (off5 o) (off6 o)
    mx mn (neg o) (cb o) (def o) (posval o) (opt_verify o) (is_seconds o) (is_time o) (pow2 o) in
  match type o with
  | FIO_OPT_BOOL => bounds 1 0
  | FIO_OPT_INT => if maxval o =? 0 then bounds (-1U) (minval o) else o
  | _ => o
  end.

(** ** Values for reads, writes and trims *)

(** Text without the separators of a list. *)
Definition no_seps (f : list Z) : Prop := 44 ∉ f /\ 58 ∉ f /\ 45 ∉ f.

Lemma strchr_none s c : c ∉ s -> strchr s c = None.
Proof.
  induction s as [|d s IH]; [done|]. intros H. apply not_elem_of_cons in H as [H1 H2]. cbn [strchr].
  rewrite (proj2 (Z.eqb_neq d c)) by done. by rewrite IH.
Qed.

Lemma strchr_app f c r : c ∉ f -> strchr (f ++ c :: r) c = Some (length f).
Proof.
  induction f as [|d f IH]; intros H; cbn [app strchr length]; [by rewrite Z.eqb_refl|]. apply not_elem_of_cons in H as [H1 H2].
  rewrite (proj2 (Z.eqb_neq d c)) by done. by rewrite IH.
Qed.

(** What follows a value: nothing, or a comma and more. *)
Definition tail_of (r : option (list Z)) : list Z := match r with Some r => 44 :: r | None => [] end.

Lemma cut_field f r : 44 ∉ f -> (length f <= 127)%nat -> cut (take 127 (f ++ tail_of r)) 44 = f.
Proof.
  intros Hf Hl. rewrite take_app_ge by lia. unfold cut. destruct r as [r|]; cbn [tail_of].
  - destruct (127 - length f)%nat as [|m]; [by rewrite app_nil_r, strchr_none|]. cbn [take]. by rewrite strchr_app, take_app_length.
  - rewrite take_nil, app_nil_r. by rewrite strchr_none.
Qed.

Lemma cut_short f : 44 ∉ f -> (length f <= 127)%nat -> cut (take 127 f) 44 = f.
Proof. intros Hf Hl. rewrite take_ge by lia. unfold cut. by rewrite strchr_none. Qed.

(** The value read from the head of the list does not depend on a last comma. *)
Lemma cut_head t f r : match t with FIO_OPT_STR_STORE | FIO_OPT_STR | FIO_OPT_FLOAT_LIST => False | _ => True end ->
  44 ∉ f -> (length f <= 127)%nat -> cut (take 127 (drop_last_comma t (f ++ tail_of r))) 44 = f.
Proof.
  intros Ht Hf Hl. assert (E : drop_last_comma t (f ++ tail_of r) = f ++ tail_of r \/ drop_last_comma t (f ++ tail_of r) = f).
  { unfold drop_last_comma. destruct r as [r|]; cbn [tail_of].
    - rewrite strchr_app, take_app_length by done. destruct t; try done; destruct (_ =? _)%nat; auto.
    - rewrite app_nil_r, strchr_none by done. destruct t; auto. }
  destruct E as [-> | ->]; [by apply cut_field|by apply cut_short].
Qed.

Lemma next_int f r : no_seps f -> next_value FIO_OPT_INT (f ++ tail_of r) = match r with Some _ => Some (length f) | None => None end.
Proof.
  intros (H1 & H2 & H3). unfold next_value. destruct r as [r|]; cbn [tail_of]; [by rewrite strchr_app|].
  by rewrite app_nil_r, !strchr_none.
Qed.

Lemma next_range f r : 44 ∉ f -> next_value FIO_OPT_RANGE (f ++ tail_of r) = match r with Some _ => Some (length f) | None => None end.
Proof. intros H1. unfold next_value. destruct r as [r|]; cbn [tail_of]; [by rewrite strchr_app|]. by rewrite app_nil_r, strchr_none. Qed.

Lemma drop_field f r : drop (S (length f)) (f ++ 44 :: r) = r.
Proof. induction f; [done|]. exact IHf. Qed.

(** Fields joined by commas. *)
Fixpoint join (l : list (list Z)) : list Z :=
  match l with
  | [] => []
  | f :: l => f ++ tail_of (match l with [] => None | _ => Some (join l) end)
  end.

(** Which of the three places gets which value. *)
Definition spread {A} (l : list A) : option (A * A * A) :=
  match l with
  | [a] => Some (a, a, a)
  | [a; b] => Some (a, b, b)
  | [a; b; c] => Some (a, b, c)
  | _ => None
  end.

Section lists.
Context (arith : bool -> list Z -> bool -> bool -> bool * option Z) (kb_base : Z).

(** A field of an integer option: empty, or a number between its bounds. *)
Definition int_field (o : fio_option) (f : list Z) (v : option Z) : Prop :=
  no_seps f /\ (length f <= 127)%nat /\
  match v with
  | None => f = []
  | Some n => out_of_range o n = false /\ forall e, check_str_bytes arith e f kb_base = (e, Some n)
  end.

(** An integer option for reads, writes and trims, as [bs]. *)
Record int_option (o : fio_option) : Prop := {
  io_type : type o = FIO_OPT_INT;
  io_offs : NoDup [0; off1 o; off2 o; off3 o];
  io_plain : cb o = None /\ posval o = [] /\ opt_verify o = None /\ is_time o = false /\ pow2 o = false
}.

Definition put_opt (d : data) (off : Z) (v : option Z) : data := match v with Some v => store_int d off v false | None => d end.

Lemma int_value o f v r e d first more curr : int_option o -> int_field o f v ->
  __handle_option arith kb_base o (Some (drop_last_comma FIO_OPT_INT (f ++ tail_of r))) e d first more curr =
    Some (match v with Some n => (e, store_val o n d first more curr, 0) | None => (e, d, 1) end).
Proof.
  intros [Ht _ (Hcb & Hpv & Hvf & Htm & Hp2)] ((Hf & _) & Hl & Hv). unfold __handle_option, set_val. rewrite Ht, Htm, cut_head by done.
  destruct v as [n|].
  - destruct Hv as [Hn Hv]. rewrite Hv, Hp2, Hn, Hpv, Hcb, Hvf. cbn. done.
  - rewrite Hv. cbn. done.
Qed.

Lemma int_step o f v r e d ret fuel done : int_option o -> int_field o f v ->
  handle_values arith kb_base (S fuel) o (Some (f ++ tail_of r)) e d ret done =
    let d := match v with Some n => store_val o n d (done =? 0) (bool_decide (is_Some r)) done | None => d end in
    let ret := if negb (ret =? 0) then match v with Some _ => 0 | None => 1 end else ret in
    match r with
    | Some r => handle_values arith kb_base fuel o (Some r) e d ret (done + 1)
    | None => Some (e, d, ret)
    end.
Proof.
  intros Ho Hf. cbn [handle_values mbind option_bind fmap option_fmap option_map]. rewrite (io_type _ Ho), next_int by apply Hf.
  destruct r as [r|].
  - rewrite (bool_decide_eq_true_2 (is_Some (Some (length f)))), (bool_decide_eq_true_2 (is_Some (Some r))) by done.
    rewrite (int_value o f v (Some r)) by done. cbn [tail_of]. rewrite drop_field. by destruct v.
  - rewrite (bool_decide_eq_false_2 (is_Some None)) by (by intros [? ?]). rewrite (bool_decide_eq_false_2 (is_Some None)) by (by intros [? ?]).
    rewrite (int_value o f v None) by done. by destruct v.
Qed.

Lemma length_tail r : length (tail_of (Some r)) = S (length r).
Proof. done. Qed.

Definition placed (d d' : data) (off : Z) (v : option Z) : Prop :=
  d' !! off = match v with Some v => Some (Num (sgn 32 v)) | None => d !! off end.

(** What storing one after another leaves in three different places. *)
Lemma placed_three (d : data) o1 o2 o3 (a b c : option Z) : NoDup [o1; o2; o3] ->
  let d' := put_opt (put_opt (put_opt d o1 a) o2 b) o3 c in
  placed d d' o1 a /\ placed d d' o2 b /\ placed d d' o3 c /\ forall k, k ∉ [o1; o2; o3] -> d' !! k = d !! k.
Proof.
  intros Hnd. rewrite !list.NoDup_cons, !not_elem_of_cons in Hnd. destruct Hnd as ((H12 & H13 & _) & (H23 & _) & _).
  cbn zeta. unfold placed, put_opt, store_int. split_and!.
  1-3: destruct a, b, c; repeat (rewrite lookup_insert_eq || rewrite lookup_insert_ne by done); done.
  intros k Hk. rewrite !not_elem_of_cons in Hk. destruct Hk as (K1 & K2 & K3 & _). destruct a, b, c; repeat rewrite lookup_insert_ne by done; done.
Qed.

Definition answered (vs : list (option Z)) : Z := if existsb (fun v => bool_decide (is_Some v)) vs then 0 else 1.

(** C36. Lists of values reach the right places: an integer option with places for
    reads, writes and trims, without callback, list of allowed values, check, power
    of two or time unit, as [bs], given one to three fields separated by commas,
    each empty or a size between the option's bounds, sets reads, writes and trims
    from left to right, the last field standing for those not given; an empty field
    leaves its place alone, so that a comma at the end keeps the last value from
    spreading, and the option fails only if no field holds a value. *)
Theorem int_option_lists o fs vs a b c e d : int_option o -> Forall2 (int_field o) fs vs -> spread vs = Some (a, b, c) ->
  exists d', handle_option arith kb_base o (Some (join fs)) e d = Some (e, d', answered vs) /\
    placed d d' (off1 o) a /\ placed d d' (off2 o) b /\ placed d d' (off3 o) c /\
    forall k, k ∉ [off1 o; off2 o; off3 o] -> d' !! k = d !! k.
Proof.
  intros Ho Hf Hs. pose proof (io_offs _ Ho) as Hnd. apply list.NoDup_cons in Hnd as [H0 Hnd].
  rewrite !not_elem_of_cons in H0. destruct H0 as (_ & N2 & N3 & _).
  assert (S1 : forall n d, store_val o n d true true 0 = put_opt d (off1 o) (Some n)) by (intros; unfold store_val; by rewrite (io_type _ Ho)).
  assert (S2 : forall n d, store_val o n d false true 1 = put_opt d (off2 o) (Some n))
    by (intros; unfold store_val, store_if; rewrite (io_type _ Ho), (proj2 (Z.eqb_neq (off2 o) 0)) by done; done).
  assert (S3 : forall n d, store_val o n d false false 2 = put_opt d (off3 o) (Some n))
    by (intros; unfold store_val, store_if; rewrite (io_type _ Ho), (proj2 (Z.eqb_neq (off3 o) 0)) by done; done).
  assert (S23 : forall n d, store_val o n d false false 1 = put_opt (put_opt d (off2 o) (Some n)) (off3 o) (Some n))
    by (intros; unfold store_val, store_if; rewrite (io_type _ Ho), (proj2 (Z.eqb_neq (off2 o) 0)), (proj2 (Z.eqb_neq (off3 o) 0)) by done; done).
  assert (S123 : forall n d, store_val o n d true false 0 = put_opt (put_opt (put_opt d (off1 o) (Some n)) (off2 o) (Some n)) (off3 o) (Some n))
    by (intros; unfold store_val, store_if; rewrite (io_type _ Ho), (proj2 (Z.eqb_neq (off2 o) 0)), (proj2 (Z.eqb_neq (off3 o) 0)) by done; done).
  eexists. split; [|by apply (placed_three d (off1 o) (off2 o) (off3 o) a b c)].
  unfold handle_option. cbn [from_option id].
  destruct Hf as [|f1 v1 ? ? H1 [|f2 v2 ? ? H2 [|f3 v3 ? ? H3 [|]]]]; try discriminate Hs; injection Hs as <- <- <-; cbn [join].
  - rewrite (int_step o f1 v1) by done. cbn zeta. change (0 =? 0) with true. rewrite (bool_decide_eq_false_2 (is_Some None)) by (by intros [? ?]).
    destruct v1; [by rewrite S123|done].
  - rewrite (int_step o f1 v1) by done. cbn zeta. change (0 =? 0) with true. rewrite (bool_decide_eq_true_2 (is_Some (Some _))) by done.
    rewrite (length_app f1), length_tail, Nat.add_succ_r, (int_step o f2 v2) by done. cbn zeta. change (0 + 1 =? 0) with false.
    rewrite (bool_decide_eq_false_2 (is_Some None)) by (by intros [? ?]).
    destruct v1, v2; rewrite ?S1, ?S23; done.
  - rewrite (int_step o f1 v1) by done. cbn zeta. change (0 =? 0) with true. rewrite (bool_decide_eq_true_2 (is_Some (Some _))) by done.
    rewrite (length_app f1), length_tail, Nat.add_succ_r, (int_step o f2 v2) by done. cbn zeta. change (0 + 1 =? 0) with false.
    rewrite (bool_decide_eq_true_2 (is_Some (Some _))) by done.
    rewrite (length_app f2), length_tail, Nat.add_succ_r, Nat.add_succ_r, (int_step o f3 v3) by done. cbn zeta. change (0 + 1 + 1 =? 0) with false.
    rewrite (bool_decide_eq_false_2 (is_Some None)) by (by intros [? ?]).
    destruct v1, v2, v3; rewrite ?S1, ?S2, ?S3; done.
Qed.

(** A field of a range option: empty, or two sizes. *)
Definition range_field (f : list Z) (v : option (Z * Z)) : Prop :=
  44 ∉ f /\ (length f <= 127)%nat /\
  match v with
  | None => f = []
  | Some (lo, hi) => exists p q sep x y, f = p ++ sep :: q /\ (sep = 45 \/ sep = 58) /\ no_seps p /\ no_seps q /\
      (forall e, check_range_bytes arith e p kb_base = (e, Some x)) /\ (forall e, check_range_bytes arith e q kb_base = (e, Some y)) /\
      lo = Z.min x y /\ hi = Z.max x y
  end.

Record range_option (o : fio_option) : Prop := {
  ro_type : type o = FIO_OPT_RANGE;
  ro_offs : NoDup [0; off1 o; off2 o; off3 o; off4 o; off5 o; off6 o];
  ro_plain : opt_verify o = None
}.

Lemma range_value o f v r e d first more curr : range_option o -> range_field f v ->
  __handle_option arith kb_base o (Some (drop_last_comma FIO_OPT_RANGE (f ++ tail_of r))) e d first more curr =
    Some (match v with Some (lo, hi) => (e, store_range o lo hi d first more curr, 0) | None => (e, d, 1) end).
Proof.
  intros [Ht _ Hvf] (Hf & Hl & Hv). unfold __handle_option, set_range. rewrite Ht, cut_head by done.
  destruct v as [[lo hi]|]; [|subst f; done].
  destruct Hv as (p & q & sep & x & y & -> & Hsep & (P1 & P2 & P3) & (Q1 & Q2 & Q3) & Hx & Hy & -> & ->).
  assert (Hk : (match strchr (p ++ sep :: q) 45 with Some k => Some k | None => strchr (p ++ sep :: q) 58 end) = Some (length p)).
  { destruct Hsep as [-> | ->]; [by rewrite strchr_app|]. rewrite strchr_none, strchr_app; [done|done|].
    intros [?|[H|?]%elem_of_cons]%elem_of_app; done. }
  rewrite Hk, take_app_length, Hx. replace (drop (S (length p)) (p ++ sep :: q)) with q by (clear; induction p; done). rewrite Hy.
  cbn [mbind option_bind]. rewrite Hvf. destruct (Z.ltb_spec y x).
  - rewrite Z.min_r, Z.max_l by lia. done.
  - rewrite Z.min_l, Z.max_r by lia. done.
Qed.

Lemma range_step o f v r e d ret fuel done : range_option o -> range_field f v ->
  handle_values arith kb_base (S fuel) o (Some (f ++ tail_of r)) e d ret done =
    let d := match v with Some (lo, hi) => store_range o lo hi d (done =? 0) (bool_decide (is_Some r)) done | None => d end in
    let ret := if negb (ret =? 0) then match v with Some _ => 0 | None => 1 end else ret in
    match r with
    | Some r => handle_values arith kb_base fuel o (Some r) e d ret (done + 1)
    | None => Some (e, d, ret)
    end.
Proof.
  intros Ho Hf. cbn [handle_values mbind option_bind fmap option_fmap option_map]. rewrite (ro_type _ Ho), next_range by apply Hf.
  destruct r as [r|].
  - rewrite (bool_decide_eq_true_2 (is_Some (Some (length f)))), (bool_decide_eq_true_2 (is_Some (Some r))) by done.
    rewrite (range_value o f v (Some r)) by done. cbn [tail_of]. rewrite drop_field. by destruct v as [[? ?]|].
  - rewrite (bool_decide_eq_false_2 (is_Some None)) by (by intros [? ?]). rewrite (bool_decide_eq_false_2 (is_Some None)) by (by intros [? ?]).
    rewrite (range_value o f v None) by done. by destruct v as [[? ?]|].
Qed.

Definition put_pair (d : data) (p q : Z) (v : option (Z * Z)) : data :=
  match v with Some (x, y) => store_int (store_int d p x false) q y false | None => d end.

Definition placed_pair (d d' : data) (p q : Z) (v : option (Z * Z)) : Prop :=
  match v with
  | Some (x, y) => d' !! p = Some (Num (sgn 32 x)) /\ d' !! q = Some (Num (sgn 32 y))
  | None => d' !! p = d !! p /\ d' !! q = d !! q
  end.

Lemma placed_pairs (d : data) o1 o2 o3 o4 o5 o6 (a b c : option (Z * Z)) : NoDup [o1; o2; o3; o4; o5; o6] ->
  let d' := put_pair (put_pair (put_pair d o1 o2 a) o3 o4 b) o5 o6 c in
  placed_pair d d' o1 o2 a /\ placed_pair d d' o3 o4 b /\ placed_pair d d' o5 o6 c.
Proof.
  intros Hnd. rewrite !list.NoDup_cons, !not_elem_of_cons in Hnd.
  destruct Hnd as ((? & ? & ? & ? & ? & _) & (? & ? & ? & ? & _) & (? & ? & ? & _) & (? & ? & _) & (? & _) & _).
  cbn zeta. unfold placed_pair, put_pair, store_int.
  destruct a as [[? ?]|], b as [[? ?]|], c as [[? ?]|]; split_and!;
    repeat (rewrite lookup_insert_eq || rewrite lookup_insert_ne by done); done.
Qed.

Definition answered_pair (vs : list (option (Z * Z))) : Z := if existsb (fun v => bool_decide (is_Some v)) vs then 0 else 1.

(** Ranges reach the right places: a range option given one to three ranges
    separated by commas sets the minima and maxima of reads, writes and trims
    from left to right, with the two ends in order whichever way round they were
    written; the last range stands for those not given, and an empty field leaves
    its places alone. *)
Theorem range_option_lists o fs vs a b c e d : range_option o -> Forall2 range_field fs vs -> spread vs = Some (a, b, c) ->
  exists d', handle_option arith kb_base o (Some (join fs)) e d = Some (e, d', answered_pair vs) /\
    placed_pair d d' (off1 o) (off2 o) a /\ placed_pair d d' (off3 o) (off4 o) b /\ placed_pair d d' (off5 o) (off6 o) c.
Proof.
  intros Ho Hf Hs. pose proof (ro_offs _ Ho) as Hnd. apply list.NoDup_cons in Hnd as [H0 Hnd].
  rewrite !not_elem_of_cons in H0. destruct H0 as (_ & _ & N3 & N4 & N5 & N6 & _).
  assert (S2 : forall x y d, store_pair d (off3 o) (off4 o) x y = put_pair d (off3 o) (off4 o) (Some (x, y)))
    by (intros; unfold store_pair; rewrite (proj2 (Z.eqb_neq (off3 o) 0)), (proj2 (Z.eqb_neq (off4 o) 0)) by done; done).
  assert (S3 : forall x y d, store_pair d (off5 o) (off6 o) x y = put_pair d (off5 o) (off6 o) (Some (x, y)))
    by (intros; unfold store_pair; rewrite (proj2 (Z.eqb_neq (off5 o) 0)), (proj2 (Z.eqb_neq (off6 o) 0)) by done; done).
  eexists. split; [|by apply (placed_pairs d (off1 o) (off2 o) (off3 o) (off4 o) (off5 o) (off6 o) a b c)].
  unfold handle_option. cbn [from_option id].
  destruct Hf as [|f1 v1 ? ? H1 [|f2 v2 ? ? H2 [|f3 v3 ? ? H3 [|]]]]; try discriminate Hs; injection Hs as <- <- <-; cbn [join].
  - rewrite (range_step o f1 v1) by done. cbn zeta. change (0 =? 0) with true. rewrite (bool_decide_eq_false_2 (is_Some None)) by (by intros [? ?]).
    destruct v1 as [[x y]|]; [|done]. unfold store_range. cbn [Z.eqb Z.ltb Z.compare negb]. by rewrite S2, S3.
  - rewrite (range_step o f1 v1) by done. cbn zeta. change (0 =? 0) with true. rewrite (bool_decide_eq_true_2 (is_Some (Some _))) by done.
    rewrite (length_app f1), length_tail, Nat.add_succ_r, (range_step o f2 v2) by done. cbn zeta. change (0 + 1 =? 0) with false.
    rewrite (bool_decide_eq_false_2 (is_Some None)) by (by intros [? ?]). change (0 + 1) with 1.
    destruct v1 as [[? ?]|], v2 as [[? ?]|]; unfold store_range; cbn [Z.eqb Z.ltb Z.compare Pos.eqb Pos.compare Pos.compare_cont negb]; rewrite ?S2, ?S3; done.
  - rewrite (range_step o f1 v1) by done. cbn zeta. change (0 =? 0) with true. rewrite (bool_decide_eq_true_2 (is_Some (Some _))) by done.
    rewrite (length_app f1), length_tail, Nat.add_succ_r, (range_step o f2 v2) by done. cbn zeta. change (0 + 1 =? 0) with false.
    rewrite (bool_decide_eq_true_2 (is_Some (Some _))) by done.
    rewrite (length_app f2), length_tail, Nat.add_succ_r, Nat.add_succ_r, (range_step o f3 v3) by done. cbn zeta. change (0 + 1 + 1 =? 0) with false.
    rewrite (bool_decide_eq_false_2 (is_Some None)) by (by intros [? ?]). change (0 + 1 + 1) with 2. change (0 + 1) with 1.
    destruct v1 as [[? ?]|], v2 as [[? ?]|], v3 as [[? ?]|]; unfold store_range; cbn [Z.eqb Z.ltb Z.compare Pos.eqb Pos.compare Pos.compare_cont negb];
      rewrite ?S2, ?S3; done.
Qed.
End lists.

(** ** Named values *)
Lemma take_eq_in (l k : list Z) n x : take n l = take n k -> (n <= length l)%nat -> x ∈ take n k -> x ∈ l.
Proof. intros E _ Hx. rewrite <- E in Hx. by apply (subseteq_take n l). Qed.

(** The comparison with the length of the longer text is equality up to the colon. *)
Lemma match_exact iv p : 58 ∉ iv -> 0 ∉ iv -> 0 ∉ p -> strn_eq iv p (str_match_len iv p) = bool_decide (iv = cut p 58).
Proof.
  intros Hc H0 Hp. unfold strn_eq, str_match_len, opt_len. set (c := cut p 58).
  assert (Hpc : exists r, p ++ [0] = c ++ r /\ (hd 0 r = 0 \/ hd 0 r = 58) /\ r <> []).
  { unfold c, cut. destruct (strchr p 58) as [k|] eqn:E; [|exists [0]; split_and!; auto].
    exists (drop k p ++ [0]). rewrite app_assoc, take_drop. split; [done|]. pose proof (strchr_lt _ _ _ E) as Hk.
    destruct (drop k p) as [|x r] eqn:Ed; [apply (f_equal length) in Ed; rewrite length_drop in Ed; cbn in Ed; lia|]. split; [|done]. right. cbn.
    clear c Hp Hk. revert k E Ed. induction p as [|y p IH]; intros k E Ed; [done|]. cbn [strchr] in E.
    destruct (Z.eqb_spec y 58) as [->|]; [injection E as <-; by injection Ed as <- _|].
    destruct (strchr p 58) as [k'|]; [|done]. injection E as <-. by apply (IH k'). }
  assert (Hc0 : 0 ∉ c).
  { unfold c, cut. destruct (strchr p 58) as [k|]; [|done]. intros H. by apply Hp, (subseteq_take k p). }
  destruct Hpc as (r & -> & Hr & Hne). apply bool_decide_ext. split.
  - intros E. destruct (le_lt_dec (length iv) (length c)) as [Hl|Hl].
    + rewrite Nat.max_r, take_app_length in E by lia. destruct (decide (length iv = length c)) as [El|El].
      * by rewrite <- El, take_app_length in E.
      * exfalso. apply Hc0. rewrite <- E. rewrite take_app_ge by lia. apply elem_of_app. right.
        destruct (length c - length iv)%nat eqn:Ek; [lia|]. cbn. by left.
    + exfalso. rewrite Nat.max_l, take_app_length in E by lia. rewrite take_app_ge in E by lia.
      destruct r as [|x r]; [done|]. destruct (length iv - length c)%nat eqn:Ek; [lia|]. cbn [take] in E. cbn in Hr.
      assert (Hx : x ∈ iv) by (rewrite E; apply elem_of_app; right; by left). destruct Hr as [-> | ->]; done.
  - intros ->. rewrite Nat.max_id. by rewrite !take_app_length.
Qed.

Lemma insert_vp_perm v l : insert_vp v l ≡ₚ v :: l.
Proof. induction l as [|w l IH]; [done|]. cbn [insert_vp]. destruct (_ <? _)%nat; [|done]. rewrite IH. constructor. Qed.

(** An option whose values are names. *)
Record str_option (o : fio_option) : Prop := {
  so_type : type o = FIO_OPT_STR;
  so_off : off1 o <> 0;
  so_names : NoDup (ival <$> posval o);
  so_texts : Forall (fun v => ival v <> [] /\ 58 ∉ ival v /\ 0 ∉ ival v /\ orval v = false) (posval o);
  so_some : posval o <> [];
  so_plain : cb o = None /\ opt_verify o = None
}.

Lemma posval_perm o : Forall (fun v => ival v <> []) (posval o) -> posval_sort o ≡ₚ posval o.
Proof.
  intros H. unfold posval_sort. assert (Hu : used_vps (posval o) = posval o).
  { induction H as [|v l Hv _ IH]; [done|]. cbn [used_vps]. by rewrite bool_decide_eq_false_2, IH. }
  rewrite Hu. clear Hu H. induction (posval o) as [|v l IH]; [done|]. cbn [foldr]. by rewrite insert_vp_perm, IH.
Qed.

Lemma pick_name p c off : forall l d r, Forall (fun v => strn_eq (ival v) p (str_match_len (ival v) p) = bool_decide (ival v = c) /\ orval v = false) l ->
  NoDup (ival <$> l) ->
  let res := fold_left (fun '(d, ret) v => if strn_eq (ival v) p (str_match_len (ival v) p) then (store_int d off (oval v) (orval v), 0) else (d, ret)) l (d, r) in
  (forall v, v ∈ l -> ival v = c -> res = (store_int d off (oval v) false, 0)) /\ (c ∉ ival <$> l -> res = (d, r)).
Proof.
  induction l as [|w l IH]; intros d r Hl Hnd; cbn [fold_left fmap list_fmap] in *; [split; [intros v Hv; by apply elem_of_nil in Hv|done]|].
  apply Forall_cons_iff in Hl as [[Hw Hor] Hl]. apply list.NoDup_cons in Hnd as [Hni Hnd]. rewrite Hw, Hor.
  case_bool_decide as Ec.
  - subst c. destruct (IH (store_int d off (oval w) false) 0 Hl Hnd) as [_ H2]. cbn zeta. rewrite H2 by done. split.
    + intros v [->|Hv]%elem_of_cons E; [done|]. exfalso. apply Hni. rewrite <- E. by apply list_elem_of_fmap_2.
    + intros H. exfalso. apply H. by left.
  - destruct (IH d r Hl Hnd) as [H1 H2]. split.
    + intros v [->|Hv]%elem_of_cons E; [done|]. by apply H1.
    + intros H. apply H2. intros H'. apply H. by right.
Qed.

(** Named values match exactly: a text whose part before the first colon is
    one of the option's names stores that name's value, whatever prefixes the
    other names share with it; any other text is refused and changes nothing. *)
Theorem str_option_exact arith kb_base o t e d : str_option o -> 0 ∉ t ->
  (forall v, v ∈ posval o -> ival v = cut t 58 ->
     handle_option arith kb_base o (Some t) e d = Some (e, store_int d (off1 o) (oval v) false, 0)) /\
  (cut t 58 ∉ ival <$> posval o -> handle_option arith kb_base o (Some t) e d = Some (e, d, 1)).
Proof.
  intros [Ht Hoff Hnd Htx Hne [Hcb Hvf]] H0. unfold handle_option. cbn [from_option id handle_values mbind option_bind].
  rewrite Ht. cbn [next_value drop_last_comma fmap option_fmap option_map]. unfold __handle_option, set_str. rewrite Ht, Hcb.
  assert (Hp : posval_sort o ≡ₚ posval o) by (apply posval_perm; eapply Forall_impl; [|exact Htx]; cbn; tauto).
  assert (Hne' : posval_sort o <> []) by (intros E; apply Hne; rewrite E in Hp; by apply Permutation_nil_l in Hp).
  rewrite (bool_decide_eq_false_2 (posval_sort o = [])) by done. cbn [negb andb]. rewrite (proj2 (Z.eqb_neq (off1 o) 0)) by done. cbn [negb].
  destruct (pick_name t (cut t 58) (off1 o) (posval_sort o) d 1) as [H1 H2].
  { apply list.Forall_forall. intros v Hv. rewrite Hp in Hv. rewrite list.Forall_forall in Htx. destruct (Htx v Hv) as (_ & Hc & Hz & Ho).
    split; [by apply match_exact|done]. }
  { by rewrite Hp. }
  cbn zeta in H1, H2. split.
  - intros v Hv Ev. rewrite (H1 v) by (done || by rewrite Hp). cbn [Z.eqb negb andb mbind option_bind]. by rewrite Hvf.
  - intros Hn. rewrite H2 by (by rewrite Hp). done.
Qed.

(** ** From the text of a job file *)
Lemma strip_name n : 59 ∉ n -> 35 ∉ n -> (forall c, list.last n = Some c -> isspace c || iscntrl c = false) -> strip_blank_end n = n.
Proof.
  intros H1 H2 Hl. unfold strip_blank_end, cut. rewrite (strchr_none n 59), (strchr_none n 35) by done.
  destruct n as [|c n _] using rev_ind; [done|]. rewrite last_snoc in Hl. rewrite rev_app_distr. cbn [rev app run_len]. rewrite (Hl c eq_refl).
  cbn [drop]. rewrite bool_decide_eq_false_2 by done. cbn [rev]. by rewrite rev_involutive.
Qed.

(** A line [name=value] sets the option of that name, or of that alias, from
    the text after the equals sign, and leaves the code of the option's handler;
    a name no option has is refused. *)
Theorem parse_option_line arith kb_base options n val e d : 61 ∉ n -> 59 ∉ n -> 35 ∉ n ->
  (forall c, list.last n = Some c -> isspace c || iscntrl c = false) ->
  parse_option arith kb_base (n ++ 61 :: val) options e d =
    match find_option options n with
    | None => Some (e, d, 1)
    | Some o => '(e, d, r) ← handle_option arith kb_base o (Some val) e d; Some (e, d, if negb (r =? 0) then 1 else 0)
    end /\
  (forall o, find_option options n = Some o -> (name o = n \/ alias o = Some n) /\ type o <> FIO_OPT_UNSUPPORTED).
Proof.
  intros H1 H2 H3 Hl. split.
  - unfold parse_option, get_option. rewrite strchr_app, take_app_length, strip_name by done.
    replace (drop (S (length n)) (n ++ 61 :: val)) with val by (clear; induction n; done). by destruct (find_option options n).
  - induction options as [|o options IH]; cbn [find_option]; intros o' H; [done|]. destruct (o_match o n) eqn:E; cbn [negb] in H; [|by apply IH].
    assert (Hm : name o = n \/ alias o = Some n).
    { unfold o_match in E. apply orb_true_iff in E as [E|E]; apply bool_decide_eq_true in E; auto. }
    destruct (type o) eqn:Et; try (injection H as <-; split; [done|by rewrite Et]). by apply IH.
Qed.

(** ** Examples and witnesses *)
Definition no_arith (e : bool) (_ : list Z) (_ _ : bool) : bool * option Z := (e, None).
Definition bare (n : list Z) (t : fio_opt_type) (a b c p q r : Z) (vps : list value_pair) : fio_option :=
  FioOption n None t a b c p q r 0 0 false None None vps None false false false.
(** [bs], [bsrange] and a list of names. *)
Definition opt_bs : fio_option :=
  option_init (FioOption (codes "bs") (Some (codes "blocksize")) FIO_OPT_INT 8 12 16 0 0 0 0 1 false None (Some (codes "4096")) [] None false false false).
Definition opt_bsrange : fio_option := bare (codes "bsrange") FIO_OPT_RANGE 20 24 28 32 36 40 [].
Definition opt_rw : fio_option := bare (codes "rw") FIO_OPT_STR 44 0 0 0 0 0
  [ValuePair (codes "read") 1 false None; ValuePair (codes "readwrite") 3 false None; ValuePair (codes "rw") 3 false None].

Lemma opt_bs_ok : int_option opt_bs.
Proof. split; [done| |done]. apply (bool_decide_unpack _). vm_compute. exact I. Qed.

Ltac decided := apply (bool_decide_unpack _); vm_compute; exact I.

Lemma int_option_lists_witness :
  exists d', handle_option no_arith 1024 opt_bs (Some (codes "4k,,8K")) false ∅ = Some (false, d', 0) /\
    d' !! 8 = Some (Num 4096) /\ d' !! 12 = None /\ d' !! 16 = Some (Num 8192).
Proof.
  destruct (int_option_lists no_arith 1024 opt_bs [codes "4k"; []; codes "8K"] [Some 4096; None; Some 8192] (Some 4096) None (Some 8192) false ∅)
    as (d' & E & H1 & H2 & H3 & _).
  - exact opt_bs_ok.
  - constructor; [|constructor; [|constructor; [|constructor]]].
    + split; [split_and!; decided|]. split; [vm_compute; lia|]. split; [vm_compute; reflexivity|]. intros []; vm_compute; reflexivity.
    + split; [split_and!; decided|]. split; [vm_compute; lia|reflexivity].
    + split; [split_and!; decided|]. split; [vm_compute; lia|]. split; [vm_compute; reflexivity|]. intros []; vm_compute; reflexivity.
  - reflexivity.
  - exists d'. split; [exact E|]. split; [exact H1|]. split; [exact H2|exact H3].
Defined.

Lemma range_option_lists_witness :
  exists d', handle_option no_arith 1024 opt_bsrange (Some (codes "8k-4k,1k:2k")) false ∅ = Some (false, d', 0) /\
    (d' !! 20 = Some (Num 4096) /\ d' !! 24 = Some (Num 8192)) /\ (d' !! 36 = Some (Num 1024) /\ d' !! 40 = Some (Num 2048)).
Proof.
  destruct (range_option_lists no_arith 1024 opt_bsrange [codes "8k-4k"; codes "1k:2k"] [Some (4096, 8192); Some (1024, 2048)]
    (Some (4096, 8192)) (Some (1024, 2048)) (Some (1024, 2048)) false ∅) as (d' & E & H1 & _ & H3).
  - split; [done|decided|done].
  - constructor; [|constructor; [|constructor]].
    + split; [decided|]. split; [vm_compute; lia|]. exists (codes "8k"), (codes "4k"), 45, 8192, 4096.
      split; [reflexivity|]. split; [by left|]. split; [split_and!; decided|]. split; [split_and!; decided|].
      split; [intros []; vm_compute; reflexivity|]. split; [intros []; vm_compute; reflexivity|done].
    + split; [decided|]. split; [vm_compute; lia|]. exists (codes "1k"), (codes "2k"), 58, 1024, 2048.
      split; [reflexivity|]. split; [by right|]. split; [split_and!; decided|]. split; [split_and!; decided|].
      split; [intros []; vm_compute; reflexivity|]. split; [intros []; vm_compute; reflexivity|done].
  - reflexivity.
  - exists d'. split; [exact E|]. split; [exact H1|exact H3].
Defined.

Lemma str_option_exact_witness :
  handle_option no_arith 1024 opt_rw (Some (codes "read:8")) false ∅ = Some (false, store_int ∅ 44 1 false, 0) /\
  handle_option no_arith 1024 opt_rw (Some (codes "readw")) false ∅ = Some (false, ∅, 1).
Proof.
  assert (Ho : str_option opt_rw).
  { split; [done|done|decided| |done|done]. repeat (apply list.Forall_cons; split); [..|constructor]; split_and!; (done || decided). }
  destruct (str_option_exact no_arith 1024 opt_rw (codes "read:8") false ∅ Ho ltac:(decided)) as [H1 _].
  destruct (str_option_exact no_arith 1024 opt_rw (codes "readw") false ∅ Ho ltac:(decided)) as [_ H2]. split.
  - apply (H1 (ValuePair (codes "read") 1 false None)); [by left|vm_compute; reflexivity].
  - apply H2. decided.
Defined.

Lemma parse_option_line_witness :
  exists d', parse_option no_arith 1024 (codes "bs=64k") [opt_rw; opt_bs] false ∅ = Some (false, d', 0) /\ d' !! 16 = Some (Num 65536).
Proof.
  destruct (parse_option_line no_arith 1024 [opt_rw; opt_bs] (codes "bs") (codes "64k") false ∅) as [E _];
    [decided|decided|decided|by intros c [= <-]|].
  eexists. split; [change (codes "bs=64k") with (codes "bs" ++ 61 :: codes "64k"); rewrite E; vm_compute; reflexivity|vm_compute; reflexivity].
Defined.

(** A blank after the equals sign loses the unit: [bs= 4k] is accepted and
    sets four bytes. *)
Theorem blank_loses_unit :
  exists d', parse_option no_arith 1024 (codes "bs= 4k") [opt_rw; opt_bs] false ∅ = Some (false, d', 0) /\ d' !! 8 = Some (Num 4).
Proof. eexists. split; vm_compute; reflexivity. Qed.
