(* ===== verification/Ieee754.v ===== *)
(** * Doubles on the wire: [lib/ieee754.c]

    [pack754] and [unpack754], which carry the floating-point options between
    client and server.  The arithmetic is that of [long double]; every operation
    on a value that is a finite double is exact there (a change of exponent, the
    subtraction of the leading one, a product with a power of two), so values are
    rationals.  The two normalising loops take fuel: 1100 steps are enough for
    every double. *)
From Stdlib Require Import QArith Qround Lqa.
From S2P Require Import Prelude.

(** ** The code *)
Fixpoint halve (fuel : nat) (f : Q) (shift : Z) : option (Q * Z) :=
  if Qle_bool 2 f then
    match fuel with O => None | S fuel => halve fuel (f / 2) (shift + 1) end
  else Some (f, shift).

Fixpoint twice (fuel : nat) (f : Q) (shift : Z) : option (Q * Z) :=
  if negb (Qle_bool 1 f) then
    match fuel with O => None | S fuel => twice fuel (f * 2) (shift - 1) end
  else Some (f, shift).

Definition loop_fuel : nat := 1100.

(** [(1LL << significandbits) + 0.5f] is a [float], and so the power of two. *)
Definition pack754 (f : Q) (bits expbits : Z) : option Z :=
  let significandbits := bits - expbits - 1 in
  if Qeq_bool f 0 then Some 0 else
  let '(sign, fnorm) := if negb (Qle_bool 0 f) then (1, (- f)%Q) else (0, f) in
  '(fnorm, shift) ← halve loop_fuel fnorm 0;
  '(fnorm, shift) ← twice loop_fuel fnorm shift;
  let fnorm := (fnorm - 1)%Q in
  let significand := Qfloor (fnorm * inject_Z (2 ^ significandbits)) in
  let exp := shift + (2 ^ (expbits - 1) - 1) in
  Some (Z.lor (Z.lor (shl 64 sign (bits - 1)) (shl 64 exp (bits - expbits - 1))) significand).

Definition unpack754 (i bits expbits : Z) : Q :=
  let significandbits := bits - expbits - 1 in
  if i =? 0 then 0 else
  let result := (inject_Z (Z.land i (2 ^ significandbits - 1)) / inject_Z (2 ^ significandbits) + 1)%Q in
  let bias := 2 ^ (expbits - 1) - 1 in
  let shift := sgn 64 (Z.land (Z.shiftr i significandbits) (2 ^ expbits - 1) - bias) in
  let result := Nat.iter (Z.to_nat shift) (fun r => r * 2)%Q result in
  let result := Nat.iter (Z.to_nat (- shift)) (fun r => r / 2)%Q result in
  (result * (if negb (Z.land (Z.shiftr i (bits - 1)) 1 =? 0) then -1 else 1))%Q.

Definition fio_double_to_uint64 (f : Q) : option Z := pack754 f 64 11.
Definition fio_uint64_to_double (i : Z) : Q := unpack754 i 64 11.

(** ** Powers of two *)
Definition times2 (n : nat) (q : Q) : Q := Nat.iter n (fun r => r * 2)%Q q.
Definition over2 (n : nat) (q : Q) : Q := Nat.iter n (fun r => r / 2)%Q q.

Lemma times2_Proper n q q' : (q == q')%Q -> (times2 n q == times2 n q')%Q.
Proof. intros H. unfold times2. induction n as [|n IH]; [done|]. simpl. by rewrite IH. Qed.

Lemma over2_Proper n q q' : (q == q')%Q -> (over2 n q == over2 n q')%Q.
Proof. intros H. unfold over2. induction n as [|n IH]; [done|]. simpl. by rewrite IH. Qed.

Lemma times2_in n q : (times2 (S n) q == times2 n (q * 2))%Q.
Proof. unfold times2. induction n as [|n IH]; [done|]. simpl in *. by rewrite IH. Qed.

Lemma over2_in n q : (over2 (S n) q == over2 n (q / 2))%Q.
Proof. unfold over2. induction n as [|n IH]; [done|]. simpl in *. by rewrite IH. Qed.

Lemma times2_ge n q : (1 <= q -> 1 <= times2 n q)%Q.
Proof. intros H. unfold times2. induction n as [|n IH]; [done|]. simpl. lra. Qed.

Lemma half_eq q : (q / 2 == q * (1 # 2))%Q.
Proof. field. Qed.

Lemma over2_lt n q : (0 < q < 2 -> 0 < over2 n q < 2)%Q.
Proof.
  intros H. unfold over2. induction n as [|n IH]; [done|]. simpl. pose proof (half_eq (Nat.iter n (fun r => r / 2)%Q q)). lra.
Qed.

Lemma Qle_bool_ext a b b' : (b == b')%Q -> Qle_bool a b = Qle_bool a b'.
Proof. intros H. by rewrite H. Qed.

Lemma Qle_bool_false a b : (b < a)%Q -> Qle_bool a b = false.
Proof. intros H. destruct (Qle_bool a b) eqn:E; [|done]. apply Qle_bool_iff in E. lra. Qed.

(** ** The loops *)
Lemma halve_ok n : forall fuel f x s, (n <= fuel)%nat -> (1 <= x < 2)%Q -> (f == times2 n x)%Q ->
  exists g, halve fuel f s = Some (g, s + Z.of_nat n) /\ (g == x)%Q.
Proof.
  induction n as [|n IH]; intros fuel f x s Hf Hx Hq.
  - exists f. split; [|done]. assert (E : Qle_bool 2 f = false) by (apply Qle_bool_false; simpl in Hq; lra).
    replace (s + Z.of_nat 0) with s by lia. destruct fuel; simpl; by rewrite E.
  - assert (E : Qle_bool 2 f = true).
    { apply Qle_bool_iff. pose proof (times2_ge n x (proj1 Hx)). unfold times2 in *. simpl in Hq. lra. }
    destruct fuel as [|fuel]; [lia|]. simpl. rewrite E.
    destruct (IH fuel (f / 2)%Q x (s + 1) ltac:(lia) Hx) as (g & Hg & Hgx).
    { unfold times2 in *. simpl in Hq. rewrite Hq. field. }
    exists g. split; [|done]. rewrite Hg. do 2 f_equal. lia.
Qed.

Lemma twice_ok n : forall fuel f x s, (n <= fuel)%nat -> (1 <= x < 2)%Q -> (f == over2 n x)%Q ->
  exists g, twice fuel f s = Some (g, s - Z.of_nat n) /\ (g == x)%Q.
Proof.
  induction n as [|n IH]; intros fuel f x s Hf Hx Hq.
  - exists f. split; [|done]. assert (E : Qle_bool 1 f = true) by (apply Qle_bool_iff; simpl in Hq; lra).
    replace (s - Z.of_nat 0) with s by lia. destruct fuel; simpl; by rewrite E.
  - assert (E : Qle_bool 1 f = false).
    { apply Qle_bool_false. pose proof (over2_lt n x ltac:(lra)) as H. unfold over2 in *. simpl in Hq. pose proof (half_eq (Nat.iter n (fun r => r / 2)%Q x)). lra. }
    destruct fuel as [|fuel]; [lia|]. simpl. rewrite E. simpl.
    destruct (IH fuel (f * 2)%Q x (s - 1) ltac:(lia) Hx) as (g & Hg & Hgx).
    { unfold over2 in *. simpl in Hq. rewrite Hq. field. }
    exists g. split; [|done]. rewrite Hg. do 2 f_equal. lia.
Qed.

(** ** Bit patterns *)
Lemma lor_high a b k : 0 <= k -> 0 <= b < 2 ^ k -> Z.lor (a * 2 ^ k) b = a * 2 ^ k + b.
Proof.
  intros Hk Hb. rewrite <- Z.lxor_lor, Z.add_nocarry_lxor; [done| |].
  all: apply Z.bits_inj'; intros i Hi; rewrite Z.land_spec, Z.bits_0, <- Z.shiftl_mul_pow2 by lia;
    destruct (Z.lt_ge_cases i k); [by rewrite Z.shiftl_spec_low by lia|].
  all: assert (Z.testbit b i = false) as ->; [|by rewrite andb_false_r].
  all: apply (uint_testbit_high k); [unfold uint; lia|lia].
Qed.

(** The IEEE 754 pattern of a normal double. *)
Definition ieee_bits (s : bool) (e m : Z) : Z := (Z.b2z s * 2 ^ 11 + (e + 1023)) * 2 ^ 52 + (m - 2 ^ 52).

Section bits.
Context (s : bool) (e m : Z).
Hypothesis Hm : 2 ^ 52 <= m < 2 ^ 53.
Hypothesis He : -1022 <= e <= 1023.

Lemma bits_lor : Z.lor (Z.lor (shl 64 (Z.b2z s) 63) (shl 64 (e + 1023) 52)) (m - 2 ^ 52) = ieee_bits s e m.
Proof.
  unfold shl. rewrite !Z.shiftl_mul_pow2 by lia. assert (Hs : 0 <= Z.b2z s <= 1) by (destruct s; simpl; lia).
  rewrite !wrap_small by (unfold uint; lia). replace (Z.b2z s * 2 ^ 63) with (Z.b2z s * 2 ^ 11 * 2 ^ 52) by lia.
  rewrite <- !Z.shiftl_mul_pow2, <- Z.shiftl_lor, !Z.shiftl_mul_pow2 by lia. rewrite (lor_high _ (e + 1023)) by lia.
  rewrite lor_high by lia. unfold ieee_bits. lia.
Qed.

Lemma bits_uint : uint 64 (ieee_bits s e m) /\ ieee_bits s e m <> 0.
Proof. unfold uint, ieee_bits. assert (0 <= Z.b2z s <= 1) by (destruct s; simpl; lia). lia. Qed.

Lemma bits_low : Z.land (ieee_bits s e m) (2 ^ 52 - 1) = m - 2 ^ 52.
Proof.
  replace (2 ^ 52 - 1) with (Z.ones 52) by reflexivity. rewrite Z.land_ones by lia. unfold ieee_bits.
  rewrite Z.add_comm, Z.mod_add, Z.mod_small by lia. done.
Qed.

Lemma bits_high : Z.shiftr (ieee_bits s e m) 52 = Z.b2z s * 2 ^ 11 + (e + 1023).
Proof. rewrite Z.shiftr_div_pow2 by lia. unfold ieee_bits. rewrite Z.div_add_l, Z.div_small by lia. lia. Qed.

Lemma bits_exp : Z.land (Z.shiftr (ieee_bits s e m) 52) (2 ^ 11 - 1) = e + 1023.
Proof.
  rewrite bits_high. replace (2 ^ 11 - 1) with (Z.ones 11) by reflexivity. rewrite Z.land_ones by lia.
  rewrite Z.add_comm, Z.mod_add, Z.mod_small by lia. done.
Qed.

Lemma bits_sign : Z.land (Z.shiftr (ieee_bits s e m) 63) 1 = Z.b2z s.
Proof.
  replace 63 with (52 + 11) by lia. rewrite <- Z.shiftr_shiftr, bits_high by lia. rewrite Z.shiftr_div_pow2, Z.div_add_l, Z.div_small by lia.
  rewrite Z.add_0_r. by destruct s.
Qed.
End bits.

(** ** Round trip *)
Definition scale (e : Z) (q : Q) : Q := if 0 <=? e then times2 (Z.to_nat e) q else over2 (Z.to_nat (- e)) q.

(** The value of a normal double with sign [s], exponent [e] and significand [m]. *)
Definition double_value (s : bool) (e m : Z) : Q := ((if s then -1 else 1) * scale e (inject_Z m / inject_Z (2 ^ 52)))%Q.

Lemma scale_pos e q : (0 < q -> 0 < scale e q)%Q.
Proof.
  intros H. unfold scale. destruct (0 <=? e).
  - unfold times2. induction (Z.to_nat e) as [|n IH]; [done|]. simpl. lra.
  - unfold over2. induction (Z.to_nat (- e)) as [|n IH]; [done|]. simpl. pose proof (half_eq (Nat.iter n (fun r => r / 2)%Q q)). lra.
Qed.

Lemma normalise f e x : (1 <= x < 2)%Q -> -1022 <= e <= 1023 -> (f == scale e x)%Q ->
  exists g g', halve loop_fuel f 0 = Some (g, Z.max e 0) /\ twice loop_fuel g (Z.max e 0) = Some (g', e) /\ (g' == x)%Q.
Proof.
  intros Hx He Hf. unfold scale in Hf. unfold loop_fuel. destruct (Z.leb_spec 0 e).
  - destruct (halve_ok (Z.to_nat e) 1100 f x 0 ltac:(lia) Hx Hf) as (g & Hg & Hgx). rewrite Z2Nat.id in Hg by lia.
    destruct (twice_ok 0 1100 g x e ltac:(lia) Hx Hgx) as (g' & Hg' & Hgx'). exists g, g'. rewrite Z.max_l by lia.
    rewrite Hg, Hg'. split; [done|]. split; [|done]. do 2 f_equal. lia.
  - destruct (Z.to_nat (- e)) as [|n] eqn:En; [lia|]. pose proof (over2_lt n x ltac:(lra)) as Hlt.
    assert (Hf2 : (f < 2)%Q) by (unfold over2 in *; simpl in Hf; pose proof (half_eq (Nat.iter n (fun r => r / 2)%Q x)); lra).
    exists f. destruct (twice_ok (S n) 1100 f x 0 ltac:(lia) Hx Hf) as (g' & Hg' & Hgx'). exists g'. rewrite Z.max_r by lia. split; [|split; [|done]].
    + cbn [halve]. by rewrite Qle_bool_false.
    + rewrite Hg'. do 2 f_equal. lia.
Qed.

Lemma significand_ok m g : 2 ^ 52 <= m < 2 ^ 53 -> (g == inject_Z m / inject_Z (2 ^ 52))%Q ->
  Qfloor ((g - 1) * inject_Z (2 ^ 52)) = m - 2 ^ 52.
Proof.
  intros Hm Hg. rewrite <- (Qfloor_Z (m - 2 ^ 52)). apply Qfloor_comp. unfold Z.sub. rewrite Hg, inject_Z_plus, inject_Z_opp. field. done.
Qed.

Lemma double_bits s e m f : 2 ^ 52 <= m < 2 ^ 53 -> -1022 <= e <= 1023 -> (f == double_value s e m)%Q ->
  fio_double_to_uint64 f = Some (ieee_bits s e m) /\ (fio_uint64_to_double (ieee_bits s e m) == f)%Q.
Proof.
  intros Hm He Hf. set (x := (inject_Z m / inject_Z (2 ^ 52))%Q) in *.
  assert (Hx : (1 <= x < 2)%Q).
  { unfold x. split; [apply Qle_shift_div_l; [done|]|apply Qlt_shift_div_r; [done|]]; unfold Qle, Qlt; simpl; lia. }
  pose proof (scale_pos e x ltac:(lra)) as Hpos. unfold double_value in Hf. fold x in Hf. split.
  - unfold fio_double_to_uint64, pack754. change (64 - 11 - 1) with 52.
    assert (Hz : Qeq_bool f 0 = false).
    { apply not_true_iff_false. intros E%Qeq_bool_iff. destruct s; lra. }
    rewrite Hz. assert (Hsign : (if negb (Qle_bool 0 f) then (1, (- f)%Q) else (0, f)) = (Z.b2z s, if s then (- f)%Q else f)).
    { destruct s; [rewrite Qle_bool_false by lra; done|]. assert (Qle_bool 0 f = true) as -> by (apply Qle_bool_iff; lra). done. }
    rewrite Hsign. destruct (normalise (if s then (- f)%Q else f) e x Hx He) as (g & g' & -> & E2 & Hg'); [destruct s; lra|].
    cbn [mbind option_bind]. rewrite E2. cbn [mbind option_bind]. rewrite (significand_ok m g' Hm Hg').
    change (2 ^ (11 - 1) - 1) with 1023. change (64 - 1) with 63. f_equal. by apply bits_lor.
  - unfold fio_uint64_to_double, unpack754. change (64 - 11 - 1) with 52. destruct (bits_uint s e m Hm He) as [_ Hnz].
    rewrite (proj2 (Z.eqb_neq _ 0) Hnz), bits_low, bits_exp, bits_sign by done. change (2 ^ (11 - 1) - 1) with 1023.
    rewrite sgn_small by lia. replace (e + 1023 - 1023) with e by lia.
    assert (Hr : (inject_Z (m - 2 ^ 52) / inject_Z (2 ^ 52) + 1 == x)%Q).
    { unfold x. unfold Z.sub. rewrite inject_Z_plus, inject_Z_opp. field. done. }
    set (r := (inject_Z (m - 2 ^ 52) / inject_Z (2 ^ 52) + 1)%Q) in *. fold (times2 (Z.to_nat e) r). fold (over2 (Z.to_nat (- e)) (times2 (Z.to_nat e) r)).
    assert (Hsc : (over2 (Z.to_nat (- e)) (times2 (Z.to_nat e) r) == scale e x)%Q).
    { unfold scale. destruct (Z.leb_spec 0 e).
      - replace (Z.to_nat (- e)) with 0%nat by lia. by apply times2_Proper.
      - replace (Z.to_nat e) with 0%nat by lia. by apply over2_Proper. }
    rewrite Hsc, Hf. destruct s; simpl; lra.
Qed.

(** Doubles survive the wire: [pack754] of a normal double is its IEEE 754 bit
    pattern, whatever the host's own format, and [unpack754] gives the value
    back. *)
Theorem double_roundtrip s e m f : 2 ^ 52 <= m < 2 ^ 53 -> -1022 <= e <= 1023 -> (f == double_value s e m)%Q ->
  fio_double_to_uint64 f = Some (ieee_bits s e m) /\ (fio_uint64_to_double (ieee_bits s e m) == f)%Q.
Proof. exact (double_bits s e m f). Qed.

Lemma double_roundtrip_witness : fio_double_to_uint64 (95 # 1) = Some (ieee_bits false 6 (95 * 2 ^ 46)) /\
  (fio_uint64_to_double (ieee_bits false 6 (95 * 2 ^ 46)) == 95 # 1)%Q.
Proof.
  exact (double_roundtrip false 6 (95 * 2 ^ 46) (95 # 1) ltac:(vm_compute; split; [discriminate|reflexivity]) ltac:(lia) ltac:(vm_compute; reflexivity)).
Defined.

(** Denormal doubles do not survive: the exponent field is shifted in without
    its lower bound, so that 2^-1023 becomes 0 and 2^-1024 a huge negative
    number. *)
Theorem denormals_garbled :
  fio_double_to_uint64 (over2 1023 1) = Some 0 /\
  exists i, fio_double_to_uint64 (over2 1024 1) = Some i /\ (fio_uint64_to_double i < -1)%Q.
Proof.
  split; [vm_compute; reflexivity|]. exists 18442240474082181120. split; [vm_compute; reflexivity|].
  apply Qnot_le_lt. rewrite <- Qle_bool_iff. vm_compute. discriminate.
Qed.
