(* ===== verification/Cconv.v ===== *)
(** * Options on the wire: [cconv.c]

    The conversion of [struct thread_options] to and from the packed structure
    client and server exchange.  The code is one assignment per field, and so is
    the model: a table of lines for each direction, run in order over structures
    that map field names to values, or to the bytes they have in memory.  Hosts
    may be of either byte order.  The pointer arrays [bssplit] and [zone_split] and
    the whole conversions are in [CconvSplit]. *)
From Stdlib Require Import String QArith.
From S2P Require Import Prelude Ieee754.

(** ** Byte order: [os/os.h] *)
Definition fio_swap32 (val : Z) : Z :=
  let val := Z.lor (Z.shiftr (Z.land val 0xff00ff00) 8) (shl 32 (Z.land val 0x00ff00ff) 8) in
  Z.lor (Z.shiftr val 16) (shl 32 val 16).

Definition fio_swap64 (val : Z) : Z :=
  let val := Z.lor (Z.shiftr (Z.land val 0xff00ff00ff00ff00) 8) (shl 64 (Z.land val 0x00ff00ff00ff00ff) 8) in
  let val := Z.lor (Z.shiftr (Z.land val 0xffff0000ffff0000) 16) (shl 64 (Z.land val 0x0000ffff0000ffff) 16) in
  Z.lor (Z.shiftr val 32) (shl 64 val 32).

(** [big] says that the host is big-endian; the functions of the other direction
    are the same. *)
Definition cpu_to_le32 (big : bool) (x : Z) : Z := if big then fio_swap32 x else x.
Definition cpu_to_le64 (big : bool) (x : Z) : Z := if big then fio_swap64 x else x.
Definition le32_to_cpu (big : bool) (x : Z) : Z := if big then fio_swap32 x else x.
Definition le64_to_cpu (big : bool) (x : Z) : Z := if big then fio_swap64 x else x.

(** A word in the memory of a host. *)
Definition put_word (big : bool) (n : nat) (x : Z) : list Z := if big then rev (le_bytes n x) else le_bytes n x.
Definition get_word (big : bool) (l : list Z) : Z := le_val (if big then rev l else l).

(** ** Structures *)
Inductive val :=
| VInt (x : Z)
| VInts (l : list Z)
| VDbl (q : Q)
| VDbls (l : list Q)
| VStr (s : option (list Z))
| VMem (b : list Z).

Definition opts := string -> val.
Definition pack := string -> list Z.
Definition upd {A} (m : string -> A) (f : string) (v : A) : string -> A := fun g => if String.eqb f g then v else m g.

Definition FIO_TOP_STR_MAX : nat := 256.

Definition __string_to_net (dst : list Z) (src : option (list Z)) : list Z :=
  match src with
  | Some s => let s := take (FIO_TOP_STR_MAX - 1) s in s ++ replicate (FIO_TOP_STR_MAX - length s) 0
  | None => 0 :: drop 1 dst
  end.

Fixpoint c_text (b : list Z) : list Z := match b with c :: b => if c =? 0 then [] else c :: c_text b | [] => [] end.
(** A string that does not end in its field: [strlen] reads past it. *)
Definition ends (src : list Z) : bool := existsb (Z.eqb 0) src.
Definition string_to_cpu (dst : val) (src : list Z) : option val :=
  if negb (ends src) then None else Some (if bool_decide (c_text src = []) then dst else VStr (Some (c_text src))).

(** ** To the wire *)
Inductive source := FromO | FromTop.

(** [N32 f FromTop] is [top->f = cpu_to_le32(top->f)]; the lines with an s are the
    loops over the elements of an array. *)
Inductive net_line :=
| N32 (f : string) (s : source) | N64 (f : string) (s : source) | NFp (f : string) | NStr (f : string) | NMem (f : string)
| N32s (f : string) | N64s (f : string) | NFps (f : string).

Definition net_field (l : net_line) : string :=
  match l with N32 f _ | N64 f _ | NFp f | NStr f | NMem f | N32s f | N64s f | NFps f => f end.

Section host.
Context (big : bool).

Definition put_double (old : list Z) (q : Q) : option (list Z) :=
  i ← fio_double_to_uint64 q; Some (put_word big 8 (cpu_to_le64 big i) ++ drop 8 old).

(** The elements of an array of doubles are 16 bytes wide. *)
Fixpoint put_doubles (old : list Z) (l : list Q) : option (list Z) :=
  match l with
  | [] => Some old
  | q :: l => a ← put_double (take 16 old) q; r ← put_doubles (drop 16 old) l; Some (a ++ r)
  end.

(** The bytes a line leaves in its field. *)
Definition net_bytes (top : pack) (o : opts) (l : net_line) : option (list Z) :=
  match l with
  | N32 f FromO => match o f with VInt x => Some (put_word big 4 (cpu_to_le32 big (u32 x))) | _ => None end
  | N32 f FromTop => Some (put_word big 4 (cpu_to_le32 big (get_word big (top f))))
  | N64 f FromO => match o f with VInt x => Some (put_word big 8 (cpu_to_le64 big (u64 x))) | _ => None end
  | N64 f FromTop => Some (put_word big 8 (cpu_to_le64 big (get_word big (top f))))
  | NFp f => match o f with VDbl q => put_double (top f) q | _ => None end
  | NStr f => match o f with VStr s => Some (__string_to_net (top f) s) | _ => None end
  | NMem f => match o f with VMem b => Some b | _ => None end
  | N32s f => match o f with VInts l => Some (l ≫= fun x => put_word big 4 (cpu_to_le32 big (u32 x))) | _ => None end
  | N64s f => match o f with VInts l => Some (l ≫= fun x => put_word big 8 (cpu_to_le64 big (u64 x))) | _ => None end
  | NFps f =>
      match o f with
      | VDbls l => put_doubles (top f) l
      | _ => None
      end
  end.

Fixpoint run_net (lines : list net_line) (top : pack) (o : opts) : option pack :=
  match lines with
  | [] => Some top
  | l :: lines => b ← net_bytes top o l; run_net lines (upd top (net_field l) b) o
  end.

(** ** From the wire *)
Inductive cpu_line :=
| C32 (f : string) | C64 (f : string) | CFp (f : string) | CStr (f : string) | CMem (f : string)
| C32s (f : string) | C64s (f : string) | CFps (f : string).

Definition cpu_field (l : cpu_line) : string := match l with C32 f | C64 f | CFp f | CStr f | CMem f | C32s f | C64s f | CFps f => f end.

(** The fields whose type is signed. *)
Definition signed (f : string) : bool :=
  String.eqb f "flow_id" || String.eqb f "flow" || String.eqb f "flow_watermark" || String.eqb f "ddir_seq_add".

(** Pieces of [n] bytes. *)
Fixpoint pieces (fuel n : nat) (b : list Z) : list (list Z) :=
  match fuel, b with
  | S fuel, _ :: _ => take n b :: pieces fuel n (drop n b)
  | _, _ => []
  end.

Definition get32 (b : list Z) : Z := le32_to_cpu big (get_word big b).
Definition get64 (b : list Z) : Z := le64_to_cpu big (get_word big b).

Definition cpu_val (o : opts) (top : pack) (l : cpu_line) : val :=
  match l with
  | C32 f => VInt (if signed f then sgn 32 (get32 (top f)) else get32 (top f))
  | C64 f => VInt (if signed f then sgn 64 (get64 (top f)) else get64 (top f))
  | CFp f => VDbl (fio_uint64_to_double (get64 (take 8 (top f))))
  | CStr f => default (o f) (string_to_cpu (o f) (top f))
  | CMem f => VMem (top f)
  | C32s f => VInts (get32 <$> pieces (length (top f)) 4 (top f))
  | C64s f => VInts (get64 <$> pieces (length (top f)) 8 (top f))
  | CFps f => VDbls ((fun b => fio_uint64_to_double (get64 (take 8 b))) <$> pieces (length (top f)) 16 (top f))
  end.

Fixpoint run_cpu (lines : list cpu_line) (o : opts) (top : pack) : opts :=
  match lines with
  | [] => o
  | l :: lines => run_cpu lines (upd o (cpu_field l) (cpu_val o top l)) top
  end.
End host.

(** ** The lines of the two functions *)
Definition net_lines1 : list net_line :=
  [N64s "set_options"; NStr "description"; NStr "name"; NStr "wait_for"; NStr "directory"; NStr "filename";
   NStr "filename_format"; NStr "opendir"; NStr "ioengine"; NStr "mmapfile"; NStr "read_iolog_file";
   NStr "write_iolog_file"; NStr "bw_log_file"; NStr "lat_log_file"; NStr "iops_log_file"; NStr "hist_log_file";
   NStr "replay_redirect"; NStr "exec_prerun"; NStr "exec_postrun"; NStr "ioscheduler"; NStr "profile";
   NStr "cgroup"; N32 "allow_create" FromO; N32 "allow_mounted_write" FromO; N32 "td_ddir" FromO; N32 "rw_seq" FromO;
   N32 "kb_base" FromO; N32 "unit_base" FromO; N32 "ddir_seq_nr" FromO; N32 "iodepth" FromO; N32 "iodepth_low" FromO;
   N32 "iodepth_batch" FromO; N32 "iodepth_batch_complete_min" FromO; N32 "iodepth_batch_complete_max" FromO;
   N32 "serialize_overlap" FromO; N32 "size_percent" FromO; N32 "fill_device" FromO; N32 "file_append" FromO;
   N32 "ratecycle" FromO; N32 "io_submit_mode" FromO; N32 "nr_files" FromO; N32 "unique_filename" FromO;
   N32 "open_files" FromO; N32 "file_lock_mode" FromO; N32 "odirect" FromO; N32 "oatomic" FromO;
   N32 "invalidate_cache" FromO; N32 "create_serialize" FromO; N32 "create_fsync" FromO; N32 "create_on_open" FromO;
   N32 "create_only" FromO; N32 "end_fsync" FromO; N32 "pre_read" FromO; N32 "sync_io" FromO; N32 "write_hint" FromO;
   N32 "verify" FromO; N32 "do_verify" FromO; N32 "verifysort" FromO; N32 "verifysort_nr" FromO;
   N32 "experimental_verify" FromO; N32 "verify_state" FromO; N32 "verify_interval" FromO; N32 "verify_offset" FromO;
   N32 "verify_pattern_bytes" FromO; N32 "verify_fatal" FromO; N32 "verify_dump" FromO; N32 "verify_async" FromO;
   N32 "verify_batch" FromO; N32 "use_thread" FromO; N32 "unlink" FromO; N32 "unlink_each_loop" FromO;
   N32 "do_disk_util" FromO; N32 "override_sync" FromO; N32 "rand_repeatable" FromO; N32 "allrand_repeatable" FromO;
   N64 "rand_seed" FromO; N32 "log_avg_msec" FromO; N32 "log_max" FromO; N32 "log_offset" FromO; N32 "log_gz" FromO;
   N32 "log_gz_store" FromO; N32 "log_unix_epoch" FromO].
Definition net_lines2 : list net_line :=
  [N32 "norandommap" FromO; N32 "softrandommap" FromO; N32 "bs_unaligned" FromO; N32 "fsync_on_close" FromO;
   N32 "bs_is_seq_rand" FromO; N32 "random_distribution" FromO; N32 "exitall_error" FromO; NFp "zipf_theta";
   NFp "pareto_h"; NFp "gauss_dev"; N32 "random_generator" FromO; N32 "hugepage_size" FromO; N32 "rw_min_bs" FromO;
   N32 "thinktime" FromO; N32 "thinktime_spin" FromO; N32 "thinktime_blocks" FromO; N32 "fsync_blocks" FromO;
   N32 "fdatasync_blocks" FromO; N32 "barrier_blocks" FromO; N32 "overwrite" FromO; N32 "bw_avg_time" FromO;
   N32 "iops_avg_time" FromO; N32 "loops" FromO; N32 "mem_type" FromO; N32 "mem_align" FromO; N32 "stonewall" FromO;
   N32 "new_group" FromO; N32 "numjobs" FromO; N32 "cpus_allowed_policy" FromO; N32 "gpu_dev_id" FromO;
   N32 "iolog" FromO; N32 "rwmixcycle" FromO; N32 "nice" FromO; N32 "ioprio" FromO; N32 "ioprio_class" FromO;
   N32 "file_service_type" FromO; N32 "group_reporting" FromO; N32 "stats" FromO; N32 "fadvise_hint" FromO;
   N32 "fallocate_mode" FromO; N32 "zero_buffers" FromO; N32 "refill_buffers" FromO; N32 "scramble_buffers" FromO;
   N32 "buffer_pattern_bytes" FromO; N32 "time_based" FromO; N32 "disable_lat" FromO; N32 "disable_clat" FromO;
   N32 "disable_slat" FromO; N32 "disable_bw" FromO; N32 "unified_rw_rep" FromO; N32 "gtod_reduce" FromO;
   N32 "gtod_cpu" FromO; N32 "clocksource" FromO; N32 "no_stall" FromO; N32 "trim_percentage" FromO;
   N32 "trim_batch" FromO; N32 "trim_zero" FromO; N32 "clat_percentiles" FromO; N32 "lat_percentiles" FromO;
   N32 "percentile_precision" FromO; N32 "sig_figs" FromO; N32 "continue_on_error" FromO; N32 "cgroup_weight" FromO;
   N32 "cgroup_nodelete" FromO; N32 "uid" FromO; N32 "gid" FromO; N32 "flow_id" FromO; N32 "flow" FromO;
   N32 "flow_watermark" FromO; N32 "flow_sleep" FromO; N32 "sync_file_range" FromO; N64 "latency_target" FromO;
   N64 "latency_window" FromO; N64 "max_latency" FromO; NFp "latency_percentile"; N32 "compress_percentage" FromO;
   N32 "compress_chunk" FromO; N32 "dedupe_percentage" FromO; N32 "block_error_hist" FromO; N32 "replay_align" FromO;
   N32 "replay_scale" FromO; N32 "per_job_logs" FromO; N32 "write_bw_log" FromO; N32 "write_lat_log" FromO;
   N32 "write_iops_log" FromO; N32 "write_hist_log" FromO].
Definition net_lines3 : list net_line :=
  [N32s "bs"; N32s "ba"; N32s "min_bs"; N32s "max_bs"; N32s "bssplit_nr"; N32s "zone_split_nr"; N32s "rwmix";
   N64s "rate"; N64s "ratemin"; N32s "rate_iops"; N32s "rate_iops_min"; N32s "perc_rand"; NMem "verify_pattern";
   NMem "buffer_pattern"; N64 "size" FromO; N64 "io_size" FromO; N64 "verify_backlog" FromO; N64 "start_delay" FromO;
   N64 "start_delay_high" FromO; N64 "timeout" FromO; N64 "ramp_time" FromO; N64 "ss_dur" FromTop;
   N64 "ss_ramp_time" FromTop; N32 "ss_state" FromTop; NFp "ss_limit"; N64 "zone_range" FromO; N64 "zone_size" FromO;
   N64 "zone_skip" FromO; N64 "lockmem" FromO; N64 "ddir_seq_add" FromO; N64 "file_size_low" FromO;
   N64 "file_size_high" FromO; N64 "start_offset" FromO; N64 "start_offset_align" FromO;
   N32 "start_offset_percent" FromO; N64 "trim_backlog" FromO; N64 "offset_increment" FromO; N64 "number_ios" FromO;
   N32 "rate_process" FromO; N32 "rate_ign_think" FromO; NFps "percentile_list"].
Definition net_lines : list net_line := net_lines1 ++ net_lines2 ++ net_lines3.

Definition cpu_lines1 : list cpu_line :=
  [C64s "set_options"; CStr "description"; CStr "name"; CStr "wait_for"; CStr "directory"; CStr "filename";
   CStr "filename_format"; CStr "opendir"; CStr "ioengine"; CStr "mmapfile"; CStr "read_iolog_file";
   CStr "write_iolog_file"; CStr "bw_log_file"; CStr "lat_log_file"; CStr "iops_log_file"; CStr "hist_log_file";
   CStr "replay_redirect"; CStr "exec_prerun"; CStr "exec_postrun"; CStr "ioscheduler"; CStr "profile";
   CStr "cgroup"; C32 "allow_create"; C32 "allow_mounted_write"; C32 "td_ddir"; C32 "rw_seq"; C32 "kb_base";
   C32 "unit_base"; C32 "ddir_seq_nr"; C64 "ddir_seq_add"; C32 "iodepth"; C32 "iodepth_low"; C32 "iodepth_batch";
   C32 "iodepth_batch_complete_min"; C32 "iodepth_batch_complete_max"; C32 "serialize_overlap"; C64 "size";
   C64 "io_size"; C32 "size_percent"; C32 "fill_device"; C32 "file_append"; C64 "file_size_low";
   C64 "file_size_high"; C64 "start_offset"; C64 "start_offset_align"; C32 "start_offset_percent"; C32s "bs";
   C32s "ba"; C32s "min_bs"; C32s "max_bs"; C32s "bssplit_nr"; C32s "zone_split_nr"; C32s "rwmix"; C64s "rate";
   C64s "ratemin"; C32s "rate_iops"; C32s "rate_iops_min"; C32s "perc_rand"; C32 "ratecycle"; C32 "io_submit_mode";
   C32 "unique_filename"; C32 "nr_files"; C32 "open_files"; C32 "file_lock_mode"; C32 "odirect"; C32 "oatomic";
   C32 "invalidate_cache"; C32 "create_serialize"; C32 "create_fsync"; C32 "create_on_open"; C32 "create_only";
   C32 "end_fsync"; C32 "pre_read"; C32 "sync_io"; C32 "write_hint"; C32 "verify"; C32 "do_verify"; C32 "verifysort";
   C32 "verifysort_nr"; C32 "experimental_verify"; C32 "verify_state"; C32 "verify_interval"; C32 "verify_offset";
   CMem "verify_pattern"; CMem "buffer_pattern"; C32 "verify_pattern_bytes"; C32 "verify_fatal"; C32 "verify_dump";
   C32 "verify_async"; C32 "verify_batch"; C32 "use_thread"; C32 "unlink"; C32 "unlink_each_loop";
   C32 "do_disk_util"; C32 "override_sync"; C32 "rand_repeatable"; C32 "allrand_repeatable"; C64 "rand_seed";
   C32 "log_avg_msec"; C32 "log_hist_msec"; C32 "log_hist_coarseness"; C32 "log_max"; C32 "log_offset"; C32 "log_gz";
   C32 "log_gz_store"; C32 "log_unix_epoch"].
Definition cpu_lines2 : list cpu_line :=
  [C32 "norandommap"; C32 "softrandommap"; C32 "bs_unaligned"; C32 "fsync_on_close"; C32 "bs_is_seq_rand";
   C32 "random_distribution"; C32 "exitall_error"; CFp "zipf_theta"; CFp "pareto_h"; CFp "gauss_dev";
   C32 "random_generator"; C32 "hugepage_size"; C32 "rw_min_bs"; C32 "thinktime"; C32 "thinktime_spin";
   C32 "thinktime_blocks"; C32 "fsync_blocks"; C32 "fdatasync_blocks"; C32 "barrier_blocks"; C64 "verify_backlog";
   C64 "start_delay"; C64 "start_delay_high"; C64 "timeout"; C64 "ramp_time"; C64 "ss_dur"; C64 "ss_ramp_time";
   C32 "ss_state"; CFp "ss_limit"; C64 "zone_range"; C64 "zone_size"; C64 "zone_skip"; C64 "lockmem";
   C64 "offset_increment"; C64 "number_ios"; C32 "overwrite"; C32 "bw_avg_time"; C32 "iops_avg_time"; C32 "loops";
   C32 "mem_type"; C32 "mem_align"; C32 "stonewall"; C32 "new_group"; C32 "numjobs"; C32 "cpus_allowed_policy";
   C32 "gpu_dev_id"; C32 "iolog"; C32 "rwmixcycle"; C32 "nice"; C32 "ioprio"; C32 "ioprio_class";
   C32 "file_service_type"; C32 "group_reporting"; C32 "stats"; C32 "fadvise_hint"; C32 "fallocate_mode";
   C32 "zero_buffers"; C32 "refill_buffers"; C32 "scramble_buffers"; C32 "buffer_pattern_bytes"; C32 "time_based";
   C32 "disable_lat"; C32 "disable_clat"; C32 "disable_slat"; C32 "disable_bw"; C32 "unified_rw_rep";
   C32 "gtod_reduce"; C32 "gtod_cpu"; C32 "clocksource"; C32 "no_stall"; C32 "trim_percentage"; C32 "trim_batch";
   C32 "trim_zero"; C32 "clat_percentiles"; C32 "lat_percentiles"; C32 "percentile_precision"; C32 "sig_figs";
   C32 "continue_on_error"; C32 "cgroup_weight"; C32 "cgroup_nodelete"; C32 "uid"; C32 "gid"; C32 "flow_id";
   C32 "flow"; C32 "flow_watermark"; C32 "flow_sleep"; C32 "sync_file_range"; C64 "latency_target";
   C64 "latency_window"; C64 "max_latency"; CFp "latency_percentile"; C32 "compress_percentage";
   C32 "compress_chunk"; C32 "dedupe_percentage"; C32 "block_error_hist"; C32 "replay_align"; C32 "replay_scale";
   C32 "per_job_logs"; C32 "write_bw_log"; C32 "write_lat_log"; C32 "write_iops_log"; C32 "write_hist_log";
   C64 "trim_backlog"; C32 "rate_process"; C32 "rate_ign_think"; CFps "percentile_list"].
Definition cpu_lines : list cpu_line := cpu_lines1 ++ cpu_lines2.

(** All lines; [None] is a read past the end of a string. *)
Definition line_ends (top : pack) (l : cpu_line) : bool := match l with CStr f => ends (top f) | _ => true end.
Definition fields_to_net (big : bool) (top : pack) (o : opts) : option pack := run_net big net_lines top o.
Definition fields_to_cpu (big : bool) (o : opts) (top : pack) : option opts :=
  if forallb (line_ends top) cpu_lines then Some (run_cpu big cpu_lines o top) else None.

(** ** Words *)

(** One byte of a bit formula, at a bit [j] below 8. *)
Ltac byte_bits :=
  apply Z.bits_inj'; intros j Hj; rewrite !Z.land_spec;
  change 0xff with (Z.ones 8); rewrite Z.testbit_ones_nonneg by lia; destruct (Z.ltb_spec j 8); [|by rewrite !andb_false_r];
  assert (j = 0 \/ j = 1 \/ j = 2 \/ j = 3 \/ j = 4 \/ j = 5 \/ j = 6 \/ j = 7) as Hjs by lia; clear Hj;
  repeat destruct Hjs as [-> |Hjs]; [..|subst j];
  repeat first [rewrite Z.lor_spec | rewrite Z.land_spec | rewrite Z.shiftr_spec by lia | rewrite shl_testbit by lia];
  cbn [Z.add Z.sub Z.opp Z.pos_sub Pos.add Pos.sub Pos.pred_double Pos.succ Z.ltb Z.compare Pos.compare Pos.compare_cont andb Pos.add_carry Z.double Z.succ_double Z.pred_double];
  repeat match goal with |- context [Z.testbit (Zpos ?m) ?k] => let b := eval vm_compute in (Z.testbit (Zpos m) k) in change (Z.testbit (Zpos m) k) with b end;
  rewrite ?andb_true_r, ?andb_false_r, ?orb_false_r, ?orb_false_l, ?orb_true_r; try reflexivity.

Lemma cons_ext (a b : Z) l k : a = b -> l = k -> a :: l = b :: k.
Proof. congruence. Qed.

Lemma swap32_bytes x : le_bytes 4 (fio_swap32 x) = rev (le_bytes 4 x).
Proof.
  cbn [le_bytes rev app]. rewrite !Z.shiftr_shiftr by lia. unfold fio_swap32.
  repeat apply cons_ext; [byte_bits..|done].
Qed.

Lemma swap64_bytes x : le_bytes 8 (fio_swap64 x) = rev (le_bytes 8 x).
Proof.
  cbn [le_bytes rev app]. rewrite !Z.shiftr_shiftr by lia. unfold fio_swap64.
  repeat apply cons_ext; [byte_bits..|done].
Qed.

Lemma swap32_uint x : uint 32 x -> uint 32 (fio_swap32 x).
Proof.
  intros Hx. unfold fio_swap32. assert (H : forall m, uint 32 m -> uint 32 (Z.land x m)) by (intros m Hm; apply land_uint; [lia|done|unfold uint in Hm; lia]).
  assert (H1 : uint 32 (Z.lor (Z.shiftr (Z.land x 0xff00ff00) 8) (shl 32 (Z.land x 0x00ff00ff) 8))).
  { apply lor_uint; [lia| |by apply shl_uint]. apply shiftr_uint; [lia|]. apply H. by vm_compute. }
  apply lor_uint; [lia| |by apply shl_uint]. by apply shiftr_uint.
Qed.

Lemma swap64_uint x : uint 64 x -> uint 64 (fio_swap64 x).
Proof.
  intros Hx. unfold fio_swap64. cbn zeta. set (u := Z.lor (Z.shiftr (Z.land x _) 8) _). set (v := Z.lor (Z.shiftr (Z.land u _) 16) _).
  assert (H : forall y m, uint 64 y -> uint 64 m -> uint 64 (Z.land y m)) by (intros y m Hy Hm; apply land_uint; [lia|done|unfold uint in Hm; lia]).
  assert (Hu : uint 64 u).
  { apply lor_uint; [lia| |by apply shl_uint]. apply shiftr_uint; [lia|]. apply H; [done|by vm_compute]. }
  assert (Hv : uint 64 v).
  { apply lor_uint; [lia| |by apply shl_uint]. apply shiftr_uint; [lia|]. apply H; [done|by vm_compute]. }
  apply lor_uint; [lia| |by apply shl_uint]. by apply shiftr_uint.
Qed.

Lemma put_net32 big x : put_word big 4 (cpu_to_le32 big x) = le_bytes 4 x.
Proof. unfold put_word, cpu_to_le32. destruct big; [|done]. by rewrite swap32_bytes, rev_involutive. Qed.
Lemma put_net64 big x : put_word big 8 (cpu_to_le64 big x) = le_bytes 8 x.
Proof. unfold put_word, cpu_to_le64. destruct big; [|done]. by rewrite swap64_bytes, rev_involutive. Qed.

Lemma get_cpu32 big x : uint 32 x -> get32 big (le_bytes 4 x) = x.
Proof.
  intros Hx. unfold get32, get_word, le32_to_cpu. destruct big; [|by apply (le_val_uint 4 32)].
  assert (Hs : uint 32 (fio_swap32 x)) by (by apply swap32_uint).
  rewrite <- swap32_bytes, (le_val_uint 4 32 (fio_swap32 x)) by done.
  rewrite <- (le_val_uint 4 32 (fio_swap32 (fio_swap32 x))) by (done || by apply swap32_uint).
  by rewrite !swap32_bytes, rev_involutive, (le_val_uint 4 32).
Qed.

Lemma get_cpu64 big x : uint 64 x -> get64 big (le_bytes 8 x) = x.
Proof.
  intros Hx. unfold get64, get_word, le64_to_cpu. destruct big; [|by apply (le_val_uint 8 64)].
  assert (Hs : uint 64 (fio_swap64 x)) by (by apply swap64_uint).
  rewrite <- swap64_bytes, (le_val_uint 8 64 (fio_swap64 x)) by done.
  rewrite <- (le_val_uint 8 64 (fio_swap64 (fio_swap64 x))) by (done || by apply swap64_uint).
  by rewrite !swap64_bytes, rev_involutive, (le_val_uint 8 64).
Qed.

(** ** Running the lines *)
Lemma upd_eq {A} (m : string -> A) f v : upd m f v f = v.
Proof. unfold upd. by rewrite String.eqb_refl. Qed.
Lemma upd_ne {A} (m : string -> A) f g v : f <> g -> upd m f v g = m g.
Proof. intros H. unfold upd. by destruct (String.eqb_spec f g). Qed.

Lemma net_bytes_ext big top top' o l : top (net_field l) = top' (net_field l) -> net_bytes big top o l = net_bytes big top' o l.
Proof. destruct l as [f []|f []| | | | | |]; cbn [net_field net_bytes]; intros E; by rewrite ?E. Qed.

(** Every field is written once, from the old contents of its own bytes. *)
Lemma run_net_ok big o : forall lines top, NoDup (net_field <$> lines) -> (forall l, l ∈ lines -> is_Some (net_bytes big top o l)) ->
  exists top', run_net big lines top o = Some top' /\
    (forall l, l ∈ lines -> net_bytes big top o l = Some (top' (net_field l))) /\
    (forall f, f ∉ net_field <$> lines -> top' f = top f).
Proof.
  induction lines as [|l lines IH]; intros top Hnd Hs; cbn [run_net fmap list_fmap] in *.
  - exists top. split; [done|]. split; [intros l Hl; by apply elem_of_nil in Hl|done].
  - apply list.NoDup_cons in Hnd as [Hni Hnd]. destruct (Hs l ltac:(by left)) as [b Hb]. rewrite Hb. cbn [mbind option_bind].
    assert (Hext : forall k, k ∈ lines -> net_bytes big (upd top (net_field l) b) o k = net_bytes big top o k).
    { intros k Hk. apply net_bytes_ext, upd_ne. intros E. apply Hni. rewrite E. by apply list_elem_of_fmap_2. }
    destruct (IH (upd top (net_field l) b) Hnd) as (top' & Hr & Hl & Ho).
    { intros k Hk. rewrite Hext by done. apply Hs. by right. }
    exists top'. split; [done|]. split.
    + intros k [->|Hk]%elem_of_cons; [rewrite Hb; f_equal; by rewrite Ho, upd_eq|]. rewrite <- Hext by done. by apply Hl.
    + intros f [Hf1 Hf2]%not_elem_of_cons. rewrite Ho by done. by apply upd_ne.
Qed.

Lemma run_net_inv big o lines top top' : NoDup (net_field <$> lines) -> run_net big lines top o = Some top' ->
  (forall l, l ∈ lines -> net_bytes big top o l = Some (top' (net_field l))) /\
  (forall f, f ∉ net_field <$> lines -> top' f = top f).
Proof.
  intros Hnd H. enough (Hs : forall l, l ∈ lines -> is_Some (net_bytes big top o l)).
  { destruct (run_net_ok big o lines top Hnd Hs) as (top2 & E & H1 & H2). rewrite E in H. by injection H as <-. }
  revert top top' Hnd H. induction lines as [|l lines IH]; intros top top' Hnd H k Hk; [by apply elem_of_nil in Hk|].
  cbn [run_net fmap list_fmap] in *. apply list.NoDup_cons in Hnd as [Hni Hnd]. apply bind_Some_inv in H as (b & Hb & H).
  apply elem_of_cons in Hk as [->|Hk]; [by exists b|]. pose proof (IH _ _ Hnd H k Hk) as Hs.
  rewrite (net_bytes_ext big _ top) in Hs; [done|]. apply upd_ne. intros E. apply Hni. rewrite E. by apply list_elem_of_fmap_2.
Qed.

Lemma cpu_val_ext big top o o' l : o (cpu_field l) = o' (cpu_field l) -> cpu_val big o top l = cpu_val big o' top l.
Proof. destruct l; cbn [cpu_field cpu_val]; intros E; by rewrite ?E. Qed.

Lemma run_cpu_ok big top : forall lines o, NoDup (cpu_field <$> lines) ->
  (forall l, l ∈ lines -> run_cpu big lines o top (cpu_field l) = cpu_val big o top l) /\
  (forall f, f ∉ cpu_field <$> lines -> run_cpu big lines o top f = o f).
Proof.
  induction lines as [|l lines IH]; intros o Hnd; cbn [run_cpu fmap list_fmap] in *; [split; [intros l Hl; by apply elem_of_nil in Hl|done]|].
  apply list.NoDup_cons in Hnd as [Hni Hnd]. destruct (IH (upd o (cpu_field l) (cpu_val big o top l)) Hnd) as [Hl Ho]. split.
  - intros k [->|Hk]%elem_of_cons; [by rewrite Ho, upd_eq|]. rewrite Hl by done. apply cpu_val_ext, upd_ne.
    intros E. apply Hni. rewrite E. by apply list_elem_of_fmap_2.
  - intros f [Hf1 Hf2]%not_elem_of_cons. rewrite Ho by done. by apply upd_ne.
Qed.
