(* ===== verification/CconvTrip.v ===== *)
(** * Options survive the wire

    Every field that the conversion takes from the options arrives on the other
    host, whatever the byte orders of the two; and which fields do not travel. *)
From Stdlib Require Import String QArith.
From stdpp Require Import strings.
From S2P Require Import Prelude Ieee754 Cconv.

#[local] Instance source_eq_dec : EqDecision source.
Proof. solve_decision. Defined.
#[local] Instance net_line_eq_dec : EqDecision net_line.
Proof. solve_decision. Defined.
#[local] Instance cpu_line_eq_dec : EqDecision cpu_line.
Proof. solve_decision. Defined.

(** A decidable goal without variables. *)
Ltac decided := apply (bool_decide_unpack _); vm_compute; exact I.

(** ** Well-typed options *)

(** The doubles that travel: zero and the normal ones. *)
Definition wire_double (q : Q) : Prop :=
  (q == 0)%Q \/ exists s e m, 2 ^ 52 <= m < 2 ^ 53 /\ -1022 <= e <= 1023 /\ (q == double_value s e m)%Q.

(** The field a line reads has the type the structure declares for it. *)
Definition field_ok (o : opts) (l : net_line) : Prop :=
  match l with
  | N32 f FromO => exists x, o f = VInt x /\ if signed f then - 2 ^ 31 <= x < 2 ^ 31 else uint 32 x
  | N64 f FromO => exists x, o f = VInt x /\ if signed f then - 2 ^ 63 <= x < 2 ^ 63 else uint 64 x
  | N32 _ FromTop | N64 _ FromTop => True
  | NFp f => exists q, o f = VDbl q /\ wire_double q
  | NStr f => exists s, o f = VStr s /\ match s with Some s => s <> [] /\ 0 ∉ s | None => True end
  | NMem f => exists b, o f = VMem b /\ Forall (uint 8) b
  | N32s f => exists l, o f = VInts l /\ Forall (uint 32) l
  | N64s f => exists l, o f = VInts l /\ Forall (uint 64) l
  | NFps f => exists l, o f = VDbls l /\ Forall wire_double l
  end.

(** An array of doubles has its place in the packed structure. *)
Definition room_ok (top : pack) (o : opts) (l : net_line) : Prop :=
  match l with
  | NFps f => match o f with VDbls l => length (top f) = (16 * length l)%nat | _ => True end
  | _ => True
  end.

(** What a value becomes on the other side: strings are cut to what fits. *)
Definition arrives (v v' : val) : Prop :=
  match v, v' with
  | VInt x, VInt y => x = y
  | VInts l, VInts k => l = k
  | VDbl q, VDbl r => (q == r)%Q
  | VDbls l, VDbls k => Forall2 Qeq l k
  | VStr (Some s), VStr (Some t) => t = take 255 s
  | VStr None, VStr None => True
  | VMem b, VMem c => b = c
  | _, _ => False
  end.

Definition taken (l : net_line) : bool := match l with N32 _ FromTop | N64 _ FromTop => false | _ => true end.

Definition partner (l : net_line) : cpu_line :=
  match l with
  | N32 f _ => C32 f | N64 f _ => C64 f | NFp f => CFp f | NStr f => CStr f | NMem f => CMem f
  | N32s f => C32s f | N64s f => C64s f | NFps f => CFps f
  end.

(** ** Single values *)
Lemma double_put big old q : wire_double q ->
  exists i, uint 64 i /\ put_double big old q = Some (le_bytes 8 i ++ drop 8 old) /\ (fio_uint64_to_double i == q)%Q.
Proof.
  intros [H0|(s & e & m & Hm & He & Hq)]; unfold put_double.
  - exists 0. split; [by vm_compute|]. assert (E : fio_double_to_uint64 q = Some 0).
    { unfold fio_double_to_uint64, pack754. assert (Qeq_bool q 0 = true) as -> by (by apply Qeq_bool_iff). done. }
    rewrite E. cbn [mbind option_bind]. rewrite put_net64. split; [done|]. rewrite H0. done.
  - destruct (double_bits s e m q Hm He Hq) as [E Hu]. exists (ieee_bits s e m). split; [by apply bits_uint|].
    rewrite E. cbn [mbind option_bind]. by rewrite put_net64.
Qed.

Lemma pieces_app n fuel a b : (0 < n)%nat -> length a = n -> pieces (S fuel) n (a ++ b) = a :: pieces fuel n b.
Proof.
  intros Hn Ha. destruct a as [|x a]; [cbn in Ha; lia|]. cbn [app pieces].
  change (x :: a ++ b) with ((x :: a) ++ b). by rewrite take_app_length', drop_app_length'.
Qed.

Lemma pieces_words n w (g : list Z -> Z) : (0 < n)%nat -> (forall x, uint w x -> g (le_bytes n x) = x) ->
  forall l fuel, Forall (uint w) l -> (length l <= fuel)%nat -> g <$> pieces fuel n (l ≫= le_bytes n) = l.
Proof.
  intros Hn Hg. induction l as [|x l IH]; intros fuel Hl Hf; [by destruct fuel|]. destruct fuel as [|fuel]; [cbn in Hf; lia|].
  apply Forall_cons_iff in Hl as [Hx Hl]. cbn [mbind list_bind]. rewrite pieces_app by (done || apply length_le_bytes).
  cbn [fmap list_fmap]. rewrite Hg, IH by (done || cbn in Hf; lia). done.
Qed.

Lemma length_words n l : length (l ≫= le_bytes n) = (length l * n)%nat.
Proof. induction l as [|x l IH]; [done|]. cbn [mbind list_bind length]. rewrite length_app, length_le_bytes, IH. lia. Qed.

Lemma doubles_put big : forall l old, Forall wire_double l -> length old = (16 * length l)%nat ->
  exists b, put_doubles big old l = Some b /\ length b = (16 * length l)%nat /\
    forall big' fuel, (length l <= fuel)%nat ->
      Forall2 Qeq l ((fun b => fio_uint64_to_double (get64 big' (take 8 b))) <$> pieces fuel 16 b).
Proof.
  induction l as [|q l IH]; intros old Hl Ho.
  - destruct old; [|cbn in Ho; lia]. exists []. split; [done|]. split; [done|]. intros big' fuel _. destruct fuel; constructor.
  - apply Forall_cons_iff in Hl as [Hq Hl]. cbn [length] in Ho. cbn [put_doubles].
    destruct (double_put big (take 16 old) q Hq) as (i & Hi & -> & Hv). cbn [mbind option_bind].
    destruct (IH (drop 16 old) Hl) as (r & -> & Hr & Hv'); [rewrite length_drop; lia|]. cbn [mbind option_bind].
    set (a := le_bytes 8 i ++ drop 8 (take 16 old)).
    assert (Ha : length a = 16%nat) by (unfold a; rewrite length_app, length_le_bytes, length_drop, length_take; lia).
    exists (a ++ r). split; [done|]. split; [rewrite length_app; cbn [length]; lia|].
    intros big' fuel Hf. destruct fuel as [|fuel]; [cbn in Hf; lia|]. rewrite pieces_app by (lia || done). cbn [fmap list_fmap].
    constructor; [|apply Hv'; cbn in Hf; lia]. unfold a. rewrite take_app_length' by (by rewrite length_le_bytes). rewrite get_cpu64 by done. by symmetry.
Qed.

Lemma text_back s n : 0 ∉ s -> c_text (s ++ replicate (S n) 0) = s.
Proof.
  induction s as [|c s IH]; intros Hs; [done|]. apply not_elem_of_cons in Hs as [Hc Hs]. cbn [app c_text].
  rewrite (proj2 (Z.eqb_neq c 0)) by done. by rewrite IH.
Qed.

Lemma text_nonzero b : 0 ∉ c_text b.
Proof.
  induction b as [|c b IH]; cbn [c_text]; [apply not_elem_of_nil|]. destruct (Z.eqb_spec c 0); [apply not_elem_of_nil|].
  apply not_elem_of_cons. by split.
Qed.

(** Every string that is sent ends in its field. *)
Lemma string_ends dst s : ends (__string_to_net dst s) = true.
Proof.
  unfold ends, __string_to_net. destruct s as [s|]; [|done]. rewrite existsb_app. change (FIO_TOP_STR_MAX - 1)%nat with 255%nat.
  assert (Hl : (length (take 255 s) <= 255)%nat) by (rewrite length_take; lia).
  destruct (FIO_TOP_STR_MAX - length (take 255 s))%nat eqn:E; [unfold FIO_TOP_STR_MAX in E; lia|]. apply orb_true_r.
Qed.

Lemma string_trip dst s o0 : match s with Some s => s <> [] /\ 0 ∉ s | None => True end -> o0 = VStr None ->
  arrives (VStr s) (default o0 (string_to_cpu o0 (__string_to_net dst s))).
Proof.
  intros Hs ->. unfold string_to_cpu. rewrite string_ends. cbn [negb default from_option id]. unfold __string_to_net. destruct s as [s|]; [|done]. destruct Hs as [Hne Hs].
  change (FIO_TOP_STR_MAX - 1)%nat with 255%nat. set (t := take 255 s).
  assert (Ht : 0 ∉ t) by (intros H; by apply Hs, (subseteq_take 255 s)).
  assert (Hl : (length t <= 255)%nat) by (unfold t; rewrite length_take; lia).
  replace (FIO_TOP_STR_MAX - length t)%nat with (S (255 - length t)) by (unfold FIO_TOP_STR_MAX; lia). rewrite text_back by done.
  rewrite bool_decide_eq_false_2 by (unfold t; by destruct s). done.
Qed.

Lemma wrap_idem w x : w = 32 \/ w = 64 -> wrap w (wrap w x) = wrap w x.
Proof. intros [-> | ->]; unfold wrap; by rewrite Z.mod_mod. Qed.

Lemma int_trip w x (s : bool) : w = 32 \/ w = 64 -> (if s then - 2 ^ (w - 1) <= x < 2 ^ (w - 1) else uint w x) ->
  x = if s then sgn w (wrap w x) else wrap w x.
Proof.
  intros Hw Hx. destruct s; [|by rewrite wrap_small]. unfold sgn. rewrite (wrap_idem w x Hw). fold (sgn w x).
  symmetry. apply sgn_small; [lia|done].
Qed.

(** ** All fields *)
Lemma line_written a top o l : field_ok o l -> room_ok top o l -> is_Some (net_bytes a top o l).
Proof.
  destruct l as [f []|f []|f|f|f|f|f|f]; cbn [field_ok room_ok net_bytes]; intros Hf Hr;
    lazymatch type of Hf with True => by eexists | _ => destruct Hf as (x & Hx & Hp); rewrite Hx in * end;
    lazymatch goal with |- is_Some (Some _) => by eexists | _ => idtac end.
  - destruct (double_put a (top f) x Hp) as (i & _ & -> & _). by eexists.
  - destruct (doubles_put a x (top f) Hp Hr) as (b & -> & _). by eexists.
Qed.

Lemma line_arrives a b top top' o o0 l : field_ok o l -> room_ok top o l -> taken l = true ->
  (forall f, l = NStr f -> o0 f = VStr None) -> net_bytes a top o l = Some (top' (net_field l)) ->
  arrives (o (net_field l)) (cpu_val b o0 top' (partner l)).
Proof.
  destruct l as [f []|f []|f|f|f|f|f|f]; cbn [field_ok room_ok net_bytes net_field partner cpu_val taken]; intros Hf Hr Ht H0 E; try done;
    destruct Hf as (x & Hx & Hp); rewrite Hx in *.
  - apply (inj Some) in E; rewrite <- E. rewrite put_net32, get_cpu32 by (by apply wrap_uint). cbn [arrives]. apply (int_trip 32); [by left|done].
  - apply (inj Some) in E; rewrite <- E. rewrite put_net64, get_cpu64 by (by apply wrap_uint). cbn [arrives]. apply (int_trip 64); [by right|done].
  - destruct (double_put a (top f) x Hp) as (i & Hi & E' & Hv). rewrite E' in E. apply (inj Some) in E. rewrite <- E, take_app_length' by (by rewrite length_le_bytes). rewrite get_cpu64 by done. cbn [arrives]. by symmetry.
  - apply (inj Some) in E; rewrite <- E. apply string_trip; [done|by apply H0].
  - apply (inj Some) in E; by rewrite <- E.
  - apply (inj Some) in E; rewrite <- E. cbn [arrives].
    assert (Hb : (x ≫= fun y => put_word a 4 (cpu_to_le32 a (u32 y))) = x ≫= le_bytes 4).
    { clear - Hp. induction Hp as [|y x Hy _ IH]; [done|]. cbn [mbind list_bind]. rewrite IH, put_net32. by rewrite wrap_small. }
    rewrite Hb. symmetry. apply (pieces_words 4 32); [lia|intros; by apply get_cpu32|done|rewrite length_words; lia].
  - apply (inj Some) in E; rewrite <- E. cbn [arrives].
    assert (Hb : (x ≫= fun y => put_word a 8 (cpu_to_le64 a (u64 y))) = x ≫= le_bytes 8).
    { clear - Hp. induction Hp as [|y x Hy _ IH]; [done|]. cbn [mbind list_bind]. rewrite IH, put_net64. by rewrite wrap_small. }
    rewrite Hb. symmetry. apply (pieces_words 8 64); [lia|intros; by apply get_cpu64|done|rewrite length_words; lia].
  - destruct (doubles_put a x (top f) Hp Hr) as (c & E' & Hl & Hv). rewrite E' in E. apply (inj Some) in E; rewrite <- E. cbn [arrives]. apply Hv. lia.
Qed.

Lemma partner_field l : cpu_field (partner l) = net_field l.
Proof. by destruct l. Qed.

Lemma net_fields_distinct : NoDup (net_field <$> net_lines).
Proof. decided. Qed.
Lemma cpu_fields_distinct : NoDup (cpu_field <$> cpu_lines).
Proof. decided. Qed.
Lemma partners_read : Forall (fun l => partner l ∈ cpu_lines) net_lines.
Proof. decided. Qed.

Lemma strings_sent : Forall (fun l => match l with CStr f => bool_decide (NStr f ∈ net_lines) | _ => true end = true) cpu_lines.
Proof. decided. Qed.

Definition well_typed (o : opts) : Prop := Forall (field_ok o) net_lines.

(** Options into which nothing has been written yet. *)
Definition cleared (o : opts) : Prop := forall f, NStr f ∈ net_lines -> o f = VStr None.

Lemma fields_trip a b top o o0 : well_typed o -> Forall (room_ok top o) net_lines -> cleared o0 ->
  exists top' o', fields_to_net a top o = Some top' /\ fields_to_cpu b o0 top' = Some o' /\
    forall l, l ∈ net_lines -> taken l = true -> arrives (o (net_field l)) (o' (net_field l)).
Proof.
  intros Ho Hr H0. unfold well_typed in Ho. rewrite list.Forall_forall in Ho, Hr.
  destruct (run_net_ok a o net_lines top net_fields_distinct) as (top' & E & Hl & _); [intros l Hl; by apply line_written; auto|].
  exists top', (run_cpu b cpu_lines o0 top'). split; [exact E|]. split.
  - unfold fields_to_cpu. replace (forallb (line_ends top') cpu_lines) with true; [done|]. symmetry. apply forallb_forall.
    intros l Hin%list_elem_of_In. destruct l as [f|f|f|f|f|f|f|f]; try done. cbn [line_ends]. pose proof strings_sent as Hs. rewrite list.Forall_forall in Hs.
    pose proof (bool_decide_eq_true_1 _ (Hs _ Hin)) as Hf. specialize (Hl _ Hf). cbn [net_bytes net_field] in Hl.
    destruct (Ho _ Hf) as (s & Es & _). rewrite Es in Hl. apply (inj Some) in Hl. rewrite <- Hl. apply string_ends.
  - intros l Hin Ht. pose proof partners_read as Hp. rewrite list.Forall_forall in Hp.
    pose proof (proj1 (run_cpu_ok b top' cpu_lines o0 cpu_fields_distinct) (partner l) (Hp l Hin)) as Hc.
    rewrite partner_field in Hc. rewrite Hc.
    apply (line_arrives a b top); auto. intros f ->. by apply H0.
Qed.

(** ** A concrete job *)
Definition sample_val (l : net_line) : val :=
  match l with
  | N32 _ _ | N64 _ _ => VInt 7
  | NFp _ => VDbl (3 # 2)
  | NStr _ => VStr (Some [105; 111])
  | NMem _ => VMem [1; 2]
  | N32s _ => VInts [2; 0; 1]
  | N64s _ => VInts [4096; 8192; 512]
  | NFps _ => VDbls [0%Q; 3 # 2]
  end.
Definition sample : opts := foldr (fun l o => upd o (net_field l) (sample_val l)) (fun _ => VInt 0) net_lines.
(** A structure of [size]-byte fields filled with a byte. *)
Definition filled (size : string -> nat) (c : Z) : pack := fun f => replicate (size f) c.
Definition empty_opts : opts := fun _ => VStr None.

Lemma sample_vals l : l ∈ net_lines -> sample (net_field l) = sample_val l.
Proof.
  unfold sample. assert (H : NoDup (net_field <$> net_lines)) by apply net_fields_distinct. revert H.
  induction net_lines as [|k ls IH]; intros Hnd Hl; [by apply elem_of_nil in Hl|]. cbn [foldr fmap list_fmap] in *.
  apply list.NoDup_cons in Hnd as [Hni Hnd]. apply elem_of_cons in Hl as [->|Hl]; [by rewrite upd_eq|].
  rewrite upd_ne; [by apply IH|]. intros E. apply Hni. rewrite E. by apply list_elem_of_fmap_2.
Qed.

Lemma sample_double : wire_double (3 # 2).
Proof. right. exists false, 0, (3 * 2 ^ 51). split; [by vm_compute|]. split; [lia|]. by vm_compute. Qed.

Lemma sample_typed : well_typed sample.
Proof.
  apply list.Forall_forall. intros l Hl. pose proof (sample_vals l Hl) as E.
  destruct l as [f []|f []|f|f|f|f|f|f]; cbn [net_field sample_val field_ok] in *; try exact I; eexists; (split; [exact E|]).
  1,2: destruct (signed f); by vm_compute.
  - apply sample_double.
  - split; [done|]. apply (bool_decide_unpack _). by vm_compute.
  - repeat constructor; by vm_compute.
  - repeat constructor; by vm_compute.
  - repeat constructor; by vm_compute.
  - constructor; [by left|]. constructor; [apply sample_double|constructor].
Qed.

Lemma sample_room : Forall (room_ok (filled (fun _ => 32%nat) 0) sample) net_lines.
Proof.
  apply list.Forall_forall. intros l Hl. pose proof (sample_vals l Hl) as E.
  destruct l; cbn [net_field sample_val room_ok] in *; try exact I. by rewrite E.
Qed.

(** The sizes of the fields, for three directions and two percentiles. *)
Definition line_size (l : cpu_line) : nat :=
  match l with C32 _ => 4 | C64 _ => 8 | CFp _ => 16 | CStr _ => 256 | CMem _ => 512 | C32s _ => 12 | C64s _ => 24 | CFps _ => 32 end.
Definition field_size (f : string) : nat :=
  match list_find (fun l => cpu_field l = f) cpu_lines with Some (_, l) => line_size l | None => 0 end.
(** The fields the receiver reads and the sender does not take from its options. *)
Definition lost : list string := ["ss_dur"; "ss_ramp_time"; "ss_state"; "log_hist_msec"; "log_hist_coarseness"]%string.

(** Some options are lost: the steady-state options, which the conversion
    reads back from the packed structure itself, and those of the histogram log,
    which it leaves out, do not depend on what was sent; from a cleared structure
    they arrive as zero. *)
Theorem options_lost a b top o o0 top' o' f : fields_to_net a top o = Some top' -> fields_to_cpu b o0 top' = Some o' -> f ∈ lost ->
  top f = replicate (if bool_decide (f ∈ ["ss_dur"; "ss_ramp_time"]%string) then 8 else 4) 0 ->
  o' f = VInt 0.
Proof.
  intros E E' Hf Htop. unfold fields_to_cpu in E'. destruct (forallb _ _); [|done]. apply (inj Some) in E' as <-. destruct (run_net_inv a o net_lines top top' net_fields_distinct E) as [Hl Ho].
  destruct (run_cpu_ok b top' cpu_lines o0 cpu_fields_distinct) as [Hc _].
  assert (H64 : forall g, N64 g FromTop ∈ net_lines -> C64 g ∈ cpu_lines -> signed g = false -> top g = replicate 8 0 ->
    run_cpu b cpu_lines o0 top' g = VInt 0).
  { intros g Hn Hg Hs Ht. pose proof (Hc (C64 g) Hg) as Ec. cbn [cpu_field cpu_val] in Ec. rewrite Ec. specialize (Hl _ Hn). cbn [net_bytes net_field] in Hl. rewrite Ht in Hl. injection Hl as Hl.
    rewrite <- Hl, Hs. by destruct a, b. }
  assert (H32 : forall g, C32 g ∈ cpu_lines -> signed g = false -> top' g = replicate 4 0 -> run_cpu b cpu_lines o0 top' g = VInt 0).
  { intros g Hg Hs Ht. pose proof (Hc (C32 g) Hg) as Ec. cbn [cpu_field cpu_val] in Ec. rewrite Ec, Ht, Hs. by destruct b. }
  unfold lost in Hf. rewrite !elem_of_cons in Hf.
  destruct Hf as [->|[->|[->|[->|[->|Hf]]]]]; [..|by apply elem_of_nil in Hf].
  - apply H64; [decided|decided|done|exact Htop].
  - apply H64; [decided|decided|done|exact Htop].
  - apply H32; [decided|done|]. assert (Hn : N32 "ss_state" FromTop ∈ net_lines) by decided. specialize (Hl _ Hn).
    cbn [net_bytes net_field] in Hl. change (top "ss_state"%string = replicate 4 0) in Htop. rewrite Htop in Hl. injection Hl as <-. by destruct a.
  - apply H32; [decided|done|]. rewrite Ho by decided. exact Htop.
  - apply H32; [decided|done|]. rewrite Ho by decided. exact Htop.
Qed.


Definition zero_pack : pack := filled field_size 0.
Definition sample_sent : pack := default zero_pack (fields_to_net true zero_pack sample).
Definition sample_got : opts := default empty_opts (fields_to_cpu false empty_opts sample_sent).
Lemma sample_sent_ok : fields_to_net true zero_pack sample = Some sample_sent.
Proof.
  unfold sample_sent. assert (H : bool_decide (is_Some (fields_to_net true zero_pack sample)) = true) by (by vm_compute).
  apply bool_decide_eq_true_1 in H as [t ->]. done.
Qed.
Lemma sample_got_ok : fields_to_cpu false empty_opts sample_sent = Some sample_got.
Proof.
  unfold sample_got. assert (H : bool_decide (is_Some (fields_to_cpu false empty_opts sample_sent)) = true) by (by vm_compute).
  apply bool_decide_eq_true_1 in H as [t ->]. done.
Qed.

Lemma options_lost_witness : sample "ss_dur"%string = VInt 7 /\ sample_got "ss_dur"%string = VInt 0.
Proof.
  split; [by vm_compute|].
  exact (options_lost true false zero_pack sample empty_opts sample_sent sample_got "ss_dur"%string sample_sent_ok sample_got_ok ltac:(by left) eq_refl).
Defined.

(** A string that fills its field is read past its end. *)
Example unterminated_overruns : fields_to_cpu false empty_opts (filled field_size 0xc8) = None.
Proof. vm_compute. reflexivity. Qed.
