(* ===== verification/Split.v ===== *)
(** * Splits: block sizes and zones with percentages, [options.c]

    The callbacks of [bssplit] and of zoned random distributions: lists such as
    [4k/10:64k/50:32k], one for reads, writes and trims each.  The options are a
    record of the arrays the callbacks set, indexed by direction, a pointer being
    an [option]; memory from [malloc] has contents of its own.  Numbers are read
    by [str_to_decimal], with its [errno] passed along. *)
From Stdlib Require Import String Sorted.
From S2P Require Import Prelude Pattern PatternParse ParseNum OptParse IoU.

(** ** Parsing one list *)
Definition BSSPLIT_MAX : nat := 64.
Definition ZONESPLIT_MAX : nat := 256.

(** What successive calls of [strsep] return. *)
Fixpoint fields (c : Z) (s : list Z) : list (list Z) :=
  match s with
  | [] => [[]]
  | x :: s => if x =? c then [] :: fields c s else match fields c s with f :: fs => (x :: f) :: fs | [] => [[x]] end
  end.

(** [atoi], which leaves [errno] like [strtol]. *)
Definition atoi (e : bool) (s : list Z) : bool * Z := let '(v, range) := strtoll 10 s in (e || range, sgn 32 v).

Record zone_split := Zs { access_perc : Z; zs_size_perc : Z; zs_size : Z }.

(** The options the callbacks write. *)
Record split_opts := Sopts {
  so_bssplit : per_ddir (option (list bssplit_t)); so_bssplit_nr : per_ddir Z;
  so_min_bs : per_ddir Z; so_max_bs : per_ddir Z;
  so_zone_split : per_ddir (option (list zone_split)); so_zone_split_nr : per_ddir Z
}.
Definition set_bssplit (d : fio_ddir) (p : option (list bssplit_t)) (o : split_opts) : split_opts :=
  Sopts (upd d p (so_bssplit o)) (so_bssplit_nr o) (so_min_bs o) (so_max_bs o) (so_zone_split o) (so_zone_split_nr o).
Definition set_bssplit_nr (f : per_ddir Z -> per_ddir Z) (o : split_opts) : split_opts :=
  Sopts (so_bssplit o) (f (so_bssplit_nr o)) (so_min_bs o) (so_max_bs o) (so_zone_split o) (so_zone_split_nr o).
Definition set_bs_range (d : fio_ddir) (min max : Z) (o : split_opts) : split_opts :=
  Sopts (so_bssplit o) (so_bssplit_nr o) (upd d min (so_min_bs o)) (upd d max (so_max_bs o)) (so_zone_split o) (so_zone_split_nr o).
Definition set_zone_split (d : fio_ddir) (p : option (list zone_split)) (o : split_opts) : split_opts :=
  Sopts (so_bssplit o) (so_bssplit_nr o) (so_min_bs o) (so_max_bs o) (upd d p (so_zone_split o)) (so_zone_split_nr o).
Definition set_zone_split_nr (f : per_ddir Z -> per_ddir Z) (o : split_opts) : split_opts :=
  Sopts (so_bssplit o) (so_bssplit_nr o) (so_min_bs o) (so_max_bs o) (so_zone_split o) (f (so_zone_split_nr o)).

Section split.
Context (arith : bool -> list Z -> bool -> bool -> bool * option Z) (kb_base : Z).

Definition decimal (e : bool) (s : list Z) : bool * option Z := str_to_decimal arith e s true kb_base false false.

(** [val1] and [val2] of one entry. *)
Definition split_entry (e absolute : bool) (fname : list Z) : bool * option (Z * Z) :=
  let perc_str := strchr fname 47 in
  let '(e, perc) :=
    match perc_str with
    | Some k =>
        let p := drop (S k) fname in
        if absolute then decimal e p
        else let '(e, a) := atoi e p in let perc := u64 a in (e, Some (if 100 <? perc then 100 else if perc =? 0 then -1U else perc))
    | None => (e, Some (if absolute then 0 else -1U))
    end in
  match perc with
  | None => (e, None)
  | Some perc =>
      let '(e, v) := decimal e (match perc_str with Some k => take k fname | None => fname end) in
      (e, v ← v; Some (u32 v, u64 perc))
  end.

(** The loop, which still has room for [max] entries. *)
Fixpoint split_entries (e absolute : bool) (max : nat) (fs : list (list Z)) {struct fs} : bool * option (list (Z * Z)) :=
  match fs with
  | [] => (e, Some [])
  | f :: fs =>
      if bool_decide (f = []) then (e, Some []) else
      match split_entry e absolute f with
      | (e, None) => (e, None)
      | (e, Some v) =>
          match max with
          | O | 1%nat => (e, Some [v])
          | S max => let '(e, r) := split_entries e absolute max fs in (e, (v ::.) <$> r)
          end
      end
  end.

Definition split_parse_ddir (e : bool) (str : list Z) (absolute : bool) (max_splits : nat) : bool * option (list (Z * Z)) :=
  split_entries e absolute max_splits (fields 58 str).

(** The percentages given, summed at 32 bits, and how many are missing; [none] is
    the value of a missing one. *)
Definition sum_perc (none : Z) (l : list Z) : Z * Z :=
  fold_left (fun '(perc, missing) p => if p =? none then (perc, u32 (missing + 1)) else (u32 (perc + p), missing)) l (0, 0).

(** What a missing percentage becomes. *)
Definition missing_share (perc missing : Z) (nr : nat) : Z :=
  let perc := if (missing =? 1) && (nr =? 1)%nat then 100 else perc in u32 (100 - perc) / missing.

(** [bs_cmp] and [qsort]. *)
Definition bs_cmp (p1 p2 : bssplit_t) : Z := sgn 32 (bsp_perc p1) - sgn 32 (bsp_perc p2).
Fixpoint bs_insert (b : bssplit_t) (l : list bssplit_t) : list bssplit_t :=
  match l with
  | c :: l' => if bs_cmp b c <=? 0 then b :: l else c :: bs_insert b l'
  | [] => [b]
  end.
Definition bs_sort (l : list bssplit_t) : list bssplit_t := foldr bs_insert [] l.

(** ** [bssplit] *)
Definition bssplit_ddir (e : bool) (o : split_opts) (d : fio_ddir) (str : list Z) (data : bool) : bool * split_opts * Z :=
  match split_parse_ddir e str data BSSPLIT_MAX with
  | (e, None) => (e, o, 1)
  | (e, Some []) => (e, o, 0)
  | (e, Some split) =>
      let max_bs := fold_left (fun m v => if m <? v then v else m) split.*1 0 in
      let min_bs := fold_left (fun m v => if v <? m then v else m) split.*1 (-1U) in
      let l := (fun '(v1, v2) => Bssplit v1 (u32 v2)) <$> split in
      let o := set_bssplit_nr (upd d (Z.of_nat (length split))) (set_bssplit d (Some l) o) in
      let '(perc, missing) := sum_perc (-1U) (bsp_perc <$> l) in
      if (100 <? perc) && (1 <? missing) then (e, set_bssplit d None o, 1) else
      let l := if missing =? 0 then l
               else (fun b => if bsp_perc b =? -1U then Bssplit (bsp_bs b) (missing_share perc missing (length l)) else b) <$> l in
      (e, set_bssplit d (Some (bs_sort l)) (set_bs_range d min_bs max_bs o), 0)
  end.

(** [str_split_parse]: [fn] is one of the two functions for a direction. *)
Definition str_split_parse (e : bool) (o : split_opts) (str : list Z)
    (fn : bool -> split_opts -> fio_ddir -> list Z -> bool -> bool * split_opts * Z) (data : bool) : bool * split_opts * Z :=
  match strchr str 44 with
  | Some odir =>
      let wr := drop (S odir) str in
      let '(e, o, ret) :=
        match strchr wr 44 with
        | Some k => fn e o DDIR_TRIM (drop (S k) wr) data
        | None => fn e o DDIR_TRIM wr data
        end in
      let wr := match strchr wr 44 with Some k => if ret =? 0 then take k wr else wr | None => wr end in
      let '(e, o, ret) := if ret =? 0 then fn e o DDIR_WRITE wr data else (e, o, ret) in
      if ret =? 0 then fn e o DDIR_READ (take odir str) data else (e, o, ret)
  | None =>
      let '(e, o, ret) := fn e o DDIR_WRITE str data in
      let '(e, o, ret) := if ret =? 0 then fn e o DDIR_TRIM str data else (e, o, ret) in
      if ret =? 0 then fn e o DDIR_READ str data else (e, o, ret)
  end.

Definition all_zero : per_ddir Z -> per_ddir Z := fun _ _ => 0.
Definition free_bssplits (o : split_opts) : split_opts :=
  set_bssplit_nr all_zero (set_bssplit DDIR_READ None (set_bssplit DDIR_WRITE None (set_bssplit DDIR_TRIM None o))).
Definition free_zone_splits (o : split_opts) : split_opts :=
  set_zone_split_nr all_zero (set_zone_split DDIR_READ None (set_zone_split DDIR_WRITE None (set_zone_split DDIR_TRIM None o))).

Definition str_bssplit_cb (parse_dryrun e : bool) (o : split_opts) (input : list Z) : bool * split_opts * Z :=
  let str := strip_blank_end (strip_blank_front input) in
  let '(e, o, ret) := str_split_parse e o str bssplit_ddir false in
  (e, if parse_dryrun then free_bssplits o else o, ret).

(** ** Zones *)
Context (junk : fio_ddir -> nat -> zone_split).

Definition zone_new (d : fio_ddir) (absolute : bool) (i : nat) (v : Z * Z) : zone_split :=
  if absolute then Zs (wrap 8 v.1) (zs_size_perc (junk d i)) v.2 else Zs (wrap 8 v.1) (wrap 8 v.2) (zs_size (junk d i)).

Definition fill_access (perc missing : Z) (nr : nat) (z : zone_split) : zone_split :=
  if access_perc z =? 255 then Zs (wrap 8 (missing_share perc missing nr)) (zs_size_perc z) (zs_size z) else z.
Definition fill_size (perc missing : Z) (nr : nat) (z : zone_split) : zone_split :=
  if zs_size_perc z =? 255 then Zs (access_perc z) (wrap 8 (missing_share perc missing nr)) (zs_size z) else z.

Definition zone_split_ddir (e : bool) (o : split_opts) (d : fio_ddir) (str : list Z) (absolute : bool) : bool * split_opts * Z :=
  match split_parse_ddir e str absolute ZONESPLIT_MAX with
  | (e, None) => (e, o, 1)
  | (e, Some []) => (e, o, 0)
  | (e, Some split) =>
      let l := imap (zone_new d absolute) split in
      let nr := length l in
      let o := set_zone_split_nr (upd d (Z.of_nat nr)) (set_zone_split d (Some l) o) in
      let '(perc, missing) := sum_perc 255 (access_perc <$> l) in
      let '(sperc, smissing) := if absolute then (0, 0) else sum_perc 255 (zs_size_perc <$> l) in
      if (100 <? perc) || (100 <? sperc) then (e, set_zone_split d None o, 1) else
      if perc <? 100 then (e, set_zone_split d None o, 1) else
      let l := if missing =? 0 then l else fill_access perc missing nr <$> l in
      let l := if smissing =? 0 then l else fill_size sperc smissing nr <$> l in
      (e, set_zone_split d (Some l) o, 0)
  end.
End split.

(** The table of a hundred slots, each written or not; [None] is a write past it. *)
Definition put_slots (z : zone_split_index) (from n : Z) (t : list (option zone_split_index)) : option (list (option zone_split_index)) :=
  fold_left (fun t j => t ← t; if (j <? length t)%nat then Some (<[j := Some z]> t) else None) (seq (Z.to_nat from) (Z.to_nat n)) (Some t).

Fixpoint zone_slots (l : list zone_split) (aprev sprev sprev_sz : Z) (t : list (option zone_split_index)) :
    option (list (option zone_split_index)) :=
  match l with
  | [] => Some t
  | z :: l =>
      let zsi := Zsi (wrap 8 (sprev + zs_size_perc z)) (wrap 8 sprev) (u64 (sprev_sz + zs_size z)) sprev_sz in
      t ← put_slots zsi aprev (access_perc z) t;
      zone_slots l (u32 (aprev + access_perc z)) (u32 (sprev + zs_size_perc z)) (u64 (sprev_sz + zs_size z)) t
  end.

Definition __td_zone_gen_index (l : list zone_split) : option (list (option zone_split_index)) := zone_slots l 0 0 0 (replicate 100 None).

(** The tables of all directions; a direction without zones reads none. *)
Definition zones_of (o : split_opts) (d : fio_ddir) : option (list zone_split) :=
  if so_zone_split_nr o d =? 0 then Some [] else
  l ← so_zone_split o d; if Z.of_nat (length l) =? so_zone_split_nr o d then Some l else None.
Definition td_zone_gen_index (o : split_opts) : option (per_ddir (list (option zone_split_index))) :=
  r ← (zones_of o DDIR_READ ≫= __td_zone_gen_index);
  w ← (zones_of o DDIR_WRITE ≫= __td_zone_gen_index);
  t ← (zones_of o DDIR_TRIM ≫= __td_zone_gen_index);
  Some (fun d => match d with DDIR_READ => r | DDIR_WRITE => w | DDIR_TRIM => t end).

(** [parse_zoned_distribution]: [errno], the options, the tables when they are
    made, and the code.  With [debug_parse] it also prints the zones, and [None] is
    a pointer that is not to be followed. *)
Definition parse_zoned_distribution arith kb_base junk (debug_parse parse_dryrun e : bool) (o : split_opts) (input : list Z) (absolute : bool) :
    option (bool * split_opts * option (per_ddir (list (option zone_split_index))) * Z) :=
  let pre := codes (if absolute then "zoned_abs:" else "zoned:") in
  let str := strip_blank_end (strip_blank_front input) in
  if negb (starts pre str) then Some (e, o, None, 1) else
  let '(e, o, ret) := str_split_parse e o (drop (length pre) str) (zone_split_ddir arith kb_base junk) absolute in
  if debug_parse && negb (forallb (fun d => bool_decide (is_Some (zones_of o d))) [DDIR_READ; DDIR_WRITE; DDIR_TRIM]) then None
  else if parse_dryrun then Some (e, free_zone_splits o, None, ret)
  else if ret =? 0 then t ← td_zone_gen_index o; Some (e, o, Some t, 0)
  else Some (e, set_zone_split_nr all_zero o, None, ret).
