(* ===== verification/SplitInv.v ===== *)
(** * Splits are complete

    The table of zones that the random offsets index has all its hundred slots,
    and block size splits get the shares their text asks for. *)
From Stdlib Require Import String Sorted Permutation.
From S2P Require Import Prelude Pattern PatternParse ParseNum OptParse IoU Split.

(** ** Sums *)
Definition zsum (l : list Z) : Z := foldr Z.add 0 l.
Definition given (none : Z) (l : list Z) : Z := zsum (filter (fun p => p <> none) l).
Definition missing (none : Z) (l : list Z) : Z := Z.of_nat (length (filter (fun p => p = none) l)).

Lemma zsum_cons p l : zsum (p :: l) = p + zsum l.
Proof. done. Qed.

Lemma filter_split (none : Z) (l : list Z) : (length (filter (fun p => p = none) l) <= length l)%nat.
Proof. apply length_filter. Qed.

Lemma given_bound none b l : Forall (fun p => 0 <= p <= b) l -> 0 <= given none l <= b * Z.of_nat (length l).
Proof.
  unfold given. induction 1 as [|p l Hp _ IH]; [cbn; lia|]. rewrite filter_cons. case_decide; rewrite ?zsum_cons; cbn [length]; lia.
Qed.

Lemma sum_perc_ok none l : forall perc ms, 0 <= perc -> 0 <= ms -> Forall (fun p => 0 <= p) l ->
  perc + given none l < 2 ^ 32 -> ms + missing none l < 2 ^ 32 ->
  fold_left (fun '(perc, missing) p => if p =? none then (perc, u32 (missing + 1)) else (u32 (perc + p), missing)) l (perc, ms) =
    (perc + given none l, ms + missing none l).
Proof.
  unfold given, missing. induction l as [|p l IH]; intros perc ms Hp Hm Hl H1 H2; [cbn; f_equal; lia|].
  apply Forall_cons_iff in Hl as [Hp0 Hl]. rewrite !filter_cons in *. cbn [fold_left].
  assert (Hg : 0 <= zsum (filter (fun p => p <> none) l)).
  { clear - Hl. induction Hl as [|q l Hq _ IH]; [done|]. rewrite filter_cons. case_decide; rewrite ?zsum_cons; lia. }
  destruct (Z.eqb_spec p none) as [->|Hne].
  - rewrite decide_False in H1 by tauto. rewrite decide_True in H2 by done. rewrite decide_False by tauto. rewrite decide_True by done.
    cbn [length] in *. rewrite wrap_small by (unfold uint; lia). rewrite IH; [f_equal; lia|lia|lia|done|lia|lia].
  - rewrite decide_True in H1 by done. rewrite decide_False in H2 by done. rewrite decide_True by done. rewrite decide_False by done.
    rewrite zsum_cons in *.
    rewrite wrap_small by (unfold uint; lia). rewrite IH; [f_equal; lia|lia|lia|done|lia|lia].
Qed.

Lemma sum_perc_spec none b l : 0 <= b < 2 ^ 16 -> (length l <= 256)%nat -> Forall (fun p => p = none \/ 0 <= p <= b) l -> 0 <= none ->
  sum_perc none l = (given none l, missing none l).
Proof.
  intros Hb Hlen Hl Hn. unfold sum_perc. pose proof (filter_split none l) as Hf.
  assert (Hg : 0 <= given none l <= b * Z.of_nat (length l)).
  { unfold given. clear - Hl Hb. induction Hl as [|p l Hp _ IH]; [cbn; lia|]. rewrite filter_cons.
    case_decide; rewrite ?zsum_cons; cbn [length]; [destruct Hp as [->|Hp]; [done|]|]; lia. }
  rewrite sum_perc_ok; [done|lia|lia| |nia|unfold missing; lia].
  eapply Forall_impl; [|exact Hl]. cbn beta. intros p [->|?]; lia.
Qed.

(** Filling in the missing percentages. *)
Lemma zsum_filled (none v : Z) (l : list Z) : zsum ((fun p : Z => if p =? none then v else p) <$> l) = given none l + missing none l * v.
Proof.
  unfold given, missing. induction l as [|p l IH]; [cbn; lia|]. rewrite fmap_cons, zsum_cons, IH, !filter_cons.
  destruct (Z.eqb_spec p none) as [->|Hne].
  - rewrite decide_False by tauto. rewrite decide_True by done. cbn [length]. lia.
  - rewrite decide_True by done. rewrite decide_False by done. rewrite zsum_cons. lia.
Qed.

Lemma share_bound perc ms nr : 0 <= perc <= 100 -> 0 < ms -> 0 <= missing_share perc ms nr <= 100 /\ ms * missing_share perc ms nr <= 100 - perc.
Proof.
  intros Hp Hm. unfold missing_share. set (q := if (_ && _)%bool then 100 else perc). assert (Hq : perc <= q <= 100) by (unfold q; case_match; lia).
  rewrite wrap_small by (unfold uint; lia). assert (H := Z.mul_div_le (100 - q) ms Hm).
  assert (0 <= (100 - q) / ms) by (apply Z.div_pos; lia). nia.
Qed.

(** ** Zones *)

(** What an accepted list of zones satisfies. *)
Record zone_ok (absolute : bool) (l : list zone_split) : Prop := {
  zo_access : zsum (access_perc <$> l) = 100;
  zo_pos : Forall (fun z => 0 <= access_perc z) l;
  zo_size : absolute = false -> zsum (zs_size_perc <$> l) <= 100 /\ Forall (fun z => 0 <= zs_size_perc z) l
}.

Lemma fmap_access perc ms nr (l : list zone_split) :
  access_perc <$> (fill_access perc ms nr <$> l) = (fun p => if p =? 255 then wrap 8 (missing_share perc ms nr) else p) <$> (access_perc <$> l).
Proof. rewrite <- !list_fmap_compose. apply list_fmap_ext. intros i z _. unfold compose, fill_access. by destruct (access_perc z =? 255). Qed.
Lemma fmap_size perc ms nr (l : list zone_split) :
  zs_size_perc <$> (fill_size perc ms nr <$> l) = (fun p => if p =? 255 then wrap 8 (missing_share perc ms nr) else p) <$> (zs_size_perc <$> l).
Proof. rewrite <- !list_fmap_compose. apply list_fmap_ext. intros i z _. unfold compose, fill_size. by destruct (zs_size_perc z =? 255). Qed.
Lemma access_fill_size perc ms nr (l : list zone_split) : access_perc <$> (fill_size perc ms nr <$> l) = access_perc <$> l.
Proof. rewrite <- list_fmap_compose. apply list_fmap_ext. intros i z _. unfold compose, fill_size. by destruct (zs_size_perc z =? 255). Qed.
Lemma size_fill_access perc ms nr (l : list zone_split) : zs_size_perc <$> (fill_access perc ms nr <$> l) = zs_size_perc <$> l.
Proof. rewrite <- list_fmap_compose. apply list_fmap_ext. intros i z _. unfold compose, fill_access. by destruct (access_perc z =? 255). Qed.

(** Percentages of eight bits, filled where they are missing. *)
Definition fill (on : bool) (v : Z) (l : list Z) : list Z := if on then (fun p => if p =? 255 then v else p) <$> l else l.

Lemma missing_nonneg none l : 0 <= missing none l.
Proof. unfold missing. lia. Qed.

Lemma no_missing none l : missing none l = 0 -> zsum l = given none l.
Proof.
  unfold missing, given. induction l as [|p l IH]; intros Hm; [done|]. rewrite !filter_cons in *.
  destruct (decide (p = none)) as [->|Hne]; [cbn [length] in Hm; lia|]. rewrite decide_True by done.
  rewrite !zsum_cons. f_equal. by apply IH.
Qed.

Lemma filled_sum nr l : Forall (fun p => 0 <= p <= 255) l -> given 255 l <= 100 -> 
  let l' := fill (negb (missing 255 l =? 0)) (wrap 8 (missing_share (given 255 l) (missing 255 l) nr)) l in
  given 255 l <= zsum l' <= 100 /\ Forall (fun p => 0 <= p) l'.
Proof.
  intros Hl Hg l'. unfold l', fill. pose proof (missing_nonneg 255 l) as Hm0. pose proof (given_bound 255 255 l Hl) as Hg0.
  destruct (Z.eqb_spec (missing 255 l) 0) as [E|E]; cbn [negb].
  - rewrite (no_missing 255 l E). split; [lia|]. eapply Forall_impl; [|exact Hl]. cbn beta. lia.
  - destruct (share_bound (given 255 l) (missing 255 l) nr) as [Hs1 Hs2]; [lia|lia|]. rewrite wrap_small by (unfold uint; lia).
    rewrite zsum_filled. split; [nia|]. apply Forall_fmap. eapply Forall_impl; [|exact Hl]. cbn beta. intros p Hp. unfold compose. case_match; lia.
Qed.

(** Text gives at most [max] entries, with values of their widths. *)
Lemma split_entries_bound arith kb absolute : forall fs e e' max l, (0 < max)%nat ->
  split_entries arith kb e absolute max fs = (e', Some l) -> (length l <= max)%nat.
Proof.
  induction fs as [|f fs IH]; intros e e' max l Hm H; cbn [split_entries] in H; [injection H as _ <-; cbn; lia|].
  case_bool_decide; [injection H as _ <-; cbn; lia|]. destruct (split_entry arith kb e absolute f) as [e1 [v|]]; [|done].
  destruct max as [|[|max]]; [lia|injection H as _ <-; cbn; lia|].
  destruct (split_entries arith kb e1 absolute (S max) fs) as [e2 [r|]] eqn:E; [|done]. cbn in H. injection H as _ <-.
  apply IH in E; [cbn [length]; lia|lia].
Qed.

Lemma zone_new_range junk d absolute i v : uint 8 (access_perc (zone_new junk d absolute i v)) /\
  (absolute = false -> uint 8 (zs_size_perc (zone_new junk d absolute i v))).
Proof. unfold zone_new. destruct absolute; cbn; (split; [apply wrap_uint; lia|]); [done|]. intros _. apply wrap_uint. lia. Qed.

Lemma zones_new_range junk d absolute l : Forall (fun p => 0 <= p <= 255) (access_perc <$> imap (zone_new junk d absolute) l) /\
  (absolute = false -> Forall (fun p => 0 <= p <= 255) (zs_size_perc <$> imap (zone_new junk d absolute) l)).
Proof.
  split; [|intros Ha]; apply Forall_fmap, Forall_lookup; intros i z Hz; apply list_lookup_imap_Some in Hz as (v & _ & ->);
    pose proof (zone_new_range junk d absolute i v) as [H1 H2]; unfold compose, uint in *; [lia|]. specialize (H2 Ha). lia.
Qed.

Lemma range_none l : Forall (fun p => 0 <= p <= 255) l -> Forall (fun p => p = 255 \/ 0 <= p <= 255) l.
Proof. intros H. eapply Forall_impl; [|exact H]. cbn beta. lia. Qed.

(** The zones of an accepted list. *)
Lemma zone_list_ok (l : list zone_split) absolute nr :
  Forall (fun p => 0 <= p <= 255) (access_perc <$> l) -> (absolute = false -> Forall (fun p => 0 <= p <= 255) (zs_size_perc <$> l)) ->
  let perc := given 255 (access_perc <$> l) in let ms := missing 255 (access_perc <$> l) in
  let sperc := if absolute then 0 else given 255 (zs_size_perc <$> l) in let sms := if absolute then 0 else missing 255 (zs_size_perc <$> l) in
  perc = 100 -> sperc <= 100 ->
  let l1 := if ms =? 0 then l else fill_access perc ms nr <$> l in
  let l2 := if sms =? 0 then l1 else fill_size sperc sms nr <$> l1 in
  zone_ok absolute l2 /\ length l2 = length l.
Proof.
  intros Ha Hs perc ms sperc sms Hp Hsp l1 l2.
  assert (E1 : access_perc <$> l2 = fill (negb (ms =? 0)) (wrap 8 (missing_share perc ms nr)) (access_perc <$> l)).
  { transitivity (access_perc <$> l1); [unfold l2; case_match; [done|apply access_fill_size]|].
    unfold l1, fill. destruct (ms =? 0); [done|]. apply fmap_access. }
  destruct (filled_sum nr (access_perc <$> l) Ha ltac:(fold perc; lia)) as [H1 H2]. fold perc ms in H1, H2. rewrite <- E1 in H1, H2.
  split; [split|].
  - lia.
  - exact (proj1 (Forall_fmap access_perc (fun p => 0 <= p) l2) H2).
  - intros ->. specialize (Hs eq_refl).
    assert (E2 : zs_size_perc <$> l2 = fill (negb (sms =? 0)) (wrap 8 (missing_share sperc sms nr)) (zs_size_perc <$> l)).
    { assert (E : zs_size_perc <$> l1 = zs_size_perc <$> l) by (unfold l1; case_match; [done|apply size_fill_access]).
      unfold l2, fill. destruct (sms =? 0); [done|]. rewrite fmap_size, E. done. }
    destruct (filled_sum nr (zs_size_perc <$> l) Hs Hsp) as [H3 H4]. rewrite E2. split; [exact (proj2 H3)|].
    apply (Forall_fmap zs_size_perc (fun p => 0 <= p) l2). rewrite E2. exact H4.
  - unfold l2, l1. repeat case_match; by rewrite ?length_fmap.
Qed.

(** An accepted direction has its zones, a refused one leaves the others alone. *)
Definition zone_dir (absolute : bool) (o : split_opts) (d : fio_ddir) : Prop :=
  so_zone_split_nr o d = 0 \/ exists l, so_zone_split o d = Some l /\ Z.of_nat (length l) = so_zone_split_nr o d /\ zone_ok absolute l.
Definition zone_inv (absolute : bool) (o : split_opts) : Prop := forall d, zone_dir absolute o d.

Lemma zone_split_ddir_inv arith kb junk e o d str absolute e' o' : zone_inv absolute o ->
  zone_split_ddir arith kb junk e o d str absolute = (e', o', 0) -> zone_inv absolute o'.
Proof.
  intros Hi H. unfold zone_split_ddir, split_parse_ddir in H.
  destruct (split_entries arith kb e absolute ZONESPLIT_MAX (fields 58 str)) as [e1 [sp|]] eqn:E; [|done].
  apply split_entries_bound in E; [|unfold ZONESPLIT_MAX; lia]. destruct sp as [|v sp]; [by injection H as _ <-|].
  set (l := imap (zone_new junk d absolute) (v :: sp)) in H.
  destruct (zones_new_range junk d absolute (v :: sp)) as [Ha Hs]. fold l in Ha, Hs.
  assert (Hlen : length l = length (v :: sp)) by apply length_imap. unfold ZONESPLIT_MAX in E.
  rewrite (sum_perc_spec 255 255 (access_perc <$> l)) in H by (lia || rewrite ?length_fmap; lia || by apply range_none).
  assert (Es : (if absolute then (0, 0) else sum_perc 255 (zs_size_perc <$> l)) =
    (if absolute then 0 else given 255 (zs_size_perc <$> l), if absolute then 0 else missing 255 (zs_size_perc <$> l))).
  { destruct absolute; [done|]. apply (sum_perc_spec 255 255); [lia|rewrite length_fmap; lia|apply range_none; by apply Hs|lia]. }
  rewrite Es in H. destruct (_ || _) eqn:E1 in H; [done|]. apply orb_false_iff in E1 as [E1 E2]. destruct (_ <? 100) eqn:E3 in H; [done|].
  apply Z.ltb_ge in E1, E2, E3. injection H as _ <-.
  destruct (zone_list_ok l absolute (length l) Ha Hs ltac:(lia) E2) as [Hok Hl2].
  intros d'. unfold zone_dir. cbn. unfold upd. destruct (decide (d' = d)) as [->|Hne]; [|exact (Hi d')].
  right. eexists. split; [done|]. split; [exact (f_equal Z.of_nat Hl2)|exact Hok].
Qed.

(** The three calls. *)
Lemma str_split_inv (I : split_opts -> Prop) fn data : (forall e o d s e' o', I o -> fn e o d s data = (e', o', 0) -> I o') ->
  forall e o str e' o', I o -> str_split_parse e o str fn data = (e', o', 0) -> I o'.
Proof.
  intros Hfn e o str e' o' Hi H. unfold str_split_parse in H.
  assert (Hthree : forall e o d1 s1 d2 (s2 : Z -> list Z) d3 s3 e' o', I o ->
    (let '(e, o, ret) := fn e o d1 s1 data in
     let '(e, o, ret) := if ret =? 0 then fn e o d2 (s2 ret) data else (e, o, ret) in
     if ret =? 0 then fn e o d3 s3 data else (e, o, ret)) = (e', o', 0) -> I o').
  { clear - Hfn. intros e o d1 s1 d2 s2 d3 s3 e' o' Hi H. destruct (fn e o d1 s1 data) as [[e1 o1] r1] eqn:E1.
    destruct (Z.eqb_spec r1 0) as [->|Hr1]; [|rewrite (proj2 (Z.eqb_neq r1 0) Hr1) in H; injection H as _ _ ->; done].
    destruct (fn e1 o1 d2 (s2 0) data) as [[e2 o2] r2] eqn:E2.
    destruct (Z.eqb_spec r2 0) as [->|Hr2]; [|injection H as _ _ ->; done]. eauto. }
  destruct (strchr str 44) as [odir|]; [|exact (Hthree _ _ _ _ _ (fun _ => str) _ _ _ _ Hi H)].
  destruct (strchr (drop (S odir) str) 44) as [k|].
  - exact (Hthree _ _ _ _ _ (fun ret => if ret =? 0 then _ else _) _ _ _ _ Hi H).
  - exact (Hthree _ _ _ _ _ (fun _ => _) _ _ _ _ Hi H).
Qed.

(** ** The table of zones *)
Lemma put_slots_ok (z : zone_split_index) : forall n from (t : list (option zone_split_index)), (from + n <= length t)%nat ->
  exists t', fold_left (fun (t : option (list (option zone_split_index))) j => t ← t; if (j <? length t)%nat then Some (<[j := Some z]> t) else None) (seq from n) (Some t) = Some t' /\
    length t' = length t /\ forall j, t' !! j = if decide (from <= j < from + n)%nat then Some (Some z) else t !! j.
Proof.
  induction n as [|n IH]; intros from t Hl; cbn [seq fold_left].
  - exists t. split; [done|]. split; [done|]. intros j. by rewrite decide_False by lia.
  - cbn [mbind option_bind]. rewrite (proj2 (Nat.ltb_lt from (length t))) by lia.
    destruct (IH (S from) (<[from := Some z]> t)) as (t' & E & Hlen & Hj); [rewrite length_insert; lia|].
    exists t'. split; [done|]. split; [by rewrite Hlen, length_insert|]. intros j. rewrite Hj.
    destruct (decide (j = from)) as [->|Hne].
    + rewrite decide_False by lia. rewrite decide_True by lia. by rewrite list_lookup_insert_eq by lia.
    + rewrite list_lookup_insert_ne by done. do 2 case_decide; done || lia.
Qed.

Lemma wrap_add_low w v x y : 0 <= w <= v -> wrap w (wrap v x + y) = wrap w (x + y).
Proof.
  intros Hw. unfold wrap. assert (H0 : 0 < 2 ^ w) by (apply Z.pow_pos_nonneg; lia). assert (H1 : 0 < 2 ^ (v - w)) by (apply Z.pow_pos_nonneg; lia).
  assert (E : x mod 2 ^ v = x + (- (x / 2 ^ v) * 2 ^ (v - w)) * 2 ^ w).
  { rewrite (Z.mod_eq x (2 ^ v)) by nia. replace (2 ^ v) with (2 ^ (v - w) * 2 ^ w) by (rewrite <- Z.pow_add_r by lia; f_equal; lia). lia. }
  rewrite E. replace (x + - (x / 2 ^ v) * 2 ^ (v - w) * 2 ^ w + y) with (x + y + (- (x / 2 ^ v) * 2 ^ (v - w)) * 2 ^ w) by lia. by apply Z.mod_add; lia.
Qed.

(** The slot of the zone [z] that comes after [before]. *)
Definition zone_slot (before : list zone_split) (z : zone_split) : zone_split_index :=
  let s := zsum (zs_size_perc <$> before) in let b := zsum (zs_size <$> before) in
  Zsi (wrap 8 (s + zs_size_perc z)) (wrap 8 s) (u64 (b + zs_size z)) (u64 b).

Lemma zsum_app l k : zsum (l ++ k) = zsum l + zsum k.
Proof. induction l as [|x l IH]; [done|]. cbn [app]. rewrite !zsum_cons, IH. lia. Qed.
Lemma zsum_one x : zsum [x] = x.
Proof. cbn. lia. Qed.

Lemma zone_slots_ok : forall l dn sprev sz t, Forall (fun z => 0 <= access_perc z) l -> 0 <= zsum (access_perc <$> dn) ->
  zsum (access_perc <$> (dn ++ l)) <= 100 -> length t = 100%nat ->
  sprev = u32 (zsum (zs_size_perc <$> dn)) -> sz = u64 (zsum (zs_size <$> dn)) ->
  exists t', zone_slots l (zsum (access_perc <$> dn)) sprev sz t = Some t' /\ length t' = 100%nat /\
    (forall j, Z.of_nat j < zsum (access_perc <$> dn) -> t' !! j = t !! j) /\
    forall j, zsum (access_perc <$> dn) <= Z.of_nat j < zsum (access_perc <$> (dn ++ l)) -> exists pre z post, l = pre ++ z :: post /\
      zsum (access_perc <$> (dn ++ pre)) <= Z.of_nat j < zsum (access_perc <$> (dn ++ pre)) + access_perc z /\
      t' !! j = Some (Some (zone_slot (dn ++ pre) z)).
Proof.
  induction l as [|z l IH]; intros dn sprev sz t Hpos Hd Hsum Hlen Es Ez; cbn [zone_slots].
  - exists t. rewrite app_nil_r. split; [done|]. split; [done|]. split; [done|]. intros j Hj. lia.
  - apply Forall_cons_iff in Hpos as [Hz Hpos].
    assert (Hl0 : 0 <= zsum (access_perc <$> l)) by (clear - Hpos; induction Hpos as [|y l Hy _ IH]; [done|]; rewrite fmap_cons, zsum_cons; lia).
    assert (E1 : dn ++ z :: l = (dn ++ [z]) ++ l) by (by rewrite <- app_assoc).
    assert (E2 : zsum (access_perc <$> (dn ++ [z])) = zsum (access_perc <$> dn) + access_perc z) by (rewrite fmap_app, zsum_app; change (access_perc <$> [z]) with [access_perc z]; by rewrite zsum_one).
    rewrite E1 in Hsum. assert (E3 := Hsum). rewrite fmap_app, zsum_app, E2 in E3.
    assert (Ezsi : Zsi (wrap 8 (sprev + zs_size_perc z)) (wrap 8 sprev) (u64 (sz + zs_size z)) sz = zone_slot dn z).
    { unfold zone_slot. rewrite Es, Ez. rewrite !wrap_add_low by lia. f_equal.
      rewrite <- (Z.add_0_r (u32 _)), wrap_add_low, Z.add_0_r by lia. done. }
    rewrite Ezsi. unfold put_slots. destruct (put_slots_ok (zone_slot dn z) (Z.to_nat (access_perc z)) (Z.to_nat (zsum (access_perc <$> dn))) t) as (t1 & -> & Hl1 & Hj1); [lia|].
    cbn [mbind option_bind].
    assert (Ea : u32 (zsum (access_perc <$> dn) + access_perc z) = zsum (access_perc <$> (dn ++ [z]))) by (rewrite E2; apply wrap_small; unfold uint; lia).
    rewrite Ea. destruct (IH (dn ++ [z]) (u32 (sprev + zs_size_perc z)) (u64 (sz + zs_size z)) t1) as (t' & Er & Hl' & Hlow & Hin); [done|lia|done|lia| | |].
    { rewrite Es, wrap_add_low, fmap_app, zsum_app by lia. change (zs_size_perc <$> [z]) with [zs_size_perc z]. by rewrite zsum_one. }
    { rewrite Ez, wrap_add_low, fmap_app, zsum_app by lia. change (zs_size <$> [z]) with [zs_size z]. by rewrite zsum_one. }
    exists t'. split; [done|]. split; [done|]. split.
    + intros j Hj. rewrite Hlow by lia. rewrite Hj1. by rewrite decide_False by lia.
    + intros j Hj. destruct (Z.lt_ge_cases (Z.of_nat j) (zsum (access_perc <$> (dn ++ [z])))) as [Hj'|Hj'].
      * exists [], z, l. rewrite app_nil_r. split; [done|]. split; [lia|]. rewrite Hlow by lia. rewrite Hj1. by rewrite decide_True by lia.
      * destruct (Hin j) as (pre & y & post & -> & Hy & Ht); [rewrite <- E1; lia|]. rewrite <- app_assoc in Hy, Ht. cbn [app] in Hy, Ht.
        by exists (z :: pre), y, post.
Qed.

(** A table in which every slot is that of the zone its number falls into. *)
Definition table_of (absolute : bool) (l : list zone_split) (t : list (option zone_split_index)) : Prop :=
  length t = 100%nat /\ forall j, (j < 100)%nat -> exists pre z post, l = pre ++ z :: post /\
    zsum (access_perc <$> pre) <= Z.of_nat j < zsum (access_perc <$> pre) + access_perc z /\ t !! j = Some (Some (zone_slot pre z)) /\
    (absolute = false ->
       size_perc_prev (zone_slot pre z) = zsum (zs_size_perc <$> pre) /\
       size_perc (zone_slot pre z) = zsum (zs_size_perc <$> pre) + zs_size_perc z /\
       0 <= size_perc_prev (zone_slot pre z) <= size_perc (zone_slot pre z) /\ size_perc (zone_slot pre z) <= 100).

Lemma gen_index_ok absolute l : zone_ok absolute l -> exists t, __td_zone_gen_index l = Some t /\ table_of absolute l t.
Proof.
  intros [Ha Hp Hs]. destruct (zone_slots_ok l [] 0 0 (replicate 100 None) Hp) as (t & E & Hl & _ & Hj); [done|cbn [app]; lia|done|done|done|].
  exists t. split; [exact E|]. split; [done|]. intros j Hj100. destruct (Hj j) as (pre & z & post & El & Hr & Ht); [cbn [app]; change (zsum (access_perc <$> [])) with 0; lia|].
  cbn [app] in Hr, Ht. exists pre, z, post. split; [done|]. split; [done|]. split; [done|]. intros Hab.
  destruct (Hs Hab) as [Hs1 Hs2]. rewrite El in Hs1, Hs2. apply Forall_app in Hs2 as [Hs2 Hs3]. apply Forall_cons_iff in Hs3 as [Hz Hs3].
  assert (Hn : forall k, Forall (fun z => 0 <= zs_size_perc z) k -> 0 <= zsum (zs_size_perc <$> k)).
  { clear. induction 1 as [|y k Hy _ IH]; [done|]. rewrite fmap_cons, zsum_cons. lia. }
  rewrite fmap_app, zsum_app, fmap_cons, zsum_cons in Hs1. pose proof (Hn _ Hs2). pose proof (Hn _ Hs3).
  cbn. rewrite !wrap_small by (unfold uint; lia). lia.
Qed.

Lemma zones_of_ok absolute o : zone_inv absolute o -> exists t, td_zone_gen_index o = Some t /\
  forall d l, so_zone_split_nr o d <> 0 -> so_zone_split o d = Some l -> table_of absolute l (t d).
Proof.
  intros Hi. assert (H : forall d, exists t, zones_of o d ≫= __td_zone_gen_index = Some t /\
    forall l, so_zone_split_nr o d <> 0 -> so_zone_split o d = Some l -> table_of absolute l t).
  { intros d. unfold zones_of. destruct (Hi d) as [E|(l & E & Hn & Hok)].
    - rewrite E. eexists. split; [done|]. intros l Hc. done.
    - destruct (gen_index_ok absolute l Hok) as (t & Et & Htab). rewrite E. cbn [mbind option_bind].
      rewrite (proj2 (Z.eqb_eq (Z.of_nat (length l)) (so_zone_split_nr o d))) by done.
      destruct (Z.eqb_spec (so_zone_split_nr o d) 0) as [E0|E0].
      + eexists. split; [done|]. intros k Hc. done.
      + exists t. split; [exact Et|]. intros k _ Hk. by injection Hk as <-. }
  destruct (H DDIR_READ) as (r & Er & Hr), (H DDIR_WRITE) as (w & Ew & Hw), (H DDIR_TRIM) as (t & Et & Ht).
  unfold td_zone_gen_index. rewrite Er, Ew, Et. cbn [mbind option_bind]. eexists. split; [done|]. intros []; [exact Hr|exact Hw|exact Ht].
Qed.

Lemma zone_inv_zero absolute o : zone_inv absolute (set_zone_split_nr all_zero o).
Proof. intros d. by left. Qed.

(** C33. Zones are complete: whatever the text of a zoned distribution, parsing it
    keeps the zones of every direction consistent, and when it is accepted the
    table that the random offsets index has all its hundred slots, each written
    from the zone into whose access percentages its number falls, with nothing
    written outside.  When sizes are percentages the slots hold their exact sums,
    in order and at most 100. *)
Theorem zones_complete arith kb junk dry e o input absolute : zone_inv absolute o ->
  exists e' o' tabs ret, parse_zoned_distribution arith kb junk false dry e o input absolute = Some (e', o', tabs, ret) /\
    zone_inv absolute o' /\
    (ret = 0 -> dry = false -> exists t, tabs = Some t /\
       forall d l, so_zone_split_nr o' d <> 0 -> so_zone_split o' d = Some l -> table_of absolute l (t d)).
Proof.
  intros Hi. unfold parse_zoned_distribution. destruct (negb (starts _ _)); [by exists e, o, None, 1|].
  destruct (str_split_parse _ _ _ _ _) as [[e1 o1] ret] eqn:E. cbn [andb].
  destruct dry; [exists e1, (free_zone_splits o1), None, ret; split; [done|]; split; [apply zone_inv_zero|done]|].
  destruct (Z.eqb_spec ret 0) as [->|Hr]; [|exists e1, (set_zone_split_nr all_zero o1), None, ret; split; [done|]; split; [apply zone_inv_zero|done]].
  assert (Hi1 : zone_inv absolute o1).
  { revert E. apply str_split_inv; [|done]. intros e2 o2 d s e3 o3 H2 H3. exact (zone_split_ddir_inv _ _ _ _ _ _ _ _ _ _ H2 H3). }
  destruct (zones_of_ok absolute o1 Hi1) as (t & -> & Ht). cbn [mbind option_bind]. exists e1, o1, (Some t), 0. split; [done|]. split; [done|].
  intros _ _. by exists t.
Qed.

Definition no_arith : bool -> list Z -> bool -> bool -> bool * option Z := fun e _ _ _ => (e, None).
Definition no_splits : split_opts := Sopts (fun _ => None) (fun _ => 0) (fun _ => 0) (fun _ => 0) (fun _ => None) (fun _ => 0).
Definition some_memory (d : fio_ddir) (i : nat) : zone_split := Zs 7 8 9.

Lemma zones_complete_witness :
  (exists e' o' t, parse_zoned_distribution no_arith 1024 some_memory false false false no_splits (codes "zoned:60/10:30/20:10") false
    = Some (e', o', Some t, 0) /\ t DDIR_WRITE !! 60%nat = Some (Some (Zsi 30 10 18 9))) /\
  exists e' o' tabs ret, parse_zoned_distribution no_arith 1024 some_memory false false false no_splits (codes "zoned:60/10:30/20:10") false
    = Some (e', o', tabs, ret) /\ zone_inv false o' /\
    (ret = 0 -> false = false -> exists t, tabs = Some t /\
       forall d l, so_zone_split_nr o' d <> 0 -> so_zone_split o' d = Some l -> table_of false l (t d)).
Proof.
  split; [eexists _, _, _; split; [vm_compute; reflexivity|vm_compute; reflexivity]|].
  exact (zones_complete no_arith 1024 some_memory false false no_splits (codes "zoned:60/10:30/20:10") false (fun d => or_introl eq_refl)).
Defined.
