(* ===== verification/SplitBs.v ===== *)
(** * Block size splits get the shares they ask for

    From the text of a split to the sorted list the I/O path draws sizes from, and
    the lists that are accepted although they do not add up. *)
From Stdlib Require Import String Sorted Permutation.
From S2P Require Import Prelude Pattern PatternParse ParseNum OptParse IoU Split SplitInv.

(** ** The text of a split *)
Fixpoint joined (c : Z) (l : list (list Z)) : list Z :=
  match l with [] => [] | [f] => f | f :: l => f ++ c :: joined c l end.

Lemma fields_one c f : c ∉ f -> fields c f = [f].
Proof.
  induction f as [|x f IH]; intros H; [done|]. apply not_elem_of_cons in H as [Hx H]. cbn [fields].
  by rewrite (proj2 (Z.eqb_neq x c)), IH by done.
Qed.

Lemma fields_app c f s : c ∉ f -> fields c (f ++ c :: s) = f :: fields c s.
Proof.
  induction f as [|x f IH]; intros H; cbn [app fields]; [by rewrite Z.eqb_refl|]. apply not_elem_of_cons in H as [Hx H].
  by rewrite (proj2 (Z.eqb_neq x c)), IH by done.
Qed.

Lemma fields_joined c l : l <> [] -> Forall (fun f => c ∉ f) l -> fields c (joined c l) = l.
Proof.
  induction l as [|f l IH]; intros Hne Hl; [done|]. apply Forall_cons_iff in Hl as [Hf Hl]. destruct l as [|g l]; [by apply fields_one|].
  change (joined c (f :: g :: l)) with (f ++ c :: joined c (g :: l)). rewrite fields_app by done. by rewrite IH.
Qed.

Lemma digits_not n c : 0 <= n < 10 ^ 20 -> is_digit c = false -> c ∉ print_dec n.
Proof.
  intros Hn Hc Hin. destruct (print_dec_ok n Hn) as [Hd _]. rewrite list.Forall_forall in Hd. apply Hd in Hin. congruence.
Qed.

Lemma atoi_dec e p : 0 <= p <= 100 -> atoi e (print_dec p) = (e, p).
Proof.
  intros Hp. destruct (print_dec_ok p) as (Hs & Hv & Hl); [lia|]. unfold atoi.
  pose proof (strtoll_digits (print_dec p) [] Hl Hs eq_refl) as E. rewrite app_nil_r, Hv in E. rewrite E.
  assert (Hm : LONG_MAX = 2 ^ 63 - 1) by reflexivity. rewrite Z.min_r by lia. rewrite (proj2 (Z.leb_le p LONG_MAX)) by lia. cbn [negb].
  rewrite orb_false_r. f_equal. apply sgn_small; lia.
Qed.

(** An entry: the text of a block size, its value, and perhaps a percentage. *)
Record bs_entry := Entry { en_text : list Z; en_bs : Z; en_perc : option Z }.

Section entries.
Context (arith : bool -> list Z -> bool -> bool -> bool * option Z) (kb_base : Z).

Record entry_ok (n : bs_entry) : Prop := {
  eo_reads : forall e, decimal arith kb_base e (en_text n) = (e, Some (en_bs n));
  eo_bs : uint 32 (en_bs n);
  eo_colon : 58 ∉ en_text n;
  eo_slash : 47 ∉ en_text n;
  eo_perc : forall p, en_perc n = Some p -> 1 <= p <= 100
}.

Definition entry_text (n : bs_entry) : list Z :=
  en_text n ++ match en_perc n with Some p => 47 :: print_dec p | None => [] end.
Definition split_text (l : list bs_entry) : list Z := joined 58 (entry_text <$> l).
Definition entry_val (n : bs_entry) : Z * Z := (en_bs n, default (-1U) (en_perc n)).

Lemma reads_nonempty n : entry_ok n -> en_text n <> [].
Proof. intros [Hr _ _ _ _] E. specialize (Hr false). rewrite E in Hr. done. Qed.

Lemma entry_parsed e n : entry_ok n -> split_entry arith kb_base e false (entry_text n) = (e, Some (entry_val n)).
Proof.
  intros [Hr Hb Hc Hs Hp]. unfold split_entry, entry_text, entry_val.
  assert (Hm : u64 (-1U) = -1U) by reflexivity.
  destruct (en_perc n) as [p|]; cbn [default from_option id].
  - specialize (Hp p eq_refl). rewrite (strchr_app _ 47) by done.
    rewrite drop_app_ge by lia. replace (S (length (en_text n)) - length (en_text n))%nat with 1%nat by lia. change (drop 1 (47 :: print_dec p)) with (print_dec p).
    rewrite atoi_dec by lia. rewrite (wrap_small 64 p) by (unfold uint; lia).
    rewrite (proj2 (Z.ltb_ge 100 p)), (proj2 (Z.eqb_neq p 0)) by lia. rewrite take_app_length, Hr. cbn [mbind option_bind].
    rewrite !wrap_small by (done || unfold uint; lia). done.
  - rewrite app_nil_r, strchr_none by done. rewrite Hr. cbn [mbind option_bind]. rewrite Hm, wrap_small by done. done.
Qed.

Lemma entries_parsed e : forall l max, (length l <= max)%nat -> Forall entry_ok l ->
  split_entries arith kb_base e false max (entry_text <$> l) = (e, Some (entry_val <$> l)).
Proof.
  induction l as [|n l IH]; intros max Hl Hok; [done|]. apply Forall_cons_iff in Hok as [Hn Hok]. cbn [fmap list_fmap split_entries].
  rewrite bool_decide_eq_false_2.
  2: { unfold entry_text. intros E. apply app_eq_nil in E as [E _]. by apply (reads_nonempty n Hn). }
  rewrite entry_parsed by done. destruct max as [|[|max]]; [cbn in Hl; lia|destruct l; [done|cbn in Hl; lia]|].
  cbn [length] in Hl. rewrite IH by (done || lia). done.
Qed.

Lemma text_parsed e l max : l <> [] -> (length l <= max)%nat -> Forall entry_ok l ->
  split_parse_ddir arith kb_base e (split_text l) false max = (e, Some (entry_val <$> l)).
Proof.
  intros Hne Hl Hok. unfold split_parse_ddir, split_text. rewrite fields_joined; [by apply entries_parsed|by destruct l|].
  apply Forall_fmap. eapply Forall_impl; [|exact Hok]. intros n [_ _ Hc _ Hp] Hin. unfold entry_text in Hin.
  apply elem_of_app in Hin as [Hin|Hin]; [done|]. destruct (en_perc n) as [p|]; [|by apply elem_of_nil in Hin].
  apply elem_of_cons in Hin as [Hin|Hin]; [done|]. specialize (Hp p eq_refl). by apply (digits_not p 58) in Hin; [|lia|].
Qed.
End entries.

(** ** Sorting and ranges *)
Lemma bs_insert_perm b l : bs_insert b l ≡ₚ b :: l.
Proof. induction l as [|c l IH]; cbn [bs_insert]; [done|]. case_match; [done|]. rewrite IH. by constructor. Qed.
Lemma bs_sort_perm l : bs_sort l ≡ₚ l.
Proof. induction l as [|b l IH]; [done|]. cbn [bs_sort foldr]. fold (bs_sort l). by rewrite bs_insert_perm, IH. Qed.

Definition perc_le (a b : bssplit_t) : Prop := bsp_perc a <= bsp_perc b.
Definition small_perc (b : bssplit_t) : Prop := 0 <= bsp_perc b <= 100.

Lemma bs_cmp_small a b : small_perc a -> small_perc b -> bs_cmp a b = bsp_perc a - bsp_perc b.
Proof. unfold small_perc, bs_cmp. intros Ha Hb. rewrite !sgn_small by lia. done. Qed.

Lemma bs_insert_sorted b l : small_perc b -> Forall small_perc l -> StronglySorted perc_le l -> StronglySorted perc_le (bs_insert b l).
Proof.
  intros Hb Hl Hs. induction Hs as [|c l Hs IH Hc]; cbn [bs_insert]; [by repeat constructor|].
  apply Forall_cons_iff in Hl as [Hsc Hl]. rewrite bs_cmp_small by done. destruct (Z.leb_spec (bsp_perc b - bsp_perc c) 0) as [Hle|Hgt].
  - constructor; [by constructor|]. constructor; [unfold perc_le; lia|]. eapply Forall_impl; [|exact Hc]. unfold perc_le. cbn beta. lia.
  - constructor; [by apply IH|]. rewrite (bs_insert_perm b l). constructor; [unfold perc_le; lia|done].
Qed.

Lemma bs_sort_sorted l : Forall small_perc l -> StronglySorted perc_le (bs_sort l).
Proof.
  induction 1 as [|b l Hb Hl IH]; [constructor|]. cbn [bs_sort foldr]. fold (bs_sort l). apply bs_insert_sorted; [done| |done].
  by rewrite bs_sort_perm.
Qed.

Lemma fold_max l : forall m, let r := fold_left (fun m v => if m <? v then v else m) l m in
  m <= r /\ Forall (fun v => v <= r) l /\ (r = m \/ r ∈ l).
Proof.
  induction l as [|v l IH]; intros m; cbn [fold_left]; [split; [lia|split; [constructor|by left]]|].
  destruct (IH (if m <? v then v else m)) as (H1 & H2 & H3). cbn zeta in *. set (r := fold_left _ _ _) in *.
  assert (Hm : m <= (if m <? v then v else m) /\ v <= (if m <? v then v else m)) by (destruct (Z.ltb_spec m v); lia).
  split; [lia|]. split; [constructor; [lia|done]|]. destruct H3 as [H3|H3]; [|right; by right].
  destruct (m <? v); [right; rewrite H3; by left|by left].
Qed.
Lemma fold_min l : forall m, let r := fold_left (fun m v => if v <? m then v else m) l m in
  r <= m /\ Forall (fun v => r <= v) l /\ (r = m \/ r ∈ l).
Proof.
  induction l as [|v l IH]; intros m; cbn [fold_left]; [split; [lia|split; [constructor|by left]]|].
  destruct (IH (if v <? m then v else m)) as (H1 & H2 & H3). cbn zeta in *. set (r := fold_left _ _ _) in *.
  assert (Hm : (if v <? m then v else m) <= m /\ (if v <? m then v else m) <= v) by (destruct (Z.ltb_spec v m); lia).
  split; [lia|]. split; [constructor; [lia|done]|]. destruct H3 as [H3|H3]; [|right; by right].
  destruct (v <? m); [right; rewrite H3; by left|by left].
Qed.

(** ** Shares *)
Definition asked (l : list bs_entry) : Z := zsum (omap en_perc l).
Definition unasked (l : list bs_entry) : Z := Z.of_nat (length (filter (fun n => en_perc n = None) l)).

(** Entries without a percentage divide what is left; a single one is always
    chosen and gets none. *)
Definition rest_share (l : list bs_entry) : Z :=
  if (unasked l =? 1) && (length l =? 1)%nat then 0 else (100 - asked l) / unasked l.
Definition shares (l : list bs_entry) : list bssplit_t := (fun n => Bssplit (en_bs n) (default (rest_share l) (en_perc n))) <$> l.

Lemma perc_counts (l : list bs_entry) : (forall n p, n ∈ l -> en_perc n = Some p -> 1 <= p <= 100) ->
  given (-1U) ((fun n => default (-1U) (en_perc n)) <$> l) = asked l /\ missing (-1U) ((fun n => default (-1U) (en_perc n)) <$> l) = unasked l /\
  Forall (fun p => p = -1U \/ 0 <= p <= 100) ((fun n => default (-1U) (en_perc n)) <$> l).
Proof.
  unfold given, missing, asked, unasked. assert (Hm : -1U = 4294967295) by reflexivity. induction l as [|n l IH]; intros H; [done|].
  destruct IH as (H1 & H2 & H3); [intros m p Hin; apply H; by right|]. rewrite fmap_cons, !filter_cons. cbn [omap list_omap].
  specialize (H n). destruct (en_perc n) as [p|]; cbn [default from_option id].
  - specialize (H p ltac:(by left) eq_refl). rewrite decide_True by (rewrite Hm; lia). rewrite decide_False by (rewrite Hm; lia). rewrite decide_False by done.
    rewrite !zsum_cons. split; [by f_equal|]. split; [done|]. constructor; [right; lia|done].
  - rewrite decide_False by tauto. rewrite !decide_True by done. cbn [length]. split; [done|]. split; [lia|]. constructor; [by left|done].
Qed.

Lemma shares_sum l : zsum (bsp_perc <$> shares l) = asked l + unasked l * rest_share l.
Proof.
  unfold shares, asked, unasked. generalize (rest_share l). intros r. induction l as [|n l IH]; [done|].
  rewrite !fmap_cons, zsum_cons, IH, filter_cons. cbn [omap list_omap bsp_perc].
  destruct (en_perc n) as [p|]; [rewrite decide_False by done; rewrite zsum_cons; cbn [default from_option id]; lia|].
  rewrite decide_True by done. cbn [length default from_option id]. lia.
Qed.

Lemma rest_bound l : asked l <= 100 -> 0 <= asked l -> 0 < unasked l ->
  0 <= rest_share l <= 100 /\ unasked l * rest_share l <= 100 - asked l /\
  ((1 < length l)%nat -> 100 - asked l - unasked l < unasked l * rest_share l).
Proof.
  intros Ha H0 Hu. unfold rest_share. destruct (_ && _) eqn:E.
  - apply andb_true_iff in E as [_ E]. apply Nat.eqb_eq in E. lia.
  - pose proof (Z.mul_div_le (100 - asked l) (unasked l) Hu). pose proof (Z.mul_succ_div_gt (100 - asked l) (unasked l) Hu).
    assert (0 <= (100 - asked l) / unasked l) by (apply Z.div_pos; lia). nia.
Qed.

Lemma asked_nonneg l : (forall n p, n ∈ l -> en_perc n = Some p -> 1 <= p <= 100) -> 0 <= asked l.
Proof.
  unfold asked. induction l as [|n l IH]; intros H; [done|]. cbn [omap list_omap]. specialize (IH ltac:(intros m p Hin; apply H; by right)).
  destruct (en_perc n) as [p|] eqn:E; [|done]. rewrite zsum_cons. specialize (H n p ltac:(by left) E). lia.
Qed.

(** The list before it is sorted. *)
Lemma filled_shares (l : list bs_entry) : (forall n p, n ∈ l -> en_perc n = Some p -> 1 <= p <= 100) -> asked l <= 100 ->
  let k := (fun '(v1, v2) => Bssplit v1 (u32 v2)) <$> (entry_val <$> l) in
  (if unasked l =? 0 then k
   else (fun b => if bsp_perc b =? -1U then Bssplit (bsp_bs b) (missing_share (asked l) (unasked l) (length k)) else b) <$> k) = shares l.
Proof.
  intros Hp Ha k. pose proof (asked_nonneg l Hp) as H0. assert (Hm : -1U = 4294967295) by reflexivity.
  assert (Hk : length k = length l) by (unfold k; by rewrite !length_fmap).
  assert (Es : 0 < unasked l -> missing_share (asked l) (unasked l) (length k) = rest_share l).
  { intros Hu. unfold missing_share, rest_share. rewrite Hk. destruct (_ && _); [rewrite Z.sub_diag; change (u32 0) with 0; by apply Z.div_0_l; lia|].
    rewrite wrap_small by (unfold uint; lia). done. }
  assert (Hu0 : 0 <= unasked l) by (unfold unasked; lia).
  assert (Hcase : forall n, n ∈ l -> en_perc n = None -> 0 < unasked l).
  { intros n Hn E. unfold unasked. assert (Hin : n ∈ filter (fun n => en_perc n = None) l) by (by apply list_elem_of_filter).
    destruct (filter _ l); [by apply elem_of_nil in Hin|cbn [length]; lia]. }
  unfold shares, k. rewrite <- !list_fmap_compose.
  transitivity ((fun n => if unasked l =? 0 then Bssplit (en_bs n) (u32 (default (-1U) (en_perc n)))
    else if u32 (default (-1U) (en_perc n)) =? -1U then Bssplit (en_bs n) (missing_share (asked l) (unasked l) (length k)) else Bssplit (en_bs n) (u32 (default (-1U) (en_perc n)))) <$> l).
  { unfold k. rewrite !length_fmap. destruct (unasked l =? 0); [by rewrite <- ?list_fmap_compose|]. rewrite <- ?list_fmap_compose. done. }
  apply list_fmap_ext. intros i n Hn%list_elem_of_lookup_2. destruct (en_perc n) as [p|] eqn:E; cbn [default from_option id].
  - specialize (Hp n p Hn E). rewrite (wrap_small 32 p) by (unfold uint; lia). rewrite (proj2 (Z.eqb_neq p (-1U))) by (rewrite Hm; lia). by destruct (unasked l =? 0).
  - specialize (Hcase n Hn E). rewrite (proj2 (Z.eqb_neq (unasked l) 0)) by lia. rewrite Es by done. done.
Qed.

Lemma zsum_perm (l k : list Z) : l ≡ₚ k -> zsum l = zsum k.
Proof. induction 1 as [|x a b _ IH|x y a|a b c _ IH1 _ IH2]; [done|rewrite !zsum_cons; lia|rewrite !zsum_cons; lia|lia]. Qed.

Lemma shares_small l : (forall n p, n ∈ l -> en_perc n = Some p -> 1 <= p <= 100) -> asked l <= 100 -> Forall small_perc (shares l).
Proof.
  intros Hp Ha. unfold shares. apply Forall_fmap, list.Forall_forall. intros n Hn. unfold compose, small_perc. cbn [bsp_perc].
  destruct (en_perc n) as [p|] eqn:E; cbn [default from_option id]; [specialize (Hp n p Hn E); lia|].
  apply rest_bound; [done|by apply asked_nonneg|]. unfold unasked.
  assert (Hin : n ∈ filter (fun n => en_perc n = None) l) by (by apply list_elem_of_filter).
  destruct (filter _ l); [by apply elem_of_nil in Hin|cbn [length]; lia].
Qed.

Lemma shares_total l : asked l <= 100 -> 0 <= asked l -> zsum (bsp_perc <$> bs_sort (shares l)) <= 100 /\
  ((1 < length l)%nat -> 0 < unasked l -> 100 - unasked l < zsum (bsp_perc <$> bs_sort (shares l))).
Proof.
  intros Ha H0. rewrite (zsum_perm _ (bsp_perc <$> shares l)) by (by rewrite bs_sort_perm). rewrite shares_sum.
  pose proof (rest_bound l Ha H0) as Hr. assert (Hu : 0 <= unasked l) by (unfold unasked; lia).
  destruct (Z.eq_dec (unasked l) 0) as [E|E]; [rewrite E; lia|]. specialize (Hr ltac:(lia)) as (H1 & H2 & H3). split; [lia|].
  intros Hl _. specialize (H3 Hl). lia.
Qed.

(** The bounds of the sizes in a list. *)
Lemma bs_bounds (s : list bssplit_t) (vs : list Z) : bsp_bs <$> s ≡ₚ vs -> vs <> [] -> Forall (uint 32) vs ->
  let mx := fold_left (fun m v => if m <? v then v else m) vs 0 in let mn := fold_left (fun m v => if v <? m then v else m) vs (-1U) in
  Forall (fun b => mn <= bsp_bs b <= mx) s /\ mn ∈ bsp_bs <$> s /\ mx ∈ bsp_bs <$> s.
Proof.
  intros HP Hne Hu mx mn. destruct (fold_max vs 0) as (H1 & H2 & H3), (fold_min vs (-1U)) as (H4 & H5 & H6). fold mx in H1, H2, H3. fold mn in H4, H5, H6.
  cbn zeta in *. fold mx in H1, H2, H3. fold mn in H4, H5, H6. assert (Hm : -1U = 2 ^ 32 - 1) by reflexivity.
  assert (Hall : forall v, v ∈ vs -> mn <= v <= mx /\ uint 32 v).
  { intros v Hv. rewrite list.Forall_forall in H2, H5, Hu. split; [split; [by apply H5|by apply H2]|by apply Hu]. }
  destruct vs as [|v0 vs]; [done|]. destruct (Hall v0 ltac:(by left)) as [Hv0 Hu0]. unfold uint in Hu0.
  split_and!.
  - apply list.Forall_forall. intros b Hb. apply Hall. rewrite <- HP. by apply list_elem_of_fmap_2.
  - rewrite HP. destruct H6 as [H6|H6]; [|done]. assert (v0 = mn) as <- by lia. by left.
  - rewrite HP. destruct H3 as [H3|H3]; [|done]. assert (v0 = mx) as <- by lia. by left.
Qed.

(** Splits that may fall short of 100 as well: a lone size without a percentage gets
    none, a remainder that does not divide evenly is dropped, and percentages that
    leave something over are accepted. *)
Lemma bssplit_parsed arith kb e o d l : l <> [] -> (length l <= BSSPLIT_MAX)%nat -> Forall (entry_ok arith kb) l -> asked l <= 100 ->
  exists o' s, bssplit_ddir arith kb e o d (split_text l) false = (e, o', 0) /\
    so_bssplit o' d = Some s /\ so_bssplit_nr o' d = Z.of_nat (length l) /\ s ≡ₚ shares l /\ StronglySorted perc_le s /\
    zsum (bsp_perc <$> s) <= 100 /\ ((1 < length l)%nat -> 0 < unasked l -> 100 - unasked l < zsum (bsp_perc <$> s)) /\
    Forall (fun b => so_min_bs o' d <= bsp_bs b <= so_max_bs o' d) s /\ so_min_bs o' d ∈ bsp_bs <$> s /\ so_max_bs o' d ∈ bsp_bs <$> s /\
    (forall d', d' <> d -> so_bssplit o' d' = so_bssplit o d' /\ so_min_bs o' d' = so_min_bs o d' /\ so_max_bs o' d' = so_max_bs o d').
Proof.
  intros Hne Hlen Hok Ha.
  assert (Hp : forall n p, n ∈ l -> en_perc n = Some p -> 1 <= p <= 100) by (intros n p Hn; rewrite list.Forall_forall in Hok; by apply (Hok n Hn)).
  pose proof (asked_nonneg l Hp) as H0. unfold bssplit_ddir. rewrite text_parsed by done.
  destruct (entry_val <$> l) as [|v vs] eqn:Ev; [by destruct l|]. rewrite <- Ev. set (k := (fun '(v1, v2) => Bssplit v1 (u32 v2)) <$> (entry_val <$> l)).
  destruct (perc_counts l Hp) as (E1 & E2 & E3).
  assert (Ek : bsp_perc <$> k = (fun n => default (-1U) (en_perc n)) <$> l).
  { unfold k. rewrite <- !list_fmap_compose. apply list_fmap_ext. intros i n Hn%list_elem_of_lookup_2. unfold compose, entry_val. cbn [bsp_perc].
    destruct (en_perc n) as [p|] eqn:E; cbn [default from_option id]; [|done]. specialize (Hp n p Hn E). apply wrap_small. unfold uint. lia. }
  rewrite Ek, (sum_perc_spec (-1U) 100), E1, E2 by (done || lia || rewrite length_fmap; unfold BSSPLIT_MAX in Hlen; lia).
  rewrite (proj2 (Z.ltb_ge 100 (asked l))) by lia. cbn [andb]. pose proof (filled_shares l Hp Ha) as Ef. fold k in Ef. cbn zeta in Ef. rewrite Ef.
  eexists _, (bs_sort (shares l)). split; [reflexivity|].
  assert (Ebs : bsp_bs <$> shares l = (entry_val <$> l).*1) by (unfold shares; by rewrite <- !list_fmap_compose).
  destruct (bs_bounds (bs_sort (shares l)) (entry_val <$> l).*1) as (B1 & B2 & B3).
  { rewrite <- Ebs. by rewrite bs_sort_perm. }
  { by rewrite Ev. }
  { rewrite <- list_fmap_compose. apply Forall_fmap. eapply Forall_impl; [|exact Hok]. intros n Hn. apply Hn. }
  destruct (shares_total l Ha H0) as [T1 T2].
  split_and!; [|..|intros d' Hd']; cbn; unfold upd; rewrite ?decide_True by done; try assumption.
  - done.
  - by rewrite length_fmap.
  - apply bs_sort_perm.
  - apply bs_sort_sorted. by apply shares_small.
  - by rewrite !decide_False by done.
Qed.

(** The percentages add up: all are given and make 100, or the sizes without one, not
    alone in the list, divide what is left evenly. *)
Definition adds_up (l : list bs_entry) : Prop :=
  if unasked l =? 0 then asked l = 100 else (1 < length l)%nat /\ asked l <= 100 /\ (100 - asked l) mod unasked l = 0.

Lemma adds_up_total l : adds_up l -> zsum (bsp_perc <$> shares l) = 100.
Proof.
  intros Ha. rewrite shares_sum. unfold adds_up, rest_share in *. destruct (Z.eqb_spec (unasked l) 0) as [->|Hu]; [lia|]. destruct Ha as (Hl & _ & Hm).
  rewrite (proj2 (Nat.eqb_neq _ _)), andb_false_r by lia. pose proof (Z.div_mod (100 - asked l) (unasked l) Hu). lia.
Qed.

(** C34. Block size splits: a text that lists up to 64 block sizes whose percentages
    are all given and make 100, or of which at least two, some without a percentage,
    leave a rest that divides evenly among these, is accepted and becomes the list
    of those sizes ordered by percentage, each with its percentage or an even part
    of the rest, 100 in all.  The least and the greatest size become the bounds of
    the block size, and the other directions are left alone. *)
Theorem bssplit_shares arith kb e o d l : l <> [] -> (length l <= BSSPLIT_MAX)%nat -> Forall (entry_ok arith kb) l -> adds_up l ->
  exists o' s, bssplit_ddir arith kb e o d (split_text l) false = (e, o', 0) /\
    so_bssplit o' d = Some s /\ so_bssplit_nr o' d = Z.of_nat (length l) /\ s ≡ₚ shares l /\ StronglySorted perc_le s /\
    zsum (bsp_perc <$> s) = 100 /\
    Forall (fun b => so_min_bs o' d <= bsp_bs b <= so_max_bs o' d) s /\ so_min_bs o' d ∈ bsp_bs <$> s /\ so_max_bs o' d ∈ bsp_bs <$> s /\
    (forall d', d' <> d -> so_bssplit o' d' = so_bssplit o d' /\ so_min_bs o' d' = so_min_bs o d' /\ so_max_bs o' d' = so_max_bs o d').
Proof.
  intros Hne Hlen Hok Ha.
  assert (Hle : asked l <= 100) by (unfold adds_up in Ha; destruct (unasked l =? 0); [lia|tauto]).
  destruct (bssplit_parsed arith kb e o d l Hne Hlen Hok Hle) as (o' & s & H1 & H2 & H3 & H4 & H5 & _ & _ & H6 & H7 & H8 & H9).
  exists o', s. split_and!; try done. rewrite <- (adds_up_total l Ha). apply zsum_perm. by rewrite H4.
Qed.

Definition three_sizes : list bs_entry := [Entry (codes "4k") 4096 (Some 10); Entry (codes "64k") 65536 (Some 50); Entry (codes "32k") 32768 None].

Lemma three_sizes_ok : Forall (entry_ok no_arith 1024) three_sizes.
Proof.
  repeat (apply list.Forall_cons; split; [split; [intros []; by vm_compute|by vm_compute|apply (bool_decide_unpack _); by vm_compute|
    apply (bool_decide_unpack _); by vm_compute|intros p Hp; cbn in Hp; first [discriminate|injection Hp as <-; lia]]|]). constructor.
Qed.

Lemma bssplit_shares_witness :
  bssplit_ddir no_arith 1024 false no_splits DDIR_READ (codes "4k/10:64k/50:32k") false =
    bssplit_ddir no_arith 1024 false no_splits DDIR_READ (split_text three_sizes) false /\
  exists o' s, bssplit_ddir no_arith 1024 false no_splits DDIR_READ (split_text three_sizes) false = (false, o', 0) /\
    so_bssplit o' DDIR_READ = Some s /\ s ≡ₚ shares three_sizes /\ StronglySorted perc_le s /\ zsum (bsp_perc <$> s) = 100.
Proof.
  split; [vm_compute; reflexivity|].
  destruct (bssplit_shares no_arith 1024 false no_splits DDIR_READ three_sizes) as (o' & s & H1 & H2 & _ & H3 & H4 & H5 & _);
    [discriminate|apply Nat.leb_le; reflexivity|exact three_sizes_ok|vm_compute; split_and!; [lia|discriminate|reflexivity]|].
  exists o', s. auto.
Defined.

(** What is accepted although it does not add up: percentages below 100; a lone size
    without one, which gets none; three that divide 100 and get 33 each; percentages
    over 100 when at most one is missing, the missing one then being a share of about four billion;
    a single zone without a size, which gets none; and a refused list of zones
    with debugging of the parser on follows a null pointer. *)
Theorem splits_unchecked :
  (exists o', bssplit_ddir no_arith 1024 false no_splits DDIR_READ (codes "4k/10:8k/10") false = (false, o', 0) /\
     so_bssplit o' DDIR_READ = Some [Bssplit 4096 10; Bssplit 8192 10]) /\
  (exists o', bssplit_ddir no_arith 1024 false no_splits DDIR_READ (codes "4k") false = (false, o', 0) /\
     so_bssplit o' DDIR_READ = Some [Bssplit 4096 0]) /\
  (exists o', bssplit_ddir no_arith 1024 false no_splits DDIR_READ (codes "4k:8k:16k") false = (false, o', 0) /\
     so_bssplit o' DDIR_READ = Some [Bssplit 4096 33; Bssplit 8192 33; Bssplit 16384 33]) /\
  (exists o', bssplit_ddir no_arith 1024 false no_splits DDIR_READ (codes "4k/60:8k/60") false = (false, o', 0) /\
     so_bssplit o' DDIR_READ = Some [Bssplit 4096 60; Bssplit 8192 60]) /\
  (exists o', bssplit_ddir no_arith 1024 false no_splits DDIR_READ (codes "4k/60:8k/60:16k") false = (false, o', 0) /\
     so_bssplit o' DDIR_READ = Some [Bssplit 16384 4294967276; Bssplit 4096 60; Bssplit 8192 60]) /\
  (exists o' t, parse_zoned_distribution no_arith 1024 some_memory false false false no_splits (codes "zoned:100") false = Some (false, o', Some t, 0) /\
     size_perc <$> (t DDIR_READ !! 50%nat ≫= id) = Some 0) /\
  parse_zoned_distribution no_arith 1024 some_memory true false false no_splits (codes "zoned:60:70") false = None.
Proof.
  split_and!; [eexists; split; vm_compute; reflexivity..|eexists _, _; split; vm_compute; reflexivity|vm_compute; reflexivity].
Qed.
