(* ===== verification/CconvSplit.v ===== *)
(** * Splits on the wire: the loops of [cconv.c] over [bssplit] and [zone_split]

    One direction at a time: the number of entries, and the row of the packed
    structure that holds them, 64 of eight bytes or 256 of sixteen; then the two
    conversions of [cconv.c] as a whole, fields and splits.  [None] is a read past
    a row, an array or a string. *)
From Stdlib Require Import String.
From S2P Require Import Prelude Cconv CconvTrip IoU Split.

Section host.
Context (big : bool).

Definition put32 (x : Z) : list Z := put_word big 4 (cpu_to_le32 big (u32 x)).

(** Entries written over the start of the row. *)
Fixpoint put_bssplits (row : list Z) (l : list bssplit_t) : list Z :=
  match l with
  | [] => row
  | b :: l => put32 (bsp_bs b) ++ put32 (bsp_perc b) ++ put_bssplits (drop 8 row) l
  end.
Fixpoint put_zones (row : list Z) (l : list zone_split) : list Z :=
  match l with
  | [] => row
  | z :: l => access_perc z :: zs_size_perc z :: take 14 (drop 2 row) ++ put_zones (drop 16 row) l
  end.

(** The loops for one direction, [nr] being the number in the options. *)
Definition bssplit_to_net (row : list Z) (nr : nat) (l : list bssplit_t) : option (list Z) :=
  if (nr =? 0)%nat then Some row else
  let n := if (BSSPLIT_MAX <? nr)%nat then BSSPLIT_MAX else nr in
  if (n <=? length l)%nat then Some (put_bssplits row (take n l)) else None.
Definition zone_split_to_net (row : list Z) (nr : nat) (l : list zone_split) : option (list Z) :=
  if (nr =? 0)%nat then Some row else
  let n := if (ZONESPLIT_MAX <? nr)%nat then ZONESPLIT_MAX else nr in
  if (n <=? length l)%nat then Some (put_zones row (take n l)) else None.

Fixpoint get_bssplits (nr : nat) (row : list Z) : option (list bssplit_t) :=
  match nr with
  | O => Some []
  | S nr => if (length row <? 8)%nat then None else
            l ← get_bssplits nr (drop 8 row); Some (Bssplit (get32 big (take 4 row)) (get32 big (take 4 (drop 4 row))) :: l)
  end.
Definition bssplit_to_cpu (nr : nat) (row : list Z) (old : list bssplit_t) : option (list bssplit_t) :=
  if (nr =? 0)%nat then Some old else get_bssplits nr row.

(** The size of a zone keeps what [malloc] left there. *)
Fixpoint get_zones (junk : nat -> zone_split) (j nr : nat) (row : list Z) : option (list zone_split) :=
  match nr with
  | O => Some []
  | S nr =>
      match row with
      | a :: s :: _ => l ← get_zones junk (S j) nr (drop 16 row); Some (Zs a s (zs_size (junk j)) :: l)
      | _ => None
      end
  end.
Definition zone_split_to_cpu (junk : nat -> zone_split) (nr : nat) (row : list Z) (old : list zone_split) : option (list zone_split) :=
  if (nr =? 0)%nat then Some old else get_zones junk 0 nr row.
End host.

(** ** The whole conversions *)

(** The fields, and the arrays of reads, writes and trims. *)
Record options := Options { op_fields : opts; op_bssplit : list (list bssplit_t); op_zones : list (list zone_split) }.
Record packed := Packed { pk_fields : pack; pk_bssplit : list (list Z); pk_zones : list (list Z) }.

Definition counts (v : val) : list nat := match v with VInts l => Z.to_nat <$> l | _ => [] end.

Fixpoint rows_to_net {A} (put : list Z -> nat -> list A -> option (list Z)) (rows : list (list Z)) (nrs : list nat) (ls : list (list A)) : option (list (list Z)) :=
  match rows, nrs, ls with
  | [], [], [] => Some []
  | row :: rows, nr :: nrs, l :: ls => r ← put row nr l; rs ← rows_to_net put rows nrs ls; Some (r :: rs)
  | _, _, _ => None
  end.
Fixpoint rows_to_cpu {A} (get : nat -> list Z -> list A -> option (list A)) (rows : list (list Z)) (nrs : list nat) (olds : list (list A)) : option (list (list A)) :=
  match rows, nrs, olds with
  | [], [], [] => Some []
  | row :: rows, nr :: nrs, old :: olds => r ← get nr row old; rs ← rows_to_cpu get rows nrs olds; Some (r :: rs)
  | _, _, _ => None
  end.

Definition convert_thread_options_to_net (big : bool) (top : packed) (o : options) : option packed :=
  f ← fields_to_net big (pk_fields top) (op_fields o);
  bs ← rows_to_net (bssplit_to_net big) (pk_bssplit top) (counts (op_fields o "bssplit_nr"%string)) (op_bssplit o);
  zs ← rows_to_net zone_split_to_net (pk_zones top) (counts (op_fields o "zone_split_nr"%string)) (op_zones o);
  Some (Packed f bs zs).

Definition convert_thread_options_to_cpu (big : bool) (junk : nat -> zone_split) (o : options) (top : packed) : option options :=
  f ← fields_to_cpu big (op_fields o) (pk_fields top);
  bs ← rows_to_cpu (bssplit_to_cpu big) (pk_bssplit top) (counts (f "bssplit_nr"%string)) (op_bssplit o);
  zs ← rows_to_cpu (zone_split_to_cpu junk) (pk_zones top) (counts (f "zone_split_nr"%string)) (op_zones o);
  Some (Options f bs zs).

Definition bs_wire (b : bssplit_t) : Prop := uint 32 (bsp_bs b) /\ uint 32 (bsp_perc b).

Lemma bssplits_back a b : forall l row, Forall bs_wire l -> (8 * length l <= length row)%nat ->
  get_bssplits b (length l) (put_bssplits a row l) = Some l.
Proof.
  induction l as [|x l IH]; intros row Hl Hr; [done|]. apply Forall_cons_iff in Hl as [[H1 H2] Hl]. cbn [length put_bssplits get_bssplits] in *.
  unfold put32. rewrite !put_net32, !wrap_small by done.
  assert (L : forall v, length (le_bytes 4 v) = 4%nat) by (intros; apply length_le_bytes).
  rewrite (proj2 (Nat.ltb_ge _ 8)) by (rewrite !length_app, !L; lia).
  rewrite (take_app_length' (le_bytes 4 (bsp_bs x))) by (by rewrite L).
  rewrite (drop_app_length' (le_bytes 4 (bsp_bs x)) _ 4) by (by rewrite L).
  rewrite (take_app_length' (le_bytes 4 (bsp_perc x))) by (by rewrite L).
  rewrite app_assoc, drop_app_length' by (by rewrite length_app, !L). rewrite IH by (done || rewrite length_drop; lia).
  cbn [mbind option_bind]. rewrite !get_cpu32 by done. by destruct x.
Qed.

(** What is left of a zone: its size is not sent. *)
Definition without_size (junk : nat -> zone_split) (j : nat) (z : zone_split) : zone_split := Zs (access_perc z) (zs_size_perc z) (zs_size (junk j)).

Lemma zones_back junk : forall l j row, (16 * length l <= length row)%nat ->
  get_zones junk j (length l) (put_zones row l) = Some (imap (fun i => without_size junk (j + i)) l).
Proof.
  induction l as [|z l IH]; intros j row Hr; [done|]. cbn [length put_zones get_zones] in *.
  change (drop 16 (access_perc z :: zs_size_perc z :: ?r)) with (drop 14 r).
  rewrite drop_app_length' by (rewrite length_take, length_drop; lia). rewrite IH by (rewrite length_drop; lia).
  cbn [mbind option_bind imap]. unfold without_size at 2. rewrite Nat.add_0_r. f_equal. f_equal. apply imap_ext. intros i y _.
  unfold compose. by rewrite Nat.add_succ_r.
Qed.

(** One direction there and back. *)
Lemma bssplit_trip a b row l : Forall bs_wire l -> (length l <= BSSPLIT_MAX)%nat -> length row = (8 * BSSPLIT_MAX)%nat ->
  exists r, bssplit_to_net a row (length l) l = Some r /\ bssplit_to_cpu b (length l) r [] = Some l.
Proof.
  unfold bssplit_to_net, bssplit_to_cpu, BSSPLIT_MAX. intros Hw Hl Hr. rewrite (proj2 (Nat.ltb_ge 64 _)) by done. rewrite Nat.leb_refl, take_ge by done.
  destruct (Nat.eqb_spec (length l) 0) as [E|E]; [exists row; by destruct l|]. eexists. split; [done|]. apply bssplits_back; [done|lia].
Qed.
Lemma zone_trip junk row l : (length l <= ZONESPLIT_MAX)%nat -> length row = (16 * ZONESPLIT_MAX)%nat ->
  exists r, zone_split_to_net row (length l) l = Some r /\ zone_split_to_cpu junk (length l) r [] = Some (imap (without_size junk) l).
Proof.
  unfold zone_split_to_net, zone_split_to_cpu, ZONESPLIT_MAX. intros Hl Hr. rewrite (proj2 (Nat.ltb_ge 256 _)) by done. rewrite Nat.leb_refl, take_ge by done.
  destruct (Nat.eqb_spec (length l) 0) as [E|E]; [exists row; by destruct l|]. eexists. split; [done|]. apply (zones_back junk l 0). lia.
Qed.

(** All directions. *)
Lemma rows_trip {A} (put : list Z -> nat -> list A -> option (list Z)) (get : nat -> list Z -> list A -> option (list A)) (f : list A -> list A) :
  forall ls rows, length rows = length ls ->
  (forall row l, row ∈ rows -> l ∈ ls -> exists r, put row (length l) l = Some r /\ get (length l) r [] = Some (f l)) ->
  exists rs, rows_to_net put rows (length <$> ls) ls = Some rs /\ rows_to_cpu get rs (length <$> ls) (replicate (length ls) []) = Some (f <$> ls).
Proof.
  induction ls as [|l ls IH]; intros [|row rows] Hlen H; try done; [by exists []|]. cbn [length] in Hlen.
  destruct (H row l ltac:(left) ltac:(left)) as (r & E1 & E2). destruct (IH rows) as (rs & E3 & E4); [lia|intros; apply H; by right|].
  exists (r :: rs). cbn [fmap list_fmap rows_to_net rows_to_cpu length replicate]. rewrite E1. cbn [mbind option_bind]. change (list_fmap _ _ length ls) with (length <$> ls).
  rewrite E3. cbn [mbind option_bind]. split; [done|]. rewrite E2. cbn [mbind option_bind]. rewrite E4. done.
Qed.

Definition lengths {A} (ls : list (list A)) : val := VInts ((fun l => Z.of_nat (length l)) <$> ls).
Lemma counts_lengths {A} (ls : list (list A)) : counts (lengths ls) = length <$> ls.
Proof. unfold counts, lengths. rewrite <- list_fmap_compose. apply list_fmap_ext. intros i l _. apply Nat2Z.id. Qed.

(** The arrays have the lengths the options say, within the limits of the packed
    structure. *)
Record splits_ok (o : options) : Prop := SplitsOk {
  sk_bssplit_nr : op_fields o "bssplit_nr"%string = lengths (op_bssplit o);
  sk_zone_nr : op_fields o "zone_split_nr"%string = lengths (op_zones o);
  sk_bssplit : Forall (fun l => (length l <= BSSPLIT_MAX)%nat /\ Forall bs_wire l) (op_bssplit o);
  sk_zones : Forall (fun l => length l <= ZONESPLIT_MAX)%nat (op_zones o) }.
Definition rows_ok (top : packed) (o : options) : Prop :=
  length (pk_bssplit top) = length (op_bssplit o) /\ Forall (fun r => length r = (8 * BSSPLIT_MAX)%nat) (pk_bssplit top) /\
  length (pk_zones top) = length (op_zones o) /\ Forall (fun r => length r = (16 * ZONESPLIT_MAX)%nat) (pk_zones top).
(** Options into which nothing has been written yet. *)
Definition blank (o0 o : options) : Prop :=
  cleared (op_fields o0) /\ op_bssplit o0 = replicate (length (op_bssplit o)) [] /\ op_zones o0 = replicate (length (op_zones o)) [].

Lemma nrs_sent : N32s "bssplit_nr" ∈ net_lines /\ N32s "zone_split_nr" ∈ net_lines.
Proof. split; apply list_elem_of_In; vm_compute; tauto. Qed.
Lemma arrives_ints l v : arrives (VInts l) v -> v = VInts l.
Proof. destruct v; cbn; try done. by intros ->. Qed.

(** C30. Options survive the wire: every field that the conversion to the packed
    structure takes from the options arrives on the other host, whatever the byte
    order of either: integers of both widths, signed and unsigned, arrays, doubles
    that are zero or normal, patterns, strings that are absent or not empty, cut to
    255 characters, up to 64 block sizes of a split with their percentages, and up
    to 256 zones with their percentages but without their sizes. *)
Theorem options_roundtrip a b junk top o o0 : well_typed (op_fields o) -> Forall (room_ok (pk_fields top) (op_fields o)) net_lines ->
  splits_ok o -> rows_ok top o -> blank o0 o ->
  exists top' o', convert_thread_options_to_net a top o = Some top' /\ convert_thread_options_to_cpu b junk o0 top' = Some o' /\
    (forall l, l ∈ net_lines -> taken l = true -> arrives (op_fields o (net_field l)) (op_fields o' (net_field l))) /\
    op_bssplit o' = op_bssplit o /\ op_zones o' = imap (without_size junk) <$> op_zones o.
Proof.
  intros Ho Hr [Hn1 Hn2 Hbs Hzs] (R1 & R2 & R3 & R4) (B1 & B2 & B3).
  destruct (fields_trip a b (pk_fields top) (op_fields o) (op_fields o0) Ho Hr B1) as (f & g & E1 & E2 & Hf).
  pose proof (proj1 (list.Forall_forall _ _) R2) as R2'. pose proof (proj1 (list.Forall_forall _ _) R4) as R4'.
  pose proof (proj1 (list.Forall_forall _ _) Hbs) as Hbs'. pose proof (proj1 (list.Forall_forall _ _) Hzs) as Hzs'.
  destruct (rows_trip (bssplit_to_net a) (bssplit_to_cpu b) id (op_bssplit o) (pk_bssplit top) R1) as (bs & E3 & E4).
  { intros row l Hrow Hl. destruct (Hbs' l Hl). apply bssplit_trip; auto. }
  destruct (rows_trip zone_split_to_net (zone_split_to_cpu junk) (imap (without_size junk)) (op_zones o) (pk_zones top) R3) as (zs & E5 & E6).
  { intros row l Hrow Hl. apply zone_trip; auto. }
  destruct nrs_sent as [S1 S2]. pose proof (Hf _ S1 eq_refl) as A1. pose proof (Hf _ S2 eq_refl) as A2. cbn [net_field] in A1, A2.
  rewrite Hn1 in A1. rewrite Hn2 in A2. apply arrives_ints in A1, A2. rewrite list_fmap_id in E4.
  exists (Packed f bs zs), (Options g (op_bssplit o) (imap (without_size junk) <$> op_zones o)). unfold convert_thread_options_to_net, convert_thread_options_to_cpu.
  cbn [pk_fields pk_bssplit pk_zones op_fields op_bssplit op_zones]. rewrite E1, E2. cbn [mbind option_bind]. fold (lengths (op_bssplit o)) in A1. fold (lengths (op_zones o)) in A2.
  rewrite Hn1, Hn2, A1, A2, !counts_lengths, B2, B3, E3, E4. cbn [mbind option_bind]. rewrite E5, E6. cbn [mbind option_bind]. done.
Qed.

Definition some_splits : options :=
  Options sample [[Bssplit 4096 40; Bssplit 8192 60]; []; [Bssplit 512 100]] [[Zs 60 10 0; Zs 40 90 0]; []; [Zs 100 50 1048576]].
Definition some_rows : packed := Packed (filled (fun _ => 32%nat) 0) (replicate 3 (replicate 512 0)) (replicate 3 (replicate 4096 0)).
Definition no_options : options := Options empty_opts (replicate 3 []) (replicate 3 []).

Lemma some_splits_ok : splits_ok some_splits.
Proof.
  split; [vm_compute; reflexivity|vm_compute; reflexivity| |].
  - repeat constructor; cbn; unfold BSSPLIT_MAX; lia || (by vm_compute).
  - repeat constructor; cbn; unfold ZONESPLIT_MAX; lia.
Qed.

Lemma options_roundtrip_witness :
  exists top' o', convert_thread_options_to_net true some_rows some_splits = Some top' /\
    convert_thread_options_to_cpu false (fun _ => Zs 0 0 7) no_options top' = Some o' /\
    (forall l, l ∈ net_lines -> taken l = true -> arrives (sample (net_field l)) (op_fields o' (net_field l))) /\
    op_bssplit o' = op_bssplit some_splits /\ op_zones o' = [[Zs 60 10 7; Zs 40 90 7]; []; [Zs 100 50 7]].
Proof.
  destruct (options_roundtrip true false (fun _ => Zs 0 0 7) some_rows some_splits no_options) as (top' & o' & H1 & H2 & H3 & H4 & H5).
  - exact sample_typed.
  - exact sample_room.
  - exact some_splits_ok.
  - repeat split; try (apply Forall_replicate); reflexivity.
  - split; [intros f _; reflexivity|]. split; reflexivity.
  - exists top', o'. split; [exact H1|]. split; [exact H2|]. split; [exact H3|]. split; [exact H4|exact H5].
Defined.

Lemma short_row b : forall n r, (length r < 8 * n)%nat -> get_bssplits b n r = None.
Proof. induction n as [|n IH]; intros r Hr; [lia|]. cbn [get_bssplits]. case_match eqn:E; [done|]. apply Nat.ltb_ge in E. rewrite IH; [done|]. rewrite length_drop. lia. Qed.
Lemma length_put_bssplits a : forall l row, (8 * length l <= length row)%nat -> length (put_bssplits a row l) = length row.
Proof.
  induction l as [|x l IH]; intros row Hr; [done|]. cbn [put_bssplits length] in *. unfold put32.
  rewrite !length_app, !put_net32, !length_le_bytes, IH, length_drop by (rewrite ?length_drop; lia). lia.
Qed.

(** With more than 64 block sizes the full number is sent beside the first 64
    entries, and the receiver reads past the row. *)
Theorem long_split_overruns a b l row : (BSSPLIT_MAX < length l)%nat -> length row = (8 * BSSPLIT_MAX)%nat ->
  exists r, bssplit_to_net a row (length l) l = Some r /\ bssplit_to_cpu b (length l) r [] = None.
Proof.
  unfold bssplit_to_net, bssplit_to_cpu, BSSPLIT_MAX. intros Hl Hr. rewrite (proj2 (Nat.eqb_neq (length l) 0)) by lia. rewrite (proj2 (Nat.ltb_lt 64 _)) by lia.
  rewrite (proj2 (Nat.leb_le 64 _)) by lia. eexists. split; [done|]. apply short_row. rewrite length_put_bssplits; rewrite ?length_take; lia.
Qed.

Lemma long_split_overruns_witness :
  exists r, bssplit_to_net true (replicate 512 0) 65 (replicate 65 (Bssplit 4096 1)) = Some r /\ bssplit_to_cpu false 65 r [] = None.
Proof. exact (long_split_overruns true false (replicate 65 (Bssplit 4096 1)) (replicate 512 0) ltac:(apply Nat.ltb_lt; reflexivity) eq_refl). Defined.
