(* ===== verification/Fixup.v ===== *)
(** * Options that depend on each other: [fixup_options] of [init.c]

    What the options of a job become before it starts, as on Linux: the
    conditional code for systems without process-shared mutexes, [fallocate] or
    [fdatasync] is left out.  Options are a map from the fields of
    [struct thread_options], those of a direction indexed by it, to integers; a
    string option is nonzero when the pointer is set.  The function is a sequence
    of adjustments, grouped below in the order of the code, on a state with the
    options, the return code and the few fields of [struct thread_data] it sets. *)
From Stdlib Require Import String.
From S2P Require Import Prelude Rand CFloat PatternParse IoU.

Inductive opt :=
| o_write_iolog_file | o_read_iolog_file | o_zone_size | o_zone_range | o_open_files | o_nr_files | o_overwrite | o_td_ddir
| o_bs (d : fio_ddir) | o_min_bs (d : fio_ddir) | o_max_bs (d : fio_ddir) | o_ba (d : fio_ddir) | o_rw_min_bs
| o_norandommap | o_file_size_low | o_file_size_high | o_start_delay | o_start_delay_high
| o_verify | o_bs_unaligned | o_odirect | o_thinktime | o_thinktime_spin
| o_iodepth | o_iodepth_low | o_iodepth_batch | o_iodepth_batch_complete_min | o_iodepth_batch_complete_max
| o_serialize_overlap | o_io_submit_mode
| o_rate (d : fio_ddir) | o_rate_iops (d : fio_ddir) | o_ratemin (d : fio_ddir) | o_rate_iops_min (d : fio_ddir)
| o_timeout | o_time_based | o_fill_device | o_size | o_do_verify | o_numjobs | o_filename | o_unique_filename | o_verify_backlog
| o_refill_buffers | o_verify_interval | o_pre_read | o_invalidate_cache | o_unit_base | o_compress_percentage | o_zero_buffers
| o_random_distribution | o_oatomic | o_rand_seed | o_rand_repeatable | o_file_append | o_gtod_cpu | o_loops | o_block_error_hist
| o_clat_percentiles | o_lat_percentiles | o_disable_lat | o_disable_clat | o_max_latency | o_latency_target | o_latency_window.

#[export] Instance opt_eq_dec : EqDecision opt.
Proof. solve_decision. Defined.

Definition opts := opt -> Z.

Record job := Job { jopts : opts; jret : Z; delay_state : frand_state; f_refill_buffers : bool; td_loops : Z; gtod_offload : option Z }.

Definition set (f : opt) (v : Z) (j : job) : job :=
  Job (fun g => if decide (g = f) then v else jopts j g) (jret j) (delay_state j) (f_refill_buffers j) (td_loops j) (gtod_offload j).
Definition set_ret (r : Z) (j : job) : job := Job (jopts j) r (delay_state j) (f_refill_buffers j) (td_loops j) (gtod_offload j).
Definition set_delay_state (s : frand_state) (j : job) : job := Job (jopts j) (jret j) s (f_refill_buffers j) (td_loops j) (gtod_offload j).
Definition set_refill (j : job) : job := Job (jopts j) (jret j) (delay_state j) true (td_loops j) (gtod_offload j).
Definition set_loops (n : Z) (j : job) : job := Job (jopts j) (jret j) (delay_state j) (f_refill_buffers j) n (gtod_offload j).
Definition set_gtod (cpu : Z) (j : job) : job := Job (jopts j) (jret j) (delay_state j) (f_refill_buffers j) (td_loops j) (Some cpu).

(** What an [if] of the code changes. *)
Definition when (c : bool) (f : job -> job) (j : job) : job := if c then f j else j.
Definition on (j : job) (f : opt) : bool := negb (jopts j f =? 0).

(** [enum td_ddir]. *)
Definition td_read (j : job) : bool := Z.testbit (jopts j o_td_ddir) 0.
Definition td_write (j : job) : bool := Z.testbit (jopts j o_td_ddir) 1.
Definition td_random (j : job) : bool := Z.testbit (jopts j o_td_ddir) 2.
Definition td_trim (j : job) : bool := Z.testbit (jopts j o_td_ddir) 3.

Inductive engine_flag := FIO_RAWIO | FIO_PIPEIO | FIO_BIT_BASED | FIO_NOEXTEND.
Definition IO_MODE_OFFLOAD : Z := 1.

(** [strstr(s, t) != NULL]. *)
Fixpoint strstr (s t : list Z) : bool :=
  bool_decide (take (length t) s = t) || match s with _ :: s => strstr s t | [] => false end.

Definition three : list fio_ddir := [DDIR_READ; DDIR_WRITE; DDIR_TRIM].

Definition fixed_block_size (j : job) : bool :=
  let o := jopts j in
  (o (o_min_bs DDIR_READ) =? o (o_max_bs DDIR_READ)) && (o (o_min_bs DDIR_WRITE) =? o (o_max_bs DDIR_WRITE)) &&
  (o (o_min_bs DDIR_TRIM) =? o (o_max_bs DDIR_TRIM)) && (o (o_min_bs DDIR_READ) =? o (o_min_bs DDIR_WRITE)) &&
  (o (o_min_bs DDIR_READ) =? o (o_min_bs DDIR_TRIM)).

Definition td_min_bs (j : job) : Z :=
  let o := jopts j in Z.min (o (o_min_bs DDIR_TRIM)) (Z.min (o (o_min_bs DDIR_READ)) (o (o_min_bs DDIR_WRITE))).

Fixpoint gcd_fuel (fuel : nat) (m n : Z) : Z :=
  match fuel with
  | O => m
  | S fuel => if n =? 0 then m else gcd_fuel fuel n (m mod n)
  end.
(** [n] falls with every call. *)
Definition gcd (m n : Z) : Z := gcd_fuel (S (Z.to_nat n)) m n.

(** The delay, and the generator after the draw. *)
Definition get_rand_start_delay (j : job) : option (frand_state * Z) :=
  let o := jopts j in
  let range := u64 (o o_start_delay_high - o o_start_delay) in
  let '(st, r) := __rand (delay_state j) in
  d ← to_u64 (dscale range r (rand_max (delay_state j)));
  Some (st, u64 (d + o o_start_delay)).

(** ** The adjustments *)
Section fixup.
Context (warnings_fatal : Z) (is_set : opt -> bool) (flagged : engine_flag -> bool) (read_iolog : bool) (files_index : Z)
  (filename_format : list Z).

Definition warn (j : job) : job := set_ret warnings_fatal j.
Definition refuse (j : job) : job := set_ret 1 j.

Definition fix_iolog (j : job) : job :=
  when (on j o_write_iolog_file && on j o_read_iolog_file) (fun j => warn (set o_write_iolog_file 0 j)) j.

Definition fix_zones (j : job) : job :=
  let j := when (on j o_zone_size && (1 <? jopts j o_open_files)) (set o_zone_size 0) j in
  let j := when (on j o_zone_size && negb (on j o_zone_range)) (set o_zone_range (jopts j o_zone_size)) j in
  when (td_read j) (set o_overwrite 1) j.

Definition fix_min_max (d : fio_ddir) (j : job) : job :=
  let j := when (negb (on j (o_min_bs d))) (set (o_min_bs d) (jopts j (o_bs d))) j in
  when (negb (on j (o_max_bs d))) (set (o_max_bs d) (jopts j (o_bs d))) j.
Definition fix_ba (d : fio_ddir) (j : job) : job :=
  when (negb (on j (o_ba d)) || negb (td_random j)) (set (o_ba d) (jopts j (o_min_bs d))) j.

Definition fix_block_sizes (j : job) : job :=
  let j := fix_min_max DDIR_TRIM (fix_min_max DDIR_WRITE (fix_min_max DDIR_READ j)) in
  let j := set o_rw_min_bs (Z.min (jopts j (o_min_bs DDIR_READ)) (jopts j (o_min_bs DDIR_WRITE))) j in
  let j := set o_rw_min_bs (Z.min (jopts j (o_min_bs DDIR_TRIM)) (jopts j o_rw_min_bs)) j in
  let j := fix_ba DDIR_TRIM (fix_ba DDIR_WRITE (fix_ba DDIR_READ j)) in
  when (existsb (fun d => negb (jopts j (o_ba d) =? jopts j (o_min_bs d))) three && negb (on j o_norandommap))
    (fun j => warn (set o_norandommap 1 j)) j.

Definition fix_start (j : job) : option job :=
  let j := when (negb (on j o_file_size_high)) (set o_file_size_high (jopts j o_file_size_low)) j in
  if on j o_start_delay_high then '(st, v) ← get_rand_start_delay j; Some (set o_start_delay v (set_delay_state st j)) else Some j.

Definition fix_spin (j : job) : job :=
  let j := when (on j o_norandommap && on j o_verify && negb (fixed_block_size j)) warn j in
  when (jopts j o_thinktime <? jopts j o_thinktime_spin) (set o_thinktime_spin (jopts j o_thinktime)) j.

(** [iodepth_low] and [iodepth_batch]. *)
Definition fix_below_depth (f : opt) (j : job) : job :=
  when ((jopts j o_iodepth <? jopts j f) || negb (on j f)) (set f (jopts j o_iodepth)) j.
Definition fix_complete_max (j : job) : job :=
  when (jopts j o_iodepth_batch_complete_max <? jopts j o_iodepth_batch_complete_min)
    (set o_iodepth_batch_complete_max (jopts j o_iodepth_batch_complete_min)) j.

Definition fix_overlap (j : job) : job :=
  let j := when (on j o_serialize_overlap && negb read_iolog && (negb (td_write j || td_trim j) || (jopts j o_iodepth =? 1)))
             (set o_serialize_overlap 0) j in
  when (on j o_serialize_overlap && (jopts j o_io_submit_mode =? IO_MODE_OFFLOAD)) (fun j => warn (set o_serialize_overlap 0 j)) j.

Definition fix_depth (j : job) : job :=
  fix_overlap (fix_complete_max (fix_below_depth o_iodepth_batch (fix_below_depth o_iodepth_low (fix_spin j)))).

Definition fix_files (j : job) : job :=
  let j := when (files_index <? jopts j o_nr_files) (set o_nr_files files_index) j in
  when ((jopts j o_nr_files <? jopts j o_open_files) || negb (on j o_open_files)) (set o_open_files (jopts j o_nr_files)) j.

Definition sum3 (w : Z) (j : job) (f : fio_ddir -> opt) : bool :=
  negb (wrap w (jopts j (f DDIR_READ) + jopts j (f DDIR_WRITE) + jopts j (f DDIR_TRIM)) =? 0).
Definition min_exceeds (j : job) (r m : fio_ddir -> opt) : bool :=
  existsb (fun d => on j (r d) && (jopts j (r d) <? jopts j (m d))) three.

(** Rates are 64 bits wide, rates of operations 32. *)
Definition fix_rates (j : job) : job :=
  let j := when ((sum3 64 j o_rate && sum3 32 j o_rate_iops) || (sum3 64 j o_ratemin && sum3 32 j o_rate_iops_min)) refuse j in
  when (min_exceeds j o_rate o_ratemin || min_exceeds j o_rate_iops o_rate_iops_min) refuse j.
Definition fix_time (j : job) : job :=
  when (negb (on j o_timeout) && on j o_time_based) (fun j => warn (set o_time_based 0 j)) j.
Definition fix_fill (j : job) : job :=
  when (on j o_fill_device && negb (on j o_size)) (set o_size (-1ULL)) j.

Definition fix_interval (j : job) : job :=
  let minw := jopts j (o_min_bs DDIR_WRITE) in let maxw := jopts j (o_max_bs DDIR_WRITE) in
  let j := when (negb (maxw =? minw) && negb (on j o_verify_interval)) (set o_verify_interval minw) j in
  let j := if minw <? jopts j o_verify_interval then set o_verify_interval minw j
           else when (td_read j && (jopts j (o_min_bs DDIR_READ) <? jopts j o_verify_interval)) (set o_verify_interval (jopts j (o_min_bs DDIR_READ))) j in
  let vi := jopts j o_verify_interval in
  when ((vi =? 0) || negb (minw mod vi =? 0) || negb (maxw mod vi =? 0)) (set o_verify_interval (gcd minw maxw)) j.

Definition fix_verify (j : job) : job :=
  when (on j o_verify) (fun j =>
    let j := when (td_write j && on j o_do_verify && (1 <? jopts j o_numjobs) &&
        (on j o_filename || negb (on j o_unique_filename && strstr filename_format (codes "$jobname") &&
           strstr filename_format (codes "$jobnum") && strstr filename_format (codes "$filenum")))) warn j in
    let j := when (td_write j && on j o_do_verify && on j o_timeout && on j o_time_based && negb (td_read j) && negb (on j o_verify_backlog)) warn j in
    let j := when (negb (is_set o_refill_buffers)) (set o_refill_buffers 1) j in
    fix_interval j) j.

Definition fix_buffers (j : job) : job :=
  let j := when (on j o_pre_read) (fun j =>
    let j := when (on j o_invalidate_cache) (set o_invalidate_cache 0) j in when (flagged FIO_PIPEIO) warn j) j in
  let j := when (negb (on j o_unit_base)) (set o_unit_base (if flagged FIO_BIT_BASED then 1 else 8)) j in
  when (on j o_compress_percentage) (fun j =>
    if jopts j o_compress_percentage =? 100 then set o_compress_percentage 0 (set o_zero_buffers 1 j)
    else when (negb (is_set o_refill_buffers)) (fun j => set_refill (set o_refill_buffers 1 j)) j) j.
Definition fix_distribution (j : job) : job := when (on j o_random_distribution) (set o_norandommap 1) j.

Definition fix_size (j : job) : job :=
  let j := when (on j o_size && (jopts j o_size <? td_min_bs j)) refuse j in
  let j := when (on j o_oatomic) (set o_odirect 1) j in
  let j := when (is_set o_rand_seed) (set o_rand_repeatable 0) j in
  let j := when (flagged FIO_NOEXTEND && on j o_file_append) refuse j in
  when (is_set o_gtod_cpu) (fun j => set_gtod (jopts j o_gtod_cpu) j) j.
Definition fix_loops (j : job) : job :=
  let j := set_loops (jopts j o_loops) j in
  let j := when (td_loops j =? 0) (set_loops 1) j in
  when (on j o_block_error_hist && negb (jopts j o_nr_files =? 1)) refuse j.

Definition fix_latency (j : job) : job :=
  let c := is_set o_clat_percentiles in let l := is_set o_lat_percentiles in
  let j := if c && negb l then set o_lat_percentiles (if on j o_clat_percentiles then 0 else 1) j
           else if l && negb c then set o_clat_percentiles (if on j o_lat_percentiles then 0 else 1) j
           else when (l && c && on j o_lat_percentiles && on j o_clat_percentiles) refuse j in
  let j := when (on j o_disable_lat) (set o_lat_percentiles 0) j in
  let j := when (on j o_disable_clat) (set o_clat_percentiles 0) j in
  let j := set o_max_latency (u64 (jopts j o_max_latency * 1000)) j in
  let j := set o_latency_target (u64 (jopts j o_latency_target * 1000)) j in
  set o_latency_window (u64 (jopts j o_latency_window * 1000)) j.

(** [fixup_options]: the code is the [jret] of the result.  [None] is a delay that
    does not fit its type. *)
Definition fixup_options (j : job) : option job :=
  let j := fix_block_sizes (fix_zones (fix_iolog (set_ret 0 j))) in
  j ← fix_start j;
  Some (fix_latency (fix_loops (fix_size (fix_distribution (fix_buffers (fix_verify (fix_fill (fix_time (fix_rates (fix_files (fix_depth j))))))))))).
End fixup.
