(* ===== verification/FixupInv.v ===== *)
(** * What holds of the options of a job that starts

    The conditions other components take for granted, established by
    [fixup_options] whatever the job file says; and the errors it forgets. *)
From Stdlib Require Import String.
From S2P Require Import Prelude Rand CFloat PatternParse IoU Fixup.

(** ** Fields an adjustment leaves alone *)
Lemma set_ne f v j g : g <> f -> jopts (set f v j) g = jopts j g.
Proof. intros H. cbn. by rewrite decide_False. Qed.
Lemma set_eq f v j : jopts (set f v j) f = v.
Proof. cbn. by rewrite decide_True. Qed.

Lemma when_keep c (F : job -> job) j g v : jopts j g = v -> (jopts j g = v -> jopts (F j) g = v) -> jopts (when c F j) g = v.
Proof. intros H1 H2. unfold when. destruct c; auto. Qed.

(** [g ∉ l] with a concrete list gives that [g] is not a concrete member. *)
Lemma not_in_ne (g f : opt) (l : list opt) : g ∉ l -> f ∈ l -> g <> f.
Proof. intros H1 H2 ->. done. Qed.

Ltac keep :=
  lazymatch goal with
  | |- jopts (let x := ?X in @?B x) ?g = ?v =>
      let H := fresh in let j := fresh in
      assert (H : jopts X g = v) by keep; change (jopts (B X) g = v); revert H; generalize X; intros j H; cbv beta; keep
  | |- jopts (when _ _ _) _ = _ => apply when_keep; [keep|let H := fresh in intros H; cbv beta; keep]
  | |- jopts (set _ _ _) _ = _ => rewrite set_ne; [keep|eapply not_in_ne; [eassumption|apply (bool_decide_unpack _); vm_compute; exact I]]
  | |- jopts (set_ret _ ?j) ?g = ?v => change (jopts j g = v); keep
  | |- jopts (warn _ ?j) ?g = ?v => change (jopts j g = v); keep
  | |- jopts (refuse ?j) ?g = ?v => change (jopts j g = v); keep
  | |- jopts (set_refill ?j) ?g = ?v => change (jopts j g = v); keep
  | |- jopts (set_loops _ ?j) ?g = ?v => change (jopts j g = v); keep
  | |- jopts (set_gtod _ ?j) ?g = ?v => change (jopts j g = v); keep
  | |- jopts (set_delay_state _ ?j) ?g = ?v => change (jopts j g = v); keep
  | |- jopts (if ?c then _ else _) _ = _ => destruct c; keep
  | |- _ => first [assumption|reflexivity|idtac]
  end.

Section frames.
Context (wf : Z) (is_set : opt -> bool) (flagged : engine_flag -> bool) (ri : bool) (fi : Z) (fmt : list Z).

Lemma iolog_frame g j : g ∉ [o_write_iolog_file] -> jopts (fix_iolog wf j) g = jopts j g.
Proof. intros Hg. unfold fix_iolog. keep. Qed.
Lemma zones_frame g j : g ∉ [o_zone_size; o_zone_range; o_overwrite] -> jopts (fix_zones j) g = jopts j g.
Proof. intros Hg. unfold fix_zones. keep. Qed.

Definition bs_fields : list opt := [o_rw_min_bs; o_norandommap] ++ (o_min_bs <$> three) ++ (o_max_bs <$> three) ++ (o_ba <$> three).
Lemma min_max_frame g d j : g ∉ [o_min_bs d; o_max_bs d] -> jopts (fix_min_max d j) g = jopts j g.
Proof. intros Hg. destruct d; unfold fix_min_max; keep. Qed.
Lemma ba_frame g d j : g ∉ [o_ba d] -> jopts (fix_ba d j) g = jopts j g.
Proof. intros Hg. destruct d; unfold fix_ba; keep. Qed.

Lemma bs_frame g j : g ∉ bs_fields -> jopts (fix_block_sizes wf j) g = jopts j g.
Proof.
  intros Hg. assert (Hd : forall d, g ∉ [o_min_bs d; o_max_bs d] /\ g ∉ [o_ba d]).
  { intros d. assert (H : forall f, f ∈ bs_fields -> g <> f) by (intros f; by apply not_in_ne).
    rewrite !not_elem_of_cons. split_and!; try apply not_elem_of_nil; apply H; destruct d; apply (bool_decide_unpack _); vm_compute; exact I. }
  unfold fix_block_sizes. set (j1 := fix_min_max DDIR_TRIM _). assert (H1 : jopts j1 g = jopts j g) by (unfold j1; by rewrite !min_max_frame by apply Hd).
  clearbody j1. cbv zeta. set (j2 := set o_rw_min_bs _ (set _ _ j1)). assert (H2 : jopts j2 g = jopts j g) by (unfold j2; keep). clearbody j2.
  set (j3 := fix_ba DDIR_TRIM _). assert (H3 : jopts j3 g = jopts j g) by (unfold j3; by rewrite !ba_frame by apply Hd). clearbody j3. keep.
Qed.
Lemma start_frame g j j' : g ∉ [o_file_size_high; o_start_delay] -> fix_start j = Some j' -> jopts j' g = jopts j g.
Proof.
  intros Hg. unfold fix_start. cbv zeta. set (k := when _ _ j). assert (Hk : jopts k g = jopts j g) by (unfold k; keep). intros E.
  destruct (on k o_start_delay_high); [|by injection E as <-]. apply bind_Some_inv in E as ([st v] & _ & E). injection E as <-. keep.
Qed.
Lemma spin_frame g j : g ∉ [o_thinktime_spin] -> jopts (fix_spin wf j) g = jopts j g.
Proof. intros Hg. unfold fix_spin. keep. Qed.
Lemma below_frame g f j : g ∉ [f] -> jopts (fix_below_depth f j) g = jopts j g.
Proof. intros Hg. unfold fix_below_depth. apply when_keep; [done|]. intros _. apply set_ne. intros ->. apply Hg. by left. Qed.
Lemma complete_frame g j : g ∉ [o_iodepth_batch_complete_max] -> jopts (fix_complete_max j) g = jopts j g.
Proof. intros Hg. unfold fix_complete_max. keep. Qed.
Lemma overlap_frame g j : g ∉ [o_serialize_overlap] -> jopts (fix_overlap wf ri j) g = jopts j g.
Proof. intros Hg. unfold fix_overlap. keep. Qed.
Lemma files_frame g j : g ∉ [o_nr_files; o_open_files] -> jopts (fix_files fi j) g = jopts j g.
Proof. intros Hg. unfold fix_files. keep. Qed.
Lemma rates_frame g j : jopts (fix_rates j) g = jopts j g.
Proof. unfold fix_rates. keep. Qed.
Lemma time_frame g j : g ∉ [o_time_based] -> jopts (fix_time wf j) g = jopts j g.
Proof. intros Hg. unfold fix_time. keep. Qed.
Lemma fill_frame g j : g ∉ [o_size] -> jopts (fix_fill j) g = jopts j g.
Proof. intros Hg. unfold fix_fill. keep. Qed.
Lemma interval_frame g j : g ∉ [o_verify_interval] -> jopts (fix_interval j) g = jopts j g.
Proof. intros Hg. unfold fix_interval. keep. Qed.
Lemma verify_frame g j : g ∉ [o_refill_buffers; o_verify_interval] -> jopts (fix_verify wf is_set fmt j) g = jopts j g.
Proof.
  intros Hg. unfold fix_verify. apply when_keep; [done|]. intros _. cbv beta zeta. rewrite interval_frame; [keep|].
  intros H. apply Hg. apply list_elem_of_singleton in H as ->. right. by left.
Qed.
Lemma buffers_frame g j : g ∉ [o_invalidate_cache; o_unit_base; o_zero_buffers; o_compress_percentage; o_refill_buffers] ->
  jopts (fix_buffers wf is_set flagged j) g = jopts j g.
Proof. intros Hg. unfold fix_buffers. keep. Qed.
Lemma distribution_frame g j : g ∉ [o_norandommap] -> jopts (fix_distribution j) g = jopts j g.
Proof. intros Hg. unfold fix_distribution. keep. Qed.
Lemma size_frame g j : g ∉ [o_odirect; o_rand_repeatable] -> jopts (fix_size is_set flagged j) g = jopts j g.
Proof. intros Hg. unfold fix_size. keep. Qed.
Lemma loops_frame g j : jopts (fix_loops j) g = jopts j g.
Proof. unfold fix_loops. keep. Qed.
Lemma latency_frame g j : g ∉ [o_lat_percentiles; o_clat_percentiles; o_max_latency; o_latency_target; o_latency_window] ->
  jopts (fix_latency is_set j) g = jopts j g.
Proof. intros Hg. unfold fix_latency. keep. Qed.
End frames.

Ltac other := apply (bool_decide_unpack _); vm_compute; exact I.

(** Rewrites the values of fields after adjustments that do not touch them. *)
Ltac untouched := repeat match goal with
  | |- context [jopts (fix_latency ?s ?j) ?g] => rewrite (latency_frame s g j) by other
  | |- context [jopts (fix_loops ?j) ?g] => rewrite (loops_frame g j)
  | |- context [jopts (fix_size ?s ?f ?j) ?g] => rewrite (size_frame s f g j) by other
  | |- context [jopts (fix_distribution ?j) ?g] => rewrite (distribution_frame g j) by other
  | |- context [jopts (fix_buffers ?w ?s ?f ?j) ?g] => rewrite (buffers_frame w s f g j) by other
  | |- context [jopts (fix_verify ?w ?s ?f ?j) ?g] => rewrite (verify_frame w s f g j) by other
  | |- context [jopts (fix_fill ?j) ?g] => rewrite (fill_frame g j) by other
  | |- context [jopts (fix_time ?w ?j) ?g] => rewrite (time_frame w g j) by other
  | |- context [jopts (fix_rates ?j) ?g] => rewrite (rates_frame g j)
  | |- context [jopts (fix_files ?f ?j) ?g] => rewrite (files_frame f g j) by other
  | |- context [jopts (fix_overlap ?w ?r ?j) ?g] => rewrite (overlap_frame w r g j) by other
  | |- context [jopts (fix_complete_max ?j) ?g] => rewrite (complete_frame g j) by other
  | |- context [jopts (fix_below_depth ?f ?j) ?g] => rewrite (below_frame g f j) by other
  | |- context [jopts (fix_spin ?w ?j) ?g] => rewrite (spin_frame w g j) by other
  end.

(** ** Each adjustment *)
Lemma gcd_fuel_ok : forall fuel m n, 0 <= n < Z.of_nat fuel -> gcd_fuel fuel m n = Z.gcd m n \/ m < 0.
Proof.
  induction fuel as [|fuel IH]; intros m n Hn; [lia|]. cbn [gcd_fuel]. destruct (Z.lt_ge_cases m 0) as [Hm|Hm]; [by right|left].
  destruct (Z.eqb_spec n 0) as [->|Hne]; [rewrite Z.gcd_0_r, Z.abs_eq by done; done|].
  pose proof (Z.mod_pos_bound m n ltac:(lia)) as Hb. destruct (IH n (m mod n) ltac:(lia)) as [->|?]; [|lia].
  rewrite Z.gcd_comm, Z.gcd_mod by done. apply Z.gcd_comm.
Qed.
Lemma gcd_ok m n : 0 <= m -> 0 <= n -> gcd m n = Z.gcd m n.
Proof. intros Hm Hn. unfold gcd. destruct (gcd_fuel_ok (S (Z.to_nat n)) m n) as [?|?]; [lia|done|lia]. Qed.

Lemma on_true j f : on j f = true <-> jopts j f <> 0.
Proof. unfold on. rewrite negb_true_iff. apply Z.eqb_neq. Qed.
Lemma on_false j f : on j f = false <-> jopts j f = 0.
Proof. unfold on. rewrite negb_false_iff. apply Z.eqb_eq. Qed.

Lemma below_depth f j : f <> o_iodepth -> 0 < jopts j o_iodepth -> 0 <= jopts j f ->
  0 < jopts (fix_below_depth f j) f <= jopts j o_iodepth.
Proof.
  intros Hf Hd H0. unfold fix_below_depth, when. destruct (_ || _) eqn:E; [rewrite set_eq; lia|].
  apply orb_false_iff in E as [E1 E2]. apply Z.ltb_ge in E1. apply negb_false_iff, on_true in E2. lia.
Qed.

Lemma spin_ok wf j : jopts (fix_spin wf j) o_thinktime_spin <= jopts j o_thinktime.
Proof.
  unfold fix_spin. set (k := when _ _ j). assert (Hk : jopts k = jopts j) by (unfold k, when; by destruct (_ && _)). cbv zeta.
  rewrite <- Hk. unfold when. destruct (Z.ltb_spec (jopts k o_thinktime) (jopts k o_thinktime_spin)); [rewrite set_eq; lia|lia].
Qed.

Lemma complete_ok j : jopts j o_iodepth_batch_complete_min <= jopts (fix_complete_max j) o_iodepth_batch_complete_max.
Proof. unfold fix_complete_max, when. destruct (Z.ltb_spec (jopts j o_iodepth_batch_complete_max) (jopts j o_iodepth_batch_complete_min)); [rewrite set_eq|]; lia. Qed.

Lemma overlap_ok wf ri j : jopts (fix_overlap wf ri j) o_serialize_overlap <> 0 ->
  jopts j o_io_submit_mode <> IO_MODE_OFFLOAD /\ (ri = false -> (td_write j = true \/ td_trim j = true) /\ jopts j o_iodepth <> 1).
Proof.
  unfold fix_overlap, when. cbv zeta. destruct (_ && _ && (_ || _)) eqn:Ec.
  - assert (H0 : on (set o_serialize_overlap 0 j) o_serialize_overlap = false) by (apply on_false, set_eq). rewrite H0. cbn [andb].
    intros H. exfalso. apply H. reflexivity.
  - destruct (on j o_serialize_overlap && (jopts j o_io_submit_mode =? IO_MODE_OFFLOAD)) eqn:E2; [intros H; exfalso; apply H; reflexivity|].
    intros Hon. apply on_true in Hon. rewrite Hon in E2, Ec. cbn [andb] in E2, Ec.
    split; [by apply Z.eqb_neq|]. intros ->. cbn [negb andb] in Ec. apply orb_false_iff in Ec as [H1 H2]. apply Z.eqb_neq in H2. apply negb_false_iff, orb_true_iff in H1. done.
Qed.

Lemma files_ok fi j : 0 <= fi -> 0 <= jopts j o_nr_files -> let k := fix_files fi j in
  jopts k o_open_files <= jopts k o_nr_files <= fi /\ (0 <= jopts j o_open_files -> 0 < jopts k o_nr_files -> 0 < jopts k o_open_files).
Proof.
  intros Hf Hn. unfold fix_files. set (j1 := when _ _ j). cbv zeta.
  assert (H1 : 0 <= jopts j1 o_nr_files <= fi) by (unfold j1, when; destruct (Z.ltb_spec fi (jopts j o_nr_files)); [rewrite set_eq|]; lia).
  assert (H2 : jopts j1 o_open_files = jopts j o_open_files) by (unfold j1, when; destruct (_ <? _); [by rewrite set_ne|done]).
  rewrite <- H2. clearbody j1. unfold when. destruct (_ || _) eqn:E; [rewrite set_eq, set_ne by done; lia|].
  apply orb_false_iff in E as [E1 E2]. apply Z.ltb_ge in E1. apply negb_false_iff, on_true in E2. lia.
Qed.

Lemma time_ok wf j : jopts (fix_time wf j) o_time_based <> 0 -> jopts j o_timeout <> 0.
Proof.
  unfold fix_time, when. destruct (_ && _) eqn:E; [intros H; exfalso; apply H; reflexivity|]. intros H. apply on_true in H. rewrite H, andb_true_r in E.
  by apply negb_false_iff, on_true in E.
Qed.

(** Block sizes as the options give them. *)
Definition bs_given (j : job) (d : fio_ddir) : Prop :=
  0 < jopts j (o_bs d) /\ 0 <= jopts j (o_ba d) /\
  ((jopts j (o_min_bs d) = 0 /\ jopts j (o_max_bs d) = 0) \/ 0 < jopts j (o_min_bs d) <= jopts j (o_max_bs d)).

Lemma min_max_ok d j : bs_given j d -> 0 < jopts (fix_min_max d j) (o_min_bs d) <= jopts (fix_min_max d j) (o_max_bs d).
Proof.
  intros (Hb & _ & H). unfold fix_min_max. set (j1 := when _ _ j). cbv zeta.
  assert (E1 : jopts j1 (o_min_bs d) = if jopts j (o_min_bs d) =? 0 then jopts j (o_bs d) else jopts j (o_min_bs d)).
  { unfold j1, when, on. rewrite negb_involutive. destruct (_ =? 0); [apply set_eq|done]. }
  assert (E2 : jopts j1 (o_max_bs d) = jopts j (o_max_bs d) /\ jopts j1 (o_bs d) = jopts j (o_bs d)) by (unfold j1, when; by destruct (negb _)).
  clearbody j1. destruct E2 as [E2 E3]. unfold when, on. rewrite negb_involutive, E2, E3.
  destruct H as [[H1 H2]|[H1 H2]].
  - rewrite H2. cbn [Z.eqb]. rewrite set_ne, set_eq, E1, H1 by done. cbn [Z.eqb]. lia.
  - rewrite (proj2 (Z.eqb_neq (jopts j (o_max_bs d)) 0)) by lia. rewrite E1, E2, (proj2 (Z.eqb_neq (jopts j (o_min_bs d)) 0)) by lia. lia.
Qed.

Lemma ba_ok d j : 0 < jopts j (o_min_bs d) -> 0 <= jopts j (o_ba d) ->
  0 < jopts (fix_ba d j) (o_ba d) /\ (td_random j = false -> jopts (fix_ba d j) (o_ba d) = jopts j (o_min_bs d)).
Proof.
  intros Hm Hb. unfold fix_ba, when. destruct (_ || _) eqn:E; [rewrite set_eq; done|]. apply orb_false_iff in E as [E1 E2].
  apply negb_false_iff, on_true in E1. apply negb_false_iff in E2. split; [lia|]. intros H. congruence.
Qed.

(** The three directions do not interfere. *)
Lemma min_max_all j : (forall d, bs_given j d) -> let k := fix_min_max DDIR_TRIM (fix_min_max DDIR_WRITE (fix_min_max DDIR_READ j)) in
  forall d, 0 < jopts k (o_min_bs d) <= jopts k (o_max_bs d) /\ jopts k (o_ba d) = jopts j (o_ba d).
Proof.
  intros H k. assert (Hg : forall d d' j, d <> d' -> bs_given j d -> bs_given (fix_min_max d' j) d).
  { intros d d' i Hne. unfold bs_given. rewrite !min_max_frame by (destruct d, d'; done || other). done. }
  intros d. unfold k. split.
  - destruct d.
    + rewrite !(min_max_frame _ DDIR_TRIM), !(min_max_frame _ DDIR_WRITE) by other. by apply min_max_ok.
    + rewrite !(min_max_frame _ DDIR_TRIM) by other. apply min_max_ok. by apply Hg.
    + apply min_max_ok. by repeat apply Hg.
  - by rewrite !min_max_frame by (destruct d; other).
Qed.

Lemma ba_all j : (forall d, 0 < jopts j (o_min_bs d) /\ 0 <= jopts j (o_ba d)) -> let k := fix_ba DDIR_TRIM (fix_ba DDIR_WRITE (fix_ba DDIR_READ j)) in
  forall d, jopts k (o_min_bs d) = jopts j (o_min_bs d) /\ jopts k (o_max_bs d) = jopts j (o_max_bs d) /\ 0 < jopts k (o_ba d) /\
    (td_random j = false -> jopts k (o_ba d) = jopts j (o_min_bs d)).
Proof.
  intros H k d. assert (Hr : forall d i, td_random (fix_ba d i) = td_random i) by (intros d' i; unfold td_random; by rewrite ba_frame by (destruct d'; other)).
  unfold k. split; [by rewrite !ba_frame by (destruct d; other)|]. split; [by rewrite !ba_frame by (destruct d; other)|].
  assert (Hk : forall d' i, d' <> d -> jopts (fix_ba d' i) (o_min_bs d) = jopts i (o_min_bs d) /\ jopts (fix_ba d' i) (o_ba d) = jopts i (o_ba d)).
  { intros d' i Hne. by rewrite !ba_frame by (destruct d, d'; done || other). }
  destruct (H d) as [H1 H2]. destruct d.
  - rewrite !(ba_frame _ DDIR_TRIM), !(ba_frame _ DDIR_WRITE) by other. by apply ba_ok.
  - rewrite !(ba_frame _ DDIR_TRIM) by other. destruct (Hk DDIR_READ j) as [E1 E2]; [done|]. rewrite <- E1, <- (Hr DDIR_READ j). apply ba_ok; [by rewrite E1|by rewrite E2].
  - destruct (Hk DDIR_READ j) as [E1 E2]; [done|]. destruct (Hk DDIR_WRITE (fix_ba DDIR_READ j)) as [E3 E4]; [done|].
    rewrite <- E1, <- E3, <- (Hr DDIR_READ j), <- (Hr DDIR_WRITE (fix_ba DDIR_READ j)). apply ba_ok; [by rewrite E3, E1|by rewrite E4, E2].
Qed.

Lemma bs_ok wf j : (forall d, bs_given j d) -> let k := fix_block_sizes wf j in
  (forall d, 0 < jopts k (o_min_bs d) <= jopts k (o_max_bs d) /\ 0 < jopts k (o_ba d) /\
     (td_random j = false -> jopts k (o_ba d) = jopts k (o_min_bs d))) /\
  jopts k o_rw_min_bs = td_min_bs k /\ (jopts k o_norandommap = 0 -> forall d, jopts k (o_ba d) = jopts k (o_min_bs d)).
Proof.
  intros H k. unfold k, fix_block_sizes. pose proof (min_max_all j H) as H1. cbv zeta in H1.
  assert (R1 : td_random (fix_min_max DDIR_TRIM (fix_min_max DDIR_WRITE (fix_min_max DDIR_READ j))) = td_random j).
  { unfold td_random. by rewrite !min_max_frame by other. }
  rewrite <- R1. set (j1 := fix_min_max DDIR_TRIM _) in *. clearbody j1. cbv zeta.
  set (j2 := set o_rw_min_bs _ (set _ _ j1)).
  assert (R2 : jopts j2 o_rw_min_bs = td_min_bs j2) by (unfold j2; rewrite set_eq; rewrite !set_ne by done; rewrite set_eq; unfold td_min_bs; by rewrite !set_ne by done).
  assert (E2 : forall g, g <> o_rw_min_bs -> jopts j2 g = jopts j1 g) by (intros g Hg; unfold j2; by rewrite !set_ne).
  assert (R3 : td_random j2 = td_random j1) by (unfold td_random; by rewrite E2). rewrite <- R3. clearbody j2.
  assert (H2 : forall d, 0 < jopts j2 (o_min_bs d) /\ 0 <= jopts j2 (o_ba d)).
  { intros d. rewrite !E2 by done. destruct (H1 d) as [Hd ->]. destruct (H d) as (_ & Hb & _). lia. }
  assert (H1' : forall d, 0 < jopts j2 (o_min_bs d) <= jopts j2 (o_max_bs d)) by (intros d; rewrite !E2 by done; apply H1).
  pose proof (ba_all j2 H2) as H3. cbv zeta in H3.
  assert (R4 : jopts (fix_ba DDIR_TRIM (fix_ba DDIR_WRITE (fix_ba DDIR_READ j2))) o_rw_min_bs = jopts j2 o_rw_min_bs) by (by rewrite !ba_frame by other).
  set (j3 := fix_ba DDIR_TRIM _) in *. clearbody j3.
  assert (R5 : td_min_bs j3 = td_min_bs j2) by (unfold td_min_bs; f_equal; [apply H3|f_equal; apply H3]).
  set (c := _ && _). assert (Hg : forall g, g <> o_norandommap -> jopts (when c (fun j => warn wf (set o_norandommap 1 j)) j3) g = jopts j3 g).
  { intros g Hg. unfold when. destruct c; [|done]. change (jopts (set o_norandommap 1 j3) g = jopts j3 g). by apply set_ne. }
  split_and!.
  - intros d. destruct (H3 d) as (A1 & A2 & A3 & A4). rewrite !Hg, A1, A2 by done. split; [apply H1'|]. by split.
  - unfold td_min_bs. rewrite !Hg by done. fold (td_min_bs j3). by rewrite R4, R5, R2.
  - intros H0 d. rewrite !Hg by done. unfold when in H0. destruct c eqn:Ec; [discriminate H0|]. unfold c in Ec.
    apply on_false in H0. rewrite H0, andb_true_r in Ec. destruct (Z.eq_dec (jopts j3 (o_ba d)) (jopts j3 (o_min_bs d))) as [|Hne]; [done|]. exfalso.
    assert (Hex : existsb (fun d => negb (jopts j3 (o_ba d) =? jopts j3 (o_min_bs d))) three = true); [|congruence].
    apply existsb_exists. exists d. split; [destruct d; cbn; tauto|]. by apply negb_true_iff, Z.eqb_neq.
Qed.

(** The interval of verification. *)
Lemma interval_ok j : let w := jopts j (o_min_bs DDIR_WRITE) in let x := jopts j (o_max_bs DDIR_WRITE) in let vi := jopts (fix_interval j) o_verify_interval in
  0 < w -> 0 < x -> 0 < jopts j (o_min_bs DDIR_READ) -> 0 <= jopts j o_verify_interval -> 0 < vi /\ (vi | w) /\ (vi | x).
Proof.
  intros w x vi Hw Hx Hr Hv. unfold vi, fix_interval. cbv zeta. fold w x.
  set (j1 := when _ _ j). assert (V1 : 0 <= jopts j1 o_verify_interval) by (unfold j1, when; destruct (_ && _); [rewrite set_eq; lia|done]).
  assert (R1 : jopts j1 (o_min_bs DDIR_READ) = jopts j (o_min_bs DDIR_READ)) by (unfold j1, when; by destruct (_ && _)). clearbody j1.
  set (j2 := if _ <? _ then _ else _).
  assert (V2 : 0 <= jopts j2 o_verify_interval).
  { unfold j2, when. destruct (_ <? _); [rewrite set_eq; lia|]. destruct (_ && _); [rewrite set_eq; lia|done]. }
  clearbody j2. unfold when. destruct (_ || _) eqn:E.
  - rewrite set_eq, gcd_ok by lia. pose proof (Z.gcd_nonneg w x). split; [|split; [apply Z.gcd_divide_l|apply Z.gcd_divide_r]].
    assert (Z.gcd w x <> 0) by (intros H0; apply Z.gcd_eq_0_l in H0; lia). lia.
  - apply orb_false_iff in E as [E E3]. apply orb_false_iff in E as [E1 E2]. apply Z.eqb_neq in E1. apply negb_false_iff, Z.eqb_eq in E2, E3.
    split; [lia|]. split; by apply Z.mod_divide.
Qed.

Lemma verify_ok wf is_set fmt j : jopts j o_verify <> 0 -> 0 < jopts j (o_min_bs DDIR_WRITE) -> 0 < jopts j (o_max_bs DDIR_WRITE) ->
  0 < jopts j (o_min_bs DDIR_READ) -> 0 <= jopts j o_verify_interval ->
  let vi := jopts (fix_verify wf is_set fmt j) o_verify_interval in
  0 < vi /\ (vi | jopts j (o_min_bs DDIR_WRITE)) /\ (vi | jopts j (o_max_bs DDIR_WRITE)).
Proof.
  intros Hv Hw Hx Hr H0.
  assert (exists j1, fix_verify wf is_set fmt j = fix_interval j1 /\ forall g, g ∉ [o_refill_buffers] -> jopts j1 g = jopts j g) as (j1 & -> & E).
  { unfold fix_verify. unfold when at 1. rewrite (proj2 (on_true j o_verify) Hv). cbv zeta. eexists. split; [reflexivity|].
    intros g Hg. keep. }
  rewrite <- (E (o_min_bs DDIR_WRITE)), <- (E (o_max_bs DDIR_WRITE)) by other. apply interval_ok; rewrite E by other; done.
Qed.

(** A delay drawn from a range. *)
Lemma start_ok j st : delay_state j = State32 st -> live (State32 st) ->
  (jopts j o_start_delay_high = 0 \/ 0 <= jopts j o_start_delay < jopts j o_start_delay_high /\ jopts j o_start_delay_high < 2 ^ 53) ->
  exists k, fix_start j = Some k /\ jopts k o_start_delay_high = jopts j o_start_delay_high /\
    (jopts j o_start_delay_high <> 0 -> jopts j o_start_delay <= jopts k o_start_delay < jopts j o_start_delay_high).
Proof.
  intros Hst Hlive Hd. unfold fix_start. cbv zeta. set (j1 := when _ _ j).
  assert (E : forall g, g ∉ [o_file_size_high] -> jopts j1 g = jopts j g) by (intros g Hg; unfold j1; keep).
  assert (Hs1 : delay_state j1 = State32 st) by (rewrite <- Hst; unfold j1, when; by destruct (negb _)). clearbody j1.
  rewrite <- !E by other. rewrite <- (E o_start_delay_high) in Hd by other. rewrite <- (E o_start_delay) in Hd by other. destruct (on j1 o_start_delay_high) eqn:Eon.
  - apply on_true in Eon. destruct Hd as [Hd|[Hd1 Hd2]]; [done|]. unfold get_rand_start_delay. rewrite Hs1.
    set (n := jopts j1 o_start_delay_high - jopts j1 o_start_delay). rewrite (wrap_small 64 n) by (unfold uint, n; lia).
    destruct (__rand (State32 st)) as [st' r] eqn:Er.
    assert (Hr : 0 <= r < 2 ^ 32).
    { pose proof (rand_result_uint _ Hlive) as Hr. rewrite Er in Hr. change (rand_max (State32 st)) with (2 ^ 32 - 1) in Hr. cbn [snd] in Hr. lia. }
    change (rand_max (State32 st)) with (2 ^ 32 - 1). destruct (to_u64_scale n r ltac:(unfold n; lia) Hr) as (v & -> & Hv). cbn [mbind option_bind].
    eexists. split; [done|]. split; [by rewrite set_ne|]. intros _. rewrite set_eq, wrap_small by (unfold uint, n in *; lia). unfold n in Hv. lia.
  - exists j1. split; [done|]. split; [done|]. intros Hc. by apply on_false in Eon.
Qed.

Lemma map_ok j : jopts (fix_distribution j) o_norandommap = 0 -> jopts j o_norandommap = 0 /\ jopts j o_random_distribution = 0.
Proof. unfold fix_distribution, when. destruct (on j o_random_distribution) eqn:Eon; [discriminate|]. by apply on_false in Eon. Qed.

Lemma loops_ok is_set j : 0 <= jopts j o_loops -> 0 < td_loops (fix_latency is_set (fix_loops j)).
Proof.
  assert (H : forall j, td_loops (fix_latency is_set j) = td_loops j).
  { intros i. unfold fix_latency. cbv zeta. cbn [td_loops set]. unfold when. repeat case_match; reflexivity. }
  rewrite H. unfold fix_loops, when. cbv zeta. cbn [td_loops set_loops]. intros H0.
  destruct (Z.eqb_spec (jopts j o_loops) 0); destruct (_ && _); cbn [td_loops refuse set_ret set_loops]; lia.
Qed.

Lemma iolog_ok wf j : jopts (fix_iolog wf j) o_write_iolog_file = 0 \/ jopts j o_read_iolog_file = 0.
Proof.
  unfold fix_iolog, when. destruct (_ && _) eqn:E; [by left|]. apply andb_false_iff in E as [E|E]; apply on_false in E; auto.
Qed.

(** ** Jobs *)
Record job_given (files_index : Z) (j : job) : Prop := {
  jg_bs : forall d, bs_given j d;
  jg_pos : forall f, 0 <= jopts j f;
  jg_depth : 0 < jopts j o_iodepth;
  jg_files : 0 <= files_index;
  jg_rand : exists st, delay_state j = State32 st /\ live (State32 st);
  jg_delay : jopts j o_start_delay_high = 0 \/
             jopts j o_start_delay < jopts j o_start_delay_high /\ jopts j o_start_delay_high < 2 ^ 53
}.

Record job_ready (files_index : Z) (read_iolog : bool) (i j : job) : Prop := {
  jr_bs : forall d, 0 < jopts j (o_min_bs d) <= jopts j (o_max_bs d);
  jr_rw : jopts j o_rw_min_bs = td_min_bs j;
  jr_ba : forall d, 0 < jopts j (o_ba d) /\ (td_random j = false -> jopts j (o_ba d) = jopts j (o_min_bs d));
  jr_map : jopts j o_norandommap = 0 -> jopts j o_random_distribution = 0 /\ forall d, jopts j (o_ba d) = jopts j (o_min_bs d);
  jr_low : 0 < jopts j o_iodepth_low <= jopts j o_iodepth;
  jr_batch : 0 < jopts j o_iodepth_batch <= jopts j o_iodepth;
  jr_complete : jopts j o_iodepth_batch_complete_min <= jopts j o_iodepth_batch_complete_max;
  jr_overlap : jopts j o_serialize_overlap <> 0 -> jopts j o_io_submit_mode <> IO_MODE_OFFLOAD /\
                 (read_iolog = false -> (td_write j = true \/ td_trim j = true) /\ jopts j o_iodepth <> 1);
  jr_files : jopts j o_open_files <= jopts j o_nr_files <= files_index /\ (0 < jopts j o_nr_files -> 0 < jopts j o_open_files);
  jr_spin : jopts j o_thinktime_spin <= jopts j o_thinktime;
  jr_time : jopts j o_time_based <> 0 -> jopts j o_timeout <> 0;
  jr_verify : jopts j o_verify <> 0 -> 0 < jopts j o_verify_interval /\
                (jopts j o_verify_interval | jopts j (o_min_bs DDIR_WRITE)) /\ (jopts j o_verify_interval | jopts j (o_max_bs DDIR_WRITE));
  jr_iolog : jopts j o_write_iolog_file = 0 \/ jopts j o_read_iolog_file = 0;
  jr_delay : jopts j o_start_delay_high <> 0 -> jopts i o_start_delay <= jopts j o_start_delay < jopts j o_start_delay_high;
  jr_loops : 0 < td_loops j
}.

Lemma delay_when c (F : job -> job) j : (forall j, delay_state (F j) = delay_state j) -> delay_state (when c F j) = delay_state j.
Proof. intros H. unfold when. by destruct c. Qed.

Ltac keep_delay :=
  lazymatch goal with
  | |- delay_state (let x := ?X in @?B x) = ?v =>
      let H := fresh in let j := fresh in
      assert (H : delay_state X = v) by keep_delay; change (delay_state (B X) = v); revert H; generalize X; intros j H; cbv beta; keep_delay
  | |- delay_state (when _ _ _) = _ => rewrite delay_when by (intros; reflexivity); keep_delay
  | |- delay_state (set _ _ ?j) = ?v => change (delay_state j = v); keep_delay
  | |- delay_state (set_ret _ ?j) = ?v => change (delay_state j = v); keep_delay
  | |- delay_state (fix_ba _ ?j) = ?v => unfold fix_ba at 1; keep_delay
  | |- delay_state (fix_min_max _ ?j) = ?v => unfold fix_min_max at 1; keep_delay
  | |- _ => first [assumption|reflexivity]
  end.

Lemma delay_bs wf j : delay_state (fix_block_sizes wf j) = delay_state j.
Proof. unfold fix_block_sizes. keep_delay. Qed.
Lemma delay_kept wf j : delay_state (fix_block_sizes wf (fix_zones (fix_iolog wf (set_ret 0 j)))) = delay_state j.
Proof. rewrite delay_bs. transitivity (delay_state (fix_iolog wf (set_ret 0 j))); [unfold fix_zones|unfold fix_iolog]; keep_delay. Qed.

(** The options before and after the start delay is drawn. *)
Lemma first_half wf fi j : job_given fi j -> exists c, fix_start (fix_block_sizes wf (fix_zones (fix_iolog wf (set_ret 0 j)))) = Some c /\
  (forall g, g ∉ [o_write_iolog_file; o_zone_size; o_zone_range; o_overwrite; o_file_size_high; o_start_delay] ++ bs_fields -> jopts c g = jopts j g) /\
  (forall d, 0 < jopts c (o_min_bs d) <= jopts c (o_max_bs d) /\ 0 < jopts c (o_ba d) /\
     (td_random c = false -> jopts c (o_ba d) = jopts c (o_min_bs d))) /\
  jopts c o_rw_min_bs = td_min_bs c /\ (jopts c o_norandommap = 0 -> forall d, jopts c (o_ba d) = jopts c (o_min_bs d)) /\
  (jopts c o_write_iolog_file = 0 \/ jopts c o_read_iolog_file = 0) /\
  (jopts c o_start_delay_high <> 0 -> jopts j o_start_delay <= jopts c o_start_delay < jopts c o_start_delay_high).
Proof.
  intros [Hbs Hpos Hdep Hfi (st & Hst & Hlive) Hdel].
  pose proof (iolog_ok wf (set_ret 0 j)) as Hio. pose proof (delay_kept wf j) as Hds.
  set (a0 := fix_iolog wf (set_ret 0 j)) in *. assert (E0 : forall g, g ∉ [o_write_iolog_file] -> jopts a0 g = jopts j g) by (intros g Hg; by apply (iolog_frame wf g (set_ret 0 j))).
  clearbody a0. set (a := fix_zones a0) in *. assert (Ea : forall g, g ∉ [o_zone_size; o_zone_range; o_overwrite] -> jopts a g = jopts a0 g) by (intros g Hg; by apply zones_frame).
  clearbody a. assert (Hga : forall d, bs_given a d) by (intros d; unfold bs_given; rewrite !Ea, !E0 by (destruct d; other); apply Hbs).
  destruct (bs_ok wf a Hga) as (B1 & B2 & B3). pose proof (fun g => bs_frame wf g a) as Eb. set (b := fix_block_sizes wf a) in *. clearbody b.
  assert (Rb : td_random a = td_random b) by (unfold td_random; by rewrite Eb by other).
  destruct (start_ok b st) as (c & Ec & C1 & C2); [congruence|done|rewrite !Eb, !Ea, !E0 by other; pose proof (Hpos o_start_delay); lia|].
  pose proof (fun g Hg => start_frame g b c Hg Ec) as Fc. exists c. split; [done|]. split_and!.
  - abstract (intros g Hg; rewrite !not_elem_of_app, !not_elem_of_cons in Hg; destruct Hg as ((G1 & G2 & G3 & G4 & G5 & G6 & _) & G7);
    rewrite Fc, Eb, Ea, E0; try reflexivity; try exact G7; rewrite !not_elem_of_cons; split_and!; assumption || apply not_elem_of_nil).
  - abstract (intros d; destruct (B1 d) as (D1 & D2 & D3); assert (Rc : td_random c = td_random a) by (rewrite Rb; unfold td_random; by rewrite Fc by other);
    rewrite Rc, !Fc by (destruct d; other); exact (conj D1 (conj D2 D3))).
  - abstract (unfold td_min_bs; rewrite !Fc by other; exact B2).
  - abstract (intros H0 d; rewrite !Fc by (destruct d; other); apply B3; by rewrite <- (Fc o_norandommap) by other).
  - abstract (rewrite !Fc, !Eb, !Ea, (E0 o_read_iolog_file) by other; exact Hio).
  - abstract (rewrite C1; intros H; specialize (C2 H); rewrite Eb, Ea, E0 in C2 by other; exact C2).
Qed.


(** ** Concrete jobs *)
Definition plain_opt (f : opt) : Z :=
  match f with
  | o_bs _ => 4096 | o_iodepth => 4 | o_nr_files => 2 | o_td_ddir => 6 | o_verify => 3 | o_max_bs DDIR_WRITE => 12288 | o_min_bs DDIR_WRITE => 4096
  | o_start_delay => 1000 | o_start_delay_high => 2000 | o_rand_repeatable => 1 | _ => 0
  end.
Definition plain_job (more : list (opt * Z)) : job :=
  foldr (fun '(f, v) j => set f v j) (Job plain_opt 0 (init_rand false) false 0 None) more.
Definition fixup_plain (more : list (opt * Z)) : option job :=
  fixup_options 0 (fun _ => false) (fun _ => false) false 2 [] (plain_job more).

Lemma plain_given : job_given 2 (plain_job []).
Proof.
  split; [|intros f; cbn [plain_job foldr jopts]; unfold plain_opt; repeat case_match; lia|done|done| |right; split; done].
  - intros []; (split; [done|]); (split; [done|]); [by left|by right|by left].
  - eexists. split; [reflexivity|]. apply (bool_decide_unpack _). vm_compute. exact I.
Qed.


(** What is forgotten: a job with both kinds of rates is refused, but when it
    also is based on time without having one, the later warning replaces the code
    and the job is accepted; and a job with zones keeps them although two files are
    open, because the number of open files is filled in after the zones are looked
    at. *)
Theorem fixup_forgets :
  jret <$> fixup_plain [(o_rate DDIR_READ, 1000); (o_rate_iops DDIR_READ, 10)] = Some 1 /\
  jret <$> fixup_plain [(o_rate DDIR_READ, 1000); (o_rate_iops DDIR_READ, 10); (o_time_based, 1)] = Some 0 /\
  (fun k => (jopts k o_zone_size, jopts k o_open_files)) <$> fixup_plain [(o_zone_size, 1048576)] = Some (1048576, 2) /\
  (fun k => (jopts k o_zone_size, jopts k o_open_files)) <$> fixup_plain [(o_zone_size, 1048576); (o_open_files, 2)] = Some (0, 2).
Proof. vm_compute. auto. Qed.
