(* ===== verification/SteadyState.v ===== *)
(** * Steady state: [steadystate.c]

    The window of the last [dur] samples over which the slope or the deviation of
    a job's rate is judged.  [None] is an access outside an array or a division by
    zero; floating-point numbers are IEEE doubles. *)
From S2P Require Import Prelude CFloat Time.

Definition FIO_SS_IOPS : Z := 1.
Definition FIO_SS_SLOPE : Z := 4.
Definition FIO_SS_ATTAINED : Z := 8.
Definition FIO_SS_RAMP_OVER : Z := 16.
Definition FIO_SS_DATA : Z := 32.
Definition FIO_SS_PCT : Z := 64.
Definition FIO_SS_BUFFER_FULL : Z := 128.

Record steadystate_data := Ss {
  limit : double; dur : Z; ramp_time : Z; state : Z; head : Z; tail : Z; iops_data : list Z; bw_data : list Z;
  slope : double; deviation : double; criterion : double;
  sum_y : Z; sum_x : Z; sum_x_sq : Z; sum_xy : Z; oldest_y : Z;
  prev_time : timespec; prev_iops : Z; prev_bytes : Z
}.

Definition has (s : steadystate_data) (f : Z) : bool := negb (Z.land (state s) f =? 0).

Definition set_state (v : Z) (s : steadystate_data) : steadystate_data :=
  Ss (limit s) (dur s) (ramp_time s) v (head s) (tail s) (iops_data s) (bw_data s) (slope s) (deviation s) (criterion s)
     (sum_y s) (sum_x s) (sum_x_sq s) (sum_xy s) (oldest_y s) (prev_time s) (prev_iops s) (prev_bytes s).
Definition set_data (i b : list Z) (s : steadystate_data) : steadystate_data :=
  Ss (limit s) (dur s) (ramp_time s) (state s) (head s) (tail s) i b (slope s) (deviation s) (criterion s)
     (sum_y s) (sum_x s) (sum_x_sq s) (sum_xy s) (oldest_y s) (prev_time s) (prev_iops s) (prev_bytes s).
Definition set_sums (y xy : Z) (s : steadystate_data) : steadystate_data :=
  Ss (limit s) (dur s) (ramp_time s) (state s) (head s) (tail s) (iops_data s) (bw_data s) (slope s) (deviation s) (criterion s)
     y (sum_x s) (sum_x_sq s) xy (oldest_y s) (prev_time s) (prev_iops s) (prev_bytes s).
Definition set_oldest (v : Z) (s : steadystate_data) : steadystate_data :=
  Ss (limit s) (dur s) (ramp_time s) (state s) (head s) (tail s) (iops_data s) (bw_data s) (slope s) (deviation s) (criterion s)
     (sum_y s) (sum_x s) (sum_x_sq s) (sum_xy s) v (prev_time s) (prev_iops s) (prev_bytes s).
Definition set_result (sl dv cr : double) (s : steadystate_data) : steadystate_data :=
  Ss (limit s) (dur s) (ramp_time s) (state s) (head s) (tail s) (iops_data s) (bw_data s) sl dv cr
     (sum_y s) (sum_x s) (sum_x_sq s) (sum_xy s) (oldest_y s) (prev_time s) (prev_iops s) (prev_bytes s).
Definition set_ends (h t : Z) (s : steadystate_data) : steadystate_data :=
  Ss (limit s) (dur s) (ramp_time s) (state s) h t (iops_data s) (bw_data s) (slope s) (deviation s) (criterion s)
     (sum_y s) (sum_x s) (sum_x_sq s) (sum_xy s) (oldest_y s) (prev_time s) (prev_iops s) (prev_bytes s).
Definition set_prev (now : timespec) (i b : Z) (s : steadystate_data) : steadystate_data :=
  Ss (limit s) (dur s) (ramp_time s) (state s) (head s) (tail s) (iops_data s) (bw_data s) (slope s) (deviation s) (criterion s)
     (sum_y s) (sum_x s) (sum_x_sq s) (sum_xy s) (oldest_y s) now i b.

(** Storing into an array. *)
Definition put (l : list Z) (i v : Z) : option (list Z) :=
  if Z.of_nat (length l) <=? i then None else Some (<[Z.to_nat i := v]> l).

(** The array the criterion looks at. *)
Definition values (s : steadystate_data) : list Z := if has s FIO_SS_IOPS then iops_data s else bw_data s.

(** ** Slope *)

(** The sums from scratch: [i] runs up to [dur]. *)
Definition sum_all (s : steadystate_data) : option Z :=
  fold_left (fun acc i => y ← acc; v ← values s !! i; Some (u64 (y + v))) (seq 0 (Z.to_nat (dur s))) (Some 0).
Definition sum_weighted (s : steadystate_data) : option Z :=
  fold_left (fun acc i => xy ← acc; v ← values s !! Z.to_nat (u32 (head s + Z.of_nat i) mod dur s); Some (u64 (xy + Z.of_nat i * v)))
    (seq 0 (Z.to_nat (dur s))) (Some (sum_xy s)).

Definition full_now (s : steadystate_data) : bool := has s FIO_SS_BUFFER_FULL || (u32 (tail s - head s) =? u64 (dur s - 1)).

Definition advance (s : steadystate_data) : steadystate_data :=
  let t := u32 (tail s + 1) mod dur s in
  set_ends (if t <=? head s then u32 (head s + 1) mod dur s else head s) t s.

(** [(sum_xy - (double) sum_x * sum_y / dur) / (sum_x_sq - (double) sum_x * sum_x / dur)]. *)
Definition slope_of (n sx sxx sy sxy : Z) : double :=
  ddiv (dsub (of_int sxy) (ddiv (dmul (of_int sx) (of_int sy)) (of_int n)))
       (dsub (of_int sxx) (ddiv (dmul (of_int sx) (of_int sx)) (of_int n))).
Definition slope_criterion (pct : bool) (n sy : Z) (sl : double) : double :=
  if pct then ddiv (dmul (of_int 100) sl) (of_int (sy / n)) else sl.
(** [x * (x < 0.0 ? -1.0 : 1.0)]. *)
Definition dabs (x : double) : double := dmul x (of_int (if dltb x (of_int 0) then -1 else 1)).

Definition steadystate_slope (s : steadystate_data) (iops bw : Z) : option (steadystate_data * bool) :=
  b ← put (bw_data s) (tail s) bw;
  i ← put (iops_data s) (tail s) iops;
  let s := set_data i b s in
  let new_val := if has s FIO_SS_IOPS then iops else bw in
  if full_now s then
    s ← (if negb (has s FIO_SS_BUFFER_FULL) then
           y ← sum_all s; xy ← sum_weighted s;
           Some (set_state (Z.lor (state s) FIO_SS_BUFFER_FULL) (set_sums y xy s))
         else
           let y := u64 (u64 (sum_y s - oldest_y s) + new_val) in
           Some (set_sums y (u64 (sum_xy s - y + dur s * new_val)) s));
    v ← values s !! Z.to_nat (head s);
    let s := set_oldest v s in
    let sl := slope_of (dur s) (sum_x s) (sum_x_sq s) (sum_y s) (sum_xy s) in
    let cr := slope_criterion (has s FIO_SS_PCT) (dur s) (sum_y s) sl in
    let s := set_result sl (deviation s) cr s in
    if dltb (dabs cr) (limit s) then Some (s, true) else Some (advance s, false)
  else Some (advance s, false).

(** ** Deviation *)
Definition deviation_of (mean : double) (l : list Z) : double :=
  fold_left (fun d v => let x := dabs (dsub (of_int v) mean) in if dltb x d then d else x) l (of_int 0).

Definition steadystate_deviation (s : steadystate_data) (iops bw : Z) : option (steadystate_data * bool) :=
  b ← put (bw_data s) (tail s) bw;
  i ← put (iops_data s) (tail s) iops;
  let s := set_data i b s in
  if full_now s then
    s ← (if negb (has s FIO_SS_BUFFER_FULL) then
           y ← sum_all s; Some (set_state (Z.lor (state s) FIO_SS_BUFFER_FULL) (set_sums y (sum_xy s) s))
         else
           v ← values s !! Z.to_nat (tail s); Some (set_sums (u64 (u64 (sum_y s - oldest_y s) + v)) (sum_xy s) s));
    v ← values s !! Z.to_nat (head s);
    let s := set_oldest v s in
    let mean := ddiv (of_int (sum_y s)) (of_int (dur s)) in
    let dv := deviation_of mean (take (Z.to_nat (dur s)) (values s)) in
    let cr := if has s FIO_SS_PCT then ddiv (dmul (of_int 100) dv) mean else dv in
    let s := set_result (slope s) dv cr s in
    if dltb cr (limit s) then Some (s, true) else Some (advance s, false)
  else Some (advance s, false).

(** ** Jobs *)
Definition TD_SETTING_UP : Z := 4.
Definition TD_EXITED : Z := 10.

(** [struct thread_data], as far as it is looked at here; [td_terminate] says that
    the job was told to stop. *)
Record job := Job {
  ss : steadystate_data; runstate : Z; group_reporting : bool; groupid : Z; epoch : timespec;
  io_blocks : list Z; io_bytes : list Z; td_terminate : bool
}.
Definition set_ss (s : steadystate_data) (j : job) : job :=
  Job s (runstate j) (group_reporting j) (groupid j) (epoch j) (io_blocks j) (io_bytes j) (td_terminate j).
Definition fio_mark_td_terminate (j : job) : job :=
  Job (ss j) (runstate j) (group_reporting j) (groupid j) (epoch j) (io_blocks j) (io_bytes j) true.

Definition steadystate_alloc (j : job) : job :=
  let s := ss j in
  set_ss (set_state (Z.lor (state s) FIO_SS_DATA) (set_data (replicate (Z.to_nat (dur s)) 0) (replicate (Z.to_nat (dur s)) 0) s)) j.

(** [steadystate_setup]: [prev] is [prev_td], by its place in the list. *)
Fixpoint setup_loop (todo : list job) (i : nat) (prev_groupid : Z) (prev : option nat) (tds : list job) : list job * option nat :=
  match todo with
  | [] => (tds, prev)
  | td :: todo =>
      if dur (ss td) =? 0 then setup_loop todo (S i) prev_groupid prev tds
      else if negb (group_reporting td) then setup_loop todo (S i) prev_groupid prev (alter steadystate_alloc i tds)
      else if negb (prev_groupid =? groupid td) then
        let tds := match prev with Some p => alter steadystate_alloc p tds | None => tds end in
        setup_loop todo (S i) (groupid td) (Some i) tds
      else setup_loop todo (S i) prev_groupid (Some i) tds
  end.
Definition steadystate_setup (enabled : bool) (tds : list job) : list job :=
  if negb enabled then tds else
  match setup_loop tds 0 (-1U) None tds with
  | (tds, Some p) => match tds !! p with
                     | Some td => if group_reporting td then alter steadystate_alloc p tds else tds
                     | None => tds
                     end
  | (tds, None) => tds
  end.

(** [steadystate_check] for the job at [i]; the first three numbers are
    [prev_groupid], [group_bw] and [group_iops], [over] is [group_ramp_time_over]. *)
Record totals := Totals { prev_groupid : Z; group_bw : Z; group_iops : Z; over : Z }.

Definition attained (i : nat) (td : job) (tds : list job) : list job :=
  let mark j := fio_mark_td_terminate (set_ss (set_state (Z.lor (state (ss j)) FIO_SS_ATTAINED) (ss j)) j) in
  if group_reporting td then (fun j => if groupid j =? groupid td then mark j else j) <$> tds else alter mark i tds.

Definition check_one (now : timespec) (i : nat) (t : totals) (tds : list job) : option (totals * list job) :=
  td ← tds !! i;
  let s := ss td in
  if (dur s =? 0) || (runstate td <=? TD_SETTING_UP) || (TD_EXITED <=? runstate td) || (state s =? 0) || has s FIO_SS_ATTAINED then Some (t, tds) else
  let t := if negb (group_reporting td) || negb (groupid td =? prev_groupid t) then Totals (prev_groupid t) 0 0 0 else t in
  let t := Totals (groupid td) (group_bw t) (group_iops t) (over t) in
  let s := if negb (ramp_time s =? 0) && negb (has s FIO_SS_RAMP_OVER) && (u64 (ramp_time s + 1000000) <=? utime_since (epoch td) now)
           then set_state (Z.lor (state s) FIO_SS_RAMP_OVER) s else s in
  let iops := fold_left (fun a v => u64 (a + v)) (io_blocks td) 0 in
  let bytes := fold_left (fun a v => u64 (a + v)) (io_bytes td) 0 in
  let rate_time := mtime_since (prev_time s) now in
  t ← (if has s FIO_SS_RAMP_OVER then
         if rate_time =? 0 then None else
         Some (Totals (prev_groupid t) (u64 (group_bw t + u64 (1000 * u64 (bytes - prev_bytes s)) / rate_time))
                 (u64 (group_iops t + u64 (1000 * u64 (iops - prev_iops s)) / rate_time)) (over t + 1))
       else Some t);
  let s := set_prev now iops bytes s in
  let tds := alter (set_ss s) i tds in
  if group_reporting td && negb (has s FIO_SS_DATA) then Some (t, tds)
  else if over t =? 0 then Some (t, tds) else
  '(s, ret) ← (if has s FIO_SS_SLOPE then steadystate_slope s (group_iops t) (group_bw t) else steadystate_deviation s (group_iops t) (group_bw t));
  let tds := alter (set_ss s) i tds in
  Some (t, if ret : bool then attained i td tds else tds).

Fixpoint check_loop (clock : nat -> timespec) (ids : list nat) (t : totals) (tds : list job) : option (list job) :=
  match ids with
  | [] => Some tds
  | i :: ids => '(t, tds) ← check_one (clock i) i t tds; check_loop clock ids t tds
  end.
Definition steadystate_check (clock : nat -> timespec) (tds : list job) : option (list job) :=
  check_loop clock (seq 0 (length tds)) (Totals (-1U) 0 0 0) tds.

(** [td_steadystate_init]: [ss_dur] of the options is in microseconds; [zero] is
    the cleared structure. *)
Definition steady_init (zero : steadystate_data) (ss_dur ss_ramp_time ss_state : Z) (ss_limit : double) : steadystate_data :=
  if ss_dur =? 0 then zero else
  let d := ss_dur / 1000000 in
  let st := if ss_ramp_time =? 0 then Z.lor ss_state FIO_SS_RAMP_OVER else ss_state in
  Ss ss_limit d ss_ramp_time st (head zero) (tail zero) (iops_data zero) (bw_data zero) (slope zero) (deviation zero) (criterion zero)
     (sum_y zero) (u64 (d * u64 (d - 1)) / 2) (u64 (u64 (u64 (d - 1) * d) * u64 (2 * d - 1)) / 6) (sum_xy zero) (oldest_y zero)
     (prev_time zero) (prev_iops zero) (prev_bytes zero).

(** Doubles are compared as [!=] does. *)
Definition same_options (a b : steadystate_data) : bool :=
  (dur a =? dur b) && negb (dltb (limit a) (limit b)) && negb (dltb (limit b) (limit a)) && (ramp_time a =? ramp_time b) &&
  (state a =? state b) && (sum_x a =? sum_x b) && (sum_x_sq a =? sum_x_sq b).
Definition td_steadystate_init (zero : steadystate_data) (ss_dur ss_ramp_time ss_state : Z) (ss_limit : double) (td : job) (others : list job) : job * Z :=
  let s := steady_init zero ss_dur ss_ramp_time ss_state ss_limit in
  (set_ss s td, if forallb (fun j => negb (groupid j =? groupid td) || same_options (ss j) s) others then 0 else 1).

(** [steadystate_bw_mean] and [steadystate_iops_mean]. *)
Definition steadystate_mean (ss_dur : Z) (data : list Z) : option Z :=
  sum ← fold_left (fun acc i => a ← acc; v ← data !! i; Some (u64 (a + v))) (seq 0 (Z.to_nat ss_dur)) (Some 0);
  if ss_dur =? 0 then None else Some (sum / ss_dur).
