(* ===== verification/SteadyInv.v ===== *)
(** * The window of the steady state

    The sums that are updated from sample to sample are those of the last [dur]
    samples, and the criterion is that of the window. *)
From S2P Require Import Prelude CFloat Time SteadyState.

(** ** Sums of a window *)
Definition total (l : list Z) : Z := foldr Z.add 0 l.
Fixpoint weighted (a : Z) (l : list Z) : Z := match l with [] => 0 | x :: l => a * x + weighted (a + 1) l end.

Lemma total_app l k : total (l ++ k) = total l + total k.
Proof. induction l as [|x l IH]; cbn; [done|]. fold (total (l ++ k)). fold (total l). rewrite IH. lia. Qed.
Lemma weighted_shift l : forall a, weighted (a + 1) l = weighted a l + total l.
Proof. induction l as [|x l IH]; intros a; cbn; [done|]. rewrite IH. fold (total l). lia. Qed.
Lemma weighted_snoc l v : forall a, weighted a (l ++ [v]) = weighted a l + (a + Z.of_nat (length l)) * v.
Proof. induction l as [|x l IH]; intros a; cbn [app weighted length]; [cbn; lia|]. rewrite IH. lia. Qed.

(** The last [n] of a list. *)
Definition window (n : nat) (h : list Z) : list Z := drop (length h - n) h.

Lemma window_length n h : (n <= length h)%nat -> length (window n h) = n.
Proof. intros H. unfold window. rewrite length_drop. lia. Qed.

Lemma window_snoc n h v : (0 < n <= length h)%nat -> exists w r, window n h = w :: r /\ window n (h ++ [v]) = r ++ [v] /\ S (length r) = n /\ h !! (length h - n)%nat = Some w.
Proof.
  intros H. unfold window. destruct (lookup_lt_is_Some_2 h (length h - n)) as [w Hw]; [lia|].
  exists w, (drop (S (length h - n)) h). split; [by apply drop_S|]. rewrite length_app. cbn [length].
  replace (length h + 1 - n)%nat with (S (length h - n)) by lia. split; [rewrite drop_app_le by lia; done|]. rewrite length_drop. split; [lia|done].
Qed.

(** Sums over an array that agrees with a list. *)
Lemma fold_total (f : nat -> option Z) l : forall from acc, (forall i, (i < length l)%nat -> f (from + i)%nat = l !! i) ->
  fold_left (fun acc i => y ← acc; v ← f i; Some (u64 (y + v))) (seq from (length l)) (Some (u64 acc)) = Some (u64 (acc + total l)).
Proof.
  induction l as [|x l IH]; intros from acc H; cbn [length seq fold_left total foldr]; [by rewrite Z.add_0_r|].
  pose proof (H 0%nat ltac:(cbn; lia)) as H0. rewrite Nat.add_0_r in H0. cbn [mbind option_bind]. rewrite H0. cbn [mbind option_bind lookup list_lookup].
  rewrite wrap_add_l by lia. rewrite IH; [fold (total l); f_equal; f_equal; lia|]. intros i Hi. specialize (H (S i) ltac:(cbn; lia)).
  by rewrite <- Nat.add_succ_comm in H.
Qed.

Lemma fold_weighted (f : nat -> option Z) l : forall from acc, (forall i, (i < length l)%nat -> f (from + i)%nat = l !! i) ->
  fold_left (fun acc i => xy ← acc; v ← f i; Some (u64 (xy + Z.of_nat i * v))) (seq from (length l)) (Some (u64 acc)) =
    Some (u64 (acc + weighted (Z.of_nat from) l)).
Proof.
  induction l as [|x l IH]; intros from acc H; cbn [length seq fold_left weighted]; [by rewrite Z.add_0_r|].
  pose proof (H 0%nat ltac:(cbn; lia)) as H0. rewrite Nat.add_0_r in H0. cbn [mbind option_bind]. rewrite H0. cbn [mbind option_bind lookup list_lookup].
  rewrite wrap_add_l by lia. rewrite IH; [f_equal; f_equal; rewrite Nat2Z.inj_succ; unfold Z.succ; lia|]. intros i Hi. specialize (H (S i) ltac:(cbn; lia)).
  by rewrite <- Nat.add_succ_comm in H.
Qed.

(** ** The state that holds a history of samples *)
Section ring.
Context (n : nat) (Hn : (0 < n)%nat) (Hn32 : Z.of_nat n < 2 ^ 32).

Record ring (s : steadystate_data) (h : list Z) : Prop := {
  rg_dur : dur s = Z.of_nat n;
  rg_iops : length (iops_data s) = n;
  rg_bw : length (bw_data s) = n;
  rg_tail : tail s = Z.of_nat (length h mod n);
  rg_head : head s = if (length h <? n)%nat then 0 else Z.of_nat (S (length h) mod n);
  rg_full : has s FIO_SS_BUFFER_FULL = (n <=? length h)%nat;
  rg_vals : forall i, (length h < i + S n)%nat -> (i < length h)%nat -> values s !! (i mod n)%nat = h !! i
}.

(** The running sums, once the window is full. *)
Record sums (s : steadystate_data) (h : list Z) : Prop := {
  sm_y : (n <= length h)%nat -> sum_y s = u64 (total (window n h));
  sm_old : (n <= length h)%nat -> h !! (length h - n)%nat = Some (oldest_y s)
}.
Definition sums_xy (s : steadystate_data) (h : list Z) : Prop :=
  if (n <=? length h)%nat then sum_xy s = u64 (weighted 0 (window n h)) else sum_xy s = 0.

Lemma mod_lt k : (k mod n < n)%nat.
Proof. apply Nat.mod_upper_bound. lia. Qed.

Lemma mod_ne i k : (k < i + n)%nat -> (i < k)%nat -> (i mod n <> k mod n)%nat.
Proof.
  intros H1 H2 E. pose proof (Nat.div_mod_eq i n) as Ei. pose proof (Nat.div_mod_eq k n) as Ek. rewrite E in Ei.
  assert (n * (k / n) = n * (i / n) + (k - i))%nat by lia. assert (k / n <= i / n \/ i / n + 1 <= k / n)%nat as [|] by lia; nia.
Qed.

Lemma mod_back k : (n <= k)%nat -> ((k - n) mod n = k mod n)%nat.
Proof. intros H. replace k with (k - n + 1 * n)%nat at 2 by lia. symmetry. apply Nat.Div0.mod_add. Qed.

Lemma mod_small_nat k : (k < n)%nat -> (k mod n = k)%nat.
Proof. apply Nat.mod_small. Qed.

(** ** One sample *)
Definition sample (s : steadystate_data) (iops bw : Z) : Z := if has s FIO_SS_IOPS then iops else bw.
Definition stored (s : steadystate_data) (iops bw : Z) : steadystate_data :=
  set_data (<[Z.to_nat (tail s) := iops]> (iops_data s)) (<[Z.to_nat (tail s) := bw]> (bw_data s)) s.

Lemma tail_nat s h : ring s h -> Z.to_nat (tail s) = (length h mod n)%nat /\ 0 <= tail s < Z.of_nat n.
Proof. intros [_ _ _ Ht _ _ _]. rewrite Ht, Nat2Z.id. split; [done|]. pose proof (mod_lt (length h)). lia. Qed.

Lemma put_ok l i v : Z.of_nat (length l) = Z.of_nat n -> 0 <= i < Z.of_nat n -> put l i v = Some (<[Z.to_nat i := v]> l).
Proof. intros Hl Hi. unfold put. rewrite (proj2 (Z.leb_gt (Z.of_nat (length l)) i)) by lia. done. Qed.

(** What is true of the arrays after a sample is stored, with the ends not moved. *)
Record agrees (s : steadystate_data) (h : list Z) : Prop := {
  ag_iops : length (iops_data s) = n;
  ag_bw : length (bw_data s) = n;
  ag_vals : forall i, (length h < i + S n)%nat -> (i < length h)%nat -> values s !! (i mod n)%nat = h !! i
}.

Lemma stored_agrees s h iops bw : ring s h -> agrees (stored s iops bw) (h ++ [sample s iops bw]).
Proof.
  intros Hr. pose proof (tail_nat s h Hr) as [Et _]. destruct Hr as [Hd Hi Hb Ht Hh Hf Hv]. unfold stored. rewrite Et.
  split; [cbn; by rewrite length_insert|cbn; by rewrite length_insert|]. rewrite length_app. cbn [length]. intros i H1 H2.
  assert (Ev : values (set_data (<[(length h mod n)%nat:=iops]> (iops_data s)) (<[(length h mod n)%nat:=bw]> (bw_data s)) s) =
    <[(length h mod n)%nat := sample s iops bw]> (values s)).
  { unfold values, sample, has. cbn. by destruct (negb _). }
  assert (Hlen : length (values s) = n) by (unfold values; by destruct (has s FIO_SS_IOPS)). rewrite Ev.
  destruct (Nat.eq_dec i (length h)) as [->|Hne].
  - rewrite list_lookup_insert_eq by (rewrite Hlen; apply mod_lt). rewrite lookup_app_r by lia. by rewrite Nat.sub_diag.
  - rewrite list_lookup_insert_ne by (apply not_eq_sym, mod_ne; lia). rewrite lookup_app_l by lia. apply Hv; lia.
Qed.

Lemma full_now_ok s h iops bw : ring s h -> full_now (stored s iops bw) = (n <=? S (length h))%nat.
Proof.
  intros Hr. pose proof (tail_nat s h Hr) as [_ Hrange]. destruct Hr as [Hd _ _ Ht Hh Hf _]. unfold full_now, stored, has in *. cbn. rewrite Hf, Hd.
  destruct (Nat.leb_spec n (length h)) as [H|H]; [cbn; symmetry; apply Nat.leb_le; lia|]. cbn [orb].
  rewrite Hh, Ht, (proj2 (Nat.ltb_lt (length h) n)), mod_small_nat by lia. rewrite !wrap_small by (unfold uint; lia).
  destruct (Nat.leb_spec n (S (length h))); [apply Z.eqb_eq|apply Z.eqb_neq]; lia.
Qed.

Lemma advance_ok s s2 h v : ring s h -> agrees s2 (h ++ [v]) -> dur s2 = dur s -> head s2 = head s -> tail s2 = tail s ->
  has s2 FIO_SS_BUFFER_FULL = (n <=? S (length h))%nat -> ring (advance s2) (h ++ [v]).
Proof.
  intros Hr [Hi Hb Hv] Ed Eh Et Ef. pose proof (tail_nat s h Hr) as [_ Hrange]. destruct Hr as [Hd _ _ Ht Hh _ _].
  assert (Hlen : length (h ++ [v]) = S (length h)) by (rewrite length_app; cbn; lia).
  assert (E1 : u32 (tail s2 + 1) mod dur s2 = Z.of_nat (S (length h) mod n)).
  { rewrite wrap_small by (unfold uint; lia). rewrite Et, Ed, Hd, Ht, Nat2Z.inj_mod, Nat2Z.inj_mod, Z.add_mod_idemp_l by lia. f_equal. lia. }
  split; [by rewrite <- Hd|exact Hi|exact Hb|by rewrite Hlen| |by rewrite Hlen|exact Hv].
  unfold advance. cbn [head set_ends]. rewrite Hlen, E1, Eh, Ed, Hd, Hh. destruct (Nat.ltb_spec (length h) n) as [H|H].
  - destruct (Nat.ltb_spec (S (length h)) n) as [H1|H1].
    + rewrite mod_small_nat by lia. by rewrite (proj2 (Z.leb_gt _ 0)) by lia.
    + assert (E : S (length h) = n) by lia. rewrite E, Nat.Div0.mod_same. cbn [Z.of_nat Z.leb Z.compare]. change (u32 (0 + 1)) with 1.
      rewrite Nat2Z.inj_mod. replace (Z.of_nat (S n)) with (1 + 1 * Z.of_nat n) by lia. rewrite Z.mod_add by lia. done.
  - rewrite (proj2 (Nat.ltb_ge (S (length h)) n)) by lia. rewrite Z.leb_refl. pose proof (mod_lt (S (length h))).
    rewrite wrap_small by (unfold uint; lia). rewrite !Nat2Z.inj_mod, Z.add_mod_idemp_l by lia. f_equal. lia.
Qed.

Lemma window_all (h : list Z) : length h = n -> window n h = h.
Proof. intros H. unfold window. by rewrite H, Nat.sub_diag. Qed.

(** The sums of a window that has just filled up. *)
Lemma first_sums s h : agrees s h -> length h = n -> dur s = Z.of_nat n -> head s = 0 ->
  sum_all s = Some (u64 (total h)) /\ (sum_xy s = 0 -> sum_weighted s = Some (u64 (weighted 0 h))).
Proof.
  intros [_ _ Hv] Hl Hd Hh. unfold sum_all, sum_weighted. rewrite Hd, Hh, Nat2Z.id.
  assert (Hi : forall i, (i < length h)%nat -> values s !! i = h !! i).
  { intros i Hi. rewrite <- (mod_small_nat i) at 1 by lia. apply Hv; lia. }
  split; [|intros ->]; rewrite <- Hl.
  - exact (fold_total (fun i => values s !! i) h 0 0 Hi).
  - refine (fold_weighted (fun i => values s !! Z.to_nat (u32 (0 + Z.of_nat i) mod Z.of_nat (length h))) h 0 0 _).
    intros i Hl'. cbn [Nat.add]. rewrite <- Hi by done. f_equal. rewrite wrap_small by (unfold uint; lia). rewrite Z.mod_small by lia. lia.
Qed.

(** The sums of a window that moves on by one. *)
Lemma next_sums s h v : (n <= length h)%nat -> sums s h ->
  let y := u64 (u64 (sum_y s - oldest_y s) + v) in
  y = u64 (total (window n (h ++ [v]))) /\
  (sum_xy s = u64 (weighted 0 (window n h)) -> u64 (sum_xy s - y + Z.of_nat n * v) = u64 (weighted 0 (window n (h ++ [v])))).
Proof.
  intros Hl [Hy Ho]. destruct (window_snoc n h v) as (w & r & E1 & E2 & E3 & E4); [lia|]. specialize (Hy Hl). specialize (Ho Hl).
  rewrite E4 in Ho. injection Ho as <-. rewrite Hy, E1, E2. cbn zeta.
  assert (Ey : u64 (u64 (u64 (total (w :: r)) - w) + v) = u64 (total (r ++ [v]))).
  { rewrite wrap_add_l by lia. unfold wrap. rewrite <- Zplus_mod_idemp_l, Zminus_mod_idemp_l, Zplus_mod_idemp_l.
    f_equal. rewrite total_app. cbn [total foldr]. fold (total r). lia. }
  rewrite Ey. split; [done|]. intros ->. rewrite weighted_snoc. cbn [weighted]. rewrite (weighted_shift r 0).
  unfold wrap. rewrite <- Zplus_mod_idemp_l, Zminus_mod_idemp_l, Zminus_mod_idemp_r, Zplus_mod_idemp_l. f_equal.
  rewrite total_app. cbn [total foldr]. rewrite <- E3, Nat2Z.inj_succ. lia.
Qed.

Lemma oldest_ok s h iops bw : ring s h -> (n <= S (length h))%nat ->
  values (stored s iops bw) !! Z.to_nat (head s) = (h ++ [sample s iops bw]) !! (S (length h) - n)%nat.
Proof.
  intros Hr Hl. pose proof (stored_agrees s h iops bw Hr) as [_ _ Hv]. destruct Hr as [_ _ _ _ Hh _ _].
  rewrite length_app in Hv. cbn [length] in Hv. rewrite <- (Hv (S (length h) - n)%nat) by lia. f_equal. rewrite Hh.
  destruct (Nat.ltb_spec (length h) n) as [H|H]; [replace (S (length h) - n)%nat with 0%nat by lia; by rewrite Nat.Div0.mod_0_l|].
  rewrite Nat2Z.id. symmetry. apply mod_back. lia.
Qed.

(** ** The criterion of a window *)
Definition slope_test (s : steadystate_data) (w : list Z) : bool :=
  let y := u64 (total w) in
  let sl := slope_of (dur s) (sum_x s) (sum_x_sq s) y (u64 (weighted 0 w)) in
  dltb (dabs (slope_criterion (has s FIO_SS_PCT) (dur s) y sl)) (limit s).

(** What the criterion is made of does not change. *)
Definition same_config (s s' : steadystate_data) : Prop :=
  limit s' = limit s /\ dur s' = dur s /\ sum_x s' = sum_x s /\ sum_x_sq s' = sum_x_sq s /\
  (has s' FIO_SS_IOPS = has s FIO_SS_IOPS /\ has s' FIO_SS_SLOPE = has s FIO_SS_SLOPE /\ prev_time s' = prev_time s) /\ has s' FIO_SS_PCT = has s FIO_SS_PCT.

Lemma has_full st f : Z.land FIO_SS_BUFFER_FULL f = 0 -> Z.land (Z.lor st FIO_SS_BUFFER_FULL) f = Z.land st f.
Proof. intros H. by rewrite Z.land_lor_distr_l, H, Z.lor_0_r. Qed.
Lemma full_full st : negb (Z.land (Z.lor st FIO_SS_BUFFER_FULL) FIO_SS_BUFFER_FULL =? 0) = true.
Proof.
  apply negb_true_iff, Z.eqb_neq. intros H. assert (Hb : Z.testbit (Z.land (Z.lor st FIO_SS_BUFFER_FULL) FIO_SS_BUFFER_FULL) 7 = true).
  { rewrite Z.land_spec, Z.lor_spec. by rewrite orb_true_r. }
  by rewrite H in Hb.
Qed.

(** The state in which the criterion is computed. *)
Definition filled (s : steadystate_data) (y xy : Z) : steadystate_data := set_state (Z.lor (state s) FIO_SS_BUFFER_FULL) (set_sums y xy s).

Lemma slope_sums s h iops bw : ring s h -> sums s h -> sums_xy s h -> let s1 := stored s iops bw in let h' := h ++ [sample s iops bw] in
  (n <= S (length h))%nat ->
  exists s2, (if negb (has s1 FIO_SS_BUFFER_FULL) then
      y ← sum_all s1; xy ← sum_weighted s1; Some (filled s1 y xy)
    else let y := u64 (u64 (sum_y s1 - oldest_y s1) + sample s iops bw) in
         Some (set_sums y (u64 (sum_xy s1 - y + dur s1 * sample s iops bw)) s1)) = Some s2 /\
    sum_y s2 = u64 (total (window n h')) /\ sum_xy s2 = u64 (weighted 0 (window n h')) /\ has s2 FIO_SS_BUFFER_FULL = true /\
    head s2 = head s /\ tail s2 = tail s /\ values s2 = values s1 /\ iops_data s2 = iops_data s1 /\ bw_data s2 = bw_data s1 /\ same_config s s2.
Proof.
  intros Hr Hs Hxy s1 h' Hl. pose proof (stored_agrees s h iops bw Hr) as Ha. fold s1 h' in Ha.
  assert (Hf : has s1 FIO_SS_BUFFER_FULL = (n <=? length h)%nat) by apply Hr. rewrite Hf. unfold sums_xy in Hxy.
  destruct (Nat.leb_spec n (length h)) as [H|H]; cbn [negb].
  - destruct (next_sums s h (sample s iops bw) H Hs) as [E1 E2]. specialize (E2 Hxy). eexists. split; [reflexivity|].
    cbn [sum_y sum_xy set_sums]. change (dur s1) with (dur s). rewrite (rg_dur s h Hr). split; [exact E1|]. split; [exact E2|].
    split; [exact Hf|]. unfold same_config. split_and!; reflexivity.
  - assert (El : length h' = n) by (unfold h'; rewrite length_app; cbn; lia). destruct (first_sums s1 h' Ha El) as [-> E2].
    { apply Hr. } { change (head s = 0). rewrite (rg_head s h Hr). by rewrite (proj2 (Nat.ltb_lt (length h) n)). }
    rewrite (E2 Hxy). cbn [mbind option_bind]. eexists. split; [reflexivity|]. rewrite (window_all h' El). cbn.
    split; [done|]. split; [done|]. split; [apply full_full|]. unfold filled, same_config, values, has. cbn. rewrite !has_full by done. split_and!; reflexivity.
Qed.

(** One sample: the result is that of the window, and without it the state goes on. *)
Lemma slope_step s h iops bw : ring s h -> sums s h -> sums_xy s h -> let h' := h ++ [sample s iops bw] in
  exists s' b, steadystate_slope s iops bw = Some (s', b) /\ b = (n <=? length h')%nat && slope_test s (window n h') /\ same_config s s' /\
    (b = false -> ring s' h' /\ sums s' h' /\ sums_xy s' h').
Proof.
  intros Hr Hs Hxy h'. pose proof (tail_nat s h Hr) as [_ Ht]. assert (El : length h' = S (length h)) by (unfold h'; rewrite length_app; cbn; lia).
  unfold steadystate_slope. rewrite !put_ok by (done || rewrite ?(rg_bw s h Hr), ?(rg_iops s h Hr); done). cbn [mbind option_bind].
  fold (stored s iops bw). rewrite (full_now_ok s h iops bw Hr), El.
  change (if has (stored s iops bw) FIO_SS_IOPS then iops else bw) with (sample s iops bw).
  pose proof (stored_agrees s h iops bw Hr) as Ha. fold h' in Ha. destruct (Nat.leb_spec n (S (length h))) as [H|H]; cbn [andb].
  - destruct (slope_sums s h iops bw Hr Hs Hxy H) as (s2 & E & Ey & Exy & Ef & Eh & Et & Ev & Ei & Eb & Ec). unfold filled in E. rewrite E. cbn [mbind option_bind].
    fold h' in Ey, Exy. rewrite Ev, Eh, (oldest_ok s h iops bw Hr H). fold h'. destruct (lookup_lt_is_Some_2 h' (S (length h) - n)) as [v Hv]; [lia|]. rewrite Hv. cbn [mbind option_bind].
    set (s3 := set_result _ _ _ _). assert (Etest : dltb (dabs (criterion s3)) (limit s3) = slope_test s (window n h')).
    { unfold s3, slope_test. cbn. destruct Ec as (-> & -> & -> & -> & _ & Hp). unfold has in *. cbn. by rewrite Ey, Exy, Hp. }
    change (slope_criterion _ _ _ _) with (criterion s3) at 1. rewrite Etest. exists (if slope_test s (window n h') then s3 else advance s3), (slope_test s (window n h')).
    split; [by destruct (slope_test s (window n h'))|]. split; [done|]. split; [destruct (slope_test _ _); exact Ec|].
    intros ->. assert (Ha3 : agrees s3 h').
    { destruct Ha as [A1 A2 A3]. split; [change (length (iops_data s2) = n); by rewrite Ei|change (length (bw_data s2) = n); by rewrite Eb|].
      intros i. change (values s3) with (values s2). rewrite Ev. apply A3. }
    split; [|split].
    + apply (advance_ok s s3 h); [done|exact Ha3|apply Ec|exact Eh|exact Et|]. change (has s2 FIO_SS_BUFFER_FULL = (n <=? S (length h))%nat). rewrite Ef. symmetry. apply Nat.leb_le. lia.
    + split; rewrite ?El; intros _; [exact Ey|exact Hv].
    + unfold sums_xy. rewrite El, (proj2 (Nat.leb_le n (S (length h)))) by lia. exact Exy.
  - exists (advance (stored s iops bw)), false. split; [done|]. split; [done|]. split; [done|]. intros _. split; [|split].
    + apply (advance_ok s (stored s iops bw) h); [done|done|done|done|done|]. change (has s FIO_SS_BUFFER_FULL = (n <=? S (length h))%nat).
      rewrite (rg_full s h Hr). rewrite (proj2 (Nat.leb_gt n (S (length h)))), (proj2 (Nat.leb_gt n (length h))) by lia. done.
    + split; rewrite El; lia.
    + unfold sums_xy in *. rewrite El, (proj2 (Nat.leb_gt n (S (length h)))) by lia. rewrite (proj2 (Nat.leb_gt n (length h))) in Hxy by lia. exact Hxy.
Qed.

(** ** Deviation *)

(** The array as it holds a window after [k] samples. *)
Definition arranged (k : nat) (w : list Z) : list Z := drop (n - k mod n) w ++ take (n - k mod n) w.

Definition deviation_test (s : steadystate_data) (k : nat) (w : list Z) : bool :=
  let mean := ddiv (of_int (u64 (total w))) (of_int (dur s)) in
  let dv := deviation_of mean (arranged k w) in
  dltb (if has s FIO_SS_PCT then ddiv (dmul (of_int 100) dv) mean else dv) (limit s).

Lemma values_arranged s h : agrees s h -> (n <= length h)%nat -> values s = arranged (length h) (window n h).
Proof.
  intros [Hi Hb Hv] Hl. pose proof (window_length n h Hl) as Hw. pose proof (mod_lt (length h)) as Hm.
  assert (Hlen : length (values s) = n) by (unfold values; by destruct (has s FIO_SS_IOPS)).
  assert (Hlook : forall i, (i < n)%nat -> window n h !! i = h !! (length h - n + i)%nat) by (intros i _; unfold window; by rewrite lookup_drop).
  set (m := (length h mod n)%nat) in *. assert (Hmod : forall q p, (p < n)%nat -> ((q * n + p) mod n = p)%nat).
  { intros q p Hp. rewrite Nat.add_comm, Nat.Div0.mod_add. by apply Nat.mod_small. }
  pose proof (Nat.div_mod_eq (length h) n) as Ed. fold m in Ed. assert (Hq : (1 <= length h / n)%nat) by (apply Nat.div_le_lower_bound; lia).
  apply list_eq. intros p. unfold arranged. fold m. destruct (Nat.lt_ge_cases p n) as [Hp|Hp].
  2: { rewrite !lookup_ge_None_2; [done|rewrite length_app, length_drop, length_take; lia|lia]. }
  destruct (Nat.lt_ge_cases p m) as [Hpm|Hpm].
  - rewrite lookup_app_l by (rewrite length_drop; lia). rewrite lookup_drop, Hlook by lia.
    rewrite <- (Hv (length h - n + (n - m + p))%nat) by lia. f_equal. symmetry.
    replace (length h - n + (n - m + p))%nat with (length h / n * n + p)%nat by nia. by apply Hmod.
  - rewrite lookup_app_r by (rewrite length_drop; lia). rewrite length_drop, Hw. replace (p - (n - (n - m)))%nat with (p - m)%nat by lia.
    rewrite lookup_take_lt by lia. rewrite Hlook by lia. rewrite <- (Hv (length h - n + (p - m))%nat) by lia. f_equal. symmetry.
    replace (length h - n + (p - m))%nat with ((length h / n - 1) * n + p)%nat by nia. by apply Hmod.
Qed.

Lemma deviation_sums s h iops bw : ring s h -> sums s h -> let s1 := stored s iops bw in let h' := h ++ [sample s iops bw] in
  (n <= S (length h))%nat ->
  exists s2, (if negb (has s1 FIO_SS_BUFFER_FULL) then y ← sum_all s1; Some (filled s1 y (sum_xy s1))
    else v ← values s1 !! Z.to_nat (tail s1); Some (set_sums (u64 (u64 (sum_y s1 - oldest_y s1) + v)) (sum_xy s1) s1)) = Some s2 /\
    sum_y s2 = u64 (total (window n h')) /\ has s2 FIO_SS_BUFFER_FULL = true /\
    head s2 = head s /\ tail s2 = tail s /\ values s2 = values s1 /\ iops_data s2 = iops_data s1 /\ bw_data s2 = bw_data s1 /\ same_config s s2.
Proof.
  intros Hr Hs s1 h' Hl. pose proof (stored_agrees s h iops bw Hr) as Ha. fold s1 h' in Ha.
  assert (Hf : has s1 FIO_SS_BUFFER_FULL = (n <=? length h)%nat) by apply Hr. rewrite Hf.
  destruct (Nat.leb_spec n (length h)) as [H|H]; cbn [negb].
  - assert (Ev : values s1 !! Z.to_nat (tail s1) = Some (sample s iops bw)).
    { change (tail s1) with (tail s). rewrite (proj1 (tail_nat s h Hr)). rewrite (ag_vals s1 h' Ha) by (unfold h'; rewrite length_app; cbn; lia).
      unfold h'. by rewrite lookup_app_r, Nat.sub_diag by lia. }
    rewrite Ev. cbn [mbind option_bind]. destruct (next_sums s h (sample s iops bw) H Hs) as [E1 _]. eexists. split; [reflexivity|].
    split; [exact E1|]. split; [exact Hf|]. unfold same_config. split_and!; reflexivity.
  - assert (El : length h' = n) by (unfold h'; rewrite length_app; cbn; lia). destruct (first_sums s1 h' Ha El) as [-> _].
    { apply Hr. } { change (head s = 0). rewrite (rg_head s h Hr). by rewrite (proj2 (Nat.ltb_lt (length h) n)). }
    cbn [mbind option_bind]. eexists. split; [reflexivity|]. rewrite (window_all h' El). cbn.
    split; [done|]. split; [apply full_full|]. unfold filled, same_config, values, has. cbn. rewrite !has_full by done. split_and!; reflexivity.
Qed.

Lemma deviation_step s h iops bw : ring s h -> sums s h -> let h' := h ++ [sample s iops bw] in
  exists s' b, steadystate_deviation s iops bw = Some (s', b) /\ b = (n <=? length h')%nat && deviation_test s (length h') (window n h') /\
    same_config s s' /\ (b = false -> ring s' h' /\ sums s' h').
Proof.
  intros Hr Hs h'. pose proof (tail_nat s h Hr) as [_ Ht]. assert (El : length h' = S (length h)) by (unfold h'; rewrite length_app; cbn; lia).
  unfold steadystate_deviation. rewrite !put_ok by (done || rewrite ?(rg_bw s h Hr), ?(rg_iops s h Hr); done). cbn [mbind option_bind].
  fold (stored s iops bw). rewrite (full_now_ok s h iops bw Hr), <- El.
  pose proof (stored_agrees s h iops bw Hr) as Ha. fold h' in Ha. destruct (Nat.leb_spec n (length h')) as [H|H]; cbn [andb].
  - destruct (deviation_sums s h iops bw Hr Hs ltac:(lia)) as (s2 & E & Ey & Ef & Eh & Et & Ev & Ei & Eb & Ec). unfold filled in E. rewrite E. cbn [mbind option_bind].
    fold h' in Ey. rewrite Ev, Eh, (oldest_ok s h iops bw Hr ltac:(lia)), <- El. fold h'. destruct (lookup_lt_is_Some_2 h' (length h' - n)) as [v Hv]; [lia|]. rewrite Hv. cbn [mbind option_bind].
    set (s3 := set_result _ _ _ _). assert (Etest : dltb (criterion s3) (limit s3) = deviation_test s (length h') (window n h')).
    { unfold s3, deviation_test. cbn. change (values (set_oldest v s2)) with (values s2). rewrite Ev, (values_arranged _ h' Ha H).
      destruct Ec as (-> & -> & _ & _ & _ & Hp). unfold has in *. cbn. rewrite Ey, Hp, (rg_dur s h Hr), Nat2Z.id, take_ge; [done|].
      unfold arranged. rewrite length_app, length_drop, length_take, window_length by done. pose proof (mod_lt (length h')). lia. }
    match goal with |- context [if dltb ?c ?l then Some (s3, true) else _] => change (dltb c l) with (dltb (criterion s3) (limit s3)) end.
    rewrite Etest. set (t := deviation_test _ _ _). exists (if t then s3 else advance s3), t.
    split; [by destruct t|]. split; [done|]. split; [destruct t; exact Ec|].
    intros ->. assert (Ha3 : agrees s3 h').
    { destruct Ha as [A1 A2 A3]. split; [change (length (iops_data s2) = n); by rewrite Ei|change (length (bw_data s2) = n); by rewrite Eb|].
      intros i. change (values s3) with (values s2). rewrite Ev. apply A3. }
    split.
    + apply (advance_ok s s3 h); [done|exact Ha3|apply Ec|exact Eh|exact Et|]. change (has s2 FIO_SS_BUFFER_FULL = (n <=? S (length h))%nat). rewrite Ef. symmetry. apply Nat.leb_le. lia.
    + split; intros _; [exact Ey|exact Hv].
  - exists (advance (stored s iops bw)), false. split; [done|]. split; [done|]. split; [done|]. intros _. split.
    + apply (advance_ok s (stored s iops bw) h); [done|done|done|done|done|]. change (has s FIO_SS_BUFFER_FULL = (n <=? S (length h))%nat).
      rewrite (rg_full s h Hr). rewrite (proj2 (Nat.leb_gt n (S (length h)))), (proj2 (Nat.leb_gt n (length h))) by lia. done.
    + split; lia.
Qed.
End ring.
