(* ===== verification/SteadyRun.v ===== *)
(** * Steady state over a run

    A job is declared steady at the first sample whose window passes the test, and
    the check of all jobs never leaves its arrays. *)
From S2P Require Import Prelude CFloat Time SteadyState SteadyInv.

(** ** Samples one after the other *)
Fixpoint run_samples (f : steadystate_data -> Z -> Z -> option (steadystate_data * bool)) (s : steadystate_data) (l : list (Z * Z)) :
    option (steadystate_data * option nat) :=
  match l with
  | [] => Some (s, None)
  | (iops, bw) :: l =>
      '(s, r) ← f s iops bw;
      if r : bool then Some (s, Some O) else '(s, k) ← run_samples f s l; Some (s, option_map S k)
  end.

(** The first sample after which [test] holds of all samples so far. *)
Fixpoint first_steady (test : list Z -> bool) (h l : list Z) : option nat :=
  match l with
  | [] => None
  | v :: l => if test (h ++ [v]) then Some O else option_map S (first_steady test (h ++ [v]) l)
  end.

Definition fresh (s : steadystate_data) : Prop :=
  head s = 0 /\ tail s = 0 /\ sum_xy s = 0 /\ has s FIO_SS_BUFFER_FULL = false /\
  length (iops_data s) = Z.to_nat (dur s) /\ length (bw_data s) = Z.to_nat (dur s).

Lemma fresh_ring n s : (0 < n)%nat -> dur s = Z.of_nat n -> fresh s -> ring n s [] /\ sums n s [] /\ sums_xy n s [].
Proof.
  intros Hn Hd (H1 & H2 & H3 & H4 & H5 & H6). rewrite Hd, Nat2Z.id in H5, H6. split; [split; cbn [length]; try done|split].
  - by rewrite H2, Nat.Div0.mod_0_l.
  - by rewrite H1, (proj2 (Nat.ltb_lt 0 n)).
  - rewrite H4. symmetry. by apply Nat.leb_gt.
  - intros i _ Hi. lia.
  - split; cbn [length]; lia.
  - unfold sums_xy. cbn [length]. by rewrite (proj2 (Nat.leb_gt n 0)) by lia.
Qed.

Lemma same_test s s' w : same_config s s' -> slope_test s' w = slope_test s w.
Proof. intros (H1 & H2 & H3 & H4 & _ & H5). unfold slope_test. by rewrite H1, H2, H3, H4, H5. Qed.
Lemma same_deviation n s s' k w : same_config s s' -> deviation_test n s' k w = deviation_test n s k w.
Proof. intros (H1 & H2 & _ & _ & _ & H5). unfold deviation_test. by rewrite H1, H2, H5. Qed.
Lemma same_sample s s' i b : same_config s s' -> sample s' i b = sample s i b.
Proof. intros (_ & _ & _ & _ & [H _] & _). unfold sample. by rewrite H. Qed.
Lemma same_trans s1 s2 s3 : same_config s1 s2 -> same_config s2 s3 -> same_config s1 s3.
Proof. unfold same_config. intuition congruence. Qed.
Lemma same_refl s : same_config s s.
Proof. unfold same_config. tauto. Qed.

Section run.
Context (n : nat) (Hn : (0 < n)%nat) (Hn32 : Z.of_nat n < 2 ^ 32) (s0 : steadystate_data).

Lemma run_slope : forall l s h, same_config s0 s -> ring n s h -> sums n s h -> sums_xy n s h ->
  exists s', run_samples steadystate_slope s l =
    Some (s', first_steady (fun h => (n <=? length h)%nat && slope_test s0 (window n h)) h ((fun '(i, b) => sample s0 i b) <$> l)).
Proof.
  induction l as [|[i b] l IH]; intros s h Hc Hr Hs Hxy; cbn [run_samples fmap list_fmap first_steady]; [by eexists|].
  destruct (slope_step n Hn Hn32 s h i b Hr Hs Hxy) as (s' & r & -> & Er & Hc' & Hgo). cbn [mbind option_bind].
  rewrite (same_sample s0 s i b Hc), (same_test s0 s _ Hc) in Er. rewrite <- Er. destruct r; [by eexists|].
  rewrite (same_sample s0 s i b Hc) in Hgo. destruct (Hgo eq_refl) as (G1 & G2 & G3).
  destruct (IH s' (h ++ [sample s0 i b]) (same_trans _ _ _ Hc Hc') G1 G2 G3) as (s2 & ->). by eexists.
Qed.

Lemma run_deviation : forall l s h, same_config s0 s -> ring n s h -> sums n s h ->
  exists s', run_samples steadystate_deviation s l =
    Some (s', first_steady (fun h => (n <=? length h)%nat && deviation_test n s0 (length h) (window n h)) h ((fun '(i, b) => sample s0 i b) <$> l)).
Proof.
  induction l as [|[i b] l IH]; intros s h Hc Hr Hs; cbn [run_samples fmap list_fmap first_steady]; [by eexists|].
  destruct (deviation_step n Hn Hn32 s h i b Hr Hs) as (s' & r & -> & Er & Hc' & Hgo). cbn [mbind option_bind].
  rewrite (same_sample s0 s i b Hc), (same_deviation n s0 s _ _ Hc) in Er. rewrite <- Er. destruct r; [by eexists|].
  rewrite (same_sample s0 s i b Hc) in Hgo. destruct (Hgo eq_refl) as (G1 & G2).
  destruct (IH s' (h ++ [sample s0 i b]) (same_trans _ _ _ Hc Hc') G1 G2) as (s2 & ->). by eexists.
Qed.
End run.

(** C25. The running sums are exact: fed any samples, the ring of the last [dur] of
    them with its incrementally updated sums declares the steady state at the first
    sample at which the window is full and its slope, or its greatest deviation
    from the mean, recomputed from the window, passes the limit, and at no other. *)
Theorem steady_exact s l : 0 < dur s < 2 ^ 32 -> fresh s ->
  let n := Z.to_nat (dur s) in let samples := (fun '(i, b) => sample s i b) <$> l in
  (exists s', run_samples steadystate_slope s l =
     Some (s', first_steady (fun h => (n <=? length h)%nat && slope_test s (window n h)) [] samples)) /\
  (exists s', run_samples steadystate_deviation s l =
     Some (s', first_steady (fun h => (n <=? length h)%nat && deviation_test n s (length h) (window n h)) [] samples)).
Proof.
  intros Hd Hf n samples. assert (Hn : (0 < n)%nat) by lia. assert (E : dur s = Z.of_nat n) by lia.
  destruct (fresh_ring n s Hn E Hf) as (H1 & H2 & H3). split.
  - apply run_slope; [done|lia|apply same_refl|done..].
  - apply run_deviation; [done|lia|apply same_refl|done..].
Qed.

Definition zero_data : steadystate_data :=
  Ss (of_int 0) 0 0 0 0 0 [] [] (of_int 0) (of_int 0) (of_int 0) 0 0 0 0 0 (Timespec 0 0) 0 0.
Definition sample_data : steadystate_data :=
  set_data (replicate 3 0) (replicate 3 0) (steady_init zero_data 3000000 0 (FIO_SS_IOPS + FIO_SS_SLOPE) (of_int 2)).

Lemma steady_exact_witness :
  snd <$> run_samples steadystate_slope sample_data [(10, 0); (20, 0); (30, 0); (31, 0); (32, 0)] = Some (Some 4%nat) /\
  exists s', run_samples steadystate_slope sample_data [(10, 0); (20, 0); (30, 0); (31, 0); (32, 0)] =
    Some (s', first_steady (fun h => (3 <=? length h)%nat && slope_test sample_data (window 3 h)) []
      ((fun '(i, b) => sample sample_data i b) <$> [(10, 0); (20, 0); (30, 0); (31, 0); (32, 0)])).
Proof.
  split; [vm_compute; reflexivity|].
  exact (proj1 (steady_exact sample_data [(10, 0); (20, 0); (30, 0); (31, 0); (32, 0)] ltac:(vm_compute; done) ltac:(vm_compute; done))).
Defined.

(** ** All jobs *)

(** The jobs whose arrays are used: those on their own, and the one of a group that
    has the data. *)
Definition sampled (j : job) : bool := negb (group_reporting j) || has (ss j) FIO_SS_DATA.

Definition job_ok (j : job) : Prop :=
  has (ss j) FIO_SS_ATTAINED = true \/ dur (ss j) = 0 \/ sampled j = false \/
  0 < dur (ss j) < 2 ^ 32 /\ exists h, ring (Z.to_nat (dur (ss j))) (ss j) h /\ sums (Z.to_nat (dur (ss j))) (ss j) h /\
    (has (ss j) FIO_SS_SLOPE = true -> sums_xy (Z.to_nat (dur (ss j))) (ss j) h).

(** Adding a flag does not change the others. *)
Lemma has_lor s g f : Z.land g f = 0 -> has (set_state (Z.lor (state s) g) s) f = has s f.
Proof. intros H. unfold has. cbn. by rewrite Z.land_lor_distr_l, H, Z.lor_0_r. Qed.
Lemma has_added s g k : 0 <= k -> g = 2 ^ k -> has (set_state (Z.lor (state s) g) s) g = true.
Proof.
  intros Hk ->. unfold has. cbn. apply negb_true_iff, Z.eqb_neq. intros H. assert (Hb : Z.testbit (Z.land (Z.lor (state s) (2 ^ k)) (2 ^ k)) k = true).
  { rewrite Z.land_spec, Z.lor_spec, Z.pow2_bits_true by done. by rewrite orb_true_r. }
  by rewrite H, Z.testbit_0_l in Hb.
Qed.

(** The parts of the state that the window consists of. *)
Definition same_window (s s' : steadystate_data) : Prop :=
  dur s' = dur s /\ iops_data s' = iops_data s /\ bw_data s' = bw_data s /\ tail s' = tail s /\ head s' = head s /\
  sum_y s' = sum_y s /\ sum_xy s' = sum_xy s /\ oldest_y s' = oldest_y s /\
  forall f, f = FIO_SS_BUFFER_FULL \/ f = FIO_SS_IOPS \/ f = FIO_SS_DATA \/ f = FIO_SS_SLOPE \/ f = FIO_SS_ATTAINED -> has s' f = has s f.

Lemma ring_same n s s' h : same_window s s' -> ring n s h -> ring n s' h.
Proof.
  intros (E1 & E2 & E3 & E4 & E5 & _ & _ & _ & E9) [H1 H2 H3 H4 H5 H6 H7].
  assert (Ev : values s' = values s) by (unfold values; rewrite E2, E3, E9 by tauto; done).
  split; rewrite ?E1, ?E2, ?E3, ?E4, ?E5, ?Ev; try done. rewrite E9 by tauto. done.
Qed.
Lemma sums_same n s s' h : same_window s s' -> sums n s h -> sums n s' h.
Proof. intros (_ & _ & _ & _ & _ & E6 & _ & E8 & _) [H1 H2]. split; by rewrite ?E6, ?E8. Qed.
Lemma sums_xy_same n s s' h : same_window s s' -> sums_xy n s h -> sums_xy n s' h.
Proof. intros (_ & _ & _ & _ & _ & _ & E7 & _). unfold sums_xy. by rewrite E7. Qed.

Lemma job_ok_same j s : same_window (ss j) s -> job_ok j -> job_ok (set_ss s j).
Proof.
  intros Hw [H|[H|[H|(Hd & h & H1 & H2 & H3)]]]; unfold job_ok, sampled in *; cbn; pose proof Hw as (E1 & _ & _ & _ & _ & _ & _ & _ & E9).
  - left. rewrite E9 by tauto. done.
  - right; left. by rewrite E1.
  - right; right; left. rewrite E9 by tauto. done.
  - right; right; right. rewrite E1. split; [done|]. exists h. split; [by apply (ring_same _ (ss j))|]. split; [by apply (sums_same _ (ss j))|].
    rewrite E9 by tauto. intros Hs. apply (sums_xy_same _ (ss j)); auto.
Qed.

Lemma ramp_same s c : same_window s (if c : bool then set_state (Z.lor (state s) FIO_SS_RAMP_OVER) s else s).
Proof.
  destruct c; [|unfold same_window; tauto]. split_and!; try reflexivity. intros f Hf. apply has_lor.
  destruct Hf as [->|[->|[->|[->| ->]]]]; reflexivity.
Qed.
Lemma prev_same s now i b : same_window s (set_prev now i b s).
Proof. unfold same_window. split_and!; reflexivity. Qed.
Lemma same_window_trans s1 s2 s3 : same_window s1 s2 -> same_window s2 s3 -> same_window s1 s3.
Proof.
  intros (A1 & A2 & A3 & A4 & A5 & A6 & A7 & A8 & A9) (B1 & B2 & B3 & B4 & B5 & B6 & B7 & B8 & B9). unfold same_window.
  split_and!; try congruence. intros f Hf. rewrite B9, A9; done.
Qed.

(** A job that was told to stop because its group is steady. *)
Lemma marked_ok j : job_ok (fio_mark_td_terminate (set_ss (set_state (Z.lor (state (ss j)) FIO_SS_ATTAINED) (ss j)) j)).
Proof. left. exact (has_added (ss j) FIO_SS_ATTAINED 3 ltac:(done) eq_refl). Qed.

Lemma attained_ok i td tds : (forall k j, k <> i -> tds !! k = Some j -> job_ok j) -> (forall j, tds !! i = Some j -> groupid j = groupid td) ->
  Forall job_ok (attained i td tds).
Proof.
  intros Hok Hi. unfold attained. destruct (group_reporting td).
  - apply Forall_lookup. intros k j Hk. rewrite list_lookup_fmap in Hk. apply fmap_Some in Hk as (j0 & Hj0 & ->).
    destruct (Z.eqb_spec (groupid j0) (groupid td)) as [E|E]; [apply marked_ok|]. apply (Hok k); [|done]. intros ->. by apply E, Hi.
  - apply Forall_lookup. intros k j Hk. destruct (decide (k = i)) as [->|Hne].
    + rewrite list_lookup_alter_eq in Hk. apply fmap_Some in Hk as (j0 & _ & ->). apply marked_ok.
    + rewrite list_lookup_alter_ne in Hk by done. by apply (Hok k).
Qed.

(** One job of the check. *)
Lemma sample_ok s h iops bw : let n := Z.to_nat (dur s) in 0 < dur s < 2 ^ 32 -> ring n s h -> sums n s h -> (has s FIO_SS_SLOPE = true -> sums_xy n s h) ->
  exists s' r, (if has s FIO_SS_SLOPE then steadystate_slope s iops bw else steadystate_deviation s iops bw) = Some (s', r) /\
    prev_time s' = prev_time s /\
    (r = false -> dur s' = dur s /\ exists h', ring n s' h' /\ sums n s' h' /\ (has s' FIO_SS_SLOPE = true -> sums_xy n s' h')).
Proof.
  intros n Hd Hr Hs Hxy. assert (Hn : (0 < n)%nat) by lia. assert (Hn32 : Z.of_nat n < 2 ^ 32) by lia.
  destruct (has s FIO_SS_SLOPE) eqn:Esl.
  - destruct (slope_step n Hn Hn32 s h iops bw Hr Hs (Hxy eq_refl)) as (s' & r & E & _ & (_ & Ed & _ & _ & (_ & _ & Ep) & _) & Hgo).
    exists s', r. split; [done|]. split; [done|]. intros Hf. destruct (Hgo Hf) as (G1 & G2 & G3). split; [done|]. eexists. eauto.
  - destruct (deviation_step n Hn Hn32 s h iops bw Hr Hs) as (s' & r & E & _ & (_ & Ed & _ & _ & (_ & Es & Ep) & _) & Hgo).
    exists s', r. split; [done|]. split; [done|]. intros Hf. destruct (Hgo Hf) as (G1 & G2). split; [done|]. eexists. split; [exact G1|]. split; [exact G2|].
    intros Hc. congruence.
Qed.

(** The jobs after the check of one of them. *)
Definition stepped (i : nat) (tds tds' : list job) : Prop :=
  length tds' = length tds /\ Forall job_ok tds' /\
  forall k j', k <> i -> tds' !! k = Some j' -> exists j, tds !! k = Some j /\ prev_time (ss j') = prev_time (ss j).

Lemma stepped_alter i (f : job -> job) tds : Forall job_ok tds -> (forall j, tds !! i = Some j -> job_ok (f j)) -> stepped i tds (alter f i tds).
Proof.
  intros Hok Hf. split; [apply length_alter|]. split; [apply Forall_alter; [done|]; intros j Hj _; by apply Hf|].
  intros k j' Hk Hj. rewrite list_lookup_alter_ne in Hj by done. by exists j'.
Qed.

Lemma stepped_attained i td f tds : Forall job_ok tds -> tds !! i = Some td -> groupid (f td) = groupid td ->
  stepped i tds (attained i td (alter f i tds)).
Proof.
  intros Hok Hi Hg. unfold stepped. split; [unfold attained; destruct (group_reporting td); by rewrite ?length_fmap, ?length_alter|]. split.
  - apply attained_ok.
    + intros k j Hk Hj. rewrite list_lookup_alter_ne in Hj by done. rewrite Forall_lookup in Hok. by apply (Hok k).
    + intros j Hj. rewrite list_lookup_alter_eq, Hi in Hj. by injection Hj as <-.
  - intros k j' Hk Hj. unfold attained in Hj. destruct (group_reporting td).
    + rewrite list_lookup_fmap, list_lookup_alter_ne in Hj by done. apply fmap_Some in Hj as (j & Ej & ->). exists j. split; [done|]. by destruct (_ =? _).
    + rewrite !list_lookup_alter_ne in Hj by done. by exists j'.
Qed.

Lemma alter_alter (i : nat) (f g : job -> job) (tds : list job) : alter g i (alter f i tds) = alter (g ∘ f) i tds.
Proof. revert i. induction tds as [|j tds IH]; intros [|i]; [done..|]. cbn. f_equal. apply IH. Qed.

Lemma check_one_ok now i t tds td : Forall job_ok tds -> tds !! i = Some td -> mtime_since (prev_time (ss td)) now <> 0 ->
  exists t' tds', check_one now i t tds = Some (t', tds') /\ stepped i tds tds'.
Proof.
  intros Hok Hi Ht. unfold check_one. rewrite Hi. cbn [mbind option_bind]. pose proof (Forall_lookup_1 _ _ _ _ Hok Hi) as Htd.
  assert (Hsame : stepped i tds tds) by (split; [done|]; split; [done|]; intros k j' _ Hj; by exists j').
  destruct (_ || _ || _ || _ || _) eqn:Eskip; [by eexists _, _|]. rewrite !orb_false_iff in Eskip. destruct Eskip as ((((Ed & _) & _) & _) & Ea).
  set (s1 := if _ && _ && _ then _ else _). assert (Hw : same_window (ss td) s1) by apply ramp_same.
  assert (Hp : prev_time s1 = prev_time (ss td)) by (unfold s1; by case_match). rewrite Hp, (proj2 (Z.eqb_neq _ 0) Ht).
  set (t1 := Totals (groupid td) _ _ _). set (iops := fold_left _ (io_blocks td) 0). set (bytes := fold_left _ (io_bytes td) 0).
  assert (exists t2, (if has s1 FIO_SS_RAMP_OVER then Some (Totals (prev_groupid t1) (u64 (group_bw t1 + u64 (1000 * u64 (bytes - prev_bytes s1)) / mtime_since (prev_time (ss td)) now))
      (u64 (group_iops t1 + u64 (1000 * u64 (iops - prev_iops s1)) / mtime_since (prev_time (ss td)) now)) (over t1 + 1)) else Some t1) = Some t2) as (t2 & ->) by (case_match; by eexists).
  cbn [mbind option_bind]. set (s2 := set_prev now iops bytes s1). assert (Hw2 : same_window (ss td) s2) by (eapply same_window_trans; [exact Hw|apply prev_same]).
  assert (Hok2 : stepped i tds (alter (set_ss s2) i tds)) by (apply stepped_alter; [done|]; intros j Hj; rewrite Hi in Hj; injection Hj as <-; by apply job_ok_same).
  clearbody s2. destruct (group_reporting td && negb (has s2 FIO_SS_DATA)) eqn:Eg; [by eexists _, _|]. destruct (over t2 =? 0); [by eexists _, _|].
  destruct (job_ok_same td s2 Hw2 Htd) as [H|[H|[H|(Hd & h & H1 & H2 & H3)]]]; cbn in *.
  - destruct Hw2 as (_ & _ & _ & _ & _ & _ & _ & _ & E9). rewrite E9 in H by tauto. congruence.
  - destruct Hw2 as (E1 & _). rewrite E1 in H. by apply Z.eqb_neq in Ed.
  - unfold sampled in H. cbn in H. destruct (group_reporting td), (has s2 FIO_SS_DATA); done.
  - destruct (sample_ok s2 h (group_iops t2) (group_bw t2) Hd H1 H2 H3) as (s3 & r & -> & _ & Hr). cbn [mbind option_bind]. rewrite alter_alter.
    eexists _, _. split; [reflexivity|]. destruct r; [by apply stepped_attained|]. apply stepped_alter; [done|]. intros j Hj.
    destruct (Hr eq_refl) as (Ed3 & h' & R1 & R2 & R3). right; right; right. cbn. rewrite Ed3. split; [done|]. by exists h'.
Qed.

Lemma check_loop_ok clock : forall ids t tds, NoDup ids -> Forall job_ok tds ->
  (forall k j, k ∈ ids -> tds !! k = Some j -> mtime_since (prev_time (ss j)) (clock k) <> 0) -> (forall k, k ∈ ids -> (k < length tds)%nat) ->
  exists tds', check_loop clock ids t tds = Some tds' /\ Forall job_ok tds' /\ length tds' = length tds.
Proof.
  induction ids as [|i ids IH]; intros t tds Hnd Hok Ht Hr; cbn [check_loop]; [by exists tds|]. apply list.NoDup_cons in Hnd as [Hni Hnd].
  destruct (lookup_lt_is_Some_2 tds i) as [td Htd]; [apply Hr; by left|].
  destruct (check_one_ok (clock i) i t tds td Hok Htd) as (t' & tds1 & -> & Hl & Hok1 & Hk); [apply Ht; [by left|done]|]. cbn [mbind option_bind].
  destruct (IH t' tds1 Hnd Hok1) as (tds' & -> & Hok' & Hl').
  - intros k j Hin Hj. destruct (Hk k j) as (j0 & Ej0 & ->); [intros ->; done|done|]. apply Ht; [by right|done].
  - intros k Hin. rewrite Hl. apply Hr. by right.
  - exists tds'. split; [done|]. split; [done|]. by rewrite Hl'.
Qed.

(** The check of all jobs is safe: as long as a millisecond passes between two
    checks of a job, [steadystate_check] divides by nothing and stays within the
    arrays of every job, and afterwards each job either is declared steady or has
    the window of its samples for the next check. *)
Theorem check_safe clock tds : Forall job_ok tds ->
  (forall k j, tds !! k = Some j -> mtime_since (prev_time (ss j)) (clock k) <> 0) ->
  exists tds', steadystate_check clock tds = Some tds' /\ Forall job_ok tds' /\ length tds' = length tds.
Proof.
  intros Hok Ht. apply check_loop_ok; [apply NoDup_seq|done|intros k j _; apply Ht|]. intros k Hk. apply elem_of_seq in Hk. lia.
Qed.

(** ** Setting up *)

(** Before and during the setup: nothing sampled yet, and arrays where there is data. *)
Definition unsampled (j : job) : Prop :=
  let s := ss j in
  head s = 0 /\ tail s = 0 /\ sum_xy s = 0 /\ has s FIO_SS_BUFFER_FULL = false /\ 0 <= dur s < 2 ^ 32 /\
  (has s FIO_SS_DATA = true -> length (iops_data s) = Z.to_nat (dur s) /\ length (bw_data s) = Z.to_nat (dur s)).

Lemma alloc_ok j : unsampled j -> unsampled (steadystate_alloc j) /\ has (ss (steadystate_alloc j)) FIO_SS_DATA = true.
Proof.
  intros (H1 & H2 & H3 & H4 & H5 & H6). split; [|exact (has_added (ss j) FIO_SS_DATA 5 ltac:(done) eq_refl)].
  split_and!; try done; [|apply H5|apply H5|].
  - rewrite <- H4. exact (has_lor (ss j) FIO_SS_DATA FIO_SS_BUFFER_FULL eq_refl).
  - intros _. cbn. rewrite !length_replicate. done.
Qed.

(** Jobs on their own have their arrays, up to some place. *)
Definition set_up (upto : nat) (tds : list job) : Prop :=
  Forall unsampled tds /\ forall k j, tds !! k = Some j -> (k < upto)%nat -> dur (ss j) <> 0 -> group_reporting j = false -> has (ss j) FIO_SS_DATA = true.

Lemma set_up_alloc upto p tds : set_up upto tds -> set_up upto (alter steadystate_alloc p tds).
Proof.
  intros [H1 H2]. split; [apply Forall_alter; [done|]; intros j _ Hj; by apply alloc_ok|].
  intros k j Hk Hlt Hd Hg. destruct (decide (k = p)) as [->|Hne].
  - rewrite list_lookup_alter_eq in Hk. apply fmap_Some in Hk as (j0 & Ej0 & ->). apply alloc_ok. by apply (Forall_lookup_1 _ _ _ _ H1 Ej0).
  - rewrite list_lookup_alter_ne in Hk by done. by apply (H2 k).
Qed.

Lemma set_up_next i tds : set_up i tds -> (forall j, tds !! i = Some j -> dur (ss j) <> 0 -> group_reporting j = false -> has (ss j) FIO_SS_DATA = true) ->
  set_up (S i) tds.
Proof. intros [H1 H2] H. split; [done|]. intros k j Hk Hlt. destruct (decide (k = i)) as [->|Hne]; [by apply H|]. apply (H2 k); [done|lia]. Qed.

(** What of a job the setup leaves alone. *)
Definition same_job (j j' : job) : Prop := dur (ss j') = dur (ss j) /\ group_reporting j' = group_reporting j /\ groupid j' = groupid j.

Lemma setup_loop_ok : forall todo i pg prev tds, set_up i tds -> length tds = (i + length todo)%nat ->
  (forall k j j', todo !! k = Some j -> tds !! (i + k)%nat = Some j' -> same_job j j') ->
  let '(tds', _) := setup_loop todo i pg prev tds in set_up (length tds') tds'.
Proof.
  induction todo as [|td todo IH]; intros i pg prev tds Hs Hl Hsame; cbn [setup_loop length] in *; [by rewrite Hl, Nat.add_0_r|].
  assert (Hcur : forall j', tds !! i = Some j' -> same_job td j') by (intros j' Hj'; apply (Hsame 0%nat td j' eq_refl); by rewrite Nat.add_0_r).
  assert (Hrest : forall tds', length tds' = length tds -> (forall k j', tds' !! k = Some j' -> exists j, tds !! k = Some j /\ same_job j j') ->
    forall k j j', todo !! k = Some j -> tds' !! (S i + k)%nat = Some j' -> same_job j j').
  { intros tds' _ Hf k j j' Hj Hj'. apply Hf in Hj' as (j0 & Ej0 & (A1 & A2 & A3)). rewrite Nat.add_succ_comm in Ej0.
    destruct (Hsame (S k) j j0 Hj Ej0) as (B1 & B2 & B3). unfold same_job. split_and!; congruence. }
  assert (Hid : forall k j', tds !! k = Some j' -> exists j, tds !! k = Some j /\ same_job j j') by (intros k j' Hj'; exists j'; by repeat split).
  assert (Halter : forall p k j', alter steadystate_alloc p tds !! k = Some j' -> exists j, tds !! k = Some j /\ same_job j j').
  { intros p k j' Hj'. destruct (decide (k = p)) as [->|Hne]; [|rewrite list_lookup_alter_ne in Hj' by done; by apply Hid].
    rewrite list_lookup_alter_eq in Hj'. apply fmap_Some in Hj' as (j0 & Ej0 & ->). exists j0. by repeat split. }
  destruct (Z.eqb_spec (dur (ss td)) 0) as [Ed|Ed].
  { apply IH; [|lia|by apply Hrest]. apply set_up_next; [done|]. intros j Hj Hd. destruct (Hcur j Hj) as [E _]. congruence. }
  destruct (group_reporting td) eqn:Eg; cbn [negb].
  - assert (Hn : forall t, set_up i t -> (forall j', t !! i = Some j' -> exists j, tds !! i = Some j /\ same_job j j') -> set_up (S i) t).
    { intros t Ht Hf. apply set_up_next; [done|]. intros j Hj _ Hg. destruct (Hf j Hj) as (j0 & Ej0 & (_ & A & _)). destruct (Hcur j0 Ej0) as (_ & B & _). congruence. }
    destruct (negb (pg =? groupid td)).
    + destruct prev as [p|]; apply IH; [|rewrite length_alter; lia|apply Hrest; [apply length_alter|apply Halter]| |lia|by apply Hrest].
      * apply Hn; [by apply set_up_alloc|]. intros j' Hj'. by apply (Halter p).
      * apply Hn; [done|]. intros j' Hj'. by apply Hid.
    + apply IH; [|lia|by apply Hrest]. apply Hn; [done|]. intros j' Hj'. by apply Hid.
  - apply IH; [|rewrite length_alter; lia|apply Hrest; [apply length_alter|apply Halter]]. apply set_up_next; [by apply set_up_alloc|].
    intros j Hj _ _. rewrite list_lookup_alter_eq in Hj. apply fmap_Some in Hj as (j0 & Ej0 & ->). apply alloc_ok. by apply (Forall_lookup_1 _ _ _ _ (proj1 Hs) Ej0).
Qed.

Lemma setup_ok tds : Forall unsampled tds -> Forall job_ok (steadystate_setup true tds).
Proof.
  intros Hu. unfold steadystate_setup. cbn [negb]. pose proof (setup_loop_ok tds 0 (-1U) None tds) as H.
  destruct (setup_loop tds 0 (-1U) None tds) as [tds' prev].
  assert (Hs : set_up (length tds') tds').
  { apply H; [split; [done|lia]|done|]. intros k j j' Hj Hj'. cbn in Hj'. rewrite Hj in Hj'. injection Hj' as <-. by repeat split. }
  assert (Hgo : forall t, set_up (length t) t -> Forall job_ok t).
  { intros t [T1 T2]. apply Forall_lookup. intros k j Hk. pose proof (Forall_lookup_1 _ _ _ _ T1 Hk) as (U1 & U2 & U3 & U4 & U5 & U6).
    destruct (Z.eq_dec (dur (ss j)) 0) as [E0|E0]; [right; by left|]. destruct (sampled j) eqn:Es; [|right; right; by left].
    assert (Hdata : has (ss j) FIO_SS_DATA = true).
    { unfold sampled in Es. destruct (group_reporting j) eqn:Eg; [done|]. apply (T2 k j Hk); [by apply lookup_lt_Some in Hk|done|done]. }
    right; right; right. split; [lia|]. exists []. destruct (fresh_ring (Z.to_nat (dur (ss j))) (ss j)) as (R1 & R2 & R3); [lia|lia| |auto].
    destruct (U6 Hdata). by repeat split. }
  destruct prev as [p|]; [|by apply Hgo]. destruct (tds' !! p) as [td|] eqn:Ep; [|by apply Hgo]. destruct (group_reporting td); [|by apply Hgo].
  apply Hgo. rewrite length_alter. by apply set_up_alloc.
Qed.

(** The setup prepares the check: from jobs nothing was sampled for, it gives
    every job whose samples will be used arrays for its window, so that the first
    check is safe; jobs on their own all get theirs. *)
Theorem setup_ready tds : Forall unsampled tds -> Forall job_ok (steadystate_setup true tds).
Proof. exact (setup_ok tds). Qed.

(** Two jobs of a group and one on its own. *)
Definition some_job (reporting : bool) (g : Z) : job :=
  Job (steady_init zero_data 3000000 0 (FIO_SS_IOPS + FIO_SS_SLOPE) (of_int 2)) 5 reporting g (Timespec 0 0) [10; 0; 0] [40960; 0; 0] false.
Definition some_jobs : list job := [some_job true 1; some_job true 1; some_job false 2].

Lemma some_unsampled : Forall unsampled some_jobs.
Proof. repeat constructor; vm_compute; done. Qed.
Lemma some_timed : Forall (fun j => mtime_since (prev_time (ss j)) (Timespec 1 0) <> 0) (steadystate_setup true some_jobs).
Proof.
  assert (H : forallb (fun j => negb (mtime_since (prev_time (ss j)) (Timespec 1 0) =? 0)) (steadystate_setup true some_jobs) = true) by (by vm_compute).
  rewrite forallb_forall in H. apply list.Forall_forall. intros j Hj. apply Z.eqb_neq, negb_true_iff, H. by apply list_elem_of_In.
Qed.

Lemma setup_ready_witness :
  (fun j => has (ss j) FIO_SS_DATA) <$> steadystate_setup true some_jobs = [false; true; true] /\ Forall job_ok (steadystate_setup true some_jobs).
Proof. split; [vm_compute; reflexivity|]. exact (setup_ready some_jobs some_unsampled). Defined.

Lemma check_safe_witness :
  exists tds', steadystate_check (fun _ => Timespec 1 0) (steadystate_setup true some_jobs) = Some tds' /\ Forall job_ok tds' /\
    length tds' = length (steadystate_setup true some_jobs).
Proof.
  exact (check_safe (fun _ => Timespec 1 0) (steadystate_setup true some_jobs) (setup_ok some_jobs some_unsampled)
    (fun k j Hk => Forall_lookup_1 _ _ _ _ some_timed Hk)).
Defined.

Lemma sum_squares (n : nat) : 2 * total (Z.of_nat <$> seq 0 n) = Z.of_nat n * (Z.of_nat n - 1) /\
  6 * total ((fun i => Z.of_nat i * Z.of_nat i) <$> seq 0 n) = (Z.of_nat n - 1) * Z.of_nat n * (2 * Z.of_nat n - 1).
Proof.
  induction n as [|n [IH1 IH2]]; [done|]. rewrite seq_S, !fmap_app, !total_app. cbn [fmap list_fmap total foldr Nat.add].
  rewrite !Nat2Z.inj_succ. unfold Z.succ. split; nia.
Qed.

(** The constants of the slope: for a duration of up to a million seconds the
    sums of the sample numbers and of their squares that [td_steadystate_init]
    computes in closed form are exact. *)
Theorem init_sums zero d rest ramp st lim : 0 < d <= 1000000 -> 0 <= rest < 1000000 ->
  let s := steady_init zero (d * 1000000 + rest) ramp st lim in
  dur s = d /\ sum_x s = total (Z.of_nat <$> seq 0 (Z.to_nat d)) /\ sum_x_sq s = total ((fun i => Z.of_nat i * Z.of_nat i) <$> seq 0 (Z.to_nat d)).
Proof.
  intros Hd Hr. unfold steady_init. rewrite (proj2 (Z.eqb_neq (d * 1000000 + rest) 0)) by lia. cbv zeta. cbn [dur sum_x sum_x_sq].
  rewrite Z.div_add_l, (Z.div_small rest), Z.add_0_r by lia.
  destruct (sum_squares (Z.to_nat d)) as [E1 E2]. rewrite Z2Nat.id in E1, E2 by lia.
  rewrite (wrap_small 64 (d - 1)), (wrap_small 64 (2 * d - 1)) by (unfold uint; lia).
  rewrite (wrap_small 64 (d * (d - 1))), (wrap_small 64 ((d - 1) * d)) by (unfold uint; nia).
  assert (Hb : 0 <= (d - 1) * d * (2 * d - 1) <= 1000000 * 1000000 * 2000000) by (split; [apply Z.mul_nonneg_nonneg; nia|apply Z.mul_le_mono_nonneg; nia]).
  rewrite wrap_small by (unfold uint; lia). split; [done|]. split; [|rewrite <- E2]; [rewrite <- E1, Z.mul_comm, Z.div_mul by lia; done|].
  rewrite Z.mul_comm, Z.div_mul by lia. done.
Qed.

Lemma init_sums_witness : sum_x (steady_init zero_data 10000000 0 5 (of_int 1)) = total (Z.of_nat <$> seq 0 10) /\ sum_x_sq (steady_init zero_data 10000000 0 5 (of_int 1)) = 285.
Proof. split; [exact (proj1 (proj2 (init_sums zero_data 10 0 0 5 (of_int 1) ltac:(lia) ltac:(lia))))|vm_compute; reflexivity]. Defined.
