(* ===== verification/RbTree.v ===== *)
(** * Red-black trees: [lib/rbtree.c]

    A node with its parent pointers is a place in a tree: the subtree at the node
    and the path of ancestors above it, the nearest first, each with the side it
    was left on and its other subtree.  The loops that climb by [rb_parent] are
    recursions on the path, and a rotation rewrites what the path says.  [None] is
    a null pointer followed. *)
From S2P Require Import Prelude.

Inductive color := RB_RED | RB_BLACK.

Section tree.
Context {A : Type}.

Inductive tree := Leaf | Node (c : color) (l : tree) (x : A) (r : tree).

(** An ancestor: [FL] when the place is in its left subtree. *)
Inductive frame := FL (c : color) (x : A) (r : tree) | FR (c : color) (l : tree) (x : A).
Abbreviation path := (list frame).

Definition up (t : tree) (f : frame) : tree := match f with FL c x r => Node c t x r | FR c l x => Node c l x t end.
Fixpoint plug (t : tree) (k : path) : tree := match k with [] => t | f :: k => plug (up t f) k end.

(** [rb_is_red] of a subtree that is there; absent ones count as black. *)
Definition is_red (t : tree) : bool := match t with Node RB_RED _ _ _ => true | _ => false end.
Definition set_black (t : tree) : tree := match t with Node _ l x r => Node RB_BLACK l x r | Leaf => Leaf end.

(** ** Insertion *)

(** [rb_insert_color] at a node with subtrees [l] and [r]; new nodes are red. *)
Fixpoint insert_fix (c : color) (l : tree) (x : A) (r : tree) (k : path) : option tree :=
  match k with
  | FL RB_RED px pr :: k =>
      match k with
      | [] => None
      | FL _ gx uncle :: k =>
          if is_red uncle then insert_fix RB_RED (Node RB_BLACK (Node c l x r) px pr) gx (set_black uncle) k
          else Some (plug (Node RB_BLACK (Node c l x r) px (Node RB_RED pr gx uncle)) k)
      | FR _ uncle gx :: k =>
          if is_red uncle then insert_fix RB_RED (set_black uncle) gx (Node RB_BLACK (Node c l x r) px pr) k
          else Some (plug (Node RB_BLACK (Node RB_RED uncle gx l) x (Node RB_RED r px pr)) k)
      end
  | FR RB_RED pl px :: k =>
      match k with
      | [] => None
      | FL _ gx uncle :: k =>
          if is_red uncle then insert_fix RB_RED (Node RB_BLACK pl px (Node c l x r)) gx (set_black uncle) k
          else Some (plug (Node RB_BLACK (Node RB_RED pl px l) x (Node RB_RED r gx uncle)) k)
      | FR _ uncle gx :: k =>
          if is_red uncle then insert_fix RB_RED (set_black uncle) gx (Node RB_BLACK pl px (Node c l x r)) k
          else Some (plug (Node RB_BLACK (Node RB_RED uncle gx pl) px (Node c l x r)) k)
      end
  | _ => Some (plug (Node c l x r) k)
  end.

(** [rb_link_node] and [rb_insert_color]. *)
Definition rb_insert (x : A) (k : path) : option tree := set_black <$> insert_fix RB_RED Leaf x Leaf k.

(** ** Removal *)

(** The last part of an iteration of [__rb_erase_color], for a sibling that is not
    red: [inl] is the tree when the loop ends, [inr] the subtree to go on with. *)
Definition erase_left (t : tree) (pc : color) (px : A) (other : tree) : option (tree + tree) :=
  match other with
  | Leaf => None
  | Node oc ol ox or =>
      if negb (is_red ol) && negb (is_red or) then Some (inr (Node pc t px (Node RB_RED ol ox or)))
      else if negb (is_red or) then
        match ol with
        | Node _ a y b => Some (inl (Node pc (Node RB_BLACK t px a) y (Node RB_BLACK b ox or)))
        | Leaf => None
        end
      else Some (inl (Node pc (Node RB_BLACK t px ol) ox (set_black or)))
  end.
Definition erase_right (t : tree) (pc : color) (px : A) (other : tree) : option (tree + tree) :=
  match other with
  | Leaf => None
  | Node oc ol ox or =>
      if negb (is_red ol) && negb (is_red or) then Some (inr (Node pc (Node RB_RED ol ox or) px t))
      else if negb (is_red ol) then
        match or with
        | Node _ a y b => Some (inl (Node pc (Node RB_BLACK ol ox a) y (Node RB_BLACK b px t)))
        | Leaf => None
        end
      else Some (inl (Node pc (set_black ol) ox (Node RB_BLACK or px t)))
  end.

(** After a red sibling has been rotated above the parent, the parent is red, so
    that the loop ends with it in either case. *)
Definition settled (s : tree + tree) : tree := match s with inl t => t | inr t => set_black t end.

Fixpoint erase_fix (t : tree) (k : path) : option tree :=
  if is_red t then Some (plug (set_black t) k) else
  match k with
  | [] => Some (set_black t)
  | FL pc px (Node RB_RED ol ox or) :: k =>
      s ← erase_left t RB_RED px ol;
      let t := plug (Node RB_BLACK (settled s) ox or) k in Some (match s with inl _ => set_black t | inr _ => t end)
  | FR pc (Node RB_RED ol ox or) px :: k =>
      s ← erase_right t RB_RED px or;
      let t := plug (Node RB_BLACK ol ox (settled s)) k in Some (match s with inl _ => set_black t | inr _ => t end)
  | FL pc px other :: k =>
      s ← erase_left t pc px other;
      match s with inl t => Some (set_black (plug t k)) | inr t => erase_fix t k end
  | FR pc other px :: k =>
      s ← erase_right t pc px other;
      match s with inl t => Some (set_black (plug t k)) | inr t => erase_fix t k end
  end.

(** The leftmost node below a place: its colour, value and right subtree, and its path. *)
Fixpoint leftmost (c : color) (l : tree) (x : A) (r : tree) (k : path) : color * A * tree * path :=
  match l with
  | Leaf => (c, x, r, k)
  | Node c' l' x' r' => leftmost c' l' x' r' (FL c x r :: k)
  end.

Definition rb_erase (c : color) (l : tree) (x : A) (r : tree) (k : path) : option tree :=
  let fix_ col child k := match col with RB_BLACK => erase_fix child k | RB_RED => Some (plug child k) end in
  match l, r with
  | Leaf, _ => fix_ c r k
  | _, Leaf => fix_ c l k
  | _, Node rc rl rx rr =>
      let '(col, y, child, below) := leftmost rc rl rx rr [] in
      fix_ col child (below ++ FR c l y :: k)
  end.

(** ** Walking *)
Definition rb_first (t : tree) : option (color * tree * A * tree * path) :=
  match t with
  | Leaf => None
  | Node c l x r => let '(c, x, r, k) := leftmost c l x r [] in Some (c, Leaf, x, r, k)
  end.

(** The value at the next node. *)
Fixpoint climb (k : path) : option A :=
  match k with
  | [] => None
  | FL _ x _ :: _ => Some x
  | FR _ _ _ :: k => climb k
  end.
Definition rb_next (r : tree) (k : path) : option A :=
  match r with
  | Node c l x r => let '(_, x, _, _) := leftmost c l x r [] in Some x
  | Leaf => climb k
  end.

(** ** Order *)
Fixpoint elems (t : tree) : list A := match t with Leaf => [] | Node _ l x r => elems l ++ x :: elems r end.

(** What comes before and after a place. *)
Fixpoint before (k : path) : list A := match k with [] => [] | FL _ _ _ :: k => before k | FR _ l x :: k => before k ++ elems l ++ [x] end.
Fixpoint after (k : path) : list A := match k with [] => [] | FL _ x r :: k => x :: elems r ++ after k | FR _ _ _ :: k => after k end.

Lemma elems_black t : elems (set_black t) = elems t.
Proof. by destruct t. Qed.

Lemma elems_plug k : forall t, elems (plug t k) = before k ++ elems t ++ after k.
Proof.
  induction k as [|[c x r|c l x] k IH]; intros t; cbn [plug before after up]; [by rewrite app_nil_r|..];
    rewrite IH; cbn [elems]; rewrite <- ?app_assoc; cbn [app]; rewrite <- ?app_assoc; done.
Qed.

Lemma before_app j k : before (j ++ k) = before k ++ before j.
Proof. induction j as [|[] j IH]; cbn [app before]; [by rewrite app_nil_r|done|]. by rewrite IH, <- app_assoc. Qed.
Lemma after_app j k : after (j ++ k) = after j ++ after k.
Proof. induction j as [|[] j IH]; cbn [app after]; [done|..|done]. by rewrite IH, <- app_assoc. Qed.

(** Reassociates lists of subtrees. *)
Ltac flat := cbn [elems before after plug up app]; rewrite ?elems_black; repeat (rewrite <- ?app_assoc; cbn [app elems]); try done.

Lemma insert_fix_elems : forall k c l x r t, insert_fix c l x r k = Some t -> elems t = before k ++ elems l ++ x :: elems r ++ after k.
Proof.
  fix IH 1. intros k c l x r t H. destruct k as [|[[] px pr|[] pl px] k]; cbn [insert_fix] in H.
  1,3,5: injection H as <-; cbn [plug]; rewrite ?elems_plug; flat; by rewrite app_nil_r.
  - destruct k as [|[gc gx uncle|gc uncle gx] k]; [done|..]; destruct (is_red uncle).
    + apply IH in H. rewrite H. flat.
    + injection H as <-. rewrite elems_plug. flat.
    + apply IH in H. rewrite H. flat.
    + injection H as <-. rewrite elems_plug. flat.
  - destruct k as [|[gc gx uncle|gc uncle gx] k]; [done|..]; destruct (is_red uncle).
    + apply IH in H. rewrite H. flat.
    + injection H as <-. rewrite elems_plug. flat.
    + apply IH in H. rewrite H. flat.
    + injection H as <-. rewrite elems_plug. flat.
Qed.

Lemma rb_insert_elems x k t : rb_insert x k = Some t -> elems t = before k ++ x :: after k.
Proof.
  unfold rb_insert. intros H. apply fmap_Some in H as (u & E & ->). apply insert_fix_elems in E. rewrite elems_black, E. done.
Qed.

Lemma erase_left_elems t pc px other s : erase_left t pc px other = Some s ->
  elems (match s with inl u => u | inr u => u end) = elems t ++ px :: elems other.
Proof.
  unfold erase_left. destruct other as [|oc ol ox or]; [done|]. intros H. repeat case_match; simplify_eq; flat.
Qed.
Lemma erase_right_elems t pc px other s : erase_right t pc px other = Some s ->
  elems (match s with inl u => u | inr u => u end) = elems other ++ px :: elems t.
Proof.
  unfold erase_right. destruct other as [|oc ol ox or]; [done|]. intros H. repeat case_match; simplify_eq; flat.
Qed.

Lemma settled_elems s : elems (settled s) = elems (match s with inl u => u | inr u => u end).
Proof. destruct s; cbn; [done|]. apply elems_black. Qed.

Lemma erase_fix_elems : forall k t u, erase_fix t k = Some u -> elems u = before k ++ elems t ++ after k.
Proof.
  assert (Hred : forall k t u, Some (plug (set_black t) k) = Some u -> elems u = before k ++ elems t ++ after k).
  { intros k t u H. injection H as <-. by rewrite elems_plug, elems_black. }
  induction k as [|f k IH]; intros t u H; cbn [erase_fix] in H; (destruct (is_red t); [exact (Hred _ _ _ H)|]).
  - exact (Hred [] t u H).
  - destruct f as [pc px other|pc other px].
    + assert (Hgo : forall s, erase_left t pc px other = Some s -> (match s with inl t => Some (set_black (plug t k)) | inr t => erase_fix t k end) = Some u ->
        elems u = before (FL pc px other :: k) ++ elems t ++ after (FL pc px other :: k)).
      { intros s Es Hs. apply erase_left_elems in Es. destruct s as [v|v]; [injection Hs as <-; rewrite elems_black, elems_plug|apply IH in Hs; rewrite Hs]; rewrite Es; flat. }
      destruct other as [|[] ol ox or]; [by destruct (erase_left t pc px Leaf) eqn:E in H; [apply (Hgo s)|]| |].
      * destruct (erase_left t RB_RED px ol) as [s|] eqn:E; [|done]. cbn [mbind option_bind] in H. apply erase_left_elems in E.
        assert (Eu : elems u = elems (plug (Node RB_BLACK (settled s) ox or) k)) by (injection H as <-; destruct s; by rewrite ?elems_black).
        rewrite Eu, elems_plug. cbn [elems]. rewrite settled_elems, E. flat.
      * destruct (erase_left t pc px (Node RB_BLACK ol ox or)) as [s|] eqn:E; [|done]. by apply (Hgo s).
    + assert (Hgo : forall s, erase_right t pc px other = Some s -> (match s with inl t => Some (set_black (plug t k)) | inr t => erase_fix t k end) = Some u ->
        elems u = before (FR pc other px :: k) ++ elems t ++ after (FR pc other px :: k)).
      { intros s Es Hs. apply erase_right_elems in Es. destruct s as [v|v]; [injection Hs as <-; rewrite elems_black, elems_plug|apply IH in Hs; rewrite Hs]; rewrite Es; flat. }
      destruct other as [|[] ol ox or]; [by destruct (erase_right t pc px Leaf) eqn:E in H; [apply (Hgo s)|]| |].
      * destruct (erase_right t RB_RED px or) as [s|] eqn:E; [|done]. cbn [mbind option_bind] in H. apply erase_right_elems in E.
        assert (Eu : elems u = elems (plug (Node RB_BLACK ol ox (settled s)) k)) by (injection H as <-; destruct s; by rewrite ?elems_black).
        rewrite Eu, elems_plug. cbn [elems]. rewrite settled_elems, E. flat.
      * destruct (erase_right t pc px (Node RB_BLACK ol ox or)) as [s|] eqn:E; [|done]. by apply (Hgo s).
Qed.

Lemma leftmost_elems : forall l c x r k c' y r' k', leftmost c l x r k = (c', y, r', k') ->
  before k' = before k /\ y :: elems r' ++ after k' = elems l ++ x :: elems r ++ after k.
Proof.
  induction l as [|c1 l1 IH x1 r1 _]; intros c x r k c' y r' k' H; cbn [leftmost] in H; [by injection H as <- <- <- <-|].
  apply IH in H as [H1 H2]. split; [exact H1|]. rewrite H2. flat.
Qed.

Lemma rb_erase_elems c l x r k t : rb_erase c l x r k = Some t -> elems t = before k ++ elems l ++ elems r ++ after k.
Proof.
  assert (Hfix : forall col child k, (match col with RB_BLACK => erase_fix child k | RB_RED => Some (plug child k) end) = Some t ->
    elems t = before k ++ elems child ++ after k).
  { intros [] child k' H; [injection H as <-; apply elems_plug|by apply erase_fix_elems]. }
  unfold rb_erase. destruct l as [|lc ll lx lr]; [intros H; apply Hfix in H; exact H|].
  destruct r as [|rc rl rx rr]; [intros H; apply Hfix in H; exact H|].
  destruct (leftmost rc rl rx rr []) as [[[col y] child] below] eqn:E. apply leftmost_elems in E as [E1 E2]. intros H. apply Hfix in H. rewrite H.
  rewrite before_app, after_app. cbn [before after]. rewrite E1. cbn [before after] in *. rewrite !app_nil_r in E2 |- *. rewrite <- !app_assoc. cbn [app].
  do 2 f_equal. change (y :: elems child ++ after below ++ after k) with ((y :: elems child) ++ after below ++ after k). rewrite app_assoc.
  change ((y :: elems child) ++ after below) with (y :: elems child ++ after below). rewrite E2. flat.
Qed.
End tree.
Arguments tree : clear implicits.
Arguments frame : clear implicits.
