(* ===== verification/RbInv.v ===== *)
(** * Red-black trees stay balanced

    Insertion and removal at any place of a valid tree succeed, keep the order of
    the elements and the balance. *)
From Stdlib Require Import Wf_nat.
From S2P Require Import Prelude RbTree.

Section inv.
Context {A : Type}.
Implicit Types (t l r : tree A) (k : list (frame A)).

(** A subtree with a root of colour [c], [n] black nodes on every way down, and no
    red node under a red one. *)
Inductive rb : color -> nat -> tree A -> Prop :=
| rb_leaf : rb RB_BLACK 0 Leaf
| rb_red n l x r : rb RB_BLACK n l -> rb RB_BLACK n r -> rb RB_RED n (Node RB_RED l x r)
| rb_black n cl cr l x r : rb cl n l -> rb cr n r -> rb RB_BLACK (S n) (Node RB_BLACK l x r).

(** A path that makes a whole valid tree of a subtree of [n] black nodes: of either
    colour, or only of a black one. *)
Inductive fits : bool -> nat -> list (frame A) -> Prop :=
| fits_root n : fits false n []
| fits_lb b n c x r k : rb c n r -> fits b (S n) k -> fits true n (FL RB_BLACK x r :: k)
| fits_rb b n c l x k : rb c n l -> fits b (S n) k -> fits true n (FR RB_BLACK l x :: k)
| fits_lr n x r k : rb RB_BLACK n r -> fits true n k -> fits false n (FL RB_RED x r :: k)
| fits_rr n l x k : rb RB_BLACK n l -> fits true n k -> fits false n (FR RB_RED l x :: k).

Definition matches (c : color) (b : bool) : Prop := c = RB_RED -> b = true.
Definition valid t : Prop := exists n, rb RB_BLACK n t.

Hint Constructors rb fits : rbdb.
Hint Extern 1 (matches _ _) => (intros ?; done) : rbdb.

Lemma plug_valid : forall k b c n t, rb c n t -> fits b n k -> matches c b -> valid (plug t k).
Proof.
  induction k as [|f k IH]; intros b c n t Ht Hk Hm; inversion Hk; subst; cbn [plug up].
  - destruct c; [by specialize (Hm eq_refl)|]. by exists n.
  - eapply IH; eauto 8 with rbdb.
  - eapply IH; eauto 8 with rbdb.
  - destruct c; [by specialize (Hm eq_refl)|]. eapply IH; eauto 8 with rbdb.
  - destruct c; [by specialize (Hm eq_refl)|]. eapply IH; eauto 8 with rbdb.
Qed.

(** A place of a valid tree. *)
Lemma place : forall k t, valid (plug t k) -> exists c n b, rb c n t /\ fits b n k /\ matches c b.
Proof.
  induction k as [|f k IH]; intros t H; cbn [plug] in H; [destruct H as [n H]; exists RB_BLACK, n, false; eauto with rbdb|].
  destruct (IH _ H) as (c & n & b & Ht & Hk & Hm). destruct f as [fc x r|fc l x]; cbn [up] in Ht; inversion Ht; subst.
  - exists RB_BLACK, n, false. rewrite (Hm eq_refl) in Hk. eauto with rbdb.
  - exists cl, n0, true. eauto with rbdb.
  - exists RB_BLACK, n, false. rewrite (Hm eq_refl) in Hk. eauto with rbdb.
  - exists cr, n0, true. eauto with rbdb.
Qed.

Lemma black_of c n t : rb c n t -> is_red t = false -> rb RB_BLACK n t.
Proof. intros H E. by inversion H; subst. Qed.
Lemma red_of c n t : rb c n t -> is_red t = true -> rb RB_RED n t.
Proof. intros H E. by inversion H; subst. Qed.
Lemma set_black_red n t : rb RB_RED n t -> rb RB_BLACK (S n) (set_black t).
Proof. intros H. inversion H; subst. cbn. eauto with rbdb. Qed.
Lemma set_black_id n t : rb RB_BLACK n t -> set_black t = t.
Proof. intros H. by inversion H. Qed.
Lemma valid_black t c n : rb c n t -> valid (set_black t).
Proof. destruct c; intros H; [eexists; by apply set_black_red|]. rewrite (set_black_id n) by done. by exists n. Qed.

(** ** Insertion *)
Lemma insert_fix_rb : forall k n b l x r, rb RB_BLACK n l -> rb RB_BLACK n r -> fits b n k ->
  exists t, insert_fix RB_RED l x r k = Some t /\ valid (set_black t).
Proof.
  assert (Hdone : forall k b n t, rb RB_BLACK n t -> fits b n k -> valid (set_black (plug t k))).
  { intros k b n t Ht Hk. destruct (plug_valid k b RB_BLACK n t Ht Hk) as [m Hm]; [done|]. by eapply valid_black. }
  intros k. induction k as [k IH] using (induction_ltof1 _ (@length _)). unfold ltof in IH. intros n b l x r Hl Hr Hk. destruct k as [|f k]; [eexists; split; [done|]; cbn [plug]; apply (valid_black _ RB_RED n); eauto with rbdb|].
  inversion Hk as [|b' ? c ? pr ? Hpr Hk1|b' ? c pl ? ? Hpl Hk1|? ? pr ? Hpr Hk1|? pl ? ? Hpl Hk1]; subst; cbn [insert_fix].
  - eexists. split; [done|]. cbn [plug up]. eapply Hdone; eauto 8 with rbdb.
  - eexists. split; [done|]. cbn [plug up]. eapply Hdone; eauto 8 with rbdb.
  - inversion Hk1 as [|b2 ? c gx uncle k2 Hu Hk2|b2 ? c uncle gx k2 Hu Hk2| |]; subst; destruct (is_red uncle) eqn:Eu.
    + eapply IH; [cbn; lia|eauto with rbdb|eapply set_black_red, red_of; eauto|eauto].
    + pose proof (black_of _ _ _ Hu Eu). eexists. split; [done|]. eapply Hdone; eauto 8 with rbdb.
    + eapply IH; [cbn; lia|eapply set_black_red, red_of; eauto|eauto with rbdb|eauto].
    + pose proof (black_of _ _ _ Hu Eu). eexists. split; [done|]. eapply Hdone; eauto 8 with rbdb.
  - inversion Hk1 as [|b2 ? c gx uncle k2 Hu Hk2|b2 ? c uncle gx k2 Hu Hk2| |]; subst; destruct (is_red uncle) eqn:Eu.
    + eapply IH; [cbn; lia|eauto with rbdb|eapply set_black_red, red_of; eauto|eauto].
    + pose proof (black_of _ _ _ Hu Eu). eexists. split; [done|]. eapply Hdone; eauto 8 with rbdb.
    + eapply IH; [cbn; lia|eapply set_black_red, red_of; eauto|eauto with rbdb|eauto].
    + pose proof (black_of _ _ _ Hu Eu). eexists. split; [done|]. eapply Hdone; eauto 8 with rbdb.
Qed.

Lemma rb_insert_valid x k : valid (plug Leaf k) -> exists t, rb_insert x k = Some t /\ valid t.
Proof.
  intros H. destruct (place k Leaf H) as (c & n & b & Hl & Hk & _). inversion Hl; subst.
  destruct (insert_fix_rb k 0 b Leaf x Leaf Hl Hl Hk) as (t & E & Hv). unfold rb_insert. rewrite E. by eexists.
Qed.

(** ** Removal *)

(** The black nodes of a subtree with a root of colour [c] over subtrees of [n]. *)
Definition tall (c : color) (n : nat) : nat := match c with RB_RED => n | RB_BLACK => S n end.

(** What an iteration of [__rb_erase_color] leaves where the sibling had one black
    node more: the subtree it stands for, or one that lacks a black node, which a
    black root or the parent's turning black gives back. *)
Definition mended (pc : color) (n : nat) (s : tree A + tree A) : Prop :=
  match s with
  | inl u => rb pc (tall pc (S n)) u
  | inr u => match pc with RB_RED => is_red u = true | RB_BLACK => rb RB_BLACK (S n) u end /\ rb RB_BLACK (S n) (set_black u)
  end.

Ltac colored :=
  repeat match goal with
  | H : rb RB_BLACK (S _) _ |- _ => inversion H; clear H; subst
  | H : rb ?c _ ?t, E : is_red ?t = false |- _ => lazymatch c with RB_BLACK => fail | _ => apply black_of in H; [|exact E] end
  | H : rb ?c _ ?t, E : is_red ?t = true |- _ => lazymatch c with RB_RED => fail | _ => apply red_of in H; [|exact E] end
  end.

Lemma erase_left_rb n t pc px other : rb RB_BLACK n t -> rb RB_BLACK (S n) other ->
  exists s, erase_left t pc px other = Some s /\ mended pc n s.
Proof.
  intros Ht Ho. inversion Ho as [| |? ? ? ol ox or Hl Hr]; subst. clear Ho. cbn [erase_left].
  destruct (is_red ol) eqn:El, (is_red or) eqn:Er; cbn [negb andb]; colored.
  - eexists. split; [done|]. apply set_black_red in Hr. destruct pc; cbn [mended tall]; eauto 8 with rbdb.
  - inversion Hl; subst. eexists. split; [done|]. destruct pc; cbn [mended tall]; eauto 8 with rbdb.
  - eexists. split; [done|]. apply set_black_red in Hr. destruct pc; cbn [mended tall]; eauto 8 with rbdb.
  - eexists. split; [done|]. destruct pc; cbn [mended set_black]; eauto 8 with rbdb.
Qed.
Lemma erase_right_rb n t pc px other : rb RB_BLACK n t -> rb RB_BLACK (S n) other ->
  exists s, erase_right t pc px other = Some s /\ mended pc n s.
Proof.
  intros Ht Ho. inversion Ho as [| |? ? ? ol ox or Hl Hr]; subst. clear Ho. cbn [erase_right].
  destruct (is_red ol) eqn:El, (is_red or) eqn:Er; cbn [negb andb]; colored.
  - eexists. split; [done|]. apply set_black_red in Hl. destruct pc; cbn [mended tall]; eauto 8 with rbdb.
  - eexists. split; [done|]. apply set_black_red in Hl. destruct pc; cbn [mended tall]; eauto 8 with rbdb.
  - inversion Hr; subst. eexists. split; [done|]. destruct pc; cbn [mended tall]; eauto 8 with rbdb.
  - eexists. split; [done|]. destruct pc; cbn [mended set_black]; eauto 8 with rbdb.
Qed.

Lemma erase_fix_red t k : is_red t = true -> erase_fix t k = Some (plug (set_black t) k).
Proof. intros E. destruct k; cbn [erase_fix]; by rewrite E. Qed.

(** A path short of a black node at its place. *)
Definition repaired t k : Prop := exists u, erase_fix t k = Some u /\ valid u.

Lemma repaired_red k n t : is_red t = true -> rb RB_BLACK (S n) (set_black t) -> forall b, fits b (S n) k -> repaired t k.
Proof. intros E Ht b Hk. unfold repaired. rewrite erase_fix_red by done. eexists. split; [done|]. by eapply plug_valid. Qed.

Lemma valid_ended k b c n t : rb c n t -> fits b n k -> matches c b -> valid (set_black (plug t k)).
Proof. intros Ht Hk Hm. destruct (plug_valid k b c n t Ht Hk Hm) as [m Hv]. by eapply valid_black. Qed.

(** The rest of an iteration, and of the loop. *)
Lemma mended_goes_on k n pc s b : mended pc n s -> (forall b' t, rb RB_BLACK (S n) t -> fits b' (S (S n)) k -> repaired t k) ->
  fits b (tall pc (S n)) k -> matches pc b ->
  exists u, match s with inl t => Some (set_black (plug t k)) | inr t => erase_fix t k end = Some u /\ valid u.
Proof.
  destruct s as [u|u]; cbn [mended]; intros Hs IH Hk Hm; [eexists; split; [done|]; by eapply valid_ended|].
  destruct Hs as [Hu Hb], pc; cbn [tall] in Hk; [by eapply repaired_red|by eapply IH].
Qed.

(** After a red sibling: the parent is red, under the black sibling. *)
Lemma settled_rb n s : mended RB_RED n s -> exists c, rb c (S n) (settled s).
Proof. destruct s; cbn [mended settled tall]; [by exists RB_RED|]. intros [_ H]. by exists RB_BLACK. Qed.

Lemma erase_fix_rb : forall k b n c t, rb c n t -> fits b (S n) k -> repaired t k.
Proof.
  induction k as [|f k IH]; intros b n c t Ht Hk; (destruct (is_red t) eqn:Et; [eapply repaired_red; [done| |done]; apply set_black_red; by eapply red_of|]);
    apply black_of in Ht; try done; unfold repaired; cbn [erase_fix]; rewrite Et.
  { eexists. split; [done|]. by eapply valid_black. }
  destruct f as [pc px other|pc other px].
  - assert (Hfit : exists bk oc, rb oc (S n) other /\ fits bk (tall pc (S n)) k /\ matches pc bk /\ (pc = RB_RED -> oc = RB_BLACK)).
    { inversion Hk; subst; do 2 eexists; (split_and!; [eassumption|eassumption|..]); done. }
    destruct Hfit as (bk & oc & Ho & Hk' & Hm & Hoc). inversion Ho as [|? ol ox or Hl Hr|? ? ? ol ox or Hl Hr]; subst.
    + destruct (erase_left_rb n t RB_RED px ol Ht Hl) as (s & E & Hs). rewrite E. cbn [mbind option_bind]. destruct (settled_rb _ _ Hs) as [cs Hset].
      destruct pc; [by specialize (Hoc eq_refl)|]. cbn [tall] in Hk'. eexists. split; [done|].
      destruct s; [eapply valid_ended|eapply plug_valid]; eauto with rbdb.
    + destruct (erase_left_rb n t pc px _ Ht Ho) as (s & E & Hs). rewrite E. cbn [mbind option_bind]. eapply mended_goes_on; eauto.
  - assert (Hfit : exists bk oc, rb oc (S n) other /\ fits bk (tall pc (S n)) k /\ matches pc bk /\ (pc = RB_RED -> oc = RB_BLACK)).
    { inversion Hk; subst; do 2 eexists; (split_and!; [eassumption|eassumption|..]); done. }
    destruct Hfit as (bk & oc & Ho & Hk' & Hm & Hoc). inversion Ho as [|? ol ox or Hl Hr|? ? ? ol ox or Hl Hr]; subst.
    + destruct (erase_right_rb n t RB_RED px or Ht Hr) as (s & E & Hs). rewrite E. cbn [mbind option_bind]. destruct (settled_rb _ _ Hs) as [cs Hset].
      destruct pc; [by specialize (Hoc eq_refl)|]. cbn [tall] in Hk'. eexists. split; [done|].
      destruct s; [eapply valid_ended|eapply plug_valid]; eauto with rbdb.
    + destruct (erase_right_rb n t pc px _ Ht Ho) as (s & E & Hs). rewrite E. cbn [mbind option_bind]. eapply mended_goes_on; eauto.
Qed.

(** Going down to the left. *)
Lemma fits_left c n b l x r k : rb c n (Node c l x r) -> fits b n k -> matches c b ->
  exists c' n' b', rb c' n' l /\ fits b' n' (FL c x r :: k) /\ matches c' b'.
Proof.
  intros H Hk Hm. inversion H; subst.
  - exists RB_BLACK, n, false. rewrite (Hm eq_refl) in Hk. eauto with rbdb.
  - exists cl, n0, true. eauto with rbdb.
Qed.
Lemma fits_right c n b l x y r k : rb c n (Node c l x r) -> fits b n k -> matches c b ->
  exists c' n' b', rb c' n' r /\ fits b' n' (FR c l y :: k) /\ matches c' b'.
Proof.
  intros H Hk Hm. inversion H; subst.
  - exists RB_BLACK, n, false. rewrite (Hm eq_refl) in Hk. eauto with rbdb.
  - exists cr, n0, true. eauto with rbdb.
Qed.
Lemma rb_color c c' n l x r : rb c n (Node c' l x r) -> c = c'.
Proof. intros H. by inversion H. Qed.

Lemma leftmost_place : forall l c n b x r k c' y r' k', leftmost c l x r k = (c', y, r', k') ->
  rb c n (Node c l x r) -> fits b n k -> matches c b -> exists n' b', rb c' n' (Node c' Leaf y r') /\ fits b' n' k' /\ matches c' b'.
Proof.
  induction l as [|c1 l1 IH x1 r1 _]; intros c n b x r k c' y r' k' H Hn Hk Hm; cbn [leftmost] in H; [injection H as <- <- <- <-; eauto|].
  destruct (fits_left _ _ _ _ _ _ _ Hn Hk Hm) as (c2 & n2 & b2 & H2 & Hk2 & Hm2). pose proof (rb_color _ _ _ _ _ _ H2). subst c2. by eapply IH.
Qed.

Lemma leftmost_app : forall l c x r j k, leftmost c l x r (j ++ k) = let '(c', y, r', j') := leftmost c l x r j in (c', y, r', j' ++ k).
Proof. induction l as [|c1 l1 IH x1 r1 _]; intros; cbn [leftmost]; [done|]. apply (IH c1 x1 r1 (FL c x r :: j)). Qed.

(** A node with one subtree at most: its other subtree takes its place. *)
Lemma one_child c n b l x r k t : rb c n (Node c l x r) -> fits b n k -> matches c b -> (l = Leaf /\ t = r \/ r = Leaf /\ t = l) ->
  exists u, match c with RB_BLACK => erase_fix t k | RB_RED => Some (plug t k) end = Some u /\ valid u.
Proof.
  intros H Hk Hm Ht. assert (Hc : exists ct m, rb ct m t /\ n = tall c m /\ matches ct (match c with RB_RED => false | _ => true end)).
  { inversion H; subst; destruct Ht as [[-> ->]|[-> ->]]; [exists RB_BLACK, n|exists RB_BLACK, n|exists cr, n0|exists cl, n0]; eauto 8 with rbdb. }
  destruct Hc as (ct & m & Ht' & -> & Hct). destruct c; cbn [tall] in *; [|by eapply erase_fix_rb].
  destruct ct; [by specialize (Hct eq_refl)|]. eexists. split; [done|]. by eapply plug_valid.
Qed.

Lemma rb_erase_valid c l x r k : valid (plug (Node c l x r) k) -> exists t, rb_erase c l x r k = Some t /\ valid t.
Proof.
  intros H. destruct (place k _ H) as (c' & n & b & Hn & Hk & Hm). pose proof (rb_color _ _ _ _ _ _ Hn). subst c'. unfold rb_erase.
  destruct l as [|lc ll lx lr]; [eapply one_child; eauto|]. destruct r as [|rc rl rx rr]; [eapply one_child; eauto|].
  destruct (leftmost rc rl rx rr []) as [[[col y] child] below] eqn:E.
  destruct (fits_right _ _ _ _ _ y _ _ Hn Hk Hm) as (c1 & n1 & b1 & H1 & Hk1 & Hm1). pose proof (rb_color _ _ _ _ _ _ H1). subst c1.
  pose proof (leftmost_app rl rc rx rr [] (FR c (Node lc ll lx lr) y :: k)) as E'. rewrite E in E'. cbn [app] in E'.
  destruct (leftmost_place _ _ _ _ _ _ _ _ _ _ _ E' H1 Hk1 Hm1) as (n2 & b2 & H2 & Hk2 & Hm2).
  eapply (one_child col n2 b2 Leaf y child); eauto.
Qed.

(** ** Balance and walking *)
Fixpoint depth t : nat := match t with Leaf => 0%nat | Node _ l _ r => S (Nat.max (depth l) (depth r)) end.
Lemma rb_depth c n t : rb c n t -> (depth t <= 2 * n + match c with RB_RED => 1 | RB_BLACK => 0 end)%nat.
Proof. induction 1; cbn [depth]; [lia..|]. destruct cl, cr; lia. Qed.
Lemma rb_size c n t : rb c n t -> (2 ^ n <= S (length (elems t)))%nat.
Proof. induction 1; cbn [elems]; rewrite ?length_app; cbn [length]; rewrite ?Nat.pow_succ_r'; cbn; lia. Qed.
Lemma valid_depth t : valid t -> (depth t <= 2 * Nat.log2 (S (length (elems t))))%nat.
Proof.
  intros [n H]. pose proof (rb_depth _ _ _ H) as Hd. cbn [Nat.add] in Hd. rewrite Nat.add_0_r in Hd. pose proof (rb_size _ _ _ H). assert (n <= Nat.log2 (S (length (elems t))))%nat; [apply Nat.log2_le_pow2|]; lia.
Qed.

Lemma climb_head k : climb k = head (after k).
Proof. by induction k as [|[] k IH]. Qed.
Lemma rb_next_head r k : rb_next r k = head (elems r ++ after k).
Proof.
  destruct r as [|c l x r]; cbn [rb_next elems app]; [apply climb_head|]. destruct (leftmost c l x r []) as [[[c' y] r'] k'] eqn:E.
  apply leftmost_elems in E as [_ E]. cbn [after] in E. rewrite app_nil_r in E. rewrite <- E. done.
Qed.
Lemma rb_first_head t : (fun '(_, _, x, _, _) => x) <$> rb_first t = head (elems t).
Proof.
  destruct t as [|c l x r]; cbn [rb_first elems]; [done|]. destruct (leftmost c l x r []) as [[[c' y] r'] k'] eqn:E.
  apply leftmost_elems in E as [_ E]. cbn [after] in E. rewrite app_nil_r in E. by rewrite <- E.
Qed.

(** C24. A red-black tree stays one, in order: in a valid tree (a black root, no red
    node under a red one, the same number of black nodes on every way down),
    linking a node at any empty place and removing the node at any place never
    follow a null pointer and give a valid tree, whose elements are those before
    the place, the new one (or without the old one), and those after it;
    [rb_first] is the first element and [rb_next] the one after the node's; and no
    way down is longer than twice the logarithm of the number of nodes plus one. *)
Theorem rb_balanced t : valid t ->
  (forall x k, t = plug Leaf k -> exists u, rb_insert x k = Some u /\ valid u /\ elems u = before k ++ x :: after k) /\
  (forall c l x r k, t = plug (Node c l x r) k ->
     exists u, rb_erase c l x r k = Some u /\ valid u /\
       elems t = (before k ++ elems l) ++ x :: elems r ++ after k /\ elems u = (before k ++ elems l) ++ elems r ++ after k /\
       rb_next r k = head (elems r ++ after k)) /\
  (fun '(_, _, x, _, _) => x) <$> rb_first t = head (elems t) /\
  (depth t <= 2 * Nat.log2 (S (length (elems t))))%nat.
Proof.
  intros Hv. split_and!; [intros x k ->|intros c l x r k ->|apply rb_first_head|by apply valid_depth].
  - destruct (rb_insert_valid x k Hv) as (u & E & Hu). eauto using rb_insert_elems.
  - destruct (rb_erase_valid c l x r k Hv) as (u & E & Hu). exists u. split_and!; [done..| | |apply rb_next_head].
    + rewrite elems_plug. cbn [elems]. by rewrite <- !app_assoc.
    + rewrite (rb_erase_elems _ _ _ _ _ _ E). by rewrite <- app_assoc.
Qed.
End inv.

(** The tree of 1, 2, 3, 4, 5 linked in that order. *)
Definition five : tree Z :=
  Node RB_BLACK (Node RB_BLACK Leaf 1 Leaf) 2 (Node RB_BLACK (Node RB_RED Leaf 3 Leaf) 4 (Node RB_RED Leaf 5 Leaf)).
Definition six_place : list (frame Z) := [FR RB_RED Leaf 5; FR RB_BLACK (Node RB_RED Leaf 3 Leaf) 4; FR RB_BLACK (Node RB_BLACK Leaf 1 Leaf) 2].

Lemma rb_balanced_witness : valid five /\ (exists u, rb_insert 6 six_place = Some u /\ valid u /\ elems u = [1; 2; 3; 4; 5; 6]) /\
  (exists u, rb_erase RB_BLACK Leaf 1 Leaf [FL RB_BLACK 2 (Node RB_BLACK (Node RB_RED Leaf 3 Leaf) 4 (Node RB_RED Leaf 5 Leaf))] = Some u /\ valid u /\ elems u = [2; 3; 4; 5]).
Proof.
  assert (H : valid five) by (exists 2%nat; repeat econstructor). pose proof (rb_balanced five H) as (Hi & He & _). split_and!; [exact H|..].
  - destruct (Hi 6 six_place eq_refl) as (u & ? & ? & E). exists u. split_and!; [done..|]. rewrite E. reflexivity.
  - destruct (He RB_BLACK Leaf 1 Leaf [FL RB_BLACK 2 (Node RB_BLACK (Node RB_RED Leaf 3 Leaf) 4 (Node RB_RED Leaf 5 Leaf))] eq_refl) as (u & ? & ? & _ & E & _). exists u. split_and!; [done..|]. rewrite E. reflexivity.
Defined.
