(* ===== verification/History.v ===== *)
(** * The history of writes: [iolog.c], [trim.c], [verify.c]

    A job that verifies what it wrote logs every write before it is issued, in a
    tree ordered by file and offset or, when no block is written twice, in a list;
    a failed write is taken out again, and [get_next_verify] turns the entries
    into reads.  A share of the writes can be trimmed before it is read back.  An
    entry, [struct io_piece], is a cell of a heap and a pointer its number; [None]
    is the use of a freed entry, a failed assertion, or the removal of a node that
    is not in the tree.  A file is its address; opening files and the reference
    each unit has of its file are in [Files]. *)
From stdpp Require Import gmap.
From S2P Require Import Prelude Flags Rand RbTree IoU.

Definition IP_F_ONRB : Z := flag 0.
Definition IP_F_ONLIST : Z := flag 1.
Definition IP_F_TRIMMED : Z := flag 2.
Definition IP_F_IN_FLIGHT : Z := flag 3.

Record io_piece := IoPiece { ip_file : Z; ip_offset : Z; ip_numberio : Z; ip_len : Z; ip_flags : Z }.

(** The fields of [struct io_u] used here; the flags are those of a unit that is
    read back. *)
Record unit_ := Unit {
  un_file : option Z; un_offset : Z; un_buflen : Z; un_numberio : Z; un_ddir : fio_ddir; un_error : Z;
  un_xfer_buflen : Z; un_resid : Z; un_ver_list : bool; un_trimmed : bool; un_rand_seed : Z; un_ipo : option nat }.

(** The options of the job and of its files. *)
Record setup := Setup {
  verifysort : bool; td_random : bool; file_randommap : Z -> bool; trim_percentage : Z; trim_zero : bool;
  verify_pattern_bytes : Z; trim_bs : Z; file_offset : Z -> Z }.

Record history := History {
  pieces : gmap nat io_piece; fresh : nat;
  io_hist_tree : tree nat; io_hist_list : list nat; io_hist_len : Z;
  trim_list : list nat; trim_entries : Z; trim_state : frand_state; verify_state : frand_state; block_infos : list Z }.

(** ** Updates of single fields *)
Definition with_pieces (f : gmap nat io_piece -> gmap nat io_piece) (s : history) : history :=
  History (f (pieces s)) (fresh s) (io_hist_tree s) (io_hist_list s) (io_hist_len s) (trim_list s) (trim_entries s) (trim_state s) (verify_state s) (block_infos s).
Definition with_tree (t : tree nat) (s : history) : history :=
  History (pieces s) (fresh s) t (io_hist_list s) (io_hist_len s) (trim_list s) (trim_entries s) (trim_state s) (verify_state s) (block_infos s).
Definition with_list (l : list nat) (s : history) : history :=
  History (pieces s) (fresh s) (io_hist_tree s) l (io_hist_len s) (trim_list s) (trim_entries s) (trim_state s) (verify_state s) (block_infos s).
Definition with_len (d : Z) (s : history) : history :=
  History (pieces s) (fresh s) (io_hist_tree s) (io_hist_list s) (u64 (io_hist_len s + d)) (trim_list s) (trim_entries s) (trim_state s) (verify_state s) (block_infos s).
Definition with_trims (l : list nat) (d : Z) (s : history) : history :=
  History (pieces s) (fresh s) (io_hist_tree s) (io_hist_list s) (io_hist_len s) l (u64 (trim_entries s + d)) (trim_state s) (verify_state s) (block_infos s).
Definition with_trim_state (r : frand_state) (s : history) : history :=
  History (pieces s) (fresh s) (io_hist_tree s) (io_hist_list s) (io_hist_len s) (trim_list s) (trim_entries s) r (verify_state s) (block_infos s).
Definition with_verify_state (r : frand_state) (s : history) : history :=
  History (pieces s) (fresh s) (io_hist_tree s) (io_hist_list s) (io_hist_len s) (trim_list s) (trim_entries s) (trim_state s) r (block_infos s).
Definition with_infos (b : list Z) (s : history) : history :=
  History (pieces s) (fresh s) (io_hist_tree s) (io_hist_list s) (io_hist_len s) (trim_list s) (trim_entries s) (trim_state s) (verify_state s) b.

Definition free (i : nat) : history -> history := with_pieces (delete i).
Definition set_piece (i : nat) (p : io_piece) : history -> history := with_pieces (insert i p).
Definition malloc (p : io_piece) (s : history) : nat * history :=
  (fresh s, History (<[fresh s := p]> (pieces s)) (S (fresh s)) (io_hist_tree s) (io_hist_list s) (io_hist_len s) (trim_list s) (trim_entries s) (trim_state s) (verify_state s) (block_infos s)).
Definition reflag (f : Z -> Z) (p : io_piece) : io_piece := IoPiece (ip_file p) (ip_offset p) (ip_numberio p) (ip_len p) (f (ip_flags p)).

(** ** Trims *)
Definition io_u_should_trim (o : setup) (s : history) : bool * history :=
  if trim_percentage o =? 0 then (false, s) else
  let '(st, r) := __rand (trim_state s) in
  (r <=? u64 (rand_max (trim_state s) / 100 * trim_percentage o), with_trim_state st s).

Definition remove_trim_entry (i : nat) (s : history) : history :=
  if bool_decide (i ∈ trim_list s) then with_trims (filter (.≠ i) (trim_list s)) (-1) s else s.

(** ** The state of trimmed blocks *)
Definition BLOCK_STATE_TRIM_FAILURE : Z := 3.
Definition BLOCK_STATE_WRITE_FAILURE : Z := 4.
Definition BLOCK_INFO_TRIMS (i : Z) : Z := Z.land i (Z.shiftl 1 29 - 1).
Definition BLOCK_INFO_STATE (i : Z) : Z := Z.shiftr i 29.
Definition BLOCK_INFO (state trims : Z) : Z := Z.lor trims (shl 32 state 29).
Definition BLOCK_INFO_SET_STATE (i state : Z) : Z := BLOCK_INFO state (BLOCK_INFO_TRIMS i).

(** The index of the block; the assertion compares it as an unsigned number. *)
Definition io_u_block_info (o : setup) (u : unit_) (s : history) : option nat :=
  f ← un_file u;
  if trim_bs o =? 0 then None else
  let idx := sgn 32 (u64 (un_offset u - file_offset o f) / trim_bs o) in
  if (0 <=? idx) && (idx <? Z.of_nat (length (block_infos s))) then Some (Z.to_nat idx) else None.

Definition note_failure (o : setup) (u : unit_) (s : history) : option history :=
  if bool_decide (block_infos s = []) then Some s else
  i ← io_u_block_info o u s;
  info ← block_infos s !! i;
  if BLOCK_INFO_STATE info <? BLOCK_STATE_TRIM_FAILURE then
    match un_ddir u with
    | DDIR_TRIM => Some (with_infos (<[i := BLOCK_INFO_SET_STATE info BLOCK_STATE_TRIM_FAILURE]> (block_infos s)) s)
    | DDIR_WRITE => Some (with_infos (<[i := BLOCK_INFO_SET_STATE info BLOCK_STATE_WRITE_FAILURE]> (block_infos s)) s)
    | _ => Some s
    end
  else Some s.

(** ** Places in the tree *)
Inductive place_ := Overlap (c : color) (l : tree nat) (x : nat) (r : tree nat) (k : list (frame nat)) | Vacant (k : list (frame nat)).

(** The walk down the tree: to the first node that overlaps the new entry, or to
    where the entry belongs. *)
Fixpoint descend (h : gmap nat io_piece) (p : io_piece) (t : tree nat) (k : list (frame nat)) : option place_ :=
  match t with
  | Leaf => Some (Vacant k)
  | Node c l x r =>
      q ← h !! x;
      let left := descend h p l (FL c x r :: k) in
      let right := descend h p r (FR c l x :: k) in
      let hit := Some (Overlap c l x r k) in
      if ip_file p <? ip_file q then left
      else if ip_file q <? ip_file p then right
      else if ip_offset p <? ip_offset q then if ip_offset q <? u64 (ip_offset p + ip_len p) then hit else left
      else if ip_offset q <? ip_offset p then if ip_offset p <? u64 (ip_offset q + ip_len q) then hit else right
      else hit
  end.

(** The node of an entry: what its pointers lead to. *)
Fixpoint find (i : nat) (t : tree nat) (k : list (frame nat)) : option (color * tree nat * nat * tree nat * list (frame nat)) :=
  match t with
  | Leaf => None
  | Node c l x r =>
      if bool_decide (x = i) then Some (c, l, x, r, k)
      else match find i l (FL c x r :: k) with Some f => Some f | None => find i r (FR c l x :: k) end
  end.
Definition erase (i : nat) (s : history) : option history :=
  '(c, l, x, r, k) ← find i (io_hist_tree s) [];
  t ← rb_erase c l x r k;
  Some (with_tree t s).

(** ** Logging *)

(** The loop around [restart]: each turn but the last removes a node, so that one
    more turn than there are nodes is enough. *)
Fixpoint insert_piece (fuel : nat) (i : nat) (p : io_piece) (s : history) : option history :=
  match fuel with
  | O => None
  | S fuel =>
      pl ← descend (pieces s) p (io_hist_tree s) [];
      match pl with
      | Vacant k => t ← rb_insert i k; Some (with_tree t s)
      | Overlap c l x r k =>
          q ← pieces s !! x;
          t ← rb_erase c l x r k;
          let s := remove_trim_entry x (with_tree t (with_len (-1) s)) in
          insert_piece fuel i p (if isset (ip_flags q) IP_F_IN_FLIGHT then s else free x s)
      end
  end.

Definition log_io_piece (o : setup) (u : unit_) (s : history) : option (unit_ * history) :=
  f ← un_file u;
  let p := IoPiece f (un_offset u) (un_numberio u) (un_buflen u) IP_F_IN_FLIGHT in
  let '(i, s) := malloc p s in
  let u := Unit (un_file u) (un_offset u) (un_buflen u) (un_numberio u) (un_ddir u) (un_error u) (un_xfer_buflen u) (un_resid u)
             (un_ver_list u) (un_trimmed u) (un_rand_seed u) (Some i) in
  let '(trim, s) := io_u_should_trim o s in
  let s := if trim : bool then with_trims (trim_list s ++ [i]) 1 s else s in
  if (negb (verifysort o) || negb (td_random o)) && file_randommap o f then
    Some (u, with_len 1 (set_piece i (reflag (fun x => set_flags x IP_F_ONLIST) p) (with_list (io_hist_list s ++ [i]) s)))
  else
    s ← insert_piece (S (length (elems (io_hist_tree s)))) i p s;
    Some (u, with_len 1 (set_piece i (reflag (fun x => set_flags x IP_F_ONRB) p) s)).

Definition drop_ipo (u : unit_) : unit_ :=
  Unit (un_file u) (un_offset u) (un_buflen u) (un_numberio u) (un_ddir u) (un_error u) (un_xfer_buflen u) (un_resid u)
    (un_ver_list u) (un_trimmed u) (un_rand_seed u) None.

Definition unlog_io_piece (o : setup) (u : unit_) (s : history) : option (unit_ * history) :=
  s ← note_failure o u s;
  match un_ipo u with
  | None => Some (u, s)
  | Some i =>
      p ← pieces s !! i;
      s ← (if isset (ip_flags p) IP_F_ONRB then erase i s
           else Some (if isset (ip_flags p) IP_F_ONLIST then with_list (filter (.≠ i) (io_hist_list s)) s else s));
      Some (drop_ipo u, with_len (-1) (free i s))
  end.

Definition trim_io_piece (u : unit_) (s : history) : option history :=
  match un_ipo u with
  | None => Some s
  | Some i =>
      p ← pieces s !! i;
      Some (set_piece i (IoPiece (ip_file p) (ip_offset p) (ip_numberio p) (u64 (un_xfer_buflen u - un_resid u)) (ip_flags p)) s)
  end.

(** The first lines of [io_completed]: the outcome is known. *)
Definition complete_ipo (o : setup) (u : unit_) (s : history) : option (unit_ * history) :=
  match un_ipo u with
  | None => Some (u, s)
  | Some i =>
      if negb (un_error u =? 0) then unlog_io_piece o u s
      else p ← pieces s !! i; Some (u, set_piece i (reflag (fun x => clear_flags x IP_F_IN_FLIGHT) p) s)
  end.

(** [prune_io_piece_log]: the nodes of the tree in order, then the list. *)
Fixpoint prune_tree (fuel : nat) (s : history) : option history :=
  match rb_first (io_hist_tree s), fuel with
  | None, _ => Some s
  | Some _, O => None
  | Some (c, l, x, r, k), S fuel =>
      _ ← pieces s !! x;
      t ← rb_erase c l x r k;
      prune_tree fuel (free x (with_len (-1) (remove_trim_entry x (with_tree t s))))
  end.
Fixpoint prune_list (l : list nat) (s : history) : option history :=
  match l with
  | [] => Some s
  | x :: l => _ ← pieces s !! x; prune_list l (free x (with_len (-1) (remove_trim_entry x (with_list l s))))
  end.
Definition prune_io_piece_log (s : history) : option history :=
  s ← prune_tree (length (elems (io_hist_tree s))) s;
  prune_list (io_hist_list s) s.

(** ** Reading back *)

(** The entry that is next, taken out of its container; [inr] says that there is
    none, or that its write is in flight. *)
Definition take_next (s : history) : option (nat * io_piece * history + unit) :=
  match rb_first (io_hist_tree s) with
  | Some (c, l, x, r, k) =>
      p ← pieces s !! x;
      if isset (ip_flags p) IP_F_IN_FLIGHT then Some (inr tt) else
      t ← rb_erase c l x r k;
      if isset (ip_flags p) IP_F_ONRB then
        let p := reflag (fun f => clear_flags f IP_F_ONRB) p in Some (inl (x, p, set_piece x p (with_tree t s)))
      else None
  | None =>
      match io_hist_list s with
      | [] => Some (inr tt)
      | x :: l =>
          p ← pieces s !! x;
          if isset (ip_flags p) IP_F_IN_FLIGHT then Some (inr tt) else
          if isset (ip_flags p) IP_F_ONLIST then
            let p := reflag (fun f => clear_flags f IP_F_ONLIST) p in Some (inl (x, p, set_piece x p (with_list l s)))
          else None
      end
  end.

(** [opens f] says that the file is open, or that [td_io_open_file] opens it. *)
Definition get_next_verify (o : setup) (opens : Z -> bool) (u : unit_) (s : history) : option (Z * unit_ * history) :=
  match un_file u with
  | Some _ => Some (0, u, s)
  | None =>
      n ← take_next s;
      match n with
      | inr _ => Some (1, u, s)
      | inl (i, p, s) =>
          let s := with_len (-1) s in
          let u := Unit (Some (ip_file p)) (ip_offset p) (ip_len p) (ip_numberio p) (un_ddir u) (un_error u) (un_xfer_buflen u) (un_resid u)
                     true (un_trimmed u || isset (ip_flags p) IP_F_TRIMMED) (un_rand_seed u) (un_ipo u) in
          if negb (opens (ip_file p)) then Some (1, u, s) else
          let s := free i (remove_trim_entry i s) in
          let '(seed, s) :=
            if verify_pattern_bytes o =? 0 then
              let '(st, a) := __rand (verify_state s) in
              let '(st, b) := __rand st in
              (u64 (a * b), with_verify_state st s)
            else (un_rand_seed u, s) in
          Some (0, Unit (un_file u) (un_offset u) (un_buflen u) (un_numberio u) DDIR_READ (un_error u) (un_buflen u) (un_resid u)
                     (un_ver_list u) (un_trimmed u) seed (un_ipo u), s)
      end
  end.

Definition get_next_trim (o : setup) (opens : Z -> bool) (u : unit_) (s : history) : option (bool * unit_ * history) :=
  match un_file u, trim_list s with
  | Some _, _ => Some (true, u, s)
  | None, [] => Some (false, u, s)
  | None, i :: _ =>
      if trim_entries s =? 0 then None else
      p ← pieces s !! i;
      let s := remove_trim_entry i s in
      let u := Unit (Some (ip_file p)) (ip_offset p) (ip_len p) (un_numberio u) (un_ddir u) (un_error u) (un_xfer_buflen u) (un_resid u)
                 (un_ver_list u) (un_trimmed u) (un_rand_seed u) (un_ipo u) in
      s ← (if trim_zero o then Some (set_piece i (reflag (fun f => set_flags f IP_F_TRIMMED) p) s)
           else s ← (if isset (ip_flags p) IP_F_ONLIST then Some (with_list (filter (.≠ i) (io_hist_list s)) s)
                     else if isset (ip_flags p) IP_F_ONRB then erase i s else None);
                Some (free i (with_len (-1) s)));
      if negb (opens (ip_file p)) then Some (false, u, s) else
      Some (true, Unit (un_file u) (un_offset u) (un_buflen u) (un_numberio u) DDIR_TRIM (un_error u) (un_buflen u) (un_resid u)
                    (un_ver_list u) (un_trimmed u) (un_rand_seed u) (un_ipo u), s)
  end.
