(* ===== verification/HistoryInv.v ===== *)
(** * The invariant of the history

    What the walk down the tree finds, that the loop of [log_io_piece] removes
    exactly the entries a new one overlaps, and that every operation keeps the
    tree, the list, the flags and the counters consistent. *)
From Stdlib Require Import Sorted.
From stdpp Require Import list gmap.
From S2P Require Import Prelude Flags Rand RbTree RbInv IoU History.

(** ** Ranges *)
Definition piece_wf (p : io_piece) : Prop := 0 <= ip_offset p /\ 0 <= ip_len p /\ ip_offset p + ip_len p < 2 ^ 64.
Definition earlier (p q : io_piece) : Prop :=
  ip_file p < ip_file q \/ ip_file p = ip_file q /\ ip_offset p < ip_offset q /\ ip_offset p + ip_len p <= ip_offset q.

(** Two entries share a byte, or start at the same one. *)
Definition overlapping (p q : io_piece) : bool :=
  (ip_file p =? ip_file q) &&
  ((ip_offset p =? ip_offset q) || ((ip_offset p <? ip_offset q + ip_len q) && (ip_offset q <? ip_offset p + ip_len p))).

Lemma earlier_trans p q r : earlier p q -> earlier q r -> earlier p r.
Proof. unfold earlier. lia. Qed.
Lemma earlier_apart p q : piece_wf p -> piece_wf q -> earlier p q -> overlapping p q = false /\ overlapping q p = false.
Proof. unfold earlier, overlapping, piece_wf. lia. Qed.

Abbreviation entry := (nat * io_piece)%type.
Definition ordered (T : list entry) : Prop := StronglySorted (fun a b => earlier a.2 b.2) T.
Definition cells (h : gmap nat io_piece) (T : list entry) : Prop := Forall (fun a => h !! a.1 = Some a.2) T.
Definition ranged (T : list entry) : Prop := Forall (fun a => piece_wf a.2) T.
Definition apart (p : io_piece) (T : list entry) : list entry := filter (fun a => overlapping p a.2 = false) T.

Lemma ordered_app A B : ordered (A ++ B) <-> ordered A /\ ordered B /\ Forall (fun a => Forall (fun b => earlier a.2 b.2) B) A.
Proof.
  unfold ordered. induction A as [|a A IH]; cbn [app].
  - split; [intros H; split_and!; [constructor|done|constructor]|by intros (_ & ? & _)].
  - split.
    + intros H. apply StronglySorted_inv in H as [H1 H2]. apply IH in H1 as (? & ? & ?). apply Forall_app in H2 as [? ?].
      split_and!; [by constructor|done|by constructor].
    + intros (H1 & H2 & H3). apply StronglySorted_inv in H1 as [? ?]. apply Forall_cons_iff in H3 as [? ?]. constructor; [by apply IH|by apply Forall_app].
Qed.
Lemma ordered_mid A x B : ordered (A ++ x :: B) <-> ordered (A ++ B) /\ Forall (fun a => earlier a.2 x.2) A /\ Forall (fun b => earlier x.2 b.2) B.
Proof.
  rewrite !ordered_app. split.
  - intros (H1 & H2 & H3). apply StronglySorted_inv in H2 as [H2 H4]. split_and!; try done.
    + eapply Forall_impl; [|exact H3]. intros a Ha. by apply Forall_cons_iff in Ha as [_ ?].
    + eapply Forall_impl; [|exact H3]. intros a Ha. by apply Forall_cons_iff in Ha as [? _].
  - intros ((H1 & H2 & H3) & H4 & H5). split_and!; [done|by constructor|]. apply list.Forall_forall. intros a Ha.
    constructor; [by apply (proj1 (list.Forall_forall _ _) H4)|by apply (proj1 (list.Forall_forall _ _) H3)].
Qed.

(** ** The walk down the tree *)
Definition leads (p : io_piece) (t : tree nat) (k : list (frame nat)) (T : list entry) (pl : place_) : Prop :=
  match pl with
  | Overlap c l x r k' => plug (Node c l x r) k' = plug t k /\
      exists A q B, T = A ++ (x, q) :: B /\ overlapping p q = true /\ before k' ++ elems l = before k ++ A.*1 /\ elems r ++ after k' = B.*1 ++ after k
  | Vacant k' => plug Leaf k' = plug t k /\
      exists A B, T = A ++ B /\ before k' = before k ++ A.*1 /\ after k' = B.*1 ++ after k /\
        Forall (fun a => earlier a.2 p) A /\ Forall (fun b => earlier p b.2) B
  end.

Lemma leads_left p c l x q r k A B pl : earlier p q -> Forall (fun b => earlier q b.2) B -> elems r = B.*1 ->
  leads p l (FL c x r :: k) A pl -> leads p (Node c l x r) k (A ++ (x, q) :: B) pl.
Proof.
  intros Hpq HB Er. destruct pl as [c' l' x' r' k'|k']; cbn [leads plug up before after]; intros [Hp H]; (split; [exact Hp|]).
  - destruct H as (A1 & q' & B1 & -> & Ho & Hb & Ha). exists A1, q', (B1 ++ (x, q) :: B). split_and!; [by rewrite <- app_assoc|done|done|].
    rewrite Ha, fmap_app, Er. cbn. by rewrite <- app_assoc.
  - destruct H as (A1 & B1 & -> & Hb & Ha & H1 & H2). exists A1, (B1 ++ (x, q) :: B). split_and!; [by rewrite <- app_assoc|done| |done|].
    + rewrite Ha, fmap_app, Er. cbn. by rewrite <- app_assoc.
    + apply Forall_app. split; [done|]. constructor; [done|]. eapply Forall_impl; [|exact HB]. intros b Hb'. by eapply earlier_trans.
Qed.
Lemma leads_right p c l x q r k A B pl : earlier q p -> Forall (fun a => earlier a.2 q) A -> elems l = A.*1 ->
  leads p r (FR c l x :: k) B pl -> leads p (Node c l x r) k (A ++ (x, q) :: B) pl.
Proof.
  intros Hpq HA El. destruct pl as [c' l' x' r' k'|k']; cbn [leads plug up before after]; intros [Hp H]; (split; [exact Hp|]).
  - destruct H as (A1 & q' & B1 & -> & Ho & Hb & Ha). exists (A ++ (x, q) :: A1), q', B1. split_and!; [by rewrite <- app_assoc|done| |done].
    rewrite Hb, El, fmap_app. cbn. by rewrite <- !app_assoc.
  - destruct H as (A1 & B1 & -> & Hb & Ha & H1 & H2). exists (A ++ (x, q) :: A1), B1. split_and!; [by rewrite <- app_assoc| |done| |done].
    + rewrite Hb, El, fmap_app. cbn. by rewrite <- !app_assoc.
    + apply Forall_app. split; [eapply Forall_impl; [|exact HA]; intros b Hb'; exact (earlier_trans _ _ _ Hb' Hpq)|by constructor].
Qed.

Lemma descend_leads h p : piece_wf p -> forall t k T, elems t = T.*1 -> cells h T -> ranged T -> ordered T ->
  exists pl, descend h p t k = Some pl /\ leads p t k T pl.
Proof.
  intros Hp. induction t as [|c l IHl x r IHr]; intros k T E Hc Hw Ho; cbn [elems] in E.
  { exists (Vacant k). split; [done|]. split; [done|]. symmetry in E. apply fmap_nil_inv in E as ->. exists [], []. split_and!; [done| |done|constructor..]. cbn. by rewrite app_nil_r. }
  symmetry in E. apply fmap_app_inv in E as (A & B' & EA & EB & ->). symmetry in EB. apply fmap_cons_inv in EB as ([x' q] & B & -> & EB & ->).
  cbn [fst] in *. apply Forall_app in Hc as [HcA HcB]. apply Forall_cons_iff in HcB as [Hx HcB]. cbn in Hx.
  apply Forall_app in Hw as [HwA HwB]. apply Forall_cons_iff in HwB as [Hq HwB]. cbn in Hq.
  apply ordered_mid in Ho as (Ho & HA & HB). apply ordered_app in Ho as (HoA & HoB & _). cbn [snd] in *.
  destruct (IHl (FL c x' r :: k) A EA HcA HwA HoA) as (pl & El & Ll). destruct (IHr (FR c l x' :: k) B EB HcB HwB HoB) as (pr & Er & Lr).
  cbn [descend]. rewrite Hx. cbn [mbind option_bind]. unfold piece_wf in Hp, Hq.
  assert (Hhit : overlapping p q = true -> leads p (Node c l x' r) k (A ++ (x', q) :: B) (Overlap c l x' r k)).
  { intros Hov. split; [done|]. exists A, q, B. split_and!; [done|done|by rewrite EA|by rewrite EB]. }
  unfold u64, wrap. rewrite !Z.mod_small by lia. unfold overlapping in Hhit.
  destruct (Z.ltb_spec (ip_file p) (ip_file q)); [exists pl; split; [done|]; apply leads_left; [unfold earlier; lia|done..]|].
  destruct (Z.ltb_spec (ip_file q) (ip_file p)); [exists pr; split; [done|]; apply leads_right; [unfold earlier; lia|done..]|].
  destruct (Z.ltb_spec (ip_offset p) (ip_offset q)).
  { destruct (Z.ltb_spec (ip_offset q) (ip_offset p + ip_len p)); [eexists; split; [done|]; apply Hhit; lia|].
    exists pl. split; [done|]. apply leads_left; [unfold earlier; lia|done..]. }
  destruct (Z.ltb_spec (ip_offset q) (ip_offset p)); [|eexists; split; [done|]; apply Hhit; lia].
  destruct (Z.ltb_spec (ip_offset p) (ip_offset q + ip_len q)); [eexists; split; [done|]; apply Hhit; lia|].
  exists pr. split; [done|]. apply leads_right; [unfold earlier; lia|done..].
Qed.

(** ** The invariant

    [T] is the tree, [L] the list, as numbers of cells with their contents.  Cells
    may live on outside of both: an entry that was overlapped while in flight. *)
Record ok (s : history) (T L : list entry) : Prop := Ok {
  ok_valid : valid (io_hist_tree s);
  ok_tree : elems (io_hist_tree s) = T.*1;
  ok_list : io_hist_list s = L.*1;
  ok_cells : cells (pieces s) (T ++ L);
  ok_ranged : ranged (T ++ L);
  ok_ordered : ordered T;
  ok_nodup : NoDup (T ++ L).*1;
  ok_onrb : Forall (fun a => isset (ip_flags a.2) IP_F_ONRB = true) T;
  ok_onlist : Forall (fun a => isset (ip_flags a.2) IP_F_ONLIST = true /\ isset (ip_flags a.2) IP_F_ONRB = false) L;
  ok_len : io_hist_len s = u64 (Z.of_nat (length (T ++ L)));
  ok_fresh : forall i, (fresh s <= i)%nat -> pieces s !! i = None;
  ok_trims : NoDup (trim_list s) /\ Forall (fun i => is_Some (pieces s !! i)) (trim_list s);
  ok_trim_entries : trim_entries s = u64 (Z.of_nat (length (trim_list s))) }.

Definition without (i : nat) (T : list entry) : list entry := filter (fun a => a.1 <> i) T.

Lemma without_fst i T : (without i T).*1 = filter (.≠ i) T.*1.
Proof. induction T as [|a T IH]; [done|]. unfold without in *. cbn [fmap list_fmap]. rewrite !list.filter_cons. repeat case_decide; cbn; by rewrite ?IH. Qed.
Lemma filter_absent (i : nat) (l : list nat) : i ∉ l -> filter (.≠ i) l = l.
Proof.
  induction l as [|a l IH]; [done|]. intros H. apply not_elem_of_cons in H as [H1 H2]. rewrite list.filter_cons_True by done. by rewrite IH.
Qed.
Lemma filter_mid (i : nat) (a b : list nat) : NoDup (a ++ i :: b) -> filter (.≠ i) (a ++ i :: b) = a ++ b.
Proof.
  intros H. apply list.NoDup_app in H as (_ & Ha & Hb). apply list.NoDup_cons in Hb as [Hi _]. rewrite list.filter_app, list.filter_cons_False by tauto.
  rewrite !filter_absent; [done|done|]. intros Hj. by apply (Ha i Hj), list_elem_of_here.
Qed.
Lemma length_filter_ne (i : nat) (l : list nat) : NoDup l -> i ∈ l -> S (length (filter (.≠ i) l)) = length l.
Proof. intros H Hi. apply list_elem_of_split in Hi as (a & b & ->). rewrite filter_mid, !length_app by done. cbn. lia. Qed.

Lemma u64_shift a b : u64 (u64 a + b) = u64 (a + b).
Proof. unfold wrap. by rewrite Z.add_mod_idemp_l. Qed.

(** ** Single updates *)
Lemma trim_entry_gone i s T L : ok s T L -> ok (remove_trim_entry i s) T L /\ i ∉ trim_list (remove_trim_entry i s).
Proof.
  intros [????????????]. unfold remove_trim_entry. destruct (bool_decide_reflect (i ∈ trim_list s)) as [Hi|Hi]; [|by split].
  split; [|cbn; rewrite list_elem_of_filter; tauto]. destruct ok_trims0 as [H1 H2]. split; cbn; try done.
  - split; [by apply list.NoDup_filter|]. apply list.Forall_forall. intros j Hj. apply list_elem_of_filter in Hj as [_ Hj]. by apply (proj1 (list.Forall_forall _ _) H2).
  - rewrite ok_trim_entries0, u64_shift, <- (length_filter_ne i (trim_list s)) by done. f_equal. lia.
Qed.

Lemma trim_entry_frame i s : pieces (remove_trim_entry i s) = pieces s /\ fresh (remove_trim_entry i s) = fresh s /\
  io_hist_tree (remove_trim_entry i s) = io_hist_tree s /\ block_infos (remove_trim_entry i s) = block_infos s /\ (trim_list (remove_trim_entry i s) ⊆ trim_list s).
Proof. unfold remove_trim_entry. case_bool_decide; cbn; split_and!; try done. intros j Hj. by apply list_elem_of_filter in Hj as [_ ?]. Qed.

Lemma free_ok i s T L : ok s T L -> i ∉ (T ++ L).*1 -> i ∉ trim_list s -> ok (free i s) T L.
Proof.
  intros [????????????] Hi Ht. destruct ok_trims0 as [H1 H2]. split; cbn; try done.
  - apply list.Forall_forall. intros a Ha. rewrite lookup_delete_ne; [by apply (proj1 (list.Forall_forall _ _) ok_cells0)|].
    intros ->. apply Hi. by apply list_elem_of_fmap_2.
  - intros j Hj. apply lookup_delete_None. right. by apply ok_fresh0.
  - split; [done|]. apply list.Forall_forall. intros j Hj. rewrite lookup_delete_ne by congruence. by apply (proj1 (list.Forall_forall _ _) H2).
Qed.

(** One entry less: of the tree, which becomes [t], or of the list. *)
Lemma shorter s T L A B x q : ok s T L -> T ++ L = A ++ (x, q) :: B ->
  cells (pieces s) (A ++ B) /\ ranged (A ++ B) /\ NoDup (A ++ B).*1 /\ x ∉ (A ++ B).*1 /\
  io_hist_len (with_len (-1) s) = u64 (Z.of_nat (length (A ++ B))).
Proof.
  intros [????????????] E. rewrite E in *. split_and!.
  - apply Forall_app in ok_cells0 as [? Hc]. apply Forall_cons_iff in Hc as [_ ?]. by apply Forall_app.
  - apply Forall_app in ok_ranged0 as [? Hc]. apply Forall_cons_iff in Hc as [_ ?]. by apply Forall_app.
  - revert ok_nodup0. rewrite !fmap_app. cbn. intros H. apply list.NoDup_app in H as (? & Ha & Hb). apply list.NoDup_cons in Hb as [? ?].
    apply list.NoDup_app. split_and!; [done| |done]. intros j Hj Hj'. apply (Ha j Hj). by apply list_elem_of_further.
  - revert ok_nodup0. rewrite !fmap_app. cbn. intros H. apply list.NoDup_app in H as (? & Ha & Hb). apply list.NoDup_cons in Hb as [? ?].
    intros Hx. apply elem_of_app in Hx as [Hx|Hx]; [|done]. apply (Ha x Hx), list_elem_of_here.
  - cbn. rewrite ok_len0, u64_shift, !length_app. cbn [length]. f_equal. lia.
Qed.

Lemma tree_shorter s A x q B L t : ok s (A ++ (x, q) :: B) L -> valid t -> elems t = (A ++ B).*1 ->
  ok (with_tree t (with_len (-1) s)) (A ++ B) L /\ x ∉ ((A ++ B) ++ L).*1.
Proof.
  intros H Hv Et. destruct (shorter s _ L A (B ++ L) x q H) as (H1 & H2 & H3 & H4 & H5); [by rewrite <- app_assoc|]. rewrite app_assoc in *.
  split; [|done]. destruct H as [????????????]. split; cbn [io_hist_tree io_hist_list io_hist_len pieces fresh trim_list trim_entries with_tree with_len]; try done.
  - by apply ordered_mid in ok_ordered0 as [? _].
  - apply Forall_app in ok_onrb0 as [? Hc]. apply Forall_cons_iff in Hc as [_ ?]. by apply Forall_app.
Qed.
Lemma list_shorter s T A x q B : ok s T (A ++ (x, q) :: B) -> ok (with_list (A ++ B).*1 (with_len (-1) s)) T (A ++ B) /\ x ∉ (T ++ A ++ B).*1.
Proof.
  intros H. destruct (shorter s T _ (T ++ A) B x q H) as (H1 & H2 & H3 & H4 & H5); [by rewrite <- app_assoc|]. rewrite <- !app_assoc in *.
  split; [|done]. destruct H as [????????????]. split; cbn [io_hist_tree io_hist_list io_hist_len pieces fresh trim_list trim_entries with_list with_len]; try done.
  apply Forall_app in ok_onlist0 as [? Hc]. apply Forall_cons_iff in Hc as [_ ?]. by apply Forall_app.
Qed.

(** ** Logging *)

(** Cells that stay, or were let go: not in flight and overlapped by [p]. *)
Definition kept (p : io_piece) (T : list entry) (h h' : gmap nat io_piece) : Prop :=
  forall j, h' !! j = h !! j \/ exists q, (j, q) ∈ T /\ isset (ip_flags q) IP_F_IN_FLIGHT = false /\ h' !! j = None.

Lemma dropped_ok s A x q B L t : ok s (A ++ (x, q) :: B) L -> valid t -> elems t = (A ++ B).*1 ->
  let s1 := remove_trim_entry x (with_tree t (with_len (-1) s)) in
  let s2 := if isset (ip_flags q) IP_F_IN_FLIGHT then s1 else free x s1 in
  ok s2 (A ++ B) L /\ kept q (A ++ (x, q) :: B) (pieces s) (pieces s2) /\ fresh s2 = fresh s /\ block_infos s2 = block_infos s /\ trim_list s2 ⊆ trim_list s.
Proof.
  intros H Hv Et s1 s2. destruct (tree_shorter s A x q B L t H Hv Et) as [H1 Hx]. destruct (trim_entry_gone x _ _ _ H1) as [H2 Ht].
  destruct (trim_entry_frame x (with_tree t (with_len (-1) s))) as (E1 & E2 & _ & E3 & E4). fold s1 in H2, Ht, E1, E2, E3, E4. subst s2.
  destruct (isset (ip_flags q) IP_F_IN_FLIGHT) eqn:Ef; cbn.
  - rewrite E1. split_and!; [done| |done..]. intros j. by left.
  - rewrite E1. split_and!; [by apply free_ok| |done..]. intros j. destruct (decide (x = j)) as [->|Hne]; [|left; by apply lookup_delete_ne].
    right. exists q. split_and!; [|done|apply lookup_delete_eq]. apply elem_of_app. right. apply list_elem_of_here.
Qed.

Lemma apart_all p T : Forall (fun a => overlapping p a.2 = false) T -> apart p T = T.
Proof. induction 1 as [|a T Ha HT IH]; [done|]. unfold apart in *. rewrite list.filter_cons_True by done. by rewrite IH. Qed.
Lemma apart_drop p A x q B : overlapping p q = true -> apart p (A ++ (x, q) :: B) = apart p (A ++ B).
Proof. intros E. unfold apart. rewrite !list.filter_app, list.filter_cons_False; [done|]. cbn. congruence. Qed.

Lemma insert_piece_ok : forall fuel s T L i p, ok s T L -> piece_wf p -> (length T < fuel)%nat ->
  exists t s0 A B, insert_piece fuel i p s = Some (with_tree t s0) /\ ok s0 (A ++ B) L /\ valid t /\ elems t = A.*1 ++ i :: B.*1 /\
    A ++ B = apart p T /\ Forall (fun a => earlier a.2 p) A /\ Forall (fun b => earlier p b.2) B /\
    kept p T (pieces s) (pieces s0) /\ fresh s0 = fresh s /\ block_infos s0 = block_infos s /\ trim_list s0 ⊆ trim_list s.
Proof.
  induction fuel as [|fuel IH]; intros s T L i p H Hp Hf; [lia|].
  assert (Hs : exists pl, descend (pieces s) p (io_hist_tree s) [] = Some pl /\ leads p (io_hist_tree s) [] T pl).
  { destruct H as [????????????]. apply Forall_app in ok_cells0 as [? _]. apply Forall_app in ok_ranged0 as [? _]. by apply descend_leads. }
  destruct Hs as (pl & E & Hl). cbn [insert_piece]. rewrite E. cbn [mbind option_bind]. destruct pl as [c l x r k|k]; destruct Hl as [Hplug Hl]; cbn [plug] in Hplug.
  - destruct Hl as (A & q & B & -> & Hov & Hb & Ha). cbn [before after app] in Hb, Ha. rewrite app_nil_r in Ha.
    assert (Hq : pieces s !! x = Some q).
    { pose proof (ok_cells _ _ _ H) as Hc. unfold cells in Hc. rewrite !Forall_app, Forall_cons_iff in Hc. tauto. }
    rewrite Hq. cbn [mbind option_bind]. destruct (rb_erase_valid c l x r k) as (t & Et & Hv); [rewrite Hplug; apply H|]. rewrite Et. cbn [mbind option_bind].
    assert (Ee : elems t = (A ++ B).*1) by (rewrite (rb_erase_elems _ _ _ _ _ _ Et), fmap_app, app_assoc, Hb, Ha; done).
    destruct (dropped_ok s A x q B L t H Hv Ee) as (H1 & Hk & Hfr & Hbi & Htr).
    destruct (IH _ (A ++ B) L i p H1 Hp) as (t' & s0 & A' & B' & E' & H0 & Hv' & Ee' & EA & H2 & H3 & Hk' & Hfr' & Hbi' & Htr'); [rewrite length_app in *; cbn [length] in Hf; lia|].
    exists t', s0, A', B'. rewrite (apart_drop p A x q B Hov). split_and!; try done; [|congruence|congruence|by etrans].
    intros j. destruct (Hk' j) as [->|(q' & Hin & ? & ?)]; [apply Hk|]. right. exists q'. split_and!; [|done..].
    rewrite elem_of_app, elem_of_cons in *. tauto.
  - destruct Hl as (A & B & -> & Hb & Ha & HA & HB). cbn [before after app] in Hb, Ha. rewrite app_nil_r in Ha.
    destruct (rb_insert_valid i k) as (t & Et & Hv); [rewrite Hplug; apply H|]. rewrite Et. cbn [mbind option_bind].
    exists t, s, A, B. split_and!; try done; [|symmetry; apply apart_all|intros j; by left].
    + rewrite (rb_insert_elems _ _ _ Et), Hb, Ha. done.
    + pose proof (ok_ranged _ _ _ H) as Hr. unfold ranged in Hr. rewrite !Forall_app in Hr. destruct Hr as [[HrA HrB] _]. apply Forall_app. split.
      * eapply Forall_impl; [|exact (Forall_and HA HrA)]. intros a [? ?]. by apply (earlier_apart a.2 p).
      * eapply Forall_impl; [|exact (Forall_and HB HrB)]. intros a [? ?]. by apply (earlier_apart p a.2).
Qed.

Lemma live_old s T L i : ok s T L -> is_Some (pieces s !! i) -> (i < fresh s)%nat.
Proof. intros H [p Hp]. destruct (decide (fresh s <= i)%nat) as [Hle|]; [|lia]. rewrite (ok_fresh _ _ _ H i Hle) in Hp. done. Qed.
Lemma entry_live s T L i p : ok s T L -> (i, p) ∈ T ++ L -> pieces s !! i = Some p.
Proof. intros H Hi. exact (proj1 (list.Forall_forall _ _) (ok_cells _ _ _ H) _ Hi). Qed.
Lemma id_entry i (T : list entry) : i ∈ T.*1 -> exists p, (i, p) ∈ T.
Proof. intros H. apply list_elem_of_fmap in H as ([j p] & -> & Hp). by exists p. Qed.
Lemma id_live s T L i : ok s T L -> i ∈ (T ++ L).*1 -> is_Some (pieces s !! i).
Proof. intros H Hi. apply id_entry in Hi as [p Hp]. exists p. by eapply entry_live. Qed.

Lemma malloc_ok p s T L : ok s T L -> ok (snd (malloc p s)) T L.
Proof.
  intros H. assert (Hne : forall j, is_Some (pieces s !! j) -> fresh s <> j) by (intros j Hj; pose proof (live_old _ _ _ _ H Hj); lia).
  destruct (H) as [????????????]. destruct ok_trims0 as [H1 H2]. split; cbn; try done.
  - apply list.Forall_forall. intros [j q] Hj. pose proof (entry_live _ _ _ _ _ H Hj) as E. cbn. rewrite lookup_insert_ne; [done|]. apply Hne. by rewrite E.
  - intros j Hj. rewrite lookup_insert_ne by lia. apply ok_fresh0. lia.
  - split; [done|]. apply list.Forall_forall. intros j Hj. pose proof (proj1 (list.Forall_forall _ _) H2 j Hj) as Hs. rewrite lookup_insert_ne; [done|]. by apply Hne.
Qed.

Lemma should_trim_frame o s T L : ok s T L -> ok (snd (io_u_should_trim o s)) T L.
Proof. intros [????????????]. unfold io_u_should_trim. case_match; [done|]. destruct (__rand (trim_state s)). cbn. done. Qed.

(** The state in which the entry looks for its place. *)
Definition prepared (o : setup) (p : io_piece) (s : history) : history :=
  let '(i, s) := malloc p s in
  let '(trim, s) := io_u_should_trim o s in
  if trim then with_trims (trim_list s ++ [i]) 1 s else s.

Lemma prepared_ok o p s T L : ok s T L ->
  ok (prepared o p s) T L /\ pieces (prepared o p s) = <[fresh s := p]> (pieces s) /\ fresh (prepared o p s) = S (fresh s) /\
  block_infos (prepared o p s) = block_infos s.
Proof.
  intros H. pose proof (should_trim_frame o _ _ _ (malloc_ok p s T L H)) as H1. unfold prepared. destruct (malloc p s) as [i s1] eqn:E1.
  unfold malloc in E1. injection E1 as <- <-. cbn [snd] in H1.
  assert (Hf : let s2 := snd (io_u_should_trim o (snd (malloc p s))) in pieces s2 = <[fresh s := p]> (pieces s) /\ fresh s2 = S (fresh s) /\ block_infos s2 = block_infos s /\ trim_list s2 = trim_list s).
  { unfold io_u_should_trim. case_match; [done|]. by destruct (__rand (trim_state _)). }
  cbn [malloc snd] in Hf. destruct (io_u_should_trim _ _) as [trim s2]. cbn [snd] in *. destruct Hf as (E1 & E2 & E3 & E4).
  destruct trim; [|by split]. split; [|done]. destruct H1 as [????????????]. destruct ok_trims0 as [N1 N2]. split; cbn; try done.
  - split.
    + apply list.NoDup_app. split_and!; [done| |apply list.NoDup_singleton]. intros j Hj ->%list_elem_of_singleton. rewrite E4 in Hj.
      pose proof (proj1 (list.Forall_forall _ _) (proj2 (ok_trims _ _ _ H)) _ Hj) as Hs. pose proof (live_old _ _ _ _ H Hs). lia.
    + apply Forall_app. split; [done|]. repeat constructor. rewrite E1, lookup_insert_eq. by eexists.
  - rewrite ok_trim_entries0, u64_shift, length_app. f_equal. cbn. lia.
Qed.

(** One entry more. *)
Lemma tree_longer s A i p B L t : ok s (A ++ B) L -> is_Some (pieces s !! i) -> i ∉ ((A ++ B) ++ L).*1 -> valid t -> elems t = A.*1 ++ i :: B.*1 ->
  piece_wf p -> isset (ip_flags p) IP_F_ONRB = true -> Forall (fun a => earlier a.2 p) A -> Forall (fun b => earlier p b.2) B ->
  ok (with_len 1 (set_piece i p (with_tree t s))) (A ++ (i, p) :: B) L.
Proof.
  intros H Hi Hx Hv Et Hw Hon HA HB. pose proof (live_old _ _ _ _ H Hi). destruct (H) as [????????????]. destruct ok_trims0 as [N1 N2]. split; cbn; try done.
  - by rewrite Et, fmap_app.
  - unfold cells. apply list.Forall_forall. intros [j q] Hj. cbn. rewrite <- app_assoc, elem_of_app in Hj. cbn [app] in Hj. rewrite elem_of_cons in Hj.
    destruct (decide (i = j)) as [->|Hne].
    + rewrite lookup_insert_eq. destruct Hj as [Hj|[[= <-]|Hj]]; [|done|]; exfalso; apply Hx; apply (list_elem_of_fmap_2 fst _ (j, q)); rewrite <- app_assoc, elem_of_app; tauto.
    + rewrite lookup_insert_ne by done. apply (entry_live _ _ _ _ _ H). rewrite <- app_assoc, elem_of_app. destruct Hj as [?|[[= <- <-]|?]]; tauto.
  - unfold ranged in *. rewrite !Forall_app, Forall_cons_iff in *. tauto.
  - by apply ordered_mid.
  - rewrite <- app_assoc, !fmap_app in *. cbn. apply list.NoDup_app in ok_nodup0 as (D1 & D2 & D3). rewrite !elem_of_app in Hx.
    apply list.NoDup_app. split_and!; [done| |].
    + intros j Hj [->|Hj']%elem_of_cons; [tauto|]. by apply (D2 j Hj).
    + constructor; [rewrite ?fmap_app, ?elem_of_app in *; tauto|done].
  - rewrite !Forall_app, Forall_cons_iff in *. tauto.
  - rewrite ok_len0, u64_shift, !length_app. cbn [length]. f_equal. lia.
  - intros j Hj. rewrite lookup_insert_ne by lia. by apply ok_fresh0.
  - split; [done|]. eapply Forall_impl; [|exact N2]. intros j Hj. destruct (decide (i = j)) as [->|]; [rewrite lookup_insert_eq; by eexists|by rewrite lookup_insert_ne].
Qed.
Lemma list_longer s T i p L : ok s T L -> is_Some (pieces s !! i) -> i ∉ (T ++ L).*1 -> piece_wf p ->
  isset (ip_flags p) IP_F_ONLIST = true -> isset (ip_flags p) IP_F_ONRB = false ->
  ok (with_len 1 (set_piece i p (with_list (io_hist_list s ++ [i]) s))) T (L ++ [(i, p)]).
Proof.
  intros H Hi Hx Hw Hon Hoff. pose proof (live_old _ _ _ _ H Hi). destruct (H) as [????????????]. destruct ok_trims0 as [N1 N2]. split; cbn; try done.
  - by rewrite ok_list0, fmap_app.
  - unfold cells. rewrite app_assoc, Forall_app. split.
    + apply list.Forall_forall. intros [j q] Hj. cbn. rewrite lookup_insert_ne; [by apply (entry_live _ _ _ _ _ H)|]. intros ->. apply Hx. by apply (list_elem_of_fmap_2 fst _ (j, q)).
    + repeat constructor. cbn. by rewrite lookup_insert_eq.
  - unfold ranged in *. rewrite app_assoc, Forall_app. split; [done|]. constructor; [done|constructor].
  - rewrite app_assoc, fmap_app. cbn. apply list.NoDup_app. split_and!; [done| |apply list.NoDup_singleton]. by intros j Hj ->%list_elem_of_singleton.
  - rewrite Forall_app. split; [done|]. constructor; [done|constructor].
  - rewrite ok_len0, u64_shift, !length_app. cbn [length]. f_equal. lia.
  - intros j Hj. rewrite lookup_insert_ne by lia. by apply ok_fresh0.
  - split; [done|]. eapply Forall_impl; [|exact N2]. intros j Hj. destruct (decide (i = j)) as [->|]; [rewrite lookup_insert_eq; by eexists|by rewrite lookup_insert_ne].
Qed.

(** Whether a write goes to the tree. *)
Definition to_tree (o : setup) (f : Z) : bool := negb ((negb (verifysort o) || negb (td_random o)) && file_randommap o f).
Definition piece_of (u : unit_) (f : Z) : io_piece := IoPiece f (un_offset u) (un_numberio u) (un_buflen u) IP_F_IN_FLIGHT.

(** Cells other than [i] stay, or were free to go. *)
Definition others (i : nat) (h h' : gmap nat io_piece) : Prop :=
  forall j, j <> i -> h' !! j = h !! j \/ exists q, h !! j = Some q /\ isset (ip_flags q) IP_F_IN_FLIGHT = false /\ h' !! j = None.

Lemma log_ok o s T L u f : ok s T L -> un_file u = Some f -> piece_wf (piece_of u f) ->
  exists u' s' p' T' L', log_io_piece o u s = Some (u', s') /\ un_ipo u' = Some (fresh s) /\ fresh s' = S (fresh s) /\ block_infos s' = block_infos s /\
    ok s' T' L' /\ pieces s' !! fresh s = Some p' /\ (exists g, p' = reflag g (piece_of u f) /\ isset (ip_flags p') IP_F_IN_FLIGHT = true) /\
    others (fresh s) (pieces s) (pieces s') /\
    if to_tree o f then L' = L /\ exists A B, A ++ B = apart (piece_of u f) T /\ T' = A ++ (fresh s, p') :: B
    else T' = T /\ L' = L ++ [(fresh s, p')].
Proof.
  intros H Ef Hw. destruct (prepared_ok o (piece_of u f) s T L H) as (H1 & P1 & P2 & P3).
  assert (Hx : fresh s ∉ (T ++ L).*1) by (intros Hx; apply (id_live _ _ _ _ H) in Hx; pose proof (live_old _ _ _ _ H Hx); lia).
  assert (Hi : pieces (prepared o (piece_of u f) s) !! fresh s = Some (piece_of u f)) by (rewrite P1; apply lookup_insert_eq).
  unfold log_io_piece. rewrite Ef. cbn [mbind option_bind malloc]. unfold prepared in *. cbn [malloc] in *. fold (piece_of u f).
  destruct (io_u_should_trim _ _) as [trim s1]. unfold to_tree. destruct ((negb (verifysort o) || negb (td_random o)) && file_randommap o f); cbn [negb].
  - do 5 eexists. split; [done|]. cbn [un_ipo fresh with_len set_piece with_pieces with_list block_infos pieces].
    split_and!; [done|by destruct trim|by destruct trim| |apply lookup_insert_eq| | |done|done].
    + apply list_longer; [exact H1|by rewrite Hi|done|done|done..].
    + eexists. split; [done|]. done.
    + intros j Hj. left. rewrite lookup_insert_ne by done. destruct trim; cbn in P1 |- *; rewrite P1; by apply lookup_insert_ne.
  - set (s2 := if trim then _ else _) in *. destruct (insert_piece_ok (S (length (elems (io_hist_tree s2)))) s2 T L (fresh s) (piece_of u f) H1 Hw)
      as (t & s0 & A & B & E & H0 & Hv & Ee & EA & HA & HB & Hk & Hfr & Hbi & Htr); [rewrite (ok_tree _ _ _ H1), length_fmap; lia|].
    rewrite E. cbn [mbind option_bind]. assert (Hx0 : fresh s ∉ ((A ++ B) ++ L).*1).
    { rewrite EA. intros Hin. apply Hx. rewrite !fmap_app, !elem_of_app in *. destruct Hin as [Hin|]; [left|by right].
      apply id_entry in Hin as [q Hq]. apply list_elem_of_filter in Hq as [_ Hq]. by apply (list_elem_of_fmap_2 fst _ (_, q)). }
    assert (Hi0 : is_Some (pieces s0 !! fresh s)).
    { destruct (Hk (fresh s)) as [->|(q & Hq & _)]; [by rewrite Hi|]. exfalso. apply Hx. rewrite fmap_app, elem_of_app. left. by apply (list_elem_of_fmap_2 fst _ (_, q)). }
    do 5 eexists. split; [done|]. cbn [un_ipo fresh with_len set_piece with_pieces with_tree block_infos pieces].
    split_and!; [done|congruence|congruence| |apply lookup_insert_eq| | |done|by exists A, B].
    + apply tree_longer; [exact H0|done..].
    + eexists. split; [done|]. done.
    + intros j Hj. rewrite lookup_insert_ne by done. destruct (Hk j) as [->|(q & Hq & Hfl & Hn)]; [left; rewrite P1; by apply lookup_insert_ne|].
      right. exists q. split_and!; [|done|done]. apply (entry_live _ _ _ _ _ H). apply elem_of_app. by left.
Qed.

(** ** Completion *)
Definition touch (i : nat) (g : Z -> Z) (T : list entry) : list entry := (fun a : entry => if decide (a.1 = i) then (a.1, reflag g a.2) else a) <$> T.
Lemma touch_fst i g T : (touch i g T).*1 = T.*1.
Proof. unfold touch. rewrite <- list_fmap_compose. apply list_fmap_ext. intros ? [j q] _. cbn. by case_decide. Qed.
Lemma touch_app i g A B : touch i g (A ++ B) = touch i g A ++ touch i g B.
Proof. apply fmap_app. Qed.
Lemma touch_Forall (P Q : entry -> Prop) i g T : (forall a, P a -> Q a) -> (forall j q, P (j, q) -> Q (j, reflag g q)) -> Forall P T -> Forall Q (touch i g T).
Proof. intros H1 H2. induction 1 as [|[j q] T Ha HT IH]; [constructor|]. unfold touch in *. cbn [fmap list_fmap fst]. constructor; [|done]. case_decide; [by apply H2|by apply H1]. Qed.

Lemma touch_ordered i g T : ordered T -> ordered (touch i g T).
Proof.
  unfold ordered, touch. induction 1 as [|[j q] T HT IH HF]; cbn [fmap list_fmap fst]; [constructor|]. constructor; [done|].
  assert (E : forall b, earlier (if decide (j = i) then (j, reflag g q) else (j, q)).2 b <-> earlier q b) by (intros b; by case_decide).
  apply (touch_Forall (fun b => earlier q b.2) _ i g); [|intros k b Hb|done]; intros; by apply E.
Qed.

Lemma touch_ok i g s T L p : ok s T L -> pieces s !! i = Some p ->
  (forall x f, f = IP_F_ONRB \/ f = IP_F_ONLIST -> isset (g x) f = isset x f) -> ok (set_piece i (reflag g p) s) (touch i g T) (touch i g L).
Proof.
  intros H Hi Hg. assert (Hi' : is_Some (pieces s !! i)) by (by rewrite Hi). pose proof (live_old _ _ _ _ H Hi') as Hlt. clear Hi'.
  destruct (H) as [????????????]. destruct ok_trims0 as [N1 N2]. split; cbn; try done.
  - by rewrite touch_fst.
  - by rewrite touch_fst.
  - rewrite <- touch_app. apply list.Forall_forall. intros a Ha. unfold touch in Ha. apply list_elem_of_fmap in Ha as ([j q] & -> & Hj).
    pose proof (entry_live _ _ _ _ _ H Hj) as E. cbn [fst]. case_decide as Hd; cbn [fst snd].
    + subst j. rewrite lookup_insert_eq. congruence.
    + by rewrite lookup_insert_ne.
  - rewrite <- touch_app. by apply (touch_Forall (fun a => piece_wf a.2)).
  - by apply touch_ordered.
  - by rewrite <- touch_app, touch_fst.
  - eapply touch_Forall; [|intros j q Hq|exact ok_onrb0]; [done|]. cbn in *. rewrite Hg; tauto.
  - eapply touch_Forall; [|intros j q Hq|exact ok_onlist0]; [done|]. cbn in *. rewrite !Hg; tauto.
  - rewrite ok_len0, <- touch_app. unfold touch. by rewrite length_fmap.
  - intros j Hj. rewrite lookup_insert_ne by lia. by apply ok_fresh0.
  - split; [done|]. eapply Forall_impl; [|exact N2]. intros j Hj. destruct (decide (i = j)) as [->|]; [rewrite lookup_insert_eq; by eexists|by rewrite lookup_insert_ne].
Qed.
