(* ===== verification/HistoryRun.v ===== *)
(** * Runs of the history: what is read back

    Writes are logged, complete in any order, fail; and what [get_next_verify]
    hands out afterwards is, in the order of files and offsets, every write that
    no later one has overlapped. *)
From Stdlib Require Import Sorted.
From stdpp Require Import list gmap.
From S2P Require Import Prelude Flags Rand RbTree RbInv IoU History HistoryInv.

(** ** A node and its place *)
Lemma find_place i : forall t k, i ∈ elems t -> exists c l r k', find i t k = Some (c, l, i, r, k') /\ plug (Node c l i r) k' = plug t k.
Proof.
  assert (Hno : forall t k, i ∉ elems t -> find i t k = None).
  { induction t as [|c l IHl x r IHr]; intros k H; cbn [find elems] in *; [done|]. rewrite elem_of_app, elem_of_cons in H.
    rewrite bool_decide_eq_false_2 by (intros ->; tauto). rewrite IHl, IHr by tauto. done. }
  induction t as [|c l IHl x r IHr]; intros k H; cbn [find elems] in *; [by apply elem_of_nil in H|].
  case_bool_decide as Hx; [subst; by eauto 6|]. destruct (decide (i ∈ elems l)) as [Hl|Hl].
  - destruct (IHl (FL c x r :: k) Hl) as (c' & l' & r' & k' & -> & E). by eauto 6.
  - rewrite (Hno l) by done. apply elem_of_app in H as [H|H]; [done|]. apply elem_of_cons in H as [->|H]; [done|].
    destruct (IHr (FR c l x :: k) H) as (c' & l' & r' & k' & -> & E). by eauto 6.
Qed.

Lemma erase_ok i s : valid (io_hist_tree s) -> NoDup (elems (io_hist_tree s)) -> i ∈ elems (io_hist_tree s) ->
  exists t, erase i s = Some (with_tree t s) /\ valid t /\ elems t = filter (.≠ i) (elems (io_hist_tree s)).
Proof.
  intros Hv Hn Hi. destruct (find_place i _ [] Hi) as (c & l & r & k & E & Hp). cbn [plug] in Hp. unfold erase. rewrite E. cbn [mbind option_bind].
  destruct (rb_erase_valid c l i r k) as (t & Et & Hvt); [by rewrite Hp|]. rewrite Et. exists t. split_and!; [done|done|].
  assert (Ee : elems (io_hist_tree s) = (before k ++ elems l) ++ i :: elems r ++ after k) by (rewrite <- Hp, elems_plug; cbn [elems]; by rewrite <- !app_assoc).
  rewrite Ee in Hn |- *. rewrite filter_mid, (rb_erase_elems _ _ _ _ _ _ Et) by done. by rewrite <- app_assoc.
Qed.

Lemma without_mid i p A B : NoDup (A ++ (i, p) :: B).*1 -> without i (A ++ (i, p) :: B) = A ++ B.
Proof.
  intros H. unfold without. rewrite list.filter_app, list.filter_cons_False by (cbn; tauto).
  rewrite fmap_app in H. cbn in H. apply list.NoDup_app in H as (_ & Ha & Hb). apply list.NoDup_cons in Hb as [Hi _].
  assert (Hid : forall C : list entry, i ∉ C.*1 -> without i C = C).
  { induction C as [|[j q] C IH]; [done|]. intros Hc. cbn in Hc. apply not_elem_of_cons in Hc as [H1 H2]. unfold without in *. rewrite list.filter_cons_True by (cbn; congruence). by rewrite IH. }
  unfold without in Hid. rewrite !Hid; [done|done|]. intros Hj. by apply (Ha i Hj), list_elem_of_here.
Qed.
Lemma without_absent i (T : list entry) : i ∉ T.*1 -> without i T = T.
Proof.
  induction T as [|[j q] C IH]; [done|]. intros Hc. cbn in Hc. apply not_elem_of_cons in Hc as [H1 H2]. unfold without in *. rewrite list.filter_cons_True by (cbn; congruence). by rewrite IH.
Qed.

Lemma nodup_parts s T L : ok s T L -> NoDup T.*1 /\ NoDup L.*1 /\ forall j, j ∈ T.*1 -> j ∉ L.*1.
Proof. intros H. pose proof (ok_nodup _ _ _ H) as N. rewrite fmap_app in N. apply list.NoDup_app in N. tauto. Qed.

(** A failed write leaves the history, if it is still there and not to be trimmed. *)
Lemma unlog_ok o u i p s T L : ok s T L -> block_infos s = [] -> un_ipo u = Some i -> (i, p) ∈ T ++ L -> i ∉ trim_list s ->
  exists s', unlog_io_piece o u s = Some (drop_ipo u, s') /\ ok s' (without i T) (without i L) /\ pieces s' = delete i (pieces s) /\
    fresh s' = fresh s /\ block_infos s' = [] /\ trim_list s' = trim_list s.
Proof.
  intros H Hb Hu Hin Ht. pose proof (entry_live _ _ _ _ _ H Hin) as Hp. destruct (nodup_parts _ _ _ H) as (NT & NL & Hd).
  unfold unlog_io_piece, note_failure. rewrite bool_decide_eq_true_2 by done. cbn [mbind option_bind]. rewrite Hu, Hp. cbn [mbind option_bind].
  apply elem_of_app in Hin as [Hin|Hin].
  - pose proof (proj1 (list.Forall_forall _ _) (ok_onrb _ _ _ H) _ Hin) as Hon. cbn [snd] in Hon. rewrite Hon. pose proof (list_elem_of_fmap_2 fst _ _ Hin) as Hi. cbn in Hi.
    destruct (erase_ok i s) as (t & Et & Hv & Ee); [apply H|by rewrite (ok_tree _ _ _ H)|by rewrite (ok_tree _ _ _ H)|]. rewrite Et. cbn [mbind option_bind].
    eexists. split; [done|]. split_and!; [|done..]. rewrite (without_absent i L) by (by apply Hd). apply list_elem_of_split in Hin as (A & B & ->).
    rewrite without_mid by done. rewrite (ok_tree _ _ _ H), <- without_fst, without_mid in Ee by done.
    destruct (tree_shorter s A i p B L t H Hv Ee) as [H1 Hx]. exact (free_ok i _ _ _ H1 Hx Ht).
  - destruct (proj1 (list.Forall_forall _ _) (ok_onlist _ _ _ H) _ Hin) as [E1 E2]. cbn in E1, E2. rewrite E1, E2. cbn [mbind option_bind].
    eexists. split; [done|]. split_and!; [|done..]. pose proof (list_elem_of_fmap_2 fst _ _ Hin) as Hi. cbn in Hi.
    rewrite (without_absent i T) by (intros Hi'; by apply (Hd i Hi')). rewrite (ok_list _ _ _ H), <- without_fst. apply list_elem_of_split in Hin as (A & B & ->).
    rewrite without_mid by done. destruct (list_shorter s T A i p B H) as [H1 Hx]. exact (free_ok i _ _ _ H1 Hx Ht).
Qed.

(** ** Reading back *)
Lemma first_place (t : tree nat) : match rb_first t with
  | None => elems t = []
  | Some (c, l, x, r, k) => plug (Node c l x r) k = t /\ elems t = x :: elems r ++ after k /\ before k ++ elems l = []
  end.
Proof.
  destruct t as [|c l x r]; [done|]. cbn [rb_first]. destruct (leftmost c l x r []) as [[[c' y] r'] k'] eqn:E.
  assert (Hp : forall (l : tree nat) c x r k c' y r' k', leftmost c l x r k = (c', y, r', k') -> plug (Node c' Leaf y r') k' = plug (Node c l x r) k).
  { clear. induction l as [|c1 l1 IH x1 r1 _]; intros c x r k c' y r' k' E; cbn [leftmost] in E; [by injection E as <- <- <- <-|]. by apply IH in E. }
  pose proof (Hp _ _ _ _ _ _ _ _ _ E) as P. apply leftmost_elems in E as [E1 E2]. cbn [after before] in *. rewrite app_nil_r in E2.
  split_and!; [exact P|cbn [elems]; by rewrite E2|by rewrite E1].
Qed.

(** What is next, and what is left. *)
Definition next_of (T L : list entry) : option (nat * io_piece * list entry * list entry) :=
  match T, L with
  | (x, p) :: T, _ => Some (x, p, T, L)
  | [], (x, p) :: L => Some (x, p, [], L)
  | [], [] => None
  end.

Lemma set_unlisted i p s T L : ok s T L -> i ∉ (T ++ L).*1 -> is_Some (pieces s !! i) -> ok (set_piece i p s) T L.
Proof.
  intros H Hx Hi. pose proof (live_old _ _ _ _ H Hi). destruct (H) as [????????????]. destruct ok_trims as [N1 N2]. split; cbn; try done.
  - apply list.Forall_forall. intros [j q] Hj. cbn. rewrite lookup_insert_ne; [by apply (entry_live _ _ _ _ _ H)|]. intros ->. apply Hx. by apply (list_elem_of_fmap_2 fst _ (j, q)).
  - intros j Hj. rewrite lookup_insert_ne by lia. by apply ok_fresh.
  - split; [done|]. eapply Forall_impl; [|exact N2]. intros j Hj. destruct (decide (i = j)) as [->|]; [rewrite lookup_insert_eq; by eexists|by rewrite lookup_insert_ne].
Qed.

Lemma take_next_ok s T L : ok s T L ->
  match next_of T L with
  | None => take_next s = Some (inr tt)
  | Some (x, p, T', L') =>
      if isset (ip_flags p) IP_F_IN_FLIGHT then take_next s = Some (inr tt)
      else exists g s', take_next s = Some (inl (x, reflag g p, s')) /\ isset (ip_flags (reflag g p)) IP_F_TRIMMED = isset (ip_flags p) IP_F_TRIMMED /\
        ok (with_len (-1) s') T' L' /\ x ∉ (T' ++ L').*1 /\ pieces s' = <[x := reflag g p]> (pieces s) /\ fresh s' = fresh s /\ block_infos s' = block_infos s
  end.
Proof.
  intros H. pose proof (first_place (io_hist_tree s)) as Hf. unfold take_next. destruct (rb_first (io_hist_tree s)) as [[[[[c l] x] r] k]|].
  - destruct Hf as (Hp & He & Hl). rewrite (ok_tree _ _ _ H) in He. destruct T as [|[x' p] T]; [done|]. cbn in He. injection He as -> He. cbn [next_of].
    assert (Hx : pieces s !! x = Some p) by (apply (entry_live _ _ _ _ _ H); left). rewrite Hx. cbn [mbind option_bind].
    destruct (isset (ip_flags p) IP_F_IN_FLIGHT); [done|]. destruct (rb_erase_valid c l x r k) as (t & Et & Hv); [rewrite Hp; apply H|]. rewrite Et. cbn [mbind option_bind].
    pose proof (Forall_inv (ok_onrb _ _ _ H)) as Hon. cbn [snd] in Hon. rewrite Hon. do 2 eexists. split; [done|].
    assert (Ee : elems t = T.*1) by (rewrite (rb_erase_elems _ _ _ _ _ _ Et), app_assoc, Hl; done).
    destruct (tree_shorter s [] x p T L t H Hv Ee) as [H1 H2]. split_and!; [|exact (set_unlisted x _ _ _ _ H1 H2 (mk_is_Some _ _ Hx))|done..].
    cbn. unfold IP_F_ONRB, IP_F_TRIMMED. flags_in_goal. done.
  - rewrite (ok_tree _ _ _ H) in Hf. apply fmap_nil_inv in Hf as ->. cbn [next_of]. pose proof (ok_list _ _ _ H) as El. destruct L as [|[x p] L]; cbn in El; rewrite El; [done|].
    assert (Hx : pieces s !! x = Some p) by (apply (entry_live _ _ _ _ _ H); left). rewrite Hx. cbn [mbind option_bind].
    destruct (isset (ip_flags p) IP_F_IN_FLIGHT); [done|]. destruct (Forall_inv (ok_onlist _ _ _ H)) as [Hon _]. cbn [snd] in Hon. rewrite Hon. do 2 eexists. split; [done|].
    destruct (list_shorter s [] [] x p L H) as [H1 H2]. split_and!; [|exact (set_unlisted x _ _ _ _ H1 H2 (mk_is_Some _ _ Hx))|done..].
    cbn. unfold IP_F_ONLIST, IP_F_TRIMMED. flags_in_goal. done.
Qed.

(** A unit without a file gets the next entry; the cell is released. *)
Lemma next_verify_ok o opens u s T L : ok s T L -> un_file u = None -> (forall f, opens f = true) ->
  match next_of T L with
  | None => get_next_verify o opens u s = Some (1, u, s)
  | Some (x, p, T', L') =>
      if isset (ip_flags p) IP_F_IN_FLIGHT then get_next_verify o opens u s = Some (1, u, s)
      else exists u' s', get_next_verify o opens u s = Some (0, u', s') /\
        (un_file u', un_offset u', un_buflen u', un_numberio u', un_xfer_buflen u', un_ddir u') = (Some (ip_file p), ip_offset p, ip_len p, ip_numberio p, ip_len p, DDIR_READ) /\
        un_ver_list u' = true /\ un_trimmed u' = un_trimmed u || isset (ip_flags p) IP_F_TRIMMED /\
        ok s' T' L' /\ pieces s' = delete x (pieces s)
  end.
Proof.
  intros H Hu Ho. pose proof (take_next_ok s T L H) as Ht. unfold get_next_verify. rewrite Hu. destruct (next_of T L) as [[[[x p] T'] L']|]; [|by rewrite Ht].
  destruct (isset (ip_flags p) IP_F_IN_FLIGHT); [by rewrite Ht|]. destruct Ht as (g & s1 & -> & Htr & H1 & Hx & Hp & Hf & Hb). cbn [mbind option_bind]. rewrite Ho. cbn [negb].
  destruct (trim_entry_gone x _ _ _ H1) as [H2 Hn]. pose proof (free_ok x _ _ _ H2 Hx Hn) as H3.
  assert (Hd : pieces (free x (remove_trim_entry x (with_len (-1) s1))) = delete x (pieces s)).
  { cbn. rewrite (proj1 (trim_entry_frame _ _)). cbn. rewrite Hp. apply delete_insert_eq. }
  cbn [ip_file ip_offset ip_len ip_numberio reflag]. destruct (verify_pattern_bytes o =? 0).
  - destruct (__rand _) as [st a]. destruct (__rand st) as [st' b]. do 2 eexists. split; [done|]. cbn [un_file un_offset un_buflen un_numberio un_xfer_buflen un_ddir un_ver_list un_trimmed].
    split_and!; [done|done|by rewrite <- Htr|by destruct H3|done].
  - do 2 eexists. split; [done|]. cbn [un_file un_offset un_buflen un_numberio un_xfer_buflen un_ddir un_ver_list un_trimmed].
    split_and!; [done|done|by rewrite <- Htr|done|done].
Qed.

(** ** Pruning: everything is released, whatever is in flight. *)
Lemma trim_len_comm x d s : with_len d (remove_trim_entry x s) = remove_trim_entry x (with_len d s).
Proof. unfold remove_trim_entry. cbn. by case_bool_decide. Qed.

Lemma release_ok x s T L : ok (with_len (-1) s) T L -> x ∉ (T ++ L).*1 ->
  ok (free x (with_len (-1) (remove_trim_entry x s))) T L /\ pieces (free x (with_len (-1) (remove_trim_entry x s))) = delete x (pieces s).
Proof.
  intros H Hx. rewrite trim_len_comm. destruct (trim_entry_gone x _ _ _ H) as [H1 Hn]. split; [by apply free_ok|]. cbn. by rewrite (proj1 (trim_entry_frame _ _)).
Qed.

Lemma prune_tree_ok L : forall T n s, ok s T L -> length T = n -> exists s', prune_tree n s = Some s' /\ ok s' [] L /\ forall i, pieces s' !! i = if decide (i ∈ T.*1) then None else pieces s !! i.
Proof.
  induction T as [|[x p] T IH]; intros n s H Hn; pose proof (first_place (io_hist_tree s)) as Hf; rewrite (ok_tree _ _ _ H) in Hf.
  - destruct n; [|done]. cbn [prune_tree]. destruct (rb_first (io_hist_tree s)) as [[[[[c l] y] r] k]|]; [by destruct Hf as (_ & ? & _)|]. exists s. split_and!; [done..|].
    intros i. case_decide as Hi; [by apply elem_of_nil in Hi|done].
  - destruct n as [|n]; [done|]. cbn [prune_tree]. destruct (rb_first (io_hist_tree s)) as [[[[[c l] y] r] k]|]; [|done]. destruct Hf as (Hp & He & Hl). cbn in He. injection He as -> He.
    rewrite (entry_live _ _ _ y p H) by (left). cbn [mbind option_bind]. destruct (rb_erase_valid c l y r k) as (t & Et & Hv); [rewrite Hp; apply H|]. rewrite Et. cbn [mbind option_bind].
    assert (Ee : elems t = T.*1) by (rewrite (rb_erase_elems _ _ _ _ _ _ Et), app_assoc, Hl; done). destruct (tree_shorter s [] y p T L t H Hv Ee) as [H1 H2].
    destruct (release_ok y (with_tree t s) T L H1 H2) as [H3 Hd]. destruct (IH n _ H3) as (s' & E & H4 & Hc); [by injection Hn|]. exists s'. split_and!; [done..|].
    intros i. rewrite Hc, Hd. cbn. destruct (decide (i = y)) as [->|]; [rewrite lookup_delete_eq; repeat case_decide; set_solver|]. rewrite lookup_delete_ne by done. apply decide_ext. set_solver.
Qed.
Lemma prune_list_ok : forall L s, ok s [] L -> exists s', prune_list L.*1 s = Some s' /\ ok s' [] [] /\ forall i, pieces s' !! i = if decide (i ∈ L.*1) then None else pieces s !! i.
Proof.
  induction L as [|[x p] L IH]; intros s H; cbn [fmap list_fmap prune_list fst].
  - exists s. split_and!; [done..|]. intros i. case_decide as Hi; [by apply elem_of_nil in Hi|done].
  - rewrite (entry_live _ _ _ x p H) by (left). cbn [mbind option_bind]. destruct (list_shorter s [] [] x p L H) as [H1 H2].
    destruct (release_ok x (with_list L.*1 s) [] L H1 H2) as [H3 Hd]. destruct (IH _ H3) as (s' & E & H4 & Hc). exists s'. split_and!; [exact E|done|].
    intros i. rewrite Hc, Hd. cbn. destruct (decide (i = x)) as [->|]; [rewrite lookup_delete_eq; repeat case_decide; set_solver|]. rewrite lookup_delete_ne by done. apply decide_ext. set_solver.
Qed.

(** [prune_io_piece_log] releases every entry of the tree and of the list and
    nothing else, whatever is in flight, and the counter ends at 0. *)
Lemma prune_ok s T L : ok s T L -> exists s', prune_io_piece_log s = Some s' /\ ok s' [] [] /\ io_hist_len s' = 0 /\
  forall i, pieces s' !! i = if decide (i ∈ (T ++ L).*1) then None else pieces s !! i.
Proof.
  intros H. unfold prune_io_piece_log. rewrite (ok_tree _ _ _ H), length_fmap. destruct (prune_tree_ok L T _ s H eq_refl) as (s1 & -> & H1 & Hc1). cbn [mbind option_bind].
  rewrite (ok_list _ _ _ H1). destruct (prune_list_ok L s1 H1) as (s2 & E & H2 & Hc2). exists s2. split_and!; [done|done|exact (ok_len _ _ _ H2)|].
  intros i. rewrite Hc2, Hc1, fmap_app. repeat case_decide; set_solver.
Qed.

(** ** Runs *)
Lemma filter_agree (P Q : nat -> Prop) `{HP : !forall i, Decision (P i), HQ : !forall i, Decision (Q i)} (l : list nat) : (forall i, i ∈ l -> P i <-> Q i) -> filter P l = filter Q l.
Proof.
  induction l as [|i l IH]; [done|]. intros H. rewrite !list.filter_cons. pose proof (H i (list_elem_of_here i l)).
  rewrite IH by (intros j Hj; apply H; by right). repeat case_decide; tauto.
Qed.

Section runs.
Context (o : setup).

Definition blank (r v : frand_state) : history := History ∅ 0 Leaf [] 0 [] 0 r v [].

(** A run: the state, the writes in flight, those that failed, and all of them, in
    the order they were logged; a write is known by its place in that order.  A
    write that fails is one that nothing has overlapped, nor chosen for a trim. *)
Inductive reach : history -> gset nat -> gset nat -> list unit_ -> Prop :=
| reach_start r v : reach (blank r v) ∅ ∅ []
| reach_write s F D W u f u' s' : reach s F D W -> un_file u = Some f -> piece_wf (piece_of u f) ->
    log_io_piece o u s = Some (u', s') -> reach s' ({[length W]} ∪ F) D (W ++ [u])
| reach_done s F D W u i u' s' : reach s F D W -> un_ipo u = Some i -> i ∈ F -> un_error u = 0 ->
    complete_ipo o u s = Some (u', s') -> reach s' (F ∖ {[i]}) D W
| reach_fail s F D W u i u' s' : reach s F D W -> un_ipo u = Some i -> i ∈ F -> un_error u <> 0 ->
    i ∈ elems (io_hist_tree s) ++ io_hist_list s -> i ∉ trim_list s ->
    complete_ipo o u s = Some (u', s') -> reach s' (F ∖ {[i]}) ({[i]} ∪ D) W.

(** A write that went to the tree, did not fail, and was not overlapped later. *)
Definition survives (W : list unit_) (D : gset nat) (i : nat) : Prop :=
  exists u f, W !! i = Some u /\ un_file u = Some f /\ to_tree o f = true /\ i ∉ D /\
    forall j v g, (i < j)%nat -> W !! j = Some v -> un_file v = Some g -> to_tree o g = true -> overlapping (piece_of v g) (piece_of u f) = false.

Definition in_list (W : list unit_) (i : nat) : bool :=
  match (u ← W !! i; un_file u) with Some f => negb (to_tree o f) | None => false end.
Definition listed (W : list unit_) (D : gset nat) : list nat := filter (fun i => in_list W i = true /\ i ∉ D) (seq 0 (length W)).

Record inv (s : history) (F D : gset nat) (W : list unit_) (T L : list entry) : Prop := Inv {
  inv_ok : ok s T L;
  inv_fresh : fresh s = length W;
  inv_infos : block_infos s = [];
  inv_flight : forall i, i ∈ F -> is_Some (pieces s !! i);
  inv_flag : forall i p, pieces s !! i = Some p -> isset (ip_flags p) IP_F_IN_FLIGHT = bool_decide (i ∈ F);
  inv_failed : forall i, i ∈ D -> (i < length W)%nat;
  inv_core : forall i p, (i, p) ∈ T ++ L -> exists u f g, W !! i = Some u /\ un_file u = Some f /\ p = reflag g (piece_of u f);
  inv_tree : forall i, i ∈ T.*1 <-> survives W D i;
  inv_list : L.*1 = listed W D }.

Lemma survives_old W D u f i : un_file u = Some f -> (i < length W)%nat ->
  survives (W ++ [u]) D i <-> survives W D i /\
    (to_tree o f = true -> forall v g, W !! i = Some v -> un_file v = Some g -> overlapping (piece_of u f) (piece_of v g) = false).
Proof.
  intros Eu Hi. unfold survives. rewrite lookup_app_l by done. split.
  - intros (v & g & Hv & Hg & Ht & Hd & Ho). split.
    + exists v, g. split_and!; try done. intros j w h Hj Hw. apply (Ho j w h); [done|]. rewrite lookup_app_l; [done|]. by eapply lookup_lt_Some.
    + intros Hf v' g' Hv' Hg'. simplify_eq. apply (Ho (length W) u f); [done| |done|done]. by apply list_lookup_middle.
  - intros [(v & g & Hv & Hg & Ht & Hd & Ho) Hn]. exists v, g. split_and!; try done. intros j w h Hj Hw Hh Hth.
    apply lookup_app_Some in Hw as [Hw|[Hl Hw]]; [by eapply Ho|]. apply list_lookup_singleton_Some in Hw as [_ <-]. simplify_eq. by eapply Hn.
Qed.
Lemma survives_new W D u f : un_file u = Some f -> survives (W ++ [u]) D (length W) <-> to_tree o f = true /\ length W ∉ D.
Proof.
  intros Eu. unfold survives. rewrite list_lookup_middle by done. split; [intros (v & g & [= <-] & ? & ? & ? & _); by simplify_eq|].
  intros [Ht Hd]. exists u, f. split_and!; try done. intros j v g Hj Hv. apply lookup_lt_Some in Hv. rewrite length_app in Hv. cbn in Hv. lia.
Qed.

Lemma in_list_old W u i : (i < length W)%nat -> in_list (W ++ [u]) i = in_list W i.
Proof. intros H. unfold in_list. by rewrite lookup_app_l. Qed.
Lemma listed_snoc W D u f : un_file u = Some f -> length W ∉ D ->
  listed (W ++ [u]) D = listed W D ++ (if to_tree o f then [] else [length W]).
Proof.
  intros Eu Hd. unfold listed. rewrite length_app. cbn [length]. rewrite Nat.add_1_r, seq_S, list.filter_app. cbn [Nat.add]. f_equal.
  - apply filter_agree. intros i Hi. apply elem_of_seq in Hi. rewrite in_list_old by lia. done.
  - assert (E : in_list (W ++ [u]) (length W) = negb (to_tree o f)) by (unfold in_list; rewrite list_lookup_middle by done; cbn; by rewrite Eu).
    destruct (to_tree o f); cbn in E; [rewrite list.filter_cons_False by (rewrite E; by intros [? _])|rewrite list.filter_cons_True by done]; done.
Qed.

(** ** The invariant of runs *)
Lemma tree_ids (T : list entry) i : i ∈ T.*1 <-> exists p, (i, p) ∈ T.
Proof. split; [apply id_entry|]. intros [p Hp]. by apply (list_elem_of_fmap_2 fst _ (i, p)). Qed.

Lemma inv_start r v : inv (blank r v) ∅ ∅ [] [] [].
Proof.
  split; [split|..]; cbn; try done; [exists 0%nat; apply rb_leaf|by constructor..|by repeat constructor|intros i p H; by apply elem_of_nil in H|].
  intros i. split; [intros H; by apply elem_of_nil in H|]. intros (u & f & H & _). done.
Qed.

Lemma inv_write s F D W T L u f : inv s F D W T L -> un_file u = Some f -> piece_wf (piece_of u f) ->
  exists u' s' T' L', log_io_piece o u s = Some (u', s') /\ un_ipo u' = Some (length W) /\ inv s' ({[length W]} ∪ F) D (W ++ [u]) T' L'.
Proof.
  intros [Hok Hfr Hbi Hfl Hflag Hfail Hcore Htree Hlist] Ef Hw.
  destruct (log_ok o s T L u f Hok Ef Hw) as (u' & s' & p' & T' & L' & E & Hi & Hfr' & Hbi' & Hok' & Hp' & (g & Eg & Hg) & Hoth & Hcase).
  rewrite Hfr in *. exists u', s', T', L'. split_and!; [done|done|]. set (n := length W) in *.
  assert (Hn : n ∉ D) by (intros Hn; specialize (Hfail n Hn); lia).
  assert (Hold : forall i p, (i, p) ∈ T ++ L -> (i < n)%nat) by (intros i p Hip; destruct (Hcore i p Hip) as (v & h & g' & Hv & _); by eapply lookup_lt_Some).
  assert (Hin : forall i p, (i, p) ∈ T' ++ L' <-> i = n /\ p = p' \/ (i, p) ∈ T ++ L /\ ((i, p) ∈ T -> to_tree o f = true -> overlapping (piece_of u f) p = false)).
  { intros i p. rewrite !elem_of_app. destruct (to_tree o f).
    - destruct Hcase as [-> (A & B & EA & ->)]. assert (Hap : (i, p) ∈ A ++ B <-> overlapping (piece_of u f) p = false /\ (i, p) ∈ T) by (rewrite EA; unfold apart; by rewrite list_elem_of_filter).
      rewrite elem_of_app, elem_of_cons in *. destruct (nodup_parts _ _ _ Hok) as (_ & _ & Hd).
      assert (Hdis : (i, p) ∈ T -> (i, p) ∉ L) by (intros H1 H2; by apply (Hd i (list_elem_of_fmap_2 fst _ (i, p) H1)), (list_elem_of_fmap_2 fst _ (i, p))).
      split; [intros [[?|[[= -> ->]|?]]|?]; naive_solver|intros [[-> ->]|[[?|?] ?]]; naive_solver].
    - destruct Hcase as [-> ->]. rewrite elem_of_app, list_elem_of_singleton. naive_solver. }
  split; try done.
  - rewrite length_app. cbn. lia.
  - congruence.
  - intros i Hi'. apply elem_of_union in Hi' as [->%elem_of_singleton|Hi']; [by rewrite Hp'|]. specialize (Hfl i Hi') as [q Hq].
    assert (i <> n) by (intros ->; rewrite <- Hfr in Hq; pose proof (live_old _ _ _ _ Hok (mk_is_Some _ _ Hq)); lia).
    destruct (Hoth i) as [->|(q' & Hq' & Hno & _)]; [done|by rewrite Hq|]. rewrite (Hflag i q' Hq') in Hno. by apply bool_decide_eq_false in Hno.
  - intros i p Hp. destruct (decide (i = n)) as [->|Hne]; [rewrite Hp' in Hp; injection Hp as <-; rewrite Hg; symmetry; apply bool_decide_eq_true; set_solver|].
    destruct (Hoth i Hne) as [E'|(q & _ & _ & E')]; [|congruence]. rewrite E' in Hp. rewrite (Hflag i p Hp). apply bool_decide_ext. set_solver.
  - intros i Hi'. specialize (Hfail i Hi'). rewrite length_app. lia.
  - intros i p Hip. apply Hin in Hip as [[-> ->]|[Hip _]].
    + exists u, f, g. split_and!; [by apply list_lookup_middle|done|done].
    + destruct (Hcore i p Hip) as (v & h & g' & Hv & ?). exists v, h, g'. split; [|done]. rewrite lookup_app_l; [done|]. by eapply lookup_lt_Some.
  - intros i. rewrite (tree_ids T' i). destruct (decide (i < n)%nat) as [Hlt|Hge].
    + rewrite (survives_old W D u f i Ef Hlt), <- Htree, (tree_ids T i). assert (Hiff : forall p, (i, p) ∈ T' <-> (i, p) ∈ T /\ (to_tree o f = true -> overlapping (piece_of u f) p = false)).
      { intros p. destruct (to_tree o f); [|destruct Hcase as [-> _]; naive_solver]. destruct Hcase as [_ (A & B & EA & ->)].
        assert (Hap : (i, p) ∈ A ++ B <-> overlapping (piece_of u f) p = false /\ (i, p) ∈ T) by (rewrite EA; unfold apart; by rewrite list_elem_of_filter).
        rewrite elem_of_app, elem_of_cons in *. assert ((i, p) <> (n, p')) by (intros [= -> _]; lia). tauto. }
      split; [intros [p Hp]; apply Hiff in Hp as [Hp Ho]|intros [[p Hp] Ho]; exists p; apply Hiff];
        destruct (Hcore i p) as (v & h & g' & Hv & Hh & ->); [by apply elem_of_app; left| |by apply elem_of_app; left|].
      * split; [by eexists|]. intros Ht v' h' Hv' Hh'. simplify_eq. by apply Ho.
      * split; [done|]. intros Ht. by apply (Ho Ht v h).
    + assert (Hn1 : forall p, (i, p) ∉ T) by (intros p Hp; specialize (Hold i p); rewrite elem_of_app in Hold; specialize (Hold (or_introl Hp)); lia).
      destruct (decide (i = n)) as [->|Hne].
      * pose proof (survives_new W D u f Ef) as Hnew. fold n in Hnew. rewrite Hnew. destruct (to_tree o f); [|destruct Hcase as [-> _]; naive_solver]. destruct Hcase as [_ (A & B & EA & ->)].
        split; [done|]. intros _. exists p'. apply elem_of_app. right. left.
      * split; [|intros (v & h & Hv & _); apply lookup_lt_Some in Hv; rewrite length_app in Hv; cbn in Hv; fold n in Hv; lia]. intros [p Hp].
        assert (Hp2 : (i, p) ∈ T' ++ L') by (apply elem_of_app; by left). apply Hin in Hp2 as [[? _]|[Hp2 _]]; [done|]. specialize (Hold i p Hp2). lia.
  - rewrite (listed_snoc W D u f Ef Hn), <- Hlist. destruct (to_tree o f); [destruct Hcase as [-> _]; by rewrite app_nil_r|destruct Hcase as [_ ->]; by rewrite fmap_app].
Qed.

Lemma inv_done s F D W T L u i : inv s F D W T L -> un_ipo u = Some i -> i ∈ F -> un_error u = 0 ->
  exists s' T' L', complete_ipo o u s = Some (u, s') /\ inv s' (F ∖ {[i]}) D W T' L'.
Proof.
  intros [Hok Hfr Hbi Hfl Hflag Hfail Hcore Htree Hlist] Hu Hi He. destruct (Hfl i Hi) as [p Hp]. unfold complete_ipo. rewrite Hu, He, Hp. cbn [Z.eqb negb mbind option_bind].
  set (g := fun x => clear_flags x IP_F_IN_FLIGHT). exists (set_piece i (reflag g p) s), (touch i g T), (touch i g L). split; [done|].
  assert (Hg : forall x f, f = IP_F_ONRB \/ f = IP_F_ONLIST -> isset (g x) f = isset x f).
  { intros x f [-> | ->]; unfold g, IP_F_ONRB, IP_F_ONLIST, IP_F_IN_FLIGHT; flags_in_goal; done. }
  split; try done.
  - by apply touch_ok.
  - intros j Hj. cbn. destruct (decide (i = j)) as [->|]; [rewrite lookup_insert_eq; by eexists|rewrite lookup_insert_ne by done; apply Hfl; set_solver].
  - intros j q. cbn. destruct (decide (i = j)) as [->|Hne].
    + rewrite lookup_insert_eq. intros [= <-]. rewrite bool_decide_eq_false_2 by set_solver. cbn. unfold g, IP_F_IN_FLIGHT. flags_in_goal. done.
    + rewrite lookup_insert_ne by done. intros Hq. rewrite (Hflag j q Hq). apply bool_decide_ext. set_solver.
  - intros j q. rewrite <- touch_app. unfold touch. intros Hq. apply list_elem_of_fmap in Hq as ([k r] & E & Hr). destruct (Hcore k r Hr) as (v & f & g' & Hv & Hf & Er). cbn [fst] in E.
    case_decide; injection E as -> ->; [|by exists v, f, g']. exists v, f, (fun x => g (g' x)). by rewrite Er.
  - intros j. rewrite touch_fst. apply Htree.
  - by rewrite touch_fst.
Qed.

Lemma inv_fail s F D W T L u i : inv s F D W T L -> un_ipo u = Some i -> i ∈ F -> un_error u <> 0 ->
  i ∈ elems (io_hist_tree s) ++ io_hist_list s -> i ∉ trim_list s ->
  exists u' s' T' L', complete_ipo o u s = Some (u', s') /\ inv s' (F ∖ {[i]}) ({[i]} ∪ D) W T' L'.
Proof.
  intros [Hok Hfr Hbi Hfl Hflag Hfail Hcore Htree Hlist] Hu Hi He Hin Ht. rewrite (ok_tree _ _ _ Hok), (ok_list _ _ _ Hok), <- fmap_app in Hin. apply id_entry in Hin as [p Hp].
  destruct (unlog_ok o u i p s T L Hok Hbi Hu Hp Ht) as (s' & E & Hok' & Hpc & Hfr' & Hbi' & _). unfold complete_ipo. rewrite Hu.
  rewrite (proj2 (Z.eqb_neq _ _) He). cbn [negb]. exists (drop_ipo u), s', (without i T), (without i L). split; [done|].
  assert (Hw : forall (X : list entry) a, a ∈ without i X <-> a.1 <> i /\ a ∈ X) by (intros X a; unfold without; by rewrite list_elem_of_filter).
  split; try done.
  - congruence.
  - intros j Hj. rewrite Hpc, lookup_delete_ne by set_solver. apply Hfl. set_solver.
  - intros j q. rewrite Hpc. intros Hq. apply lookup_delete_Some in Hq as [Hne Hq]. rewrite (Hflag j q Hq). apply bool_decide_ext. set_solver.
  - intros j Hj. apply elem_of_union in Hj as [->%elem_of_singleton|Hj]; [|by apply Hfail]. rewrite <- Hfr. apply (live_old _ _ _ _ Hok), Hfl, Hi.
  - intros j q Hq. apply (Hcore j q). rewrite elem_of_app, !Hw in *. tauto.
  - intros j. rewrite without_fst, list_elem_of_filter, Htree. unfold survives. split.
    + intros (Hne & v & f & ? & ? & ? & ? & ?). exists v, f. split_and!; try done. set_solver.
    + intros (v & f & ? & ? & ? & Hd & ?). split; [set_solver|]. exists v, f. split_and!; try done. set_solver.
  - rewrite without_fst, Hlist. unfold listed. rewrite list_filter_filter. apply filter_agree. intros j _. set_solver.
Qed.

Lemma reach_inv s F D W : reach s F D W -> exists T L, inv s F D W T L.
Proof.
  induction 1 as [|s F D W u f u' s' H (T & L & IH) Hf Hw E|s F D W u i u' s' H (T & L & IH) Hu Hi He E|s F D W u i u' s' H (T & L & IH) Hu Hi He Hin Ht E].
  - do 2 eexists. apply inv_start.
  - destruct (inv_write _ _ _ _ _ _ _ _ IH Hf Hw) as (u2 & s2 & T' & L' & E2 & _ & Hi). simplify_eq. by do 2 eexists.
  - destruct (inv_done _ _ _ _ _ _ _ _ IH Hu Hi He) as (s2 & T' & L' & E2 & Hi2). simplify_eq. by do 2 eexists.
  - destruct (inv_fail _ _ _ _ _ _ _ _ IH Hu Hi He Hin Ht) as (u2 & s2 & T' & L' & E2 & Hi2). simplify_eq. by do 2 eexists.
Qed.

(** ** All reads *)

(** [get_next_verify] until it has nothing, each time for a unit without a file. *)
Fixpoint read_back (fuel : nat) (opens : Z -> bool) (u : unit_) (s : history) : option (list unit_ * history) :=
  match fuel with
  | O => None
  | S fuel =>
      '(r, v, s) ← get_next_verify o opens u s;
      if r =? 0 then '(vs, s) ← read_back fuel opens u s; Some (v :: vs, s) else Some ([], s)
  end.

Definition range (u : unit_) : option Z * Z * Z := (un_file u, un_offset u, un_buflen u).
Definition entry_range (a : entry) : option Z * Z * Z := (Some (ip_file a.2), ip_offset a.2, ip_len a.2).

Lemma read_back_ok opens u : un_file u = None -> (forall f, opens f = true) -> forall n s T L, ok s T L -> (length (T ++ L) < n)%nat ->
  Forall (fun a => isset (ip_flags a.2) IP_F_IN_FLIGHT = false) (T ++ L) ->
  exists vs s', read_back n opens u s = Some (vs, s') /\ range <$> vs = entry_range <$> T ++ L /\ ok s' [] [] /\
    forall i, pieces s' !! i = if decide (i ∈ (T ++ L).*1) then None else pieces s !! i.
Proof.
  intros Hu Ho. induction n as [|n IH]; intros s T L H Hn Hf; [lia|]. cbn [read_back]. pose proof (next_verify_ok o opens u s T L H Hu Ho) as Hv.
  destruct (next_of T L) as [[[[x p] T'] L']|] eqn:E.
  - assert (ETL : T ++ L = (x, p) :: T' ++ L') by (destruct T as [|[] T1], L as [|[] L1]; cbn in E; simplify_eq; done). rewrite ETL in *.
    apply Forall_cons_iff in Hf as [Hp Hf]. cbn in Hp. rewrite Hp in Hv. destruct Hv as (u' & s1 & -> & Er & _ & _ & H1 & Hd). cbn [mbind option_bind Z.eqb]. cbn [length] in Hn.
    destruct (IH s1 T' L' H1) as (vs & s' & -> & Hr & H2 & Hc); [lia|done|]. exists (u' :: vs), s'. split_and!; [done| |done|].
    + cbn [fmap list_fmap]. rewrite <- Hr. f_equal. injection Er as E1 E2 E3 _ _ _. unfold range, entry_range. cbn. congruence.
    + intros i. rewrite Hc, Hd. cbn [fmap list_fmap fst]. destruct (decide (i = x)) as [->|].
      * rewrite lookup_delete_eq. repeat case_decide; set_solver.
      * rewrite lookup_delete_ne by done. apply decide_ext. set_solver.
  - assert (T = [] /\ L = []) as [-> ->] by (destruct T as [|[] T1], L as [|[] L1]; done). rewrite Hv. cbn [mbind option_bind Z.eqb]. exists [], s. split_and!; [done..|].
    intros i. case_decide as Hi; [by apply elem_of_nil in Hi|done].
Qed.
End runs.

Definition in_order (W : list unit_) : list nat -> Prop :=
  StronglySorted (fun i j => forall u v f g, W !! i = Some u -> W !! j = Some v -> un_file u = Some f -> un_file v = Some g -> earlier (piece_of u f) (piece_of v g)).

Lemma inv_in_order o s F D W T L : inv o s F D W T L -> in_order W T.*1.
Proof.
  intros H. pose proof (inv_core _ _ _ _ _ _ _ H) as Hc. pose proof (ok_ordered _ _ _ (inv_ok _ _ _ _ _ _ _ H)) as Ho.
  assert (Hc' : forall a, a ∈ T -> exists u f g, W !! a.1 = Some u /\ un_file u = Some f /\ a.2 = reflag g (piece_of u f)) by (intros [i p] Ha; apply Hc, elem_of_app; by left).
  clear H Hc. unfold in_order. induction Ho as [|a T Ho IH Ha]; cbn; constructor; [apply IH; intros b Hb; apply Hc'; by right|].
  apply Forall_fmap. apply list.Forall_forall. intros b Hb u v f g Hu Hv Hf Hg. pose proof (proj1 (list.Forall_forall _ _) Ha b Hb) as Hab.
  destruct (Hc' a) as (u1 & f1 & g1 & E1 & E2 & E3); [left|]. destruct (Hc' b) as (u2 & f2 & g2 & E4 & E5 & E6); [by right|]. simplify_eq.
  cbn in Hab. rewrite E3, E6 in Hab. exact Hab.
Qed.

Lemma inv_read_back o s F D W T L opens u : inv o s F D W T L -> F = ∅ -> un_file u = None -> (forall f, opens f = true) ->
  exists vs s', read_back o (S (length (T ++ L))) opens u s = Some (vs, s') /\ Some <$> (range <$> vs) = (fun i => range <$> W !! i) <$> (T ++ L).*1 /\
    elems (io_hist_tree s') = [] /\ io_hist_list s' = [] /\ io_hist_len s' = 0.
Proof.
  intros H -> Hu Ho. assert (Hf : Forall (fun a : entry => isset (ip_flags a.2) IP_F_IN_FLIGHT = false) (T ++ L)).
  { apply list.Forall_forall. intros [i p] Hp. cbn. rewrite (inv_flag _ _ _ _ _ _ _ H i p); [by apply bool_decide_eq_false_2|]. apply (entry_live _ _ _ _ _ (inv_ok _ _ _ _ _ _ _ H) Hp). }
  destruct (read_back_ok o opens u Hu Ho _ s T L (inv_ok _ _ _ _ _ _ _ H) (Nat.lt_succ_diag_r _) Hf) as (vs & s' & E & Er & H' & _). exists vs, s'. split_and!; [done| |apply H'..].
  rewrite Er, <- !list_fmap_compose. apply list_fmap_ext. intros k [i p] Hk. apply list_elem_of_lookup_2 in Hk.
  destruct (inv_core _ _ _ _ _ _ _ H i p Hk) as (v & f & g & Hv & Hfv & ->). cbn. rewrite Hv. cbn. unfold range. by rewrite Hfv.
Qed.

(** C13. What is read back is what was written last.  In any run of a job in which
    writes are logged before they are issued and complete in any order, or fail
    while their entry is still in the tree or the list and not marked for a trim
    (a write that is overlapped while in flight and then fails is not covered,
    [overlapped_write_fails]): the next write can always be logged and the
    next such completion handled; the tree holds exactly the writes that did not
    fail and that no later write overlaps, ordered by file and offset, the list
    the writes to files with a random map, in the order they were issued; the
    counter is the number of entries.  Once nothing is in flight and if every file
    opens, [get_next_verify] hands out exactly these, in that order, with their
    ranges, and then reports that there is nothing left. *)
Theorem history_last_writes o s F D W : reach o s F D W ->
  (forall u f, un_file u = Some f -> piece_wf (piece_of u f) -> exists u' s', log_io_piece o u s = Some (u', s') /\ un_ipo u' = Some (length W)) /\
  (forall u i, un_ipo u = Some i -> i ∈ F -> un_error u = 0 \/ i ∈ elems (io_hist_tree s) ++ io_hist_list s /\ i ∉ trim_list s -> is_Some (complete_ipo o u s)) /\
  (forall i, i ∈ elems (io_hist_tree s) <-> survives o W D i) /\ in_order W (elems (io_hist_tree s)) /\
  io_hist_list s = listed o W D /\ io_hist_len s = u64 (Z.of_nat (length (elems (io_hist_tree s) ++ io_hist_list s))) /\
  (F = ∅ -> forall opens u, un_file u = None -> (forall f, opens f = true) ->
     exists vs s', read_back o (S (length (elems (io_hist_tree s) ++ io_hist_list s))) opens u s = Some (vs, s') /\
       Some <$> (range <$> vs) = (fun i => range <$> W !! i) <$> (elems (io_hist_tree s) ++ io_hist_list s) /\
       elems (io_hist_tree s') = [] /\ io_hist_list s' = [] /\ io_hist_len s' = 0).
Proof.
  intros H. apply reach_inv in H as (T & L & H). pose proof (inv_ok _ _ _ _ _ _ _ H) as Hok. rewrite (ok_tree _ _ _ Hok), (ok_list _ _ _ Hok), <- fmap_app. split_and!.
  - intros u f Hf Hw. destruct (inv_write _ _ _ _ _ _ _ _ _ H Hf Hw) as (u' & s' & _ & _ & E & Hi & _). eauto.
  - intros u i Hu Hi He. destruct (decide (un_error u = 0)) as [E|E]; [destruct (inv_done _ _ _ _ _ _ _ _ _ H Hu Hi E) as (s' & _ & _ & -> & _); by eexists|].
    destruct He as [?|[Hin Ht]]; [done|]. destruct (inv_fail _ _ _ _ _ _ _ _ _ H Hu Hi E) as (u' & s' & _ & _ & -> & _); [|done|by eexists].
    by rewrite (ok_tree _ _ _ Hok), (ok_list _ _ _ Hok), <- fmap_app.
  - apply H.
  - by eapply inv_in_order.
  - apply H.
  - rewrite length_fmap. apply Hok.
  - intros HF opens u Hu Ho. rewrite length_fmap. by apply (inv_read_back o s F D W).
Qed.

(** ** Examples *)
Definition sorting : setup := Setup true true (fun _ => false) 0 false 0 4096 (fun _ => 0).
Definition seed : frand_state := init_rand false.
Definition at_ (off len : Z) : unit_ := Unit (Some 1) off len 0 DDIR_WRITE 0 len 0 false false 0 None.
Definition ending (err : Z) (i : nat) : unit_ := Unit (Some 1) 0 0 0 DDIR_WRITE err 0 0 false false 0 (Some i).
Definition reader : unit_ := Unit None 0 0 0 DDIR_READ 0 0 0 false false 0 None.

(** Three writes, the third over the end of the first; all complete. *)
Definition three_writes : option history :=
  s ← snd <$> log_io_piece sorting (at_ 0 8) (blank seed seed);
  s ← snd <$> log_io_piece sorting (at_ 16 8) s;
  s ← snd <$> complete_ipo sorting (ending 0 0) s;
  s ← snd <$> log_io_piece sorting (at_ 4 8) s;
  s ← snd <$> complete_ipo sorting (ending 0 2) s;
  snd <$> complete_ipo sorting (ending 0 1) s.

(** Logs a write, or completes one, in a run [H]. *)
Ltac logged H u := eapply (reach_write _ _ _ _ _ u) in H; [|reflexivity|unfold piece_wf; cbn; lia|vm_compute; reflexivity].
Ltac completed H i := eapply (reach_done _ _ _ _ _ (ending 0 i)) in H; [|reflexivity|set_solver|reflexivity|vm_compute; reflexivity].

Lemma three_reached : exists s F, three_writes = Some s /\ reach sorting s F ∅ [at_ 0 8; at_ 16 8; at_ 4 8] /\ F = ∅.
Proof.
  pose proof (reach_start sorting seed seed) as H. logged H (at_ 0 8). logged H (at_ 16 8). completed H 0%nat. logged H (at_ 4 8). completed H 2%nat. completed H 1%nat.
  do 2 eexists. split; [vm_compute; reflexivity|]. split; [exact H|]. cbn [length app]. set_solver.
Qed.

Lemma history_last_writes_witness : exists s vs s', three_writes = Some s /\ elems (io_hist_tree s) = [2%nat; 1%nat] /\
  read_back sorting 3 (fun _ => true) reader s = Some (vs, s') /\ range <$> vs = [(Some 1, 4, 8); (Some 1, 16, 8)] /\ io_hist_len s' = 0.
Proof.
  destruct three_reached as (s & F & E & H & HF). destruct (history_last_writes sorting s F ∅ _ H) as (_ & _ & _ & _ & _ & _ & Hd).
  assert (Et : (elems (io_hist_tree s), io_hist_list s) = ([2%nat; 1%nat], [])).
  { assert (Ec : (fun s => (elems (io_hist_tree s), io_hist_list s)) <$> three_writes = Some ([2%nat; 1%nat], [])) by (vm_compute; reflexivity).
    rewrite E in Ec. exact (inj Some _ _ Ec). }
  injection Et as Et El. destruct (Hd HF (fun _ => true) reader eq_refl (fun _ => eq_refl)) as (vs & s' & Ed & Er & _ & _ & Hl). rewrite Et, El in *.
  exists s, vs, s'. split_and!; [done..| |done]. apply (inj (fmap Some)). rewrite Er. reflexivity.
Defined.

(** A write that is overlapped while in flight stays marked as in the tree; if it
    then fails, [unlog_io_piece] removes a node that is not there. *)
Example overlapped_write_fails : (
  s ← snd <$> log_io_piece sorting (at_ 0 8) (blank seed seed);
  s ← snd <$> log_io_piece sorting (at_ 4 8) s;
  Some (bool_decide (elems (io_hist_tree s) = [1%nat]), isset (default 0 (ip_flags <$> pieces s !! 0%nat)) IP_F_ONRB, complete_ipo sorting (ending 5 0) s)) =
  Some (true, true, None).
Proof. vm_compute. reflexivity. Qed.

(** Every write is also to be trimmed. *)
Definition trimming : setup := Setup true true (fun _ => false) 100 false 0 4096 (fun _ => 0).

(** A failed write is released but stays on the trim list. *)
Example failed_write_trimmed : (
  s ← snd <$> log_io_piece trimming (at_ 0 8) (blank seed seed);
  s ← snd <$> complete_ipo trimming (ending 5 0) s;
  Some (trim_list s, pieces s !! 0%nat, get_next_trim trimming (fun _ => true) reader s)) = Some ([0%nat], None, None).
Proof. vm_compute. reflexivity. Qed.

(** A write in flight can be chosen for a trim, which releases its entry; the
    completion then writes to it. *)
Example trimmed_in_flight : (
  s ← snd <$> log_io_piece trimming (at_ 0 8) (blank seed seed);
  '(b, u, s) ← get_next_trim trimming (fun _ => true) reader s;
  Some (b, range u, pieces s !! 0%nat, complete_ipo trimming (ending 0 0) s)) = Some (true, (Some 1, 0, 8), None, None).
Proof. vm_compute. reflexivity. Qed.

(** A file that cannot be opened: the entry has left the history but is neither
    released nor taken off the trim list. *)
Example unopened_leaks : (
  s ← snd <$> log_io_piece trimming (at_ 0 8) (blank seed seed);
  s ← snd <$> complete_ipo trimming (ending 0 0) s;
  '(r, _, s) ← get_next_verify trimming (fun _ => false) reader s;
  Some (r, elems (io_hist_tree s), bool_decide (is_Some (pieces s !! 0%nat)), trim_list s)) = Some (1, [], true, [0%nat]).
Proof. vm_compute. reflexivity. Qed.
