(* ===== verification/StatWire.v ===== *)
(** * Statistics on the wire: [server.c], [client.c]

    At the end of a job the server sends its statistics, and during the run its
    progress, to the client.  As for the options, the code is one assignment per
    field and the model a table of lines for each side, over the structures and
    byte orders of [Cconv].  The client converts in place: source and destination
    are the same memory, so that a line that names [dst] reads what has arrived.
    The members of arrays and of nested structures are fields of their own. *)
From Stdlib Require Import String QArith.
From stdpp Require Import strings.
From S2P Require Import Prelude Ieee754 Cconv CconvTrip SteadyState.

#[local] Open Scope string_scope.
#[local] Open Scope list_scope.
#[local] Open Scope Z_scope.

Definition fio_swap16 (val : Z) : Z := Z.lor (shl 16 val 8) (Z.shiftr val 8).
Definition cpu_to_le16 (big : bool) (x : Z) : Z := if big then fio_swap16 x else x.
Definition le16_to_cpu (big : bool) (x : Z) : Z := if big then fio_swap16 x else x.

Definition sub (f : string) (i : nat) : string := String.append f match i with O => "[0]" | S O => "[1]" | _ => "[2]" end.
Definition for_dirs {A} (g : nat -> list A) : list A := g 0%nat ++ g 1%nat ++ g 2%nat.

(** ** The server *)
Definition io_stat_net (p : string) : list net_line :=
  [N64 (String.append p ".max_val") FromO; N64 (String.append p ".min_val") FromO; N64 (String.append p ".samples") FromO; NFp (String.append p ".mean"); NFp (String.append p ".S")].

Definition gs_net : list net_line :=
  for_dirs (fun i => [N64 (sub "max_run" i) FromO; N64 (sub "min_run" i) FromO; N64 (sub "max_bw" i) FromO; N64 (sub "min_bw" i) FromO;
    N64 (sub "iobytes" i) FromO; N64 (sub "agg" i) FromO]) ++
  [N32 "kb_base" FromO; N32 "unit_base" FromO; N32 "groupid" FromO; N32 "unified_rw_rep" FromO; N32 "sig_figs" FromO].

(** The lines up to [continue_on_error], those up to the block infos, and the rest. *)
Definition ts_net1 : list net_line :=
  [N32 "error" FromO; N32 "thread_number" FromO; N32 "groupid" FromO; N32 "pid" FromO; N32 "members" FromO; N32 "unified_rw_rep" FromO] ++
  for_dirs (fun i => io_stat_net (sub "clat_stat" i) ++ io_stat_net (sub "slat_stat" i) ++ io_stat_net (sub "lat_stat" i) ++
    io_stat_net (sub "bw_stat" i) ++ io_stat_net (sub "iops_stat" i)) ++
  [N64 "usr_time" FromO; N64 "sys_time" FromO; N64 "ctx" FromO; N64 "minf" FromO; N64 "majf" FromO; N32 "clat_percentiles" FromO;
   N32 "lat_percentiles" FromO; N64 "percentile_precision" FromO; NFps "percentile_list"; N32s "io_u_map"; N32s "io_u_submit"; N32s "io_u_complete";
   N32s "io_u_lat_n"; N32s "io_u_lat_u"; N32s "io_u_lat_m"] ++
  for_dirs (fun i => [N32s (sub "io_u_plat" i)]) ++
  for_dirs (fun i => [N64 (sub "total_io_u" i) FromO; N64 (sub "short_io_u" i) FromO; N64 (sub "drop_io_u" i) FromO]) ++
  [N64 "total_submit" FromO; N64 "total_complete" FromO] ++
  for_dirs (fun i => [N64 (sub "io_bytes" i) FromO; N64 (sub "runtime" i) FromO]) ++ [N64 "total_run_time" FromO].
Definition ts_net2 : list net_line :=
  [N64 "total_err_count" FromO; N32 "first_error" FromO; N32 "kb_base" FromO; N32 "unit_base" FromO; N32 "latency_depth" FromO;
   N64 "latency_target" FromO; N64 "latency_window" FromO; NFp "latency_percentile"; N32 "sig_figs" FromO; N64 "nr_block_infos" FromO].
Definition ts_net3 : list net_line :=
  [N64 "ss_dur" FromO; N32 "ss_state" FromO; N32 "ss_head" FromO; NFp "ss_limit"; NFp "ss_slope"; NFp "ss_deviation"; NFp "ss_criterion"].

Definition MAX_NR_BLOCK_INFOS : nat := 8192.
Definition FIO_JOBNAME_SIZE : nat := 128.
Definition FIO_VERROR_SIZE : nat := 128.
Definition FIO_JOBDESC_SIZE : nat := 256.

(** [strncpy] of at most [n - 1] characters into [n] zeroed bytes. *)
Definition strncpy_zeroed (n : nat) (src : list Z) : list Z := let s := take (n - 1) (c_text src) in (s ++ replicate (n - length s) 0).

(** The payload: the two structures and the rings after them. *)
Record ts_pdu := TsPdu { pdu_ts : pack; pdu_rs : pack; pdu_rings : list Z }.

(** A zeroed structure; only the sizes of fields that lines fill in part matter. *)
Definition zeroed : pack := fun f =>
  replicate (if String.eqb f "percentile_list" then 320 else if String.eqb f "block_infos" then 4 * MAX_NR_BLOCK_INFOS else 16)%nat 0.

Definition ints (v : val) : option (list Z) := match v with VInts l => Some l | _ => None end.
Definition int (v : val) : option Z := match v with VInt x => Some x | _ => None end.
Definition bytes (v : val) : option (list Z) := match v with VMem b => Some b | _ => None end.

Section host.
Context (big : bool).

(** The loop runs to the count as it has been stored for the wire. *)
Definition send_infos (ts : opts) (top : pack) : option pack :=
  l ← ints (ts "block_infos");
  let n := get_word big (top "nr_block_infos") in
  if n <=? Z.of_nat MAX_NR_BLOCK_INFOS then
    let n := Z.to_nat n in
    Some (upd top "block_infos" ((take n l ≫= fun x => put_word big 4 (cpu_to_le32 big (u32 x))) ++ drop (4 * n) (top "block_infos")))
  else None.

Definition send_rings (ts : opts) : option (list Z) :=
  state ← int (ts "ss_state");
  if Z.land state FIO_SS_DATA =? 0 then Some [] else
  dur ← int (ts "ss_dur"); iops ← ints (ts "ss_iops_data"); bw ← ints (ts "ss_bw_data");
  let n := Z.to_nat dur in
  if (n <=? length iops)%nat && (n <=? length bw)%nat then
    let put x := put_word big 8 (cpu_to_le64 big (u64 x)) in Some ((take n iops ≫= put) ++ (take n bw ≫= put))
  else None.

Definition send_name (f : string) (n : nat) (ts : opts) (top : pack) : option pack :=
  s ← bytes (ts f); Some (upd top f (strncpy_zeroed n s)).

Definition fio_server_send_ts (ts rs : opts) : option ts_pdu :=
  top ← send_name "name" FIO_JOBNAME_SIZE ts zeroed;
  top ← send_name "verror" FIO_VERROR_SIZE ts top;
  top ← send_name "description" FIO_JOBDESC_SIZE ts top;
  top ← run_net big ts_net1 top ts;
  c ← int (ts "continue_on_error");
  let top := upd top "continue_on_error" (put_word big 2 (cpu_to_le16 big (u16 c))) in
  top ← run_net big ts_net2 top ts;
  top ← send_infos ts top;
  top ← run_net big ts_net3 top ts;
  gs ← run_net big gs_net zeroed rs;
  rings ← send_rings ts;
  Some (TsPdu top gs rings).
End host.

(** ** The client *)
Definition io_stat_cpu (p : string) : list cpu_line :=
  [C64 (String.append p ".max_val"); C64 (String.append p ".min_val"); C64 (String.append p ".samples"); CFp (String.append p ".mean"); CFp (String.append p ".S")].

Definition gs_cpu : list cpu_line :=
  for_dirs (fun i => [C64 (sub "max_run" i); C64 (sub "min_run" i); C64 (sub "max_bw" i); C64 (sub "min_bw" i); C64 (sub "iobytes" i); C64 (sub "agg" i)]) ++
  [C32 "kb_base"; C32 "unit_base"; C32 "sig_figs"; C32 "groupid"; C32 "unified_rw_rep"].

Definition ts_cpu1 : list cpu_line :=
  [C32 "error"; C32 "thread_number"; C32 "groupid"; C32 "pid"; C32 "members"; C32 "unified_rw_rep"] ++
  for_dirs (fun i => io_stat_cpu (sub "clat_stat" i) ++ io_stat_cpu (sub "slat_stat" i) ++ io_stat_cpu (sub "lat_stat" i) ++
    io_stat_cpu (sub "bw_stat" i) ++ io_stat_cpu (sub "iops_stat" i)) ++
  [C64 "usr_time"; C64 "sys_time"; C64 "ctx"; C64 "minf"; C64 "majf"; C32 "clat_percentiles"; C32 "lat_percentiles"; C64 "percentile_precision";
   CFps "percentile_list"; C32s "io_u_map"; C32s "io_u_submit"; C32s "io_u_complete"; C32s "io_u_lat_n"; C32s "io_u_lat_u"; C32s "io_u_lat_m"] ++
  for_dirs (fun i => [C32s (sub "io_u_plat" i)]) ++
  for_dirs (fun i => [C64 (sub "total_io_u" i); C64 (sub "short_io_u" i); C64 (sub "drop_io_u" i)]) ++
  [C64 "total_submit"; C64 "total_complete"] ++ for_dirs (fun i => [C64 (sub "io_bytes" i); C64 (sub "runtime" i)]) ++ [C64 "total_run_time"].
Definition ts_cpu2 : list cpu_line :=
  [C64 "total_err_count"; C32 "first_error"; C32 "kb_base"; C32 "unit_base"; C32 "sig_figs"; C32 "latency_depth"; C64 "latency_target";
   C64 "latency_window"; CFp "latency_percentile"; C64 "nr_block_infos"].
Definition ts_cpu3 : list cpu_line :=
  [C64 "ss_dur"; C32 "ss_state"; C32 "ss_head"; CFp "ss_limit"; CFp "ss_slope"; CFp "ss_deviation"; CFp "ss_criterion"].

Section client.
Context (big : bool).

Definition recv_infos (top : pack) (o : opts) : option opts :=
  n ← int (o "nr_block_infos");
  if n <=? Z.of_nat MAX_NR_BLOCK_INFOS then
    let n := Z.to_nat n in Some (upd o "block_infos" (VInts (get32 big <$> pieces n 4 (take (4 * n) (top "block_infos")))))
  else None.

(** The rings lie behind the structures, the second one [ss_dur] words further. *)
Definition recv_rings (rings : list Z) (o : opts) : option opts :=
  state ← int (o "ss_state");
  if Z.land state FIO_SS_DATA =? 0 then Some o else
  dur ← int (o "ss_dur");
  let n := Z.to_nat dur in
  if (16 * n <=? length rings)%nat then
    Some (upd (upd o "ss_iops_data" (VInts (get64 big <$> pieces n 8 (take (8 * n) rings))))
      "ss_bw_data" (VInts (get64 big <$> pieces n 8 (take (8 * n) (drop (8 * n) rings)))))
  else None.

(** The characters of names need no conversion. *)
Definition convert_ts (p : ts_pdu) : option opts :=
  let top := pdu_ts p in
  let o : opts := fun f => VMem (top f) in
  let o := run_cpu big ts_cpu1 o top in
  let o := upd o "continue_on_error" (VInt (le16_to_cpu big (get_word big (top "continue_on_error")))) in
  let o := run_cpu big ts_cpu2 o top in
  o ← recv_infos top o;
  recv_rings (pdu_rings p) (run_cpu big ts_cpu3 o top).

Definition convert_gs (p : pack) : opts := run_cpu big gs_cpu (fun f => VMem (p f)) p.
End client.

(** ** Progress and disks *)
Definition eta_net : list net_line :=
  [N32 "nr_running" FromTop; N32 "nr_ramp" FromTop; N32 "nr_pending" FromTop; N32 "nr_setting_up" FromTop; N32 "files_open" FromTop] ++
  for_dirs (fun i => [N64 (sub "m_rate" i) FromTop; N64 (sub "t_rate" i) FromTop; N32 (sub "m_iops" i) FromTop; N32 (sub "t_iops" i) FromTop;
    N64 (sub "rate" i) FromTop; N32 (sub "iops" i) FromTop]) ++
  [N64 "elapsed_sec" FromTop; N64 "eta_sec" FromTop; N32 "nr_threads" FromTop; N32 "is_pow2" FromTop; N32 "unit_base" FromTop].
Definition eta_cpu : list cpu_line :=
  [C32 "nr_running"; C32 "nr_ramp"; C32 "nr_pending"; C32 "nr_setting_up"; C32 "files_open"] ++
  for_dirs (fun i => [C64 (sub "m_rate" i); C64 (sub "t_rate" i); C32 (sub "m_iops" i); C32 (sub "t_iops" i); C64 (sub "rate" i); C32 (sub "iops" i)]) ++
  [C64 "elapsed_sec"; C64 "eta_sec"; C32 "nr_threads"; C32 "is_pow2"; C32 "unit_base"; C32 "sig_figs"].
(** In place on both sides: the answer of [handle_send_eta_cmd], and what the
    client makes of it. *)
Definition handle_send_eta_cmd (big : bool) (je : pack) : option pack := run_net big eta_net je (fun _ => VInt 0).
Definition convert_jobs_eta (big : bool) (je : pack) : opts := run_cpu big eta_cpu (fun f => VMem (je f)) je.

Definition for_two {A} (g : nat -> list A) : list A := g 0%nat ++ g 1%nat.
Definition agg_net : list net_line :=
  for_two (fun i => [N64 (sub "ios" i) FromO; N64 (sub "merges" i) FromO; N64 (sub "sectors" i) FromO; N64 (sub "ticks" i) FromO]) ++
  [N64 "io_ticks" FromO; N64 "time_in_queue" FromO; N32 "slavecount" FromO; NFp "max_util"].
Definition agg_cpu : list cpu_line :=
  for_two (fun i => [C64 (sub "ios" i); C64 (sub "merges" i); C64 (sub "sectors" i); C64 (sub "ticks" i)]) ++
  [C64 "io_ticks"; C64 "time_in_queue"; C32 "slavecount"; CFp "max_util"].
Definition dus_net : list net_line :=
  for_two (fun i => [N64 (sub "ios" i) FromO; N64 (sub "merges" i) FromO; N64 (sub "sectors" i) FromO; N64 (sub "ticks" i) FromO]) ++
  [N64 "io_ticks" FromO; N64 "time_in_queue" FromO; N64 "msec" FromO].
Definition dus_cpu : list cpu_line :=
  for_two (fun i => [C64 (sub "ios" i); C64 (sub "merges" i); C64 (sub "sectors" i); C64 (sub "ticks" i)]) ++
  [C64 "io_ticks"; C64 "time_in_queue"; C64 "msec"].
Definition FIO_DU_NAME_SZ : nat := 64.

(** One command per disk; the structure is the same for all of them. *)
Definition send_du (big : bool) (dus agg : opts) (top : pack * pack) : option (pack * pack) :=
  s ← bytes (dus "name");
  d ← run_net big dus_net (upd top.1 "name" (strncpy_zeroed FIO_DU_NAME_SZ s)) dus;
  a ← run_net big agg_net top.2 agg;
  Some (d, a).
Fixpoint fio_server_send_du (big : bool) (disks : list (opts * opts)) (top : pack * pack) : option (list (pack * pack)) :=
  match disks with
  | [] => Some []
  | (dus, agg) :: disks => top ← send_du big dus agg top; r ← fio_server_send_du big disks top; Some (top :: r)
  end.
Definition convert_dus (big : bool) (dus : pack) : opts := run_cpu big dus_cpu (fun f => VMem (dus f)) dus.
Definition convert_agg (big : bool) (agg : pack) : opts := run_cpu big agg_cpu (fun f => VMem (agg f)) agg.

(** The sum of the progress of several servers; [run_str], which has room for
    every job, is the last one's. *)
Definition eta_sums : list (string * Z) :=
  [("nr_running", 32); ("nr_ramp", 32); ("nr_pending", 32); ("nr_setting_up", 32); ("files_open", 32)] ++
  for_dirs (fun i => [(sub "m_rate" i, 64); (sub "t_rate" i, 64); (sub "m_iops" i, 32); (sub "t_iops" i, 32); (sub "rate" i, 64); (sub "iops" i, 32)]) ++
  [("elapsed_sec", 64); ("nr_threads", 32)].
Fixpoint sum_width (l : list (string * Z)) (f : string) : option Z :=
  match l with [] => None | (g, w) :: l => if String.eqb g f then Some w else sum_width l f end.

Definition fio_client_sum_jobs_eta (dst je : (string -> Z) * list Z) : (string -> Z) * list Z :=
  (fun f => match sum_width eta_sums f with
            | Some w => wrap w (dst.1 f + je.1 f)
            | None => if String.eqb f "eta_sec" then if dst.1 f <? je.1 f then je.1 f else dst.1 f else dst.1 f
            end,
   c_text je.2 ++ [0] ++ drop (S (length (c_text je.2))) dst.2).
