(* ===== verification/StatTrip.v ===== *)
(** * Statistics survive the wire

    What the server sends of the statistics of a job arrives at the client,
    whatever the byte orders of the two, except that a big-endian server counts
    its block infos wrong; and what is not sent. *)
From Stdlib Require Import String QArith.
From stdpp Require Import strings.
From S2P Require Import Prelude Ieee754 Cconv CconvTrip SteadyState StatWire.

#[local] Open Scope string_scope.
#[local] Open Scope list_scope.
#[local] Open Scope Z_scope.

#[local] Instance source_eq_dec : EqDecision source.
Proof. solve_decision. Defined.
#[local] Instance net_line_eq_dec : EqDecision net_line.
Proof. solve_decision. Defined.
#[local] Instance cpu_line_eq_dec : EqDecision cpu_line.
Proof. solve_decision. Defined.

(** ** Sixteen bits *)
Lemma swap16_bytes x : uint 16 x -> le_bytes 2 (fio_swap16 x) = rev (le_bytes 2 x).
Proof.
  intros Hx. cbn [le_bytes rev app]. unfold fio_swap16. repeat apply cons_ext; [byte_bits..|done];
    repeat match goal with |- context [Z.testbit x ?k] => rewrite (uint_testbit_high 16 x k) by (done || lia) end; rewrite ?orb_false_r; reflexivity.
Qed.
Lemma swap16_uint x : uint 16 x -> uint 16 (fio_swap16 x).
Proof. intros Hx. unfold fio_swap16. apply lor_uint; [lia|by apply shl_uint|by apply shiftr_uint]. Qed.
Lemma put_net16 big x : uint 16 x -> put_word big 2 (cpu_to_le16 big x) = le_bytes 2 x.
Proof. intros Hx. unfold put_word, cpu_to_le16. destruct big; [|done]. by rewrite swap16_bytes, rev_involutive. Qed.
Lemma get_cpu16 big x : uint 16 x -> le16_to_cpu big (get_word big (le_bytes 2 x)) = x.
Proof.
  intros Hx. unfold get_word, le16_to_cpu. destruct big; [|by apply (le_val_uint 2 16)].
  pose proof (swap16_uint x Hx) as Hs. rewrite <- swap16_bytes, (le_val_uint 2 16 (fio_swap16 x)) by done.
  rewrite <- (le_val_uint 2 16 (fio_swap16 (fio_swap16 x))) by (done || by apply swap16_uint).
  by rewrite !swap16_bytes, rev_involutive, (le_val_uint 2 16).
Qed.

(** ** Tables *)
Definition plain (l : net_line) : bool := taken l && match l with NStr _ => false | _ => true end.

(** A table that is sent from [o] and the table that reads it. *)
Record pair_ok (nl : list net_line) (cl : list cpu_line) : Prop := {
  pair_net : NoDup (net_field <$> nl);
  pair_cpu : NoDup (cpu_field <$> cl);
  pair_read : Forall (fun l => partner l ∈ cl /\ plain l = true) nl;
  pair_back : Forall (fun f => f ∈ net_field <$> nl) (cpu_field <$> cl) }.

Lemma gs_pair : pair_ok gs_net gs_cpu.
Proof. split; decided. Qed.
Lemma ts_pair1 : pair_ok ts_net1 ts_cpu1.
Proof. split; decided. Qed.
Lemma ts_pair2 : pair_ok ts_net2 ts_cpu2.
Proof. split; decided. Qed.
Lemma ts_pair3 : pair_ok ts_net3 ts_cpu3.
Proof. split; decided. Qed.
Lemma agg_pair : pair_ok agg_net agg_cpu.
Proof. split; decided. Qed.
Lemma dus_pair : pair_ok dus_net dus_cpu.
Proof. split; decided. Qed.

(** What a table has stored in [top] for [o]. *)
Definition sent (a : bool) (nl : list net_line) (o : opts) (top : pack) : Prop :=
  exists old, Forall (room_ok old o) nl /\ forall l, l ∈ nl -> net_bytes a old o l = Some (top (net_field l)).

Lemma sent_agree a nl o top top' : sent a nl o top -> (forall f, f ∈ net_field <$> nl -> top' f = top f) -> sent a nl o top'.
Proof. intros (old & Hr & H) Hf. exists old. split; [done|]. intros l Hl. rewrite Hf by (by apply list_elem_of_fmap_2). by apply H. Qed.

Lemma table_sent a nl cl top o : pair_ok nl cl -> Forall (field_ok o) nl -> Forall (room_ok top o) nl ->
  exists top', run_net a nl top o = Some top' /\ sent a nl o top' /\ forall f, f ∉ net_field <$> nl -> top' f = top f.
Proof.
  intros Hp Ho Hr. rewrite list.Forall_forall in Ho. pose proof Hr as Hr'. rewrite list.Forall_forall in Hr'.
  destruct (run_net_ok a o nl top (pair_net _ _ Hp)) as (top' & E & Hl & Hf); [intros l Hl; by apply line_written; auto|].
  exists top'. split_and!; [done| |done]. exists top. by split.
Qed.

Definition received (nl : list net_line) (o o' : opts) : Prop := forall l, l ∈ nl -> arrives (o (net_field l)) (o' (net_field l)).

Lemma table_received a b nl cl top o o0 : pair_ok nl cl -> Forall (field_ok o) nl -> sent a nl o top ->
  received nl o (run_cpu b cl o0 top) /\ forall f, f ∉ net_field <$> nl -> run_cpu b cl o0 top f = o0 f.
Proof.
  intros Hp Ho (old & Hr & Hs). destruct Hp as [Hn Hc Hread Hback]. rewrite list.Forall_forall in Ho, Hr, Hread. rewrite list.Forall_forall in Hback.
  destruct (run_cpu_ok b top cl o0 Hc) as [Hv Hf]. split.
  - intros l Hl. destruct (Hread l Hl) as [Hin Hpl]. specialize (Hv _ Hin). rewrite partner_field in Hv. rewrite Hv. unfold plain in Hpl. apply andb_true_iff in Hpl as [Ht Hns].
    apply (line_arrives a b old); auto. intros f ->. done.
  - intros f Hnf. apply Hf. intros Hin. by apply Hnf, Hback.
Qed.

Lemma received_agree nl o o' o'' : received nl o o' -> (forall f, f ∈ net_field <$> nl -> o'' f = o' f) -> received nl o o''.
Proof. intros H Hf l Hl. rewrite Hf by (by apply list_elem_of_fmap_2). by apply H. Qed.

(** ** The statistics of a job *)
Lemma max_infos : Z.of_nat MAX_NR_BLOCK_INFOS = 8192.
Proof. by vm_compute. Qed.
Lemma count_uint n : (n <= MAX_NR_BLOCK_INFOS)%nat -> uint 64 (Z.of_nat n).
Proof. pose proof max_infos. unfold uint. lia. Qed.

Definition ts_net : list net_line := ts_net1 ++ ts_net2 ++ ts_net3.
Definition names : list (string * nat) := [("name", FIO_JOBNAME_SIZE); ("verror", FIO_VERROR_SIZE); ("description", FIO_JOBDESC_SIZE)].

(** Statistics as the structures hold them: every field with its type and width,
    names that end inside their arrays, no more block infos than there is room for
    and, if the rings of the steady state are to be sent, rings of [ss_dur]. *)
Record stats_ok (ts rs : opts) (n : nat) (infos : list Z) : Prop := StatsOk {
  so_lines : Forall (field_ok ts) ts_net;
  so_percentiles : exists l, ts "percentile_list" = VDbls l /\ length l = 20%nat;
  so_names : Forall (fun '(f, size) => exists s, ts f = VMem s /\ (length (c_text s) < size)%nat) names;
  so_continue : exists c, ts "continue_on_error" = VInt c /\ uint 16 c;
  so_count : ts "nr_block_infos" = VInt (Z.of_nat n) /\ (n <= MAX_NR_BLOCK_INFOS)%nat;
  so_infos : ts "block_infos" = VInts infos /\ length infos = MAX_NR_BLOCK_INFOS /\ Forall (uint 32) infos;
  so_rings : exists st dur, ts "ss_state" = VInt st /\ ts "ss_dur" = VInt dur /\
    (Z.land st FIO_SS_DATA <> 0 -> exists li lb, ts "ss_iops_data" = VInts li /\ ts "ss_bw_data" = VInts lb /\
       Z.of_nat (length li) = dur /\ Z.of_nat (length lb) = dur /\ Forall (uint 64) li /\ Forall (uint 64) lb);
  so_group : Forall (field_ok rs) gs_net }.

Lemma apart1 : Forall (fun f => f ∉ (net_field <$> ts_net2) ++ (net_field <$> ts_net3) ++ ["continue_on_error"; "block_infos"; "ss_iops_data"; "ss_bw_data"]) (net_field <$> ts_net1).
Proof. decided. Qed.
Lemma apart2 : Forall (fun f => f ∉ (net_field <$> ts_net3) ++ ["block_infos"; "ss_iops_data"; "ss_bw_data"]) (net_field <$> ts_net2).
Proof. decided. Qed.
Lemma apart3 : Forall (fun f => f ∉ ["ss_iops_data"; "ss_bw_data"]) (net_field <$> ts_net3).
Proof. decided. Qed.
Lemma rooms : Forall (fun l => match l with NFps f => bool_decide (f = "percentile_list") | _ => true end = true) ts_net /\ Forall (fun l => match l with NFps _ => false | _ => true end = true) gs_net.
Proof. split; decided. Qed.

Lemma room_of top ts nl : (forall l, l ∈ nl -> l ∈ ts_net) -> (exists l, ts "percentile_list" = VDbls l /\ length l = 20%nat) -> length (top "percentile_list") = 320%nat ->
  Forall (room_ok top ts) nl.
Proof.
  intros Hin (k & Ek & Hk) Hl. apply list.Forall_forall. intros l Hlin. pose proof (proj1 (list.Forall_forall _ _) (proj1 rooms) l (Hin l Hlin)) as H.
  destruct l; try done. cbn [room_ok] in *. apply bool_decide_eq_true in H as ->. rewrite Ek, Hk. done.
Qed.

Lemma words_put a n w l : (forall x, put_word a n (w (wrap (8 * Z.of_nat n) x)) = le_bytes n (wrap (8 * Z.of_nat n) x)) -> Forall (uint (8 * Z.of_nat n)) l ->
  (l ≫= fun x => put_word a n (w (wrap (8 * Z.of_nat n) x))) = l ≫= le_bytes n.
Proof. intros Hw. induction 1 as [|x l Hx _ IH]; [done|]. cbn [mbind list_bind]. rewrite IH, Hw. by rewrite wrap_small. Qed.

Lemma name_back n s : (0 < n)%nat -> (length (c_text s) < n)%nat -> c_text (strncpy_zeroed n s) = c_text s.
Proof.
  intros Hn Hs. unfold strncpy_zeroed. rewrite take_ge by lia. destruct (n - length (c_text s))%nat as [|k] eqn:E; [lia|]. rewrite text_back; [done|apply text_nonzero].
Qed.

(** What the server has stored. *)
Record stored (a : bool) (ts rs : opts) (n : nat) (infos : list Z) (p : ts_pdu) : Prop := Stored {
  st_ts : sent a ts_net1 ts (pdu_ts p) /\ sent a ts_net2 ts (pdu_ts p) /\ sent a ts_net3 ts (pdu_ts p);
  st_names : Forall (fun '(f, size) => exists s, ts f = VMem s /\ pdu_ts p f = strncpy_zeroed size s) names;
  st_continue : exists c, ts "continue_on_error" = VInt c /\ pdu_ts p "continue_on_error" = le_bytes 2 c;
  st_infos : exists rest, pdu_ts p "block_infos" = (take n infos ≫= le_bytes 4) ++ rest;
  st_rings : send_rings a ts = Some (pdu_rings p);
  st_gs : sent a gs_net rs (pdu_rs p) }.

Lemma in_part1 l : l ∈ ts_net1 -> l ∈ ts_net.
Proof. intros. apply elem_of_app. by left. Qed.
Lemma in_part2 l : l ∈ ts_net2 -> l ∈ ts_net.
Proof. intros. apply elem_of_app. right. apply elem_of_app. by left. Qed.
Lemma in_part3 l : l ∈ ts_net3 -> l ∈ ts_net.
Proof. intros. apply elem_of_app. right. apply elem_of_app. by right. Qed.
Lemma ts_parts (P : net_line -> Prop) : Forall P ts_net -> Forall P ts_net1 /\ Forall P ts_net2 /\ Forall P ts_net3.
Proof. unfold ts_net. rewrite !Forall_app. tauto. Qed.

Lemma rings_ok a ts rs n infos : stats_ok ts rs n infos -> exists rings, send_rings a ts = Some rings /\
  forall st dur li lb, ts "ss_state" = VInt st -> ts "ss_dur" = VInt dur -> Z.land st FIO_SS_DATA <> 0 -> ts "ss_iops_data" = VInts li -> ts "ss_bw_data" = VInts lb ->
    rings = (li ≫= le_bytes 8) ++ (lb ≫= le_bytes 8).
Proof.
  intros H. destruct (so_rings _ _ _ _ H) as (st & dur & Es & Ed & Hr). unfold send_rings. rewrite Es. cbn [int mbind option_bind].
  destruct (Z.eqb_spec (Z.land st FIO_SS_DATA) 0) as [E0|E0]; [eexists; split; [done|]; intros; simplify_eq|].
  destruct (Hr E0) as (li & lb & Ei & Eb & Hi & Hb & Fi & Fb). rewrite Ed, Ei, Eb. cbn [int ints mbind option_bind].
  replace (Z.to_nat dur) with (length li) by lia. assert (El : length lb = length li) by lia.
  rewrite (proj2 (Nat.leb_le _ _)), (proj2 (Nat.leb_le _ _)) by lia. cbn [andb]. eexists. split; [done|]. intros ? ? li' lb' _ _ _ Ei' Eb'. simplify_eq.
  rewrite !take_ge by lia. unfold u64. rewrite !(words_put a 8 (cpu_to_le64 a)); [done|intros; apply put_net64|done|intros; apply put_net64|done].
Qed.

Lemma get_count a x : uint 64 x -> (a = true -> x = 0) -> get_word a (le_bytes 8 x) = x.
Proof. intros Hx Ha. unfold get_word. destruct a; [rewrite (Ha eq_refl); reflexivity|by apply (le_val_uint 8 64)]. Qed.

Lemma infos_sent a ts top n infos : top "nr_block_infos" = le_bytes 8 (Z.of_nat n) -> (n <= MAX_NR_BLOCK_INFOS)%nat -> (a = true -> n = 0%nat) ->
  ts "block_infos" = VInts infos -> Forall (uint 32) infos ->
  send_infos a ts top = Some (upd top "block_infos" ((take n infos ≫= le_bytes 4) ++ drop (4 * n) (top "block_infos"))).
Proof.
  intros Et Hn Ha Ei Hf. unfold send_infos. rewrite Ei. cbn [ints mbind option_bind]. rewrite Et, get_count; [|by apply count_uint|intros H; specialize (Ha H); lia].
  rewrite (proj2 (Z.leb_le _ _)) by lia. rewrite Nat2Z.id. do 3 f_equal.
  unfold u32. apply (words_put a 4 (cpu_to_le32 a)); [intros; apply put_net32|by apply Forall_take].
Qed.

Lemma server_stores a ts rs n infos : stats_ok ts rs n infos -> (a = true -> n = 0%nat) ->
  exists p, fio_server_send_ts a ts rs = Some p /\ stored a ts rs n infos p.
Proof.
  intros H Ha. destruct (ts_parts _ (so_lines _ _ _ _ H)) as (O1 & O2 & O3). pose proof (so_percentiles _ _ _ _ H) as Hper.
  pose proof (so_names _ _ _ _ H) as Hn. unfold names in Hn. rewrite !Forall_cons_iff in Hn. destruct Hn as ((s1 & E1 & L1) & (s2 & E2 & L2) & (s3 & E3 & L3) & _).
  destruct (so_continue _ _ _ _ H) as (c & Ec & Hc). destruct (so_count _ _ _ _ H) as [En Hcnt]. destruct (so_infos _ _ _ _ H) as (Ei & Hli & Hfi).
  destruct (rings_ok a ts rs n infos H) as (rings & Er & _). unfold fio_server_send_ts, send_name. rewrite E1, E2, E3. cbn [bytes mbind option_bind].
  set (top0 := upd (upd (upd zeroed _ _) _ _) _ _).
  destruct (table_sent a ts_net1 ts_cpu1 top0 ts ts_pair1 O1 (room_of top0 ts ts_net1 in_part1 Hper eq_refl)) as (top1 & -> & S1 & F1). cbn [mbind option_bind].
  rewrite Ec. cbn [int mbind option_bind]. rewrite wrap_small, put_net16 by done. set (top1' := upd top1 _ _).
  destruct (table_sent a ts_net2 ts_cpu2 top1' ts ts_pair2 O2) as (top2 & -> & S2 & F2).
  { apply list.Forall_forall. intros l Hl. assert (Hno : match l with NFps _ => false | _ => true end = true) by (revert l Hl; apply list.Forall_forall; decided). by destruct l. }
  cbn [mbind option_bind]. assert (Et : top2 "nr_block_infos" = le_bytes 8 (Z.of_nat n)).
  { destruct S2 as (old & _ & S2). specialize (S2 (N64 "nr_block_infos" FromO) ltac:(decided)). cbn [net_bytes net_field] in S2. rewrite En, put_net64 in S2.
    injection S2 as <-. rewrite wrap_small; [done|by apply count_uint]. }
  rewrite (infos_sent a ts top2 n infos Et Hcnt Ha Ei Hfi). cbn [mbind option_bind]. set (top3 := upd top2 _ _).
  destruct (table_sent a ts_net3 ts_cpu3 top3 ts ts_pair3 O3) as (top4 & -> & S3 & F3).
  { apply list.Forall_forall. intros l Hl. assert (Hno : match l with NFps _ => false | _ => true end = true) by (revert l Hl; apply list.Forall_forall; decided). by destruct l. }
  cbn [mbind option_bind]. destruct (table_sent a gs_net gs_cpu zeroed rs gs_pair (so_group _ _ _ _ H)) as (gs & -> & Sg & _).
  { apply list.Forall_forall. intros l Hl. pose proof (proj1 (list.Forall_forall _ _) (proj2 rooms) l Hl). by destruct l. }
  cbn [mbind option_bind]. rewrite Er. cbn [mbind option_bind]. eexists. split; [done|].
  assert (Hlate : forall f, f ∉ (net_field <$> ts_net2) ++ (net_field <$> ts_net3) ++ ["continue_on_error"; "block_infos"] -> top4 f = top1 f).
  { intros f Hf. rewrite !not_elem_of_app, !not_elem_of_cons in Hf. destruct Hf as (? & ? & ? & ? & _). rewrite F3 by done. unfold top3. rewrite upd_ne by done.
    rewrite F2 by done. unfold top1'. by rewrite upd_ne. }
  split; cbn [pdu_ts pdu_rs pdu_rings]; try done.
  - split_and!; [|apply (sent_agree a _ _ top2 _ S2)|done].
    + apply (sent_agree a _ _ top1 _ S1). intros f Hf. apply Hlate. pose proof (proj1 (list.Forall_forall _ _) apart1 f Hf) as Hd.
      rewrite !not_elem_of_app, !not_elem_of_cons in *. tauto.
    + intros f Hf. pose proof (proj1 (list.Forall_forall _ _) apart2 f Hf) as Hd. rewrite !not_elem_of_app, !not_elem_of_cons in Hd.
      rewrite F3 by tauto. unfold top3. apply upd_ne. intros <-. tauto.
  - repeat constructor; eexists; (split; [done|]); rewrite Hlate by decided; rewrite F1 by decided; reflexivity.
  - exists c. split; [done|]. rewrite F3 by decided. unfold top3. rewrite upd_ne by done. rewrite F2 by decided. unfold top1'. by rewrite upd_eq.
  - eexists. rewrite F3 by decided. unfold top3. by rewrite upd_eq.
Qed.

(** ** What the client has *)
Record stats_arrived (ts rs : opts) (n : nat) (infos : list Z) (o g : opts) : Prop := Arrived {
  ar_fields : received ts_net ts o;
  ar_continue : o "continue_on_error" = ts "continue_on_error";
  ar_names : Forall (fun '(f, _) => exists s b, ts f = VMem s /\ o f = VMem b /\ c_text b = c_text s) names;
  ar_infos : o "block_infos" = VInts (take n infos);
  ar_rings : forall st, ts "ss_state" = VInt st -> Z.land st FIO_SS_DATA <> 0 -> o "ss_iops_data" = ts "ss_iops_data" /\ o "ss_bw_data" = ts "ss_bw_data";
  ar_group : received gs_net rs g }.

Lemma words_back b n w (get : list Z -> Z) l rest : (0 < n)%nat -> (forall x, uint w x -> get (le_bytes n x) = x) -> Forall (uint w) l -> b = (l ≫= le_bytes n) ++ rest ->
  get <$> pieces (length l) n (take (n * length l) b) = l.
Proof. intros Hn Hg Hl ->. rewrite take_app_length' by (rewrite length_words; lia). by apply (pieces_words n w). Qed.

Lemma rings_back b ts rs n infos a rings o : stats_ok ts rs n infos -> send_rings a ts = Some rings ->
  o "ss_state" = ts "ss_state" -> o "ss_dur" = ts "ss_dur" ->
  exists o', recv_rings b rings o = Some o' /\ (forall f, f ∉ ["ss_iops_data"; "ss_bw_data"] -> o' f = o f) /\
    forall st, ts "ss_state" = VInt st -> Z.land st FIO_SS_DATA <> 0 -> o' "ss_iops_data" = ts "ss_iops_data" /\ o' "ss_bw_data" = ts "ss_bw_data".
Proof.
  intros H E Es Ed. destruct (so_rings _ _ _ _ H) as (st & dur & Es' & Ed' & Hr). unfold recv_rings. rewrite Es, Es'. cbn [int mbind option_bind].
  destruct (Z.eqb_spec (Z.land st FIO_SS_DATA) 0) as [E0|E0]; [exists o; split_and!; [done..|]; intros; simplify_eq|].
  destruct (Hr E0) as (li & lb & Ei & Eb & Hi & Hb & Fi & Fb). rewrite Ed, Ed'. cbn [int mbind option_bind]. replace (Z.to_nat dur) with (length li) by lia.
  destruct (rings_ok a ts rs n infos H) as (r & E' & Hrings). rewrite E in E'. injection E' as <-. specialize (Hrings st dur li lb Es' Ed' E0 Ei Eb).
  assert (Ell : length lb = length li) by lia. rewrite (proj2 (Nat.leb_le _ _)) by (rewrite Hrings, length_app, !length_words; lia).
  eexists. split; [done|]. split.
  - intros f Hf. rewrite !not_elem_of_cons in Hf. rewrite !upd_ne by (intros <-; tauto). done.
  - intros _ _ _. rewrite upd_eq, upd_ne, upd_eq by done. rewrite Ei, Eb. split; f_equal.
    + apply (words_back _ 8 64 (get64 b) li (lb ≫= le_bytes 8)); [lia|intros; by apply get_cpu64|done|done].
    + rewrite <- Ell. apply (words_back _ 8 64 (get64 b) lb []); [lia|intros; by apply get_cpu64|done|]. rewrite Hrings, drop_app_length' by (rewrite length_words; lia). by rewrite app_nil_r.
Qed.

Lemma int_arrived nl f w o o' x : received nl o o' -> N64 f w ∈ nl \/ N32 f w ∈ nl -> o f = VInt x -> o' f = VInt x.
Proof.
  intros H Hin E. assert (Ha : arrives (o f) (o' f)) by (destruct Hin as [Hin|Hin]; exact (H _ Hin)). rewrite E in Ha. destruct (o' f); try done. cbn in Ha. by subst.
Qed.

Lemma client_has b a ts rs n infos p : stats_ok ts rs n infos -> stored a ts rs n infos p ->
  exists o, convert_ts b p = Some o /\ stats_arrived ts rs n infos o (convert_gs b (pdu_rs p)).
Proof.
  intros H [(S1 & S2 & S3) Hnames (c & Ec & Hcb) (rest & Hinf) Hring Hgs]. destruct (ts_parts _ (so_lines _ _ _ _ H)) as (O1 & O2 & O3).
  destruct (so_continue _ _ _ _ H) as (c' & Ec' & Hc). rewrite Ec in Ec'. injection Ec' as <-. destruct (so_count _ _ _ _ H) as [En Hcnt]. destruct (so_infos _ _ _ _ H) as (Ei & Hli & Hfi).
  destruct (so_rings _ _ _ _ H) as (st & dur & Est & Edur & _). unfold convert_ts. set (top := pdu_ts p) in *. set (o0 := fun f => VMem (top f)).
  destruct (table_received a b ts_net1 ts_cpu1 top ts o0 ts_pair1 O1 S1) as [R1 F1]. rewrite Hcb, get_cpu16 by done. set (o1 := run_cpu b ts_cpu1 o0 top) in *. set (o1' := upd o1 _ _).
  destruct (table_received a b ts_net2 ts_cpu2 top ts o1' ts_pair2 O2 S2) as [R2 F2]. set (o2 := run_cpu b ts_cpu2 o1' top) in *.
  unfold recv_infos. rewrite (int_arrived ts_net2 "nr_block_infos" FromO ts o2 (Z.of_nat n) R2 ltac:(left; decided) En). cbn [int mbind option_bind].
  rewrite (proj2 (Z.leb_le _ _)) by lia. rewrite Nat2Z.id. cbn [mbind option_bind].
  assert (Hl : length (take n infos) = n) by (rewrite length_take; lia). pose proof (words_back _ 4 32 (get32 b) (take n infos) rest ltac:(lia) (fun x Hx => get_cpu32 b x Hx) (Forall_take _ _ _ Hfi) Hinf) as Hw.
  rewrite Hl in Hw. rewrite Hw. set (o3 := upd o2 _ _).
  destruct (table_received a b ts_net3 ts_cpu3 top ts o3 ts_pair3 O3 S3) as [R3 F3]. set (o4 := run_cpu b ts_cpu3 o3 top) in *.
  destruct (rings_back b ts rs n infos a (pdu_rings p) o4 H Hring) as (o5 & E5 & F5 & Hr5).
  { rewrite Est. apply (int_arrived ts_net3 "ss_state" FromO ts o4 st R3 ltac:(right; decided) Est). }
  { rewrite Edur. apply (int_arrived ts_net3 "ss_dur" FromO ts o4 dur R3 ltac:(left; decided) Edur). }
  exists o5. split; [exact E5|].
  assert (Hlate : forall f, f ∉ (net_field <$> ts_net2) ++ (net_field <$> ts_net3) ++ ["continue_on_error"; "block_infos"; "ss_iops_data"; "ss_bw_data"] -> o5 f = o1 f).
  { intros f Hf. rewrite !not_elem_of_app, !not_elem_of_cons in Hf. destruct Hf as (? & ? & ? & ? & ? & ? & _). rewrite F5 by (rewrite !not_elem_of_cons; split_and!; [done..|apply not_elem_of_nil]).
    rewrite F3 by done. unfold o3. rewrite upd_ne by done. rewrite F2 by done. unfold o1'. by rewrite upd_ne. }
  split; try done.
  - intros l Hl'. unfold ts_net in Hl'. rewrite !elem_of_app in Hl'. destruct Hl' as [Hin|[Hin|Hin]]; pose proof (list_elem_of_fmap_2 net_field _ _ Hin) as Hf.
    + rewrite Hlate; [by apply R1|]. exact (proj1 (list.Forall_forall _ _) apart1 _ Hf).
    + pose proof (proj1 (list.Forall_forall _ _) apart2 _ Hf) as Hd. rewrite !not_elem_of_app, !not_elem_of_cons in Hd. destruct Hd as (? & ? & ? & ? & _).
      rewrite F5 by (rewrite !not_elem_of_cons; split_and!; [done..|apply not_elem_of_nil]). rewrite F3 by done. unfold o3. rewrite upd_ne by done. by apply R2.
    + rewrite F5 by exact (proj1 (list.Forall_forall _ _) apart3 _ Hf). by apply R3.
  - rewrite F5, F3 by decided. unfold o3. rewrite upd_ne, F2 by (done || decided). unfold o1'. by rewrite upd_eq, Ec.
  - pose proof (so_names _ _ _ _ H) as Hn. assert (Hs : forall f k, (f, k) ∈ names -> f ∉ net_field <$> ts_net1 /\ f ∉ (net_field <$> ts_net2) ++ (net_field <$> ts_net3) ++ ["continue_on_error"; "block_infos"; "ss_iops_data"; "ss_bw_data"] /\ (0 < k)%nat).
    { intros f k Hin. revert f k Hin. assert (Hd : Forall (fun a : string * nat => a.1 ∉ net_field <$> ts_net1 /\ a.1 ∉ (net_field <$> ts_net2) ++ (net_field <$> ts_net3) ++ ["continue_on_error"; "block_infos"; "ss_iops_data"; "ss_bw_data"] /\ (0 < a.2)%nat) names) by decided.
      intros f k Hin. exact (proj1 (list.Forall_forall _ _) Hd _ Hin). }
    apply list.Forall_forall. intros [f k] Hin. destruct (Hs f k Hin) as (N1 & N2 & Hk). destruct (proj1 (list.Forall_forall _ _) Hnames _ Hin) as (s & Es & Et).
    destruct (proj1 (list.Forall_forall _ _) Hn _ Hin) as (s' & Es' & Hls). rewrite Es in Es'. injection Es' as <-. exists s, (strncpy_zeroed k s). split_and!; [done| |by apply name_back].
    rewrite Hlate, F1 by done. unfold o0. by rewrite Et.
  - rewrite F5, F3 by decided. unfold o3. by rewrite upd_eq.
  - apply (table_received a b gs_net gs_cpu (pdu_rs p) rs _ gs_pair (so_group _ _ _ _ H) Hgs).
Qed.

(** C31. The statistics of a job survive the wire.  Whatever the byte orders of the
    two hosts, if the statistics are within the sizes of their structures, and, on
    a big-endian server, there are no block infos, the server builds its payload
    without leaving an array, the client converts it without leaving one, and has
    every counter, histogram bucket, percentile and mean that is sent, the names,
    the block infos, the rings of the steady state and the group's statistics. *)
Theorem stats_roundtrip a b ts rs n infos : stats_ok ts rs n infos -> (a = true -> n = 0%nat) ->
  exists p o, fio_server_send_ts a ts rs = Some p /\ convert_ts b p = Some o /\ stats_arrived ts rs n infos o (convert_gs b (pdu_rs p)).
Proof.
  intros H Ha. destruct (server_stores a ts rs n infos H Ha) as (p & E & Hs). destruct (client_has b a ts rs n infos p H Hs) as (o & Eo & Har). by exists p, o.
Qed.

(** ** A big-endian server with block infos runs out of the array *)
Lemma swapped_count n : (0 < n <= MAX_NR_BLOCK_INFOS)%nat -> 8192 < get_word true (le_bytes 8 (Z.of_nat n)).
Proof.
  intros Hn. apply Z.ltb_lt. assert (Hall : forallb (fun n => 8192 <? get_word true (le_bytes 8 (Z.of_nat n))) (seq 1 MAX_NR_BLOCK_INFOS) = true) by (vm_compute; reflexivity).
  rewrite forallb_forall in Hall. apply Hall, in_seq. lia.
Qed.

(** The loop of [fio_server_send_ts] compares with the count it has just converted:
    on a big-endian host any block infos at all make it leave its arrays. *)
Theorem big_server_overruns ts rs n infos : stats_ok ts rs n infos -> (0 < n)%nat -> fio_server_send_ts true ts rs = None.
Proof.
  intros H Hn. destruct (ts_parts _ (so_lines _ _ _ _ H)) as (O1 & O2 & _). destruct (so_count _ _ _ _ H) as [En Hcnt]. destruct (so_infos _ _ _ _ H) as (Ei & _ & _).
  unfold fio_server_send_ts. destruct (send_name "name" _ _ _) as [t0|]; [|done]. cbn [mbind option_bind]. destruct (send_name "verror" _ _ _) as [t1|]; [|done]. cbn [mbind option_bind].
  destruct (send_name "description" _ _ _) as [t2|]; [|done]. cbn [mbind option_bind]. destruct (run_net true ts_net1 t2 ts) as [t3|]; [|done]. cbn [mbind option_bind].
  destruct (int (ts "continue_on_error")); [|done]. cbn [mbind option_bind]. set (t4 := upd t3 _ _).
  destruct (table_sent true ts_net2 ts_cpu2 t4 ts ts_pair2 O2) as (top2 & -> & (old & _ & S2) & _).
  { apply list.Forall_forall. intros l Hl. assert (Hno : match l with NFps _ => false | _ => true end = true) by (revert l Hl; apply list.Forall_forall; decided). by destruct l. }
  cbn [mbind option_bind]. specialize (S2 (N64 "nr_block_infos" FromO) ltac:(decided)). cbn [net_bytes net_field] in S2. rewrite En, put_net64, wrap_small in S2 by (by apply count_uint).
  injection S2 as Et. unfold send_infos. rewrite Ei. cbn [ints mbind option_bind]. rewrite <- Et, max_infos. rewrite (proj2 (Z.leb_gt _ _)) by (apply swapped_count; lia). done.
Qed.

(** What is not in the tables: the statistics of syncs stay with the server. *)
Example sync_stats_not_sent : Forall (fun f => f ∉ net_field <$> ts_net)
  ["sync_stat.max_val"; "sync_stat.min_val"; "sync_stat.samples"; "sync_stat.mean"; "sync_stat.S"; "io_u_sync_plat"; "total_io_u[3]"].
Proof. decided. Qed.

(** ** Progress *)
Definition eta_width (l : net_line) : nat := match l with N64 _ _ => 8 | _ => 4 end.
(** [je] in the memory of a host. *)
Definition eta_image (big : bool) (je : string -> Z) (top : pack) : Prop :=
  (forall l, l ∈ eta_net -> top (net_field l) = put_word big (eta_width l) (je (net_field l)) /\ uint (8 * Z.of_nat (eta_width l)) (je (net_field l))) /\
  top "sig_figs" = put_word big 4 (je "sig_figs") /\ uint 32 (je "sig_figs").

Lemma eta_lines : NoDup (net_field <$> eta_net) /\ NoDup (cpu_field <$> eta_cpu) /\ Forall (fun l => partner l ∈ eta_cpu) eta_net /\
  Forall (fun l => match l with N32 f FromTop | N64 f FromTop => negb (signed f) | _ => false end = true) eta_net.
Proof. split_and!; decided. Qed.

Lemma eta_kind l : l ∈ eta_net -> exists f, signed f = false /\ (l = N32 f FromTop \/ l = N64 f FromTop).
Proof.
  intros Hl. pose proof (proj1 (list.Forall_forall _ _) (proj2 (proj2 (proj2 eta_lines))) l Hl) as Hk. clear Hl.
  destruct l as [f []|f []| | | | | |]; cbn in Hk; try discriminate Hk; apply negb_true_iff in Hk; exists f; tauto.
Qed.

Lemma word_back big n w x : (w = 8 * Z.of_nat n)%Z -> uint w x -> get_word big (put_word big n x) = x.
Proof. intros -> Hx. unfold get_word, put_word. destruct big; rewrite ?rev_involutive; by apply (le_val_uint n (8 * Z.of_nat n)). Qed.

Lemma swap_word x : uint 32 x -> get_word false (put_word true 4 x) = fio_swap32 x.
Proof. intros Hx. unfold get_word, put_word. rewrite <- swap32_bytes. apply (le_val_uint 4 32); [done|by apply swap32_uint]. Qed.

(** The progress report survives the wire, but for the number of significant
    digits, which the server does not convert: from a big-endian server it arrives
    with its bytes swapped. *)
Theorem eta_roundtrip a b je top : eta_image a je top -> exists top', handle_send_eta_cmd a top = Some top' /\
  (forall l, l ∈ eta_net -> convert_jobs_eta b top' (net_field l) = VInt (je (net_field l))) /\
  convert_jobs_eta b top' "sig_figs" = VInt (if a then fio_swap32 (je "sig_figs") else je "sig_figs").
Proof.
  intros (Hi & Hs & Hu). destruct eta_lines as (N1 & N2 & Hp & _). rewrite list.Forall_forall in Hp. unfold handle_send_eta_cmd, convert_jobs_eta.
  destruct (run_net_ok a (fun _ => VInt 0) eta_net top N1) as (top' & E & Hl & Hf).
  { intros l Hl. destruct (eta_kind l Hl) as (f & _ & [-> | ->]); by eexists. }
  exists top'. split; [done|]. destruct (run_cpu_ok b top' eta_cpu (fun f => VMem (top' f)) N2) as [Hv _]. split.
  - intros l Hin. specialize (Hv _ (Hp l Hin)). rewrite partner_field in Hv. rewrite Hv. specialize (Hl l Hin). destruct (Hi l Hin) as [Et Hux]. clear Hv Hi Hp Hf.
    destruct (eta_kind l Hin) as (f & Hk & [-> | ->]); cbn [net_bytes net_field eta_width partner cpu_val] in *; rewrite Hk; rewrite Et in Hl; apply (inj Some) in Hl; rewrite <- Hl; f_equal.
    + rewrite (word_back a 4 32), put_net32 by done. by apply get_cpu32.
    + rewrite (word_back a 8 64), put_net64 by done. by apply get_cpu64.
  - assert (Hin : C32 "sig_figs" ∈ eta_cpu) by decided. specialize (Hv _ Hin). cbn [cpu_field cpu_val] in Hv. rewrite Hv. change (signed "sig_figs") with false. cbv iota. f_equal.
    rewrite Hf, Hs by decided. unfold get32, le32_to_cpu. destruct a, b.
    + by rewrite (word_back true 4 32).
    + by apply swap_word.
    + exact (get_cpu32 true (je "sig_figs") Hu).
    + by rewrite (word_back false 4 32).
Qed.

(** ** Disks *)

(** Every disk of the list arrives, although the payload is filled again and again
    in the same memory. *)
Theorem disks_roundtrip a b disks : forall top,
  Forall (fun '(dus, agg) => Forall (field_ok dus) dus_net /\ Forall (field_ok agg) agg_net /\ exists s, dus "name" = VMem s /\ (length (c_text s) < FIO_DU_NAME_SZ)%nat) disks ->
  exists ps, fio_server_send_du a disks top = Some ps /\
    Forall2 (fun d p => received dus_net d.1 (convert_dus b p.1) /\ received agg_net d.2 (convert_agg b p.2) /\
      exists s c, d.1 "name" = VMem s /\ convert_dus b p.1 "name" = VMem c /\ c_text c = c_text s) disks ps.
Proof.
  assert (Hroom : forall top o nl, nl = dus_net \/ nl = agg_net -> Forall (room_ok top o) nl).
  { intros top o nl Hnl. apply list.Forall_forall. intros l Hl. assert (Hno : match l with NFps _ => false | _ => true end = true).
    { destruct Hnl as [-> | ->]; revert l Hl; apply list.Forall_forall; decided. }
    by destruct l. }
  induction disks as [|[dus agg] disks IH]; intros top H; cbn [fio_server_send_du]; [exists []; split; [done|constructor]|].
  apply Forall_cons_iff in H as [(Hd & Hg & s & Es & Hs) H]. unfold send_du. rewrite Es. cbn [bytes mbind option_bind].
  destruct (table_sent a dus_net dus_cpu (upd top.1 "name" (strncpy_zeroed FIO_DU_NAME_SZ s)) dus dus_pair Hd) as (d & -> & Sd & Fd); [apply Hroom; by left|]. cbn [mbind option_bind].
  destruct (table_sent a agg_net agg_cpu top.2 agg agg_pair Hg) as (g & -> & Sg & _); [apply Hroom; by right|]. cbn [mbind option_bind].
  destruct (IH (d, g) H) as (ps & -> & Hps). exists ((d, g) :: ps). split; [done|]. constructor; [|done]. cbn [fst snd].
  destruct (table_received a b dus_net dus_cpu d dus (fun f => VMem (d f)) dus_pair Hd Sd) as [Rd Fr]. split_and!; [done|by apply (table_received a b agg_net agg_cpu g agg _ agg_pair Hg Sg)|].
  exists s, (strncpy_zeroed FIO_DU_NAME_SZ s). split_and!; [done| |apply name_back; [unfold FIO_DU_NAME_SZ; lia|done]]. unfold convert_dus. rewrite Fr by decided. f_equal. rewrite Fd by decided. apply upd_eq.
Qed.

(** ** A concrete job *)
Definition stat_val (l : net_line) : val :=
  if bool_decide (l = N32 "ss_state" FromO) then VInt FIO_SS_DATA
  else match l with NFps _ => VDbls (replicate 20 (3 # 2)) | _ => sample_val l end.
Definition of_lines (nl : list net_line) : opts := foldr (fun l o => upd o (net_field l) (stat_val l)) (fun _ => VInt 0) nl.

Lemma of_lines_val nl l : NoDup (net_field <$> nl) -> l ∈ nl -> of_lines nl (net_field l) = stat_val l.
Proof.
  unfold of_lines. induction nl as [|k nl IH]; intros Hnd Hl; [by apply elem_of_nil in Hl|]. cbn [foldr fmap list_fmap] in *.
  apply list.NoDup_cons in Hnd as [Hni Hnd]. apply elem_of_cons in Hl as [->|Hl]; [by rewrite upd_eq|].
  rewrite upd_ne; [by apply IH|]. intros E. apply Hni. rewrite E. by apply list_elem_of_fmap_2.
Qed.

Lemma stat_val_ok o l : plain l = true -> o (net_field l) = stat_val l -> match l with NMem _ => false | _ => true end = true -> signed (net_field l) = false -> field_ok o l.
Proof.
  intros Hp E Hm Hs. unfold stat_val in E. destruct (bool_decide_reflect (l = N32 "ss_state" FromO)) as [->|_].
  - eexists. split; [exact E|]. by vm_compute.
  - destruct l as [f []|f []|f|f|f|f|f|f]; try discriminate; cbn [net_field sample_val field_ok] in *; eexists; (split; [exact E|]); rewrite ?Hs.
    1,2: by vm_compute.
    + apply sample_double.
    + repeat constructor; by vm_compute.
    + repeat constructor; by vm_compute.
    + apply Forall_replicate, sample_double.
Qed.

Definition ts_sample : opts :=
  upd (upd (upd (upd (upd (upd (upd (of_lines ts_net) "name" (VMem [106; 111; 98; 0])) "verror" (VMem [0])) "description" (VMem [100; 0; 7]))
    "continue_on_error" (VInt 3)) "block_infos" (VInts (replicate MAX_NR_BLOCK_INFOS 5))) "ss_iops_data" (VInts (replicate 7 100))) "ss_bw_data" (VInts (replicate 7 200)).

Lemma ts_net_kinds : NoDup (net_field <$> ts_net) /\ Forall (fun l => plain l && match l with NMem _ => false | _ => true end && negb (signed (net_field l)) = true) (ts_net ++ gs_net) /\
  Forall (fun f => f ∉ ["name"; "verror"; "description"; "continue_on_error"; "block_infos"; "ss_iops_data"; "ss_bw_data"]) (net_field <$> ts_net) /\ NoDup (net_field <$> gs_net).
Proof. split_and!; decided. Qed.

Lemma line_sample o l : l ∈ ts_net ++ gs_net -> o (net_field l) = stat_val l -> field_ok o l.
Proof.
  intros Hl E. pose proof (proj1 (list.Forall_forall _ _) (proj1 (proj2 ts_net_kinds)) l Hl) as Hk. apply andb_true_iff in Hk as [Hk Hs]. apply andb_true_iff in Hk as [Hp Hm].
  apply negb_true_iff in Hs. by apply stat_val_ok.
Qed.

Lemma ts_sample_val l : l ∈ ts_net -> ts_sample (net_field l) = stat_val l.
Proof.
  intros Hl. destruct ts_net_kinds as (Hnd & _ & Hf & _). pose proof (proj1 (list.Forall_forall _ _) Hf _ (list_elem_of_fmap_2 net_field _ _ Hl)) as Hn.
  rewrite !not_elem_of_cons in Hn. unfold ts_sample. rewrite !upd_ne by (intros E; symmetry in E; tauto). by apply of_lines_val.
Qed.

Lemma ts_sample_ok : stats_ok ts_sample (of_lines gs_net) 7 (replicate MAX_NR_BLOCK_INFOS 5).
Proof.
  split.
  - apply list.Forall_forall. intros l Hl. apply line_sample; [apply elem_of_app; by left|by apply ts_sample_val].
  - exists (replicate 20 (3 # 2)). split; [|done]. exact (ts_sample_val (NFps "percentile_list") ltac:(decided)).
  - repeat constructor; eexists; (split; [reflexivity|]); vm_compute; lia.
  - exists 3. split; [reflexivity|]. by vm_compute.
  - split; [exact (ts_sample_val (N64 "nr_block_infos" FromO) ltac:(decided))|]. apply Nat2Z.inj_le. rewrite max_infos. done.
  - split_and!; [reflexivity|apply length_replicate|]. apply Forall_replicate. by vm_compute.
  - exists FIO_SS_DATA, 7. split_and!; [exact (ts_sample_val (N32 "ss_state" FromO) ltac:(decided))|exact (ts_sample_val (N64 "ss_dur" FromO) ltac:(decided))|].
    intros _. exists (replicate 7 100), (replicate 7 200). split_and!; try reflexivity; apply Forall_replicate; by vm_compute.
  - apply list.Forall_forall. intros l Hl. apply line_sample; [apply elem_of_app; by right|]. apply of_lines_val; [apply ts_net_kinds|done].
Qed.

Lemma stats_roundtrip_witness : stats_ok ts_sample (of_lines gs_net) 7 (replicate MAX_NR_BLOCK_INFOS 5) /\
  exists p o, fio_server_send_ts false ts_sample (of_lines gs_net) = Some p /\ convert_ts true p = Some o /\
    stats_arrived ts_sample (of_lines gs_net) 7 (replicate MAX_NR_BLOCK_INFOS 5) o (convert_gs true (pdu_rs p)).
Proof.
  split; [exact ts_sample_ok|]. exact (stats_roundtrip false true ts_sample (of_lines gs_net) 7 (replicate MAX_NR_BLOCK_INFOS 5) ts_sample_ok (fun H => False_ind _ (diff_false_true H))).
Defined.

Lemma big_server_overruns_witness : fio_server_send_ts true ts_sample (of_lines gs_net) = None.
Proof. exact (big_server_overruns ts_sample (of_lines gs_net) 7 (replicate MAX_NR_BLOCK_INFOS 5) ts_sample_ok (Nat.lt_0_succ 6)). Defined.

(** ** The progress of several servers *)

Lemma foldr_max_swap x y (l : list Z) : foldr Z.max (Z.max x y) l = Z.max y (foldr Z.max x l).
Proof. induction l as [|z l IH]; cbn; lia. Qed.

(** The counters are sums modulo their width and the estimate the largest one, in
    whatever order the servers answer. *)
Lemma sum_eta_correct l : forall dst f,
  (foldl fio_client_sum_jobs_eta dst l).1 f =
  match sum_width eta_sums f with
  | Some w => if bool_decide (l = []) then dst.1 f else wrap w (dst.1 f + foldr Z.add 0 ((fun je => je.1 f) <$> l))
  | None => if String.eqb f "eta_sec" then foldr Z.max (dst.1 f) ((fun je => je.1 f) <$> l) else dst.1 f
  end.
Proof.
  induction l as [|je l IH]; intros dst f; cbn [foldl fmap list_fmap foldr].
  - destruct (sum_width eta_sums f); [done|]. by destruct (String.eqb f "eta_sec").
  - rewrite IH. cbn [fst fio_client_sum_jobs_eta]. destruct (sum_width eta_sums f) as [w|].
    + rewrite (bool_decide_eq_false_2 (je :: l = [])) by done. case_bool_decide as Hl; [subst l; cbn; by rewrite Z.add_0_r|].
      unfold wrap. rewrite Zplus_mod_idemp_l. f_equal. lia.
    + destruct (String.eqb f "eta_sec"); [|done]. rewrite <- foldr_max_swap. f_equal. destruct (Z.ltb_spec (dst.1 f) (je.1 f)); lia.
Qed.
