(* ===== verification/Vstate.v ===== *)
(** * The verify state: [verify.c], [verify-state.h], [io_u.c]

    A job that is interrupted saves which writes had completed: for every file a
    ring of the last [iodepth] offsets, filled by [file_log_write_comp], and the
    number of writes issued.  A later run that only verifies loads the state and
    stops at the first write that may not have completed.  Memory and files are
    lists of bytes, hosts of either byte order; [None] is an access outside of
    memory.  A file system maps names to contents; every name can be opened for
    writing, and a write may stop short. *)
From stdpp Require Import gmap.
From S2P Require Import Prelude Rand Crc ParseNum Cconv StatWire.

(** ** Completions *)
Record wfile := WFile { wf_fileno : Z; first_write : Z; last_write : Z; last_write_comp : option (list Z); last_write_idx : Z }.

Definition file_log_write_comp (iodepth : Z) (f : wfile) (offset bytes : Z) : option wfile :=
  let fw := if (first_write f =? -1ULL) || (offset <? first_write f) then offset else first_write f in
  let lw := if (last_write f =? -1ULL) || (last_write f <? u64 (offset + bytes)) then u64 (offset + bytes) else last_write f in
  match last_write_comp f with
  | None => Some (WFile (wf_fileno f) fw lw None (last_write_idx f))
  | Some c =>
      let idx := last_write_idx f in
      if (0 <=? idx) && (idx <? Z.of_nat (length c)) then
        let next := u32 (idx + 1) in
        Some (WFile (wf_fileno f) fw lw (Some (<[Z.to_nat idx := offset]> c)) (if next =? iodepth then 0 else next))
      else None
  end.

(** [init_file_completion_logging] for a file. *)
Definition with_log (depth : Z) (f : wfile) : wfile :=
  WFile (wf_fileno f) (first_write f) (last_write f) (Some (replicate (Z.to_nat depth) 0)) (last_write_idx f).

(** ** Saving *)
Record vjob := VJob {
  vj_iodepth : Z; vj_nr_files : Z; vj_blocks : Z; vj_issues : Z; vj_random : frand_state; vj_name : list Z; vj_files : list wfile }.

(** The loop of [__fill_file_completions], newest completion first. *)
Fixpoint backwards (n : nat) (iodepth : Z) (c : list Z) (j : Z) : option (list Z) :=
  match n with
  | O => Some []
  | S n =>
      let j := if j =? -1 then iodepth - 1 else j in
      if 0 <=? j then x ← c !! Z.to_nat j; r ← backwards n iodepth c (j - 1); Some (x :: r) else None
  end.

Definition __fill_file_completions (j : vjob) (f : wfile) : option (list (Z * Z)) :=
  match last_write_comp f with
  | None => Some []
  | Some c =>
      let comps := if vj_blocks j <? vj_iodepth j then vj_blocks j else vj_iodepth j in
      l ← backwards (Z.to_nat comps) (vj_iodepth j) c (last_write_idx f - 1);
      Some ((fun x => (wf_fileno f, x)) <$> (l : list Z))
  end.
Fixpoint fill_file_completions (j : vjob) (fs : list wfile) : option (list (Z * Z)) :=
  match fs with
  | [] => Some []
  | f :: fs => a ← __fill_file_completions j f; b ← fill_file_completions j fs; Some (a ++ b)
  end.

Abbreviation files := (gmap (list Z) (list Z)).

Definition IO_LIST_HDR : nat := 152.
Definition IO_LIST_ALL : Z := 0xffffffff.

Section host.
Context (big : bool).

Definition put32 (x : Z) : list Z := put_word big 4 x.
Definition put64 (x : Z) : list Z := put_word big 8 (cpu_to_le64 big x).
Definition word (n off : nat) (b : list Z) : Z := get_word big (take n (drop off b)).

Definition rand_bytes (st : frand_state) : list Z :=
  match st with
  | State64 s => put64 1 ++ put64 (q_s1 s) ++ put64 (q_s2 s) ++ put64 (q_s3 s) ++ put64 (q_s4 s) ++ put64 (q_s5 s) ++ put64 0
  | State32 s => put64 0 ++ put32 (cpu_to_le32 big (t_s1 s)) ++ put32 (cpu_to_le32 big (t_s2 s)) ++ put32 (cpu_to_le32 big (t_s3 s)) ++ put32 0 ++ replicate 32 0
  end.

(** What [get_all_io_list] writes for a thread; [depth] and [nofiles] are fields of
    32 bits that get 64-bit conversions. *)
Definition io_list_bytes (i : Z) (j : vjob) (comps : list (Z * Z)) : list Z :=
  put64 (Z.of_nat (length comps)) ++ put32 (u32 (cpu_to_le64 big (vj_iodepth j))) ++ put32 (u32 (cpu_to_le64 big (vj_nr_files j))) ++
  put64 (vj_issues j) ++ put64 i ++ rand_bytes (vj_random j) ++ strncpy_zeroed 64 (vj_name j) ++ (comps ≫= fun '(n, x) => put64 n ++ put64 x).

(** The size of a state, from its own fields. *)
Definition thread_io_list_sz (s : list Z) : nat :=
  (IO_LIST_HDR + Z.to_nat (u32 (le32_to_cpu big (word 4 8 s) * le32_to_cpu big (word 4 12 s))) * 16)%nat.

(** Bytes written over memory. *)
Definition overlay (off : nat) (b mem : list Z) : option (list Z) :=
  if (off + length b <=? length mem)%nat then Some (take off mem ++ b ++ drop (off + length b) mem) else None.

Definition saved (mask i : Z) : bool := (mask =? IO_LIST_ALL) || (i + 1 =? mask).

Fixpoint list_space (mask i : Z) (jobs : list vjob) : nat * nat :=
  match jobs with
  | [] => (0, 0)%nat
  | j :: jobs =>
      let '(nr, depth) := list_space mask (i + 1) jobs in
      if saved mask i then (S nr, Z.to_nat (u32 (vj_iodepth j * vj_nr_files j)) + depth)%nat else (nr, depth)
  end.

Fixpoint fill_lists (mask i : Z) (jobs : list vjob) (next : nat) (mem : list Z) : option (list Z) :=
  match jobs with
  | [] => Some mem
  | j :: jobs =>
      if saved mask i then
        comps ← fill_file_completions j (vj_files j);
        mem ← overlay next (io_list_bytes i j comps) mem;
        fill_lists mask (i + 1) jobs (next + thread_io_list_sz (drop next mem)) mem
      else fill_lists mask (i + 1) jobs next mem
  end.

(** [Some None] is the null pointer, when no thread is asked for. *)
Definition get_all_io_list (mask : Z) (jobs : list vjob) : option (option (list Z)) :=
  let '(nr, depth) := list_space mask 0 jobs in
  match nr with
  | O => Some None
  | _ => mem ← fill_lists mask 0 jobs 8 (put64 (Z.of_nat nr) ++ replicate (nr * IO_LIST_HDR + depth * 16) 0); Some (Some mem)
  end.

(** ** State files *)
Definition PATH_MAX : nat := 4096.
Definition print_int (n : Z) : list Z := if n <? 0 then 45 :: print_dec (- n) else print_dec n.
(** ["-verify.state"]. *)
Definition state_suffix : list Z := [45; 118; 101; 114; 105; 102; 121; 46; 115; 116; 97; 116; 101].
Definition escape (c : Z) : Z := if c =? 47 then 46 else c.
Definition verify_state_gen_name (name prefix : list Z) (num : Z) : list Z :=
  take (PATH_MAX - 1) (prefix ++ [45] ++ (escape <$> name) ++ [45] ++ print_int num ++ state_suffix).

Definition VSTATE_HDR_VERSION : Z := 3.

(** [room] is how many bytes of the file are written. *)
Definition write_thread_list_state (s prefix : list Z) (room : nat) (fs : files) : option (Z * files) :=
  let sz := thread_io_list_sz s in
  if (sz <=? length s)%nat then
    let out := verify_state_gen_name (c_text (take 64 (drop 88 s))) prefix (sgn 32 (word 8 24 s)) in
    let content := put64 VSTATE_HDR_VERSION ++ put64 (Z.of_nat sz) ++ put64 (crc32c_sw (take sz s)) ++ take sz s in
    Some (if (length content <=? room)%nat then 0 else 1, <[out := take room content]> fs)
  else None.

Fixpoint save_lists (n : nat) (s prefix : list Z) (room : nat) (fs : files) : option files :=
  match n with
  | O => Some fs
  | S n => '(_, fs) ← write_thread_list_state s prefix room fs; save_lists n (drop (thread_io_list_sz s) s) prefix room fs
  end.
Definition __verify_save_state (state prefix : list Z) (room : nat) (fs : files) : option files :=
  save_lists (Z.to_nat (le64_to_cpu big (word 8 0 state))) (drop 8 state) prefix room fs.
(** ["local"]. *)
Definition local : list Z := [108; 111; 99; 97; 108].
Definition save_prefix (aux_path : option (list Z)) : list Z := match aux_path with Some p => p ++ [47] ++ local | None => local end.
Definition verify_save_state (mask : Z) (aux_path : option (list Z)) (room : nat) (jobs : list vjob) (fs : files) : option files :=
  st ← get_all_io_list mask jobs;
  match st with None => Some fs | Some state => __verify_save_state state (save_prefix aux_path) room fs end.

(** ** Loading *)
Record vstate := VState {
  vs_no_comps : Z; vs_depth : Z; vs_nofiles : Z; vs_numberio : Z; vs_use64 : Z; vs_rand : list Z; vs_comps : list (Z * Z) }.

Fixpoint pairs (l : list Z) : list (Z * Z) := match l with a :: b :: l => (a, b) :: pairs l | _ => [] end.

Definition verify_assign_state (s : list Z) : option vstate :=
  if (IO_LIST_HDR <=? length s)%nat then
    let no_comps := le64_to_cpu big (word 8 0 s) in
    let use64 := le64_to_cpu big (word 8 32 s) in
    let rand := if use64 =? 0 then get32 big <$> pieces 4 4 (drop 40 s) else get64 big <$> pieces 6 8 (drop 40 s) in
    if Z.of_nat IO_LIST_HDR + 16 * no_comps <=? Z.of_nat (length s) then
      let n := Z.to_nat no_comps in
      Some (VState no_comps (le32_to_cpu big (word 4 8 s)) (le32_to_cpu big (word 4 12 s)) (le64_to_cpu big (word 8 16 s)) use64 rand
        (pairs (get64 big <$> pieces (2 * n) 8 (take (16 * n) (drop IO_LIST_HDR s)))))
    else None
  else None.

(** A state that comes over the wire has a header of its own. *)
Definition verify_state_hdr (hdr s : list Z) : option Z :=
  let version := le64_to_cpu big (word 8 0 hdr) in
  let size := le64_to_cpu big (word 8 8 hdr) in
  let crc := le64_to_cpu big (word 8 16 hdr) in
  if negb (version =? VSTATE_HDR_VERSION) then Some 1 else
  if size <=? Z.of_nat (length s) then Some (if crc32c_sw (take (Z.to_nat size) s) =? crc then 0 else 1) else None.

Definition verify_load_state (verify_state : bool) (name prefix : list Z) (thread_number : Z) (fs : files) : option (Z * option vstate) :=
  if negb verify_state then Some (0, None) else
  match fs !! verify_state_gen_name name prefix (thread_number - 1) with
  | None => Some (1, None)
  | Some content =>
      if (length content <? 24)%nat then Some (1, None) else
      let version := le64_to_cpu big (word 8 0 content) in
      let size := le64_to_cpu big (word 8 8 content) in
      let crc := le64_to_cpu big (word 8 16 content) in
      if negb (version =? VSTATE_HDR_VERSION) then Some (1, None) else
      let s := take (Z.to_nat size) (drop 24 content) in
      if negb (Z.of_nat (length s) =? size) then Some (1, None) else
      if negb (crc32c_sw s =? crc) then Some (1, None) else
      st ← verify_assign_state s; Some (0, Some st)
  end.

(** A job that does not run for a client. *)
Definition fio_verify_load_state (verify_state : bool) (name : list Z) (thread_number : Z) (fs : files) : option (Z * option vstate) :=
  if negb verify_state then Some (0, None) else verify_load_state verify_state name local thread_number fs.
End host.

(** ** Stopping *)

(** [reads] is [td->io_blocks[DDIR_READ]]; the unit has a file. *)
Definition verify_state_should_stop (vs : option vstate) (reads fileno offset : Z) : bool :=
  match vs with
  | None => false
  | Some s =>
      if ((reads <? vs_depth s) || (vs_depth s <? u64 (vs_numberio s - reads))) && (vs_depth s <? vs_numberio s) then false
      else negb (existsb (fun '(n, x) => (n =? fileno) && (offset =? x)) (vs_comps s))
  end.
