(* ===== verification/VstateRun.v ===== *)
(** * The verify state over an interruption

    The ring of a file holds its last completions; what is saved is what is
    loaded; a damaged state is refused; and verification stops at the first write
    that had not completed. *)
From stdpp Require Import gmap.
From S2P Require Import Prelude Rand Crc ParseNum Cconv CconvTrip StatWire StatTrip Vstate.

(** ** The ring of completions *)
Fixpoint log_writes (iodepth : Z) (f : wfile) (ws : list (Z * Z)) : option wfile :=
  match ws with
  | [] => Some f
  | (x, n) :: ws => f ← file_log_write_comp iodepth f x n; log_writes iodepth f ws
  end.

(** The ring [c] of [d] slots after the writes [xs]. *)
Record ring (d : nat) (xs c : list Z) (idx : Z) : Prop := Ring {
  ring_len : length c = d;
  ring_idx : idx = Z.of_nat (length xs mod d);
  ring_at : forall k, (k < length xs)%nat -> (length xs - d <= k)%nat -> c !! (k mod d)%nat = xs !! k }.

Lemma log_start d : ring d [] (replicate d 0) 0.
Proof. split; [apply length_replicate|by rewrite Nat.Div0.mod_0_l|cbn; lia]. Qed.

Lemma mod_apart k n d : (0 < d)%nat -> (n < k + d)%nat -> (k < n)%nat -> (k mod d <> n mod d)%nat.
Proof.
  intros Hd H1 H2 E. pose proof (Nat.div_mod_eq k d) as Ek. pose proof (Nat.div_mod_eq n d) as En. rewrite E in Ek.
  assert (d * (n / d) - d * (k / d) = n - k)%nat as Hx by lia. rewrite <- Nat.mul_sub_distr_l in Hx.
  destruct (n / d - k / d)%nat as [|q]; [lia|]. rewrite Nat.mul_succ_r in Hx. lia.
Qed.

Lemma mod_next n d : (0 < d)%nat -> ((n + 1) mod d = if (n mod d + 1 =? d)%nat then 0 else n mod d + 1)%nat.
Proof.
  intros Hd. pose proof (Nat.mod_upper_bound n d ltac:(lia)) as Hm. rewrite <- Nat.Div0.add_mod_idemp_l.
  destruct (Nat.eqb_spec (n mod d + 1) d) as [->|]; [apply Nat.Div0.mod_same|apply Nat.mod_small; lia].
Qed.

Lemma log_one iodepth f xs c x n : ring (Z.to_nat iodepth) xs c (last_write_idx f) -> 0 < iodepth < 2 ^ 32 -> last_write_comp f = Some c ->
  exists f' c', file_log_write_comp iodepth f x n = Some f' /\ last_write_comp f' = Some c' /\ wf_fileno f' = wf_fileno f /\
    ring (Z.to_nat iodepth) (xs ++ [x]) c' (last_write_idx f').
Proof.
  intros [Hl Hi Hat] Hd Ec. set (d := Z.to_nat iodepth) in *. assert (0 < d)%nat by (subst d; lia). pose proof (Nat.mod_upper_bound (length xs) d ltac:(lia)) as Hm.
  unfold file_log_write_comp. rewrite Ec, Hl. rewrite (proj2 (Z.leb_le 0 (last_write_idx f))), (proj2 (Z.ltb_lt (last_write_idx f) _)) by lia. cbn [andb].
  eexists _, _. split; [done|]. split; [done|]. split; [done|]. cbn [last_write_idx]. rewrite Hi, Nat2Z.id. split.
  - by rewrite length_insert.
  - rewrite length_app. cbn [length]. rewrite mod_next by done. rewrite wrap_small by (unfold uint; lia).
    destruct (Nat.eqb_spec (length xs mod d + 1) d); destruct (Z.eqb_spec (Z.of_nat (length xs mod d) + 1) iodepth); lia.
  - rewrite length_app. cbn [length]. intros k Hk1 Hk2. destruct (decide (k = length xs)) as [->|Hne].
    + rewrite list_lookup_insert_eq by lia. symmetry. by apply list_lookup_middle.
    + rewrite list_lookup_insert_ne by (apply not_eq_sym, mod_apart; lia). rewrite lookup_app_l by lia. apply Hat; lia.
Qed.

Lemma log_all iodepth : 0 < iodepth < 2 ^ 32 -> forall ws f xs c, ring (Z.to_nat iodepth) xs c (last_write_idx f) -> last_write_comp f = Some c ->
  exists f' c', log_writes iodepth f ws = Some f' /\ last_write_comp f' = Some c' /\ wf_fileno f' = wf_fileno f /\ ring (Z.to_nat iodepth) (xs ++ ws.*1) c' (last_write_idx f').
Proof.
  intros Hd. induction ws as [|[x n] ws IH]; intros f xs c Hr Ec; cbn [log_writes]; [exists f, c; cbn; by rewrite app_nil_r|].
  destruct (log_one iodepth f xs c x n Hr Hd Ec) as (f1 & c1 & -> & E1 & En & H1). cbn [mbind option_bind].
  destruct (IH f1 (xs ++ [x]) c1 H1 E1) as (f2 & c2 & E2 & E3 & En2 & H2). exists f2, c2. split_and!; [done|done|congruence|]. cbn [fmap list_fmap fst]. by rewrite <- app_assoc in H2.
Qed.

(** The last [n] of a list, newest first. *)
Definition newest (n : nat) (xs : list Z) : list Z := take n (rev xs).

Lemma backwards_ring d xs c idx : ring (Z.to_nat d) xs c idx -> 0 < d < 2 ^ 32 -> forall n, (n <= length xs)%nat -> (n <= Z.to_nat d)%nat ->
  backwards n d c (idx - 1) = Some (newest n xs).
Proof.
  intros [Hl Hi Hat] Hd. set (m := Z.to_nat d) in *. assert (0 < m)%nat by (subst m; lia).
  assert (Hgo : forall n t, (t + n <= length xs)%nat -> (t + n <= m)%nat -> backwards n d c (Z.of_nat ((length xs - t) mod m) - 1) = Some (take n (drop t (rev xs)))).
  { induction n as [|n IH]; intros t H1 H2; cbn [backwards]; [done|].
    set (k := (length xs - t - 1)%nat). assert (Ek : (length xs - t)%nat = (k + 1)%nat) by (subst k; lia).
    assert (Ej : (if Z.of_nat ((length xs - t) mod m) - 1 =? -1 then d - 1 else Z.of_nat ((length xs - t) mod m) - 1) = Z.of_nat (k mod m)).
    { rewrite Ek, mod_next by done. pose proof (Nat.mod_upper_bound k m ltac:(lia)). destruct (Nat.eqb_spec (k mod m + 1) m).
      - rewrite (proj2 (Z.eqb_eq _ _)) by lia. lia.
      - rewrite (proj2 (Z.eqb_neq _ _)) by lia. lia. }
    rewrite Ej. rewrite (proj2 (Z.leb_le _ _)) by lia. rewrite Nat2Z.id, Hat by (subst k; lia).
    destruct (xs !! k) as [x|] eqn:Ex; [|apply lookup_ge_None in Ex; subst k; lia]. cbn [mbind option_bind].
    replace (Z.of_nat (k mod m) - 1) with (Z.of_nat ((length xs - S t) mod m) - 1) by (do 3 f_equal; subst k; lia).
    rewrite IH by lia. cbn [mbind option_bind]. f_equal. symmetry.
    assert (Er : rev xs !! t = Some x) by (rewrite <- Ex; subst k; rewrite List.rev_alt; change (List.rev_append xs []) with (reverse xs); rewrite reverse_lookup by lia; f_equal; lia).
    rewrite (drop_S _ x) by done. done. }
  intros n H1 H2. rewrite Hi. specialize (Hgo n 0%nat ltac:(lia) ltac:(lia)). rewrite Nat.sub_0_r in Hgo. exact Hgo.
Qed.

Lemma rev_lookup (xs : list Z) i : (i < length xs)%nat -> rev xs !! i = xs !! (length xs - S i)%nat.
Proof. intros H. rewrite List.rev_alt. change (List.rev_append xs []) with (reverse xs). by apply reverse_lookup. Qed.

Lemma newest_elem n xs x : (n <= length xs)%nat -> x ∈ newest n xs <-> exists k, (length xs - n <= k)%nat /\ xs !! k = Some x.
Proof.
  intros Hn. unfold newest. rewrite list_elem_of_lookup. split.
  - intros [i Hi]. apply lookup_take_Some in Hi as [Hi Hlt]. rewrite rev_lookup in Hi by lia. exists (length xs - S i)%nat. split; [lia|done].
  - intros (k & Hk & Ex). pose proof (lookup_lt_Some _ _ _ Ex). exists (length xs - S k)%nat. apply lookup_take_Some. split; [|lia].
    rewrite rev_lookup by lia. rewrite <- Ex. f_equal. lia.
Qed.

(** ** Where verification stops *)

(** The state after the first [c] of the writes [xs] to a file, all of them issued,
    have completed. *)
Definition state_of (d : Z) (fileno : Z) (xs : list Z) (c : nat) (vs : vstate) : Prop :=
  vs_depth vs = d /\ vs_numberio vs = Z.of_nat (length xs) /\ vs_comps vs = (fun x => (fileno, x)) <$> newest (c `min` Z.to_nat d) (take c xs).

Lemma stop_exact d fileno xs c vs k x : state_of d fileno xs c vs -> 0 < d < 2 ^ 32 -> NoDup xs -> Z.of_nat (length xs) < 2 ^ 64 -> (c <= length xs)%nat ->
  Z.of_nat (length xs) <= Z.of_nat c + d -> (Z.of_nat (length xs) <= d \/ 2 * d <= Z.of_nat (length xs)) -> xs !! k = Some x ->
  verify_state_should_stop (Some vs) (Z.of_nat k) fileno x = negb (k <? c)%nat.
Proof.
  intros (Ed & En & Ec) Hd Hnd Hsz Hc Hfl Hn Hx. pose proof (lookup_lt_Some _ _ _ Hx) as Hk. unfold verify_state_should_stop. rewrite Ed, En.
  rewrite (wrap_small 64 (Z.of_nat (length xs) - Z.of_nat k)) by (unfold uint; lia).
  destruct (((Z.of_nat k <? d) || (d <? Z.of_nat (length xs) - Z.of_nat k)) && (d <? Z.of_nat (length xs))) eqn:Ew.
  { symmetry. apply negb_false_iff, Nat.ltb_lt. lia. }
  f_equal. apply eq_iff_eq_true. rewrite existsb_exists, Nat.ltb_lt. assert (Hlen : length (take c xs) = c) by (rewrite length_take; lia).
  assert (Hnew : x ∈ newest (c `min` Z.to_nat d) (take c xs) <-> (k < c)%nat).
  { rewrite newest_elem by lia. split.
    - intros (i & _ & Hi). apply lookup_take_Some in Hi as [Hi Hlt]. by rewrite (NoDup_lookup xs k i x).
    - intros Hlt. exists k. split; [lia|]. apply lookup_take_Some. done. }
  rewrite <- Hnew, Ec. split.
  - intros ([n y] & Hin & E). apply list_elem_of_In, list_elem_of_fmap in Hin as (z & [= -> ->] & Hz). apply andb_true_iff in E as [_ E]. by apply Z.eqb_eq in E as ->.
  - intros Hin. exists (fileno, x). split; [apply list_elem_of_In, list_elem_of_fmap; by exists x|]. by rewrite !Z.eqb_refl.
Qed.

(** ** Reading what was written, on a little-endian host *)
Lemma word_here n b post : length b = n -> word false n 0 (b ++ post) = le_val b.
Proof. intros <-. unfold word, get_word. by rewrite drop_0, take_app_length. Qed.
Lemma word_skip n m off b post : length b = m -> word false n (m + off) (b ++ post) = word false n off post.
Proof. intros <-. unfold word. by rewrite drop_app_add. Qed.
Lemma drop_skip m off (b post : list Z) : length b = m -> drop (m + off) (b ++ post) = drop off post.
Proof. intros <-. by rewrite drop_app_add. Qed.

(** Reads a word at the sum of the sizes before it. *)
Ltac skips := repeat first [rewrite word_skip by (done || apply length_le_bytes) | rewrite drop_skip by (done || apply length_le_bytes)].

Definition rand_use64 (st : frand_state) : Z := match st with State64 _ => 1 | State32 _ => 0 end.
Definition rand_words (st : frand_state) : list Z :=
  match st with
  | State64 s => [q_s1 s; q_s2 s; q_s3 s; q_s4 s; q_s5 s; 0]
  | State32 s => [t_s1 s; t_s2 s; t_s3 s; 0]
  end.
Definition rand_ok (st : frand_state) : Prop := Forall (uint match st with State64 _ => 64 | State32 _ => 32 end) (rand_words st).

Record job_ok (j : vjob) (comps : list (Z * Z)) : Prop := JobOk {
  jo_depth : uint 32 (vj_iodepth j) /\ uint 32 (vj_nr_files j) /\ vj_iodepth j * vj_nr_files j < 2 ^ 32;
  jo_issues : uint 64 (vj_issues j);
  jo_rand : rand_ok (vj_random j);
  jo_name : 0 ∉ vj_name j /\ (length (vj_name j) <= 63)%nat;
  jo_fill : fill_file_completions j (vj_files j) = Some comps;
  jo_comps : Forall (fun c => uint 64 c.1 /\ uint 64 c.2) comps;
  jo_room : Z.of_nat (length comps) <= vj_iodepth j * vj_nr_files j }.

(** What is loaded. *)
Definition loaded (j : vjob) (comps : list (Z * Z)) : vstate :=
  VState (Z.of_nat (length comps)) (vj_iodepth j) (vj_nr_files j) (vj_issues j) (rand_use64 (vj_random j)) (rand_words (vj_random j)) comps.

Definition list_size (j : vjob) : nat := (IO_LIST_HDR + Z.to_nat (vj_iodepth j * vj_nr_files j) * 16)%nat.
Definition comp_bytes (comps : list (Z * Z)) : list Z := comps ≫= fun '(n, x) => le_bytes 8 n ++ le_bytes 8 x.
(** A whole state, with the unused completions. *)
Definition state_bytes (i : Z) (j : vjob) (comps : list (Z * Z)) : list Z :=
  io_list_bytes false i j comps ++ replicate (list_size j - IO_LIST_HDR - 16 * length comps) 0.

Lemma length_comp_bytes comps : length (comp_bytes comps) = (16 * length comps)%nat.
Proof. induction comps as [|[n x] comps IH]; [done|]. change (comp_bytes ((n, x) :: comps)) with ((le_bytes 8 n ++ le_bytes 8 x) ++ comp_bytes comps). rewrite !length_app, !length_le_bytes, IH. cbn [length]. lia. Qed.
Lemma length_name n s : (length (c_text s) < n)%nat -> length (strncpy_zeroed n s) = n.
Proof. intros H. unfold strncpy_zeroed. rewrite length_app, length_replicate, length_take. lia. Qed.
Lemma c_text_id s : 0 ∉ s -> c_text s = s.
Proof. induction s as [|c s IH]; [done|]. intros H. apply not_elem_of_cons in H as [H1 H2]. cbn [c_text]. rewrite (proj2 (Z.eqb_neq c 0)) by congruence. by rewrite IH. Qed.

(** The fields of a state and their sizes. *)
Lemma io_list_fields i j comps : job_ok j comps -> exists rand name,
  io_list_bytes false i j comps = le_bytes 8 (Z.of_nat (length comps)) ++ le_bytes 4 (vj_iodepth j) ++ le_bytes 4 (vj_nr_files j) ++ le_bytes 8 (vj_issues j) ++
    le_bytes 8 i ++ le_bytes 8 (rand_use64 (vj_random j)) ++ rand ++ name ++ comp_bytes comps /\
  length rand = 48%nat /\ length name = 64%nat /\ c_text name = vj_name j /\
  exists rest, rand = (rand_words (vj_random j) ≫= le_bytes match vj_random j with State64 _ => 8 | State32 _ => 4 end) ++ rest.
Proof.
  intros H. destruct (jo_depth _ _ H) as (Hd & Hf & _). destruct (jo_name _ _ H) as [Hz Hl]. unfold io_list_bytes, put32, put64, put_word, cpu_to_le64, cpu_to_le32.
  rewrite !(wrap_small 32) by done. exists (drop 8 (rand_bytes false (vj_random j))), (strncpy_zeroed 64 (vj_name j)). split_and!.
  - unfold rand_bytes, put64, put32, put_word, cpu_to_le64, cpu_to_le32. destruct (vj_random j); reflexivity.
  - by destruct (vj_random j).
  - apply length_name. rewrite c_text_id by done. lia.
  - rewrite name_back; rewrite ?c_text_id by done; [done|lia|lia].
  - unfold rand_bytes, put64, put32, put_word, cpu_to_le64, cpu_to_le32. destruct (vj_random j); [exists (replicate 32 0)|exists []]; reflexivity.
Qed.

Record state_fields (i : Z) (j : vjob) (comps : list (Z * Z)) (s : list Z) : Prop := Fields {
  fl_no : word false 8 0 s = Z.of_nat (length comps);
  fl_depth : word false 4 8 s = vj_iodepth j;
  fl_files : word false 4 12 s = vj_nr_files j;
  fl_issues : word false 8 16 s = vj_issues j;
  fl_index : word false 8 24 s = i;
  fl_use64 : word false 8 32 s = rand_use64 (vj_random j);
  fl_rand : exists rest, drop 40 s = (rand_words (vj_random j) ≫= le_bytes match vj_random j with State64 _ => 8 | State32 _ => 4 end) ++ rest;
  fl_name : c_text (take 64 (drop 88 s)) = vj_name j;
  fl_comps : exists rest, drop IO_LIST_HDR s = comp_bytes comps ++ rest }.

Lemma room_nat j comps : job_ok j comps -> (length comps <= Z.to_nat (vj_iodepth j * vj_nr_files j))%nat.
Proof. intros H. pose proof (jo_room _ _ H). lia. Qed.

Lemma length_io_list i j comps : job_ok j comps -> length (io_list_bytes false i j comps) = (IO_LIST_HDR + 16 * length comps)%nat.
Proof.
  intros H. destruct (io_list_fields i j comps H) as (rand & name & -> & Hr & Hn & _). rewrite !length_app, !length_le_bytes, length_comp_bytes, Hr, Hn. unfold IO_LIST_HDR. lia.
Qed.
Lemma length_state i j comps : job_ok j comps -> length (state_bytes i j comps) = list_size j.
Proof.
  intros H. unfold state_bytes. rewrite length_app, length_replicate, length_io_list by done. unfold list_size. pose proof (room_nat _ _ H). lia.
Qed.

Lemma io_list_read i j comps post : job_ok j comps -> uint 64 i -> state_fields i j comps (io_list_bytes false i j comps ++ post).
Proof.
  intros H Hi. destruct (io_list_fields i j comps H) as (rand & name & -> & Hr & Hn & Ht & rest & Hrand). destruct (jo_depth _ _ H) as (Hd & Hf & Hdf).
  assert (Hc : uint 64 (Z.of_nat (length comps))) by (pose proof (jo_room _ _ H); unfold uint in *; lia).
  rewrite <- !app_assoc. split.
  - rewrite word_here by apply length_le_bytes. by apply (le_val_uint 8 64).
  - change 8%nat with (8 + 0)%nat at 1. skips. rewrite word_here by apply length_le_bytes. by apply (le_val_uint 4 32).
  - change 12%nat with (8 + (4 + 0))%nat. skips. rewrite word_here by apply length_le_bytes. by apply (le_val_uint 4 32).
  - change 16%nat with (8 + (4 + (4 + 0)))%nat. skips. rewrite word_here by apply length_le_bytes. apply (le_val_uint 8 64); [done|apply H].
  - change 24%nat with (8 + (4 + (4 + (8 + 0))))%nat. skips. rewrite word_here by apply length_le_bytes. by apply (le_val_uint 8 64).
  - change 32%nat with (8 + (4 + (4 + (8 + (8 + 0)))))%nat. skips. rewrite word_here by apply length_le_bytes. apply (le_val_uint 8 64); [done|]. by destruct (vj_random j).
  - change 40%nat with (8 + (4 + (4 + (8 + (8 + (8 + 0))))))%nat. skips. rewrite drop_0, Hrand, <- app_assoc. by eexists.
  - change 88%nat with (8 + (4 + (4 + (8 + (8 + (8 + (48 + 0)))))))%nat. skips. by rewrite drop_0, take_app_length'.
  - change IO_LIST_HDR with (8 + (4 + (4 + (8 + (8 + (8 + (48 + (64 + 0))))))))%nat. skips. rewrite drop_0. by eexists.
Qed.

Lemma fields_size i j comps s : job_ok j comps -> state_fields i j comps s -> thread_io_list_sz false s = list_size j.
Proof.
  intros H Hf. destruct (jo_depth _ _ H) as (? & ? & ?). unfold thread_io_list_sz, le32_to_cpu. rewrite (fl_depth _ _ _ _ Hf), (fl_files _ _ _ _ Hf), wrap_small; [done|]. unfold uint in *. lia.
Qed.

(** ** A state is assigned as it was stored *)
Lemma pairs_back comps : pairs (comps ≫= fun '(n, x) => [n; x]) = comps.
Proof. induction comps as [|[n x] comps IH]; [done|]. cbn [mbind list_bind app pairs] in *. f_equal. exact IH. Qed.
Lemma comp_words comps : comp_bytes comps = (comps ≫= fun '(n, x) => [n; x]) ≫= le_bytes 8.
Proof. induction comps as [|[n x] comps IH]; [done|]. change (comp_bytes ((n, x) :: comps)) with ((le_bytes 8 n ++ le_bytes 8 x) ++ comp_bytes comps). rewrite IH. cbn [mbind list_bind app]. by rewrite <- app_assoc. Qed.

Lemma words_read n w (get : list Z -> Z) l rest : (0 < n)%nat -> (forall x, uint w x -> get (le_bytes n x) = x) -> Forall (uint w) l -> get <$> pieces (length l) n ((l ≫= le_bytes n) ++ rest) = l.
Proof.
  intros Hn Hg. induction 1 as [|x l Hx Hl IH]; cbn [length mbind list_bind]; [by destruct rest|]. rewrite <- app_assoc, pieces_app by (done || apply length_le_bytes). cbn [fmap list_fmap].
  rewrite Hg by done. f_equal. exact IH.
Qed.

Lemma assign_ok i j comps s : job_ok j comps -> state_fields i j comps s -> length s = list_size j -> verify_assign_state false s = Some (loaded j comps).
Proof.
  intros H Hf Hl. destruct (fl_rand _ _ _ _ Hf) as [r1 Hr]. destruct (fl_comps _ _ _ _ Hf) as [r2 Hc]. unfold verify_assign_state, le32_to_cpu, le64_to_cpu.
  rewrite (fl_no _ _ _ _ Hf), (fl_depth _ _ _ _ Hf), (fl_files _ _ _ _ Hf), (fl_issues _ _ _ _ Hf), (fl_use64 _ _ _ _ Hf), Hl.
  pose proof (room_nat _ _ H) as Hroom. rewrite (proj2 (Nat.leb_le _ _)) by (unfold list_size; lia). rewrite (proj2 (Z.leb_le _ _)) by (unfold list_size; lia).
  rewrite Nat2Z.id. unfold loaded. do 2 f_equal.
  - rewrite Hr. pose proof (jo_rand _ _ H) as Hok. unfold rand_ok in Hok. destruct (vj_random j); cbn [rand_use64 Z.eqb].
    + exact (words_read 4 32 (get32 false) (rand_words (State32 s0)) r1 ltac:(lia) (get_cpu32 false) Hok).
    + exact (words_read 8 64 (get64 false) (rand_words (State64 s0)) r1 ltac:(lia) (get_cpu64 false) Hok).
  - rewrite Hc, comp_words, take_app_length' by (rewrite <- comp_words; by rewrite length_comp_bytes). rewrite <- (pairs_back comps) at 3. f_equal.
    rewrite <- (app_nil_r (_ ≫= le_bytes 8)). replace (2 * length comps)%nat with (length (comps ≫= fun '(n, x) => [n; x])).
    + apply (words_read 8 64 (get64 false)); [lia|intros; by apply get_cpu64|]. pose proof (jo_comps _ _ H) as Hcs. clear - Hcs. induction Hcs as [|[n x] comps [H1 H2] _ IH]; [constructor|]. cbn [mbind list_bind app]. constructor; [exact H1|constructor; [exact H2|exact IH]].
    + clear. induction comps as [|[n x] comps IH]; [done|]. cbn [mbind list_bind app length] in *. rewrite IH. lia.
Qed.

(** ** All threads in one block of memory *)
Abbreviation thread := (Z * vjob * list (Z * Z))%type.
Fixpoint chosen (mask i : Z) (jcs : list (vjob * list (Z * Z))) : list thread :=
  match jcs with
  | [] => []
  | (j, c) :: jcs => if saved mask i then (i, j, c) :: chosen mask (i + 1) jcs else chosen mask (i + 1) jcs
  end.
Definition blob (ts : list thread) : list Z := ts ≫= fun '(i, j, c) => state_bytes i j c.
Definition sizes (ts : list thread) : nat := sum_list ((fun '(_, j, _) => list_size j) <$> ts).
Definition jobs_ok (jcs : list (vjob * list (Z * Z))) : Prop := Forall (fun '(j, c) => job_ok j c) jcs.

Lemma fill_lists_ok mask : forall jcs i pre, jobs_ok jcs -> 0 <= i -> i + Z.of_nat (length jcs) < 2 ^ 31 ->
  fill_lists false mask i jcs.*1 (length pre) (pre ++ replicate (sizes (chosen mask i jcs)) 0) = Some (pre ++ blob (chosen mask i jcs)).
Proof.
  induction jcs as [|[j c] jcs IH]; intros i pre H Hi Hn; cbn [fill_lists fmap list_fmap fst chosen]; [done|].
  apply Forall_cons_iff in H as [Hj H]. cbn [length] in Hn. destruct (saved mask i); [|apply IH; (done || lia)].
  rewrite (jo_fill _ _ Hj). cbn [mbind option_bind]. set (ts := chosen mask (i + 1) jcs).
  change (sizes ((i, j, c) :: ts)) with (list_size j + sizes ts)%nat. change (blob ((i, j, c) :: ts)) with (state_bytes i j c ++ blob ts).
  pose proof (room_nat _ _ Hj) as Hr. pose proof (length_io_list i j c Hj) as Hlio. unfold overlay. rewrite length_app, length_replicate, Hlio.
  rewrite (proj2 (Nat.leb_le _ _)) by (unfold list_size; lia). cbn [mbind option_bind]. rewrite take_app_length, drop_app_add, drop_replicate.
  assert (Ew : io_list_bytes false i j c ++ replicate (list_size j + sizes ts - (IO_LIST_HDR + 16 * length c)) 0 = state_bytes i j c ++ replicate (sizes ts) 0).
  { unfold state_bytes. rewrite <- app_assoc, <- replicate_add. do 2 f_equal. unfold list_size. lia. }
  rewrite Ew, drop_app_length.
  assert (Hs : thread_io_list_sz false (state_bytes i j c ++ replicate (sizes ts) 0) = list_size j).
  { rewrite <- Ew. apply (fields_size i j c); [done|]. apply io_list_read; [done|]. unfold uint. lia. }
  rewrite Hs. specialize (IH (i + 1) (pre ++ state_bytes i j c) H ltac:(lia) ltac:(lia)). rewrite length_app, (length_state i j c Hj), <- !app_assoc in IH. exact IH.
Qed.

Lemma list_space_ok mask : forall jcs i, jobs_ok jcs ->
  let '(nr, depth) := list_space mask i jcs.*1 in nr = length (chosen mask i jcs) /\ (nr * IO_LIST_HDR + depth * 16)%nat = sizes (chosen mask i jcs).
Proof.
  induction jcs as [|[j c] jcs IH]; intros i H; cbn [list_space fmap list_fmap fst chosen]; [done|]. apply Forall_cons_iff in H as [Hj H]. specialize (IH (i + 1) H).
  destruct (list_space mask (i + 1) jcs.*1) as [nr depth]. destruct IH as [E1 E2]. destruct (saved mask i); [|done].
  change (sizes ((i, j, c) :: ?ts)) with (list_size j + sizes ts)%nat. destruct (jo_depth _ _ Hj) as (? & ? & ?). rewrite wrap_small by (unfold uint in *; lia).
  cbn [length]. split; [lia|]. rewrite <- E2. unfold list_size. lia.
Qed.

(** ** Files *)
Definition content (i : Z) (j : vjob) (c : list (Z * Z)) : list Z :=
  le_bytes 8 VSTATE_HDR_VERSION ++ le_bytes 8 (Z.of_nat (list_size j)) ++ le_bytes 8 (crc32c_sw (state_bytes i j c)) ++ state_bytes i j c.
Definition put_file (prefix : list Z) (fs : files) '((i, j, c) : thread) : files := <[verify_state_gen_name (vj_name j) prefix i := content i j c]> fs.

Lemma length_content i j c : job_ok j c -> length (content i j c) = (24 + list_size j)%nat.
Proof. intros H. unfold content. rewrite !length_app, !length_le_bytes, (length_state i j c H). lia. Qed.

Lemma write_ok i j c prefix room fs post : job_ok j c -> 0 <= i < 2 ^ 31 -> (24 + list_size j <= room)%nat ->
  write_thread_list_state false (state_bytes i j c ++ post) prefix room fs = Some (0, put_file prefix fs (i, j, c)).
Proof.
  intros H Hi Hr. assert (Hf : state_fields i j c (state_bytes i j c ++ post)) by (unfold state_bytes; rewrite <- app_assoc; apply io_list_read; [done|unfold uint; lia]).
  unfold write_thread_list_state. rewrite (fields_size i j c _ H Hf), length_app, (length_state i j c H). rewrite (proj2 (Nat.leb_le _ _)) by lia.
  rewrite (fl_name _ _ _ _ Hf), (fl_index _ _ _ _ Hf), sgn_small by lia. rewrite take_app_length' by (by rewrite (length_state i j c H)).
  unfold put64, put_word, cpu_to_le64. fold (content i j c). rewrite (length_content i j c H). rewrite (proj2 (Nat.leb_le _ _)) by lia. rewrite take_ge by (rewrite (length_content i j c H); lia). done.
Qed.

Definition thread_ok (room : nat) '((i, j, c) : thread) : Prop := job_ok j c /\ 0 <= i < 2 ^ 31 /\ (24 + list_size j <= room)%nat.
Lemma save_lists_ok prefix room : forall ts fs, Forall (thread_ok room) ts -> save_lists false (length ts) (blob ts) prefix room fs = Some (foldl (put_file prefix) fs ts).
Proof.
  induction ts as [|[[i j] c] ts IH]; intros fs H; cbn [length save_lists foldl]; [done|]. apply Forall_cons_iff in H as [(Hj & Hi & Hr) H].
  change (blob ((i, j, c) :: ts)) with (state_bytes i j c ++ blob ts). rewrite write_ok by done. cbn [mbind option_bind].
  assert (Hf : state_fields i j c (state_bytes i j c ++ blob ts)) by (unfold state_bytes; rewrite <- app_assoc; apply io_list_read; [done|unfold uint; lia]).
  rewrite (fields_size i j c _ Hj Hf), drop_app_length' by (by rewrite (length_state i j c Hj)). by apply IH.
Qed.

Lemma chosen_ok mask room : forall jcs i, jobs_ok jcs -> 0 <= i -> i + Z.of_nat (length jcs) < 2 ^ 31 -> Forall (fun '(j, _) => (24 + list_size j <= room)%nat) jcs ->
  Forall (thread_ok room) (chosen mask i jcs) /\ Forall (fun '(k, _, _) => i <= k) (chosen mask i jcs) /\ NoDup ((fun '(k, _, _) => k) <$> chosen mask i jcs).
Proof.
  induction jcs as [|[j c] jcs IH]; intros i H Hi Hn Hr; cbn [chosen]; [repeat constructor|]. apply Forall_cons_iff in H as [Hj H]. apply Forall_cons_iff in Hr as [Hrj Hr]. cbn [length] in Hn.
  destruct (IH (i + 1) H ltac:(lia) ltac:(lia) Hr) as (H1 & H2 & H3). assert (H2' : Forall (fun '(k, _, _) => i <= k) (chosen mask (i + 1) jcs)) by (eapply Forall_impl; [|exact H2]; intros [[k ?] ?]; cbn; lia).
  destruct (saved mask i); [|done]. split_and!; [constructor; [|done]; split_and!; (done || lia)|constructor; [lia|done]|]. cbn [fmap list_fmap]. constructor; [|done].
  intros Hin. apply list_elem_of_fmap in Hin as ([[k ?] ?] & -> & Hk). pose proof (proj1 (list.Forall_forall _ _) H2 _ Hk) as Hle. cbn in Hle. lia.
Qed.

(** ** Names of state files are those of the threads *)
Lemma last_dash (X Y d1 d2 : list Z) : 45 ∉ d1 -> 45 ∉ d2 -> X ++ 45 :: d1 = Y ++ 45 :: d2 -> d1 = d2.
Proof.
  intros H1 H2 E. apply app_eq_inv in E as [(k & _ & E)|(k & _ & E)]; destruct k as [|y k]; cbn [app] in E; injection E as E; subst; try done; exfalso;
    [apply H2|apply H1]; apply elem_of_app; right; left.
Qed.

Lemma length_dec_digits : forall fuel n acc, (length (dec_digits fuel n acc) <= fuel + length acc)%nat.
Proof. induction fuel as [|fuel IH]; intros n acc; cbn [dec_digits]; [lia|]. destruct (_ =? 0); [cbn; lia|]. specialize (IH (n / 10) ((48 + n mod 10) :: acc)). cbn [length] in IH. lia. Qed.

Lemma name_inj a b prefix n m : (length prefix <= 3900)%nat -> (length a <= 63)%nat -> (length b <= 63)%nat -> 0 <= n < 2 ^ 31 -> 0 <= m < 2 ^ 31 ->
  verify_state_gen_name a prefix n = verify_state_gen_name b prefix m -> n = m.
Proof.
  intros Hp Ha Hb Hn Hm E. unfold verify_state_gen_name in E.
  assert (Hlen : forall x k, (length x <= 63)%nat -> 0 <= k < 2 ^ 31 -> (length (prefix ++ [45%Z] ++ (escape <$> x) ++ [45%Z] ++ print_int k ++ state_suffix) <= PATH_MAX - 1)%nat).
  { intros x k Hx Hk. rewrite !length_app, length_fmap. unfold print_int. rewrite (proj2 (Z.ltb_ge k 0)) by lia. pose proof (length_dec_digits 20 k []) as Hd. cbn [length] in Hd. unfold print_dec.
    change (length state_suffix) with 13%nat. change (PATH_MAX - 1)%nat with (4000 + 95)%nat. cbn [length]. lia. }
  rewrite !take_ge in E by (apply Hlen; done). rewrite !app_assoc in E. apply app_inv_tail in E. rewrite <- !app_assoc in E.
  assert (Hdig : forall k, 0 <= k < 2 ^ 31 -> 45 ∉ print_int k /\ dec_value 0 (print_int k) = k).
  { intros k Hk. unfold print_int. rewrite (proj2 (Z.ltb_ge k 0)) by lia. destruct (print_dec_ok k) as (H1 & H2 & _); [lia|]. split; [|done].
    intros Hin. pose proof (proj1 (list.Forall_forall _ _) H1 _ Hin) as Hc. done. }
  destruct (Hdig n Hn) as [N1 V1], (Hdig m Hm) as [N2 V2]. cbn [app] in E.
  assert (E' : (prefix ++ 45 :: (escape <$> a)) ++ 45 :: print_int n = (prefix ++ 45 :: (escape <$> b)) ++ 45 :: print_int m) by (rewrite <- !app_assoc; exact E).
  apply last_dash in E'; [|done|done]. congruence.
Qed.

Definition named (prefix : list Z) '((i, j, _) : thread) : list Z := verify_state_gen_name (vj_name j) prefix i.
Lemma put_others prefix name : forall ts fs, (forall t, t ∈ ts -> named prefix t <> name) -> foldl (put_file prefix) fs ts !! name = fs !! name.
Proof.
  induction ts as [|[[i j] c] ts IH]; intros fs H; cbn [foldl]; [done|]. rewrite IH by (intros t Ht; apply H; by right). cbn [put_file]. apply lookup_insert_ne.
  apply (H (i, j, c)). left.
Qed.

Lemma put_found prefix room : (length prefix <= 3900)%nat -> forall ts fs i j c, Forall (thread_ok room) ts -> NoDup ((fun '(k, _, _) => k) <$> ts) -> (i, j, c) ∈ ts ->
  foldl (put_file prefix) fs ts !! verify_state_gen_name (vj_name j) prefix i = Some (content i j c).
Proof.
  intros Hp. induction ts as [|[[k l] d] ts IH]; intros fs i j c H Hnd Hin; [by apply elem_of_nil in Hin|]. apply Forall_cons_iff in H as [(Hl & Hk & _) H].
  cbn [fmap list_fmap] in Hnd. apply list.NoDup_cons in Hnd as [Hni Hnd]. cbn [foldl]. apply elem_of_cons in Hin as [[= -> -> ->]|Hin]; [|by apply IH].
  rewrite put_others; [cbn [put_file]; apply lookup_insert_eq|]. intros [[k' l'] d'] Ht. cbn [named]. intros E. destruct (proj1 (list.Forall_forall _ _) H _ Ht) as (Hl' & Hk' & _).
  apply name_inj in E; [|done|apply (jo_name _ _ Hl')|apply (jo_name _ _ Hl)|lia|lia]. subst k'. apply Hni. apply list_elem_of_fmap. by exists (k, l', d').
Qed.

(** ** Loading *)
Definition damaged (i : Z) (j : vjob) (c : list (Z * Z)) (s : list Z) : list Z :=
  le_bytes 8 VSTATE_HDR_VERSION ++ le_bytes 8 (Z.of_nat (list_size j)) ++ le_bytes 8 (crc32c_sw (state_bytes i j c)) ++ s.

Lemma load_any name prefix i j c s fs : job_ok j c -> fs !! verify_state_gen_name name prefix i = Some (damaged i j c s) -> length s = list_size j ->
  verify_load_state false true name prefix (i + 1) fs =
  if crc32c_sw s =? crc32c_sw (state_bytes i j c) then st ← verify_assign_state false s; Some (0, Some st) else Some (1, None).
Proof.
  intros H E Hs. unfold verify_load_state. cbn [negb]. replace (i + 1 - 1) with i by lia. rewrite E. unfold le64_to_cpu.
  assert (Hsz : uint 64 (Z.of_nat (list_size j))) by (destruct (jo_depth _ _ H) as (? & ? & ?); unfold list_size, IO_LIST_HDR, uint in *; lia).
  assert (W1 : word false 8 0 (damaged i j c s) = VSTATE_HDR_VERSION) by (unfold damaged; rewrite word_here by apply length_le_bytes; reflexivity).
  assert (W2 : word false 8 8 (damaged i j c s) = Z.of_nat (list_size j)).
  { unfold damaged. change 8%nat with (8 + 0)%nat at 2. skips. rewrite word_here by apply length_le_bytes. by apply (le_val_uint 8 64). }
  assert (W3 : word false 8 16 (damaged i j c s) = crc32c_sw (state_bytes i j c)).
  { unfold damaged. change 16%nat with (8 + (8 + 0))%nat. skips. rewrite word_here by apply length_le_bytes. apply (le_val_uint 8 64); [done|].
    pose proof (crc32c_uint (state_bytes i j c)) as Hu. unfold uint in *. lia. }
  assert (D : drop 24 (damaged i j c s) = s) by (unfold damaged; change 24%nat with (8 + (8 + (8 + 0)))%nat; skips; apply drop_0).
  assert (Hlen : length (damaged i j c s) = (24 + list_size j)%nat) by (unfold damaged; rewrite !length_app, !length_le_bytes; lia).
  rewrite W1, W2, W3, D, Hlen. rewrite (proj2 (Nat.ltb_ge _ _)) by lia. rewrite Z.eqb_refl, Nat2Z.id, take_ge, Hs, Z.eqb_refl by lia. cbn [negb]. by destruct (_ =? _).
Qed.

Lemma save_load mask aux room jcs fs : let prefix := save_prefix aux in jobs_ok jcs -> Z.of_nat (length jcs) < 2 ^ 31 -> (length prefix <= 3900)%nat -> Forall (fun '(j, _) => (24 + list_size j <= room)%nat) jcs ->
  exists fs', verify_save_state false mask aux room jcs.*1 fs = Some fs' /\
    forall i j c, jcs !! i = Some (j, c) -> saved mask (Z.of_nat i) = true -> fs' !! verify_state_gen_name (vj_name j) prefix (Z.of_nat i) = Some (content (Z.of_nat i) j c).
Proof.
  intros prefix H Hn Hp Hr. destruct (chosen_ok mask room jcs 0 H ltac:(lia) ltac:(lia) Hr) as (Hok & _ & Hnd). exists (foldl (put_file prefix) fs (chosen mask 0 jcs)). split.
  - unfold verify_save_state, get_all_io_list. pose proof (list_space_ok mask jcs 0 H) as Hsp. destruct (list_space mask 0 jcs.*1) as [nr depth]. destruct Hsp as [E1 E2].
    destruct nr as [|nr]; [by destruct (chosen mask 0 jcs)|]. rewrite E2. pose proof (fill_lists_ok mask jcs 0 (put64 false (Z.of_nat (S nr))) H ltac:(lia) ltac:(lia)) as Hfill.
    change (length (put64 false (Z.of_nat (S nr)))) with 8%nat in Hfill. rewrite Hfill. cbn [mbind option_bind]. unfold __verify_save_state, le64_to_cpu.
    rewrite word_here by reflexivity. rewrite (drop_skip 8 0) by reflexivity. rewrite drop_0. unfold put64, put_word, cpu_to_le64.
    assert (Hle : (length (chosen mask 0 jcs) <= length jcs)%nat).
    { clear. generalize 0. induction jcs as [|[j c] jcs IH]; intros i; cbn [chosen length]; [lia|]. specialize (IH (i + 1)). destruct (saved mask i); cbn [length]; lia. }
    rewrite (le_val_uint 8 64) by (done || (unfold uint; lia)). rewrite Nat2Z.id, E1. by apply (save_lists_ok prefix room).
  - intros i j c Hi Hs. apply (put_found prefix room); [done|done|done|]. clear - Hi Hs. replace (Z.of_nat i) with (0 + Z.of_nat i) in * by lia. revert i Hi Hs. generalize 0.
    induction jcs as [|[k d] jcs IH]; intros z i Hi Hs; [done|]. cbn [chosen]. destruct i as [|i]; cbn in Hi.
    + injection Hi as -> ->. rewrite Z.add_0_r in *. rewrite Hs. left.
    + specialize (IH (z + 1) i Hi). replace (z + 1 + Z.of_nat i) with (z + Z.of_nat (S i)) in IH by lia. specialize (IH Hs). destruct (saved mask z); [by right|done].
Qed.

(** C32. What is saved is what is loaded.  On a little-endian host and with no
    auxiliary path, saving the states of any choice of jobs, with names of up to
    63 characters, rings within their depth and room for the files, lets each of
    the chosen jobs load, by [fio_verify_load_state] as the next run does, the
    number of its writes, its depth and files, the state of its random generator
    and its completions; and a file in which one byte of the state has changed is
    refused. *)
Theorem vstate_roundtrip mask room jcs fs : jobs_ok jcs -> Z.of_nat (length jcs) < 2 ^ 31 ->
  Forall (fun '(j, _) => (24 + list_size j <= room)%nat) jcs ->
  exists fs', verify_save_state false mask None room jcs.*1 fs = Some fs' /\
    forall i j c, jcs !! i = Some (j, c) -> saved mask (Z.of_nat i) = true ->
      fio_verify_load_state false true (vj_name j) (Z.of_nat i + 1) fs' = Some (0, Some (loaded j c)) /\
      forall s, one_byte (state_bytes (Z.of_nat i) j c) s ->
        fio_verify_load_state false true (vj_name j) (Z.of_nat i + 1)
          (<[verify_state_gen_name (vj_name j) local (Z.of_nat i) := damaged (Z.of_nat i) j c s]> fs') = Some (1, None).
Proof.
  intros H Hn Hr. destruct (save_load mask None room jcs fs H Hn) as (fs' & E & Hl); [cbn; lia|done|]. exists fs'. split; [done|]. intros i j c Hi Hs.
  assert (Hj : job_ok j c) by exact (proj1 (list.Forall_forall _ _) H _ (list_elem_of_lookup_2 _ _ _ Hi)). pose proof (lookup_lt_Some _ _ _ Hi) as Hlt.
  unfold fio_verify_load_state. cbn [negb]. split.
  - rewrite (load_any _ _ _ j c (state_bytes (Z.of_nat i) j c)); [|done|by apply Hl|by apply length_state]. rewrite Z.eqb_refl, (assign_ok (Z.of_nat i) j c); [done|done| |by apply length_state].
    unfold state_bytes. apply io_list_read; [done|unfold uint; lia].
  - intros s Hs'. rewrite (load_any _ _ _ j c s); [|done|apply lookup_insert_eq|rewrite (one_byte_length _ _ Hs'); by apply length_state].
    destruct (one_byte_crc _ _ Hs') as (_ & Hne & _). by rewrite (proj2 (Z.eqb_neq _ _)).
Qed.

(** ** An interrupted job *)

(** A job of one file that has issued the writes [ws], of which the first [c] have
    completed, in order. *)
Definition interrupted (d fileno : Z) (rand : frand_state) (name : list Z) (ws : list (Z * Z)) (c : nat) (f : wfile) : vjob :=
  VJob d 1 (Z.of_nat c) (Z.of_nat (length ws)) rand name [f].

Lemma interrupted_ok d fileno rand name ws c fw lw : 0 < d < 2 ^ 32 -> uint 64 fileno -> rand_ok rand -> 0 ∉ name -> (length name <= 63)%nat ->
  Forall (fun w => uint 64 w.1) ws -> Z.of_nat (length ws) < 2 ^ 64 -> (c <= length ws)%nat ->
  exists f, log_writes d (with_log d (WFile fileno fw lw None 0)) (take c ws) = Some f /\
    job_ok (interrupted d fileno rand name ws c f) ((fun x => (fileno, x)) <$> newest (c `min` Z.to_nat d) (take c ws.*1)).
Proof.
  intros Hd Hf Hrand Hz Hname Hws Hsz Hc. destruct (log_all d Hd (take c ws) (with_log d (WFile fileno fw lw None 0)) [] _ (log_start (Z.to_nat d)) eq_refl) as (f & ring & E & Ec & En & Hr).
  cbn [app] in Hr. rewrite fmap_take in Hr. exists f. split; [done|]. set (xs := take c ws.*1) in *. assert (Hlx : length xs = c) by (subst xs; rewrite length_take, length_fmap; lia).
  assert (Hlen : length (newest (c `min` Z.to_nat d) xs) = (c `min` Z.to_nat d)%nat) by (unfold newest; rewrite length_take, length_rev; lia).
  split; cbn [interrupted vj_iodepth vj_nr_files vj_issues vj_random vj_name vj_files]; try done.
  - unfold uint. lia.
  - unfold uint. lia.
  - cbn [fill_file_completions]. unfold __fill_file_completions. rewrite Ec. cbn [vj_blocks vj_iodepth interrupted].
    assert (Hm : Z.to_nat (if Z.of_nat c <? d then Z.of_nat c else d) = (c `min` Z.to_nat d)%nat) by (destruct (Z.ltb_spec (Z.of_nat c) d); lia). rewrite Hm.
    rewrite (backwards_ring d xs ring _ Hr Hd) by lia. cbn [mbind option_bind]. rewrite app_nil_r, En. done.
  - apply Forall_fmap. apply list.Forall_forall. intros x Hx. split; [done|]. cbn. unfold newest in Hx. apply (subseteq_take _ _), list_elem_of_In, in_rev, list_elem_of_In in Hx.
    subst xs. apply (subseteq_take _ _) in Hx. apply list_elem_of_fmap in Hx as (w & -> & Hw). exact (proj1 (list.Forall_forall _ _) Hws w Hw).
  - rewrite length_fmap, Hlen. lia.
Qed.

(** C14. Verification after an interruption stops where completion stopped, for a
    job of one file and no auxiliary path on a little-endian host.  The job, of
    depth [d], has issued writes to distinct offsets, of which the first [c] have
    completed, in order, and at most [d] are in flight, and no more than [d] or at
    least [2 * d] have been issued.  Its ring, saved at the interruption and
    loaded by the run that verifies, makes [verify_state_should_stop], asked about
    each write when all the writes before it have been verified and none is in
    flight, let exactly the completed writes pass. *)
Theorem interrupted_verify d fileno rand name ws c fw lw room fs : 0 < d < 2 ^ 32 -> uint 64 fileno -> rand_ok rand -> 0 ∉ name -> (length name <= 63)%nat ->
  Forall (fun w => uint 64 w.1) ws -> NoDup ws.*1 -> Z.of_nat (length ws) < 2 ^ 64 -> (c <= length ws)%nat -> Z.of_nat (length ws) <= Z.of_nat c + d ->
  (Z.of_nat (length ws) <= d \/ 2 * d <= Z.of_nat (length ws)) -> (176 + Z.to_nat d * 16 <= room)%nat ->
  exists f fs' vs, log_writes d (with_log d (WFile fileno fw lw None 0)) (take c ws) = Some f /\
    verify_save_state false IO_LIST_ALL None room [interrupted d fileno rand name ws c f] fs = Some fs' /\
    fio_verify_load_state false true name 1 fs' = Some (0, Some vs) /\
    forall k x, ws.*1 !! k = Some x -> verify_state_should_stop (Some vs) (Z.of_nat k) fileno x = negb (k <? c)%nat.
Proof.
  intros Hd Hf Hrand Hz Hname Hws Hnd Hsz Hc Hfl Hcase Hroom.
  destruct (interrupted_ok d fileno rand name ws c fw lw Hd Hf Hrand Hz Hname Hws Hsz Hc) as (f & E & Hj). set (comps := (fun x => (fileno, x)) <$> newest (c `min` Z.to_nat d) (take c ws.*1)) in *. set (j := interrupted _ _ _ _ _ _ _) in *.
  destruct (save_load IO_LIST_ALL None room [(j, comps)] fs) as (fs' & Es & Hl); [constructor; [exact Hj|constructor]|done|cbn; lia| |].
  { constructor; [|constructor]. unfold list_size, IO_LIST_HDR. cbn [j interrupted vj_iodepth vj_nr_files]. rewrite Z.mul_1_r. lia. }
  exists f, fs', (loaded j comps). split_and!; [done|exact Es| |].
  - specialize (Hl 0%nat j comps eq_refl eq_refl). unfold fio_verify_load_state. cbn [negb]. pose proof (load_any name local 0 j comps (state_bytes 0 j comps) fs' Hj Hl (length_state 0 j comps Hj)) as HL.
    change (0 + 1) with 1 in HL. rewrite HL, Z.eqb_refl.
    rewrite (assign_ok 0 j comps); [done|done| |by apply length_state]. unfold state_bytes. by apply io_list_read.
  - intros k x Hx. apply (stop_exact d fileno ws.*1 c); rewrite ?length_fmap; try done. split_and!; [done|cbn; by rewrite length_fmap|done].
Qed.

Definition five_writes : list (Z * Z) := [(8192, 4096); (0, 4096); (16384, 4096); (4096, 4096); (12288, 4096)].
Lemma interrupted_verify_witness : exists f fs' vs, log_writes 2 (with_log 2 (WFile 0 (-1ULL) (-1ULL) None 0)) (take 4 five_writes) = Some f /\
  verify_save_state false IO_LIST_ALL None 1000 [interrupted 2 0 (init_rand false) [106] five_writes 4 f] ∅ = Some fs' /\
  fio_verify_load_state false true [106] 1 fs' = Some (0, Some vs) /\
  verify_state_should_stop (Some vs) 3 0 4096 = false /\ verify_state_should_stop (Some vs) 4 0 12288 = true.
Proof.
  destruct (interrupted_verify 2 0 (init_rand false) [106] five_writes 4 (-1ULL) (-1ULL) 1000 ∅) as (f & fs' & vs & E1 & E2 & E3 & E4);
    [lia|decided|repeat constructor; vm_compute; congruence|decided|cbn; lia|repeat constructor; vm_compute; congruence|decided|vm_compute; congruence|cbn; lia|vm_compute; congruence|right; vm_compute; congruence|cbn; lia|].
  exists f, fs', vs. split_and!; [exact E1|exact E2|exact E3|exact (E4 3%nat 4096 eq_refl)|exact (E4 4%nat 12288 eq_refl)].
Defined.

Definition two_jobs (f g : wfile) : list vjob := [VJob 2 1 4 5 (init_rand false) [106] [f]; VJob 2 1 1 1 (init_rand true) [106] [g]].
Lemma vstate_roundtrip_witness : exists f g cf cg fs', jobs_ok [(VJob 2 1 4 5 (init_rand false) [106] [f], cf); (VJob 2 1 1 1 (init_rand true) [106] [g], cg)] /\
  verify_save_state false IO_LIST_ALL None 1000 (two_jobs f g) ∅ = Some fs' /\
  fio_verify_load_state false true [106] 2 fs' = Some (0, Some (VState 1 2 1 1 1 (rand_words (init_rand true)) [(0, 512)])).
Proof.
  set (f := WFile 0 0 8192 (Some [4096; 16384]) 0). set (g := WFile 0 512 1024 (Some [512; 0]) 1).
  assert (Hok : jobs_ok [(VJob 2 1 4 5 (init_rand false) [106] [f], [(0, 16384); (0, 4096)]); (VJob 2 1 1 1 (init_rand true) [106] [g], [(0, 512)])]).
  { constructor; [|constructor; [|constructor]]; (split; [decided|decided|unfold rand_ok; decided|decided|reflexivity|decided|vm_compute; congruence]). }
  destruct (vstate_roundtrip IO_LIST_ALL 1000 _ ∅ Hok) as (fs' & E & H); [done|decided|].
  exists f, g, [(0, 16384); (0, 4096)], [(0, 512)], fs'. split_and!; [exact Hok|exact E|]. exact (proj1 (H 1%nat _ _ eq_refl eq_refl)).
Defined.

(** ** Where the saved state misleads *)

(** Between [d] and [2 * d] writes the first [d] of them are never looked up: with a
    depth of 4, five writes issued and three completed, the fourth one, which has
    not completed, is verified all the same. *)
Example window_skips_lookup :
  (let vs := VState 3 4 1 5 0 [] ((fun x => (0, x)) <$> [16384; 0; 8192]) in verify_state_should_stop (Some vs) 3 0 4096) = false.
Proof. reflexivity. Qed.

(** The number of completions of a file is that of the job: a file of which no write
    has completed reports offset 0 as written as often as its neighbour has
    completed. *)
Example idle_file_completes :
  fill_file_completions (VJob 2 2 2 2 (init_rand false) [106] []) [WFile 0 0 8192 (Some [0; 4096]) 0; WFile 1 (-1ULL) (-1ULL) (Some [0; 0]) 0] =
  Some [(0, 4096); (0, 0); (1, 0); (1, 0)].
Proof. reflexivity. Qed.

(** On a big-endian host the 64-bit conversions of the depth and of the number of
    files leave 0 in their 32 bits: the state is taken to have no completions, is
    saved without them, and cannot be assigned by its own count. *)
Example big_depth_lost :
  let j := VJob 2 1 4 5 (init_rand false) [106] [WFile 0 0 8192 (Some [4096; 16384]) 0] in
  (state ← get_all_io_list true IO_LIST_ALL [j]; (fun s => thread_io_list_sz true (drop 8 s)) <$> state) = Some IO_LIST_HDR /\
  (fs ← verify_save_state true IO_LIST_ALL None 1000 [j] ∅; fio_verify_load_state true true [106] 1 fs) = None.
Proof. vm_compute. done. Qed.

(** A state is saved below the auxiliary path and looked for outside of it. *)
Example aux_path_not_searched :
  let j := VJob 2 1 4 5 (init_rand false) [106] [WFile 0 0 8192 (Some [4096; 16384]) 0] in
  (fs ← verify_save_state false IO_LIST_ALL (Some [116]) 1000 [j] ∅; fio_verify_load_state false true [106] 1 fs) = Some (1, None).
Proof. vm_compute. done. Qed.

(** A name of 64 characters is saved with 63 and looked for with all of them. *)
Example long_name_not_found :
  let j := VJob 2 1 4 5 (init_rand false) (replicate 64 106) [WFile 0 0 8192 (Some [4096; 16384]) 0] in
  (fs ← verify_save_state false IO_LIST_ALL None 1000 [j] ∅; fio_verify_load_state false true (vj_name j) 1 fs) = Some (1, None).
Proof. vm_compute. done. Qed.
